(* ===== verification/_CoqProject ===== *)
-Q . S2P
Prelude.v
Encoding.v
Primitives.v
U256.v
Header.v
Covenants.v
Resource.v
NameState.v
NameTransition.v
Transaction.v
Block.v
Mining.v
CompactBlock.v
Linkage.v
NameTx.v
Urkel.v
Wire.v
PacketCodec.v
Journal.v
Script.v
Interpreter.v
Cbor.v
ScriptSteps.v
K256.v
Swap.v
SwapScript.v
SwapOffer.v
SwapAuction.v
SwapCodec.v
Htlc.v
HtlcScript.v
Listing.v
Experimental.v
Negotiation.v
PeerState.v
Envelope.v
Registry.v
DnsRelayWire.v
OdohWire.v
Odoh.v
Text.v
ServiceAuthority.v
Chat.v
HrmUri.v
BTree.v
HrmModel.v
HrmCommitment.v
HrmValidation.v
Hnsa.v
Lease.v
AuthorityState.v
Market.v
MarketSwap.v
MarketSession.v
MarketWire.v
MarketReceipt.v
Hnsr.v
