(* ===== verification/Prelude.v ===== *)
(** * hns-rs: a verification of the Handshake protocol crates

    The repository is a workspace of Rust crates for the Handshake naming chain:
    consensus data and its checks, the script machine, authenticated name proofs,
    the peer wire, name swaps, an anti-rollback journal and an experimental peer
    extension. This development models them as executable Rocq functions and proves
    what makes them correct. Source paths below are under [src/crates/].

    ** Conventions

    - [Result] is [result], [?] its bind, a [From] conversion is [map_err]; error
      enumerations are inductive types with the source's cases, and formatted
      error texts are kept as the values they print.
    - Integers are [Z] with their width written out: [u16], [u32], [u64] are range
      predicates, wrap-around is [wrap], checked and saturating operations are
      [checked_add] and so on. [usize] is 64 bits wide, and a slice is never longer
      than [isize_max] bytes, as Rust guarantees.
    - Bytes are [Byte.byte], vectors and slices are lists, [HashSet] and [BTreeSet]
      are [gset], [sort] is [merge_sort]. A method on [&mut self] is a state
      transformer that also returns the object after an error.
    - Digests are outside the repository: class [Crypto] (file [Primitives]) gives
      the functions with the length of their output, and theorems that need more
      assume freedom of collisions on the named messages only. [toy_crypto] is an
      instance, used by the witnesses. secp256k1 is the class [K256], what its
      documentation promises is [K256Laws] (instance [toy_k256]); hns-script's
      verifier trait is the class [SignatureVerifier]. Other third-party code is a
      class each: [KeyCodec] (SEC1 and DER), [Hex] and [Base64], [Hpke]. What an
      embedding supplies is a class too: [HrmAdapters] (resolver, proofs, profiles,
      clock), [FencedLeaseGuard] and [AuthorityHost] (guard, loader, store,
      retrieval), whose documented contract is [AuthorityHostLaws].
    - Witnesses (lemmas ending in [_witness]) apply a theorem to concrete data.

    ** Parts, files and what is shown

    - hns-encoding ([hns-encoding/src/lib.rs]): [Encoding]. The cursor decoder and
      the encoder every codec uses. A codec theorem states that decoding accepts
      exactly the encodings of well-typed values; the relations [reads] and [took]
      compose such theorems field by field.
    - hns-primitives: [Primitives]. Outpoints, amounts, chainwork limbs, proved to
      be 256-bit arithmetic.
    - hns-header-consensus: [U256], [Header]. Header codec, targets, retargeting
      (equal to the integer rule), header validation (exact acceptance condition).
    - hns-covenants: [Covenants], [NameState], [NameTransition], [Resource]. Codecs,
      name syntax, DNS resources with name compression against a grammar.
    - hns-transaction: [Transaction], [Linkage], [NameTx]. Codec, weight, the
      covenant transition check (equal to a declarative relation, conserving locked
      value), transfer and finalize builders.
    - hns-mining: [Block], [Mining]. Merkle commitments, block validation, jobs and
      admission of solutions.
    - hns-p2p-wire: [Wire], [PacketCodec], [CompactBlock]. Packets, frames, the
      stream decoder (independent of how the stream is cut), compact relay.
    - hns-urkel-proof: [Urkel]. Proof verification is sound and complete against an
      abstract tree.
    - hns-script: [Script], [Interpreter], [ScriptSteps], [K256]. Signature hashes,
      parser, the whole stack machine; spending conditions of standard programs.
    - hns-swap: [Swap], [SwapScript], [SwapOffer], [SwapAuction], [SwapCodec],
      [Htlc], [HtlcScript], [Listing]. Lock scripts and HTLCs run by the
      interpreter (who can spend, exactly), offers, auctions, listings.
    - hns-rollback-journal: [Journal]. Records, mutations, recovery; with a database
      an adversary can roll back, recovery reaches exactly the newest state.
    - hns-hrm: [Cbor] ([cbor.rs], the deterministic CBOR codec), [HrmUri], [BTree]
      (ordered sets and maps of byte strings), [HrmModel], [HrmCommitment],
      [HrmValidation]. Manifests decode exactly from their encodings; the commitment
      chosen from a name's records does not depend on their order; an authorization
      rests on an unbroken chain of current signed manifests, within every budget,
      and the walk that finds it ends.
    - hns-service-authority: [ServiceAuthority] ([lib.rs], hsa1 records and the chain
      of keys under them), [Hnsa] ([hrm.rs], named services in HRM manifests), [Lease]
      ([lease.rs], fenced leases), [AuthorityState] ([authority_state.rs]). The
      generations of a service never go back, the stored aggregate changes only by
      lawful successors whatever fails, and released results are durable.
    - hns-dns-relay-protocol: [DnsRelayWire]. Requests, answers and their codecs.
    - hns-odoh-protocol: [OdohWire] (bodies, configurations, target records, the
      envelope), [Odoh] (sealing and opening). A conversation is answered as asked.
    - hns-chat-protocol: [Chat] over [Text] (base32, decimal, hexadecimal). Bindings
      of chat keys to the owner of a name; envelopes and acknowledgements.
    - hns-p2p-experimental: [Experimental] (assignments, request tracker, policy),
      [Negotiation] (hellos and the agreement), [PeerState] (admission of work on a
      connection), [Envelope] (extension envelopes, registry handshake), [Registry]
      (assignment documents). The two ends of a connection agree, work is admitted
      exactly under the stated conditions, refusals are final.
    - hns-marketplace-protocol: [Market] ([types.rs], [crypto.rs], [direct.rs]),
      [MarketSwap] and [MarketSession] ([swap.rs]), [MarketWire] ([shakescape.rs]),
      [MarketReceipt] ([relay_acceptance.rs]). Which hello an offer and its acceptance
      agree on, that the handshake completes, who may report which event of a session,
      which HTLC a side has, and that every message has one spelling.

    The files build on each other in the order of [_CoqProject]: blocks use headers
    and transactions, swaps use covenants, transactions and the interpreter, the
    peer state uses the negotiated registry.

    ** Fuel and bounds

    Recursion that is not structural runs on fuel, and lemmas show that it never
    runs out: name expansion [NAME_FUEL = 266] (255 bytes of name, pointers strictly
    backwards), resource records [length raw], script loops [length script] (each
    instruction takes a byte), Merkle levels as many as leaves, [skip_filled] one
    more than the slots, [cut_frames] one more than the buffered bytes, recovery
    three rounds, the walk through delegating parents [LEVELS] (the depth limit and
    two more). CBOR recursion counts the levels still allowed, as the code does.
    [debug_assert!] is not modelled. The script model was compared with the HSD
    vectors of the repository: 858 of 876 agree, the other 18 depend on real digests.

    ** Not modelled

    - hns-primitives: hex parsing and [Display].
    - hns-hnsr-protocol: relay circuits and routing on top of the parts above.
    - hns-conformance: reads JSON vectors from files.
    - Serde and TOML parsing, logging, [Debug] and [Display], zeroing on drop. *)

From stdpp Require Export base tactics decidable option list sets numbers strings.
From stdpp Require countable.
From Stdlib Require Export ZArith Lia Strings.Byte.

#[global] Unset Program Cases.
Declare Scope hns_scope.
Delimit Scope hns_scope with hns.

Local Open Scope Z_scope.

(** ** Results

    Rust's [Result<A, E>]; [?] is the monadic bind, and the [From] conversion it
    inserts is written [map_err]. *)
Inductive result (E A : Type) : Type :=
| Ok (a : A)
| Err (e : E).
Arguments Ok {E A} a.
Arguments Err {E A} e.

#[global] Instance result_ret {E} : MRet (result E) := fun _ a => Ok a.
#[global] Instance result_bind {E} : MBind (result E) :=
  fun _ _ f m => match m with Ok a => f a | Err e => Err e end.

Definition map_err {E E' A} (f : E -> E') (r : result E A) : result E' A :=
  match r with Ok a => Ok a | Err e => Err (f e) end.

Definition ok_or {E A} (o : option A) (e : E) : result E A :=
  match o with Some a => Ok a | None => Err e end.

Definition is_ok {E A} (r : result E A) : bool :=
  match r with Ok _ => true | Err _ => false end.

(** [assert_or b e] is the guard [if !b { return Err(e) }]. *)
Definition assert_or {E} (b : bool) (e : E) : result E unit :=
  if b then Ok tt else Err e.

Lemma bind_Ok {E A B} (f : A -> result E B) (m : result E A) b :
  m ≫= f = Ok b <-> exists a, m = Ok a /\ f a = Ok b.
Proof. destruct m; simpl; naive_solver. Qed.

Lemma assert_or_Ok {E} b (e : E) u : assert_or b e = Ok u <-> b = true.
Proof. destruct b, u; simpl; naive_solver. Qed.

Lemma map_err_Ok {E E' A} (f : E -> E') (r : result E A) a :
  map_err f r = Ok a <-> r = Ok a.
Proof. destruct r; simpl; naive_solver. Qed.

Lemma ok_or_Ok {E A} (o : option A) (e : E) a : ok_or o e = Ok a <-> o = Some a.
Proof. destruct o; simpl; naive_solver. Qed.

(** [for x in xs { f(x)?; }] with an accumulator, and without one. *)
Fixpoint try_fold {E S A} (f : S -> A -> result E S) (s : S) (xs : list A) : result E S :=
  match xs with
  | [] => Ok s
  | x :: xs => s ← f s x; try_fold f s xs
  end.
Definition try_each {E A} (f : A -> result E unit) (xs : list A) : result E unit :=
  try_fold (fun _ x => f x) tt xs.

(** [iter().map(f).collect::<Result<Vec<_>, _>>()] *)
Fixpoint try_map {E A B} (f : A -> result E B) (xs : list A) : result E (list B) :=
  match xs with
  | [] => Ok []
  | x :: xs => y ← f x; ys ← try_map f xs; Ok (y :: ys)
  end.

Lemma try_fold_app {E S A} (f : S -> A -> result E S) s xs ys :
  try_fold f s (xs ++ ys) = s' ← try_fold f s xs; try_fold f s' ys.
Proof.
  revert s. induction xs as [|x xs IH]; intros s; [done|]. cbn.
  destruct (f s x) as [s'|e]; [apply IH|done].
Qed.

Lemma try_each_Ok {E A} (f : A -> result E unit) xs u :
  try_each f xs = Ok u <-> Forall (fun x => f x = Ok tt) xs.
Proof.
  destruct u. unfold try_each. induction xs as [|x xs IH]; [by split|]. cbn [try_fold].
  rewrite bind_Ok, Forall_cons, <- IH. split.
  - intros ([] & ? & ?). done.
  - intros [? ?]. by exists tt.
Qed.

Lemma try_map_Ok {E A B} (f : A -> result E B) (g : A -> B) xs :
  Forall (fun x => f x = Ok (g x)) xs -> try_map f xs = Ok (g <$> xs).
Proof. induction 1 as [|x xs Hx _ IH]; [done|]. cbn. by rewrite Hx; cbn; rewrite IH. Qed.

Lemma try_map_inv {E A B} (f : A -> result E B) xs ys :
  try_map f xs = Ok ys <-> Forall2 (fun x y => f x = Ok y) xs ys.
Proof.
  split.
  - revert ys. induction xs as [|x xs IH]; intros ys H; cbn [try_map] in H; [injection H as <-; constructor|].
    apply bind_Ok in H as (y & Hy & H). apply bind_Ok in H as (zs & Hz & [= <-]). constructor; [done|]. by apply IH.
  - induction 1 as [|x y xs ys Hx _ IH]; [done|]. cbn [try_map]. by rewrite Hx; cbn; rewrite IH.
Qed.

#[global] Instance result_eq_dec {E A} `{!EqDecision E, !EqDecision A} :
  EqDecision (result E A).
Proof. solve_decision. Defined.

(** Break a successful computation into its successful steps. *)
Ltac inv_ok :=
  repeat match goal with
  | H : _ ≫= _ = Ok _ |- _ => apply bind_Ok in H; destruct H as (? & ? & H)
  | H : map_err _ _ = Ok _ |- _ => apply map_err_Ok in H
  | H : ok_or _ _ = Ok _ |- _ => apply ok_or_Ok in H
  | H : assert_or _ _ = Ok _ |- _ => apply assert_or_Ok in H
  | H : Ok _ = Ok _ |- _ => injection H as H
  | H : Err _ = Ok _ |- _ => discriminate H
  | H : mret _ = Ok _ |- _ => injection H as H
  end; subst.

(** ** Machine integers

    Unsigned integers are [Z] with their range as a predicate; [usize] is 64
    bits wide. *)
Definition u8_max : Z := 255.
Definition u16_max : Z := 65535.
Definition u32_max : Z := 4294967295.
Definition u64_max : Z := 18446744073709551615.
Definition usize_max : Z := u64_max.
(** Rust slices never exceed [isize::MAX] bytes. *)
Definition isize_max : Z := 9223372036854775807.

Definition u16 (v : Z) : Prop := 0 <= v <= u16_max.
Definition u32 (v : Z) : Prop := 0 <= v <= u32_max.
Definition u64 (v : Z) : Prop := 0 <= v <= u64_max.

Definition wrap (w v : Z) : Z := v mod 2 ^ w.

Definition checked_add (max a b : Z) : option Z :=
  if a + b <=? max then Some (a + b) else None.
Definition checked_sub (a b : Z) : option Z :=
  if b <=? a then Some (a - b) else None.
Definition checked_mul (max a b : Z) : option Z :=
  if a * b <=? max then Some (a * b) else None.
Definition saturating_add (max a b : Z) : Z := Z.min max (a + b).
Definition saturating_sub (a b : Z) : Z := Z.max 0 (a - b).
Definition div_ceil (a b : Z) : Z := (a + b - 1) / b.

Lemma checked_add_Some max a b c : checked_add max a b = Some c <-> c = a + b /\ a + b <= max.
Proof. unfold checked_add. destruct (Z.leb_spec (a + b) max); naive_solver lia. Qed.

Lemma checked_sub_Some a b c : checked_sub a b = Some c <-> c = a - b /\ b <= a.
Proof. unfold checked_sub. destruct (Z.leb_spec b a); naive_solver lia. Qed.

Lemma checked_mul_Some max a b c : checked_mul max a b = Some c <-> c = a * b /\ a * b <= max.
Proof. unfold checked_mul. destruct (Z.leb_spec (a * b) max); naive_solver lia. Qed.

(** ** Bytes *)
#[global] Instance byte_eq_decision : EqDecision byte := Byte.byte_eq_dec.
#[global] Instance byte_countable : countable.Countable byte :=
  countable.inj_countable Byte.to_N Byte.of_N Byte.of_to_N.

(** [b2z] widens a [u8]; [z2b] is the truncating cast [as u8]. *)
Definition b2z (b : byte) : Z := Z.of_N (Byte.to_N b).
Definition z2b (z : Z) : byte :=
  match Byte.of_N (Z.to_N (z mod 256)) with Some b => b | None => x00 end.

Lemma b2z_range b : 0 <= b2z b < 256.
Proof. unfold b2z. pose proof (Byte.to_N_bounded b). lia. Qed.

Lemma b2z_z2b z : b2z (z2b z) = z mod 256.
Proof.
  unfold b2z, z2b. pose proof (Z.mod_pos_bound z 256 ltac:(lia)).
  destruct (Byte.of_N (Z.to_N (z mod 256))) eqn:E.
  - apply Byte.to_of_N in E. lia.
  - apply Byte.of_N_None_iff in E. lia.
Qed.

Lemma b2z_inj a b : b2z a = b2z b -> a = b.
Proof.
  unfold b2z. intros H. apply N2Z.inj in H.
  pose proof (Byte.of_to_N a) as Ha. rewrite H, Byte.of_to_N in Ha. congruence.
Qed.

Lemma z2b_b2z b : z2b (b2z b) = b.
Proof. apply b2z_inj. rewrite b2z_z2b. apply Z.mod_small, b2z_range. Qed.

Lemma z2b_small z : 0 <= z < 256 -> b2z (z2b z) = z.
Proof. intros. rewrite b2z_z2b. by apply Z.mod_small. Qed.

Definition byte_xor (a b : byte) : byte := z2b (Z.lxor (b2z a) (b2z b)).

(** Byte-string literals, Rust's [b"..."]. *)
Definition bstr (s : string) : list byte := String.list_byte_of_string s.

(** Byte-array literals, [[0x12, 0x34, ..]]. *)
Definition octets (l : list Z) : list byte := z2b <$> l.

(** ** Slices *)
Definition len {A} (l : list A) : Z := Z.of_nat (length l).

(** [slice l a b] is [&l[a..b]]; callers establish [a <= b <= len l]. *)
Definition slice {A} (l : list A) (a b : Z) : list A :=
  take (Z.to_nat (b - a)) (drop (Z.to_nat a) l).

(** [get l i] is [l.get(i)] for an index already known to be non-negative. *)
Definition get {A} (l : list A) (i : Z) : option A := l !! Z.to_nat i.

(** Lexicographic order of byte arrays, Rust's derived [Ord]. *)
Fixpoint bytes_le (a b : list byte) : bool :=
  match a, b with
  | [], _ => true
  | _ :: _, [] => false
  | x :: a, y :: b =>
    if b2z x <? b2z y then true
    else if b2z y <? b2z x then false
    else bytes_le a b
  end.

Lemma len_app {A} (a b : list A) : len (a ++ b) = len a + len b.
Proof. unfold len. rewrite length_app. lia. Qed.
Lemma len_cons {A} (x : A) l : len (x :: l) = 1 + len l.
Proof. unfold len. simpl. lia. Qed.
Lemma len_nil {A} : len (@nil A) = 0.
Proof. done. Qed.
Lemma len_nonneg {A} (l : list A) : 0 <= len l.
Proof. unfold len. lia. Qed.
Lemma len_length {A} (l : list A) (n : nat) : length l = n -> len l = Z.of_nat n.
Proof. unfold len. lia. Qed.
Lemma len_nonzero {A} (l : list A) : l <> [] <-> len l <> 0.
Proof. destruct l; [done|]. rewrite len_cons. pose proof (len_nonneg l). split; [lia|done]. Qed.
Lemma len_replicate {A} (n : nat) (x : A) : len (replicate n x) = Z.of_nat n.
Proof. unfold len. by rewrite length_replicate. Qed.

Lemma forallb_imp {A} (f g : A -> bool) l : (forall x, f x = true -> g x = true) -> forallb f l = true -> forallb g l = true.
Proof. intros H. rewrite !forallb_forall. intros F x I. by apply H, F. Qed.

Lemma Ok_inj {E A} (a b : A) : (Ok a : result E A) = Ok b -> a = b.
Proof. by intros [= ->]. Qed.

Lemma bool_decide_eqb_refl {A} `{!EqDecision A} (x : A) : bool_decide (x = x) = true.
Proof. by apply bool_decide_eq_true_2. Qed.

(** ** Little- and big-endian integers, [to_le_bytes] and [from_le_bytes] *)
Fixpoint to_le_bytes (n : nat) (v : Z) : list byte :=
  match n with
  | O => []
  | S n => z2b v :: to_le_bytes n (v / 256)
  end.

Fixpoint from_le_bytes (bs : list byte) : Z :=
  match bs with
  | [] => 0
  | b :: bs => b2z b + 256 * from_le_bytes bs
  end.

Definition to_be_bytes (n : nat) (v : Z) : list byte := rev (to_le_bytes n v).
Definition from_be_bytes (bs : list byte) : Z := from_le_bytes (rev bs).

Lemma length_to_le_bytes n v : length (to_le_bytes n v) = n.
Proof. revert v; induction n; intros; simpl; auto. Qed.

Lemma len_to_be_bytes n v : len (to_be_bytes n v) = Z.of_nat n.
Proof. unfold len, to_be_bytes. by rewrite length_rev, length_to_le_bytes. Qed.
Lemma length_to_be_bytes n v : length (to_be_bytes n v) = n.
Proof. unfold to_be_bytes. by rewrite length_rev, length_to_le_bytes. Qed.

Lemma len_to_le_bytes n v : len (to_le_bytes n v) = Z.of_nat n.
Proof. unfold len. by rewrite length_to_le_bytes. Qed.

Lemma from_to_le_bytes n v : from_le_bytes (to_le_bytes n v) = v mod 256 ^ Z.of_nat n.
Proof.
  revert v; induction n as [|n IH]; intros v; [by rewrite Z.mod_1_r|].
  cbn [to_le_bytes from_le_bytes]. rewrite IH, b2z_z2b, Nat2Z.inj_succ, Z.pow_succ_r by lia.
  rewrite Z.rem_mul_r by lia. done.
Qed.

Lemma from_to_le_bytes_small n v :
  0 <= v < 256 ^ Z.of_nat n -> from_le_bytes (to_le_bytes n v) = v.
Proof. intros. rewrite from_to_le_bytes. by apply Z.mod_small. Qed.

Lemma from_le_bytes_range bs : 0 <= from_le_bytes bs < 256 ^ len bs.
Proof.
  unfold len. induction bs as [|b bs IH]; [simpl; lia|].
  cbn [from_le_bytes length]. rewrite Nat2Z.inj_succ, Z.pow_succ_r by lia.
  pose proof (b2z_range b). lia.
Qed.

Lemma to_from_le_bytes bs : to_le_bytes (length bs) (from_le_bytes bs) = bs.
Proof.
  induction bs as [|b bs IH]; [done|]. cbn [from_le_bytes length to_le_bytes].
  pose proof (b2z_range b). f_equal.
  - apply b2z_inj. rewrite b2z_z2b, Z.mul_comm, Z_mod_plus_full. by apply Z.mod_small.
  - rewrite Z.mul_comm, Z.div_add, Z.div_small, Z.add_0_l by lia. apply IH.
Qed.

Lemma to_from_le_bytes_len bs n :
  length bs = n -> to_le_bytes n (from_le_bytes bs) = bs.
Proof. intros <-. apply to_from_le_bytes. Qed.

Lemma from_le_bytes_inj a b :
  length a = length b -> from_le_bytes a = from_le_bytes b -> a = b.
Proof. intros L E. rewrite <- (to_from_le_bytes a), <- (to_from_le_bytes b), L, E. done. Qed.

Lemma from_le_bytes_app a b :
  from_le_bytes (a ++ b) = from_le_bytes a + 256 ^ len a * from_le_bytes b.
Proof.
  unfold len. induction a as [|x a IH]; [rewrite Z.mul_1_l; done|].
  cbn [app from_le_bytes length]. rewrite IH, Nat2Z.inj_succ, Z.pow_succ_r by lia. lia.
Qed.

Lemma to_from_be_bytes_len bs n :
  length bs = n -> to_be_bytes n (from_be_bytes bs) = bs.
Proof.
  intros <-. unfold to_be_bytes, from_be_bytes.
  rewrite to_from_le_bytes_len by apply length_rev. apply rev_involutive.
Qed.

Lemma from_to_be_bytes_small n v :
  0 <= v < 256 ^ Z.of_nat n -> from_be_bytes (to_be_bytes n v) = v.
Proof.
  intros. unfold from_be_bytes, to_be_bytes. rewrite rev_involutive.
  by apply from_to_le_bytes_small.
Qed.

Lemma from_be_bytes_cons b bs :
  from_be_bytes (b :: bs) = b2z b * 256 ^ len bs + from_be_bytes bs.
Proof.
  unfold from_be_bytes. cbn [rev]. rewrite from_le_bytes_app. cbn [from_le_bytes].
  unfold len. rewrite length_rev, Z.mul_0_r, Z.add_0_r. lia.
Qed.

Lemma from_be_bytes_range bs : 0 <= from_be_bytes bs < 256 ^ len bs.
Proof.
  unfold from_be_bytes. pose proof (from_le_bytes_range (rev bs)) as H.
  unfold len in *. by rewrite length_rev in H.
Qed.

(** The lexicographic order of equally long byte arrays is the numeric order
    of the big-endian numbers they spell. *)
Lemma bytes_le_spec a b :
  length a = length b -> bytes_le a b = (from_be_bytes a <=? from_be_bytes b).
Proof.
  revert b; induction a as [|x a IH]; intros [|y b] L; try done.
  injection L as L. cbn [bytes_le]. rewrite !from_be_bytes_cons, (IH b L). clear IH.
  pose proof (from_be_bytes_range a). pose proof (from_be_bytes_range b).
  unfold len in *. rewrite L in *. set (P := 256 ^ Z.of_nat (length b)) in *.
  destruct (Z.ltb_spec (b2z x) (b2z y)); [symmetry; apply Z.leb_le; nia|].
  destruct (Z.ltb_spec (b2z y) (b2z x)); [symmetry; apply Z.leb_gt; nia|].
  replace (b2z x) with (b2z y) by lia.
  destruct (Z.leb_spec (from_be_bytes a) (from_be_bytes b)); symmetry;
    [apply Z.leb_le | apply Z.leb_gt]; lia.
Qed.

(** ** Automation

    [slen] normalises lengths of concatenations; the databases [codec] and
    [lens] hold the lemmas the encoders and decoders share. *)
Create HintDb codec.
Create Rewrite HintDb lens.
#[export] Hint Rewrite @len_app @len_cons @len_nil len_to_le_bytes len_to_be_bytes @len_replicate
  @length_app length_to_le_bytes length_to_be_bytes : lens.
Ltac slen := autorewrite with lens in *; simpl Z.of_nat in *.
Ltac ulia :=
  unfold u16, u32, u64, u8_max, u16_max, u32_max, usize_max, u64_max, isize_max in *; lia.

(** [zcase] splits on the next integer comparison of a hypothesis or the goal. *)
Ltac zcase :=
  match goal with
  | H : context [if ?a <? ?b then _ else _] |- _ => destruct (Z.ltb_spec a b)
  | H : context [if ?a <=? ?b then _ else _] |- _ => destruct (Z.leb_spec a b)
  | H : context [if ?a =? ?b then _ else _] |- _ => destruct (Z.eqb_spec a b)
  | |- context [if ?a <? ?b then _ else _] => destruct (Z.ltb_spec a b)
  | |- context [if ?a <=? ?b then _ else _] => destruct (Z.leb_spec a b)
  | |- context [if ?a =? ?b then _ else _] => destruct (Z.eqb_spec a b)
  end.

(** Or-ing a shifted value with a value below the shift is addition. *)
Lemma lor_shiftl_add r x n : 0 <= n -> 0 <= x < 2 ^ n -> Z.lor (Z.shiftl r n) x = r * 2 ^ n + x.
Proof.
  intros Hn Hx.
  assert (Z.land (Z.shiftl r n) x = 0) as L.
  { apply Z.bits_inj'. intros k Hk. rewrite Z.land_spec, Z.bits_0.
    destruct (Z.lt_ge_cases k n).
    - by rewrite Z.shiftl_spec_low.
    - rewrite <- (Z.mod_small x (2 ^ n)) by done.
      rewrite Z.mod_pow2_bits_high by lia. apply andb_false_r. }
  rewrite <- Z.lxor_lor, <- Z.add_nocarry_lxor, Z.shiftl_mul_pow2 by done. done.
Qed.

(** Testing a flag with a one-bit mask. *)
Lemma land_bit f k : 0 <= k -> negb (Z.land f (Z.shiftl 1 k) =? 0) = Z.testbit f k.
Proof.
  intros Hk.
  assert (Z.land f (Z.shiftl 1 k) = if Z.testbit f k then Z.shiftl 1 k else 0) as ->.
  { apply Z.bits_inj'. intros n Hn. rewrite Z.land_spec, Z.shiftl_1_l, Z.pow2_bits_eqb by done.
    destruct (Z.eqb_spec k n) as [->|].
    - destruct (Z.testbit f n) eqn:E; [by rewrite Z.pow2_bits_true|by rewrite Z.bits_0].
    - rewrite andb_false_r. destruct (Z.testbit f k); [by rewrite Z.pow2_bits_false|by rewrite Z.bits_0]. }
  rewrite Z.shiftl_1_l. pose proof (Z.pow_pos_nonneg 2 k).
  destruct (Z.testbit f k); [|done]. destruct (Z.eqb_spec (2 ^ k) 0); [lia|done].
Qed.

(** The top bit of a number of [k + 1] bits, and the number without it. *)
Lemma top_bit m k : 0 <= k -> 0 <= m < 2 ^ (k + 1) -> Z.testbit m k = (2 ^ k <=? m).
Proof.
  intros Hk Hm. rewrite Z.pow_add_r in Hm by lia. pose proof (Z.pow_pos_nonneg 2 k).
  rewrite Z.testbit_eqb by done. destruct (Z.leb_spec (2 ^ k) m).
  - replace (m / 2 ^ k) with 1; [done|]. apply Z.div_unique with (m - 2 ^ k); lia.
  - by rewrite Z.div_small by lia.
Qed.

Lemma clear_top_bit m k :
  0 <= k < 64 -> 0 <= m < 2 ^ (k + 1) -> Z.land m (u64_max - Z.shiftl 1 k) = m mod 2 ^ k.
Proof.
  intros Hk Hm. change u64_max with (Z.ones 64).
  rewrite Z.sub_nocarry_ldiff.
  2: { apply Z.bits_inj'. intros n Hn. rewrite Z.ldiff_spec, Z.shiftl_1_l, Z.pow2_bits_eqb, Z.bits_0 by lia.
       destruct (Z.eqb_spec k n) as [->|]; [|done]. by rewrite Z.ones_spec_low by lia. }
  apply Z.bits_inj'. intros n Hn.
  rewrite Z.land_spec, Z.ldiff_spec, Z.shiftl_1_l, Z.pow2_bits_eqb by lia.
  destruct (Z.lt_ge_cases n k).
  - rewrite Z.mod_pow2_bits_low, Z.ones_spec_low by lia.
    rewrite (proj2 (Z.eqb_neq k n)) by lia. by rewrite andb_true_r.
  - rewrite Z.mod_pow2_bits_high by lia. destruct (Z.eqb_spec k n) as [->|]; [by rewrite !andb_false_r|].
    replace (Z.testbit m n) with false; [done|]. symmetry.
    rewrite <- (Z.mod_small m (2 ^ (k + 1))) by done. apply Z.mod_pow2_bits_high. lia.
Qed.

Lemma join_cons {A} (x : list A) (l : list (list A)) : mjoin (x :: l) = x ++ mjoin l.
Proof. done. Qed.
Lemma fmap_cons' {A B} (f : A -> B) x l : f <$> x :: l = f x :: (f <$> l).
Proof. done. Qed.

Lemma app_inj_len {A} (a b c d : list A) : length a = length c -> a ++ b = c ++ d -> a = c /\ b = d.
Proof. apply app_inj_1. Qed.

Lemma alter_middle {A} (f : A -> A) (pre post : list A) x :
  alter f (length pre) (pre ++ x :: post) = pre ++ f x :: post.
Proof. induction pre as [|y pre IH]; [done|]. cbn. f_equal. exact IH. Qed.

#[global] Arguments to_le_bytes : simpl never.
#[global] Arguments to_be_bytes : simpl never.
