(* ===== verification/Encoding.v ===== *)
(** * hns-encoding: the bounded little-endian codec

    Models [crates/hns-encoding/src/lib.rs]: the cursor [Decoder] with its
    fallible reads, the append-only [Encoder], Bitcoin-style compact sizes and
    length-prefixed byte vectors. A [&mut self] method is a state transformer
    that returns the decoder also when it fails, so a failed read's effect on
    the position is part of the model. *)

From S2P Require Import Prelude.
Local Open Scope Z_scope.

(** ** Errors and the cursor *)
Inductive DecodeError :=
| UnexpectedEnd (offset needed : Z)
| LengthExceedsBound (actual maximum : Z)
| TrailingBytes (remaining : Z)
| InvalidValue (field reason : string).

#[global] Instance DecodeError_eq_dec : EqDecision DecodeError.
Proof. solve_decision. Defined.

Record Decoder := mkDecoder { input : list byte; position : Z }.

Definition Decoder_new (input : list byte) : Decoder := mkDecoder input 0.

Definition remaining (d : Decoder) : Z := len (input d) - position d.

(** A read: the result and the cursor it leaves behind. *)
Definition decM (E A : Type) : Type := Decoder -> result E A * Decoder.

#[global] Instance decM_ret {E} : MRet (decM E) := fun _ a d => (Ok a, d).
#[global] Instance decM_bind {E} : MBind (decM E) :=
  fun _ _ f m d =>
    match m d with
    | (Ok a, d') => f a d'
    | (Err e, d') => (Err e, d')
    end.

(** [e?] for a [Result] in a function that reads, with its [From] conversion. *)
Definition lift_res {E A} (r : result E A) : decM E A := fun d => (r, d).
Definition lift_err {E E' A} (f : E -> E') (m : decM E A) : decM E' A :=
  fun d => let '(r, d') := m d in (map_err f r, d').
(** The decoder as a value, for [decoder.position()] and the like. *)
Definition dec_get {E} : decM E Decoder := fun d => (Ok d, d).
(** [for _ in 0..n { v.push(m?) }] *)
Fixpoint read_n {E A} (n : nat) (m : decM E A) : decM E (list A) :=
  match n with
  | O => mret []
  | S n => x ← m; xs ← read_n n m; mret (x :: xs)
  end.

Definition read_slice (length : Z) : decM DecodeError (list byte) := fun d =>
  match checked_add usize_max (position d) length with
  | None => (Err (LengthExceedsBound usize_max (remaining d)), d)
  | Some end_ =>
    if len (input d) <? end_ then
      (Err (UnexpectedEnd (position d) (end_ - len (input d))), d)
    else (Ok (slice (input d) (position d) end_), mkDecoder (input d) end_)
  end.

Definition read_array (LENGTH : Z) : decM DecodeError (list byte) :=
  bytes ← read_slice LENGTH; mret bytes.

Definition read_u8 : decM DecodeError byte :=
  bytes ← read_array 1; mret (default x00 (head bytes)).

Definition read_u16_le : decM DecodeError Z :=
  bytes ← read_array 2; mret (from_le_bytes bytes).
Definition read_u32_le : decM DecodeError Z :=
  bytes ← read_array 4; mret (from_le_bytes bytes).
Definition read_u64_le : decM DecodeError Z :=
  bytes ← read_array 8; mret (from_le_bytes bytes).

Definition read_compact_size : decM DecodeError Z :=
  tag ← read_u8;
  if b2z tag <=? 0xfc then mret (b2z tag)
  else if b2z tag =? 0xfd then
    value ← read_u16_le;
    if value <? 0xfd
    then lift_res (Err (InvalidValue "compact size" "noncanonical u16 encoding"))
    else mret value
  else if b2z tag =? 0xfe then
    value ← read_u32_le;
    if value <=? u16_max
    then lift_res (Err (InvalidValue "compact size" "noncanonical u32 encoding"))
    else mret value
  else
    value ← read_u64_le;
    if value <=? u32_max
    then lift_res (Err (InvalidValue "compact size" "noncanonical u64 encoding"))
    else mret value.

(** [usize::try_from] of a [u64] fails only when the value exceeds [usize_max]. *)
Definition read_compact_usize (maximum : Z) (_field : string) : decM DecodeError Z :=
  value ← read_compact_size;
  value ← lift_res (if value <=? usize_max then Ok value
                    else Err (LengthExceedsBound usize_max maximum));
  if maximum <? value
  then lift_res (Err (LengthExceedsBound value maximum))
  else mret value.

Definition read_bounded_vec (length maximum : Z) : decM DecodeError (list byte) :=
  if maximum <? length
  then lift_res (Err (LengthExceedsBound length maximum))
  else bytes ← read_slice length; mret bytes.

Definition read_varbytes (maximum : Z) (field : string) : decM DecodeError (list byte) :=
  length ← read_compact_usize maximum field;
  read_bounded_vec length maximum.

Definition finish (d : Decoder) : result DecodeError unit :=
  if remaining d =? 0 then Ok tt else Err (TrailingBytes (remaining d)).

(** [decoder.finish()?] at the end of a decoding function. *)
Definition dec_finish : decM DecodeError unit := fun d => (finish d, d).

(** Run a decoding function on a complete input: [let v = decode(&mut d)?;
    d.finish()?; Ok(v)]. *)
Definition run_all {E A} (from : DecodeError -> E) (m : decM E A) (input : list byte)
  : result E A :=
  fst ((v ← m; lift_err from dec_finish ;; mret v) (Decoder_new input)).

(** ** The encoder *)
Record Encoder := mkEncoder { bytes : list byte }.

Definition Encoder_new : Encoder := mkEncoder [].
(** A capacity is an allocation hint: the encoder starts empty. *)
Definition with_capacity (capacity : Z) : Encoder := mkEncoder [].

Definition put_bytes (e : Encoder) (value : list byte) : Encoder :=
  mkEncoder (bytes e ++ value).
Definition put_u8 (e : Encoder) (value : byte) : Encoder := mkEncoder (bytes e ++ [value]).
Definition put_u16_le (e : Encoder) (value : Z) : Encoder :=
  mkEncoder (bytes e ++ to_le_bytes 2 value).
Definition put_u32_le (e : Encoder) (value : Z) : Encoder :=
  mkEncoder (bytes e ++ to_le_bytes 4 value).
Definition put_u64_le (e : Encoder) (value : Z) : Encoder :=
  mkEncoder (bytes e ++ to_le_bytes 8 value).

Definition put_compact_size (e : Encoder) (value : Z) : Encoder :=
  if value <=? 0xfc then put_u8 e (z2b value)
  else if value <=? 0xffff then put_u16_le (put_u8 e (z2b 0xfd)) (wrap 16 value)
  else if value <=? 0xffffffff then put_u32_le (put_u8 e (z2b 0xfe)) (wrap 32 value)
  else put_u64_le (put_u8 e (z2b 0xff)) value.

Definition put_varbytes (e : Encoder) (value : list byte) : Encoder :=
  put_bytes (put_compact_size e (len value)) value.

Definition into_bytes (e : Encoder) : list byte := bytes e.

(** ** Reference encodings

    The bytes the encoder appends for one value. *)
Definition compact_bytes (v : Z) : list byte := bytes (put_compact_size Encoder_new v).
Definition var_bytes (bs : list byte) : list byte := compact_bytes (len bs) ++ bs.

(** Number of bytes of a compact size ([compact_size_len] of the crates above). *)
Definition compact_size_len (value : Z) : Z :=
  if value <=? 0xfc then 1
  else if value <=? 0xffff then 3
  else if value <=? 0xffffffff then 5
  else 9.

(** ** The cursor invariant *)
Definition dec_wf (d : Decoder) : Prop :=
  0 <= position d <= len (input d) /\ len (input d) <= isize_max.

Definition rest (d : Decoder) : list byte := drop (Z.to_nat (position d)) (input d).
Definition advance (d : Decoder) (n : Z) : Decoder := mkDecoder (input d) (position d + n).

(** [reads d m bs v]: when the unread input starts with [bs], reading from [d]
    succeeds with [v] and consumes exactly [bs]. *)
Definition reads {E A} (d : Decoder) (m : decM E A) (bs : list byte) (v : A) : Prop :=
  forall r, dec_wf d -> rest d = bs ++ r -> m d = (Ok v, advance d (len bs)).

(** [took d bs d']: the cursor moved from [d] to [d'] over exactly [bs]. *)
Definition took (d : Decoder) (bs : list byte) (d' : Decoder) : Prop :=
  rest d = bs ++ rest d' /\ d' = advance d (len bs) /\ dec_wf d'.

Lemma len_rest d : dec_wf d -> len (rest d) = remaining d.
Proof. unfold dec_wf, remaining, rest, len. rewrite length_drop. lia. Qed.

Lemma advance_0 d : advance d 0 = d.
Proof. destruct d. unfold advance. simpl. by rewrite Z.add_0_r. Qed.

Lemma advance_advance d a b : advance (advance d a) b = advance d (a + b).
Proof. unfold advance. simpl. f_equal. lia. Qed.

Lemma rest_advance d bs r :
  dec_wf d -> rest d = bs ++ r -> rest (advance d (len bs)) = r.
Proof.
  intros W H. destruct W. unfold rest, advance, len in *. simpl.
  replace (Z.to_nat (position d + Z.of_nat (length bs)))
    with (Z.to_nat (position d) + length bs)%nat by lia.
  rewrite <- drop_drop, H. by rewrite drop_app_length.
Qed.

Lemma wf_advance d bs r : dec_wf d -> rest d = bs ++ r -> dec_wf (advance d (len bs)).
Proof.
  intros W H. pose proof (len_rest d W) as L. rewrite H in L. slen.
  pose proof (len_nonneg bs). pose proof (len_nonneg r).
  unfold dec_wf, remaining, advance in *. simpl. lia.
Qed.

Lemma wf_new bs : len bs <= isize_max -> dec_wf (Decoder_new bs).
Proof. unfold dec_wf, Decoder_new. simpl. pose proof (len_nonneg bs). lia. Qed.

Lemma took_refl d : dec_wf d -> took d [] d.
Proof. intros. split; [done|]. by rewrite len_nil, advance_0. Qed.

Lemma took_trans d1 b1 d2 b2 d3 : took d1 b1 d2 -> took d2 b2 d3 -> took d1 (b1 ++ b2) d3.
Proof.
  intros (H1 & -> & W1) (H2 & -> & W2). split; [|split; [|done]].
  - by rewrite H1, H2, <- app_assoc.
  - by rewrite advance_advance, len_app.
Qed.

Lemma took_wf d bs d' : took d bs d' -> dec_wf d'.
Proof. by intros (_ & _ & ?). Qed.

Lemma took_advance d bs r : dec_wf d -> rest d = bs ++ r -> took d bs (advance d (len bs)).
Proof.
  intros W H. split; [|split; [done|by eapply wf_advance]].
  by rewrite (rest_advance d bs r).
Qed.

Lemma took_position d bs d' : took d bs d' -> position d' = position d + len bs.
Proof. by intros (_ & -> & _). Qed.

(** A decoder that consumed [bs] from the start and finished has read all of it. *)
Lemma took_finish input0 bs d :
  took (Decoder_new input0) bs d -> finish d = Ok tt -> bs = input0.
Proof.
  intros (H & -> & W) F. unfold finish in F.
  destruct (Z.eqb_spec (remaining (advance (Decoder_new input0) (len bs))) 0) as [R|]; [|done]. rewrite <- len_rest in R by done.
  destruct (rest (advance _ _)) eqn:E; [|slen; pose proof (len_nonneg l); lia].
  unfold rest in H at 1. simpl in H. by rewrite app_nil_r in H.
Qed.

Lemma finish_all bs : finish (advance (Decoder_new bs) (len bs)) = Ok tt.
Proof.
  unfold finish, remaining, advance. simpl. rewrite Z.sub_diag. done.
Qed.

Lemma rest_new bs : rest (Decoder_new bs) = bs.
Proof. done. Qed.

(** ** Sequencing *)
Lemma dec_bind_Ok {E A B} (f : A -> decM E B) (m : decM E A) d v d' :
  (m ≫= f) d = (Ok v, d') <-> exists a d1, m d = (Ok a, d1) /\ f a d1 = (Ok v, d').
Proof.
  unfold mbind, decM_bind. destruct (m d) as [[a|e] d1]; naive_solver.
Qed.

Lemma lift_err_Ok {E E' A} (g : E -> E') (m : decM E A) d v d' :
  lift_err g m d = (Ok v, d') <-> m d = (Ok v, d').
Proof. unfold lift_err. destruct (m d) as [[a|e] d1]; simpl; naive_solver. Qed.

Lemma lift_res_Ok {E A} (r : result E A) d v d' :
  lift_res r d = (Ok v, d') <-> r = Ok v /\ d' = d.
Proof. unfold lift_res. naive_solver. Qed.

Lemma dec_ret_Ok {E A} (a : A) d v d' :
  (mret a : decM E A) d = (Ok v, d') <-> a = v /\ d' = d.
Proof. unfold mret, decM_ret. naive_solver. Qed.

Lemma reads_ret {E A} d (a : A) : reads d (mret a : decM E A) [] a.
Proof. intros r _ _. by rewrite len_nil, advance_0. Qed.

Lemma reads_bind {E A B} d (f : A -> decM E B) (m : decM E A) b1 b2 v w :
  reads d m b1 v -> reads (advance d (len b1)) (f v) b2 w ->
  reads d (m ≫= f) (b1 ++ b2) w.
Proof.
  intros H1 H2 r W H. rewrite <- app_assoc in H. unfold mbind, decM_bind.
  rewrite (H1 _ W H), (H2 r), advance_advance, len_app; [done| |].
  - by eapply wf_advance.
  - by eapply rest_advance.
Qed.

Lemma reads_nil_bind {E A B} d (f : A -> decM E B) (m : decM E A) b v w :
  reads d m [] v -> reads d (f v) b w -> reads d (m ≫= f) b w.
Proof.
  intros H1 H2. apply (reads_bind d f m [] b v w); [done|]. by rewrite len_nil, advance_0.
Qed.

Lemma reads_last {E A B} d (f : A -> decM E B) (m : decM E A) b v w :
  reads d m b v -> reads (advance d (len b)) (f v) [] w -> reads d (m ≫= f) b w.
Proof. intros. rewrite <- (app_nil_r b). by eapply reads_bind. Qed.

Lemma reads_err {E E' A} d (g : E -> E') (m : decM E A) b v :
  reads d m b v -> reads d (lift_err g m) b v.
Proof. intros H r W R. unfold lift_err. by rewrite (H r W R). Qed.

Lemma reads_res {E A} d (r : result E A) v : r = Ok v -> reads d (lift_res r) [] v.
Proof. intros -> r' _ _. unfold lift_res. by rewrite len_nil, advance_0. Qed.

Lemma reads_assert {E} d b (e : E) : b = true -> reads d (lift_res (assert_or b e)) [] tt.
Proof. intros ->. by apply reads_res. Qed.

Lemma reads_get {E} d : reads d (@dec_get E) [] d.
Proof. intros r _ _. unfold dec_get. by rewrite len_nil, advance_0. Qed.

Lemma reads_wf {E A} d (m : decM E A) b v : (dec_wf d -> reads d m b v) -> reads d m b v.
Proof. intros H r W. by apply H. Qed.

Lemma reads_n {E A} (m : decM E A) (enc : A -> list byte) xs d :
  (forall d' x, x ∈ xs -> reads d' m (enc x) x) ->
  reads d (read_n (length xs) m) (mjoin (enc <$> xs)) xs.
Proof.
  revert d; induction xs as [|x xs IH]; intros d H; [apply reads_ret|].
  cbn [length read_n fmap list_fmap mjoin list_join].
  eapply reads_bind; [apply H; set_solver|].
  rewrite <- (app_nil_r (mjoin _)).
  eapply reads_bind; [apply IH; intros; apply H; set_solver|apply reads_ret].
Qed.

(** A successful loop of reads consumed the concatenation of what its steps
    consumed, whatever invariant [I] its steps keep. *)
Lemma read_n_inv {E A} (m : decM E A) (enc : A -> list byte) (P : A -> Prop) (n : nat) d xs d' :
  (forall d v d', dec_wf d -> m d = (Ok v, d') -> took d (enc v) d' /\ P v) ->
  dec_wf d -> read_n n m d = (Ok xs, d') ->
  took d (mjoin (enc <$> xs)) d' /\ Forall P xs /\ length xs = n.
Proof.
  intros Hm. revert d xs d'; induction n as [|n IH]; intros d xs d' W H; cbn [read_n] in H.
  - apply dec_ret_Ok in H as (<- & ->). split; [by apply took_refl|done].
  - apply dec_bind_Ok in H as (x & d1 & H1 & H). apply dec_bind_Ok in H as (ys & d2 & H2 & H).
    apply dec_ret_Ok in H as (<- & ->). destruct (Hm _ _ _ W H1) as (T1 & P1).
    destruct (IH _ _ _ (took_wf _ _ _ T1) H2) as (T2 & P2 & <-).
    split; [|by split; [constructor|]]. cbn. by eapply took_trans.
Qed.

(** ** Reads under a byte budget

    The readers of covenants, outputs and witnesses may only read up to
    [start + maximum]. [budgeted] is what such a reader promises: its successes
    take exactly the encoding of a well-formed value and stay within the budget,
    and every encoding that fits the budget is read. *)
Record budgeted {E A} (start maximum : Z) (m : decM E A) (enc : A -> list byte)
    (P : A -> Prop) : Prop := {
  budgeted_inv d v d' :
    start <= position d -> dec_wf d -> m d = (Ok v, d') ->
    took d (enc v) d' /\ P v /\ position d' <= start + maximum;
  budgeted_reads d v :
    start <= position d -> position d + len (enc v) <= start + maximum -> P v ->
    reads d m (enc v) v;
}.

Lemma budgeted_n_inv {E A} start maximum (m : decM E A) enc P n d xs d' :
  budgeted start maximum m enc P ->
  start <= position d <= start + maximum -> dec_wf d ->
  read_n n m d = (Ok xs, d') ->
  took d (mjoin (enc <$> xs)) d' /\ Forall P xs /\ length xs = n /\
  position d' <= start + maximum.
Proof.
  intros B. revert d xs d'; induction n as [|n IH]; intros d xs d' S W H; cbn [read_n] in H.
  { apply dec_ret_Ok in H as (<- & ->). split; [by apply took_refl|]. split; [done|]. split; [done|lia]. }
  apply dec_bind_Ok in H as (x & d1 & H1 & H). apply dec_bind_Ok in H as (ys & d2 & H2 & H).
  apply dec_ret_Ok in H as (<- & ->).
  destruct (budgeted_inv _ _ _ _ _ B _ _ _ (proj1 S) W H1) as (T & Px & B1).
  pose proof (took_position _ _ _ T). pose proof (len_nonneg (enc x)).
  destruct (IH d1 ys d2) as (T2 & F & <- & B2); [lia|by eapply took_wf|done|].
  rewrite fmap_cons', join_cons. split; [by eapply took_trans|]. by split; [constructor|].
Qed.

Lemma budgeted_n_reads {E A} start maximum (m : decM E A) enc P d xs :
  budgeted start maximum m enc P -> start <= position d ->
  position d + len (mjoin (enc <$> xs)) <= start + maximum -> Forall P xs ->
  reads d (read_n (length xs) m) (mjoin (enc <$> xs)) xs.
Proof.
  intros B. revert d; induction xs as [|x xs IH]; intros d S L F; [apply reads_ret|].
  rewrite fmap_cons', join_cons in *. apply Forall_cons in F as (Fx & F).
  rewrite len_app in L. pose proof (len_nonneg (mjoin (enc <$> xs))).
  pose proof (len_nonneg (enc x)). cbn [length read_n].
  eapply reads_bind; [apply (budgeted_reads _ _ _ _ _ B); [done|lia|done]|].
  eapply reads_last; [apply IH; [cbn; lia|cbn; lia|done]|apply reads_ret].
Qed.

(** Decoding a complete input succeeds exactly when the read consumes it all. *)
Lemma run_all_Ok {E A} (from : DecodeError -> E) (m : decM E A) inp v :
  run_all from m inp = Ok v <->
  exists d, m (Decoder_new inp) = (Ok v, d) /\ finish d = Ok tt.
Proof.
  unfold run_all, mbind, decM_bind, lift_err, dec_finish.
  destruct (m (Decoder_new inp)) as [[a|e] d]; [|by split; [|intros (? & ? & ?)]].
  destruct (finish d) as [[]|e] eqn:F; simpl; split.
  - intros [= <-]. by exists d.
  - by intros (? & [= <- <-] & _).
  - done.
  - intros (? & [= <- <-] & ?). congruence.
Qed.

Lemma run_all_reads {E A} (from : DecodeError -> E) (m : decM E A) inp v :
  len inp <= isize_max -> reads (Decoder_new inp) m inp v -> run_all from m inp = Ok v.
Proof.
  intros L R. apply run_all_Ok. eexists. split; [|apply finish_all].
  apply (R []); [by apply wf_new|]. by rewrite rest_new, app_nil_r.
Qed.

Ltac inv_dec1 :=
  match goal with
  | H : (_ ≫= _) _ = (Ok _, _) |- _ => apply dec_bind_Ok in H; destruct H as (? & ? & ? & H)
  | H : lift_err _ _ _ = (Ok _, _) |- _ => apply lift_err_Ok in H
  | H : lift_res _ _ = (Ok _, _) |- _ => apply lift_res_Ok in H; destruct H as (H & ?)
  | H : mret _ _ = (Ok _, _) |- _ => apply dec_ret_Ok in H; destruct H as (? & ?)
  | H : dec_get _ = (Ok _, _) |- _ => injection H as ? ?
  end; simplify_eq.
Ltac inv_dec := repeat inv_dec1.

(** [dbind H as x d Hx] splits off the first read of a successful sequence. *)
Tactic Notation "dbind" hyp(H) "as" ident(x) ident(d) ident(Hx) :=
  apply dec_bind_Ok in H as (x & d & Hx & H);
  lazymatch type of Hx with
  | lift_err _ _ _ = _ => apply lift_err_Ok in Hx
  | lift_res _ _ = _ => apply lift_res_Ok in Hx as (Hx & ->)
  | _ => idtac
  end.

(** ** Primitive reads *)
Lemma read_slice_reads d n bs : len bs = n -> reads d (read_slice n) bs bs.
Proof.
  intros <- r W H. unfold read_slice. pose proof (len_rest d W) as L. rewrite H in L. slen.
  pose proof (len_nonneg bs). pose proof (len_nonneg r).
  unfold dec_wf, remaining in *. unfold checked_add.
  rewrite (proj2 (Z.leb_le _ _)) by ulia.
  rewrite (proj2 (Z.ltb_ge _ _)) by lia. unfold advance. do 2 f_equal.
  unfold slice. fold (rest d). rewrite H.
  replace (Z.to_nat (_ - _)) with (length bs) by (unfold len; lia). by rewrite take_app_length.
Qed.

Lemma read_slice_inv n d v d' :
  0 <= n -> dec_wf d -> read_slice n d = (Ok v, d') -> took d v d' /\ len v = n.
Proof.
  intros Hn W H. unfold read_slice, checked_add in H.
  destruct (Z.leb_spec (position d + n) usize_max); [|done].
  destruct (Z.ltb_spec (len (input d)) (position d + n)); [done|]. simplify_eq.
  pose proof (len_rest d W) as L.
  assert (len (slice (input d) (position d) (position d + n)) = n) as Ls.
  { unfold slice, len, dec_wf, len in *. rewrite length_take, length_drop. lia. }
  split; [|done].
  assert (rest d = slice (input d) (position d) (position d + n) ++ drop (Z.to_nat n) (rest d)) as R.
  { unfold slice. replace (position d + n - position d) with n by lia. fold (rest d).
    by rewrite take_drop. }
  eapply (took_advance d) in R; [|done]. rewrite Ls in R. exact R.
Qed.

(** A failing slice read leaves the cursor where it was. *)
Lemma read_slice_err n d e d' : read_slice n d = (Err e, d') -> d' = d.
Proof. unfold read_slice. repeat case_match; naive_solver. Qed.

Lemma read_array_reads d n bs : len bs = n -> reads d (read_array n) bs bs.
Proof.
  intros. rewrite <- (app_nil_r bs) at 1.
  eapply reads_bind; [by apply read_slice_reads|apply reads_ret].
Qed.

Lemma read_array_inv n d v d' :
  0 <= n -> dec_wf d -> read_array n d = (Ok v, d') -> took d v d' /\ len v = n.
Proof. unfold read_array. intros. inv_dec. by eapply read_slice_inv. Qed.

Lemma read_u8_reads d b : reads d read_u8 [b] b.
Proof.
  rewrite <- (app_nil_r [b]).
  eapply reads_bind; [by apply read_array_reads|apply reads_ret].
Qed.

Lemma read_u8_inv d v d' : dec_wf d -> read_u8 d = (Ok v, d') -> took d [v] d'.
Proof.
  unfold read_u8. intros. inv_dec.
  apply read_array_inv in H1 as (T & L); [|lia|done].
  destruct x as [|b [|b' l]]; slen; [lia|done|pose proof (len_nonneg l); lia].
Qed.

Lemma read_le_reads d (n : nat) v :
  0 <= v < 256 ^ Z.of_nat n ->
  reads d (bytes ← read_array (Z.of_nat n); mret (from_le_bytes bytes)) (to_le_bytes n v) v.
Proof.
  intros. rewrite <- (app_nil_r (to_le_bytes n v)).
  eapply reads_bind; [apply read_array_reads, len_to_le_bytes|].
  rewrite from_to_le_bytes_small by done. apply reads_ret.
Qed.

Lemma read_le_inv (n : nat) d v d' :
  dec_wf d -> (bytes ← read_array (Z.of_nat n); mret (from_le_bytes bytes)) d = (Ok v, d') ->
  took d (to_le_bytes n v) d' /\ 0 <= v < 256 ^ Z.of_nat n.
Proof.
  intros W H. inv_dec. apply read_array_inv in H0 as (T & L); [|lia|done].
  pose proof (from_le_bytes_range x) as R. rewrite L in R. split; [|done].
  rewrite to_from_le_bytes_len; [done|]. unfold len in L. lia.
Qed.

Lemma read_u16_reads d v : u16 v -> reads d read_u16_le (to_le_bytes 2 v) v.
Proof. intros. apply (read_le_reads d 2). ulia. Qed.
Lemma read_u32_reads d v : u32 v -> reads d read_u32_le (to_le_bytes 4 v) v.
Proof. intros. apply (read_le_reads d 4). ulia. Qed.
Lemma read_u64_reads d v : u64 v -> reads d read_u64_le (to_le_bytes 8 v) v.
Proof. intros. apply (read_le_reads d 8). ulia. Qed.

Lemma read_u16_inv d v d' :
  dec_wf d -> read_u16_le d = (Ok v, d') -> took d (to_le_bytes 2 v) d' /\ u16 v.
Proof. intros W H. apply (read_le_inv 2) in H as (? & ?); [|done]. split; [done|ulia]. Qed.
Lemma read_u32_inv d v d' :
  dec_wf d -> read_u32_le d = (Ok v, d') -> took d (to_le_bytes 4 v) d' /\ u32 v.
Proof. intros W H. apply (read_le_inv 4) in H as (? & ?); [|done]. split; [done|ulia]. Qed.
Lemma read_u64_inv d v d' :
  dec_wf d -> read_u64_le d = (Ok v, d') -> took d (to_le_bytes 8 v) d' /\ u64 v.
Proof. intros W H. apply (read_le_inv 8) in H as (? & ?); [|done]. split; [done|ulia]. Qed.

Lemma reads_took {E A} d (m : decM E A) bs v d' :
  dec_wf d -> reads d m bs v -> took d bs d' -> m d = (Ok v, d').
Proof. intros W R (H & -> & _). by apply (R (rest (advance d (len bs)))). Qed.

(** ** What the encoder appends *)
Lemma bytes_put_bytes e v : bytes (put_bytes e v) = bytes e ++ v.
Proof. done. Qed.
Lemma bytes_put_u8 e v : bytes (put_u8 e v) = bytes e ++ [v].
Proof. done. Qed.
Lemma bytes_put_u16 e v : bytes (put_u16_le e v) = bytes e ++ to_le_bytes 2 v.
Proof. done. Qed.
Lemma bytes_put_u32 e v : bytes (put_u32_le e v) = bytes e ++ to_le_bytes 4 v.
Proof. done. Qed.
Lemma bytes_put_u64 e v : bytes (put_u64_le e v) = bytes e ++ to_le_bytes 8 v.
Proof. done. Qed.
Lemma bytes_put_compact e v : bytes (put_compact_size e v) = bytes e ++ compact_bytes v.
Proof.
  unfold compact_bytes, put_compact_size. repeat case_match; simpl; by rewrite <- ?app_assoc.
Qed.
Lemma bytes_put_varbytes e v : bytes (put_varbytes e v) = bytes e ++ var_bytes v.
Proof.
  unfold put_varbytes, var_bytes. by rewrite bytes_put_bytes, bytes_put_compact, <- app_assoc.
Qed.
Lemma bytes_new : bytes Encoder_new = [].
Proof. done. Qed.
Lemma bytes_with_capacity n : bytes (with_capacity n) = [].
Proof. done. Qed.

(** A loop of writes appends what its steps write, in order. *)
Lemma bytes_foldl {A} (put : Encoder -> A -> Encoder) (enc : A -> list byte) e xs :
  (forall e x, bytes (put e x) = bytes e ++ enc x) ->
  bytes (foldl put e xs) = bytes e ++ mjoin (enc <$> xs).
Proof.
  intros H. revert e. induction xs as [|x xs IH]; intros e; cbn [foldl]; [by rewrite app_nil_r|].
  by rewrite IH, H, fmap_cons', join_cons, app_assoc.
Qed.

(** A loop of [put_varbytes] appends the items in order. *)
Lemma bytes_put_items e (items : list (list byte)) :
  bytes (foldl put_varbytes e items) = bytes e ++ mjoin (var_bytes <$> items).
Proof. apply bytes_foldl, bytes_put_varbytes. Qed.

Lemma compact_bytes_eq v :
  u64 v ->
  compact_bytes v =
    if v <=? 0xfc then [z2b v]
    else if v <=? 0xffff then z2b 0xfd :: to_le_bytes 2 v
    else if v <=? 0xffffffff then z2b 0xfe :: to_le_bytes 4 v
    else z2b 0xff :: to_le_bytes 8 v.
Proof.
  intros Hv. unfold compact_bytes, put_compact_size, wrap.
  destruct (Z.leb_spec v 0xfc); [done|].
  destruct (Z.leb_spec v 0xffff); [by rewrite Z.mod_small by ulia|].
  destruct (Z.leb_spec v 0xffffffff); [by rewrite Z.mod_small by ulia|done].
Qed.

Lemma len_compact_bytes v : len (compact_bytes v) = compact_size_len v.
Proof.
  unfold compact_bytes, put_compact_size, compact_size_len.
  repeat case_match; simpl; slen; done.
Qed.

Lemma len_var_bytes bs : len (var_bytes bs) = compact_size_len (len bs) + len bs.
Proof. unfold var_bytes. rewrite len_app, len_compact_bytes. lia. Qed.

Lemma compact_size_len_range v : 1 <= compact_size_len v <= 9.
Proof. unfold compact_size_len. repeat case_match; lia. Qed.

(** ** Compact sizes and byte vectors *)
Lemma read_compact_reads d v : u64 v -> reads d read_compact_size (compact_bytes v) v.
Proof.
  intros Hv. rewrite compact_bytes_eq by done. unfold read_compact_size.
  destruct (Z.leb_spec v 0xfc).
  { rewrite <- (app_nil_r [z2b v]). eapply reads_bind; [apply read_u8_reads|].
    rewrite z2b_small by ulia. rewrite (proj2 (Z.leb_le _ _)) by lia. apply reads_ret. }
  destruct (Z.leb_spec v 0xffff); [|destruct (Z.leb_spec v 0xffffffff)].
  all: eapply (reads_bind _ _ _ [_]); [apply read_u8_reads|].
  all: rewrite z2b_small by lia; cbn [Z.leb Z.eqb Z.compare Pos.compare Pos.compare_cont Pos.eqb].
  all: rewrite <- (app_nil_r (to_le_bytes _ v)).
  - eapply reads_bind; [apply read_u16_reads; ulia|].
    rewrite (proj2 (Z.ltb_ge _ _)) by lia. apply reads_ret.
  - eapply reads_bind; [apply read_u32_reads; ulia|].
    rewrite (proj2 (Z.leb_gt _ _)) by ulia. apply reads_ret.
  - eapply reads_bind; [apply read_u64_reads; ulia|].
    rewrite (proj2 (Z.leb_gt _ _)) by ulia. apply reads_ret.
Qed.

Lemma tag_eq b n : b2z b = n -> [b] = [z2b n].
Proof. intros <-. by rewrite z2b_b2z. Qed.

Lemma read_compact_inv d v d' :
  dec_wf d -> read_compact_size d = (Ok v, d') -> took d (compact_bytes v) d' /\ u64 v.
Proof.
  intros W H. unfold read_compact_size in H. inv_dec1.
  apply read_u8_inv in H0 as T; [|done]. pose proof (took_wf _ _ _ T) as W1.
  pose proof (b2z_range x) as Rx.
  destruct (Z.leb_spec (b2z x) 0xfc).
  { inv_dec. split; [|ulia]. rewrite compact_bytes_eq by ulia.
    rewrite (proj2 (Z.leb_le _ _)), z2b_b2z by lia. done. }
  destruct (Z.eqb_spec (b2z x) 0xfd) as [E|]; [|destruct (Z.eqb_spec (b2z x) 0xfe) as [E|]].
  3: assert (b2z x = 0xff) as E by lia.
  all: inv_dec1.
  1: apply read_u16_inv in H2 as (T2 & R); [|done]; destruct (Z.ltb_spec x1 0xfd).
  3: apply read_u32_inv in H2 as (T2 & R); [|done]; destruct (Z.leb_spec x1 u16_max).
  5: apply read_u64_inv in H2 as (T2 & R); [|done]; destruct (Z.leb_spec x1 u32_max).
  all: inv_dec; try done.
  all: split; [|ulia]; rewrite compact_bytes_eq by ulia.
  all: rewrite (tag_eq _ _ E) in T.
  all: pose proof (took_trans _ _ _ _ _ T T2) as T3.
  all: repeat (rewrite (proj2 (Z.leb_gt _ _)) by ulia).
  all: rewrite ?(proj2 (Z.leb_le _ _)) by ulia; exact T3.
Qed.

Lemma read_compact_usize_reads d max field v :
  0 <= v <= max -> v <= usize_max -> reads d (read_compact_usize max field) (compact_bytes v) v.
Proof.
  intros. unfold read_compact_usize. rewrite <- (app_nil_r (compact_bytes v)).
  eapply reads_bind; [apply read_compact_reads; ulia|].
  rewrite (proj2 (Z.leb_le _ _)) by done.
  eapply reads_nil_bind; [by apply reads_res|].
  rewrite (proj2 (Z.ltb_ge _ _)) by lia. apply reads_ret.
Qed.

Lemma read_compact_usize_inv d max field v d' :
  dec_wf d -> read_compact_usize max field d = (Ok v, d') ->
  took d (compact_bytes v) d' /\ 0 <= v <= max /\ v <= usize_max.
Proof.
  unfold read_compact_usize. intros W H. apply dec_bind_Ok in H as (n & d1 & H1 & H).
  apply read_compact_inv in H1 as (T & R); [|done].
  zcase; inv_dec.
  zcase; inv_dec. split; [done|ulia].
Qed.

Lemma read_bounded_vec_reads d bs max :
  len bs <= max -> reads d (read_bounded_vec (len bs) max) bs bs.
Proof.
  intros. unfold read_bounded_vec. rewrite (proj2 (Z.ltb_ge _ _)) by done.
  rewrite <- (app_nil_r bs) at 2. eapply reads_bind; [by apply read_slice_reads|apply reads_ret].
Qed.

Lemma read_bounded_vec_inv n max d v d' :
  0 <= n -> dec_wf d -> read_bounded_vec n max d = (Ok v, d') ->
  took d v d' /\ len v = n /\ n <= max.
Proof.
  unfold read_bounded_vec. intros Hn W H. zcase; inv_dec.
  apply read_slice_inv in H1 as (T & L); [|done|done]. auto.
Qed.

Lemma read_varbytes_reads d bs max field :
  len bs <= max -> len bs <= usize_max -> reads d (read_varbytes max field) (var_bytes bs) bs.
Proof.
  intros. pose proof (len_nonneg bs). unfold read_varbytes, var_bytes.
  eapply reads_bind; [apply read_compact_usize_reads; lia|]. by apply read_bounded_vec_reads.
Qed.

Lemma read_varbytes_inv d bs max field d' :
  dec_wf d -> read_varbytes max field d = (Ok bs, d') ->
  took d (var_bytes bs) d' /\ len bs <= max.
Proof.
  unfold read_varbytes. intros W H. inv_dec.
  apply read_compact_usize_inv in H0 as (T & R & _); [|done].
  apply read_bounded_vec_inv in H as (T2 & L & _); [|lia|by eapply took_wf]. subst.
  split; [|lia]. unfold var_bytes. by eapply took_trans.
Qed.

#[export] Hint Resolve reads_ret reads_get read_u8_reads read_u16_reads read_u32_reads
  read_u64_reads read_array_reads read_compact_reads read_compact_usize_reads
  read_bounded_vec_reads read_varbytes_reads reads_err reads_res : codec.
Create Rewrite HintDb enc.
#[export] Hint Rewrite bytes_put_bytes bytes_put_u8 bytes_put_u16 bytes_put_u32 bytes_put_u64
  bytes_put_compact bytes_put_varbytes bytes_put_items bytes_new bytes_with_capacity
  @app_nil_l : enc.
#[export] Hint Rewrite len_compact_bytes len_var_bytes : lens.

(** ** Reads that look ahead

    Some readers compare the bytes left with a length. [reads_before] is [reads] with
    the bytes after the value fixed. *)
Definition reads_before {E A} (d : Decoder) (m : decM E A) (bs after : list byte) (v : A) : Prop :=
  dec_wf d -> rest d = bs ++ after -> m d = (Ok v, advance d (len bs)).

Lemma before_reads {E A} d (m : decM E A) bs after v : reads d m bs v -> reads_before d m bs after v.
Proof. intros R W H. by apply (R after). Qed.

Lemma before_bind {E A B} d (f : A -> decM E B) (m : decM E A) b1 b2 after v w :
  reads_before d m b1 (b2 ++ after) v -> reads_before (advance d (len b1)) (f v) b2 after w ->
  reads_before d (m ≫= f) (b1 ++ b2) after w.
Proof.
  intros Hm Hf W R. rewrite <- app_assoc in R. unfold mbind, decM_bind. rewrite (Hm W R).
  assert (took d b1 (advance d (len b1))) as T by by eapply took_advance.
  rewrite (Hf (took_wf _ _ _ T) (rest_advance _ _ _ W R)), advance_advance, len_app. done.
Qed.

Lemma before_nil_bind {E A B} d (f : A -> decM E B) (m : decM E A) b after v w :
  reads_before d m [] (b ++ after) v -> reads_before d (f v) b after w -> reads_before d (m ≫= f) b after w.
Proof.
  intros Hm Hf. change b with ([] ++ b) at 1. eapply before_bind; [exact Hm|].
  change (len (@nil byte)) with 0. by rewrite advance_0.
Qed.

Lemma before_last {E A B} d (f : A -> decM E B) (m : decM E A) b after v w :
  reads_before d m b after v -> (forall d', reads_before d' (f v) [] after w) -> reads_before d (m ≫= f) b after w.
Proof.
  intros Hm Hf. rewrite <- (app_nil_r b). eapply before_bind; [exact Hm|]. apply Hf.
Qed.

Lemma before_remaining d bs : dec_wf d -> rest d = bs -> remaining d = len bs.
Proof. intros W <-. by rewrite len_rest. Qed.

(** Looking at the decoder shows how many bytes are left. *)
Lemma before_get {E B} d (f : Decoder -> decM E B) b after w :
  (remaining d = len b + len after -> reads_before d (f d) b after w) -> reads_before d (dec_get ≫= f) b after w.
Proof.
  intros H W R. unfold mbind, decM_bind, dec_get. apply H; [|done|done]. rewrite <- len_app. by apply before_remaining.
Qed.

Lemma run_all_before {E A} (from : DecodeError -> E) (m : decM E A) inp v :
  len inp <= isize_max -> reads_before (Decoder_new inp) m inp [] v -> run_all from m inp = Ok v.
Proof.
  intros L R. apply run_all_Ok. eexists. split; [|apply finish_all].
  apply R; [by apply wf_new|]. by rewrite rest_new, app_nil_r.
Qed.

(** [took_all] turns every successful primitive read from a well-formed cursor
    into the bytes it took. *)
Ltac took_step :=
  match goal with
  | W : dec_wf ?d, H : read_u8 ?d = (Ok _, _) |- _ => apply (read_u8_inv _ _ _ W) in H
  | W : dec_wf ?d, H : read_u16_le ?d = (Ok _, _) |- _ =>
    apply (read_u16_inv _ _ _ W) in H as (H & ?)
  | W : dec_wf ?d, H : read_u32_le ?d = (Ok _, _) |- _ =>
    apply (read_u32_inv _ _ _ W) in H as (H & ?)
  | W : dec_wf ?d, H : read_u64_le ?d = (Ok _, _) |- _ =>
    apply (read_u64_inv _ _ _ W) in H as (H & ?)
  | W : dec_wf ?d, H : read_compact_size ?d = (Ok _, _) |- _ =>
    apply (read_compact_inv _ _ _ W) in H as (H & ?)
  | W : dec_wf ?d, H : read_compact_usize _ _ ?d = (Ok _, _) |- _ =>
    apply (read_compact_usize_inv _ _ _ _ _ W) in H as (H & ? & ?)
  | W : dec_wf ?d, H : read_varbytes _ _ ?d = (Ok _, _) |- _ =>
    apply (read_varbytes_inv _ _ _ _ _ W) in H as (H & ?)
  | W : dec_wf ?d, H : read_array _ ?d = (Ok _, _) |- _ =>
    apply read_array_inv in H as (H & ?); [|lia|exact W]
  | H : took _ _ ?d |- _ =>
    lazymatch goal with W : dec_wf d |- _ => fail | _ => pose proof (took_wf _ _ _ H) end
  end.
Ltac took_all := repeat took_step.

(** [took_chain] joins the cursor moves of consecutive fields. *)
Ltac took_chain := first [eassumption | eapply took_trans; [eassumption|took_chain]].

(** [reads_step] reads the next field of a known encoding. *)
Ltac reads_step := eapply reads_bind; [solve [eauto with codec]|].

(** ** Cursor safety for arbitrary sequences of reads *)
Inductive DecOp :=
| OpU8 | OpU16 | OpU32 | OpU64 | OpCompactSize
| OpArray (n : Z) | OpSlice (n : Z) | OpBoundedVec (n max : Z)
| OpCompactUsize (max : Z) | OpVarbytes (max : Z).

(** Lengths are [usize] values. *)
Definition op_ok (op : DecOp) : Prop :=
  match op with OpArray n | OpSlice n | OpBoundedVec n _ => 0 <= n | _ => True end.

(** The cursor a read leaves behind, whether it succeeds or fails. *)
Definition run_op (d : Decoder) (op : DecOp) : Decoder :=
  match op with
  | OpU8 => snd (read_u8 d)
  | OpU16 => snd (read_u16_le d)
  | OpU32 => snd (read_u32_le d)
  | OpU64 => snd (read_u64_le d)
  | OpCompactSize => snd (read_compact_size d)
  | OpArray n => snd (read_array n d)
  | OpSlice n => snd (read_slice n d)
  | OpBoundedVec n max => snd (read_bounded_vec n max d)
  | OpCompactUsize max => snd (read_compact_usize max "field" d)
  | OpVarbytes max => snd (read_varbytes max "field" d)
  end.

(** [safe m]: whatever the outcome, the cursor stays inside an unchanged input
    and never moves backwards. *)
Definition safe {E A} (m : decM E A) : Prop :=
  forall d, dec_wf d ->
    dec_wf (snd (m d)) /\ input (snd (m d)) = input d /\ position d <= position (snd (m d)).

Lemma safe_ret {E A} (a : A) : safe (mret a : decM E A).
Proof. intros d W. simpl. auto with lia. Qed.

Lemma safe_res {E A} (r : result E A) : safe (lift_res r).
Proof. intros d W. simpl. auto with lia. Qed.

Lemma safe_bind {E A B} (m : decM E A) (f : A -> decM E B) :
  safe m -> (forall a d d', dec_wf d -> m d = (Ok a, d') -> safe (f a)) -> safe (m ≫= f).
Proof.
  intros Hm Hf d W. unfold mbind, decM_bind. specialize (Hm d W).
  destruct (m d) as [[a|e] d1] eqn:E1; simpl in *; [|done].
  destruct Hm as (W1 & I1 & P1). destruct (Hf a d d1 W E1 d1 W1) as (W2 & I2 & P2).
  split; [done|]. split; [congruence|lia].
Qed.

Lemma safe_slice n : 0 <= n -> safe (read_slice n).
Proof.
  intros Hn d W. destruct (read_slice n d) as [[v|e] d'] eqn:E.
  - apply read_slice_inv in E as ((H & -> & W') & L); [|done|done].
    pose proof (len_nonneg v). simpl in *. auto with lia.
  - apply read_slice_err in E as ->. simpl. auto with lia.
Qed.

Ltac safe_auto :=
  repeat first [apply safe_ret | apply safe_res | apply safe_slice; lia
               | apply safe_bind; [|intros] | case_match].

Lemma safe_le n : 0 <= n -> safe (bytes ← read_array n; mret (from_le_bytes bytes)).
Proof. intros. unfold read_array. safe_auto. Qed.
Lemma safe_u8 : safe read_u8.
Proof. unfold read_u8, read_array. safe_auto. Qed.
Lemma safe_compact : safe read_compact_size.
Proof.
  unfold read_compact_size, read_u16_le, read_u32_le, read_u64_le.
  apply safe_bind; [apply safe_u8|]. intros.
  repeat case_match; first [apply safe_ret | apply safe_bind; [apply safe_le; lia|intros; safe_auto]].
Qed.
Lemma safe_compact_usize max f : safe (read_compact_usize max f).
Proof. apply safe_bind; [apply safe_compact|]. intros. safe_auto. Qed.
Lemma safe_bounded n max : 0 <= n -> safe (read_bounded_vec n max).
Proof. intros. unfold read_bounded_vec. safe_auto. Qed.

Lemma safe_op op d :
  op_ok op -> dec_wf d ->
  dec_wf (run_op d op) /\ input (run_op d op) = input d /\ position d <= position (run_op d op).
Proof.
  intros Hok W. destruct op; cbn [run_op op_ok] in *.
  all: first [ by apply safe_u8 | by (apply safe_le; [lia|]) | by apply safe_compact
             | by apply safe_slice | by apply safe_bounded | by apply safe_compact_usize
             | idtac ].
  - unfold read_array. by apply safe_bind; [apply safe_slice|intros; apply safe_ret|].
  - unfold read_varbytes. apply safe_bind; [apply safe_compact_usize| |done].
    intros n d1 d2 W1 H1. apply read_compact_usize_inv in H1 as (_ & ? & _); [|done].
    apply safe_bounded. lia.
Qed.

(** ** Properties *)

(** A compact size is read exactly when the input continues with the one
    minimal encoding the encoder writes for that [u64]: encoding then decoding
    is the identity, and no second (non-minimal) spelling is accepted. *)
Theorem compact_size_codec d d' v (W : dec_wf d) :
  read_compact_size d = (Ok v, d') <-> u64 v /\ took d (compact_bytes v) d'.
Proof.
  split.
  - intros H. apply read_compact_inv in H; tauto.
  - intros (Hv & T). eapply reads_took; eauto with codec.
Qed.

(** A length-prefixed vector is read exactly when the input continues with
    its encoding and it respects the caller's allocation bound. *)
Theorem varbytes_codec d d' bs max field (W : dec_wf d) (Hmax : max <= usize_max) :
  read_varbytes max field d = (Ok bs, d') <-> len bs <= max /\ took d (var_bytes bs) d'.
Proof.
  split.
  - intros H. apply read_varbytes_inv in H; tauto.
  - intros (? & T). eapply reads_took; [done| |done]. apply read_varbytes_reads; lia.
Qed.

Lemma varbytes_codec_witness :
  read_varbytes 4 "field" (Decoder_new [z2b 2; z2b 7; z2b 8]) =
    (Ok [z2b 7; z2b 8], mkDecoder [z2b 2; z2b 7; z2b 8] 3).
Proof.
  apply varbytes_codec; [repeat split; vm_compute; discriminate|vm_compute; discriminate|].
  split; [vm_compute; discriminate|].
  split; [reflexivity|split; [reflexivity|]]. repeat split; vm_compute; discriminate.
Defined.

(** Any sequence of decoder reads, each succeeding or failing, keeps the
    cursor inside the unchanged input and never moves it backwards. *)
Theorem decoder_invariant ops d (W : dec_wf d) (Hops : Forall op_ok ops) :
  dec_wf (foldl run_op d ops) /\ input (foldl run_op d ops) = input d /\
  position d <= position (foldl run_op d ops).
Proof.
  revert d W; induction Hops as [|op ops Hop Hops IH]; intros d W; [simpl; auto with lia|].
  destruct (safe_op op d Hop W) as (W1 & I1 & P1). destruct (IH _ W1) as (W2 & I2 & P2).
  simpl. split; [done|]. split; [congruence|lia].
Qed.

Lemma decoder_invariant_witness :
  dec_wf (foldl run_op (Decoder_new [z2b 1; z2b 2]) [OpU8; OpU32; OpVarbytes 3]).
Proof.
  apply decoder_invariant; [|by repeat constructor].
  repeat split; vm_compute; discriminate.
Defined.
