(* ===== verification/Primitives.v ===== *)
(** * hns-primitives: outpoints, amounts, chainwork; the hash interface

    Models [crates/hns-primitives/src/lib.rs]. The [semantic_bytes!] newtypes
    are byte lists (their length is part of the well-formedness predicates of
    the records that hold them) and the [semantic_integer!] newtypes are their
    integers. [Chainwork] keeps its four little-endian 64-bit limbs, and its
    carry, borrow and long-division loops are shown to be 256-bit arithmetic.

    The digest functions are third-party code (crates [blake2] and [sha3]); the
    class [Crypto] is what the development assumes of them. *)

From S2P Require Import Prelude.
Local Open Scope Z_scope.

(** ** Digests

    [blake2b n] is BLAKE2b with an [n]-byte output and [sha3_256] is SHA3-256;
    both hash a byte string (incremental updates hash the concatenation) and
    fill their output buffer. *)
Class Crypto := {
  blake2b : nat -> list byte -> list byte;
  sha3_256 : list byte -> list byte;
  blake2b_length : forall n m, length (blake2b n m) = n;
  sha3_256_length : forall m, length (sha3_256 m) = 32%nat;
}.

(** No two of the given messages collide under BLAKE2b-256. Theorems that rest
    on a digest assume this of the messages they name, never of all messages. *)
Definition collision_free {CR : Crypto} (ms : list (list byte)) : Prop :=
  forall a b, a ∈ ms -> b ∈ ms -> blake2b 32 a = blake2b 32 b -> a = b.

Definition collision_freeb {CR : Crypto} (ms : list (list byte)) : bool :=
  forallb (fun a => forallb (fun b =>
    implb (bool_decide (blake2b 32 a = blake2b 32 b)) (bool_decide (a = b))) ms) ms.

Lemma collision_freeb_spec {CR : Crypto} ms : collision_freeb ms = true -> collision_free ms.
Proof.
  unfold collision_freeb. intros H a b Ia Ib E.
  apply list_elem_of_In in Ia, Ib. rewrite forallb_forall in H. apply H in Ia.
  rewrite forallb_forall in Ia. apply Ia in Ib. rewrite (bool_decide_eq_true_2 _ E) in Ib.
  by apply bool_decide_eq_true in Ib.
Qed.

Lemma collision_free_self {CR : Crypto} ms : collision_free ms -> collision_free (ms ++ ms).
Proof. intros C a b Ha Hb. apply C; set_solver. Qed.

(** A concrete instance, for evaluating the model on examples. *)
Definition toy_mask : Z :=
  115792089237316195423570985008687907853269984665640564039457584007913129639935.
Definition toy_digest (n : nat) (m : list byte) : list byte :=
  to_le_bytes n (foldl (fun acc b => Z.land (acc * 257 + b2z b + 1) toy_mask) 5381 m).
Definition toy_crypto : Crypto := {|
  blake2b := toy_digest;
  sha3_256 := toy_digest 32;
  blake2b_length := fun n _ => length_to_le_bytes n _;
  sha3_256_length := fun _ => length_to_le_bytes 32 _;
|}.

(** ** Outpoints *)
Record Outpoint := mkOutpoint { transaction_hash : list byte; index : Z }.

#[global] Instance Outpoint_eq_dec : EqDecision Outpoint.
Proof. solve_decision. Defined.
#[global] Program Instance Outpoint_countable : countable.Countable Outpoint :=
  countable.inj_countable' (fun o => (transaction_hash o, index o)) (fun p => mkOutpoint p.1 p.2) _.
Next Obligation. by intros []. Qed.

Definition zeros (n : nat) : list byte := replicate n x00.

Definition Outpoint_NULL : Outpoint := mkOutpoint (zeros 32) u32_max.

Definition Outpoint_is_null (o : Outpoint) : bool :=
  (index o =? u32_max) && bool_decide (transaction_hash o = zeros 32).

Definition Outpoint_encode (o : Outpoint) : list byte :=
  transaction_hash o ++ to_le_bytes 4 (index o).

Definition Outpoint_wf (o : Outpoint) : Prop :=
  length (transaction_hash o) = 32%nat /\ u32 (index o).

Lemma Outpoint_is_null_spec o : Outpoint_is_null o = true <-> o = Outpoint_NULL.
Proof.
  unfold Outpoint_is_null, Outpoint_NULL. destruct o as [h i]. cbn [index transaction_hash].
  rewrite andb_true_iff, Z.eqb_eq, bool_decide_eq_true. naive_solver.
Qed.

Lemma Outpoint_NULL_wf : Outpoint_wf Outpoint_NULL.
Proof. split; [done|]. simpl. ulia. Qed.

(** ** Amounts *)
Inductive ArithmeticError := Overflow | Underflow.

#[global] Instance ArithmeticError_eq_dec : EqDecision ArithmeticError.
Proof. solve_decision. Defined.

Definition Dollarydoos_checked_add (a b : Z) : result ArithmeticError Z :=
  ok_or (checked_add u64_max a b) Overflow.
Definition Dollarydoos_checked_sub (a b : Z) : result ArithmeticError Z :=
  ok_or (checked_sub a b) Underflow.

(** ** Chainwork *)
Definition overflowing_add (a b : Z) : Z * bool := (wrap 64 (a + b), u64_max <? a + b).
Definition overflowing_sub (a b : Z) : Z * bool := (wrap 64 (a - b), a <? b).

(** [[u64; 4]], least significant limb first. *)
Definition Chainwork : Type := list Z.
Definition Chainwork_ZERO : Chainwork := [0; 0; 0; 0].

Definition limbs_wf (l : list Z) : Prop := Forall u64 l.
Definition Chainwork_wf (c : Chainwork) : Prop := length c = 4%nat /\ limbs_wf c.

(** The number the limbs spell, and the limbs of a number. *)
Fixpoint limbs_val (l : list Z) : Z :=
  match l with
  | [] => 0
  | x :: l => x + 2 ^ 64 * limbs_val l
  end.
Fixpoint limbs_of (n : nat) (v : Z) : list Z :=
  match n with
  | O => []
  | S n => wrap 64 v :: limbs_of n (v / 2 ^ 64)
  end.

Fixpoint add_limbs (a b : list Z) (carry : bool) : list Z * bool :=
  match a, b with
  | x :: a, y :: b =>
    let '(sum, first_carry) := overflowing_add x y in
    let '(sum, second_carry) := overflowing_add sum (Z.b2z carry) in
    let '(out, c) := add_limbs a b (first_carry || second_carry) in
    (sum :: out, c)
  | _, _ => ([], carry)
  end.

Definition Chainwork_checked_add (a b : Chainwork) : result ArithmeticError Chainwork :=
  let '(output, carry) := add_limbs a b false in
  if carry then Err Overflow else Ok output.

(** [Ord for Chainwork]: the loop runs over the limbs from the highest. *)
Fixpoint cmp_be (a b : list Z) : comparison :=
  match a, b with
  | x :: a, y :: b => match x ?= y with Eq => cmp_be a b | c => c end
  | _, _ => Eq
  end.
Definition Chainwork_cmp (a b : Chainwork) : comparison := cmp_be (rev a) (rev b).
Definition Chainwork_lt (a b : Chainwork) : bool :=
  match Chainwork_cmp a b with Lt => true | _ => false end.

Fixpoint sub_limbs (a b : list Z) (borrow : bool) : list Z * bool :=
  match a, b with
  | x :: a, y :: b =>
    let '(difference, first_borrow) := overflowing_sub x y in
    let '(difference, second_borrow) := overflowing_sub difference (Z.b2z borrow) in
    let '(out, c) := sub_limbs a b (first_borrow || second_borrow) in
    (difference :: out, c)
  | _, _ => ([], borrow)
  end.

Definition Chainwork_checked_sub (a b : Chainwork) : result ArithmeticError Chainwork :=
  if Chainwork_lt a b then Err Underflow
  else Ok (fst (sub_limbs a b false)).

Fixpoint mul_limbs (a : list Z) (multiplier carry : Z) : list Z * Z :=
  match a with
  | [] => ([], carry)
  | x :: a =>
    let product := x * multiplier + carry in
    let '(out, c) := mul_limbs a multiplier (Z.shiftr product 64) in
    (wrap 64 product :: out, c)
  end.

Definition Chainwork_checked_mul_u64 (a : Chainwork) (multiplier : Z)
  : result ArithmeticError Chainwork :=
  let '(output, carry) := mul_limbs a multiplier 0 in
  if carry =? 0 then Ok output else Err Overflow.

(** The division loop runs from the highest limb down; [a] is given highest
    limb first and the quotient limbs come out in the same order. *)
Fixpoint div_limbs (a : list Z) (divisor remainder : Z) : list Z :=
  match a with
  | [] => []
  | x :: a =>
    let dividend := Z.lor (wrap 128 (Z.shiftl remainder 64)) x in
    wrap 64 (dividend / divisor) :: div_limbs a divisor (dividend mod divisor)
  end.

Definition Chainwork_checked_div_u64 (a : Chainwork) (divisor : Z)
  : result ArithmeticError Chainwork :=
  if divisor =? 0 then Err Underflow
  else Ok (rev (div_limbs (rev a) divisor 0)).

(** [bytes[start..start + 8]] for each limb, from the highest limb down. *)
Fixpoint chunks8 (n : nat) (bs : list byte) : list (list byte) :=
  match n with
  | O => []
  | S n => take 8 bs :: chunks8 n (drop 8 bs)
  end.
Definition Chainwork_from_be_bytes (bs : list byte) : Chainwork :=
  rev (from_be_bytes <$> chunks8 4 bs).
Definition Chainwork_to_be_bytes (c : Chainwork) : list byte :=
  mjoin (to_be_bytes 8 <$> rev c).

(** ** Limb arithmetic is integer arithmetic *)
Lemma limbs_val_range l : limbs_wf l -> 0 <= limbs_val l < 2 ^ (64 * len l).
Proof.
  unfold len. induction 1 as [|x l Hx Hl IH]; [simpl; lia|]. cbn [limbs_val length].
  replace (64 * Z.of_nat (S (length l))) with (64 + 64 * Z.of_nat (length l)) by lia.
  rewrite Z.pow_add_r by lia. unfold u64, u64_max in Hx. nia.
Qed.

Lemma limbs_of_wf n v : limbs_wf (limbs_of n v).
Proof.
  revert v; induction n; intros v; constructor; [|apply IHn].
  unfold wrap. pose proof (Z.mod_pos_bound v (2 ^ 64)). ulia.
Qed.

Lemma limbs_of_length n v : length (limbs_of n v) = n.
Proof. revert v; induction n; intros; simpl; auto. Qed.

Lemma limbs_val_of n v : 0 <= v < 2 ^ (64 * Z.of_nat n) -> limbs_val (limbs_of n v) = v.
Proof.
  revert v; induction n as [|n IH]; intros v Hv; [simpl in *; lia|].
  cbn [limbs_of limbs_val]. unfold wrap.
  replace (64 * Z.of_nat (S n)) with (64 + 64 * Z.of_nat n) in Hv by lia.
  rewrite Z.pow_add_r in Hv by lia.
  rewrite IH by (split; [apply Z.div_pos; lia|apply Z.div_lt_upper_bound; lia]).
  pose proof (Z.div_mod v (2 ^ 64)). lia.
Qed.

Lemma limbs_of_val l : limbs_wf l -> limbs_of (length l) (limbs_val l) = l.
Proof.
  induction 1 as [|x l Hx Hl IH]; [done|]. cbn [length limbs_of limbs_val].
  unfold wrap, u64, u64_max in *. f_equal.
  - rewrite Z.mul_comm, Z_mod_plus_full. apply Z.mod_small. lia.
  - rewrite Z.mul_comm, Z.div_add, Z.div_small, Z.add_0_l by lia. done.
Qed.

Lemma limbs_val_inj a b :
  length a = length b -> limbs_wf a -> limbs_wf b -> limbs_val a = limbs_val b -> a = b.
Proof. intros L Wa Wb E. rewrite <- (limbs_of_val a), <- (limbs_of_val b), L, E by done. done. Qed.

(** Two results with the same limb count and value are the same limbs. *)
Lemma limbs_eq_of n l v :
  length l = n -> limbs_wf l -> limbs_val l = v -> l = limbs_of n v.
Proof. intros <- W <-. by rewrite limbs_of_val. Qed.

Lemma add_limbs_spec a b c out c' :
  length a = length b -> limbs_wf a -> limbs_wf b -> add_limbs a b c = (out, c') ->
  length out = length a /\ limbs_wf out /\
  limbs_val out + Z.b2z c' * 2 ^ (64 * len a) = limbs_val a + limbs_val b + Z.b2z c.
Proof.
  unfold len. revert b c out c'; induction a as [|x a IH]; intros [|y b] c out c' L Wa Wb H;
    try done; simpl in H.
  { simplify_eq. simpl. split; [done|]. split; [constructor|]. simpl. lia. }
  inversion_clear Wa as [|?? Hx Wa']. inversion_clear Wb as [|?? Hy Wb']. injection L as L.
  destruct (add_limbs a b _) as [o c1] eqn:E. simplify_eq.
  apply IH in E as (Lo & Wo & V); [|done..]. cbn [length limbs_val].
  replace (64 * Z.of_nat (S (length a))) with (64 + 64 * Z.of_nat (length a)) by lia.
  rewrite Z.pow_add_r by lia. set (P := 2 ^ (64 * Z.of_nat (length a))) in *.
  unfold wrap in *. pose proof (Z.div_mod (x + y) (2 ^ 64) ltac:(lia)) as D1.
  pose proof (Z.mod_pos_bound (x + y) (2 ^ 64) ltac:(lia)).
  set (s := (x + y) mod 2 ^ 64) in *.
  pose proof (Z.div_mod (s + Z.b2z c) (2 ^ 64) ltac:(lia)) as D2.
  pose proof (Z.mod_pos_bound (s + Z.b2z c) (2 ^ 64) ltac:(lia)).
  split; [lia|]. split; [constructor; [ulia|done]|].
  assert (Z.b2z ((u64_max <? x + y) || (u64_max <? s + Z.b2z c))
          = (x + y) / 2 ^ 64 + (s + Z.b2z c) / 2 ^ 64) as C.
  { clear V IH. unfold u64, u64_max in *.
    destruct c; cbn [Z.b2z] in *; (repeat match goal with |- context [?a <? ?b] =>
      destruct (Z.ltb_spec a b) end); cbn [orb Z.b2z]; lia. }
  rewrite C in V. nia.
Qed.

Lemma sub_limbs_spec a b c out c' :
  length a = length b -> limbs_wf a -> limbs_wf b -> sub_limbs a b c = (out, c') ->
  length out = length a /\ limbs_wf out /\
  limbs_val out - Z.b2z c' * 2 ^ (64 * len a) = limbs_val a - limbs_val b - Z.b2z c.
Proof.
  unfold len. revert b c out c'; induction a as [|x a IH]; intros [|y b] c out c' L Wa Wb H;
    try done; simpl in H.
  { simplify_eq. simpl. split; [done|]. split; [constructor|]. simpl. lia. }
  inversion_clear Wa as [|?? Hx Wa']. inversion_clear Wb as [|?? Hy Wb']. injection L as L.
  destruct (sub_limbs a b _) as [o c1] eqn:E. simplify_eq.
  apply IH in E as (Lo & Wo & V); [|done..]. cbn [length limbs_val].
  replace (64 * Z.of_nat (S (length a))) with (64 + 64 * Z.of_nat (length a)) by lia.
  rewrite Z.pow_add_r by lia. set (P := 2 ^ (64 * Z.of_nat (length a))) in *.
  unfold wrap in *. pose proof (Z.div_mod (x - y) (2 ^ 64) ltac:(lia)) as D1.
  pose proof (Z.mod_pos_bound (x - y) (2 ^ 64) ltac:(lia)).
  set (s := (x - y) mod 2 ^ 64) in *.
  pose proof (Z.div_mod (s - Z.b2z c) (2 ^ 64) ltac:(lia)) as D2.
  pose proof (Z.mod_pos_bound (s - Z.b2z c) (2 ^ 64) ltac:(lia)).
  split; [lia|]. split; [constructor; [ulia|done]|].
  assert (Z.b2z ((x <? y) || (s <? Z.b2z c))
          = - ((x - y) / 2 ^ 64) - (s - Z.b2z c) / 2 ^ 64) as C.
  { clear V IH. unfold u64, u64_max in *.
    destruct c; cbn [Z.b2z] in *; (repeat match goal with |- context [?a <? ?b] =>
      destruct (Z.ltb_spec a b) end); cbn [orb Z.b2z]; lia. }
  rewrite C in V. nia.
Qed.

Lemma mul_limbs_spec a m c out c' :
  limbs_wf a -> u64 m -> u64 c -> mul_limbs a m c = (out, c') ->
  length out = length a /\ limbs_wf out /\ u64 c' /\
  limbs_val out + c' * 2 ^ (64 * len a) = limbs_val a * m + c.
Proof.
  unfold len. revert c out c'; induction a as [|x a IH]; intros c out c' Wa Hm Hc H; simpl in H.
  { simplify_eq. simpl. split; [done|]. split; [constructor|]. split; [done|]. lia. }
  inversion_clear Wa as [|?? Hx Wa'].
  destruct (mul_limbs a m _) as [o c1] eqn:E. simplify_eq.
  rewrite Z.shiftr_div_pow2 in E by lia.
  pose proof (Z.div_mod (x * m + c) (2 ^ 64) ltac:(lia)) as D.
  pose proof (Z.mod_pos_bound (x * m + c) (2 ^ 64) ltac:(lia)) as M.
  apply IH in E as (Lo & Wo & Hc' & V); [|done|done|].
  2: { unfold u64, u64_max in *. split; [apply Z.div_pos; nia|].
       apply Z.lt_succ_r, Z.div_lt_upper_bound; nia. }
  cbn [length limbs_val].
  replace (64 * Z.of_nat (S (length a))) with (64 + 64 * Z.of_nat (length a)) by lia.
  rewrite Z.pow_add_r by lia. unfold wrap in *.
  split; [lia|]. split; [constructor; [ulia|done]|]. split; [done|]. nia.
Qed.

Lemma limbs_val_snoc l x : limbs_val (l ++ [x]) = limbs_val l + 2 ^ (64 * len l) * x.
Proof.
  unfold len. induction l as [|y l IH]; [cbn [app limbs_val length]; rewrite Z.mul_0_r; simpl; lia|].
  cbn [app limbs_val length]. rewrite IH.
  replace (64 * Z.of_nat (S (length l))) with (64 + 64 * Z.of_nat (length l)) by lia.
  rewrite Z.pow_add_r by lia. ring.
Qed.

Lemma limbs_val_rev_cons x l :
  limbs_val (rev (x :: l)) = limbs_val (rev l) + 2 ^ (64 * len l) * x.
Proof. cbn [rev]. rewrite limbs_val_snoc. unfold len. by rewrite length_rev. Qed.

Lemma limbs_wf_rev l : limbs_wf (rev l) <-> limbs_wf l.
Proof.
  split; intros H; [|by apply List.Forall_rev].
  rewrite <- (rev_involutive l). by apply List.Forall_rev.
Qed.

Lemma cmp_be_spec a b :
  length a = length b -> limbs_wf a -> limbs_wf b ->
  cmp_be a b = (limbs_val (rev a) ?= limbs_val (rev b)).
Proof.
  revert b; induction a as [|x a IH]; intros [|y b] L Wa Wb; try done.
  inversion_clear Wa as [|?? Hx Wa']. inversion_clear Wb as [|?? Hy Wb']. injection L as L.
  cbn [cmp_be]. rewrite !limbs_val_rev_cons, IH by done. clear IH.
  assert (0 <= limbs_val (rev a) < 2 ^ (64 * len b)) as Ra.
  { pose proof (limbs_val_range (rev a)) as R. unfold len in *. rewrite length_rev, L in R.
    apply R. by apply limbs_wf_rev. }
  assert (0 <= limbs_val (rev b) < 2 ^ (64 * len b)) as Rb.
  { pose proof (limbs_val_range (rev b)) as R. unfold len in *. rewrite length_rev in R.
    apply R. by apply limbs_wf_rev. }
  replace (len a) with (len b) by (unfold len; lia).
  set (P := 2 ^ (64 * len b)) in *.
  destruct (Z.compare_spec x y) as [->| |].
  - rewrite !(Z.add_comm (limbs_val _)). by rewrite Z.add_compare_mono_l.
  - symmetry. apply Z.compare_lt_iff. nia.
  - symmetry. apply Z.compare_gt_iff. nia.
Qed.

Lemma Chainwork_cmp_spec a b :
  Chainwork_wf a -> Chainwork_wf b -> Chainwork_cmp a b = (limbs_val a ?= limbs_val b).
Proof.
  intros (La & Wa) (Lb & Wb). unfold Chainwork_cmp.
  rewrite cmp_be_spec, !rev_involutive; [done|by rewrite !length_rev, La, Lb|..];
    by apply limbs_wf_rev.
Qed.

Lemma div_limbs_spec a d r :
  limbs_wf a -> 0 < d <= u64_max -> 0 <= r < d ->
  length (div_limbs a d r) = length a /\ limbs_wf (div_limbs a d r) /\
  limbs_val (rev (div_limbs a d r)) = (r * 2 ^ (64 * len a) + limbs_val (rev a)) / d.
Proof.
  intros Wa Hd. revert r; induction Wa as [|x a Hx Wa IH]; intros r Hr.
  { split; [done|]. split; [constructor|]. cbn. rewrite Z.mul_1_r, Z.add_0_r.
    by rewrite Z.div_small. }
  cbn [div_limbs]. unfold wrap. rewrite Z.shiftl_mul_pow2 by lia.
  unfold u64, u64_max in Hx, Hd.
  rewrite (Z.mod_small (r * 2 ^ 64)) by lia.
  rewrite <- Z.shiftl_mul_pow2, lor_shiftl_add by lia.
  set (D := r * 2 ^ 64 + x).
  pose proof (Z.div_mod D d ltac:(lia)) as DM. pose proof (Z.mod_pos_bound D d ltac:(lia)).
  assert (0 <= D / d < 2 ^ 64) as Hq.
  { split; [apply Z.div_pos; lia|apply Z.div_lt_upper_bound; lia]. }
  rewrite (Z.mod_small (D / d)) by done.
  destruct (IH (D mod d)) as (L & W & V); [done|].
  split; [simpl; lia|]. split; [constructor; [ulia|done]|].
  rewrite !limbs_val_rev_cons, V.
  replace (len (div_limbs a d (D mod d))) with (len a) by (unfold len; lia).
  replace (64 * len (x :: a)) with (64 + 64 * len a) by (rewrite len_cons; lia).
  rewrite Z.pow_add_r by (pose proof (len_nonneg a); lia).
  set (P := 2 ^ (64 * len a)). set (A := limbs_val (rev a)).
  replace (r * (2 ^ 64 * P) + (A + P * x)) with ((D mod d * P + A) + (D / d * P) * d)
    by (unfold D in *; nia).
  rewrite Z.div_add by lia. lia.
Qed.

(** ** Big-endian bytes *)
Lemma chunks8_length n bs : length (chunks8 n bs) = n.
Proof. revert bs; induction n; intros; simpl; auto. Qed.

Lemma chunks8_join n bs :
  length bs = (8 * n)%nat ->
  mjoin (chunks8 n bs) = bs /\ Forall (fun c => length c = 8%nat) (chunks8 n bs).
Proof.
  revert bs; induction n as [|n IH]; intros bs L; cbn [chunks8].
  { destruct bs; [by split|simpl in L; lia]. }
  destruct (IH (drop 8 bs)) as (J & F); [rewrite length_drop; lia|]. split.
  - by rewrite join_cons, J, take_drop.
  - constructor; [|done]. rewrite length_take. lia.
Qed.

Lemma Chainwork_from_be_bytes_wf bs :
  length bs = 32%nat -> Chainwork_wf (Chainwork_from_be_bytes bs).
Proof.
  intros L. unfold Chainwork_from_be_bytes. split.
  - by rewrite length_rev, length_fmap, chunks8_length.
  - apply limbs_wf_rev. destruct (chunks8_join 4 bs L) as (_ & F). revert F.
    generalize (chunks8 4 bs). induction 1 as [|c cs Hc Hcs IH]; constructor; [|done].
    pose proof (from_be_bytes_range c) as R. unfold len in R. rewrite Hc in R.
    change (256 ^ Z.of_nat 8) with (u64_max + 1) in R. ulia.
Qed.

Lemma Chainwork_to_from_be_bytes bs :
  length bs = 32%nat -> Chainwork_to_be_bytes (Chainwork_from_be_bytes bs) = bs.
Proof.
  intros L. unfold Chainwork_to_be_bytes, Chainwork_from_be_bytes. rewrite rev_involutive.
  destruct (chunks8_join 4 bs L) as (J & F). rewrite <- J at 2. f_equal. revert F.
  generalize (chunks8 4 bs). induction 1 as [|c cs Hc Hcs IH]; [done|].
  by rewrite !fmap_cons', to_from_be_bytes_len, IH.
Qed.

Lemma from_be_bytes_app a b : from_be_bytes (a ++ b) = from_be_bytes a * 256 ^ len b + from_be_bytes b.
Proof.
  unfold from_be_bytes. rewrite rev_app_distr, from_le_bytes_app. unfold len.
  rewrite length_rev. lia.
Qed.

(** The bytes of a chainwork spell the number its limbs spell. *)
Lemma Chainwork_to_be_bytes_val c :
  limbs_wf c -> from_be_bytes (Chainwork_to_be_bytes c) = limbs_val c /\
  len (Chainwork_to_be_bytes c) = 8 * len c.
Proof.
  intros W. unfold Chainwork_to_be_bytes. rewrite <- (rev_involutive c) at 2.
  replace (len c) with (len (rev c)) by (unfold len; by rewrite length_rev).
  apply limbs_wf_rev in W. revert W. generalize (rev c). clear c.
  induction 1 as [|x l Hx Hl (IH & IHl)]; [done|]. rewrite fmap_cons', join_cons.
  rewrite from_be_bytes_app, len_app, IHl, IH, limbs_val_rev_cons, len_cons.
  rewrite from_to_be_bytes_small by (unfold u64, u64_max in Hx; simpl; lia).
  assert (len (to_be_bytes 8 x) = 8) as -> by (unfold len; by rewrite length_to_be_bytes).
  split; [|lia].
  replace (256 ^ (8 * len l)) with (2 ^ (64 * len l)).
  2: { change 256 with (2 ^ 8). rewrite <- Z.pow_mul_r by (pose proof (len_nonneg l); lia).
       f_equal. lia. }
  lia.
Qed.

(** The 256-bit number behind a chainwork, and its canonical limbs. *)
Definition work_of (v : Z) : Chainwork := limbs_of 4 v.

Lemma Chainwork_range a : Chainwork_wf a -> 0 <= limbs_val a < 2 ^ 256.
Proof.
  intros (L & W). pose proof (limbs_val_range a W) as R.
  by rewrite (len_length a 4 L) in R.
Qed.

Lemma work_of_wf v : Chainwork_wf (work_of v).
Proof. split; [apply limbs_of_length|apply limbs_of_wf]. Qed.

Lemma work_of_val v : 0 <= v < 2 ^ 256 -> limbs_val (work_of v) = v.
Proof. apply (limbs_val_of 4). Qed.

(** A four-limb result is determined by its value. *)
Lemma work_of_eq o v : length o = 4%nat -> limbs_wf o -> limbs_val o = v -> o = work_of v.
Proof. apply limbs_eq_of. Qed.

Section chainwork.
Context (a b : Chainwork) (Ha : Chainwork_wf a) (Hb : Chainwork_wf b).

Lemma chainwork_add_eq :
  Chainwork_checked_add a b =
    (if limbs_val a + limbs_val b <? 2 ^ 256
     then Ok (work_of (limbs_val a + limbs_val b)) else Err Overflow).
Proof.
  destruct Ha as (La & Wa), Hb as (Lb & Wb). unfold Chainwork_checked_add.
  destruct (add_limbs a b false) as [o c] eqn:E.
  apply add_limbs_spec in E as (L & W & V); [|congruence|done|done].
  rewrite (len_length a 4 La) in V. change (64 * Z.of_nat 4) with 256 in V.
  pose proof (Chainwork_range o (conj (eq_trans L La) W)) as Ro.
  destruct c; cbn [Z.b2z] in V; zcase; try lia; [done|].
  f_equal. apply work_of_eq; [congruence|done|lia].
Qed.

Lemma chainwork_sub_eq :
  Chainwork_checked_sub a b =
    (if limbs_val a <? limbs_val b then Err Underflow
     else Ok (work_of (limbs_val a - limbs_val b))).
Proof.
  unfold Chainwork_checked_sub, Chainwork_lt. rewrite Chainwork_cmp_spec by done.
  fold (limbs_val a <? limbs_val b). zcase; [done|].
  pose proof (Chainwork_range a Ha). pose proof (Chainwork_range b Hb).
  destruct Ha as (La & Wa), Hb as (Lb & Wb).
  destruct (sub_limbs a b false) as [o c] eqn:S; cbn [fst].
  apply sub_limbs_spec in S as (L & W & V); [|congruence|done|done].
  rewrite (len_length a 4 La) in V. change (64 * Z.of_nat 4) with 256 in V.
  pose proof (Chainwork_range o (conj (eq_trans L La) W)) as Ro.
  f_equal; apply work_of_eq; [congruence|done|destruct c; cbn [Z.b2z] in V; lia].
Qed.

Context (m : Z) (Hm : u64 m).

Lemma chainwork_mul_eq :
  Chainwork_checked_mul_u64 a m =
    (if limbs_val a * m <? 2 ^ 256 then Ok (work_of (limbs_val a * m)) else Err Overflow).
Proof.
  destruct Ha as (La & Wa). unfold Chainwork_checked_mul_u64.
  destruct (mul_limbs a m 0) as [o c] eqn:E.
  apply mul_limbs_spec in E as (L & W & Hc & V); [|done|done|ulia].
  rewrite (len_length a 4 La) in V. change (64 * Z.of_nat 4) with 256 in V.
  pose proof (Chainwork_range o (conj (eq_trans L La) W)) as Ro. unfold u64 in Hc.
  destruct (Z.eqb_spec c 0); zcase; try lia; [|done].
  f_equal. apply work_of_eq; [congruence|done|lia].
Qed.

Lemma chainwork_div_eq :
  Chainwork_checked_div_u64 a m =
    (if m =? 0 then Err Underflow else Ok (work_of (limbs_val a / m))).
Proof.
  destruct Ha as (La & Wa). unfold Chainwork_checked_div_u64. zcase; [done|]. f_equal.
  destruct (div_limbs_spec (rev a) m 0) as (L & W & V); [by apply limbs_wf_rev|ulia|ulia|].
  rewrite rev_involutive, Z.mul_0_l, Z.add_0_l in V.
  apply work_of_eq; [rewrite length_rev, L, length_rev; done|by apply limbs_wf_rev|done].
Qed.
End chainwork.

(** ** Properties *)

(** The limb loops of [Chainwork] implement exact 256-bit arithmetic: each
    checked operation returns the limbs of the mathematical result, and the
    error exactly when that result leaves the 256-bit range. *)
Theorem chainwork_refines_Z a b m (Ha : Chainwork_wf a) (Hb : Chainwork_wf b) (Hm : u64 m) :
  Chainwork_cmp a b = (limbs_val a ?= limbs_val b) /\
  Chainwork_checked_add a b =
    (if limbs_val a + limbs_val b <? 2 ^ 256
     then Ok (work_of (limbs_val a + limbs_val b)) else Err Overflow) /\
  Chainwork_checked_sub a b =
    (if limbs_val a <? limbs_val b then Err Underflow
     else Ok (work_of (limbs_val a - limbs_val b))) /\
  Chainwork_checked_mul_u64 a m =
    (if limbs_val a * m <? 2 ^ 256 then Ok (work_of (limbs_val a * m)) else Err Overflow) /\
  Chainwork_checked_div_u64 a m =
    (if m =? 0 then Err Underflow else Ok (work_of (limbs_val a / m))).
Proof.
  split; [by apply Chainwork_cmp_spec|]. split; [by apply chainwork_add_eq|].
  split; [by apply chainwork_sub_eq|]. split; [by apply chainwork_mul_eq|by apply chainwork_div_eq].
Qed.

Lemma chainwork_refines_Z_witness :
  Chainwork_checked_add [u64_max; 1; 0; 0] [1; 2; 0; 0] = Ok [0; 4; 0; 0].
Proof.
  refine (eq_trans (proj1 (proj2 (chainwork_refines_Z [u64_max; 1; 0; 0] [1; 2; 0; 0] 2 _ _ _))) _).
  1, 2: split; [reflexivity|]; repeat constructor; vm_compute; discriminate.
  - split; vm_compute; discriminate.
  - reflexivity.
Defined.
