(* ===== verification/U256.v ===== *)
(** * hns-header-consensus: the byte-array 256-bit integer

    Models the private [U256] type of [crates/hns-header-consensus/src/lib.rs]:
    thirty-two big-endian bytes with a ripple-carry adder, a borrow subtractor
    and a bit-serial division of two to the 256. The loops that run over
    [(0..32).rev()] are recursions over the reversed (least significant first)
    bytes. *)

From S2P Require Import Prelude.
Local Open Scope Z_scope.

Definition U256_ZERO : list byte := replicate 32 x00.

(** The last eight bytes receive the [u64]'s big-endian bytes. *)
Definition U256_from_u64 (value : Z) : list byte := replicate 24 x00 ++ to_be_bytes 8 value.
Definition U256_ONE : list byte := U256_from_u64 1.

Fixpoint add_rev (a b : list byte) (carry : Z) : list byte * Z :=
  match a, b with
  | x :: a, y :: b =>
    let sum := b2z x + b2z y + carry in
    let '(out, c) := add_rev a b (Z.shiftr sum 8) in
    (z2b sum :: out, c)
  | _, _ => ([], carry)
  end.

Definition U256_checked_add (a b : list byte) : option (list byte) :=
  let '(out, carry) := add_rev (rev a) (rev b) 0 in
  if carry =? 0 then Some (rev out) else None.

Fixpoint sub_rev (a b : list byte) (borrow : Z) : list byte :=
  match a, b with
  | x :: a, y :: b =>
    let difference := b2z x - b2z y - borrow in
    if difference <? 0
    then z2b (difference + 256) :: sub_rev a b 1
    else z2b difference :: sub_rev a b 0
  | _, _ => []
  end.

Definition U256_wrapping_sub (a b : list byte) : list byte := rev (sub_rev (rev a) (rev b) 0).

(** [self >= other] on the derived (lexicographic) order. *)
Definition U256_ge (a b : list byte) : bool := bytes_le b a.

Definition U256_checked_sub (a b : list byte) : option (list byte) :=
  if U256_ge a b then Some (U256_wrapping_sub a b) else None.

Fixpoint shl_rev (bs : list byte) (carry : Z) : list byte :=
  match bs with
  | [] => []
  | x :: bs => z2b (Z.lor (wrap 8 (Z.shiftl (b2z x) 1)) carry) :: shl_rev bs (Z.shiftr (b2z x) 7)
  end.

(** The shifted value and the bit that left the top byte. *)
Definition U256_shift_left_one (a : list byte) : list byte * bool :=
  (rev (shl_rev (rev a) 0),
   negb (Z.land (b2z (default x00 (head a))) 0x80 =? 0)).

(** [self.0[31 - bit / 8] |= 1 << (bit % 8)] *)
Definition U256_set_bit (a : list byte) (bit : Z) : list byte :=
  alter (fun b => z2b (Z.lor (b2z b) (Z.shiftl 1 (bit mod 8)))) (Z.to_nat (31 - bit / 8)) a.

(** [remainder.0[31] |= 1] *)
Definition U256_or_one (a : list byte) : list byte :=
  alter (fun b => z2b (Z.lor (b2z b) 1)) 31%nat a.

(** One iteration of the division loop. *)
Definition div_step (divisor : list byte) (st : list byte * list byte) (bit : Z)
  : list byte * list byte :=
  let '(remainder, quotient) := st in
  let '(remainder, high) := U256_shift_left_one remainder in
  let remainder := if bit =? 256 then U256_or_one remainder else remainder in
  if high || U256_ge remainder divisor then
    (U256_wrapping_sub remainder divisor,
     if bit <? 256 then U256_set_bit quotient bit else quotient)
  else (remainder, quotient).

(** [(0..=256).rev()] *)
Definition div_bits : list Z := Z.of_nat <$> rev (seq 0 257).

Definition U256_divide_two_to_256 (divisor : list byte) : option (list byte) :=
  if bytes_le divisor U256_ONE then None
  else Some (snd (foldl (div_step divisor) (U256_ZERO, U256_ZERO) div_bits)).

Definition U256_work_for_target (t : list byte) : option (list byte) :=
  if bool_decide (t = U256_ZERO) then None
  else match U256_checked_add t U256_ONE with
       | None => Some U256_ONE
       | Some divisor => U256_divide_two_to_256 divisor
       end.

Definition U256_target_for_work (w : list byte) : option (list byte) :=
  if bool_decide (w = U256_ZERO) then None
  else if bool_decide (w = U256_ONE) then Some (replicate 32 xff)
  else match U256_divide_two_to_256 w with
       | Some q => U256_checked_sub q U256_ONE
       | None => None
       end.

(** ** The number behind the bytes *)
Definition U256_wf (a : list byte) : Prop := length a = 32%nat.
Definition uval (a : list byte) : Z := from_be_bytes a.

Lemma uval_range a : U256_wf a -> 0 <= uval a < 2 ^ 256.
Proof.
  intros W. pose proof (from_be_bytes_range a) as R. rewrite (len_length a 32 W) in R.
  change (256 ^ Z.of_nat 32) with (2 ^ 256) in R. done.
Qed.

Lemma uval_inj a b : U256_wf a -> U256_wf b -> uval a = uval b -> a = b.
Proof.
  intros Wa Wb E. rewrite <- (to_from_be_bytes_len a 32), <- (to_from_be_bytes_len b 32) by done.
  unfold uval in E. by rewrite E.
Qed.

Lemma uval_le a b : U256_wf a -> U256_wf b -> bytes_le a b = (uval a <=? uval b).
Proof. unfold U256_wf. intros. apply bytes_le_spec. congruence. Qed.

Lemma uval_ZERO : uval U256_ZERO = 0.
Proof. done. Qed.
Lemma uval_ONE : uval U256_ONE = 1.
Proof. done. Qed.

(** Little-endian value of the reversed bytes. *)
Lemma uval_rev a : uval a = from_le_bytes (rev a).
Proof. done. Qed.

Lemma add_rev_spec a b c out c' :
  length a = length b -> 0 <= c <= 1 -> add_rev a b c = (out, c') ->
  length out = length a /\ 0 <= c' <= 1 /\
  from_le_bytes out + c' * 256 ^ len a = from_le_bytes a + from_le_bytes b + c.
Proof.
  unfold len. revert b c out c'; induction a as [|x a IH]; intros [|y b] c out c' L Hc H;
    try done; simpl in H.
  { simplify_eq. simpl. split; [done|]. lia. }
  injection L as L. destruct (add_rev a b _) as [o c1] eqn:E. simplify_eq.
  pose proof (b2z_range x). pose proof (b2z_range y).
  rewrite Z.shiftr_div_pow2 in E by lia. change (2 ^ 8) with 256 in E.
  pose proof (Z.div_mod (b2z x + b2z y + c) 256 ltac:(lia)).
  pose proof (Z.mod_pos_bound (b2z x + b2z y + c) 256 ltac:(lia)).
  apply IH in E as (Lo & Hc' & V); [|done|lia].
  cbn [length from_le_bytes]. rewrite b2z_z2b, Nat2Z.inj_succ, Z.pow_succ_r by lia.
  split; [lia|]. split; [done|]. nia.
Qed.

Lemma sub_rev_spec a b c :
  length a = length b -> 0 <= c <= 1 ->
  length (sub_rev a b c) = length a /\
  from_le_bytes (sub_rev a b c) = (from_le_bytes a - from_le_bytes b - c) mod 256 ^ len a.
Proof.
  unfold len. revert b c; induction a as [|x a IH]; intros [|y b] c L Hc; try done.
  { simpl. by rewrite Z.mod_1_r. }
  injection L as L. cbn [sub_rev].
  pose proof (b2z_range x). pose proof (b2z_range y).
  assert (forall d c', 0 <= d < 256 -> 0 <= c' <= 1 -> b2z x - b2z y - c = d - 256 * c' ->
    length (z2b d :: sub_rev a b c') = length (x :: a) /\
    from_le_bytes (z2b d :: sub_rev a b c') =
      (from_le_bytes (x :: a) - from_le_bytes (y :: b) - c) mod 256 ^ Z.of_nat (length (x :: a)))
    as K.
  { intros d c' Hd Hc' E. destruct (IH b c' L Hc') as (Lr & V). split; [simpl; lia|].
    cbn [from_le_bytes length]. rewrite z2b_small, V, Nat2Z.inj_succ, Z.pow_succ_r by lia.
    set (P := 256 ^ Z.of_nat (length a)). assert (0 < P) by (apply Z.pow_pos_nonneg; lia).
    set (A := from_le_bytes a) in *. set (B := from_le_bytes b) in *.
    replace (b2z x + 256 * A - (b2z y + 256 * B) - c) with (d + (A - B - c') * 256) by lia.
    rewrite Z.rem_mul_r by lia. rewrite Z.mod_add, (Z.mod_small d), Z.div_add, (Z.div_small d) by lia.
    f_equal. }
  zcase; apply K; lia.
Qed.

Lemma U256_wrapping_sub_spec a b :
  U256_wf a -> U256_wf b ->
  U256_wf (U256_wrapping_sub a b) /\
  uval (U256_wrapping_sub a b) = (uval a - uval b) mod 2 ^ 256.
Proof.
  intros Wa Wb. unfold U256_wf, U256_wrapping_sub in *.
  destruct (sub_rev_spec (rev a) (rev b) 0) as (L & V); [by rewrite !length_rev, Wa|lia|].
  rewrite length_rev in L. rewrite !uval_rev, rev_involutive, V, length_rev.
  rewrite L, (len_length (rev a) 32) by (by rewrite length_rev).
  split; [done|]. by rewrite Z.sub_0_r.
Qed.

Lemma U256_checked_add_spec a b :
  U256_wf a -> U256_wf b ->
  match U256_checked_add a b with
  | Some o => U256_wf o /\ uval o = uval a + uval b
  | None => 2 ^ 256 <= uval a + uval b
  end.
Proof.
  intros Wa Wb. unfold U256_wf, U256_checked_add in *.
  destruct (add_rev (rev a) (rev b) 0) as [o c] eqn:E.
  apply add_rev_spec in E as (L & Hc & V); [|by rewrite !length_rev, Wa|lia].
  rewrite length_rev in L. rewrite <- !uval_rev, (len_length (rev a) 32) in V by (by rewrite length_rev).
  change (256 ^ Z.of_nat 32) with (2 ^ 256) in V.
  zcase.
  - split; [rewrite length_rev; lia|]. rewrite uval_rev, rev_involutive. lia.
  - pose proof (from_le_bytes_range o). lia.
Qed.

Lemma shl_rev_spec bs c :
  0 <= c <= 1 ->
  length (shl_rev bs c) = length bs /\
  from_le_bytes (shl_rev bs c) = (2 * from_le_bytes bs + c) mod 256 ^ len bs.
Proof.
  unfold len. revert c; induction bs as [|x bs IH]; intros c Hc.
  { simpl. by rewrite Z.mod_1_r. }
  cbn [shl_rev length from_le_bytes]. pose proof (b2z_range x).
  rewrite Z.shiftr_div_pow2, b2z_z2b by lia. change (2 ^ 7) with 128.
  assert (0 <= b2z x / 128 <= 1) as Hc'.
  { split; [apply Z.div_pos; lia|]. apply Z.lt_succ_r, Z.div_lt_upper_bound; lia. }
  destruct (IH (b2z x / 128) Hc') as (L & V). rewrite V, L. split; [done|].
  assert (Z.lor (wrap 8 (Z.shiftl (b2z x) 1)) c = (2 * b2z x) mod 256 + c) as ->.
  { unfold wrap. rewrite Z.shiftl_mul_pow2 by lia. change (2 ^ 8) with 256. change (2 ^ 1) with 2.
    replace (b2z x * 2 mod 256) with (Z.shiftl (b2z x mod 128) 1).
    - rewrite lor_shiftl_add by lia. change (2 ^ 1) with 2.
      rewrite (Z.mul_comm 2), (Z.mul_mod_distr_r _ 128 2) by lia. done.
    - rewrite Z.shiftl_mul_pow2 by lia. change (2 ^ 1) with 2.
      by rewrite <- (Z.mul_mod_distr_r _ 128 2) by lia. }
  pose proof (Z.mod_pos_bound (2 * b2z x) 256 ltac:(lia)).
  assert ((2 * b2z x) mod 256 = 2 * (b2z x mod 128)) as M.
  { rewrite !(Z.mul_comm 2). by rewrite <- (Z.mul_mod_distr_r _ 128 2) by lia. }
  pose proof (Z.div_mod (b2z x) 128 ltac:(lia)) as D.
  pose proof (Z.mod_pos_bound (b2z x) 128 ltac:(lia)).
  rewrite (Z.mod_small (_ + c) 256) by lia.
  rewrite Nat2Z.inj_succ, Z.pow_succ_r by lia.
  set (P := 256 ^ Z.of_nat (length bs)). assert (0 < P) by (apply Z.pow_pos_nonneg; lia).
  set (B := from_le_bytes bs).
  replace (2 * (b2z x + 256 * B) + c)
    with (((2 * b2z x) mod 256 + c) + (2 * B + b2z x / 128) * 256) by lia.
  rewrite Z.rem_mul_r by lia.
  by rewrite Z.mod_add, (Z.mod_small (_ + c)), Z.div_add, (Z.div_small (_ + c)), Z.add_0_l by lia.
Qed.

Lemma land_0x80 b : (Z.land (b2z b) 0x80 =? 0) = (b2z b <? 128).
Proof. destruct b; reflexivity. Qed.

Lemma U256_shift_left_one_spec a :
  U256_wf a ->
  U256_wf (fst (U256_shift_left_one a)) /\
  uval (fst (U256_shift_left_one a)) = (2 * uval a) mod 2 ^ 256 /\
  snd (U256_shift_left_one a) = (2 ^ 255 <=? uval a).
Proof.
  intros W. unfold U256_wf, U256_shift_left_one in *. cbn [fst snd].
  destruct (shl_rev_spec (rev a) 0) as (L & V); [lia|].
  rewrite length_rev in L. rewrite !uval_rev, rev_involutive, V, length_rev, L.
  rewrite (len_length (rev a) 32) by (by rewrite length_rev).
  split; [done|]. split; [by rewrite Z.add_0_r|].
  rewrite land_0x80. destruct a as [|x a]; [done|]. cbn [head default from_option].
  fold (from_be_bytes (x :: a)). rewrite from_be_bytes_cons.
  pose proof (from_be_bytes_range a) as R. injection W as W.
  rewrite (len_length a 31 W) in *. change (256 ^ Z.of_nat 31) with (2 ^ 248) in *.
  change (2 ^ 255) with (128 * 2 ^ 248). cbn [id].
  destruct (Z.ltb_spec (b2z x) 128), (Z.leb_spec (128 * 2 ^ 248) (b2z x * 2 ^ 248 + from_be_bytes a));
    simpl; try done; nia.
Qed.

(** ** Setting a clear bit adds its weight *)
Lemma uval_split pre b post :
  uval (pre ++ b :: post) = (uval pre * 256 + b2z b) * 256 ^ len post + uval post.
Proof.
  unfold uval. induction pre as [|x pre IH].
  - cbn [app]. rewrite from_be_bytes_cons. change (from_be_bytes []) with 0. lia.
  - rewrite <- app_comm_cons, !from_be_bytes_cons, IH, len_app, len_cons.
    rewrite !Z.pow_add_r by (pose proof (len_nonneg pre); pose proof (len_nonneg post); lia). ring.
Qed.

Lemma lor_clear_bit b r : 0 <= r -> b mod 2 ^ (r + 1) = 0 -> Z.lor b (Z.shiftl 1 r) = b + 2 ^ r.
Proof.
  intros Hr M. rewrite (Z.div_mod b (2 ^ (r + 1))) at 1 by (apply Z.pow_nonzero; lia).
  rewrite M, Z.add_0_r, Z.mul_comm, <- Z.shiftl_mul_pow2, Z.shiftl_1_l by lia.
  rewrite lor_shiftl_add by (rewrite ?Z.pow_add_r; lia).
  rewrite (Z.div_mod b (2 ^ (r + 1))) at 2 by (apply Z.pow_nonzero; lia). lia.
Qed.

Lemma U256_set_bit_spec a bit :
  U256_wf a -> 0 <= bit < 256 -> uval a mod 2 ^ (bit + 1) = 0 ->
  U256_wf (U256_set_bit a bit) /\ uval (U256_set_bit a bit) = uval a + 2 ^ bit.
Proof.
  intros W Hb M. unfold U256_set_bit, U256_wf in *.
  pose proof (Z.div_mod bit 8 ltac:(lia)) as D. pose proof (Z.mod_pos_bound bit 8 ltac:(lia)) as Hr.
  set (k := bit / 8) in *. set (r := bit mod 8) in *. assert (0 <= k <= 31) as Hk by lia.
  set (i := Z.to_nat (31 - k)).
  destruct (lookup_lt_is_Some_2 a i) as (b & Hi); [lia|].
  pose proof (take_drop_middle a i b Hi) as Sp. set (pre := take i a) in *.
  set (post := drop (S i) a) in *.
  assert (length post = Z.to_nat k) as Lpost by (unfold post; rewrite length_drop; lia).
  assert (length pre = i) as Lpre by (unfold pre; rewrite length_take; lia).
  clearbody pre post. subst a. rewrite <- Lpre, alter_middle. pose proof W as L32.
  split; [revert L32; rewrite !length_app; done|].
  rewrite !uval_split. rewrite (len_length post _ Lpost), Z2Nat.id by lia.
  rewrite uval_split, (len_length post _ Lpost), Z2Nat.id in M by lia.
  pose proof (from_be_bytes_range post) as Rp. fold (uval post) in Rp.
  rewrite (len_length post _ Lpost), Z2Nat.id in Rp by lia.
  assert (256 ^ k = 2 ^ (8 * k)) as P by (change 256 with (2 ^ 8); by rewrite <- Z.pow_mul_r by lia).
  assert (2 ^ (bit + 1) = 256 ^ k * 2 ^ (r + 1)) as Q.
  { rewrite P, <- Z.pow_add_r by lia. f_equal. lia. }
  assert (0 < 256 ^ k) by (apply Z.pow_pos_nonneg; lia).
  assert (0 < 2 ^ (r + 1)) by (apply Z.pow_pos_nonneg; lia).
  rewrite Q, Z.rem_mul_r in M by lia.
  rewrite Z.div_add_l, (Z.div_small (uval post)), Z.add_0_r in M by lia.
  rewrite (Z.add_comm _ (uval post)), Z.mod_add, Z.mod_small in M by lia.
  assert ((uval pre * 256 + b2z b) mod 2 ^ (r + 1) = 0) as M2.
  { pose proof (Z.mod_pos_bound (uval pre * 256 + b2z b) (2 ^ (r + 1))). nia. }
  replace 256 with (2 ^ (7 - r) * 2 ^ (r + 1)) in M2 at 1
    by (rewrite <- Z.pow_add_r by lia; by replace (7 - r + (r + 1)) with 8 by lia).
  rewrite Z.mul_assoc, Z.add_comm, Z.mod_add in M2 by lia.
  rewrite lor_clear_bit by lia. rewrite z2b_small.
  2: { pose proof (b2z_range b). split; [lia|].
       assert (2 ^ (r + 1) = 2 * 2 ^ r) by (rewrite Z.pow_add_r; lia).
       assert (256 = 2 ^ (7 - r) * 2 ^ (r + 1)) as E
         by (rewrite <- Z.pow_add_r by lia; by replace (7 - r + (r + 1)) with 8 by lia).
       pose proof (Z.div_mod (b2z b) (2 ^ (r + 1)) ltac:(lia)) as Db.
       assert (0 < 2 ^ (7 - r)) by (apply Z.pow_pos_nonneg; lia).
       assert (b2z b / 2 ^ (r + 1) < 2 ^ (7 - r)) by (apply Z.div_lt_upper_bound; lia). nia. }
  replace (2 ^ bit) with (2 ^ r * 256 ^ k); [lia|].
  rewrite P, <- Z.pow_add_r by lia. f_equal. lia.
Qed.

Lemma U256_or_one_set a : U256_or_one a = U256_set_bit a 0.
Proof. done. Qed.

(** ** The division loop

    [div_inv d n (rem, quo)]: the top bits of two to the 256, down to bit [n],
    have been divided. *)
Definition div_inv (d : Z) (n : nat) (st : list byte * list byte) : Prop :=
  U256_wf (fst st) /\ U256_wf (snd st) /\
  uval (fst st) = (2 ^ 256 / 2 ^ Z.of_nat n) mod d /\
  uval (snd st) = (2 ^ 256 / 2 ^ Z.of_nat n) / d * 2 ^ Z.of_nat n.

Lemma top_bits_step (n : nat) :
  (n <= 256)%nat ->
  2 ^ 256 / 2 ^ Z.of_nat n = 2 * (2 ^ 256 / 2 ^ Z.of_nat (S n)) + (if (n =? 256)%nat then 1 else 0).
Proof.
  intros Hn. destruct (Nat.eqb_spec n 256) as [->|]; [done|].
  replace (2 ^ 256) with (2 ^ (256 - Z.of_nat (S n)) * 2 ^ Z.of_nat (S n)) at 2
    by (rewrite <- Z.pow_add_r by lia; f_equal; lia).
  rewrite Z.div_mul by (apply Z.pow_nonzero; lia).
  replace (2 ^ 256) with (2 ^ (256 - Z.of_nat n) * 2 ^ Z.of_nat n)
    by (rewrite <- Z.pow_add_r by lia; f_equal; lia).
  rewrite Z.div_mul by (apply Z.pow_nonzero; lia).
  replace (256 - Z.of_nat n) with (1 + (256 - Z.of_nat (S n))) by lia.
  rewrite Z.pow_add_r by lia. lia.
Qed.

Lemma div_next d q r b :
  1 < d -> 0 <= r < d -> 0 <= b <= 1 ->
  let t := 2 * r + b in
  (if d <=? t
   then (2 * (d * q + r) + b) / d = 2 * q + 1 /\ (2 * (d * q + r) + b) mod d = t - d
   else (2 * (d * q + r) + b) / d = 2 * q /\ (2 * (d * q + r) + b) mod d = t).
Proof.
  intros Hd Hr Hb t. subst t. destruct (Z.leb_spec d (2 * r + b)).
  - split; [symmetry; apply (Z.div_unique_pos _ _ _ (2 * r + b - d)); lia
           |symmetry; apply (Z.mod_unique_pos _ _ (2 * q + 1)); lia].
  - split; [symmetry; apply (Z.div_unique_pos _ _ _ (2 * r + b)); lia
           |symmetry; apply (Z.mod_unique_pos _ _ (2 * q)); lia].
Qed.

(** The remainder after the shift of iteration [n], before the comparison. *)
Lemma shifted_remainder rem (n : nat) :
  U256_wf rem -> (n <= 256)%nat -> (n = 256%nat -> uval rem = 0) ->
  let r := fst (U256_shift_left_one rem) in
  let r := if Z.of_nat n =? 256 then U256_or_one r else r in
  U256_wf r /\ uval r = (2 * uval rem + (if (n =? 256)%nat then 1 else 0)) mod 2 ^ 256.
Proof.
  intros W Hn H0. destruct (U256_shift_left_one_spec rem W) as (W1 & V1 & _). cbv zeta.
  destruct (Nat.eqb_spec n 256) as [->|].
  - cbn [Z.of_nat Z.eqb]. rewrite (proj2 (Z.eqb_eq _ _)) by lia. rewrite U256_or_one_set.
    rewrite H0 in V1 |- * by done. change (2 * 0 mod 2 ^ 256) with 0 in V1.
    destruct (U256_set_bit_spec _ 0 W1) as (W2 & V2); [lia|by rewrite V1|].
    split; [done|]. by rewrite V2, V1.
  - rewrite (proj2 (Z.eqb_neq _ _)) by lia. by rewrite Z.add_0_r.
Qed.

Lemma div_step_inv div (n : nat) st :
  U256_wf div -> 1 < uval div -> (n <= 256)%nat -> div_inv (uval div) (S n) st ->
  div_inv (uval div) n (div_step div st (Z.of_nat n)).
Proof.
  intros Wd Hd Hn (Wr & Wq & Vr & Vq). destruct st as [rem quo]. cbn [fst snd] in *.
  pose proof (uval_range div Wd) as Rd.
  set (N := 2 ^ 256 / 2 ^ Z.of_nat (S n)) in *. set (d := uval div) in *.
  pose proof (Z.div_mod N d ltac:(lia)) as DN. pose proof (Z.mod_pos_bound N d ltac:(lia)) as RN.
  set (beta := if (n =? 256)%nat then 1 else 0). assert (0 <= beta <= 1) as Hbeta.
  { unfold beta. destruct (n =? 256)%nat; lia. }
  assert (n = 256%nat -> N = 0) as HN0 by (intros ->; done).
  pose proof (shifted_remainder rem n Wr Hn) as SR. cbv zeta in SR. fold beta in SR.
  destruct SR as (W1 & V1); [intros E; by rewrite Vr, HN0|]. rewrite Vr in V1.
  destruct (U256_shift_left_one_spec rem Wr) as (_ & _ & Hh). rewrite Vr in Hh.
  pose proof (div_next d (N / d) (N mod d) beta Hd RN Hbeta) as DX. cbv zeta in DX.
  rewrite <- DN in DX. unfold div_inv. rewrite top_bits_step by done. fold N beta.
  assert (2 ^ Z.of_nat (S n) = 2 * 2 ^ Z.of_nat n) as P2
    by (rewrite Nat2Z.inj_succ, Z.pow_succ_r; lia).
  unfold div_step. destruct (U256_shift_left_one rem) as [r1 high] eqn:ES. cbn [fst snd] in *.
  set (r2 := if Z.of_nat n =? 256 then U256_or_one r1 else r1) in *. rewrite Hh.
  unfold U256_ge. rewrite (uval_le div r2), V1 by done. fold d.
  assert (((2 ^ 255 <=? N mod d) || (d <=? (2 * (N mod d) + beta) mod 2 ^ 256))
          = (d <=? 2 * (N mod d) + beta)) as ->.
  { destruct (Z.leb_spec (2 ^ 255) (N mod d)); cbn [orb].
    - symmetry. apply Z.leb_le. lia.
    - rewrite Z.mod_small by lia. done. }
  destruct (Z.leb_spec d (2 * (N mod d) + beta)); destruct DX as (DX1 & DX2);
    rewrite DX1, DX2; cbn [fst snd].
  - destruct (U256_wrapping_sub_spec r2 div W1 Wd) as (W2 & V2).
    rewrite V1 in V2. fold d in V2. rewrite Zminus_mod_idemp_l, Z.mod_small in V2 by lia.
    destruct (Z.ltb_spec (Z.of_nat n) 256).
    + destruct (U256_set_bit_spec quo (Z.of_nat n) Wq) as (W3 & V3); [lia| |].
      { rewrite Vq. replace (Z.of_nat n + 1) with (Z.of_nat (S n)) by lia.
        apply Z.mod_mul, Z.pow_nonzero; lia. }
      split; [done|]. split; [done|]. split; [done|]. rewrite V3, Vq, P2. lia.
    + exfalso. assert (n = 256%nat) as -> by lia. rewrite HN0 in * by done.
      rewrite Z.mod_0_l in * by lia. lia.
  - split; [done|]. split; [done|]. split; [by rewrite V1, Z.mod_small by lia|].
    rewrite Vq, P2. lia.
Qed.

Lemma div_loop div n st :
  U256_wf div -> 1 < uval div -> (n <= 257)%nat -> div_inv (uval div) n st ->
  div_inv (uval div) 0 (foldl (div_step div) st (Z.of_nat <$> rev (seq 0 n))).
Proof.
  intros Wd Hd. revert st; induction n as [|n IH]; intros st Hn I; [done|].
  rewrite List.seq_S, rev_app_distr. cbn [rev app Nat.add fmap list_fmap foldl].
  apply IH; [lia|]. apply div_step_inv; [done|done|lia|done].
Qed.

Lemma U256_divide_spec div :
  U256_wf div ->
  match U256_divide_two_to_256 div with
  | Some q => 1 < uval div /\ U256_wf q /\ uval q = 2 ^ 256 / uval div
  | None => uval div <= 1
  end.
Proof.
  intros Wd. unfold U256_divide_two_to_256. rewrite uval_le, uval_ONE by done.
  destruct (Z.leb_spec (uval div) 1) as [|Hd]; [done|].
  destruct (div_loop div 257 (U256_ZERO, U256_ZERO) Wd Hd) as (_ & W & _ & V); [lia| |].
  - split; [done|]. split; [done|]. cbn [fst snd].
    change (2 ^ 256 / 2 ^ Z.of_nat 257) with 0.
    by rewrite uval_ZERO, Z.mod_0_l, Z.div_0_l by lia.
  - split; [done|]. split; [done|]. unfold div_bits. rewrite V. by rewrite Z.div_1_r, Z.mul_1_r.
Qed.

Lemma U256_work_for_target_spec t :
  U256_wf t ->
  match U256_work_for_target t with
  | Some w => 0 < uval t /\ U256_wf w /\ uval w = 2 ^ 256 / (uval t + 1)
  | None => uval t = 0
  end.
Proof.
  intros W. unfold U256_work_for_target. pose proof (uval_range t W) as R.
  destruct (decide (t = U256_ZERO)) as [->|Hz]; [done|].
  rewrite bool_decide_eq_false_2 by done.
  assert (uval t <> 0) as Hv.
  { intros E. apply Hz. apply uval_inj; [done|done|]. by rewrite E, uval_ZERO. }
  pose proof (U256_checked_add_spec t U256_ONE W eq_refl) as A. rewrite uval_ONE in A.
  destruct (U256_checked_add t U256_ONE) as [d|].
  - destruct A as (Wd & Vd). pose proof (U256_divide_spec d Wd) as D.
    destruct (U256_divide_two_to_256 d); [|lia]. destruct D as (_ & Wq & Vq).
    split; [lia|]. split; [done|]. by rewrite Vq, Vd.
  - split; [lia|]. split; [done|]. replace (uval t + 1) with (2 ^ 256) by lia.
    by rewrite uval_ONE, Z.div_same by lia.
Qed.

Lemma U256_target_for_work_spec w :
  U256_wf w -> 0 < uval w ->
  exists t, U256_target_for_work w = Some t /\ U256_wf t /\ uval t = 2 ^ 256 / uval w - 1.
Proof.
  intros W Hw. unfold U256_target_for_work. pose proof (uval_range w W) as R.
  rewrite bool_decide_eq_false_2 by (intros ->; rewrite uval_ZERO in Hw; lia).
  destruct (decide (w = U256_ONE)) as [->|Ho].
  { rewrite bool_decide_eq_true_2 by done. eexists. split; [done|]. by split. }
  rewrite bool_decide_eq_false_2 by done.
  assert (uval w <> 1).
  { intros E. apply Ho. apply uval_inj; [done|done|]. by rewrite E, uval_ONE. }
  pose proof (U256_divide_spec w W) as D. destruct (U256_divide_two_to_256 w) as [q|]; [|lia].
  destruct D as (_ & Wq & Vq). pose proof (uval_range q Wq) as Rq.
  assert (1 <= uval q) as Hq by (rewrite Vq; apply Z.div_le_lower_bound; lia).
  unfold U256_checked_sub, U256_ge. rewrite uval_le, uval_ONE by done.
  rewrite (proj2 (Z.leb_le _ _)) by done.
  destruct (U256_wrapping_sub_spec q U256_ONE Wq eq_refl) as (Ws & Vs).
  eexists. split; [done|]. split; [done|]. rewrite Vs, uval_ONE, Z.mod_small by lia. lia.
Qed.
