(* ===== verification/Header.v ===== *)
(** * hns-header-consensus: headers, targets, retargeting, validation

    Models [crates/hns-header-consensus/src/lib.rs] above [U256]: the 236-byte
    header codec, the share and proof-of-work hashes, compact targets, the
    network parameters, the retargeting rule and header validation. *)

From S2P Require Import Prelude Encoding Primitives U256.
Local Open Scope Z_scope.

Definition HEADER_SIZE : Z := 236.
Definition EXTRA_NONCE_SIZE : Z := 24.

Record Header := mkHeader {
  nonce : Z;
  time : Z;
  previous_block : list byte;
  tree_root : list byte;
  extra_nonce : list byte;
  reserved_root : list byte;
  witness_root : list byte;
  merkle_root : list byte;
  version : Z;
  bits : Z;
  mask : list byte;
}.

#[global] Instance Header_eq_dec : EqDecision Header.
Proof. solve_decision. Defined.

Inductive HeaderError :=
| HeaderDecode (e : DecodeError)
| InvalidLength (actual : Z)
| WrongGenesis
| WrongPreviousBlock
| InvalidTime
| InvalidDifficulty
| MissingDifficultyPoint
| InvalidProofOfWork.

(** The widths of the fields. *)
Definition Header_wf (h : Header) : Prop :=
  u32 (nonce h) /\ u64 (time h) /\ len (previous_block h) = 32 /\ len (tree_root h) = 32 /\
  len (extra_nonce h) = 24 /\ len (reserved_root h) = 32 /\ len (witness_root h) = 32 /\
  len (merkle_root h) = 32 /\ u32 (version h) /\ u32 (bits h) /\ len (mask h) = 32.

(** ** Codec *)
Definition Header_encode (h : Header) : list byte :=
  let encoder := with_capacity HEADER_SIZE in
  let encoder := put_u32_le encoder (nonce h) in
  let encoder := put_u64_le encoder (time h) in
  let encoder := put_bytes encoder (previous_block h) in
  let encoder := put_bytes encoder (tree_root h) in
  let encoder := put_bytes encoder (extra_nonce h) in
  let encoder := put_bytes encoder (reserved_root h) in
  let encoder := put_bytes encoder (witness_root h) in
  let encoder := put_bytes encoder (merkle_root h) in
  let encoder := put_u32_le encoder (version h) in
  let encoder := put_u32_le encoder (bits h) in
  let encoder := put_bytes encoder (mask h) in
  into_bytes encoder.

Definition Header_decode_from : decM DecodeError Header :=
  nonce ← read_u32_le;
  time ← read_u64_le;
  previous_block ← read_array 32;
  tree_root ← read_array 32;
  extra_nonce ← read_array EXTRA_NONCE_SIZE;
  reserved_root ← read_array 32;
  witness_root ← read_array 32;
  merkle_root ← read_array 32;
  version ← read_u32_le;
  bits ← read_u32_le;
  mask ← read_array 32;
  mret (mkHeader nonce time previous_block tree_root extra_nonce reserved_root witness_root
          merkle_root version bits mask).

Definition Header_decode (input : list byte) : result HeaderError Header :=
  if negb (len input =? HEADER_SIZE) then Err (InvalidLength (len input))
  else run_all HeaderDecode (lift_err HeaderDecode Header_decode_from) input.

(** ** Hashes *)
Section hashes.
Context `{Crypto}.

Definition blake2b_256 (parts : list (list byte)) : list byte := blake2b 32 (mjoin parts).
Definition blake2b_512 (input : list byte) : list byte := blake2b 64 input.
Definition sha3_256_parts (parts : list (list byte)) : list byte := sha3_256 (mjoin parts).

Definition subheader (h : Header) : list byte :=
  let encoder := with_capacity 128 in
  let encoder := put_bytes encoder (extra_nonce h) in
  let encoder := put_bytes encoder (reserved_root h) in
  let encoder := put_bytes encoder (witness_root h) in
  let encoder := put_bytes encoder (merkle_root h) in
  let encoder := put_u32_le encoder (version h) in
  let encoder := put_u32_le encoder (bits h) in
  into_bytes encoder.

Definition sub_hash (h : Header) : list byte := blake2b_256 [subheader h].
Definition mask_hash (h : Header) : list byte := blake2b_256 [previous_block h; mask h].
Definition commit_hash (h : Header) : list byte := blake2b_256 [sub_hash h; mask_hash h].

(** [output[i] = previous_block[i % 32] ^ tree_root[i % 32]] *)
Definition padding (h : Header) (LENGTH : nat) : list byte :=
  (fun i => byte_xor (default x00 (previous_block h !! (i mod 32)%nat))
                     (default x00 (tree_root h !! (i mod 32)%nat))) <$> seq 0 LENGTH.

Definition preheader (h : Header) : list byte :=
  let encoder := with_capacity 128 in
  let encoder := put_u32_le encoder (nonce h) in
  let encoder := put_u64_le encoder (time h) in
  let encoder := put_bytes encoder (padding h 20) in
  let encoder := put_bytes encoder (previous_block h) in
  let encoder := put_bytes encoder (tree_root h) in
  let encoder := put_bytes encoder (commit_hash h) in
  into_bytes encoder.

Definition share_hash (h : Header) : list byte :=
  let left := blake2b_512 (preheader h) in
  let right := sha3_256_parts [preheader h; padding h 8] in
  blake2b_256 [left; padding h 32; right].

Definition pow_hash (h : Header) : list byte := zip_with byte_xor (share_hash h) (mask h).
Definition block_hash (h : Header) : list byte := pow_hash h.
End hashes.

(** ** Compact targets *)
Record DecodedTarget := mkTarget {
  target_bytes : list byte;
  negative : bool;
  overflow : bool;
}.

(** One byte of the mantissa: stored when its position is inside the array,
    otherwise an overflow unless it is zero. *)
Definition place_byte (exponent : Z) (st : list byte * bool) (ob : Z * Z) : list byte * bool :=
  let '(bytes, overflow) := st in
  let '(offset, byte) := ob in
  let position := 32 - exponent + offset in
  if (position <? 0) || (32 <=? position)
  then (bytes, overflow || negb (byte =? 0))
  else (<[Z.to_nat position := z2b byte]> bytes, overflow).

Definition DecodedTarget_from_compact (bits : Z) : DecodedTarget :=
  if bits =? 0 then mkTarget (zeros 32) false false
  else
    let exponent := Z.shiftr bits 24 in
    let negative := negb (Z.land bits 0x00800000 =? 0) in
    let mantissa := Z.land bits 0x007fffff in
    let '(bytes, overflow) :=
      if exponent <=? 3 then
        let value := Z.shiftr mantissa (8 * (3 - exponent)) in
        (zeros 29 ++ drop 1 (to_be_bytes 4 value), false)
      else
        foldl (place_byte exponent) (zeros 32, false)
          [(0, Z.land (Z.shiftr mantissa 16) 0xff);
           (1, Z.land (Z.shiftr mantissa 8) 0xff);
           (2, Z.land mantissa 0xff)] in
    mkTarget bytes negative overflow.

Definition DecodedTarget_is_valid (t : DecodedTarget) : bool :=
  negb (negative t) && negb (overflow t) && existsb (fun b => negb (b2z b =? 0)) (target_bytes t).

Definition DecodedTarget_is_met_by (t : DecodedTarget) (hash : list byte) : bool :=
  DecodedTarget_is_valid t && bytes_le hash (target_bytes t).

Definition DecodedTarget_proof (t : DecodedTarget) : option Chainwork :=
  if negb (DecodedTarget_is_valid t) then None
  else Chainwork_from_be_bytes <$> U256_work_for_target (target_bytes t).

(** [bytes.iter().position(|byte| *byte != 0)] *)
Fixpoint first_nonzero (bs : list byte) : option nat :=
  match bs with
  | [] => None
  | b :: bs => if b2z b =? 0 then S <$> first_nonzero bs else Some O
  end.

Definition byte_at (bs : list byte) (i : nat) : Z := b2z (default x00 (bs !! i)).

Definition DecodedTarget_to_compact (t : DecodedTarget) : Z :=
  match first_nonzero (target_bytes t) with
  | None => 0
  | Some first =>
    let exponent := 32 - Z.of_nat first in
    let mantissa :=
      if exponent <=? 3 then
        let value := foldl (fun value b => Z.lor (wrap 32 (Z.shiftl value 8)) (b2z b))
                       0 (drop first (target_bytes t)) in
        wrap 32 (Z.shiftl value (8 * (3 - exponent)))
      else
        Z.lor (Z.lor (Z.shiftl (byte_at (target_bytes t) first) 16)
                     (Z.shiftl (byte_at (target_bytes t) (first + 1)) 8))
              (byte_at (target_bytes t) (first + 2)) in
    let '(mantissa, exponent) :=
      if negb (Z.land mantissa 0x00800000 =? 0)
      then (Z.shiftr mantissa 8, exponent + 1)
      else (mantissa, exponent) in
    Z.lor (wrap 32 (Z.shiftl exponent 24)) mantissa
  end.

(** ** Network parameters *)
Inductive Network := Mainnet | Testnet | Regtest | Simnet.

#[global] Instance Network_eq_dec : EqDecision Network.
Proof. solve_decision. Defined.

Definition Network_id (n : Network) : Z :=
  match n with Mainnet => 0 | Testnet => 1 | Regtest => 2 | Simnet => 3 end.

Record PowParameters := mkPow {
  limit : list byte;
  pow_bits : Z;
  target_window : Z;
  target_spacing : Z;
  target_timespan : Z;
  minimum_actual_timespan : Z;
  maximum_actual_timespan : Z;
  target_reset : bool;
  no_retargeting : bool;
}.

Record NetworkParameters := mkParameters {
  network : Network;
  packet_magic : Z;
  port : Z;
  brontide_port : Z;
  pow : PowParameters;
  genesis_hash : list byte;
  genesis_time : Z;
}.

(** [hex_nibble] and [hex32] of the constant literals; a character that is not
    hexadecimal would abort the build. *)
Definition hex_nibble (c : byte) : Z :=
  let value := b2z c in
  if (48 <=? value) && (value <=? 57) then value - 48
  else if (97 <=? value) && (value <=? 102) then value - 97 + 10
  else value - 65 + 10.

Fixpoint hex_pairs (l : list byte) : list byte :=
  match l with
  | a :: b :: l => z2b (Z.lor (Z.shiftl (hex_nibble a) 4) (hex_nibble b)) :: hex_pairs l
  | _ => []
  end.
Definition hex32 (value : string) : list byte := hex_pairs (bstr value).

Definition Network_parameters (n : Network) : NetworkParameters :=
  match n with
  | Mainnet => mkParameters n 0x5b6ef2d3 12038 44806
      (mkPow (hex32 "0000000000ffff00000000000000000000000000000000000000000000000000")
         0x1c00ffff 144 600 86400 21600 345600 false false)
      (hex32 "5b6ef2d3c1f3cdcadfd9a030ba1811efdd17740f14e166489760741d075992e0") 1580745078
  | Testnet => mkParameters n 0xb1520dd2 13038 45806
      (mkPow (hex32 "00000000ffff0000000000000000000000000000000000000000000000000000")
         0x1d00ffff 144 600 86400 21600 345600 true false)
      (hex32 "b1520dd24372f82ec94ebf8cf9d9b037d419c4aa3575d05dec70aedd1b427901") 1580745079
  | Regtest => mkParameters n 0xae3895cf 14038 46806
      (mkPow (hex32 "7fffff0000000000000000000000000000000000000000000000000000000000")
         0x207fffff 144 600 86400 21600 345600 true true)
      (hex32 "ae3895cf597eff05b19e02a70ceeeecb9dc72dbfe6504a50e9343a72f06a87c5") 1580745080
  | Simnet => mkParameters n 0x0e648edc 15038 47806
      (mkPow (hex32 "7fffff0000000000000000000000000000000000000000000000000000000000")
         0x207fffff 144 600 86400 21600 345600 false false)
      (hex32 "0e648edc9cddb179014658061ea3f666a45cf44881877ae506e6babefbef6992") 1580745081
  end.

Definition genesis_header (p : NetworkParameters) : Header :=
  mkHeader 0 (genesis_time p) (zeros 32) (zeros 32) (zeros 24) (zeros 32)
    (hex32 "1a2c60b9439206938f8d7823782abdb8b211a57431e9c9b6a6365d8d42893351")
    (hex32 "8e4c9756fef2ad10375f360e0560fcc7587eb5223ddf8cd7c7e06e60a1140b15")
    0 (pow_bits (pow p)) (zeros 32).

(** ** Difficulty *)
Record DifficultyPoint := mkPoint {
  dp_height : Z;
  dp_time : Z;
  dp_bits : Z;
  dp_chainwork : Chainwork;
}.

(** [u64::clamp]; it panics when the bounds cross, which [PowParameters_wf]
    excludes. *)
Definition clamp (v lo hi : Z) : Z := Z.max lo (Z.min v hi).

Definition retarget_bits (parameters : PowParameters) (first last : DifficultyPoint)
  : result HeaderError Z :=
  if dp_height last <=? dp_height first then Err InvalidDifficulty
  else
    work_delta ← map_err (fun _ => InvalidDifficulty)
      (Chainwork_checked_sub (dp_chainwork last) (dp_chainwork first));
    scaled_work ← map_err (fun _ => InvalidDifficulty)
      (Chainwork_checked_mul_u64 work_delta (target_spacing parameters));
    let actual_timespan :=
      clamp (saturating_sub (dp_time last) (dp_time first))
        (minimum_actual_timespan parameters) (maximum_actual_timespan parameters) in
    work ← map_err (fun _ => InvalidDifficulty)
      (Chainwork_checked_div_u64 scaled_work actual_timespan);
    if bool_decide (work = Chainwork_ZERO) then Ok (pow_bits parameters)
    else
      target ← ok_or (U256_target_for_work (Chainwork_to_be_bytes work)) InvalidDifficulty;
      if negb (bytes_le target (limit parameters)) then Ok (pow_bits parameters)
      else Ok (DecodedTarget_to_compact (mkTarget target false false)).

Definition expected_next_bits (parameters : PowParameters) (next_time : Z)
    (previous : DifficultyPoint) (first_suitable last_suitable : option DifficultyPoint)
  : result HeaderError Z :=
  if no_retargeting parameters then Ok (pow_bits parameters)
  else if target_reset parameters &&
          (saturating_add u64_max (dp_time previous) (target_spacing parameters * 2) <? next_time)
  then Ok (pow_bits parameters)
  else if dp_height previous <? saturating_add u32_max (target_window parameters) 2 then
    if negb (dp_bits previous =? pow_bits parameters) then Err InvalidDifficulty
    else Ok (pow_bits parameters)
  else
    first ← ok_or first_suitable MissingDifficultyPoint;
    last ← ok_or last_suitable MissingDifficultyPoint;
    retarget_bits parameters first last.

(** ** Validation *)
Record HeaderValidationContext := mkContext {
  ctx_height : Z;
  ctx_previous_block : list byte;
  ctx_median_time : Z;
  ctx_now : Z;
  ctx_expected_bits : Z;
}.

Section validation.
Context `{Crypto}.

Definition verify_pow (h : Header) : bool :=
  DecodedTarget_is_met_by (DecodedTarget_from_compact (bits h)) (pow_hash h).

Definition validate_header (parameters : NetworkParameters) (header : Header)
    (context : HeaderValidationContext) : result HeaderError Chainwork :=
  let is_genesis := ctx_height context =? 0 in
  (if is_genesis then
     if negb (bool_decide (header = genesis_header parameters)) ||
        negb (bool_decide (block_hash header = genesis_hash parameters))
     then Err WrongGenesis else Ok tt
   else if negb (bool_decide (previous_block header = ctx_previous_block context))
   then Err WrongPreviousBlock else Ok tt) ;;
  (if (time header <=? ctx_median_time context) ||
      (saturating_add u64_max (ctx_now context) 7200 <? time header)
   then Err InvalidTime else Ok tt) ;;
  (if negb (bits header =? ctx_expected_bits context)
   then Err InvalidDifficulty else Ok tt) ;;
  let target := DecodedTarget_from_compact (bits header) in
  (if negb is_genesis && negb (DecodedTarget_is_met_by target (pow_hash header))
   then Err InvalidProofOfWork else Ok tt) ;;
  ok_or (DecodedTarget_proof target) InvalidProofOfWork.
End validation.

(** ** The header codec *)
Lemma Header_encode_eq h :
  Header_encode h =
    to_le_bytes 4 (nonce h) ++ to_le_bytes 8 (time h) ++ previous_block h ++ tree_root h ++
    extra_nonce h ++ reserved_root h ++ witness_root h ++ merkle_root h ++
    to_le_bytes 4 (version h) ++ to_le_bytes 4 (bits h) ++ mask h.
Proof.
  unfold Header_encode, into_bytes. autorewrite with enc. by rewrite <- !app_assoc.
Qed.

Lemma Header_encode_len h : Header_wf h -> len (Header_encode h) = HEADER_SIZE.
Proof.
  intros W. destruct W as (_ & _ & ? & ? & ? & ? & ? & ? & _ & _ & ?).
  rewrite Header_encode_eq. slen. unfold HEADER_SIZE. lia.
Qed.

Lemma Header_decode_from_reads d h :
  Header_wf h -> reads d Header_decode_from (Header_encode h) h.
Proof.
  intros (? & ? & ? & ? & ? & ? & ? & ? & ? & ? & ?). rewrite Header_encode_eq.
  rewrite <- (app_nil_r (mask h)). unfold Header_decode_from.
  do 11 reads_step. destruct h. apply reads_ret.
Qed.

Lemma Header_decode_from_inv d h d' :
  dec_wf d -> Header_decode_from d = (Ok h, d') -> took d (Header_encode h) d' /\ Header_wf h.
Proof.
  intros W H. unfold Header_decode_from in H.
  do 11 (apply dec_bind_Ok in H as (? & ? & ? & H)). apply dec_ret_Ok in H as (<- & ->).
  repeat match goal with
  | E : read_u32_le ?a = _, W : dec_wf ?a |- _ =>
    apply read_u32_inv in E as (E & ?); [pose proof (took_wf _ _ _ E)|done]
  | E : read_u64_le ?a = _, W : dec_wf ?a |- _ =>
    apply read_u64_inv in E as (E & ?); [pose proof (took_wf _ _ _ E)|done]
  | E : read_array _ ?a = _, W : dec_wf ?a |- _ =>
    apply read_array_inv in E as (E & ?); [pose proof (took_wf _ _ _ E)|by vm_compute|done]
  end.
  split; [|unfold Header_wf; simpl; tauto].
  rewrite Header_encode_eq. cbn [nonce time previous_block tree_root extra_nonce reserved_root
    witness_root merkle_root version bits mask]. took_chain.
Qed.

(** ** Compact targets as numbers *)

(** The number a compact representation denotes, without a size limit. *)
Definition compact_value (bits : Z) : Z :=
  let exponent := Z.shiftr bits 24 in
  let mantissa := Z.land bits 0x007fffff in
  if exponent <=? 3 then Z.shiftr mantissa (8 * (3 - exponent))
  else mantissa * 256 ^ (exponent - 3).

Lemma uval_zeros_app k l : uval (zeros k ++ l) = uval l.
Proof.
  unfold uval. induction k as [|k IH]; [done|]. unfold zeros in *. cbn [replicate app].
  rewrite from_be_bytes_cons, IH. change (b2z x00) with 0. lia.
Qed.

Lemma uval_insert a (i : nat) c b :
  a !! i = Some c ->
  uval (<[i:=b]> a) = uval a + (b2z b - b2z c) * 256 ^ (len a - 1 - Z.of_nat i).
Proof.
  intros H. rewrite <- (take_drop_middle a i c H) at 2 3.
  assert (<[i:=b]> a = take i a ++ b :: drop (S i) a) as ->.
  { rewrite <- (take_drop_middle a i c H) at 1.
    assert (length (take i a) = i) as L.
    { rewrite length_take. apply lookup_lt_Some in H. lia. }
    rewrite <- L at 1. rewrite insert_app_r_alt by lia. by rewrite Nat.sub_diag. }
  rewrite !uval_split. apply lookup_lt_Some in H.
  replace (len (take i a ++ c :: drop (S i) a) - 1 - Z.of_nat i) with (len (drop (S i) a)).
  - ring.
  - rewrite len_app, len_cons. unfold len. rewrite length_take, length_drop. lia.
Qed.

Lemma land_ff x : Z.land x 0xff = x mod 256.
Proof. change 0xff with (Z.ones 8). by rewrite Z.land_ones. Qed.

Lemma mantissa_range bits : 0 <= Z.land bits 0x007fffff < 2 ^ 23.
Proof. change 0x007fffff with (Z.ones 23). rewrite Z.land_ones by lia. apply Z.mod_pos_bound. lia. Qed.

Lemma exponent_range bits : u32 bits -> 0 <= Z.shiftr bits 24 <= 255.
Proof.
  intros Hb. rewrite Z.shiftr_div_pow2 by lia. unfold u32, u32_max in Hb.
  split; [apply Z.div_pos; lia|]. apply Z.lt_succ_r, Z.div_lt_upper_bound; lia.
Qed.

(** The three mantissa bytes. *)
Lemma mantissa_bytes m :
  0 <= m < 2 ^ 23 ->
  m = Z.land (Z.shiftr m 16) 0xff * 65536 + Z.land (Z.shiftr m 8) 0xff * 256 + Z.land m 0xff.
Proof.
  intros Hm. rewrite !land_ff, !Z.shiftr_div_pow2 by lia.
  change (2 ^ 16) with 65536. change (2 ^ 8) with 256.
  Z.to_euclidean_division_equations. lia.
Qed.

Lemma place_small_value v :
  0 <= v < 2 ^ 24 -> uval (zeros 29 ++ drop 1 (to_be_bytes 4 v)) = v.
Proof.
  intros Hv. rewrite uval_zeros_app. unfold to_be_bytes. cbv [to_le_bytes]. cbn [rev app drop].
  unfold uval. rewrite !from_be_bytes_cons. change (from_be_bytes []) with 0.
  rewrite !b2z_z2b. unfold len. cbn [length Z.of_nat Pos.of_succ_nat Pos.succ].
  change (256 ^ 2) with 65536. change (256 ^ 1) with 256. change (256 ^ 0) with 1.
  Z.to_euclidean_division_equations. lia.
Qed.

(** Writing one byte over a zero adds its weight. *)
Lemma uval_insert_zero a (i : nat) b :
  length a = 32%nat -> a !! i = Some x00 -> 0 <= b < 256 ->
  uval (<[i:=z2b b]> a) = uval a + b * 256 ^ (31 - Z.of_nat i).
Proof.
  intros L H Hb. rewrite (uval_insert a i x00 _ H), z2b_small by done.
  rewrite (len_length a 32 L). change (b2z x00) with 0. by rewrite Z.sub_0_r.
Qed.

Lemma place_in e bs o off b :
  0 <= 32 - e + off < 32 ->
  place_byte e (bs, o) (off, b) = (<[Z.to_nat (32 - e + off) := z2b b]> bs, o).
Proof.
  intros. unfold place_byte. rewrite (proj2 (Z.ltb_ge _ 0)), (proj2 (Z.leb_gt 32 _)) by lia. done.
Qed.

Lemma place_out e bs o off b :
  32 - e + off < 0 -> place_byte e (bs, o) (off, b) = (bs, o || negb (b =? 0)).
Proof. intros. unfold place_byte. by rewrite (proj2 (Z.ltb_lt _ 0)) by lia. Qed.

(** The placed bytes when the whole mantissa fits. *)
Lemma place_bytes_inside e m2 m1 m0 :
  4 <= e <= 32 -> 0 <= m2 < 256 -> 0 <= m1 < 256 -> 0 <= m0 < 256 ->
  exists out, foldl (place_byte e) (zeros 32, false) [(0, m2); (1, m1); (2, m0)] = (out, false) /\
    length out = 32%nat /\ uval out = (m2 * 65536 + m1 * 256 + m0) * 256 ^ (e - 3).
Proof.
  intros He H2 H1 H0. cbn [foldl]. rewrite !place_in by lia. eexists. split; [reflexivity|]. rewrite !length_insert. split; [done|].
  set (i := Z.to_nat (32 - e + 0)).
  replace (Z.to_nat (32 - e + 1)) with (S i) by lia.
  replace (Z.to_nat (32 - e + 2)) with (S (S i)) by lia.
  assert (forall j, (j < 32)%nat -> zeros 32 !! j = Some x00) as Z0
    by (intros; by apply lookup_replicate_2).
  rewrite uval_insert_zero; [|by rewrite !length_insert| |done].
  2: { rewrite !list_lookup_insert_ne by lia. apply Z0. lia. }
  rewrite uval_insert_zero; [|by rewrite !length_insert| |done].
  2: { rewrite !list_lookup_insert_ne by lia. apply Z0. lia. }
  rewrite uval_insert_zero; [|done|apply Z0; lia|done].
  change (uval (zeros 32)) with 0.
  replace (31 - Z.of_nat (S (S i))) with (e - 3) by lia.
  replace (31 - Z.of_nat (S i)) with (1 + (e - 3)) by lia.
  replace (31 - Z.of_nat i) with (2 + (e - 3)) by lia.
  rewrite !Z.pow_add_r by lia. change (256 ^ 2) with 65536. change (256 ^ 1) with 256. ring.
Qed.

(** The placed bytes when some mantissa bytes fall off the top. *)
Lemma place_bytes_outside e m2 m1 m0 :
  33 <= e <= 255 -> 0 <= m2 < 256 -> 0 <= m1 < 256 -> 0 <= m0 < 256 ->
  let m := m2 * 65536 + m1 * 256 + m0 in
  exists out o, foldl (place_byte e) (zeros 32, false) [(0, m2); (1, m1); (2, m0)] = (out, o) /\
    length out = 32%nat /\ o = (2 ^ 256 <=? m * 256 ^ (e - 3)) /\
    (o = false -> uval out = m * 256 ^ (e - 3)).
Proof.
  intros He H2 H1 H0 m. subst m. cbn [foldl]. rewrite place_out by lia. cbn [orb].
  assert (zeros 32 !! 0%nat = Some x00 /\ zeros 32 !! 1%nat = Some x00) as (Z0 & Z1) by done.
  change (2 ^ 256) with (256 ^ 32).
  destruct (Z.eq_dec e 33) as [->|]; [|destruct (Z.eq_dec e 34) as [->|]].
  - rewrite !place_in by lia. change (Z.to_nat (32 - 33 + 1)) with 0%nat.
    change (Z.to_nat (32 - 33 + 2)) with 1%nat.
    eexists _, _. split; [reflexivity|]. rewrite !length_insert. split; [done|].
    change (256 ^ (33 - 3)) with (256 ^ 30). split.
    + destruct (Z.eqb_spec m2 0), (Z.leb_spec (256 ^ 32) ((m2 * 65536 + m1 * 256 + m0) * 256 ^ 30));
        simpl; lia.
    + intros E. destruct (Z.eqb_spec m2 0); [|done]. subst.
      rewrite uval_insert_zero; [|by rewrite length_insert|done|done].
      rewrite uval_insert_zero; [|done|done|done]. change (uval (zeros 32)) with 0. simpl Z.of_nat. lia.
  - rewrite place_out, place_in by lia. change (Z.to_nat (32 - 34 + 2)) with 0%nat.
    eexists _, _. split; [reflexivity|]. rewrite !length_insert. split; [done|].
    change (256 ^ (34 - 3)) with (256 ^ 31). split.
    + destruct (Z.eqb_spec m2 0), (Z.eqb_spec m1 0),
        (Z.leb_spec (256 ^ 32) ((m2 * 65536 + m1 * 256 + m0) * 256 ^ 31)); simpl; lia.
    + intros E. destruct (Z.eqb_spec m2 0), (Z.eqb_spec m1 0); try done. subst.
      rewrite uval_insert_zero; [|done|done|done]. change (uval (zeros 32)) with 0. simpl Z.of_nat. lia.
  - rewrite !place_out by lia. eexists _, _. split; [reflexivity|]. split; [done|].
    replace (e - 3) with (32 + (e - 35)) by lia. rewrite Z.pow_add_r by lia.
    assert (0 < 256 ^ (e - 35)) by (apply Z.pow_pos_nonneg; lia).
    set (Q := 256 ^ (e - 35)) in *. split.
    + destruct (Z.eqb_spec m2 0), (Z.eqb_spec m1 0), (Z.eqb_spec m0 0); simpl;
        symmetry; [apply Z.leb_gt|apply Z.leb_le..]; nia.
    + intros E. destruct (Z.eqb_spec m2 0), (Z.eqb_spec m1 0), (Z.eqb_spec m0 0); try done. subst.
      done.
Qed.

Lemma sign_bit x : negb (Z.land x 0x00800000 =? 0) = Z.testbit x 23.
Proof.
  change 0x00800000 with (2 ^ 23). destruct (Z.testbit x 23) eqn:T.
  - destruct (Z.eqb_spec (Z.land x (2 ^ 23)) 0) as [Z0|]; [|done].
    assert (Z.testbit (Z.land x (2 ^ 23)) 23 = false) as C by (rewrite Z0; apply Z.bits_0).
    rewrite Z.land_spec, T in C. done.
  - rewrite (proj2 (Z.eqb_eq _ _)); [done|]. apply Z.bits_inj'. intros k Hk.
    rewrite Z.land_spec, Z.pow2_bits_eqb, Z.bits_0 by lia.
    destruct (Z.eqb_spec 23 k) as [<-|]; [by rewrite T|apply andb_false_r].
Qed.

Lemma from_compact_spec bits :
  u32 bits ->
  let t := DecodedTarget_from_compact bits in
  length (target_bytes t) = 32%nat /\
  overflow t = (2 ^ 256 <=? compact_value bits) /\
  (overflow t = false -> uval (target_bytes t) = compact_value bits) /\
  negative t = Z.testbit bits 23.
Proof.
  intros Hb t. subst t. unfold DecodedTarget_from_compact.
  destruct (Z.eqb_spec bits 0) as [->|]; [done|].
  pose proof (mantissa_range bits) as Hm. pose proof (exponent_range bits Hb) as He.
  unfold compact_value. set (m := Z.land bits 0x007fffff) in *. set (e := Z.shiftr bits 24) in *.
  pose proof (sign_bit bits) as N.
  destruct (Z.leb_spec e 3).
  - cbn [target_bytes overflow negative]. rewrite length_app, length_drop, length_to_be_bytes.
    assert (0 <= Z.shiftr m (8 * (3 - e)) < 2 ^ 24) as Hv.
    { rewrite Z.shiftr_div_pow2 by lia.
      assert (0 < 2 ^ (8 * (3 - e))) by (apply Z.pow_pos_nonneg; lia).
      split; [apply Z.div_pos; lia|]. apply Z.div_lt_upper_bound; nia. }
    split; [done|]. rewrite place_small_value by done. split; [|done].
    symmetry. apply Z.leb_gt. lia.
  - pose proof (mantissa_bytes m Hm) as M. rewrite !land_ff in *.
    pose proof (Z.mod_pos_bound (Z.shiftr m 16) 256 ltac:(lia)).
    pose proof (Z.mod_pos_bound (Z.shiftr m 8) 256 ltac:(lia)).
    pose proof (Z.mod_pos_bound m 256 ltac:(lia)).
    destruct (Z.le_gt_cases e 32).
    + destruct (place_bytes_inside e (Z.shiftr m 16 mod 256) (Z.shiftr m 8 mod 256) (m mod 256))
        as (out & -> & L & V); [lia..|]. rewrite <- M in V. cbn [target_bytes overflow negative].
      split; [done|]. rewrite <- V. split; [|done]. symmetry. apply Z.leb_gt.
      by apply uval_range.
    + destruct (place_bytes_outside e (Z.shiftr m 16 mod 256) (Z.shiftr m 8 mod 256) (m mod 256))
        as (out & o & -> & L & O & V); [lia..|]. rewrite <- M in O, V. cbn [target_bytes overflow negative]. auto.
Qed.

(** ** Validity and work *)
Lemma existsb_nonzero bs :
  existsb (fun b => negb (b2z b =? 0)) bs = negb (uval bs =? 0).
Proof.
  unfold uval. induction bs as [|b bs IH]; [done|]. cbn [existsb].
  rewrite IH, from_be_bytes_cons. pose proof (b2z_range b). pose proof (from_be_bytes_range bs).
  assert (0 < 256 ^ len bs) by lia.
  destruct (Z.eqb_spec (b2z b) 0), (Z.eqb_spec (from_be_bytes bs) 0),
    (Z.eqb_spec (b2z b * 256 ^ len bs + from_be_bytes bs) 0); simpl; try done; nia.
Qed.

(** A compact target is usable when it is non-negative, non-zero and fits. *)
Definition target_ok (bits : Z) : Prop :=
  Z.testbit bits 23 = false /\ 0 < compact_value bits < 2 ^ 256.

Lemma compact_value_nonneg bits : 0 <= compact_value bits.
Proof.
  unfold compact_value. pose proof (mantissa_range bits). zcase.
  - apply Z.shiftr_nonneg. lia.
  - apply Z.mul_nonneg_nonneg; [lia|]. apply Z.pow_nonneg. lia.
Qed.

Lemma is_valid_spec bits :
  u32 bits -> DecodedTarget_is_valid (DecodedTarget_from_compact bits) = true <-> target_ok bits.
Proof.
  intros Hb. destruct (from_compact_spec bits Hb) as (L & O & V & N).
  unfold DecodedTarget_is_valid, target_ok. rewrite existsb_nonzero, N, O.
  pose proof (compact_value_nonneg bits).
  destruct (Z.testbit bits 23); cbn [negb andb]; [naive_solver|].
  destruct (Z.leb_spec (2 ^ 256) (compact_value bits)) as [|Hlt]; cbn [negb andb].
  - split; [done|lia].
  - rewrite V by done.
    destruct (Z.eqb_spec (compact_value bits) 0); simpl; split; try done; lia.
Qed.

Lemma Chainwork_from_be_bytes_val bs :
  length bs = 32%nat -> Chainwork_from_be_bytes bs = work_of (uval bs).
Proof.
  intros L. pose proof (Chainwork_from_be_bytes_wf bs L) as (Lc & Wc).
  destruct (Chainwork_to_be_bytes_val _ Wc) as (V & _).
  rewrite Chainwork_to_from_be_bytes in V by done. by apply work_of_eq.
Qed.

(** The work of a target is the number of hashes expected to meet it. *)
Lemma proof_spec bits :
  u32 bits -> target_ok bits ->
  DecodedTarget_proof (DecodedTarget_from_compact bits) =
    Some (work_of (2 ^ 256 / (compact_value bits + 1))).
Proof.
  intros Hb Hok. destruct (from_compact_spec bits Hb) as (L & O & V & N).
  unfold DecodedTarget_proof. rewrite (proj2 (is_valid_spec bits Hb) Hok). cbn [negb].
  destruct Hok as (_ & Hv). rewrite O in V. rewrite (proj2 (Z.leb_gt _ _)) in V by lia.
  specialize (V eq_refl).
  pose proof (U256_work_for_target_spec _ L) as W.
  destruct (U256_work_for_target _) as [w|]; [|lia]. destruct W as (_ & Ww & Vw).
  simpl. by rewrite Chainwork_from_be_bytes_val, Vw, V.
Qed.

Lemma proof_invalid t : DecodedTarget_is_valid t = false -> DecodedTarget_proof t = None.
Proof. unfold DecodedTarget_proof. by intros ->. Qed.

(** ** Re-encoding a target *)
Lemma first_nonzero_Some bs f :
  first_nonzero bs = Some f ->
  exists b post, bs = zeros f ++ b :: post /\ 0 < b2z b.
Proof.
  revert f; induction bs as [|b bs IH]; intros f H; simpl in H; [done|].
  destruct (Z.eqb_spec (b2z b) 0) as [E|E].
  - destruct (first_nonzero bs) as [f'|] eqn:F; [|done]. simplify_eq/=.
    destruct (IH f' eq_refl) as (c & post & -> & Hc). exists c, post. split; [|done].
    unfold zeros. cbn. f_equal. by apply b2z_inj.
  - simplify_eq. exists b, bs. split; [done|]. pose proof (b2z_range b). lia.
Qed.

Lemma first_nonzero_None bs : first_nonzero bs = None -> uval bs = 0.
Proof.
  induction bs as [|b bs IH]; simpl; [done|].
  destruct (Z.eqb_spec (b2z b) 0) as [E|E]; [|done].
  destruct (first_nonzero bs); [done|]. intros _. unfold uval in *.
  rewrite from_be_bytes_cons, E, IH; done.
Qed.

(** The mantissa loop over at most three bytes reads a big-endian number. *)
Lemma mantissa_loop bs v :
  0 <= v -> v * 256 ^ len bs + uval bs < 2 ^ 32 ->
  foldl (fun value b => Z.lor (wrap 32 (Z.shiftl value 8)) (b2z b)) v bs =
    v * 256 ^ len bs + uval bs.
Proof.
  unfold uval. revert v; induction bs as [|b bs IH]; intros v Hv Hb.
  - cbn [foldl]. change (from_be_bytes []) with 0. rewrite len_nil. lia.
  - cbn [foldl]. rewrite from_be_bytes_cons, len_cons, Z.pow_add_r in * by (pose proof (len_nonneg bs); lia).
    pose proof (from_be_bytes_range bs). pose proof (b2z_range b).
    assert (0 < 256 ^ len bs) by lia. change (256 ^ 1) with 256 in *.
    unfold wrap. rewrite (Z.mod_small (Z.shiftl v 8)) by (rewrite Z.shiftl_mul_pow2 by lia; nia).
    rewrite lor_shiftl_add by lia. change (2 ^ 8) with 256.
    rewrite IH by nia. ring.
Qed.

(** Exponent and mantissa before the sign bit is cleared. *)
Lemma raw_mantissa bs f b post :
  length bs = 32%nat -> bs = zeros f ++ b :: post -> 0 < b2z b ->
  let e := 32 - Z.of_nat f in
  let m := if e <=? 3
           then wrap 32 (Z.shiftl (foldl (fun value b => Z.lor (wrap 32 (Z.shiftl value 8)) (b2z b))
                                     0 (drop f bs)) (8 * (3 - e)))
           else Z.lor (Z.lor (Z.shiftl (byte_at bs f) 16) (Z.shiftl (byte_at bs (f + 1)) 8))
                  (byte_at bs (f + 2)) in
  1 <= e <= 32 /\ 2 ^ 16 <= m < 2 ^ 24 /\
  (if e <=? 3 then m = uval bs * 256 ^ (3 - e) else m = uval bs / 256 ^ (e - 3)).
Proof.
  intros L E Hb e m. assert (length post = (31 - f)%nat /\ (f <= 31)%nat) as (Lp & Hf).
  { rewrite E, length_app in L. unfold zeros in L. rewrite length_replicate in L. simpl in L. lia. }
  assert (uval bs = b2z b * 256 ^ (e - 1) + uval post) as V.
  { rewrite E, uval_zeros_app. unfold uval. rewrite from_be_bytes_cons. do 2 f_equal.
    unfold len. f_equal. lia. }
  pose proof (from_be_bytes_range post) as Rp. fold (uval post) in Rp.
  replace (len post) with (e - 1) in Rp by (unfold len; lia).
  pose proof (b2z_range b) as Rb. assert (1 <= e <= 32) as He by lia. split; [done|].
  assert (drop f bs = b :: post) as Dr.
  { rewrite E. replace f with (length (zeros f)) at 1 by apply length_replicate.
    by rewrite drop_app_length. }
  subst m. destruct (Z.leb_spec e 3).
  - rewrite Dr, mantissa_loop; [|lia|].
    2: { rewrite len_cons. change (0 * _) with 0. rewrite <- (uval_zeros_app f), <- E.
         assert (uval bs < 256 ^ 3); [|lia]. rewrite V.
         assert (256 ^ 3 = 256 * 256 ^ (3 - e) * 256 ^ (e - 1)).
         { change 256 with (256 ^ 1) at 2. rewrite <- !Z.pow_add_r by lia. f_equal. lia. }
         assert (0 < 256 ^ (3 - e)) by (apply Z.pow_pos_nonneg; lia). nia. }
    change (0 * _ + ?x) with x. rewrite <- (uval_zeros_app f), <- E.
    assert (uval bs * 256 ^ (3 - e) < 2 ^ 24 /\ 2 ^ 16 <= uval bs * 256 ^ (3 - e)) as (U1 & U2).
    { rewrite V. assert (256 ^ (e - 1) * 256 ^ (3 - e) = 65536) as P.
      { rewrite <- Z.pow_add_r by lia. by replace (e - 1 + (3 - e)) with 2 by lia. }
      assert (0 < 256 ^ (3 - e)) by (apply Z.pow_pos_nonneg; lia). nia. }
    rewrite Z.shiftl_mul_pow2, Z.pow_mul_r by lia. change (2 ^ 8) with 256.
    unfold wrap. rewrite Z.mod_small by lia. lia.
  - destruct post as [|c1 [|c2 post]]; [simpl in Lp; lia..|].
    unfold byte_at. rewrite E.
    assert (length (zeros f) = f) as Lz by apply length_replicate.
    rewrite !lookup_app_r by lia. rewrite Lz, Nat.sub_diag.
    replace (f + 1 - f)%nat with 1%nat by lia. replace (f + 2 - f)%nat with 2%nat by lia.
    cbn [lookup list_lookup default from_option id]. rewrite <- E.
    pose proof (b2z_range c1). pose proof (b2z_range c2).
    assert (Z.lor (Z.lor (Z.shiftl (b2z b) 16) (Z.shiftl (b2z c1) 8)) (b2z c2)
            = b2z b * 65536 + b2z c1 * 256 + b2z c2) as ->.
    { rewrite (lor_shiftl_add (b2z b)) by (rewrite ?Z.shiftl_mul_pow2 by lia; lia).
      replace (b2z b * 2 ^ 16 + Z.shiftl (b2z c1) 8) with (Z.shiftl (b2z b * 256 + b2z c1) 8)
        by (rewrite !Z.shiftl_mul_pow2 by lia; lia).
      rewrite lor_shiftl_add by lia. lia. }
    split; [lia|]. rewrite E, uval_zeros_app. unfold uval. rewrite !from_be_bytes_cons, !len_cons.
    replace (len post) with (e - 3) by (unfold len; simpl in Lp; lia).
    pose proof (from_be_bytes_range post) as Rq.
    replace (len post) with (e - 3) in Rq by (unfold len; simpl in Lp; lia).
    rewrite !Z.pow_add_r by lia. change (256 ^ 1) with 256.
    replace (b2z b * (256 * (256 * 256 ^ (e - 3))) + (b2z c1 * (256 * 256 ^ (e - 3)) +
              (b2z c2 * 256 ^ (e - 3) + from_be_bytes post)))
      with ((b2z b * 65536 + b2z c1 * 256 + b2z c2) * 256 ^ (e - 3) + from_be_bytes post) by ring.
    rewrite Z.div_add_l, Z.div_small by lia. lia.
Qed.

(** Reassembling the compact form. *)
Lemma compact_assemble e m :
  1 <= e <= 33 -> 0 <= m < 2 ^ 23 ->
  let c := Z.lor (wrap 32 (Z.shiftl e 24)) m in
  u32 c /\ Z.testbit c 23 = false /\ Z.shiftr c 24 = e /\ Z.land c 0x007fffff = m.
Proof.
  intros He Hm c. assert (c = e * 2 ^ 24 + m) as ->.
  { unfold c, wrap. rewrite Z.mod_small by (rewrite Z.shiftl_mul_pow2 by lia; lia).
    rewrite lor_shiftl_add by lia. done. }
  split; [unfold u32, u32_max; lia|].
  change 0x007fffff with (Z.ones 23). rewrite Z.land_ones, Z.shiftr_div_pow2 by lia.
  split; [|split].
  - apply Z.testbit_false; [lia|].
    replace (e * 2 ^ 24 + m) with (m + (2 * e) * 2 ^ 23) by lia.
    rewrite Z.div_add, Z.div_small, Z.add_0_l, Z.mul_comm by lia. apply Z.mod_mul. lia.
  - rewrite Z.div_add_l, Z.div_small by lia. lia.
  - replace (e * 2 ^ 24 + m) with (m + (2 * e) * 2 ^ 23) by lia.
    rewrite Z.mod_add, Z.mod_small by lia. done.
Qed.

Lemma testbit_23 m : 0 <= m < 2 ^ 24 -> Z.testbit m 23 = (2 ^ 23 <=? m).
Proof.
  intros Hm. destruct (Z.leb_spec (2 ^ 23) m).
  - apply Z.testbit_true; [lia|]. replace (m / 2 ^ 23) with 1; [done|].
    apply (Z.div_unique_pos _ _ _ (m - 2 ^ 23)); lia.
  - apply Z.testbit_false; [lia|]. by rewrite Z.div_small by lia.
Qed.

(** Keeping the digits above [Q] loses less than one part in [2^15] when at
    least [2^15] units of [Q] remain. *)
Lemma relative_loss V Q :
  0 < Q -> 2 ^ 15 <= V / Q ->
  V / Q * Q <= V /\ 2 ^ 15 * (V - V / Q * Q) < V / Q * Q.
Proof.
  intros HQ H. pose proof (Z.div_mod V Q ltac:(lia)). pose proof (Z.mod_pos_bound V Q HQ). nia.
Qed.

Lemma to_compact_spec t :
  length (target_bytes t) = 32%nat -> 0 < uval (target_bytes t) ->
  let V := uval (target_bytes t) in
  let c := DecodedTarget_to_compact t in
  u32 c /\ Z.testbit c 23 = false /\
  compact_value c <= V /\ 2 ^ 15 * (V - compact_value c) < compact_value c.
Proof.
  intros L HV V c. subst c. unfold DecodedTarget_to_compact.
  destruct (first_nonzero (target_bytes t)) as [f|] eqn:F; [|apply first_nonzero_None in F; lia].
  apply first_nonzero_Some in F as (b & post & E & Hb).
  pose proof (raw_mantissa _ f b post L E Hb) as R. cbv zeta in R. cbv zeta.
  set (e := 32 - Z.of_nat f) in *. fold V in R.
  match type of R with _ /\ _ <= ?m < _ /\ _ => set (m0 := m) in *; clearbody m0 end.
  destruct R as (He & Hm & Vm). rewrite sign_bit, testbit_23 by lia.
  destruct (Z.leb_spec (2 ^ 23) m0).
  - rewrite Z.shiftr_div_pow2 by lia. change (2 ^ 8) with 256.
    assert (2 ^ 15 <= m0 / 256 < 2 ^ 23) as Hm'.
    { split; [apply Z.div_le_lower_bound|apply Z.div_lt_upper_bound]; lia. }
    destruct (compact_assemble (e + 1) (m0 / 256)) as (U & T & Se & Sm); [lia|lia|].
    split; [done|]. split; [done|]. unfold compact_value. rewrite Se, Sm.
    destruct (Z.leb_spec e 3).
    + destruct (Z.eq_dec e 3) as [E3|].
      * rewrite (proj2 (Z.leb_gt (e + 1) 3)) by lia.
        replace (e + 1 - 3) with 1 by lia. replace (3 - e) with 0 in Vm by lia.
        rewrite Z.pow_0_r, Z.mul_1_r in Vm. rewrite Z.pow_1_r, Vm in *.
        apply relative_loss; lia.
      * rewrite (proj2 (Z.leb_le (e + 1) 3)) by lia.
        assert (m0 / 256 = V * 256 ^ (2 - e)) as ->.
        { rewrite Vm. replace (3 - e) with (1 + (2 - e)) by lia. rewrite Z.pow_add_r by lia.
          rewrite Z.pow_1_r, Z.mul_assoc, (Z.mul_comm V), <- Z.mul_assoc, Z.mul_comm.
          apply Z.div_mul. lia. }
        rewrite Z.shiftr_div_pow2, Z.pow_mul_r by lia. change (2 ^ 8) with 256.
        replace (3 - (e + 1)) with (2 - e) by lia. rewrite Z.div_mul by (apply Z.pow_nonzero; lia). lia.
    + rewrite (proj2 (Z.leb_gt (e + 1) 3)) by lia.
      assert (m0 / 256 = V / 256 ^ (e + 1 - 3)) as Q.
      { rewrite Vm, Z.div_div by (try apply Z.pow_nonzero; lia).
        replace (e + 1 - 3) with ((e - 3) + 1) by lia. by rewrite Z.pow_add_r by lia. }
      rewrite Q in *. apply relative_loss; [apply Z.pow_pos_nonneg; lia|lia].
  - destruct (compact_assemble e m0) as (U & T & Se & Sm); [lia|lia|].
    split; [done|]. split; [done|]. unfold compact_value. rewrite Se, Sm.
    destruct (Z.leb_spec e 3).
    + rewrite Vm, Z.shiftr_div_pow2, Z.pow_mul_r by lia. change (2 ^ 8) with 256.
      rewrite Z.div_mul by (apply Z.pow_nonzero; lia). lia.
    + rewrite Vm in *. apply relative_loss; [apply Z.pow_pos_nonneg; lia|lia].
Qed.

(** ** Retargeting *)
Definition PowParameters_wf (p : PowParameters) : Prop :=
  length (limit p) = 32%nat /\ u32 (pow_bits p) /\ u32 (target_window p) /\
  u32 (target_spacing p) /\ u32 (maximum_actual_timespan p) /\
  0 < minimum_actual_timespan p <= maximum_actual_timespan p.

Definition DifficultyPoint_wf (d : DifficultyPoint) : Prop :=
  u32 (dp_height d) /\ u64 (dp_time d) /\ u32 (dp_bits d) /\ Chainwork_wf (dp_chainwork d).

(** The retargeting rule over the integers: scale the work between the two
    points to one target spacing and convert it to a target. *)
Definition retarget_spec (p : PowParameters) (first last : DifficultyPoint)
  : result HeaderError Z :=
  let W1 := limbs_val (dp_chainwork first) in
  let W2 := limbs_val (dp_chainwork last) in
  let timespan := clamp (Z.max 0 (dp_time last - dp_time first))
                    (minimum_actual_timespan p) (maximum_actual_timespan p) in
  if dp_height last <=? dp_height first then Err InvalidDifficulty
  else if W2 <? W1 then Err InvalidDifficulty
  else if 2 ^ 256 <=? (W2 - W1) * target_spacing p then Err InvalidDifficulty
  else
    let work := (W2 - W1) * target_spacing p / timespan in
    if work =? 0 then Ok (pow_bits p)
    else
      let target := 2 ^ 256 / work - 1 in
      if uval (limit p) <? target then Ok (pow_bits p)
      else Ok (DecodedTarget_to_compact (mkTarget (to_be_bytes 32 target) false false)).

Lemma to_be_bytes_uval t : U256_wf t -> t = to_be_bytes 32 (uval t).
Proof. intros W. unfold uval. by rewrite to_from_be_bytes_len. Qed.

Lemma retarget_tail p w :
  PowParameters_wf p -> 0 <= w < 2 ^ 256 ->
  (if bool_decide (work_of w = Chainwork_ZERO) then Ok (pow_bits p)
   else target ← ok_or (U256_target_for_work (Chainwork_to_be_bytes (work_of w))) InvalidDifficulty;
        if negb (bytes_le target (limit p)) then Ok (pow_bits p)
        else Ok (DecodedTarget_to_compact (mkTarget target false false))) =
  (if w =? 0 then Ok (pow_bits p)
   else if uval (limit p) <? 2 ^ 256 / w - 1 then Ok (pow_bits p)
   else Ok (DecodedTarget_to_compact (mkTarget (to_be_bytes 32 (2 ^ 256 / w - 1)) false false))).
Proof.
  intros (Ll & _) Hw. pose proof (work_of_wf w) as (L4 & Ww).
  destruct (Z.eqb_spec w 0) as [->|Hn].
  { by rewrite bool_decide_eq_true_2. }
  rewrite bool_decide_eq_false_2.
  2: { intros E. apply (f_equal limbs_val) in E. rewrite work_of_val in E by done. by simpl in E. }
  destruct (Chainwork_to_be_bytes_val (work_of w) Ww) as (V & Lb).
  rewrite work_of_val in V by done. fold (uval (Chainwork_to_be_bytes (work_of w))) in V.
  destruct (U256_target_for_work_spec (Chainwork_to_be_bytes (work_of w))) as (t & -> & Wt & Vt).
  { unfold U256_wf, len in *. rewrite L4 in Lb. lia. }
  { lia. }
  rewrite V in Vt. cbn [ok_or mbind result_bind].
  rewrite (uval_le t (limit p)) by done.
  by rewrite <- Vt, <- (to_be_bytes_uval t Wt), (Z.ltb_antisym (uval t)).
Qed.

Lemma retarget_bits_eq p first last :
  PowParameters_wf p -> DifficultyPoint_wf first -> DifficultyPoint_wf last ->
  retarget_bits p first last = retarget_spec p first last.
Proof.
  intros Wp (_ & Hf & _ & Wf) (_ & Hl & _ & Wl). unfold retarget_bits, retarget_spec. cbv zeta.
  destruct (Z.leb_spec (dp_height last) (dp_height first)); [done|].
  rewrite chainwork_sub_eq by done.
  pose proof (Chainwork_range _ Wf). pose proof (Chainwork_range _ Wl).
  destruct (Z.ltb_spec (limbs_val (dp_chainwork last)) (limbs_val (dp_chainwork first)));
    [done|]. cbn [map_err mbind result_bind].
  set (D := limbs_val (dp_chainwork last) - limbs_val (dp_chainwork first)) in *.
  pose proof Wp as (Ll & Hb & Hw & Hs & Hmax & Hmin).
  rewrite chainwork_mul_eq by (first [apply work_of_wf | ulia]).
  rewrite work_of_val by lia. rewrite Z.ltb_antisym.
  destruct (Z.leb_spec (2 ^ 256) (D * target_spacing p)) as [|Hlt]; [done|].
  cbn [negb map_err mbind result_bind]. unfold saturating_sub.
  set (T := clamp _ _ _). assert (0 < T <= maximum_actual_timespan p) as HT by (unfold T, clamp; lia).
  assert (0 <= D * target_spacing p) by (unfold u32 in Hs; nia).
  rewrite chainwork_div_eq by (first [apply work_of_wf | ulia]).
  rewrite (proj2 (Z.eqb_neq T 0)), work_of_val by lia. cbn [map_err mbind result_bind].
  apply retarget_tail; [exact Wp|]. split; [apply Z.div_pos; lia|].
  apply Z.div_lt_upper_bound; [lia|]. nia.
Qed.

Lemma Header_decode_Ok input h :
  Header_decode input = Ok h <-> Header_wf h /\ Header_encode h = input.
Proof.
  unfold Header_decode. split.
  - destruct (Z.eqb_spec (len input) HEADER_SIZE) as [L|]; [|done]. cbn [negb]. intros H.
    apply run_all_Ok in H as (d & H & F). apply lift_err_Ok in H.
    apply Header_decode_from_inv in H as (T & W); [|apply wf_new; rewrite L; by vm_compute].
    split; [done|]. by eapply took_finish.
  - intros (W & <-). pose proof (Header_encode_len h W) as L.
    rewrite L, Z.eqb_refl. cbn [negb]. apply run_all_reads; [rewrite L; by vm_compute|].
    by apply reads_err, Header_decode_from_reads.
Qed.

(** ** Properties *)

(** The 236-byte header codec is a bijection: decoding accepts exactly the
    encodings of well-formed headers and returns the header that was encoded. *)
Theorem header_codec input h :
  Header_decode input = Ok h <-> Header_wf h /\ Header_encode h = input.
Proof. apply Header_decode_Ok. Qed.

(** Decoding a compact target yields the number it denotes: the 32 bytes
    spell [compact_value], the overflow flag is set exactly when that number
    exceeds 256 bits, and the negative flag is the sign bit. *)
Theorem compact_target_semantics b (Hb : u32 b) :
  let t := DecodedTarget_from_compact b in
  overflow t = (2 ^ 256 <=? compact_value b) /\
  (overflow t = false -> uval (target_bytes t) = compact_value b) /\
  negative t = Z.testbit b 23 /\
  DecodedTarget_is_valid t = bool_decide (Z.testbit b 23 = false /\ 0 < compact_value b < 2 ^ 256).
Proof.
  destruct (from_compact_spec b Hb) as (_ & O & V & N). cbv zeta.
  split; [done|]. split; [done|]. split; [done|].
  apply eq_bool_prop_intro. rewrite !Is_true_true, is_valid_spec, bool_decide_eq_true by done. done.
Qed.

Lemma compact_target_semantics_witness :
  uval (target_bytes (DecodedTarget_from_compact 0x1c00ffff)) = 0xffff * 256 ^ 25.
Proof.
  refine (proj1 (proj2 (compact_target_semantics 0x1c00ffff _)) eq_refl).
  split; vm_compute; discriminate.
Defined.

(** Re-encoding a non-zero target truncates it, never raises it, keeps it
    positive and in range, and loses less than one part in 32768. *)
Theorem to_compact_precision t
  (L : length (target_bytes t) = 32%nat) (HV : 0 < uval (target_bytes t)) :
  let t' := DecodedTarget_from_compact (DecodedTarget_to_compact t) in
  negative t' = false /\ overflow t' = false /\
  uval (target_bytes t') <= uval (target_bytes t) /\
  2 ^ 15 * (uval (target_bytes t) - uval (target_bytes t')) < uval (target_bytes t').
Proof.
  destruct (to_compact_spec t L HV) as (U & T & Le & Lo).
  destruct (from_compact_spec _ U) as (_ & O & V & N). pose proof (uval_range _ L) as R.
  rewrite (proj2 (Z.leb_gt _ _)) in O by lia. cbv zeta. rewrite V, N by done. done.
Qed.

Lemma to_compact_precision_witness :
  let t := mkTarget (limit (pow (Network_parameters Mainnet))) false false in
  uval (target_bytes (DecodedTarget_from_compact (DecodedTarget_to_compact t)))
    <= uval (target_bytes t).
Proof. refine (proj1 (proj2 (proj2 (to_compact_precision _ _ _)))); reflexivity. Defined.

(** C27. The byte-level retargeting computation (limb subtraction, scaling,
    clamped division, reciprocal in base 256) equals the integer rule
    [retarget_spec], errors included. *)
Theorem retarget_refines_Z p first last (Wp : PowParameters_wf p)
  (Wf : DifficultyPoint_wf first) (Wl : DifficultyPoint_wf last) :
  retarget_bits p first last = retarget_spec p first last.
Proof. by apply retarget_bits_eq. Qed.

Lemma retarget_refines_Z_witness :
  retarget_bits (pow (Network_parameters Mainnet))
    (mkPoint 1 1000 0x1c00ffff (work_of (2 ^ 40)))
    (mkPoint 145 100000 0x1c00ffff (work_of (2 ^ 48)))
  = retarget_spec (pow (Network_parameters Mainnet))
    (mkPoint 1 1000 0x1c00ffff (work_of (2 ^ 40)))
    (mkPoint 145 100000 0x1c00ffff (work_of (2 ^ 48))).
Proof.
  apply retarget_refines_Z.
  - split; [reflexivity|]. vm_compute. repeat split; discriminate.
  - refine (conj _ (conj _ (conj _ (work_of_wf _)))); vm_compute; split; discriminate.
  - refine (conj _ (conj _ (conj _ (work_of_wf _)))); vm_compute; split; discriminate.
Defined.

Section validation_properties.
Context `{Crypto}.

Lemma pow_hash_length h : length (mask h) = 32%nat -> length (pow_hash h) = 32%nat.
Proof.
  intros L. unfold pow_hash, share_hash, blake2b_256.
  rewrite length_zip_with, blake2b_length, L. done.
Qed.

Lemma is_met_by_spec h :
  Header_wf h ->
  DecodedTarget_is_met_by (DecodedTarget_from_compact (bits h)) (pow_hash h) = true <->
  target_ok (bits h) /\ uval (pow_hash h) <= compact_value (bits h).
Proof.
  intros Wh. assert (u32 (bits h)) as Hb by apply Wh.
  assert (length (mask h) = 32%nat) as Lm.
  { destruct Wh as (_ & _ & _ & _ & _ & _ & _ & _ & _ & _ & Lm). unfold len in Lm. lia. }
  destruct (from_compact_spec _ Hb) as (L & O & V & _). unfold DecodedTarget_is_met_by.
  rewrite andb_true_iff, is_valid_spec by done.
  rewrite uval_le by (first [by apply pow_hash_length | done]). rewrite Z.leb_le.
  unfold target_ok. rewrite O in V.
  split; intros ((? & ?) & Hle); rewrite V in * by (apply Z.leb_gt; lia); done.
Qed.

(** C13. A header validates, with the given work, exactly when it links to its
    context (or is the network's genesis), its time and difficulty are the
    expected ones, its target is a positive 256-bit number, its hash is
    numerically at most that target (genesis excepted), and the work is
    [2^256 / (target + 1)]. *)
Theorem validate_header_iff p h c w (Wh : Header_wf h) :
  validate_header p h c = Ok w <->
  (if ctx_height c =? 0
   then h = genesis_header p /\ block_hash h = genesis_hash p
   else previous_block h = ctx_previous_block c /\
        uval (pow_hash h) <= compact_value (bits h)) /\
  ctx_median_time c < time h <= Z.min u64_max (ctx_now c + 7200) /\
  bits h = ctx_expected_bits c /\ target_ok (bits h) /\
  w = work_of (2 ^ 256 / (compact_value (bits h) + 1)).
Proof.
  pose proof (is_met_by_spec h Wh) as M. assert (u32 (bits h)) as Hb by apply Wh.
  pose proof (is_valid_spec _ Hb) as Vd. pose proof (proof_spec _ Hb) as Pr.
  unfold validate_header, saturating_add. set (t := DecodedTarget_from_compact (bits h)) in *.
  pose proof (proof_invalid t) as Pi.
  split.
  - intros E. apply bind_Ok in E as (u1 & E1 & E). apply bind_Ok in E as (u2 & E2 & E).
    apply bind_Ok in E as (u3 & E3 & E). apply bind_Ok in E as (u4 & E4 & E).
    apply ok_or_Ok in E.
    destruct (DecodedTarget_is_valid t) eqn:Ev; [|rewrite Pi in E; done].
    pose proof (proj1 Vd eq_refl) as Hok. rewrite Pr in E by done.
    destruct ((_ <=? _) || _) eqn:Et; [done|]. apply orb_false_iff in Et as (T1 & T2).
    apply Z.leb_gt in T1. apply Z.ltb_ge in T2.
    destruct (Z.eqb_spec (bits h) (ctx_expected_bits c)); [|done].
    split; [|naive_solver]. destruct (ctx_height c =? 0).
    + case_bool_decide; [|done]. by case_bool_decide.
    + case_bool_decide; [|done]. cbn [negb andb] in E4.
      destruct (DecodedTarget_is_met_by t (pow_hash h)); [|done]. split; [done|].
      by apply M.
  - intros (Hl & Ht & Hbits & Hok & ->).
    assert (DecodedTarget_is_valid t = true) as Ev by (by apply Vd).
    rewrite (Pr Hok). cbn [ok_or].
    rewrite (proj2 (Z.leb_gt _ _)), (proj2 (Z.ltb_ge _ _)) by lia.
    rewrite (proj2 (Z.eqb_eq _ _) Hbits). destruct (ctx_height c =? 0).
    + destruct Hl as (-> & Hg). rewrite !bool_decide_eq_true_2 by done. done.
    + destruct Hl as (Hp & Hpow). rewrite bool_decide_eq_true_2 by done.
      rewrite (proj2 M) by done. done.
Qed.
End validation_properties.

Definition sample_header : Header :=
  mkHeader 7 2000 (zeros 32) (zeros 32) (zeros 24) (zeros 32) (zeros 32) (zeros 32) 0 0x207fffff
    (replicate 32 x80).

Lemma validate_header_iff_witness :
  @validate_header toy_crypto (Network_parameters Regtest) sample_header
    (mkContext 5 (zeros 32) 1000 1990 0x207fffff)
  = Ok (work_of (2 ^ 256 / (compact_value 0x207fffff + 1))).
Proof.
  apply (@validate_header_iff toy_crypto).
  - vm_compute. repeat split; discriminate.
  - vm_compute. repeat split; discriminate.
Defined.
