(* ===== verification/Covenants.v ===== *)
(** * hns-covenants: covenants, names and bid commitments

    Models [crates/hns-covenants/src/lib.rs]: the covenant kinds, the bounded
    covenant codec (whole inputs and streams with a byte budget), the typed item
    accessors, Handshake name syntax, name hashes and blinded bids. The other
    three modules of the crate are [NameState], [NameTransition] and [Resource];
    they share the crate's error type, declared here. *)

From S2P Require Import Prelude Encoding Primitives.
Local Open Scope Z_scope.

Definition MAX_COVENANT_ITEMS : Z := 1000.
Definition MAX_COVENANT_ITEM_SIZE : Z := 1000000.
Definition MAX_COVENANT_ENCODED_SIZE : Z := MAX_COVENANT_ITEM_SIZE + 9.
Definition MAX_NAME_SIZE : Z := 63.
Definition MAX_RESOURCE_SIZE : Z := 512.

(** ** Kinds *)
Inductive CovenantKind :=
| KNone | KClaim | KOpen | KBid | KReveal | KRedeem | KRegister | KUpdate
| KRenew | KTransfer | KFinalize | KRevoke | KUnknown (value : byte).

#[global] Instance CovenantKind_eq_dec : EqDecision CovenantKind.
Proof. solve_decision. Defined.

Definition CovenantKind_from_u8 (value : byte) : CovenantKind :=
  match b2z value with
  | 0 => KNone
  | 1 => KClaim
  | 2 => KOpen
  | 3 => KBid
  | 4 => KReveal
  | 5 => KRedeem
  | 6 => KRegister
  | 7 => KUpdate
  | 8 => KRenew
  | 9 => KTransfer
  | 10 => KFinalize
  | 11 => KRevoke
  | _ => KUnknown value
  end.

Definition CovenantKind_as_u8 (k : CovenantKind) : byte :=
  match k with
  | KNone => z2b 0
  | KClaim => z2b 1
  | KOpen => z2b 2
  | KBid => z2b 3
  | KReveal => z2b 4
  | KRedeem => z2b 5
  | KRegister => z2b 6
  | KUpdate => z2b 7
  | KRenew => z2b 8
  | KTransfer => z2b 9
  | KFinalize => z2b 10
  | KRevoke => z2b 11
  | KUnknown value => value
  end.

Definition is_name (k : CovenantKind) : bool :=
  match k with KNone | KUnknown _ => false | _ => true end.

Definition is_linked (k : CovenantKind) : bool :=
  match k with
  | KReveal | KRedeem | KRegister | KUpdate | KRenew | KTransfer | KFinalize | KRevoke => true
  | _ => false
  end.

Definition is_unspendable (k : CovenantKind) : bool :=
  match k with KRevoke => true | _ => false end.

(** ** Errors *)
Inductive CovenantError :=
| CovDecode (e : DecodeError)
| CovTooLarge (actual maximum : Z)
| InvalidName
| UnsupportedResourceVersion
| UnsupportedResourceRecord (kind : byte)
| InvalidResource (reason : string)
| InvalidNameState (reason : string)
| NonCanonicalNameState
| NameStateHashMismatch
| InvalidTransferCovenant (reason : string)
| InvalidFinalizeCovenant (reason : string)
| FinalizeNameHashMismatch.

#[global] Instance CovenantError_eq_dec : EqDecision CovenantError.
Proof. solve_decision. Defined.

(** ** Covenants *)
Record Covenant := mkCovenant { cov_kind : CovenantKind; cov_items : list (list byte) }.

#[global] Instance Covenant_eq_dec : EqDecision Covenant.
Proof. solve_decision. Defined.

Definition Covenant_default : Covenant := mkCovenant KNone [].

(** The loop of [encoded_size] over the items, with its running total. *)
Fixpoint items_encoded_size (encoded_size : Z) (items : list (list byte))
  : result CovenantError Z :=
  match items with
  | [] => Ok encoded_size
  | item :: items =>
    assert_or (len item <=? MAX_COVENANT_ITEM_SIZE)
      (CovTooLarge (len item) MAX_COVENANT_ITEM_SIZE) ;;
    encoded_size ← ok_or
      (size ← checked_add usize_max encoded_size (compact_size_len (len item));
       checked_add usize_max size (len item))
      (CovTooLarge usize_max MAX_COVENANT_ENCODED_SIZE);
    assert_or (encoded_size <=? MAX_COVENANT_ENCODED_SIZE)
      (CovTooLarge encoded_size MAX_COVENANT_ENCODED_SIZE) ;;
    items_encoded_size encoded_size items
  end.

Definition Covenant_encoded_size (c : Covenant) : result CovenantError Z :=
  assert_or (len (cov_items c) <=? MAX_COVENANT_ITEMS)
    (CovTooLarge (len (cov_items c)) MAX_COVENANT_ITEMS) ;;
  encoded_size ← ok_or (checked_add usize_max 1 (compact_size_len (len (cov_items c))))
    (CovTooLarge usize_max MAX_COVENANT_ENCODED_SIZE);
  items_encoded_size encoded_size (cov_items c).

Definition put_covenant (encoder : Encoder) (c : Covenant) : Encoder :=
  let encoder := put_u8 encoder (CovenantKind_as_u8 (cov_kind c)) in
  let encoder := put_compact_size encoder (len (cov_items c)) in
  foldl put_varbytes encoder (cov_items c).

Definition Covenant_encode (c : Covenant) : result CovenantError (list byte) :=
  encoded_size ← Covenant_encoded_size c;
  Ok (into_bytes (put_covenant (with_capacity encoded_size) c)).

Definition Covenant_validate_bounds (c : Covenant) : result CovenantError unit :=
  _ ← Covenant_encoded_size c; Ok tt.

(** The encoder is written only after the bounds hold. *)
Definition Covenant_encode_to (c : Covenant) (encoder : Encoder) : result CovenantError Encoder :=
  Covenant_validate_bounds c ;; Ok (put_covenant encoder c).

Definition ensure_decode_budget (decoder : Decoder) (start maximum : Z)
  : result CovenantError Z :=
  let consumed := saturating_sub (position decoder) start in
  assert_or (consumed <=? maximum) (CovTooLarge consumed maximum) ;;
  Ok (maximum - consumed).

(** One iteration of the item loop of [decode_from_with_limit]. *)
Definition read_covenant_item (start maximum : Z) : decM CovenantError (list byte) :=
  length ← lift_err CovDecode (read_compact_usize MAX_COVENANT_ITEM_SIZE "covenant item");
  decoder ← dec_get;
  remaining ← lift_res (ensure_decode_budget decoder start maximum);
  lift_res (assert_or (length <=? remaining)
    (CovTooLarge (saturating_add usize_max (saturating_sub (position decoder) start) length)
       maximum)) ;;
  lift_err CovDecode (read_bounded_vec length remaining).

Definition Covenant_decode_from_with_limit (maximum_encoded_size : Z)
  : decM CovenantError Covenant :=
  let maximum := Z.min maximum_encoded_size MAX_COVENANT_ENCODED_SIZE in
  lift_res (assert_or (2 <=? maximum) (CovTooLarge 2 maximum)) ;;
  decoder ← dec_get;
  let start := position decoder in
  kind ← lift_err CovDecode read_u8;
  count ← lift_err CovDecode (read_compact_usize MAX_COVENANT_ITEMS "covenant items");
  decoder ← dec_get;
  lift_res (ensure_decode_budget decoder start maximum) ;;
  items ← read_n (Z.to_nat count) (read_covenant_item start maximum);
  mret (mkCovenant (CovenantKind_from_u8 kind) items).

Definition Covenant_decode_from : decM CovenantError Covenant :=
  Covenant_decode_from_with_limit MAX_COVENANT_ENCODED_SIZE.

Definition Covenant_decode (input : list byte) : result CovenantError Covenant :=
  assert_or (len input <=? MAX_COVENANT_ENCODED_SIZE)
    (CovTooLarge (len input) MAX_COVENANT_ENCODED_SIZE) ;;
  run_all CovDecode Covenant_decode_from input.

(** *** Typed items *)
Definition Covenant_item (c : Covenant) (index : Z) : option (list byte) :=
  get (cov_items c) index.

(** [try_into] of a slice into an [n]-byte array. *)
Definition as_array (n : Z) (item : list byte) : option (list byte) :=
  if len item =? n then Some item else None.

Definition Covenant_item_u8 (c : Covenant) (index : Z) : option byte :=
  item ← Covenant_item c index; if len item =? 1 then head item else None.
Definition Covenant_item_u32 (c : Covenant) (index : Z) : option Z :=
  item ← Covenant_item c index; item ← as_array 4 item; Some (from_le_bytes item).
Definition Covenant_item_u64 (c : Covenant) (index : Z) : option Z :=
  item ← Covenant_item c index; item ← as_array 8 item; Some (from_le_bytes item).
Definition Covenant_item_name_hash (c : Covenant) (index : Z) : option (list byte) :=
  item ← Covenant_item c index; as_array 32 item.

(** ** Names *)
Definition byte_in (lo hi : Z) (b : byte) : bool := (lo <=? b2z b) && (b2z b <=? hi).

(** [b'0'..=b'9' | b'a'..=b'z'], and [b'-' | b'_']. *)
Definition is_alnum (b : byte) : bool := byte_in 48 57 b || byte_in 97 122 b.
Definition is_separator (b : byte) : bool := (b2z b =? 45) || (b2z b =? 95).

Definition reserved_names : list (list byte) :=
  [bstr "example"; bstr "invalid"; bstr "local"; bstr "localhost"; bstr "test"].

(** The [enumerate().all(..)] scan, from position [index] on. *)
Fixpoint name_chars_ok (index total : Z) (name : list byte) : bool :=
  match name with
  | [] => true
  | byte :: name =>
    (is_alnum byte || is_separator byte && negb (index =? 0) && negb (index + 1 =? total))
    && name_chars_ok (index + 1) total name
  end.

Definition validate_name (name : list byte) : bool :=
  if (len name =? 0) || (MAX_NAME_SIZE <? len name) then false
  else if bool_decide (name ∈ reserved_names) then false
  else name_chars_ok 0 (len name) name.

Section hashing.
Context `{!Crypto}.

Definition hash_name (name : list byte) : result CovenantError (list byte) :=
  assert_or (validate_name name) InvalidName ;;
  Ok (sha3_256 name).

Definition blind_bid (value : Z) (nonce : list byte) : list byte :=
  blake2b 32 (to_le_bytes 8 value ++ nonce).

End hashing.

(** ** The encoding as a byte string

    [cov_bytes] is the reference encoding and [cov_fits] the size limits; a kind
    is canonical when it is not an assigned number spelled as [Unknown]. *)
Definition cov_bytes (c : Covenant) : list byte :=
  CovenantKind_as_u8 (cov_kind c) ::
  compact_bytes (len (cov_items c)) ++ mjoin (var_bytes <$> cov_items c).

Definition item_fits (item : list byte) : Prop := len item <= MAX_COVENANT_ITEM_SIZE.

Definition cov_fits (c : Covenant) : Prop :=
  len (cov_items c) <= MAX_COVENANT_ITEMS /\ Forall item_fits (cov_items c) /\
  len (cov_bytes c) <= MAX_COVENANT_ENCODED_SIZE.

Definition kind_canonical (k : CovenantKind) : Prop :=
  match k with KUnknown v => 12 <= b2z v | _ => True end.

Definition Covenant_wf (c : Covenant) : Prop := kind_canonical (cov_kind c) /\ cov_fits c.

Ltac cov_unfold :=
  unfold cov_fits, item_fits, MAX_COVENANT_ENCODED_SIZE, MAX_COVENANT_ITEM_SIZE,
    MAX_COVENANT_ITEMS in *.

Lemma kind_as_from b : CovenantKind_as_u8 (CovenantKind_from_u8 b) = b.
Proof. by destruct b. Qed.

Lemma kind_from_as k : kind_canonical k -> CovenantKind_from_u8 (CovenantKind_as_u8 k) = k.
Proof. destruct k as [| | | | | | | | | | | |v]; try done. by destruct v. Qed.

Lemma kind_from_canonical b : kind_canonical (CovenantKind_from_u8 b).
Proof. by destruct b. Qed.

Lemma bytes_put_covenant e c : bytes (put_covenant e c) = bytes e ++ cov_bytes c.
Proof.
  unfold put_covenant, cov_bytes. autorewrite with enc. by rewrite <- !app_assoc.
Qed.
#[export] Hint Rewrite bytes_put_covenant : enc.

Lemma items_encoded_size_Ok acc items n :
  0 <= acc <= MAX_COVENANT_ENCODED_SIZE ->
  items_encoded_size acc items = Ok n <->
  n = acc + len (mjoin (var_bytes <$> items)) /\ n <= MAX_COVENANT_ENCODED_SIZE /\
  Forall item_fits items.
Proof.
  revert acc. induction items as [|i items IH]; intros acc Ha; cbn [items_encoded_size].
  { cbn. rewrite len_nil, Z.add_0_r. split; [|by intros (-> & _)].
    intros [= <-]. split; [done|]. split; [lia|done]. }
  rewrite fmap_cons', join_cons, len_app, len_var_bytes, Forall_cons.
  pose proof (len_nonneg i). pose proof (len_nonneg (mjoin (var_bytes <$> items))).
  pose proof (compact_size_len_range (len i)).
  unfold checked_add, item_fits in *.
  rewrite (proj2 (Z.leb_le (acc + _) usize_max)) by (cov_unfold; ulia). cbn [mbind option_bind].
  destruct (Z.leb_spec (len i) MAX_COVENANT_ITEM_SIZE); [|naive_solver lia].
  rewrite (proj2 (Z.leb_le _ usize_max)) by (cov_unfold; ulia). cbn.
  destruct (Z.leb_spec (acc + compact_size_len (len i) + len i) MAX_COVENANT_ENCODED_SIZE);
    cbn; [|naive_solver lia].
  rewrite IH by lia. naive_solver lia.
Qed.

Lemma len_cov_bytes c :
  len (cov_bytes c) = 1 + compact_size_len (len (cov_items c)) + len (mjoin (var_bytes <$> cov_items c)).
Proof. unfold cov_bytes. rewrite len_cons, len_app, len_compact_bytes. lia. Qed.

Lemma Covenant_encoded_size_Ok c n :
  Covenant_encoded_size c = Ok n <-> n = len (cov_bytes c) /\ cov_fits c.
Proof.
  unfold Covenant_encoded_size. rewrite bind_Ok.
  pose proof (compact_size_len_range (len (cov_items c))).
  unfold checked_add. rewrite (proj2 (Z.leb_le _ usize_max)) by ulia. cbn [ok_or mbind result_bind].
  setoid_rewrite assert_or_Ok. setoid_rewrite Z.leb_le.
  pose proof (items_encoded_size_Ok (1 + compact_size_len (len (cov_items c))) (cov_items c) n
    ltac:(cov_unfold; lia)) as I.
  unfold cov_fits. rewrite len_cov_bytes. split.
  - intros (_ & ? & H1). apply I in H1 as (-> & ? & ?). auto.
  - intros (-> & ? & ? & ?). exists tt. split; [done|]. by apply I.
Qed.

Lemma Covenant_encode_Ok c bs : Covenant_encode c = Ok bs <-> bs = cov_bytes c /\ cov_fits c.
Proof.
  unfold Covenant_encode, into_bytes. rewrite bind_Ok. setoid_rewrite Covenant_encoded_size_Ok.
  setoid_rewrite bytes_put_covenant. cbn [with_capacity bytes app]. naive_solver.
Qed.

Lemma Covenant_encode_to_Ok c e e' :
  Covenant_encode_to c e = Ok e' <-> e' = put_covenant e c /\ cov_fits c.
Proof.
  unfold Covenant_encode_to, Covenant_validate_bounds. rewrite bind_Ok. setoid_rewrite bind_Ok.
  setoid_rewrite Covenant_encoded_size_Ok. naive_solver.
Qed.

(** ** Decoding *)
Lemma ensure_budget_Ok d start maximum n :
  start <= position d ->
  ensure_decode_budget d start maximum = Ok n <->
  n = maximum - (position d - start) /\ 0 <= n.
Proof.
  intros. unfold ensure_decode_budget, saturating_sub. rewrite Z.max_r by lia.
  rewrite bind_Ok. setoid_rewrite assert_or_Ok. setoid_rewrite Z.leb_le.
  split; [|intros (-> & ?); exists tt; naive_solver lia].
  intros (? & ? & [= <-]). lia.
Qed.

Lemma read_covenant_item_inv start maximum d item d' :
  start <= position d -> dec_wf d ->
  read_covenant_item start maximum d = (Ok item, d') ->
  took d (var_bytes item) d' /\ item_fits item /\ position d' <= start + maximum.
Proof.
  intros S W H. unfold read_covenant_item in H. inv_dec. rename H0 into T. took_all.
  pose proof (took_position _ _ _ T) as P. slen.
  pose proof (compact_size_len_range x).
  apply ensure_budget_Ok in H2 as (-> & ?); [|lia]. apply assert_or_Ok, Z.leb_le in H3.
  apply read_bounded_vec_inv in H as (T2 & L & _); [|lia|done].
  pose proof (took_position _ _ _ T2). subst.
  split; [by eapply took_trans|]. unfold item_fits. lia.
Qed.

Lemma read_covenant_item_reads start maximum d item :
  start <= position d -> position d + len (var_bytes item) <= start + maximum -> item_fits item ->
  reads d (read_covenant_item start maximum) (var_bytes item) item.
Proof.
  intros S B F. pose proof (len_nonneg item). pose proof (compact_size_len_range (len item)).
  unfold read_covenant_item, var_bytes in *. slen.
  eapply reads_bind.
  { apply reads_err, read_compact_usize_reads; cov_unfold; ulia. }
  eapply reads_nil_bind; [apply reads_get|].
  eapply reads_nil_bind.
  { apply reads_res, ensure_budget_Ok; [cbn; slen; lia|split; [done|cbn; slen; lia]]. }
  eapply reads_nil_bind.
  { apply reads_assert, Z.leb_le. cbn. slen. lia. }
  apply reads_err, read_bounded_vec_reads. cbn. slen. lia.
Qed.

Lemma covenant_item_budgeted start maximum :
  budgeted start maximum (read_covenant_item start maximum) var_bytes item_fits.
Proof. split; intros; [by eapply read_covenant_item_inv|by apply read_covenant_item_reads]. Qed.

(** Reading from a stream under a byte budget accepts exactly the canonical
    encodings of covenants that fit the limits and the budget. *)
Lemma Covenant_decode_from_inv limit d c d' :
  dec_wf d -> Covenant_decode_from_with_limit limit d = (Ok c, d') ->
  took d (cov_bytes c) d' /\ Covenant_wf c /\ len (cov_bytes c) <= limit.
Proof.
  intros W H. unfold Covenant_decode_from_with_limit in H.
  set (maximum := Z.min limit MAX_COVENANT_ENCODED_SIZE) in *.
  inv_dec. took_all. rename x2 into d, x3 into k, x5 into count, x11 into items.
  pose proof (took_trans _ _ _ _ _ H2 H3) as T. pose proof (took_position _ _ _ T) as P.
  slen. pose proof (compact_size_len_range count).
  apply ensure_budget_Ok in H5 as (-> & B); [|lia].
  eapply budgeted_n_inv in H6 as (T2 & F & L & B2); [|apply covenant_item_budgeted|lia|done].
  apply (took_trans _ _ _ _ _ T) in T2.
  assert (cov_bytes (mkCovenant (CovenantKind_from_u8 k) items) =
    ([k] ++ compact_bytes count) ++ mjoin (var_bytes <$> items)) as E.
  { unfold cov_bytes. cbn [cov_items cov_kind]. rewrite kind_as_from.
    replace (len items) with count by (unfold len; lia). done. }
  pose proof (took_position _ _ _ T2) as P5. rewrite <- E in *. split; [done|].
  split; [split; [apply kind_from_canonical|]|lia].
  unfold cov_fits. cbn [cov_items]. split; [unfold len; lia|]. split; [done|lia].
Qed.

Lemma Covenant_decode_from_reads limit d c :
  Covenant_wf c -> len (cov_bytes c) <= limit ->
  reads d (Covenant_decode_from_with_limit limit) (cov_bytes c) c.
Proof.
  intros (K & F) B. assert (F0 := F). destruct F as (F1 & F2 & F3).
  rewrite len_cov_bytes in *.
  pose proof (len_nonneg (cov_items c)). pose proof (len_nonneg (mjoin (var_bytes <$> cov_items c))).
  pose proof (compact_size_len_range (len (cov_items c))).
  unfold Covenant_decode_from_with_limit.
  eapply reads_nil_bind.
  { apply reads_assert, Z.leb_le. cov_unfold. lia. }
  eapply reads_nil_bind; [apply reads_get|].
  eapply (reads_bind _ _ _ [_]); [apply reads_err, read_u8_reads|].
  eapply reads_bind.
  { apply reads_err, read_compact_usize_reads; cov_unfold; ulia. }
  eapply reads_nil_bind; [apply reads_get|].
  eapply reads_nil_bind.
  { apply reads_res, ensure_budget_Ok; [cbn; slen; lia|split; [done|cbn; slen; lia]]. }
  rewrite <- (app_nil_r (mjoin _)).
  eapply reads_bind.
  { replace (Z.to_nat (len (cov_items c))) with (length (cov_items c)) by (unfold len; lia).
    eapply budgeted_n_reads; [apply covenant_item_budgeted|cbn; slen; lia|cbn; slen; lia|done]. }
  rewrite kind_from_as by done. destruct c. apply reads_ret.
Qed.

#[export] Hint Resolve Covenant_decode_from_reads : codec.

Lemma Covenant_decode_Ok input c :
  Covenant_decode input = Ok c <-> Covenant_wf c /\ input = cov_bytes c.
Proof.
  unfold Covenant_decode. rewrite bind_Ok. setoid_rewrite assert_or_Ok. setoid_rewrite Z.leb_le.
  unfold Covenant_decode_from. split.
  - intros (_ & L & H). apply run_all_Ok in H as (d & H & F).
    apply Covenant_decode_from_inv in H as (T & Wc & _); [|apply wf_new; cov_unfold; ulia].
    split; [done|]. symmetry. by eapply took_finish.
  - intros (Wc & ->). exists tt. destruct (proj2 Wc) as (_ & _ & L). split; [done|].
    apply run_all_reads; [cov_unfold; ulia|]. by apply Covenant_decode_from_reads.
Qed.

(** ** Names *)
Definition name_interior_ok (name : list byte) : Prop :=
  forall i b, name !! i = Some b ->
    is_alnum b = true \/ is_separator b = true /\ 0 < Z.of_nat i /\ Z.of_nat i + 1 < len name.

Lemma name_chars_ok_spec index total name :
  0 <= index -> index + len name = total ->
  name_chars_ok index total name = true <->
  forall i b, name !! i = Some b ->
    is_alnum b = true \/
    is_separator b = true /\ 0 < index + Z.of_nat i /\ index + Z.of_nat i + 1 < total.
Proof.
  revert index; induction name as [|b name IH]; intros index Hi L; cbn [name_chars_ok]; [done|].
  rewrite len_cons in L. pose proof (len_nonneg name).
  rewrite andb_true_iff, IH, orb_true_iff, !andb_true_iff, !negb_true_iff, !Z.eqb_neq by lia.
  split.
  - intros (H1 & H2) [|i] c Hc; cbn in Hc; [simplify_eq; intuition lia|].
    specialize (H2 i c Hc). rewrite Nat2Z.inj_succ. intuition lia.
  - intros H1. split.
    + specialize (H1 0%nat b eq_refl). intuition lia.
    + intros i c Hc. specialize (H1 (S i) c Hc). rewrite Nat2Z.inj_succ in H1. intuition lia.
Qed.

Lemma validate_name_spec name :
  validate_name name = true <->
  1 <= len name <= MAX_NAME_SIZE /\ (name ∉ reserved_names) /\ name_interior_ok name.
Proof.
  unfold validate_name, name_interior_ok. pose proof (len_nonneg name).
  destruct (Z.eqb_spec (len name) 0); cbn [orb]; [naive_solver lia|].
  destruct (Z.ltb_spec MAX_NAME_SIZE (len name)); [naive_solver lia|].
  case_bool_decide; [naive_solver|]. rewrite name_chars_ok_spec by lia. naive_solver lia.
Qed.

Lemma hash_name_Ok `{!Crypto} name h :
  hash_name name = Ok h <-> validate_name name = true /\ h = sha3_256 name.
Proof.
  unfold hash_name. rewrite bind_Ok. setoid_rewrite assert_or_Ok. split.
  - by intros (_ & ? & [= <-]).
  - intros (? & ->). by exists tt.
Qed.

(** ** Properties *)

(** The covenant codec is a bijection between canonical covenants within
    the limits and the accepted inputs: decoding succeeds exactly on the bytes
    that encoding the decoded covenant produces, so there is one spelling per
    covenant; and [encoded_size] is the exact length of that encoding. *)
Theorem covenant_codec input c :
  (Covenant_decode input = Ok c <->
   kind_canonical (cov_kind c) /\ Covenant_encode c = Ok input) /\
  (forall n, Covenant_encoded_size c = Ok n <->
   exists bs, Covenant_encode c = Ok bs /\ n = len bs).
Proof.
  split.
  - rewrite Covenant_decode_Ok, Covenant_encode_Ok. unfold Covenant_wf. naive_solver.
  - intros n. rewrite Covenant_encoded_size_Ok. setoid_rewrite Covenant_encode_Ok. naive_solver.
Qed.

(** Reading a covenant from a stream under a byte budget succeeds exactly
    when the stream continues with the encoding of a canonical covenant within
    the limits that fits the budget, and consumes exactly that encoding. *)
Theorem covenant_stream_budget limit d c d' (W : dec_wf d) :
  Covenant_decode_from_with_limit limit d = (Ok c, d') <->
  exists bs, Covenant_encode c = Ok bs /\ kind_canonical (cov_kind c) /\
    len bs <= limit /\ took d bs d'.
Proof.
  setoid_rewrite Covenant_encode_Ok. split.
  - intros H. apply Covenant_decode_from_inv in H as (T & (K & F) & L); [|done].
    exists (cov_bytes c). auto.
  - intros (bs & (-> & F) & K & L & T). eapply reads_took; [done| |done].
    by apply Covenant_decode_from_reads.
Qed.

(** Name syntax: a valid name has 1 to 63 bytes, is not one of the reserved
    names, consists of lower-case letters, digits and, strictly inside, hyphens
    and underscores; and its hash is defined exactly for valid names. *)
Theorem name_validity `{!Crypto} name :
  (validate_name name = true <->
   1 <= len name <= MAX_NAME_SIZE /\ (name ∉ reserved_names) /\ name_interior_ok name) /\
  (forall h, hash_name name = Ok h <-> validate_name name = true /\ h = sha3_256 name).
Proof. split; [apply validate_name_spec|]. intros. apply hash_name_Ok. Qed.
