(* ===== verification/Resource.v ===== *)
(** * hns-covenants: DNS resource values

    Models [crates/hns-covenants/src/resource.rs]: the version-zero resource
    decoder with DNS name compression. The two loops run on fuel; [None] is
    running out of it, which the lemmas below exclude. The result is compared
    with a declarative grammar of resources ([name_at], [record_at]). *)

From S2P Require Import Prelude Encoding Primitives Covenants.
Local Open Scope Z_scope.

Definition RESOURCE_VERSION : Z := 0.
Definition MAX_DNS_NAME_SIZE : Z := 255.
Definition MAX_DNS_POINTERS : Z := 10.

Record ResourceName := mkResourceName { labels : list (list byte) }.

Definition ResourceName_is_root (n : ResourceName) : bool := bool_decide (labels n = []).

Inductive ResourceRecord :=
| Ds (key_tag : Z) (algorithm digest_type : byte) (digest : list byte)
| Ns (name_server : ResourceName)
| Glue4 (name_server : ResourceName) (address : list byte)
| Glue6 (name_server : ResourceName) (address : list byte)
| Synth4 (address : list byte)
| Synth6 (address : list byte)
| Txt (strings : list (list byte)).

Definition ResourceRecord_kind (r : ResourceRecord) : byte :=
  match r with
  | Ds _ _ _ _ => z2b 0
  | Ns _ => z2b 1
  | Glue4 _ _ => z2b 2
  | Glue6 _ _ => z2b 3
  | Synth4 _ => z2b 4
  | Synth6 _ => z2b 5
  | Txt _ => z2b 6
  end.

Record Resource := mkResource { raw : list byte; records : list ResourceRecord }.

#[global] Instance ResourceName_eq_dec : EqDecision ResourceName.
Proof. solve_decision. Defined.
#[global] Instance ResourceRecord_eq_dec : EqDecision ResourceRecord.
Proof. solve_decision. Defined.

(** ** Names

    The mutable locals of the loop of [decode_name]. *)
Record NameLoop := mkNameLoop {
  nl_position : Z;
  nl_encoded_end : option Z;
  nl_labels : list (list byte);
  nl_literal_offsets : list Z;
  nl_followed : list bool;
  nl_pointer_count : Z;
  nl_expanded_size : Z;
}.

Inductive flow := Break (st : NameLoop) | Continue (st : NameLoop).

(** [raw.get(a..b)] *)
Definition get_range (l : list byte) (a b : Z) : option (list byte) :=
  if (a <=? b) && (b <=? len l) then Some (slice l a b) else None.

Definition or_else {A} (o : option A) (o' : option A) : option A :=
  match o with Some _ => o | None => o' end.

Definition literal_step (raw : list byte) (length : byte) (st : NameLoop)
  : result CovenantError flow :=
  if b2z length =? 0 then
    Ok (Break (mkNameLoop (nl_position st)
      (or_else (nl_encoded_end st) (checked_add usize_max (nl_position st) 1))
      (nl_labels st) (nl_literal_offsets st) (nl_followed st)
      (nl_pointer_count st) (nl_expanded_size st)))
  else
    assert_or (b2z length <=? 63) (InvalidResource "DNS label exceeds 63 bytes") ;;
    label_start ← ok_or (checked_add usize_max (nl_position st) 1)
      (InvalidResource "DNS name offset overflow");
    label_end ← ok_or (checked_add usize_max label_start (b2z length))
      (InvalidResource "DNS name offset overflow");
    label ← ok_or (get_range raw label_start label_end)
      (InvalidResource "truncated DNS label");
    expanded_size ← ok_or (checked_add usize_max (nl_expanded_size st) (1 + len label))
      (InvalidResource "DNS name size overflow");
    assert_or (expanded_size <=? MAX_DNS_NAME_SIZE)
      (InvalidResource "DNS name exceeds 255 wire bytes") ;;
    Ok (Continue (mkNameLoop label_end (nl_encoded_end st)
      (nl_labels st ++ [label]) (nl_literal_offsets st ++ [nl_position st]) (nl_followed st)
      (nl_pointer_count st) expanded_size)).

Definition pointer_step (raw : list byte) (known_offsets : list bool) (length : byte)
    (st : NameLoop) : result CovenantError flow :=
  low ← ok_or (get raw (nl_position st + 1))
    (InvalidResource "truncated DNS compression pointer");
  let target := Z.lor (Z.shiftl (Z.land (b2z length) 0x3f) 8) (b2z low) in
  assert_or (negb ((nl_position st <=? target) || (len raw <=? target)
                   || negb (default false (get known_offsets target))))
    (InvalidResource "DNS compression pointer is not a prior label") ;;
  assert_or (negb (default false (get (nl_followed st) target)
                   || (MAX_DNS_POINTERS <=? nl_pointer_count st)))
    (InvalidResource "DNS compression pointer loop or depth overflow") ;;
  Ok (Continue (mkNameLoop target
    (or_else (nl_encoded_end st) (checked_add usize_max (nl_position st) 2))
    (nl_labels st) (nl_literal_offsets st) (<[Z.to_nat target := true]> (nl_followed st))
    (nl_pointer_count st + 1) (nl_expanded_size st))).

(** One iteration of the loop. *)
Definition name_step (raw : list byte) (known_offsets : list bool) (st : NameLoop)
  : result CovenantError flow :=
  length ← ok_or (get raw (nl_position st)) (InvalidResource "truncated DNS name");
  if Z.land (b2z length) 0xc0 =? 0x00 then literal_step raw length st
  else if Z.land (b2z length) 0xc0 =? 0xc0 then pointer_step raw known_offsets length st
  else Err (InvalidResource "invalid DNS label prefix").

Fixpoint name_loop (fuel : nat) (raw : list byte) (known_offsets : list bool) (st : NameLoop)
  : option (result CovenantError NameLoop) :=
  match fuel with
  | O => None
  | S fuel =>
    match name_step raw known_offsets st with
    | Err e => Some (Err e)
    | Ok (Break st) => Some (Ok st)
    | Ok (Continue st) => name_loop fuel raw known_offsets st
    end
  end.

(** A label adds at least two to the expanded size (at most 255), and a pointer
    adds one to the pointer count (at most 10). *)
Definition NAME_FUEL : nat := 266.

Definition no_offsets : list bool := replicate (Z.to_nat MAX_RESOURCE_SIZE) false.

Definition name_start (start : Z) : NameLoop := mkNameLoop start None [] [] no_offsets 0 1.

Definition mark_offsets (known_offsets : list bool) (offsets : list Z) : list bool :=
  foldl (fun known offset => <[Z.to_nat offset := true]> known) known_offsets offsets.

Definition decode_name (raw : list byte) (known_offsets : list bool)
  : decM CovenantError (ResourceName * list bool) :=
  decoder ← dec_get;
  let start := position decoder in
  st ← lift_res (default (Err (InvalidResource "name loop does not end"))
         (name_loop NAME_FUEL raw known_offsets (name_start start)));
  encoded_end ← lift_res (ok_or (nl_encoded_end st)
                  (InvalidResource "DNS name has no encoded end"));
  consumed ← lift_res (ok_or (checked_sub encoded_end start)
               (InvalidResource "DNS name offset underflow"));
  lift_err CovDecode (read_slice consumed) ;;
  mret (mkResourceName (nl_labels st), mark_offsets known_offsets (nl_literal_offsets st)).

(** ** Records *)
Definition read_string8 : decM CovenantError (list byte) :=
  length ← lift_err CovDecode read_u8;
  lift_err CovDecode (read_bounded_vec (b2z length) u8_max).

(** The body of the record loop: one record and the updated name offsets. *)
Definition decode_record (raw : list byte) (name_offsets : list bool)
  : decM CovenantError (ResourceRecord * list bool) :=
  kind ← lift_err CovDecode read_u8;
  match b2z kind with
  | 0 =>
    key_tag ← lift_err CovDecode (read_array 2);
    algorithm ← lift_err CovDecode read_u8;
    digest_type ← lift_err CovDecode read_u8;
    digest ← read_string8;
    mret (Ds (from_be_bytes key_tag) algorithm digest_type digest, name_offsets)
  | 1 =>
    '(name_server, name_offsets) ← decode_name raw name_offsets;
    mret (Ns name_server, name_offsets)
  | 2 =>
    '(name_server, name_offsets) ← decode_name raw name_offsets;
    address ← lift_err CovDecode (read_array 4);
    mret (Glue4 name_server address, name_offsets)
  | 3 =>
    '(name_server, name_offsets) ← decode_name raw name_offsets;
    address ← lift_err CovDecode (read_array 16);
    mret (Glue6 name_server address, name_offsets)
  | 4 => address ← lift_err CovDecode (read_array 4); mret (Synth4 address, name_offsets)
  | 5 => address ← lift_err CovDecode (read_array 16); mret (Synth6 address, name_offsets)
  | 6 =>
    count ← lift_err CovDecode read_u8;
    strings ← read_n (Z.to_nat (b2z count)) read_string8;
    mret (Txt strings, name_offsets)
  | _ => lift_res (Err (UnsupportedResourceRecord kind))
  end.

(** [while decoder.remaining() != 0] *)
Fixpoint records_loop (fuel : nat) (raw : list byte) (name_offsets : list bool) (d : Decoder)
  : option (result CovenantError (list ResourceRecord) * Decoder) :=
  if remaining d =? 0 then Some (Ok [], d)
  else
    match fuel with
    | O => None
    | S fuel =>
      match decode_record raw name_offsets d with
      | (Err e, d) => Some (Err e, d)
      | (Ok (record, name_offsets), d) =>
        match records_loop fuel raw name_offsets d with
        | Some (Ok records, d) => Some (Ok (record :: records), d)
        | o => o
        end
      end
    end.

Definition decode_records (raw : list byte) : result CovenantError (list ResourceRecord) :=
  assert_or (len raw <=? MAX_RESOURCE_SIZE) (CovTooLarge (len raw) MAX_RESOURCE_SIZE) ;;
  fst ((version ← lift_err CovDecode read_u8;
        lift_res (assert_or (b2z version =? RESOURCE_VERSION) UnsupportedResourceVersion) ;;
        records ← (fun d => default (Err (InvalidResource "record loop does not end"), d)
                     (records_loop (length raw) raw no_offsets d));
        lift_err CovDecode dec_finish ;;
        mret records) (Decoder_new raw)).

Definition Resource_new (raw : list byte) : result CovenantError Resource :=
  records ← decode_records raw; Ok (mkResource raw records).

Definition Resource_decode (raw : list byte) : result CovenantError Resource :=
  assert_or (len raw <=? MAX_RESOURCE_SIZE) (CovTooLarge (len raw) MAX_RESOURCE_SIZE) ;;
  Resource_new raw.

Definition Resource_encode (r : Resource) : list byte := raw r.

(** ** The grammar

    [name_at raw pos e ls]: a possibly compressed DNS name spelling the labels
    [ls] starts at [pos], and its own bytes end at [e]. A pointer leads strictly
    backwards. *)
Inductive name_at (raw : list byte) : Z -> Z -> list (list byte) -> Prop :=
| at_root pos :
    get raw pos = Some (z2b 0) -> name_at raw pos (pos + 1) []
| at_label pos e b l ls :
    get raw pos = Some b -> 1 <= b2z b <= 63 ->
    get_range raw (pos + 1) (pos + 1 + b2z b) = Some l ->
    name_at raw (pos + 1 + b2z b) e ls ->
    name_at raw pos e (l :: ls)
| at_pointer pos e' hi lo target ls :
    get raw pos = Some hi -> get raw (pos + 1) = Some lo -> 0xc0 <= b2z hi ->
    target = (b2z hi - 0xc0) * 256 + b2z lo -> target < pos ->
    name_at raw target e' ls ->
    name_at raw pos (pos + 2) ls.

(** Bytes of a name on the wire without compression. *)
Fixpoint wire_size (ls : list (list byte)) : Z :=
  match ls with [] => 1 | l :: ls => 1 + len l + wire_size ls end.

Definition name_fits (n : ResourceName) : Prop :=
  wire_size (labels n) <= MAX_DNS_NAME_SIZE /\ Forall (fun l => 1 <= len l <= 63) (labels n).

Definition string8_bytes (s : list byte) : list byte := z2b (len s) :: s.

(** [occupies raw pos bs e]: the bytes of [raw] from [pos] to [e] are [bs]. *)
Definition occupies (raw : list byte) (pos : Z) (bs : list byte) (e : Z) : Prop :=
  took (mkDecoder raw pos) bs (mkDecoder raw e).

Inductive record_at (raw : list byte) : Z -> Z -> ResourceRecord -> Prop :=
| at_ds pos e key_tag algorithm digest_type digest :
    u16 key_tag -> len digest <= u8_max ->
    occupies raw pos (z2b 0 :: to_be_bytes 2 key_tag ++ algorithm :: digest_type ::
                      string8_bytes digest) e ->
    record_at raw pos e (Ds key_tag algorithm digest_type digest)
| at_ns pos e n :
    occupies raw pos [z2b 1] (pos + 1) -> name_at raw (pos + 1) e (labels n) -> name_fits n ->
    record_at raw pos e (Ns n)
| at_glue4 pos m e n address :
    occupies raw pos [z2b 2] (pos + 1) -> name_at raw (pos + 1) m (labels n) -> name_fits n ->
    occupies raw m address e -> len address = 4 ->
    record_at raw pos e (Glue4 n address)
| at_glue6 pos m e n address :
    occupies raw pos [z2b 3] (pos + 1) -> name_at raw (pos + 1) m (labels n) -> name_fits n ->
    occupies raw m address e -> len address = 16 ->
    record_at raw pos e (Glue6 n address)
| at_synth4 pos e address :
    occupies raw pos (z2b 4 :: address) e -> len address = 4 ->
    record_at raw pos e (Synth4 address)
| at_synth6 pos e address :
    occupies raw pos (z2b 5 :: address) e -> len address = 16 ->
    record_at raw pos e (Synth6 address)
| at_txt pos e strings :
    len strings <= u8_max -> Forall (fun s => len s <= u8_max) strings ->
    occupies raw pos (z2b 6 :: z2b (len strings) :: mjoin (string8_bytes <$> strings)) e ->
    record_at raw pos e (Txt strings).

(** Consecutive records that fill the input from [pos] to [e]. *)
Inductive records_at (raw : list byte) : Z -> Z -> list ResourceRecord -> Prop :=
| at_none pos : records_at raw pos pos []
| at_more pos m e r rs :
    record_at raw pos m r -> records_at raw m e rs -> records_at raw pos e (r :: rs).

(** ** The name loop *)
Definition name_inv (raw : list byte) (st : NameLoop) : Prop :=
  0 <= nl_position st /\ 1 <= nl_expanded_size st <= MAX_DNS_NAME_SIZE /\
  0 <= nl_pointer_count st <= MAX_DNS_POINTERS /\
  Forall (fun o => 0 <= o < len raw) (nl_literal_offsets st).

Definition name_measure (st : NameLoop) : Z :=
  (MAX_DNS_NAME_SIZE - nl_expanded_size st) + (MAX_DNS_POINTERS - nl_pointer_count st).

Lemma get_Some {A} (l : list A) i x : 0 <= i -> get l i = Some x -> i < len l.
Proof. unfold get, len. intros ? H. apply lookup_lt_Some in H. lia. Qed.

Lemma get_range_Some l a b s :
  0 <= a -> get_range l a b = Some s -> len s = b - a /\ a <= b <= len l.
Proof.
  unfold get_range. intros Ha. destruct (Z.leb_spec a b), (Z.leb_spec b (len l)); try done.
  cbn. intros [= <-]. unfold slice, len in *. rewrite length_take, length_drop. lia.
Qed.

Lemma land_c0 b : Z.land (b2z b) 0xc0 = 0 -> b2z b <= 63.
Proof. destruct b; vm_compute; congruence. Qed.
Lemma land_c0_pointer b :
  Z.land (b2z b) 0xc0 = 0xc0 -> 0xc0 <= b2z b /\ Z.land (b2z b) 0x3f = b2z b - 0xc0.
Proof. destruct b; vm_compute; split; congruence. Qed.

Lemma literal_step_break raw b st st' :
  literal_step raw b st = Ok (Break st') ->
  b2z b = 0 /\ nl_labels st' = nl_labels st /\ nl_expanded_size st' = nl_expanded_size st /\
  nl_literal_offsets st' = nl_literal_offsets st /\
  nl_encoded_end st' = or_else (nl_encoded_end st) (checked_add usize_max (nl_position st) 1).
Proof.
  unfold literal_step. destruct (Z.eqb_spec (b2z b) 0); [|intros; by inv_ok].
  intros [= <-]. auto.
Qed.

Lemma literal_step_continue raw b st st' :
  name_inv raw st -> get raw (nl_position st) = Some b ->
  literal_step raw b st = Ok (Continue st') ->
  exists l, 1 <= b2z b <= 63 /\
    get_range raw (nl_position st + 1) (nl_position st + 1 + b2z b) = Some l /\
    nl_position st' = nl_position st + 1 + b2z b /\ nl_labels st' = nl_labels st ++ [l] /\
    nl_encoded_end st' = nl_encoded_end st /\ len l = b2z b /\
    nl_expanded_size st' = nl_expanded_size st + 1 + len l /\
    name_inv raw st' /\ name_measure st' < name_measure st.
Proof.
  intros (P & X & C & O) G. unfold literal_step. pose proof (b2z_range b).
  destruct (Z.eqb_spec (b2z b) 0); [done|]. intros H0. inv_ok.
  repeat match goal with
  | H : checked_add _ _ _ = Some _ |- _ => apply checked_add_Some in H as (-> & ?)
  | H : (_ <=? _) = true |- _ => apply Z.leb_le in H
  end.
  pose proof (get_Some _ _ _ P G). match goal with H : get_range _ _ _ = Some ?l |- _ =>
    exists l; assert (R := H); apply get_range_Some in R as (? & ?); [|lia] end.
  unfold name_inv, name_measure. cbn. repeat split; try done; try lia.
  apply Forall_app. split; [done|]. by repeat constructor.
Qed.

Lemma pointer_step_break raw known b st st' :
  pointer_step raw known b st <> Ok (Break st').
Proof. unfold pointer_step. intros H. by inv_ok. Qed.

Lemma pointer_step_continue raw known b st st' :
  name_inv raw st -> pointer_step raw known b st = Ok (Continue st') ->
  Z.land (b2z b) 0xc0 = 0xc0 ->
  exists lo, get raw (nl_position st + 1) = Some lo /\ 0xc0 <= b2z b /\
    nl_position st' = (b2z b - 0xc0) * 256 + b2z lo /\ nl_position st' < nl_position st /\
    nl_labels st' = nl_labels st /\ nl_expanded_size st' = nl_expanded_size st /\
    nl_encoded_end st' = or_else (nl_encoded_end st) (checked_add usize_max (nl_position st) 2) /\
    name_inv raw st' /\ name_measure st' < name_measure st.
Proof.
  intros (P & X & C & O) H Hb. apply land_c0_pointer in Hb as (B & L). unfold pointer_step in H.
  inv_ok. match goal with H : get _ _ = Some ?l |- _ => exists l; pose proof (b2z_range l) end.
  rewrite L, lor_shiftl_add in * by (change (2 ^ 8) with 256; lia). change (2 ^ 8) with 256 in *.
  repeat match goal with
  | H : negb _ = true |- _ => apply negb_true_iff in H
  | H : _ || _ = false |- _ => apply orb_false_iff in H as (? & ?)
  | H : (_ <=? _) = false |- _ => apply Z.leb_gt in H
  end.
  unfold name_inv, name_measure. cbn. repeat split; try done; lia.
Qed.

Lemma name_step_measure raw known st st' :
  name_inv raw st -> name_step raw known st = Ok (Continue st') ->
  name_inv raw st' /\ name_measure st' < name_measure st.
Proof.
  intros I H. unfold name_step in H. inv_ok. repeat zcase.
  - apply literal_step_continue in H as (? & ?); [|done|done]. tauto.
  - apply pointer_step_continue in H as (? & ?); [|done|done]. tauto.
  - done.
Qed.

(** The loop ends within [NAME_FUEL] iterations. *)
Lemma name_loop_total raw known st fuel :
  name_inv raw st -> name_measure st < Z.of_nat fuel -> is_Some (name_loop fuel raw known st).
Proof.
  revert st; induction fuel as [|fuel IH]; intros st I M.
  { destruct I as (_ & ? & ? & _). unfold name_measure in M. lia. }
  cbn [name_loop]. destruct (name_step raw known st) as [[st'|st']|] eqn:E; eauto.
  apply name_step_measure in E as (I' & M'); [|done]. apply IH; [done|lia].
Qed.

Lemma or_else_default {A} (o o' : option A) x : o' = Some x -> or_else o o' = Some (default x o).
Proof. intros ->. by destruct o. Qed.

(** What the loop collects is the name the grammar finds at its position. *)
Lemma name_loop_sound raw known fuel st st' :
  len raw <= MAX_RESOURCE_SIZE -> name_inv raw st ->
  name_loop fuel raw known st = Some (Ok st') ->
  exists e ls, name_at raw (nl_position st) e ls /\ nl_labels st' = nl_labels st ++ ls /\
    nl_encoded_end st' = Some (default e (nl_encoded_end st)) /\
    nl_expanded_size st + wire_size ls <= MAX_DNS_NAME_SIZE + 1 /\
    Forall (fun l => 1 <= len l <= 63) ls /\
    Forall (fun o => 0 <= o < len raw) (nl_literal_offsets st').
Proof.
  intros R. revert st; induction fuel as [|fuel IH]; intros st I H; [done|].
  cbn [name_loop] in H. unfold name_step in H.
  assert (P0 := proj1 I). assert (X := proj1 (proj2 I)).
  destruct (get raw (nl_position st)) as [b|] eqn:G; [|done].
  pose proof (get_Some _ _ _ P0 G) as P1. unfold MAX_RESOURCE_SIZE in *.
  assert (forall n, 0 <= n <= 2 ->
    checked_add usize_max (nl_position st) n = Some (nl_position st + n)) as CA.
  { intros n ?. apply checked_add_Some. ulia. }
  cbn [ok_or mbind result_bind] in H.
  destruct (Z.eqb_spec (Z.land (b2z b) 0xc0) 0) as [Hz|]; [|destruct (Z.eqb_spec (Z.land (b2z b) 0xc0) 0xc0) as [Hc|]; [|done]].
  - destruct (literal_step raw b st) as [[s|s]|] eqn:E; [| |done].
    + injection H as <-. apply literal_step_break in E as (B & L & S & O & N).
      exists (nl_position st + 1), []. rewrite L, O, N, app_nil_r, (or_else_default _ _ _ (CA 1 ltac:(lia))).
      split; [constructor; by rewrite G, <- B, z2b_b2z|].
      repeat split; try done; [cbn [wire_size]; unfold MAX_DNS_NAME_SIZE in *; lia|apply I].
    + apply literal_step_continue in E as (l & B & GR & P & L & N & LL & S & I' & _); [|done|done].
      destruct (IH _ I' H) as (e & ls & NA & L2 & N2 & W2 & F2 & O2).
      exists e, (l :: ls). rewrite P in NA. rewrite L2, L, N2, N, <- app_assoc. cbn [app wire_size].
      split; [by eapply at_label|]. repeat split; try done; [lia|by constructor; [lia|]].
  - destruct (pointer_step raw known b st) as [[s|s]|] eqn:E; [| |done].
    { by apply pointer_step_break in E. }
    apply pointer_step_continue in E as (lo & GL & B & P & PL & L & S & N & I' & _); [|done|done].
    destruct (IH _ I' H) as (e & ls & NA & L2 & N2 & W2 & F2 & O2).
    exists (nl_position st + 2), ls.
    rewrite L2, L, N2, N, (or_else_default _ _ _ (CA 2 ltac:(lia))), <- S.
    split; [eapply (at_pointer _ _ e b lo (nl_position s)); done || lia|]. done.
Qed.

Lemma name_at_end raw pos e ls : 0 <= pos -> name_at raw pos e ls -> pos < e <= len raw.
Proof.
  intros P H. revert P. induction H as [pos G|pos e b l ls G B GR H IH|pos e' hi lo t ls G GL B -> L H IH];
    intros P.
  - apply get_Some in G; lia.
  - apply get_range_Some in GR; [|lia]. lia.
  - apply get_Some in GL; lia.
Qed.

#[global] Arguments name_loop : simpl never.

Lemma name_start_inv raw start : 0 <= start -> name_inv raw (name_start start).
Proof. intros. unfold name_inv, name_start, MAX_DNS_NAME_SIZE, MAX_DNS_POINTERS. cbn. auto with lia. Qed.

Lemma name_loop_start raw known start :
  0 <= start -> is_Some (name_loop NAME_FUEL raw known (name_start start)).
Proof. intros. apply name_loop_total; [by apply name_start_inv|]. by vm_compute. Qed.

Lemma took_input d bs d' : took d bs d' -> input d' = input d.
Proof. by intros (_ & -> & _). Qed.

Lemma took_occupies d bs d' :
  took d bs d' -> occupies (input d) (position d) bs (position d').
Proof.
  intros T. assert (I := took_input _ _ _ T). unfold occupies.
  destruct d, d'. cbn in *. by subst.
Qed.

Lemma decode_name_inv known d n known' d' :
  len (input d) <= MAX_RESOURCE_SIZE -> dec_wf d ->
  decode_name (input d) known d = (Ok (n, known'), d') ->
  name_at (input d) (position d) (position d') (labels n) /\ name_fits n /\
  dec_wf d' /\ input d' = input d.
Proof.
  intros Hraw W H. unfold decode_name in H. inv_dec. rename x0 into d.
  destruct (name_loop_start (input d) known (position d)) as (r & E); [apply W|].
  rewrite E in *. cbn in *. subst r.
  destruct (name_loop_sound _ _ _ _ _ Hraw (name_start_inv _ _ (proj1 (proj1 W))) E)
    as (e & ls & NA & L & N & X & F & _).
  cbn in *. pose proof (name_at_end _ _ _ _ (proj1 (proj1 W)) NA).
  repeat match goal with H : ok_or _ _ = Ok _ |- _ => apply ok_or_Ok in H end.
  simplify_eq.
  match goal with H : checked_sub _ _ = Some _ |- _ => apply checked_sub_Some in H as (-> & ?) end.
  match goal with H : read_slice _ _ = _ |- _ =>
    apply read_slice_inv in H as (T & Ln); [|lia|done] end.
  pose proof (took_position _ _ _ T) as P. rewrite P, Ln.
  rewrite Zplus_minus.
  split; [done|]. split; [split; cbn; [lia|done]|].
  split; [by eapply took_wf|by eapply took_input].
Qed.

Lemma read_string8_inv d s d' :
  dec_wf d -> read_string8 d = (Ok s, d') -> took d (string8_bytes s) d' /\ len s <= u8_max.
Proof.
  unfold read_string8. intros W H. inv_dec. took_all. pose proof (b2z_range x).
  apply read_bounded_vec_inv in H as (T & L & _); [|lia|done].
  split; [|ulia]. unfold string8_bytes. rewrite L, z2b_b2z. by apply (took_trans _ [_] _ _ _ H0).
Qed.

(** The end of a record decoded by plain reads, and of one that holds a name. *)
Lemma record_flat d bs d' r :
  took d bs d' ->
  (forall e, occupies (input d) (position d) bs e -> record_at (input d) (position d) e r) ->
  record_at (input d) (position d) (position d') r /\ dec_wf d' /\ input d' = input d.
Proof.
  intros T HP. split; [apply HP; by apply took_occupies|].
  split; [by eapply took_wf|by eapply took_input].
Qed.

Lemma decode_named d k d1 known n known' d2 :
  len (input d) <= MAX_RESOURCE_SIZE -> took d [k] d1 ->
  decode_name (input d) known d1 = (Ok (n, known'), d2) ->
  occupies (input d) (position d) [k] (position d + 1) /\
  name_at (input d) (position d + 1) (position d2) (labels n) /\ name_fits n /\
  dec_wf d2 /\ input d2 = input d.
Proof.
  intros L T H. pose proof (took_position _ _ _ T) as P. pose proof (took_input _ _ _ T) as I.
  rewrite (len_cons k []), len_nil in P.
  rewrite <- I in H, L. apply decode_name_inv in H; [|done|by eapply took_wf].
  apply took_occupies in T. rewrite P, I in *. tauto.
Qed.

Lemma decode_glue (C : ResourceName -> list byte -> ResourceRecord) m d k d1 known r known' d' :
  0 <= m -> len (input d) <= MAX_RESOURCE_SIZE -> took d [k] d1 ->
  ('(name_server, name_offsets) ← decode_name (input d) known;
   address ← lift_err CovDecode (read_array m);
   mret (C name_server address, name_offsets)) d1 = (Ok (r, known'), d') ->
  (exists n address mid, r = C n address /\
    occupies (input d) (position d) [k] (position d + 1) /\
    name_at (input d) (position d + 1) mid (labels n) /\ name_fits n /\
    occupies (input d) mid address (position d') /\ len address = m) /\
  dec_wf d' /\ input d' = input d.
Proof.
  intros Hm L T H. apply dec_bind_Ok in H as ([n o] & d2 & HN & H). inv_dec.
  eapply decode_named in HN as (? & ? & ? & ? & I2); [|done|done]. took_all.
  match goal with T : took d2 _ _ |- _ =>
    pose proof (took_input _ _ _ T); pose proof (took_occupies _ _ _ T) as O2 end.
  rewrite I2 in *. split; [|done]. eauto 10.
Qed.

Lemma decode_record_inv known d r known' d' :
  len (input d) <= MAX_RESOURCE_SIZE -> dec_wf d ->
  decode_record (input d) known d = (Ok (r, known'), d') ->
  record_at (input d) (position d) (position d') r /\ dec_wf d' /\ input d' = input d.
Proof.
  intros Hraw W H. unfold decode_record in H.
  apply dec_bind_Ok in H as (k & d1 & HK & H). inv_dec. took_all.
  destruct (b2z k) as [|p|p] eqn:K; [| |pose proof (b2z_range k); lia].
  2: destruct p as [[[?|?|]|[?|?|]|]|[[?|?|]|[?|?|]|]|]; try (by inv_dec).
  all: assert (E := z2b_b2z k); rewrite K in E; subst k; clear K.
  - (* DS *)
    inv_dec. took_all.
    match goal with H : read_string8 _ = _ |- _ => apply read_string8_inv in H as (? & ?); [|done] end.
    eapply record_flat; [took_chain|]. intros e O.
    match goal with H : len ?t = 2 |- _ => pose proof (from_be_bytes_range t); rewrite H in * end.
    apply at_ds; [ulia|done|]. rewrite to_from_be_bytes_len by (unfold len in *; lia). exact O.
  - (* SYNTH6 *)
    inv_dec. took_all. eapply record_flat; [took_chain|]. intros. by apply at_synth6.
  - (* GLUE6 *) 
    eapply (decode_glue Glue6) in H as ((? & ? & ? & -> & ? & ? & ? & ? & ?) & ?); [|lia|done|done].
    split; [by eapply at_glue6|done].
  - (* TXT *)
    inv_dec. took_all.
    match goal with H : read_n _ _ _ = _ |- _ =>
      eapply (read_n_inv _ string8_bytes (fun s => len s <= u8_max)) in H as (? & ? & Hn);
        [|apply read_string8_inv|done] end.
    match goal with H : took d1 [?c] _ |- _ => pose proof (b2z_range c) end.
    eapply record_flat; [took_chain|]. intros e O.
    apply at_txt; [unfold len; ulia|done|].
    unfold len. rewrite Hn, Z2Nat.id, z2b_b2z by lia. exact O.
  - (* SYNTH4 *)
    inv_dec. took_all. eapply record_flat; [took_chain|]. intros. by apply at_synth4.
  - (* GLUE4 *) 
    eapply (decode_glue Glue4) in H as ((? & ? & ? & -> & ? & ? & ? & ? & ?) & ?); [|lia|done|done].
    split; [by eapply at_glue4|done].
  - (* NS *)
    apply dec_bind_Ok in H as ([n k] & d2 & HN & H). inv_dec.
    eapply decode_named in HN as (? & ? & ? & ? & I2); [|done|done].
    split; [by eapply at_ns|done].
Qed.

Lemma record_at_end raw pos e r : 0 <= pos -> record_at raw pos e r -> pos < e <= len raw.
Proof.
  assert (forall pos bs e, occupies raw pos bs e -> e = pos + len bs /\ e <= len raw) as O.
  { intros p bs e' T. pose proof (took_position _ _ _ T). apply took_wf in T as (? & _).
    cbn in *. lia. }
  intros P H. destruct H; repeat match goal with
  | H : occupies _ _ _ _ |- _ => apply O in H as (? & ?)
  | H : name_at _ _ _ _ |- _ => apply name_at_end in H; [|lia]
  end; unfold string8_bytes in *; rewrite ?len_app, ?len_cons, ?len_nil in *;
    repeat match goal with H : context [len ?l] |- _ =>
      lazymatch goal with _ : 0 <= len l |- _ => fail | _ => pose proof (len_nonneg l) end
    end; lia.
Qed.

(** Each iteration consumes input, so [length raw] iterations are enough. *)
Lemma records_loop_total fuel known d :
  len (input d) <= MAX_RESOURCE_SIZE -> dec_wf d -> remaining d <= Z.of_nat fuel ->
  is_Some (records_loop fuel (input d) known d).
Proof.
  revert known d; induction fuel as [|fuel IH]; intros known d L W R; cbn [records_loop].
  all: destruct (Z.eqb_spec (remaining d) 0); [eauto|].
  { destruct W. unfold remaining in *. lia. }
  destruct (decode_record (input d) known d) as [[[r known']|e] d'] eqn:E; [|eauto].
  apply decode_record_inv in E as (RA & W' & I'); [|done|done].
  apply record_at_end in RA; [|apply W].
  destruct (IH known' d') as ([[rs|e] d''] & E2).
  - by rewrite I'.
  - done.
  - unfold remaining in *. rewrite I' in *. lia.
  - rewrite I' in E2. rewrite E2. eauto.
  - rewrite I' in E2. rewrite E2. eauto.
Qed.

Lemma records_loop_sound fuel known d rs d' :
  len (input d) <= MAX_RESOURCE_SIZE -> dec_wf d ->
  records_loop fuel (input d) known d = Some (Ok rs, d') ->
  records_at (input d) (position d) (len (input d)) rs.
Proof.
  revert known d rs; induction fuel as [|fuel IH]; intros known d rs L W H; cbn [records_loop] in H.
  all: destruct (Z.eqb_spec (remaining d) 0) as [R|R];
    [injection H as <- <-; unfold remaining in R; replace (position d) with (len (input d)) by lia;
     constructor|try done].
  destruct (decode_record (input d) known d) as [[[r known']|e] d1] eqn:E; [|done].
  apply decode_record_inv in E as (RA & W' & I'); [|done|done].
  destruct (records_loop fuel (input d) known' d1) as [[[rs'|?] d2]|] eqn:E2; [|done|done].
  injection H as <- <-. rewrite <- I' in E2. apply IH in E2; [|by rewrite I'|done].
  rewrite I' in E2. by eapply at_more.
Qed.

Lemma decode_records_Ok raw rs :
  decode_records raw = Ok rs ->
  len raw <= MAX_RESOURCE_SIZE /\ get raw 0 = Some (z2b 0) /\ records_at raw 1 (len raw) rs.
Proof.
  unfold decode_records. intros H. apply bind_Ok in H as (u & L & H).
  apply assert_or_Ok, Z.leb_le in L.
  assert (dec_wf (Decoder_new raw)) as W by (apply wf_new; unfold MAX_RESOURCE_SIZE in *; ulia).
  match type of H with fst ?m = _ => destruct m as [r d] eqn:M end. cbn in H. subst r.
  apply dec_bind_Ok in M as (v & d1 & HV & M). inv_dec. took_all.
  match goal with H : assert_or _ _ = Ok _ |- _ => apply assert_or_Ok, Z.eqb_eq in H as E end.
  unfold RESOURCE_VERSION in E. rename d1 into d0.
  match goal with H : default _ (records_loop _ _ _ ?x) = _ |- _ =>
    rename x into d1; rename H into HL end.
  pose proof (took_position _ _ _ HV) as P. pose proof (took_input _ _ _ HV) as I. cbn in I.
  destruct (records_loop (length raw) raw no_offsets d1) as [o|] eqn:EL; [|done].
  cbn in HL. subst o. rewrite <- I in EL at 2. apply records_loop_sound in EL; [|by rewrite I|done].
  rewrite I, P in EL. split; [done|]. split; [|exact EL].
  destruct HV as (R & _). rewrite rest_new in R. rewrite R. unfold get. cbn.
  by rewrite <- (z2b_b2z v), E.
Qed.

Lemma Resource_decode_sound raw0 r :
  Resource_decode raw0 = Ok r ->
  raw r = raw0 /\ len raw0 <= MAX_RESOURCE_SIZE /\ get raw0 0 = Some (z2b 0) /\
  records_at raw0 1 (len raw0) (records r).
Proof.
  unfold Resource_decode, Resource_new. intros H. inv_ok.
  match goal with H : decode_records _ = Ok _ |- _ => apply decode_records_Ok in H end. tauto.
Qed.

(** ** Properties *)

(** A resource that decodes is a grammatical one: a version byte, then
    records that fill the input to its last byte, where every name is the
    expansion of its (possibly compressed) spelling, has labels of 1 to 63
    bytes and at most 255 wire bytes; and re-encoding returns the exact input. *)
Theorem resource_decode_sound raw0 r :
  Resource_decode raw0 = Ok r ->
  Resource_encode r = raw0 /\ len raw0 <= MAX_RESOURCE_SIZE /\ get raw0 0 = Some (z2b 0) /\
  records_at raw0 1 (len raw0) (records r).
Proof. apply Resource_decode_sound. Qed.

(** The resource of the crate's HSD fixture, one record of each kind. *)
Definition resource_all_records : list byte :=
  octets [0; 0; 18; 52; 13; 2; 16; 0; 17; 34; 51; 68; 85; 102; 119; 136; 153; 170; 187;
   204; 221; 238; 255; 1; 3; 110; 115; 49; 7; 101; 120; 97; 109; 112; 108; 101; 0; 2; 192;
   24; 192; 0; 2; 1; 3; 3; 110; 115; 50; 192; 28; 32; 1; 13; 184; 0; 0; 0; 0; 0; 0; 0; 0;
   0; 0; 0; 83; 4; 198; 51; 100; 7; 5; 32; 1; 13; 184; 0; 0; 0; 0; 0; 0; 0; 0; 0; 0; 0; 7;
   6; 2; 6; 119; 97; 108; 108; 101; 116; 5; 112; 114; 111; 111; 102].

Lemma resource_decode_sound_witness :
  records_at resource_all_records 1 104
    [Ds 0x1234 (z2b 13) (z2b 2) (octets [0; 17; 34; 51; 68; 85; 102; 119; 136; 153; 170; 187; 204; 221; 238; 255]);
     Ns (mkResourceName [bstr "ns1"; bstr "example"]);
     Glue4 (mkResourceName [bstr "ns1"; bstr "example"]) (octets [192; 0; 2; 1]);
     Glue6 (mkResourceName [bstr "ns2"; bstr "example"])
       (octets [32; 1; 13; 184; 0; 0; 0; 0; 0; 0; 0; 0; 0; 0; 0; 83]);
     Synth4 (octets [198; 51; 100; 7]);
     Synth6 (octets [32; 1; 13; 184; 0; 0; 0; 0; 0; 0; 0; 0; 0; 0; 0; 7]);
     Txt [bstr "wallet"; bstr "proof"]].
Proof.
  refine (proj2 (proj2 (proj2 (resource_decode_sound resource_all_records
    (mkResource resource_all_records _) _)))). vm_compute. reflexivity.
Defined.

(** Both loops of the resource decoder end: resolving a compressed name
    takes at most [NAME_FUEL] steps from any offset and whatever offsets are
    known, and the record loop takes at most one step per input byte. *)
Theorem resource_decode_terminates raw0 known :
  len raw0 <= MAX_RESOURCE_SIZE ->
  (forall start, 0 <= start -> is_Some (name_loop NAME_FUEL raw0 known (name_start start))) /\
  (forall pos, 0 <= pos <= len raw0 ->
     is_Some (records_loop (length raw0) raw0 known (mkDecoder raw0 pos))).
Proof.
  intros L. split; [intros; by apply name_loop_start|]. intros pos Hp.
  apply (records_loop_total (length raw0) known (mkDecoder raw0 pos)); cbn; [done| |].
  - split; cbn; [done|]. unfold MAX_RESOURCE_SIZE in *. ulia.
  - unfold remaining, len. cbn. unfold len in *. lia.
Qed.

Lemma resource_decode_terminates_witness :
  is_Some (name_loop NAME_FUEL resource_all_records no_offsets (name_start 24)) /\
  is_Some (records_loop (length resource_all_records) resource_all_records no_offsets
    (mkDecoder resource_all_records 1)).
Proof.
  destruct (resource_decode_terminates resource_all_records no_offsets) as (A & B).
  - vm_compute. discriminate.
  - split; [apply A; lia|apply B]. split; vm_compute; discriminate.
Defined.
