(* ===== verification/NameState.v ===== *)
(** * hns-covenants: authenticated name state

    Models [crates/hns-covenants/src/name_state.rs]: the value HSD writes in the
    authenticated tree for a name, its bitmap of optional fields, the binding
    of the value to its tree key, and the strict decoder that re-encodes what it
    decoded and compares. *)

From S2P Require Import Prelude Encoding Primitives Covenants Resource.
Local Open Scope Z_scope.

Definition NAME_STATE_FIELD_MASK : Z := Z.shiftl 1 10 - 1.
Definition MAX_NAME_STATE_SIZE : Z := 668.
Definition HSD_MAX_SAFE_INTEGER : Z := Z.shiftl 1 53 - 1.

Record NameState := mkNameState {
  ns_name_hash : list byte;
  ns_name : list byte;
  ns_height : Z;
  ns_renewal : Z;
  ns_owner : Outpoint;
  ns_value : Z;
  ns_highest : Z;
  ns_resource_data : list byte;
  ns_transfer : Z;
  ns_revoked : Z;
  ns_claimed : Z;
  ns_renewals : Z;
  ns_registered : bool;
  ns_expired : bool;
  ns_weak : bool;
}.

#[global] Instance NameState_eq_dec : EqDecision NameState.
Proof. solve_decision. Defined.

Definition NameState_null (name_hash : list byte) : NameState :=
  mkNameState name_hash [] 0 0 Outpoint_NULL 0 0 [] 0 0 0 0 false false false.

Definition NameState_is_null (s : NameState) : bool :=
  (ns_height s =? 0) && (ns_renewal s =? 0) && Outpoint_is_null (ns_owner s)
  && (ns_value s =? 0) && (ns_highest s =? 0) && (len (ns_resource_data s) =? 0)
  && (ns_transfer s =? 0) && (ns_revoked s =? 0) && (ns_claimed s =? 0)
  && (ns_renewals s =? 0) && negb (ns_registered s) && negb (ns_expired s) && negb (ns_weak s).

Definition NameState_owner_outpoint (s : NameState) : option Outpoint :=
  if negb (Outpoint_is_null (ns_owner s)) then Some (ns_owner s) else None.

Definition NameState_resource (s : NameState) : result CovenantError (option Resource) :=
  if len (ns_resource_data s) =? 0 then Ok None
  else r ← Resource_decode (ns_resource_data s); Ok (Some r).

Definition validate_lengths (name_length resource_length : Z) : result CovenantError unit :=
  assert_or (name_length <=? MAX_NAME_SIZE) (CovTooLarge name_length MAX_NAME_SIZE) ;;
  assert_or (resource_length <=? MAX_RESOURCE_SIZE)
    (CovTooLarge resource_length MAX_RESOURCE_SIZE).

Definition validate_safe_integer (value : Z) : result CovenantError unit :=
  assert_or (value <=? HSD_MAX_SAFE_INTEGER)
    (InvalidNameState "compact integer exceeds HSD's safe-integer range").

Definition read_safe_integer : decM CovenantError Z :=
  value ← lift_err CovDecode read_compact_size;
  lift_res (validate_safe_integer value) ;;
  mret value.

Definition read_u32_compact (overflow_reason : string) : decM CovenantError Z :=
  value ← lift_err CovDecode read_compact_size;
  lift_res (if value <=? u32_max then Ok value else Err (InvalidNameState overflow_reason)).

(** [if b { field |= 1 << k }] and [field & (1 << k) != 0] *)
Definition set_flag (k : Z) (b : bool) (field : Z) : Z :=
  if b then Z.lor field (Z.shiftl 1 k) else field.
Definition has_flag (field k : Z) : bool := negb (Z.land field (Z.shiftl 1 k) =? 0).

Definition NameState_field (s : NameState) : Z :=
  set_flag 9 (ns_weak s)
  (set_flag 8 (ns_expired s)
  (set_flag 7 (ns_registered s)
  (set_flag 6 (negb (ns_renewals s =? 0))
  (set_flag 5 (negb (ns_claimed s =? 0))
  (set_flag 4 (negb (ns_revoked s =? 0))
  (set_flag 3 (negb (ns_transfer s =? 0))
  (set_flag 2 (negb (ns_highest s =? 0))
  (set_flag 1 (negb (ns_value s =? 0))
  (set_flag 0 (negb (Outpoint_is_null (ns_owner s))) 0))))))))).

(** [if b { encoder.put(..) }] *)
Definition put_if (b : bool) (put : Encoder -> Encoder) (e : Encoder) : Encoder :=
  if b then put e else e.

Definition put_name_state (e : Encoder) (s : NameState) : Encoder :=
  let e := put_u8 e (z2b (len (ns_name s))) in
  let e := put_bytes e (ns_name s) in
  let e := put_u16_le e (wrap 16 (len (ns_resource_data s))) in
  let e := put_bytes e (ns_resource_data s) in
  let e := put_u32_le e (ns_height s) in
  let e := put_u32_le e (ns_renewal s) in
  let e := put_u16_le e (NameState_field s) in
  let e := put_if (negb (Outpoint_is_null (ns_owner s)))
    (fun e => put_compact_size (put_bytes e (transaction_hash (ns_owner s)))
                (index (ns_owner s))) e in
  let e := put_if (negb (ns_value s =? 0)) (fun e => put_compact_size e (ns_value s)) e in
  let e := put_if (negb (ns_highest s =? 0)) (fun e => put_compact_size e (ns_highest s)) e in
  let e := put_if (negb (ns_transfer s =? 0)) (fun e => put_u32_le e (ns_transfer s)) e in
  let e := put_if (negb (ns_revoked s =? 0)) (fun e => put_u32_le e (ns_revoked s)) e in
  let e := put_if (negb (ns_claimed s =? 0)) (fun e => put_u32_le e (ns_claimed s)) e in
  put_if (negb (ns_renewals s =? 0)) (fun e => put_compact_size e (ns_renewals s)) e.

(** [let x = if flag { read } else { default }] *)
Definition read_if {E A} (b : bool) (m : decM E A) (absent : A) : decM E A :=
  if b then m else mret absent.

Definition read_owner : decM CovenantError Outpoint :=
  transaction_hash ← lift_err CovDecode (read_array 32);
  index ← read_u32_compact "owner index exceeds u32";
  mret (mkOutpoint transaction_hash index).

(** [decode] up to the construction of the state. *)
Definition read_name_state (name_hash : list byte) : decM CovenantError NameState :=
  name_length ← lift_err CovDecode read_u8;
  lift_res (assert_or (b2z name_length <=? MAX_NAME_SIZE)
    (InvalidNameState "name exceeds 63 bytes")) ;;
  name ← lift_err CovDecode (read_bounded_vec (b2z name_length) MAX_NAME_SIZE);
  resource_length ← lift_err CovDecode read_u16_le;
  lift_res (assert_or (resource_length <=? MAX_RESOURCE_SIZE)
    (InvalidNameState "resource data exceeds 512 bytes")) ;;
  resource_data ← lift_err CovDecode (read_bounded_vec resource_length MAX_RESOURCE_SIZE);
  height ← lift_err CovDecode read_u32_le;
  renewal ← lift_err CovDecode read_u32_le;
  field ← lift_err CovDecode read_u16_le;
  lift_res (assert_or (Z.land field (u16_max - NAME_STATE_FIELD_MASK) =? 0)
    (InvalidNameState "optional-field bitmap contains unknown bits")) ;;
  owner ← read_if (has_flag field 0) read_owner Outpoint_NULL;
  value ← read_if (has_flag field 1) read_safe_integer 0;
  highest ← read_if (has_flag field 2) read_safe_integer 0;
  transfer ← read_if (has_flag field 3) (lift_err CovDecode read_u32_le) 0;
  revoked ← read_if (has_flag field 4) (lift_err CovDecode read_u32_le) 0;
  claimed ← read_if (has_flag field 5) (lift_err CovDecode read_u32_le) 0;
  renewals ← read_if (has_flag field 6) (read_u32_compact "renewal count exceeds u32") 0;
  mret (mkNameState name_hash name height renewal owner value highest resource_data
    transfer revoked claimed renewals (has_flag field 7) (has_flag field 8) (has_flag field 9)).

Section keyed.
Context `{!Crypto}.

Definition validate_key_binding (s : NameState) : result CovenantError unit :=
  if negb (NameState_is_null s) then
    h ← hash_name (ns_name s);
    assert_or (bool_decide (h = ns_name_hash s)) NameStateHashMismatch
  else Ok tt.

Definition NameState_encode (s : NameState) : result CovenantError (list byte) :=
  validate_lengths (len (ns_name s)) (len (ns_resource_data s)) ;;
  validate_safe_integer (ns_value s) ;;
  validate_safe_integer (ns_highest s) ;;
  validate_key_binding s ;;
  Ok (into_bytes (put_name_state (with_capacity MAX_NAME_STATE_SIZE) s)).

Definition NameState_decode (name_hash input : list byte) : result CovenantError NameState :=
  assert_or (len input <=? MAX_NAME_STATE_SIZE) (CovTooLarge (len input) MAX_NAME_STATE_SIZE) ;;
  state ← run_all CovDecode (read_name_state name_hash) input;
  validate_key_binding state ;;
  encoded ← NameState_encode state;
  assert_or (bool_decide (encoded = input)) NonCanonicalNameState ;;
  Ok state.

End keyed.

(** The field types. *)
Definition NameState_wf (s : NameState) : Prop :=
  length (ns_name_hash s) = 32%nat /\ u32 (ns_height s) /\ u32 (ns_renewal s) /\
  Outpoint_wf (ns_owner s) /\ u64 (ns_value s) /\ u64 (ns_highest s) /\ u32 (ns_transfer s) /\
  u32 (ns_revoked s) /\ u32 (ns_claimed s) /\ u32 (ns_renewals s).

(** ** The bitmap *)
Lemma has_flag_testbit f k : 0 <= k -> has_flag f k = Z.testbit f k.
Proof. apply land_bit. Qed.

Lemma testbit_set_flag j b f k :
  0 <= j -> Z.testbit (set_flag j b f) k = (b && (j =? k)) || Z.testbit f k.
Proof.
  intros. unfold set_flag. destruct b; [|done]. rewrite Z.lor_spec, Z.shiftl_1_l, Z.pow2_bits_eqb by done.
  apply orb_comm.
Qed.

Lemma NameState_field_range s :
  u16 (NameState_field s) /\
  Z.land (NameState_field s) (u16_max - NAME_STATE_FIELD_MASK) = 0.
Proof.
  unfold NameState_field.
  generalize (ns_weak s), (ns_expired s), (ns_registered s), (ns_renewals s =? 0),
    (ns_claimed s =? 0), (ns_revoked s =? 0), (ns_transfer s =? 0), (ns_highest s =? 0),
    (ns_value s =? 0), (Outpoint_is_null (ns_owner s)).
  intros [] [] [] [] [] [] [] [] [] []; split; [split; vm_compute; discriminate|reflexivity|..];
    first [reflexivity | split; vm_compute; discriminate].
Qed.

(** Reading the flags back gives the conditions they were set from. *)
Lemma NameState_field_flags s :
  let f := NameState_field s in
  has_flag f 0 = negb (Outpoint_is_null (ns_owner s)) /\ has_flag f 1 = negb (ns_value s =? 0) /\
  has_flag f 2 = negb (ns_highest s =? 0) /\ has_flag f 3 = negb (ns_transfer s =? 0) /\
  has_flag f 4 = negb (ns_revoked s =? 0) /\ has_flag f 5 = negb (ns_claimed s =? 0) /\
  has_flag f 6 = negb (ns_renewals s =? 0) /\ has_flag f 7 = ns_registered s /\
  has_flag f 8 = ns_expired s /\ has_flag f 9 = ns_weak s.
Proof.
  cbv zeta. rewrite !has_flag_testbit by lia. unfold NameState_field.
  rewrite !testbit_set_flag by lia. cbn. rewrite !andb_false_r, !andb_true_r, !orb_false_r.
  repeat split.
Qed.

(** ** The encoding as a byte string *)
Definition opt_bytes (b : bool) (bs : list byte) : list byte := if b then bs else [].

Definition ns_bytes (s : NameState) : list byte :=
  [z2b (len (ns_name s))] ++ ns_name s ++
  to_le_bytes 2 (wrap 16 (len (ns_resource_data s))) ++ ns_resource_data s ++
  to_le_bytes 4 (ns_height s) ++ to_le_bytes 4 (ns_renewal s) ++
  to_le_bytes 2 (NameState_field s) ++
  opt_bytes (negb (Outpoint_is_null (ns_owner s)))
    (transaction_hash (ns_owner s) ++ compact_bytes (index (ns_owner s))) ++
  opt_bytes (negb (ns_value s =? 0)) (compact_bytes (ns_value s)) ++
  opt_bytes (negb (ns_highest s =? 0)) (compact_bytes (ns_highest s)) ++
  opt_bytes (negb (ns_transfer s =? 0)) (to_le_bytes 4 (ns_transfer s)) ++
  opt_bytes (negb (ns_revoked s =? 0)) (to_le_bytes 4 (ns_revoked s)) ++
  opt_bytes (negb (ns_claimed s =? 0)) (to_le_bytes 4 (ns_claimed s)) ++
  opt_bytes (negb (ns_renewals s =? 0)) (compact_bytes (ns_renewals s)).

Definition ns_fits (s : NameState) : Prop :=
  len (ns_name s) <= MAX_NAME_SIZE /\ len (ns_resource_data s) <= MAX_RESOURCE_SIZE /\
  ns_value s <= HSD_MAX_SAFE_INTEGER /\ ns_highest s <= HSD_MAX_SAFE_INTEGER.

Lemma bytes_put_if b put bs e :
  (forall e, bytes (put e) = bytes e ++ bs) ->
  bytes (put_if b put e) = bytes e ++ opt_bytes b bs.
Proof. intros H. destruct b; cbn; [by rewrite H|by rewrite app_nil_r]. Qed.

Lemma bytes_put_name_state e s : bytes (put_name_state e s) = bytes e ++ ns_bytes s.
Proof.
  unfold put_name_state, ns_bytes. cbv zeta.
  repeat (erewrite bytes_put_if;
    [|intros; autorewrite with enc; rewrite <- ?app_assoc; reflexivity]).
  autorewrite with enc. by rewrite <- !app_assoc.
Qed.
#[export] Hint Rewrite bytes_put_name_state : enc.

Lemma reads_if {E A} d b (m : decM E A) bs v absent :
  (b = true -> reads d m bs v) -> (b = false -> v = absent) ->
  reads d (read_if b m absent) (opt_bytes b bs) v.
Proof. destruct b; cbn; intros H1 H2; [by apply H1|]. rewrite H2 by done. apply reads_ret. Qed.

Lemma read_safe_integer_reads d v :
  u64 v -> v <= HSD_MAX_SAFE_INTEGER -> reads d read_safe_integer (compact_bytes v) v.
Proof.
  intros. unfold read_safe_integer. rewrite <- (app_nil_r (compact_bytes v)).
  eapply reads_bind; [by apply reads_err, read_compact_reads|].
  eapply reads_nil_bind; [by apply reads_assert, Z.leb_le|apply reads_ret].
Qed.

Lemma read_u32_compact_reads d v reason :
  u32 v -> reads d (read_u32_compact reason) (compact_bytes v) v.
Proof.
  intros. unfold read_u32_compact. rewrite <- (app_nil_r (compact_bytes v)).
  eapply reads_bind; [apply reads_err, read_compact_reads; ulia|].
  apply reads_res. rewrite (proj2 (Z.leb_le _ _)) by ulia. done.
Qed.

Lemma read_owner_reads d o :
  Outpoint_wf o -> reads d read_owner (transaction_hash o ++ compact_bytes (index o)) o.
Proof.
  intros (L & R). unfold read_owner. eapply reads_bind.
  { apply reads_err, read_array_reads. unfold len. lia. }
  rewrite <- (app_nil_r (compact_bytes _)).
  eapply reads_bind; [by apply read_u32_compact_reads|]. destruct o. apply reads_ret.
Qed.

Lemma negb_eqb_0 v : negb (v =? 0) = false -> v = 0.
Proof. rewrite negb_false_iff. apply Z.eqb_eq. Qed.
#[local] Hint Resolve negb_eqb_0 read_safe_integer_reads read_u32_compact_reads read_owner_reads : codec.

Lemma read_name_state_reads d s :
  NameState_wf s -> ns_fits s -> reads d (read_name_state (ns_name_hash s)) (ns_bytes s) s.
Proof.
  intros (Hh & H1 & H2 & Ho & H3 & H4 & H5 & H6 & H7 & H8) (F1 & F2 & F3 & F4).
  pose proof (len_nonneg (ns_name s)). pose proof (len_nonneg (ns_resource_data s)).
  unfold MAX_NAME_SIZE, MAX_RESOURCE_SIZE in *.
  destruct (NameState_field_range s) as (Fr & Fm).
  destruct (NameState_field_flags s) as (f0 & f1 & f2 & f3 & f4 & f5 & f6 & f7 & f8 & f9).
  unfold read_name_state, ns_bytes, wrap. rewrite Z.mod_small by (change (2 ^ 16) with 65536; lia).
  reads_step. rewrite z2b_small by lia.
  eapply reads_nil_bind; [apply reads_assert, Z.leb_le; done|].
  eapply reads_bind; [by apply reads_err, read_bounded_vec_reads|].
  eapply reads_bind; [apply reads_err, read_u16_reads; ulia|].
  eapply reads_nil_bind; [apply reads_assert, Z.leb_le; done|].
  eapply reads_bind; [by apply reads_err, read_bounded_vec_reads|].
  do 3 reads_step.
  eapply reads_nil_bind; [apply reads_assert, Z.eqb_eq; done|].
  rewrite f0, f1, f2, f3, f4, f5, f6, f7, f8, f9.
  eapply reads_bind.
  { apply reads_if; [eauto with codec|]. intros N. apply negb_false_iff in N.
    by apply Outpoint_is_null_spec. }
  do 5 (eapply reads_bind; [apply reads_if; eauto with codec|]).
  eapply reads_last; [apply reads_if; eauto with codec|]. destruct s. apply reads_ret.
Qed.

Lemma len_opt_bytes b bs n : len bs <= n -> len (opt_bytes b bs) <= n.
Proof. pose proof (len_nonneg bs). destruct b; cbn; [done|]. rewrite len_nil. lia. Qed.

Lemma compact_u32_len v : u32 v -> compact_size_len v <= 5.
Proof. unfold compact_size_len. intros. repeat zcase; ulia. Qed.

(** The largest encoding is eight bytes below the advertised maximum. *)
Lemma ns_bytes_size s : NameState_wf s -> ns_fits s -> len (ns_bytes s) <= 660.
Proof.
  intros (Hh & H1 & H2 & Ho & H3 & H4 & H5 & H6 & H7 & H8) (F1 & F2 & F3 & F4).
  destruct Ho as (Lo & Io). unfold MAX_NAME_SIZE, MAX_RESOURCE_SIZE in *. unfold ns_bytes.
  assert (forall b v, len (opt_bytes b (compact_bytes v)) <= 9) as C.
  { intros. apply len_opt_bytes. rewrite len_compact_bytes. apply compact_size_len_range. }
  assert (forall b v, len (opt_bytes b (to_le_bytes 4 v)) <= 4) as Q.
  { intros. apply len_opt_bytes. by rewrite len_to_le_bytes. }
  assert (forall b v, u32 v -> len (opt_bytes b (compact_bytes v)) <= 5) as R.
  { intros. apply len_opt_bytes. rewrite len_compact_bytes. by apply compact_u32_len. }
  assert (forall b, len (opt_bytes b (transaction_hash (ns_owner s) ++
            compact_bytes (index (ns_owner s)))) <= 37) as O.
  { intros. apply len_opt_bytes. rewrite len_app, len_compact_bytes.
    pose proof (compact_u32_len _ Io). unfold len. lia. }
  rewrite !len_app, len_cons, len_nil, !len_to_le_bytes.
  pose proof (R (negb (ns_renewals s =? 0)) (ns_renewals s) H8).
  pose proof (Q (negb (ns_claimed s =? 0)) (ns_claimed s)).
  pose proof (Q (negb (ns_revoked s =? 0)) (ns_revoked s)).
  pose proof (Q (negb (ns_transfer s =? 0)) (ns_transfer s)).
  pose proof (C (negb (ns_highest s =? 0)) (ns_highest s)).
  pose proof (C (negb (ns_value s =? 0)) (ns_value s)).
  pose proof (O (negb (Outpoint_is_null (ns_owner s)))). lia.
Qed.

(** ** Decoding restores the field types *)
Lemma read_if_inv {E A} (P : A -> Prop) b (m : decM E A) absent d v d' :
  (forall v d', m d = (Ok v, d') -> dec_wf d' /\ P v) -> P absent -> dec_wf d ->
  read_if b m absent d = (Ok v, d') -> dec_wf d' /\ P v.
Proof. destruct b; cbn; intros Hm Ha W H; [by apply Hm|]. by inv_dec. Qed.

Lemma read_u32_compact_inv reason d v d' :
  dec_wf d -> read_u32_compact reason d = (Ok v, d') -> dec_wf d' /\ u32 v.
Proof.
  unfold read_u32_compact. intros W H. inv_dec. took_all. zcase; [|done]. inv_ok. split; [done|ulia].
Qed.

Lemma read_optional_inv b reason d v d' :
  dec_wf d ->
  (read_if b (lift_err CovDecode read_u32_le) 0 d = (Ok v, d') -> dec_wf d' /\ u32 v) /\
  (read_if b read_safe_integer 0 d = (Ok v, d') -> dec_wf d' /\ u64 v) /\
  (read_if b (read_u32_compact reason) 0 d = (Ok v, d') -> dec_wf d' /\ u32 v).
Proof.
  intros W. split; [|split]; apply read_if_inv; try done; try ulia.
  - intros ? ? H. inv_dec. by took_all.
  - unfold read_safe_integer. intros ? ? H. inv_dec. by took_all.
  - intros. by eapply read_u32_compact_inv.
Qed.

Lemma read_owner_inv b d v d' :
  dec_wf d -> read_if b read_owner Outpoint_NULL d = (Ok v, d') -> dec_wf d' /\ Outpoint_wf v.
Proof.
  intros W. apply read_if_inv; [|apply Outpoint_NULL_wf|done].
  unfold read_owner. intros ? ? H. inv_dec. took_all.
  match goal with H : read_u32_compact _ _ = _ |- _ =>
    apply read_u32_compact_inv in H as (? & ?); [|done] end.
  split; [done|]. split; cbn; [unfold len in *; lia|done].
Qed.

Lemma read_name_state_wf h d s d' :
  length h = 32%nat -> dec_wf d -> read_name_state h d = (Ok s, d') ->
  NameState_wf s /\ ns_name_hash s = h.
Proof.
  intros Hh W H. unfold read_name_state in H. inv_dec.
  repeat first [took_step | match goal with
  | W : dec_wf ?d, H : read_bounded_vec (b2z ?x) _ ?d = (Ok _, _) |- _ =>
    apply read_bounded_vec_inv in H as (? & _); [|apply b2z_range|exact W]
  | W : dec_wf ?d, H : read_bounded_vec _ _ ?d = (Ok _, _) |- _ =>
    apply read_bounded_vec_inv in H as (? & _); [|ulia|exact W]
  | W : dec_wf ?d, H : read_if _ read_owner _ ?d = (Ok _, _) |- _ =>
    apply (read_owner_inv _ _ _ _ W) in H as (? & ?)
  | W : dec_wf ?d, H : read_if _ _ _ ?d = (Ok _, _) |- _ =>
    apply (read_optional_inv _ "renewal count exceeds u32" _ _ _ W) in H as (? & ?)
  end].
  unfold NameState_wf. cbn. tauto.
Qed.

Section codec.
Context {C : Crypto}.

Lemma NameState_encode_Ok s bs :
  NameState_encode s = Ok bs <->
  bs = ns_bytes s /\ ns_fits s /\ validate_key_binding s = Ok tt.
Proof.
  unfold NameState_encode, validate_lengths, validate_safe_integer, ns_fits, into_bytes.
  rewrite bytes_put_name_state. cbn [with_capacity bytes app]. split.
  - intros H. inv_ok. rewrite !Z.leb_le in *.
    repeat match goal with u : unit |- _ => destruct u end. tauto.
  - intros (-> & (F1 & F2 & F3 & F4) & ->). apply Z.leb_le in F1, F2, F3, F4.
    rewrite F1, F2, F3, F4. done.
Qed.

Lemma key_binding_Ok s :
  validate_key_binding s = Ok tt <->
  NameState_is_null s = true \/
  validate_name (ns_name s) = true /\ ns_name_hash s = sha3_256 (ns_name s).
Proof.
  unfold validate_key_binding. destruct (NameState_is_null s); cbn; [naive_solver|].
  rewrite bind_Ok. setoid_rewrite hash_name_Ok. setoid_rewrite assert_or_Ok.
  setoid_rewrite bool_decide_eq_true. naive_solver.
Qed.

Lemma NameState_decode_Ok h input s :
  length h = 32%nat ->
  NameState_decode h input = Ok s <->
  NameState_wf s /\ ns_name_hash s = h /\ NameState_encode s = Ok input.
Proof.
  intros Hh. unfold NameState_decode, MAX_NAME_STATE_SIZE. split.
  - intros H. inv_ok.
    match goal with H : run_all _ _ _ = _ |- _ => apply run_all_Ok in H as (d & R & F) end.
    apply read_name_state_wf in R as (Ws & ?); [|done|apply wf_new; rewrite Z.leb_le in *; ulia].
    rewrite bool_decide_eq_true in *. by subst.
  - intros (Ws & <- & E). assert (E0 := E). apply NameState_encode_Ok in E0 as (-> & F & B).
    pose proof (ns_bytes_size s Ws F) as L.
    rewrite (proj2 (Z.leb_le _ _)) by lia. cbn [assert_or mbind result_bind].
    rewrite (run_all_reads _ _ _ s); [|ulia|by apply read_name_state_reads].
    cbn [mbind result_bind]. rewrite B, E. cbn. by rewrite bool_decide_eqb_refl.
Qed.

(** The name-state codec is a bijection under each tree key: decoding a
    value under a key yields a state exactly when the state has that key and
    encodes to that value. Every encodable state decodes back (its encoding has
    at most 660 bytes, within the decoder's 668), and no value has a second
    spelling. *)
Theorem name_state_codec h input s (Hh : length h = 32%nat) :
  NameState_decode h input = Ok s <->
  NameState_wf s /\ ns_name_hash s = h /\ NameState_encode s = Ok input.
Proof. by apply NameState_decode_Ok. Qed.

(** A decoded state that is not null carries a valid name whose SHA3-256
    hash is the tree key it was read under, so a value authenticated for one
    key never speaks for another name. *)
Theorem name_state_key_binding h input s (Hh : length h = 32%nat)
    (D : NameState_decode h input = Ok s) (N : NameState_is_null s = false) :
  validate_name (ns_name s) = true /\ h = sha3_256 (ns_name s).
Proof.
  apply NameState_decode_Ok in D as (_ & <- & E); [|done].
  apply NameState_encode_Ok in E as (_ & _ & B).
  apply key_binding_Ok in B as [?|?]; [congruence|done].
Qed.

End codec.

(** A state of the name "alpha" under the example digest. *)
Definition alpha_state : NameState :=
  let h := @sha3_256 toy_crypto (bstr "alpha") in
  mkNameState h (bstr "alpha") 100 120 (mkOutpoint (zeros 32) 7) 500 0 [z2b 0] 0 0 0 300
    true false false.

Definition alpha_value : list byte :=
  match @NameState_encode toy_crypto alpha_state with Ok bs => bs | Err _ => [] end.

Lemma name_state_codec_witness :
  @NameState_decode toy_crypto (ns_name_hash alpha_state) alpha_value = Ok alpha_state.
Proof.
  apply (@name_state_codec toy_crypto); [reflexivity|].
  split; [|split; reflexivity].
  repeat split; vm_compute; discriminate.
Defined.

Lemma name_state_key_binding_witness :
  ns_name_hash alpha_state = @sha3_256 toy_crypto (bstr "alpha").
Proof.
  refine (proj2 (@name_state_key_binding toy_crypto (ns_name_hash alpha_state) alpha_value
    alpha_state _ _ _)); vm_compute; reflexivity.
Defined.
