(* ===== verification/NameTransition.v ===== *)
(** * hns-covenants: typed TRANSFER and FINALIZE covenants

    Models [crates/hns-covenants/src/name_transition.rs]: the typed views of the
    two covenants that move a name, their validation and their conversions to
    and from generic covenants. *)

From S2P Require Import Prelude Encoding Primitives Covenants Resource NameState.
Local Open Scope Z_scope.

Definition MIN_TRANSFER_ADDRESS_HASH_SIZE : Z := 2.
Definition MAX_TRANSFER_ADDRESS_HASH_SIZE : Z := 40.

Record TransferCovenant := mkTransfer {
  tr_name_hash : list byte;
  tr_start_height : Z;
  tr_recipient_version : byte;
  tr_recipient_hash : list byte;
}.

Definition recipient_length_ok (hash : list byte) : bool :=
  (MIN_TRANSFER_ADDRESS_HASH_SIZE <=? len hash) && (len hash <=? MAX_TRANSFER_ADDRESS_HASH_SIZE).

Definition TransferCovenant_validate (t : TransferCovenant) : result CovenantError unit :=
  assert_or (b2z (tr_recipient_version t) <=? 31)
    (InvalidTransferCovenant "recipient version exceeds 31") ;;
  assert_or (recipient_length_ok (tr_recipient_hash t))
    (InvalidTransferCovenant "recipient hash length is outside 2..=40").

Definition TransferCovenant_new (name_hash : list byte) (start_height : Z)
    (recipient_version : byte) (recipient_hash : list byte)
  : result CovenantError TransferCovenant :=
  let transfer := mkTransfer name_hash start_height recipient_version recipient_hash in
  TransferCovenant_validate transfer ;; Ok transfer.

Definition transfer_covenant_of (t : TransferCovenant) : Covenant :=
  mkCovenant KTransfer
    [tr_name_hash t; to_le_bytes 4 (tr_start_height t); [tr_recipient_version t];
     tr_recipient_hash t].

Definition TransferCovenant_to_covenant (t : TransferCovenant) : result CovenantError Covenant :=
  TransferCovenant_validate t ;; Ok (transfer_covenant_of t).

Definition TransferCovenant_try_from (c : Covenant) : result CovenantError TransferCovenant :=
  assert_or (bool_decide (cov_kind c = KTransfer))
    (InvalidTransferCovenant "covenant kind is not TRANSFER") ;;
  match cov_items c with
  | [name_hash; start_height; recipient_version; recipient_hash] =>
    assert_or (len recipient_version =? 1)
      (InvalidTransferCovenant "recipient version is not one byte") ;;
    assert_or (recipient_length_ok recipient_hash)
      (InvalidTransferCovenant "recipient hash length is outside 2..=40") ;;
    name_hash ← ok_or (as_array 32 name_hash)
      (InvalidTransferCovenant "name hash is not 32 bytes");
    start_height ← ok_or (as_array 4 start_height)
      (InvalidTransferCovenant "start height is not four bytes");
    let transfer := mkTransfer name_hash (from_le_bytes start_height)
      (default x00 (head recipient_version)) recipient_hash in
    TransferCovenant_validate transfer ;; Ok transfer
  | _ => Err (InvalidTransferCovenant "expected exactly four items")
  end.

Record FinalizeCovenant := mkFinalize {
  fi_name_hash : list byte;
  fi_start_height : Z;
  fi_name : list byte;
  fi_flags : byte;
  fi_claimed : Z;
  fi_renewals : Z;
  fi_renewal_block : list byte;
}.

Definition FinalizeCovenant_weak (f : FinalizeCovenant) : bool :=
  negb (Z.land (b2z (fi_flags f)) 1 =? 0).

Definition bool_u8 (b : bool) : byte := if b then z2b 1 else z2b 0.

Section hashed.
Context {CR : Crypto}.

Definition FinalizeCovenant_validate (f : FinalizeCovenant) : result CovenantError unit :=
  assert_or (validate_name (fi_name f)) InvalidName ;;
  h ← hash_name (fi_name f);
  assert_or (bool_decide (h = fi_name_hash f)) FinalizeNameHashMismatch.

Definition FinalizeCovenant_new (name : list byte) (start_height : Z) (weak : bool)
    (claimed renewals : Z) (renewal_block : list byte) : result CovenantError FinalizeCovenant :=
  name_hash ← hash_name name;
  let finalize := mkFinalize name_hash start_height name (bool_u8 weak) claimed renewals
                    renewal_block in
  FinalizeCovenant_validate finalize ;; Ok finalize.

Definition FinalizeCovenant_from_name_state (state : NameState) (renewal_block : list byte)
  : result CovenantError FinalizeCovenant :=
  assert_or (negb (NameState_is_null state)) (InvalidFinalizeCovenant "name state is null") ;;
  validate_key_binding state ;;
  let finalize := mkFinalize (ns_name_hash state) (ns_height state) (ns_name state)
    (bool_u8 (ns_weak state)) (ns_claimed state) (ns_renewals state) renewal_block in
  FinalizeCovenant_validate finalize ;; Ok finalize.

Definition finalize_covenant_of (f : FinalizeCovenant) : Covenant :=
  mkCovenant KFinalize
    [fi_name_hash f; to_le_bytes 4 (fi_start_height f); fi_name f; [fi_flags f];
     to_le_bytes 4 (fi_claimed f); to_le_bytes 4 (fi_renewals f); fi_renewal_block f].

Definition FinalizeCovenant_to_covenant (f : FinalizeCovenant) : result CovenantError Covenant :=
  FinalizeCovenant_validate f ;; Ok (finalize_covenant_of f).

Definition FinalizeCovenant_try_from (c : Covenant) : result CovenantError FinalizeCovenant :=
  assert_or (bool_decide (cov_kind c = KFinalize))
    (InvalidFinalizeCovenant "covenant kind is not FINALIZE") ;;
  match cov_items c with
  | [name_hash; start_height; name; flags; claimed; renewals; renewal_block] =>
    assert_or (len flags =? 1) (InvalidFinalizeCovenant "flags field is not one byte") ;;
    assert_or (validate_name name) InvalidName ;;
    name_hash ← ok_or (as_array 32 name_hash)
      (InvalidFinalizeCovenant "name hash is not 32 bytes");
    h ← hash_name name;
    assert_or (bool_decide (h = name_hash)) FinalizeNameHashMismatch ;;
    start_height ← ok_or (as_array 4 start_height)
      (InvalidFinalizeCovenant "start height is not four bytes");
    claimed ← ok_or (as_array 4 claimed)
      (InvalidFinalizeCovenant "claim height is not four bytes");
    renewals ← ok_or (as_array 4 renewals)
      (InvalidFinalizeCovenant "renewal count is not four bytes");
    renewal_block ← ok_or (as_array 32 renewal_block)
      (InvalidFinalizeCovenant "renewal block hash is not 32 bytes");
    let finalize := mkFinalize name_hash (from_le_bytes start_height) name
      (default x00 (head flags)) (from_le_bytes claimed) (from_le_bytes renewals)
      renewal_block in
    FinalizeCovenant_validate finalize ;; Ok finalize
  | _ => Err (InvalidFinalizeCovenant "expected exactly seven items")
  end.

End hashed.

(** The field types. *)
Definition TransferCovenant_wf (t : TransferCovenant) : Prop :=
  length (tr_name_hash t) = 32%nat /\ u32 (tr_start_height t).
Definition FinalizeCovenant_wf (f : FinalizeCovenant) : Prop :=
  length (fi_name_hash f) = 32%nat /\ u32 (fi_start_height f) /\ u32 (fi_claimed f) /\
  u32 (fi_renewals f) /\ length (fi_renewal_block f) = 32%nat.

(** ** Fixed-size items *)
Lemma as_array_Some n bs a : as_array n bs = Some a <-> a = bs /\ len bs = n.
Proof. unfold as_array. destruct (Z.eqb_spec (len bs) n); naive_solver. Qed.

Lemma len1_head (bs : list byte) : len bs = 1 -> bs = [default x00 (head bs)].
Proof.
  destruct bs as [|b [|? bs]]; slen; try done; pose proof (len_nonneg bs); try lia.
Qed.

Lemma from_le4_u32 bs : len bs = 4 -> u32 (from_le_bytes bs).
Proof. intros L. pose proof (from_le_bytes_range bs). rewrite L in *. ulia. Qed.

Lemma to_from_le4 bs : len bs = 4 -> to_le_bytes 4 (from_le_bytes bs) = bs.
Proof. intros. apply to_from_le_bytes_len. unfold len in *. lia. Qed.

Lemma from_to_le4 v : u32 v -> from_le_bytes (to_le_bytes 4 v) = v.
Proof. intros. apply from_to_le_bytes_small. ulia. Qed.

Lemma as_array_intro n bs : len bs = n -> as_array n bs = Some bs.
Proof. intros. by apply as_array_Some. Qed.

Ltac inv_items :=
  inv_ok;
  repeat match goal with
  | H : as_array _ _ = Some _ |- _ => apply as_array_Some in H as (-> & ?)
  | H : bool_decide _ = true |- _ => apply bool_decide_eq_true in H
  | H : (_ =? _) = true |- _ => apply Z.eqb_eq in H
  | H : (_ <=? _) = true |- _ => apply Z.leb_le in H
  end; subst; repeat match goal with u : unit |- _ => destruct u end.

Lemma TransferCovenant_to_Ok t c :
  TransferCovenant_to_covenant t = Ok c <->
  TransferCovenant_validate t = Ok tt /\ c = transfer_covenant_of t.
Proof.
  unfold TransferCovenant_to_covenant. rewrite bind_Ok. split.
  - intros ([] & ? & [= <-]). done.
  - intros (? & ->). by exists tt.
Qed.

Section typed.
Context {CR : Crypto}.

Lemma FinalizeCovenant_to_Ok f c :
  FinalizeCovenant_to_covenant f = Ok c <->
  FinalizeCovenant_validate f = Ok tt /\ c = finalize_covenant_of f.
Proof.
  unfold FinalizeCovenant_to_covenant. rewrite bind_Ok. split.
  - intros ([] & ? & [= <-]). done.
  - intros (? & ->). by exists tt.
Qed.

Lemma FinalizeCovenant_validate_Ok f :
  FinalizeCovenant_validate f = Ok tt <->
  validate_name (fi_name f) = true /\ fi_name_hash f = sha3_256 (fi_name f).
Proof.
  unfold FinalizeCovenant_validate. rewrite bind_Ok. setoid_rewrite bind_Ok.
  setoid_rewrite hash_name_Ok. setoid_rewrite assert_or_Ok. setoid_rewrite bool_decide_eq_true.
  split; [naive_solver|]. intros (V & E). exists tt. eauto.
Qed.

Lemma transfer_round_trip t c :
  TransferCovenant_try_from c = Ok t <->
  TransferCovenant_wf t /\ TransferCovenant_to_covenant t = Ok c.
Proof.
  rewrite TransferCovenant_to_Ok. unfold TransferCovenant_wf, transfer_covenant_of. split.
  - unfold TransferCovenant_try_from. destruct c as [k items]. cbn [cov_kind cov_items]. intros H.
    destruct items as [|a [|b [|v [|h [|]]]]]; inv_items; try done.
    cbn. rewrite to_from_le4, <- len1_head by done.
    split; [split; [unfold len in *; lia|by apply from_le4_u32]|]. done.
  - intros ((Lh & Hs) & V & ->). unfold TransferCovenant_try_from. cbn [cov_kind cov_items].
    assert (V0 := V). unfold TransferCovenant_validate in V0. inv_ok.
    rewrite bool_decide_eqb_refl. cbn [assert_or mbind result_bind].
    rewrite len_cons, len_nil. cbn [Z.add Z.eqb Pos.eqb assert_or mbind result_bind].
    match goal with H : recipient_length_ok _ = true |- _ => rewrite H end.
    rewrite !as_array_intro by (first [apply len_to_le_bytes|unfold len; lia]).
    cbn [assert_or mbind result_bind ok_or head default]. rewrite from_to_le4 by done.
    destruct t. cbn in *. rewrite V. done.
Qed.

Lemma finalize_round_trip f c :
  FinalizeCovenant_try_from c = Ok f <->
  FinalizeCovenant_wf f /\ FinalizeCovenant_to_covenant f = Ok c.
Proof.
  rewrite FinalizeCovenant_to_Ok. unfold FinalizeCovenant_wf, finalize_covenant_of. split.
  - unfold FinalizeCovenant_try_from. destruct c as [k items]. cbn [cov_kind cov_items]. intros H.
    destruct items as [|a [|b [|n [|fl [|cl [|re [|rb [|]]]]]]]]; inv_items; try done.
    cbn. rewrite !to_from_le4, <- len1_head by done.
    split; [|done]. repeat split; try (unfold len in *; lia); by apply from_le4_u32.
  - intros ((Lh & Hs & Hc & Hr & Lb) & V & ->). unfold FinalizeCovenant_try_from.
    cbn [cov_kind cov_items]. assert (V0 := V).
    apply FinalizeCovenant_validate_Ok in V0 as (Vn & E).
    assert (hash_name (fi_name f) = Ok (fi_name_hash f)) as Hn by (by apply hash_name_Ok).
    rewrite Vn, Hn, !as_array_intro by (first [apply len_to_le_bytes|unfold len; lia]).
    rewrite !bool_decide_eqb_refl, len_cons, len_nil.
    cbn [Z.add Z.eqb Pos.eqb assert_or mbind result_bind ok_or head default].
    rewrite !bool_decide_eqb_refl. cbn [assert_or mbind result_bind].
    rewrite !from_to_le4 by done. destruct f. cbn in *. by rewrite V.
Qed.

Lemma FinalizeCovenant_from_Ok state rb f :
  FinalizeCovenant_from_name_state state rb = Ok f <->
  NameState_is_null state = false /\ validate_key_binding state = Ok tt /\
  f = mkFinalize (ns_name_hash state) (ns_height state) (ns_name state)
        (bool_u8 (ns_weak state)) (ns_claimed state) (ns_renewals state) rb.
Proof.
  unfold FinalizeCovenant_from_name_state. split.
  - intros H. inv_items. by rewrite negb_true_iff in *.
  - intros (N & B & ->). rewrite N, B. cbn [negb assert_or mbind result_bind].
    apply key_binding_Ok in B as [?|B]; [congruence|].
    by rewrite (proj2 (FinalizeCovenant_validate_Ok _)) by exact B.
Qed.

(** ** Properties *)

(** The typed TRANSFER and FINALIZE views are exact: parsing a generic
    covenant yields a typed value precisely when that value converts back to
    the same covenant, so neither direction loses or invents a field. *)
Theorem typed_covenant_round_trip c :
  (forall t, TransferCovenant_try_from c = Ok t <->
     TransferCovenant_wf t /\ TransferCovenant_to_covenant t = Ok c) /\
  (forall f, FinalizeCovenant_try_from c = Ok f <->
     FinalizeCovenant_wf f /\ FinalizeCovenant_to_covenant f = Ok c).
Proof. split; intros; [apply transfer_round_trip|apply finalize_round_trip]. Qed.

(** From an authenticated name state to a FINALIZE covenant: a non-null
    state decoded under a tree key always yields a FINALIZE for that key, which
    parses back from its covenant unchanged and keeps the state's name, heights,
    renewal count and weak flag. *)
Theorem finalize_from_authenticated_state h input s rb
    (Hh : length h = 32%nat) (Hb : length rb = 32%nat)
    (D : NameState_decode h input = Ok s) (N : NameState_is_null s = false) :
  exists f c, FinalizeCovenant_from_name_state s rb = Ok f /\
    FinalizeCovenant_to_covenant f = Ok c /\ FinalizeCovenant_try_from c = Ok f /\
    fi_name_hash f = h /\ fi_name f = ns_name s /\ fi_start_height f = ns_height s /\
    fi_claimed f = ns_claimed s /\ fi_renewals f = ns_renewals s /\
    FinalizeCovenant_weak f = ns_weak s.
Proof.
  apply NameState_decode_Ok in D as (Ws & <- & E); [|done].
  apply NameState_encode_Ok in E as (_ & _ & B).
  eexists _, (finalize_covenant_of _). rewrite finalize_round_trip, FinalizeCovenant_to_Ok.
  rewrite FinalizeCovenant_from_Ok. split; [by repeat split|].
  apply key_binding_Ok in B as [?|B]; [congruence|].
  assert (V := proj2 (FinalizeCovenant_validate_Ok (mkFinalize (ns_name_hash s) (ns_height s)
    (ns_name s) (bool_u8 (ns_weak s)) (ns_claimed s) (ns_renewals s) rb)) B).
  destruct Ws as (? & ? & ? & ? & ? & ? & ? & ? & ? & ?).
  split; [done|]. split; [done|]. repeat split; try done; try ulia.
  by destruct (ns_weak s).
Qed.

End typed.

Lemma finalize_from_authenticated_state_witness :
  exists f c,
    @FinalizeCovenant_from_name_state toy_crypto alpha_state (zeros 32) = Ok f /\
    @FinalizeCovenant_to_covenant toy_crypto f = Ok c /\
    @FinalizeCovenant_try_from toy_crypto c = Ok f /\ fi_name f = bstr "alpha".
Proof.
  destruct (@finalize_from_authenticated_state toy_crypto (ns_name_hash alpha_state) alpha_value
    alpha_state (zeros 32)) as (f & c & A & B & C & _ & E & _);
    [vm_compute; reflexivity..|].
  exists f, c. auto.
Defined.
