(* ===== verification/Transaction.v ===== *)
(** * hns-transaction: transactions, witnesses, addresses and coins

    Models [crates/hns-transaction/src/lib.rs]: the transaction codec with its
    size and weight limits (a base part and a witness part), address
    validation, sizes, weight and the two transaction hashes. *)

From S2P Require Import Prelude Encoding Primitives Covenants.
Local Open Scope Z_scope.

Definition MAX_TRANSACTION_SIZE : Z := 1000000.
Definition MAX_TRANSACTION_RAW_SIZE : Z := 4000000.
Definition MAX_TRANSACTION_WEIGHT : Z := 4000000.
Definition MAX_WITNESS_ITEMS : Z := 1000.
Definition MAX_ADDRESS_HASH_SIZE : Z := 40.
Definition MIN_ADDRESS_HASH_SIZE : Z := 2.

Inductive TransactionError :=
| TxDecode (e : DecodeError)
| TxCovenant (e : CovenantError)
| TxTooLarge (actual maximum : Z)
| InvalidAddress (reason : string)
| TxArithmeticOverflow.

Record Witness := mkWitness { wit_items : list (list byte) }.
Definition Witness_default : Witness := mkWitness [].

Record Input := mkInput {
  in_previous_output : Outpoint;
  in_sequence : Z;
  in_witness : Witness;
}.

Record Address := mkAddress { addr_version : byte; addr_hash : list byte }.

Record Output := mkOutput {
  out_value : Z;
  out_address : Address;
  out_covenant : Covenant;
}.

Record Transaction := mkTransaction {
  tx_version : Z;
  tx_inputs : list Input;
  tx_outputs : list Output;
  tx_locktime : Z;
}.

Record Coin := mkCoin {
  coin_outpoint : Outpoint;
  coin_value : Z;
  coin_height : Z;
  coin_coinbase : bool;
  coin_address : Address;
  coin_covenant : Covenant;
}.

#[global] Instance Witness_eq_dec : EqDecision Witness.
Proof. solve_decision. Defined.
#[global] Instance Input_eq_dec : EqDecision Input.
Proof. solve_decision. Defined.
#[global] Instance Address_eq_dec : EqDecision Address.
Proof. solve_decision. Defined.
#[global] Instance Output_eq_dec : EqDecision Output.
Proof. solve_decision. Defined.
#[global] Instance TransactionError_eq_dec : EqDecision TransactionError.
Proof. solve_decision. Defined.

(** ** Budgets *)
Definition remaining_decode_budget (decoder : Decoder) (start maximum : Z)
  : result TransactionError Z :=
  let consumed := saturating_sub (position decoder) start in
  assert_or (consumed <=? maximum) (TxTooLarge consumed maximum) ;;
  Ok (maximum - consumed).

(** [remaining_decode_budget(decoder, ..)?] *)
Definition check_budget (start maximum : Z) : decM TransactionError Z :=
  decoder ← dec_get; lift_res (remaining_decode_budget decoder start maximum).

Definition read_transaction_varbytes (transaction_start maximum_transaction_size : Z)
    (field : string) : decM TransactionError (list byte) :=
  length ← lift_err TxDecode (read_compact_usize MAX_TRANSACTION_RAW_SIZE field);
  remaining ← check_budget transaction_start maximum_transaction_size;
  decoder ← dec_get;
  lift_res (assert_or (length <=? remaining)
    (TxTooLarge
       (saturating_add usize_max (saturating_sub (position decoder) transaction_start) length)
       maximum_transaction_size)) ;;
  lift_err TxDecode (read_bounded_vec length remaining).

(** ** Witnesses *)
Fixpoint witness_items_size (size : Z) (items : list (list byte)) : result TransactionError Z :=
  match items with
  | [] => Ok size
  | item :: items =>
    assert_or (len item <=? MAX_TRANSACTION_RAW_SIZE)
      (TxTooLarge (len item) MAX_TRANSACTION_RAW_SIZE) ;;
    size ← ok_or
      (size ← checked_add usize_max size (compact_size_len (len item));
       checked_add usize_max size (len item)) TxArithmeticOverflow;
    assert_or (size <=? MAX_TRANSACTION_RAW_SIZE) (TxTooLarge size MAX_TRANSACTION_RAW_SIZE) ;;
    witness_items_size size items
  end.

Definition Witness_encoded_size (w : Witness) : result TransactionError Z :=
  assert_or (len (wit_items w) <=? MAX_WITNESS_ITEMS)
    (TxTooLarge (len (wit_items w)) MAX_WITNESS_ITEMS) ;;
  witness_items_size (compact_size_len (len (wit_items w))) (wit_items w).

Definition put_witness (encoder : Encoder) (w : Witness) : Encoder :=
  foldl put_varbytes (put_compact_size encoder (len (wit_items w))) (wit_items w).

Definition Witness_encode_to (w : Witness) (encoder : Encoder) : result TransactionError Encoder :=
  _ ← Witness_encoded_size w; Ok (put_witness encoder w).

Definition Witness_decode_from (transaction_start maximum_transaction_size : Z)
  : decM TransactionError Witness :=
  count ← lift_err TxDecode (read_compact_usize MAX_WITNESS_ITEMS "witness items");
  check_budget transaction_start maximum_transaction_size ;;
  items ← read_n (Z.to_nat count)
    (read_transaction_varbytes transaction_start maximum_transaction_size "witness item");
  mret (mkWitness items).

(** ** Inputs *)
Definition decode_outpoint_from : decM TransactionError Outpoint :=
  transaction_hash ← lift_err TxDecode (read_array 32);
  index ← lift_err TxDecode read_u32_le;
  mret (mkOutpoint transaction_hash index).

Definition Input_encode_base_to (encoder : Encoder) (i : Input) : Encoder :=
  put_u32_le (put_bytes encoder (Outpoint_encode (in_previous_output i))) (in_sequence i).

Definition Input_decode_base_from : decM TransactionError Input :=
  previous_output ← decode_outpoint_from;
  sequence ← lift_err TxDecode read_u32_le;
  mret (mkInput previous_output sequence Witness_default).

(** ** Addresses *)
Definition Address_is_null_data (a : Address) : bool := b2z (addr_version a) =? 31.

Definition Address_validate (a : Address) : result TransactionError unit :=
  assert_or (b2z (addr_version a) <=? 31) (InvalidAddress "version exceeds 31") ;;
  assert_or ((MIN_ADDRESS_HASH_SIZE <=? len (addr_hash a)) &&
             (len (addr_hash a) <=? MAX_ADDRESS_HASH_SIZE))
    (InvalidAddress "hash length is outside 2..=40") ;;
  assert_or (negb ((b2z (addr_version a) =? 0) &&
                   negb ((len (addr_hash a) =? 20) || (len (addr_hash a) =? 32))))
    (InvalidAddress "version 0 program must be 20 or 32 bytes").

Definition Address_new (version : byte) (hash : list byte) : result TransactionError Address :=
  let address := mkAddress version hash in Address_validate address ;; Ok address.

Definition Address_encode_to (a : Address) (encoder : Encoder) : result TransactionError Encoder :=
  Address_validate a ;;
  Ok (put_bytes (put_u8 (put_u8 encoder (addr_version a)) (z2b (len (addr_hash a))))
        (addr_hash a)).

Definition Address_decode_from : decM TransactionError Address :=
  version ← lift_err TxDecode read_u8;
  length ← lift_err TxDecode read_u8;
  hash ← lift_err TxDecode (read_bounded_vec (b2z length) MAX_ADDRESS_HASH_SIZE);
  lift_res (Address_new version hash).

(** ** Outputs *)
Definition Output_is_unspendable (o : Output) : bool :=
  Address_is_null_data (out_address o) || is_unspendable (cov_kind (out_covenant o)).

Definition Output_encode_to (o : Output) (encoder : Encoder) : result TransactionError Encoder :=
  let encoder := put_u64_le encoder (out_value o) in
  encoder ← Address_encode_to (out_address o) encoder;
  map_err TxCovenant (Covenant_encode_to (out_covenant o) encoder).

Definition Output_encode (o : Output) : result TransactionError (list byte) :=
  encoder ← Output_encode_to o Encoder_new; Ok (into_bytes encoder).

Definition Output_decode_from (transaction_start maximum_transaction_size : Z)
  : decM TransactionError Output :=
  value ← lift_err TxDecode read_u64_le;
  address ← Address_decode_from;
  remaining ← check_budget transaction_start maximum_transaction_size;
  covenant ← lift_err TxCovenant (Covenant_decode_from_with_limit remaining);
  check_budget transaction_start maximum_transaction_size ;;
  mret (mkOutput value address covenant).

(** ** Sizes *)
Fixpoint outputs_size (size : Z) (outputs : list Output) : result TransactionError Z :=
  match outputs with
  | [] => Ok size
  | output :: outputs =>
    Address_validate (out_address output) ;;
    covenant_size ← map_err TxCovenant (Covenant_encoded_size (out_covenant output));
    size ← ok_or
      (size ← checked_add usize_max size 8;
       size ← checked_add usize_max size 2;
       size ← checked_add usize_max size (len (addr_hash (out_address output)));
       checked_add usize_max size covenant_size) TxArithmeticOverflow;
    assert_or (size <=? MAX_TRANSACTION_SIZE) (TxTooLarge size MAX_TRANSACTION_SIZE) ;;
    outputs_size size outputs
  end.

Definition base_encoded_size (tx : Transaction) : result TransactionError Z :=
  assert_or ((len (tx_inputs tx) <=? MAX_TRANSACTION_SIZE / 40) &&
             (len (tx_outputs tx) <=? MAX_TRANSACTION_SIZE / 12))
    (TxTooLarge (Z.max (len (tx_inputs tx)) (len (tx_outputs tx))) (MAX_TRANSACTION_SIZE / 12)) ;;
  input_bytes ← ok_or (checked_mul usize_max (len (tx_inputs tx)) 40) TxArithmeticOverflow;
  size ← ok_or
    (size ← checked_add usize_max 4 (compact_size_len (len (tx_inputs tx)));
     size ← checked_add usize_max size input_bytes;
     checked_add usize_max size (compact_size_len (len (tx_outputs tx)))) TxArithmeticOverflow;
  size ← outputs_size size (tx_outputs tx);
  size ← ok_or (checked_add usize_max size 4) TxArithmeticOverflow;
  assert_or (size <=? MAX_TRANSACTION_SIZE) (TxTooLarge size MAX_TRANSACTION_SIZE) ;;
  Ok size.

Fixpoint witnesses_size (size : Z) (inputs : list Input) : result TransactionError Z :=
  match inputs with
  | [] => Ok size
  | input :: inputs =>
    witness_size ← Witness_encoded_size (in_witness input);
    size ← ok_or (checked_add usize_max size witness_size) TxArithmeticOverflow;
    assert_or (size <=? MAX_TRANSACTION_RAW_SIZE) (TxTooLarge size MAX_TRANSACTION_RAW_SIZE) ;;
    witnesses_size size inputs
  end.

Definition witness_encoded_size (tx : Transaction) : result TransactionError Z :=
  witnesses_size 0 (tx_inputs tx).

Definition transaction_weight (base witness : Z) : result TransactionError Z :=
  weight ← ok_or
    (weight ← checked_mul usize_max base 4; checked_add usize_max weight witness)
    TxArithmeticOverflow;
  assert_or (weight <=? MAX_TRANSACTION_WEIGHT) (TxTooLarge weight MAX_TRANSACTION_WEIGHT) ;;
  Ok weight.

Definition encoded_sizes (tx : Transaction) : result TransactionError (Z * Z) :=
  base ← base_encoded_size tx;
  witness ← witness_encoded_size tx;
  transaction_weight base witness ;;
  Ok (base, witness).

Definition Transaction_base_size (tx : Transaction) : result TransactionError Z :=
  base_encoded_size tx.
Definition Transaction_size (tx : Transaction) : result TransactionError Z :=
  '(base, witness) ← encoded_sizes tx;
  ok_or (checked_add usize_max base witness) TxArithmeticOverflow.
Definition Transaction_weight (tx : Transaction) : result TransactionError Z :=
  '(base, witness) ← encoded_sizes tx; transaction_weight base witness.

Definition is_coinbase (tx : Transaction) : bool :=
  match head (tx_inputs tx) with
  | Some input => Outpoint_is_null (in_previous_output input)
  | None => false
  end.

(** ** Encoding *)
(** [for x in xs { x.encode_to(encoder)?; }] *)
Fixpoint encode_all {A} (encode_to : A -> Encoder -> result TransactionError Encoder)
    (xs : list A) (encoder : Encoder) : result TransactionError Encoder :=
  match xs with
  | [] => Ok encoder
  | x :: xs => encoder ← encode_to x encoder; encode_all encode_to xs encoder
  end.

Definition base_encode (tx : Transaction) : result TransactionError (list byte) :=
  base_size ← base_encoded_size tx;
  let encoder := put_u32_le (with_capacity base_size) (tx_version tx) in
  let encoder := put_compact_size encoder (len (tx_inputs tx)) in
  let encoder := foldl Input_encode_base_to encoder (tx_inputs tx) in
  let encoder := put_compact_size encoder (len (tx_outputs tx)) in
  encoder ← encode_all Output_encode_to (tx_outputs tx) encoder;
  Ok (into_bytes (put_u32_le encoder (tx_locktime tx))).

Definition witness_encode (tx : Transaction) : result TransactionError (list byte) :=
  witness_size ← witness_encoded_size tx;
  encoder ← encode_all (fun i => Witness_encode_to (in_witness i)) (tx_inputs tx)
    (with_capacity witness_size);
  Ok (into_bytes encoder).

Definition Transaction_encode (tx : Transaction) : result TransactionError (list byte) :=
  '(base_size, witness_size) ← encoded_sizes tx;
  base ← base_encode tx;
  witness ← witness_encode tx;
  _ ← ok_or (checked_add usize_max base_size witness_size) TxArithmeticOverflow;
  Ok (base ++ witness).

(** ** Decoding *)
(** One iteration of the input loop. *)
Definition read_input (start : Z) : decM TransactionError Input :=
  input ← Input_decode_base_from;
  check_budget start MAX_TRANSACTION_SIZE ;;
  mret input.

Definition set_witness (i : Input) (w : Witness) : Input :=
  mkInput (in_previous_output i) (in_sequence i) w.

(** [for input in &mut inputs { input.witness = Witness::decode_from(..)?; }] *)
Fixpoint read_witnesses (start maximum : Z) (inputs : list Input)
  : decM TransactionError (list Input) :=
  match inputs with
  | [] => mret []
  | input :: inputs =>
    witness ← Witness_decode_from start maximum;
    rest ← read_witnesses start maximum inputs;
    mret (set_witness input witness :: rest)
  end.

(** The base part, up to the locktime; the witnesses come later. *)
Definition read_base (start : Z) : decM TransactionError Transaction :=
  version ← lift_err TxDecode read_u32_le;
  input_count ← lift_err TxDecode
    (read_compact_usize (MAX_TRANSACTION_SIZE / 40) "transaction inputs");
  check_budget start MAX_TRANSACTION_SIZE ;;
  inputs ← read_n (Z.to_nat input_count) (read_input start);
  output_count ← lift_err TxDecode
    (read_compact_usize (MAX_TRANSACTION_SIZE / 12) "transaction outputs");
  check_budget start MAX_TRANSACTION_SIZE ;;
  outputs ← read_n (Z.to_nat output_count) (Output_decode_from start MAX_TRANSACTION_SIZE);
  locktime ← lift_err TxDecode read_u32_le;
  mret (mkTransaction version inputs outputs locktime).

(** What the base part leaves for the witnesses. *)
Definition witness_budget (base_size : Z) : result TransactionError Z :=
  base_weight ← ok_or (checked_mul usize_max base_size 4) TxArithmeticOverflow;
  spare ← ok_or (checked_sub MAX_TRANSACTION_WEIGHT base_weight)
    (TxTooLarge base_weight MAX_TRANSACTION_WEIGHT);
  sum ← ok_or (checked_add usize_max base_size spare) TxArithmeticOverflow;
  Ok (Z.min sum MAX_TRANSACTION_RAW_SIZE).

Definition Transaction_decode_from : decM TransactionError Transaction :=
  decoder ← dec_get;
  let start := position decoder in
  base ← read_base start;
  decoder ← dec_get;
  let base_size := saturating_sub (position decoder) start in
  check_budget start MAX_TRANSACTION_SIZE ;;
  maximum_transaction_size ← lift_res (witness_budget base_size);
  inputs ← read_witnesses start maximum_transaction_size (tx_inputs base);
  check_budget start maximum_transaction_size ;;
  mret (mkTransaction (tx_version base) inputs (tx_outputs base) (tx_locktime base)).

Definition Transaction_decode (input : list byte) : result TransactionError Transaction :=
  assert_or (len input <=? MAX_TRANSACTION_RAW_SIZE)
    (TxTooLarge (len input) MAX_TRANSACTION_RAW_SIZE) ;;
  run_all TxDecode Transaction_decode_from input.

Definition Transaction_decode_prefix (input : list byte)
  : result TransactionError (Transaction * Z) :=
  match Transaction_decode_from (Decoder_new input) with
  | (Ok transaction, decoder) => Ok (transaction, position decoder)
  | (Err e, _) => Err e
  end.

(** ** Hashes *)
Section hashes.
Context {CR : Crypto}.

Definition Address_from_compressed_public_key (public_key : list byte)
  : result TransactionError Address :=
  match head public_key with
  | Some tag =>
    assert_or ((b2z tag =? 0x02) || (b2z tag =? 0x03))
      (InvalidAddress "compressed public key must begin with 02 or 03") ;;
    Address_new (z2b 0) (blake2b 20 public_key)
  | None => Err (InvalidAddress "compressed public key must begin with 02 or 03")
  end.

Definition Transaction_transaction_hash (tx : Transaction) : result TransactionError (list byte) :=
  base ← base_encode tx; Ok (blake2b 32 base).

Definition Transaction_witness_hash (tx : Transaction) : result TransactionError (list byte) :=
  transaction_hash ← Transaction_transaction_hash tx;
  witness ← witness_encode tx;
  Ok (blake2b 32 (transaction_hash ++ blake2b 32 witness)).

End hashes.

(** ** The encoding as byte strings and the limits as predicates *)
Definition wit_bytes (w : Witness) : list byte :=
  compact_bytes (len (wit_items w)) ++ mjoin (var_bytes <$> wit_items w).
Definition input_bytes (i : Input) : list byte :=
  Outpoint_encode (in_previous_output i) ++ to_le_bytes 4 (in_sequence i).
Definition addr_bytes (a : Address) : list byte :=
  [addr_version a] ++ [z2b (len (addr_hash a))] ++ addr_hash a.
Definition out_bytes (o : Output) : list byte :=
  to_le_bytes 8 (out_value o) ++ addr_bytes (out_address o) ++ cov_bytes (out_covenant o).
Definition base_bytes (tx : Transaction) : list byte :=
  to_le_bytes 4 (tx_version tx) ++
  compact_bytes (len (tx_inputs tx)) ++ mjoin (input_bytes <$> tx_inputs tx) ++
  compact_bytes (len (tx_outputs tx)) ++ mjoin (out_bytes <$> tx_outputs tx) ++
  to_le_bytes 4 (tx_locktime tx).
Definition witness_bytes (inputs : list Input) : list byte :=
  mjoin (wit_bytes ∘ in_witness <$> inputs).

Definition addr_ok (a : Address) : Prop :=
  b2z (addr_version a) <= 31 /\ 2 <= len (addr_hash a) <= 40 /\
  (b2z (addr_version a) = 0 -> len (addr_hash a) = 20 \/ len (addr_hash a) = 32).
Definition wit_fits (w : Witness) : Prop :=
  len (wit_items w) <= MAX_WITNESS_ITEMS /\ len (wit_bytes w) <= MAX_TRANSACTION_RAW_SIZE.
Definition out_fits (o : Output) : Prop := addr_ok (out_address o) /\ cov_fits (out_covenant o).

Definition tx_fits (tx : Transaction) : Prop :=
  len (tx_inputs tx) <= MAX_TRANSACTION_SIZE / 40 /\
  len (tx_outputs tx) <= MAX_TRANSACTION_SIZE / 12 /\
  Forall out_fits (tx_outputs tx) /\
  Forall (fun i => wit_fits (in_witness i)) (tx_inputs tx) /\
  len (base_bytes tx) <= MAX_TRANSACTION_SIZE /\
  4 * len (base_bytes tx) + len (witness_bytes (tx_inputs tx)) <= MAX_TRANSACTION_WEIGHT.

(** The field types, and covenant kinds spelled canonically. *)
Definition input_wf (i : Input) : Prop := Outpoint_wf (in_previous_output i) /\ u32 (in_sequence i).
Definition out_wf (o : Output) : Prop :=
  u64 (out_value o) /\ kind_canonical (cov_kind (out_covenant o)).
Definition Transaction_wf (tx : Transaction) : Prop :=
  u32 (tx_version tx) /\ u32 (tx_locktime tx) /\
  Forall input_wf (tx_inputs tx) /\ Forall out_wf (tx_outputs tx).

Ltac tx_unfold :=
  cov_unfold;
  unfold MAX_TRANSACTION_SIZE, MAX_TRANSACTION_RAW_SIZE, MAX_TRANSACTION_WEIGHT,
    MAX_WITNESS_ITEMS, MAX_ADDRESS_HASH_SIZE, MIN_ADDRESS_HASH_SIZE in *.

(** ** Sizes are the lengths of the encodings *)
Lemma Address_validate_Ok a : Address_validate a = Ok tt <-> addr_ok a.
Proof.
  unfold Address_validate, addr_ok, MIN_ADDRESS_HASH_SIZE, MAX_ADDRESS_HASH_SIZE.
  pose proof (b2z_range (addr_version a)).
  destruct (Z.leb_spec (b2z (addr_version a)) 31), (Z.leb_spec 2 (len (addr_hash a))),
    (Z.leb_spec (len (addr_hash a)) 40), (Z.eqb_spec (b2z (addr_version a)) 0),
    (Z.eqb_spec (len (addr_hash a)) 20), (Z.eqb_spec (len (addr_hash a)) 32);
    cbn; split; intros; try done; lia.
Qed.

Lemma len_wit_bytes w :
  len (wit_bytes w) = compact_size_len (len (wit_items w)) + len (mjoin (var_bytes <$> wit_items w)).
Proof. unfold wit_bytes. by rewrite len_app, len_compact_bytes. Qed.

Lemma len_addr_bytes a : len (addr_bytes a) = 2 + len (addr_hash a).
Proof. unfold addr_bytes. rewrite !len_app, !len_cons, !len_nil. lia. Qed.

Lemma len_out_bytes o :
  len (out_bytes o) = 10 + len (addr_hash (out_address o)) + len (cov_bytes (out_covenant o)).
Proof. unfold out_bytes. rewrite !len_app, len_addr_bytes, len_to_le_bytes. lia. Qed.

Lemma len_input_bytes i : input_wf i -> len (input_bytes i) = 40.
Proof.
  intros ((L & _) & _). unfold input_bytes, Outpoint_encode.
  rewrite !len_app, !len_to_le_bytes. unfold len. lia.
Qed.

Lemma len_inputs_bytes ins : Forall input_wf ins -> len (mjoin (input_bytes <$> ins)) = 40 * len ins.
Proof.
  induction 1 as [|i ins Hi _ IH]; [done|].
  rewrite fmap_cons', join_cons, len_app, len_input_bytes, IH, len_cons by done. lia.
Qed.

Lemma len_base_bytes tx :
  Forall input_wf (tx_inputs tx) ->
  len (base_bytes tx) = 8 + compact_size_len (len (tx_inputs tx)) + 40 * len (tx_inputs tx) +
    compact_size_len (len (tx_outputs tx)) + len (mjoin (out_bytes <$> tx_outputs tx)).
Proof.
  intros W. unfold base_bytes.
  rewrite !len_app, !len_to_le_bytes, !len_compact_bytes, len_inputs_bytes by done. lia.
Qed.

Lemma witness_items_size_Ok acc items n :
  0 <= acc <= MAX_TRANSACTION_RAW_SIZE ->
  witness_items_size acc items = Ok n <->
  n = acc + len (mjoin (var_bytes <$> items)) /\ n <= MAX_TRANSACTION_RAW_SIZE.
Proof.
  revert acc. induction items as [|i items IH]; intros acc Ha; cbn [witness_items_size].
  { cbn. rewrite len_nil, Z.add_0_r. split; [intros [= <-]; lia|by intros (-> & _)]. }
  rewrite fmap_cons', join_cons, len_app, len_var_bytes.
  pose proof (len_nonneg i). pose proof (len_nonneg (mjoin (var_bytes <$> items))).
  pose proof (compact_size_len_range (len i)). unfold checked_add.
  rewrite (proj2 (Z.leb_le (acc + _) usize_max)) by (tx_unfold; ulia). cbn [mbind option_bind].
  destruct (Z.leb_spec (len i) MAX_TRANSACTION_RAW_SIZE); [|naive_solver lia].
  rewrite (proj2 (Z.leb_le _ usize_max)) by (tx_unfold; ulia). cbn.
  destruct (Z.leb_spec (acc + compact_size_len (len i) + len i) MAX_TRANSACTION_RAW_SIZE);
    cbn; [|naive_solver lia].
  rewrite IH by lia. naive_solver lia.
Qed.

Lemma Witness_encoded_size_Ok w n :
  Witness_encoded_size w = Ok n <-> n = len (wit_bytes w) /\ wit_fits w.
Proof.
  unfold Witness_encoded_size, wit_fits. rewrite bind_Ok. setoid_rewrite assert_or_Ok.
  setoid_rewrite Z.leb_le. pose proof (compact_size_len_range (len (wit_items w))).
  pose proof (witness_items_size_Ok (compact_size_len (len (wit_items w))) (wit_items w) n
    ltac:(tx_unfold; lia)) as I.
  rewrite len_wit_bytes. split.
  - intros (_ & ? & H1). apply I in H1 as (-> & ?). auto.
  - intros (-> & ? & ?). exists tt. split; [done|]. by apply I.
Qed.

Lemma witnesses_size_Ok acc ins n :
  0 <= acc <= MAX_TRANSACTION_RAW_SIZE ->
  witnesses_size acc ins = Ok n <->
  n = acc + len (witness_bytes ins) /\ n <= MAX_TRANSACTION_RAW_SIZE /\
  Forall (fun i => wit_fits (in_witness i)) ins.
Proof.
  revert acc. induction ins as [|i ins IH]; intros acc Ha; cbn [witnesses_size].
  { unfold witness_bytes. cbn. rewrite len_nil, Z.add_0_r.
    split; [intros [= <-]; split; [done|]; split; [lia|done]|by intros (-> & _)]. }
  unfold witness_bytes in *. rewrite fmap_cons', join_cons, len_app, Forall_cons.
  pose proof (len_nonneg (wit_bytes (in_witness i))) as L1.
  pose proof (len_nonneg (mjoin (wit_bytes ∘ in_witness <$> ins))) as L2.
  cbn [compose]. rewrite bind_Ok. setoid_rewrite Witness_encoded_size_Ok. split.
  - intros (m & (-> & F) & H). inv_ok.
    match goal with H : checked_add _ _ _ = Some _ |- _ => apply checked_add_Some in H as (-> & ?) end.
    rewrite Z.leb_le in *. apply IH in H as (-> & ? & ?); [|lia]. auto with lia.
  - intros (-> & ? & F & Fs). exists (len (wit_bytes (in_witness i))). split; [done|].
    unfold checked_add. rewrite (proj2 (Z.leb_le _ usize_max)) by (destruct F; tx_unfold; ulia).
    cbn. rewrite (proj2 (Z.leb_le _ _)) by lia. cbn. apply IH; [lia|]. auto with lia.
Qed.

Lemma outputs_size_Ok acc os n :
  0 <= acc <= 2 * MAX_TRANSACTION_SIZE ->
  outputs_size acc os = Ok n <->
  n = acc + len (mjoin (out_bytes <$> os)) /\ Forall out_fits os /\
  (os = [] \/ n <= MAX_TRANSACTION_SIZE).
Proof.
  revert acc. induction os as [|o os IH]; intros acc Ha; cbn [outputs_size].
  { cbn. rewrite len_nil, Z.add_0_r. split; [intros [= <-]; auto|by intros (-> & _)]. }
  rewrite fmap_cons', join_cons, len_app, len_out_bytes, Forall_cons. unfold out_fits at 1.
  pose proof (len_nonneg (mjoin (out_bytes <$> os))) as L1.
  pose proof (len_nonneg (addr_hash (out_address o))) as L2.
  pose proof (len_nonneg (cov_bytes (out_covenant o))) as L3.
  split.
  - intros H. inv_ok. repeat match goal with
    | H : unit |- _ => destruct H
    | H : Address_validate _ = Ok _ |- _ => apply Address_validate_Ok in H
    | H : Covenant_encoded_size _ = Ok _ |- _ => apply Covenant_encoded_size_Ok in H as (-> & ?)
    | H : (_ ≫= _) = Some _ |- _ => apply bind_Some in H as (? & ? & H)
    | H : checked_add _ _ _ = Some _ |- _ => apply checked_add_Some in H as (-> & ?)
    | H : (_ <=? _) = true |- _ => apply Z.leb_le in H
    end.
    apply IH in H as (-> & F & D); [|tx_unfold; lia]. split; [lia|]. split; [done|].
    right. destruct D as [->|?]; [cbn in *; rewrite len_nil in *|]; lia.
  - intros (-> & ((A & C) & F) & [?|B]); [done|].
    rewrite (proj2 (Address_validate_Ok _) A). cbn.
    rewrite (proj2 (Covenant_encoded_size_Ok _ _) (conj eq_refl C)). cbn.
    unfold checked_add. repeat (rewrite (proj2 (Z.leb_le _ usize_max)) by (tx_unfold; ulia); cbn).
    rewrite (proj2 (Z.leb_le _ _)) by lia. cbn.
    apply IH; [tx_unfold; lia|]. split; [lia|]. split; [done|]. right. lia.
Qed.

Lemma base_encoded_size_Ok tx n :
  Forall input_wf (tx_inputs tx) ->
  base_encoded_size tx = Ok n <->
  n = len (base_bytes tx) /\ len (tx_inputs tx) <= MAX_TRANSACTION_SIZE / 40 /\
  len (tx_outputs tx) <= MAX_TRANSACTION_SIZE / 12 /\ Forall out_fits (tx_outputs tx) /\
  len (base_bytes tx) <= MAX_TRANSACTION_SIZE.
Proof.
  intros W. rewrite len_base_bytes by done. unfold base_encoded_size.
  pose proof (len_nonneg (tx_inputs tx)). pose proof (len_nonneg (tx_outputs tx)).
  pose proof (len_nonneg (mjoin (out_bytes <$> tx_outputs tx))).
  pose proof (compact_size_len_range (len (tx_inputs tx))).
  pose proof (compact_size_len_range (len (tx_outputs tx))).
  change (MAX_TRANSACTION_SIZE / 40) with 25000. change (MAX_TRANSACTION_SIZE / 12) with 83333.
  destruct (Z.leb_spec (len (tx_inputs tx)) 25000); [|naive_solver lia].
  destruct (Z.leb_spec (len (tx_outputs tx)) 83333); [|naive_solver lia].
  unfold checked_mul, checked_add.
  cbn [andb assert_or mbind result_bind].
  repeat (rewrite (proj2 (Z.leb_le _ usize_max)) by ulia; cbn [ok_or mbind option_bind result_bind]).
  rewrite bind_Ok. setoid_rewrite outputs_size_Ok; [|tx_unfold; lia]. split.
  - intros (m & (-> & F & D) & HE).
    destruct (Z.leb_spec (4 + compact_size_len (len (tx_inputs tx)) + len (tx_inputs tx) * 40 +
      compact_size_len (len (tx_outputs tx)) + len (mjoin (out_bytes <$> tx_outputs tx)) + 4)
      usize_max); [|done]. cbn in HE. inv_ok. rewrite Z.leb_le in *. split; [lia|]. auto with lia.
  - intros (-> & _ & _ & F & B). eexists. split; [split; [done|]; split; [done|right; lia]|].
    rewrite (proj2 (Z.leb_le _ usize_max)) by (tx_unfold; ulia). cbn.
    rewrite (proj2 (Z.leb_le _ _)) by lia. cbn. f_equal. lia.
Qed.

Lemma transaction_weight_Ok base witness n :
  0 <= base <= MAX_TRANSACTION_SIZE -> 0 <= witness <= MAX_TRANSACTION_RAW_SIZE ->
  transaction_weight base witness = Ok n <->
  n = 4 * base + witness /\ n <= MAX_TRANSACTION_WEIGHT.
Proof.
  intros. unfold transaction_weight, checked_mul, checked_add.
  repeat (rewrite (proj2 (Z.leb_le _ usize_max)) by (tx_unfold; ulia); cbn).
  destruct (Z.leb_spec (base * 4 + witness) MAX_TRANSACTION_WEIGHT); cbn.
  - split; [intros [= <-]; lia|intros (-> & _); f_equal; lia].
  - split; [done|lia].
Qed.

Lemma encoded_sizes_inv tx b w :
  Forall input_wf (tx_inputs tx) -> encoded_sizes tx = Ok (b, w) ->
  b = len (base_bytes tx) /\ w = len (witness_bytes (tx_inputs tx)) /\ tx_fits tx.
Proof.
  intros W H. unfold encoded_sizes, witness_encoded_size in H.
  apply bind_Ok in H as (b1 & Hb & H). apply bind_Ok in H as (w1 & Hw & H).
  apply bind_Ok in H as (n & Hn & [= -> ->]).
  apply base_encoded_size_Ok in Hb as (-> & ? & ? & ? & ?); [|done].
  apply witnesses_size_Ok in Hw as (-> & ? & ?); [|tx_unfold; lia].
  rewrite Z.add_0_l in *. pose proof (len_nonneg (base_bytes tx)).
  pose proof (len_nonneg (witness_bytes (tx_inputs tx))).
  apply transaction_weight_Ok in Hn as (-> & ?); [|lia|lia].
  split; [done|]. split; [done|]. unfold tx_fits. tauto.
Qed.

Lemma encoded_sizes_fits tx :
  Forall input_wf (tx_inputs tx) -> tx_fits tx ->
  encoded_sizes tx = Ok (len (base_bytes tx), len (witness_bytes (tx_inputs tx))).
Proof.
  intros W (? & ? & ? & ? & ? & HW). unfold encoded_sizes, witness_encoded_size.
  pose proof (len_nonneg (base_bytes tx)). pose proof (len_nonneg (witness_bytes (tx_inputs tx))).
  assert (len (witness_bytes (tx_inputs tx)) <= MAX_TRANSACTION_RAW_SIZE) by (tx_unfold; lia).
  apply bind_Ok. exists (len (base_bytes tx)). split; [by apply base_encoded_size_Ok|].
  apply bind_Ok. exists (len (witness_bytes (tx_inputs tx))). split.
  { apply witnesses_size_Ok; [tx_unfold; lia|]. rewrite Z.add_0_l. auto. }
  apply bind_Ok. exists (4 * len (base_bytes tx) + len (witness_bytes (tx_inputs tx))).
  split; [apply transaction_weight_Ok; [lia|lia|auto]|]. reflexivity.
Qed.

(** ** Encoding *)
Lemma encode_all_Ok {A} (f : A -> Encoder -> result TransactionError Encoder)
    (enc : A -> list byte) (P : A -> Prop) xs e e' :
  (forall x e e', f x e = Ok e' <-> bytes e' = bytes e ++ enc x /\ P x) ->
  encode_all f xs e = Ok e' <-> bytes e' = bytes e ++ mjoin (enc <$> xs) /\ Forall P xs.
Proof.
  intros Hf. revert e; induction xs as [|x xs IH]; intros e; cbn [encode_all].
  - cbn. rewrite app_nil_r. split; [by intros [= ->]|].
    intros (E & _). destruct e, e'. cbn in E. by subst.
  - rewrite bind_Ok, fmap_cons', join_cons, Forall_cons. setoid_rewrite IH. setoid_rewrite Hf. split.
    + intros (e1 & (E1 & P1) & E2 & P2). by rewrite E2, E1, <- app_assoc.
    + intros (E & P1 & P2). exists (mkEncoder (bytes e ++ enc x)). cbn. by rewrite E, <- app_assoc.
Qed.

Lemma encoder_eq e bs : e = mkEncoder bs <-> bytes e = bs.
Proof. destruct e; cbn. split; [by intros [= ->]|by intros ->]. Qed.

Lemma Witness_encode_to_Ok w e e' :
  Witness_encode_to w e = Ok e' <-> bytes e' = bytes e ++ wit_bytes w /\ wit_fits w.
Proof.
  unfold Witness_encode_to. rewrite bind_Ok. setoid_rewrite Witness_encoded_size_Ok.
  assert (put_witness e w = mkEncoder (bytes e ++ wit_bytes w)) as ->.
  { apply encoder_eq. unfold put_witness, wit_bytes. autorewrite with enc. by rewrite app_assoc. }
  rewrite <- encoder_eq. naive_solver.
Qed.

Lemma Output_encode_to_Ok o e e' :
  Output_encode_to o e = Ok e' <-> bytes e' = bytes e ++ out_bytes o /\ out_fits o.
Proof.
  unfold Output_encode_to, Address_encode_to, out_fits. cbv zeta. rewrite bind_Ok.
  setoid_rewrite bind_Ok. setoid_rewrite map_err_Ok. setoid_rewrite Covenant_encode_to_Ok.
  rewrite <- Address_validate_Ok, <- encoder_eq.
  set (e1 := put_bytes _ _).
  assert (put_covenant e1 (out_covenant o) = mkEncoder (bytes e ++ out_bytes o)) as Eq.
  { apply encoder_eq. unfold e1, out_bytes, addr_bytes. autorewrite with enc. by rewrite <- !app_assoc. }
  rewrite <- Eq. split.
  - intros (e2 & ([] & V & [= <-]) & -> & F). done.
  - intros (-> & V & F). exists e1. split; [by exists tt|done].
Qed.

Lemma bytes_put_inputs e ins :
  bytes (foldl Input_encode_base_to e ins) = bytes e ++ mjoin (input_bytes <$> ins).
Proof.
  revert e; induction ins as [|i ins IH]; intros e; [by rewrite app_nil_r|].
  cbn [foldl]. rewrite IH, fmap_cons', join_cons. unfold Input_encode_base_to, input_bytes.
  autorewrite with enc. by rewrite <- !app_assoc.
Qed.

Lemma base_encode_Ok tx bs :
  Forall input_wf (tx_inputs tx) ->
  base_encode tx = Ok bs <-> bs = base_bytes tx /\ base_encoded_size tx = Ok (len (base_bytes tx)).
Proof.
  intros W. unfold base_encode. cbv zeta. rewrite bind_Ok. split.
  - intros (n & Hn & H). inv_ok.
    match goal with H : encode_all _ _ _ = Ok _ |- _ =>
      apply (encode_all_Ok _ out_bytes out_fits) in H as (E & _); [|apply Output_encode_to_Ok] end.
    split; [|by rewrite Hn; apply base_encoded_size_Ok in Hn as (-> & _)].
    rewrite E. autorewrite with enc.
    rewrite bytes_put_inputs. autorewrite with enc. unfold base_bytes. by rewrite <- !app_assoc.
  - intros (-> & Hn). exists (len (base_bytes tx)). split; [done|].
    apply base_encoded_size_Ok in Hn as (_ & _ & _ & F & _); [|done].
    match goal with |- context [encode_all _ _ ?e] => set (e0 := e) end.
    assert (encode_all Output_encode_to (tx_outputs tx) e0 =
      Ok (mkEncoder (bytes e0 ++ mjoin (out_bytes <$> tx_outputs tx)))) as ->.
    { apply (encode_all_Ok _ out_bytes out_fits); [apply Output_encode_to_Ok|done]. }
    cbn [mbind result_bind]. unfold into_bytes, e0, base_bytes. f_equal. autorewrite with enc.
    cbn [bytes]. autorewrite with enc. rewrite bytes_put_inputs. autorewrite with enc.
    by rewrite <- !app_assoc.
Qed.

Lemma witness_encode_Ok tx bs :
  witness_encode tx = Ok bs <->
  bs = witness_bytes (tx_inputs tx) /\ len bs <= MAX_TRANSACTION_RAW_SIZE /\
  Forall (fun i => wit_fits (in_witness i)) (tx_inputs tx).
Proof.
  unfold witness_encode, witness_encoded_size. rewrite bind_Ok.
  setoid_rewrite witnesses_size_Ok; [|by tx_unfold].
  setoid_rewrite bind_Ok.
  setoid_rewrite (encode_all_Ok _ (wit_bytes ∘ in_witness) (fun i => wit_fits (in_witness i)));
    [|intros; apply Witness_encode_to_Ok].
  cbn [with_capacity bytes app]. fold (witness_bytes (tx_inputs tx)). unfold into_bytes. split.
  - intros (n & (-> & ? & ?) & e & (E & _) & [= <-]). rewrite E. done.
  - intros (-> & ? & ?). eexists. split; [done|].
    exists (mkEncoder (witness_bytes (tx_inputs tx))). done.
Qed.

Lemma Transaction_encode_Ok tx bs :
  Forall input_wf (tx_inputs tx) ->
  Transaction_encode tx = Ok bs <->
  bs = base_bytes tx ++ witness_bytes (tx_inputs tx) /\ tx_fits tx.
Proof.
  intros W. unfold Transaction_encode. pose proof (len_nonneg (base_bytes tx)).
  pose proof (len_nonneg (witness_bytes (tx_inputs tx))). split.
  - intros HE. apply bind_Ok in HE as ([b w] & S & HE). apply encoded_sizes_inv in S as (-> & -> & F); [|done].
    inv_ok. repeat match goal with
    | H : base_encode _ = Ok _ |- _ => apply base_encode_Ok in H as (-> & _); [|done]
    | H : witness_encode _ = Ok _ |- _ => apply witness_encode_Ok in H as (-> & _)
    end. done.
  - intros (-> & F). apply bind_Ok. eexists. split; [by apply encoded_sizes_fits|].
    destruct F as (? & ? & ? & ? & ? & ?).
    apply bind_Ok. exists (base_bytes tx). split.
    { apply base_encode_Ok; [done|]. split; [done|]. by apply base_encoded_size_Ok. }
    apply bind_Ok. exists (witness_bytes (tx_inputs tx)). split.
    { apply witness_encode_Ok. split; [done|]. split; [tx_unfold; lia|done]. }
    apply bind_Ok. eexists. split; [|done].
    apply ok_or_Ok, checked_add_Some. split; [done|]. tx_unfold. ulia.
Qed.

(** ** Decoding *)
Lemma check_budget_inv start maximum d n d' :
  start <= position d -> check_budget start maximum d = (Ok n, d') ->
  d' = d /\ n = maximum - (position d - start) /\ 0 <= n.
Proof.
  intros S H. unfold check_budget in H. inv_dec.
  unfold remaining_decode_budget, saturating_sub in *. rewrite Z.max_r in * by lia. inv_ok.
  rewrite Z.leb_le in *. split; [done|lia].
Qed.

Lemma check_budget_reads start maximum d :
  start <= position d -> position d <= start + maximum ->
  reads d (check_budget start maximum) [] (maximum - (position d - start)).
Proof.
  intros S B. unfold check_budget. eapply reads_nil_bind; [apply reads_get|]. apply reads_res.
  unfold remaining_decode_budget, saturating_sub. rewrite Z.max_r by lia.
  rewrite (proj2 (Z.leb_le _ _)) by lia. done.
Qed.

Ltac budget_inv :=
  match goal with H : check_budget _ _ ?d = (Ok _, _) |- _ =>
    apply check_budget_inv in H as (-> & -> & ?); [|lia] end.

Ltac taken T :=
  pose proof (took_position _ _ _ T); pose proof (took_wf _ _ _ T).

Lemma varbytes_budgeted start maximum field :
  maximum <= MAX_TRANSACTION_RAW_SIZE ->
  budgeted start maximum (read_transaction_varbytes start maximum field) var_bytes (fun _ => True).
Proof.
  intros Hm. split.
  - intros d v d' S W H. unfold read_transaction_varbytes in H.
    dbind H as n d1 T1. took_all. taken T1. slen. pose proof (compact_size_len_range n).
    dbind H as m d2 Hb. budget_inv. inv_dec. inv_ok. rewrite Z.leb_le in *.
    apply read_bounded_vec_inv in H as (T2 & L & _); [|lia|done]. taken T2. subst n.
    split; [by eapply took_trans|]. split; [done|]. lia.
  - intros d v S B _. pose proof (len_nonneg v). pose proof (compact_size_len_range (len v)).
    unfold read_transaction_varbytes, var_bytes in *. rewrite len_app, len_compact_bytes in B.
    eapply reads_bind; [apply reads_err, read_compact_usize_reads; tx_unfold; ulia|].
    eapply reads_nil_bind; [apply check_budget_reads; cbn; slen; lia|].
    eapply reads_nil_bind; [apply reads_get|].
    eapply reads_nil_bind; [apply reads_assert, Z.leb_le; cbn; slen; lia|].
    apply reads_err, read_bounded_vec_reads. cbn. slen. lia.
Qed.

Lemma witness_budgeted start maximum :
  maximum <= MAX_TRANSACTION_RAW_SIZE ->
  budgeted start maximum (Witness_decode_from start maximum) wit_bytes
    (fun w => len (wit_items w) <= MAX_WITNESS_ITEMS).
Proof.
  intros Hm. split.
  - intros d v d' S W H. unfold Witness_decode_from in H.
    dbind H as n d1 T1. took_all. taken T1. slen. pose proof (compact_size_len_range n).
    dbind H as b d2 Hb. budget_inv. dbind H as items d3 Hi. inv_dec.
    eapply budgeted_n_inv in Hi as (T2 & _ & L & B); [|by apply varbytes_budgeted|lia|done].
    assert (len items = n) as <- by (unfold len; lia). cbn [wit_items].
    split; [by eapply took_trans|]. split; [lia|done].
  - intros d v S B P. pose proof (len_nonneg (wit_items v)).
    pose proof (compact_size_len_range (len (wit_items v))).
    pose proof (len_nonneg (mjoin (var_bytes <$> wit_items v))).
    rewrite len_wit_bytes in B. unfold Witness_decode_from, wit_bytes.
    eapply reads_bind; [apply reads_err, read_compact_usize_reads; tx_unfold; ulia|].
    eapply reads_nil_bind; [apply check_budget_reads; cbn; slen; lia|].
    replace (Z.to_nat (len (wit_items v))) with (length (wit_items v)) by (unfold len; lia).
    eapply reads_last.
    { eapply budgeted_n_reads; [by apply varbytes_budgeted|cbn; slen; lia|cbn; slen; lia|].
      by apply Forall_true. }
    destruct v. apply reads_ret.
Qed.

Lemma decode_outpoint_inv d o d' :
  dec_wf d -> decode_outpoint_from d = (Ok o, d') ->
  took d (Outpoint_encode o) d' /\ Outpoint_wf o.
Proof.
  intros W H. unfold decode_outpoint_from in H. inv_dec. took_all.
  split; [by eapply took_trans|]. split; [unfold len in *; cbn; lia|done].
Qed.

Lemma decode_outpoint_reads d o :
  Outpoint_wf o -> reads d decode_outpoint_from (Outpoint_encode o) o.
Proof.
  intros (L & R). unfold decode_outpoint_from, Outpoint_encode.
  eapply reads_bind; [apply reads_err, read_array_reads; unfold len; lia|].
  eapply reads_last; [by apply reads_err, read_u32_reads|]. destruct o. apply reads_ret.
Qed.

Lemma input_budgeted start :
  budgeted start MAX_TRANSACTION_SIZE (read_input start) input_bytes
    (fun i => input_wf i /\ in_witness i = Witness_default).
Proof.
  split.
  - intros d v d' S W H. unfold read_input, Input_decode_base_from in H.
    dbind H as i d1 Hi. dbind Hi as o d2 Ho. apply decode_outpoint_inv in Ho as (T & Wo); [|done].
    taken T. pose proof (len_nonneg (Outpoint_encode o)).
    dbind Hi as q d3 T2. took_all. taken T2. pose proof (len_to_le_bytes 4 q). inv_dec. budget_inv.
    split; [by eapply took_trans|]. split; [done|]. lia.
  - intros d v S B ((Wo & Ws) & Ww). unfold read_input, input_bytes in *.
    eapply reads_last.
    + unfold Input_decode_base_from. eapply reads_bind; [by apply decode_outpoint_reads|].
      eapply reads_last; [by apply reads_err, read_u32_reads|].
      rewrite <- Ww. destruct v. apply reads_ret.
    + eapply reads_nil_bind; [|apply reads_ret].
      pose proof (len_nonneg (Outpoint_encode (in_previous_output v) ++ to_le_bytes 4 (in_sequence v))).
      apply check_budget_reads; cbn [advance position]; lia.
Qed.

Lemma Address_decode_inv d a d' :
  dec_wf d -> Address_decode_from d = (Ok a, d') -> took d (addr_bytes a) d' /\ addr_ok a.
Proof.
  intros W H. unfold Address_decode_from in H.
  dbind H as v d1 T1. took_all. dbind H as l d2 T2. took_all. dbind H as h d3 T3.
  pose proof (b2z_range l). apply read_bounded_vec_inv in T3 as (T3 & L & _); [|lia|done].
  inv_dec. unfold Address_new in *. inv_ok. destruct x. rewrite <- Address_validate_Ok. split; [|done].
  unfold addr_bytes. cbn [addr_hash addr_version]. rewrite L, z2b_b2z. took_chain.
Qed.

Lemma Address_decode_reads d a :
  addr_ok a -> reads d Address_decode_from (addr_bytes a) a.
Proof.
  intros A. assert (V := proj2 (Address_validate_Ok a) A). destruct A as (_ & L & _).
  unfold Address_decode_from, addr_bytes. do 2 reads_step. rewrite z2b_small by lia.
  eapply reads_last; [apply reads_err, read_bounded_vec_reads; tx_unfold; lia|].
  apply reads_res. unfold Address_new. destruct a. cbn in *. by rewrite V.
Qed.

Lemma output_budgeted start :
  budgeted start MAX_TRANSACTION_SIZE (Output_decode_from start MAX_TRANSACTION_SIZE) out_bytes
    (fun o => out_wf o /\ out_fits o).
Proof.
  split.
  - intros d v d' S W H. unfold Output_decode_from in H.
    dbind H as a d1 T1. took_all. taken T1. pose proof (len_to_le_bytes 8 a).
    dbind H as ad d2 T2. apply Address_decode_inv in T2 as (T2 & A); [|done]. taken T2.
    pose proof (len_nonneg (addr_bytes ad)). dbind H as r d3 Hb. budget_inv.
    dbind H as c d4 T3. apply Covenant_decode_from_inv in T3 as (T3 & (K & F) & _); [|done].
    taken T3. pose proof (len_nonneg (cov_bytes c)). dbind H as r2 d5 Hb. budget_inv. inv_dec.
    split; [unfold out_bytes; took_chain|]. split; [done|]. lia.
  - intros d v S B ((Wv & K) & A & F). rewrite len_out_bytes in B.
    unfold Output_decode_from, out_bytes. pose proof (len_addr_bytes (out_address v)).
    pose proof (len_nonneg (addr_hash (out_address v))).
    pose proof (len_nonneg (cov_bytes (out_covenant v))).
    eapply reads_bind; [by apply reads_err, read_u64_reads|].
    eapply reads_bind; [by apply Address_decode_reads|].
    eapply reads_nil_bind; [apply check_budget_reads; cbn [advance position]; slen; lia|].
    eapply reads_last; [apply reads_err, Covenant_decode_from_reads; [done|]|].
    { cbn [advance position]. slen. lia. }
    eapply reads_nil_bind; [apply check_budget_reads; cbn [advance position]; slen; lia|].
    destruct v. apply reads_ret.
Qed.

(** *** The witness pass over the inputs *)
Definition strip (i : Input) : Input := set_witness i Witness_default.

Lemma strip_default i : in_witness i = Witness_default -> strip i = i.
Proof. destruct i; cbn. by intros ->. Qed.

Lemma strip_base ins : mjoin (input_bytes <$> (strip <$> ins)) = mjoin (input_bytes <$> ins).
Proof.
  induction ins as [|i ins IH]; [done|]. rewrite !fmap_cons', !join_cons. by rewrite IH.
Qed.

Lemma strip_wf ins : Forall input_wf (strip <$> ins) <-> Forall input_wf ins.
Proof. by rewrite Forall_fmap. Qed.

Lemma strip_all ins :
  Forall (fun i => input_wf i /\ in_witness i = Witness_default) ins -> strip <$> ins = ins.
Proof.
  induction 1 as [|i ins (_ & Hi) _ IH]; [done|]. rewrite fmap_cons', IH. by rewrite strip_default.
Qed.

Lemma witness_bytes_cons i ins : witness_bytes (i :: ins) = wit_bytes (in_witness i) ++ witness_bytes ins.
Proof. done. Qed.

Lemma read_witnesses_inv start maximum ins d ins' d' :
  maximum <= MAX_TRANSACTION_RAW_SIZE -> start <= position d <= start + maximum -> dec_wf d ->
  read_witnesses start maximum ins d = (Ok ins', d') ->
  took d (witness_bytes ins') d' /\ strip <$> ins' = strip <$> ins /\
  Forall (fun i => len (wit_items (in_witness i)) <= MAX_WITNESS_ITEMS) ins' /\
  position d' <= start + maximum.
Proof.
  intros Hm. revert d ins' d'; induction ins as [|i ins IH]; intros d ins' d' S W H;
    cbn [read_witnesses] in H.
  { inv_dec. split; [by apply took_refl|]. split; [done|]. split; [done|lia]. }
  dbind H as w d1 Hw. dbind H as r d2 Hr. inv_dec.
  eapply budgeted_inv in Hw as (T & P & B); [|by apply witness_budgeted|lia|done].
  taken T. pose proof (len_nonneg (wit_bytes w)).
  apply IH in Hr as (T2 & E & F & B2); [|lia|done].
  rewrite witness_bytes_cons, !fmap_cons', E. split; [by eapply took_trans|].
  split; [by destruct i|]. split; [by constructor|done].
Qed.

Lemma read_witnesses_reads start maximum d ins :
  maximum <= MAX_TRANSACTION_RAW_SIZE -> start <= position d ->
  position d + len (witness_bytes ins) <= start + maximum ->
  Forall (fun i => len (wit_items (in_witness i)) <= MAX_WITNESS_ITEMS) ins ->
  reads d (read_witnesses start maximum (strip <$> ins)) (witness_bytes ins) ins.
Proof.
  intros Hm. revert d; induction ins as [|i ins IH]; intros d S B F; [apply reads_ret|].
  rewrite witness_bytes_cons, len_app in *. apply Forall_cons in F as (Fi & F).
  pose proof (len_nonneg (wit_bytes (in_witness i))). pose proof (len_nonneg (witness_bytes ins)).
  rewrite fmap_cons'. cbn [read_witnesses].
  eapply reads_bind.
  { eapply budgeted_reads; [by apply witness_budgeted|done|lia|done]. }
  eapply reads_last; [apply IH; cbn [advance position]; first [lia|done]|].
  destruct i. apply reads_ret.
Qed.

Lemma witness_bytes_item ins i : i ∈ ins -> len (wit_bytes (in_witness i)) <= len (witness_bytes ins).
Proof.
  induction 1 as [j l|j k l _ IH]; rewrite witness_bytes_cons, len_app.
  - pose proof (len_nonneg (witness_bytes l)). lia.
  - pose proof (len_nonneg (wit_bytes (in_witness k))). lia.
Qed.

(** The per-witness limits follow from the count and the total. *)
Lemma wit_fits_all ins :
  len (witness_bytes ins) <= MAX_TRANSACTION_RAW_SIZE ->
  Forall (fun i => len (wit_items (in_witness i)) <= MAX_WITNESS_ITEMS) ins <->
  Forall (fun i => wit_fits (in_witness i)) ins.
Proof.
  intros L. rewrite !Forall_forall. unfold wit_fits. split; intros H i Hi.
  - split; [by apply H|]. pose proof (witness_bytes_item ins i Hi). lia.
  - by apply H.
Qed.

(** *** Whole transactions *)
Definition base_fits (tx : Transaction) : Prop :=
  len (tx_inputs tx) <= MAX_TRANSACTION_SIZE / 40 /\
  len (tx_outputs tx) <= MAX_TRANSACTION_SIZE / 12 /\ Forall out_fits (tx_outputs tx).

Lemma read_base_inv start d tx d' :
  start <= position d -> dec_wf d -> read_base start d = (Ok tx, d') ->
  took d (base_bytes tx) d' /\ Transaction_wf tx /\ base_fits tx /\
  strip <$> tx_inputs tx = tx_inputs tx.
Proof.
  intros S W H. unfold read_base in H.
  dbind H as ver d2 T1. took_all. taken T1. rewrite len_to_le_bytes in *.
  dbind H as nin d3 T2. took_all. taken T2. rewrite len_compact_bytes in *.
  pose proof (compact_size_len_range nin). dbind H as r1 d4 Hb. budget_inv.
  dbind H as ins d4 T3.
  eapply budgeted_n_inv in T3 as (T3 & Fi & Li & _); [|apply input_budgeted|lia|done]. taken T3.
  pose proof (len_nonneg (mjoin (input_bytes <$> ins))).
  dbind H as nout d5 T4. took_all. taken T4. rewrite len_compact_bytes in *.
  pose proof (compact_size_len_range nout). dbind H as r2 d6 Hb. budget_inv.
  dbind H as outs d6 T5.
  eapply budgeted_n_inv in T5 as (T5 & Fo & Lo & _); [|apply output_budgeted|lia|done]. taken T5.
  dbind H as lock d7 T6. took_all. inv_dec.
  assert (len ins = nin) as <- by (unfold len; lia).
  assert (len outs = nout) as <- by (unfold len; lia).
  apply Forall_and in Fo as (Fo1 & Fo2). pose proof (strip_all _ Fi). apply Forall_and in Fi as (Fi & _).
  unfold base_bytes, Transaction_wf, base_fits. cbn [tx_version tx_inputs tx_outputs tx_locktime].
  split; [took_chain|]. repeat split; try done; ulia.
Qed.

Lemma read_base_reads start d tx :
  start <= position d -> position d + len (base_bytes tx) <= start + MAX_TRANSACTION_SIZE ->
  Transaction_wf tx -> base_fits tx ->
  reads d (read_base start) (base_bytes tx)
    (mkTransaction (tx_version tx) (strip <$> tx_inputs tx) (tx_outputs tx) (tx_locktime tx)).
Proof.
  intros S B (Wv & Wl & Wi & Wo) (Fi & Fo & Fs). unfold read_base, base_bytes in *.
  rewrite !len_app, !len_to_le_bytes, !len_compact_bytes in B.
  pose proof (len_nonneg (tx_inputs tx)). pose proof (len_nonneg (tx_outputs tx)).
  pose proof (len_nonneg (mjoin (out_bytes <$> tx_outputs tx))).
  pose proof (len_nonneg (mjoin (input_bytes <$> tx_inputs tx))).
  pose proof (compact_size_len_range (len (tx_inputs tx))).
  pose proof (compact_size_len_range (len (tx_outputs tx))).
  change (MAX_TRANSACTION_SIZE / 40) with 25000 in *. change (MAX_TRANSACTION_SIZE / 12) with 83333 in *.
  reads_step. eapply reads_bind; [apply reads_err, read_compact_usize_reads; ulia|].
  eapply reads_nil_bind; [apply check_budget_reads; cbn [advance position]; slen; lia|].
  replace (Z.to_nat (len (tx_inputs tx))) with (length (strip <$> tx_inputs tx))
    by (rewrite length_fmap; unfold len; lia).
  rewrite <- strip_base. eapply reads_bind.
  { eapply budgeted_n_reads; [apply input_budgeted|cbn [advance position]; slen; lia| |].
    - rewrite strip_base. cbn [advance position]. slen. lia.
    - apply Forall_fmap. eapply Forall_impl; [exact Wi|]. done. }
  eapply reads_bind; [apply reads_err, read_compact_usize_reads; ulia|].
  eapply reads_nil_bind.
  { rewrite strip_base. apply check_budget_reads; cbn [advance position]; slen; lia. }
  replace (Z.to_nat (len (tx_outputs tx))) with (length (tx_outputs tx)) by (unfold len; lia).
  eapply reads_bind.
  { eapply budgeted_n_reads; [apply output_budgeted| | |by apply Forall_and];
      rewrite strip_base; cbn [advance position]; slen; lia. }
  eapply reads_last; [by apply reads_err, read_u32_reads|]. apply reads_ret.
Qed.

Lemma witness_budget_Ok b m :
  0 <= b <= MAX_TRANSACTION_SIZE ->
  witness_budget b = Ok m <-> m = MAX_TRANSACTION_WEIGHT - 3 * b.
Proof.
  intros. unfold witness_budget, checked_mul, checked_sub, checked_add.
  rewrite (proj2 (Z.leb_le _ usize_max)) by (tx_unfold; ulia). cbn [ok_or mbind result_bind].
  rewrite (proj2 (Z.leb_le _ _)) by (tx_unfold; ulia). cbn [ok_or mbind result_bind].
  rewrite (proj2 (Z.leb_le _ usize_max)) by (tx_unfold; ulia). cbn [ok_or mbind result_bind].
  rewrite Z.min_l by (tx_unfold; lia). split; [intros [= <-]; lia|intros ->; f_equal; lia].
Qed.

Lemma base_bytes_inputs tx ins :
  mjoin (input_bytes <$> ins) = mjoin (input_bytes <$> tx_inputs tx) ->
  len ins = len (tx_inputs tx) ->
  base_bytes (mkTransaction (tx_version tx) ins (tx_outputs tx) (tx_locktime tx)) = base_bytes tx.
Proof. intros E L. unfold base_bytes. cbn [tx_version tx_inputs tx_outputs tx_locktime]. by rewrite E, L. Qed.

Lemma Transaction_decode_from_inv d tx d' :
  dec_wf d -> Transaction_decode_from d = (Ok tx, d') ->
  took d (base_bytes tx ++ witness_bytes (tx_inputs tx)) d' /\ Transaction_wf tx /\ tx_fits tx.
Proof.
  intros W H. unfold Transaction_decode_from in H.
  dbind H as d0 d1 HD. injection HD as <- <-. cbv zeta in H.
  dbind H as base d1 T1. apply read_base_inv in T1 as (T1 & (Wv & Wl & Wi & Wo) & (Fi & Fo & Fs) & St);
    [|lia|done]. taken T1. pose proof (len_nonneg (base_bytes base)).
  dbind H as d8 d9 HD. injection HD as <- <-. dbind H as r3 d9 Hb. budget_inv.
  unfold saturating_sub in H. rewrite Z.max_r in H by lia.
  dbind H as m d9 HW. apply witness_budget_Ok in HW as ->; [|lia].
  dbind H as ins d10 T2. apply read_witnesses_inv in T2 as (T2 & Es & Fw & Bw);
    [|tx_unfold; lia|tx_unfold; lia|done]. taken T2. pose proof (len_nonneg (witness_bytes ins)).
  dbind H as r4 d13 Hb. budget_inv. inv_dec.
  assert (len ins = len (tx_inputs base)) as L.
  { apply (f_equal length) in Es. rewrite !length_fmap in Es. unfold len. lia. }
  rewrite St in Es. unfold tx_fits, Transaction_wf.
  rewrite base_bytes_inputs; [|by rewrite <- Es, strip_base|done].
  cbn [tx_version tx_inputs tx_outputs tx_locktime]. rewrite L.
  rewrite <- (wit_fits_all ins) by (tx_unfold; lia). rewrite <- (strip_wf ins), Es.
  split; [by eapply took_trans|]. repeat split; try done; ulia.
Qed.

Lemma Transaction_decode_from_reads d tx :
  Transaction_wf tx -> tx_fits tx ->
  reads d Transaction_decode_from (base_bytes tx ++ witness_bytes (tx_inputs tx)) tx.
Proof.
  intros Wt (Fi & Fo & Fs & Fw & Bb & Bw).
  pose proof (len_nonneg (base_bytes tx)). pose proof (len_nonneg (witness_bytes (tx_inputs tx))).
  unfold Transaction_decode_from. eapply reads_nil_bind; [apply reads_get|]. cbv zeta.
  eapply reads_bind; [apply read_base_reads; [lia|lia|done|done]|].
  eapply reads_nil_bind; [apply reads_get|]. cbn [advance position]. unfold saturating_sub.
  rewrite Z.max_r by lia. replace (position d + len (base_bytes tx) - position d)
    with (len (base_bytes tx)) by lia.
  eapply reads_nil_bind; [apply check_budget_reads; cbn [advance position]; lia|].
  eapply reads_nil_bind; [apply reads_res, witness_budget_Ok; [lia|reflexivity]|].
  eapply reads_last.
  { apply read_witnesses_reads; cbn [advance position]; [tx_unfold; lia|lia|lia|].
    apply wit_fits_all; [tx_unfold; lia|done]. }
  eapply reads_nil_bind; [apply check_budget_reads; cbn [advance position]; lia|].
  destruct tx. apply reads_ret.
Qed.

Lemma Transaction_decode_Ok input tx :
  Transaction_decode input = Ok tx <->
  Transaction_wf tx /\ tx_fits tx /\ input = base_bytes tx ++ witness_bytes (tx_inputs tx).
Proof.
  unfold Transaction_decode. rewrite bind_Ok. setoid_rewrite assert_or_Ok. setoid_rewrite Z.leb_le.
  split.
  - intros (_ & L & H). apply run_all_Ok in H as (d & H & F).
    apply Transaction_decode_from_inv in H as (T & Wt & Ft); [|apply wf_new; tx_unfold; ulia].
    split; [done|]. split; [done|]. symmetry. by eapply took_finish.
  - intros (Wt & Ft & ->). exists tt. rewrite len_app.
    pose proof (len_nonneg (base_bytes tx)).
    assert (4 * len (base_bytes tx) + len (witness_bytes (tx_inputs tx)) <= MAX_TRANSACTION_WEIGHT)
      by apply Ft.
    split; [tx_unfold; lia|].
    apply run_all_reads; [rewrite len_app; tx_unfold; ulia|]. by apply Transaction_decode_from_reads.
Qed.

(** ** Properties *)

(** The transaction codec is a bijection: an input decodes to a transaction
    exactly when the transaction is well typed (with canonical covenant kinds)
    and encodes to that input. The decoder's running budgets therefore accept
    precisely what the encoder's size, count and weight limits allow. *)
Theorem transaction_codec input tx :
  Transaction_decode input = Ok tx <-> Transaction_wf tx /\ Transaction_encode tx = Ok input.
Proof.
  rewrite Transaction_decode_Ok. split.
  - intros (W & F & ->). split; [done|]. apply Transaction_encode_Ok; [apply W|done].
  - intros (W & E). apply Transaction_encode_Ok in E as (-> & F); [done|apply W].
Qed.

(** The size functions are exact on every encodable transaction: [size] is
    the length of the encoding, which is the base encoding followed by the
    witness encoding, and the weight is four times the base plus the witness
    bytes, within the consensus maximum. *)
Theorem transaction_sizes tx bs (W : Transaction_wf tx) (E : Transaction_encode tx = Ok bs) :
  exists base witness,
    base_encode tx = Ok base /\ witness_encode tx = Ok witness /\ bs = base ++ witness /\
    Transaction_base_size tx = Ok (len base) /\ Transaction_size tx = Ok (len bs) /\
    Transaction_weight tx = Ok (4 * len base + len witness) /\
    len base <= MAX_TRANSACTION_SIZE /\ 4 * len base + len witness <= MAX_TRANSACTION_WEIGHT.
Proof.
  assert (Wi : Forall input_wf (tx_inputs tx)) by apply W.
  apply Transaction_encode_Ok in E as (-> & F); [|done].
  pose proof (len_nonneg (base_bytes tx)). pose proof (len_nonneg (witness_bytes (tx_inputs tx))).
  pose proof (encoded_sizes_fits tx Wi F) as S. destruct F as (? & ? & ? & ? & ? & Bw).
  exists (base_bytes tx), (witness_bytes (tx_inputs tx)).
  assert (base_encoded_size tx = Ok (len (base_bytes tx))) as Sb
    by (by apply base_encoded_size_Ok).
  split; [by apply base_encode_Ok|].
  split; [apply witness_encode_Ok; split; [done|]; split; [tx_unfold; lia|done]|].
  split; [done|]. split; [done|].
  split; [|split; [|done]].
  - unfold Transaction_size. apply bind_Ok. eexists. split; [exact S|].
    apply ok_or_Ok, checked_add_Some. rewrite len_app. split; [done|]. tx_unfold. ulia.
  - unfold Transaction_weight. apply bind_Ok. eexists. split; [exact S|].
    apply transaction_weight_Ok; [lia|tx_unfold; lia|done].
Qed.

(** Decoding from a stream takes exactly one transaction: after the bytes of
    an encodable transaction, whatever follows, [decode_prefix] returns it and
    its length; and whatever it returns re-encodes to the bytes it consumed. *)
Theorem transaction_decode_prefix_exact input tx n (L : len input <= isize_max) :
  Transaction_decode_prefix input = Ok (tx, n) <->
  exists bs rest, Transaction_wf tx /\ Transaction_encode tx = Ok bs /\
    input = bs ++ rest /\ n = len bs.
Proof.
  assert (dec_wf (Decoder_new input)) as W by (by apply wf_new).
  unfold Transaction_decode_prefix. split.
  - destruct (Transaction_decode_from (Decoder_new input)) as [[tx'|e] d] eqn:E; [|done].
    intros [= -> <-]. apply Transaction_decode_from_inv in E as (T & Wt & Ft); [|done].
    eexists _, (rest d). split; [done|]. split; [apply Transaction_encode_Ok; [apply Wt|done]|].
    split; [by destruct T as (T0 & _)|]. by rewrite (took_position _ _ _ T).
  - intros (bs & r & Wt & E & -> & ->). apply Transaction_encode_Ok in E as (-> & Ft); [|apply Wt].
    by rewrite (Transaction_decode_from_reads _ tx Wt Ft r W).
Qed.

Section identity.
Context {CR : Crypto}.

(** The transaction hash commits to the base part only: transactions that
    differ in their witnesses alone have the same hash, so a signature cannot
    change the outpoints other transactions refer to. *)
Theorem transaction_hash_ignores_witness tx ins (E : strip <$> ins = strip <$> tx_inputs tx) :
  Transaction_transaction_hash
    (mkTransaction (tx_version tx) ins (tx_outputs tx) (tx_locktime tx)) =
  Transaction_transaction_hash tx.
Proof.
  assert (len ins = len (tx_inputs tx)) as L.
  { apply (f_equal length) in E. rewrite !length_fmap in E. unfold len. lia. }
  assert (forall e, foldl Input_encode_base_to e ins = foldl Input_encode_base_to e (tx_inputs tx))
    as P.
  { intros e. symmetry. destruct (foldl Input_encode_base_to e ins) as [bs] eqn:F. apply encoder_eq.
    apply (f_equal bytes) in F. rewrite bytes_put_inputs in *. cbn in F.
    by rewrite <- F, <- (strip_base ins), E, strip_base. }
  unfold Transaction_transaction_hash, base_encode.
  assert (base_encoded_size (mkTransaction (tx_version tx) ins (tx_outputs tx) (tx_locktime tx)) =
    base_encoded_size tx) as -> by (unfold base_encoded_size; cbn [tx_inputs tx_outputs]; by rewrite L).
  destruct (base_encoded_size tx) as [n|e]; [|done].
  cbn [tx_version tx_inputs tx_outputs tx_locktime mbind result_bind]. by rewrite L, P.
Qed.

End identity.

(** A transaction with one input, its witness and one output. *)
Definition sample_tx : Transaction :=
  mkTransaction 1
    [mkInput (mkOutpoint (zeros 32) 3) 0xffffffff (mkWitness [[z2b 1; z2b 2]; []])]
    [mkOutput 5000 (mkAddress (z2b 0) (zeros 20)) (mkCovenant KOpen [zeros 32; zeros 4; bstr "alpha"])]
    0.

Definition sample_bytes : list byte :=
  match Transaction_encode sample_tx with Ok bs => bs | Err _ => [] end.

Lemma sample_tx_wf : Transaction_wf sample_tx.
Proof. repeat split; repeat constructor; vm_compute; discriminate. Defined.

Lemma transaction_sizes_witness :
  exists base witness, Transaction_size sample_tx = Ok (len sample_bytes) /\
    sample_bytes = base ++ witness /\ Transaction_weight sample_tx = Ok (4 * len base + len witness).
Proof.
  destruct (transaction_sizes sample_tx sample_bytes sample_tx_wf) as (b & w & ? & ? & ? & ? & ? & ? & ?);
    [vm_compute; reflexivity|]. exists b, w. auto.
Defined.
