(* ===== verification/Block.v ===== *)
(** * hns-mining: block commitments and block bodies

    Models the first half of [crates/hns-mining/src/lib.rs]: the Merkle tree over
    transaction hashes, the block codec with its size and weight limits, the
    context-free sanity checks of a transaction and of a block body. [Mining]
    models the coinbase and the mining jobs built on them. *)

From stdpp Require Import gmap.
From S2P Require Import Prelude Encoding Primitives Covenants Transaction U256 Header.
Local Open Scope Z_scope.

Definition COIN : Z := 1000000.
Definition BASE_REWARD : Z := 2000 * COIN.
Definition MAX_MONEY : Z := 2040000000 * COIN.
Definition MAX_BLOCK_BASE_SIZE : Z := 1000000.
Definition MAX_BLOCK_WEIGHT : Z := 4000000.
Definition MAX_BLOCK_OPENS : Z := 300.
Definition MAX_BLOCK_UPDATES : Z := 600.
Definition MAX_BLOCK_RENEWALS : Z := 600.
Definition MAX_COVENANT_SIZE : Z := 585.
Definition MAX_COINBASE_WITNESS_SIZE : Z := 1000.
Definition MAX_COINBASE_CLAIM_WITNESS_ITEM_SIZE : Z := 10000.
Definition WITNESS_SCALE_FACTOR : Z := 4.

Record Block := mkBlock { blk_header : Header; blk_transactions : list Transaction }.

Record BlockMetrics := mkMetrics {
  bm_base_size : Z;
  bm_witness_size : Z;
  bm_serialized_size : Z;
  bm_weight : Z;
  bm_merkle_root : list byte;
  bm_witness_root : list byte;
}.

Inductive MiningError :=
| MDecode (e : DecodeError)
| MHeader (e : HeaderError)
| MTransaction (e : TransactionError)
| MArithmetic (e : ArithmeticError)
| InvalidSnapshot
| InvalidTemplate
| InvalidJob
| InvalidCoinbaseHeight
| StaleJob
| InvalidReconstruction
| InsufficientProofOfWork
| JobConflict
| JobCapacity
| UnknownJob
| InvalidHalvingInterval
| GenerationOutOfRange (generation : Z)
| MArithmeticOverflow
| OutputValue
| InvalidTransaction (reason : string)
| InvalidBlockBody (reason : string).

Section block.
Context {CR : Crypto}.

(** ** The Merkle tree *)
Definition blake2b_256_many (parts : list (list byte)) : list byte := blake2b 32 (mjoin parts).
Definition blake2b_256 (input : list byte) : list byte := blake2b_256_many [input].

Definition merkle_leaf (hash : list byte) : list byte := blake2b_256_many [[x00]; hash].
Definition merkle_node (lhs rhs : list byte) : list byte := blake2b_256_many [[x01]; lhs; rhs].

(** One round of the loop: [nodes.chunks(2)], an odd last node paired with the
    sentinel. *)
Fixpoint merkle_level (sentinel : list byte) (nodes : list (list byte)) : list (list byte) :=
  match nodes with
  | lhs :: rhs :: nodes => merkle_node lhs rhs :: merkle_level sentinel nodes
  | [lhs] => [merkle_node lhs sentinel]
  | [] => []
  end.

(** [while nodes.len() > 1]; a round halves the level, so the number of leaves is
    enough fuel. *)
Fixpoint merkle_loop (fuel : nat) (sentinel : list byte) (nodes : list (list byte))
  : list (list byte) :=
  match fuel, nodes with
  | S fuel, _ :: _ :: _ => merkle_loop fuel sentinel (merkle_level sentinel nodes)
  | _, _ => nodes
  end.

Definition merkle_root (hashes : list (list byte)) : list byte :=
  let sentinel := blake2b_256 [] in
  let nodes := merkle_leaf <$> hashes in
  match nodes with
  | [] => sentinel
  | _ => default [] (head (merkle_loop (length nodes) sentinel nodes))
  end.

Definition block_merkle_root (transactions : list Transaction) : result MiningError (list byte) :=
  hashes ← map_err MTransaction (try_map Transaction_transaction_hash transactions);
  Ok (merkle_root hashes).

Definition block_witness_root (transactions : list Transaction) : result MiningError (list byte) :=
  hashes ← map_err MTransaction (try_map Transaction_witness_hash transactions);
  Ok (merkle_root hashes).

(** ** Sizes *)
Definition metrics_step (sizes : Z * Z) (tx : Transaction) : result MiningError (Z * Z) :=
  let '(base_size, witness_size) := sizes in
  base ← map_err MTransaction (Transaction_base_size tx);
  base_size ← ok_or (checked_add usize_max base_size base) MArithmeticOverflow;
  witness ← map_err MTransaction (witness_encode tx);
  witness_size ← ok_or (checked_add usize_max witness_size (len witness)) MArithmeticOverflow;
  Ok (base_size, witness_size).

Definition block_metrics (transactions : list Transaction) : result MiningError BlockMetrics :=
  let count_size := compact_size_len (len transactions) in
  base_size ← ok_or (checked_add usize_max HEADER_SIZE count_size) MArithmeticOverflow;
  '(base_size, witness_size) ← try_fold metrics_step (base_size, 0) transactions;
  serialized_size ← ok_or (checked_add usize_max base_size witness_size) MArithmeticOverflow;
  weight ← ok_or
    (base ← checked_mul usize_max base_size WITNESS_SCALE_FACTOR;
     checked_add usize_max base witness_size) MArithmeticOverflow;
  merkle_root ← block_merkle_root transactions;
  witness_root ← block_witness_root transactions;
  Ok (mkMetrics base_size witness_size serialized_size weight merkle_root witness_root).

Definition validate_block_limits (block : Block) : result MiningError BlockMetrics :=
  assert_or (len (blk_transactions block) <=? MAX_BLOCK_BASE_SIZE)
    (InvalidBlockBody "invalid transaction count") ;;
  metrics ← block_metrics (blk_transactions block);
  assert_or (bm_base_size metrics <=? MAX_BLOCK_BASE_SIZE)
    (InvalidBlockBody "base size exceeds limit") ;;
  assert_or (bm_weight metrics <=? MAX_BLOCK_WEIGHT)
    (InvalidBlockBody "weight exceeds limit") ;;
  Ok metrics.

(** ** Codec *)
Definition Block_read : decM MiningError Block :=
  header_bytes ← lift_err MDecode (read_slice HEADER_SIZE);
  header ← lift_res (map_err MHeader (Header_decode header_bytes));
  count ← lift_err MDecode (read_compact_usize MAX_BLOCK_BASE_SIZE "block transactions");
  transactions ← read_n (Z.to_nat count) (lift_err MTransaction Transaction_decode_from);
  mret (mkBlock header transactions).

Definition Block_decode (input : list byte) : result MiningError Block :=
  assert_or (len input <=? MAX_BLOCK_WEIGHT)
    (InvalidBlockBody "serialized block exceeds allocation bound") ;;
  block ← run_all MDecode Block_read input;
  _ ← validate_block_limits block;
  Ok block.

Definition put_transaction (encoder : Encoder) (tx : Transaction) : result MiningError Encoder :=
  encoded ← map_err MTransaction (Transaction_encode tx); Ok (put_bytes encoder encoded).

Definition Block_encode (block : Block) : result MiningError (list byte) :=
  metrics ← validate_block_limits block;
  let encoder := with_capacity (bm_serialized_size metrics) in
  let encoder := put_bytes encoder (Header_encode (blk_header block)) in
  let encoder := put_compact_size encoder (len (blk_transactions block)) in
  encoder ← try_fold put_transaction encoder (blk_transactions block);
  Ok (into_bytes encoder).

(** ** Transaction sanity *)
(** [NameOperationCounts] as opens, updates and renewals. *)
Definition NameOperationCounts : Type := Z * Z * Z.

Definition count_output (counts : NameOperationCounts) (o : Output) : NameOperationCounts :=
  let '(opens, updates, renewals) := counts in
  match cov_kind (out_covenant o) with
  | KOpen => (saturating_add u32_max opens 1, saturating_add u32_max updates 1, renewals)
  | KClaim | KUpdate | KTransfer | KRevoke => (opens, saturating_add u32_max updates 1, renewals)
  | KRegister | KRenew | KFinalize => (opens, updates, saturating_add u32_max renewals 1)
  | _ => counts
  end.

Definition count_name_operations (tx : Transaction) : NameOperationCounts :=
  foldl count_output (0, 0, 0) (tx_outputs tx).

Definition item_at (items : list (list byte)) (index : nat) : list byte :=
  default [] (items !! index).

Definition item_lengths (items : list (list byte)) (expected : list Z) : bool :=
  (len items =? len expected) &&
  forallb (fun '(item, length) => (length =? usize_max) || (len item =? length)) (zip items expected).

Definition item_u32 (items : list (list byte)) (index : nat) : option Z :=
  item ← items !! index; item ← as_array 4 item; Some (from_le_bytes item).

Definition valid_name_hash (hash name : list byte) : bool :=
  match hash_name name with
  | Ok expected => bool_decide (expected = hash)
  | Err _ => false
  end.

(** The arms of [has_sane_covenants] for a coinbase output and for an output of
    another transaction; [items[i]] is only reached under a length check. *)
Definition sane_coinbase_output (tx : Transaction) (index : nat) (o : Output) : bool :=
  let items := cov_items (out_covenant o) in
  match cov_kind (out_covenant o) with
  | KNone => match items with [] => true | _ => false end
  | KClaim =>
    negb (Nat.eqb index 0) &&
    match tx_inputs tx !! index with
    | Some input => len (wit_items (in_witness input)) =? 1
    | None => false
    end &&
    item_lengths items [32; 4; usize_max; 1; 32; 4] &&
    valid_name_hash (item_at items 0) (item_at items 2)
  | _ => false
  end.

Definition sane_output (tx : Transaction) (index : nat) (o : Output) : bool :=
  let items := cov_items (out_covenant o) in
  let linked := Z.of_nat index <? len (tx_inputs tx) in
  match cov_kind (out_covenant o) with
  | KNone => match items with [] => true | _ => false end
  | KClaim => false
  | KOpen =>
    item_lengths items [32; 4; usize_max] && bool_decide (item_u32 items 1 = Some 0) &&
    valid_name_hash (item_at items 0) (item_at items 2)
  | KBid =>
    item_lengths items [32; 4; usize_max; 32] &&
    valid_name_hash (item_at items 0) (item_at items 2)
  | KReveal => linked && item_lengths items [32; 4; 32]
  | KRedeem => linked && item_lengths items [32; 4]
  | KRegister =>
    linked && item_lengths items [32; 4; usize_max; 32] &&
    (len (item_at items 2) <=? MAX_RESOURCE_SIZE)
  | KUpdate =>
    linked && item_lengths items [32; 4; usize_max] &&
    (len (item_at items 2) <=? MAX_RESOURCE_SIZE)
  | KRenew => linked && item_lengths items [32; 4; 32]
  | KTransfer =>
    linked && item_lengths items [32; 4; 1; usize_max] &&
    (b2z (default x00 (head (item_at items 2))) <=? 31) &&
    ((2 <=? len (item_at items 3)) && (len (item_at items 3) <=? 40))
  | KFinalize =>
    linked && item_lengths items [32; 4; usize_max; 1; 4; 4; 32] &&
    valid_name_hash (item_at items 0) (item_at items 2)
  | KRevoke => linked && item_lengths items [32; 4]
  | KUnknown _ =>
    (len items <=? MAX_COVENANT_ITEMS) &&
    match Covenant_encode (out_covenant o) with
    | Ok encoded => len encoded <=? MAX_COVENANT_SIZE
    | Err _ => false
    end
  end.

(** [iter().enumerate()] with a test on every element. *)
Fixpoint all_indexed {A} (f : nat -> A -> bool) (index : nat) (xs : list A) : bool :=
  match xs with
  | [] => true
  | x :: xs => f index x && all_indexed f (S index) xs
  end.

Definition has_sane_covenants (tx : Transaction) : bool :=
  if is_coinbase tx then
    (len (tx_inputs tx) <=? len (tx_outputs tx)) &&
    all_indexed (sane_coinbase_output tx) 0 (tx_outputs tx)
  else all_indexed (sane_output tx) 0 (tx_outputs tx).

(** The item sizes are added as [usize]; items are in memory, so the sum is exact. *)
Definition witness_size (w : Witness) : Z :=
  saturating_add usize_max (compact_size_len (len (wit_items w)))
    (foldl (fun total item =>
       total + saturating_add usize_max (compact_size_len (len item)) (len item)) 0 (wit_items w)).

Definition add_output_value (total : Z) (o : Output) : result MiningError Z :=
  map_err MTransaction (Address_validate (out_address o)) ;;
  total ← ok_or (checked_add u64_max total (out_value o)) OutputValue;
  assert_or (total <=? MAX_MONEY) OutputValue ;;
  Ok total.

Definition check_claim_input (i : Input) : result MiningError unit :=
  assert_or (Outpoint_is_null (in_previous_output i))
    (InvalidTransaction "coinbase claim input is not null") ;;
  assert_or (len (wit_items (in_witness i)) =? 1)
    (InvalidTransaction "coinbase claim input must have one witness item") ;;
  assert_or (len (item_at (wit_items (in_witness i)) 0) <=? MAX_COINBASE_CLAIM_WITNESS_ITEM_SIZE)
    (InvalidTransaction "coinbase claim witness item exceeds limit").

Definition check_spend (inputs : gset Outpoint) (i : Input) : result MiningError (gset Outpoint) :=
  assert_or (negb (Outpoint_is_null (in_previous_output i)))
    (InvalidTransaction "non-coinbase spends null outpoint") ;;
  assert_or (bool_decide (in_previous_output i ∉ inputs))
    (InvalidTransaction "transaction contains duplicate inputs") ;;
  Ok ({[in_previous_output i]} ∪ inputs).

Definition validate_inputs (tx : Transaction) : result MiningError unit :=
  if is_coinbase tx then
    match tx_inputs tx with
    | input :: claims =>
      assert_or (witness_size (in_witness input) <=? MAX_COINBASE_WITNESS_SIZE)
        (InvalidTransaction "coinbase witness exceeds limit") ;;
      try_each check_claim_input claims
    | [] => Ok tt
    end
  else _ ← try_fold check_spend ∅ (tx_inputs tx); Ok tt.

Definition validate_transaction_sanity (tx : Transaction) : result MiningError unit :=
  assert_or (negb (len (tx_inputs tx) =? 0)) (InvalidTransaction "transaction has no inputs") ;;
  assert_or (negb (len (tx_outputs tx) =? 0)) (InvalidTransaction "transaction has no outputs") ;;
  base_size ← map_err MTransaction (Transaction_base_size tx);
  (* [||]: the weight is computed only when the base size is within its limit *)
  (if MAX_BLOCK_BASE_SIZE <? base_size
   then Err (InvalidTransaction "transaction exceeds consensus size")
   else
     weight ← map_err MTransaction (Transaction_weight tx);
     assert_or (weight <=? MAX_BLOCK_WEIGHT)
       (InvalidTransaction "transaction exceeds consensus size")) ;;
  let '(opens, updates, renewals) := count_name_operations tx in
  assert_or (opens <=? MAX_BLOCK_OPENS) (InvalidTransaction "transaction open limit exceeded") ;;
  assert_or (updates <=? MAX_BLOCK_UPDATES)
    (InvalidTransaction "transaction update limit exceeded") ;;
  assert_or (renewals <=? MAX_BLOCK_RENEWALS)
    (InvalidTransaction "transaction renewal limit exceeded") ;;
  _ ← try_fold add_output_value 0 (tx_outputs tx);
  validate_inputs tx ;;
  assert_or (has_sane_covenants tx)
    (InvalidTransaction "transaction covenants are structurally invalid").

(** ** Block bodies *)
Definition is_exclusive (k : CovenantKind) : bool :=
  match k with
  | KClaim | KOpen | KRegister | KUpdate | KRenew | KTransfer | KFinalize | KRevoke => true
  | _ => false
  end.

(** One output: the names claimed by earlier transactions are refused, those of
    this transaction are collected. *)
Definition check_exclusive (exclusive_names transaction_names : gset (list byte)) (o : Output)
  : result MiningError (gset (list byte)) :=
  if is_exclusive (cov_kind (out_covenant o)) then
    name_hash ← ok_or (Covenant_item_name_hash (out_covenant o) 0)
      (InvalidBlockBody "name covenant hash has invalid length");
    assert_or (bool_decide (name_hash ∉ exclusive_names))
      (InvalidBlockBody "block contains duplicate exclusive name updates") ;;
    Ok ({[name_hash]} ∪ transaction_names)
  else Ok transaction_names.

Definition covenant_limits_step (st : NameOperationCounts * gset (list byte)) (tx : Transaction)
  : result MiningError (NameOperationCounts * gset (list byte)) :=
  let '((opens, updates, renewals), exclusive_names) := st in
  let '(tx_opens, tx_updates, tx_renewals) := count_name_operations tx in
  let counts := (saturating_add u32_max opens tx_opens, saturating_add u32_max updates tx_updates,
                 saturating_add u32_max renewals tx_renewals) in
  transaction_names ← try_fold (check_exclusive exclusive_names) ∅ (tx_outputs tx);
  Ok (counts, exclusive_names ∪ transaction_names).

Definition validate_block_covenant_limits (block : Block) : result MiningError unit :=
  '((opens, updates, renewals), _) ←
    try_fold covenant_limits_step ((0, 0, 0), ∅) (blk_transactions block);
  assert_or (opens <=? MAX_BLOCK_OPENS) (InvalidBlockBody "block open limit exceeded") ;;
  assert_or (updates <=? MAX_BLOCK_UPDATES) (InvalidBlockBody "block update limit exceeded") ;;
  assert_or (renewals <=? MAX_BLOCK_RENEWALS) (InvalidBlockBody "block renewal limit exceeded").

(** The loop over the transactions with their index. *)
Definition check_body_transaction (index : nat) (tx : Transaction) : result MiningError nat :=
  validate_transaction_sanity tx ;;
  assert_or (negb (negb (Nat.eqb index 0) && is_coinbase tx))
    (InvalidBlockBody "block contains multiple coinbase transactions") ;;
  Ok (S index).

Definition validate_block_body (block : Block) : result MiningError BlockMetrics :=
  metrics ← validate_block_limits block;
  match blk_transactions block with
  | [] => Err (InvalidBlockBody "invalid transaction count")
  | first :: _ =>
    assert_or (negb (bool_decide (bm_merkle_root metrics = zeros 32)))
      (InvalidBlockBody "zero merkle root") ;;
    assert_or (bool_decide (bm_merkle_root metrics = Header.merkle_root (blk_header block)))
      (InvalidBlockBody "merkle root mismatch") ;;
    assert_or (bool_decide (bm_witness_root metrics = Header.witness_root (blk_header block)))
      (InvalidBlockBody "witness root mismatch") ;;
    assert_or (is_coinbase first) (InvalidBlockBody "first transaction is not coinbase") ;;
    _ ← try_fold check_body_transaction 0%nat (blk_transactions block);
    validate_block_covenant_limits block ;;
    Ok metrics
  end.

Definition Block_decode_validated (input : list byte) : result MiningError Block :=
  block ← Block_decode input;
  _ ← validate_block_body block;
  Ok block.

End block.

(** ** The Merkle tree as a tree

    [mtree] is the tree the loop hashes, with explicit sentinels; hashing it gives
    the root, and reading its leaves gives the list back. *)
Inductive mtree :=
| MSentinel
| MLeaf (hash : list byte)
| MNode (l r : mtree).

Fixpoint mtree_level (ts : list mtree) : list mtree :=
  match ts with
  | l :: r :: ts => MNode l r :: mtree_level ts
  | [l] => [MNode l MSentinel]
  | [] => []
  end.

Fixpoint mtree_loop (fuel : nat) (ts : list mtree) : list mtree :=
  match fuel, ts with
  | S fuel, _ :: _ :: _ => mtree_loop fuel (mtree_level ts)
  | _, _ => ts
  end.

Definition mtree_build (hashes : list (list byte)) : mtree :=
  default MSentinel (head (mtree_loop (length hashes) (MLeaf <$> hashes))).

Fixpoint mtree_leaves (t : mtree) : list (list byte) :=
  match t with
  | MSentinel => []
  | MLeaf h => [h]
  | MNode l r => mtree_leaves l ++ mtree_leaves r
  end.

Lemma mtree_level_ind (P : list mtree -> Prop) :
  P [] -> (forall t, P [t]) -> (forall l r ts, P ts -> P (l :: r :: ts)) -> forall ts, P ts.
Proof.
  intros P0 P1 P2 ts. enough (P ts /\ forall t, P (t :: ts)) as [? _] by done.
  induction ts as [|t ts [I1 I2]]; split; auto.
Qed.

Lemma mtree_level_leaves ts : mjoin (mtree_leaves <$> mtree_level ts) = mjoin (mtree_leaves <$> ts).
Proof.
  induction ts as [|t|l r ts IH] using mtree_level_ind; [done|cbn; by rewrite !app_nil_r|].
  cbn [mtree_level]. rewrite !fmap_cons', !join_cons. cbn [mtree_leaves]. by rewrite IH, app_assoc.
Qed.

Lemma mtree_level_length ts : (2 * length (mtree_level ts) <= length ts + 1)%nat.
Proof. induction ts as [|t|l r ts IH] using mtree_level_ind; cbn; lia. Qed.

Lemma mtree_level_nonempty ts : ts <> [] -> mtree_level ts <> [].
Proof. destruct ts as [|l [|r ts]]; done. Qed.

Lemma mtree_loop_leaves fuel ts :
  mjoin (mtree_leaves <$> mtree_loop fuel ts) = mjoin (mtree_leaves <$> ts).
Proof.
  revert ts. induction fuel as [|fuel IH]; intros ts; [done|].
  destruct ts as [|l [|r ts]]; [done..|]. cbn [mtree_loop]. by rewrite IH, mtree_level_leaves.
Qed.

(** The loop ends with a single root within the given fuel. *)
Lemma mtree_loop_single fuel ts :
  ts <> [] -> (length ts <= S fuel)%nat -> exists t, mtree_loop fuel ts = [t].
Proof.
  revert ts. induction fuel as [|fuel IH]; intros ts N L.
  { destruct ts as [|t [|]]; [done|by exists t|cbn in L; lia]. }
  destruct ts as [|l [|r ts]]; [done|by exists l|]. cbn [mtree_loop].
  apply IH; [by apply mtree_level_nonempty|].
  pose proof (mtree_level_length (l :: r :: ts)). cbn [length] in *. lia.
Qed.

Lemma mtree_build_loop hashes :
  hashes <> [] -> mtree_loop (length hashes) (MLeaf <$> hashes) = [mtree_build hashes].
Proof.
  intros N. destruct (mtree_loop_single (length hashes) (MLeaf <$> hashes)) as (t & E).
  - by destruct hashes.
  - rewrite length_fmap. lia.
  - unfold mtree_build. by rewrite E.
Qed.

Lemma mtree_build_leaves hashes : mtree_leaves (mtree_build hashes) = hashes.
Proof.
  destruct (decide (hashes = [])) as [->|N]; [done|].
  pose proof (mtree_loop_leaves (length hashes) (MLeaf <$> hashes)) as L.
  rewrite mtree_build_loop in L by done. cbn [fmap list_fmap mjoin list_join] in L.
  rewrite app_nil_r in L. rewrite L. clear L N.
  induction hashes as [|h hs IH]; [done|]. rewrite !fmap_cons', join_cons, IH. done.
Qed.

Section merkle.
Context {CR : Crypto}.

Fixpoint mtree_hash (t : mtree) : list byte :=
  match t with
  | MSentinel => Block.blake2b_256 []
  | MLeaf h => merkle_leaf h
  | MNode l r => merkle_node (mtree_hash l) (mtree_hash r)
  end.

(** The message hashed at the top of a tree, and those hashed anywhere in it. *)
Definition mtree_message (t : mtree) : list byte :=
  match t with
  | MSentinel => []
  | MLeaf h => x00 :: h
  | MNode l r => x01 :: mtree_hash l ++ mtree_hash r
  end.
Fixpoint mtree_messages (t : mtree) : list (list byte) :=
  mtree_message t ::
  match t with MNode l r => mtree_messages l ++ mtree_messages r | _ => [] end.

Definition merkle_messages (hashes : list (list byte)) : list (list byte) :=
  mtree_messages (mtree_build hashes).

Lemma mtree_hash_message t : mtree_hash t = blake2b 32 (mtree_message t).
Proof.
  destruct t; cbn; unfold Block.blake2b_256, merkle_leaf, merkle_node, blake2b_256_many; cbn;
    rewrite ?app_nil_r; reflexivity.
Qed.

Lemma mtree_hash_length t : length (mtree_hash t) = 32%nat.
Proof. rewrite mtree_hash_message. apply blake2b_length. Qed.

Lemma mtree_message_in t : mtree_message t ∈ mtree_messages t.
Proof. destruct t; cbn; set_solver. Qed.

Lemma mtree_hash_inj t u :
  collision_free (mtree_messages t ++ mtree_messages u) -> mtree_hash t = mtree_hash u -> t = u.
Proof.
  revert u. induction t as [|h|l IHl r IHr]; intros u C E.
  all: pose proof E as M; rewrite !mtree_hash_message in M; apply C in M;
    [|apply elem_of_app; left; apply mtree_message_in|
      apply elem_of_app; right; apply mtree_message_in].
  1-2: destruct u; cbn in M; congruence.
  destruct u as [|h'|l' r']; cbn [mtree_message] in M; try discriminate.
  injection M as M. apply app_inj_len in M as [Ml Mr]; [|by rewrite !mtree_hash_length].
  f_equal; [apply IHl|apply IHr]; try done; intros a b Ha Hb; apply C; cbn [mtree_messages]; set_solver.
Qed.

Lemma merkle_level_tree ts :
  merkle_level (Block.blake2b_256 []) (mtree_hash <$> ts) = mtree_hash <$> mtree_level ts.
Proof. induction ts as [|t|l r ts IH] using mtree_level_ind; [done..|]. cbn. by f_equal. Qed.

Lemma merkle_loop_tree fuel ts :
  merkle_loop fuel (Block.blake2b_256 []) (mtree_hash <$> ts) = mtree_hash <$> mtree_loop fuel ts.
Proof.
  revert ts. induction fuel as [|fuel IH]; intros ts; [done|].
  destruct ts as [|l [|r ts]]; [done..|]. cbn [mtree_loop].
  rewrite <- IH, <- merkle_level_tree. reflexivity.
Qed.

(** The level-by-level loop computes the hash of the tree. *)
Lemma merkle_root_tree hashes : Block.merkle_root hashes = mtree_hash (mtree_build hashes).
Proof.
  destruct (decide (hashes = [])) as [->|N]; [done|]. unfold Block.merkle_root.
  assert (merkle_leaf <$> hashes = mtree_hash <$> (MLeaf <$> hashes)) as ->
    by (by rewrite <- list_fmap_compose).
  rewrite !length_fmap, merkle_loop_tree, mtree_build_loop by done. by destruct hashes.
Qed.

Lemma merkle_root_length hashes : length (Block.merkle_root hashes) = 32%nat.
Proof. rewrite merkle_root_tree. apply mtree_hash_length. Qed.

(** Equal roots come from equal lists, whatever their lengths. *)
Lemma merkle_root_binding hs hs' :
  collision_free (merkle_messages hs ++ merkle_messages hs') ->
  Block.merkle_root hs = Block.merkle_root hs' -> hs = hs'.
Proof.
  intros C E. rewrite !merkle_root_tree in E. apply mtree_hash_inj in E; [|done].
  by rewrite <- (mtree_build_leaves hs), E, mtree_build_leaves.
Qed.

End merkle.

(** ** Sizes and limits as predicates *)
Definition tx_bytes (tx : Transaction) : list byte := base_bytes tx ++ witness_bytes (tx_inputs tx).
Definition inputs_wf (tx : Transaction) : Prop := Forall input_wf (tx_inputs tx).

Definition block_base (txs : list Transaction) : Z :=
  HEADER_SIZE + compact_size_len (len txs) + len (mjoin (base_bytes <$> txs)).
Definition block_witness (txs : list Transaction) : Z :=
  len (mjoin ((fun tx => witness_bytes (tx_inputs tx)) <$> txs)).

Definition block_fits (txs : list Transaction) : Prop :=
  len txs <= MAX_BLOCK_BASE_SIZE /\ Forall tx_fits txs /\
  block_base txs <= MAX_BLOCK_BASE_SIZE /\
  4 * block_base txs + block_witness txs <= MAX_BLOCK_WEIGHT.

(** What the metrics loop asks of a transaction: everything but its weight. *)
Definition tx_sized (tx : Transaction) : Prop :=
  base_encoded_size tx = Ok (len (base_bytes tx)) /\
  witness_encode tx = Ok (witness_bytes (tx_inputs tx)).

Lemma tx_sized_fits tx :
  inputs_wf tx ->
  tx_fits tx <-> tx_sized tx /\
    4 * len (base_bytes tx) + len (witness_bytes (tx_inputs tx)) <= MAX_TRANSACTION_WEIGHT.
Proof.
  intros W. unfold tx_sized, tx_fits. rewrite base_encoded_size_Ok, witness_encode_Ok by done.
  pose proof (len_nonneg (base_bytes tx)). split; [|tauto].
  intros (? & ? & ? & ? & ? & ?). repeat split; try done. tx_unfold. lia.
Qed.

Lemma metrics_step_Ok b w tx s :
  inputs_wf tx ->
  metrics_step (b, w) tx = Ok s <->
  tx_sized tx /\ s = (b + len (base_bytes tx), w + len (witness_bytes (tx_inputs tx))) /\
  b + len (base_bytes tx) <= usize_max /\ w + len (witness_bytes (tx_inputs tx)) <= usize_max.
Proof.
  intros W. unfold metrics_step, tx_sized, Transaction_base_size. split.
  - intros H. apply bind_Ok in H as (n & Hn & H). apply map_err_Ok in Hn.
    pose proof (proj1 (base_encoded_size_Ok _ _ W) Hn) as (-> & _).
    apply bind_Ok in H as (b' & Hb & H). apply ok_or_Ok, checked_add_Some in Hb as (-> & ?).
    apply bind_Ok in H as (bs & Hw & H). apply map_err_Ok in Hw.
    pose proof (proj1 (witness_encode_Ok _ _) Hw) as (-> & _).
    apply bind_Ok in H as (w' & Hw' & H). apply ok_or_Ok, checked_add_Some in Hw' as (-> & ?).
    by injection H as <-.
  - intros ((Hb & Hw) & -> & ? & ?). rewrite Hb, Hw. cbn [map_err mbind result_bind].
    unfold checked_add. rewrite (proj2 (Z.leb_le _ usize_max)) by done. cbn [ok_or mbind result_bind].
    by rewrite (proj2 (Z.leb_le _ usize_max)) by done.
Qed.

Lemma metrics_fold_Ok b w txs s :
  0 <= b <= usize_max -> 0 <= w <= usize_max -> Forall inputs_wf txs ->
  try_fold metrics_step (b, w) txs = Ok s <->
  Forall tx_sized txs /\
  s = (b + len (mjoin (base_bytes <$> txs)), w + block_witness txs) /\
  b + len (mjoin (base_bytes <$> txs)) <= usize_max /\ w + block_witness txs <= usize_max.
Proof.
  intros Hb Hw W. revert b w Hb Hw. unfold block_witness.
  induction W as [|tx txs Wx W IH]; intros b w Hb Hw; cbn [try_fold].
  { cbn [fmap list_fmap mjoin list_join]. change (len (@nil byte)) with 0. rewrite !Z.add_0_r.
    split; [intros [= <-]; repeat split; try done; lia|by intros (_ & -> & _)]. }
  rewrite !fmap_cons', !join_cons, !len_app, Forall_cons, bind_Ok.
  pose proof (len_nonneg (base_bytes tx)). pose proof (len_nonneg (witness_bytes (tx_inputs tx))).
  pose proof (len_nonneg (mjoin (base_bytes <$> txs))).
  pose proof (len_nonneg (mjoin ((fun tx => witness_bytes (tx_inputs tx)) <$> txs))).
  setoid_rewrite (metrics_step_Ok _ _ _ _ Wx). rewrite !Z.add_assoc. split.
  - intros (s1 & (? & -> & ? & ?) & HF). apply IH in HF as (? & -> & ? & ?); [|lia|lia]. done.
  - intros ((? & ?) & -> & ? & ?). eexists. split; [split; [done|split; [reflexivity|lia]]|].
    apply IH; [lia|lia|done].
Qed.

Lemma block_base_in tx txs :
  tx ∈ txs -> len (base_bytes tx) <= len (mjoin (base_bytes <$> txs)) /\
    len (witness_bytes (tx_inputs tx)) <= block_witness txs.
Proof.
  unfold block_witness. induction txs as [|t txs IH]; [by intros ?%not_elem_of_nil|].
  rewrite !fmap_cons', !join_cons, !len_app.
  pose proof (len_nonneg (base_bytes t)). pose proof (len_nonneg (witness_bytes (tx_inputs t))).
  pose proof (len_nonneg (mjoin (base_bytes <$> txs))).
  pose proof (len_nonneg (mjoin ((fun tx => witness_bytes (tx_inputs tx)) <$> txs))).
  intros [->|I]%elem_of_cons; [lia|]. apply IH in I. lia.
Qed.

Section limits.
Context {CR : Crypto}.

Definition txid (tx : Transaction) : list byte := blake2b 32 (base_bytes tx).
Definition wtxid (tx : Transaction) : list byte :=
  blake2b 32 (txid tx ++ blake2b 32 (witness_bytes (tx_inputs tx))).

Definition metrics_of (txs : list Transaction) : BlockMetrics :=
  mkMetrics (block_base txs) (block_witness txs) (block_base txs + block_witness txs)
    (4 * block_base txs + block_witness txs)
    (Block.merkle_root (txid <$> txs)) (Block.merkle_root (wtxid <$> txs)).

Lemma tx_hashes_sized tx :
  inputs_wf tx -> tx_sized tx ->
  Transaction_transaction_hash tx = Ok (txid tx) /\ Transaction_witness_hash tx = Ok (wtxid tx).
Proof.
  intros W (Hb & Hw). unfold Transaction_witness_hash, Transaction_transaction_hash.
  rewrite (proj2 (base_encode_Ok tx (base_bytes tx) W)) by done. rewrite Hw. done.
Qed.

Lemma block_roots_sized txs :
  Forall inputs_wf txs -> Forall tx_sized txs ->
  block_merkle_root txs = Ok (Block.merkle_root (txid <$> txs)) /\
  block_witness_root txs = Ok (Block.merkle_root (wtxid <$> txs)).
Proof.
  intros W S. unfold block_merkle_root, block_witness_root.
  rewrite (try_map_Ok _ txid), (try_map_Ok _ wtxid); [done|..];
    apply Forall_forall; intros tx I; rewrite Forall_forall in W, S;
    by apply tx_hashes_sized; auto.
Qed.

Lemma validate_block_limits_Ok b m :
  Forall inputs_wf (blk_transactions b) ->
  validate_block_limits b = Ok m <->
  block_fits (blk_transactions b) /\ m = metrics_of (blk_transactions b).
Proof.
  intros W. unfold validate_block_limits, block_metrics, block_fits. set (txs := blk_transactions b) in *.
  pose proof (compact_size_len_range (len txs)). unfold HEADER_SIZE in *.
  rewrite (proj2 (checked_add_Some usize_max 236 (compact_size_len (len txs)) _))
    by (split; [reflexivity|ulia]).
  cbn [ok_or mbind result_bind]. unfold metrics_of, block_base, HEADER_SIZE.
  pose proof (len_nonneg (mjoin (base_bytes <$> txs))).
  assert (0 <= block_witness txs) by apply len_nonneg. split.
  - intros E. apply bind_Ok in E as ([] & C & E). apply assert_or_Ok, Z.leb_le in C.
    apply bind_Ok in E as (m' & E' & E). apply bind_Ok in E' as ([b' w'] & F & E').
    apply metrics_fold_Ok in F as (S & [= -> ->] & ? & ?); [|ulia|ulia|done].
    destruct (block_roots_sized _ W S) as [R1 R2]. rewrite R1, R2 in E'. inv_ok.
    rewrite !Z.leb_le in *. cbn [bm_base_size bm_weight] in *.
    repeat match goal with
    | H : checked_add _ _ _ = Some _ |- _ => apply checked_add_Some in H as (? & ?)
    | H : checked_mul _ _ _ ≫= _ = Some _ |- _ =>
      apply bind_Some in H as (? & ?%checked_mul_Some & ?) end.
    unfold WITNESS_SCALE_FACTOR, MAX_BLOCK_BASE_SIZE, MAX_BLOCK_WEIGHT in *. subst.
    split; [|f_equal; lia]. split; [done|]. split; [|lia].
    apply Forall_forall. intros tx I. rewrite Forall_forall in W, S.
    apply tx_sized_fits; [by apply W|]. split; [by apply S|].
    apply block_base_in in I. unfold MAX_TRANSACTION_WEIGHT. lia.
  - intros ((C & F & B & Wt) & ->). rewrite (proj2 (Z.leb_le _ _)) by exact C.
    cbn [assert_or mbind result_bind].
    assert (Forall tx_sized txs) as S.
    { apply Forall_forall. intros tx I. rewrite Forall_forall in W, F.
      by apply (tx_sized_fits tx (W tx I)), F. }
    unfold MAX_BLOCK_BASE_SIZE, MAX_BLOCK_WEIGHT in *.
    rewrite (proj2 (metrics_fold_Ok (236 + compact_size_len (len txs)) 0 txs _
      ltac:(ulia) ltac:(ulia) W)) by (split; [exact S|]; split; [reflexivity|]; ulia).
    cbn [mbind result_bind]. rewrite Z.add_0_l. unfold checked_add, checked_mul, WITNESS_SCALE_FACTOR.
    destruct (block_roots_sized _ W S) as [-> ->].
    rewrite (proj2 (Z.leb_le _ usize_max)) by ulia. cbn [ok_or mbind result_bind option_bind].
    rewrite (proj2 (Z.leb_le _ usize_max)) by ulia. cbn [ok_or mbind result_bind option_bind].
    rewrite (proj2 (Z.leb_le _ usize_max)) by ulia. cbn [ok_or mbind result_bind option_bind].
    cbn [bm_base_size bm_weight]. rewrite !(proj2 (Z.leb_le _ _)) by lia. cbn. do 2 f_equal; lia.
Qed.

End limits.

(** ** The block codec *)
Definition Block_wf (b : Block) : Prop :=
  Header_wf (blk_header b) /\ Forall Transaction_wf (blk_transactions b).

Definition blk_bytes (b : Block) : list byte :=
  Header_encode (blk_header b) ++ compact_bytes (len (blk_transactions b)) ++
  mjoin (tx_bytes <$> blk_transactions b).

Lemma wf_inputs txs : Forall Transaction_wf txs -> Forall inputs_wf txs.
Proof. intros W. eapply Forall_impl; [exact W|]. by intros tx (_ & _ & ? & _). Qed.

Lemma len_txs_bytes txs :
  len (mjoin (tx_bytes <$> txs)) = len (mjoin (base_bytes <$> txs)) + block_witness txs.
Proof.
  unfold block_witness. induction txs as [|tx txs IH]; [done|].
  rewrite !fmap_cons', !join_cons, !len_app, IH. unfold tx_bytes. rewrite len_app. lia.
Qed.

Lemma len_blk_bytes b :
  Header_wf (blk_header b) ->
  len (blk_bytes b) = block_base (blk_transactions b) + block_witness (blk_transactions b).
Proof.
  intros W. unfold blk_bytes, block_base. rewrite !len_app, len_compact_bytes, len_txs_bytes,
    Header_encode_len by done. lia.
Qed.

Lemma put_transactions_Ok e txs e' :
  Forall inputs_wf txs ->
  try_fold put_transaction e txs = Ok e' <->
  Forall tx_fits txs /\ e' = mkEncoder (bytes e ++ mjoin (tx_bytes <$> txs)).
Proof.
  intros W. revert e. induction W as [|tx txs Wx W IH]; intros e; cbn [try_fold].
  { cbn. rewrite app_nil_r. destruct e. split; [by intros [= <-]|by intros [_ ->]]. }
  rewrite fmap_cons', join_cons, Forall_cons, bind_Ok. unfold put_transaction. split.
  - intros (e1 & H & HF). inv_ok. apply IH in HF as [? ->].
    match goal with H : Transaction_encode _ = Ok _ |- _ =>
      apply Transaction_encode_Ok in H as [-> ?]; [|done] end.
    cbn [put_bytes bytes]. by rewrite <- app_assoc.
  - intros [[Fx F] ->]. eexists. split.
    + rewrite (proj2 (Transaction_encode_Ok tx (tx_bytes tx) Wx)) by done. reflexivity.
    + apply IH. split; [done|]. cbn [put_bytes bytes]. by rewrite <- app_assoc.
Qed.

Section codec.
Context {CR : Crypto}.

Lemma Block_encode_Ok b bs :
  Forall inputs_wf (blk_transactions b) ->
  Block_encode b = Ok bs <-> block_fits (blk_transactions b) /\ bs = blk_bytes b.
Proof.
  intros W. unfold Block_encode. rewrite bind_Ok. setoid_rewrite (validate_block_limits_Ok b); [|done].
  setoid_rewrite bind_Ok. setoid_rewrite (put_transactions_Ok _ _ _ W). autorewrite with enc.
  unfold blk_bytes, into_bytes. split.
  - intros (m & [F ->] & e & [_ ->] & [= <-]). split; [done|]. cbn [bytes].
    autorewrite with enc. by rewrite app_assoc.
  - intros [F ->]. eexists. split; [by split|]. eexists. split; [split; [apply F|reflexivity]|].
    cbn [bytes]. autorewrite with enc. by rewrite app_assoc.
Qed.

Lemma Block_read_inv d b d' :
  dec_wf d -> Block_read d = (Ok b, d') -> took d (blk_bytes b) d' /\ Block_wf b.
Proof.
  intros W H. unfold Block_read in H.
  dbind H as hb d1 T1. apply read_slice_inv in T1 as (T1 & L1); [|by vm_compute|done].
  dbind H as h d1' Hh. apply map_err_Ok, Header_decode_Ok in Hh as (Wh & <-).
  dbind H as n d2 T2. pose proof (took_wf _ _ _ T1).
  apply read_compact_usize_inv in T2 as (T2 & R2 & _); [|done]. pose proof (took_wf _ _ _ T2).
  dbind H as txs d3 T3.
  apply (read_n_inv _ tx_bytes Transaction_wf) in T3 as (T3 & F & Ln); [| |done].
  - apply dec_ret_Ok in H as (<- & ->). split; [|done]. unfold blk_bytes.
    cbn [blk_header blk_transactions]. unfold len at 1. rewrite Ln, Z2Nat.id by lia. took_chain.
  - intros d4 tx d5 W4 H4. apply lift_err_Ok, Transaction_decode_from_inv in H4; [|done]. tauto.
Qed.

Lemma Block_read_reads d b :
  Block_wf b -> block_fits (blk_transactions b) -> reads d Block_read (blk_bytes b) b.
Proof.
  intros (Wh & Wt) (C & F & _). unfold Block_read, blk_bytes.
  eapply reads_bind; [apply reads_err, read_slice_reads, Header_encode_len, Wh|].
  eapply reads_nil_bind; [apply reads_res; rewrite (proj2 (Header_decode_Ok _ _)) by done; done|].
  eapply reads_bind.
  { apply reads_err, read_compact_usize_reads; pose proof (len_nonneg (blk_transactions b));
      unfold MAX_BLOCK_BASE_SIZE in *; ulia. }
  unfold len. rewrite Nat2Z.id. eapply reads_last.
  - apply (reads_n _ tx_bytes). intros d' tx I. rewrite Forall_forall in Wt, F.
    apply reads_err, Transaction_decode_from_reads; auto.
  - destruct b. apply reads_ret.
Qed.

Lemma Block_decode_Ok input b :
  Block_decode input = Ok b <-> Block_wf b /\ Block_encode b = Ok input.
Proof.
  unfold Block_decode. rewrite bind_Ok. setoid_rewrite assert_or_Ok. setoid_rewrite Z.leb_le. split.
  - intros (_ & L & H). apply bind_Ok in H as (b' & H & H2). apply bind_Ok in H2 as (m & V & [= ->]).
    apply run_all_Ok in H as (d & H & Fi). unfold MAX_BLOCK_WEIGHT in L.
    apply Block_read_inv in H as (T & Wb); [|apply wf_new; ulia].
    pose proof (wf_inputs _ (proj2 Wb)) as Wi. split; [done|].
    apply Block_encode_Ok; [done|]. apply validate_block_limits_Ok in V as [? _]; [|done].
    split; [done|]. symmetry. by eapply took_finish.
  - intros (Wb & H). pose proof (wf_inputs _ (proj2 Wb)) as Wi.
    apply Block_encode_Ok in H as (F & ->); [|done]. exists tt.
    assert (len (blk_bytes b) <= MAX_BLOCK_WEIGHT).
    { rewrite len_blk_bytes by apply Wb. destruct F as (_ & _ & _ & F).
      pose proof (compact_size_len_range (len (blk_transactions b))).
      pose proof (len_nonneg (mjoin (base_bytes <$> blk_transactions b))).
      unfold block_base, HEADER_SIZE in *. lia. }
    split; [done|]. apply bind_Ok. exists b. split.
    + apply run_all_reads; [unfold MAX_BLOCK_WEIGHT in *; ulia|by apply Block_read_reads].
    + apply bind_Ok. eexists. split; [by apply validate_block_limits_Ok|done].
Qed.

(** The block codec is a bijection: an input decodes to a block exactly when
    the block is well typed and encodes to that input, which is then the header,
    the transaction count and the transactions in order, within the base-size
    and weight limits. *)
Theorem block_codec input b :
  Block_decode input = Ok b <-> Block_wf b /\ Block_encode b = Ok input.
Proof. apply Block_decode_Ok. Qed.

End codec.

(** ** Block bodies as declarations

    The declarative reading of the sanity checks, against which the code's
    loops, running totals and sets are proved. *)
Lemma all_indexed_spec {A} (f : nat -> A -> bool) n xs :
  all_indexed f n xs = true <-> forall i x, xs !! i = Some x -> f (n + i)%nat x = true.
Proof.
  revert n. induction xs as [|x xs IH]; intros n; cbn [all_indexed]; [by split|].
  rewrite andb_true_iff, IH. split.
  - intros [Hx H] [|i] y; cbn; [intros [= <-]; by rewrite Nat.add_0_r|].
    intros E. replace (n + S i)%nat with (S n + i)%nat by lia. by apply H.
  - intros H. split; [specialize (H 0%nat x eq_refl); by rewrite Nat.add_0_r in H|].
    intros i y E. replace (S n + i)%nat with (n + S i)%nat by lia. by apply H.
Qed.

Definition out_kind (o : Output) : CovenantKind := cov_kind (out_covenant o).
Definition is_open (k : CovenantKind) : bool := match k with KOpen => true | _ => false end.
Definition is_update (k : CovenantKind) : bool :=
  match k with KOpen | KClaim | KUpdate | KTransfer | KRevoke => true | _ => false end.
Definition is_renewal (k : CovenantKind) : bool :=
  match k with KRegister | KRenew | KFinalize => true | _ => false end.

(** The number of outputs of some kinds. *)
Definition count_kind (p : CovenantKind -> bool) (os : list Output) : Z :=
  len (base.filter (fun o => p (out_kind o) = true) os).

Lemma count_kind_cons p o os :
  count_kind p (o :: os) = Z.b2z (p (out_kind o)) + count_kind p os.
Proof.
  unfold count_kind. rewrite filter_cons. destruct (p (out_kind o)) eqn:E.
  - rewrite decide_True, len_cons by done. done.
  - rewrite decide_False by congruence. done.
Qed.

Lemma count_kind_nonneg p os : 0 <= count_kind p os.
Proof. apply len_nonneg. Qed.

Lemma count_kind_app p os os' : count_kind p (os ++ os') = count_kind p os + count_kind p os'.
Proof. unfold count_kind. by rewrite filter_app, len_app. Qed.

Lemma count_outputs os a b c :
  0 <= a <= u32_max -> 0 <= b <= u32_max -> 0 <= c <= u32_max ->
  foldl count_output (a, b, c) os =
  (saturating_add u32_max a (count_kind is_open os),
   saturating_add u32_max b (count_kind is_update os),
   saturating_add u32_max c (count_kind is_renewal os)).
Proof.
  revert a b c. induction os as [|o os IH]; intros a b c Ha Hb Hc.
  { cbn. unfold saturating_add, count_kind. cbn. rewrite !Z.add_0_r, !Z.min_r by lia. done. }
  rewrite !count_kind_cons.
  pose proof (count_kind_nonneg is_open os). pose proof (count_kind_nonneg is_update os).
  pose proof (count_kind_nonneg is_renewal os). cbn [foldl]. unfold count_output at 2, out_kind.
  destruct (cov_kind (out_covenant o)); cbn [is_open is_update is_renewal Z.b2z];
    rewrite IH by (unfold saturating_add, u32_max in *; lia);
    unfold saturating_add, u32_max in *; (apply f_equal2; [apply f_equal2|]; lia).
Qed.

Lemma count_name_operations_eq tx :
  count_name_operations tx =
  (Z.min u32_max (count_kind is_open (tx_outputs tx)),
   Z.min u32_max (count_kind is_update (tx_outputs tx)),
   Z.min u32_max (count_kind is_renewal (tx_outputs tx))).
Proof. unfold count_name_operations. rewrite count_outputs by ulia. done. Qed.

Definition total_value (os : list Output) : Z := foldr (fun o t => out_value o + t) 0 os.

Definition outputs_ok (os : list Output) : Prop :=
  Forall (fun o => addr_ok (out_address o)) os /\ total_value os <= MAX_MONEY.

Lemma total_value_nonneg os : Forall (fun o => 0 <= out_value o) os -> 0 <= total_value os.
Proof. unfold total_value. induction 1; cbn; lia. Qed.

Lemma add_output_values_Ok t os n :
  0 <= t <= MAX_MONEY -> Forall (fun o => 0 <= out_value o) os ->
  try_fold add_output_value t os = Ok n <->
  n = t + total_value os /\ n <= MAX_MONEY /\ Forall (fun o => addr_ok (out_address o)) os.
Proof.
  intros Ht P. revert t Ht. induction P as [|o os Po P IH]; intros t Ht; cbn [try_fold total_value foldr].
  { split; [intros [= <-]; rewrite Z.add_0_r; repeat split; [lia|done]|].
    intros (-> & _). by rewrite Z.add_0_r. }
  fold (total_value os). pose proof (total_value_nonneg os P).
  rewrite bind_Ok, Forall_cons, <- Address_validate_Ok. unfold add_output_value. split.
  - intros (t' & H1 & H2). inv_ok.
    match goal with H : checked_add _ _ _ = Some _ |- _ => apply checked_add_Some in H as (-> & ?) end.
    rewrite Z.leb_le in *. apply IH in H2; [|lia].
    repeat match goal with u : unit |- _ => destruct u end. split; [lia|]. tauto.
  - intros (-> & L & A & F). rewrite A. cbn [map_err mbind result_bind].
    exists (t + out_value o). unfold checked_add, MAX_MONEY, COIN in *.
    rewrite (proj2 (Z.leb_le _ u64_max)) by ulia. cbn [ok_or mbind result_bind].
    rewrite (proj2 (Z.leb_le _ _)) by lia. split; [done|]. apply IH; [lia|]. split; [lia|]. split; [lia|done].
Qed.

(** *** Inputs *)
Lemma witness_size_eq w : len (wit_bytes w) <= usize_max -> witness_size w = len (wit_bytes w).
Proof.
  rewrite len_wit_bytes. unfold witness_size. pose proof (compact_size_len_range (len (wit_items w))).
  assert (forall items acc, 0 <= acc ->
    len (mjoin (var_bytes <$> items)) <= usize_max ->
    foldl (fun total item =>
      total + saturating_add usize_max (compact_size_len (len item)) (len item)) acc items =
    acc + len (mjoin (var_bytes <$> items))) as F.
  { intros items. induction items as [|i items IH]; intros acc Ha L; [cbn; change (len (@nil byte)) with 0; lia|].
    rewrite fmap_cons', join_cons, len_app, len_var_bytes in *. pose proof (len_nonneg i).
    pose proof (compact_size_len_range (len i)). pose proof (len_nonneg (mjoin (var_bytes <$> items))).
    cbn [foldl]. rewrite IH by (unfold saturating_add in *; lia). unfold saturating_add. lia. }
  intros L. pose proof (len_nonneg (mjoin (var_bytes <$> wit_items w))).
  rewrite F by lia. unfold saturating_add. lia.
Qed.

Definition claim_ok (i : Input) : Prop :=
  in_previous_output i = Outpoint_NULL /\
  exists item, wit_items (in_witness i) = [item] /\ len item <= MAX_COINBASE_CLAIM_WITNESS_ITEM_SIZE.

Definition spends (tx : Transaction) : list Outpoint := in_previous_output <$> tx_inputs tx.

Definition inputs_ok (tx : Transaction) : Prop :=
  if is_coinbase tx then
    exists first claims, tx_inputs tx = first :: claims /\
      len (wit_bytes (in_witness first)) <= MAX_COINBASE_WITNESS_SIZE /\ Forall claim_ok claims
  else (Outpoint_NULL ∉ spends tx) /\ NoDup (spends tx).

Lemma check_claim_input_Ok i : check_claim_input i = Ok tt <-> claim_ok i.
Proof.
  unfold check_claim_input, claim_ok. rewrite !bind_Ok. setoid_rewrite bind_Ok.
  setoid_rewrite assert_or_Ok. setoid_rewrite Z.leb_le. setoid_rewrite Z.eqb_eq.
  setoid_rewrite Outpoint_is_null_spec. unfold item_at. split.
  - intros (_ & -> & _ & L & B). split; [done|].
    destruct (wit_items (in_witness i)) as [|x [|y l]]; [done| |unfold len in L; cbn in L; lia].
    by exists x.
  - intros (-> & item & -> & B). by exists tt; split; [|exists tt].
Qed.

Lemma check_spends_Ok (seen : gset Outpoint) ins u :
  (_ ← try_fold check_spend seen ins; Ok tt) = Ok u <->
  (Outpoint_NULL ∉ (in_previous_output <$> ins)) /\ NoDup (in_previous_output <$> ins) /\
  (forall o, o ∈ (in_previous_output <$> ins) -> o ∉ seen).
Proof.
  destruct u. revert seen. induction ins as [|i ins IH]; intros seen; cbn [try_fold].
  { split; [|done]. intros _. split; [apply not_elem_of_nil|]. split; [constructor|].
    intros o ?%not_elem_of_nil. done. }
  rewrite fmap_cons', NoDup_cons, not_elem_of_cons. unfold check_spend.
  pose proof (Outpoint_is_null_spec (in_previous_output i)) as N.
  destruct (Outpoint_is_null (in_previous_output i)); cbn [negb assert_or mbind result_bind].
  { split; [done|]. destruct N as [N _]. rewrite (N eq_refl). intros ((? & _) & _). done. }
  assert (Outpoint_NULL <> in_previous_output i) by (intros E; destruct N as [_ N]; by discriminate N).
  case_bool_decide as M; cbn [assert_or mbind result_bind].
  - rewrite IH. split.
    + intros (? & ? & F). split; [done|]. split; [split; [intros ?%F; set_solver|done]|].
      intros o [->|I]%elem_of_cons; [done|]. apply F in I. set_solver.
    + intros ((_ & ?) & (? & ?) & F). split; [done|]. split; [done|]. intros o I.
      assert (o <> in_previous_output i) by congruence.
      assert (o ∉ seen) by (apply F; set_solver). set_solver.
  - split; [done|]. intros (_ & _ & F). exfalso. eapply F; [|exact M]. set_solver.
Qed.

Lemma validate_inputs_Ok tx :
  (forall i, i ∈ tx_inputs tx -> len (wit_bytes (in_witness i)) <= usize_max) ->
  validate_inputs tx = Ok tt <-> inputs_ok tx.
Proof.
  intros L. unfold validate_inputs, inputs_ok.
  destruct (is_coinbase tx) eqn:C.
  - unfold is_coinbase in C. destruct (tx_inputs tx) as [|i ins] eqn:I; [done|].
    rewrite bind_Ok. setoid_rewrite assert_or_Ok. setoid_rewrite Z.leb_le.
    setoid_rewrite try_each_Ok. rewrite witness_size_eq by (apply L; set_solver). split.
    + intros (_ & W & F). eexists i, ins. split; [done|]. split; [done|].
      eapply Forall_impl; [exact F|]. intros j. apply check_claim_input_Ok.
    + intros (i' & ins' & [= <- <-] & W & F). exists tt. split; [done|].
      eapply Forall_impl; [exact F|]. intros j. apply check_claim_input_Ok.
  - rewrite check_spends_Ok. unfold spends. set_solver.
Qed.

(** *** Covenants and whole transactions *)
Section sanity.
Context {CR : Crypto}.

Definition covenants_ok (tx : Transaction) : Prop :=
  if is_coinbase tx then
    len (tx_inputs tx) <= len (tx_outputs tx) /\
    forall i o, tx_outputs tx !! i = Some o -> sane_coinbase_output tx i o = true
  else forall i o, tx_outputs tx !! i = Some o -> sane_output tx i o = true.

Lemma has_sane_covenants_spec tx : has_sane_covenants tx = true <-> covenants_ok tx.
Proof.
  unfold has_sane_covenants, covenants_ok.
  destruct (is_coinbase tx); rewrite ?andb_true_iff, ?Z.leb_le, all_indexed_spec; done.
Qed.

Record tx_sane (tx : Transaction) : Prop := {
  sane_inputs : tx_inputs tx <> [];
  sane_outputs : tx_outputs tx <> [];
  sane_fits : tx_fits tx;
  sane_opens : count_kind is_open (tx_outputs tx) <= MAX_BLOCK_OPENS;
  sane_updates : count_kind is_update (tx_outputs tx) <= MAX_BLOCK_UPDATES;
  sane_renewals : count_kind is_renewal (tx_outputs tx) <= MAX_BLOCK_RENEWALS;
  sane_value : total_value (tx_outputs tx) <= MAX_MONEY;
  sane_spends : inputs_ok tx;
  sane_covenants : covenants_ok tx;
}.

Lemma len_nil_iff {A} (l : list A) : negb (len l =? 0) = true <-> l <> [].
Proof. destruct l; unfold len; cbn; split; done. Qed.

Lemma min_u32_le a b : b < u32_max -> Z.min u32_max a <= b -> a <= b.
Proof. lia. Qed.

Lemma tx_fits_weight tx :
  inputs_wf tx ->
  (base_size ← map_err MTransaction (Transaction_base_size tx);
   if MAX_BLOCK_BASE_SIZE <? base_size
   then Err (InvalidTransaction "transaction exceeds consensus size")
   else
     weight ← map_err MTransaction (Transaction_weight tx);
     assert_or (weight <=? MAX_BLOCK_WEIGHT)
       (InvalidTransaction "transaction exceeds consensus size")) = Ok tt <-> tx_fits tx.
Proof.
  intros W. rewrite bind_Ok. setoid_rewrite map_err_Ok. unfold Transaction_base_size, Transaction_weight.
  pose proof (len_nonneg (base_bytes tx)). pose proof (len_nonneg (witness_bytes (tx_inputs tx))). split.
  - intros (n & _ & H1). destruct (_ <? n); [done|]. apply bind_Ok in H1 as (w & H1 & _).
    apply map_err_Ok, bind_Ok in H1 as ([b v] & S & _). by apply encoded_sizes_inv in S as (_ & _ & ?).
  - intros F. pose proof (encoded_sizes_fits tx W F) as S. pose proof F as (? & ? & ? & ? & B & Wt).
    exists (len (base_bytes tx)). split; [by apply base_encoded_size_Ok|].
    unfold MAX_BLOCK_BASE_SIZE, MAX_BLOCK_WEIGHT, MAX_TRANSACTION_SIZE, MAX_TRANSACTION_WEIGHT in *.
    rewrite (proj2 (Z.ltb_ge _ _)) by lia. rewrite S. cbn [mbind result_bind].
    rewrite (proj2 (transaction_weight_Ok (len (base_bytes tx)) (len (witness_bytes (tx_inputs tx))) _
      ltac:(tx_unfold; lia) ltac:(tx_unfold; lia))) by (split; [reflexivity|tx_unfold; lia]).
    cbn [map_err mbind result_bind]. by rewrite (proj2 (Z.leb_le _ _)) by lia.
Qed.

Lemma wit_fits_usize tx : tx_fits tx ->
  forall i, i ∈ tx_inputs tx -> len (wit_bytes (in_witness i)) <= usize_max.
Proof.
  intros (_ & _ & _ & F & _) i I. rewrite Forall_forall in F. destruct (F i I) as (_ & L).
  tx_unfold. ulia.
Qed.

Lemma validate_transaction_sanity_Ok tx :
  Transaction_wf tx -> validate_transaction_sanity tx = Ok tt <-> tx_sane tx.
Proof.
  intros (_ & _ & W & Wo). unfold validate_transaction_sanity. rewrite count_name_operations_eq.
  assert (Forall (fun o => 0 <= out_value o) (tx_outputs tx)) as P
    by (eapply Forall_impl; [exact Wo|]; intros o [? _]; ulia).
  assert (Forall (fun o => addr_ok (out_address o)) (tx_outputs tx) \/ ~ tx_fits tx) as A.
  { destruct (decide (Forall (fun o => Address_validate (out_address o) = Ok tt) (tx_outputs tx)))
      as [D|D].
    - left. eapply Forall_impl; [exact D|]. intros o. apply Address_validate_Ok.
    - right. intros (_ & _ & F & _). apply D. eapply Forall_impl; [exact F|]. intros o [? _].
      by apply Address_validate_Ok. }
  split.
  - intros E. apply bind_Ok in E as ([] & E1 & E). apply bind_Ok in E as ([] & E2 & E).
    apply bind_Ok in E as (n & En & E). apply bind_Ok in E as ([] & Ew & E).
    assert (tx_fits tx) as F
      by (apply (tx_fits_weight tx W), bind_Ok; exists n; split; [exact En|exact Ew]).
    inv_ok. repeat match goal with u : unit |- _ => destruct u end.
    rewrite !Z.leb_le in *.
    repeat match goal with H : Z.min u32_max _ <= _ |- _ =>
      apply min_u32_le in H; [|by vm_compute] end.
    match goal with H : try_fold add_output_value _ _ = Ok _ |- _ =>
      apply add_output_values_Ok in H as (-> & Hv & _); [|unfold MAX_MONEY, COIN; lia|done] end.
    match goal with H : validate_inputs _ = Ok _ |- _ =>
      apply validate_inputs_Ok in H; [|by apply wit_fits_usize] end.
    split; try done; try (by apply len_nil_iff); by apply has_sane_covenants_spec.
  - intros [S1 S2 F S4 S5 S6 S7 S8 S9]. apply len_nil_iff in S1, S2. rewrite S1, S2.
    cbn [assert_or mbind result_bind].
    pose proof F as Fw. apply (tx_fits_weight tx W), bind_Ok in Fw as (n & -> & Fw).
    cbn [mbind result_bind]. rewrite Fw. cbn [mbind result_bind].
    rewrite !(proj2 (Z.leb_le _ _)) by (etransitivity; [apply Z.le_min_r|done]).
    cbn [assert_or mbind result_bind]. destruct A as [A|]; [|done].
    rewrite (proj2 (add_output_values_Ok 0 _ _ ltac:(unfold MAX_MONEY, COIN; lia) P))
      by (split; [reflexivity|]; split; [lia|done]).
    cbn [mbind result_bind]. rewrite (proj2 (validate_inputs_Ok tx (wit_fits_usize tx F))) by done.
    cbn [mbind result_bind]. by rewrite (proj2 (has_sane_covenants_spec tx)) by done.
Qed.
End sanity.

(** *** Names and whole bodies *)
Definition exclusive_name (o : Output) : option (list byte) :=
  if is_exclusive (out_kind o) then Covenant_item_name_hash (out_covenant o) 0 else None.
Definition exclusive_names (os : list Output) : gset (list byte) :=
  list_to_set (omap exclusive_name os).
Definition names_present (os : list Output) : Prop :=
  Forall (fun o => is_exclusive (out_kind o) = true ->
    is_Some (Covenant_item_name_hash (out_covenant o) 0)) os.

Lemma exclusive_names_cons o os :
  exclusive_names (o :: os) =
  match exclusive_name o with Some n => {[n]} ∪ exclusive_names os | None => exclusive_names os end.
Proof. unfold exclusive_names. cbn. by destruct (exclusive_name o). Qed.

Lemma check_exclusives_Ok (ex acc : gset (list byte)) os s :
  try_fold (check_exclusive ex) acc os = Ok s <->
  names_present os /\ exclusive_names os ## ex /\ s = acc ∪ exclusive_names os.
Proof.
  revert acc. unfold names_present. induction os as [|o os IH]; intros acc; cbn [try_fold].
  { unfold exclusive_names. cbn. split; [intros [= <-]|intros (_ & _ & ->)].
    - split; [done|]. split; [set_solver|]. set_solver.
    - f_equal. set_solver. }
  rewrite Forall_cons, exclusive_names_cons, bind_Ok. unfold check_exclusive, exclusive_name, out_kind.
  destruct (is_exclusive (cov_kind (out_covenant o))).
  2: { split; [intros (a & [= <-] & H); by apply IH in H as (? & ? & ->)|].
       intros ((_ & ?) & ? & ->). exists acc. split; [done|]. by apply IH. }
  destruct (Covenant_item_name_hash (out_covenant o) 0) as [n|]; cbn [ok_or mbind result_bind].
  2: { split; [by intros (a & ? & _)|]. intros ((H & _) & _). by destruct (H eq_refl). }
  case_bool_decide as M; cbn [assert_or mbind result_bind].
  - split.
    + intros (a & [= <-] & H). apply IH in H as (? & ? & ->).
      split; [by split; [intros _; eexists|]|]. split; set_solver.
    + intros ((_ & ?) & ? & ->). eexists. split; [done|]. apply IH. split; [done|]. split; set_solver.
  - split; [by intros (a & ? & _)|]. intros (_ & ? & _). set_solver.
Qed.

(** Names appear in at most one transaction. *)
Definition names_disjoint (txs : list Transaction) : Prop :=
  ForallOrdPairs (fun t u => exclusive_names (tx_outputs t) ## exclusive_names (tx_outputs u)) txs.

Definition block_count (p : CovenantKind -> bool) (txs : list Transaction) : Z :=
  count_kind p (mjoin (tx_outputs <$> txs)).

Lemma covenant_limits_fold a b c ex txs s :
  0 <= a <= u32_max -> 0 <= b <= u32_max -> 0 <= c <= u32_max ->
  try_fold covenant_limits_step ((a, b, c), ex) txs = Ok s <->
  Forall (fun tx => names_present (tx_outputs tx)) txs /\ names_disjoint txs /\
  Forall (fun tx => exclusive_names (tx_outputs tx) ## ex) txs /\
  s = ((saturating_add u32_max a (block_count is_open txs),
        saturating_add u32_max b (block_count is_update txs),
        saturating_add u32_max c (block_count is_renewal txs)),
       ex ∪ ⋃ ((fun tx => exclusive_names (tx_outputs tx)) <$> txs)).
Proof.
  revert a b c ex. unfold block_count, names_disjoint.
  induction txs as [|tx txs IH]; intros a b c ex Ha Hb Hc; cbn [try_fold].
  { unfold saturating_add, count_kind. cbn. rewrite !Z.add_0_r, !Z.min_r by lia.
    rewrite (right_id_L ∅ (∪)). split; [intros [= <-]|by intros (_ & _ & _ & ->)].
    by repeat split; constructor. }
  rewrite fmap_cons', join_cons, !count_kind_app, !Forall_cons, bind_Ok.
  unfold covenant_limits_step. rewrite count_name_operations_eq. setoid_rewrite bind_Ok.
  setoid_rewrite check_exclusives_Ok.
  pose proof (count_kind_nonneg is_open (tx_outputs tx)).
  pose proof (count_kind_nonneg is_update (tx_outputs tx)).
  pose proof (count_kind_nonneg is_renewal (tx_outputs tx)).
  pose proof (count_kind_nonneg is_open (mjoin (tx_outputs <$> txs))).
  pose proof (count_kind_nonneg is_update (mjoin (tx_outputs <$> txs))).
  pose proof (count_kind_nonneg is_renewal (mjoin (tx_outputs <$> txs))).
  assert (forall m n k, 0 <= m <= u32_max -> 0 <= n -> 0 <= k ->
    saturating_add u32_max (saturating_add u32_max m (Z.min u32_max n)) k =
    saturating_add u32_max m (n + k)) as Sat by (unfold saturating_add; ulia).
  assert (forall m n, 0 <= m <= u32_max -> 0 <= n ->
    0 <= saturating_add u32_max m (Z.min u32_max n) <= u32_max) as Rg
    by (unfold saturating_add; ulia).
  split.
  - intros (s1 & (n & (P & D & ->) & [= <-]) & F).
    apply IH in F as (Fp & Fd & Fx & ->); [|by apply Rg..]. rewrite !Sat by done.
    split; [done|]. split; [|split].
    + constructor; [|done]. eapply Forall_impl; [exact Fx|]. clear. set_solver.
    + split; [done|]. eapply Forall_impl; [exact Fx|]. clear. set_solver.
    + f_equal. cbn. clear. set_solver.
  - intros ((P & Fp) & Fd & (Dx & Fx) & ->). inversion Fd as [|? ? Dt Fd']; subst.
    eexists. split; [eexists; split; [split; [done|]; split; [done|reflexivity]|reflexivity]|].
    apply IH; [by apply Rg..|]. rewrite !Sat by done. split; [done|]. split; [done|]. split.
    + apply Forall_forall. intros t I. rewrite Forall_forall in Dt, Fx.
      specialize (Dt t I). specialize (Fx t I). clear -Dt Fx. set_solver.
    + f_equal. cbn. clear. set_solver.
Qed.

Lemma validate_block_covenant_limits_Ok b :
  validate_block_covenant_limits b = Ok tt <->
  Forall (fun tx => names_present (tx_outputs tx)) (blk_transactions b) /\
  names_disjoint (blk_transactions b) /\
  block_count is_open (blk_transactions b) <= MAX_BLOCK_OPENS /\
  block_count is_update (blk_transactions b) <= MAX_BLOCK_UPDATES /\
  block_count is_renewal (blk_transactions b) <= MAX_BLOCK_RENEWALS.
Proof.
  unfold validate_block_covenant_limits. rewrite bind_Ok. split.
  - intros ([[[o u] r] ex] & F & E). apply covenant_limits_fold in F as (? & ? & _ & [= -> -> -> ->]);
      [|ulia..]. inv_ok. rewrite !Z.leb_le in *. unfold saturating_add in *. rewrite !Z.add_0_l in *.
    repeat match goal with H : Z.min u32_max _ <= _ |- _ =>
      apply min_u32_le in H; [|by vm_compute] end. done.
  - intros (P & D & Ho & Hu & Hr). eexists. split.
    { apply covenant_limits_fold; [ulia..|]. split; [done|]. split; [done|].
      split; [|reflexivity]. apply Forall_forall. intros tx _. set_solver. }
    unfold saturating_add. rewrite !Z.add_0_l.
    rewrite !(proj2 (Z.leb_le _ _)) by (etransitivity; [apply Z.le_min_r|done]). done.
Qed.

Section body.
Context {CR : Crypto}.

Lemma check_body_fold n txs s :
  (0 < n)%nat -> Forall Transaction_wf txs ->
  try_fold check_body_transaction n txs = Ok s <->
  Forall tx_sane txs /\ Forall (fun tx => is_coinbase tx = false) txs /\ s = (n + length txs)%nat.
Proof.
  intros Hn W. revert n Hn. induction W as [|tx txs Wx W IH]; intros n Hn; cbn [try_fold length].
  { rewrite Nat.add_0_r. split; [by intros [= <-]|by intros (_ & _ & ->)]. }
  rewrite bind_Ok, !Forall_cons. unfold check_body_transaction.
  destruct n as [|n]; [lia|]. cbn [Nat.eqb negb andb]. split.
  - intros (s1 & E & F). apply bind_Ok in E as ([] & E1 & E).
    apply validate_transaction_sanity_Ok in E1; [|done]. inv_ok.
    apply IH in F as (? & ? & ->); [|lia].
    match goal with H : negb _ = true |- _ => apply negb_true_iff in H end.
    split; [done|]. split; [done|]. lia.
  - intros ((Sx & F) & (C & Cs) & ->). apply validate_transaction_sanity_Ok in Sx; [|done].
    rewrite Sx, C. cbn [mbind result_bind negb assert_or]. eexists. split; [done|].
    apply IH; [lia|]. split; [done|]. split; [done|]. lia.
Qed.

(** What a valid body is: the header commits to the transactions through both
    roots, the first transaction and no other is a coinbase, every transaction is
    sane, the limits hold over the whole block and no name is updated by two
    transactions. *)
Record body_ok (b : Block) : Prop := {
  body_fits : block_fits (blk_transactions b);
  body_merkle : Header.merkle_root (blk_header b) = Block.merkle_root (txid <$> blk_transactions b);
  body_nonzero : Header.merkle_root (blk_header b) <> zeros 32;
  body_witness : Header.witness_root (blk_header b) = Block.merkle_root (wtxid <$> blk_transactions b);
  body_coinbase : exists first rest, blk_transactions b = first :: rest /\
    is_coinbase first = true /\ Forall (fun tx => is_coinbase tx = false) rest;
  body_sane : Forall tx_sane (blk_transactions b);
  body_opens : block_count is_open (blk_transactions b) <= MAX_BLOCK_OPENS;
  body_updates : block_count is_update (blk_transactions b) <= MAX_BLOCK_UPDATES;
  body_renewals : block_count is_renewal (blk_transactions b) <= MAX_BLOCK_RENEWALS;
  body_names : Forall (fun tx => names_present (tx_outputs tx)) (blk_transactions b) /\
    names_disjoint (blk_transactions b);
}.

Lemma validate_block_body_Ok b m :
  Block_wf b ->
  validate_block_body b = Ok m <-> body_ok b /\ m = metrics_of (blk_transactions b).
Proof.
  intros (_ & W). pose proof (wf_inputs _ W) as Wi. unfold validate_block_body. rewrite bind_Ok.
  setoid_rewrite (validate_block_limits_Ok b); [|done]. split.
  - intros (m' & (F & ->) & E). destruct (blk_transactions b) as [|tx txs] eqn:T; [done|].
    inv_ok. repeat match goal with u : unit |- _ => destruct u
      | H : negb (bool_decide _) = true |- _ => apply negb_true_iff, bool_decide_eq_false in H
      | H : bool_decide _ = true |- _ => apply bool_decide_eq_true in H end.
    cbn [metrics_of bm_merkle_root bm_witness_root] in *.
    match goal with H : validate_block_covenant_limits _ = Ok _ |- _ =>
      apply validate_block_covenant_limits_Ok in H as (? & ? & ? & ? & ?) end.
    match goal with H : try_fold check_body_transaction _ _ = Ok _ |- _ =>
      cbn [try_fold] in H; apply bind_Ok in H as (n1 & HA & HB) end.
    apply Forall_cons in W as [Wx W]. unfold check_body_transaction in HA.
    apply bind_Ok in HA as ([] & S1 & HA). apply validate_transaction_sanity_Ok in S1; [|done].
    injection HA as <-. apply check_body_fold in HB as (? & ? & _); [|lia|done].
    rewrite T in *. split; [|done]. split; rewrite ?T; try done; try congruence.
    + by eexists _, _.
    + by constructor.
  - intros ([F M Z Wr (first & rest & T & C & Cs) Sn O U R (N1 & N2)] & ->).
    eexists. split; [by split|]. rewrite T in *. cbn [metrics_of bm_merkle_root bm_witness_root].
    rewrite <- M, <- Wr. rewrite (bool_decide_eq_false_2 _ Z), !bool_decide_eqb_refl, C.
    cbn [negb assert_or mbind result_bind]. apply Forall_cons in Sn as [S1 Sn].
    apply Forall_cons in W as [Wx W]. cbn [try_fold]. apply validate_transaction_sanity_Ok in S1; [|done].
    assert (check_body_transaction 0 first = Ok 1%nat) as ->
      by (unfold check_body_transaction; by rewrite S1). cbn [mbind result_bind].
    rewrite (proj2 (check_body_fold 1 rest _ ltac:(lia) W)) by (by repeat split).
    cbn [mbind result_bind].
    rewrite (proj2 (validate_block_covenant_limits_Ok b)) by (rewrite T; by repeat split). done.
Qed.

(** C11. A block body is accepted exactly when the declarative conditions of
    [body_ok] hold, and the metrics returned are the exact sizes, weight and
    roots: the running totals, saturating counters, hash sets and index loops
    of the code decide neither more nor less. *)
Theorem validate_block_body_iff b m (W : Block_wf b) :
  validate_block_body b = Ok m <-> body_ok b /\ m = metrics_of (blk_transactions b).
Proof. by apply validate_block_body_Ok. Qed.

(** Every message hashed on the way from the transactions to the witness root. *)
Definition body_messages (txs : list Transaction) : list (list byte) :=
  merkle_messages (wtxid <$> txs) ++
  ((fun tx => txid tx ++ blake2b 32 (witness_bytes (tx_inputs tx))) <$> txs) ++
  (base_bytes <$> txs) ++ ((fun tx => witness_bytes (tx_inputs tx)) <$> txs).

Lemma fmap_inj_on {A B} (f : A -> B) (l k : list A) :
  (forall x y, x ∈ l -> y ∈ k -> f x = f y -> x = y) -> f <$> l = f <$> k -> l = k.
Proof.
  revert k. induction l as [|x l IH]; intros [|y k] I E; [done..|].
  rewrite !fmap_cons' in E. injection E as E1 E2. f_equal; [apply I; [set_solver..|done]|].
  apply IH; [|done]. intros; apply I; set_solver.
Qed.

Lemma tx_bytes_inj t u :
  Transaction_wf t -> tx_fits t -> Transaction_wf u -> tx_fits u -> tx_bytes t = tx_bytes u -> t = u.
Proof.
  intros Wt Ft Wu Fu E.
  pose proof (proj2 (Transaction_decode_Ok (tx_bytes t) t) (conj Wt (conj Ft eq_refl))).
  pose proof (proj2 (Transaction_decode_Ok (tx_bytes t) u) (conj Wu (conj Fu E))). congruence.
Qed.

(** C2. A header commits to its whole block: two accepted blocks with the same
    header have the same transactions in the same order, witnesses included,
    unless two different messages hashed for them collide. In particular no
    padding or duplication of transactions preserves the root. *)
Theorem header_commits_body b b' m m' (W : Block_wf b) (W' : Block_wf b')
    (V : validate_block_body b = Ok m) (V' : validate_block_body b' = Ok m')
    (E : blk_header b = blk_header b')
    (C : collision_free (body_messages (blk_transactions b) ++ body_messages (blk_transactions b'))) :
  b = b'.
Proof.
  apply validate_block_body_Ok in V as [[F _ _ R _ _ _ _ _ _] _]; [|done].
  apply validate_block_body_Ok in V' as [[F' _ _ R' _ _ _ _ _ _] _]; [|done].
  destruct b as [h txs], b' as [h' txs']. cbn [blk_header blk_transactions] in *. subst h'. f_equal.
  rewrite R in R'. apply merkle_root_binding in R'.
  2: { intros x y Hx Hy. apply C; unfold body_messages; set_solver. }
  revert R'. apply fmap_inj_on. intros t u It Iu Ew.
  destruct W as [_ W], W' as [_ W'], F as (_ & F & _), F' as (_ & F' & _).
  cbn [blk_transactions] in *. rewrite Forall_forall in W, W', F, F'.
  apply C in Ew; [|unfold body_messages; rewrite !elem_of_app, !list_elem_of_fmap; eauto 10..].
  apply app_inj_len in Ew as [Eb Es]; [|unfold txid; by rewrite !blake2b_length].
  apply C in Eb; [|unfold body_messages; rewrite !elem_of_app, !list_elem_of_fmap; eauto 10..].
  apply C in Es; [|unfold body_messages; rewrite !elem_of_app, !list_elem_of_fmap; eauto 10..].
  apply tx_bytes_inj; auto. unfold tx_bytes. by rewrite Eb, Es.
Qed.

End body.

(** ** A sample block, under the example digests *)
Definition sample_address : Address := mkAddress x00 (zeros 20).
Definition sample_coinbase : Transaction :=
  mkTransaction 0
    [mkInput Outpoint_NULL 7 (mkWitness [[x01]; zeros 8; zeros 8])]
    [mkOutput 2000000000 sample_address Covenant_default] 5.
Definition sample_spend : Transaction :=
  mkTransaction 0
    [mkInput (mkOutpoint (replicate 32 x07) 1) 0 (mkWitness [[x02]])]
    [mkOutput 9 sample_address (mkCovenant KUpdate [zeros 32; zeros 4; [x00]])] 0.
Definition sample_txs : list Transaction := [sample_coinbase; sample_spend].
Definition sample_block_of (txs : list Transaction) : Block :=
  mkBlock (mkHeader 1 2 (zeros 32) (zeros 32) (zeros 24) (zeros 32)
    (bm_witness_root (@metrics_of toy_crypto txs))
    (bm_merkle_root (@metrics_of toy_crypto txs)) 0 3 (zeros 32)) txs.
Definition sample_block : Block := sample_block_of sample_txs.
Definition small_block : Block := sample_block_of [sample_coinbase].

Lemma sample_block_wf : Block_wf sample_block.
Proof. repeat (constructor || vm_compute; try done). Qed.
Lemma small_block_wf : Block_wf small_block.
Proof. repeat (constructor || vm_compute; try done). Qed.

Lemma validate_block_body_iff_witness :
  Block_wf sample_block /\
  @validate_block_body toy_crypto sample_block = Ok (@metrics_of toy_crypto sample_txs) /\
  @body_ok toy_crypto sample_block.
Proof.
  assert (@validate_block_body toy_crypto sample_block = Ok (@metrics_of toy_crypto sample_txs)) as V
    by (vm_compute; reflexivity).
  split; [exact sample_block_wf|]. split; [exact V|].
  exact (proj1 (proj1 (@validate_block_body_iff toy_crypto sample_block _ sample_block_wf) V)).
Defined.

Lemma header_commits_body_witness :
  @collision_free toy_crypto (@body_messages toy_crypto [sample_coinbase]) /\
  small_block = small_block.
Proof.
  assert (@collision_free toy_crypto (@body_messages toy_crypto [sample_coinbase])) as C
    by (apply collision_freeb_spec; vm_compute; reflexivity).
  assert (@validate_block_body toy_crypto small_block = Ok (@metrics_of toy_crypto [sample_coinbase]))
    as V by (vm_compute; reflexivity).
  split; [exact C|].
  exact (@header_commits_body toy_crypto _ _ _ _ small_block_wf small_block_wf V V eq_refl
    (@collision_free_self toy_crypto _ C)).
Defined.
