(* ===== verification/Mining.v ===== *)
(** * hns-mining: subsidies, coinbases and mining jobs

    Models the rest of [crates/hns-mining/src/lib.rs]: the subsidy schedule, the
    coinbase transaction, the header template and the prepared jobs miners work
    on, the admission of a solution, and the bounded set of prepared jobs. [Arc]
    is the value it points to: jobs are immutable. *)

From stdpp Require Import gmap.
From S2P Require Import Prelude Encoding Primitives Covenants Transaction U256 Header Block.
Local Open Scope Z_scope.

Definition MAX_PREPARED_JOBS : Z := 16.

Record MiningSnapshot := mkSnapshot {
  ms_network : Network;
  ms_generation : Z;
  ms_tip_hash : list byte;
  ms_tip_height : Z;
  ms_tip_time : Z;
  ms_parent_median_time : Z;
  ms_next_tree_root : list byte;
  ms_expected_bits : Z;
}.

Record MiningHeaderTemplate := mkTemplate {
  mt_parent_hash : list byte;
  mt_tree_root : list byte;
  mt_reserved_root : list byte;
  mt_witness_root : list byte;
  mt_merkle_root : list byte;
  mt_version : Z;
  mt_bits : Z;
  mt_minimum_time : Z;
  mt_mask_hash : list byte;
}.

Record PreparedMiningJob := mkJob {
  job_id_of : list byte;
  job_generation : Z;
  job_network : Network;
  job_header : MiningHeaderTemplate;
  job_maximum_target_time : option Z;
  job_transactions : list Transaction;
}.


#[global] Instance Transaction_eq_dec : EqDecision Transaction.
Proof. solve_decision. Defined.
#[global] Instance MiningHeaderTemplate_eq_dec : EqDecision MiningHeaderTemplate.
Proof. solve_decision. Defined.
#[global] Instance PreparedMiningJob_eq_dec : EqDecision PreparedMiningJob.
Proof. solve_decision. Defined.

(** ** Snapshots *)
Definition MiningSnapshot_next_height (s : MiningSnapshot) : result MiningError Z :=
  ok_or (checked_add u32_max (ms_tip_height s) 1) MArithmeticOverflow.

Definition MiningSnapshot_validate (s : MiningSnapshot) : result MiningError unit :=
  assert_or (negb ((ms_generation s =? 0) || (ms_expected_bits s =? 0))) InvalidSnapshot.

(** ** Subsidies *)
Definition block_subsidy (height halving_interval : Z) : result MiningError Z :=
  assert_or (negb (halving_interval =? 0)) InvalidHalvingInterval ;;
  let halvings := height / halving_interval in
  Ok (if 52 <=? halvings then 0 else Z.shiftr BASE_REWARD halvings).

Definition halving_interval (network : Network) : Z :=
  match network with Regtest => 2500 | Mainnet | Testnet | Simnet => 170000 end.

(** [BTreeMap<MiningJobId, Arc<PreparedMiningJob>>] *)
Abbreviation PreparedJobSet := (gmap (list byte) PreparedMiningJob).

Section mining.
Context {CR : Crypto}.

Definition create_coinbase (height generation subsidy fees : Z) (payout_address : Address)
    (coinbase_flags : list byte) : result MiningError Transaction :=
  map_err MTransaction (Address_validate payout_address) ;;
  reward ← map_err MArithmetic (Dollarydoos_checked_add subsidy fees);
  assert_or (reward <=? MAX_MONEY) OutputValue ;;
  assert_or (generation <=? u32_max) (GenerationOutOfRange generation) ;;
  let transaction := mkTransaction 0
    [mkInput Outpoint_NULL generation (mkWitness [coinbase_flags; zeros 8; zeros 8])]
    [mkOutput reward payout_address Covenant_default] height in
  validate_transaction_sanity transaction ;;
  Ok transaction.

(** ** Templates *)
Definition mask_hash (parent mask : list byte) : list byte := blake2b_256_many [parent; mask].

Definition MiningHeaderTemplate_from_transactions (snapshot : MiningSnapshot)
    (reserved_root : list byte) (version minimum_time : Z) (mask : list byte)
    (transactions : list Transaction) : result MiningError MiningHeaderTemplate :=
  MiningSnapshot_validate snapshot ;;
  assert_or (negb ((minimum_time <=? ms_parent_median_time snapshot) || (len transactions =? 0)))
    InvalidTemplate ;;
  witness_root ← block_witness_root transactions;
  merkle_root ← block_merkle_root transactions;
  Ok (mkTemplate (ms_tip_hash snapshot) (ms_next_tree_root snapshot) reserved_root witness_root
        merkle_root version (ms_expected_bits snapshot) minimum_time
        (mask_hash (ms_tip_hash snapshot) mask)).

(** ** Jobs *)
Definition put_job_transaction (body : Encoder) (tx : Transaction) : result MiningError Encoder :=
  encoded ← map_err MTransaction (Transaction_encode tx);
  Ok (put_bytes (put_u64_le body (len encoded)) encoded).

Definition job_id (snapshot : MiningSnapshot) (header : MiningHeaderTemplate)
    (transactions : list Transaction) : result MiningError (list byte) :=
  body ← try_fold put_job_transaction (put_u64_le Encoder_new (len transactions)) transactions;
  Ok (blake2b_256_many
    [bstr "hsrd/mining-job/v1"; [z2b (Network_id (ms_network snapshot))];
     to_le_bytes 8 (ms_generation snapshot); mt_parent_hash header; mt_tree_root header;
     mt_reserved_root header; mt_witness_root header; mt_merkle_root header;
     to_le_bytes 4 (mt_version header); to_le_bytes 4 (mt_bits header);
     to_le_bytes 8 (mt_minimum_time header); mt_mask_hash header; into_bytes body]).

(** The latest time a header at a non-minimum difficulty may carry on a network
    that resets its target; computed alike in [new] and [validate_for_snapshot]. *)
Definition maximum_target_time_for (snapshot : MiningSnapshot) (bits : Z) : option Z :=
  let parameters := pow (Network_parameters (ms_network snapshot)) in
  if target_reset parameters && negb (bits =? pow_bits parameters)
  then Some (saturating_add u64_max (ms_tip_time snapshot)
         (Z.min u64_max (target_spacing parameters * 2)))
  else None.

Definition exceeds (limit : option Z) (time : Z) : bool :=
  match limit with Some maximum => maximum <? time | None => false end.

Definition template_header (t : MiningHeaderTemplate) (nonce time : Z)
    (extra_nonce mask : list byte) : Header :=
  mkHeader nonce time (mt_parent_hash t) (mt_tree_root t) extra_nonce (mt_reserved_root t)
    (mt_witness_root t) (mt_merkle_root t) (mt_version t) (mt_bits t) mask.

(** The first transaction's locktime; the body check has refused an empty list. *)
Definition first_locktime (transactions : list Transaction) : Z :=
  match transactions with tx :: _ => tx_locktime tx | [] => 0 end.

Definition PreparedMiningJob_new (snapshot : MiningSnapshot) (header : MiningHeaderTemplate)
    (transactions : list Transaction) : result MiningError PreparedMiningJob :=
  MiningSnapshot_validate snapshot ;;
  assert_or
    (negb (negb (bool_decide (mt_parent_hash header = ms_tip_hash snapshot)) ||
           negb (bool_decide (mt_tree_root header = ms_next_tree_root snapshot)) ||
           (mt_minimum_time header <=? ms_parent_median_time snapshot) ||
           negb (mt_bits header =? ms_expected_bits snapshot) ||
           (len transactions =? 0))) InvalidJob ;;
  let provisional :=
    mkBlock (template_header header 0 (mt_minimum_time header) (zeros 24) (zeros 32))
      transactions in
  _ ← validate_block_body provisional;
  next_height ← MiningSnapshot_next_height snapshot;
  assert_or (first_locktime transactions =? next_height) InvalidCoinbaseHeight ;;
  let maximum_target_time := maximum_target_time_for snapshot (mt_bits header) in
  assert_or (negb (exceeds maximum_target_time (mt_minimum_time header))) InvalidJob ;;
  job_id ← job_id snapshot header transactions;
  Ok (mkJob job_id (ms_generation snapshot) (ms_network snapshot) header maximum_target_time
        transactions).

Definition PreparedMiningJob_prepare (snapshot : MiningSnapshot) (reserved_root : list byte)
    (version minimum_time : Z) (mask : list byte) (transactions : list Transaction)
  : result MiningError PreparedMiningJob :=
  header ← MiningHeaderTemplate_from_transactions snapshot reserved_root version minimum_time mask
    transactions;
  PreparedMiningJob_new snapshot header transactions.

(** The last operand of [||] may fail, and is computed only when the others are
    false. *)
Definition validate_for_snapshot (job : PreparedMiningJob) (snapshot : MiningSnapshot)
  : result MiningError unit :=
  map_err (fun _ => StaleJob) (MiningSnapshot_validate snapshot) ;;
  let expected_maximum := maximum_target_time_for snapshot (mt_bits (job_header job)) in
  assert_or
    (negb (negb (bool_decide (job_network job = ms_network snapshot)) ||
           negb (job_generation job =? ms_generation snapshot) ||
           negb (bool_decide (mt_parent_hash (job_header job) = ms_tip_hash snapshot)) ||
           negb (bool_decide (mt_tree_root (job_header job) = ms_next_tree_root snapshot)) ||
           negb (mt_bits (job_header job) =? ms_expected_bits snapshot) ||
           (mt_minimum_time (job_header job) <=? ms_parent_median_time snapshot) ||
           negb (bool_decide (job_maximum_target_time job = expected_maximum)))) StaleJob ;;
  id ← job_id snapshot (job_header job) (job_transactions job);
  assert_or (bool_decide (job_id_of job = id)) StaleJob.

Definition reconstruct (job : PreparedMiningJob) (nonce time : Z) (extra_nonce mask : list byte)
  : result MiningError Block :=
  assert_or
    (negb ((time <? mt_minimum_time (job_header job)) ||
           exceeds (job_maximum_target_time job) time ||
           negb (bool_decide (mask_hash (mt_parent_hash (job_header job)) mask =
                              mt_mask_hash (job_header job))))) InvalidReconstruction ;;
  let block := mkBlock (template_header (job_header job) nonce time extra_nonce mask)
    (job_transactions job) in
  _ ← map_err (fun _ => InvalidReconstruction) (validate_block_body block);
  assert_or (bool_decide (Header.mask_hash (blk_header block) = mt_mask_hash (job_header job)))
    InvalidReconstruction ;;
  Ok block.


(** ** The job set *)
Definition job_set_insert (jobs : PreparedJobSet) (job : PreparedMiningJob)
  : result MiningError PreparedMiningJob * PreparedJobSet :=
  match jobs !! job_id_of job with
  | Some existing =>
    if bool_decide (existing = job) then (Ok existing, jobs) else (Err JobConflict, jobs)
  | None =>
    if MAX_PREPARED_JOBS <=? Z.of_nat (size jobs) then (Err JobCapacity, jobs)
    else (Ok job, <[job_id_of job := job]> jobs)
  end.

Definition job_set_activate (jobs : PreparedJobSet) (id : list byte) (snapshot : MiningSnapshot)
  : result MiningError PreparedMiningJob * PreparedJobSet :=
  match jobs !! id with
  | None => (Err UnknownJob, jobs)
  | Some job =>
    match validate_for_snapshot job snapshot with
    | Err e => (Err e, jobs)
    | Ok _ =>
      (Ok job, base.filter (fun kv => job_generation kv.2 = ms_generation snapshot /\
                                      job_network kv.2 = ms_network snapshot) jobs)
    end
  end.

Definition job_set_retain_generation (jobs : PreparedJobSet) (generation : Z) : PreparedJobSet :=
  base.filter (fun kv => job_generation kv.2 = generation) jobs.

Definition job_set_clear (jobs : PreparedJobSet) : PreparedJobSet := ∅.

End mining.

(** ** The subsidy schedule *)
Definition era_reward (era : Z) : Z := BASE_REWARD / 2 ^ era.

(** The rewards of the first [n] eras, and the subsidy of the first [n] blocks. *)
Fixpoint eras_total (n : nat) : Z :=
  match n with O => 0 | S n => eras_total n + era_reward (Z.of_nat n) end.
Fixpoint total_subsidy (interval : Z) (n : nat) : Z :=
  match n with
  | O => 0
  | S n =>
    total_subsidy interval n +
    match block_subsidy (Z.of_nat n) interval with Ok v => v | Err _ => 0 end
  end.

Lemma block_subsidy_eq height interval :
  0 <= height -> 0 < interval ->
  block_subsidy height interval = Ok (era_reward (height / interval)).
Proof.
  intros Hh Hi. unfold block_subsidy, era_reward. rewrite (proj2 (Z.eqb_neq _ 0)) by lia.
  cbn [negb assert_or mbind result_bind]. pose proof (Z.div_pos height interval Hh Hi). f_equal.
  destruct (Z.leb_spec 52 (height / interval)) as [L|L].
  - symmetry. apply Z.div_small. split; [by vm_compute|].
    apply Z.lt_le_trans with (2 ^ 52); [by vm_compute|]. apply Z.pow_le_mono_r; lia.
  - by rewrite Z.shiftr_div_pow2 by lia.
Qed.

Lemma era_reward_nonneg k : 0 <= k -> 0 <= era_reward k.
Proof. intros. unfold era_reward. apply Z.div_pos; [by vm_compute|]. apply Z.pow_pos_nonneg; lia. Qed.

(** Complete eras contribute an interval of their reward each, the current one
    the blocks mined in it. *)
Lemma total_subsidy_eq interval n :
  0 < interval ->
  total_subsidy interval n =
  Z.of_nat n mod interval * era_reward (Z.of_nat n / interval) +
  interval * eras_total (Z.to_nat (Z.of_nat n / interval)).
Proof.
  intros Hi. induction n as [|n IH].
  { cbn [total_subsidy]. change (Z.of_nat 0) with 0. rewrite Z.mod_0_l, Z.div_0_l by lia.
    change (eras_total (Z.to_nat 0)) with 0. lia. }
  cbn [total_subsidy]. rewrite IH, block_subsidy_eq by lia. clear IH. set (h := Z.of_nat n).
  assert (0 <= h) by lia. replace (Z.of_nat (S n)) with (h + 1) by lia.
  pose proof (Z.div_mod h interval ltac:(lia)) as D. pose proof (Z.mod_pos_bound h interval Hi).
  pose proof (Z.div_pos h interval ltac:(lia) Hi). set (q := h / interval) in *. set (r := h mod interval) in *.
  destruct (decide (r + 1 = interval)) as [E|E].
  - assert ((h + 1) / interval = q + 1) as -> by (symmetry; apply Z.div_unique with 0; lia).
    assert ((h + 1) mod interval = 0) as -> by (symmetry; apply Z.mod_unique with (q + 1); lia).
    replace (Z.to_nat (q + 1)) with (S (Z.to_nat q)) by lia. cbn [eras_total].
    rewrite Z2Nat.id by lia. nia.
  - assert ((h + 1) / interval = q) as -> by (symmetry; apply Z.div_unique with (r + 1); lia).
    assert ((h + 1) mod interval = r + 1) as -> by (symmetry; apply Z.mod_unique with q; lia). lia.
Qed.

Lemma eras_total_S n : eras_total (S n) = eras_total n + era_reward (Z.of_nat n).
Proof. reflexivity. Qed.

(** From era 31 on the reward is zero, so the sum of all eras is that of 31. *)
Lemma eras_total_bound n : eras_total n <= eras_total 31.
Proof.
  destruct (decide (n <= 31)%nat) as [L|L].
  - assert (forall k, eras_total n <= eras_total (n + k)) as M.
    { induction k as [|k IH]; [by rewrite Nat.add_0_r|]. rewrite Nat.add_succ_r. cbn [eras_total].
      pose proof (era_reward_nonneg (Z.of_nat (n + k)) ltac:(lia)). lia. }
    replace 31%nat with (n + (31 - n))%nat by lia. apply M.
  - replace n with (31 + (n - 31))%nat by lia. induction (n - 31)%nat as [|k IH]; [by rewrite Nat.add_0_r|].
    rewrite Nat.add_succ_r. rewrite eras_total_S.
    assert (era_reward (Z.of_nat (31 + k)) = 0) as ->; [|lia].
    apply Z.div_small. split; [by vm_compute|]. apply Z.lt_le_trans with (2 ^ 31); [by vm_compute|].
    apply Z.pow_le_mono_r; lia.
Qed.

Lemma halving_interval_range net : 0 < halving_interval net <= 170000.
Proof. destruct net; by vm_compute. Qed.

(** The subsidy halves every interval, rounding down, with no special case
    visible at the cut-off after 52 halvings; and however long the chain grows,
    all subsidies together stay below twice the first era's issue, and so below
    the maximum amount of money. *)
Theorem subsidy_schedule net (h n : nat) :
  block_subsidy (Z.of_nat h) (halving_interval net) =
    Ok (BASE_REWARD / 2 ^ (Z.of_nat h / halving_interval net)) /\
  total_subsidy (halving_interval net) n <= 2 * halving_interval net * BASE_REWARD /\
  total_subsidy (halving_interval net) n <= MAX_MONEY.
Proof.
  pose proof (halving_interval_range net) as Hi. set (I := halving_interval net) in *.
  split; [apply block_subsidy_eq; lia|].
  assert (total_subsidy I n <= I * eras_total 31) as B.
  { rewrite total_subsidy_eq by lia.
    pose proof (Z.mod_pos_bound (Z.of_nat n) I ltac:(lia)). set (k := Z.of_nat n / I).
    assert (0 <= k) by (apply Z.div_pos; lia).
    pose proof (era_reward_nonneg k ltac:(lia)) as Hr.
    pose proof (eras_total_bound (S (Z.to_nat k))) as Hb.
    rewrite (eras_total_S (Z.to_nat k)), Z2Nat.id in Hb by lia. nia. }
  assert (eras_total 31 <= 2 * BASE_REWARD) as E by (vm_compute; discriminate).
  assert (2 * 170000 * BASE_REWARD <= MAX_MONEY) as M by (vm_compute; discriminate).
  assert (0 <= BASE_REWARD) by (vm_compute; discriminate). nia.
Qed.

(** ** Coinbases *)
Section coinbase.
Context {CR : Crypto}.

Definition coinbase_tx (height generation reward : Z) (payout : Address) (flags : list byte)
  : Transaction :=
  mkTransaction 0 [mkInput Outpoint_NULL generation (mkWitness [flags; zeros 8; zeros 8])]
    [mkOutput reward payout Covenant_default] height.

Lemma coinbase_witness flags :
  len (wit_bytes (mkWitness [flags; zeros 8; zeros 8])) <= MAX_COINBASE_WITNESS_SIZE <-> len flags <= 978.
Proof.
  rewrite len_wit_bytes. cbn [wit_items]. rewrite !fmap_cons', !join_cons, !len_app, !len_var_bytes.
  change (len (mjoin (var_bytes <$> []))) with 0.
  change (len (zeros 8)) with 8. change (len [flags; zeros 8; zeros 8]) with 3.
  change (compact_size_len 8) with 1. change (compact_size_len 3) with 1.
  pose proof (len_nonneg flags). unfold MAX_COINBASE_WITNESS_SIZE, compact_size_len.
  repeat zcase; lia.
Qed.

Lemma coinbase_tx_wf height generation reward payout flags :
  u32 height -> u32 generation -> u64 reward ->
  Transaction_wf (coinbase_tx height generation reward payout flags).
Proof.
  intros Hh Hg Hr. split; [cbn; ulia|]. split; [done|]. split.
  - constructor; [|done]. split; [apply Outpoint_NULL_wf|done].
  - constructor; [|done]. by split.
Qed.

Lemma coinbase_tx_fits height generation reward payout flags :
  u32 height -> u32 generation -> u64 reward -> addr_ok payout -> len flags <= 978 ->
  tx_fits (coinbase_tx height generation reward payout flags).
Proof.
  intros Hh Hg Hr A F. pose proof (proj2 (coinbase_witness flags) F) as Wl.
  assert (cov_fits Covenant_default) as Cf
    by (apply (proj1 (Covenant_encoded_size_Ok Covenant_default 2)); reflexivity).
  assert (len (out_bytes (mkOutput reward payout Covenant_default)) <= 52) as Lo.
  { rewrite len_out_bytes. cbn [out_address out_covenant].
    change (len (cov_bytes Covenant_default)) with 2. destruct A as (_ & ? & _). lia. }
  assert (len (base_bytes (coinbase_tx height generation reward payout flags)) <= 102) as Lb.
  { rewrite len_base_bytes by apply (coinbase_tx_wf height generation reward payout flags Hh Hg Hr).
    cbn [coinbase_tx tx_inputs tx_outputs]. rewrite fmap_cons', join_cons, len_app.
    change (len (mjoin (out_bytes <$> []))) with 0.
    change (len [_]) with 1. change (compact_size_len 1) with 1. lia. }
  assert (len (witness_bytes (tx_inputs (coinbase_tx height generation reward payout flags))) <= 1000).
  { cbn [coinbase_tx tx_inputs]. rewrite witness_bytes_cons, len_app. cbn [in_witness].
    change (len (witness_bytes [])) with 0. unfold MAX_COINBASE_WITNESS_SIZE in Wl. lia. }
  unfold tx_fits. cbn [coinbase_tx tx_inputs tx_outputs]. change (len [_]) with 1.
  split; [by vm_compute|]. split; [by vm_compute|]. split; [by constructor|].
  split; [|split; [tx_unfold; lia|tx_unfold; cbn [coinbase_tx tx_inputs] in *; lia]].
  constructor; [|done]. split; [by vm_compute|]. cbn [in_witness]. tx_unfold.
  unfold MAX_COINBASE_WITNESS_SIZE in Wl. lia.
Qed.

Lemma coinbase_tx_sane height generation reward payout flags :
  u32 height -> u32 generation -> u64 reward -> reward <= MAX_MONEY -> addr_ok payout ->
  validate_transaction_sanity (coinbase_tx height generation reward payout flags) = Ok tt <->
  len flags <= 978.
Proof.
  intros Hh Hg Hr Hm A. rewrite validate_transaction_sanity_Ok by (by apply coinbase_tx_wf). split.
  - intros S. pose proof (sane_spends _ S) as I. unfold inputs_ok in I.
    change (is_coinbase _) with true in I. cbn [coinbase_tx tx_inputs] in I.
    destruct I as (i & cs & [= <- <-] & L & _). by apply coinbase_witness.
  - intros F. split; try done.
    + by apply coinbase_tx_fits.
    + cbn. lia.
    + unfold inputs_ok. change (is_coinbase _) with true. cbn [coinbase_tx tx_inputs].
      eexists _, _. split; [done|]. cbn [in_witness]. split; [by apply coinbase_witness|done].
    + unfold covenants_ok. change (is_coinbase _) with true. split; [done|].
      intros [|i] o; [by intros [= <-]|done].
Qed.

(** A coinbase is built exactly when the payout address is valid, the
    reward is a valid amount of money, the generation fits the sequence field
    and the flags leave the witness within its limit; it is then the one
    transaction that pays subsidy and fees to that address and commits to the
    height. Sums that overflow 64 bits are refused, never wrapped. *)
Theorem create_coinbase_iff height generation subsidy fees payout flags tx
    (Hh : u32 height) (Hg : u64 generation) (Hs : u64 subsidy) (Hf : u64 fees) :
  create_coinbase height generation subsidy fees payout flags = Ok tx <->
  addr_ok payout /\ subsidy + fees <= MAX_MONEY /\ generation <= u32_max /\ len flags <= 978 /\
  tx = coinbase_tx height generation (subsidy + fees) payout flags.
Proof.
  unfold create_coinbase, Dollarydoos_checked_add. fold (coinbase_tx height generation).
  assert (MAX_MONEY <= u64_max) by (by vm_compute). split.
  - intros E. apply bind_Ok in E as ([] & Ea & E). apply map_err_Ok, Address_validate_Ok in Ea.
    apply bind_Ok in E as (r & Er & E). apply map_err_Ok in Er.
    apply ok_or_Ok, checked_add_Some in Er as (-> & ?).
    apply bind_Ok in E as (u1 & Em & E). apply assert_or_Ok, Z.leb_le in Em.
    apply bind_Ok in E as (u2 & Eg & E). apply assert_or_Ok, Z.leb_le in Eg.
    apply bind_Ok in E as ([] & Es & [= <-]). apply coinbase_tx_sane in Es; [done|ulia..|done|done].
  - intros (A & M & G & F & ->). apply Address_validate_Ok in A as A'. rewrite A'.
    cbn [map_err mbind result_bind]. unfold checked_add. rewrite (proj2 (Z.leb_le _ u64_max)) by lia.
    cbn [ok_or map_err mbind result_bind]. rewrite (proj2 (Z.leb_le _ MAX_MONEY)) by done.
    cbn [assert_or mbind result_bind]. rewrite (proj2 (Z.leb_le _ u32_max)) by done.
    cbn [assert_or mbind result_bind]. apply bind_Ok. exists tt.
    split; [apply coinbase_tx_sane; first [done|ulia]|done].
Qed.

End coinbase.

Lemma create_coinbase_iff_witness :
  u32 5 /\ u64 7 /\ u64 2000000000 /\ u64 11 /\
  @create_coinbase toy_crypto 5 7 2000000000 11 sample_address [x01] =
    Ok (coinbase_tx 5 7 2000000011 sample_address [x01]).
Proof.
  assert (u32 5 /\ u64 7 /\ u64 2000000000 /\ u64 11) as (A & B & C & D) by (by vm_compute).
  split; [exact A|]. split; [exact B|]. split; [exact C|]. split; [exact D|].
  apply (@create_coinbase_iff toy_crypto 5 7 2000000000 11 sample_address [x01] _ A B C D).
  by vm_compute; repeat split; auto.
Defined.

(** ** Jobs *)
Section jobs.
Context {CR : Crypto}.

(** A body is checked against the two roots of the header and nothing else of it. *)
Lemma validate_block_body_header h h' txs :
  Header.merkle_root h = Header.merkle_root h' -> Header.witness_root h = Header.witness_root h' ->
  validate_block_body (mkBlock h txs) = validate_block_body (mkBlock h' txs).
Proof.
  intros E1 E2. unfold validate_block_body, validate_block_limits, validate_block_covenant_limits.
  cbn [blk_header blk_transactions]. by rewrite E1, E2.
Qed.

(** What [new] establishes about a job. *)
Lemma PreparedMiningJob_new_inv snapshot t txs job :
  PreparedMiningJob_new snapshot t txs = Ok job ->
  job_header job = t /\ job_transactions job = txs /\
  (forall nonce time extra mask, exists m,
     validate_block_body (mkBlock (template_header t nonce time extra mask) txs) = Ok m) /\
  first_locktime txs = ms_tip_height snapshot + 1 /\
  job_maximum_target_time job = maximum_target_time_for snapshot (mt_bits t) /\
  job_id snapshot t txs = Ok (job_id_of job).
Proof.
  intros E. unfold PreparedMiningJob_new in E. apply bind_Ok in E as (u1 & _ & E).
  apply bind_Ok in E as (u2 & _ & E). apply bind_Ok in E as (m & V & E).
  apply bind_Ok in E as (h & Hh & E). apply ok_or_Ok, checked_add_Some in Hh as (-> & _).
  apply bind_Ok in E as (u3 & Hl & E). apply assert_or_Ok, Z.eqb_eq in Hl.
  apply bind_Ok in E as (u4 & _ & E). apply bind_Ok in E as (id & Hid & [= <-]).
  cbn [job_header job_transactions job_maximum_target_time job_id_of].
  split; [done|]. split; [done|]. split; [|done].
  intros. exists m. rewrite <- V. by apply validate_block_body_header.
Qed.

Lemma reconstruct_Ok snapshot t txs job nonce time extra mask b :
  PreparedMiningJob_new snapshot t txs = Ok job ->
  reconstruct job nonce time extra mask = Ok b <->
  mt_minimum_time t <= time /\ exceeds (job_maximum_target_time job) time = false /\
  mask_hash (mt_parent_hash t) mask = mt_mask_hash t /\
  b = mkBlock (template_header t nonce time extra mask) txs.
Proof.
  intros N. apply PreparedMiningJob_new_inv in N as (Eh & Et & V & _). unfold reconstruct.
  rewrite Eh, Et. destruct (V nonce time extra mask) as (m & Vm). rewrite Vm.
  cbn [map_err mbind result_bind blk_header]. rewrite bind_Ok.
  assert (Header.mask_hash (template_header t nonce time extra mask) =
    mask_hash (mt_parent_hash t) mask) as -> by done. split.
  - intros (u & G & E). apply assert_or_Ok, negb_true_iff in G.
    apply orb_false_iff in G as (G & _). apply orb_false_iff in G as (G1 & G2).
    apply Z.ltb_ge in G1. apply bind_Ok in E as (u' & G3 & [= <-]).
    by apply assert_or_Ok, bool_decide_eq_true in G3.
  - intros (G1 & G2 & G3 & ->). rewrite G2, G3, bool_decide_eqb_refl, (proj2 (Z.ltb_ge _ _)) by done.
    by exists tt.
Qed.

(** A prepared job can always be completed: with the mask it was prepared
    under, every nonce and extra nonce and every time in the job's window
    reconstructs the block of the template, and nothing outside the window
    does. The body check, repeated on every reconstruction, never fails. *)
Theorem reconstruct_prepared snapshot reserved version minimum mask txs job nonce time extra b
    (P : PreparedMiningJob_prepare snapshot reserved version minimum mask txs = Ok job) :
  reconstruct job nonce time extra mask = Ok b <->
  minimum <= time /\ exceeds (maximum_target_time_for snapshot (ms_expected_bits snapshot)) time = false /\
  b = mkBlock (template_header (job_header job) nonce time extra mask) txs.
Proof.
  unfold PreparedMiningJob_prepare in P. apply bind_Ok in P as (t & Ht & N).
  pose proof (PreparedMiningJob_new_inv _ _ _ _ N) as (Eh & _ & _ & _ & Em & _).
  rewrite (reconstruct_Ok _ _ _ _ _ _ _ _ _ N), Em, Eh.
  unfold MiningHeaderTemplate_from_transactions in Ht. apply bind_Ok in Ht as (? & _ & Ht).
  apply bind_Ok in Ht as (? & _ & Ht). apply bind_Ok in Ht as (? & _ & Ht).
  apply bind_Ok in Ht as (? & _ & [= <-]).
  cbn [mt_minimum_time mt_bits mt_parent_hash mt_mask_hash]. split; [tauto|].
  intros (? & ? & ->). done.
Qed.

Lemma validate_for_snapshot_inv job snapshot :
  validate_for_snapshot job snapshot = Ok tt ->
  job_network job = ms_network snapshot /\ job_generation job = ms_generation snapshot /\
  mt_parent_hash (job_header job) = ms_tip_hash snapshot /\
  mt_tree_root (job_header job) = ms_next_tree_root snapshot /\
  mt_bits (job_header job) = ms_expected_bits snapshot /\
  ms_parent_median_time snapshot < mt_minimum_time (job_header job).
Proof.
  intros E. unfold validate_for_snapshot in E. apply bind_Ok in E as (? & _ & E).
  apply bind_Ok in E as (? & G & _). apply assert_or_Ok, negb_true_iff in G.
  repeat match goal with
  | G : _ || _ = false |- _ => apply orb_false_iff in G as (? & G)
  | G : negb (bool_decide _) = false |- _ => apply negb_false_iff, bool_decide_eq_true in G
  | G : negb (_ =? _) = false |- _ => apply negb_false_iff, Z.eqb_eq in G
  | G : (_ <=? _) = false |- _ => apply Z.leb_gt in G
  end. done.
Qed.



End jobs.

(** ** The job set *)
Inductive JobOp :=
| OpInsert (job : PreparedMiningJob)
| OpActivate (id : list byte) (snapshot : MiningSnapshot)
| OpRetain (generation : Z)
| OpClear.

Section job_set.
Context {CR : Crypto}.

Definition job_set_step (jobs : PreparedJobSet) (op : JobOp) : PreparedJobSet :=
  match op with
  | OpInsert job => (job_set_insert jobs job).2
  | OpActivate id snapshot => (job_set_activate jobs id snapshot).2
  | OpRetain generation => job_set_retain_generation jobs generation
  | OpClear => job_set_clear jobs
  end.

(** Capacity, and every job under its own identifier. *)
Definition job_set_ok (jobs : PreparedJobSet) : Prop :=
  Z.of_nat (size jobs) <= MAX_PREPARED_JOBS /\
  forall id job, jobs !! id = Some job -> job_id_of job = id.

Lemma job_set_ok_subseteq (jobs jobs' : PreparedJobSet) :
  jobs' ⊆ jobs -> job_set_ok jobs -> job_set_ok jobs'.
Proof.
  intros S (C & K). split.
  - etransitivity; [|exact C]. apply inj_le. by apply map_subseteq_size.
  - intros id job L. apply K. by eapply lookup_weaken.
Qed.

Lemma job_set_step_ok jobs op : job_set_ok jobs -> job_set_ok (job_set_step jobs op).
Proof.
  intros O. destruct op as [job|id snapshot|g|]; cbn [job_set_step].
  - unfold job_set_insert. destruct (jobs !! job_id_of job) eqn:L.
    { by case_bool_decide. }
    destruct (Z.leb_spec MAX_PREPARED_JOBS (Z.of_nat (size jobs))); [done|]. cbn [snd].
    destruct O as (C & K). split.
    + rewrite map_size_insert_None by done. lia.
    + intros id j [(<- & <-)|(N & E)]%lookup_insert_Some; [done|by apply K].
  - unfold job_set_activate. destruct (jobs !! id); [|done].
    destruct (validate_for_snapshot _ _); [|done]. cbn [snd].
    eapply job_set_ok_subseteq; [apply map_filter_subseteq|done].
  - eapply job_set_ok_subseteq; [apply map_filter_subseteq|done].
  - unfold job_set_clear. split; [by vm_compute|]. intros id job. by rewrite lookup_empty.
Qed.

(** The job set over any history of insertions, activations, retentions and
    clears: it never holds more than its capacity and files every job under the
    job's own identifier. A refused insertion or activation changes nothing; an
    accepted insertion makes exactly that job retrievable, again and again; an
    activation keeps the activated job and drops precisely the jobs of other
    generations or networks. *)
Theorem job_set_history ops job id snapshot :
  let jobs := foldl job_set_step (∅ : PreparedJobSet) ops in
  job_set_ok jobs /\
  (match job_set_insert jobs job with
   | (Ok j, jobs') => j = job /\ jobs' = <[job_id_of job := job]> jobs /\
       job_set_insert jobs' job = (Ok job, jobs')
   | (Err _, jobs') => jobs' = jobs
   end) /\
  (match job_set_activate jobs id snapshot with
   | (Ok j, jobs') => jobs !! id = Some j /\ jobs' !! id = Some j /\
       forall k x, jobs' !! k = Some x <->
         jobs !! k = Some x /\ job_generation x = ms_generation snapshot /\
         job_network x = ms_network snapshot
   | (Err _, jobs') => jobs' = jobs
   end).
Proof.
  cbn zeta. set (jobs := foldl job_set_step ∅ ops).
  assert (job_set_ok jobs) as O.
  { unfold jobs. assert (job_set_ok ∅) as O0
      by (split; [by vm_compute|]; intros k x; by rewrite lookup_empty).
    revert O0. generalize (∅ : PreparedJobSet). induction ops as [|op ops IH]; intros s Hs; [done|].
    cbn [foldl]. by apply IH, job_set_step_ok. }
  split; [done|]. split.
  - unfold job_set_insert at 1. destruct (jobs !! job_id_of job) as [e|] eqn:L.
    + case_bool_decide as E; [subst e|done]. rewrite insert_id by done.
      unfold job_set_insert. by rewrite L, bool_decide_eqb_refl.
    + destruct (_ <=? _); [done|]. split; [done|]. split; [done|].
      unfold job_set_insert. by rewrite lookup_insert_eq, bool_decide_eqb_refl.
  - unfold job_set_activate. destruct (jobs !! id) as [j|] eqn:L; [|done].
    destruct (validate_for_snapshot j snapshot) as [[]|] eqn:V; [|done].
    apply validate_for_snapshot_inv in V as (V1 & V2 & _). split; [done|]. split.
    + by apply map_lookup_filter_Some.
    + intros k x. by rewrite map_lookup_filter_Some.
Qed.

End job_set.

(** ** A sample job *)
Definition sample_snapshot : MiningSnapshot :=
  mkSnapshot Regtest 1 (zeros 32) 4 10 1 (zeros 32) 0x207fffff.
Definition sample_template : MiningHeaderTemplate :=
  mkTemplate (zeros 32) (zeros 32) (zeros 32)
    (bm_witness_root (@metrics_of toy_crypto [sample_coinbase]))
    (bm_merkle_root (@metrics_of toy_crypto [sample_coinbase])) 0 0x207fffff 2
    (@mask_hash toy_crypto (zeros 32) (zeros 32)).
Definition sample_job : PreparedMiningJob :=
  match @PreparedMiningJob_new toy_crypto sample_snapshot sample_template [sample_coinbase] with
  | Ok job => job
  | Err _ => mkJob [] 0 Mainnet sample_template None []
  end.

Lemma reconstruct_prepared_witness :
  @PreparedMiningJob_prepare toy_crypto sample_snapshot (zeros 32) 0 2 (zeros 32) [sample_coinbase] =
    Ok sample_job /\
  @reconstruct toy_crypto sample_job 9 3 (zeros 24) (zeros 32) =
    Ok (mkBlock (template_header (job_header sample_job) 9 3 (zeros 24) (zeros 32)) [sample_coinbase]).
Proof.
  assert (@PreparedMiningJob_prepare toy_crypto sample_snapshot (zeros 32) 0 2 (zeros 32)
    [sample_coinbase] = Ok sample_job) as P by (vm_compute; reflexivity).
  split; [exact P|].
  apply (@reconstruct_prepared toy_crypto _ _ _ _ _ _ _ 9 3 (zeros 24) _ P).
  split; [lia|]. split; reflexivity.
Defined.

