(* ===== verification/CompactBlock.v ===== *)
(** * hns-p2p-wire: compact blocks

    Models the compact-block half of [crates/hns-p2p-wire/src/lib.rs]: SipHash
    short identifiers, the differential index encoding, compact blocks with their
    layout checks, and the reconstruction of a block from a compact block, a
    memory pool and a peer's answer for what is missing. The messages formatted
    into [Malformed] are kept as the values they print. *)

From stdpp Require Import gmap sorting.
From S2P Require Import Prelude Encoding Primitives Covenants Transaction U256 Header Block.
Local Open Scope Z_scope.

Definition MAX_COMPACT_BLOCK_TRANSACTIONS : Z := 16662.

(** The reasons of [CompactBlockError::Malformed]. *)
Inductive LayoutError :=
| EmptyVectors
| TransactionCountExceeds (total : Z)
| ShortIdExceeds48Bits
| PrefilledIndexExceeds (index total : Z)
| DifferentialIndexOverflow
| FirstDifferentialExceedsU16
| IndexCountExceeds (count : Z)
| IndexExceedsU16 (index : Z)
| IndexesNotIncreasing
| ShortIdIndexOverflow
| ShortIdLayoutExceeds
| IndexOutOfBounds (index : Z)
| IndexFilledTwice (index : Z)
| SlotsShareTransaction
| RequestedIndexOutOfBounds (index : Z).

Inductive CompactBlockError :=
| Malformed (reason : LayoutError)
| ShortIdCollision (short_id : Z)
| ResponseHashMismatch
| ResponseCountMismatch (expected actual : Z)
| Incomplete
| CbInvalidTransaction
| CbInvalidBlockBody.

Record PrefilledTransaction := mkPrefilled { pre_index : Z; pre_transaction : Transaction }.

Record CompactBlock := mkCompact {
  cb_header : Header;
  cb_key_nonce : list byte;
  cb_short_ids : list Z;
  cb_prefilled : list PrefilledTransaction;
}.

Record CompactBlockRequest := mkRequest { req_block_hash : list byte; req_indexes : list Z }.
Record CompactBlockResponse := mkResponse {
  resp_block_hash : list byte;
  resp_transactions : list Transaction;
}.

Record CompactBlockReconstruction := mkReconstruction {
  rec_header : Header;
  rec_available : list (option Z);
  rec_transactions : list (option Transaction);
  rec_short_id_indexes : gmap Z Z;
  rec_filled : Z;
}.

(** ** SipHash *)
Definition rotate_left64 (x n : Z) : Z := Z.lor (wrap 64 (Z.shiftl x n)) (Z.shiftr x (64 - n)).
Definition wrapping_add64 (a b : Z) : Z := wrap 64 (a + b).

Definition siphash_state : Type := Z * Z * Z * Z.

Definition siphash_round (state : siphash_state) : siphash_state :=
  let '(s0, s1, s2, s3) := state in
  let s0 := wrapping_add64 s0 s1 in
  let s1 := rotate_left64 s1 13 in
  let s1 := Z.lxor s1 s0 in
  let s0 := rotate_left64 s0 32 in
  let s2 := wrapping_add64 s2 s3 in
  let s3 := rotate_left64 s3 16 in
  let s3 := Z.lxor s3 s2 in
  let s0 := wrapping_add64 s0 s3 in
  let s3 := rotate_left64 s3 21 in
  let s3 := Z.lxor s3 s0 in
  let s2 := wrapping_add64 s2 s1 in
  let s1 := rotate_left64 s1 17 in
  let s1 := Z.lxor s1 s2 in
  let s2 := rotate_left64 s2 32 in
  (s0, s1, s2, s3).

Definition siphash_absorb (state : siphash_state) (message : Z) : siphash_state :=
  let '(s0, s1, s2, s3) := state in
  let '(s0, s1, s2, s3) := siphash_round (siphash_round (s0, s1, s2, Z.lxor s3 message)) in
  (Z.lxor s0 message, s1, s2, s3).

(** [input.chunks_exact(8)]: the chunks as integers and the remainder. *)
Fixpoint siphash_chunks (n : nat) (input : list byte) : list Z :=
  match n with
  | O => []
  | S n => from_le_bytes (take 8 input) :: siphash_chunks n (drop 8 input)
  end.

Definition siphash_tail (input remainder : list byte) : Z :=
  foldl (fun tail '(offset, byte) => Z.lor tail (Z.shiftl (b2z byte) (8 * Z.of_nat offset)))
    (wrap 64 (Z.shiftl (len input) 56)) (imap (fun i b => (i, b)) remainder).

Definition siphash24 (input key : list byte) : Z :=
  let key0 := from_le_bytes (take 8 key) in
  let key1 := from_le_bytes (drop 8 key) in
  let state := (Z.lxor key0 0x736f6d6570736575, Z.lxor key1 0x646f72616e646f6d,
                Z.lxor key0 0x6c7967656e657261, Z.lxor key1 0x7465646279746573) in
  let full := (length input / 8)%nat in
  let state := foldl siphash_absorb state (siphash_chunks full input) in
  let '(s0, s1, s2, s3) := siphash_absorb state (siphash_tail input (drop (full * 8) input)) in
  let state := (s0, s1, Z.lxor s2 0xff, s3) in
  let '(s0, s1, s2, s3) :=
    siphash_round (siphash_round (siphash_round (siphash_round state))) in
  Z.lxor (Z.lxor (Z.lxor s0 s1) s2) s3.

(** The published SipHash-2-4 vectors for an empty and a 15-byte message. *)
Example siphash_empty :
  siphash24 [] (octets [0;1;2;3;4;5;6;7;8;9;10;11;12;13;14;15]) = 0x726fdb47dd0e0e31.
Proof. vm_compute. reflexivity. Qed.
Example siphash_fifteen :
  siphash24 (octets [0;1;2;3;4;5;6;7;8;9;10;11;12;13;14])
    (octets [0;1;2;3;4;5;6;7;8;9;10;11;12;13;14;15]) = 0xa129ca6149be45e5.
Proof. vm_compute. reflexivity. Qed.

(** ** Indexes *)
Definition absolute_prefilled_index (previous : option Z) (differential : Z)
  : result CompactBlockError Z :=
  match previous with
  | Some previous =>
    ok_or
      (index ← checked_add usize_max previous differential;
       index ← checked_add usize_max index 1;
       if index <=? u16_max then Some index else None) (Malformed DifferentialIndexOverflow)
  | None =>
    if differential <=? u16_max then Ok differential else Err (Malformed FirstDifferentialExceedsU16)
  end.

Definition check_absolute_index (previous : option Z) (index : Z)
  : result CompactBlockError (option Z) :=
  assert_or (index <=? u16_max) (Malformed (IndexExceedsU16 index)) ;;
  assert_or (negb (match previous with Some previous => index <=? previous | None => false end))
    (Malformed IndexesNotIncreasing) ;;
  Ok (Some index).

Definition validate_absolute_indexes (indexes : list Z) : result CompactBlockError unit :=
  assert_or (len indexes <=? MAX_COMPACT_BLOCK_TRANSACTIONS)
    (Malformed (IndexCountExceeds (len indexes))) ;;
  _ ← try_fold check_absolute_index None indexes; Ok tt.

(** ** Compact blocks *)
Definition total_transactions (c : CompactBlock) : Z :=
  saturating_add usize_max (len (cb_short_ids c)) (len (cb_prefilled c)).

Definition check_prefilled_index (total : Z) (previous : option Z) (p : PrefilledTransaction)
  : result CompactBlockError (option Z) :=
  index ← absolute_prefilled_index previous (pre_index p);
  assert_or (negb (total <=? index)) (Malformed (PrefilledIndexExceeds index total)) ;;
  Ok (Some index).

Definition validate_layout (c : CompactBlock) : result CompactBlockError Z :=
  let total := total_transactions c in
  assert_or (negb (total =? 0)) (Malformed EmptyVectors) ;;
  assert_or (total <=? MAX_COMPACT_BLOCK_TRANSACTIONS) (Malformed (TransactionCountExceeds total)) ;;
  assert_or (negb (existsb (fun short_id => 0x0000ffffffffffff <? short_id) (cb_short_ids c)))
    (Malformed ShortIdExceeds48Bits) ;;
  _ ← try_fold (check_prefilled_index total) None (cb_prefilled c);
  Ok total.

Definition short_id_with_key (witness_hash key : list byte) : Z :=
  Z.land (siphash24 witness_hash key) 0x0000ffffffffffff.

Definition is_complete (r : CompactBlockReconstruction) : bool :=
  rec_filled r =? len (rec_available r).

Definition rec_insert (r : CompactBlockReconstruction) (index : Z) (transaction : Transaction)
  : result CompactBlockError CompactBlockReconstruction :=
  match get (rec_available r) index with
  | None => Err (Malformed (IndexOutOfBounds index))
  | Some (Some _) => Err (Malformed (IndexFilledTwice index))
  | Some None =>
    let resolved := len (rec_transactions r) in
    Ok (mkReconstruction (rec_header r) (<[Z.to_nat index := Some resolved]> (rec_available r))
          (rec_transactions r ++ [Some transaction]) (rec_short_id_indexes r)
          (saturating_add usize_max (rec_filled r) 1))
  end.

(** [iter().enumerate().filter_map(..)] over the empty slots, from position [i]. *)
Fixpoint missing_from (i : Z) (available : list (option Z)) : list Z :=
  match available with
  | [] => []
  | None :: available => i :: missing_from (i + 1) available
  | Some _ :: available => missing_from (i + 1) available
  end.

(** The loop over the prefilled transactions of [reconstruct]. *)
Definition place_prefilled (st : option Z * CompactBlockReconstruction) (p : PrefilledTransaction)
  : result CompactBlockError (option Z * CompactBlockReconstruction) :=
  let '(previous, r) := st in
  index ← absolute_prefilled_index previous (pre_index p);
  r ← rec_insert r index (pre_transaction p);
  Ok (Some index, r).

(** [while available.get(relative + offset).is_some_and(Option::is_some)]; the
    slots are enough fuel. *)
Fixpoint skip_filled (fuel : nat) (available : list (option Z)) (relative offset : Z) : Z :=
  match fuel with
  | O => offset
  | S fuel =>
    match get available (saturating_add usize_max relative offset) with
    | Some (Some _) => skip_filled fuel available relative (saturating_add usize_max offset 1)
    | _ => offset
    end
  end.

(** One short identifier: its slot is the next one not prefilled. The state is
    the position in the list, the offset and the index map. *)
Definition place_short_id (total : Z) (available : list (option Z)) (st : Z * Z * gmap Z Z)
    (short_id : Z) : result CompactBlockError (Z * Z * gmap Z Z) :=
  let '(relative, offset, indexes) := st in
  let offset := skip_filled (S (length available)) available relative offset in
  index ← ok_or (checked_add usize_max relative offset) (Malformed ShortIdIndexOverflow);
  assert_or (negb (total <=? index)) (Malformed ShortIdLayoutExceeds) ;;
  match indexes !! short_id with
  | Some _ => Err (ShortIdCollision short_id)
  | None => Ok (relative + 1, offset, <[short_id := index]> indexes)
  end.

Section compact.
Context {CR : Crypto}.

Definition siphash_key (header : Header) (key_nonce : list byte) : list byte :=
  take 16 (blake2b_256_many [Header_encode header; key_nonce]).

Definition CompactBlock_hash (c : CompactBlock) : list byte := block_hash (cb_header c).

Definition CompactBlock_short_id (c : CompactBlock) (witness_hash : list byte) : Z :=
  short_id_with_key witness_hash (siphash_key (cb_header c) (cb_key_nonce c)).

Definition CompactBlock_from_block_with_nonce (block : Block) (key_nonce : list byte)
  : result CompactBlockError CompactBlock :=
  _ ← map_err (fun _ => CbInvalidBlockBody) (validate_block_body block);
  let key := siphash_key (blk_header block) key_nonce in
  short_ids ← try_map (fun tx =>
      map_err (fun _ => CbInvalidTransaction)
        (hash ← Transaction_witness_hash tx; Ok (short_id_with_key hash key)))
    (drop 1 (blk_transactions block));
  let prefilled :=
    match blk_transactions block with coinbase :: _ => [mkPrefilled 0 coinbase] | [] => [] end in
  let compact := mkCompact (blk_header block) key_nonce short_ids prefilled in
  _ ← validate_layout compact;
  Ok compact.

(** The mempool loop; [matched] holds the slots some transaction matched. A
    second match empties the slot again. *)
Fixpoint fill_mempool_loop (key : list byte) (r : CompactBlockReconstruction) (matched : gset Z)
    (mempool : list Transaction) : result CompactBlockError CompactBlockReconstruction :=
  match mempool with
  | [] => Ok r
  | tx :: mempool =>
    witness_hash ← map_err (fun _ => CbInvalidTransaction) (Transaction_witness_hash tx);
    match rec_short_id_indexes r !! short_id_with_key witness_hash key with
    | None => fill_mempool_loop key r matched mempool
    | Some index =>
      if bool_decide (index ∈ matched) then
        let r :=
          match get (rec_available r) index with
          | Some (Some _) =>
            mkReconstruction (rec_header r) (<[Z.to_nat index := None]> (rec_available r))
              (rec_transactions r) (rec_short_id_indexes r) (saturating_sub (rec_filled r) 1)
          | _ => r
          end in
        fill_mempool_loop key r matched mempool
      else
        let matched := {[index]} ∪ matched in
        r ← match get (rec_available r) index with
            | Some (Some _) => Ok r
            | _ => rec_insert r index tx
            end;
        if is_complete r then Ok r else fill_mempool_loop key r matched mempool
    end
  end.

Definition fill_mempool (r : CompactBlockReconstruction) (c : CompactBlock)
    (mempool : list Transaction) : result CompactBlockError CompactBlockReconstruction :=
  if is_complete r then Ok r
  else fill_mempool_loop (siphash_key (cb_header c) (cb_key_nonce c)) r ∅ mempool.

Definition CompactBlock_reconstruct (c : CompactBlock) (mempool : list Transaction)
  : result CompactBlockError CompactBlockReconstruction :=
  total ← validate_layout c;
  let r := mkReconstruction (cb_header c) (replicate (Z.to_nat total) None) [] ∅ 0 in
  '(_, r) ← try_fold place_prefilled (None, r) (cb_prefilled c);
  '(_, _, indexes) ← try_fold (place_short_id total (rec_available r)) (0, 0, ∅) (cb_short_ids c);
  fill_mempool
    (mkReconstruction (rec_header r) (rec_available r) (rec_transactions r) indexes (rec_filled r))
    c mempool.

Definition missing_request (r : CompactBlockReconstruction) : CompactBlockRequest :=
  mkRequest (block_hash (rec_header r)) (missing_from 0 (rec_available r)).

(** [for (index, transaction) in indexes.zip(..) { self.insert(..)?; }] with the
    state reached when an insertion fails. *)
Fixpoint fill_slots (r : CompactBlockReconstruction) (slots : list (Z * Transaction))
  : result CompactBlockError unit * CompactBlockReconstruction :=
  match slots with
  | [] => (Ok tt, r)
  | (index, tx) :: slots =>
    match rec_insert r index tx with
    | Ok r => fill_slots r slots
    | Err e => (Err e, r)
    end
  end.

Definition fill_missing (r : CompactBlockReconstruction) (response : CompactBlockResponse)
  : result CompactBlockError unit * CompactBlockReconstruction :=
  if negb (bool_decide (resp_block_hash response = block_hash (rec_header r)))
  then (Err ResponseHashMismatch, r)
  else
    let missing := len (base.filter (fun item => item = None) (rec_available r)) in
    if negb (len (resp_transactions response) =? missing)
    then (Err (ResponseCountMismatch missing (len (resp_transactions response))), r)
    else fill_slots r (zip (missing_from 0 (rec_available r)) (resp_transactions response)).

(** [resolved.get_mut(index).and_then(Option::take)] for every slot in turn. *)
Fixpoint take_slots (resolved : list (option Transaction)) (available : list (option Z))
  : result CompactBlockError (list Transaction) :=
  match available with
  | [] => Ok []
  | item :: available =>
    index ← ok_or item Incomplete;
    match get resolved index with
    | Some (Some tx) =>
      rest ← take_slots (<[Z.to_nat index := None]> resolved) available;
      Ok (tx :: rest)
    | _ => Err (Malformed SlotsShareTransaction)
    end
  end.

Definition into_block (r : CompactBlockReconstruction) : result CompactBlockError Block :=
  assert_or (is_complete r) Incomplete ;;
  transactions ← take_slots (rec_transactions r) (rec_available r);
  let block := mkBlock (rec_header r) transactions in
  _ ← map_err (fun _ => CbInvalidBlockBody) (validate_block_body block);
  Ok block.

(** ** Requests and responses *)
Definition CompactBlockRequest_from_block (block : Block) (indexes : list Z) : CompactBlockRequest :=
  mkRequest (block_hash (blk_header block)) indexes.

Definition CompactBlockResponse_from_block (block : Block) (request : CompactBlockRequest)
  : result CompactBlockError CompactBlockResponse :=
  validate_absolute_indexes (req_indexes request) ;;
  assert_or (bool_decide (req_block_hash request = block_hash (blk_header block)))
    ResponseHashMismatch ;;
  transactions ← try_map (fun index =>
      ok_or (get (blk_transactions block) index) (Malformed (RequestedIndexOutOfBounds index)))
    (req_indexes request);
  Ok (mkResponse (req_block_hash request) transactions).

End compact.

(** ** Slots

    A reconstruction is seen as the list of transactions its slots resolve to. *)
Fixpoint n_some {A} (l : list (option A)) : Z :=
  match l with
  | [] => 0
  | Some _ :: l => 1 + n_some l
  | None :: l => n_some l
  end.

Lemma n_some_range {A} (l : list (option A)) : 0 <= n_some l <= len l.
Proof. induction l as [|[x|] l IH]; cbn [n_some]; rewrite ?len_cons; [by cbn|lia..]. Qed.

Lemma n_some_fill {A} (l : list (option A)) (i : nat) x :
  l !! i = Some None -> n_some (<[i := Some x]> l) = n_some l + 1.
Proof.
  revert i. induction l as [|[y|] l IH]; intros [|i] E; try discriminate E; simpl in E |- *.
  - rewrite (IH i) by done. lia.
  - lia.
  - rewrite (IH i) by done. lia.
Qed.

Lemma n_some_clear {A} (l : list (option A)) (i : nat) x :
  l !! i = Some (Some x) -> n_some (<[i := None]> l) = n_some l - 1.
Proof.
  revert i. induction l as [|[y|] l IH]; intros [|i] E; try discriminate E; simpl in E |- *.
  - lia.
  - rewrite (IH i) by done. lia.
  - rewrite (IH i) by done. lia.
Qed.

Lemma n_some_full {A} (l : list (option A)) :
  n_some l = len l <-> forall i, l !! i <> Some None.
Proof.
  induction l as [|[y|] l IH]; cbn [n_some]; rewrite ?len_cons.
  - by split; [intros _ [|i]|].
  - split.
    + intros E [|i]; [done|]. cbn. apply IH. lia.
    + intros H. rewrite (proj2 IH); [done|]. intros i. apply (H (S i)).
  - pose proof (n_some_range l). split; [lia|]. intros F. by destruct (F 0%nat).
Qed.

Lemma n_some_none {A} (l : list (option A)) :
  len (base.filter (fun item => item = None) l) = len l - n_some l.
Proof.
  induction l as [|[y|] l IH]; cbn [n_some]; rewrite ?filter_cons, ?len_cons; [done|..].
  - rewrite decide_False by done. lia.
  - rewrite decide_True, len_cons by done. lia.
Qed.

Lemma missing_from_spec i l x :
  x ∈ missing_from i l <-> exists k : nat, x = i + Z.of_nat k /\ l !! k = Some None.
Proof.
  revert i. induction l as [|o l IH]; intros i; cbn [missing_from].
  { split; [by intros ?%not_elem_of_nil|]. by intros (k & _ & E). }
  assert (x ∈ missing_from (i + 1) l <->
    exists k : nat, x = i + Z.of_nat (S k) /\ (o :: l) !! S k = Some None) as IH'.
  { rewrite IH. split; intros (k & -> & E); exists k; (split; [lia|done]). }
  destruct o as [y|].
  - rewrite IH'. split; [by intros (k & ? & ?); exists (S k)|].
    intros ([|k] & -> & E); [done|]. by exists k.
  - rewrite elem_of_cons, IH'. split.
    + intros [->|(k & ? & ?)]; [by exists 0%nat; split; [lia|]|by exists (S k)].
    + intros ([|k] & -> & E); [left; lia|right; by exists k].
Qed.

Lemma missing_from_sorted i l : StronglySorted Z.lt (missing_from i l).
Proof.
  revert i. induction l as [|[y|] l IH]; intros i; cbn [missing_from]; [constructor|done|].
  constructor; [done|]. apply Forall_forall. intros x (k & -> & _)%missing_from_spec. lia.
Qed.

Lemma len_missing_from i l : len (missing_from i l) = len l - n_some l.
Proof.
  revert i. induction l as [|[y|] l IH]; intros i; cbn [missing_from n_some]; rewrite ?len_cons, ?IH; [done|lia..].
Qed.

Definition resolve (transactions : list (option Transaction)) (slot : option Z) : option Transaction :=
  j ← slot; mjoin (get transactions j).
Definition rec_view (r : CompactBlockReconstruction) : list (option Transaction) :=
  resolve (rec_transactions r) <$> rec_available r.

(** Every filled slot points to a transaction of its own, and [filled] counts
    them. *)
Record rec_ok (r : CompactBlockReconstruction) : Prop := {
  ok_filled : rec_filled r = n_some (rec_available r);
  ok_bound : len (rec_available r) <= MAX_COMPACT_BLOCK_TRANSACTIONS;
  ok_slots : forall (i : nat) j, rec_available r !! i = Some (Some j) ->
    0 <= j < len (rec_transactions r) /\
    exists tx, rec_transactions r !! Z.to_nat j = Some (Some tx);
  ok_distinct : forall (i i' : nat) j, rec_available r !! i = Some (Some j) ->
    rec_available r !! i' = Some (Some j) -> i = i';
}.

Lemma rec_ok_range r : rec_ok r -> 0 <= rec_filled r <= len (rec_available r).
Proof. intros O. rewrite (ok_filled _ O). apply n_some_range. Qed.

Lemma rec_complete_spec r :
  rec_ok r -> is_complete r = true <-> forall i, rec_available r !! i <> Some None.
Proof. intros O. unfold is_complete. by rewrite Z.eqb_eq, (ok_filled _ O), n_some_full. Qed.

Lemma length_insert_len {A} (l : list A) (i : nat) x : len (<[i := x]> l) = len l.
Proof. unfold len. by rewrite length_insert. Qed.

Lemma resolve_snoc txs tx slot :
  (forall j, slot = Some j -> 0 <= j < len txs) -> resolve (txs ++ [tx]) slot = resolve txs slot.
Proof.
  intros B. destruct slot as [j|]; [|done]. cbn. unfold get.
  specialize (B j eq_refl). rewrite lookup_app_l; [done|]. unfold len in B. lia.
Qed.

(** Filling an empty slot. *)
Lemma rec_insert_ok r (i : nat) tx :
  rec_ok r -> rec_available r !! i = Some None ->
  exists r', rec_insert r (Z.of_nat i) tx = Ok r' /\ rec_ok r' /\
    rec_view r' = <[i := Some tx]> (rec_view r) /\ rec_header r' = rec_header r /\
    rec_short_id_indexes r' = rec_short_id_indexes r /\
    rec_available r' = <[i := Some (len (rec_transactions r))]> (rec_available r) /\
    rec_filled r' = rec_filled r + 1.
Proof.
  intros O E. unfold rec_insert, get. rewrite Nat2Z.id, E. eexists. split; [reflexivity|].
  pose proof (len_nonneg (rec_transactions r)) as Lt.
  assert (i < length (rec_available r))%nat as Li by (by apply lookup_lt_Some in E).
  assert (rec_filled r + 1 = n_some (<[i := Some (len (rec_transactions r))]> (rec_available r))) as Ef
    by (rewrite n_some_fill, (ok_filled _ O) by done; done).
  pose proof (ok_bound _ O) as B.
  pose proof (n_some_range (<[i := Some (len (rec_transactions r))]> (rec_available r))) as R.
  rewrite length_insert_len in R.
  assert (saturating_add usize_max (rec_filled r) 1 = rec_filled r + 1) as Es
    by (unfold saturating_add, MAX_COMPACT_BLOCK_TRANSACTIONS in *; ulia).
  split; [split|split]; cbn [rec_available rec_transactions rec_filled rec_header rec_short_id_indexes].
  - by rewrite Es.
  - by rewrite length_insert_len.
  - intros k j H. rewrite len_app. change (len [Some tx]) with 1.
    apply list_lookup_insert_Some in H as [(<- & [= <-] & _)|(N & H)].
    + split; [lia|]. exists tx. unfold len. rewrite Nat2Z.id. by apply list_lookup_middle.
    + apply (ok_slots _ O) in H as (R1 & tx' & H). split; [lia|]. exists tx'.
      by apply lookup_app_l_Some.
  - intros k k' j H H'.
    apply list_lookup_insert_Some in H as [(<- & [= <-] & _)|(N & H)];
      apply list_lookup_insert_Some in H' as [(<- & Hj & _)|(N' & H')]; try done.
    + apply (ok_slots _ O) in H' as (? & _). lia.
    + injection Hj as <-. apply (ok_slots _ O) in H as (? & _). lia.
    + by eapply (ok_distinct _ O).
  - unfold rec_view. cbn [rec_available rec_transactions]. rewrite list_fmap_insert. f_equal.
    + cbn. unfold get, len. rewrite Nat2Z.id, list_lookup_middle by done. done.
    + apply list_fmap_ext. intros k slot H. apply resolve_snoc. intros j ->.
      by apply (ok_slots _ O) in H as (? & _).
  - by rewrite Es.
Qed.

(** Emptying a filled slot. *)
Lemma rec_clear_ok r (i : nat) j :
  rec_ok r -> rec_available r !! i = Some (Some j) ->
  let r' := mkReconstruction (rec_header r) (<[i := None]> (rec_available r)) (rec_transactions r)
    (rec_short_id_indexes r) (saturating_sub (rec_filled r) 1) in
  rec_ok r' /\ rec_view r' = <[i := None]> (rec_view r).
Proof.
  intros O E. cbn zeta. split; [|unfold rec_view; cbn; by rewrite list_fmap_insert].
  split; cbn [rec_available rec_transactions rec_filled].
  - rewrite (n_some_clear _ _ j), (ok_filled _ O) by done. pose proof (n_some_range (rec_available r)).
    pose proof (n_some_clear _ _ _ E). pose proof (n_some_range (<[i:=None]> (rec_available r))).
    unfold saturating_sub. lia.
  - rewrite length_insert_len. apply O.
  - intros k j' H. apply list_lookup_insert_Some in H as [(_ & ? & _)|(_ & H)]; [done|].
    by apply (ok_slots _ O) in H.
  - intros k k' j' H H'. apply list_lookup_insert_Some in H as [(_ & ? & _)|(_ & H)]; [done|].
    apply list_lookup_insert_Some in H' as [(_ & ? & _)|(_ & H')]; [done|]. by eapply (ok_distinct _ O).
Qed.

Lemma take_slots_ok resolved available :
  (forall (i : nat) j, available !! i = Some j -> exists k, j = Some k /\ 0 <= k /\
     exists tx, resolved !! Z.to_nat k = Some (Some tx)) ->
  NoDup available ->
  exists txs, take_slots resolved available = Ok txs /\ Some <$> txs = resolve resolved <$> available.
Proof.
  revert resolved. induction available as [|slot available IH]; intros resolved S N.
  { by exists []. }
  apply NoDup_cons in N as (Nx & N). destruct (S 0%nat slot eq_refl) as (k & -> & Hk & tx & E).
  cbn [take_slots ok_or mbind result_bind]. unfold get. rewrite E.
  destruct (IH (<[Z.to_nat k := None]> resolved)) as (txs & -> & V); [|done|].
  - intros i j H. destruct (S (Datatypes.S i) j H) as (k' & -> & Hk' & tx' & E'). exists k'.
    split; [done|]. split; [done|]. exists tx'. rewrite list_lookup_insert_ne; [done|].
    intros Ek. apply Nx. assert (k = k') as -> by lia. by eapply list_elem_of_lookup_2.
  - exists (tx :: txs). split; [done|]. rewrite !fmap_cons', V. f_equal.
    { cbn. unfold get. by rewrite E. }
    apply list_fmap_ext. intros i slot H. destruct (S (Datatypes.S i) slot H) as (k' & -> & Hk' & _).
    cbn. unfold get. rewrite list_lookup_insert_ne; [done|]. intros Ek. apply Nx.
    assert (k = k') as -> by lia. by eapply list_elem_of_lookup_2.
Qed.

(** *** The state a reconstruction can be in *)
Definition indexes_ok (r : CompactBlockReconstruction) : Prop :=
  forall id index, rec_short_id_indexes r !! id = Some index -> 0 <= index < len (rec_available r).

Definition rec_inv (h : Header) (r : CompactBlockReconstruction) : Prop :=
  rec_ok r /\ indexes_ok r /\ rec_header r = h.

Lemma rec_insert_inv h r index tx r' :
  rec_inv h r -> rec_insert r index tx = Ok r' -> rec_inv h r' /\
    rec_available r !! Z.to_nat index = Some None.
Proof.
  intros (O & I & Eh) E. unfold rec_insert in E.
  destruct (get (rec_available r) index) as [[j|]|] eqn:G; try discriminate E.
  split; [|exact G]. unfold get in G.
  destruct (rec_insert_ok r (Z.to_nat index) tx O G) as (r1 & E1 & O1 & _ & H1 & H2 & H3 & _).
  assert (r1 = r') as ->.
  { unfold rec_insert, get in E1. rewrite Nat2Z.id, G in E1. congruence. }
  split; [done|]. split; [|by rewrite H1]. intros id k L. rewrite H2 in L. apply I in L.
  by rewrite H3, length_insert_len.
Qed.

Lemma rec_clear_inv h r (i : nat) j :
  rec_inv h r -> rec_available r !! i = Some (Some j) ->
  rec_inv h (mkReconstruction (rec_header r) (<[i := None]> (rec_available r)) (rec_transactions r)
    (rec_short_id_indexes r) (saturating_sub (rec_filled r) 1)).
Proof.
  intros (O & I & Eh) E. split; [by eapply (rec_clear_ok r i j)|]. split; [|done].
  intros id k L. cbn in *. rewrite length_insert_len. by eapply I.
Qed.

Lemma place_prefilled_inv h ps previous r st :
  rec_inv h r -> try_fold place_prefilled (previous, r) ps = Ok st -> rec_inv h st.2.
Proof.
  revert previous r. induction ps as [|p ps IH]; intros previous r I E; cbn [try_fold] in E.
  { by injection E as <-. }
  apply bind_Ok in E as ([previous' r'] & E1 & E). apply bind_Ok in E1 as (index & _ & E1).
  apply bind_Ok in E1 as (r1 & E1 & [= <- <-]). apply IH in E; [done|]. by eapply rec_insert_inv.
Qed.

Lemma skip_filled_range fuel available relative offset :
  0 <= relative -> 0 <= offset -> 0 <= skip_filled fuel available relative offset.
Proof.
  intros Hr. revert offset. induction fuel as [|fuel IH]; intros offset Ho; [done|]. cbn [skip_filled].
  destruct (get _ _) as [[|]|]; [|done..]. apply IH. unfold saturating_add. ulia.
Qed.

Lemma place_short_ids_inv total available ids relative offset indexes st :
  0 <= relative -> 0 <= offset ->
  (forall id index, indexes !! id = Some index -> 0 <= index < total) ->
  try_fold (place_short_id total available) (relative, offset, indexes) ids = Ok st ->
  forall id index, st.2 !! id = Some index -> 0 <= index < total.
Proof.
  revert relative offset indexes.
  induction ids as [|s ids IH]; intros relative offset indexes Hr Ho I E; cbn [try_fold] in E.
  { by injection E as <-. }
  apply bind_Ok in E as ([[relative' offset'] indexes'] & E1 & E). unfold place_short_id in E1.
  pose proof (skip_filled_range (S (length available)) available relative offset Hr Ho).
  set (o := skip_filled _ _ _ _) in *.
  apply bind_Ok in E1 as (index & Ei & E1). apply ok_or_Ok, checked_add_Some in Ei as (-> & _).
  apply bind_Ok in E1 as (u & Et & E1). apply assert_or_Ok, negb_true_iff, Z.leb_gt in Et.
  destruct (indexes !! s); [done|]. injection E1 as <- <- <-. eapply IH; [| | |exact E]; [lia|lia|].
  intros id index L. apply lookup_insert_Some in L as [(<- & <-)|(_ & L)]; [lia|by eapply I].
Qed.

Section reconstruction.
Context {CR : Crypto}.

Lemma fill_mempool_loop_inv h key r matched mempool r' :
  rec_inv h r -> fill_mempool_loop key r matched mempool = Ok r' -> rec_inv h r'.
Proof.
  revert r matched. induction mempool as [|tx mempool IH]; intros r matched I E;
    cbn [fill_mempool_loop] in E; [by injection E as <-|].
  apply bind_Ok in E as (wh & _ & E).
  destruct (rec_short_id_indexes r !! _) as [index|]; [|by eapply IH].
  case_bool_decide.
  - eapply IH; [|exact E]. destruct (get (rec_available r) index) as [[j|]|] eqn:G; [|done..].
    by eapply rec_clear_inv.
  - apply bind_Ok in E as (r1 & E1 & E).
    assert (rec_inv h r1) as I1.
    { destruct (get (rec_available r) index) as [[j|]|]; [by injection E1 as <-|..];
        by eapply rec_insert_inv. }
    destruct (is_complete r1); [by injection E as <-|by eapply IH].
Qed.

Lemma validate_layout_total c total :
  validate_layout c = Ok total ->
  total = len (cb_short_ids c) + len (cb_prefilled c) /\ 0 < total <= MAX_COMPACT_BLOCK_TRANSACTIONS.
Proof.
  intros E. unfold validate_layout in E. apply bind_Ok in E as (u1 & E1 & E).
  apply bind_Ok in E as (u2 & E2 & E). apply bind_Ok in E as (u3 & _ & E).
  apply bind_Ok in E as (u4 & _ & [= <-]). apply assert_or_Ok, negb_true_iff, Z.eqb_neq in E1.
  apply assert_or_Ok, Z.leb_le in E2. unfold total_transactions, saturating_add in *.
  pose proof (len_nonneg (cb_short_ids c)). pose proof (len_nonneg (cb_prefilled c)).
  unfold MAX_COMPACT_BLOCK_TRANSACTIONS in *. ulia.
Qed.

Lemma empty_reconstruction_ok h (n : nat) :
  Z.of_nat n <= MAX_COMPACT_BLOCK_TRANSACTIONS ->
  rec_inv h (mkReconstruction h (replicate n None) [] ∅ 0).
Proof.
  intros B. split; [split; cbn|split; [|done]].
  - clear. by induction n as [|n IH]; cbn.
  - unfold len. by rewrite length_replicate.
  - intros i j H. apply lookup_replicate in H as [? _]. done.
  - intros i i' j H. apply lookup_replicate in H as [? _]. done.
  - intros id index. cbn. by rewrite lookup_empty.
Qed.

Lemma reconstruct_inv c mempool r :
  CompactBlock_reconstruct c mempool = Ok r -> rec_inv (cb_header c) r.
Proof.
  intros E. unfold CompactBlock_reconstruct in E. apply bind_Ok in E as (total & Et & E).
  apply validate_layout_total in Et as (_ & Ht). apply bind_Ok in E as ([p r1] & E1 & E).
  pose proof (empty_reconstruction_ok (cb_header c) (Z.to_nat total) ltac:(lia)) as I.
  pose proof (place_prefilled_inv _ _ _ _ _ I E1) as I1. cbn [snd] in I1.
  apply bind_Ok in E as ([[a b] indexes] & E2 & E).
  assert (len (rec_available r1) = total) as L.
  { assert (forall ps st st', try_fold place_prefilled st ps = Ok st' ->
      len (rec_available st'.2) = len (rec_available st.2)) as P.
    { clear. induction ps as [|p ps IH]; intros [pr r] st' E; cbn [try_fold] in E; [by injection E as <-|].
      apply bind_Ok in E as ([pr' r'] & E1 & E). apply bind_Ok in E1 as (index & _ & E1).
      apply bind_Ok in E1 as (r1 & E1 & [= <- <-]). apply IH in E as ->. cbn [snd].
      unfold rec_insert in E1. destruct (get _ _) as [[|]|]; try discriminate E1.
      injection E1 as <-. cbn. apply length_insert_len. }
    apply P in E1. cbn [snd rec_available] in E1. rewrite E1. unfold len. rewrite length_replicate. lia. }
  assert (rec_inv (cb_header c) (mkReconstruction (rec_header r1) (rec_available r1)
    (rec_transactions r1) indexes (rec_filled r1))) as I2.
  { destruct I1 as ([F B S D] & _ & Eh). split; [by split|]. split; [|done].
    intros id index Hi. cbn in *. rewrite L.
    eapply (place_short_ids_inv _ _ _ 0 0 ∅ _); [lia|lia| |exact E2|exact Hi].
    intros ? ?. by rewrite lookup_empty. }
  unfold fill_mempool in E. destruct (is_complete _); [by injection E as <-|].
  by eapply fill_mempool_loop_inv.
Qed.

Lemma fill_slots_inv h slots r : rec_inv h r -> rec_inv h (fill_slots r slots).2.
Proof.
  revert r. induction slots as [|[index tx] slots IH]; intros r I; [done|]. cbn [fill_slots].
  destruct (rec_insert r index tx) as [r1|e] eqn:E; [|done]. apply IH. by eapply rec_insert_inv.
Qed.

Lemma fill_missing_inv h r response : rec_inv h r -> rec_inv h (fill_missing r response).2.
Proof.
  intros I. unfold fill_missing. destruct (negb _); [done|]. destruct (negb _); [done|].
  by apply fill_slots_inv.
Qed.

Lemma into_block_complete r :
  rec_ok r -> is_complete r = true ->
  exists txs, Some <$> txs = rec_view r /\
    into_block r =
      _ ← map_err (fun _ => CbInvalidBlockBody) (validate_block_body (mkBlock (rec_header r) txs));
      Ok (mkBlock (rec_header r) txs).
Proof.
  intros O C. unfold into_block. rewrite C. cbn [assert_or mbind result_bind].
  pose proof (proj1 (rec_complete_spec r O) C) as C'. clear C. rename C' into C.
  destruct (take_slots_ok (rec_transactions r) (rec_available r)) as (txs & -> & V).
  - intros i [j|] H; [|by apply C in H]. exists j. split; [done|].
    apply (ok_slots _ O) in H as (? & ?). split; [lia|done].
  - apply NoDup_alt. intros i i' [j|] H H'; [|by apply C in H]. by eapply (ok_distinct _ O).
  - exists txs. split; [exact V|]. done.
Qed.

(** However a reconstruction is driven, with any memory pool and any
    sequence of peer answers, matching or not: every filled slot refers to a
    transaction of its own and the counter is exact; turning it into a block
    fails only for an empty slot or an invalid body, never because two slots
    share a transaction; and a block that comes out has the announced header
    and a body that passes validation against it. *)
Theorem reconstruction_sound c mempool r responses
    (E : CompactBlock_reconstruct c mempool = Ok r) :
  let r' := foldl (fun r response => (fill_missing r response).2) r responses in
  rec_ok r' /\
  match into_block r' with
  | Ok b => blk_header b = cb_header c /\ is_ok (validate_block_body b) = true
  | Err e => (e = Incomplete /\ exists i, rec_available r' !! i = Some None) \/ e = CbInvalidBlockBody
  end.
Proof.
  cbn zeta. apply reconstruct_inv in E.
  assert (rec_inv (cb_header c) (foldl (fun r response => (fill_missing r response).2) r responses))
    as (O & _ & Eh).
  { revert r E. induction responses as [|x xs IH]; intros r I; [done|]. cbn [foldl].
    by apply IH, fill_missing_inv. }
  set (r' := foldl _ _ _) in *. split; [done|]. destruct (is_complete r') eqn:C.
  - destruct (into_block_complete r' O C) as (txs & _ & ->).
    destruct (validate_block_body (mkBlock (rec_header r') txs)) as [m|] eqn:V; cbn; [|by right].
    split; [done|]. by rewrite V.
  - unfold into_block. rewrite C. cbn. left. split; [done|].
    unfold is_complete in C. apply Z.eqb_neq in C. rewrite (ok_filled _ O) in C.
    destruct (decide (Exists (fun x => x = None) (rec_available r'))) as [X|X].
    + apply Exists_exists in X as (x & I & ->). by apply list_elem_of_lookup in I.
    + exfalso. apply C, n_some_full. intros i H. apply X, Exists_exists. exists None.
      split; [by eapply list_elem_of_lookup_2|done].
Qed.

End reconstruction.

(** ** Relaying a block *)
(** What a reconstruction has agrees with the block. *)
Definition agrees (txs : list Transaction) (r : CompactBlockReconstruction) : Prop :=
  length (rec_available r) = length txs /\
  forall (i : nat) tx, rec_view r !! i = Some (Some tx) -> txs !! i = Some tx.

Lemma agrees_insert txs r (i : nat) tx r' :
  agrees txs r -> txs !! i = Some tx -> rec_view r' = <[i := Some tx]> (rec_view r) ->
  length (rec_available r') = length (rec_available r) -> agrees txs r'.
Proof.
  intros (L & A) T V L'. split; [by rewrite L'|]. intros k tx'. rewrite V.
  intros [(<- & [= <-] & _)|(_ & H)]%list_lookup_insert_Some; [done|by apply A].
Qed.

(** The slots of the short identifiers of a compact block made from a block are
    those after the coinbase. *)
Lemma skip_filled_first x m relative offset fuel :
  0 <= relative <= Z.of_nat m -> Z.of_nat m <= MAX_COMPACT_BLOCK_TRANSACTIONS ->
  offset = 1 \/ (relative = 0 /\ offset = 0) ->
  skip_filled (S (S fuel)) (Some x :: replicate m None) relative offset = 1.
Proof.
  intros R B. unfold MAX_COMPACT_BLOCK_TRANSACTIONS in B.
  assert (forall f, skip_filled (S f) (Some x :: replicate m None) relative 1 = 1) as S1.
  { intros f. cbn [skip_filled]. unfold get.
    replace (Z.to_nat (saturating_add usize_max relative 1)) with (S (Z.to_nat relative))
      by (unfold saturating_add; ulia). cbn [lookup list_lookup].
    destruct (replicate m None !! Z.to_nat relative) as [[y|]|] eqn:L; [|done..].
    by apply lookup_replicate in L as [? _]. }
  intros [->|[-> ->]]; [apply S1|]. cbn [skip_filled get saturating_add]. exact (S1 fuel).
Qed.

Lemma place_short_ids_ok x m ids relative offset (indexes : gmap Z Z) :
  0 <= relative -> relative + len ids = Z.of_nat m -> Z.of_nat m <= MAX_COMPACT_BLOCK_TRANSACTIONS ->
  offset = 1 \/ (relative = 0 /\ offset = 0) ->
  NoDup ids -> (forall id, id ∈ ids -> indexes !! id = None) ->
  exists st, try_fold (place_short_id (Z.of_nat m + 1) (Some x :: replicate m None))
      (relative, offset, indexes) ids = Ok st /\
    forall id index, st.2 !! id = Some index <->
      indexes !! id = Some index \/
      exists i : nat, ids !! i = Some id /\ index = relative + 1 + Z.of_nat i.
Proof.
  revert relative offset indexes.
  induction ids as [|s ids IH]; intros relative offset indexes Hr Hm B Ho N F; cbn [try_fold].
  { eexists. split; [reflexivity|]. intros id index. cbn. split; [auto|]. intros [?|(i & ? & _)]; done. }
  rewrite len_cons in Hm. pose proof (len_nonneg ids). apply NoDup_cons in N as (Ns & N).
  unfold place_short_id at 2. cbn [length].
  rewrite (skip_filled_first x m relative offset) by (lia || done).
  unfold MAX_COMPACT_BLOCK_TRANSACTIONS in *. unfold checked_add.
  rewrite (proj2 (Z.leb_le _ usize_max)) by ulia. cbn [ok_or mbind result_bind].
  rewrite (proj2 (Z.leb_gt _ _)) by lia. cbn [negb assert_or mbind result_bind].
  rewrite (F s) by set_solver. cbn [mbind result_bind].
  destruct (IH (relative + 1) 1 (<[s := relative + 1]> indexes)) as (st & E & Hst);
    [lia|lia|done|by left|done| |].
  { intros id I. rewrite lookup_insert_ne by (intros ->; done). apply F. set_solver. }
  exists st. split; [exact E|]. intros id index. rewrite Hst, lookup_insert_Some. split.
  - intros [[(<- & <-)|(_ & L)]|(i & L & ->)].
    + right. exists 0%nat. split; [done|]. lia.
    + by left.
    + right. exists (S i). split; [done|]. lia.
  - intros [L|([|i] & L & ->)].
    + left. right. split; [|done]. intros ->. rewrite F in L; [done|set_solver].
    + left. left. injection L as ->. split; [done|]. lia.
    + right. exists i. split; [done|]. lia.
Qed.

Section relay.
Context {CR : Crypto}.
Context (txs : list Transaction) (h : Header) (key : list byte).

(** The mempool only holds transactions whose short identifier, if it is that of
    a slot, belongs to that slot's transaction. *)
Definition faithful (indexes : gmap Z Z) (mempool : list Transaction) : Prop :=
  Forall (fun tx => exists wh, Transaction_witness_hash tx = Ok wh /\
    forall index, indexes !! short_id_with_key wh key = Some index ->
      txs !! Z.to_nat index = Some tx) mempool.

Lemma fill_mempool_loop_ok r matched mempool :
  rec_inv h r -> agrees txs r -> faithful (rec_short_id_indexes r) mempool ->
  exists r', fill_mempool_loop key r matched mempool = Ok r' /\ rec_inv h r' /\ agrees txs r'.
Proof.
  intros I A F. revert r matched I A F.
  induction mempool as [|tx mempool IH]; intros r matched I A F; cbn [fill_mempool_loop].
  { by exists r. }
  apply Forall_cons in F as ((wh & Ew & Fx) & F). rewrite Ew. cbn [map_err mbind result_bind].
  destruct (rec_short_id_indexes r !! short_id_with_key wh key) as [index|] eqn:L; [|by apply IH].
  specialize (Fx index eq_refl). pose proof I as (O & Ix & Eh). apply Ix in L as R.
  case_bool_decide.
  - destruct (get (rec_available r) index) as [[j|]|] eqn:G; [|by apply IH..].
    apply IH; [by eapply rec_clear_inv| |done]. destruct A as (La & A). split; [by cbn; rewrite length_insert|].
    intros i t. destruct (rec_clear_ok r _ _ O G) as (_ & ->).
    intros [(_ & ? & _)|(_ & Hi)]%list_lookup_insert_Some; [done|by apply A].
  - assert (exists r1, match get (rec_available r) index with
        | Some (Some _) => Ok r | _ => rec_insert r index tx end = Ok r1 /\
      rec_inv h r1 /\ agrees txs r1 /\ rec_short_id_indexes r1 = rec_short_id_indexes r)
      as (r1 & -> & I1 & A1 & Es).
    { destruct (get (rec_available r) index) as [[j|]|] eqn:G; [by exists r|..].
      - destruct (rec_insert_ok r (Z.to_nat index) tx O G) as (r1 & E1 & O1 & V1 & H1 & H2 & H3 & _).
        rewrite Z2Nat.id in E1 by lia. exists r1. split; [done|].
        split; [by eapply rec_insert_inv|]. split; [|done].
        eapply agrees_insert; [done|exact Fx|done|by rewrite H3, length_insert].
      - apply lookup_ge_None in G. unfold len in R. lia. }
    cbn [mbind result_bind]. destruct (is_complete r1); [by exists r1|]. apply IH; [done|done|by rewrite Es].
Qed.

Lemma fill_slots_ok r slots :
  rec_inv h r -> agrees txs r -> NoDup slots.*1 ->
  Forall (fun s => 0 <= s.1 /\ rec_available r !! Z.to_nat s.1 = Some None /\
    txs !! Z.to_nat s.1 = Some s.2) slots ->
  exists r', fill_slots r slots = (Ok tt, r') /\ rec_inv h r' /\ agrees txs r' /\
    rec_filled r' = rec_filled r + len slots.
Proof.
  revert r. induction slots as [|[i tx] slots IH]; intros r I A N F; cbn [fill_slots].
  { exists r. split; [done|]. split; [done|]. split; [done|]. change (len []) with 0. lia. }
  apply Forall_cons in F as ((Hi & G & T) & F). cbn [fst snd] in *.
  rewrite fmap_cons' in N. apply NoDup_cons in N as (Ni & N). cbn [fst] in Ni.
  pose proof I as (O & _ & _).
  destruct (rec_insert_ok r (Z.to_nat i) tx O G) as (r1 & E1 & O1 & V1 & H1 & H2 & H3 & H4).
  rewrite Z2Nat.id in E1 by lia. rewrite E1.
  destruct (IH r1) as (r' & E' & I' & A' & L').
  - by eapply rec_insert_inv.
  - eapply agrees_insert; [done|exact T|done|by rewrite H3, length_insert].
  - done.
  - apply Forall_forall. intros [i' tx'] Hin. rewrite Forall_forall in F.
    destruct (F _ Hin) as (Hi' & G' & T'). cbn [fst snd] in *. split; [done|]. split; [|done].
    rewrite H3, list_lookup_insert_ne; [done|]. intros Ei. apply Ni. assert (i = i') as -> by lia.
    apply list_elem_of_fmap. by exists (i', tx').
  - exists r'. split; [done|]. split; [done|]. split; [done|]. rewrite L', H4, len_cons. lia.
Qed.

End relay.

(** Strictly increasing indexes below 65536, and not too many, are accepted. *)
Lemma check_absolute_indexes_ok indexes previous :
  StronglySorted Z.lt indexes -> Forall (fun i => i <= u16_max) indexes ->
  match previous with Some p => Forall (fun i => p < i) indexes | None => True end ->
  exists last, try_fold check_absolute_index previous indexes = Ok last.
Proof.
  revert previous. induction indexes as [|i indexes IH]; intros previous S B P; cbn [try_fold].
  { by eexists. }
  apply Forall_cons in B as (Bi & B). apply StronglySorted_inv in S as (S & Si).
  unfold check_absolute_index. rewrite (proj2 (Z.leb_le _ _)) by done. cbn [assert_or mbind result_bind].
  assert (match previous with Some p => i <=? p | None => false end = false) as ->.
  { destruct previous; [|done]. apply Forall_cons in P as (? & _). by apply Z.leb_gt. }
  cbn [negb assert_or mbind result_bind]. by apply IH.
Qed.

Lemma missing_indexes_valid r :
  rec_ok r -> validate_absolute_indexes (missing_from 0 (rec_available r)) = Ok tt.
Proof.
  intros O. unfold validate_absolute_indexes. pose proof (ok_bound _ O) as B.
  pose proof (n_some_range (rec_available r)).
  rewrite (proj2 (Z.leb_le _ _)) by (rewrite len_missing_from; lia). cbn [assert_or mbind result_bind].
  destruct (check_absolute_indexes_ok (missing_from 0 (rec_available r)) None) as (l & ->);
    [apply missing_from_sorted| |done|done].
  apply Forall_forall. intros x (k & -> & L)%missing_from_spec. apply lookup_lt_Some in L.
  unfold MAX_COMPACT_BLOCK_TRANSACTIONS, len in *. ulia.
Qed.

Lemma StronglySorted_NoDup (l : list Z) : StronglySorted Z.lt l -> NoDup l.
Proof.
  induction 1 as [|x l S IH F]; constructor; [|done]. intros I. rewrite Forall_forall in F.
  apply F in I. lia.
Qed.

Section answer.
Context {CR : Crypto}.

(** A peer that has the block answers the request for what is missing, and the
    answer completes the reconstruction. *)
Lemma answer_completes b h r :
  rec_inv h r -> agrees (blk_transactions b) r -> blk_header b = h ->
  exists resp r',
    CompactBlockResponse_from_block b (missing_request r) = Ok resp /\
    fill_missing r resp = (Ok tt, r') /\ rec_inv h r' /\ agrees (blk_transactions b) r' /\
    is_complete r' = true.
Proof.
  intros I A Eb. pose proof I as (O & _ & Eh). set (txs := blk_transactions b) in *.
  set (missing := missing_from 0 (rec_available r)).
  assert (Forall (fun i => 0 <= i /\ rec_available r !! Z.to_nat i = Some None) missing) as Fm.
  { apply Forall_forall. intros x (k & -> & L)%missing_from_spec. rewrite Z.add_0_l, Nat2Z.id.
    split; [lia|done]. }
  assert (exists ts, try_map (fun index =>
      ok_or (get txs index) (Malformed (RequestedIndexOutOfBounds index))) missing = Ok ts /\
      Forall2 (fun i t => txs !! Z.to_nat i = Some t) missing ts) as (ts & Et & F2).
  { clear -Fm A. destruct A as (L & _). induction Fm as [|i rest (Hi & G) _ (ts & E & F)].
    - exists []. by split.
    - destruct (lookup_lt_is_Some_2 txs (Z.to_nat i)) as (t & T).
      { rewrite <- L. by eapply lookup_lt_Some. }
      exists (t :: ts). split; [|by constructor]. cbn [try_map]. change (get txs i) with (txs !! Z.to_nat i). rewrite T.
      cbn [ok_or mbind result_bind]. by rewrite E. }
  assert (CompactBlockResponse_from_block b (missing_request r) =
    Ok (mkResponse (block_hash (rec_header r)) ts)) as ER.
  { unfold CompactBlockResponse_from_block, missing_request. cbn [req_indexes req_block_hash].
    rewrite missing_indexes_valid by done. cbn [mbind result_bind].
    rewrite Eb, Eh, bool_decide_eqb_refl. cbn [assert_or mbind result_bind]. fold missing txs.
    by rewrite Et. }
  pose proof (Forall2_length _ _ _ F2) as L2.
  assert ((zip missing ts).*1 = missing) as Z1 by (apply fst_zip; lia).
  destruct (fill_slots_ok txs h r (zip missing ts)) as (r' & E' & I' & A' & L'); [done|done|..].
  { rewrite Z1. apply StronglySorted_NoDup, missing_from_sorted. }
  { apply Forall_forall. intros [i t] Hin. apply elem_of_lookup_zip_with in Hin as
      (k & i' & t' & [= -> ->] & Hi & Ht). cbn [fst snd].
    rewrite Forall_forall in Fm. destruct (Fm i') as (? & ?); [by eapply list_elem_of_lookup_2|].
    split; [done|]. split; [done|]. by eapply (Forall2_lookup_lr _ _ _ _ _ _ F2). }
  assert (len ts = len missing) as Lt by (unfold len; lia).
  exists (mkResponse (block_hash (rec_header r)) ts), r'. split; [done|]. split.
  { unfold fill_missing. cbn [resp_block_hash resp_transactions]. rewrite bool_decide_eqb_refl.
    cbn [negb]. rewrite n_some_none, Lt. unfold missing at 1. rewrite len_missing_from, Z.eqb_refl.
    exact E'. }
  split; [done|]. split; [done|]. unfold is_complete. apply Z.eqb_eq. rewrite L'.
  assert (len (zip missing ts) = len missing) as -> by (unfold len; rewrite length_zip_with; lia).
  unfold missing. rewrite len_missing_from, (ok_filled _ O). destruct A as (La & _), A' as (La' & _).
  unfold len. lia.
Qed.

Lemma complete_agrees txs r :
  rec_ok r -> agrees txs r -> is_complete r = true -> rec_view r = Some <$> txs.
Proof.
  intros O (L & A) C. pose proof (proj1 (rec_complete_spec r O) C) as F.
  apply list_eq. intros i. rewrite list_lookup_fmap. unfold rec_view in *.
  setoid_rewrite list_lookup_fmap in A. rewrite list_lookup_fmap.
  destruct (rec_available r !! i) as [[j|]|] eqn:E; cbn.
  - pose proof (ok_slots _ O _ _ E) as (_ & tx & T).
    assert (resolve (rec_transactions r) (Some j) = Some tx) as Rj by (cbn; unfold get; by rewrite T).
    specialize (A i tx). rewrite E in A. cbn in A, Rj. rewrite Rj in *. by rewrite A.
  - by apply F in E.
  - apply lookup_ge_None in E. assert (txs !! i = None) as -> by (apply lookup_ge_None; lia). done.
Qed.

(** The receiver's side, for the compact block of a block. *)
Lemma compact_reconstructs h coinbase rest nonce ids mempool :
  let c := mkCompact h nonce ids [mkPrefilled 0 coinbase] in
  length rest = length ids -> validate_layout c = Ok (Z.of_nat (length rest) + 1) ->
  Z.of_nat (length rest) + 1 <= MAX_COMPACT_BLOCK_TRANSACTIONS -> NoDup ids ->
  (forall tx, tx ∈ mempool -> exists wh, Transaction_witness_hash tx = Ok wh /\
     forall i, ids !! i = Some (CompactBlock_short_id c wh) -> (coinbase :: rest) !! S i = Some tx) ->
  exists r, CompactBlock_reconstruct c mempool = Ok r /\ rec_inv h r /\ agrees (coinbase :: rest) r.
Proof.
  cbn zeta. set (c := mkCompact h nonce ids [mkPrefilled 0 coinbase]). set (n := length rest).
  intros Ln Ly Bt D F.
  set (r0 := mkReconstruction h (replicate (S n) None) [] ∅ 0).
  assert (rec_inv h r0) as I0 by (apply empty_reconstruction_ok; lia).
  destruct (rec_insert_ok r0 0 coinbase (proj1 I0) eq_refl) as (r1 & E1 & O1 & V1 & H1 & _ & H3 & _).
  destruct (place_short_ids_ok 0 n ids 0 0 ∅) as (st & Es & Hst);
    [lia|unfold len; lia|lia|by right|done|intros; apply lookup_empty|].
  destruct st as [[a o] indexes]. cbn [snd] in Hst.
  set (r2 := mkReconstruction (rec_header r1) (rec_available r1) (rec_transactions r1) indexes
    (rec_filled r1)).
  assert (rec_available r1 = Some 0 :: replicate n None) as Av by (rewrite H3; done).
  assert (rec_inv h r2) as I2.
  { split; [destruct O1; by split|]. split; [|done]. intros id index Hi. cbn in Hi |- *.
    apply Hst in Hi as [Hi|(i & Hi & ->)]; [by rewrite lookup_empty in Hi|].
    apply lookup_lt_Some in Hi. rewrite Av, len_cons. unfold len. rewrite length_replicate. lia. }
  assert (agrees (coinbase :: rest) r2) as A2.
  { split; [cbn; rewrite Av; cbn; by rewrite length_replicate|]. intros i tx.
    change (rec_view r2) with (rec_view r1). rewrite V1.
    replace (rec_view r0) with (replicate (S n) (@None Transaction))
      by (unfold rec_view, r0; cbn [rec_available rec_transactions]; by rewrite fmap_replicate).
    destruct i as [|i]; simpl; [congruence|]. intros [? _]%lookup_replicate. done. }
  assert (exists r, fill_mempool r2 c mempool = Ok r /\ rec_inv h r /\ agrees (coinbase :: rest) r)
    as (r & Er & Ir & Ar).
  { unfold fill_mempool. destruct (is_complete r2); [by exists r2|].
    apply fill_mempool_loop_ok; [done|done|]. apply Forall_forall. intros tx Hx.
    destruct (F tx Hx) as (wh & Ew & Hf). exists wh. split; [done|]. intros index Hi.
    cbn [rec_short_id_indexes r2] in Hi. apply Hst in Hi as [Hi|(i & Hi & ->)]; [by rewrite lookup_empty in Hi|].
    replace (Z.to_nat (0 + 1 + Z.of_nat i)) with (S i) by lia. apply Hf. exact Hi. }
  exists r. split; [|done]. unfold CompactBlock_reconstruct. rewrite Ly. cbn [mbind result_bind cb_header cb_prefilled cb_short_ids c].
  replace (Z.to_nat (Z.of_nat n + 1)) with (S n) by lia. fold r0. cbn [try_fold place_prefilled].
    cbn [pre_index pre_transaction absolute_prefilled_index]. change (0 <=? u16_max) with true.
    cbn [mbind result_bind]. change (Z.of_nat 0) with 0 in E1. rewrite E1. cbn [mbind result_bind].
    rewrite Av, Es. cbn [mbind result_bind]. rewrite <- Av. exact Er.
Qed.

(** C14. Relaying a block as a compact block works: when the compact block made
    from a block has distinct short identifiers and no mempool transaction has
    the identifier of a different transaction of the block, the receiver's
    reconstruction succeeds with any mempool, the sender can answer the request
    for exactly the missing transactions, and the completed reconstruction is
    the block, byte for byte. *)
Theorem compact_relay_completes b nonce c mempool
    (C : CompactBlock_from_block_with_nonce b nonce = Ok c)
    (D : NoDup (cb_short_ids c))
    (F : forall tx, tx ∈ mempool -> exists wh, Transaction_witness_hash tx = Ok wh /\
       forall i, cb_short_ids c !! i = Some (CompactBlock_short_id c wh) ->
         blk_transactions b !! S i = Some tx) :
  exists r resp r',
    CompactBlock_reconstruct c mempool = Ok r /\
    CompactBlockResponse_from_block b (missing_request r) = Ok resp /\
    fill_missing r resp = (Ok tt, r') /\
    into_block r' = Ok b.
Proof.
  unfold CompactBlock_from_block_with_nonce in C. apply bind_Ok in C as (m & V & C).
  apply map_err_Ok in V. destruct b as [h txs]. cbn [blk_header blk_transactions] in *.
  destruct txs as [|coinbase rest]; [unfold validate_block_body in V; cbn [blk_transactions] in V;
    by apply bind_Ok in V as (? & _ & ?)|].
  apply bind_Ok in C as (ids & Ei & C). apply bind_Ok in C as (total & Ly & [= <-]).
  cbn [cb_short_ids cb_header cb_key_nonce] in *. rewrite skipn_cons, drop_0 in Ei.
  apply try_map_inv in Ei. pose proof (Forall2_length _ _ _ Ei) as Ln.
  pose proof (validate_layout_total _ _ Ly) as (Et & Bt). cbn [cb_short_ids cb_prefilled] in Et.
  change (len [mkPrefilled 0 coinbase]) with 1 in Et. set (n := length rest) in *.
  assert (total = Z.of_nat n + 1) as -> by (unfold len in Et; lia).
  destruct (compact_reconstructs h coinbase rest nonce ids mempool Ln Ly ltac:(lia) D F)
    as (r & ER & Ir & Ar).
  destruct (answer_completes (mkBlock h (coinbase :: rest)) h r Ir Ar eq_refl)
    as (resp & r' & Q & Fm & I' & A' & Cm).
  exists r, resp, r'. split; [done|]. split; [done|]. split; [done|].
  destruct I' as (O' & _ & Eh). destruct (into_block_complete r' O' Cm) as (txs & Vt & ->).
  rewrite (complete_agrees _ _ O' A' Cm) in Vt.
  assert (txs = coinbase :: rest) as -> by (by apply (inj (fmap Some)) in Vt).
  rewrite Eh, V. done.
Qed.

End answer.

(** ** A sample relay *)
Definition sample_compact : CompactBlock :=
  match @CompactBlock_from_block_with_nonce toy_crypto sample_block (zeros 8) with
  | Ok c => c
  | Err _ => mkCompact (blk_header sample_block) [] [] []
  end.
Definition sample_reconstruction : CompactBlockReconstruction :=
  match @CompactBlock_reconstruct toy_crypto sample_compact [] with
  | Ok r => r
  | Err _ => mkReconstruction (blk_header sample_block) [] [] ∅ 0
  end.

Lemma reconstruction_sound_witness :
  @CompactBlock_reconstruct toy_crypto sample_compact [] = Ok sample_reconstruction /\
  rec_ok sample_reconstruction.
Proof.
  assert (@CompactBlock_reconstruct toy_crypto sample_compact [] = Ok sample_reconstruction) as E
    by (vm_compute; reflexivity).
  split; [exact E|].
  pose proof (@reconstruction_sound toy_crypto sample_compact [] sample_reconstruction [] E) as S.
  cbn [foldl] in S. cbv zeta in S. destruct S as [O _]. exact O.
Defined.

Lemma compact_relay_completes_witness :
  @CompactBlock_from_block_with_nonce toy_crypto sample_block (zeros 8) = Ok sample_compact /\
  NoDup (cb_short_ids sample_compact) /\
  exists r, @CompactBlock_reconstruct toy_crypto sample_compact [sample_spend] = Ok r.
Proof.
  assert (@CompactBlock_from_block_with_nonce toy_crypto sample_block (zeros 8) = Ok sample_compact)
    as C by (vm_compute; reflexivity).
  assert (NoDup (cb_short_ids sample_compact)) as D
    by (apply (bool_decide_eq_true (NoDup (cb_short_ids sample_compact))); vm_compute; reflexivity).
  split; [exact C|]. split; [exact D|].
  assert (forall tx, tx ∈ [sample_spend] -> exists wh, @Transaction_witness_hash toy_crypto tx = Ok wh /\
    forall i, cb_short_ids sample_compact !! i = Some (@CompactBlock_short_id toy_crypto sample_compact wh) ->
      blk_transactions sample_block !! S i = Some tx) as F.
  { intros tx ->%list_elem_of_singleton. eexists. split; [vm_compute; reflexivity|].
    intros [|i]; [intros _; reflexivity|]. vm_compute. discriminate. }
  destruct (@compact_relay_completes toy_crypto _ _ _ _ C D F) as (r & resp & r' & E & _).
  exists r. exact E.
Defined.
