(* ===== verification/Linkage.v ===== *)
(** * hns-transaction: covenant links

    Models [crates/hns-transaction/src/linkage.rs]: the check that pairs every
    input with the output of the same index and admits only the covenant
    transitions of the Handshake auction, with name, start height, value and
    address preserved as each transition requires. The check is compared with a
    declarative transition relation, [link]. *)

From S2P Require Import Prelude Encoding Primitives Covenants Transaction.
Local Open Scope Z_scope.

Record CovenantLinkSummary := mkSummary {
  inputs_checked : Z;
  linked_outputs : Z;
  name_inputs : Z;
}.

Inductive CovenantLinkError :=
| CoinbaseRequiresIssuanceVerifier
| InputCountMismatch (transaction coins : Z)
| CoinOutpointMismatch (input_index : Z) (expected actual : Outpoint)
| MissingLinkedOutput (input_index : Z) (from : CovenantKind)
| InvalidTransition (input_index : Z) (from to : CovenantKind)
| MalformedCovenant (input_index : Z) (field : string)
| NameHashMismatch (input_index : Z)
| StartHeightMismatch (input_index : Z)
| BlindCommitmentMismatch (input_index : Z)
| BidValueInflation (input_index : Z)
| ClaimCannotRedeem (input_index : Z)
| AddressMismatch (input_index : Z)
| LockedValueMismatch (input_index : Z)
| TransferDestinationMismatch (input_index : Z)
| RevokedCoinSpent (input_index : Z)
| UnknownCovenantCreatesName (input_index : Z) (to : CovenantKind)
| UnpairedLinkedOutput (output_index : Z) (kind : CovenantKind).

(** ** Required fields *)
Definition required_item (input_index : Z) (c : Covenant) (item_index : Z) (field : string)
  : result CovenantLinkError (list byte) :=
  ok_or (Covenant_item c item_index) (MalformedCovenant input_index field).

Definition required_u8 (input_index : Z) (c : Covenant) (item_index : Z) (field : string)
  : result CovenantLinkError byte :=
  ok_or (Covenant_item_u8 c item_index) (MalformedCovenant input_index field).

Definition required_u32 (input_index : Z) (c : Covenant) (item_index : Z) (field : string)
  : result CovenantLinkError Z :=
  ok_or (Covenant_item_u32 c item_index) (MalformedCovenant input_index field).

Definition required_hash (input_index : Z) (c : Covenant) (item_index : Z) (field : string)
  : result CovenantLinkError (list byte) :=
  item ← required_item input_index c item_index field;
  ok_or (as_array 32 item) (MalformedCovenant input_index field).

Definition require_linked_output (input_index : Z) (from : CovenantKind) (output : option Output)
  : result CovenantLinkError Output :=
  ok_or output (MissingLinkedOutput input_index from).

Definition out_kind (o : Output) : CovenantKind := cov_kind (out_covenant o).

Definition require_transition (input_index : Z) (from : CovenantKind) (output : Output)
    (expected : CovenantKind) : result CovenantLinkError unit :=
  assert_or (bool_decide (out_kind output = expected))
    (InvalidTransition input_index from (out_kind output)).

Definition require_name_and_start_match (input_index : Z) (spent created : Covenant)
  : result CovenantLinkError unit :=
  h1 ← required_hash input_index spent 0 "spent name";
  h2 ← required_hash input_index created 0 "created name";
  assert_or (bool_decide (h1 = h2)) (NameHashMismatch input_index) ;;
  s1 ← required_u32 input_index spent 1 "spent start";
  s2 ← required_u32 input_index created 1 "created start";
  assert_or (s1 =? s2) (StartHeightMismatch input_index).

Definition require_locked_value (input_index : Z) (coin : Coin) (output : Output) : result CovenantLinkError unit :=
  assert_or (out_value output =? coin_value coin) (LockedValueMismatch input_index).

Definition require_address_match (input_index : Z) (expected : Address) (output : Output)
  : result CovenantLinkError unit :=
  assert_or (bool_decide (out_address output = expected)) (AddressMismatch input_index).

(** ** One input *)
Definition add_name_input (s : CovenantLinkSummary) : CovenantLinkSummary :=
  mkSummary (inputs_checked s) (linked_outputs s) (name_inputs s + 1).
Definition add_linked_output (s : CovenantLinkSummary) : CovenantLinkSummary :=
  mkSummary (inputs_checked s) (linked_outputs s + 1) (name_inputs s).

Section verify.
Context {CR : Crypto}.

(** The body of the input loop. *)
Definition link_input (input_index : Z) (input : Input) (coin : Coin) (output : option Output)
    (summary : CovenantLinkSummary) : result CovenantLinkError CovenantLinkSummary :=
  assert_or (bool_decide (in_previous_output input = coin_outpoint coin))
    (CoinOutpointMismatch input_index (in_previous_output input) (coin_outpoint coin)) ;;
  let spent := coin_covenant coin in
  let spent_kind := cov_kind spent in
  let summary := if is_name spent_kind then add_name_input summary else summary in
  match spent_kind with
  | KNone | KOpen | KRedeem =>
    match output with
    | None => Ok summary
    | Some output =>
      assert_or (match out_kind output with KNone | KOpen | KBid => true | _ => false end)
        (InvalidTransition input_index spent_kind (out_kind output)) ;;
      Ok summary
    end
  | KBid =>
    output ← require_linked_output input_index spent_kind output;
    require_transition input_index spent_kind output KReveal ;;
    require_name_and_start_match input_index spent (out_covenant output) ;;
    nonce ← required_hash input_index (out_covenant output) 2 "reveal nonce";
    commitment ← required_hash input_index spent 3 "bid commitment";
    assert_or (bool_decide (blind_bid (out_value output) nonce = commitment))
      (BlindCommitmentMismatch input_index) ;;
    assert_or (negb (coin_value coin <? out_value output)) (BidValueInflation input_index) ;;
    Ok (add_linked_output summary)
  | KClaim | KReveal =>
    output ← require_linked_output input_index spent_kind output;
    match out_kind output with
    | KRegister =>
      require_name_and_start_match input_index spent (out_covenant output) ;;
      require_address_match input_index (coin_address coin) output
    | KRedeem =>
      require_name_and_start_match input_index spent (out_covenant output) ;;
      assert_or (negb (bool_decide (spent_kind = KClaim))) (ClaimCannotRedeem input_index)
    | to => Err (InvalidTransition input_index spent_kind to)
    end ;;
    Ok (add_linked_output summary)
  | KRegister | KUpdate | KRenew | KFinalize =>
    output ← require_linked_output input_index spent_kind output;
    require_locked_value input_index coin output ;;
    require_address_match input_index (coin_address coin) output ;;
    assert_or (match out_kind output with
               | KUpdate | KRenew | KTransfer | KRevoke => true | _ => false end)
      (InvalidTransition input_index spent_kind (out_kind output)) ;;
    require_name_and_start_match input_index spent (out_covenant output) ;;
    Ok (add_linked_output summary)
  | KTransfer =>
    output ← require_linked_output input_index spent_kind output;
    require_locked_value input_index coin output ;;
    match out_kind output with
    | KUpdate | KRenew | KRevoke =>
      require_name_and_start_match input_index spent (out_covenant output) ;;
      require_address_match input_index (coin_address coin) output
    | KFinalize =>
      require_name_and_start_match input_index spent (out_covenant output) ;;
      version ← required_u8 input_index spent 2 "transfer version";
      hash ← required_item input_index spent 3 "transfer hash";
      assert_or (negb (negb (bool_decide (addr_version (out_address output) = version))
                       || negb (bool_decide (addr_hash (out_address output) = hash))))
        (TransferDestinationMismatch input_index)
    | to => Err (InvalidTransition input_index spent_kind to)
    end ;;
    Ok (add_linked_output summary)
  | KRevoke => Err (RevokedCoinSpent input_index)
  | KUnknown _ =>
    match output with
    | Some output =>
      if is_name (out_kind output)
      then Err (UnknownCovenantCreatesName input_index (out_kind output))
      else Ok summary
    | None => Ok summary
    end
  end.

(** [inputs.iter().zip(input_coins).enumerate()], from [input_index] on. *)
Fixpoint link_inputs (input_index : Z) (inputs : list Input) (coins : list Coin)
    (outputs : list Output) (summary : CovenantLinkSummary) : result CovenantLinkError CovenantLinkSummary :=
  match inputs, coins with
  | input :: inputs, coin :: coins =>
    summary ← link_input input_index input coin (get outputs input_index) summary;
    link_inputs (input_index + 1) inputs coins outputs summary
  | _, _ => Ok summary
  end.

(** The loop over the outputs beyond the inputs. *)
Fixpoint unpaired_outputs (output_index : Z) (outputs : list Output) : result CovenantLinkError unit :=
  match outputs with
  | [] => Ok tt
  | output :: outputs =>
    assert_or (negb (is_linked (out_kind output)))
      (UnpairedLinkedOutput output_index (out_kind output)) ;;
    unpaired_outputs (output_index + 1) outputs
  end.

Definition verify_covenant_links (transaction : Transaction) (input_coins : list Coin)
  : result CovenantLinkError CovenantLinkSummary :=
  assert_or (negb (is_coinbase transaction)) CoinbaseRequiresIssuanceVerifier ;;
  assert_or (len (tx_inputs transaction) =? len input_coins)
    (InputCountMismatch (len (tx_inputs transaction)) (len input_coins)) ;;
  summary ← link_inputs 0 (tx_inputs transaction) input_coins (tx_outputs transaction)
    (mkSummary (len input_coins) 0 0);
  unpaired_outputs (len (tx_inputs transaction))
    (drop (length (tx_inputs transaction)) (tx_outputs transaction)) ;;
  Ok summary.

End verify.

(** ** The transition relation *)
(** Both covenants carry the same 32-byte name hash and four-byte start height. *)
Definition same_name (spent created : Covenant) : Prop :=
  exists h s,
    Covenant_item_name_hash spent 0 = Some h /\ Covenant_item_name_hash created 0 = Some h /\
    Covenant_item_u32 spent 1 = Some s /\ Covenant_item_u32 created 1 = Some s.

Definition kind_in (k : CovenantKind) (ks : list CovenantKind) : Prop := k ∈ ks.

Section relation.
Context {CR : Crypto}.

(** [link coin o]: spending [coin] beside the output [o] of the same index, if
    there is one, is a legal covenant transition. *)
Inductive link (coin : Coin) : option Output -> Prop :=
| link_free o :
    kind_in (cov_kind (coin_covenant coin)) [KNone; KOpen; KRedeem] ->
    (forall out, o = Some out -> kind_in (out_kind out) [KNone; KOpen; KBid]) ->
    link coin o
| link_unknown o v :
    cov_kind (coin_covenant coin) = KUnknown v ->
    (forall out, o = Some out -> is_name (out_kind out) = false) ->
    link coin o
| link_reveal out nonce :
    cov_kind (coin_covenant coin) = KBid -> out_kind out = KReveal ->
    same_name (coin_covenant coin) (out_covenant out) ->
    Covenant_item_name_hash (out_covenant out) 2 = Some nonce ->
    Covenant_item_name_hash (coin_covenant coin) 3 = Some (blind_bid (out_value out) nonce) ->
    out_value out <= coin_value coin ->
    link coin (Some out)
| link_register out :
    kind_in (cov_kind (coin_covenant coin)) [KClaim; KReveal] -> out_kind out = KRegister ->
    same_name (coin_covenant coin) (out_covenant out) ->
    out_address out = coin_address coin ->
    link coin (Some out)
| link_redeem out :
    cov_kind (coin_covenant coin) = KReveal -> out_kind out = KRedeem ->
    same_name (coin_covenant coin) (out_covenant out) ->
    link coin (Some out)
| link_owned out :
    kind_in (cov_kind (coin_covenant coin)) [KRegister; KUpdate; KRenew; KFinalize] ->
    kind_in (out_kind out) [KUpdate; KRenew; KTransfer; KRevoke] ->
    same_name (coin_covenant coin) (out_covenant out) ->
    out_value out = coin_value coin -> out_address out = coin_address coin ->
    link coin (Some out)
| link_cancel out :
    cov_kind (coin_covenant coin) = KTransfer -> kind_in (out_kind out) [KUpdate; KRenew; KRevoke] ->
    same_name (coin_covenant coin) (out_covenant out) ->
    out_value out = coin_value coin -> out_address out = coin_address coin ->
    link coin (Some out)
| link_finalize out :
    cov_kind (coin_covenant coin) = KTransfer -> out_kind out = KFinalize ->
    same_name (coin_covenant coin) (out_covenant out) ->
    out_value out = coin_value coin ->
    Covenant_item_u8 (coin_covenant coin) 2 = Some (addr_version (out_address out)) ->
    Covenant_item (coin_covenant coin) 3 = Some (addr_hash (out_address out)) ->
    link coin (Some out).

End relation.

(** The coins whose spending needs a linked output. *)
Definition needs_link (k : CovenantKind) : bool :=
  match k with
  | KBid | KClaim | KReveal | KRegister | KUpdate | KRenew | KFinalize | KTransfer => true
  | _ => false
  end.

Definition count_coins (p : CovenantKind -> bool) (coins : list Coin) : Z :=
  len (filter (fun c => p (cov_kind (coin_covenant c)) = true) coins).

(** ** The check decides the relation *)
Lemma required_hash_Ok i c k f h :
  required_hash i c k f = Ok h <-> Covenant_item_name_hash c k = Some h.
Proof.
  unfold required_hash, required_item, Covenant_item_name_hash.
  destruct (Covenant_item c k) as [x|]; cbn; [|done]. by rewrite ok_or_Ok.
Qed.

Lemma same_name_Ok i spent created u :
  require_name_and_start_match i spent created = Ok u <-> same_name spent created.
Proof.
  unfold require_name_and_start_match, same_name, required_u32. split.
  - intros H. inv_ok. rewrite bool_decide_eq_true in *. subst.
    match goal with H : (_ =? _) = true |- _ => apply Z.eqb_eq in H as -> end.
    rewrite required_hash_Ok in *. eauto 10.
  - intros (h & s & H1 & H2 & H3 & H4). apply bind_Ok. exists h. rewrite required_hash_Ok.
    split; [done|]. apply bind_Ok. exists h. rewrite required_hash_Ok. split; [done|].
    rewrite bool_decide_eqb_refl, H3, H4. cbn. rewrite Z.eqb_refl. by destruct u.
Qed.

Lemma address_match_Ok i a o u : require_address_match i a o = Ok u <-> out_address o = a.
Proof. unfold require_address_match. by rewrite assert_or_Ok, bool_decide_eq_true. Qed.

Lemma locked_value_Ok i c o u : require_locked_value i c o = Ok u <-> out_value o = coin_value c.
Proof. unfold require_locked_value. by rewrite assert_or_Ok, Z.eqb_eq. Qed.

Lemma linked_output_Ok i k o out : require_linked_output i k o = Ok out <-> o = Some out.
Proof. apply ok_or_Ok. Qed.

Lemma required_u8_Ok i c k f b : required_u8 i c k f = Ok b <-> Covenant_item_u8 c k = Some b.
Proof. apply ok_or_Ok. Qed.

Lemma required_item_Ok i c k f b : required_item i c k f = Ok b <-> Covenant_item c k = Some b.
Proof. apply ok_or_Ok. Qed.

Lemma both_match (a b : bool) : negb (negb a || negb b) = true <-> a = true /\ b = true.
Proof. destruct a, b; naive_solver. Qed.

Lemma transition_Ok i k o e u : require_transition i k o e = Ok u <-> out_kind o = e.
Proof. unfold require_transition. by rewrite assert_or_Ok, bool_decide_eq_true. Qed.

Create Rewrite HintDb link.
#[local] Hint Rewrite required_hash_Ok same_name_Ok address_match_Ok locked_value_Ok linked_output_Ok
  transition_Ok required_u8_Ok required_item_Ok both_match @assert_or_Ok @ok_or_Ok @bool_decide_eq_true : link.

Ltac kind_solve :=
  unfold kind_in; repeat match goal with H : cov_kind _ = _ |- _ => rewrite H
    | H : out_kind _ = _ |- _ => rewrite H end;
  rewrite ?elem_of_cons; tauto.

Section decide.
Context {CR : Crypto}.

Definition link_summary (k : CovenantKind) (s : CovenantLinkSummary) : CovenantLinkSummary :=
  let s := if is_name k then add_name_input s else s in
  if needs_link k then add_linked_output s else s.

Lemma link_input_sound i input coin o s s' :
  link_input i input coin o s = Ok s' ->
  in_previous_output input = coin_outpoint coin /\ link coin o /\
  s' = link_summary (cov_kind (coin_covenant coin)) s.
Proof.
  unfold link_input. intros H0. apply bind_Ok in H0 as (u & H1 & H0).
  apply assert_or_Ok, bool_decide_eq_true in H1. split; [done|]. clear H1 u.
  split; [|]; destruct (cov_kind (coin_covenant coin)) eqn:K; cbn [is_name] in H0;
    destruct o as [out|]; cbn [require_linked_output ok_or mbind result_bind] in H0;
    try destruct (out_kind out) eqn:KO; inv_ok; try done; autorewrite with link in *; try done.
  all: try (apply link_free; [kind_solve|intros ? [= <-]; kind_solve]).
  all: try (apply link_free; [kind_solve|done]).
  all: try (eapply link_unknown; [exact K|intros ? [= <-]; by rewrite KO]).
  all: try (eapply link_unknown; [exact K|done]).
  all: try (apply link_register; [kind_solve|done..]).
  all: try (by apply link_redeem).
  all: try (apply link_owned; [kind_solve|kind_solve|done..]).
  all: try (apply link_cancel; [done|kind_solve|done..]).
  all: try congruence.
  all: try (eapply link_reveal; [done|done|done|done|congruence|]; rewrite negb_true_iff in *;
            by apply Z.ltb_ge).
  all: try (match goal with H : _ /\ _ |- _ => destruct H end; apply link_finalize; congruence).
  all: by injection H0 as <-.
Qed.

(** Run the checks whose conditions are at hand. *)
Ltac link_run :=
  repeat (first
    [ rewrite (proj2 (same_name_Ok _ _ _ tt) ltac:(eassumption))
    | rewrite (proj2 (address_match_Ok _ _ _ tt) ltac:(eassumption))
    | rewrite (proj2 (locked_value_Ok _ _ _ tt) ltac:(eassumption))
    | erewrite (proj2 (required_hash_Ok _ _ _ _ _)) by eassumption
    | erewrite (proj2 (required_u8_Ok _ _ _ _ _)) by eassumption
    | erewrite (proj2 (required_item_Ok _ _ _ _ _)) by eassumption
    | rewrite (proj2 (transition_Ok _ _ _ _ tt) ltac:(eassumption))
    | rewrite bool_decide_eqb_refl ];
    cbn [mbind result_bind assert_or negb orb]).

Lemma link_input_complete i input coin o s :
  in_previous_output input = coin_outpoint coin -> link coin o ->
  link_input i input coin o s = Ok (link_summary (cov_kind (coin_covenant coin)) s).
Proof.
  intros P L. unfold link_input, link_summary. rewrite P, bool_decide_eqb_refl.
  cbn [assert_or mbind result_bind].
  destruct L as [o K HO|o v K HO|out n K KO N I2 I3 V|out K KO N A|out K KO N|out K KO N V A
                |out K KO N V A|out K KO N V I2 I3];
    unfold kind_in in *; rewrite ?elem_of_cons, ?elem_of_nil in *.
  - destruct K as [K|[K|[K|[]]]]; rewrite K; destruct o as [out|]; try done;
      specialize (HO out eq_refl); rewrite !elem_of_cons, elem_of_nil in HO;
      destruct HO as [HO|[HO|[HO|[]]]]; by rewrite HO.
  - rewrite K. destruct o as [out|]; [|done]. by rewrite (HO out eq_refl).
  - rewrite K. cbn [require_linked_output ok_or mbind result_bind]. link_run.
    rewrite (proj2 (Z.ltb_ge _ _) V). done.
  - destruct K as [K|[K|[]]]; rewrite K; cbn [require_linked_output ok_or mbind result_bind];
      rewrite KO; by link_run.
  - rewrite K. cbn [require_linked_output ok_or mbind result_bind]. rewrite KO. by link_run.
  - destruct K as [K|[K|[K|[K|[]]]]]; rewrite K; cbn [require_linked_output ok_or mbind result_bind];
      link_run; destruct KO as [KO|[KO|[KO|[KO|[]]]]]; rewrite KO; by link_run.
  - rewrite K. cbn [require_linked_output ok_or mbind result_bind]. link_run.
    destruct KO as [KO|[KO|[KO|[]]]]; rewrite KO; by link_run.
  - rewrite K. cbn [require_linked_output ok_or mbind result_bind]. link_run. rewrite KO. by link_run.
Qed.

Lemma link_input_Ok i input coin o s s' :
  link_input i input coin o s = Ok s' <->
  in_previous_output input = coin_outpoint coin /\ link coin o /\
  s' = link_summary (cov_kind (coin_covenant coin)) s.
Proof.
  split; [apply link_input_sound|]. intros (P & L & ->). by apply link_input_complete.
Qed.

Lemma link_inputs_Ok i inputs coins outputs s s' :
  0 <= i -> length inputs = length coins ->
  link_inputs i inputs coins outputs s = Ok s' <->
  (forall j input coin, inputs !! j = Some input -> coins !! j = Some coin ->
     in_previous_output input = coin_outpoint coin /\ link coin (outputs !! (Z.to_nat i + j)%nat)) /\
  s' = foldl (fun s c => link_summary (cov_kind (coin_covenant c)) s) s coins.
Proof.
  intros Hi. revert i Hi coins s; induction inputs as [|x inputs IH]; intros i Hi [|c coins] s L;
    try done; cbn [link_inputs foldl].
  { split; [intros [= <-]; done|by intros (_ & ->)]. }
  injection L as L. rewrite bind_Ok. setoid_rewrite link_input_Ok.
  setoid_rewrite IH; [|lia|done]. unfold get.
  replace (Z.to_nat (i + 1)) with (S (Z.to_nat i)) by lia. split.
  - intros (s1 & (P & K & ->) & H & ->). split; [|done].
    intros [|j] input coin H1 H2; cbn in *; simplify_eq.
    + by rewrite Nat.add_0_r.
    + rewrite Nat.add_succ_r. by apply (H j).
  - intros (H & ->). eexists. destruct (H 0%nat x c eq_refl eq_refl) as (P & K).
    rewrite Nat.add_0_r in K. split; [done|]. split; [|done].
    intros j input coin H1 H2. specialize (H (S j) input coin H1 H2).
    by rewrite Nat.add_succ_r in H.
Qed.

Lemma unpaired_Ok i outs u :
  unpaired_outputs i outs = Ok u <-> Forall (fun o => is_linked (out_kind o) = false) outs.
Proof.
  revert i; induction outs as [|o outs IH]; intros i; cbn [unpaired_outputs].
  { destruct u. split; [by constructor|done]. }
  rewrite bind_Ok, Forall_cons. setoid_rewrite assert_or_Ok. setoid_rewrite negb_true_iff.
  setoid_rewrite IH. naive_solver.
Qed.

Lemma summary_fold coins s :
  foldl (fun s c => link_summary (cov_kind (coin_covenant c)) s) s coins =
  mkSummary (inputs_checked s) (linked_outputs s + count_coins needs_link coins)
    (name_inputs s + count_coins is_name coins).
Proof.
  revert s; induction coins as [|c coins IH]; intros s.
  { change (count_coins needs_link []) with 0. change (count_coins is_name []) with 0.
    destruct s. cbn. by rewrite !Z.add_0_r. }
  cbn [foldl]. rewrite IH. unfold count_coins. rewrite !filter_cons.
  unfold link_summary, add_name_input, add_linked_output.
  destruct (is_name (cov_kind (coin_covenant c))), (needs_link (cov_kind (coin_covenant c)));
    repeat case_decide; try done; cbn; slen; f_equal; lia.
Qed.

Definition links_hold (tx : Transaction) (coins : list Coin) : Prop :=
  is_coinbase tx = false /\ length (tx_inputs tx) = length coins /\
  (forall j input coin, tx_inputs tx !! j = Some input -> coins !! j = Some coin ->
     in_previous_output input = coin_outpoint coin /\ link coin (tx_outputs tx !! j)) /\
  (forall j out, (length (tx_inputs tx) <= j)%nat -> tx_outputs tx !! j = Some out ->
     is_linked (out_kind out) = false).

Lemma verify_links_Ok tx coins s :
  verify_covenant_links tx coins = Ok s <->
  links_hold tx coins /\
  s = mkSummary (len coins) (count_coins needs_link coins) (count_coins is_name coins).
Proof.
  unfold verify_covenant_links, links_hold. rewrite bind_Ok. setoid_rewrite assert_or_Ok.
  setoid_rewrite negb_true_iff. setoid_rewrite bind_Ok. setoid_rewrite assert_or_Ok.
  setoid_rewrite Z.eqb_eq. unfold len. setoid_rewrite Nat2Z.inj_iff.
  setoid_rewrite bind_Ok. setoid_rewrite bind_Ok. setoid_rewrite unpaired_Ok.
  setoid_rewrite Forall_lookup. setoid_rewrite lookup_drop. split.
  - intros (_ & C & _ & L & s1 & H1 & _ & F & [= ->]).
    apply link_inputs_Ok in H1 as (A & ->); [|lia|done]. rewrite summary_fold.
    split; [|done]. split; [done|]. split; [done|]. split; [done|].
    intros j out Hj Ho. apply (F (j - length (tx_inputs tx))%nat).
    by replace (length (tx_inputs tx) + (j - length (tx_inputs tx)))%nat with j by lia.
  - intros ((C & L & A & F) & ->). exists tt. split; [done|]. exists tt. split; [done|].
    eexists. split; [|exists tt; split; [|reflexivity]].
    + apply link_inputs_Ok; [lia|done|]. rewrite summary_fold. done.
    + intros i o Ho. eapply F; [|exact Ho]. lia.
Qed.

(** What a legal transition guarantees about the output it creates. *)
Lemma link_created coin out :
  link coin (Some out) -> is_linked (out_kind out) = true ->
  is_name (cov_kind (coin_covenant coin)) = true /\
  same_name (coin_covenant coin) (out_covenant out) /\
  (kind_in (out_kind out) [KUpdate; KRenew; KTransfer; KFinalize; KRevoke] ->
     out_value out = coin_value coin) /\
  (kind_in (out_kind out) [KRegister; KUpdate; KRenew; KTransfer; KRevoke] ->
     out_address out = coin_address coin) /\
  (out_kind out = KFinalize ->
     cov_kind (coin_covenant coin) = KTransfer /\
     Covenant_item_u8 (coin_covenant coin) 2 = Some (addr_version (out_address out)) /\
     Covenant_item (coin_covenant coin) 3 = Some (addr_hash (out_address out))).
Proof.
  intros L HL. inversion L as [o K HO|o v K HO|out' n K KO N I2 I3 V|out' K KO N A|out' K KO N
    |out' K KO N V A|out' K KO N V A|out' K KO N V I2 I3]; subst;
    unfold kind_in in *; rewrite ?elem_of_cons, ?elem_of_nil in *.
  1: specialize (HO out eq_refl); rewrite !elem_of_cons, elem_of_nil in HO;
     destruct HO as [HO|[HO|[HO|[]]]]; by rewrite HO in HL.
  1: specialize (HO out eq_refl); by destruct (out_kind out).
  all: repeat match goal with H : _ \/ _ |- _ => destruct H as [H|H] | H : False |- _ => destruct H end.
  all: rewrite ?K, ?KO in *; split; [done|]; split; [done|].
  all: split; [by intuition congruence|split; [by intuition congruence|by intuition congruence]].
Qed.

(** A coin that carries a live name is never spent without a linked successor. *)
Lemma link_successor coin o :
  link coin o -> needs_link (cov_kind (coin_covenant coin)) = true ->
  exists out, o = Some out /\ is_linked (out_kind out) = true.
Proof.
  intros L HN. destruct L; unfold kind_in in *; rewrite ?elem_of_cons, ?elem_of_nil in *;
    repeat match goal with H : _ \/ _ |- _ => destruct H as [H|H] | H : False |- _ => destruct H end;
    repeat match goal with H : cov_kind _ = _ |- _ => rewrite H in HN; clear H end; try done;
    eexists; (split; [done|]); by match goal with H : out_kind _ = _ |- _ => rewrite H end.
Qed.

(** ** Properties *)

(** C28. The link check accepts exactly the transactions whose inputs spend the
    given coins in order, where every coin and the output of the same index
    form a legal covenant transition, and where no output beyond the inputs
    carries a linked covenant; its summary counts are exact. *)
Theorem covenant_links_iff tx coins s :
  verify_covenant_links tx coins = Ok s <->
  links_hold tx coins /\
  s = mkSummary (len coins) (count_coins needs_link coins) (count_coins is_name coins).
Proof. apply verify_links_Ok. Qed.

(** Names are conserved: in an accepted transaction every linked output
    continues the name and start height of the coin spent at its own index;
    the locked value is unchanged by UPDATE, RENEW, TRANSFER, FINALIZE and
    REVOKE; the owner address changes only through FINALIZE, and then to the
    address the spent TRANSFER committed to; every coin that carries a live
    name has such a successor; and no revoked coin is spent. *)
Theorem covenant_links_conserve tx coins s (V : verify_covenant_links tx coins = Ok s) :
  (forall j out, tx_outputs tx !! j = Some out -> is_linked (out_kind out) = true ->
     exists coin, coins !! j = Some coin /\
       is_name (cov_kind (coin_covenant coin)) = true /\
       same_name (coin_covenant coin) (out_covenant out) /\
       (kind_in (out_kind out) [KUpdate; KRenew; KTransfer; KFinalize; KRevoke] ->
          out_value out = coin_value coin) /\
       (kind_in (out_kind out) [KRegister; KUpdate; KRenew; KTransfer; KRevoke] ->
          out_address out = coin_address coin) /\
       (out_kind out = KFinalize ->
          cov_kind (coin_covenant coin) = KTransfer /\
          Covenant_item_u8 (coin_covenant coin) 2 = Some (addr_version (out_address out)) /\
          Covenant_item (coin_covenant coin) 3 = Some (addr_hash (out_address out)))) /\
  (forall j coin, coins !! j = Some coin ->
     cov_kind (coin_covenant coin) <> KRevoke /\
     (needs_link (cov_kind (coin_covenant coin)) = true ->
      exists out, tx_outputs tx !! j = Some out /\ is_linked (out_kind out) = true)).
Proof.
  apply verify_links_Ok in V as ((C & L & A & F) & _).
  assert (forall j coin, coins !! j = Some coin -> link coin (tx_outputs tx !! j)) as K.
  { intros j coin Hc. destruct (lookup_lt_is_Some_2 (tx_inputs tx) j) as (i & Hi).
    { rewrite L. by eapply lookup_lt_Some. } by destruct (A j i coin Hi Hc). }
  split.
  - intros j out Ho HL. destruct (coins !! j) as [coin|] eqn:Hc.
    + exists coin. split; [done|]. apply link_created; [|done]. rewrite <- Ho. by apply K.
    + apply lookup_ge_None in Hc. rewrite (F j out) in HL; [done|lia|done].
  - intros j coin Hc. specialize (K j coin Hc). split; [|by apply link_successor].
    intros E. destruct K; unfold kind_in in *; rewrite ?elem_of_cons, ?elem_of_nil in *; rewrite E in *;
      naive_solver.
Qed.

End decide.

(** A name held by a REGISTER coin is renewed in place. *)
Definition renew_coin : Coin :=
  mkCoin (mkOutpoint (zeros 32) 3) 700 10 false (mkAddress (z2b 0) (zeros 20))
    (mkCovenant KRegister [zeros 32; to_le_bytes 4 9; []; zeros 32]).
Definition renew_tx : Transaction :=
  mkTransaction 0 [mkInput (mkOutpoint (zeros 32) 3) 0 Witness_default]
    [mkOutput 700 (mkAddress (z2b 0) (zeros 20))
       (mkCovenant KRenew [zeros 32; to_le_bytes 4 9; zeros 32])] 0.

Lemma covenant_links_conserve_witness :
  exists coin, [renew_coin] !! 0%nat = Some coin /\
    out_address (mkOutput 700 (mkAddress (z2b 0) (zeros 20))
      (mkCovenant KRenew [zeros 32; to_le_bytes 4 9; zeros 32])) = coin_address coin.
Proof.
  destruct (@covenant_links_conserve toy_crypto renew_tx [renew_coin] (mkSummary 1 1 1)) as (A & _);
    [vm_compute; reflexivity|].
  destruct (A 0%nat _ eq_refl eq_refl) as (coin & Hc & _ & _ & _ & H & _).
  exists coin. split; [done|]. apply H. unfold kind_in. cbn. set_solver.
Defined.
