(* ===== verification/NameTx.v ===== *)
(** * hns-transaction: building and verifying name transfers

    Models [crates/hns-transaction/src/name.rs]: the canonical TRANSFER and
    FINALIZE outputs and transactions, and their verifiers. The builders are
    clients of the covenant, name-state, transaction and link components: the
    theorems show that what they build is what the verifiers and the link check
    accept. *)

From S2P Require Import Prelude Encoding Primitives Covenants Resource NameState NameTransition Transaction Linkage.
Local Open Scope Z_scope.

Definition NAME_TRANSACTION_VERSION : Z := 0.
Definition NAME_TRANSACTION_LOCKTIME : Z := 0.
Definition NAME_INPUT_SEQUENCE : Z := u32_max.

Inductive NameTransactionError :=
| NtCovenant (e : CovenantError)
| NtTransaction (e : TransactionError)
| UnsupportedTransferSource (kind : CovenantKind)
| MalformedOwnerCovenant (kind : string)
| MalformedOwnerField (field : string)
| InvalidTransfer (reason : string)
| InvalidFinalize (reason : string)
| InvalidTransaction (reason : string)
| InvalidSourceCoin (operation : string)
| RepeatedNameInput (operation : string).

(** ** Field checks *)
Definition require_exact_items (c : Covenant) (expected : Z) (kind : string)
  : result NameTransactionError unit :=
  assert_or (len (cov_items c) =? expected) (MalformedOwnerCovenant kind).

Definition require_bounded_resource (c : Covenant) (index : Z) (kind : string)
  : result NameTransactionError unit :=
  assert_or (match Covenant_item c index with
             | Some resource => len resource <=? MAX_RESOURCE_SIZE
             | None => false
             end) (MalformedOwnerCovenant kind).

Definition require_hash (c : Covenant) (index : Z) (field : string)
  : result NameTransactionError (list byte) :=
  ok_or (item ← Covenant_item c index; as_array 32 item) (MalformedOwnerField field).

Definition require_u32 (c : Covenant) (index : Z) (field : string)
  : result NameTransactionError Z :=
  ok_or (Covenant_item_u32 c index) (MalformedOwnerField field).

Definition validate_name_coin_source (coin : Coin) (operation : string)
  : result NameTransactionError unit :=
  assert_or (negb (Outpoint_is_null (coin_outpoint coin) || coin_coinbase coin))
    (InvalidSourceCoin operation).

Definition repeats (name_coin : Coin) (inputs : list Input) : bool :=
  existsb (fun i => bool_decide (in_previous_output i = coin_outpoint name_coin)) inputs.

Definition reject_repeated_name_input (name_coin : Coin) (additional_inputs : list Input)
  : result NameTransactionError unit :=
  assert_or (negb (repeats name_coin additional_inputs)) (RepeatedNameInput "name transition").

Definition verify_name_transaction_header (transaction : Transaction) (name_coin : Coin)
    (operation : string) : result NameTransactionError unit :=
  _ ← map_err NtTransaction (Transaction_size transaction);
  assert_or ((tx_version transaction =? NAME_TRANSACTION_VERSION) &&
             (tx_locktime transaction =? NAME_TRANSACTION_LOCKTIME))
    (InvalidTransaction "name transaction version or locktime differs from HSD construction") ;;
  name_input ← ok_or (head (tx_inputs transaction))
    (InvalidTransaction "name input at index zero is missing");
  assert_or (bool_decide (in_previous_output name_input = coin_outpoint name_coin) &&
             (in_sequence name_input =? NAME_INPUT_SEQUENCE))
    (InvalidTransaction "name input is not the canonical index-zero outpoint") ;;
  assert_or (negb (repeats name_coin (tail (tx_inputs transaction))))
    (RepeatedNameInput operation).

(** The unsigned input that spends the name coin. *)
Definition name_input_of (coin : Coin) : Input :=
  mkInput (coin_outpoint coin) NAME_INPUT_SEQUENCE Witness_default.

Section name.
Context {CR : Crypto}.

Definition transferable_owner_anchor (c : Covenant)
  : result NameTransactionError (list byte * Z) :=
  let anchor :=
    name_hash ← require_hash c 0 "name hash";
    start_height ← require_u32 c 1 "start height";
    Ok (name_hash, start_height) in
  match cov_kind c with
  | KRegister =>
    require_exact_items c 4 "REGISTER" ;;
    require_bounded_resource c 2 "REGISTER" ;;
    _ ← require_hash c 3 "REGISTER renewal block";
    anchor
  | KUpdate =>
    require_exact_items c 3 "UPDATE" ;;
    require_bounded_resource c 2 "UPDATE" ;;
    anchor
  | KRenew =>
    require_exact_items c 3 "RENEW" ;;
    _ ← require_hash c 2 "RENEW renewal block";
    anchor
  | KFinalize =>
    finalize ← map_err NtCovenant (FinalizeCovenant_try_from c);
    Ok (fi_name_hash finalize, fi_start_height finalize)
  | kind => Err (UnsupportedTransferSource kind)
  end.

(** ** TRANSFER *)
Definition build_transfer_output (owner : Coin) (recipient : Address)
  : result NameTransactionError Output :=
  validate_name_coin_source owner "TRANSFER" ;;
  map_err NtTransaction (Address_validate (coin_address owner)) ;;
  map_err NtTransaction (Address_validate recipient) ;;
  '(name_hash, start_height) ← transferable_owner_anchor (coin_covenant owner);
  transfer ← map_err NtCovenant
    (TransferCovenant_new name_hash start_height (addr_version recipient) (addr_hash recipient));
  covenant ← map_err NtCovenant (TransferCovenant_to_covenant transfer);
  let output := mkOutput (coin_value owner) (coin_address owner) covenant in
  _ ← map_err NtTransaction (Output_encode output);
  Ok output.

Definition verify_transfer_output (output : Output) (owner : Coin) (recipient : Address)
  : result NameTransactionError unit :=
  built ← build_transfer_output owner recipient;
  assert_or (bool_decide (output = built))
    (InvalidTransfer "linked output differs from the canonical owner-preserving TRANSFER") ;;
  _ ← map_err NtCovenant (TransferCovenant_try_from (out_covenant output));
  Ok tt.

Definition build_transfer_transaction (owner : Coin) (recipient : Address)
    (additional_inputs : list Input) (additional_outputs : list Output)
  : result NameTransactionError Transaction :=
  reject_repeated_name_input owner additional_inputs ;;
  output ← build_transfer_output owner recipient;
  let transaction := mkTransaction NAME_TRANSACTION_VERSION
    (name_input_of owner :: additional_inputs) (output :: additional_outputs)
    NAME_TRANSACTION_LOCKTIME in
  _ ← map_err NtTransaction (Transaction_size transaction);
  Ok transaction.

Definition verify_transfer_at_index_zero (transaction : Transaction) (owner : Coin)
    (recipient : Address) : result NameTransactionError unit :=
  verify_name_transaction_header transaction owner "TRANSFER" ;;
  output ← ok_or (head (tx_outputs transaction))
    (InvalidTransfer "linked output at index zero is missing");
  verify_transfer_output output owner recipient.

(** ** FINALIZE *)
Definition validate_transfer_state (transfer_coin : Coin) (state : NameState)
    (transfer : TransferCovenant) : result NameTransactionError unit :=
  map_err NtCovenant (validate_key_binding state) ;;
  assert_or (negb (NameState_is_null state || negb (ns_registered state)
                   || negb (ns_revoked state =? 0) || (ns_transfer state =? 0)))
    (InvalidFinalize "name state is not an active registered transfer") ;;
  assert_or (bool_decide (NameState_owner_outpoint state = Some (coin_outpoint transfer_coin)))
    (InvalidFinalize "name-state owner does not identify the TRANSFER coin") ;;
  assert_or (ns_value state =? coin_value transfer_coin)
    (InvalidFinalize "name-state locked value differs from the TRANSFER coin") ;;
  assert_or (ns_transfer state =? coin_height transfer_coin)
    (InvalidFinalize "name-state transfer height differs from the TRANSFER coin height") ;;
  assert_or (bool_decide (ns_name_hash state = tr_name_hash transfer)
             && (ns_height state =? tr_start_height transfer))
    (InvalidFinalize "name-state identity differs from the TRANSFER covenant").

Definition build_finalize_output (transfer_coin : Coin) (state : NameState)
    (renewal_block : list byte) : result NameTransactionError Output :=
  validate_name_coin_source transfer_coin "FINALIZE" ;;
  map_err NtTransaction (Address_validate (coin_address transfer_coin)) ;;
  transfer ← map_err NtCovenant (TransferCovenant_try_from (coin_covenant transfer_coin));
  validate_transfer_state transfer_coin state transfer ;;
  recipient ← map_err NtTransaction
    (Address_new (tr_recipient_version transfer) (tr_recipient_hash transfer));
  finalize ← map_err NtCovenant (FinalizeCovenant_from_name_state state renewal_block);
  covenant ← map_err NtCovenant (FinalizeCovenant_to_covenant finalize);
  let output := mkOutput (coin_value transfer_coin) recipient covenant in
  _ ← map_err NtTransaction (Output_encode output);
  Ok output.

Definition verify_finalize_output (output : Output) (transfer_coin : Coin) (state : NameState)
    (renewal_block : list byte) : result NameTransactionError unit :=
  built ← build_finalize_output transfer_coin state renewal_block;
  assert_or (bool_decide (output = built))
    (InvalidFinalize "linked output differs from the canonical value-preserving FINALIZE") ;;
  _ ← map_err NtCovenant (FinalizeCovenant_try_from (out_covenant output));
  Ok tt.

Definition build_finalize_transaction (transfer_coin : Coin) (state : NameState)
    (renewal_block : list byte) (additional_inputs : list Input) (additional_outputs : list Output)
  : result NameTransactionError Transaction :=
  reject_repeated_name_input transfer_coin additional_inputs ;;
  output ← build_finalize_output transfer_coin state renewal_block;
  let transaction := mkTransaction NAME_TRANSACTION_VERSION
    (name_input_of transfer_coin :: additional_inputs) (output :: additional_outputs)
    NAME_TRANSACTION_LOCKTIME in
  _ ← map_err NtTransaction (Transaction_size transaction);
  Ok transaction.

Definition verify_finalize_at_index_zero (transaction : Transaction) (transfer_coin : Coin)
    (state : NameState) (renewal_block : list byte) : result NameTransactionError unit :=
  verify_name_transaction_header transaction transfer_coin "FINALIZE" ;;
  output ← ok_or (head (tx_outputs transaction))
    (InvalidFinalize "linked output at index zero is missing");
  verify_finalize_output output transfer_coin state renewal_block.

End name.

(** ** The name and start height a covenant carries *)
Definition carries (c : Covenant) (h : list byte) (s : Z) : Prop :=
  Covenant_item_name_hash c 0 = Some h /\ Covenant_item_u32 c 1 = Some s.

Lemma carries_same a b h s : carries a h s -> carries b h s -> same_name a b.
Proof. intros (? & ?) (? & ?). by exists h, s. Qed.

Lemma carries_types c h s : carries c h s -> length h = 32%nat /\ u32 s.
Proof.
  unfold carries, Covenant_item_name_hash, Covenant_item_u32. intros (H1 & H2).
  apply bind_Some in H1 as (i & _ & H1). apply as_array_Some in H1 as (-> & L).
  apply bind_Some in H2 as (j & _ & H2). apply bind_Some in H2 as (k & H2 & [= <-]).
  apply as_array_Some in H2 as (-> & L2). split; [unfold len in L; lia|by apply from_le4_u32].
Qed.

Lemma carries_items k h s rest :
  length h = 32%nat -> u32 s -> carries (mkCovenant k (h :: to_le_bytes 4 s :: rest)) h s.
Proof.
  intros L Hs. split.
  - change (as_array 32 h = Some h). apply as_array_intro. unfold len. lia.
  - change ((item ← as_array 4 (to_le_bytes 4 s); Some (from_le_bytes item)) = Some s).
    rewrite as_array_intro by apply len_to_le_bytes. cbn [mbind option_bind]. by rewrite from_to_le4.
Qed.

Section laws.
Context {CR : Crypto}.

Lemma anchor_carries c h s :
  transferable_owner_anchor c = Ok (h, s) ->
  carries c h s /\ kind_in (cov_kind c) [KRegister; KUpdate; KRenew; KFinalize].
Proof.
  unfold transferable_owner_anchor, kind_in. rewrite !elem_of_cons. intros A.
  destruct (cov_kind c) eqn:K; try done; cbv zeta in A.
  all: apply bind_Ok in A as (x & A0 & A); cbn beta in A.
  4: { injection A as <- <-. apply map_err_Ok, finalize_round_trip in A0 as (W & A0).
       apply FinalizeCovenant_to_Ok in A0 as (_ & ->). destruct W as (? & ? & _).
       split; [by apply carries_items|tauto]. }
  all: unfold require_hash, require_u32 in A; inv_ok; split; [|tauto]; split; [|done]; done.
Qed.

Lemma build_transfer_Ok owner recipient o :
  build_transfer_output owner recipient = Ok o ->
  exists t h s, carries (coin_covenant owner) h s /\
    kind_in (cov_kind (coin_covenant owner)) [KRegister; KUpdate; KRenew; KFinalize] /\
    t = mkTransfer h s (addr_version recipient) (addr_hash recipient) /\
    TransferCovenant_validate t = Ok tt /\ addr_ok recipient /\
    o = mkOutput (coin_value owner) (coin_address owner) (transfer_covenant_of t) /\
    Outpoint_is_null (coin_outpoint owner) = false.
Proof.
  unfold build_transfer_output. intros B.
  apply bind_Ok in B as (u1 & B1 & B). apply bind_Ok in B as (u2 & B2 & B).
  apply bind_Ok in B as (u3 & B3 & B). apply bind_Ok in B as ([h s] & B4 & B).
  apply bind_Ok in B as (t & B5 & B). apply bind_Ok in B as (c & B6 & B).
  apply bind_Ok in B as (e & _ & [= <-]).
  apply assert_or_Ok, negb_true_iff, orb_false_iff in B1 as (N & _).
  apply map_err_Ok in B3, B5, B6. destruct u3. apply Address_validate_Ok in B3.
  apply anchor_carries in B4 as (C & K). apply TransferCovenant_to_Ok in B6 as (V & ->).
  unfold TransferCovenant_new in B5. inv_ok. eexists _, h, s. done.
Qed.

Lemma transfer_parses t :
  TransferCovenant_wf t -> TransferCovenant_validate t = Ok tt ->
  TransferCovenant_try_from (transfer_covenant_of t) = Ok t.
Proof. intros. apply transfer_round_trip. split; [done|]. by apply TransferCovenant_to_Ok. Qed.

(** The TRANSFER that is built is a legal successor of the owner coin, and
    parses back to the recipient. *)
Lemma build_transfer_link owner recipient o :
  build_transfer_output owner recipient = Ok o ->
  link owner (Some o) /\
  exists t, TransferCovenant_try_from (out_covenant o) = Ok t /\
    tr_recipient_version t = addr_version recipient /\ tr_recipient_hash t = addr_hash recipient.
Proof.
  intros B. apply build_transfer_Ok in B as (t & h & s & C & K & -> & V & A & -> & N).
  destruct (carries_types _ _ _ C) as (Lh & Us). split.
  - apply link_owned; [done|unfold kind_in; cbn; rewrite !elem_of_cons; tauto| |done|done].
    eapply carries_same; [exact C|]. by apply carries_items.
  - eexists. split; [apply transfer_parses; [done|exact V]|]. done.
Qed.

Lemma verify_transfer_output_Ok o owner recipient :
  verify_transfer_output o owner recipient = Ok tt <-> build_transfer_output owner recipient = Ok o.
Proof.
  unfold verify_transfer_output. rewrite bind_Ok. split.
  - intros (b & B & V). apply bind_Ok in V as (u & E & _).
    apply assert_or_Ok, bool_decide_eq_true in E as ->. done.
  - intros B. exists o. split; [done|]. rewrite bool_decide_eqb_refl. cbn.
    apply build_transfer_link in B as (_ & t & -> & _). done.
Qed.

Lemma build_finalize_Ok coin state rb o :
  build_finalize_output coin state rb = Ok o ->
  exists t f, TransferCovenant_try_from (coin_covenant coin) = Ok t /\
    FinalizeCovenant_from_name_state state rb = Ok f /\
    NameState_owner_outpoint state = Some (coin_outpoint coin) /\
    ns_name_hash state = tr_name_hash t /\ ns_height state = tr_start_height t /\
    addr_ok (mkAddress (tr_recipient_version t) (tr_recipient_hash t)) /\
    FinalizeCovenant_validate f = Ok tt /\
    o = mkOutput (coin_value coin) (mkAddress (tr_recipient_version t) (tr_recipient_hash t))
          (finalize_covenant_of f) /\
    Outpoint_is_null (coin_outpoint coin) = false.
Proof.
  unfold build_finalize_output. intros B.
  apply bind_Ok in B as (u1 & B1 & B). apply bind_Ok in B as (u2 & B2 & B).
  apply bind_Ok in B as (t & B3 & B). apply bind_Ok in B as (u4 & B4 & B).
  apply bind_Ok in B as (a & B5 & B). apply bind_Ok in B as (f & B6 & B).
  apply bind_Ok in B as (c & B7 & B). apply bind_Ok in B as (e & _ & [= <-]).
  apply assert_or_Ok, negb_true_iff, orb_false_iff in B1 as (N & _).
  apply map_err_Ok in B3, B5, B6, B7. apply FinalizeCovenant_to_Ok in B7 as (V & ->).
  unfold Address_new in B5. apply bind_Ok in B5 as ([] & B5 & [= <-]). apply Address_validate_Ok in B5.
  unfold validate_transfer_state in B4. inv_ok.
  match goal with H : _ && _ = true |- _ => apply andb_true_iff in H as (? & ?) end.
  rewrite bool_decide_eq_true in *. rewrite Z.eqb_eq in *. exists t, f. done.
Qed.

(** The FINALIZE that is built is a legal successor of the TRANSFER coin, moves
    the name to the recipient the TRANSFER committed to, and parses back. *)
Lemma build_finalize_link coin state rb o :
  NameState_wf state -> length rb = 32%nat -> build_finalize_output coin state rb = Ok o ->
  link coin (Some o) /\
  exists f, FinalizeCovenant_try_from (out_covenant o) = Ok f /\
    fi_name f = ns_name state /\ fi_name_hash f = ns_name_hash state.
Proof.
  intros W Lr B. apply build_finalize_Ok in B as (t & f & T & F & O & Hn & Hs & A & V & -> & N).
  apply transfer_round_trip in T as ((Lh & Us) & T). apply TransferCovenant_to_Ok in T as (_ & Ec).
  apply FinalizeCovenant_from_Ok in F as (_ & B & ->). split.
  - apply link_finalize; cbn [out_kind out_covenant out_value out_address addr_version addr_hash];
      rewrite ?Ec; try done.
    eapply (carries_same _ _ (tr_name_hash t) (tr_start_height t)); [by apply carries_items|].
    unfold finalize_covenant_of. cbn [fi_name_hash fi_start_height]. rewrite Hn, Hs. by apply carries_items.
  - cbn [out_covenant]. match goal with |- context [finalize_covenant_of ?f] => exists f end.
    rewrite finalize_round_trip, FinalizeCovenant_to_Ok. split; [|done].
    split; [|done].
    destruct W as (? & ? & _ & _ & _ & _ & _ & _ & ? & ?). done.
Qed.

Lemma verify_finalize_output_Ok o coin state rb :
  NameState_wf state -> length rb = 32%nat ->
  verify_finalize_output o coin state rb = Ok tt <-> build_finalize_output coin state rb = Ok o.
Proof.
  intros W L. unfold verify_finalize_output. rewrite bind_Ok. split.
  - intros (b & B & V). apply bind_Ok in V as (u & E & _).
    apply assert_or_Ok, bool_decide_eq_true in E as ->. done.
  - intros B. exists o. split; [done|]. rewrite bool_decide_eqb_refl. cbn.
    apply build_finalize_link in B as (_ & f & -> & _); done.
Qed.

(** ** Whole transactions *)
Lemma header_Ok tx coin op :
  is_Some (head (tx_inputs tx)) ->
  verify_name_transaction_header tx coin op = Ok tt <->
  (exists n, Transaction_size tx = Ok n) /\ tx_version tx = 0 /\ tx_locktime tx = 0 /\
  (exists i rest, tx_inputs tx = i :: rest /\ in_previous_output i = coin_outpoint coin /\
     in_sequence i = u32_max /\ repeats coin rest = false).
Proof.
  intros (i & Hi). destruct tx as [v ins outs lt].
  unfold verify_name_transaction_header, NAME_INPUT_SEQUENCE, NAME_TRANSACTION_VERSION,
    NAME_TRANSACTION_LOCKTIME. cbn [tx_inputs tx_version tx_locktime tx_outputs] in *.
  destruct ins as [|i' ins]; [done|]. injection Hi as ->. cbn [head hd_error tail ok_or]. split.
  - intros H. inv_ok. repeat match goal with H : _ && _ = true |- _ => apply andb_true_iff in H as (? & ?) end.
    rewrite ?bool_decide_eq_true, ?Z.eqb_eq, ?negb_true_iff in *. split; [eauto|]. eauto 10.
  - intros ((n & ->) & -> & -> & j & r & [= -> ->] & E & S & R). cbn [map_err mbind result_bind].
    rewrite Z.eqb_refl. cbn [andb assert_or mbind result_bind].
    rewrite E, S, R, bool_decide_eqb_refl, Z.eqb_refl. done.
Qed.

Lemma built_header coin ins outs n op :
  Transaction_size (mkTransaction 0 (name_input_of coin :: ins) outs 0) = Ok n ->
  repeats coin ins = false ->
  verify_name_transaction_header (mkTransaction 0 (name_input_of coin :: ins) outs 0) coin op = Ok tt.
Proof.
  intros S R. apply header_Ok; [eauto|]. split; [eauto|]. repeat split; try done.
  by exists (name_input_of coin), ins.
Qed.

(** An unextended transaction that spends one non-null coin with one legal
    successor passes the link check. *)
Lemma single_link_verifies coin o v lt :
  Outpoint_is_null (coin_outpoint coin) = false -> link coin (Some o) ->
  exists s, verify_covenant_links (mkTransaction v [name_input_of coin] [o] lt) [coin] = Ok s /\
    inputs_checked s = 1.
Proof.
  intros N L. eexists. rewrite verify_links_Ok. split; [split; [|reflexivity]|done].
  split; [done|]. split; [done|]. split.
  - intros [|j] i c Hi Hc; cbn in *; by simplify_eq.
  - intros [|j] out Hj Ho; cbn in *; [lia|done].
Qed.

(** A TRANSFER output passes its verifier exactly when it is the output
    the builder produces for that owner coin and recipient. *)
Theorem transfer_verifier_iff_builder o owner recipient :
  verify_transfer_output o owner recipient = Ok tt <-> build_transfer_output owner recipient = Ok o.
Proof. apply verify_transfer_output_Ok. Qed.

(** A built TRANSFER transaction passes the index-zero verifier; without
    extra inputs and outputs it also passes the covenant link check; its
    TRANSFER keeps the owner's value and address and commits to the recipient. *)
Theorem transfer_build_sound owner recipient ins outs tx
    (B : build_transfer_transaction owner recipient ins outs = Ok tx) :
  verify_transfer_at_index_zero tx owner recipient = Ok tt /\
  (ins = [] -> outs = [] ->
     exists s, verify_covenant_links tx [owner] = Ok s /\ inputs_checked s = 1) /\
  exists o t, tx_outputs tx = o :: outs /\ TransferCovenant_try_from (out_covenant o) = Ok t /\
    out_value o = coin_value owner /\ out_address o = coin_address owner /\
    tr_recipient_version t = addr_version recipient /\ tr_recipient_hash t = addr_hash recipient.
Proof.
  unfold build_transfer_transaction in B. apply bind_Ok in B as (u & R & B).
  apply assert_or_Ok, negb_true_iff in R. apply bind_Ok in B as (o & Bo & B).
  apply bind_Ok in B as (n & S & [= <-]). apply map_err_Ok in S.
  pose proof (build_transfer_link _ _ _ Bo) as (L & t & T & Tv & Th).
  pose proof (build_transfer_Ok _ _ _ Bo) as (t' & h & s & _ & _ & _ & _ & _ & Eo & N).
  split; [|split].
  - unfold verify_transfer_at_index_zero.
    rewrite (built_header owner ins (o :: outs) n) by done. cbn.
    by apply verify_transfer_output_Ok.
  - intros -> ->. by apply single_link_verifies.
  - exists o, t. split; [done|]. split; [done|]. by rewrite Eo.
Qed.

(** A built FINALIZE transaction passes the index-zero verifier; without
    extra inputs and outputs it also passes the covenant link check; its
    FINALIZE keeps the locked value, pays the recipient the spent TRANSFER
    committed to, and names the state the caller authenticated. *)
Theorem finalize_build_sound coin state rb ins outs tx
    (W : NameState_wf state) (Lr : length rb = 32%nat)
    (B : build_finalize_transaction coin state rb ins outs = Ok tx) :
  verify_finalize_at_index_zero tx coin state rb = Ok tt /\
  (ins = [] -> outs = [] ->
     exists s, verify_covenant_links tx [coin] = Ok s /\ inputs_checked s = 1) /\
  exists o t f, tx_outputs tx = o :: outs /\
    TransferCovenant_try_from (coin_covenant coin) = Ok t /\
    FinalizeCovenant_try_from (out_covenant o) = Ok f /\
    out_value o = coin_value coin /\
    out_address o = mkAddress (tr_recipient_version t) (tr_recipient_hash t) /\
    fi_name f = ns_name state /\ fi_name_hash f = ns_name_hash state.
Proof.
  unfold build_finalize_transaction in B. apply bind_Ok in B as (u & R & B).
  apply assert_or_Ok, negb_true_iff in R. apply bind_Ok in B as (o & Bo & B).
  apply bind_Ok in B as (n & S & [= <-]). apply map_err_Ok in S.
  pose proof (build_finalize_link _ _ _ _ W Lr Bo) as (L & f & F & Fn & Fh).
  pose proof (build_finalize_Ok _ _ _ _ Bo) as (t & f' & T & _ & _ & _ & _ & _ & _ & Eo & N).
  split; [|split].
  - unfold verify_finalize_at_index_zero.
    rewrite (built_header coin ins (o :: outs) n) by done. cbn.
    by apply verify_finalize_output_Ok.
  - intros -> ->. by apply single_link_verifies.
  - exists o, t, f. split; [done|]. split; [done|]. split; [done|]. by rewrite Eo.
Qed.

End laws.

(** ** A name moved under the example digest *)
Definition toy_hash (name : list byte) : list byte := @sha3_256 toy_crypto name.
Definition owner_coin : Coin :=
  mkCoin (mkOutpoint (zeros 32) 2) 3 4 false (mkAddress (z2b 0) (replicate 20 (z2b 5)))
    (mkCovenant KFinalize
       [toy_hash (bstr "handshake"); to_le_bytes 4 6; bstr "handshake"; [z2b 0];
        to_le_bytes 4 0; to_le_bytes 4 1; replicate 32 (z2b 7)]).
Definition new_owner : Address := mkAddress (z2b 0) (replicate 20 (z2b 8)).

Definition transfer_tx : Transaction :=
  match @build_transfer_transaction toy_crypto owner_coin new_owner [] [] with
  | Ok tx => tx | Err _ => mkTransaction 0 [] [] 0 end.

Lemma transfer_build_sound_witness :
  @verify_transfer_at_index_zero toy_crypto transfer_tx owner_coin new_owner = Ok tt.
Proof.
  refine (proj1 (@transfer_build_sound toy_crypto owner_coin new_owner [] [] transfer_tx _)).
  vm_compute. reflexivity.
Defined.

Definition transferred_coin : Coin :=
  match tx_outputs transfer_tx with
  | o :: _ => mkCoin (mkOutpoint (replicate 32 (z2b 9)) 0) (out_value o) 10 false (out_address o)
                (out_covenant o)
  | [] => owner_coin
  end.
Definition transfer_state : NameState :=
  mkNameState (toy_hash (bstr "handshake")) (bstr "handshake") 6 6
    (mkOutpoint (replicate 32 (z2b 9)) 0) 3 3 [] 10 0 0 1 true false false.
Definition finalize_tx : Transaction :=
  match @build_finalize_transaction toy_crypto transferred_coin transfer_state (zeros 32) [] [] with
  | Ok tx => tx | Err _ => mkTransaction 0 [] [] 0 end.

Lemma finalize_build_sound_witness :
  @verify_finalize_at_index_zero toy_crypto finalize_tx transferred_coin transfer_state (zeros 32)
    = Ok tt.
Proof.
  refine (proj1 (@finalize_build_sound toy_crypto transferred_coin transfer_state (zeros 32) [] []
    finalize_tx _ _ _)).
  - repeat split; vm_compute; discriminate.
  - reflexivity.
  - vm_compute. reflexivity.
Defined.
