(* ===== verification/Urkel.v ===== *)
(** * hns-urkel-proof: Urkel tree proofs

    Models [crates/hns-urkel-proof/src/lib.rs]: the HSD proof wire format (a
    bitmap of explicit prefixes, nodes with sibling hashes, and four kinds of
    terminal), its compatible and strict decoders, and verification of a proof
    against a tree root. An abstract Urkel tree gives the reference meaning of
    a root; the digest is the parameter [blake2b] of [Crypto]. *)

From S2P Require Import Prelude Encoding Primitives.
Local Open Scope Z_scope.

Definition URKEL_BITS : Z := 256.
Definition EMPTY_ROOT : list byte := zeros 32.
Definition MAX_HSD_PROOF_SIZE : Z := 82469.

Definition TYPE_DEADEND : Z := 0.
Definition TYPE_SHORT : Z := 1.
Definition TYPE_COLLISION : Z := 2.
Definition TYPE_EXISTS : Z := 3.

Inductive ProofKind := Inclusion | NonInclusion.

#[global] Instance ProofKind_eq_dec : EqDecision ProofKind.
Proof. solve_decision. Defined.

Inductive UrkelError :=
| UrTooLarge (size : Z)
| UrDepth (depth : Z)
| NodeCount (count : Z)
| PrefixLength (bits : Z)
| PrefixSize
| PrefixTrailingBits
| EmptyExplicitPrefix
| EmptyShortPrefix
| UrUnexpectedEnd (offset : Z)
| OffsetOverflow
| UrTrailingBytes (count : Z)
| NonCanonical
| ValueTooLarge (size : Z)
| KindMismatch
| ShortFollowsKey
| CollisionUsesKey
| AncestorDepth
| AncestorPrefix
| IncompletePath (depth : Z)
| RootMismatch (expected actual : list byte).

Record BitPrefix := mkPrefix { bp_bit_len : Z; bp_bytes : list byte }.
Definition BitPrefix_default : BitPrefix := mkPrefix 0 [].

Record ProofNode := mkNode { pn_prefix : BitPrefix; pn_sibling : list byte }.

Inductive ProofTerminal :=
| PtDeadEnd
| PtShort (prefix : BitPrefix) (l r : list byte)
| PtCollision (key value_hash : list byte)
| PtExists (value : list byte).

Record HsdUrkelProof := mkProof {
  up_depth : Z;
  up_nodes : list ProofNode;
  up_terminal : ProofTerminal;
}.

Record UrkelProof := mkUrkelProof {
  uk_name_hash : list byte;
  uk_kind : ProofKind;
  uk_raw : list byte;
}.

(** ** Bits

    Bit [index] of a byte string, most significant bit first. The index is in
    range at every use. *)
Definition packed_bit (bytes : list byte) (index : Z) : Z :=
  Z.land (Z.shiftr (b2z (default x00 (get bytes (index / 8)))) (7 - index mod 8)) 1.
Definition key_bit (key : list byte) (index : Z) : Z := packed_bit key index.

(** [bytes[offset + index / 8] |= bit << (7 - index % 8)] *)
Definition set_packed_bit (bytes : list byte) (offset index bit : Z) : list byte :=
  alter (fun b => z2b (Z.lor (b2z b) (Z.shiftl bit (7 - index mod 8))))
    (Z.to_nat (offset + index / 8)) bytes.

Definition range (n : Z) : list Z := Z.of_nat <$> seq 0 (Z.to_nat n).

Definition BitPrefix_matches_key (p : BitPrefix) (key : list byte) (depth : Z) : bool :=
  match checked_add usize_max depth (bp_bit_len p) with
  | Some end_ => end_ <=? URKEL_BITS
  | None => false
  end &&
  forallb (fun offset => packed_bit (bp_bytes p) offset =? key_bit key (depth + offset))
    (range (bp_bit_len p)).

Definition BitPrefix_validate (p : BitPrefix) : result UrkelError unit :=
  let bit_len := bp_bit_len p in
  assert_or (bit_len <=? URKEL_BITS) (PrefixLength bit_len) ;;
  assert_or (len (bp_bytes p) =? div_ceil bit_len 8) PrefixSize ;;
  if negb (bit_len mod 8 =? 0) && negb (len (bp_bytes p) =? 0) then
    let used := bit_len mod 8 in
    let trailing_mask := Z.shiftl 1 (8 - used) - 1 in
    assert_or
      (Z.land (b2z (default x00 (get (bp_bytes p) (len (bp_bytes p) - 1)))) trailing_mask =? 0)
      PrefixTrailingBits
  else Ok tt.

Definition BitPrefix_write_hsd (p : BitPrefix) (output : list byte) : list byte :=
  let bit_len := bp_bit_len p in
  let output :=
    if 0x80 <=? bit_len then output ++ [z2b (Z.lor 0x80 (Z.shiftr bit_len 8))] else output in
  output ++ [z2b bit_len] ++ bp_bytes p.

(** ** The reader: [ProofReader] is a [Decoder] with its own errors *)
Definition pr_read_u8 : decM UrkelError byte := fun d =>
  match get (input d) (position d) with
  | Some value => (Ok value, mkDecoder (input d) (position d + 1))
  | None => (Err (UrUnexpectedEnd (position d)), d)
  end.

Definition pr_read_slice (size : Z) : decM UrkelError (list byte) := fun d =>
  match checked_add usize_max (position d) size with
  | None => (Err OffsetOverflow, d)
  | Some end_ =>
    if end_ <=? len (input d)
    then (Ok (slice (input d) (position d) end_), mkDecoder (input d) end_)
    else (Err (UrUnexpectedEnd (position d)), d)
  end.

Definition pr_read_u16 : decM UrkelError Z :=
  bytes ← pr_read_slice 2; mret (from_le_bytes bytes).
Definition pr_read_hash : decM UrkelError (list byte) := pr_read_slice 32.
Definition pr_read_vec (size : Z) : decM UrkelError (list byte) := pr_read_slice size.

Definition pr_read_prefix : decM UrkelError BitPrefix :=
  first ← pr_read_u8;
  bit_len ← (if negb (Z.land (b2z first) 0x80 =? 0)
             then second ← pr_read_u8;
                  mret (Z.lor (Z.shiftl (Z.land (b2z first) 0x7f) 8) (b2z second))
             else mret (b2z first));
  lift_res (assert_or (bit_len <=? URKEL_BITS) (PrefixLength bit_len)) ;;
  bytes ← pr_read_vec (div_ceil bit_len 8);
  let prefix := mkPrefix (wrap 16 bit_len) bytes in
  lift_res (BitPrefix_validate prefix) ;;
  mret prefix.

(** ** Proofs *)
Fixpoint validate_nodes (nodes : list ProofNode) : result UrkelError unit :=
  match nodes with
  | [] => Ok tt
  | node :: nodes => BitPrefix_validate (pn_prefix node) ;; validate_nodes nodes
  end.

Definition HsdUrkelProof_validate (p : HsdUrkelProof) : result UrkelError unit :=
  assert_or (up_depth p <=? URKEL_BITS) (UrDepth (up_depth p)) ;;
  assert_or (len (up_nodes p) <=? URKEL_BITS) (NodeCount (len (up_nodes p))) ;;
  validate_nodes (up_nodes p) ;;
  match up_terminal p with
  | PtShort prefix _ _ =>
    BitPrefix_validate prefix ;;
    assert_or (negb (bp_bit_len prefix =? 0)) EmptyShortPrefix
  | PtExists value => assert_or (len value <=? u16_max) (ValueTooLarge (len value))
  | _ => Ok tt
  end.

(** The body of the node loop of [decode_inner]. *)
Definition read_node (prefix_field : list byte) (index : Z) : decM UrkelError ProofNode :=
  prefix ← (if packed_bit prefix_field index =? 1
            then prefix ← pr_read_prefix;
                 lift_res (assert_or (negb (bp_bit_len prefix =? 0)) EmptyExplicitPrefix) ;;
                 mret prefix
            else mret BitPrefix_default);
  sibling ← pr_read_hash;
  mret (mkNode prefix sibling).

(** [for index in index..index + n] *)
Fixpoint read_nodes (prefix_field : list byte) (index : Z) (n : nat)
  : decM UrkelError (list ProofNode) :=
  match n with
  | O => mret []
  | S n =>
    node ← read_node prefix_field index;
    nodes ← read_nodes prefix_field (index + 1) n;
    mret (node :: nodes)
  end.

(** A two-bit type; the code marks any other value unreachable. *)
Definition read_terminal (proof_type : Z) : decM UrkelError ProofTerminal :=
  if proof_type =? TYPE_DEADEND then mret PtDeadEnd
  else if proof_type =? TYPE_SHORT then
    prefix ← pr_read_prefix;
    lift_res (assert_or (negb (bp_bit_len prefix =? 0)) EmptyShortPrefix) ;;
    l ← pr_read_hash;
    r ← pr_read_hash;
    mret (PtShort prefix l r)
  else if proof_type =? TYPE_COLLISION then
    key ← pr_read_hash;
    value_hash ← pr_read_hash;
    mret (PtCollision key value_hash)
  else
    size ← pr_read_u16;
    value ← pr_read_vec size;
    mret (PtExists value).

Definition read_proof : decM UrkelError HsdUrkelProof :=
  field ← pr_read_u16;
  let proof_type := Z.shiftr field 14 in
  let depth := Z.land field 0x3fff in
  lift_res (assert_or (depth <=? URKEL_BITS) (UrDepth depth)) ;;
  count ← pr_read_u16;
  lift_res (assert_or (count <=? URKEL_BITS) (NodeCount count)) ;;
  prefix_field ← pr_read_vec (div_ceil count 8);
  nodes ← read_nodes prefix_field 0 (Z.to_nat count);
  terminal ← read_terminal proof_type;
  let proof := mkProof depth nodes terminal in
  lift_res (HsdUrkelProof_validate proof) ;;
  mret proof.

Definition HsdUrkelProof_decode_inner (raw : list byte) : result UrkelError (HsdUrkelProof * Z) :=
  assert_or (len raw <=? MAX_HSD_PROOF_SIZE) (UrTooLarge (len raw)) ;;
  match read_proof (Decoder_new raw) with
  | (Ok proof, reader) => Ok (proof, position reader)
  | (Err e, _) => Err e
  end.

Definition HsdUrkelProof_decode_hsd (raw : list byte) : result UrkelError HsdUrkelProof :=
  '(proof, _) ← HsdUrkelProof_decode_inner raw; Ok proof.

Definition terminal_type (t : ProofTerminal) : Z :=
  match t with
  | PtDeadEnd => TYPE_DEADEND
  | PtShort _ _ _ => TYPE_SHORT
  | PtCollision _ _ => TYPE_COLLISION
  | PtExists _ => TYPE_EXISTS
  end.

(** The node loop of [encode]: the bitmap lies inside the growing output. *)
Fixpoint encode_nodes (bitmap_offset index : Z) (nodes : list ProofNode) (raw : list byte)
  : list byte :=
  match nodes with
  | [] => raw
  | node :: nodes =>
    let raw :=
      if negb (bp_bit_len (pn_prefix node) =? 0)
      then BitPrefix_write_hsd (pn_prefix node) (set_packed_bit raw bitmap_offset index 1)
      else raw in
    encode_nodes bitmap_offset (index + 1) nodes (raw ++ pn_sibling node)
  end.

Definition encode_terminal (t : ProofTerminal) (raw : list byte) : list byte :=
  match t with
  | PtDeadEnd => raw
  | PtShort prefix l r => BitPrefix_write_hsd prefix raw ++ l ++ r
  | PtCollision key value_hash => raw ++ key ++ value_hash
  | PtExists value => raw ++ to_le_bytes 2 (wrap 16 (len value)) ++ value
  end.

Definition HsdUrkelProof_encode (p : HsdUrkelProof) : result UrkelError (list byte) :=
  HsdUrkelProof_validate p ;;
  let raw := to_le_bytes 2 (Z.lor (wrap 16 (Z.shiftl (terminal_type (up_terminal p)) 14)) (up_depth p))
    ++ to_le_bytes 2 (wrap 16 (len (up_nodes p))) in
  let bitmap_offset := len raw in
  let raw := raw ++ zeros (Z.to_nat (div_ceil (len (up_nodes p)) 8)) in
  let raw := encode_nodes bitmap_offset 0 (up_nodes p) raw in
  let raw := encode_terminal (up_terminal p) raw in
  assert_or (len raw <=? MAX_HSD_PROOF_SIZE) (UrTooLarge (len raw)) ;;
  Ok raw.

Definition HsdUrkelProof_decode_strict (raw : list byte) : result UrkelError HsdUrkelProof :=
  '(proof, consumed) ← HsdUrkelProof_decode_inner raw;
  assert_or (consumed =? len raw) (UrTrailingBytes (len raw - consumed)) ;;
  encoded ← HsdUrkelProof_encode proof;
  assert_or (bool_decide (encoded = raw)) NonCanonical ;;
  Ok proof.

Definition HsdUrkelProof_kind (p : HsdUrkelProof) : ProofKind :=
  match up_terminal p with PtExists _ => Inclusion | _ => NonInclusion end.

(** ** Verification *)
Section verify.
Context {CR : Crypto}.

Definition leaf_message (key value_hash : list byte) : list byte := [z2b 0] ++ key ++ value_hash.
Definition internal_message (prefix : BitPrefix) (l r : list byte) : list byte :=
  if bp_bit_len prefix =? 0 then [z2b 1] ++ l ++ r
  else [z2b 2] ++ to_le_bytes 2 (wrap 16 (bp_bit_len prefix)) ++ bp_bytes prefix ++ l ++ r.

Definition hash_leaf (key value_hash : list byte) : list byte :=
  blake2b 32 (leaf_message key value_hash).
Definition hash_internal (prefix : BitPrefix) (l r : list byte) : list byte :=
  blake2b 32 (internal_message prefix l r).

Definition terminal_hash (p : HsdUrkelProof) (key : list byte)
  : result UrkelError (list byte * option (list byte)) :=
  match up_terminal p with
  | PtDeadEnd => Ok (zeros 32, None)
  | PtShort prefix l r =>
    assert_or (negb (BitPrefix_matches_key prefix key (up_depth p))) ShortFollowsKey ;;
    Ok (hash_internal prefix l r, None)
  | PtCollision collision value_hash =>
    assert_or (negb (bool_decide (collision = key))) CollisionUsesKey ;;
    Ok (hash_leaf collision value_hash, None)
  | PtExists value => Ok (hash_leaf key (blake2b 32 value), Some value)
  end.

(** One step of the loop over the ancestors, deepest first. *)
Definition ancestor_step (key : list byte) (node : ProofNode) (depth : Z) (hash : list byte)
  : result UrkelError (Z * list byte) :=
  let prefix_bits := bp_bit_len (pn_prefix node) in
  assert_or (negb (depth <? prefix_bits + 1)) AncestorDepth ;;
  let depth := depth - 1 in
  let hash :=
    if key_bit key depth =? 1
    then hash_internal (pn_prefix node) (pn_sibling node) hash
    else hash_internal (pn_prefix node) hash (pn_sibling node) in
  let depth := depth - prefix_bits in
  assert_or (BitPrefix_matches_key (pn_prefix node) key depth) AncestorPrefix ;;
  Ok (depth, hash).

Fixpoint ancestors (key : list byte) (nodes : list ProofNode) (depth : Z) (hash : list byte)
  : result UrkelError (Z * list byte) :=
  match nodes with
  | [] => Ok (depth, hash)
  | node :: nodes =>
    '(depth, hash) ← ancestor_step key node depth hash;
    ancestors key nodes depth hash
  end.

Definition HsdUrkelProof_verify (p : HsdUrkelProof) (expected_root key : list byte)
  : result UrkelError (option (list byte)) :=
  HsdUrkelProof_validate p ;;
  '(hash, value) ← terminal_hash p key;
  '(depth, hash) ← ancestors key (rev (up_nodes p)) (up_depth p) hash;
  assert_or (depth =? 0) (IncompletePath depth) ;;
  assert_or (bool_decide (hash = expected_root)) (RootMismatch expected_root hash) ;;
  Ok value.

Definition verify_with (decode : list byte -> result UrkelError HsdUrkelProof)
    (u : UrkelProof) (root : list byte) : result UrkelError (option (list byte)) :=
  proof ← decode (uk_raw u);
  assert_or (bool_decide (HsdUrkelProof_kind proof = uk_kind u)) KindMismatch ;;
  HsdUrkelProof_verify proof root (uk_name_hash u).

Definition UrkelProof_verify_hsd (u : UrkelProof) (root : list byte) :=
  verify_with HsdUrkelProof_decode_hsd u root.
Definition UrkelProof_verify_strict (u : UrkelProof) (root : list byte) :=
  verify_with HsdUrkelProof_decode_strict u root.

End verify.

(** ** The abstract tree

    A binary radix tree with compressed prefixes: what a root commits to. *)
Inductive tree :=
| TEmpty
| TLeaf (key value : list byte)
| TNode (prefix : BitPrefix) (l r : tree).

(** The value stored for a key in the subtree at a depth. *)
Fixpoint tree_get (t : tree) (key : list byte) (depth : Z) : option (list byte) :=
  match t with
  | TEmpty => None
  | TLeaf k v => if bool_decide (k = key) then Some v else None
  | TNode p l r =>
    if BitPrefix_matches_key p key depth then
      let depth := depth + bp_bit_len p in
      if key_bit key depth =? 1 then tree_get r key (depth + 1) else tree_get l key (depth + 1)
    else None
  end.

(** Prefixes are valid and end inside the key; keys, values have their sizes. *)
Fixpoint tree_wf (t : tree) (depth : Z) : Prop :=
  match t with
  | TEmpty => True
  | TLeaf k v => length k = 32%nat /\ len v <= u16_max
  | TNode p l r =>
    BitPrefix_validate p = Ok tt /\ 0 <= bp_bit_len p /\ depth + bp_bit_len p < URKEL_BITS /\
    tree_wf l (depth + bp_bit_len p + 1) /\ tree_wf r (depth + bp_bit_len p + 1)
  end.

Section reference.
Context {CR : Crypto}.

Fixpoint tree_hash (t : tree) : list byte :=
  match t with
  | TEmpty => zeros 32
  | TLeaf k v => hash_leaf k (blake2b 32 v)
  | TNode p l r => hash_internal p (tree_hash l) (tree_hash r)
  end.

(** The messages hashed to compute a root. *)
Fixpoint tree_messages (t : tree) : list (list byte) :=
  match t with
  | TEmpty => []
  | TLeaf k v => [leaf_message k (blake2b 32 v); v]
  | TNode p l r =>
    internal_message p (tree_hash l) (tree_hash r) :: tree_messages l ++ tree_messages r
  end.

(** The root a proof spells, and the messages hashed on the way: the ancestors
    are listed from the root down. *)
Definition terminal_message (t : ProofTerminal) (key : list byte) : list (list byte) :=
  match t with
  | PtDeadEnd => []
  | PtShort p l r => [internal_message p l r]
  | PtCollision k vh => [leaf_message k vh]
  | PtExists v => [leaf_message key (blake2b 32 v); v]
  end.

Definition branch (key : list byte) (depth : Z) (h sibling : list byte) : list byte * list byte :=
  if key_bit key depth =? 1 then (sibling, h) else (h, sibling).

Fixpoint path_hash (key : list byte) (depth : Z) (nodes : list ProofNode) (hash : list byte)
  : list byte :=
  match nodes with
  | [] => hash
  | n :: nodes =>
    let depth := depth + bp_bit_len (pn_prefix n) in
    let '(l, r) := branch key depth (path_hash key (depth + 1) nodes hash) (pn_sibling n) in
    hash_internal (pn_prefix n) l r
  end.

Fixpoint path_messages (key : list byte) (depth : Z) (nodes : list ProofNode) (hash : list byte)
  : list (list byte) :=
  match nodes with
  | [] => []
  | n :: nodes =>
    let depth := depth + bp_bit_len (pn_prefix n) in
    let '(l, r) := branch key depth (path_hash key (depth + 1) nodes hash) (pn_sibling n) in
    internal_message (pn_prefix n) l r :: path_messages key (depth + 1) nodes hash
  end.

(** The ancestors lead from [depth] to [final] along the key. *)
Fixpoint path_follows (key : list byte) (depth : Z) (nodes : list ProofNode) (final : Z) : Prop :=
  match nodes with
  | [] => depth = final
  | n :: nodes =>
    0 <= depth /\ BitPrefix_matches_key (pn_prefix n) key depth = true /\
    path_follows key (depth + bp_bit_len (pn_prefix n) + 1) nodes final
  end.

Definition proof_messages (p : HsdUrkelProof) (key : list byte) : list (list byte) :=
  match terminal_hash p key with
  | Ok (h, _) => path_messages key 0 (up_nodes p) h ++ terminal_message (up_terminal p) key
  | Err _ => []
  end.

(** The only ways to cheat: two different messages with one digest, or a
    message whose digest is the all-zero hash of an empty subtree. *)
Definition collides (messages : list (list byte)) : Prop :=
  (exists a b, a ∈ messages /\ b ∈ messages /\ a <> b /\ blake2b 32 a = blake2b 32 b) \/
  (exists a, a ∈ messages /\ blake2b 32 a = zeros 32).

(** ** The ancestor loop, read from the root down *)
Lemma ancestors_app key a b depth hash :
  ancestors key (a ++ b) depth hash =
  '(depth, hash) ← ancestors key a depth hash; ancestors key b depth hash.
Proof.
  revert depth hash; induction a as [|n a IH]; intros depth hash; [done|].
  cbn [app ancestors]. destruct (ancestor_step key n depth hash) as [[d h]|e]; [|done].
  cbn [mbind result_bind]. apply IH.
Qed.

Lemma ancestor_step_Ok key n depth hash d h :
  ancestor_step key n depth hash = Ok (d, h) <->
  0 <= d /\ depth = d + bp_bit_len (pn_prefix n) + 1 /\
  BitPrefix_matches_key (pn_prefix n) key d = true /\
  h = (let '(l, r) := branch key (depth - 1) hash (pn_sibling n) in
       hash_internal (pn_prefix n) l r).
Proof.
  unfold ancestor_step, branch. rewrite bind_Ok. setoid_rewrite assert_or_Ok.
  setoid_rewrite bind_Ok. setoid_rewrite assert_or_Ok. setoid_rewrite negb_true_iff.
  setoid_rewrite Z.ltb_ge. destruct (key_bit key (depth - 1) =? 1).
  all: split; [intros (_ & L & _ & M & [= <- <-]); split; [lia|split; [lia|done]]|].
  all: intros (Hd & -> & M & ->); exists tt; split; [lia|]; exists tt.
  all: replace (d + bp_bit_len (pn_prefix n) + 1 - 1 - bp_bit_len (pn_prefix n)) with d by lia; done.
Qed.

Lemma ancestors_path key nodes final hash depth h :
  0 <= final ->
  ancestors key (rev nodes) final hash = Ok (depth, h) <->
  path_follows key depth nodes final /\ h = path_hash key depth nodes hash.
Proof.
  intros Hf. revert depth h; induction nodes as [|n nodes IH]; intros depth h.
  { cbn. split; [by intros [= -> ->]|by intros (-> & ->)]. }
  cbn [rev path_follows path_hash]. rewrite ancestors_app, bind_Ok. split.
  - intros ([d1 h1] & H1 & H2). cbn [ancestors] in H2. rewrite bind_Ok in H2.
    destruct H2 as ([d2 h2] & H2 & [= -> ->]). apply IH in H1 as (F & ->).
    apply ancestor_step_Ok in H2 as (Hd & -> & M & ->). split; [done|].
    by replace (depth + bp_bit_len (pn_prefix n) + 1 - 1)
      with (depth + bp_bit_len (pn_prefix n)) by lia.
  - intros ((Hd & M & F) & ->). exists (depth + bp_bit_len (pn_prefix n) + 1,
      path_hash key (depth + bp_bit_len (pn_prefix n) + 1) nodes hash).
    split; [by apply IH|]. cbn [ancestors]. apply bind_Ok. eexists (depth, _).
    split; [|reflexivity]. apply ancestor_step_Ok. split; [done|]. split; [done|]. split; [done|].
    by replace (depth + bp_bit_len (pn_prefix n) + 1 - 1)
      with (depth + bp_bit_len (pn_prefix n)) by lia.
Qed.

Lemma verify_Ok p root key v :
  0 <= up_depth p ->
  HsdUrkelProof_verify p root key = Ok v <->
  HsdUrkelProof_validate p = Ok tt /\
  exists h, terminal_hash p key = Ok (h, v) /\
    path_follows key 0 (up_nodes p) (up_depth p) /\ root = path_hash key 0 (up_nodes p) h.
Proof.
  intros Hd. unfold HsdUrkelProof_verify. split.
  - intros H. apply bind_Ok in H as ([] & V & H). apply bind_Ok in H as ([h w] & T & H).
    apply bind_Ok in H as ([d h2] & A & H). inv_ok. apply ancestors_path in A as (F & ->); [|done].
    rewrite Z.eqb_eq, bool_decide_eq_true in *. subst. eauto.
  - intros (V & h & T & F & ->). rewrite V, T. cbn [mbind result_bind].
    apply bind_Ok. exists (0, path_hash key 0 (up_nodes p) h). split; [by apply ancestors_path|].
    by rewrite bool_decide_eqb_refl.
Qed.

(** ** Messages determine what they encode *)
Definition prefix_ok (p : BitPrefix) : Prop := 0 <= bp_bit_len p /\ BitPrefix_validate p = Ok tt.

Lemma prefix_ok_bounds p :
  prefix_ok p -> 0 <= bp_bit_len p <= URKEL_BITS /\ len (bp_bytes p) = div_ceil (bp_bit_len p) 8.
Proof.
  intros (H0 & V). unfold BitPrefix_validate in V. inv_ok. rewrite Z.leb_le, Z.eqb_eq in *. done.
Qed.

Lemma leaf_message_inj k v k' v' :
  length k = length k' -> leaf_message k v = leaf_message k' v' -> k = k' /\ v = v'.
Proof. unfold leaf_message. intros L [= E]. by apply app_inj_len. Qed.

Lemma wrap16_small v : 0 <= v <= URKEL_BITS -> wrap 16 v = v.
Proof. unfold wrap, URKEL_BITS. intros. apply Z.mod_small. change (2 ^ 16) with 65536. lia. Qed.

Lemma no_bits (bs : list byte) : len bs = div_ceil 0 8 -> bs = [].
Proof. destruct bs as [|b bs]; [done|]. rewrite len_cons. pose proof (len_nonneg bs).
  change (div_ceil 0 8) with 0. lia.
Qed.

Lemma internal_message_inj p l r p' l' r' :
  prefix_ok p -> prefix_ok p' -> length l = length l' ->
  internal_message p l r = internal_message p' l' r' -> p = p' /\ l = l' /\ r = r'.
Proof.
  intros P P' L E. apply prefix_ok_bounds in P as (B & S), P' as (B' & S').
  destruct p as [n bs], p' as [n' bs']. unfold internal_message in E. cbn [bp_bit_len bp_bytes] in *.
  destruct (Z.eqb_spec n 0) as [->|], (Z.eqb_spec n' 0) as [->|]; try done.
  - injection E as E. apply app_inj_len in E as (-> & ->); [|done].
    by rewrite (no_bits bs S), (no_bits bs' S').
  - apply (f_equal (drop 1)) in E. cbn [app drop] in E. rewrite !wrap16_small in E by done.
    apply app_inj_len in E as (E1 & E); [|by rewrite !length_to_le_bytes].
    apply (f_equal from_le_bytes) in E1. unfold URKEL_BITS in *.
    rewrite !from_to_le_bytes_small in E1 by (change (256 ^ Z.of_nat 2) with 65536; lia). subst n'.
    apply app_inj_len in E as (-> & E); [|unfold len in *; lia].
    by apply app_inj_len in E as (-> & ->).
Qed.

Lemma internal_not_leaf p l r k v : internal_message p l r <> leaf_message k v.
Proof. unfold internal_message, leaf_message. by destruct (_ =? 0). Qed.

Lemma same_digest M a b :
  a ∈ M -> b ∈ M -> blake2b 32 a = blake2b 32 b -> a = b \/ collides M.
Proof.
  intros Ha Hb E. destruct (decide (a = b)) as [|N]; [by left|]. right. left. by exists a, b.
Qed.

Lemma zero_digest M a : a ∈ M -> blake2b 32 a = zeros 32 -> collides M.
Proof. intros Ha E. right. by exists a. Qed.

Lemma length_tree_hash t : length (tree_hash t) = 32%nat.
Proof. destruct t; [done|apply blake2b_length..]. Qed.

(** ** Soundness against a tree *)
Definition terminal_wf (t : ProofTerminal) : Prop :=
  match t with
  | PtDeadEnd => True
  | PtShort p l r => prefix_ok p /\ length l = 32%nat /\ length r = 32%nat
  | PtCollision k vh => length k = 32%nat /\ length vh = 32%nat
  | PtExists v => len v <= u16_max
  end.
Definition node_wf (n : ProofNode) : Prop := prefix_ok (pn_prefix n) /\ length (pn_sibling n) = 32%nat.

(** A terminal that meets the hash of a subtree speaks for that subtree. *)
Lemma terminal_sound p key h v t M :
  length key = 32%nat -> terminal_wf (up_terminal p) -> tree_wf t (up_depth p) ->
  terminal_hash p key = Ok (h, v) -> h = tree_hash t ->
  terminal_message (up_terminal p) key ⊆ M -> tree_messages t ⊆ M ->
  v = tree_get t key (up_depth p) \/ collides M.
Proof.
  intros Hk Wt Wr T E Sp St. unfold terminal_hash, hash_internal, hash_leaf in T.
  destruct (up_terminal p) as [|pr l r|k vh|value]; cbn [terminal_message terminal_wf] in *;
    inv_ok; destruct t as [|k' v'|p' l' r']; cbn [tree_hash tree_messages tree_get tree_wf] in *;
    unfold hash_leaf, hash_internal in E.
  all: try (right; eapply zero_digest; [|by symmetry]; set_solver).
  all: try (right; eapply zero_digest; [|done]; set_solver).
  all: try (by left).
  all: try (apply (same_digest M) in E as [E|]; [|by right|set_solver|set_solver]).
  all: try (by apply internal_not_leaf in E).
  all: try (by symmetry in E; apply internal_not_leaf in E).
  - (* a short node that is not on the key *)
    left. apply internal_message_inj in E as (<- & _); [|apply Wt|split; apply Wr|].
    + match goal with H : negb _ = true |- _ => apply negb_true_iff in H as -> end. done.
    + rewrite length_tree_hash. apply Wt.
  - (* a leaf of another key *)
    left. apply leaf_message_inj in E as (<- & _); [|destruct Wt, Wr; congruence].
    match goal with H : negb _ = true |- _ => apply negb_true_iff in H as -> end. done.
  - (* the leaf of the key *)
    apply leaf_message_inj in E as (<- & E); [|destruct Wr; congruence].
    apply (same_digest M) in E as [->|]; [|by right|set_solver|set_solver].
    left. by rewrite bool_decide_eqb_refl.
Qed.

Lemma path_sound p key h v nodes depth t M :
  length key = 32%nat -> terminal_wf (up_terminal p) -> Forall node_wf nodes ->
  tree_wf t depth -> terminal_hash p key = Ok (h, v) ->
  path_follows key depth nodes (up_depth p) -> path_hash key depth nodes h = tree_hash t ->
  path_messages key depth nodes h ⊆ M -> terminal_message (up_terminal p) key ⊆ M ->
  tree_messages t ⊆ M ->
  v = tree_get t key depth \/ collides M.
Proof.
  intros Hk Wt Wn. revert depth t. induction Wn as [|n nodes (Wp & Ws) Wn IH];
    intros depth t Wr T F E Sp Sm St.
  { cbn in F, E. subst depth. by eapply terminal_sound. }
  cbn [path_follows path_hash path_messages] in *. destruct F as (Hd & Mt & F).
  destruct (branch key _ _ (pn_sibling n)) as [bl br] eqn:B.
  assert (internal_message (pn_prefix n) bl br ∈ M) as Hm by set_solver.
  destruct t as [|k' v'|p' l' r']; cbn [tree_hash tree_messages tree_get tree_wf] in *.
  - right. by eapply zero_digest.
  - apply (same_digest M) in E as [E|]; [|by right|done|set_solver].
    by apply internal_not_leaf in E.
  - apply (same_digest M) in E as [E|]; [|by right|done|set_solver].
    destruct Wr as (V' & Hp' & _ & Wl & Wr).
    assert (length bl = 32%nat) as Lb.
    { unfold branch in B. destruct (_ =? 1); simplify_eq; [done|].
      destruct nodes as [|n2 nodes]; cbn [path_hash].
      - unfold terminal_hash in T. destruct (up_terminal p); inv_ok; try done; apply blake2b_length.
      - destruct (branch _ _ _ _). apply blake2b_length. }
    apply internal_message_inj in E as (<- & -> & ->); [|done|done|by rewrite length_tree_hash].
    rewrite Mt. unfold branch in B.
    destruct (key_bit key (depth + bp_bit_len (pn_prefix n)) =? 1); injection B as ? ?.
    + apply IH; try done; set_solver.
    + apply IH; try done; set_solver.
Qed.

(** ** Every tree has proofs *)
Fixpoint prove (t : tree) (key : list byte) (depth : Z) : HsdUrkelProof :=
  match t with
  | TEmpty => mkProof depth [] PtDeadEnd
  | TLeaf k v =>
    mkProof depth [] (if bool_decide (k = key) then PtExists v else PtCollision k (blake2b 32 v))
  | TNode p l r =>
    if BitPrefix_matches_key p key depth then
      let depth := depth + bp_bit_len p in
      if key_bit key depth =? 1 then
        let q := prove r key (depth + 1) in
        mkProof (up_depth q) (mkNode p (tree_hash l) :: up_nodes q) (up_terminal q)
      else
        let q := prove l key (depth + 1) in
        mkProof (up_depth q) (mkNode p (tree_hash r) :: up_nodes q) (up_terminal q)
    else mkProof depth [] (PtShort p (tree_hash l) (tree_hash r))
  end.

Lemma validate_nodes_Ok nodes :
  validate_nodes nodes = Ok tt <-> Forall (fun n => BitPrefix_validate (pn_prefix n) = Ok tt) nodes.
Proof.
  induction nodes as [|n nodes IH]; [done|]. cbn [validate_nodes]. rewrite bind_Ok, Forall_cons, <- IH.
  split; [by intros ([] & ? & ?)|intros (? & ?); by exists tt].
Qed.

(** What [validate] asks of the terminal. *)
Definition terminal_valid (t : ProofTerminal) : Prop :=
  match t with
  | PtShort p _ _ => BitPrefix_validate p = Ok tt /\ bp_bit_len p <> 0
  | PtExists v => len v <= u16_max
  | _ => True
  end.

Lemma proof_validate_Ok p :
  HsdUrkelProof_validate p = Ok tt <->
  up_depth p <= URKEL_BITS /\ len (up_nodes p) <= URKEL_BITS /\
  Forall (fun n => BitPrefix_validate (pn_prefix n) = Ok tt) (up_nodes p) /\
  terminal_valid (up_terminal p).
Proof.
  unfold HsdUrkelProof_validate. rewrite <- validate_nodes_Ok. split.
  - intros H. inv_ok. rewrite !Z.leb_le in *. repeat match goal with u : unit |- _ => destruct u end.
    split; [done|]. split; [done|]. split; [done|].
    destruct (up_terminal p); cbn [terminal_valid]; try done.
    + apply bind_Ok in H as ([] & V & H). apply assert_or_Ok, negb_true_iff, Z.eqb_neq in H. done.
    + apply assert_or_Ok, Z.leb_le in H. done.
  - intros (D & N & V & T). apply Z.leb_le in D, N. rewrite D, N, V. cbn [assert_or mbind result_bind].
    destruct (up_terminal p); cbn [terminal_valid] in T; try done.
    + destruct T as (-> & T). apply Z.eqb_neq in T. cbn. by rewrite T.
    + apply Z.leb_le in T. by rewrite T.
Qed.

Lemma matches_nothing p key depth :
  bp_bit_len p = 0 -> 0 <= depth <= URKEL_BITS -> BitPrefix_matches_key p key depth = true.
Proof.
  intros E D. unfold BitPrefix_matches_key, checked_add, URKEL_BITS in *. rewrite E, Z.add_0_r.
  rewrite (proj2 (Z.leb_le _ usize_max)) by ulia. rewrite (proj2 (Z.leb_le _ _)) by lia. done.
Qed.

Lemma prove_spec t key depth :
  0 <= depth <= URKEL_BITS -> tree_wf t depth ->
  let p := prove t key depth in
  (depth <= up_depth p <= URKEL_BITS /\ len (up_nodes p) <= up_depth p - depth /\
   Forall (fun n => BitPrefix_validate (pn_prefix n) = Ok tt) (up_nodes p) /\
   terminal_valid (up_terminal p)) /\
  path_follows key depth (up_nodes p) (up_depth p) /\
  exists h, terminal_hash p key = Ok (h, tree_get t key depth) /\
    path_hash key depth (up_nodes p) h = tree_hash t.
Proof.
  revert depth; induction t as [|k v|p l IHl r IHr]; intros depth D W; cbn [prove tree_wf] in *;
    cbv zeta.
  - cbn. split; [split; [lia|]; split; [rewrite len_nil; lia|done]|]. split; [done|]. eauto.
  - unfold terminal_hash. cbn [tree_get tree_hash]. case_bool_decide as Ek; cbn.
    + subst k. split; [split; [lia|]; split; [rewrite len_nil; lia|split; [constructor|apply W]]|].
      split; [done|]. eauto.
    + split; [split; [lia|]; split; [rewrite len_nil; lia|split; [constructor|done]]|].
      split; [done|]. rewrite bool_decide_eq_false_2 by done. eauto.
  - destruct W as (V & Hp & Hb & Wl & Wr). cbn [tree_get tree_hash].
    destruct (BitPrefix_matches_key p key depth) eqn:M.
    + destruct (key_bit key (depth + bp_bit_len p) =? 1) eqn:K;
        [destruct (IHr (depth + bp_bit_len p + 1)) as ((Q1 & Q2 & Q3 & Q4) & F & h & T & E)
        |destruct (IHl (depth + bp_bit_len p + 1)) as ((Q1 & Q2 & Q3 & Q4) & F & h & T & E)];
        try done; try lia; cbn [up_depth up_nodes up_terminal].
      all: split; [split; [lia|]; split; [rewrite len_cons; lia|by split; [constructor|]]|].
      all: cbn [path_follows path_hash pn_prefix pn_sibling]; split; [split; [lia|done]|].
      all: exists h; split; [exact T|]; unfold branch; by rewrite K, E.
    + unfold terminal_hash. cbn. rewrite M.
      assert (bp_bit_len p <> 0) by (intros E; by rewrite matches_nothing in M).
      split; [split; [lia|]; split; [rewrite len_nil; lia|done]|]. split; [done|]. eauto.
Qed.

(** ** Properties of verification *)

(** C1. Soundness against a tree: when the root is the hash of a well-formed
    Urkel tree, a proof that verifies for a key returns exactly what the tree
    holds for that key (its value, or nothing), unless the messages hashed by
    this verification and by the tree itself contain a BLAKE2b collision or a
    preimage of the all-zero hash. *)
Theorem urkel_verify_sound p key t v
    (Hk : length key = 32%nat) (Wn : Forall node_wf (up_nodes p))
    (Wt : terminal_wf (up_terminal p)) (Hd : 0 <= up_depth p) (Wr : tree_wf t 0)
    (V : HsdUrkelProof_verify p (tree_hash t) key = Ok v) :
  v = tree_get t key 0 \/ collides (proof_messages p key ++ tree_messages t).
Proof.
  apply verify_Ok in V as (_ & h & T & F & E); [|done].
  unfold proof_messages. rewrite T. eapply path_sound; try done; set_solver.
Qed.

(** Completeness: every well-formed tree has, for every key, a proof that
    verifies against its root and returns what the tree holds for the key. *)
Theorem urkel_verify_complete t key (Wr : tree_wf t 0) :
  HsdUrkelProof_verify (prove t key 0) (tree_hash t) key = Ok (tree_get t key 0).
Proof.
  destruct (prove_spec t key 0 ltac:(unfold URKEL_BITS; lia) Wr)
    as ((D & N & Vn & Vt) & F & h & T & E).
  apply verify_Ok; [lia|]. split; [apply proof_validate_Ok; repeat split; try done; lia|].
  exists h. done.
Qed.

End reference.

(** ** The reader *)
Definition reader_error (e : DecodeError) : UrkelError :=
  match e with UnexpectedEnd offset _ => UrUnexpectedEnd offset | _ => OffsetOverflow end.

Lemma pr_slice_eq n d : pr_read_slice n d = lift_err reader_error (read_slice n) d.
Proof.
  unfold pr_read_slice, lift_err, read_slice. destruct (checked_add usize_max (position d) n) as [e|]; [|done].
  destruct (Z.leb_spec e (len (input d))), (Z.ltb_spec (len (input d)) e); done || lia.
Qed.

Lemma pr_slice_reads d n bs : len bs = n -> reads d (pr_read_slice n) bs bs.
Proof. intros L r W R. rewrite pr_slice_eq. by apply (reads_err _ _ _ _ _ (read_slice_reads d n bs L) r). Qed.

Lemma pr_slice_inv n d v d' :
  0 <= n -> dec_wf d -> pr_read_slice n d = (Ok v, d') -> took d v d' /\ len v = n.
Proof. intros Hn W H. rewrite pr_slice_eq in H. apply lift_err_Ok in H. by apply read_slice_inv. Qed.

Lemma pr_u16_reads d v : u16 v -> reads d pr_read_u16 (to_le_bytes 2 v) v.
Proof.
  intros Hv. unfold pr_read_u16. eapply reads_last; [by apply pr_slice_reads, len_to_le_bytes|].
  rewrite from_to_le_bytes_small by (change (256 ^ Z.of_nat 2) with 65536; ulia). apply reads_ret.
Qed.

Lemma pr_u16_inv d v d' : dec_wf d -> pr_read_u16 d = (Ok v, d') -> dec_wf d' /\ u16 v.
Proof.
  intros W H. unfold pr_read_u16 in H. dbind H as x d1 Hx. inv_dec.
  apply pr_slice_inv in Hx as (T & L); [|lia|done].
  split; [by eapply took_wf|]. pose proof (from_le_bytes_range x). rewrite L in *. ulia.
Qed.

Lemma pr_u8_reads d b : reads d pr_read_u8 [b] b.
Proof.
  intros r W R. unfold pr_read_u8, get. destruct W as (P & _).
  assert (input d !! Z.to_nat (position d) = Some b) as ->; [|by rewrite len_cons, len_nil].
  unfold rest in R. rewrite <- (Nat.add_0_r (Z.to_nat (position d))), <- lookup_drop, R. done.
Qed.

Lemma pr_u8_wf d b d' : dec_wf d -> pr_read_u8 d = (Ok b, d') -> dec_wf d'.
Proof.
  intros (P & L) H. unfold pr_read_u8, get in H.
  destruct (input d !! Z.to_nat (position d)) eqn:E; [|done]. injection H as <- <-.
  apply lookup_lt_Some in E. unfold dec_wf, len in *. cbn. lia.
Qed.

(** ** Prefixes *)
Definition prefix_bytes (p : BitPrefix) : list byte :=
  (if 0x80 <=? bp_bit_len p then [z2b (Z.lor 0x80 (Z.shiftr (bp_bit_len p) 8))] else [])
  ++ [z2b (bp_bit_len p)] ++ bp_bytes p.

Lemma write_prefix p out : BitPrefix_write_hsd p out = out ++ prefix_bytes p.
Proof.
  unfold BitPrefix_write_hsd, prefix_bytes. destruct (0x80 <=? bp_bit_len p); [by rewrite <- app_assoc|done].
Qed.

(** The one- and two-byte length headers, checked for all 257 lengths. *)
Definition header_ok (n : Z) : bool :=
  let first := z2b (Z.lor 0x80 (Z.shiftr n 8)) in
  if 0x80 <=? n
  then negb (Z.land (b2z first) 0x80 =? 0) &&
       (Z.lor (Z.shiftl (Z.land (b2z first) 0x7f) 8) (b2z (z2b n)) =? n)
  else (Z.land (b2z (z2b n)) 0x80 =? 0) && (b2z (z2b n) =? n).

Lemma range_elem n i : i ∈ range n <-> 0 <= i < n.
Proof.
  unfold range. rewrite list_elem_of_fmap. setoid_rewrite elem_of_seq. split.
  - intros (k & -> & ?). lia.
  - intros. exists (Z.to_nat i). lia.
Qed.

Lemma header_all n : 0 <= n <= URKEL_BITS -> header_ok n = true.
Proof.
  intros H. assert (forallb header_ok (range 257) = true) as A by (vm_compute; reflexivity).
  rewrite forallb_forall in A. apply A, list_elem_of_In, range_elem. unfold URKEL_BITS in H. lia.
Qed.

Lemma div_ceil_nonneg n : 0 <= n -> 0 <= div_ceil n 8.
Proof. intros. unfold div_ceil. apply Z.div_pos; lia. Qed.

Lemma read_prefix_reads d p : prefix_ok p -> reads d pr_read_prefix (prefix_bytes p) p.
Proof.
  intros P. assert (V := proj2 P). apply prefix_ok_bounds in P as (B & S).
  pose proof (header_all _ B) as A. unfold header_ok in A. cbv zeta in A.
  assert (forall d, reads d (lift_res (assert_or (bp_bit_len p <=? URKEL_BITS) (PrefixLength (bp_bit_len p))) ;;
    bytes ← pr_read_vec (div_ceil (bp_bit_len p) 8);
    lift_res (BitPrefix_validate (mkPrefix (wrap 16 (bp_bit_len p)) bytes)) ;;
    mret (mkPrefix (wrap 16 (bp_bit_len p)) bytes)) (bp_bytes p) p) as Tail.
  { intros d0. eapply reads_nil_bind; [apply reads_assert, Z.leb_le; lia|].
    eapply reads_last; [by apply pr_slice_reads|]. rewrite wrap16_small by done.
    destruct p as [n bs]. cbn [bp_bit_len bp_bytes] in *.
    eapply reads_nil_bind; [apply reads_res, V|apply reads_ret]. }
  unfold pr_read_prefix, prefix_bytes. destruct (Z.leb_spec 0x80 (bp_bit_len p)).
  - apply andb_true_iff in A as (A1 & A2). rewrite Z.eqb_eq in A2.
    eapply reads_bind; [apply pr_u8_reads|]. rewrite A1. eapply reads_bind.
    { eapply reads_last; [apply pr_u8_reads|]. rewrite A2. apply reads_ret. }
    apply Tail.
  - apply andb_true_iff in A as (A1 & A2). rewrite Z.eqb_eq in A2.
    eapply (reads_bind _ _ _ [_]); [apply pr_u8_reads|]. rewrite A1. cbn [negb].
    eapply reads_nil_bind; [apply reads_ret|]. rewrite A2. apply Tail.
Qed.

Lemma read_prefix_inv d p d' : dec_wf d -> pr_read_prefix d = (Ok p, d') -> dec_wf d' /\ prefix_ok p.
Proof.
  intros W H. unfold pr_read_prefix in H. dbind H as f d1 Hf. apply pr_u8_wf in Hf as W1; [|done].
  dbind H as n d2 Hn. pose proof (b2z_range f).
  assert (dec_wf d2 /\ 0 <= n) as (W2 & N0).
  { destruct (negb _).
    - dbind Hn as s d3 Hs. apply pr_u8_wf in Hs as W3; [|done]. inv_dec. split; [done|].
      apply Z.lor_nonneg. split; [apply Z.shiftl_nonneg, Z.land_nonneg; lia|pose proof (b2z_range s); lia].
    - inv_dec. split; [done|lia]. }
  dbind H as u d3 Hu. apply assert_or_Ok, Z.leb_le in Hu.
  dbind H as bs d4 Hb. apply pr_slice_inv in Hb as (T & L); [|by apply div_ceil_nonneg|done].
  dbind H as u2 d5 Hv. inv_dec. destruct u2. split; [by eapply took_wf|]. split; [|done].
  cbn. unfold wrap. apply Z.mod_pos_bound. lia.
Qed.

(** ** The bitmap *)
Lemma packed_bit_testbit bs i :
  packed_bit bs i = Z.b2z (Z.testbit (b2z (default x00 (get bs (i / 8)))) (7 - i mod 8)).
Proof.
  unfold packed_bit. pose proof (Z.mod_pos_bound i 8).
  rewrite (Z.land_ones _ 1) by lia. change (2 ^ 1) with 2.
  rewrite <- Z.bit0_mod, Z.shiftr_spec by lia. by rewrite Z.add_0_l.
Qed.

Lemma length_set_packed_bit bs o i b : length (set_packed_bit bs o i b) = length bs.
Proof. unfold set_packed_bit. apply length_alter. Qed.

Lemma packed_bit_set bs i j :
  0 <= i < 8 * len bs -> 0 <= j ->
  packed_bit (set_packed_bit bs 0 i 1) j = if i =? j then 1 else packed_bit bs j.
Proof.
  intros Hi Hj. rewrite !packed_bit_testbit. unfold set_packed_bit, get. rewrite Z.add_0_l.
  pose proof (Z.mod_pos_bound i 8). pose proof (Z.mod_pos_bound j 8).
  pose proof (Z.div_mod i 8). pose proof (Z.div_mod j 8).
  destruct (decide (i / 8 = j / 8)) as [E|N].
  - rewrite E, list_lookup_alter_eq. destruct (lookup_lt_is_Some_2 bs (Z.to_nat (j / 8))) as (b & ->).
    { unfold len in *. lia. }
    cbn [fmap option_fmap option_map default from_option id]. rewrite b2z_z2b. change 256 with (2 ^ 8).
    rewrite Z.mod_pow2_bits_low, Z.lor_spec, Z.shiftl_1_l, Z.pow2_bits_eqb by lia.
    destruct (Z.eqb_spec i j) as [->|].
    + by rewrite Z.eqb_refl, orb_true_r.
    + destruct (Z.eqb_spec (7 - i mod 8) (7 - j mod 8)); [lia|]. by rewrite orb_false_r.
  - rewrite list_lookup_alter_ne by (pose proof (Z.div_pos i 8); pose proof (Z.div_pos j 8); lia).
    destruct (Z.eqb_spec i j) as [->|]; [lia|done].
Qed.

Lemma packed_bit_zeros n j : packed_bit (zeros n) j = 0.
Proof.
  rewrite packed_bit_testbit. unfold get, zeros.
  destruct (replicate n x00 !! Z.to_nat (j / 8)) eqn:E.
  - apply lookup_replicate in E as (-> & _). cbn. by rewrite Z.testbit_0_l.
  - cbn. by rewrite Z.testbit_0_l.
Qed.

Definition explicit (n : ProofNode) : bool := negb (bp_bit_len (pn_prefix n) =? 0).

Fixpoint mark (index : Z) (nodes : list ProofNode) (bitmap : list byte) : list byte :=
  match nodes with
  | [] => bitmap
  | n :: nodes => mark (index + 1) nodes (if explicit n then set_packed_bit bitmap 0 index 1 else bitmap)
  end.

Lemma length_mark i ns bm : length (mark i ns bm) = length bm.
Proof.
  revert i bm; induction ns as [|n ns IH]; intros i bm; [done|]. cbn [mark]. rewrite IH.
  destruct (explicit n); [apply length_set_packed_bit|done].
Qed.

Lemma mark_before i ns bm j :
  0 <= j < i -> i + len ns <= 8 * len bm -> packed_bit (mark i ns bm) j = packed_bit bm j.
Proof.
  revert i bm; induction ns as [|n ns IH]; intros i bm Hj L; [done|]. cbn [mark]. rewrite len_cons in L.
  pose proof (len_nonneg ns). rewrite IH; [|lia|].
  - destruct (explicit n); [|done]. rewrite packed_bit_set by lia. destruct (Z.eqb_spec i j); [lia|done].
  - destruct (explicit n); [|lia]. unfold len. rewrite length_set_packed_bit. unfold len in *. lia.
Qed.

Definition node_bytes (n : ProofNode) : list byte :=
  (if explicit n then prefix_bytes (pn_prefix n) else []) ++ pn_sibling n.

Lemma encode_nodes_eq off i ns pre bm body :
  len pre = off -> 0 <= i -> i + len ns <= 8 * len bm ->
  encode_nodes off i ns (pre ++ bm ++ body) =
  pre ++ mark i ns bm ++ body ++ mjoin (node_bytes <$> ns).
Proof.
  intros <- Hi. revert i bm body Hi; induction ns as [|n ns IH]; intros i bm body Hi L.
  { cbn. by rewrite app_nil_r. }
  cbn [encode_nodes mark]. rewrite len_cons in L. pose proof (len_nonneg ns).
  rewrite fmap_cons', join_cons. unfold node_bytes at 1, explicit.
  destruct (negb (bp_bit_len (pn_prefix n) =? 0)).
  - rewrite write_prefix.
    assert (set_packed_bit (pre ++ bm ++ body) (len pre) i 1 = pre ++ set_packed_bit bm 0 i 1 ++ body) as ->.
    { unfold set_packed_bit. pose proof (Z.div_pos i 8). pose proof (Z.div_lt_upper_bound i 8 (len bm)).
      pose proof (len_nonneg bm). unfold len in *.
      replace (Z.to_nat (Z.of_nat (length pre) + i / 8)) with (length pre + Z.to_nat (i / 8))%nat by lia.
      rewrite alter_app_r, alter_app_l by lia. done. }
    rewrite <- !app_assoc. rewrite IH; [by rewrite <- !app_assoc|lia|].
    unfold len. rewrite length_set_packed_bit. unfold len in *. lia.
  - rewrite <- !app_assoc. rewrite IH; [by rewrite <- ?app_assoc|lia|lia].
Qed.

(** ** Nodes *)
Lemma read_node_reads field i d n :
  node_wf n -> (packed_bit field i =? 1) = explicit n ->
  (explicit n = false -> pn_prefix n = BitPrefix_default) ->
  reads d (read_node field i) (node_bytes n) n.
Proof.
  intros (Wp & Ws) B D. unfold read_node, node_bytes. rewrite B. unfold explicit in *.
  eapply reads_bind.
  - destruct (negb (bp_bit_len (pn_prefix n) =? 0)) eqn:E.
    + eapply reads_last; [by apply read_prefix_reads|].
      eapply reads_nil_bind; [by apply reads_assert|apply reads_ret].
    + rewrite D by done. apply reads_ret.
  - eapply reads_last; [apply pr_slice_reads; unfold len; lia|]. destruct n. apply reads_ret.
Qed.

Lemma implicit_prefix n : node_wf n -> explicit n = false -> pn_prefix n = BitPrefix_default.
Proof.
  intros (P & _) E. apply prefix_ok_bounds in P as (_ & S). unfold explicit in E.
  apply negb_false_iff, Z.eqb_eq in E. rewrite E in S. destruct (pn_prefix n) as [k bs].
  cbn in *. subst k. by rewrite (no_bits bs).
Qed.

Lemma read_nodes_reads field i d ns bm :
  0 <= i -> Forall node_wf ns -> i + len ns <= 8 * len bm ->
  (forall j, i <= j -> packed_bit bm j = 0) -> field = mark i ns bm ->
  reads d (read_nodes field i (length ns)) (mjoin (node_bytes <$> ns)) ns.
Proof.
  intros Hi W. revert i d bm Hi; induction W as [|n ns Wn W IH]; intros i d bm Hi L Hz ->; [apply reads_ret|].
  cbn [length read_nodes]. rewrite fmap_cons', join_cons. rewrite len_cons in L. pose proof (len_nonneg ns).
  assert (len (if explicit n then set_packed_bit bm 0 i 1 else bm) = len bm) as Lb.
  { destruct (explicit n); [|done]. unfold len. by rewrite length_set_packed_bit. }
  eapply reads_bind; [apply read_node_reads; [done| |by apply implicit_prefix]|].
  - cbn [mark]. rewrite mark_before by lia.
    destruct (explicit n); [rewrite packed_bit_set by lia; by rewrite Z.eqb_refl|by rewrite Hz by lia].
  - eapply reads_last; [|apply reads_ret]. cbn [mark].
    eapply (IH (i + 1) _ (if explicit n then set_packed_bit bm 0 i 1 else bm)); [lia|lia| |done].
    intros j Hj. destruct (explicit n); [|apply Hz; lia]. rewrite packed_bit_set by lia.
    destruct (Z.eqb_spec i j); [lia|apply Hz; lia].
Qed.

(** ** Whole proofs *)
Definition proof_wf (p : HsdUrkelProof) : Prop :=
  0 <= up_depth p /\ Forall node_wf (up_nodes p) /\ terminal_wf (up_terminal p).

Definition proof_field (p : HsdUrkelProof) : Z :=
  Z.lor (wrap 16 (Z.shiftl (terminal_type (up_terminal p)) 14)) (up_depth p).
Definition term_bytes (t : ProofTerminal) : list byte :=
  match t with
  | PtDeadEnd => []
  | PtShort p l r => prefix_bytes p ++ l ++ r
  | PtCollision k vh => k ++ vh
  | PtExists v => to_le_bytes 2 (wrap 16 (len v)) ++ v
  end.
Definition bitmap_of (ns : list ProofNode) : list byte :=
  mark 0 ns (zeros (Z.to_nat (div_ceil (len ns) 8))).
Definition proof_bytes (p : HsdUrkelProof) : list byte :=
  to_le_bytes 2 (proof_field p) ++ to_le_bytes 2 (wrap 16 (len (up_nodes p))) ++
  bitmap_of (up_nodes p) ++ mjoin (node_bytes <$> up_nodes p) ++ term_bytes (up_terminal p).

Lemma encode_terminal_eq t raw : encode_terminal t raw = raw ++ term_bytes t.
Proof.
  destruct t; cbn [encode_terminal term_bytes]; rewrite ?write_prefix, ?app_nil_r, <- ?app_assoc; done.
Qed.

Lemma div_ceil_8 n : 0 <= n -> n <= 8 * div_ceil n 8.
Proof.
  intros. unfold div_ceil. pose proof (Z.div_mod (n + 8 - 1) 8). pose proof (Z.mod_pos_bound (n + 8 - 1) 8).
  lia.
Qed.

Lemma len_zeros n : len (zeros n) = Z.of_nat n.
Proof. unfold len, zeros. by rewrite length_replicate. Qed.

Lemma bitmap_room (ns : list ProofNode) : 0 + len ns <= 8 * len (zeros (Z.to_nat (div_ceil (len ns) 8))).
Proof.
  rewrite len_zeros. pose proof (len_nonneg ns). pose proof (div_ceil_8 (len ns)).
  pose proof (div_ceil_nonneg (len ns)). lia.
Qed.

Lemma encode_proof_Ok p raw :
  HsdUrkelProof_encode p = Ok raw <->
  HsdUrkelProof_validate p = Ok tt /\ raw = proof_bytes p /\ len raw <= MAX_HSD_PROOF_SIZE.
Proof.
  unfold HsdUrkelProof_encode. cbv zeta. fold (proof_field p).
  set (pre := to_le_bytes 2 (proof_field p) ++ _).
  assert (encode_terminal (up_terminal p) (encode_nodes (len pre) 0 (up_nodes p)
    (pre ++ zeros (Z.to_nat (div_ceil (len (up_nodes p)) 8)))) = proof_bytes p) as ->.
  { rewrite encode_terminal_eq, <- (app_nil_r (zeros _)).
    rewrite encode_nodes_eq by (done || apply bitmap_room).
    unfold proof_bytes, pre, bitmap_of. cbn [app]. by rewrite <- !app_assoc. }
  rewrite bind_Ok. setoid_rewrite bind_Ok. setoid_rewrite assert_or_Ok. setoid_rewrite Z.leb_le. split.
  - intros ([] & V & _ & L & [= <-]). done.
  - intros (V & -> & L). exists tt. split; [done|]. by exists tt.
Qed.

Lemma field_split p :
  0 <= up_depth p <= URKEL_BITS ->
  u16 (proof_field p) /\ Z.shiftr (proof_field p) 14 = terminal_type (up_terminal p) /\
  Z.land (proof_field p) 0x3fff = up_depth p.
Proof.
  intros D. unfold URKEL_BITS in D.
  assert (0 <= terminal_type (up_terminal p) <= 3) as T
    by (destruct (up_terminal p); split; vm_compute; congruence).
  assert (proof_field p = terminal_type (up_terminal p) * 2 ^ 14 + up_depth p) as ->.
  { unfold proof_field, wrap. rewrite Z.mod_small.
    - apply lor_shiftl_add; [lia|]. change (2 ^ 14) with 16384. lia.
    - rewrite Z.shiftl_mul_pow2 by lia. change (2 ^ 14) with 16384. change (2 ^ 16) with 65536. lia. }
  change 0x3fff with (Z.ones 14). rewrite Z.land_ones, Z.shiftr_div_pow2 by lia.
  change (2 ^ 14) with 16384. split; [ulia|]. split.
  - rewrite Z.div_add_l, Z.div_small by lia. lia.
  - rewrite Z.add_comm, Z_mod_plus_full. apply Z.mod_small. lia.
Qed.

Lemma read_terminal_reads d t :
  terminal_wf t -> terminal_valid t -> reads d (read_terminal (terminal_type t)) (term_bytes t) t.
Proof.
  intros W V. destruct t as [|p l r|k vh|v]; cbn [terminal_type terminal_wf terminal_valid term_bytes] in *.
  - apply reads_ret.
  - destruct W as (Wp & Ll & Lr), V as (_ & V). eapply reads_bind; [by apply read_prefix_reads|].
    eapply reads_nil_bind; [apply reads_assert, negb_true_iff; by apply Z.eqb_neq|].
    eapply reads_bind; [apply pr_slice_reads; unfold len; lia|].
    eapply reads_last; [apply pr_slice_reads; unfold len; lia|apply reads_ret].
  - destruct W as (Lk & Lv). eapply reads_bind; [apply pr_slice_reads; unfold len; lia|].
    eapply reads_last; [apply pr_slice_reads; unfold len; lia|apply reads_ret].
  - pose proof (len_nonneg v). unfold wrap. rewrite Z.mod_small by (change (2 ^ 16) with 65536; ulia).
    eapply reads_bind; [apply pr_u16_reads; ulia|].
    eapply reads_last; [by apply pr_slice_reads|apply reads_ret].
Qed.

Lemma read_proof_reads d p :
  proof_wf p -> HsdUrkelProof_validate p = Ok tt -> reads d read_proof (proof_bytes p) p.
Proof.
  intros (D & Wn & Wt) V. assert (V0 := V). apply proof_validate_Ok in V as (Db & Nb & _ & Vt).
  pose proof (len_nonneg (up_nodes p)). destruct (field_split p) as (Fu & Ft & Fd); [lia|].
  unfold read_proof, proof_bytes. eapply reads_bind; [by apply pr_u16_reads|]. cbv zeta. rewrite Ft, Fd.
  eapply reads_nil_bind; [apply reads_assert, Z.leb_le; lia|]. rewrite wrap16_small by lia.
  eapply reads_bind; [apply pr_u16_reads; unfold URKEL_BITS in *; ulia|].
  eapply reads_nil_bind; [apply reads_assert, Z.leb_le; lia|].
  eapply reads_bind.
  { apply pr_slice_reads. unfold bitmap_of, len. rewrite length_mark. unfold zeros.
    rewrite length_replicate. pose proof (div_ceil_nonneg (len (up_nodes p))). unfold len in *. lia. }
  eapply reads_bind.
  { replace (Z.to_nat (len (up_nodes p))) with (length (up_nodes p)) by (unfold len; lia).
    eapply read_nodes_reads; [lia|done|apply bitmap_room| |reflexivity].
    intros. apply packed_bit_zeros. }
  eapply reads_last; [by apply read_terminal_reads|].
  destruct p. cbn in *. eapply reads_nil_bind; [apply reads_res, V0|apply reads_ret].
Qed.

(** ** Decoding yields well-typed proofs *)
Lemma read_hash_inv d v d' : dec_wf d -> pr_read_hash d = (Ok v, d') -> dec_wf d' /\ length v = 32%nat.
Proof.
  intros W H. apply pr_slice_inv in H as (T & L); [|lia|done].
  split; [by eapply took_wf|unfold len in L; lia].
Qed.

Lemma read_nodes_inv field i n d ns d' :
  dec_wf d -> read_nodes field i n d = (Ok ns, d') -> dec_wf d' /\ Forall node_wf ns.
Proof.
  revert i d ns; induction n as [|n IH]; intros i d ns W H; cbn [read_nodes] in H; [by inv_dec|].
  dbind H as node d1 Hn. dbind H as rest d2 Hr. inv_dec. unfold read_node in Hn.
  dbind Hn as p d3 Hp. assert (dec_wf d3 /\ prefix_ok p) as (W3 & P).
  { destruct (_ =? 1); [|by inv_dec]. dbind Hp as q d4 Hq. apply read_prefix_inv in Hq; [|done].
    by inv_dec. }
  dbind Hn as s d4 Hs. inv_dec. apply read_hash_inv in Hs as (W1 & L); [|done].
  apply IH in Hr as (W2 & F); [|done]. split; [done|]. by constructor.
Qed.

Lemma read_terminal_inv ty d t d' :
  dec_wf d -> read_terminal ty d = (Ok t, d') -> terminal_wf t.
Proof.
  intros W H. unfold read_terminal in H. repeat zcase.
  - by inv_dec.
  - dbind H as p d1 Hp. apply read_prefix_inv in Hp as (W1 & P); [|done]. dbind H as u d2 Hu.
    dbind H as l d3 Hl. apply read_hash_inv in Hl as (W2 & Ll); [|done].
    dbind H as r d4 Hr. apply read_hash_inv in Hr as (W3 & Lr); [|done]. by inv_dec.
  - dbind H as k d1 Hk. apply read_hash_inv in Hk as (W1 & Lk); [|done].
    dbind H as v d2 Hv. apply read_hash_inv in Hv as (W2 & Lv); [|done]. by inv_dec.
  - dbind H as s d1 Hs. apply pr_u16_inv in Hs as (W1 & Us); [|done].
    dbind H as v d2 Hv. apply pr_slice_inv in Hv as (T & L); [|ulia|done]. inv_dec. cbn. ulia.
Qed.

Lemma read_proof_wf d p d' : dec_wf d -> read_proof d = (Ok p, d') -> proof_wf p.
Proof.
  intros W H. unfold read_proof in H. cbv zeta in H.
  dbind H as f d1 Hf. apply pr_u16_inv in Hf as (W1 & Uf); [|done]. dbind H as u1 d2 H1.
  dbind H as c d2 Hc. apply pr_u16_inv in Hc as (W2 & Uc); [|done]. dbind H as u2 d3 H2.
  dbind H as pf d3 Hp. apply pr_slice_inv in Hp as (T & _); [|apply div_ceil_nonneg; ulia|done].
  dbind H as ns d4 Hn. apply read_nodes_inv in Hn as (W4 & Fn); [|by eapply took_wf].
  dbind H as t d5 Ht. apply read_terminal_inv in Ht; [|done]. inv_dec.
  split; [cbn; apply Z.land_nonneg; lia|done].
Qed.

Lemma HsdUrkelProof_decode_strict_Ok raw p :
  HsdUrkelProof_decode_strict raw = Ok p <-> proof_wf p /\ HsdUrkelProof_encode p = Ok raw.
Proof.
  unfold HsdUrkelProof_decode_strict, HsdUrkelProof_decode_inner. split.
  - intros H. apply bind_Ok in H as ([q n] & D & H). apply bind_Ok in D as (u & L & D).
    apply assert_or_Ok, Z.leb_le in L.
    assert (dec_wf (Decoder_new raw)) as W by (apply wf_new; unfold MAX_HSD_PROOF_SIZE in *; ulia).
    destruct (read_proof (Decoder_new raw)) as [[q'|e] d] eqn:E; [|done]. injection D as -> <-.
    inv_ok. rewrite bool_decide_eq_true in *. subst. split; [by eapply read_proof_wf|done].
  - intros (W & E). assert (E0 := E). apply encode_proof_Ok in E0 as (V & -> & L).
    assert (dec_wf (Decoder_new (proof_bytes p))) as Wd
      by (apply wf_new; unfold MAX_HSD_PROOF_SIZE in *; ulia).
    rewrite (proj2 (Z.leb_le _ _) L). cbn [assert_or mbind result_bind].
    rewrite (read_proof_reads _ p W V [] Wd) by (by rewrite rest_new, app_nil_r).
    cbn [position advance Decoder_new mbind result_bind]. rewrite Z.add_0_l, Z.eqb_refl.
    cbn [assert_or mbind result_bind]. rewrite E. cbn [mbind result_bind].
    by rewrite bool_decide_eqb_refl.
Qed.

(** Strict decoding accepts exactly the canonical encodings: an input
    decodes strictly to a proof when, and only when, the proof is well typed
    and encodes to that input. So no proof has two accepted spellings and every
    encodable proof can be read back, prefix bitmap included. *)
Theorem urkel_proof_codec raw p :
  HsdUrkelProof_decode_strict raw = Ok p <-> proof_wf p /\ HsdUrkelProof_encode p = Ok raw.
Proof. apply HsdUrkelProof_decode_strict_Ok. Qed.

(** ** Two leaves under the example digest *)
Definition sample_tree : tree :=
  TNode BitPrefix_default (TLeaf (zeros 32) (bstr "zero")) (TLeaf (z2b 0x80 :: zeros 31) (bstr "one")).
Definition sample_proof : HsdUrkelProof := @prove toy_crypto sample_tree (zeros 32) 0.

Lemma urkel_verify_complete_witness :
  @HsdUrkelProof_verify toy_crypto sample_proof (@tree_hash toy_crypto sample_tree) (zeros 32)
    = Ok (Some (bstr "zero")).
Proof.
  apply (@urkel_verify_complete toy_crypto sample_tree (zeros 32)).
  cbn [sample_tree tree_wf]. repeat split; vm_compute; congruence.
Defined.

Lemma urkel_verify_sound_witness :
  Some (bstr "zero") = tree_get sample_tree (zeros 32) 0 \/
  @collides toy_crypto (@proof_messages toy_crypto sample_proof (zeros 32) ++
                        @tree_messages toy_crypto sample_tree).
Proof.
  apply (@urkel_verify_sound toy_crypto sample_proof (zeros 32) sample_tree).
  - reflexivity.
  - repeat constructor; vm_compute; congruence.
  - vm_compute. congruence.
  - vm_compute. congruence.
  - cbn [sample_tree tree_wf]. repeat split; vm_compute; congruence.
  - vm_compute. reflexivity.
Defined.
