(* ===== verification/Wire.v ===== *)
(** * hns-p2p-wire: packets, frames and the frame stream

    Models the rest of [crates/hns-p2p-wire/src/lib.rs]: the packet types and
    inventory kinds, network addresses, every standard packet with its encoder
    and decoder, the nine-byte frame header, and the incremental decoder that
    cuts a byte stream into frames. A Rust [String] is its UTF-8 bytes; the
    transaction error kept in [WInvalidTransaction] is printed into a string by
    the code. *)

From stdpp Require Import gmap.
From S2P Require Import Prelude Encoding Primitives Covenants Transaction U256 Header Block CompactBlock Urkel.
Local Open Scope Z_scope.

Definition PROTOCOL_VERSION : Z := 3.
Definition MIN_PROTOCOL_VERSION : Z := 1.
Definition SERVICE_NETWORK : Z := 1.
Definition SERVICE_BLOOM : Z := Z.shiftl 1 1.
Definition FRAME_HEADER_SIZE : Z := 9.
Definition MAX_FRAME_PAYLOAD_SIZE : Z := 8000000.
Definition MAX_INVENTORY_ITEMS : Z := 50000.
Definition MAX_LOCATOR_HASHES : Z := MAX_INVENTORY_ITEMS.
Definition MAX_HEADERS : Z := 2000.
Definition MAX_ADDR_ITEMS : Z := 1000.
Definition MAX_USER_AGENT_SIZE : Z := u8_max.
Definition MAX_REJECT_REASON_SIZE : Z := u8_max.
Definition NET_ADDRESS_SIZE : Z := 88.
Definition MAX_STREAM_BUFFER_SIZE : Z := 2 * (FRAME_HEADER_SIZE + MAX_FRAME_PAYLOAD_SIZE).

Inductive WireError :=
| WDecode (e : DecodeError)
| NetworkMagicMismatch (expected actual : Z)
| PayloadTooLarge (actual maximum : Z)
| CountTooLarge (context : string) (actual maximum : Z)
| IncompleteFrame (needed : Z)
| InvalidPacket (context reason : string)
| WInvalidTransaction (e : TransactionError)
| WUrkel (e : UrkelError)
| WCompactBlock (e : CompactBlockError).

Definition NetworkMagic_as_u32 (n : Network) : Z :=
  match n with
  | Mainnet => 0x5b6ef2d3
  | Testnet => 0xb1520dd2
  | Regtest => 0xae3895cf
  | Simnet => 0x0e648edc
  end.

(** ** Packet types and inventory kinds *)
Inductive PacketType :=
| PtVersion | PtVerack | PtPing | PtPong | PtGetAddr | PtAddr | PtInv | PtGetData | PtNotFound
| PtGetBlocks | PtGetHeaders | PtHeaders | PtSendHeaders | PtBlock | PtTx | PtReject | PtMempool
| PtFilterLoad | PtFilterAdd | PtFilterClear | PtMerkleBlock | PtFeeFilter | PtSendCmpct
| PtCmpctBlock | PtGetBlockTxn | PtBlockTxn | PtGetProof | PtProof | PtClaim | PtAirdrop
| PtUnknown (value : byte).

#[global] Instance PacketType_eq_dec : EqDecision PacketType.
Proof. solve_decision. Defined.

Definition PacketType_as_u8 (t : PacketType) : byte :=
  match t with
  | PtVersion => z2b 0 | PtVerack => z2b 1 | PtPing => z2b 2 | PtPong => z2b 3
  | PtGetAddr => z2b 4 | PtAddr => z2b 5 | PtInv => z2b 6 | PtGetData => z2b 7
  | PtNotFound => z2b 8 | PtGetBlocks => z2b 9 | PtGetHeaders => z2b 10 | PtHeaders => z2b 11
  | PtSendHeaders => z2b 12 | PtBlock => z2b 13 | PtTx => z2b 14 | PtReject => z2b 15
  | PtMempool => z2b 16 | PtFilterLoad => z2b 17 | PtFilterAdd => z2b 18 | PtFilterClear => z2b 19
  | PtMerkleBlock => z2b 20 | PtFeeFilter => z2b 21 | PtSendCmpct => z2b 22 | PtCmpctBlock => z2b 23
  | PtGetBlockTxn => z2b 24 | PtBlockTxn => z2b 25 | PtGetProof => z2b 26 | PtProof => z2b 27
  | PtClaim => z2b 28 | PtAirdrop => z2b 29
  | PtUnknown value => value
  end.

Definition PacketType_from_u8 (value : byte) : PacketType :=
  match b2z value with
  | 0 => PtVersion | 1 => PtVerack | 2 => PtPing | 3 => PtPong | 4 => PtGetAddr | 5 => PtAddr
  | 6 => PtInv | 7 => PtGetData | 8 => PtNotFound | 9 => PtGetBlocks | 10 => PtGetHeaders
  | 11 => PtHeaders | 12 => PtSendHeaders | 13 => PtBlock | 14 => PtTx | 15 => PtReject
  | 16 => PtMempool | 17 => PtFilterLoad | 18 => PtFilterAdd | 19 => PtFilterClear
  | 20 => PtMerkleBlock | 21 => PtFeeFilter | 22 => PtSendCmpct | 23 => PtCmpctBlock
  | 24 => PtGetBlockTxn | 25 => PtBlockTxn | 26 => PtGetProof | 27 => PtProof
  | 28 => PtClaim | 29 => PtAirdrop
  | _ => PtUnknown value
  end.

Definition carries_reject_hash (t : PacketType) : bool :=
  match t with PtBlock | PtTx | PtClaim | PtAirdrop => true | _ => false end.

Inductive InventoryKind :=
| IkTransaction | IkBlock | IkFilteredBlock | IkCompactBlock | IkClaim | IkAirdrop
| IkUnknown (value : Z).

Definition InventoryKind_as_u32 (k : InventoryKind) : Z :=
  match k with
  | IkTransaction => 1 | IkBlock => 2 | IkFilteredBlock => 3 | IkCompactBlock => 4
  | IkClaim => 5 | IkAirdrop => 6 | IkUnknown value => value
  end.

Definition InventoryKind_from_u32 (value : Z) : InventoryKind :=
  match value with
  | 1 => IkTransaction | 2 => IkBlock | 3 => IkFilteredBlock | 4 => IkCompactBlock
  | 5 => IkClaim | 6 => IkAirdrop | other => IkUnknown other
  end.

Record Inventory := mkInventory { inv_kind : InventoryKind; inv_hash : list byte }.

(** ** Helpers *)
Definition check_count (context : string) (actual maximum : Z) : result WireError unit :=
  assert_or (actual <=? maximum) (CountTooLarge context actual maximum).

Definition check_payload_size (actual : Z) : result WireError unit :=
  assert_or (actual <=? MAX_FRAME_PAYLOAD_SIZE) (PayloadTooLarge actual MAX_FRAME_PAYLOAD_SIZE).

Definition is_ascii (value : list byte) : bool := forallb (fun b => b2z b <? 128) value.

Definition check_ascii_u8 (context : string) (value : list byte) (maximum : Z)
  : result WireError unit :=
  assert_or (len value <=? maximum) (CountTooLarge context (len value) maximum) ;;
  assert_or (is_ascii value) (InvalidPacket context "outbound text must be ASCII").

(** [char::from(byte & 0x7f)] is the ASCII character itself. *)
Definition decode_hsd_ascii (input : list byte) : list byte :=
  (fun b => z2b (Z.land (b2z b) 0x7f)) <$> input.

(** [usize::try_from(value).unwrap_or(usize::MAX)] is the value: [usize] is 64
    bits wide. *)
Definition read_count (context : string) (maximum : Z) : decM WireError Z :=
  actual ← lift_err WDecode read_compact_size;
  lift_res (check_count context actual maximum) ;;
  mret actual.

Definition read_bounded_index (context : string) : decM WireError Z :=
  actual ← lift_err WDecode read_compact_size;
  lift_res (check_count context actual u16_max) ;;
  mret actual.

Definition take_remaining : decM WireError (list byte) :=
  decoder ← dec_get; lift_err WDecode (read_slice (remaining decoder)).

(** ** Network addresses *)
Inductive SocketAddr :=
| SocketV4 (ip : list byte) (port : Z)
| SocketV6 (ip : list byte) (port : Z).

Record NetAddress := mkNetAddress {
  na_time : Z;
  na_services : Z;
  na_ip : list byte;
  na_port : Z;
  na_key : list byte;
}.

(** The prefix of an IPv4 address mapped into IPv6. *)
Definition ipv4_mapped_prefix : list byte := zeros 10 ++ [xff; xff].

Definition NetAddress_from_socket_addr (address : SocketAddr) (time services : Z) : NetAddress :=
  match address with
  | SocketV4 ip port => mkNetAddress time services (ipv4_mapped_prefix ++ ip) port (zeros 33)
  | SocketV6 ip port => mkNetAddress time services ip port (zeros 33)
  end.

Definition NetAddress_socket_addr (a : NetAddress) : SocketAddr :=
  if bool_decide (take 12 (na_ip a) = ipv4_mapped_prefix)
  then SocketV4 (drop 12 (na_ip a)) (na_port a)
  else SocketV6 (na_ip a) (na_port a).

Definition NetAddress_encode_to (encoder : Encoder) (a : NetAddress) : Encoder :=
  let encoder := put_u64_le encoder (na_time a) in
  let encoder := put_u32_le encoder (wrap 32 (na_services a)) in
  let encoder := put_u32_le encoder 0 in
  let encoder := put_u8 encoder x00 in
  let encoder := put_bytes encoder (na_ip a) in
  let encoder := put_bytes encoder (zeros 20) in
  let encoder := put_u16_le encoder (na_port a) in
  put_bytes encoder (na_key a).

Definition NetAddress_encode (a : NetAddress) : list byte :=
  into_bytes (NetAddress_encode_to (with_capacity NET_ADDRESS_SIZE) a).

Definition NetAddress_decode_from : decM WireError NetAddress :=
  time ← lift_err WDecode read_u64_le;
  services ← lift_err WDecode read_u32_le;
  _reserved_service_word ← lift_err WDecode read_u32_le;
  host_kind ← lift_err WDecode read_u8;
  host ← lift_err WDecode (read_array 36);
  let ip := if b2z host_kind =? 0 then take 16 host else zeros 16 in
  port ← lift_err WDecode read_u16_le;
  key ← lift_err WDecode (read_array 33);
  mret (mkNetAddress time services ip port key).

Definition NetAddress_decode (input : list byte) : result WireError NetAddress :=
  assert_or (len input =? NET_ADDRESS_SIZE)
    (InvalidPacket "network address" "the encoding must be exactly 88 bytes") ;;
  run_all WDecode NetAddress_decode_from input.

(** ** Packets *)
Record VersionPacket := mkVersion {
  vp_version : Z;
  vp_services : Z;
  vp_time : Z;
  vp_remote : NetAddress;
  vp_nonce : list byte;
  vp_agent : list byte;
  vp_height : Z;
  vp_no_relay : bool;
}.

Record LocatorPacket := mkLocator { lp_locator : list (list byte); lp_stop : list byte }.

Record RejectPacket := mkReject {
  rp_message : PacketType;
  rp_code : byte;
  rp_reason : list byte;
  rp_hash : option (list byte);
}.

Record GetProofPacket := mkGetProof { gp_root : list byte; gp_key : list byte }.
Record ProofPacket := mkProofPacket {
  pp_root : list byte;
  pp_key : list byte;
  pp_proof : HsdUrkelProof;
}.

Definition ProofPacket_verify {CR : Crypto} (p : ProofPacket)
  : result UrkelError (option (list byte)) :=
  HsdUrkelProof_verify (pp_proof p) (pp_root p) (pp_key p).

Inductive Packet :=
| PVersion (p : VersionPacket)
| PVerack
| PPing (nonce : list byte)
| PPong (nonce : list byte)
| PGetAddr
| PAddr (items : list NetAddress)
| PInv (items : list Inventory)
| PGetData (items : list Inventory)
| PNotFound (items : list Inventory)
| PGetBlocks (p : LocatorPacket)
| PGetHeaders (p : LocatorPacket)
| PHeaders (headers : list Header)
| PSendHeaders
| PBlock (b : Block)
| PTx (tx : Transaction)
| PReject (p : RejectPacket)
| PMempool
| PFilterLoad (payload : list byte)
| PFilterAdd (payload : list byte)
| PFilterClear
| PMerkleBlock (payload : list byte)
| PFeeFilter (rate : Z)
| PSendCmpct (mode : byte) (version : Z)
| PCmpctBlock (c : CompactBlock)
| PGetBlockTxn (r : CompactBlockRequest)
| PBlockTxn (r : CompactBlockResponse)
| PGetProof (p : GetProofPacket)
| PProof (p : ProofPacket)
| PClaim (payload : list byte)
| PAirdrop (payload : list byte)
| PUnknown (packet_type : byte) (payload : list byte).

Definition Packet_packet_type (p : Packet) : PacketType :=
  match p with
  | PVersion _ => PtVersion | PVerack => PtVerack | PPing _ => PtPing | PPong _ => PtPong
  | PGetAddr => PtGetAddr | PAddr _ => PtAddr | PInv _ => PtInv | PGetData _ => PtGetData
  | PNotFound _ => PtNotFound | PGetBlocks _ => PtGetBlocks | PGetHeaders _ => PtGetHeaders
  | PHeaders _ => PtHeaders | PSendHeaders => PtSendHeaders | PBlock _ => PtBlock | PTx _ => PtTx
  | PReject _ => PtReject | PMempool => PtMempool | PFilterLoad _ => PtFilterLoad
  | PFilterAdd _ => PtFilterAdd | PFilterClear => PtFilterClear | PMerkleBlock _ => PtMerkleBlock
  | PFeeFilter _ => PtFeeFilter | PSendCmpct _ _ => PtSendCmpct | PCmpctBlock _ => PtCmpctBlock
  | PGetBlockTxn _ => PtGetBlockTxn | PBlockTxn _ => PtBlockTxn | PGetProof _ => PtGetProof
  | PProof _ => PtProof | PClaim _ => PtClaim | PAirdrop _ => PtAirdrop
  | PUnknown packet_type _ => PtUnknown packet_type
  end.

(** *** Version, inventory and reject packets *)
Definition encode_version (p : VersionPacket) (encoder : Encoder) : result WireError Encoder :=
  check_ascii_u8 "version user agent" (vp_agent p) MAX_USER_AGENT_SIZE ;;
  let encoder := put_u32_le encoder (vp_version p) in
  let encoder := put_u32_le encoder (wrap 32 (vp_services p)) in
  let encoder := put_u32_le encoder 0 in
  let encoder := put_u64_le encoder (vp_time p) in
  let encoder := NetAddress_encode_to encoder (vp_remote p) in
  let encoder := put_bytes encoder (vp_nonce p) in
  let encoder := put_u8 encoder (z2b (len (vp_agent p))) in
  let encoder := put_bytes encoder (vp_agent p) in
  let encoder := put_u32_le encoder (vp_height p) in
  Ok (put_u8 encoder (if vp_no_relay p then x01 else x00)).

Definition decode_version : decM WireError VersionPacket :=
  version ← lift_err WDecode read_u32_le;
  services ← lift_err WDecode read_u32_le;
  _reserved_service_word ← lift_err WDecode read_u32_le;
  time ← lift_err WDecode read_u64_le;
  remote ← NetAddress_decode_from;
  nonce ← lift_err WDecode (read_array 8);
  agent_length ← lift_err WDecode read_u8;
  agent ← lift_err WDecode (read_slice (b2z agent_length));
  height ← lift_err WDecode read_u32_le;
  no_relay ← lift_err WDecode read_u8;
  mret (mkVersion version services time remote nonce (decode_hsd_ascii agent) height
          (b2z no_relay =? 1)).

Definition put_inventory (encoder : Encoder) (i : Inventory) : Encoder :=
  put_bytes (put_u32_le encoder (InventoryKind_as_u32 (inv_kind i))) (inv_hash i).

Definition encode_inventory (items : list Inventory) (encoder : Encoder) : result WireError Encoder :=
  check_count "inventory" (len items) MAX_INVENTORY_ITEMS ;;
  Ok (foldl put_inventory (put_compact_size encoder (len items)) items).

Definition read_inventory : decM WireError Inventory :=
  kind ← lift_err WDecode read_u32_le;
  hash ← lift_err WDecode (read_array 32);
  mret (mkInventory (InventoryKind_from_u32 kind) hash).

Definition decode_inventory : decM WireError (list Inventory) :=
  count ← read_count "inventory" MAX_INVENTORY_ITEMS;
  read_n (Z.to_nat count) read_inventory.

Definition encode_reject (p : RejectPacket) (encoder : Encoder) : result WireError Encoder :=
  check_ascii_u8 "reject reason" (rp_reason p) MAX_REJECT_REASON_SIZE ;;
  assert_or (Bool.eqb (carries_reject_hash (rp_message p)) (bool_decide (is_Some (rp_hash p))))
    (InvalidPacket "reject packet" "hash presence does not match the rejected packet type") ;;
  let encoder := put_u8 encoder (PacketType_as_u8 (rp_message p)) in
  let encoder := put_u8 encoder (rp_code p) in
  let encoder := put_u8 encoder (z2b (len (rp_reason p))) in
  let encoder := put_bytes encoder (rp_reason p) in
  Ok (match rp_hash p with Some hash => put_bytes encoder hash | None => encoder end).

Definition decode_reject : decM WireError RejectPacket :=
  message ← lift_err WDecode read_u8;
  let message := PacketType_from_u8 message in
  code ← lift_err WDecode read_u8;
  reason_length ← lift_err WDecode read_u8;
  reason ← lift_err WDecode (read_slice (b2z reason_length));
  hash ← (if carries_reject_hash message
          then hash ← lift_err WDecode (read_array 32); mret (Some hash)
          else mret None);
  mret (mkReject message code (decode_hsd_ascii reason) hash).

(** *** Compact-block packets *)
Definition put_short_id (encoder : Encoder) (short_id : Z) : Encoder :=
  put_u16_le (put_u32_le encoder (wrap 32 short_id)) (wrap 16 (Z.shiftr short_id 32)).

Definition put_prefilled (encoder : Encoder) (p : PrefilledTransaction) : result WireError Encoder :=
  let encoder := put_compact_size encoder (pre_index p) in
  encoded ← map_err WInvalidTransaction (Transaction_encode (pre_transaction p));
  Ok (put_bytes encoder encoded).

Definition CompactBlock_encode_to (c : CompactBlock) (encoder : Encoder) : result WireError Encoder :=
  _ ← map_err WCompactBlock (validate_layout c);
  let encoder := put_bytes encoder (Header_encode (cb_header c)) in
  let encoder := put_bytes encoder (cb_key_nonce c) in
  let encoder := put_compact_size encoder (len (cb_short_ids c)) in
  let encoder := foldl put_short_id encoder (cb_short_ids c) in
  let encoder := put_compact_size encoder (len (cb_prefilled c)) in
  try_fold put_prefilled encoder (cb_prefilled c).

Definition read_header (context reason : string) : decM WireError Header :=
  bytes ← lift_err WDecode (read_slice HEADER_SIZE);
  lift_res (map_err (fun _ => InvalidPacket context reason) (Header_decode bytes)).

Definition read_short_id : decM WireError Z :=
  low ← lift_err WDecode read_u32_le;
  high ← lift_err WDecode read_u16_le;
  mret (Z.lor (Z.shiftl high 32) low).

(** The loop over the prefilled transactions, with the previous absolute index. *)
Fixpoint read_prefilled (count : nat) (total : Z) (previous : option Z)
  : decM WireError (list PrefilledTransaction) :=
  match count with
  | O => mret []
  | S count =>
    index ← read_bounded_index "compact-block prefilled index";
    absolute ← lift_res (map_err WCompactBlock (absolute_prefilled_index previous index));
    lift_res (assert_or (negb (total <=? absolute))
      (WCompactBlock (Malformed (PrefilledIndexExceeds absolute total)))) ;;
    transaction ← lift_err WInvalidTransaction Transaction_decode_from;
    rest ← read_prefilled count total (Some absolute);
    mret (mkPrefilled index transaction :: rest)
  end.

Definition CompactBlock_decode_from : decM WireError CompactBlock :=
  header ← read_header "compact block" "the nested header is malformed";
  key_nonce ← lift_err WDecode (read_array 8);
  short_id_count ← read_count "compact-block short IDs" MAX_COMPACT_BLOCK_TRANSACTIONS;
  short_ids ← read_n (Z.to_nat short_id_count) read_short_id;
  let maximum_prefilled := saturating_sub MAX_COMPACT_BLOCK_TRANSACTIONS short_id_count in
  prefilled_count ← read_count "compact-block prefilled transactions" maximum_prefilled;
  let total := saturating_add usize_max short_id_count prefilled_count in
  prefilled ← read_prefilled (Z.to_nat prefilled_count) total None;
  let compact := mkCompact header key_nonce short_ids prefilled in
  _ ← lift_res (map_err WCompactBlock (validate_layout compact));
  mret compact.

(** [index - indexes[position - 1] - 1]; the indexes are strictly increasing. *)
Fixpoint differentials (previous : option Z) (indexes : list Z) : list Z :=
  match indexes with
  | [] => []
  | index :: indexes =>
    match previous with Some previous => index - previous - 1 | None => index end ::
    differentials (Some index) indexes
  end.

Definition CompactBlockRequest_encode_to (r : CompactBlockRequest) (encoder : Encoder)
  : result WireError Encoder :=
  map_err WCompactBlock (validate_absolute_indexes (req_indexes r)) ;;
  let encoder := put_bytes encoder (req_block_hash r) in
  let encoder := put_compact_size encoder (len (req_indexes r)) in
  Ok (foldl put_compact_size encoder (differentials None (req_indexes r))).

Fixpoint read_indexes (count : nat) (previous : option Z) : decM WireError (list Z) :=
  match count with
  | O => mret []
  | S count =>
    differential ← read_bounded_index "compact-block requested index";
    absolute ← lift_res (map_err WCompactBlock (absolute_prefilled_index previous differential));
    rest ← read_indexes count (Some absolute);
    mret (absolute :: rest)
  end.

Definition CompactBlockRequest_decode_from : decM WireError CompactBlockRequest :=
  block_hash ← lift_err WDecode (read_array 32);
  count ← read_count "compact-block requested indexes" MAX_COMPACT_BLOCK_TRANSACTIONS;
  indexes ← read_indexes (Z.to_nat count) None;
  mret (mkRequest block_hash indexes).

Definition put_wire_transaction (encoder : Encoder) (tx : Transaction) : result WireError Encoder :=
  encoded ← map_err WInvalidTransaction (Transaction_encode tx); Ok (put_bytes encoder encoded).

Definition CompactBlockResponse_encode_to (r : CompactBlockResponse) (encoder : Encoder)
  : result WireError Encoder :=
  check_count "compact-block response transactions" (len (resp_transactions r))
    MAX_COMPACT_BLOCK_TRANSACTIONS ;;
  let encoder := put_bytes encoder (resp_block_hash r) in
  let encoder := put_compact_size encoder (len (resp_transactions r)) in
  try_fold put_wire_transaction encoder (resp_transactions r).

Definition CompactBlockResponse_decode_from : decM WireError CompactBlockResponse :=
  block_hash ← lift_err WDecode (read_array 32);
  count ← read_count "compact-block response transactions" MAX_COMPACT_BLOCK_TRANSACTIONS;
  transactions ← read_n (Z.to_nat count) (lift_err WInvalidTransaction Transaction_decode_from);
  mret (mkResponse block_hash transactions).

(** *** Payloads *)
Definition encode_locator (p : LocatorPacket) (encoder : Encoder) : result WireError Encoder :=
  check_count "locator" (len (lp_locator p)) MAX_LOCATOR_HASHES ;;
  let encoder := put_compact_size encoder (len (lp_locator p)) in
  let encoder := foldl put_bytes encoder (lp_locator p) in
  Ok (put_bytes encoder (lp_stop p)).

Definition decode_locator : decM WireError LocatorPacket :=
  count ← read_count "locator" MAX_LOCATOR_HASHES;
  locator ← read_n (Z.to_nat count) (lift_err WDecode (read_array 32));
  stop ← lift_err WDecode (read_array 32);
  mret (mkLocator locator stop).

Section payloads.
Context {CR : Crypto}.

Definition encode_packet (p : Packet) (encoder : Encoder) : result WireError Encoder :=
  match p with
  | PVersion packet => encode_version packet encoder
  | PVerack | PGetAddr | PSendHeaders | PMempool | PFilterClear => Ok encoder
  | PPing nonce | PPong nonce => Ok (put_bytes encoder nonce)
  | PAddr items =>
    check_count "address" (len items) MAX_ADDR_ITEMS ;;
    Ok (foldl NetAddress_encode_to (put_compact_size encoder (len items)) items)
  | PInv items | PGetData items | PNotFound items => encode_inventory items encoder
  | PGetBlocks packet | PGetHeaders packet => encode_locator packet encoder
  | PHeaders headers =>
    check_count "header" (len headers) MAX_HEADERS ;;
    Ok (foldl (fun encoder header => put_bytes encoder (Header_encode header))
          (put_compact_size encoder (len headers)) headers)
  | PTx transaction =>
    encoded ← map_err WInvalidTransaction (Transaction_encode transaction);
    Ok (put_bytes encoder encoded)
  | PReject packet => encode_reject packet encoder
  | PFeeFilter rate => Ok (put_u64_le encoder (wrap 64 rate))
  | PSendCmpct mode version => Ok (put_u64_le (put_u8 encoder mode) version)
  | PGetProof packet => Ok (put_bytes (put_bytes encoder (gp_root packet)) (gp_key packet))
  | PProof packet =>
    let encoder := put_bytes (put_bytes encoder (pp_root packet)) (pp_key packet) in
    encoded ← map_err WUrkel (HsdUrkelProof_encode (pp_proof packet));
    Ok (put_bytes encoder encoded)
  | PBlock block =>
    encoded ← map_err (fun _ => InvalidPacket "block" "the nested block is malformed")
      (Block_encode block);
    Ok (put_bytes encoder encoded)
  | PCmpctBlock block => CompactBlock_encode_to block encoder
  | PGetBlockTxn request => CompactBlockRequest_encode_to request encoder
  | PBlockTxn response => CompactBlockResponse_encode_to response encoder
  | PFilterLoad payload | PFilterAdd payload | PMerkleBlock payload | PClaim payload
  | PAirdrop payload | PUnknown _ payload => Ok (put_bytes encoder payload)
  end.

Definition Packet_encode_payload (p : Packet) : result WireError (list byte) :=
  encoder ← encode_packet p Encoder_new;
  let payload := into_bytes encoder in
  check_payload_size (len payload) ;;
  Ok payload.

(** [value as i64] *)
Definition as_i64 (value : Z) : Z := if value <? 2 ^ 63 then value else value - 2 ^ 64.

(** The arms that read through the decoder. [Packet_decode] returns earlier for
    [Block], [Tx] and unknown types, so the last arm (unreachable in the code) is
    never run. *)
Definition read_packet (t : PacketType) : decM WireError Packet :=
  match t with
  | PtVersion => p ← decode_version; mret (PVersion p)
  | PtVerack => mret PVerack
  | PtPing => nonce ← lift_err WDecode (read_array 8); mret (PPing nonce)
  | PtPong => nonce ← lift_err WDecode (read_array 8); mret (PPong nonce)
  | PtGetAddr => mret PGetAddr
  | PtAddr =>
    count ← read_count "address" MAX_ADDR_ITEMS;
    items ← read_n (Z.to_nat count) NetAddress_decode_from;
    mret (PAddr items)
  | PtInv => items ← decode_inventory; mret (PInv items)
  | PtGetData => items ← decode_inventory; mret (PGetData items)
  | PtNotFound => items ← decode_inventory; mret (PNotFound items)
  | PtGetBlocks => p ← decode_locator; mret (PGetBlocks p)
  | PtGetHeaders => p ← decode_locator; mret (PGetHeaders p)
  | PtHeaders =>
    count ← read_count "header" MAX_HEADERS;
    headers ← read_n (Z.to_nat count) (read_header "headers" "a nested header is malformed");
    mret (PHeaders headers)
  | PtSendHeaders => mret PSendHeaders
  | PtReject => p ← decode_reject; mret (PReject p)
  | PtMempool => mret PMempool
  | PtFilterLoad => payload ← take_remaining; mret (PFilterLoad payload)
  | PtFilterAdd => payload ← take_remaining; mret (PFilterAdd payload)
  | PtFilterClear => mret PFilterClear
  | PtMerkleBlock => payload ← take_remaining; mret (PMerkleBlock payload)
  | PtFeeFilter => rate ← lift_err WDecode read_u64_le; mret (PFeeFilter (as_i64 rate))
  | PtSendCmpct =>
    mode ← lift_err WDecode read_u8;
    version ← lift_err WDecode read_u64_le;
    mret (PSendCmpct mode version)
  | PtCmpctBlock => c ← CompactBlock_decode_from; mret (PCmpctBlock c)
  | PtGetBlockTxn => r ← CompactBlockRequest_decode_from; mret (PGetBlockTxn r)
  | PtBlockTxn => r ← CompactBlockResponse_decode_from; mret (PBlockTxn r)
  | PtGetProof =>
    root ← lift_err WDecode (read_array 32);
    key ← lift_err WDecode (read_array 32);
    mret (PGetProof (mkGetProof root key))
  | PtProof =>
    root ← lift_err WDecode (read_array 32);
    key ← lift_err WDecode (read_array 32);
    raw ← take_remaining;
    proof ← lift_res (map_err WUrkel (HsdUrkelProof_decode_strict raw));
    mret (PProof (mkProofPacket root key proof))
  | PtClaim => payload ← take_remaining; mret (PClaim payload)
  | PtAirdrop => payload ← take_remaining; mret (PAirdrop payload)
  | PtBlock | PtTx | PtUnknown _ => mret PVerack
  end.

Definition Packet_decode (t : PacketType) (payload : list byte) : result WireError Packet :=
  check_payload_size (len payload) ;;
  match t with
  | PtUnknown packet_type => Ok (PUnknown packet_type payload)
  | PtBlock =>
    block ← map_err (fun _ => InvalidPacket "block" "the nested block is malformed")
      (Block_decode payload);
    Ok (PBlock block)
  | PtTx =>
    transaction ← map_err WInvalidTransaction (Transaction_decode payload);
    Ok (PTx transaction)
  | _ => run_all WDecode (read_packet t) payload
  end.

End payloads.

(** ** Frames *)
Record Frame := mkFrame { fr_packet_type : PacketType; fr_payload : list byte }.

Definition Frame_new (packet_type : PacketType) (payload : list byte) : result WireError Frame :=
  check_payload_size (len payload) ;; Ok (mkFrame packet_type payload).

Definition Frame_from_packet {CR : Crypto} (p : Packet) : result WireError Frame :=
  payload ← Packet_encode_payload p; Frame_new (Packet_packet_type p) payload.

Definition Frame_decode_packet {CR : Crypto} (f : Frame) : result WireError Packet :=
  Packet_decode (fr_packet_type f) (fr_payload f).

Definition Frame_encode (f : Frame) (network : Network) : result WireError (list byte) :=
  check_payload_size (len (fr_payload f)) ;;
  assert_or (len (fr_payload f) <=? u32_max)
    (PayloadTooLarge (len (fr_payload f)) MAX_FRAME_PAYLOAD_SIZE) ;;
  let encoder := with_capacity (saturating_add usize_max FRAME_HEADER_SIZE (len (fr_payload f))) in
  let encoder := put_u32_le encoder (NetworkMagic_as_u32 network) in
  let encoder := put_u8 encoder (PacketType_as_u8 (fr_packet_type f)) in
  let encoder := put_u32_le encoder (len (fr_payload f)) in
  Ok (into_bytes (put_bytes encoder (fr_payload f))).

(** The nine header bytes: magic, type and length. *)
Definition read_frame_header (network : Network) : decM WireError (PacketType * Z) :=
  actual_magic ← lift_err WDecode read_u32_le;
  lift_res (assert_or (actual_magic =? NetworkMagic_as_u32 network)
    (NetworkMagicMismatch (NetworkMagic_as_u32 network) actual_magic)) ;;
  packet_type ← lift_err WDecode read_u8;
  payload_length ← lift_err WDecode read_u32_le;
  mret (PacketType_from_u8 packet_type, payload_length).

Definition decode_frame_prefix (network : Network) (input : list byte)
  : result WireError (option (Frame * Z)) :=
  if len input <? FRAME_HEADER_SIZE then Ok None
  else
    '(packet_type, payload_length) ←
      run_all WDecode (read_frame_header network) (take (Z.to_nat FRAME_HEADER_SIZE) input);
    check_payload_size payload_length ;;
    let frame_length := FRAME_HEADER_SIZE + payload_length in
    if len input <? frame_length then Ok None
    else Ok (Some (mkFrame packet_type (slice input FRAME_HEADER_SIZE frame_length), frame_length)).

Definition bytes_needed_for_frame (input : list byte) : Z :=
  if len input <? FRAME_HEADER_SIZE then FRAME_HEADER_SIZE - len input
  else
    let payload_length := from_le_bytes (slice input 5 9) in
    saturating_sub (saturating_add usize_max FRAME_HEADER_SIZE payload_length) (len input).

Definition Frame_decode_exact (network : Network) (input : list byte) : result WireError Frame :=
  decoded ← decode_frame_prefix network input;
  match decoded with
  | Some (frame, consumed) =>
    assert_or (consumed =? len input) (WDecode (TrailingBytes (len input - consumed))) ;;
    Ok frame
  | None => Err (IncompleteFrame (bytes_needed_for_frame input))
  end.

(** ** The frame stream *)
Record FrameDecoder := mkFrameDecoder { fd_network : Network; fd_buffered : list byte }.

Definition FrameDecoder_new (network : Network) : FrameDecoder := mkFrameDecoder network [].
Definition buffered_len (d : FrameDecoder) : Z := len (fd_buffered d).

(** [while let Some((frame, length)) = decode_frame_prefix(..)?]: the frames cut
    off and the bytes they took. A frame takes at least its header, so the length
    of the buffer is enough fuel. *)
Fixpoint cut_frames (fuel : nat) (network : Network) (buffered : list byte) (consumed : Z)
    (frames : list Frame) : result WireError (list Frame * Z) :=
  match fuel with
  | O => Ok (frames, consumed)
  | S fuel =>
    decoded ← decode_frame_prefix network (drop (Z.to_nat consumed) buffered);
    match decoded with
    | None => Ok (frames, consumed)
    | Some (frame, length) =>
      let consumed := consumed + length in
      let frames := frames ++ [frame] in
      if consumed =? len buffered then Ok (frames, consumed)
      else cut_frames fuel network buffered consumed frames
    end
  end.

(** The state after a failure: nothing was buffered when the input was too long,
    everything when a frame was bad. *)
Definition FrameDecoder_push (d : FrameDecoder) (input : list byte)
  : result WireError (list Frame) * FrameDecoder :=
  match checked_add usize_max (len (fd_buffered d)) (len input) with
  | None => (Err (PayloadTooLarge usize_max MAX_STREAM_BUFFER_SIZE), d)
  | Some total =>
    if MAX_STREAM_BUFFER_SIZE <? total
    then (Err (PayloadTooLarge total MAX_STREAM_BUFFER_SIZE), d)
    else
      let buffered := fd_buffered d ++ input in
      match cut_frames (S (length buffered)) (fd_network d) buffered 0 [] with
      | Err e => (Err e, mkFrameDecoder (fd_network d) buffered)
      | Ok (frames, consumed) =>
        (Ok frames, mkFrameDecoder (fd_network d) (drop (Z.to_nat consumed) buffered))
      end
  end.

(** ** Frames as bytes *)
Lemma packet_type_as_from b : PacketType_as_u8 (PacketType_from_u8 b) = b.
Proof. by destruct b. Qed.

(** A type is canonical when it is not an assigned number spelled as unknown. *)
Definition type_canonical (t : PacketType) : Prop :=
  match t with PtUnknown v => 30 <= b2z v | _ => True end.

Lemma packet_type_from_as t : type_canonical t -> PacketType_from_u8 (PacketType_as_u8 t) = t.
Proof. destruct t as [| | | | | | | | | | | | | | | | | | | | | | | | | | | | | |v]; try done. by destruct v. Qed.

Lemma packet_type_from_canonical b : type_canonical (PacketType_from_u8 b).
Proof. by destruct b. Qed.

Definition frame_bytes (network : Network) (f : Frame) : list byte :=
  to_le_bytes 4 (NetworkMagic_as_u32 network) ++ [PacketType_as_u8 (fr_packet_type f)] ++
  to_le_bytes 4 (len (fr_payload f)) ++ fr_payload f.

Definition frame_ok (f : Frame) : Prop :=
  len (fr_payload f) <= MAX_FRAME_PAYLOAD_SIZE /\ type_canonical (fr_packet_type f).

Lemma magic_u32 n : u32 (NetworkMagic_as_u32 n).
Proof. destruct n; by vm_compute. Qed.

Lemma len_frame_bytes network f : len (frame_bytes network f) = FRAME_HEADER_SIZE + len (fr_payload f).
Proof. unfold frame_bytes, FRAME_HEADER_SIZE. slen. lia. Qed.

Lemma Frame_encode_Ok f network bs :
  Frame_encode f network = Ok bs <->
  len (fr_payload f) <= MAX_FRAME_PAYLOAD_SIZE /\ bs = frame_bytes network f.
Proof.
  unfold Frame_encode, check_payload_size, into_bytes. autorewrite with enc. rewrite <- !app_assoc.
  destruct (Z.leb_spec (len (fr_payload f)) MAX_FRAME_PAYLOAD_SIZE); cbn [assert_or mbind result_bind];
    [|naive_solver lia].
  rewrite (proj2 (Z.leb_le _ u32_max)) by (unfold MAX_FRAME_PAYLOAD_SIZE in *; ulia).
  cbn [assert_or mbind result_bind]. unfold frame_bytes. naive_solver.
Qed.

(** The header of nine bytes decides whether a frame begins, is refused, or must
    be waited for. *)
Definition frame_header (network : Network) (b : byte) (n : Z) : list byte :=
  to_le_bytes 4 (NetworkMagic_as_u32 network) ++ [b] ++ to_le_bytes 4 n.

Lemma read_frame_header_Ok network hd t n :
  len hd = FRAME_HEADER_SIZE ->
  run_all WDecode (read_frame_header network) hd = Ok (t, n) <->
  exists b, t = PacketType_from_u8 b /\ u32 n /\ hd = frame_header network b n.
Proof.
  intros L. unfold FRAME_HEADER_SIZE in L. pose proof (magic_u32 network) as M. split.
  - intros H. apply run_all_Ok in H as (d & H & F).
    assert (dec_wf (Decoder_new hd)) as W by (apply wf_new; ulia).
    unfold read_frame_header in H. dbind H as m d1 H1. dbind H as u d2 H2.
    apply assert_or_Ok, Z.eqb_eq in H2. subst m. dbind H as b d3 H3. dbind H as k d4 H4.
    took_all. apply dec_ret_Ok in H as ([= <- <-] & ->). exists b. split; [done|]. split; [done|].
    symmetry. eapply took_finish; [|done]. unfold frame_header. took_chain.
  - intros (b & -> & Hn & ->). apply run_all_reads; [unfold frame_header; slen; ulia|].
    unfold read_frame_header, frame_header. rewrite <- (app_nil_r (to_le_bytes 4 n)).
    reads_step. eapply reads_nil_bind; [by apply reads_assert, Z.eqb_refl|]. do 2 reads_step.
    apply reads_ret.
Qed.

Lemma decode_frame_prefix_frame network f rest :
  frame_ok f ->
  decode_frame_prefix network (frame_bytes network f ++ rest) =
    Ok (Some (f, len (frame_bytes network f))).
Proof.
  intros (L & C). unfold decode_frame_prefix. pose proof (len_nonneg (fr_payload f)).
  pose proof (len_nonneg rest). rewrite len_app, !len_frame_bytes. unfold FRAME_HEADER_SIZE in *.
  rewrite (proj2 (Z.ltb_ge _ _)) by lia.
  assert (frame_bytes network f ++ rest =
    frame_header network (PacketType_as_u8 (fr_packet_type f)) (len (fr_payload f)) ++
    fr_payload f ++ rest) as -> by (unfold frame_bytes, frame_header; by rewrite <- !app_assoc).
  assert (length (frame_header network (PacketType_as_u8 (fr_packet_type f)) (len (fr_payload f))) = 9%nat)
    as Lh by (unfold frame_header; rewrite !length_app, !length_to_le_bytes; done).
  rewrite take_app_length' by done.
  assert (u32 (len (fr_payload f))) as Hu by (unfold MAX_FRAME_PAYLOAD_SIZE in *; ulia).
  rewrite (proj2 (read_frame_header_Ok network _ (fr_packet_type f) (len (fr_payload f))
    ltac:(unfold len; rewrite Lh; done))) by (eexists; split; [by rewrite packet_type_from_as|done]).
  cbn [mbind result_bind]. unfold check_payload_size. rewrite (proj2 (Z.leb_le _ _)) by done.
  cbn [assert_or mbind result_bind]. unfold FRAME_HEADER_SIZE. rewrite (proj2 (Z.ltb_ge _ _)) by lia.
  repeat f_equal. unfold slice. rewrite drop_app_length' by done.
  replace (Z.to_nat (9 + len (fr_payload f) - 9)) with (length (fr_payload f)) by (unfold len; lia).
  rewrite take_app_length. by destruct f.
Qed.

Lemma decode_frame_prefix_inv network input f n :
  decode_frame_prefix network input = Ok (Some (f, n)) ->
  frame_ok f /\ n = len (frame_bytes network f) /\
  input = frame_bytes network f ++ drop (Z.to_nat n) input.
Proof.
  unfold decode_frame_prefix. destruct (Z.ltb_spec (len input) FRAME_HEADER_SIZE) as [|Hl]; [done|].
  intros E. apply bind_Ok in E as ([t k] & Eh & E).
  assert (len (take (Z.to_nat FRAME_HEADER_SIZE) input) = FRAME_HEADER_SIZE) as L9.
  { unfold len, FRAME_HEADER_SIZE in *. rewrite length_take. lia. }
  apply read_frame_header_Ok in Eh as (b & -> & Hk & Eh); [|done].
  apply bind_Ok in E as (u & Ec & E). apply assert_or_Ok, Z.leb_le in Ec.
  destruct (Z.ltb_spec (len input) (FRAME_HEADER_SIZE + k)) as [|Hk2]; [done|]. injection E as <- <-.
  unfold slice, FRAME_HEADER_SIZE in *. replace (Z.to_nat (9 + k - 9)) with (Z.to_nat k) by lia.
  assert (length (take (Z.to_nat k) (drop (Z.to_nat 9) input)) = Z.to_nat k) as Lp.
  { rewrite length_take, length_drop. unfold len in *. lia. }
  assert (len (take (Z.to_nat k) (drop (Z.to_nat 9) input)) = k) as Lk by (unfold len; unfold u32 in Hk; lia).
  split; [|split].
  - split; cbn [fr_payload fr_packet_type]; [by rewrite Lk|apply packet_type_from_canonical].
  - rewrite len_frame_bytes. cbn [fr_payload]. by rewrite Lk.
  - unfold frame_bytes. cbn [fr_payload fr_packet_type]. rewrite packet_type_as_from, Lk.
    unfold frame_header in Eh. rewrite <- !app_assoc.
    rewrite <- (take_drop (Z.to_nat 9) input) at 1. rewrite Eh, <- !app_assoc. do 3 f_equal.
    rewrite <- (take_drop (Z.to_nat k) (drop (Z.to_nat 9) input)) at 1. f_equal.
    rewrite drop_drop. f_equal. unfold u32 in Hk. lia.
Qed.















(** *** Failures *)
Lemma decode_frame_prefix_more network x y :
  match decode_frame_prefix network x with
  | Err e => decode_frame_prefix network (x ++ y) = Err e
  | Ok (Some fn) => decode_frame_prefix network (x ++ y) = Ok (Some fn)
  | Ok None => True
  end.
Proof.
  destruct (decode_frame_prefix network x) as [[[f n]|]|e] eqn:D; [|done|].
  - apply decode_frame_prefix_inv in D as (F & -> & E). rewrite E, <- app_assoc.
    by apply decode_frame_prefix_frame.
  - unfold decode_frame_prefix in *. destruct (Z.ltb_spec (len x) FRAME_HEADER_SIZE) as [|L]; [done|].
    pose proof (len_nonneg y). rewrite len_app, (proj2 (Z.ltb_ge _ _)) by lia.
    rewrite take_app_le by (unfold len in L; lia).
    destruct (run_all WDecode (read_frame_header network) _) as [[t k]|e'] eqn:R;
      cbn [mbind result_bind] in *; [|done].
    destruct (check_payload_size k) as [u|e'] eqn:C; cbn [mbind result_bind] in *; [|done].
    destruct (_ <? _); done.
Qed.

Lemma cut_frames_more network buffered more consumed acc fuel fuel' e :
  cut_frames fuel network buffered consumed acc = Err e -> (fuel <= fuel')%nat ->
  0 <= consumed <= len buffered ->
  cut_frames fuel' network (buffered ++ more) consumed acc = Err e.
Proof.
  revert fuel' consumed acc. induction fuel as [|fuel IH]; intros fuel' consumed acc E L R; [done|].
  destruct fuel' as [|fuel']; [lia|]. cbn [cut_frames] in *. unfold len in R.
  rewrite drop_app_le by lia. pose proof (decode_frame_prefix_more network
    (drop (Z.to_nat consumed) buffered) more) as M.
  destruct (decode_frame_prefix network (drop (Z.to_nat consumed) buffered)) as [[[f n]|]|e'] eqn:D;
    cbn [mbind result_bind] in E; [|done|]; rewrite M; cbn [mbind result_bind]; [|done].
  apply decode_frame_prefix_inv in D as (_ & -> & Ed).
  apply (f_equal len) in Ed. rewrite len_app, len_frame_bytes in Ed.
  pose proof (len_nonneg (fr_payload f)). rewrite len_frame_bytes in *. unfold FRAME_HEADER_SIZE in *.
  pose proof (len_nonneg (drop (Z.to_nat (9 + len (fr_payload f))) (drop (Z.to_nat consumed) buffered))) as Hd.
  unfold len at 1 in Ed. rewrite length_drop in Ed.
  destruct (Z.eqb_spec (consumed + (9 + len (fr_payload f))) (len buffered)) as [|N]; [done|].
  assert (len buffered = Z.of_nat (length buffered)) as Lb by done.
  assert (consumed + (9 + len (fr_payload f)) < len buffered) by lia.
  pose proof (len_nonneg more). rewrite len_app. rewrite (proj2 (Z.eqb_neq _ _)) by lia.
  apply IH; [done|lia|lia].
Qed.

(** C16. A decoder that failed keeps failing: after a push is refused, either the
    input was too long and the decoder is unchanged, or the buffered bytes hold
    a frame with a foreign magic or an oversized length, and every later push
    fails, whatever it adds. No frame after the bad one is ever delivered. *)
Theorem frame_stream_failure d input e d' (E : FrameDecoder_push d input = (Err e, d')) :
  (d' = d /\ MAX_STREAM_BUFFER_SIZE < len (fd_buffered d) + len input) \/
  (fd_buffered d' = fd_buffered d ++ input /\
   forall more, exists e', (FrameDecoder_push d' more).1 = Err e' /\
     (len (fd_buffered d') + len more <= MAX_STREAM_BUFFER_SIZE -> e' = e)).
Proof.
  unfold FrameDecoder_push in E. pose proof (len_nonneg (fd_buffered d)). pose proof (len_nonneg input).
  destruct (checked_add usize_max (len (fd_buffered d)) (len input)) as [total|] eqn:C.
  2: { injection E as <- <-. left. split; [done|]. unfold checked_add in C.
       destruct (Z.leb_spec (len (fd_buffered d) + len input) usize_max); [done|].
       unfold MAX_STREAM_BUFFER_SIZE, FRAME_HEADER_SIZE, MAX_FRAME_PAYLOAD_SIZE. ulia. }
  apply checked_add_Some in C as (-> & Hu).
  destruct (Z.ltb_spec MAX_STREAM_BUFFER_SIZE (len (fd_buffered d) + len input)) as [|Hs].
  { injection E as <- <-. by left. }
  destruct (cut_frames _ _ _ _ _) as [[fs n]|e0] eqn:X; [done|]. injection E as <- <-. right.
  cbn [fd_buffered]. split; [done|]. intros more. unfold FrameDecoder_push. cbn [fd_buffered fd_network].
  set (b := fd_buffered d ++ input) in *. pose proof (len_nonneg more).
  destruct (checked_add usize_max (len b) (len more)) as [total|] eqn:C2.
  2: { eexists. split; [reflexivity|]. intros L. unfold checked_add in C2.
       destruct (Z.leb_spec (len b + len more) usize_max) as [|L']; [done|].
       unfold MAX_STREAM_BUFFER_SIZE, FRAME_HEADER_SIZE, MAX_FRAME_PAYLOAD_SIZE in L. ulia. }
  apply checked_add_Some in C2 as (-> & _).
  destruct (Z.ltb_spec MAX_STREAM_BUFFER_SIZE (len b + len more)); [eexists; split; [reflexivity|lia]|].
  rewrite (cut_frames_more _ b more 0 [] (S (length b)) (S (length (b ++ more))) e0 X).
  - by eexists.
  - rewrite length_app. lia.
  - split; [lia|]. apply len_nonneg.
Qed.

Lemma frame_stream_failure_witness :
  FrameDecoder_push (FrameDecoder_new Regtest) (zeros 9) =
    (Err (NetworkMagicMismatch 0xae3895cf 0), mkFrameDecoder Regtest (zeros 9)) /\
  exists e, (FrameDecoder_push (mkFrameDecoder Regtest (zeros 9)) (zeros 3)).1 = Err e.
Proof.
  assert (FrameDecoder_push (FrameDecoder_new Regtest) (zeros 9) =
    (Err (NetworkMagicMismatch 0xae3895cf 0), mkFrameDecoder Regtest (zeros 9))) as E
    by (vm_compute; reflexivity).
  split; [exact E|]. destruct (frame_stream_failure _ _ _ _ E) as [(_ & L)|(_ & F)].
  - exfalso. vm_compute in L. discriminate L.
  - destruct (F (zeros 3)) as (e & He & _). exists e. exact He.
Defined.
