(* ===== verification/PacketCodec.v ===== *)
(** * hns-p2p-wire: the packet codec

    The payload codec of [Packet] (modelled in [Wire]) proved packet by packet:
    the canonical bytes of each packet, the field types and limits under which
    they are written and read back, and what the lossy reader keeps. *)
From stdpp Require Import gmap.
From S2P Require Import Prelude Encoding Primitives Covenants Transaction U256 Header Block CompactBlock Urkel Wire.
Local Open Scope Z_scope.

(** ** Packets as bytes

    [pkt_bytes] is the canonical payload of a packet, [pkt_typed] its field types
    with the spellings the decoder can produce, [pkt_fits] the limits. Decoding
    is lossy: reserved words, foreign host kinds and high text bits are dropped,
    so a reader promises only that it took as many bytes as the canonical
    encoding has. *)
Definition lossy {E A} (m : decM E A) (enc : A -> list byte) (P : A -> Prop) : Prop :=
  forall d v d', dec_wf d -> m d = (Ok v, d') ->
    exists bs, took d bs d' /\ len bs = len (enc v) /\ P v.

Lemma lossy_exact {E A} (m : decM E A) enc (P : A -> Prop) :
  (forall d v d', dec_wf d -> m d = (Ok v, d') -> took d (enc v) d' /\ P v) -> lossy m enc P.
Proof. intros H d v d' W E0. destruct (H d v d' W E0) as (T & HP). by exists (enc v). Qed.

Lemma lossy_n {E A} (m : decM E A) enc P n d xs d' :
  lossy m enc P -> dec_wf d -> read_n n m d = (Ok xs, d') ->
  exists bs, took d bs d' /\ len bs = len (mjoin (enc <$> xs)) /\ Forall P xs /\ length xs = n.
Proof.
  intros L. revert d xs d'. induction n as [|n IH]; intros d xs d' W H; cbn [read_n] in H.
  - apply dec_ret_Ok in H as (<- & ->). exists []. split; [by apply took_refl|]. by repeat split.
  - dbind H as x d1 H1. dbind H as ys d2 H2. apply dec_ret_Ok in H as (<- & ->).
    destruct (L _ _ _ W H1) as (b1 & T1 & L1 & P1).
    destruct (IH _ _ _ (took_wf _ _ _ T1) H2) as (b2 & T2 & L2 & P2 & <-).
    exists (b1 ++ b2). split; [by eapply took_trans|].
    rewrite fmap_cons', join_cons, !len_app. split; [lia|]. split; [by constructor|done].
Qed.

(** Writing a list item by item. *)
Lemma try_fold_put {A} (put : Encoder -> A -> result WireError Encoder) (enc : A -> list byte)
    (P : A -> Prop) xs e e' :
  (forall e x e', x ∈ xs -> put e x = Ok e' <-> P x /\ e' = mkEncoder (bytes e ++ enc x)) ->
  try_fold put e xs = Ok e' <-> Forall P xs /\ e' = mkEncoder (bytes e ++ mjoin (enc <$> xs)).
Proof.
  revert e. induction xs as [|x xs IH]; intros e H; cbn [try_fold].
  { cbn. rewrite app_nil_r. destruct e. split; [by intros [= <-]|by intros [_ ->]]. }
  rewrite bind_Ok, Forall_cons, fmap_cons', join_cons.
  assert (forall e1, put e x = Ok e1 <-> P x /\ e1 = mkEncoder (bytes e ++ enc x)) as Hx
    by (intros e1; apply H; apply elem_of_cons; by left).
  assert (forall e0, try_fold put e0 xs = Ok e' <->
    Forall P xs /\ e' = mkEncoder (bytes e0 ++ mjoin (enc <$> xs))) as IH'
    by (intros e0; apply IH; intros; apply H; apply elem_of_cons; by right). split.
  - intros (e1 & E1 & E). apply Hx in E1 as (Px & ->). apply IH' in E as (F & ->). cbn [bytes]. by rewrite <- app_assoc.
  - intros ((Px & F) & ->). eexists. split; [by apply Hx|]. apply IH'. cbn [bytes].
    by rewrite <- app_assoc.
Qed.

(** *** Counts and text *)
Lemma read_count_inv context maximum d n d' :
  dec_wf d -> read_count context maximum d = (Ok n, d') ->
  took d (compact_bytes n) d' /\ 0 <= n <= maximum.
Proof.
  intros W H. unfold read_count in H. dbind H as k d1 H1. dbind H as u d2 H2.
  apply dec_ret_Ok in H as (<- & ->). apply assert_or_Ok, Z.leb_le in H2. took_all. split; [done|]. ulia.
Qed.

Lemma read_count_reads context maximum d n :
  0 <= n <= maximum -> n <= u64_max -> reads d (read_count context maximum) (compact_bytes n) n.
Proof.
  intros R B. unfold read_count. eapply reads_last; [apply reads_err, read_compact_reads; ulia|].
  eapply reads_nil_bind; [apply reads_assert, Z.leb_le; lia|]. apply reads_ret.
Qed.

Lemma read_bounded_index_inv context d n d' :
  dec_wf d -> read_bounded_index context d = (Ok n, d') ->
  took d (compact_bytes n) d' /\ 0 <= n <= u16_max.
Proof. apply (read_count_inv context u16_max). Qed.

Lemma read_bounded_index_reads context d n :
  0 <= n <= u16_max -> reads d (read_bounded_index context) (compact_bytes n) n.
Proof. intros R. apply (read_count_reads context u16_max); [done|ulia]. Qed.

Definition ascii (s : list byte) : Prop := Forall (fun b => b2z b < 128) s.

Lemma is_ascii_spec s : is_ascii s = true <-> ascii s.
Proof.
  unfold is_ascii, ascii. rewrite forallb_forall, Forall_forall. split; intros H x I.
  - apply Z.ltb_lt, H. by apply list_elem_of_In.
  - apply Z.ltb_lt, H. by apply list_elem_of_In.
Qed.

Lemma check_ascii_Ok context s maximum u :
  check_ascii_u8 context s maximum = Ok u <-> len s <= maximum /\ ascii s.
Proof.
  unfold check_ascii_u8. rewrite bind_Ok. split.
  - intros (v & L & A). apply assert_or_Ok, Z.leb_le in L. by apply assert_or_Ok, is_ascii_spec in A.
  - intros (L & A). exists tt. split; [by apply assert_or_Ok, Z.leb_le|].
    by apply assert_or_Ok, is_ascii_spec.
Qed.

Lemma ascii_land_7f b : Z.land (b2z b) 0x7f = b2z b mod 128.
Proof. change 0x7f with (Z.ones 7). by rewrite Z.land_ones by lia. Qed.

Lemma decode_hsd_ascii_ascii s : ascii (decode_hsd_ascii s).
Proof.
  unfold ascii, decode_hsd_ascii. apply Forall_fmap, Forall_forall. intros b _. cbn.
  rewrite ascii_land_7f. pose proof (Z.mod_pos_bound (b2z b) 128 ltac:(lia)). rewrite z2b_small by lia. lia.
Qed.

Lemma decode_hsd_ascii_id s : ascii s -> decode_hsd_ascii s = s.
Proof.
  intros F. unfold decode_hsd_ascii. rewrite <- (list_fmap_id s) at 2. apply list_fmap_ext.
  intros i b Hb. rewrite ascii_land_7f. eapply Forall_lookup_1 in F; [|done]. pose proof (b2z_range b).
  rewrite Z.mod_small by lia. apply z2b_b2z.
Qed.

Lemma len_decode_hsd_ascii s : len (decode_hsd_ascii s) = len s.
Proof. unfold len, decode_hsd_ascii. by rewrite length_fmap. Qed.

(** *** Network addresses *)
Definition netaddr_bytes (a : NetAddress) : list byte :=
  to_le_bytes 8 (na_time a) ++ to_le_bytes 4 (wrap 32 (na_services a)) ++ to_le_bytes 4 0 ++ [x00] ++
  na_ip a ++ zeros 20 ++ to_le_bytes 2 (na_port a) ++ na_key a.

Definition netaddr_typed (a : NetAddress) : Prop :=
  u64 (na_time a) /\ u32 (na_services a) /\ len (na_ip a) = 16 /\ u16 (na_port a) /\ len (na_key a) = 33.

Lemma bytes_put_netaddr e a : bytes (NetAddress_encode_to e a) = bytes e ++ netaddr_bytes a.
Proof.
  unfold NetAddress_encode_to, netaddr_bytes. autorewrite with enc. by rewrite <- !app_assoc.
Qed.
#[export] Hint Rewrite bytes_put_netaddr : enc.

Lemma len_netaddr_bytes a : netaddr_typed a -> len (netaddr_bytes a) = NET_ADDRESS_SIZE.
Proof.
  intros (_ & _ & Li & _ & Lk). unfold netaddr_bytes, NET_ADDRESS_SIZE. slen.
  change (len (zeros 20)) with 20. lia.
Qed.

Lemma NetAddress_decode_reads d a :
  netaddr_typed a -> reads d NetAddress_decode_from (netaddr_bytes a) a.
Proof.
  intros (Ht & Hs & Li & Hp & Lk). unfold NetAddress_decode_from, netaddr_bytes, wrap.
  rewrite Z.mod_small by ulia. rewrite <- (app_nil_r (na_key a)), (app_assoc (na_ip a)).
  do 2 reads_step. eapply reads_bind; [by apply reads_err, read_u32_reads|]. reads_step.
  eapply reads_bind.
  { apply reads_err, read_array_reads. rewrite len_app, Li. done. }
  cbv zeta. change (b2z x00 =? 0) with true. cbv iota.
  rewrite take_app_length' by (unfold len in Li; lia). do 2 reads_step. destruct a. apply reads_ret.
Qed.

Lemma NetAddress_decode_lossy : lossy NetAddress_decode_from netaddr_bytes netaddr_typed.
Proof.
  intros d a d' W H. unfold NetAddress_decode_from in H.
  dbind H as t d1 H1. dbind H as s d2 H2. dbind H as w d3 H3. dbind H as k d4 H4.
  dbind H as h d5 H5. dbind H as p d6 H6. dbind H as ky d7 H7. took_all.
  apply dec_ret_Ok in H as (<- & ->).
  assert (netaddr_typed (mkNetAddress t s (if b2z k =? 0 then take 16 h else zeros 16) p ky)) as Ty.
  { split; [done|]. split; [done|]. split; [|done]. cbn [na_ip]. destruct (b2z k =? 0); [|done].
    unfold len in *. rewrite length_take. lia. }
  eexists. split; [took_chain|]. split; [|done].
  rewrite (len_netaddr_bytes _ Ty). unfold NET_ADDRESS_SIZE. slen. lia.
Qed.

(** *** Version packets *)
Definition version_bytes (p : VersionPacket) : list byte :=
  to_le_bytes 4 (vp_version p) ++ to_le_bytes 4 (wrap 32 (vp_services p)) ++ to_le_bytes 4 0 ++
  to_le_bytes 8 (vp_time p) ++ netaddr_bytes (vp_remote p) ++ vp_nonce p ++
  [z2b (len (vp_agent p))] ++ vp_agent p ++ to_le_bytes 4 (vp_height p) ++
  [if vp_no_relay p then x01 else x00].

Definition version_typed (p : VersionPacket) : Prop :=
  u32 (vp_version p) /\ u32 (vp_services p) /\ u64 (vp_time p) /\ netaddr_typed (vp_remote p) /\
  len (vp_nonce p) = 8 /\ u32 (vp_height p).
Definition version_fits (p : VersionPacket) : Prop := len (vp_agent p) <= 255 /\ ascii (vp_agent p).

Lemma encode_version_Ok p e e' :
  encode_version p e = Ok e' <-> version_fits p /\ e' = mkEncoder (bytes e ++ version_bytes p).
Proof.
  unfold encode_version, version_fits, version_bytes. rewrite bind_Ok. split.
  - intros (u & C & [= <-]). apply check_ascii_Ok in C. split; [done|].
    apply encoder_eq. autorewrite with enc. by rewrite <- !app_assoc.
  - intros (F & ->). exists tt. split; [by apply check_ascii_Ok|]. f_equal.
    apply encoder_eq. autorewrite with enc. by rewrite <- !app_assoc.
Qed.

Lemma decode_version_reads d p :
  version_typed p -> version_fits p -> reads d decode_version (version_bytes p) p.
Proof.
  intros (Hv & Hs & Ht & Hr & Hn & Hh) (La & Aa). unfold decode_version, version_bytes, wrap.
  pose proof (len_nonneg (vp_agent p)). rewrite Z.mod_small by ulia. do 2 reads_step.
  eapply reads_bind; [by apply reads_err, read_u32_reads|]. reads_step.
  eapply reads_bind; [by apply NetAddress_decode_reads|]. do 2 reads_step.
  eapply reads_bind.
  { apply reads_err, read_slice_reads. rewrite z2b_small by lia. reflexivity. }
  reads_step. eapply reads_last; [apply reads_err, read_u8_reads|].
  rewrite decode_hsd_ascii_id by done. destruct p as [? ? ? ? ? ? ? []]; apply reads_ret.
Qed.

Lemma read_slice_of d (b : byte) s d' :
  dec_wf d -> read_slice (b2z b) d = (Ok s, d') -> took d s d' /\ len s = b2z b.
Proof. intros W H. pose proof (b2z_range b). apply read_slice_inv in H; [done|lia|done]. Qed.

Lemma decode_version_lossy :
  lossy decode_version version_bytes (fun p => version_typed p /\ version_fits p).
Proof.
  intros d p d' W H. unfold decode_version in H.
  dbind H as v d1 Q1. dbind H as s d2 Q2. dbind H as w d3 Q3. dbind H as t d4 Q4. took_all.
  dbind H as r d5 Q5. apply NetAddress_decode_lossy in Q5 as (rb & T5 & L5 & R5); [|done].
  dbind H as n d6 Q6. dbind H as al d7 Q7. took_all.
  dbind H as a d8 Q8. apply read_slice_of in Q8 as (T8 & L8); [|done].
  dbind H as h d9 Q9. dbind H as nr d10 Q10. took_all. apply dec_ret_Ok in H as (<- & ->).
  pose proof (b2z_range al). eexists. split; [took_chain|].
  unfold version_typed, version_fits, version_bytes.
  cbn [vp_version vp_services vp_time vp_remote vp_nonce vp_agent vp_height vp_no_relay].
  rewrite !len_app, !len_decode_hsd_ascii. split; [slen; lia|]. split; [done|].
  split; [lia|apply decode_hsd_ascii_ascii].
Qed.

(** *** Inventories *)
Definition inventory_bytes (i : Inventory) : list byte :=
  to_le_bytes 4 (InventoryKind_as_u32 (inv_kind i)) ++ inv_hash i.
Definition inventory_typed (i : Inventory) : Prop :=
  u32 (InventoryKind_as_u32 (inv_kind i)) /\
  InventoryKind_from_u32 (InventoryKind_as_u32 (inv_kind i)) = inv_kind i /\ len (inv_hash i) = 32.

Lemma inventory_as_from v : InventoryKind_as_u32 (InventoryKind_from_u32 v) = v.
Proof.
  unfold InventoryKind_from_u32.
  repeat match goal with |- context [match ?x with _ => _ end] => is_var x; destruct x end; done.
Qed.

Lemma bytes_put_inventory e i : bytes (put_inventory e i) = bytes e ++ inventory_bytes i.
Proof. unfold put_inventory, inventory_bytes. autorewrite with enc. by rewrite <- app_assoc. Qed.

Definition counted {A} (enc : A -> list byte) (xs : list A) : list byte :=
  compact_bytes (len xs) ++ mjoin (enc <$> xs).

Lemma check_count_Ok context actual maximum u :
  check_count context actual maximum = Ok u <-> actual <= maximum.
Proof. unfold check_count. by rewrite assert_or_Ok, Z.leb_le. Qed.

Lemma encode_inventory_Ok items e e' :
  encode_inventory items e = Ok e' <->
  len items <= MAX_INVENTORY_ITEMS /\ e' = mkEncoder (bytes e ++ counted inventory_bytes items).
Proof.
  unfold encode_inventory, counted. rewrite bind_Ok.
  assert (foldl put_inventory (put_compact_size e (len items)) items =
    mkEncoder (bytes e ++ compact_bytes (len items) ++ mjoin (inventory_bytes <$> items))) as ->.
  { apply encoder_eq. rewrite (bytes_foldl _ inventory_bytes) by apply bytes_put_inventory.
    autorewrite with enc. by rewrite <- app_assoc. }
  split.
  - intros (u & C & [= <-]). by apply check_count_Ok in C.
  - intros (L & ->). exists tt. split; [by apply check_count_Ok|done].
Qed.

Lemma read_inventory_inv d i d' :
  dec_wf d -> read_inventory d = (Ok i, d') -> took d (inventory_bytes i) d' /\ inventory_typed i.
Proof.
  intros W H. unfold read_inventory in H. dbind H as k d1 Q1. dbind H as h d2 Q2. took_all.
  apply dec_ret_Ok in H as (<- & ->). unfold inventory_bytes, inventory_typed. cbn [inv_kind inv_hash].
  rewrite inventory_as_from. split; [took_chain|]. done.
Qed.

Lemma read_inventory_reads d i : inventory_typed i -> reads d read_inventory (inventory_bytes i) i.
Proof.
  intros (Hk & Ek & Lh). unfold read_inventory, inventory_bytes. reads_step.
  eapply reads_last; [by apply reads_err, read_array_reads|]. rewrite Ek. destruct i. apply reads_ret.
Qed.

(** A counted list of items, read back. *)
Lemma counted_reads {A} context maximum (m : decM WireError A) enc P d xs :
  (forall d x, P x -> reads d m (enc x) x) -> Forall P xs -> len xs <= maximum -> maximum <= u64_max ->
  reads d (count ← read_count context maximum; read_n (Z.to_nat count) m) (counted enc xs) xs.
Proof.
  intros R F L B. unfold counted. pose proof (len_nonneg xs).
  eapply reads_bind; [apply read_count_reads; lia|].
  unfold len. rewrite Nat2Z.id. apply reads_n. intros d' x I. apply R. by eapply Forall_forall.
Qed.

Lemma counted_lossy {A} context maximum (m : decM WireError A) enc P :
  lossy m enc P ->
  lossy (count ← read_count context maximum; read_n (Z.to_nat count) m) (counted enc)
    (fun xs => Forall P xs /\ len xs <= maximum).
Proof.
  intros L d xs d' W H. dbind H as n d1 Q1. apply read_count_inv in Q1 as (T1 & R1); [|done].
  apply (lossy_n _ _ _ _ _ _ _ L) in H as (bs & T2 & L2 & F & Ln); [|by eapply took_wf].
  assert (len xs = n) as Lx by (unfold len; lia).
  eexists. split; [by eapply took_trans|]. unfold counted. rewrite !len_app, Lx.
  split; [lia|]. split; [done|lia].
Qed.

Lemma bind_assoc_reads {A B C} (m : decM WireError A) (f : A -> decM WireError B) (g : B -> decM WireError C) d :
  (x ← m; y ← f x; g y) d = (y ← (x ← m; f x); g y) d.
Proof. unfold mbind, decM_bind. by destruct (m d) as [[x|e] d1]. Qed.

(** Wrapping the result of a reader. *)
Lemma lossy_map {A B} (m : decM WireError A) enc P (g : A -> B) enc' Q :
  lossy m enc P -> (forall x, P x -> len (enc' (g x)) = len (enc x) /\ Q (g x)) ->
  lossy (x ← m; mret (g x)) enc' Q.
Proof.
  intros L H d v d' W E. dbind E as x d1 E1. apply dec_ret_Ok in E as (<- & ->).
  destruct (L _ _ _ W E1) as (bs & T & Lb & Px). apply H in Px as (Le & Qx).
  exists bs. split; [done|]. split; [lia|done].
Qed.

Lemma reads_map {A B} (m : decM WireError A) (g : A -> B) d bs x :
  reads d m bs x -> reads d (x ← m; mret (g x)) bs (g x).
Proof. intros R. eapply reads_last; [exact R|apply reads_ret]. Qed.

(** *** Reject packets *)
Definition reject_bytes (p : RejectPacket) : list byte :=
  [PacketType_as_u8 (rp_message p)] ++ [rp_code p] ++ [z2b (len (rp_reason p))] ++ rp_reason p ++
  default [] (rp_hash p).
Definition reject_typed (p : RejectPacket) : Prop :=
  type_canonical (rp_message p) /\ match rp_hash p with Some h => len h = 32 | None => True end.
Definition reject_fits (p : RejectPacket) : Prop :=
  (len (rp_reason p) <= 255 /\ ascii (rp_reason p)) /\
  (carries_reject_hash (rp_message p) = true <-> is_Some (rp_hash p)).

Lemma encode_reject_Ok p e e' :
  encode_reject p e = Ok e' <-> reject_fits p /\ e' = mkEncoder (bytes e ++ reject_bytes p).
Proof.
  unfold encode_reject, reject_fits. cbv zeta.
  set (x := match rp_hash p with Some hash => put_bytes _ hash | None => _ end).
  assert (x = mkEncoder (bytes e ++ reject_bytes p)) as ->.
  { apply encoder_eq. unfold x, reject_bytes.
    destruct (rp_hash p); cbn [default]; autorewrite with enc; rewrite ?app_nil_r; by rewrite <- !app_assoc. }
  rewrite bind_Ok. split.
  - intros (u & C & E). apply check_ascii_Ok in C. apply bind_Ok in E as (u' & B & [= <-]).
    apply assert_or_Ok, eqb_prop in B. split; [|done]. split; [done|].
    rewrite B. apply bool_decide_eq_true.
  - intros ((A & B) & ->). exists tt. split; [by apply check_ascii_Ok|]. apply bind_Ok. exists tt.
    split; [|done]. apply assert_or_Ok. apply eqb_true_iff, eq_true_iff_eq.
    by rewrite bool_decide_eq_true.
Qed.

Lemma decode_reject_reads d p :
  reject_typed p -> reject_fits p -> reads d decode_reject (reject_bytes p) p.
Proof.
  intros (Ct & Lh) ((Lr & Ar) & Hh). unfold decode_reject, reject_bytes.
  pose proof (len_nonneg (rp_reason p)). reads_step. rewrite packet_type_from_as by done. cbv zeta.
  do 2 reads_step. eapply reads_bind.
  { apply reads_err, read_slice_reads. rewrite z2b_small by lia. reflexivity. }
  rewrite decode_hsd_ascii_id by done. destruct p as [m c r h]. cbn [rp_message rp_code rp_reason rp_hash] in *.
  destruct h as [h|]; cbn [default].
  - rewrite (proj2 Hh) by done. eapply reads_last; [|apply reads_ret].
    eapply reads_last; [by apply reads_err, read_array_reads|apply reads_ret].
  - destruct (carries_reject_hash m).
    + destruct (proj1 Hh eq_refl) as [? ?]. done.
    + eapply reads_nil_bind; [apply reads_ret|apply reads_ret].
Qed.

Lemma decode_reject_lossy :
  lossy decode_reject reject_bytes (fun p => reject_typed p /\ reject_fits p).
Proof.
  intros d p d' W H. unfold decode_reject in H. dbind H as m d1 Q1. cbv zeta in H.
  dbind H as c d2 Q2. dbind H as rl d3 Q3. took_all.
  dbind H as r d4 Q4. apply read_slice_of in Q4 as (T4 & L4); [|done]. pose proof (took_wf _ _ _ T4).
  dbind H as h d5 Q5. apply dec_ret_Ok in H as (<- & ->). pose proof (b2z_range rl).
  pose proof (packet_type_from_canonical m) as Cm. set (t := PacketType_from_u8 m) in *.
  pose proof (decode_hsd_ascii_ascii r) as Ar.
  unfold reject_typed, reject_fits, reject_bytes. cbn [rp_message rp_code rp_reason rp_hash].
  rewrite !len_app, !len_decode_hsd_ascii.
  destruct (carries_reject_hash t) eqn:Ct.
  - dbind Q5 as hh d6 Q6. took_all. apply dec_ret_Ok in Q5 as (<- & ->).
    eexists. split; [took_chain|]. cbn [from_option id]. split; [slen; lia|]. split; [done|].
    split; [by split; [lia|]|]. by split; [eexists|].
  - apply dec_ret_Ok in Q5 as (<- & ->). eexists. split; [took_chain|]. cbn [from_option id].
    change (len (@nil byte)) with 0. split; [slen; lia|]. split; [done|].
    split; [by split; [lia|]|]. split; [done|]. by intros [? ?].
Qed.

(** *** Headers and short identifiers *)
Lemma read_header_inv context reason d h d' :
  dec_wf d -> read_header context reason d = (Ok h, d') -> took d (Header_encode h) d' /\ Header_wf h.
Proof.
  intros W H. unfold read_header in H. dbind H as bs d1 Q1.
  apply read_slice_inv in Q1 as (T1 & _); [|by vm_compute|done].
  apply lift_res_Ok in H as (H & ->). apply map_err_Ok, Header_decode_Ok in H as (Wh & <-). done.
Qed.

Lemma read_header_reads context reason d h :
  Header_wf h -> reads d (read_header context reason) (Header_encode h) h.
Proof.
  intros W. unfold read_header. eapply reads_last; [apply reads_err, read_slice_reads, Header_encode_len, W|].
  apply reads_res. by rewrite (proj2 (Header_decode_Ok (Header_encode h) h)).
Qed.

Definition short_id_bytes (s : Z) : list byte :=
  to_le_bytes 4 (wrap 32 s) ++ to_le_bytes 2 (wrap 16 (Z.shiftr s 32)).
Definition short_id_ok (s : Z) : Prop := 0 <= s <= 0x0000ffffffffffff.

Lemma short_id_split s : short_id_ok s ->
  wrap 16 (Z.shiftr s 32) = s / 2 ^ 32 /\ 0 <= s / 2 ^ 32 <= u16_max /\
  Z.lor (Z.shiftl (s / 2 ^ 32) 32) (wrap 32 s) = s.
Proof.
  intros H. unfold short_id_ok in H. rewrite Z.shiftr_div_pow2 by lia. unfold wrap.
  assert (0 <= s / 2 ^ 32 < 2 ^ 16) as R.
  { split; [apply Z.div_pos; lia|]. apply Z.div_lt_upper_bound; lia. }
  split; [by rewrite Z.mod_small|]. split; [ulia|].
  rewrite lor_shiftl_add by (lia || apply Z.mod_pos_bound; lia).
  rewrite Z.mul_comm. symmetry. apply Z.div_mod. lia.
Qed.

Lemma read_short_id_reads d s : short_id_ok s -> reads d read_short_id (short_id_bytes s) s.
Proof.
  intros H. destruct (short_id_split s H) as (Eh & Rh & E). unfold read_short_id, short_id_bytes.
  rewrite Eh. unfold wrap in *. eapply reads_bind.
  { apply reads_err, read_u32_reads. pose proof (Z.mod_pos_bound s (2 ^ 32) ltac:(lia)). ulia. }
  eapply reads_last; [by apply reads_err, read_u16_reads|]. rewrite E. apply reads_ret.
Qed.

Lemma read_short_id_inv d s d' :
  dec_wf d -> read_short_id d = (Ok s, d') -> took d (short_id_bytes s) d' /\ short_id_ok s.
Proof.
  intros W H. unfold read_short_id in H. dbind H as lo d1 Q1. dbind H as hi d2 Q2. took_all.
  apply dec_ret_Ok in H as (<- & ->). rewrite lor_shiftl_add by ulia.
  assert (short_id_ok (hi * 2 ^ 32 + lo)) as Ok0 by (unfold short_id_ok; ulia).
  split; [|done]. unfold short_id_bytes. destruct (short_id_split _ Ok0) as (-> & _). unfold wrap.
  rewrite Z.div_add_l, (Z.div_small lo), Z.add_0_r by ulia.
  rewrite Z.add_comm, Z.mod_add, Z.mod_small by ulia. took_chain.
Qed.

Lemma bytes_put_short_id e s : bytes (put_short_id e s) = bytes e ++ short_id_bytes s.
Proof. unfold put_short_id, short_id_bytes. autorewrite with enc. by rewrite <- app_assoc. Qed.

(** *** Compact blocks *)
Definition prefilled_bytes (p : PrefilledTransaction) : list byte :=
  compact_bytes (pre_index p) ++ tx_bytes (pre_transaction p).
Definition compact_block_bytes (c : CompactBlock) : list byte :=
  Header_encode (cb_header c) ++ cb_key_nonce c ++ counted short_id_bytes (cb_short_ids c) ++
  counted prefilled_bytes (cb_prefilled c).

Definition compact_typed (c : CompactBlock) : Prop :=
  Header_wf (cb_header c) /\ len (cb_key_nonce c) = 8 /\ Forall (fun s => 0 <= s) (cb_short_ids c) /\
  Forall (fun p => 0 <= pre_index p /\ Transaction_wf (pre_transaction p)) (cb_prefilled c).
Definition compact_fits (c : CompactBlock) : Prop :=
  is_ok (validate_layout c) = true /\ Forall (fun p => tx_fits (pre_transaction p)) (cb_prefilled c).

Lemma is_ok_Ok {E A} (r : result E A) : is_ok r = true <-> exists a, r = Ok a.
Proof. destruct r; cbn; split; [by eexists|done|done|by intros (? & ?)]. Qed.

Lemma put_prefilled_Ok p e e' :
  Transaction_wf (pre_transaction p) ->
  put_prefilled e p = Ok e' <->
  tx_fits (pre_transaction p) /\ e' = mkEncoder (bytes e ++ prefilled_bytes p).
Proof.
  intros (_ & _ & W & _). unfold put_prefilled. rewrite bind_Ok. setoid_rewrite map_err_Ok.
  setoid_rewrite (Transaction_encode_Ok _ _ W). unfold prefilled_bytes. fold (tx_bytes (pre_transaction p)).
  split.
  - intros (bs & (-> & F) & [= <-]). split; [done|]. apply encoder_eq. autorewrite with enc.
    by rewrite <- app_assoc.
  - intros (F & ->). eexists. split; [by split|]. f_equal. apply encoder_eq. autorewrite with enc.
    by rewrite <- app_assoc.
Qed.

Lemma CompactBlock_encode_to_Ok c e e' :
  compact_typed c ->
  CompactBlock_encode_to c e = Ok e' <->
  compact_fits c /\ e' = mkEncoder (bytes e ++ compact_block_bytes c).
Proof.
  intros (_ & _ & _ & Tp). unfold CompactBlock_encode_to, compact_fits. rewrite is_ok_Ok, bind_Ok.
  cbv zeta. rewrite Forall_forall in Tp.
  setoid_rewrite (try_fold_put put_prefilled prefilled_bytes (fun p => tx_fits (pre_transaction p))).
  2: { intros e0 p e1 I. apply put_prefilled_Ok. by apply Tp. }
  assert (forall F : Prop, F /\ e' = mkEncoder (bytes (put_compact_size (foldl put_short_id
      (put_compact_size (put_bytes (put_bytes e (Header_encode (cb_header c))) (cb_key_nonce c))
        (len (cb_short_ids c))) (cb_short_ids c)) (len (cb_prefilled c))) ++
      mjoin (prefilled_bytes <$> cb_prefilled c)) <-> F /\ e' = mkEncoder (bytes e ++ compact_block_bytes c)) as X.
  { intros F. autorewrite with enc. rewrite (bytes_foldl _ short_id_bytes) by apply bytes_put_short_id.
    autorewrite with enc. unfold compact_block_bytes, counted. by rewrite <- !app_assoc. }
  setoid_rewrite X. setoid_rewrite map_err_Ok. split.
  - intros (n & V & F & ->). split; [|done]. split; [by eexists|done].
  - intros (((n & V) & F) & ->). by exists n.
Qed.

Lemma absolute_index_range previous i a :
  absolute_prefilled_index previous i = Ok a -> 0 <= i ->
  match previous with Some p => 0 <= p | None => True end -> i <= u16_max /\ 0 <= a <= u16_max.
Proof.
  unfold absolute_prefilled_index. destruct previous as [p|].
  - intros E Hi Hp. apply ok_or_Ok, bind_Some in E as (x & E1 & E). apply checked_add_Some in E1 as (-> & _).
    apply bind_Some in E as (y & E2 & E). apply checked_add_Some in E2 as (-> & _).
    destruct (Z.leb_spec (p + i + 1) u16_max); [|done]. injection E as <-. lia.
  - destruct (Z.leb_spec i u16_max); [|done]. intros [= <-]. lia.
Qed.

Definition prefilled_ok (p : PrefilledTransaction) : Prop :=
  0 <= pre_index p /\ Transaction_wf (pre_transaction p) /\ tx_fits (pre_transaction p).

Lemma read_prefilled_reads d total ps previous last :
  try_fold (check_prefilled_index total) previous ps = Ok last -> Forall prefilled_ok ps ->
  match previous with Some p => 0 <= p | None => True end ->
  reads d (read_prefilled (length ps) total previous) (mjoin (prefilled_bytes <$> ps)) ps.
Proof.
  intros E F. revert d previous E. induction F as [|p ps (Hi & Wt & Ft) F IH]; intros d previous E Hp.
  { apply reads_ret. }
  cbn [try_fold] in E. apply bind_Ok in E as (st & E1 & E). unfold check_prefilled_index in E1.
  apply bind_Ok in E1 as (a & Ea & E1). apply bind_Ok in E1 as (u & Et & [= <-]).
  destruct (absolute_index_range _ _ _ Ea Hi Hp) as (Hu & Ha).
  rewrite fmap_cons', join_cons. cbn [length read_prefilled]. unfold prefilled_bytes at 1.
  rewrite <- app_assoc. eapply reads_bind; [by apply read_bounded_index_reads|].
  eapply reads_nil_bind; [apply reads_res; by rewrite Ea|].
  eapply reads_nil_bind; [apply reads_assert; by apply assert_or_Ok in Et|].
  eapply reads_bind; [by apply reads_err, Transaction_decode_from_reads|].
  eapply reads_last; [apply IH; [exact E|lia]|]. destruct p. apply reads_ret.
Qed.

Lemma read_prefilled_inv total n d previous ps d' :
  dec_wf d -> read_prefilled n total previous d = (Ok ps, d') ->
  took d (mjoin (prefilled_bytes <$> ps)) d' /\ Forall prefilled_ok ps /\ length ps = n.
Proof.
  revert d previous ps d'. induction n as [|n IH]; intros d previous ps d' W H; cbn [read_prefilled] in H.
  { apply dec_ret_Ok in H as (<- & ->). split; [by apply took_refl|done]. }
  dbind H as i d1 Q1. apply read_bounded_index_inv in Q1 as (T1 & R1); [|done].
  dbind H as a d2 Q2. dbind H as u d3 Q3. dbind H as tx d4 Q4.
  pose proof (took_wf _ _ _ T1). apply Transaction_decode_from_inv in Q4 as (T4 & W4 & F4); [|done].
  dbind H as rest d5 Q5. apply IH in Q5 as (T5 & F5 & L5); [|by eapply took_wf].
  apply dec_ret_Ok in H as (<- & ->). rewrite fmap_cons', join_cons. unfold prefilled_bytes at 1.
  rewrite <- app_assoc. cbn [pre_index pre_transaction]. split; [took_chain|]. cbn [length].
  split; [|by rewrite L5]. constructor; [|done]. split; [cbn; lia|done].
Qed.

Lemma layout_inv c total :
  validate_layout c = Ok total ->
  Forall (fun s => s <= 0x0000ffffffffffff) (cb_short_ids c) /\
  exists last, try_fold (check_prefilled_index total) None (cb_prefilled c) = Ok last.
Proof.
  intros E. unfold validate_layout in E. apply bind_Ok in E as (u1 & _ & E).
  apply bind_Ok in E as (u2 & _ & E). apply bind_Ok in E as (u3 & E3 & E).
  apply bind_Ok in E as (last & E4 & [= <-]). split; [|by eexists].
  apply assert_or_Ok, negb_true_iff in E3. apply Forall_forall. intros s I.
  destruct (Z.leb_spec s 0x0000ffffffffffff) as [|L]; [done|]. exfalso.
  apply not_true_iff_false in E3. apply E3, existsb_exists. exists s.
  split; [by apply list_elem_of_In|by apply Z.ltb_lt].
Qed.

Lemma CompactBlock_decode_reads d c :
  compact_typed c -> compact_fits c -> reads d CompactBlock_decode_from (compact_block_bytes c) c.
Proof.
  intros (Wh & Ln & Ts & Tp) (V & Fp). apply is_ok_Ok in V as (total & V).
  pose proof (validate_layout_total _ _ V) as (Et & Rt). pose proof (layout_inv _ _ V) as (Bs & last & Cp).
  pose proof (len_nonneg (cb_short_ids c)). pose proof (len_nonneg (cb_prefilled c)).
  unfold MAX_COMPACT_BLOCK_TRANSACTIONS in *.
  unfold CompactBlock_decode_from, compact_block_bytes, counted. rewrite <- !app_assoc.
  eapply reads_bind; [by apply read_header_reads|]. reads_step.
  eapply reads_bind; [apply read_count_reads; [unfold MAX_COMPACT_BLOCK_TRANSACTIONS; lia|ulia]|].
  eapply reads_bind.
  { unfold len. rewrite Nat2Z.id. apply reads_n. intros d' s I. apply read_short_id_reads.
    rewrite Forall_forall in Ts, Bs. split; [by apply Ts|by apply Bs]. }
  cbv zeta. eapply reads_bind.
  { apply read_count_reads; [|ulia]. unfold saturating_sub, MAX_COMPACT_BLOCK_TRANSACTIONS. lia. }
  assert (saturating_add usize_max (len (cb_short_ids c)) (len (cb_prefilled c)) = total) as ->
    by (unfold saturating_add; ulia).
  eapply reads_last.
  { unfold len. rewrite Nat2Z.id. eapply read_prefilled_reads; [exact Cp| |done].
    apply Forall_forall. intros p I. rewrite Forall_forall in Tp, Fp.
    destruct (Tp p I). split; [done|]. split; [done|]. by apply Fp. }
  destruct c as [h n s p]. cbn [cb_header cb_key_nonce cb_short_ids cb_prefilled] in *.
  eapply reads_nil_bind; [apply reads_res; by rewrite V|]. apply reads_ret.
Qed.

Lemma CompactBlock_decode_inv d c d' :
  dec_wf d -> CompactBlock_decode_from d = (Ok c, d') ->
  took d (compact_block_bytes c) d' /\ compact_typed c /\ compact_fits c.
Proof.
  intros W H. unfold CompactBlock_decode_from in H.
  dbind H as h d1 Q1. apply read_header_inv in Q1 as (T1 & Wh); [|done]. pose proof (took_wf _ _ _ T1).
  dbind H as k d2 Q2. took_all.
  dbind H as n d3 Q3. apply read_count_inv in Q3 as (T3 & R3); [|done]. pose proof (took_wf _ _ _ T3).
  dbind H as ss d4 Q4. apply (read_n_inv _ short_id_bytes short_id_ok) in Q4 as (T4 & F4 & L4);
    [|apply read_short_id_inv|done]. pose proof (took_wf _ _ _ T4). cbv zeta in H.
  dbind H as m d5 Q5. apply read_count_inv in Q5 as (T5 & R5); [|done]. pose proof (took_wf _ _ _ T5).
  dbind H as ps d6 Q6. apply read_prefilled_inv in Q6 as (T6 & F6 & L6); [|done].
  dbind H as v d7 Q7. apply map_err_Ok in Q7. apply dec_ret_Ok in H as (<- & ->).
  unfold compact_block_bytes, counted, compact_typed, compact_fits.
  cbn [cb_header cb_key_nonce cb_short_ids cb_prefilled].
  assert (len ss = n) as -> by (unfold len; lia). assert (len ps = m) as -> by (unfold len; lia).
  rewrite <- !app_assoc. split; [took_chain|]. split.
  - split; [done|]. split; [done|]. split; (eapply Forall_impl; [eassumption|]); [by intros s []|].
    by intros p (? & ? & _).
  - split; [by rewrite Q7|]. eapply Forall_impl; [exact F6|]. by intros p (_ & _ & ?).
Qed.

(** *** Requests and responses *)
Definition request_bytes (r : CompactBlockRequest) : list byte :=
  req_block_hash r ++ compact_bytes (len (req_indexes r)) ++
  mjoin (compact_bytes <$> differentials None (req_indexes r)).
Definition request_typed (r : CompactBlockRequest) : Prop :=
  len (req_block_hash r) = 32 /\ Forall (fun i => 0 <= i) (req_indexes r).
Definition request_fits (r : CompactBlockRequest) : Prop :=
  validate_absolute_indexes (req_indexes r) = Ok tt.

Lemma CompactBlockRequest_encode_to_Ok r e e' :
  CompactBlockRequest_encode_to r e = Ok e' <->
  request_fits r /\ e' = mkEncoder (bytes e ++ request_bytes r).
Proof.
  unfold CompactBlockRequest_encode_to, request_fits, request_bytes. cbv zeta. rewrite bind_Ok.
  assert (foldl put_compact_size (put_compact_size (put_bytes e (req_block_hash r)) (len (req_indexes r)))
      (differentials None (req_indexes r)) = mkEncoder (bytes e ++ req_block_hash r ++
      compact_bytes (len (req_indexes r)) ++ mjoin (compact_bytes <$> differentials None (req_indexes r)))) as ->.
  { apply encoder_eq. rewrite (bytes_foldl _ compact_bytes) by (intros; by autorewrite with enc).
    autorewrite with enc. by rewrite <- !app_assoc. }
  setoid_rewrite map_err_Ok. split.
  - by intros ([] & V & [= <-]).
  - intros (V & ->). by exists tt.
Qed.

Definition index_state (previous : option Z) : Prop :=
  match previous with Some p => 0 <= p <= u16_max | None => True end.

Lemma absolute_index_differential previous i :
  0 <= i <= u16_max -> index_state previous ->
  match previous with Some p => i <=? p | None => false end = false ->
  absolute_prefilled_index previous (match previous with Some p => i - p - 1 | None => i end) = Ok i /\
  0 <= match previous with Some p => i - p - 1 | None => i end <= u16_max.
Proof.
  intros Hi Hp Hlt. unfold absolute_prefilled_index. destruct previous as [p|].
  - cbn in Hp. apply Z.leb_gt in Hlt. split; [|lia].
    rewrite (proj2 (checked_add_Some usize_max p (i - p - 1) (i - 1))) by (split; ulia).
    cbn [mbind option_bind].
    rewrite (proj2 (checked_add_Some usize_max (i - 1) 1 i)) by (split; ulia). cbn [mbind option_bind].
    by rewrite (proj2 (Z.leb_le i u16_max)) by lia.
  - split; [|done]. by rewrite (proj2 (Z.leb_le i u16_max)) by lia.
Qed.

Lemma read_indexes_reads d previous ix last :
  try_fold check_absolute_index previous ix = Ok last -> Forall (fun i => 0 <= i) ix ->
  index_state previous ->
  reads d (read_indexes (length ix) previous) (mjoin (compact_bytes <$> differentials previous ix)) ix.
Proof.
  intros E F. revert d previous E. induction F as [|i ix Hi F IH]; intros d previous E Hp; [apply reads_ret|].
  cbn [try_fold] in E. apply bind_Ok in E as (st & E1 & E). unfold check_absolute_index in E1.
  apply bind_Ok in E1 as (u1 & B1 & E1). apply bind_Ok in E1 as (u2 & B2 & [= <-]).
  apply assert_or_Ok, Z.leb_le in B1. apply assert_or_Ok, negb_true_iff in B2.
  destruct (absolute_index_differential previous i ltac:(lia) Hp B2) as (Ea & R).
  cbn [differentials length read_indexes]. rewrite fmap_cons', join_cons.
  eapply reads_bind; [by apply read_bounded_index_reads|].
  eapply reads_nil_bind; [apply reads_res; by rewrite Ea|].
  eapply reads_last; [apply IH; [exact E|cbn; lia]|]. apply reads_ret.
Qed.

Lemma absolute_index_inv previous k a :
  absolute_prefilled_index previous k = Ok a -> 0 <= k -> index_state previous ->
  0 <= a <= u16_max /\ check_absolute_index previous a = Ok (Some a) /\
  match previous with Some p => a - p - 1 | None => a end = k.
Proof.
  unfold absolute_prefilled_index, check_absolute_index. destruct previous as [p|].
  - intros E Hk Hp. cbn in Hp. apply ok_or_Ok, bind_Some in E as (x & E1 & E).
    apply checked_add_Some in E1 as (-> & _). apply bind_Some in E as (y & E2 & E).
    apply checked_add_Some in E2 as (-> & _). destruct (Z.leb_spec (p + k + 1) u16_max); [|done].
    injection E as <-. split; [lia|]. split; [|lia].
    rewrite (proj2 (Z.leb_le (p + k + 1) u16_max)), (proj2 (Z.leb_gt (p + k + 1) p)) by lia. done.
  - destruct (Z.leb_spec k u16_max); [|done]. intros [= <-] Hk _. split; [lia|]. split; [|done].
    by rewrite (proj2 (Z.leb_le k u16_max)) by lia.
Qed.

Lemma read_indexes_inv n d previous ix d' :
  dec_wf d -> read_indexes n previous d = (Ok ix, d') -> index_state previous ->
  took d (mjoin (compact_bytes <$> differentials previous ix)) d' /\
  (exists last, try_fold check_absolute_index previous ix = Ok last) /\
  Forall (fun i => 0 <= i) ix /\ length ix = n.
Proof.
  revert d previous ix d'. induction n as [|n IH]; intros d previous ix d' W H Hp; cbn [read_indexes] in H.
  { apply dec_ret_Ok in H as (<- & ->). split; [by apply took_refl|]. split; [by eexists|]. by split. }
  dbind H as k d1 Q1. apply read_bounded_index_inv in Q1 as (T1 & R1); [|done].
  dbind H as a d2 Q2. apply map_err_Ok in Q2. dbind H as rest d3 Q3.
  destruct (absolute_index_inv _ _ _ Q2 ltac:(lia) Hp) as (Ra & Ck & Ek).
  apply IH in Q3 as (T3 & (last & Cr) & F3 & L3); [|by eapply took_wf|cbn; lia].
  apply dec_ret_Ok in H as (<- & ->). cbn [differentials]. rewrite fmap_cons', join_cons, Ek.
  split; [took_chain|]. cbn [try_fold length]. rewrite Ck, L3. split; [by exists last|].
  split; [constructor; [lia|done]|done].
Qed.

Lemma CompactBlockRequest_decode_reads d r :
  request_typed r -> request_fits r -> reads d CompactBlockRequest_decode_from (request_bytes r) r.
Proof.
  intros (Lh & Ti) V. unfold request_fits, validate_absolute_indexes in V.
  apply bind_Ok in V as (u & Lc & V). apply assert_or_Ok, Z.leb_le in Lc.
  apply bind_Ok in V as (last & V & _). pose proof (len_nonneg (req_indexes r)).
  unfold CompactBlockRequest_decode_from, request_bytes. reads_step.
  eapply reads_bind.
  { apply read_count_reads; [done|]. unfold MAX_COMPACT_BLOCK_TRANSACTIONS in *. ulia. }
  eapply reads_last.
  { unfold len. rewrite Nat2Z.id. by eapply read_indexes_reads. }
  destruct r. apply reads_ret.
Qed.

Lemma CompactBlockRequest_decode_inv d r d' :
  dec_wf d -> CompactBlockRequest_decode_from d = (Ok r, d') ->
  took d (request_bytes r) d' /\ request_typed r /\ request_fits r.
Proof.
  intros W H. unfold CompactBlockRequest_decode_from in H. dbind H as h d1 Q1. took_all.
  dbind H as n d2 Q2. apply read_count_inv in Q2 as (T2 & R2); [|done]. pose proof (took_wf _ _ _ T2).
  dbind H as ix d3 Q3. apply read_indexes_inv in Q3 as (T3 & (last & Cr) & F3 & L3); [|done|exact I].
  apply dec_ret_Ok in H as (<- & ->).
  unfold request_bytes, request_typed, request_fits. cbn [req_block_hash req_indexes].
  assert (len ix = n) as Ln by (unfold len; lia). rewrite Ln.
  split; [took_chain|]. split; [done|]. unfold validate_absolute_indexes.
  by rewrite Ln, (proj2 (Z.leb_le n _)), Cr by lia.
Qed.

Definition response_bytes (r : CompactBlockResponse) : list byte :=
  resp_block_hash r ++ counted tx_bytes (resp_transactions r).
Definition response_typed (r : CompactBlockResponse) : Prop :=
  len (resp_block_hash r) = 32 /\ Forall Transaction_wf (resp_transactions r).
Definition response_fits (r : CompactBlockResponse) : Prop :=
  len (resp_transactions r) <= MAX_COMPACT_BLOCK_TRANSACTIONS /\ Forall tx_fits (resp_transactions r).

Lemma put_wire_transaction_Ok tx e e' :
  Transaction_wf tx ->
  put_wire_transaction e tx = Ok e' <-> tx_fits tx /\ e' = mkEncoder (bytes e ++ tx_bytes tx).
Proof.
  intros (_ & _ & W & _). unfold put_wire_transaction. rewrite bind_Ok. setoid_rewrite map_err_Ok.
  setoid_rewrite (Transaction_encode_Ok _ _ W). fold (tx_bytes tx). split.
  - intros (bs & (-> & F) & [= <-]). split; [done|]. apply encoder_eq. by autorewrite with enc.
  - intros (F & ->). eexists. by split; [split|].
Qed.

Lemma CompactBlockResponse_encode_to_Ok r e e' :
  response_typed r ->
  CompactBlockResponse_encode_to r e = Ok e' <->
  response_fits r /\ e' = mkEncoder (bytes e ++ response_bytes r).
Proof.
  intros (_ & T). unfold CompactBlockResponse_encode_to, response_fits. cbv zeta. rewrite bind_Ok.
  rewrite Forall_forall in T.
  setoid_rewrite (try_fold_put put_wire_transaction tx_bytes tx_fits).
  2: { intros e0 tx e1 I. apply put_wire_transaction_Ok. by apply T. }
  autorewrite with enc. unfold response_bytes, counted. rewrite <- !app_assoc.
  setoid_rewrite check_count_Ok. split.
  - intros (u & L & F & ->). done.
  - intros ((L & F) & ->). by exists tt.
Qed.

Lemma CompactBlockResponse_decode_reads d r :
  response_typed r -> response_fits r ->
  reads d CompactBlockResponse_decode_from (response_bytes r) r.
Proof.
  intros (Lh & T) (L & F). unfold CompactBlockResponse_decode_from, response_bytes, counted.
  pose proof (len_nonneg (resp_transactions r)). reads_step. eapply reads_bind.
  { apply read_count_reads; [done|]. unfold MAX_COMPACT_BLOCK_TRANSACTIONS in *. ulia. }
  eapply reads_last.
  { unfold len. rewrite Nat2Z.id. apply reads_n. intros d' tx I. rewrite Forall_forall in T, F.
    apply reads_err, Transaction_decode_from_reads; [by apply T|by apply F]. }
  destruct r. apply reads_ret.
Qed.

Lemma read_wire_transaction_inv d tx d' :
  dec_wf d -> lift_err WInvalidTransaction Transaction_decode_from d = (Ok tx, d') ->
  took d (tx_bytes tx) d' /\ Transaction_wf tx /\ tx_fits tx.
Proof.
  intros W H. apply lift_err_Ok in H. by apply Transaction_decode_from_inv in H.
Qed.

Lemma CompactBlockResponse_decode_inv d r d' :
  dec_wf d -> CompactBlockResponse_decode_from d = (Ok r, d') ->
  took d (response_bytes r) d' /\ response_typed r /\ response_fits r.
Proof.
  intros W H. unfold CompactBlockResponse_decode_from in H. dbind H as h d1 Q1. took_all.
  dbind H as n d2 Q2. apply read_count_inv in Q2 as (T2 & R2); [|done]. pose proof (took_wf _ _ _ T2).
  dbind H as txs d3 Q3.
  apply (read_n_inv _ tx_bytes (fun tx => Transaction_wf tx /\ tx_fits tx)) in Q3 as (T3 & F3 & L3);
    [|apply read_wire_transaction_inv|done].
  apply dec_ret_Ok in H as (<- & ->). apply Forall_and in F3 as (F3 & F3').
  unfold response_bytes, response_typed, response_fits, counted. cbn [resp_block_hash resp_transactions].
  assert (len txs = n) as Ln by (unfold len; lia). rewrite Ln. split; [took_chain|]. split; [done|].
  split; [lia|done].
Qed.

(** *** Locators *)
Definition locator_bytes (p : LocatorPacket) : list byte := counted (fun h => h) (lp_locator p) ++ lp_stop p.
Definition locator_typed (p : LocatorPacket) : Prop :=
  Forall (fun h => len h = 32) (lp_locator p) /\ len (lp_stop p) = 32.
Definition locator_fits (p : LocatorPacket) : Prop := len (lp_locator p) <= MAX_LOCATOR_HASHES.

Lemma encode_locator_Ok p e e' :
  encode_locator p e = Ok e' <-> locator_fits p /\ e' = mkEncoder (bytes e ++ locator_bytes p).
Proof.
  unfold encode_locator, locator_fits, locator_bytes, counted. cbv zeta. rewrite bind_Ok.
  setoid_rewrite check_count_Ok.
  assert (put_bytes (foldl put_bytes (put_compact_size e (len (lp_locator p))) (lp_locator p)) (lp_stop p) =
    mkEncoder (bytes e ++ (compact_bytes (len (lp_locator p)) ++
      mjoin ((fun h => h) <$> lp_locator p)) ++ lp_stop p)) as ->.
  { apply encoder_eq. autorewrite with enc.
    rewrite (bytes_foldl _ (fun h => h)) by (intros; by autorewrite with enc).
    autorewrite with enc. by rewrite <- !app_assoc. }
  split.
  - by intros (u & L & [= <-]).
  - intros (L & ->). by exists tt.
Qed.

Lemma decode_locator_reads d p :
  locator_typed p -> locator_fits p -> reads d decode_locator (locator_bytes p) p.
Proof.
  intros (Th & Ls) L. unfold decode_locator, locator_bytes, counted. rewrite <- app_assoc.
  pose proof (len_nonneg (lp_locator p)). eapply reads_bind.
  { apply read_count_reads; [done|]. unfold locator_fits, MAX_LOCATOR_HASHES, MAX_INVENTORY_ITEMS in L. ulia. }
  eapply reads_bind.
  { unfold len. rewrite Nat2Z.id. apply reads_n. intros d' h I. rewrite Forall_forall in Th.
    by apply reads_err, read_array_reads, Th. }
  eapply reads_last; [by apply reads_err, read_array_reads|]. destruct p. apply reads_ret.
Qed.

Lemma decode_locator_inv d p d' :
  dec_wf d -> decode_locator d = (Ok p, d') ->
  took d (locator_bytes p) d' /\ locator_typed p /\ locator_fits p.
Proof.
  intros W H. unfold decode_locator in H.
  dbind H as n d1 Q1. apply read_count_inv in Q1 as (T1 & R1); [|done]. pose proof (took_wf _ _ _ T1).
  dbind H as hs d2 Q2.
  apply (read_n_inv _ (fun h => h) (fun h => len h = 32)) in Q2 as (T2 & F2 & L2); [| |done].
  2: { intros d0 h d0' W0 E. apply lift_err_Ok in E. by apply read_array_inv in E. }
  pose proof (took_wf _ _ _ T2). dbind H as s d3 Q3. took_all. apply dec_ret_Ok in H as (<- & ->).
  unfold locator_bytes, locator_typed, locator_fits, counted. cbn [lp_locator lp_stop].
  assert (len hs = n) as Ln by (unfold len; lia). rewrite Ln, <- app_assoc. split; [took_chain|].
  split; [done|]. lia.
Qed.

(** *** Payloads *)
Section packets.
Context {CR : Crypto}.

Definition pkt_bytes (p : Packet) : list byte :=
  match p with
  | PVersion packet => version_bytes packet
  | PVerack | PGetAddr | PSendHeaders | PMempool | PFilterClear => []
  | PPing nonce | PPong nonce => nonce
  | PAddr items => counted netaddr_bytes items
  | PInv items | PGetData items | PNotFound items => counted inventory_bytes items
  | PGetBlocks packet | PGetHeaders packet => locator_bytes packet
  | PHeaders headers => counted Header_encode headers
  | PTx transaction => tx_bytes transaction
  | PReject packet => reject_bytes packet
  | PFeeFilter rate => to_le_bytes 8 (wrap 64 rate)
  | PSendCmpct mode version => [mode] ++ to_le_bytes 8 version
  | PGetProof packet => gp_root packet ++ gp_key packet
  | PProof packet =>
    pp_root packet ++ pp_key packet ++
    match HsdUrkelProof_encode (pp_proof packet) with Ok bs => bs | Err _ => [] end
  | PBlock block => blk_bytes block
  | PCmpctBlock block => compact_block_bytes block
  | PGetBlockTxn request => request_bytes request
  | PBlockTxn response => response_bytes response
  | PFilterLoad payload | PFilterAdd payload | PMerkleBlock payload | PClaim payload
  | PAirdrop payload | PUnknown _ payload => payload
  end.

Definition pkt_typed (p : Packet) : Prop :=
  match p with
  | PVersion packet => version_typed packet
  | PPing nonce | PPong nonce => len nonce = 8
  | PAddr items => Forall netaddr_typed items
  | PInv items | PGetData items | PNotFound items => Forall inventory_typed items
  | PGetBlocks packet | PGetHeaders packet => locator_typed packet
  | PHeaders headers => Forall Header_wf headers
  | PTx transaction => Transaction_wf transaction
  | PReject packet => reject_typed packet
  | PFeeFilter rate => - 2 ^ 63 <= rate < 2 ^ 63
  | PSendCmpct _ version => u64 version
  | PGetProof packet => len (gp_root packet) = 32 /\ len (gp_key packet) = 32
  | PProof packet => len (pp_root packet) = 32 /\ len (pp_key packet) = 32 /\ proof_wf (pp_proof packet)
  | PBlock block => Block_wf block
  | PCmpctBlock block => compact_typed block
  | PGetBlockTxn request => request_typed request
  | PBlockTxn response => response_typed response
  | _ => True
  end.

Definition pkt_fits (p : Packet) : Prop :=
  match p with
  | PVersion packet => version_fits packet
  | PAddr items => len items <= MAX_ADDR_ITEMS
  | PInv items | PGetData items | PNotFound items => len items <= MAX_INVENTORY_ITEMS
  | PGetBlocks packet | PGetHeaders packet => locator_fits packet
  | PHeaders headers => len headers <= MAX_HEADERS
  | PTx transaction => tx_fits transaction
  | PReject packet => reject_fits packet
  | PProof packet => exists bs, HsdUrkelProof_encode (pp_proof packet) = Ok bs
  | PBlock block => block_fits (blk_transactions block)
  | PCmpctBlock block => compact_fits block
  | PGetBlockTxn request => request_fits request
  | PBlockTxn response => response_fits response
  | _ => True
  end.

(** The shapes the arms of [encode_packet] take. *)
Lemma put_always (e1 e e' : Encoder) bs :
  bytes e1 = bytes e ++ bs -> @Ok WireError _ e1 = Ok e' <-> True /\ e' = mkEncoder (bytes e ++ bs).
Proof.
  intros E. assert (e1 = mkEncoder (bytes e ++ bs)) as -> by by apply encoder_eq.
  split; [by intros [= <-]|by intros [_ ->]].
Qed.

Lemma put_counted {A} context maximum (put : Encoder -> A -> Encoder) enc xs e e' :
  (forall e x, bytes (put e x) = bytes e ++ enc x) ->
  (check_count context (len xs) maximum ;; Ok (foldl put (put_compact_size e (len xs)) xs)) = Ok e' <->
  len xs <= maximum /\ e' = mkEncoder (bytes e ++ counted enc xs).
Proof.
  intros B. rewrite bind_Ok. setoid_rewrite check_count_Ok.
  assert (foldl put (put_compact_size e (len xs)) xs = mkEncoder (bytes e ++ counted enc xs)) as ->.
  { apply encoder_eq. rewrite (bytes_foldl _ enc) by done. autorewrite with enc. unfold counted.
    by rewrite <- app_assoc. }
  split; [by intros (u & L & [= <-])|]. intros (L & ->). by exists tt.
Qed.

Lemma put_encoded {E} (g : E -> WireError) (r : result E (list byte)) e e' (P : Prop) bs :
  (forall x, r = Ok x <-> P /\ x = bs) ->
  (encoded ← map_err g r; Ok (put_bytes e encoded)) = Ok e' <-> P /\ e' = mkEncoder (bytes e ++ bs).
Proof.
  intros H. rewrite bind_Ok. setoid_rewrite map_err_Ok. setoid_rewrite H. split.
  - by intros (x & (HP & ->) & [= <-]).
  - intros (HP & ->). by exists bs.
Qed.

Lemma encode_packet_Ok p e e' :
  pkt_typed p -> encode_packet p e = Ok e' <-> pkt_fits p /\ e' = mkEncoder (bytes e ++ pkt_bytes p).
Proof.
  intros T. destruct p; cbn [encode_packet pkt_fits pkt_bytes pkt_typed] in *;
    try (apply put_always; autorewrite with enc; rewrite ?app_nil_r, <- ?app_assoc; reflexivity).
  - apply encode_version_Ok.
  - apply put_counted, bytes_put_netaddr.
  - apply encode_inventory_Ok.
  - apply encode_inventory_Ok.
  - apply encode_inventory_Ok.
  - apply encode_locator_Ok.
  - apply encode_locator_Ok.
  - apply (put_counted _ _ _ Header_encode). intros; by autorewrite with enc.
  - apply put_encoded. intros x. rewrite Block_encode_Ok; [done|]. apply wf_inputs, T.
  - apply put_encoded. intros x. rewrite Transaction_encode_Ok by apply T. unfold tx_bytes. tauto.
  - apply encode_reject_Ok.
  - by apply CompactBlock_encode_to_Ok.
  - apply CompactBlockRequest_encode_to_Ok.
  - by apply CompactBlockResponse_encode_to_Ok.
  - destruct (HsdUrkelProof_encode (pp_proof p)) as [bs|er]; cbn [map_err mbind result_bind].
    + rewrite (put_always _ e e' (pp_root p ++ pp_key p ++ bs)) by (autorewrite with enc; by rewrite <- !app_assoc).
      split; [intros [_ ->]; split; [by eexists|done]|by intros [_ ->]].
    + split; [done|by intros [(? & ?) _]].
Qed.

(** Readers that look at everything left. *)
Definition reads_all {E A} (d : Decoder) (m : decM E A) (bs : list byte) (v : A) : Prop :=
  dec_wf d -> rest d = bs -> m d = (Ok v, advance d (len bs)).

Lemma reads_reads_all {E A} d (m : decM E A) bs v : reads d m bs v -> reads_all d m bs v.
Proof. intros R W H. apply (R []); [done|]. by rewrite app_nil_r. Qed.

Lemma reads_all_bind {E A B} d (f : A -> decM E B) (m : decM E A) b1 b2 v w :
  reads d m b1 v -> reads_all (advance d (len b1)) (f v) b2 w -> reads_all d (m ≫= f) (b1 ++ b2) w.
Proof.
  intros H1 H2 W H. unfold mbind, decM_bind. rewrite (H1 _ W H), H2, advance_advance, len_app; [done| |].
  - by eapply wf_advance.
  - by eapply rest_advance.
Qed.

Lemma reads_all_then {E A B} d (f : A -> decM E B) (m : decM E A) b v w :
  reads_all d m b v -> reads (advance d (len b)) (f v) [] w -> reads_all d (m ≫= f) b w.
Proof.
  intros H1 H2 W H. unfold mbind, decM_bind. rewrite (H1 W H).
  assert (rest d = b ++ []) as H' by by rewrite app_nil_r.
  rewrite (H2 (rest (advance d (len b)))), len_nil, advance_advance, Z.add_0_r; [done| |done].
  by eapply wf_advance.
Qed.

Lemma take_remaining_reads d bs : reads_all d take_remaining bs bs.
Proof.
  intros W H. unfold take_remaining, mbind, decM_bind, dec_get.
  rewrite <- (len_rest d W), H. apply (reads_err d WDecode _ bs bs) with (r := []); [|done|].
  - by apply read_slice_reads.
  - by rewrite app_nil_r.
Qed.

Lemma take_remaining_inv d bs d' :
  dec_wf d -> take_remaining d = (Ok bs, d') -> took d bs d'.
Proof.
  intros W H. unfold take_remaining in H. dbind H as d0 d1 Q. injection Q as <- <-.
  apply lift_err_Ok, read_slice_inv in H as (T & _); [done| |done].
  pose proof (len_rest d W). pose proof (len_nonneg (rest d)). lia.
Qed.

Definition direct (p : Packet) : Prop :=
  match p with PBlock _ | PTx _ | PUnknown _ _ => True | _ => False end.

Lemma as_i64_wrap r : - 2 ^ 63 <= r < 2 ^ 63 -> as_i64 (wrap 64 r) = r.
Proof.
  intros R. unfold as_i64, wrap. destruct (Z.ltb_spec r 0).
  - assert (r mod 2 ^ 64 = r + 2 ^ 64) as ->
      by (symmetry; apply Z.mod_unique with (q := -1); [left; lia|lia]).
    destruct (Z.ltb_spec (r + 2 ^ 64) (2 ^ 63)); lia.
  - rewrite Z.mod_small by lia. destruct (Z.ltb_spec r (2 ^ 63)); lia.
Qed.

Lemma read_packet_reads d p :
  ~ direct p -> pkt_typed p -> pkt_fits p ->
  reads_all d (read_packet (Packet_packet_type p)) (pkt_bytes p) p.
Proof.
  intros D T F. destruct p; cbn [direct read_packet Packet_packet_type pkt_typed pkt_fits pkt_bytes] in *;
    try (by destruct D); try (apply reads_reads_all, reads_ret);
    try (eapply reads_all_then; [apply take_remaining_reads|apply reads_ret]).
  - by apply reads_reads_all, reads_map, decode_version_reads.
  - by apply reads_reads_all, reads_map, reads_err, read_array_reads.
  - by apply reads_reads_all, reads_map, reads_err, read_array_reads.
  - apply reads_reads_all. intros r W H. rewrite bind_assoc_reads. revert r W H.
    apply reads_map. eapply counted_reads; [apply NetAddress_decode_reads|done|done|by vm_compute].
  - apply reads_reads_all, reads_map. eapply counted_reads; [apply read_inventory_reads|done|done|by vm_compute].
  - apply reads_reads_all, reads_map. eapply counted_reads; [apply read_inventory_reads|done|done|by vm_compute].
  - apply reads_reads_all, reads_map. eapply counted_reads; [apply read_inventory_reads|done|done|by vm_compute].
  - by apply reads_reads_all, reads_map, decode_locator_reads.
  - by apply reads_reads_all, reads_map, decode_locator_reads.
  - apply reads_reads_all. intros r W H. rewrite bind_assoc_reads. revert r W H.
    apply reads_map. eapply counted_reads; [intros; by apply read_header_reads|done|done|by vm_compute].
  - by apply reads_reads_all, reads_map, decode_reject_reads.
  - rewrite <- (as_i64_wrap rate) at 2 by done. apply reads_reads_all.
    apply (reads_map _ (fun r => PFeeFilter (as_i64 r))), reads_err, read_u64_reads.
    unfold wrap. pose proof (Z.mod_pos_bound rate (2 ^ 64) ltac:(lia)). ulia.
  - apply reads_reads_all. reads_step.
    by apply (reads_map _ (PSendCmpct mode)), reads_err, read_u64_reads.
  - by apply reads_reads_all, reads_map, CompactBlock_decode_reads.
  - by apply reads_reads_all, reads_map, CompactBlockRequest_decode_reads.
  - by apply reads_reads_all, reads_map, CompactBlockResponse_decode_reads.
  - destruct p as [root key]. cbn [gp_root gp_key] in *. destruct T. apply reads_reads_all.
    eapply reads_bind; [by apply reads_err, read_array_reads|].
    eapply reads_last; [by apply reads_err, read_array_reads|]. apply reads_ret.
  - destruct p as [root key proof]. cbn [pp_root pp_key pp_proof] in *. destruct T as (? & ? & Wp).
    destruct F as (bs & F). rewrite F.
    eapply reads_all_bind; [by apply reads_err, read_array_reads|].
    eapply reads_all_bind; [by apply reads_err, read_array_reads|].
    eapply reads_all_then; [apply take_remaining_reads|].
    eapply reads_nil_bind; [apply reads_res|apply reads_ret].
    by rewrite (proj2 (HsdUrkelProof_decode_strict_Ok bs proof)).
Qed.

(** Every arm of the reader takes as many bytes as the packet it returns has. *)
Definition sized (p : Packet) : Prop := pkt_typed p /\ pkt_fits p.

Lemma lossy_remaining (g : list byte -> Packet) :
  (forall bs, pkt_bytes (g bs) = bs /\ sized (g bs)) ->
  lossy (payload ← take_remaining; mret (g payload)) pkt_bytes sized.
Proof.
  intros G d p d' W H. dbind H as bs d1 Q. apply dec_ret_Ok in H as (<- & ->).
  destruct (G bs) as (E & S). exists bs. rewrite E. split; [by apply take_remaining_inv|done].
Qed.

Lemma lossy_ret (p : Packet) : pkt_bytes p = [] -> sized p -> lossy (E := WireError) (mret p) pkt_bytes sized.
Proof.
  intros E S d q d' W H. apply dec_ret_Ok in H as (<- & ->). exists []. rewrite E.
  split; [by apply took_refl|done].
Qed.

Lemma lossy_array n : 0 <= n -> lossy (lift_err WDecode (read_array n)) (fun h => h) (fun h => len h = n).
Proof.
  intros N. apply lossy_exact. intros d h d' W H. apply lift_err_Ok in H. by apply read_array_inv in H.
Qed.

Lemma lossy_assoc {A B C} (m : decM WireError A) (f : A -> decM WireError B) (g : B -> decM WireError C)
    enc P :
  lossy (y ← (x ← m; f x); g y) enc P -> lossy (x ← m; y ← f x; g y) enc P.
Proof. intros L d v d' W H. rewrite bind_assoc_reads in H. by apply L. Qed.

Lemma lossy_inventory (g : list Inventory -> Packet) :
  (forall xs, pkt_bytes (g xs) = counted inventory_bytes xs) ->
  (forall xs, Forall inventory_typed xs /\ len xs <= MAX_INVENTORY_ITEMS -> sized (g xs)) ->
  lossy (items ← decode_inventory; mret (g items)) pkt_bytes sized.
Proof.
  intros E S. eapply lossy_map; [apply counted_lossy, lossy_exact, read_inventory_inv|].
  intros xs H. rewrite E. split; [done|by apply S].
Qed.

Lemma read_packet_lossy t : lossy (read_packet t) (pkt_bytes) sized.
Proof.
  destruct t; cbn [read_packet];
    try (apply lossy_ret; done); try (apply lossy_remaining; done);
    try (apply lossy_inventory; done).
  - eapply lossy_map; [apply decode_version_lossy|]. done.
  - eapply lossy_map; [by apply lossy_array|]. done.
  - eapply lossy_map; [by apply lossy_array|]. done.
  - apply lossy_assoc. eapply lossy_map; [apply counted_lossy, NetAddress_decode_lossy|]. done.
  - eapply lossy_map; [apply lossy_exact, decode_locator_inv|]. done.
  - eapply lossy_map; [apply lossy_exact, decode_locator_inv|]. done.
  - apply lossy_assoc. eapply lossy_map; [apply counted_lossy, lossy_exact, read_header_inv|]. done.
  - eapply lossy_map; [apply decode_reject_lossy|]. done.
  - intros d p d' W H. dbind H as r d1 Q. took_all. apply dec_ret_Ok in H as (<- & ->).
    eexists. split; [took_chain|]. cbn [pkt_bytes]. split; [by slen|]. split; [|done].
    cbn. unfold as_i64. destruct (Z.ltb_spec r (2 ^ 63)); ulia.
  - intros d p d' W H. dbind H as m d1 Q1. dbind H as v d2 Q2. took_all.
    apply dec_ret_Ok in H as (<- & ->). eexists. split; [took_chain|]. done.
  - eapply lossy_map; [apply lossy_exact, CompactBlock_decode_inv|]. done.
  - eapply lossy_map; [apply lossy_exact, CompactBlockRequest_decode_inv|]. done.
  - eapply lossy_map; [apply lossy_exact, CompactBlockResponse_decode_inv|]. done.
  - intros d p d' W H. dbind H as r d1 Q1. dbind H as k d2 Q2. took_all.
    apply dec_ret_Ok in H as (<- & ->). eexists. split; [took_chain|]. done.
  - intros d p d' W H. dbind H as r d1 Q1. dbind H as k d2 Q2. took_all.
    dbind H as raw d3 Q3. apply take_remaining_inv in Q3; [|done].
    dbind H as pf d4 Q4. apply map_err_Ok, HsdUrkelProof_decode_strict_Ok in Q4 as (Wp & Ep).
    apply dec_ret_Ok in H as (<- & ->). eexists. split; [took_chain|].
    cbn [pkt_bytes pp_root pp_key pp_proof]. rewrite Ep. split; [done|].
    split; [done|]. by exists raw.
Qed.

Lemma read_packet_type t p d d' :
  (match t with PtBlock | PtTx | PtUnknown _ => False | _ => True end) ->
  read_packet t d = (Ok p, d') -> Packet_packet_type p = t /\ ~ direct p.
Proof.
  intros D H. destruct t; try (by destruct D); cbn [read_packet] in H;
    repeat (let a := fresh in let b := fresh in let q := fresh in dbind H as a b q);
    apply dec_ret_Ok in H as (<- & _); (split; [reflexivity|exact id]).
Qed.

Lemma check_payload_size_Ok n u : check_payload_size n = Ok u <-> n <= MAX_FRAME_PAYLOAD_SIZE.
Proof. unfold check_payload_size. by rewrite assert_or_Ok, Z.leb_le. Qed.

Lemma Packet_encode_payload_Ok p bs :
  pkt_typed p ->
  Packet_encode_payload p = Ok bs <->
  pkt_fits p /\ len bs <= MAX_FRAME_PAYLOAD_SIZE /\ bs = pkt_bytes p.
Proof.
  intros T. unfold Packet_encode_payload. rewrite bind_Ok. setoid_rewrite (encode_packet_Ok _ _ _ T).
  cbn [bytes Encoder_new app]. unfold into_bytes. split.
  - intros (e & (F & ->) & E). apply bind_Ok in E as (u & L & [= <-]).
    by apply check_payload_size_Ok in L.
  - intros (F & L & ->). eexists. split; [done|]. cbn [bytes]. apply bind_Ok. exists tt.
    split; [by apply check_payload_size_Ok|done].
Qed.

(** Decoding the canonical payload. *)
Lemma Packet_decode_bytes p :
  pkt_typed p -> pkt_fits p -> len (pkt_bytes p) <= MAX_FRAME_PAYLOAD_SIZE ->
  Packet_decode (Packet_packet_type p) (pkt_bytes p) = Ok p.
Proof.
  intros T F L. unfold Packet_decode. rewrite (proj2 (check_payload_size_Ok _ tt) L).
  cbn [mbind result_bind].
  assert (~ direct p -> run_all WDecode (read_packet (Packet_packet_type p)) (pkt_bytes p) = Ok p) as R.
  { intros D. apply run_all_Ok. eexists. split; [|apply finish_all].
    apply read_packet_reads; [done|done|done| |apply rest_new]. apply wf_new.
    unfold MAX_FRAME_PAYLOAD_SIZE in L. ulia. }
  destruct p; try (by apply R; intros []); cbn [Packet_packet_type pkt_bytes pkt_typed pkt_fits] in *.
  - rewrite (proj2 (Block_decode_Ok (blk_bytes b) b)); [done|]. split; [done|].
    apply Block_encode_Ok; [apply wf_inputs, T|done].
  - by rewrite (proj2 (Transaction_decode_Ok (tx_bytes tx) tx)).
  - done.
Qed.

Lemma Packet_decode_inv t payload p :
  Packet_decode t payload = Ok p ->
  Packet_packet_type p = t /\ sized p /\ len (pkt_bytes p) = len payload /\
  len payload <= MAX_FRAME_PAYLOAD_SIZE.
Proof.
  intros H. unfold Packet_decode in H. apply bind_Ok in H as (u & L & H).
  apply check_payload_size_Ok in L.
  assert (run_all WDecode (read_packet t) payload = Ok p ->
      (match t with PtBlock | PtTx | PtUnknown _ => False | _ => True end) ->
      Packet_packet_type p = t /\ sized p /\ len (pkt_bytes p) = len payload) as R.
  { intros E D. apply run_all_Ok in E as (d & E & Fi).
    destruct (read_packet_type _ _ _ _ D E) as (Et & _).
    apply read_packet_lossy in E as (bs & T & Lb & S);
      [|apply wf_new; unfold MAX_FRAME_PAYLOAD_SIZE in L; ulia].
    pose proof (took_finish _ _ _ T Fi). by subst bs. }
  destruct t; try (destruct (R H I) as (? & ? & ?); done).
  - apply bind_Ok in H as (b & H & [= <-]). apply map_err_Ok, Block_decode_Ok in H as (Wb & Eb).
    apply Block_encode_Ok in Eb as (Fb & ->); [done|]. apply wf_inputs, Wb.
  - apply bind_Ok in H as (tx & H & [= <-]).
    by apply map_err_Ok, Transaction_decode_Ok in H as (Wt & Ft & ->).
  - by injection H as <-.
Qed.

End packets.

(** Every payload the packet decoder accepts is of the type asked for and
    normalizes: re-encoding the packet succeeds, gives a payload of the same
    length, and decodes to the same packet. Reserved words, foreign host kinds
    and the high bits of text are the only things lost. *)
Theorem packet_decode_normalizes {CR : Crypto} t payload p :
  Packet_decode t payload = Ok p ->
  Packet_packet_type p = t /\
  exists canonical, Packet_encode_payload p = Ok canonical /\ len canonical = len payload /\
    Packet_decode t canonical = Ok p.
Proof.
  intros H. apply Packet_decode_inv in H as (<- & (T & F) & E & L). split; [done|].
  exists (pkt_bytes p). split; [|split; [done|]].
  - apply Packet_encode_payload_Ok; [done|]. rewrite E. done.
  - apply Packet_decode_bytes; [done|done|lia].
Qed.

(** A REJECT of a transaction whose text has a high bit set. *)
Lemma packet_decode_normalizes_witness :
  exists p canonical,
    Packet_decode (CR := toy_crypto) PtReject ([z2b 14; x10; x02; xe1; x62] ++ zeros 32) = Ok p /\
    Packet_encode_payload (CR := toy_crypto) p = Ok canonical /\
    canonical = [z2b 14; x10; x02; x61; x62] ++ zeros 32.
Proof.
  set (p := PReject (mkReject PtTx x10 [x61; x62] (Some (zeros 32)))).
  destruct (@packet_decode_normalizes toy_crypto PtReject ([z2b 14; x10; x02; xe1; x62] ++ zeros 32) p)
    as (_ & canonical & E & _ & _).
  { vm_compute. reflexivity. }
  exists p, canonical. split; [vm_compute; reflexivity|]. split; [exact E|].
  vm_compute in E. injection E as <-. reflexivity.
Defined.

Lemma magic_inj n n' : NetworkMagic_as_u32 n = NetworkMagic_as_u32 n' -> n = n'.
Proof. by destruct n, n'. Qed.

Lemma decode_frame_prefix_other_network network other f :
  other <> network -> len (fr_payload f) <= MAX_FRAME_PAYLOAD_SIZE ->
  decode_frame_prefix other (frame_bytes network f) =
    Err (NetworkMagicMismatch (NetworkMagic_as_u32 other) (NetworkMagic_as_u32 network)).
Proof.
  intros Ne L. unfold decode_frame_prefix. rewrite len_frame_bytes. pose proof (len_nonneg (fr_payload f)).
  rewrite (proj2 (Z.ltb_ge _ _)) by lia.
  set (hd := take (Z.to_nat FRAME_HEADER_SIZE) (frame_bytes network f)).
  assert (exists tl, hd = to_le_bytes 4 (NetworkMagic_as_u32 network) ++ tl) as (tl & E).
  { eexists. unfold hd, frame_bytes. change (Z.to_nat FRAME_HEADER_SIZE) with (4 + 5)%nat.
    rewrite take_app_add'; [reflexivity|by rewrite length_to_le_bytes]. }
  assert (len hd <= isize_max) as B by (unfold hd, len, FRAME_HEADER_SIZE; rewrite length_take; ulia).
  unfold run_all, read_frame_header, mbind, decM_bind.
  rewrite (reads_err (Decoder_new hd) WDecode read_u32_le _ _
    (read_u32_reads _ _ (magic_u32 network)) tl (wf_new _ B)) by by rewrite rest_new.
  unfold lift_res, assert_or. cbv beta iota.
  rewrite (proj2 (Z.eqb_neq (NetworkMagic_as_u32 network) (NetworkMagic_as_u32 other))); [done|].
  intros X. apply Ne. symmetry. by apply magic_inj.
Qed.

(** A packet sent as a frame arrives: whatever well-typed packet is encoded,
    framed and written for a network is read back from those bytes as the same
    packet, and by no other network's reader. *)
Theorem packet_wire_round_trip {CR : Crypto} network p f bs :
  pkt_typed p -> type_canonical (Packet_packet_type p) ->
  Frame_from_packet p = Ok f -> Frame_encode f network = Ok bs ->
  (frame ← Frame_decode_exact network bs; Frame_decode_packet frame) = Ok p /\
  forall other, other <> network ->
    Frame_decode_exact other bs =
      Err (NetworkMagicMismatch (NetworkMagic_as_u32 other) (NetworkMagic_as_u32 network)).
Proof.
  intros T C E B. unfold Frame_from_packet in E. apply bind_Ok in E as (payload & E & N).
  apply (Packet_encode_payload_Ok p payload T) in E as (F & L & ->).
  unfold Frame_new in N. apply bind_Ok in N as (u & _ & [= <-]).
  apply Frame_encode_Ok in B as (_ & ->).
  split.
  - unfold Frame_decode_exact. rewrite <- (app_nil_r (frame_bytes network _)).
    rewrite decode_frame_prefix_frame by done. cbn [mbind result_bind].
    rewrite app_nil_r, Z.eqb_refl. cbn [assert_or mbind result_bind].
    by apply Packet_decode_bytes.
  - intros other Ne. unfold Frame_decode_exact. by rewrite decode_frame_prefix_other_network.
Qed.

Lemma packet_wire_round_trip_witness :
  (frame ← Frame_decode_exact Mainnet
     (frame_bytes Mainnet (mkFrame PtPing (octets [1; 2; 3; 4; 5; 6; 7; 8])));
   Frame_decode_packet (CR := toy_crypto) frame) = Ok (PPing (octets [1; 2; 3; 4; 5; 6; 7; 8])).
Proof.
  destruct (@packet_wire_round_trip toy_crypto Mainnet (PPing (octets [1; 2; 3; 4; 5; 6; 7; 8]))
    (mkFrame PtPing (octets [1; 2; 3; 4; 5; 6; 7; 8]))
    (frame_bytes Mainnet (mkFrame PtPing (octets [1; 2; 3; 4; 5; 6; 7; 8])))) as (E & _).
  - vm_compute. reflexivity.
  - exact I.
  - vm_compute. reflexivity.
  - vm_compute. reflexivity.
  - exact E.
Defined.
