(* ===== verification/Journal.v ===== *)
(** * hns-rollback-journal: the external anti-rollback journal

    Models [crates/hns-rollback-journal/src/lib.rs]: namespace bindings, state
    identities, sealed snapshots, the journal record with its canonical
    checksummed encoding, the privileged and runtime mutations, the
    reconciliation of ambiguous writes and the recovery planner. The second half
    states what the contract of [docs/rollback-journal.md] promises: the
    reachable records, and a journal beside a protocol database that an
    adversary may roll back. [BLAKE2b] is the parameter [blake2b] of [Crypto];
    fingerprints are byte lists and fencing tokens integers. [encode] carries a
    [debug_assert] that the record is valid, which release builds drop; every
    record of the invariant below satisfies it. *)

From stdpp Require Import relations.
From S2P Require Import Prelude Encoding Primitives.
Local Open Scope Z_scope.

Definition nul : list byte := [x00].
Definition MAGIC : list byte := bstr "HNSRBJ1" ++ nul.
Definition FORMAT_VERSION : Z := 1.
Definition CHECKSUM_DOMAIN : list byte := bstr "HNS-ROLLBACK-JOURNAL-CHECKSUM-V1" ++ nul.
Definition RECORD_FINGERPRINT_DOMAIN : list byte := bstr "HNS-ROLLBACK-JOURNAL-RECORD-V1" ++ nul.
Definition BINDING_FINGERPRINT_DOMAIN : list byte := bstr "HNS-ROLLBACK-JOURNAL-BINDING-V1" ++ nul.
Definition SNAPSHOT_BYTES_DOMAIN : list byte :=
  bstr "HNS-ROLLBACK-JOURNAL-SNAPSHOT-BYTES-V1" ++ nul.
Definition SNAPSHOT_IMAGE_DOMAIN : list byte :=
  bstr "HNS-ROLLBACK-JOURNAL-SNAPSHOT-IMAGE-V1" ++ nul.
Definition SNAPSHOT_AAD_DOMAIN : list byte := bstr "HNS-ROLLBACK-JOURNAL-SNAPSHOT-AAD-V1" ++ nul.
Definition TRANSITION_ID_DOMAIN : list byte := bstr "HNS-ROLLBACK-JOURNAL-TRANSITION-V1" ++ nul.
Definition RETIREMENT_ID_DOMAIN : list byte := bstr "HNS-ROLLBACK-JOURNAL-RETIREMENT-V1" ++ nul.

Definition MAX_PLAINTEXT_SNAPSHOT_SIZE : Z := 16 * 1024 * 1024.
Definition AEAD_SUITE_AES_256_GCM : Z := 1.
Definition AES_256_GCM_NONCE_SIZE : Z := 12.
Definition AES_256_GCM_TAG_SIZE : Z := 16.
Definition MAX_SEALED_SNAPSHOT_SIZE : Z :=
  MAX_PLAINTEXT_SNAPSHOT_SIZE + AES_256_GCM_NONCE_SIZE + AES_256_GCM_TAG_SIZE.
Definition MAX_JOURNAL_RECORD_SIZE : Z := 2048 + 2 * MAX_SEALED_SNAPSHOT_SIZE.

Inductive JournalError :=
| JDecode (e : DecodeError)
| JInvalid (reason : string)
| WrongState (state : string)
| JournalRevisionExhausted
| DatabaseMismatch.

(** ** Data *)
Inductive RollbackProtectionClass :=
| IntegrityOnlySameRollbackDomain
| IndependentLocalRoot
| HardwareMonotonic
| RemoteWitness.

#[global] Instance RollbackProtectionClass_eq_dec : EqDecision RollbackProtectionClass.
Proof. solve_decision. Defined.

Definition has_independent_rollback_domain (c : RollbackProtectionClass) : bool :=
  match c with IntegrityOnlySameRollbackDomain => false | _ => true end.

(** [self as u8] *)
Definition protection_as_u8 (c : RollbackProtectionClass) : byte :=
  match c with
  | IntegrityOnlySameRollbackDomain => x00
  | IndependentLocalRoot => x01
  | HardwareMonotonic => x02
  | RemoteWitness => x03
  end.

Definition RollbackProtectionClass_decode (value : byte)
  : result JournalError RollbackProtectionClass :=
  match value with
  | x00 => Ok IntegrityOnlySameRollbackDomain
  | x01 => Ok IndependentLocalRoot
  | x02 => Ok HardwareMonotonic
  | x03 => Ok RemoteWitness
  | _ => Err (JInvalid "unknown rollback protection class")
  end.

Record JournalBinding := mkBinding {
  jb_installation_lineage : list byte;
  jb_network_magic : Z;
  jb_role_id : list byte;
  jb_storage_namespace_id : list byte;
  jb_logical_key : list byte;
  jb_protocol_id : list byte;
  jb_protocol_version : Z;
  jb_aead_suite : Z;
  jb_key_version : Z;
  jb_key_id : list byte;
  jb_protection : RollbackProtectionClass;
}.

#[global] Instance JournalBinding_eq_dec : EqDecision JournalBinding.
Proof. solve_decision. Defined.

Record JournalBindingParts := mkParts {
  jp_installation_lineage : list byte;
  jp_network_magic : Z;
  jp_role_id : list byte;
  jp_storage_namespace_id : list byte;
  jp_logical_key : list byte;
  jp_protocol_id : list byte;
  jp_protocol_version : Z;
  jp_aead_suite : Z;
  jp_key_version : Z;
  jp_key_id : list byte;
  jp_protection : RollbackProtectionClass;
}.

Record StateIdentity := mkIdentity {
  si_revision : Z;
  si_protocol_fingerprint : list byte;
  si_byte_fingerprint : list byte;
}.

#[global] Instance StateIdentity_eq_dec : EqDecision StateIdentity.
Proof. solve_decision. Defined.

Record SealedSnapshot := mkSealed { ss_plaintext_len : Z; ss_ciphertext : list byte }.

#[global] Instance SealedSnapshot_eq_dec : EqDecision SealedSnapshot.
Proof. solve_decision. Defined.

Record SnapshotImage := mkImage { im_identity : StateIdentity; im_sealed : SealedSnapshot }.

#[global] Instance SnapshotImage_eq_dec : EqDecision SnapshotImage.
Proof. solve_decision. Defined.

Inductive DatabaseObservation := Absent | Present (identity : StateIdentity).

#[global] Instance DatabaseObservation_eq_dec : EqDecision DatabaseObservation.
Proof. solve_decision. Defined.

Inductive JournalState :=
| NeverInitialized
| Stable (current : SnapshotImage)
| Prepared (transition_id : list byte) (old new : SnapshotImage)
| Retired (last : StateIdentity) (retirement_id : list byte).

#[global] Instance JournalState_eq_dec : EqDecision JournalState.
Proof. solve_decision. Defined.

Record JournalRecord := mkRecord {
  jr_binding : JournalBinding;
  jr_journal_revision : Z;
  jr_state : JournalState;
}.

#[global] Instance JournalRecord_eq_dec : EqDecision JournalRecord.
Proof. solve_decision. Defined.

Inductive ExpectedJournalRecord :=
| ExpectAbsent
| ExpectExact (journal_revision : Z) (record_fingerprint : list byte).

Record JournalWriteExpectation := mkExpectation {
  we_binding_fingerprint : list byte;
  we_fencing_token : Z;
  we_prior : ExpectedJournalRecord;
}.

Record JournalMutation := mkMutation {
  mu_expectation : JournalWriteExpectation;
  mu_proposed : JournalRecord;
}.

Inductive MutationReconciliation := Committed | RetryExact | FailClosedConflict.

Inductive FailClosedReason :=
| MissingJournalRecord
| BindingMismatch
| NotEnrolled
| ReasonRetired
| SameRevisionFork
| DatabaseAhead
| UnexpectedIntermediateState.

Inductive RecoveryPlan :=
| Ready (current : SnapshotImage)
| RestoreStableThenReread (expected_database : DatabaseObservation) (current : SnapshotImage)
| RetryPreparedDatabaseCas (transition_id : list byte) (expected_old : StateIdentity)
    (proposed : SnapshotImage)
| RestorePreparedOldThenReread (transition_id : list byte)
    (expected_database : DatabaseObservation) (old : SnapshotImage)
| FinalizePrepared (transition_id : list byte)
| FailClosed (reason : FailClosedReason).

Record JournalLeaseContext := mkLease { jl_binding_fingerprint : list byte; jl_fencing_token : Z }.

(** ** Binding *)
Definition is_zero (value : list byte) : bool := forallb (fun b => bool_decide (b = x00)) value.
#[global] Arguments is_zero : simpl never.

Definition JournalBinding_new (parts : JournalBindingParts) : result JournalError JournalBinding :=
  assert_or (negb (is_zero (jp_installation_lineage parts))) (JInvalid "zero installation lineage") ;;
  assert_or (negb (is_zero (jp_role_id parts))) (JInvalid "zero role identifier") ;;
  assert_or (negb (is_zero (jp_storage_namespace_id parts))) (JInvalid "zero storage namespace") ;;
  assert_or (negb (is_zero (jp_protocol_id parts))) (JInvalid "zero protocol identifier") ;;
  assert_or (negb (is_zero (jp_key_id parts))) (JInvalid "zero key identifier") ;;
  assert_or (negb (jp_protocol_version parts =? 0)) (JInvalid "zero protocol version") ;;
  assert_or (negb (jp_aead_suite parts =? 0)) (JInvalid "zero AEAD suite") ;;
  assert_or (jp_aead_suite parts =? AEAD_SUITE_AES_256_GCM) (JInvalid "unsupported AEAD suite") ;;
  assert_or (negb (jp_key_version parts =? 0)) (JInvalid "zero key version") ;;
  Ok (mkBinding (jp_installation_lineage parts) (jp_network_magic parts) (jp_role_id parts)
        (jp_storage_namespace_id parts) (jp_logical_key parts) (jp_protocol_id parts)
        (jp_protocol_version parts) (jp_aead_suite parts) (jp_key_version parts)
        (jp_key_id parts) (jp_protection parts)).

Definition JournalBinding_encode_into (b : JournalBinding) (e : Encoder) : Encoder :=
  let e := put_bytes e (jb_installation_lineage b) in
  let e := put_u32_le e (jb_network_magic b) in
  let e := put_bytes e (jb_role_id b) in
  let e := put_bytes e (jb_storage_namespace_id b) in
  let e := put_bytes e (jb_logical_key b) in
  let e := put_bytes e (jb_protocol_id b) in
  let e := put_u16_le e (jb_protocol_version b) in
  let e := put_u16_le e (jb_aead_suite b) in
  let e := put_u32_le e (jb_key_version b) in
  let e := put_bytes e (jb_key_id b) in
  put_u8 e (protection_as_u8 (jb_protection b)).

Definition JournalBinding_decode : decM JournalError JournalBinding :=
  installation_lineage ← lift_err JDecode (read_array 32);
  network_magic ← lift_err JDecode read_u32_le;
  role_id ← lift_err JDecode (read_array 32);
  storage_namespace_id ← lift_err JDecode (read_array 32);
  logical_key ← lift_err JDecode (read_array 32);
  protocol_id ← lift_err JDecode (read_array 32);
  protocol_version ← lift_err JDecode read_u16_le;
  aead_suite ← lift_err JDecode read_u16_le;
  key_version ← lift_err JDecode read_u32_le;
  key_id ← lift_err JDecode (read_array 32);
  tag ← lift_err JDecode read_u8;
  protection ← lift_res (RollbackProtectionClass_decode tag);
  lift_res (JournalBinding_new (mkParts installation_lineage network_magic role_id
    storage_namespace_id logical_key protocol_id protocol_version aead_suite key_version key_id
    protection)).

(** ** Identities and snapshots *)
Definition StateIdentity_encode_into (i : StateIdentity) (e : Encoder) : Encoder :=
  let e := put_u64_le e (si_revision i) in
  let e := put_bytes e (si_protocol_fingerprint i) in
  put_bytes e (si_byte_fingerprint i).

Definition StateIdentity_decode : decM JournalError StateIdentity :=
  revision ← lift_err JDecode read_u64_le;
  protocol_fingerprint ← lift_err JDecode (read_array 32);
  byte_fingerprint ← lift_err JDecode (read_array 32);
  mret (mkIdentity revision protocol_fingerprint byte_fingerprint).

Definition SealedSnapshot_new (plaintext_len : Z) (ciphertext : list byte)
  : result JournalError SealedSnapshot :=
  assert_or (plaintext_len <=? MAX_PLAINTEXT_SNAPSHOT_SIZE)
    (JInvalid "plaintext snapshot is too large") ;;
  expected_ciphertext_len ← ok_or (checked_add usize_max plaintext_len
      (AES_256_GCM_NONCE_SIZE + AES_256_GCM_TAG_SIZE)) (JInvalid "sealed snapshot length overflow");
  assert_or (negb (negb (len ciphertext =? expected_ciphertext_len)
                   || (MAX_SEALED_SNAPSHOT_SIZE <? len ciphertext)))
    (JInvalid "invalid sealed snapshot size") ;;
  assert_or (plaintext_len <=? u32_max) (JInvalid "plaintext length is not representable") ;;
  Ok (mkSealed plaintext_len ciphertext).

Definition SealedSnapshot_nonce (s : SealedSnapshot) : list byte :=
  slice (ss_ciphertext s) 0 AES_256_GCM_NONCE_SIZE.
Definition SealedSnapshot_encrypted_payload (s : SealedSnapshot) : list byte :=
  slice (ss_ciphertext s) AES_256_GCM_NONCE_SIZE (len (ss_ciphertext s) - AES_256_GCM_TAG_SIZE).
Definition SealedSnapshot_tag (s : SealedSnapshot) : list byte :=
  slice (ss_ciphertext s) (len (ss_ciphertext s) - AES_256_GCM_TAG_SIZE) (len (ss_ciphertext s)).

Definition SealedSnapshot_encode_into (s : SealedSnapshot) (e : Encoder) : Encoder :=
  put_varbytes (put_u32_le e (ss_plaintext_len s)) (ss_ciphertext s).

Definition SealedSnapshot_decode : decM JournalError SealedSnapshot :=
  plaintext_len ← lift_err JDecode read_u32_le;
  ciphertext ← lift_err JDecode (read_varbytes MAX_SEALED_SNAPSHOT_SIZE "sealed snapshot");
  lift_res (SealedSnapshot_new plaintext_len ciphertext).

Definition SnapshotImage_encode_into (i : SnapshotImage) (e : Encoder) : Encoder :=
  SealedSnapshot_encode_into (im_sealed i) (StateIdentity_encode_into (im_identity i) e).

Definition SnapshotImage_decode : decM JournalError SnapshotImage :=
  identity ← StateIdentity_decode;
  sealed ← SealedSnapshot_decode;
  mret (mkImage identity sealed).

Definition DatabaseObservation_identity (d : DatabaseObservation) : option StateIdentity :=
  match d with Absent => None | Present identity => Some identity end.

(** ** Fingerprints *)
Section journal.
Context {CR : Crypto}.

Definition hash32 (domain : list byte) (parts : list (list byte)) : list byte :=
  blake2b 32 (domain ++ mjoin parts).

Definition snapshot_byte_fingerprint (plaintext : list byte) : list byte :=
  hash32 SNAPSHOT_BYTES_DOMAIN [plaintext].

Definition JournalBinding_fingerprint (b : JournalBinding) : list byte :=
  hash32 BINDING_FINGERPRINT_DOMAIN
    [into_bytes (JournalBinding_encode_into b (with_capacity 240))].

Definition snapshot_associated_data (b : JournalBinding) (identity : StateIdentity)
    (plaintext_len : Z) : list byte :=
  let e := put_bytes (with_capacity 112) SNAPSHOT_AAD_DOMAIN in
  let e := put_bytes e (JournalBinding_fingerprint b) in
  let e := StateIdentity_encode_into identity e in
  into_bytes (put_u32_le e plaintext_len).

Definition StateIdentity_from_plaintext (revision : Z) (protocol_fingerprint plaintext : list byte)
  : result JournalError StateIdentity :=
  assert_or (negb (MAX_PLAINTEXT_SNAPSHOT_SIZE <? len plaintext))
    (JInvalid "plaintext snapshot is too large") ;;
  Ok (mkIdentity revision protocol_fingerprint (snapshot_byte_fingerprint plaintext)).

Definition StateIdentity_verifies_plaintext (i : StateIdentity) (plaintext : list byte) : bool :=
  (len plaintext <=? MAX_PLAINTEXT_SNAPSHOT_SIZE)
  && bool_decide (si_byte_fingerprint i = snapshot_byte_fingerprint plaintext).

Definition SnapshotImage_new (revision : Z) (protocol_fingerprint plaintext ciphertext : list byte)
  : result JournalError SnapshotImage :=
  identity ← StateIdentity_from_plaintext revision protocol_fingerprint plaintext;
  sealed ← SealedSnapshot_new (len plaintext) ciphertext;
  Ok (mkImage identity sealed).

Definition SnapshotImage_verifies_plaintext (i : SnapshotImage) (plaintext : list byte) : bool :=
  (len plaintext =? ss_plaintext_len (im_sealed i))
  && StateIdentity_verifies_plaintext (im_identity i) plaintext.

Definition image_fingerprint (i : SnapshotImage) : list byte :=
  hash32 SNAPSHOT_IMAGE_DOMAIN
    [into_bytes (SnapshotImage_encode_into i (with_capacity (80 + len (ss_ciphertext (im_sealed i)))))].

Definition DatabaseObservation_from_plaintext (revision : Z)
    (protocol_fingerprint plaintext : list byte) : result JournalError DatabaseObservation :=
  identity ← StateIdentity_from_plaintext revision protocol_fingerprint plaintext;
  Ok (Present identity).

Definition transition_id (b : JournalBinding) (old new : SnapshotImage) : list byte :=
  hash32 TRANSITION_ID_DOMAIN
    [JournalBinding_fingerprint b; image_fingerprint old; image_fingerprint new].

Definition retirement_id (b : JournalBinding) (last : StateIdentity) (prior_record : list byte)
  : list byte :=
  hash32 RETIREMENT_ID_DOMAIN
    [JournalBinding_fingerprint b;
     into_bytes (StateIdentity_encode_into last (with_capacity 72)); prior_record].

Definition journal_checksum (bytes : list byte) : list byte := hash32 CHECKSUM_DOMAIN [bytes].

Definition JournalLeaseContext_new (b : JournalBinding) (fencing_token : Z) : JournalLeaseContext :=
  mkLease (JournalBinding_fingerprint b) fencing_token.

(** ** Records *)
Definition encoded_capacity (r : JournalRecord) : Z :=
  320 + match jr_state r with
        | NeverInitialized => 1
        | Stable current => 1 + len (ss_ciphertext (im_sealed current)) + 80
        | Prepared _ old new =>
          33 + len (ss_ciphertext (im_sealed old)) + len (ss_ciphertext (im_sealed new)) + 160
        | Retired _ _ => 1 + 104
        end.

Definition encode_state (s : JournalState) (e : Encoder) : Encoder :=
  match s with
  | NeverInitialized => put_u8 e x00
  | Stable current => SnapshotImage_encode_into current (put_u8 e x01)
  | Prepared transition_id old new =>
    let e := put_bytes (put_u8 e x02) transition_id in
    SnapshotImage_encode_into new (SnapshotImage_encode_into old e)
  | Retired last retirement_id =>
    put_bytes (StateIdentity_encode_into last (put_u8 e x03)) retirement_id
  end.

Definition JournalRecord_encode (r : JournalRecord) : list byte :=
  let e := with_capacity (encoded_capacity r) in
  let e := put_bytes e MAGIC in
  let e := put_u16_le e FORMAT_VERSION in
  let e := JournalBinding_encode_into (jr_binding r) e in
  let e := put_u64_le e (jr_journal_revision r) in
  let bytes := into_bytes (encode_state (jr_state r) e) in
  bytes ++ journal_checksum bytes.

Definition JournalRecord_validate (r : JournalRecord) : result JournalError unit :=
  let rev := jr_journal_revision r in
  match jr_state r with
  | NeverInitialized =>
    assert_or (rev =? 0) (JInvalid "NeverInitialized must have journal revision zero")
  | Stable _ =>
    assert_or (negb ((rev =? 0) || (rev mod 2 =? 0))) (JInvalid "Stable journal revision must be odd")
  | Prepared encoded old new =>
    assert_or (negb ((rev <? 2) || negb (rev mod 2 =? 0)))
      (JInvalid "Prepared journal revision must be even and finalizable") ;;
    assert_or (negb (si_revision (im_identity new) <=? si_revision (im_identity old)))
      (JInvalid "Prepared protocol revision does not advance") ;;
    assert_or (bool_decide (encoded = transition_id (jr_binding r) old new))
      (JInvalid "prepared transition ID mismatch")
  | Retired _ _ =>
    assert_or (negb ((rev <? 2) || negb (rev mod 2 =? 0)))
      (JInvalid "Retired journal revision must be even")
  end.

Definition decode_state : decM JournalError JournalState :=
  tag ← lift_err JDecode read_u8;
  match tag with
  | x00 => mret NeverInitialized
  | x01 =>
    current ← SnapshotImage_decode;
    mret (Stable current)
  | x02 =>
    transition_id ← lift_err JDecode (read_array 32);
    old ← SnapshotImage_decode;
    new ← SnapshotImage_decode;
    mret (Prepared transition_id old new)
  | x03 =>
    last ← StateIdentity_decode;
    retirement_id ← lift_err JDecode (read_array 32);
    mret (Retired last retirement_id)
  | _ => lift_res (Err (JInvalid "unknown journal state"))
  end.

Definition decode_body : decM JournalError JournalRecord :=
  magic ← lift_err JDecode (read_array 8);
  lift_res (assert_or (bool_decide (magic = MAGIC)) (JInvalid "invalid journal magic")) ;;
  version ← lift_err JDecode read_u16_le;
  lift_res (assert_or (version =? FORMAT_VERSION) (JInvalid "unsupported journal format version")) ;;
  binding ← JournalBinding_decode;
  journal_revision ← lift_err JDecode read_u64_le;
  state ← decode_state;
  mret (mkRecord binding journal_revision state).

Definition JournalRecord_decode (input : list byte) : result JournalError JournalRecord :=
  assert_or (negb ((len input <? len MAGIC + 2 + 32) || (MAX_JOURNAL_RECORD_SIZE <? len input)))
    (JInvalid "invalid journal record size") ;;
  let body_len := len input - 32 in
  let body := take (Z.to_nat body_len) input in
  let checksum := drop (Z.to_nat body_len) input in
  assert_or (bool_decide (journal_checksum body = checksum)) (JInvalid "journal checksum mismatch") ;;
  record ← run_all JDecode decode_body body;
  JournalRecord_validate record ;;
  assert_or (bool_decide (JournalRecord_encode record = input))
    (JInvalid "noncanonical journal record") ;;
  Ok record.

Definition JournalRecord_fingerprint (r : JournalRecord) : list byte :=
  hash32 RECORD_FINGERPRINT_DOMAIN [JournalRecord_encode r].

(** ** Mutations *)
Definition next_mutation (r : JournalRecord) (lease : JournalLeaseContext) (state : JournalState)
  : result JournalError JournalMutation :=
  journal_revision ← ok_or (checked_add u64_max (jr_journal_revision r) 1) JournalRevisionExhausted;
  let proposed := mkRecord (jr_binding r) journal_revision state in
  JournalRecord_validate proposed ;;
  Ok (mkMutation
        (mkExpectation (JournalBinding_fingerprint (jr_binding r)) (jl_fencing_token lease)
           (ExpectExact (jr_journal_revision r) (JournalRecord_fingerprint r)))
        proposed).

Definition ensure_lease_binding (r : JournalRecord) (lease : JournalLeaseContext)
  : result JournalError unit :=
  assert_or (bool_decide (jl_binding_fingerprint lease = JournalBinding_fingerprint (jr_binding r)))
    (JInvalid "journal lease binding does not match the record").

Definition privileged_enroll (r : JournalRecord) (lease : JournalLeaseContext)
    (database : DatabaseObservation) (current : SnapshotImage)
  : result JournalError JournalMutation :=
  ensure_lease_binding r lease ;;
  match jr_state r with
  | NeverInitialized =>
    assert_or (bool_decide (database = Present (im_identity current))) DatabaseMismatch ;;
    next_mutation r lease (Stable current)
  | _ => Err (WrongState "not NeverInitialized")
  end.

Definition prepare_transition (r : JournalRecord) (lease : JournalLeaseContext)
    (database : DatabaseObservation) (new : SnapshotImage)
  : result JournalError JournalMutation :=
  ensure_lease_binding r lease ;;
  match jr_state r with
  | Stable old =>
    assert_or (bool_decide (database = Present (im_identity old))) DatabaseMismatch ;;
    assert_or (negb (si_revision (im_identity new) <=? si_revision (im_identity old)))
      (JInvalid "prepared revision must advance the protocol state") ;;
    ok_or (checked_add u64_max (jr_journal_revision r) 2) JournalRevisionExhausted ;;
    let transition_id := transition_id (jr_binding r) old new in
    next_mutation r lease (Prepared transition_id old new)
  | _ => Err (WrongState "not Stable")
  end.

Definition finalize_prepared (r : JournalRecord) (lease : JournalLeaseContext)
    (database : DatabaseObservation) : result JournalError JournalMutation :=
  ensure_lease_binding r lease ;;
  match jr_state r with
  | Prepared _ _ new =>
    assert_or (bool_decide (database = Present (im_identity new))) DatabaseMismatch ;;
    next_mutation r lease (Stable new)
  | _ => Err (WrongState "not Prepared")
  end.

Definition privileged_retire (r : JournalRecord) (lease : JournalLeaseContext)
    (database : DatabaseObservation) : result JournalError JournalMutation :=
  ensure_lease_binding r lease ;;
  match jr_state r with
  | Stable current =>
    assert_or (bool_decide (database = Present (im_identity current))) DatabaseMismatch ;;
    let retirement_id :=
      retirement_id (jr_binding r) (im_identity current) (JournalRecord_fingerprint r) in
    next_mutation r lease (Retired (im_identity current) retirement_id)
  | _ => Err (WrongState "not Stable")
  end.

Definition privileged_provision (b : JournalBinding) (lease : JournalLeaseContext)
  : result JournalError JournalMutation :=
  assert_or (bool_decide (jl_binding_fingerprint lease = JournalBinding_fingerprint b))
    (JInvalid "journal lease binding does not match the provisioned namespace") ;;
  Ok (mkMutation
        (mkExpectation (JournalBinding_fingerprint b) (jl_fencing_token lease) ExpectAbsent)
        (mkRecord b 0 NeverInitialized)).

(** ** Recovery *)
Definition JournalRecord_recovery_plan (r : JournalRecord) (expected_binding : JournalBinding)
    (database : DatabaseObservation) : RecoveryPlan :=
  if negb (bool_decide (jr_binding r = expected_binding)) then FailClosed BindingMismatch
  else match jr_state r with
  | NeverInitialized => FailClosed NotEnrolled
  | Retired _ _ => FailClosed ReasonRetired
  | Stable current =>
    match database with
    | Absent => RestoreStableThenReread database current
    | Present observed =>
      if bool_decide (observed = im_identity current) then Ready current
      else if si_revision observed <? si_revision (im_identity current)
      then RestoreStableThenReread database current
      else if si_revision observed =? si_revision (im_identity current)
      then FailClosed SameRevisionFork
      else FailClosed DatabaseAhead
    end
  | Prepared transition_id old new =>
    match database with
    | Absent => RestorePreparedOldThenReread transition_id database old
    | Present observed =>
      if bool_decide (observed = im_identity old)
      then RetryPreparedDatabaseCas transition_id (im_identity old) new
      else if bool_decide (observed = im_identity new) then FinalizePrepared transition_id
      else if si_revision observed <? si_revision (im_identity old)
      then RestorePreparedOldThenReread transition_id database old
      else if (si_revision observed =? si_revision (im_identity old))
              || (si_revision observed =? si_revision (im_identity new))
      then FailClosed SameRevisionFork
      else if si_revision (im_identity new) <? si_revision observed
      then FailClosed DatabaseAhead
      else FailClosed UnexpectedIntermediateState
    end
  end.

Definition plan_recovery (expected_binding : JournalBinding) (record : option JournalRecord)
    (database : DatabaseObservation) : RecoveryPlan :=
  match record with
  | Some record => JournalRecord_recovery_plan record expected_binding database
  | None => FailClosed MissingJournalRecord
  end.

(** ** Reconciliation of an ambiguous write *)
Definition expectation_matches (w : JournalWriteExpectation) (loaded : option JournalRecord) : bool :=
  match we_prior w, loaded with
  | ExpectAbsent, None => true
  | ExpectExact journal_revision record_fingerprint, Some record =>
    bool_decide (JournalBinding_fingerprint (jr_binding record) = we_binding_fingerprint w)
    && (jr_journal_revision record =? journal_revision)
    && bool_decide (JournalRecord_fingerprint record = record_fingerprint)
  | _, _ => false
  end.

Definition reconcile (m : JournalMutation) (loaded : option JournalRecord) : MutationReconciliation :=
  if match loaded with
     | Some record =>
       bool_decide (jr_binding record = jr_binding (mu_proposed m))
       && bool_decide (JournalRecord_fingerprint record = JournalRecord_fingerprint (mu_proposed m))
     | None => false
     end
  then Committed
  else if expectation_matches (mu_expectation m) loaded then RetryExact
  else FailClosedConflict.

End journal.

(** ** Well-typed values

    What the Rust types and constructors guarantee: array lengths, integer
    widths, non-zero fields, and the sizes [SealedSnapshot::new] checks. *)
Definition binding_wf (b : JournalBinding) : Prop :=
  (length (jb_installation_lineage b) = 32%nat /\ u32 (jb_network_magic b) /\
   length (jb_role_id b) = 32%nat /\ length (jb_storage_namespace_id b) = 32%nat /\
   length (jb_logical_key b) = 32%nat /\ length (jb_protocol_id b) = 32%nat /\
   u16 (jb_protocol_version b) /\ u32 (jb_key_version b) /\ length (jb_key_id b) = 32%nat) /\
  Forall (fun v => is_zero v = false) [jb_installation_lineage b; jb_role_id b;
    jb_storage_namespace_id b; jb_protocol_id b; jb_key_id b] /\
  jb_protocol_version b <> 0 /\ jb_aead_suite b = AEAD_SUITE_AES_256_GCM /\ jb_key_version b <> 0.

Definition identity_wf (i : StateIdentity) : Prop :=
  u64 (si_revision i) /\ length (si_protocol_fingerprint i) = 32%nat /\
  length (si_byte_fingerprint i) = 32%nat.

Definition sealed_wf (s : SealedSnapshot) : Prop :=
  0 <= ss_plaintext_len s <= MAX_PLAINTEXT_SNAPSHOT_SIZE /\
  len (ss_ciphertext s) = ss_plaintext_len s + 28.

Definition image_wf (i : SnapshotImage) : Prop := identity_wf (im_identity i) /\ sealed_wf (im_sealed i).

Definition state_wf (s : JournalState) : Prop :=
  match s with
  | NeverInitialized => True
  | Stable current => image_wf current
  | Prepared t old new => length t = 32%nat /\ image_wf old /\ image_wf new
  | Retired last t => identity_wf last /\ length t = 32%nat
  end.

Definition record_wf (r : JournalRecord) : Prop :=
  binding_wf (jr_binding r) /\ u64 (jr_journal_revision r) /\ state_wf (jr_state r).

(** ** The encodings as byte strings *)
Definition binding_bytes (b : JournalBinding) : list byte :=
  jb_installation_lineage b ++ to_le_bytes 4 (jb_network_magic b) ++ jb_role_id b ++
  jb_storage_namespace_id b ++ jb_logical_key b ++ jb_protocol_id b ++
  to_le_bytes 2 (jb_protocol_version b) ++ to_le_bytes 2 (jb_aead_suite b) ++
  to_le_bytes 4 (jb_key_version b) ++ jb_key_id b ++ [protection_as_u8 (jb_protection b)].

Definition identity_bytes (i : StateIdentity) : list byte :=
  to_le_bytes 8 (si_revision i) ++ si_protocol_fingerprint i ++ si_byte_fingerprint i.

Definition image_bytes (i : SnapshotImage) : list byte :=
  identity_bytes (im_identity i) ++
  to_le_bytes 4 (ss_plaintext_len (im_sealed i)) ++ var_bytes (ss_ciphertext (im_sealed i)).

Definition state_bytes (s : JournalState) : list byte :=
  match s with
  | NeverInitialized => [x00]
  | Stable current => [x01] ++ image_bytes current
  | Prepared t old new => [x02] ++ t ++ image_bytes old ++ image_bytes new
  | Retired last t => [x03] ++ identity_bytes last ++ t
  end.

Definition body_bytes (r : JournalRecord) : list byte :=
  MAGIC ++ to_le_bytes 2 FORMAT_VERSION ++ binding_bytes (jr_binding r) ++
  to_le_bytes 8 (jr_journal_revision r) ++ state_bytes (jr_state r).

Lemma bytes_put_binding b e : bytes (JournalBinding_encode_into b e) = bytes e ++ binding_bytes b.
Proof.
  unfold JournalBinding_encode_into, binding_bytes. cbv zeta. autorewrite with enc.
  by rewrite <- !app_assoc.
Qed.

Lemma bytes_put_identity i e : bytes (StateIdentity_encode_into i e) = bytes e ++ identity_bytes i.
Proof.
  unfold StateIdentity_encode_into, identity_bytes. cbv zeta. autorewrite with enc.
  by rewrite <- !app_assoc.
Qed.
#[local] Hint Rewrite bytes_put_binding bytes_put_identity : enc.

Lemma bytes_put_image i e : bytes (SnapshotImage_encode_into i e) = bytes e ++ image_bytes i.
Proof.
  unfold SnapshotImage_encode_into, SealedSnapshot_encode_into, image_bytes.
  autorewrite with enc. by rewrite <- !app_assoc.
Qed.
#[local] Hint Rewrite bytes_put_image : enc.

Lemma bytes_put_state s e : bytes (encode_state s e) = bytes e ++ state_bytes s.
Proof.
  destruct s; unfold encode_state, state_bytes; autorewrite with enc; by rewrite <- ?app_assoc.
Qed.
#[local] Hint Rewrite bytes_put_state : enc.

Lemma JournalRecord_encode_eq `{Crypto} r :
  JournalRecord_encode r = body_bytes r ++ journal_checksum (body_bytes r).
Proof.
  assert (forall bs bs', bs = bs' -> bs ++ journal_checksum bs = bs' ++ journal_checksum bs') as K
    by congruence.
  unfold JournalRecord_encode, into_bytes. apply K. autorewrite with enc.
  unfold body_bytes. by rewrite <- !app_assoc.
Qed.

(** ** Sizes *)
Lemma len_binding_bytes b : binding_wf b -> len (binding_bytes b) = 205.
Proof.
  intros ((? & ? & ? & ? & ? & ? & ? & ? & ?) & _). unfold binding_bytes, len.
  rewrite !length_app, !length_to_le_bytes. simpl length. lia.
Qed.

Lemma len_identity_bytes i : identity_wf i -> len (identity_bytes i) = 72.
Proof.
  intros (? & ? & ?). unfold identity_bytes, len. rewrite !length_app, length_to_le_bytes. lia.
Qed.

Lemma len_image_bytes i : image_wf i -> 0 <= len (image_bytes i) <= MAX_SEALED_SNAPSHOT_SIZE + 85.
Proof.
  intros (I & (? & L)). unfold image_bytes. slen. rewrite (len_identity_bytes _ I), L.
  pose proof (compact_size_len_range (ss_plaintext_len (im_sealed i) + 28)).
  unfold MAX_SEALED_SNAPSHOT_SIZE, AES_256_GCM_NONCE_SIZE, AES_256_GCM_TAG_SIZE in *. lia.
Qed.

Lemma len_state_bytes s :
  state_wf s -> 1 <= len (state_bytes s) <= 203 + 2 * MAX_SEALED_SNAPSHOT_SIZE.
Proof.
  destruct s; cbn [state_wf state_bytes].
  - intros _. by vm_compute.
  - intros W%len_image_bytes. slen. change MAX_SEALED_SNAPSHOT_SIZE with 16777244 in *. lia.
  - intros (? & Wo%len_image_bytes & Wn%len_image_bytes). slen. rewrite (len_length _ 32) by done. lia.
  - intros (I%len_identity_bytes & ?). slen. rewrite I, (len_length _ 32) by done.
    change MAX_SEALED_SNAPSHOT_SIZE with 16777244 in *. lia.
Qed.

Lemma len_body_bytes r :
  record_wf r -> 224 <= len (body_bytes r) <= MAX_JOURNAL_RECORD_SIZE - 32.
Proof.
  intros (B & _ & S). pose proof (len_state_bytes _ S). unfold body_bytes. slen.
  rewrite (len_binding_bytes _ B). change (len MAGIC) with 8. unfold MAX_JOURNAL_RECORD_SIZE. lia.
Qed.

(** ** Reading the fields back *)
Lemma JournalBinding_new_Ok p b :
  JournalBinding_new p = Ok b <->
  p = mkParts (jb_installation_lineage b) (jb_network_magic b) (jb_role_id b)
        (jb_storage_namespace_id b) (jb_logical_key b) (jb_protocol_id b) (jb_protocol_version b)
        (jb_aead_suite b) (jb_key_version b) (jb_key_id b) (jb_protection b) /\
  Forall (fun v => is_zero v = false) [jb_installation_lineage b; jb_role_id b;
    jb_storage_namespace_id b; jb_protocol_id b; jb_key_id b] /\
  jb_protocol_version b <> 0 /\ jb_aead_suite b = AEAD_SUITE_AES_256_GCM /\ jb_key_version b <> 0.
Proof.
  unfold JournalBinding_new. split.
  - intros H. inv_ok. rewrite ?negb_true_iff, ?Z.eqb_eq, ?Z.eqb_neq in *. cbn.
    split; [by destruct p|]. by repeat constructor.
  - intros (-> & F & P & A & K). destruct b; cbn in *.
    repeat match goal with H : Forall _ (_ :: _) |- _ => apply Forall_cons in H as (-> & H) end.
    rewrite A, (proj2 (Z.eqb_neq _ _) P), (proj2 (Z.eqb_neq _ _) K). done.
Qed.

Lemma protection_decode c : RollbackProtectionClass_decode (protection_as_u8 c) = Ok c.
Proof. by destruct c. Qed.

Lemma len32 (bs : list byte) : length bs = 32%nat -> len bs = 32.
Proof. apply (len_length bs 32). Qed.
#[local] Hint Resolve len32 : codec.

Lemma read_binding_reads d b : binding_wf b -> reads d JournalBinding_decode (binding_bytes b) b.
Proof.
  intros ((? & ? & ? & ? & ? & ? & ? & ? & ?) & N). unfold JournalBinding_decode, binding_bytes.
  assert (u16 (jb_aead_suite b)) by (destruct N as (_ & _ & -> & _); unfold AEAD_SUITE_AES_256_GCM; ulia).
  do 10 reads_step.
  eapply reads_last; [eauto with codec|].
  eapply reads_nil_bind; [apply reads_res, protection_decode|].
  apply reads_res, JournalBinding_new_Ok. by split.
Qed.

Lemma read_identity_reads d i : identity_wf i -> reads d StateIdentity_decode (identity_bytes i) i.
Proof.
  intros (? & ? & ?). unfold StateIdentity_decode, identity_bytes.
  do 2 reads_step. eapply reads_last; [eauto with codec|]. destruct i. apply reads_ret.
Qed.

Lemma SealedSnapshot_new_Ok n c s :
  0 <= n -> SealedSnapshot_new n c = Ok s <-> s = mkSealed n c /\ sealed_wf s.
Proof.
  intros Hn. unfold SealedSnapshot_new, sealed_wf, MAX_SEALED_SNAPSHOT_SIZE, AES_256_GCM_NONCE_SIZE,
    AES_256_GCM_TAG_SIZE, MAX_PLAINTEXT_SNAPSHOT_SIZE. split.
  - intros H. inv_ok. rewrite checked_add_Some in *. destruct_and!. subst.
    rewrite negb_true_iff, orb_false_iff, negb_false_iff, Z.leb_le, Z.eqb_eq in *.
    cbn [ss_plaintext_len ss_ciphertext]. split; [done|lia].
  - intros (-> & (? & L)). cbn [ss_plaintext_len ss_ciphertext] in *.
    apply bind_Ok. exists tt. split; [apply assert_or_Ok; lia|].
    apply bind_Ok. exists (n + 28). split; [apply ok_or_Ok, checked_add_Some; ulia|].
    rewrite L, Z.eqb_refl. apply bind_Ok. exists tt.
    split; [apply assert_or_Ok; cbn; rewrite negb_true_iff, Z.ltb_ge; lia|].
    apply bind_Ok. exists tt. split; [apply assert_or_Ok; ulia|done].
Qed.

Lemma read_image_reads d i : image_wf i -> reads d SnapshotImage_decode (image_bytes i) i.
Proof.
  destruct i as [i s]. intros (I & S). cbn [im_identity im_sealed] in *.
  unfold SnapshotImage_decode, image_bytes. cbn [im_identity im_sealed].
  eapply reads_bind; [by apply read_identity_reads|].
  eapply (reads_last _ _ _ _ s); [|apply reads_ret]. unfold SealedSnapshot_decode.
  pose proof S as ((? & ?) & L). unfold MAX_PLAINTEXT_SNAPSHOT_SIZE in *.
  eapply reads_bind; [apply reads_err, read_u32_reads; ulia|].
  eapply reads_last.
  { apply reads_err, read_varbytes_reads; rewrite L;
      unfold MAX_SEALED_SNAPSHOT_SIZE, MAX_PLAINTEXT_SNAPSHOT_SIZE, AES_256_GCM_NONCE_SIZE,
      AES_256_GCM_TAG_SIZE; ulia. }
  apply reads_res, SealedSnapshot_new_Ok; [done|]. by destruct s.
Qed.
#[local] Hint Resolve read_image_reads read_identity_reads read_binding_reads : codec.

Lemma read_state_reads d s : state_wf s -> reads d decode_state (state_bytes s) s.
Proof.
  unfold decode_state. destruct s; cbn [state_wf state_bytes].
  - intros _. eapply (reads_last _ _ _ [_]); [eauto with codec|]. apply reads_ret.
  - intros. reads_step. cbn. eapply reads_last; [eauto with codec|apply reads_ret].
  - intros (L%len_length & ? & ?). do 3 reads_step. eapply reads_last; [eauto with codec|apply reads_ret].
  - intros (? & L%len_length). do 2 reads_step. eapply reads_last; [eauto with codec|apply reads_ret].
Qed.

Lemma read_body_reads d r : record_wf r -> reads d decode_body (body_bytes r) r.
Proof.
  intros (B & R & S). unfold decode_body, body_bytes.
  eapply reads_bind; [by apply reads_err, read_array_reads|].
  eapply reads_nil_bind; [apply reads_assert; reflexivity|].
  eapply reads_bind; [apply reads_err, read_u16_reads; unfold FORMAT_VERSION; ulia|].
  eapply reads_nil_bind; [apply reads_assert; reflexivity|].
  do 2 reads_step. eapply reads_last; [by apply read_state_reads|]. destruct r. apply reads_ret.
Qed.

(** ** What is read is well typed *)
Lemma read_binding_wf d b d' :
  dec_wf d -> JournalBinding_decode d = (Ok b, d') -> dec_wf d' /\ binding_wf b.
Proof.
  intros W H. unfold JournalBinding_decode in H. inv_dec. took_all.
  match goal with H : JournalBinding_new _ = _ |- _ =>
    apply JournalBinding_new_Ok in H as ([= -> -> -> -> -> -> -> -> -> -> ->] & ?) end.
  split; [done|]. unfold binding_wf, len in *. repeat split; try tauto; try ulia.
Qed.

Lemma read_identity_wf d i d' :
  dec_wf d -> StateIdentity_decode d = (Ok i, d') -> dec_wf d' /\ identity_wf i.
Proof.
  intros W H. unfold StateIdentity_decode in H. inv_dec. took_all.
  split; [done|]. unfold identity_wf, len in *. cbn. repeat split; ulia.
Qed.

Lemma read_image_wf d i d' :
  dec_wf d -> SnapshotImage_decode d = (Ok i, d') -> dec_wf d' /\ image_wf i.
Proof.
  intros W H. unfold SnapshotImage_decode in H. dbind H as si d1 Hi. dbind H as s d2 Hs.
  apply read_identity_wf in Hi as (W1 & I); [|done]. inv_dec.
  unfold SealedSnapshot_decode in Hs. inv_dec. took_all.
  match goal with H : SealedSnapshot_new _ _ = _ |- _ =>
    apply SealedSnapshot_new_Ok in H as (-> & ?); [|ulia] end.
  done.
Qed.

Lemma read_state_wf d s d' : dec_wf d -> decode_state d = (Ok s, d') -> dec_wf d' /\ state_wf s.
Proof.
  intros W H. unfold decode_state in H. dbind H as t d1 Ht. took_all.
  destruct t; try (by inv_dec); inv_dec; took_all; cbn [state_wf].
  - match goal with H : SnapshotImage_decode _ = _ |- _ => by apply read_image_wf in H end.
  - match goal with H : SnapshotImage_decode ?d = _, W : dec_wf ?d |- _ =>
      apply (read_image_wf _ _ _ W) in H as (? & ?) end.
    match goal with H : SnapshotImage_decode ?d = _, W : dec_wf ?d |- _ =>
      apply (read_image_wf _ _ _ W) in H as (? & ?) end.
    unfold len in *. split; [done|]. split; [lia|done].
  - match goal with H : StateIdentity_decode ?d = _, W : dec_wf ?d |- _ =>
      apply (read_identity_wf _ _ _ W) in H as (? & ?) end.
    took_all. unfold len in *. split; [done|]. split; [done|lia].
Qed.

Lemma read_body_wf d r d' : dec_wf d -> decode_body d = (Ok r, d') -> record_wf r.
Proof.
  intros W H. unfold decode_body in H.
  dbind H as mg d1 Hm. took_all. dbind H as u d2 Hu. dbind H as v d3 Hv. took_all.
  dbind H as u2 d4 Hu2. dbind H as b d5 Hb. apply read_binding_wf in Hb as (W5 & B); [|done].
  dbind H as rv d6 Hr. took_all. dbind H as s d7 Hs. apply read_state_wf in Hs as (_ & S); [|done].
  by inv_dec.
Qed.

Section properties.
Context {CR : Crypto}.

Lemma length_hash32 domain parts : length (hash32 domain parts) = 32%nat.
Proof. apply blake2b_length. Qed.

Lemma JournalRecord_decode_Ok input r :
  JournalRecord_decode input = Ok r <->
  record_wf r /\ JournalRecord_validate r = Ok tt /\ JournalRecord_encode r = input.
Proof.
  unfold JournalRecord_decode. cbv zeta. split.
  - intros H. apply bind_Ok in H as (u & L & H). apply bind_Ok in H as (u1 & C & H).
    apply bind_Ok in H as (r1 & D & H). apply bind_Ok in H as (u2 & V & H).
    apply bind_Ok in H as (u3 & E & [= ->]). destruct u2.
    apply assert_or_Ok, bool_decide_eq_true in E. split; [|done].
    apply run_all_Ok in D as (d & D & _). apply read_body_wf in D; [done|].
    apply wf_new. apply assert_or_Ok, negb_true_iff, orb_false_iff in L as (_ & L%Z.ltb_ge).
    unfold len in *. rewrite length_take. change MAX_JOURNAL_RECORD_SIZE with 33556536 in *. ulia.
  - intros (W & V & <-). rewrite JournalRecord_encode_eq. pose proof (len_body_bytes r W) as L.
    set (bs := body_bytes r) in *. assert (len (bs ++ journal_checksum bs) = len bs + 32) as Lb.
    { rewrite len_app. f_equal. apply len32, length_hash32. }
    rewrite Lb. replace (len bs + 32 - 32) with (len bs) by lia.
    replace (Z.to_nat (len bs)) with (length bs) by (unfold len; lia).
    rewrite take_app_length, drop_app_length.
    apply bind_Ok. exists tt. split.
    { apply assert_or_Ok, negb_true_iff, orb_false_iff. change (len MAGIC) with 8.
      split; apply Z.ltb_ge; lia. }
    rewrite bool_decide_eqb_refl. cbn [assert_or mbind result_bind].
    rewrite (run_all_reads _ _ _ r); [|change MAX_JOURNAL_RECORD_SIZE with 33556536 in *; ulia|
      by apply read_body_reads].
    cbn [mbind result_bind]. rewrite V. cbn [mbind result_bind].
    rewrite JournalRecord_encode_eq. fold bs. by rewrite bool_decide_eqb_refl.
Qed.

(** Canonical records are determined by their bytes. *)
Lemma JournalRecord_encode_inj r1 r2 :
  record_wf r1 -> JournalRecord_validate r1 = Ok tt ->
  record_wf r2 -> JournalRecord_validate r2 = Ok tt ->
  JournalRecord_encode r1 = JournalRecord_encode r2 -> r1 = r2.
Proof.
  intros W1 V1 W2 V2 E.
  assert (JournalRecord_decode (JournalRecord_encode r1) = Ok r1) as D1 by by apply JournalRecord_decode_Ok.
  assert (JournalRecord_decode (JournalRecord_encode r2) = Ok r2) as D2 by by apply JournalRecord_decode_Ok.
  rewrite E, D2 in D1. by injection D1.
Qed.

(** The record codec: an input decodes to a record exactly when the record
    is well typed, structurally valid and encodes to that input. Every valid
    record fits the size limit and is read back, a prepared record with two
    snapshots of 16 MiB included, and no record has a second spelling. *)
Theorem journal_record_codec input r :
  JournalRecord_decode input = Ok r <->
  record_wf r /\ JournalRecord_validate r = Ok tt /\ JournalRecord_encode r = input.
Proof. apply JournalRecord_decode_Ok. Qed.

(** ** The records a namespace can hold

    [record_step r r'] is one accepted write: [r'] is what some mutation of [r]
    proposes. A namespace starts with the provisioned marker. *)
Inductive record_step (r : JournalRecord) : JournalRecord -> Prop :=
| step_enroll lease db current m :
    image_wf current -> privileged_enroll r lease db current = Ok m -> record_step r (mu_proposed m)
| step_prepare lease db new m :
    image_wf new -> prepare_transition r lease db new = Ok m -> record_step r (mu_proposed m)
| step_finalize lease db m :
    finalize_prepared r lease db = Ok m -> record_step r (mu_proposed m)
| step_retire lease db m :
    privileged_retire r lease db = Ok m -> record_step r (mu_proposed m).

Definition provisioned (b : JournalBinding) (r : JournalRecord) : Prop :=
  exists lease m, privileged_provision b lease = Ok m /\ r = mu_proposed m.

(** The revision of the last state the journal fully acknowledged. *)
Definition acknowledged (s : JournalState) : option Z :=
  match s with
  | NeverInitialized => None
  | Stable current => Some (si_revision (im_identity current))
  | Prepared _ old _ => Some (si_revision (im_identity old))
  | Retired last _ => Some (si_revision last)
  end.

(** The legal moves between durable states. *)
Definition state_move (s s' : JournalState) : Prop :=
  match s, s' with
  | NeverInitialized, Stable _ => True
  | Stable current, Prepared _ old new =>
    old = current /\ si_revision (im_identity current) < si_revision (im_identity new)
  | Prepared _ _ new, Stable current => current = new
  | Stable current, Retired last _ => last = im_identity current
  | _, _ => False
  end.

Lemma next_mutation_Ok r lease s m :
  next_mutation r lease s = Ok m <->
  jr_journal_revision r + 1 <= u64_max /\
  JournalRecord_validate (mkRecord (jr_binding r) (jr_journal_revision r + 1) s) = Ok tt /\
  m = mkMutation (mkExpectation (JournalBinding_fingerprint (jr_binding r)) (jl_fencing_token lease)
        (ExpectExact (jr_journal_revision r) (JournalRecord_fingerprint r)))
        (mkRecord (jr_binding r) (jr_journal_revision r + 1) s).
Proof.
  unfold next_mutation. split.
  - intros H. apply bind_Ok in H as (v & C & H). apply ok_or_Ok, checked_add_Some in C as (-> & ?).
    apply bind_Ok in H as ([] & V & [= <-]). done.
  - intros (L & V & ->). apply bind_Ok. exists (jr_journal_revision r + 1).
    split; [by apply ok_or_Ok, checked_add_Some|]. by rewrite V.
Qed.

Lemma finalize_prepared_Ok r lease db m :
  finalize_prepared r lease db = Ok m <->
  exists t old new, jr_state r = Prepared t old new /\ db = Present (im_identity new) /\
    jl_binding_fingerprint lease = JournalBinding_fingerprint (jr_binding r) /\
    next_mutation r lease (Stable new) = Ok m.
Proof.
  unfold finalize_prepared, ensure_lease_binding. rewrite bind_Ok. setoid_rewrite assert_or_Ok.
  setoid_rewrite bool_decide_eq_true. split.
  - intros ([] & L & H). destruct (jr_state r) as [| |t old new|] eqn:S; try done.
    apply bind_Ok in H as (u & D & H). apply assert_or_Ok, bool_decide_eq_true in D. by exists t, old, new.
  - intros (t & old & new & -> & -> & L & H). exists tt. split; [done|].
    by rewrite bool_decide_eqb_refl.
Qed.

(** Every accepted write advances the journal revision by one and makes a legal
    move to a structurally valid state of the same namespace. *)
Lemma record_step_inv r r' :
  record_wf r -> record_step r r' ->
  record_wf r' /\ JournalRecord_validate r' = Ok tt /\ jr_binding r' = jr_binding r /\
  jr_journal_revision r' = jr_journal_revision r + 1 /\ state_move (jr_state r) (jr_state r').
Proof.
  intros (Wb & Wr & Ws) S.
  assert (forall lease s m, next_mutation r lease s = Ok m -> state_wf s ->
    state_move (jr_state r) s ->
    record_wf (mu_proposed m) /\ JournalRecord_validate (mu_proposed m) = Ok tt /\
    jr_binding (mu_proposed m) = jr_binding r /\
    jr_journal_revision (mu_proposed m) = jr_journal_revision r + 1 /\
    state_move (jr_state r) (jr_state (mu_proposed m))) as K.
  { intros lease s m (L & V & ->)%next_mutation_Ok W M. cbn.
    split; [|done]. split; [done|]. split; [cbn; ulia|done]. }
  destruct S as [lease db current m Wc H|lease db new m Wn H|lease db m H|lease db m H].
  - unfold privileged_enroll in H. apply bind_Ok in H as (u & _ & H).
    destruct (jr_state r) eqn:E; try done. apply bind_Ok in H as (u1 & _ & H).
    by eapply K.
  - unfold prepare_transition in H. apply bind_Ok in H as (u & _ & H).
    destruct (jr_state r) eqn:E; try done. apply bind_Ok in H as (u1 & _ & H).
    apply bind_Ok in H as (u2 & A & H). apply bind_Ok in H as (u3 & _ & H). cbn zeta in H.
    apply assert_or_Ok, negb_true_iff, Z.leb_gt in A.
    eapply K; [done| |done]. split; [apply length_hash32|done].
  - apply finalize_prepared_Ok in H as (t & old & new & E & _ & _ & H).
    rewrite E in Ws, K. eapply K in H; [by rewrite E| |done]. apply Ws.
  - unfold privileged_retire in H. apply bind_Ok in H as (u & _ & H).
    destruct (jr_state r) eqn:E; try done. apply bind_Ok in H as (u1 & _ & H). cbn zeta in H.
    eapply K; [done| |done]. split; [apply Ws|apply length_hash32].
Qed.

Lemma provisioned_inv b r :
  binding_wf b -> provisioned b r -> r = mkRecord b 0 NeverInitialized /\ record_wf r.
Proof.
  intros B (lease & m & P & ->). unfold privileged_provision in P.
  apply bind_Ok in P as (u & _ & [= <-]). split; [done|]. split; [done|]. split; [cbn; ulia|done].
Qed.

(** Every record a namespace can ever hold is valid: from provisioning on,
    whatever sequence of enrolment, prepare, finalize and retire writes was
    accepted, the record satisfies its structural invariant (revision parity,
    advancing protocol revision, exact transition identifier), keeps its
    binding, and survives a store and reload through the codec. *)
Theorem journal_reachable_valid b r0 r (B : binding_wf b) (P : provisioned b r0)
    (R : rtc record_step r0 r) :
  record_wf r /\ JournalRecord_validate r = Ok tt /\ jr_binding r = b /\
  JournalRecord_decode (JournalRecord_encode r) = Ok r.
Proof.
  apply provisioned_inv in P as (-> & W0); [|done].
  assert (record_wf r /\ JournalRecord_validate r = Ok tt /\ jr_binding r = b) as (W & V & E).
  { revert r R. apply rtc_ind_r; [by split|]. intros r1 r2 _ S (W1 & V1 & <-).
    by apply record_step_inv in S as (? & ? & ? & _). }
  split; [done|]. split; [done|]. split; [done|]. by apply JournalRecord_decode_Ok.
Qed.

Definition floor_le (s s' : JournalState) : Prop :=
  match acknowledged s, acknowledged s' with
  | None, _ => True
  | Some a, Some a' => a <= a'
  | Some _, None => False
  end.

Lemma floor_le_trans s1 s2 s3 : floor_le s1 s2 -> floor_le s2 s3 -> floor_le s1 s3.
Proof.
  unfold floor_le. destruct (acknowledged s1), (acknowledged s2), (acknowledged s3); try done. lia.
Qed.

Lemma prepared_inv r t old new :
  JournalRecord_validate r = Ok tt -> jr_state r = Prepared t old new ->
  2 <= jr_journal_revision r /\ jr_journal_revision r mod 2 = 0 /\
  si_revision (im_identity old) < si_revision (im_identity new) /\
  t = transition_id (jr_binding r) old new.
Proof.
  unfold JournalRecord_validate. intros V E. rewrite E in V. inv_ok.
  rewrite ?negb_true_iff, ?orb_false_iff, ?negb_false_iff, ?Z.ltb_ge, ?Z.eqb_eq, ?Z.leb_gt,
    ?bool_decide_eq_true in *. tauto.
Qed.

Lemma move_floor r s' :
  JournalRecord_validate r = Ok tt -> state_move (jr_state r) s' -> floor_le (jr_state r) s'.
Proof.
  intros V. destruct (jr_state r) as [|cur|t old new|] eqn:E, s'; cbn; try done.
  - intros (-> & _). unfold floor_le. cbn. lia.
  - intros ->. unfold floor_le. cbn. lia.
  - intros ->. apply prepared_inv in E as (_ & _ & ? & _); [|done]. unfold floor_le. cbn. lia.
Qed.

(** The journal never goes back: after [n] accepted writes the journal
    revision has grown by exactly [n], the protocol revision the journal has
    acknowledged has not decreased, and a retired record accepts no write. *)
Theorem journal_monotone n r r' (W : record_wf r) (V : JournalRecord_validate r = Ok tt)
    (R : nsteps record_step n r r') :
  jr_journal_revision r' = jr_journal_revision r + Z.of_nat n /\
  floor_le (jr_state r) (jr_state r') /\
  (forall last t, jr_state r = Retired last t -> n = 0%nat /\ r' = r).
Proof.
  induction R as [r|n r r1 r2 S R IH].
  { split; [lia|]. split; [|done]. unfold floor_le. destruct (acknowledged _); [lia|done]. }
  apply record_step_inv in S as (W1 & V1 & _ & Rv & M); [|done].
  destruct (IH W1 V1) as (R2 & F & _). split; [lia|]. split.
  - eapply floor_le_trans; [by eapply move_floor|done].
  - intros last t E. rewrite E in M. by destruct (jr_state r1).
Qed.

(** ** Ambiguous writes *)
Definition record_message (r : JournalRecord) : list byte :=
  RECORD_FINGERPRINT_DOMAIN ++ JournalRecord_encode r.

Definition valid_record (r : JournalRecord) : Prop :=
  record_wf r /\ JournalRecord_validate r = Ok tt.

Lemma record_fingerprint_eq r1 r2 ms :
  collision_free ms -> record_message r1 ∈ ms -> record_message r2 ∈ ms ->
  valid_record r1 -> valid_record r2 ->
  bool_decide (JournalRecord_fingerprint r1 = JournalRecord_fingerprint r2) = bool_decide (r1 = r2).
Proof.
  intros C I1 I2 (W1 & V1) (W2 & V2). apply bool_decide_ext. split; [|by intros ->].
  unfold JournalRecord_fingerprint, hash32. cbn [mjoin list_join]. rewrite !app_nil_r. intros E.
  apply (C (record_message r1) (record_message r2)) in E; [|done|done]. apply app_inv_head in E. by apply JournalRecord_encode_inj.
Qed.

(** Reconciliation decides the fate of an ambiguous write: unless the record
    fingerprints involved collide, reloading the proposed record means
    committed, reloading the prior record means retry, and any other record, or
    none, means conflict. *)
Theorem reconcile_exact r lease s m loaded (Vr : valid_record r) (Ws : state_wf s)
    (N : next_mutation r lease s = Ok m)
    (Vl : match loaded with Some l => valid_record l | None => True end)
    (C : collision_free (record_message <$> r :: mu_proposed m :: option_list loaded)) :
  reconcile m loaded =
    if decide (loaded = Some (mu_proposed m)) then Committed
    else if decide (loaded = Some r) then RetryExact else FailClosedConflict.
Proof.
  apply next_mutation_Ok in N as (L & V & ->).
  set (p := mkRecord (jr_binding r) (jr_journal_revision r + 1) s) in *. cbn [mu_proposed] in *.
  unfold reconcile, expectation_matches. cbn [mu_proposed mu_expectation we_prior].
  destruct loaded as [l|]; [|by rewrite !decide_False].
  assert (valid_record p) as Vp.
  { split; [|done]. destruct Vr as ((? & Wr & _) & _). split; [done|]. split; [cbn; ulia|done]. }
  rewrite (record_fingerprint_eq l p _ C), (record_fingerprint_eq l r _ C) by (done || set_solver).
  destruct (decide (Some l = Some p)) as [[= ->]|Np]; [by rewrite !bool_decide_eqb_refl|].
  rewrite (bool_decide_eq_false_2 (l = p)), andb_false_r by congruence.
  destruct (decide (Some l = Some r)) as [[= ->]|Nr].
  - cbn. by rewrite !bool_decide_eqb_refl, Z.eqb_refl.
  - by rewrite (bool_decide_eq_false_2 (l = r)), andb_false_r by congruence.
Qed.


(** ** Recovery

    What the embedding does with a plan: restores and the retried
    compare-and-swap leave the database in the named image, and a finalization
    writes the journal. *)
Definition perform (lease : JournalLeaseContext) (r : JournalRecord) (db : DatabaseObservation)
    (p : RecoveryPlan) : option (JournalRecord * DatabaseObservation) :=
  match p with
  | Ready _ | FailClosed _ => None
  | RestoreStableThenReread _ current => Some (r, Present (im_identity current))
  | RetryPreparedDatabaseCas _ _ proposed => Some (r, Present (im_identity proposed))
  | RestorePreparedOldThenReread _ _ old => Some (r, Present (im_identity old))
  | FinalizePrepared _ =>
    match finalize_prepared r lease db with
    | Ok m => Some (mu_proposed m, db)
    | Err _ => None
    end
  end.

(** Plan, perform, reread and plan again, at most [fuel] times. *)
Fixpoint recover (fuel : nat) (b : JournalBinding) (lease : JournalLeaseContext)
    (r : JournalRecord) (db : DatabaseObservation) : option (JournalRecord * SnapshotImage) :=
  match plan_recovery b (Some r) db, fuel with
  | Ready current, _ => Some (r, current)
  | p, S fuel =>
    match perform lease r db p with
    | Some (r', db') => recover fuel b lease r' db'
    | None => None
    end
  | _, O => None
  end.

(** The databases recovery can handle: absent, exactly known, or older than
    what the journal acknowledged. *)
Definition covered (s : JournalState) (db : DatabaseObservation) : Prop :=
  match db with
  | Absent => s <> NeverInitialized
  | Present i =>
    match s with
    | NeverInitialized => False
    | Stable current => i = im_identity current \/ si_revision i < si_revision (im_identity current)
    | Prepared _ old new =>
      i = im_identity old \/ i = im_identity new \/ si_revision i < si_revision (im_identity old)
    | Retired last _ => i = last \/ si_revision i < si_revision last
    end
  end.

Lemma plan_stable b r cur db :
  jr_binding r = b -> jr_state r = Stable cur ->
  (covered (jr_state r) db <->
   plan_recovery b (Some r) db = Ready cur \/
   plan_recovery b (Some r) db = RestoreStableThenReread db cur) /\
  (forall img, plan_recovery b (Some r) db = Ready img <-> img = cur /\ db = Present (im_identity cur)).
Proof.
  intros <- E. unfold plan_recovery, JournalRecord_recovery_plan, covered.
  rewrite bool_decide_eqb_refl, E. cbn [negb]. destruct db as [|i].
  { split; [split; auto|]. by split; [|intros (_ & ?)]. }
  case_bool_decide as D; [subst; split; [tauto|naive_solver]|].
  repeat zcase; (split; [|naive_solver]); split; try tauto; try (intros [?|?]; done).
  all: intros [?|?]; [done|lia].
Qed.

Lemma plan_prepared b r t old new db :
  jr_binding r = b -> jr_state r = Prepared t old new -> JournalRecord_validate r = Ok tt ->
  (db = Present (im_identity old) ->
     plan_recovery b (Some r) db = RetryPreparedDatabaseCas t (im_identity old) new) /\
  (db = Present (im_identity new) -> plan_recovery b (Some r) db = FinalizePrepared t) /\
  (covered (jr_state r) db -> db <> Present (im_identity old) -> db <> Present (im_identity new) ->
     plan_recovery b (Some r) db = RestorePreparedOldThenReread t db old) /\
  (forall cur, plan_recovery b (Some r) db <> Ready cur).
Proof.
  intros <- E V. destruct (prepared_inv _ _ _ _ V E) as (_ & _ & A & _).
  unfold plan_recovery, JournalRecord_recovery_plan, covered.
  rewrite bool_decide_eqb_refl, E. cbn [negb]. repeat split.
  - intros ->. by rewrite bool_decide_eqb_refl.
  - intros ->. rewrite bool_decide_eq_false_2, bool_decide_eqb_refl; [done|congruence || (intros Q; rewrite Q in A; lia)].
  - destruct db as [|i]; [done|]. intros C N1 N2.
    rewrite !bool_decide_eq_false_2 by congruence.
    rewrite (proj2 (Z.ltb_lt _ _)); [done|]. destruct C as [->|[->|?]]; done.
  - intros cur. destruct db; [done|]. by repeat case_match.
Qed.

(** Finalization is always possible once the new state is in the database. *)
Lemma finalize_possible lease r t old new :
  valid_record r -> jr_state r = Prepared t old new ->
  jl_binding_fingerprint lease = JournalBinding_fingerprint (jr_binding r) ->
  exists m, finalize_prepared r lease (Present (im_identity new)) = Ok m /\
    mu_proposed m = mkRecord (jr_binding r) (jr_journal_revision r + 1) (Stable new).
Proof.
  intros ((_ & R & _) & V) E L. destruct (prepared_inv _ _ _ _ V E) as (R2 & Ev & _ & _).
  eexists (mkMutation _ _). split; [|reflexivity]. apply finalize_prepared_Ok. exists t, old, new.
  split; [done|]. split; [done|]. split; [done|]. apply next_mutation_Ok.
  split; [|split; [|reflexivity]].
  - assert (jr_journal_revision r <> u64_max) by (intros Q; by rewrite Q in Ev). ulia.
  - unfold JournalRecord_validate. cbn [jr_state jr_journal_revision]. apply assert_or_Ok.
    rewrite negb_true_iff, orb_false_iff, !Z.eqb_neq. split; [lia|].
    rewrite Z.add_mod, Ev by lia. done.
Qed.

Definition newest (s : JournalState) : option SnapshotImage :=
  match s with Stable current => Some current | Prepared _ _ new => Some new | _ => None end.

Lemma recover_ready n b lease r db cur :
  plan_recovery b (Some r) db = Ready cur -> recover n b lease r db = Some (r, cur).
Proof. intros E. destruct n; cbn [recover]; by rewrite E. Qed.

Lemma recover_act n b lease r db r' db' :
  perform lease r db (plan_recovery b (Some r) db) = Some (r', db') ->
  recover (S n) b lease r db = recover n b lease r' db'.
Proof. intros E. cbn [recover]. by destruct (plan_recovery b (Some r) db); rewrite ?E. Qed.

Lemma recover_stable n b lease r cur db :
  jr_binding r = b -> jr_state r = Stable cur -> covered (jr_state r) db ->
  recover (S n) b lease r db = Some (r, cur).
Proof.
  intros B E C. destruct (plan_stable b r cur db B E) as (K & _).
  apply K in C as [P|P]; [by apply recover_ready|]. erewrite recover_act; [|by rewrite P].
  apply recover_ready. by apply (plan_stable b r cur).
Qed.

Lemma recover_prepared b lease r t old new db :
  valid_record r -> jr_binding r = b -> jr_state r = Prepared t old new ->
  jl_binding_fingerprint lease = JournalBinding_fingerprint b -> covered (jr_state r) db ->
  recover 3 b lease r db =
    Some (mkRecord b (jr_journal_revision r + 1) (Stable new), new).
Proof.
  intros Vr <- E L C. pose proof Vr as (_ & V).
  set (r' := mkRecord (jr_binding r) (jr_journal_revision r + 1) (Stable new)).
  assert (forall n, recover (S n) (jr_binding r) lease r (Present (im_identity new)) = Some (r', new)) as K1.
  { intros n. destruct (plan_prepared (jr_binding r) r t old new
      (Present (im_identity new)) eq_refl E V) as (_ & P & _).
    destruct (finalize_possible lease r t old new Vr E L) as (m & F & Em).
    erewrite recover_act; [|rewrite P by done; cbn; by rewrite F, Em].
    apply recover_ready. by apply (plan_stable _ r' new). }
  assert (forall n, recover (S (S n)) (jr_binding r) lease r (Present (im_identity old)) = Some (r', new)) as K2.
  { intros n. destruct (plan_prepared (jr_binding r) r t old new
      (Present (im_identity old)) eq_refl E V) as (P & _).
    erewrite recover_act; [apply K1|by rewrite P]. }
  destruct (decide (db = Present (im_identity old))) as [->|No]; [apply K2|].
  destruct (decide (db = Present (im_identity new))) as [->|Nn]; [apply K1|].
  destruct (plan_prepared (jr_binding r) r t old new db eq_refl E V) as (_ & _ & P & _).
  erewrite recover_act; [apply K2|by rewrite P].
Qed.


(** ** A journal beside a database that can be rolled back

    The journal record is durable; the protocol database lives on a volume that
    an adversary may at any time replace by any of its own earlier states, or
    erase. The runtime prepares, finalizes and retires under the observation it
    reads, and otherwise does what the recovery plan says; the first
    compare-and-swap after a prepare is the planned [RetryPreparedDatabaseCas]. *)
Record system := mkSystem {
  sy_record : JournalRecord;
  sy_database : DatabaseObservation;
  sy_past : list DatabaseObservation;
}.

Inductive system_step (b : JournalBinding) (s : system) : system -> Prop :=
| sys_prepare lease new m :
    image_wf new -> prepare_transition (sy_record s) lease (sy_database s) new = Ok m ->
    system_step b s (mkSystem (mu_proposed m) (sy_database s) (sy_past s))
| sys_retire lease m :
    privileged_retire (sy_record s) lease (sy_database s) = Ok m ->
    system_step b s (mkSystem (mu_proposed m) (sy_database s) (sy_past s))
| sys_recover lease r' db' :
    perform lease (sy_record s) (sy_database s)
      (plan_recovery b (Some (sy_record s)) (sy_database s)) = Some (r', db') ->
    system_step b s (mkSystem r' db' (sy_database s :: sy_past s))
| sys_rollback d :
    d = Absent \/ d ∈ sy_past s ->
    system_step b s (mkSystem (sy_record s) d (sy_database s :: sy_past s)).

Definition enrolled (b : JournalBinding) (s : system) : Prop :=
  exists r0 lease current m,
    provisioned b r0 /\ image_wf current /\
    privileged_enroll r0 lease (Present (im_identity current)) current = Ok m /\
    s = mkSystem (mu_proposed m) (Present (im_identity current)) [].

Definition system_ok (b : JournalBinding) (s : system) : Prop :=
  valid_record (sy_record s) /\ jr_binding (sy_record s) = b /\
  Forall (covered (jr_state (sy_record s))) (sy_database s :: sy_past s).

Lemma covered_move r s' db :
  JournalRecord_validate r = Ok tt -> state_move (jr_state r) s' -> covered (jr_state r) db ->
  covered s' db.
Proof.
  intros V. destruct (jr_state r) as [|cur|t old new|] eqn:E, s'; cbn; try done.
  - destruct db as [|i]; cbn; [done|done].
  - intros (-> & ?). destruct db as [|i]; cbn; [done|tauto].
  - intros ->. by destruct db.
  - intros ->. destruct (prepared_inv _ _ _ _ V E) as (_ & _ & ? & _).
    destruct db as [|i]; cbn; [done|]. intros [->|[->|?]]; [right; done|by left|right; lia].
Qed.

Lemma record_step_covered r r' dbs :
  valid_record r -> record_step r r' -> Forall (covered (jr_state r)) dbs ->
  Forall (covered (jr_state r')) dbs.
Proof.
  intros (W & V) S. apply record_step_inv in S as (_ & _ & _ & _ & M); [|done].
  intros F. eapply Forall_impl; [exact F|]. intros db. by apply covered_move.
Qed.

Lemma perform_inv b lease r db r' db' :
  valid_record r -> jr_binding r = b ->
  perform lease r db (plan_recovery b (Some r) db) = Some (r', db') ->
  (r' = r /\ covered (jr_state r) db') \/ (record_step r r' /\ db' = db).
Proof.
  intros _ <-. unfold plan_recovery, JournalRecord_recovery_plan.
  rewrite bool_decide_eqb_refl. cbn [negb].
  destruct (jr_state r) as [|cur|t old new|] eqn:E; [done| | |done].
  - destruct db; repeat case_match; try done; cbn [perform]; intros [= <- <-]; left; cbn; tauto.
  - assert (forall p, p = FinalizePrepared t -> perform lease r db p = Some (r', db') ->
              record_step r r' /\ db' = db) as F.
    { intros p ->. cbn. destruct (finalize_prepared r lease db) eqn:Fp; [|done]. intros [= <- <-].
      split; [by eapply step_finalize|done]. }
    destruct db as [|i]; repeat case_match; try done.
    3: { intros Hp. right. by apply (F (FinalizePrepared t) eq_refl). }
    all: cbn [perform]; intros [= <- <-]; left; cbn; tauto.
Qed.

Lemma record_step_valid r r' :
  valid_record r -> record_step r r' -> valid_record r' /\ jr_binding r' = jr_binding r.
Proof. intros (W & V) S. apply record_step_inv in S as (? & ? & ? & _); [|done]. by split. Qed.

Lemma system_step_ok b s s' : system_ok b s -> system_step b s s' -> system_ok b s'.
Proof.
  intros (Vr & B & F) S.
  assert (forall r', record_step (sy_record s) r' ->
    valid_record r' /\ jr_binding r' = b /\
    Forall (covered (jr_state r')) (sy_database s :: sy_past s)) as K.
  { intros r' R. destruct (record_step_valid _ _ Vr R) as (V' & B').
    split; [done|]. split; [congruence|]. exact (record_step_covered _ _ _ Vr R F). }
  destruct S as [lease new m Wn P|lease m P|lease r' db' P|d D].
  - apply K. by eapply step_prepare.
  - apply K. by eapply step_retire.
  - apply perform_inv in P as [(-> & C)|(R & ->)]; [|by apply K in R as (? & ? & [? ?]%Forall_cons);
      split; [done|]; split; [done|]; repeat (apply Forall_cons; split)|done|done].
    split; [done|]. split; [done|]. by apply Forall_cons.
  - split; [done|]. split; [done|]. apply Forall_cons. split; [|done].
    destruct D as [->|D]; [|by apply Forall_cons in F as (_ & F); rewrite Forall_forall in F; apply F].
    apply Forall_cons in F as (F & _). cbn. intros E. rewrite E in F. by destruct (sy_database s).
Qed.

Lemma system_reachable_ok b s0 s :
  binding_wf b -> enrolled b s0 -> rtc (system_step b) s0 s -> system_ok b s.
Proof.
  intros B (r0 & lease & cur & m & P & Wc & E & ->) R.
  apply provisioned_inv in P as (-> & W0); [|done].
  assert (system_ok b (mkSystem (mu_proposed m) (Present (im_identity cur)) [])) as I.
  { assert (record_step (mkRecord b 0 NeverInitialized) (mu_proposed m)) as S by by eapply step_enroll.
    apply record_step_inv in S as (W & V & Eb & _); [|done].
    split; [done|]. split; [done|]. apply Forall_singleton. cbn.
    unfold privileged_enroll in E. apply bind_Ok in E as (u & _ & E). cbn in E.
    apply bind_Ok in E as (u1 & _ & E). apply next_mutation_Ok in E as (_ & _ & ->). by left. }
  revert s R. apply rtc_ind_r; [done|]. intros s1 s2 _ S I1. by eapply system_step_ok.
Qed.

(** C5. Anti-rollback: in every reachable state of a journal beside a database
    that may be rolled back or erased at any time, the planner answers [Ready]
    only when the database holds exactly the journal's current state, and then
    no state the database has ever held is newer. *)
Theorem ready_is_newest b s0 s cur (B : binding_wf b) (I : enrolled b s0)
    (R : rtc (system_step b) s0 s)
    (P : plan_recovery b (Some (sy_record s)) (sy_database s) = Ready cur) :
  sy_database s = Present (im_identity cur) /\
  (forall i, Present i ∈ sy_past s ->
     i = im_identity cur \/ si_revision i < si_revision (im_identity cur)).
Proof.
  destruct (system_reachable_ok b s0 s B I R) as ((_ & V) & Eb & F).
  destruct (jr_state (sy_record s)) as [|c|t old new|] eqn:E.
  - by unfold plan_recovery, JournalRecord_recovery_plan in P; rewrite E in P; case_match.
  - apply (plan_stable _ _ c) in P as (-> & ->); [|done|done]. split; [done|].
    intros i Hi. apply Forall_cons in F as (_ & F). rewrite Forall_forall in F. by apply F in Hi.
  - by apply (plan_prepared b _ t old new (sy_database s)) in P.
  - by unfold plan_recovery, JournalRecord_recovery_plan in P; rewrite E in P; case_match.
Qed.

(** C17. Recovery always succeeds: from every reachable state that is not
    retired, whatever the adversary left in the database, at most three rounds
    of plan, perform and reread end with [Ready] on the newest image the journal
    holds, and with that image acknowledged as the stable state. *)
Theorem recovery_converges b s0 s lease img (B : binding_wf b) (I : enrolled b s0)
    (R : rtc (system_step b) s0 s) (N : newest (jr_state (sy_record s)) = Some img)
    (L : jl_binding_fingerprint lease = JournalBinding_fingerprint b) :
  exists r', recover 3 b lease (sy_record s) (sy_database s) = Some (r', img) /\
    jr_state r' = Stable img /\ jr_binding r' = b.
Proof.
  destruct (system_reachable_ok b s0 s B I R) as (Vr & Eb & F).
  apply Forall_cons in F as (C & _).
  destruct (jr_state (sy_record s)) as [|c|t old new|] eqn:E; try done; injection N as <-.
  - exists (sy_record s). split; [|done]. apply recover_stable; [done|done|by rewrite E].
  - exists (mkRecord b (jr_journal_revision (sy_record s) + 1) (Stable new)). split; [|done].
    apply (recover_prepared _ _ _ t old); try done. by rewrite E.
Qed.

End properties.

(** ** Examples, under the example digest *)
Definition demo_id (n : Z) : list byte := z2b n :: zeros 31.
Definition demo_binding : JournalBinding :=
  mkBinding (demo_id 1) 7 (demo_id 2) (demo_id 3) (demo_id 4) (demo_id 5) 1 1 1 (demo_id 6)
    IndependentLocalRoot.
Definition demo_image (revision : Z) : SnapshotImage :=
  mkImage (mkIdentity revision (demo_id revision) (demo_id (revision + 100)))
    (mkSealed 2 (zeros 30)).
Definition demo_lease : JournalLeaseContext := @JournalLeaseContext_new toy_crypto demo_binding 9.

Definition demo_marker : JournalRecord := mkRecord demo_binding 0 NeverInitialized.
Definition demo_stable : JournalRecord := mkRecord demo_binding 1 (Stable (demo_image 10)).
Definition demo_prepared : JournalRecord :=
  mkRecord demo_binding 2
    (Prepared (@transition_id toy_crypto demo_binding (demo_image 10) (demo_image 11))
       (demo_image 10) (demo_image 11)).

Definition proposes (m : result JournalError JournalMutation) (r : JournalRecord) : bool :=
  match m with Ok m => bool_decide (mu_proposed m = r) | Err _ => false end.

Lemma proposes_inv m r : proposes m r = true -> exists mu, m = Ok mu /\ r = mu_proposed mu.
Proof. destruct m as [mu|]; cbn; [|done]. intros <-%bool_decide_eq_true. by exists mu. Qed.

Lemma demo_binding_wf : binding_wf demo_binding.
Proof.
  split; [by repeat split; cbn; ulia|].
  split; [repeat (apply Forall_cons; split; [reflexivity|]); by apply Forall_nil|]. done.
Qed.

Lemma demo_image_wf n : u64 n -> image_wf (demo_image n).
Proof.
  intros. split; [by split|]. split; [|reflexivity].
  unfold MAX_PLAINTEXT_SNAPSHOT_SIZE. cbn [demo_image im_sealed ss_plaintext_len]. lia.
Qed.

Lemma demo_provisioned : @provisioned toy_crypto demo_binding demo_marker.
Proof.
  destruct (proposes_inv (@privileged_provision toy_crypto demo_binding demo_lease) demo_marker)
    as (m & E & ?); [by vm_compute|]. exists demo_lease, m. split; assumption.
Qed.

Definition demo_system : system := mkSystem demo_stable (Present (im_identity (demo_image 10))) [].
Definition demo_lost : system :=
  mkSystem demo_prepared Absent [Present (im_identity (demo_image 10))].

Lemma demo_enroll :
  exists m, @privileged_enroll toy_crypto demo_marker demo_lease
    (Present (im_identity (demo_image 10))) (demo_image 10) = Ok m /\ demo_stable = mu_proposed m.
Proof. apply proposes_inv. by vm_compute. Qed.

Lemma demo_prepare :
  exists m, @prepare_transition toy_crypto demo_stable demo_lease
    (Present (im_identity (demo_image 10))) (demo_image 11) = Ok m /\ demo_prepared = mu_proposed m.
Proof. apply proposes_inv. by vm_compute. Qed.

Lemma demo_enrolled : @enrolled toy_crypto demo_binding demo_system.
Proof.
  destruct demo_enroll as (m & E & Em). exists demo_marker, demo_lease, (demo_image 10), m.
  split; [apply demo_provisioned|]. split; [apply demo_image_wf; ulia|]. split; [exact E|].
  unfold demo_system. rewrite Em. reflexivity.
Qed.

Lemma demo_records : rtc (@record_step toy_crypto) demo_marker demo_prepared.
Proof.
  destruct demo_enroll as (m & E & Em), demo_prepare as (m' & E' & Em').
  eapply rtc_l; [eapply step_enroll; [apply (demo_image_wf 10); ulia|exact E]|]. rewrite <- Em.
  eapply rtc_l; [eapply step_prepare; [apply (demo_image_wf 11); ulia|exact E']|]. rewrite <- Em'. apply rtc_refl.
Qed.

Lemma demo_loses : rtc (@system_step toy_crypto demo_binding) demo_system demo_lost.
Proof.
  destruct demo_prepare as (m & E & Em).
  eapply rtc_l; [eapply sys_prepare; [apply (demo_image_wf 11); ulia|exact E]|]. rewrite <- Em.
  eapply rtc_l; [eapply (sys_rollback _ _ Absent); by left|]. apply rtc_refl.
Qed.

Lemma journal_reachable_valid_witness :
  @JournalRecord_decode toy_crypto (@JournalRecord_encode toy_crypto demo_prepared) = Ok demo_prepared.
Proof.
  apply (@journal_reachable_valid toy_crypto demo_binding demo_marker demo_prepared).
  - apply demo_binding_wf.
  - apply demo_provisioned.
  - apply demo_records.
Defined.

Lemma demo_stable_valid : @valid_record toy_crypto demo_stable.
Proof.
  split; [|by vm_compute]. split; [apply demo_binding_wf|]. split; [cbn; ulia|].
  apply demo_image_wf. ulia.
Qed.

Lemma journal_monotone_witness : floor_le (jr_state demo_stable) (jr_state demo_prepared).
Proof.
  destruct demo_stable_valid as (W & V). destruct demo_prepare as (m & E & Em).
  refine (proj1 (proj2 (@journal_monotone toy_crypto 1 demo_stable demo_prepared W V _))).
  eapply nsteps_l; [|apply nsteps_O]. rewrite Em.
  eapply step_prepare; [apply (demo_image_wf 11); ulia|exact E].
Defined.

Lemma reconcile_exact_witness :
  exists m, @next_mutation toy_crypto demo_stable demo_lease (jr_state demo_prepared) = Ok m /\
    @reconcile toy_crypto m (Some demo_prepared) = Committed.
Proof.
  destruct (proposes_inv (@next_mutation toy_crypto demo_stable demo_lease (jr_state demo_prepared))
    demo_prepared) as (m & E & Em); [by vm_compute|]. exists m. split; [exact E|].
  rewrite (@reconcile_exact toy_crypto demo_stable demo_lease (jr_state demo_prepared) m
    (Some demo_prepared)).
  - by rewrite decide_True by by rewrite Em.
  - apply demo_stable_valid.
  - split; [reflexivity|]. split; apply demo_image_wf; ulia.
  - exact E.
  - split; [|by vm_compute]. split; [apply demo_binding_wf|]. split; [cbn; ulia|].
    split; [reflexivity|]. split; apply demo_image_wf; ulia.
  - apply collision_freeb_spec. rewrite <- Em. by vm_compute.
Defined.

Lemma ready_is_newest_witness :
  sy_database demo_system = Present (im_identity (demo_image 10)).
Proof.
  refine (proj1 (@ready_is_newest toy_crypto demo_binding demo_system demo_system (demo_image 10)
    demo_binding_wf demo_enrolled _ _)); [apply rtc_refl|by vm_compute].
Defined.

Lemma recovery_converges_witness :
  exists r', @recover toy_crypto 3 demo_binding demo_lease demo_prepared Absent =
    Some (r', demo_image 11) /\ jr_state r' = Stable (demo_image 11) /\ jr_binding r' = demo_binding.
Proof.
  apply (@recovery_converges toy_crypto demo_binding demo_system demo_lost demo_lease (demo_image 11)).
  - apply demo_binding_wf.
  - apply demo_enrolled.
  - apply demo_loses.
  - reflexivity.
  - reflexivity.
Defined.
