(* ===== verification/Script.v ===== *)
(** * hns-script: signature hashes, script numbers, parsing and policy

    Models [crates/hns-script/src/lib.rs], [policy.rs] and the parts of
    [interpreter.rs] below execution: the parser, the signature-operation
    scanner, script numbers and truth values. Opcodes are the integers of their
    [u8] values. The two scanning loops run on fuel, one instruction per step;
    [None] is running out, which the lemmas rule out for [length script] steps. *)

From S2P Require Import Prelude Encoding Primitives Covenants Transaction.
Local Open Scope Z_scope.

Definition SIGHASH_ALL : Z := 1.
Definition SIGHASH_NONE : Z := 2.
Definition SIGHASH_SINGLE : Z := 3.
Definition SIGHASH_SINGLE_REVERSE : Z := 4.
Definition SIGHASH_NOINPUT : Z := 0x40.
Definition SIGHASH_ANYONE_CAN_PAY : Z := 0x80.
Definition SIGHASH_BASE_MASK : Z := 0x1f.
Definition HIP1_SELLER_SIGHASH : Z := Z.lor SIGHASH_SINGLE_REVERSE SIGHASH_ANYONE_CAN_PAY.

Definition LOCKTIME_FLAG : Z := Z.shiftl 1 31.
Definition LOCKTIME_MASK : Z := LOCKTIME_FLAG - 1.
Definition SEQUENCE_DISABLE_FLAG : Z := Z.shiftl 1 31.
Definition SEQUENCE_TYPE_FLAG : Z := Z.shiftl 1 22.
Definition SEQUENCE_MASK : Z := 0x0000ffff.

Definition MAX_SCRIPT_SIZE : Z := 10000.
Definition MAX_SCRIPT_PUSH : Z := 520.
Definition MAX_SCRIPT_OPS : Z := 201.
Definition MAX_SCRIPT_STACK : Z := 1000.
Definition MAX_MULTISIG_PUBKEYS : Z := 20.

Inductive ScriptError :=
| InputIndex (requested inputs : Z)
| InvalidSignatureHashType (hash_type : Z)
| ScTransaction (e : TransactionError)
| InputCoinCount (inputs coins : Z)
| InputCoinMismatch
| OpReturn
| ScriptSize
| StackSize
| PushSize
| WitnessProgramWitnessEmpty
| WitnessProgramMismatch
| WitnessProgramWrongLength
| DiscourageUpgradableWitnessProgram
| DiscourageUpgradableNops
| EvalFalse
| BadOpcode (opcode : Z)
| DisabledOpcode (opcode : Z)
| OperationCount
| MinimalData
| NonMinimalNumber
| MinimalIf
| UnbalancedConditional
| InvalidStackOperation
| InvalidAltStackOperation
| ErrVerify
| EqualVerify
| NumEqualVerify
| NegativeLocktime
| UnsatisfiedLocktime
| NumericOverflow
| PublicKeyCount
| SignatureCount
| PublicKeyEncoding
| SignatureEncoding
| SignatureNullDummy
| NullFail
| CheckSigVerify
| CheckMultiSigVerify
| SignatureBackendUnavailable.

(** The rejection code of the same failure class in the reference node. *)
Definition hsd_code (e : ScriptError) : string :=
  match e with
  | InputIndex _ _ | InvalidSignatureHashType _ | ScTransaction _ | InputCoinCount _ _
  | InputCoinMismatch | NumericOverflow | NonMinimalNumber | SignatureBackendUnavailable =>
    "UNKNOWN_ERROR"
  | OpReturn => "OP_RETURN"
  | ScriptSize => "SCRIPT_SIZE"
  | StackSize => "STACK_SIZE"
  | PushSize => "PUSH_SIZE"
  | WitnessProgramWitnessEmpty => "WITNESS_PROGRAM_WITNESS_EMPTY"
  | WitnessProgramMismatch => "WITNESS_PROGRAM_MISMATCH"
  | WitnessProgramWrongLength => "WITNESS_PROGRAM_WRONG_LENGTH"
  | DiscourageUpgradableWitnessProgram => "DISCOURAGE_UPGRADABLE_WITNESS_PROGRAM"
  | DiscourageUpgradableNops => "DISCOURAGE_UPGRADABLE_NOPS"
  | EvalFalse => "EVAL_FALSE"
  | BadOpcode _ => "BAD_OPCODE"
  | DisabledOpcode _ => "DISABLED_OPCODE"
  | OperationCount => "OP_COUNT"
  | MinimalData => "MINIMALDATA"
  | MinimalIf => "MINIMALIF"
  | UnbalancedConditional => "UNBALANCED_CONDITIONAL"
  | InvalidStackOperation => "INVALID_STACK_OPERATION"
  | InvalidAltStackOperation => "INVALID_ALTSTACK_OPERATION"
  | ErrVerify => "VERIFY"
  | EqualVerify => "EQUALVERIFY"
  | NumEqualVerify => "NUMEQUALVERIFY"
  | NegativeLocktime => "NEGATIVE_LOCKTIME"
  | UnsatisfiedLocktime => "UNSATISFIED_LOCKTIME"
  | PublicKeyCount => "PUBKEY_COUNT"
  | SignatureCount => "SIG_COUNT"
  | PublicKeyEncoding => "PUBKEY_ENCODING"
  | SignatureEncoding => "SIG_ENCODING"
  | SignatureNullDummy => "SIG_NULLDUMMY"
  | NullFail => "NULLFAIL"
  | CheckSigVerify => "CHECKSIGVERIFY"
  | CheckMultiSigVerify => "CHECKMULTISIGVERIFY"
  end.

(** ** Opcodes *)
Definition OP_0 : Z := 0x00.
Definition OP_PUSHDATA1 : Z := 0x4c.
Definition OP_PUSHDATA2 : Z := 0x4d.
Definition OP_PUSHDATA4 : Z := 0x4e.
Definition OP_1NEGATE : Z := 0x4f.
Definition OP_RESERVED : Z := 0x50.
Definition OP_1 : Z := 0x51.
Definition OP_16 : Z := 0x60.
Definition OP_NOP : Z := 0x61.
Definition OP_VER : Z := 0x62.
Definition OP_IF : Z := 0x63.
Definition OP_NOTIF : Z := 0x64.
Definition OP_VERIF : Z := 0x65.
Definition OP_VERNOTIF : Z := 0x66.
Definition OP_ELSE : Z := 0x67.
Definition OP_ENDIF : Z := 0x68.
Definition OP_VERIFY : Z := 0x69.
Definition OP_RETURN : Z := 0x6a.
Definition OP_TOALTSTACK : Z := 0x6b.
Definition OP_FROMALTSTACK : Z := 0x6c.
Definition OP_2DROP : Z := 0x6d.
Definition OP_2DUP : Z := 0x6e.
Definition OP_3DUP : Z := 0x6f.
Definition OP_2OVER : Z := 0x70.
Definition OP_2ROT : Z := 0x71.
Definition OP_2SWAP : Z := 0x72.
Definition OP_IFDUP : Z := 0x73.
Definition OP_DEPTH : Z := 0x74.
Definition OP_DROP : Z := 0x75.
Definition OP_DUP : Z := 0x76.
Definition OP_NIP : Z := 0x77.
Definition OP_OVER : Z := 0x78.
Definition OP_PICK : Z := 0x79.
Definition OP_ROLL : Z := 0x7a.
Definition OP_ROT : Z := 0x7b.
Definition OP_SWAP : Z := 0x7c.
Definition OP_TUCK : Z := 0x7d.
Definition OP_CAT : Z := 0x7e.
Definition OP_SUBSTR : Z := 0x7f.
Definition OP_LEFT : Z := 0x80.
Definition OP_RIGHT : Z := 0x81.
Definition OP_SIZE : Z := 0x82.
Definition OP_INVERT : Z := 0x83.
Definition OP_AND : Z := 0x84.
Definition OP_OR : Z := 0x85.
Definition OP_XOR : Z := 0x86.
Definition OP_EQUAL : Z := 0x87.
Definition OP_EQUALVERIFY : Z := 0x88.
Definition OP_RESERVED1 : Z := 0x89.
Definition OP_RESERVED2 : Z := 0x8a.
Definition OP_1ADD : Z := 0x8b.
Definition OP_1SUB : Z := 0x8c.
Definition OP_2MUL : Z := 0x8d.
Definition OP_2DIV : Z := 0x8e.
Definition OP_NEGATE : Z := 0x8f.
Definition OP_ABS : Z := 0x90.
Definition OP_NOT : Z := 0x91.
Definition OP_0NOTEQUAL : Z := 0x92.
Definition OP_ADD : Z := 0x93.
Definition OP_SUB : Z := 0x94.
Definition OP_MUL : Z := 0x95.
Definition OP_DIV : Z := 0x96.
Definition OP_MOD : Z := 0x97.
Definition OP_LSHIFT : Z := 0x98.
Definition OP_RSHIFT : Z := 0x99.
Definition OP_BOOLAND : Z := 0x9a.
Definition OP_BOOLOR : Z := 0x9b.
Definition OP_NUMEQUAL : Z := 0x9c.
Definition OP_NUMEQUALVERIFY : Z := 0x9d.
Definition OP_NUMNOTEQUAL : Z := 0x9e.
Definition OP_LESSTHAN : Z := 0x9f.
Definition OP_GREATERTHAN : Z := 0xa0.
Definition OP_LESSTHANOREQUAL : Z := 0xa1.
Definition OP_GREATERTHANOREQUAL : Z := 0xa2.
Definition OP_MIN : Z := 0xa3.
Definition OP_MAX : Z := 0xa4.
Definition OP_WITHIN : Z := 0xa5.
Definition OP_RIPEMD160 : Z := 0xa6.
Definition OP_SHA1 : Z := 0xa7.
Definition OP_SHA256 : Z := 0xa8.
Definition OP_HASH160 : Z := 0xa9.
Definition OP_HASH256 : Z := 0xaa.
Definition OP_CODESEPARATOR : Z := 0xab.
Definition OP_CHECKSIG : Z := 0xac.
Definition OP_CHECKSIGVERIFY : Z := 0xad.
Definition OP_CHECKMULTISIG : Z := 0xae.
Definition OP_CHECKMULTISIGVERIFY : Z := 0xaf.
Definition OP_NOP1 : Z := 0xb0.
Definition OP_CHECKLOCKTIMEVERIFY : Z := 0xb1.
Definition OP_CHECKSEQUENCEVERIFY : Z := 0xb2.
Definition OP_NOP4 : Z := 0xb3.
Definition OP_NOP10 : Z := 0xb9.
Definition OP_BLAKE160 : Z := 0xc0.
Definition OP_BLAKE256 : Z := 0xc1.
Definition OP_SHA3 : Z := 0xc2.
Definition OP_KECCAK : Z := 0xc3.
Definition OP_TYPE : Z := 0xd0.

(** ** Signature hashes *)
Definition is_valid_signature_hash_type (hash_type : byte) : bool :=
  let normalized := Z.land (b2z hash_type)
    (u32_max - Z.lor SIGHASH_NOINPUT SIGHASH_ANYONE_CAN_PAY) in
  (SIGHASH_ALL <=? normalized) && (normalized <=? SIGHASH_SINGLE_REVERSE).

Section sighash.
Context {CR : Crypto}.

Definition blake2b_256 (input : list byte) : list byte := blake2b 32 input.

Definition zero_hash : list byte := zeros 32.

Definition hash_prevouts (tx : Transaction) (anyone_can_pay : bool) : list byte :=
  if anyone_can_pay then zero_hash
  else blake2b_256 (mjoin ((fun i => Outpoint_encode (in_previous_output i)) <$> tx_inputs tx)).

Definition hash_sequences (tx : Transaction) (anyone_can_pay : bool) (base : Z) : list byte :=
  if anyone_can_pay || ((base =? SIGHASH_NONE) || (base =? SIGHASH_SINGLE)
                        || (base =? SIGHASH_SINGLE_REVERSE))
  then zero_hash
  else blake2b_256 (into_bytes
         (foldl (fun e i => put_u32_le e (in_sequence i))
            (with_capacity (len (tx_inputs tx) * 4)) (tx_inputs tx))).

(** The concatenation [bytes.extend_from_slice(&output.encode()?)]. *)
Fixpoint encode_outputs (outputs : list Output) : result TransactionError (list byte) :=
  match outputs with
  | [] => Ok []
  | output :: outputs =>
    bytes ← Output_encode output;
    rest ← encode_outputs outputs;
    Ok (bytes ++ rest)
  end.

(** The base is one of the four checked values; [SIGHASH_ALL] is the last arm. *)
Definition hash_outputs (tx : Transaction) (input_index base : Z) : result TransactionError (list byte) :=
  if base =? SIGHASH_NONE then Ok zero_hash
  else if base =? SIGHASH_SINGLE then
    match get (tx_outputs tx) input_index with
    | Some output => bytes ← Output_encode output; Ok (blake2b_256 bytes)
    | None => Ok zero_hash
    end
  else if base =? SIGHASH_SINGLE_REVERSE then
    if input_index <? len (tx_outputs tx) then
      match get (tx_outputs tx) (len (tx_outputs tx) - 1 - input_index) with
      | Some output => bytes ← Output_encode output; Ok (blake2b_256 bytes)
      | None => Ok zero_hash
      end
    else Ok zero_hash
  else bytes ← encode_outputs (tx_outputs tx); Ok (blake2b_256 bytes).

Definition sighash_message (tx : Transaction) (prevouts sequences outputs : list byte)
    (current_outpoint : Outpoint) (previous_script : list byte)
    (previous_value current_sequence hash_type : Z) : list byte :=
  let e := with_capacity (saturating_add usize_max 156 (len previous_script)) in
  let e := put_u32_le e (tx_version tx) in
  let e := put_bytes e prevouts in
  let e := put_bytes e sequences in
  let e := put_bytes e (Outpoint_encode current_outpoint) in
  let e := put_varbytes e previous_script in
  let e := put_u64_le e previous_value in
  let e := put_u32_le e current_sequence in
  let e := put_bytes e outputs in
  let e := put_u32_le e (tx_locktime tx) in
  into_bytes (put_u32_le e hash_type).

Definition signature_hash (tx : Transaction) (input_index : Z) (previous_script : list byte)
    (previous_value hash_type : Z) : result ScriptError (list byte) :=
  input ← ok_or (get (tx_inputs tx) input_index) (InputIndex input_index (len (tx_inputs tx)));
  let base := Z.land hash_type SIGHASH_BASE_MASK in
  assert_or ((SIGHASH_ALL <=? base) && (base <=? SIGHASH_SINGLE_REVERSE))
    (InvalidSignatureHashType hash_type) ;;
  let anyone_can_pay := negb (Z.land hash_type SIGHASH_ANYONE_CAN_PAY =? 0) in
  let no_input := negb (Z.land hash_type SIGHASH_NOINPUT =? 0) in
  outputs ← map_err ScTransaction (hash_outputs tx input_index base);
  let '(current_outpoint, current_sequence) :=
    if no_input then (Outpoint_NULL, u32_max)
    else (in_previous_output input, in_sequence input) in
  Ok (blake2b_256 (sighash_message tx (hash_prevouts tx anyone_can_pay)
        (hash_sequences tx anyone_can_pay base) outputs current_outpoint previous_script
        previous_value current_sequence hash_type)).

End sighash.

(** ** Lock predicates *)
Definition verify_locktime_predicate (tx : Transaction) (input_index predicate : Z) : bool :=
  match get (tx_inputs tx) input_index with
  | None => false
  | Some input =>
    (Z.land (tx_locktime tx) LOCKTIME_FLAG =? Z.land predicate LOCKTIME_FLAG)
    && (Z.land predicate LOCKTIME_MASK <=? Z.land (tx_locktime tx) LOCKTIME_MASK)
    && negb (in_sequence input =? u32_max)
  end.

Definition verify_sequence_predicate (tx : Transaction) (input_index predicate : Z) : bool :=
  match get (tx_inputs tx) input_index with
  | None => false
  | Some input =>
    if negb (Z.land predicate SEQUENCE_DISABLE_FLAG =? 0) then true
    else if negb (Z.land (in_sequence input) SEQUENCE_DISABLE_FLAG =? 0) then false
    else (Z.land (in_sequence input) SEQUENCE_TYPE_FLAG =? Z.land predicate SEQUENCE_TYPE_FLAG)
         && (Z.land predicate SEQUENCE_MASK <=? Z.land (in_sequence input) SEQUENCE_MASK)
  end.

(** ** Script numbers and truth *)
Definition is_minimal_script_number (bytes : list byte) : bool :=
  match last bytes with
  | None => true
  | Some top =>
    if Z.land (b2z top) 0x7f =? 0 then
      if len bytes =? 1 then false
      else match get bytes (len bytes - 2) with
           | Some below => negb (Z.land (b2z below) 0x80 =? 0)
           | None => true
           end
    else true
  end.

Fixpoint or_bytes (index : Z) (magnitude : Z) (bytes : list byte) : Z :=
  match bytes with
  | [] => magnitude
  | b :: bytes =>
    or_bytes (index + 1) (Z.lor magnitude (wrap 64 (Z.shiftl (b2z b) (8 * index)))) bytes
  end.

Definition i64_max : Z := 9223372036854775807.
Definition i64_min : Z := -9223372036854775808.

Definition decode_script_number (bytes : list byte) (require_minimal : bool) (maximum_size : Z)
  : result ScriptError Z :=
  assert_or (len bytes <=? maximum_size) NumericOverflow ;;
  assert_or (negb (require_minimal && negb (is_minimal_script_number bytes))) NonMinimalNumber ;;
  if len bytes =? 0 then Ok 0
  else
    let magnitude := or_bytes 0 0 bytes in
    let sign_bit := wrap 64 (Z.shiftl 1 (len bytes * 8 - 1)) in
    let negative := negb (Z.land magnitude sign_bit =? 0) in
    let magnitude := Z.land magnitude (u64_max - sign_bit) in
    assert_or (magnitude <=? i64_max) NumericOverflow ;;
    Ok (if negative then - magnitude else magnitude).

(** [while magnitude != 0 { bytes.push(magnitude as u8); magnitude >>= 8; }]: a
    [u64] is zero after eight shifts. *)
Fixpoint magnitude_bytes (fuel : nat) (magnitude : Z) : list byte :=
  match fuel with
  | O => []
  | S fuel =>
    if magnitude =? 0 then [] else z2b magnitude :: magnitude_bytes fuel (Z.shiftr magnitude 8)
  end.

Definition encode_script_number (value : Z) : list byte :=
  if value =? 0 then []
  else
    let negative := value <? 0 in
    let bytes := magnitude_bytes 8 (Z.abs value) in
    match last bytes with
    | None => bytes
    | Some top =>
      if negb (Z.land (b2z top) 0x80 =? 0) then bytes ++ [if negative then x80 else x00]
      else if negative then take (length bytes - 1) bytes ++ [z2b (Z.lor (b2z top) 0x80)]
      else bytes
    end.

Fixpoint cast_to_bool (bytes : list byte) : bool :=
  match bytes with
  | [] => false
  | b :: rest =>
    if b2z b =? 0 then cast_to_bool rest
    else if (len rest =? 0) && (b2z b =? 0x80) then false
    else true
  end.

(** ** Parsing *)
Record Instruction := mkInstruction {
  ins_opcode : Z;
  ins_data : option (list byte);
  ins_start : Z;
  ins_end : Z;
}.

(** Little-endian fields of [n] bytes, as [read_u8], [read_u16], [read_u32]. *)
Definition read_field (n : Z) (opcode : Z) (script : list byte) (offset : Z)
  : result ScriptError (Z * Z) :=
  stop ← ok_or (stop ← checked_add usize_max offset n;
                if stop <=? len script then Some stop else None) (BadOpcode opcode);
  Ok (from_le_bytes (slice script offset stop), stop).

Definition script_read_u8 (script : list byte) (offset : Z) : result ScriptError (Z * Z) :=
  value ← ok_or (get script offset) (BadOpcode OP_PUSHDATA1);
  Ok (b2z value, offset + 1).
Definition script_read_u16 : list byte -> Z -> result ScriptError (Z * Z) := read_field 2 OP_PUSHDATA2.
Definition script_read_u32 : list byte -> Z -> result ScriptError (Z * Z) := read_field 4 OP_PUSHDATA4.

(** The announced data length and the offset behind the length field. *)
Definition data_length (opcode : Z) (script : list byte) (offset : Z)
  : result ScriptError (option Z * Z) :=
  if (0x01 <=? opcode) && (opcode <=? 0x4b) then Ok (Some opcode, offset)
  else if opcode =? OP_PUSHDATA1 then '(n, o) ← script_read_u8 script offset; Ok (Some n, o)
  else if opcode =? OP_PUSHDATA2 then '(n, o) ← script_read_u16 script offset; Ok (Some n, o)
  else if opcode =? OP_PUSHDATA4 then '(n, o) ← script_read_u32 script offset; Ok (Some n, o)
  else Ok (None, offset).

Definition parse_one (script : list byte) (start : Z) (first : byte)
  : result ScriptError Instruction :=
  let opcode := b2z first in
  '(data_len, offset) ← data_length opcode script (start + 1);
  match data_len with
  | Some data_len =>
    stop ← ok_or (stop ← checked_add usize_max offset data_len;
                  if stop <=? len script then Some stop else None) (BadOpcode opcode);
    Ok (mkInstruction opcode (Some (slice script offset stop)) start stop)
  | None => Ok (mkInstruction opcode None start offset)
  end.

Fixpoint parse_loop (fuel : nat) (script : list byte) (offset : Z)
  : option (result ScriptError (list Instruction)) :=
  match get script offset with
  | None => Some (Ok [])
  | Some first =>
    match fuel with
    | O => None
    | S fuel =>
      match parse_one script offset first with
      | Err e => Some (Err e)
      | Ok i =>
        match parse_loop fuel script (ins_end i) with
        | Some (Ok rest) => Some (Ok (i :: rest))
        | r => r
        end
      end
    end
  end.

Definition parse_script (script : list byte) : result ScriptError (list Instruction) :=
  assert_or (len script <=? MAX_SCRIPT_SIZE) ScriptSize ;;
  default (Err ScriptSize) (parse_loop (length script) script 0).

Definition is_minimal_push (opcode : Z) (data : list byte) : bool :=
  let general :=
    if len data <=? 75 then opcode =? len data
    else if len data <=? 255 then opcode =? OP_PUSHDATA1
    else if len data <=? 65535 then opcode =? OP_PUSHDATA2
    else opcode =? OP_PUSHDATA4 in
  match data with
  | [] => opcode =? OP_0
  | [b] =>
    if (1 <=? b2z b) && (b2z b <=? 16) then opcode =? OP_1 + b2z b - 1
    else if b2z b =? 0x81 then opcode =? OP_1NEGATE
    else general
  | _ => general
  end.

Definition is_disabled_opcode (opcode : Z) : bool :=
  bool_decide (opcode ∈ [OP_CAT; OP_SUBSTR; OP_LEFT; OP_RIGHT; OP_INVERT; OP_AND; OP_OR; OP_XOR;
    OP_2MUL; OP_2DIV; OP_MUL; OP_DIV; OP_MOD; OP_LSHIFT; OP_RSHIFT]).

(** ** Signature operations *)
(** The length field of a push as the scanner reads it; [None] is [break]. *)
Definition scan_field (n : Z) (script : list byte) (offset : Z) : option (Z * Z) :=
  if offset + n <=? len script then Some (from_le_bytes (slice script offset (offset + n)), offset + n)
  else None.

Definition scan_push (opcode : Z) (script : list byte) (offset : Z) : option Z :=
  let skip '(n, offset) :=
    stop ← checked_add usize_max offset n;
    if len script <? stop then None else Some stop in
  if (0x01 <=? opcode) && (opcode <=? 0x4b) then skip (opcode, offset)
  else if opcode =? OP_PUSHDATA1 then
    length ← get script offset; skip (b2z length, offset + 1)
  else if opcode =? OP_PUSHDATA2 then scan_field 2 script offset ≫= skip
  else if opcode =? OP_PUSHDATA4 then scan_field 4 script offset ≫= skip
  else Some offset.

(** What one scanned opcode adds, given the opcode before it. *)
Definition sigop_cost (last_opcode : option Z) (opcode : Z) : Z :=
  if (opcode =? OP_CHECKSIG) || (opcode =? OP_CHECKSIGVERIFY) then 1
  else if (opcode =? OP_CHECKMULTISIG) || (opcode =? OP_CHECKMULTISIGVERIFY) then
    match last_opcode with
    | Some last =>
      if (OP_1 <=? last) && (last <=? OP_16) then last - 0x50 else MAX_MULTISIG_PUBKEYS
    | None => MAX_MULTISIG_PUBKEYS
    end
  else 0.

Fixpoint sigops_loop (fuel : nat) (script : list byte) (offset : Z) (last_opcode : option Z)
    (total : Z) : option Z :=
  match get script offset with
  | None => Some total
  | Some first =>
    match fuel with
    | O => None
    | S fuel =>
      let opcode := b2z first in
      match scan_push opcode script (offset + 1) with
      | None => Some total
      | Some offset =>
        sigops_loop fuel script offset (Some opcode)
          (saturating_add u32_max total (sigop_cost last_opcode opcode))
      end
    end
  end.

Definition count_script_sigops (script : list byte) : Z :=
  default 0 (sigops_loop (length script) script 0 None 0).

Definition witness_program_sigops (address : Address) (witness : Witness) : Z :=
  if negb (b2z (addr_version address) =? 0) then 0
  else if len (addr_hash address) =? 20 then 1
  else if len (addr_hash address) =? 32 then
    match last (wit_items witness) with
    | Some script => count_script_sigops script
    | None => 0
    end
  else 0.

Fixpoint sigops_fold (total : Z) (pairs : list (Input * Coin)) : result ScriptError Z :=
  match pairs with
  | [] => Ok total
  | (input, coin) :: pairs =>
    assert_or (bool_decide (in_previous_output input = coin_outpoint coin)) InputCoinMismatch ;;
    sigops_fold (saturating_add u32_max total
      (witness_program_sigops (coin_address coin) (in_witness input))) pairs
  end.

Definition transaction_sigops (tx : Transaction) (input_coins : list Coin) : result ScriptError Z :=
  if is_coinbase tx then Ok 0
  else
    assert_or (len (tx_inputs tx) =? len input_coins)
      (InputCoinCount (len (tx_inputs tx)) (len input_coins)) ;;
    sigops_fold 0 (zip (tx_inputs tx) input_coins).

(** ** Fee policy *)
Definition POLICY_WITNESS_SCALE_FACTOR : Z := 4.
Definition POLICY_BYTES_PER_SIGOP : Z := 20.
Definition POLICY_FEE_RATE_SCALE : Z := 1000.

Inductive FeePolicyError :=
| FpTransaction (e : TransactionError)
| FpScript (e : ScriptError)
| FpArithmeticOverflow
| TransactionWeightOutOfRange
| VirtualSizeOutOfRange (virtual_bytes : Z).

Definition sigop_adjusted_virtual_size (weight sigops : Z) : result FeePolicyError Z :=
  sigop_weight ← ok_or (checked_mul u64_max sigops POLICY_BYTES_PER_SIGOP) FpArithmeticOverflow;
  let adjusted_weight := Z.max weight sigop_weight in
  sum ← ok_or (checked_add u64_max adjusted_weight (POLICY_WITNESS_SCALE_FACTOR - 1))
    FpArithmeticOverflow;
  let virtual_bytes := sum / POLICY_WITNESS_SCALE_FACTOR in
  assert_or (virtual_bytes <=? u32_max) (VirtualSizeOutOfRange virtual_bytes) ;;
  Ok virtual_bytes.

Definition transaction_policy_virtual_size (tx : Transaction) (input_coins : list Coin)
  : result FeePolicyError Z :=
  weight ← map_err FpTransaction (Transaction_weight tx);
  assert_or (weight <=? u32_max) TransactionWeightOutOfRange ;;
  sigops ← map_err FpScript (transaction_sigops tx input_coins);
  sigop_adjusted_virtual_size weight sigops.

Definition minimum_policy_fee (virtual_size rate : Z) : result FeePolicyError Z :=
  if virtual_size =? 0 then Ok 0
  else
    product ← ok_or (checked_mul u64_max rate virtual_size) FpArithmeticOverflow;
    let fee := product / POLICY_FEE_RATE_SCALE in
    if (fee =? 0) && (0 <? rate) then Ok rate else Ok fee.

(** ** Script numbers: what the codec computes

    The integer a byte string spells: little-endian magnitude, sign in the top
    bit of the last byte. *)
Definition script_value (bs : list byte) : Z :=
  let top := 2 ^ (8 * len bs - 1) in
  let m := from_le_bytes bs in
  if len bs =? 0 then 0 else if top <=? m then - (m - top) else m.

Definition stripped (bs : list byte) : Prop := last bs <> Some x00.

Lemma or_bytes_spec bs i m :
  0 <= i -> i + len bs <= 8 -> 0 <= m < 256 ^ i ->
  or_bytes i m bs = m + 256 ^ i * from_le_bytes bs.
Proof.
  revert i m; induction bs as [|b bs IH]; intros i m Hi L Hm; cbn [or_bytes from_le_bytes]; [lia|].
  rewrite len_cons in L. pose proof (len_nonneg bs). pose proof (b2z_range b).
  replace (Z.lor m (wrap 64 (Z.shiftl (b2z b) (8 * i)))) with (m + 256 ^ i * b2z b).
  2: { unfold wrap. replace (256 ^ i) with (2 ^ (8 * i)) in * by (rewrite Z.pow_mul_r by lia; done).
       rewrite Z.shiftl_mul_pow2 by lia. rewrite Z.mod_small.
       - rewrite <- Z.shiftl_mul_pow2, Z.lor_comm, lor_shiftl_add by lia. lia.
       - assert (2 ^ (8 * i) <= 2 ^ 56) by (apply Z.pow_le_mono_r; lia).
         change (2 ^ 64) with (256 * 2 ^ 56). nia. }
  assert (256 ^ (i + 1) = 256 ^ i * 256) as E by (rewrite Z.pow_add_r by lia; done).
  rewrite IH; [rewrite E; ring|lia|lia|]. rewrite E. nia.
Qed.

Lemma pow256_len (bs : list byte) : 256 ^ len bs = 2 ^ (8 * len bs).
Proof. pose proof (len_nonneg bs). rewrite Z.pow_mul_r by lia. done. Qed.

Lemma decode_number_spec bs minimal n :
  n <= 8 -> len bs <= n -> (minimal = true -> is_minimal_script_number bs = true) ->
  decode_script_number bs minimal n = Ok (script_value bs).
Proof.
  intros Hn L M. unfold decode_script_number, script_value. pose proof (len_nonneg bs).
  rewrite (proj2 (Z.leb_le (len bs) n)) by done. cbn [assert_or mbind result_bind].
  replace (minimal && negb (is_minimal_script_number bs)) with false.
  2: { destruct minimal; [|done]. by rewrite M. }
  cbn [negb assert_or mbind result_bind]. destruct (Z.eqb_spec (len bs) 0); [done|].
  rewrite or_bytes_spec by (rewrite ?Z.pow_0_r; lia). rewrite Z.pow_0_r, Z.mul_1_l, Z.add_0_l.
  pose proof (from_le_bytes_range bs) as R. rewrite pow256_len in R.
  replace (len bs * 8 - 1) with (8 * len bs - 1) by lia. set (k := 8 * len bs - 1) in *.
  replace (8 * len bs) with (k + 1) in R by lia.
  assert (wrap 64 (Z.shiftl 1 k) = Z.shiftl 1 k) as ->.
  { unfold wrap. rewrite Z.shiftl_1_l. apply Z.mod_small. split; [lia|]. apply Z.pow_lt_mono_r; lia. }
  rewrite land_bit, top_bit, clear_top_bit by lia.
  assert (2 ^ k <= 2 ^ 63) by (apply Z.pow_le_mono_r; lia). change (2 ^ 63) with 9223372036854775808 in *.
  pose proof (Z.mod_pos_bound (from_le_bytes bs) (2 ^ k) ltac:(lia)).
  rewrite (proj2 (Z.leb_le _ i64_max)) by (unfold i64_max; lia). cbn [assert_or mbind result_bind].
  rewrite Z.pow_add_r in R by lia.
  destruct (Z.leb_spec (2 ^ k) (from_le_bytes bs)).
  - do 2 f_equal. symmetry. apply Z.mod_unique with 1; lia.
  - by rewrite Z.mod_small by lia.
Qed.

(** ** Magnitudes without trailing zeros *)
Lemma from_le_zero bs : from_le_bytes bs = 0 -> Forall (eq x00) bs.
Proof.
  induction bs as [|b bs IH]; cbn [from_le_bytes]; [constructor|]. intros E.
  pose proof (b2z_range b). pose proof (from_le_bytes_range bs).
  constructor; [|apply IH; lia]. apply b2z_inj. change (b2z x00) with 0. lia.
Qed.

Lemma stripped_cons b bs : stripped (b :: bs) -> bs <> [] -> stripped bs.
Proof. destruct bs; [done|]. done. Qed.

Lemma stripped_zero bs : stripped bs -> from_le_bytes bs = 0 -> bs = [].
Proof.
  intros S Z%from_le_zero. destruct bs as [|b bs] using rev_ind; [done|].
  apply Forall_app in Z as (_ & Z). inversion Z; subst. unfold stripped in S.
  by rewrite last_snoc in S.
Qed.

Lemma magnitude_bytes_from fuel bs :
  stripped bs -> (length bs <= fuel)%nat -> magnitude_bytes fuel (from_le_bytes bs) = bs.
Proof.
  revert fuel; induction bs as [|b bs IH]; intros fuel S L; [by destruct fuel|].
  destruct fuel as [|fuel]; [simpl in L; lia|]. cbn [magnitude_bytes].
  pose proof (b2z_range b). pose proof (from_le_bytes_range bs).
  destruct (Z.eqb_spec (from_le_bytes (b :: bs)) 0) as [E|_]; [by apply stripped_zero in E|].
  cbn [from_le_bytes]. rewrite Z.shiftr_div_pow2 by lia. change (2 ^ 8) with 256. f_equal.
  - apply b2z_inj. rewrite b2z_z2b, Z.mul_comm, Z_mod_plus_full. by apply Z.mod_small.
  - rewrite Z.mul_comm, Z.div_add, Z.div_small, Z.add_0_l by lia.
    destruct bs as [|c bs]; [by destruct fuel|]. apply IH; [by eapply stripped_cons|simpl in *; lia].
Qed.

Lemma magnitude_bytes_spec fuel m :
  0 <= m < 256 ^ Z.of_nat fuel ->
  from_le_bytes (magnitude_bytes fuel m) = m /\ stripped (magnitude_bytes fuel m).
Proof.
  revert m; induction fuel as [|fuel IH]; intros m Hm.
  { change (256 ^ Z.of_nat 0) with 1 in Hm. cbn. split; [lia|done]. }
  rewrite Nat2Z.inj_succ, Z.pow_succ_r in Hm by lia. cbn [magnitude_bytes].
  destruct (Z.eqb_spec m 0) as [->|N]; [done|].
  rewrite Z.shiftr_div_pow2 by lia. change (2 ^ 8) with 256.
  destruct (IH (m / 256)) as (V & S).
  { split; [apply Z.div_pos; lia|]. apply Z.div_lt_upper_bound; lia. }
  split.
  - cbn [from_le_bytes]. rewrite V, b2z_z2b. pose proof (Z.div_mod m 256 ltac:(lia)). lia.
  - unfold stripped in *. destruct (magnitude_bytes fuel (m / 256)) as [|c bs] eqn:E; [|done].
    cbn in *. intros [= Z]. apply (f_equal b2z) in Z. rewrite b2z_z2b in Z. change (b2z x00) with 0 in Z.
    pose proof (Z.div_mod m 256 ltac:(lia)). lia.
Qed.

(** ** The byte below the sign *)
Lemma script_value_snoc ini top :
  script_value (ini ++ [top]) =
    let m := from_le_bytes ini + 256 ^ len ini * (b2z top mod 128) in
    if 128 <=? b2z top then - m else m.
Proof.
  unfold script_value. pose proof (b2z_range top). pose proof (len_nonneg ini).
  pose proof (from_le_bytes_range ini) as R.
  assert (len (ini ++ [top]) = len ini + 1) as L by (slen; lia). rewrite L.
  destruct (Z.eqb_spec (len ini + 1) 0); [lia|]. rewrite from_le_bytes_app. cbn [from_le_bytes].
  rewrite Z.mul_0_r, Z.add_0_r. replace (8 * (len ini + 1) - 1) with (8 * len ini + 7) by lia.
  rewrite Z.pow_add_r, <- pow256_len by lia. change (2 ^ 7) with 128. cbv zeta.
  set (P := 256 ^ len ini) in *.
  destruct (Z.leb_spec 128 (b2z top)), (Z.leb_spec (P * 128) (from_le_bytes ini + P * b2z top)); try nia.
  - replace (b2z top mod 128) with (b2z top - 128); [lia|]. apply Z.mod_unique with 1; lia.
  - rewrite Z.mod_small by lia. lia.
Qed.

Lemma land_7f b : Z.land (b2z b) 0x7f = b2z b mod 128.
Proof. change 0x7f with (Z.ones 7). by rewrite Z.land_ones by lia. Qed.

Lemma land_80 b : negb (Z.land (b2z b) 0x80 =? 0) = (128 <=? b2z b).
Proof.
  change 0x80 with (Z.shiftl 1 7) at 1. rewrite land_bit by lia. pose proof (b2z_range b).
  by rewrite top_bit by (change (2 ^ (7 + 1)) with 256; lia).
Qed.

Lemma minimal_snoc ini top :
  is_minimal_script_number (ini ++ [top]) = true <->
  b2z top mod 128 <> 0 \/ (exists l u, ini = l ++ [u] /\ 128 <= b2z u).
Proof.
  unfold is_minimal_script_number. rewrite last_snoc, land_7f. slen.
  destruct (Z.eqb_spec (b2z top mod 128) 0) as [E|]; [|by split; [left|]].
  destruct ini as [|u l _] using rev_ind.
  { cbn. split; [done|]. intros [?|(l & u & D & _)]; [done|]. by destruct l. }
  pose proof (len_nonneg l). rewrite !len_app, !len_cons, !len_nil.
  replace (len l + (1 + 0) + (1 + 0)) with (len l + 2) by lia.
  destruct (Z.eqb_spec (len l + 2) 1); [lia|]. replace (len l + 2 - 2) with (len l) by lia.
  replace (get ((l ++ [u]) ++ [top]) (len l)) with (Some u).
  2: { unfold get, len. rewrite Nat2Z.id, <- app_assoc. symmetry. by apply list_lookup_middle. }
  rewrite land_80, Z.leb_le. split.
  - intros. right. by exists l, u.
  - intros [?|(l' & u' & [_ ->]%app_inj_tail & ?)]; done.
Qed.

(** The encoder on a magnitude whose bytes are known. *)
Lemma encode_number_eq v bs :
  v <> 0 -> stripped bs -> (length bs <= 8)%nat -> from_le_bytes bs = Z.abs v ->
  exists l u, bs = l ++ [u] /\
  encode_script_number v =
    if 128 <=? b2z u then bs ++ [if v <? 0 then x80 else x00]
    else if v <? 0 then l ++ [z2b (Z.lor (b2z u) 0x80)] else bs.
Proof.
  intros N S L E. unfold encode_script_number. rewrite (proj2 (Z.eqb_neq _ _)) by done.
  rewrite <- E, magnitude_bytes_from by done. cbv zeta.
  destruct bs as [|u l _] using rev_ind; [cbn in E; lia|]. exists l, u. split; [done|].
  rewrite last_snoc, land_80. rewrite length_app. cbn [length].
  replace (length l + 1 - 1)%nat with (length l) by lia. by rewrite take_app_length.
Qed.

Lemma lor_sign u : b2z u < 128 -> b2z (z2b (Z.lor (b2z u) 0x80)) = b2z u + 128.
Proof.
  intros. pose proof (b2z_range u). rewrite Z.lor_comm.
  change (Z.lor 0x80 (b2z u)) with (Z.lor (Z.shiftl 1 7) (b2z u)).
  rewrite lor_shiftl_add by (change (2 ^ 7) with 128; lia). change (2 ^ 7) with 128.
  rewrite z2b_small; lia.
Qed.

Lemma encode_number_sound v :
  i64_min <= v <= i64_max ->
  script_value (encode_script_number v) = v /\
  is_minimal_script_number (encode_script_number v) = true.
Proof.
  intros R. destruct (Z.eq_dec v 0) as [->|N]; [done|].
  assert (0 <= Z.abs v < 256 ^ Z.of_nat 8) as R8.
  { unfold i64_min, i64_max in R. change (256 ^ Z.of_nat 8) with 18446744073709551616. lia. }
  destruct (magnitude_bytes_spec 8 _ R8) as (V & S). set (bs := magnitude_bytes 8 (Z.abs v)) in *.
  assert (length bs <= 8)%nat as L.
  { subst bs. generalize 8%nat (Z.abs v). induction n as [|n IH]; intros m; cbn; [lia|].
    destruct (m =? 0); cbn; [lia|]. specialize (IH (Z.shiftr m 8)). lia. }
  destruct (encode_number_eq v bs N S L V) as (l & u & Ebs & ->).
  pose proof (b2z_range u). rewrite Ebs in S, V. unfold stripped in S. rewrite last_snoc in S.
  assert (b2z u <> 0) by (intros E; apply S; f_equal; by apply b2z_inj).
  pose proof V as Vb. rewrite from_le_bytes_app in Vb. cbn [from_le_bytes] in Vb.
  rewrite Z.mul_0_r, Z.add_0_r in Vb.
  destruct (Z.leb_spec 128 (b2z u)).
  - rewrite Ebs. split; [|apply minimal_snoc; right; by exists l, u].
    rewrite script_value_snoc, V. cbv zeta.
    destruct (Z.ltb_spec v 0); [change (b2z x80) with 128|change (b2z x00) with 0].
    + change (128 mod 128) with 0. change (128 <=? 128) with true. cbv iota. lia.
    + change (0 mod 128) with 0. change (128 <=? 0) with false. cbv iota. lia.
  - destruct (Z.ltb_spec v 0).
    + split; [|apply minimal_snoc; left; rewrite lor_sign by done].
      * rewrite script_value_snoc, lor_sign by done. cbv zeta.
        rewrite (proj2 (Z.leb_le _ _)) by lia.
        replace ((b2z u + 128) mod 128) with (b2z u) by (apply Z.mod_unique with 1; lia). lia.
      * replace ((b2z u + 128) mod 128) with (b2z u) by (apply Z.mod_unique with 1; lia). lia.
    + rewrite Ebs. split; [|apply minimal_snoc; left; by rewrite Z.mod_small by lia].
      rewrite script_value_snoc. cbv zeta. rewrite (proj2 (Z.leb_gt _ _)), Z.mod_small by lia. lia.
Qed.

(** A minimal spelling is either a magnitude with room for the sign, or a
    magnitude with its top bit set behind a separate sign byte. *)
Lemma number_unique_inline ini top :
  (length ini < 8)%nat -> b2z top mod 128 <> 0 ->
  encode_script_number (script_value (ini ++ [top])) = ini ++ [top].
Proof.
  intros L T. pose proof (b2z_range top). pose proof (from_le_bytes_range ini).
  pose proof (Z.mod_pos_bound (b2z top) 128 ltac:(lia)) as Tr.
  assert (b2z (z2b (b2z top mod 128)) = b2z top mod 128) as Tz by (apply z2b_small; lia).
  rewrite script_value_snoc. cbv zeta.
  set (m := from_le_bytes ini + 256 ^ len ini * (b2z top mod 128)).
  assert (0 < m) by (subst m; nia).
  destruct (encode_number_eq (if 128 <=? b2z top then - m else m) (ini ++ [z2b (b2z top mod 128)]))
    as (l & u & E & ->).
  - destruct (128 <=? _); lia.
  - unfold stripped. rewrite last_snoc. intros [= Q]. rewrite Q in Tz. change (b2z x00) with 0 in Tz. lia.
  - rewrite length_app. cbn. lia.
  - rewrite from_le_bytes_app. cbn [from_le_bytes]. rewrite Tz, Z.mul_0_r, Z.add_0_r. fold m.
    destruct (128 <=? _); lia.
  - apply app_inj_tail in E as (<- & <-). rewrite Tz, (proj2 (Z.leb_gt _ _)) by lia.
    destruct (Z.leb_spec 128 (b2z top)).
    + rewrite (proj2 (Z.ltb_lt _ _)) by lia. do 2 f_equal. apply b2z_inj.
      rewrite <- Tz, lor_sign, Tz by lia. replace (b2z top mod 128) with (b2z top - 128); [lia|].
      apply Z.mod_unique with 1; lia.
    + rewrite (proj2 (Z.ltb_ge _ _)) by lia. do 2 f_equal. apply b2z_inj. rewrite Tz.
      apply Z.mod_small; lia.
Qed.

Lemma number_unique_separate l u top :
  (length l < 7)%nat -> b2z top mod 128 = 0 -> 128 <= b2z u ->
  encode_script_number (script_value ((l ++ [u]) ++ [top])) = (l ++ [u]) ++ [top].
Proof.
  intros L T U. pose proof (b2z_range top). pose proof (b2z_range u). pose proof (from_le_bytes_range l).
  rewrite script_value_snoc, T, Z.mul_0_r, Z.add_0_r. cbv zeta. set (m := from_le_bytes (l ++ [u])).
  assert (0 < m) by (subst m; rewrite from_le_bytes_app; cbn [from_le_bytes]; nia).
  destruct (encode_number_eq (if 128 <=? b2z top then - m else m) (l ++ [u])) as (l' & u' & E & ->).
  - destruct (128 <=? _); lia.
  - unfold stripped. rewrite last_snoc. intros [= ->]. change (b2z x00) with 0 in U. lia.
  - rewrite length_app. cbn. lia.
  - fold m. destruct (128 <=? _); lia.
  - apply app_inj_tail in E as (<- & <-). rewrite (proj2 (Z.leb_le _ _)) by done. do 2 f_equal.
    pose proof (Z.div_mod (b2z top) 128 ltac:(lia)). apply b2z_inj.
    destruct (Z.leb_spec 128 (b2z top)).
    + rewrite (proj2 (Z.ltb_lt _ _)) by lia. change (b2z x80) with 128. nia.
    + rewrite (proj2 (Z.ltb_ge _ _)) by lia. change (b2z x00) with 0. nia.
Qed.

Lemma minimal_number_unique bs :
  (length bs <= 8)%nat -> is_minimal_script_number bs = true ->
  encode_script_number (script_value bs) = bs.
Proof.
  intros L M. destruct bs as [|top ini _] using rev_ind; [done|].
  rewrite length_app in L. cbn [length] in L. apply minimal_snoc in M.
  destruct (Z.eq_dec (b2z top mod 128) 0) as [T|T]; [|apply number_unique_inline; [lia|done]].
  destruct M as [?|(l & u & -> & U)]; [done|]. rewrite length_app in L. cbn [length] in L.
  apply number_unique_separate; [lia|done|done].
Qed.

Lemma script_value_range bs : len bs <= 8 -> - i64_max <= script_value bs <= i64_max.
Proof.
  intros L. destruct bs as [|top ini _] using rev_ind; [by vm_compute|].
  rewrite script_value_snoc. cbv zeta. slen. pose proof (from_le_bytes_range ini).
  pose proof (Z.mod_pos_bound (b2z top) 128 ltac:(lia)). pose proof (len_nonneg ini).
  assert (256 ^ len ini <= 256 ^ 7) by (apply Z.pow_le_mono_r; lia).
  change (256 ^ 7) with 72057594037927936 in *. unfold i64_max. destruct (128 <=? _); nia.
Qed.

(** The script-number codec is a bijection on minimal spellings: under the
    minimal-data rule a byte string of at most [n <= 8] bytes decodes to a number
    exactly when it is that number's encoding. So every number has one accepted
    spelling, and decoding never reports overflow for a string that fits. *)
Theorem script_number_codec bs n v (Hn : n <= 8) :
  decode_script_number bs true n = Ok v <->
  i64_min <= v <= i64_max /\ bs = encode_script_number v /\ len bs <= n.
Proof.
  split.
  - intros D. assert (len bs <= n /\ is_minimal_script_number bs = true) as (L & M).
    { unfold decode_script_number in D. apply bind_Ok in D as (u & L & D).
      apply bind_Ok in D as (u' & M & _). apply assert_or_Ok in L, M.
      rewrite negb_true_iff in M. cbn in M. rewrite negb_false_iff in M. by apply Z.leb_le in L. }
    rewrite decode_number_spec in D by done. injection D as <-.
    pose proof (script_value_range bs ltac:(lia)). split; [unfold i64_min, i64_max in *; lia|].
    split; [|done]. symmetry. apply minimal_number_unique; [unfold len in L; lia|done].
  - intros (R & -> & L). destruct (encode_number_sound v R) as (V & M).
    by rewrite decode_number_spec, V.
Qed.

(** Truth is being different from zero, negative zero included. *)
Lemma cast_to_bool_spec bs : cast_to_bool bs = negb (script_value bs =? 0).
Proof.
  destruct bs as [|top ini _] using rev_ind; [done|].
  rewrite script_value_snoc. cbv zeta. pose proof (b2z_range top).
  pose proof (Z.mod_pos_bound (b2z top) 128 ltac:(lia)).
  assert (cast_to_bool (ini ++ [top]) =
    negb (from_le_bytes ini =? 0) || negb (b2z top mod 128 =? 0)) as ->.
  { induction ini as [|b ini IH]; cbn [app cast_to_bool from_le_bytes].
    - destruct (Z.eqb_spec (b2z top) 0) as [->|]; [done|]. cbn.
      destruct (Z.eqb_spec (b2z top) 128) as [->|]; [done|].
      destruct (Z.eqb_spec (b2z top mod 128) 0) as [E|]; [|done]. exfalso.
      pose proof (Z.div_mod (b2z top) 128 ltac:(lia)). nia.
    - pose proof (b2z_range b). pose proof (from_le_bytes_range ini).
      destruct (Z.eqb_spec (b2z b) 0) as [->|N].
      + rewrite IH. f_equal. f_equal.
        destruct (Z.eqb_spec (from_le_bytes ini) 0), (Z.eqb_spec (0 + 256 * from_le_bytes ini) 0); done || lia.
      + rewrite (proj2 (Z.eqb_neq (b2z b + 256 * from_le_bytes ini) 0)) by lia.
        destruct (Z.eqb_spec (len (ini ++ [top])) 0) as [E|]; [|done].
        slen. pose proof (len_nonneg ini). lia. }
  pose proof (from_le_bytes_range ini). set (P := 256 ^ len ini) in *.
  destruct (Z.eqb_spec (from_le_bytes ini) 0), (Z.eqb_spec (b2z top mod 128) 0), (128 <=? b2z top);
    cbn; symmetry; rewrite ?negb_true_iff, ?negb_false_iff, ?Z.eqb_eq, ?Z.eqb_neq; nia.
Qed.

(** ** The instruction grammar

    The bytes of an instruction, and which instructions are well formed: the
    opcode decides whether data follows and how its length is written. *)
Definition length_field (opcode n : Z) : list byte :=
  if opcode =? OP_PUSHDATA1 then to_le_bytes 1 n
  else if opcode =? OP_PUSHDATA2 then to_le_bytes 2 n
  else if opcode =? OP_PUSHDATA4 then to_le_bytes 4 n
  else [].

(** [announces opcode n]: [opcode] can introduce [n] bytes of data. *)
Definition announces (opcode n : Z) : Prop :=
  (1 <= opcode <= 0x4b /\ n = opcode) \/ (opcode = OP_PUSHDATA1 /\ 0 <= n < 256) \/
  (opcode = OP_PUSHDATA2 /\ 0 <= n < 65536) \/ (opcode = OP_PUSHDATA4 /\ 0 <= n < 4294967296).

Definition instruction_bytes (i : Instruction) : list byte :=
  z2b (ins_opcode i) ::
  match ins_data i with
  | Some data => length_field (ins_opcode i) (len data) ++ data
  | None => []
  end.

Definition instruction_wf (i : Instruction) : Prop :=
  0 <= ins_opcode i < 256 /\
  match ins_data i with
  | Some data => announces (ins_opcode i) (len data)
  | None => ~ (1 <= ins_opcode i <= OP_PUSHDATA4)
  end.

(** The instructions lie one behind the other, starting at [offset]. *)
Fixpoint placed (offset : Z) (instrs : list Instruction) : Prop :=
  match instrs with
  | [] => True
  | i :: instrs =>
    ins_start i = offset /\ ins_end i = offset + len (instruction_bytes i) /\ placed (ins_end i) instrs
  end.

Definition suffix (script : list byte) (offset : Z) : list byte := drop (Z.to_nat offset) script.

Lemma suffix_len script o : 0 <= o <= len script -> len (suffix script o) = len script - o.
Proof. unfold suffix, len. rewrite length_drop. lia. Qed.

Lemma suffix_app script o a b :
  0 <= o -> suffix script o = a ++ b -> suffix script (o + len a) = b.
Proof.
  intros Ho E. unfold suffix in *. rewrite Z2Nat.inj_add by (done || apply len_nonneg).
  rewrite <- drop_drop, E. unfold len. by rewrite Nat2Z.id, drop_app_length.
Qed.

Lemma slice_suffix script a b : 0 <= a -> slice script a b = take (Z.to_nat (b - a)) (suffix script a).
Proof. done. Qed.

Lemma get_suffix script o : get script o = head (suffix script o).
Proof. unfold get, suffix. by rewrite head_lookup, lookup_drop, Nat.add_0_r. Qed.

(** A bounded slice of a script: the bytes are there and split the rest. *)
Lemma slice_take script o n :
  0 <= o -> 0 <= n -> o + n <= len script ->
  suffix script o = slice script o (o + n) ++ suffix script (o + n) /\
  len (slice script o (o + n)) = n.
Proof.
  intros Ho Hn L. rewrite slice_suffix by done. replace (o + n - o) with n by lia.
  assert (len (take (Z.to_nat n) (suffix script o)) = n) as Lt.
  { unfold len. rewrite length_take. pose proof (suffix_len script o ltac:(lia)) as Ls.
    unfold len in *. lia. }
  split; [|done]. rewrite <- (take_drop (Z.to_nat n) (suffix script o)) at 1. f_equal.
  unfold suffix. rewrite drop_drop, Z2Nat.inj_add by lia. done.
Qed.

Lemma slice_prefix script o a b :
  0 <= o -> suffix script o = a ++ b -> slice script o (o + len a) = a.
Proof.
  intros Ho E. rewrite slice_suffix, E by done. replace (Z.to_nat (o + len a - o)) with (length a)
    by (unfold len; lia). by rewrite take_app_length.
Qed.

(** The room check [checked_add(n).filter(|end| end <= script.len())]. *)
Lemma room_Some (script : list byte) o n stop :
  len script <= isize_max ->
  (stop ← checked_add usize_max o n; if stop <=? len script then Some stop else None) = Some stop <->
  o + n <= len script /\ stop = o + n.
Proof.
  intros Hs. unfold checked_add.
  destruct (Z.leb_spec (o + n) usize_max); cbn [mbind option_bind].
  - destruct (Z.leb_spec (o + n) (len script)); split; try (intros [= <-]); try done; try lia.
    + intros (_ & ->). done.
  - split; [done|]. intros (? & _). ulia.
Qed.

Lemma suffix_nil script o : len script <= o -> suffix script o = [].
Proof. intros. unfold suffix. apply drop_ge. unfold len in *. lia. Qed.

Lemma read_field_Ok n op script o v o' :
  0 <= o -> 0 <= n -> len script <= isize_max ->
  read_field n op script o = Ok (v, o') <->
  exists bs, suffix script o = bs ++ suffix script o' /\ len bs = n /\ o' = o + n /\
    v = from_le_bytes bs /\ o' <= len script.
Proof.
  intros Ho Hn Hs. unfold read_field. split.
  - intros H. apply bind_Ok in H as (stop & R & [= <- <-]).
    apply ok_or_Ok, room_Some in R as (L & ->); [|done].
    destruct (slice_take script o n) as (E & Lb); [done..|]. eexists. by split.
  - intros (bs & E & L & -> & -> & B). apply bind_Ok. exists (o + n).
    split; [by apply ok_or_Ok, room_Some|]. rewrite <- L at 1. by rewrite (slice_prefix script o bs _ Ho E).
Qed.

Lemma script_read_u8_eq script o :
  0 <= o -> len script <= isize_max -> script_read_u8 script o = read_field 1 OP_PUSHDATA1 script o.
Proof.
  intros Ho Hs. unfold script_read_u8. rewrite get_suffix.
  destruct (Z.leb_spec (o + 1) (len script)).
  - destruct (slice_take script o 1) as (E & L); [lia..|]. symmetry.
    destruct (slice script o (o + 1)) as [|b [|]]; slen; [lia| |pose proof (len_nonneg l); lia].
    rewrite E. cbn. apply read_field_Ok; [lia..|]. exists [b]. cbn. repeat split; try done. lia.
  - rewrite suffix_nil by lia. unfold read_field, checked_add. cbn.
    destruct (Z.leb_spec (o + 1) usize_max); cbn; [|done].
    by destruct (Z.leb_spec (o + 1) (len script)); [lia|].
Qed.

(** The length field as the parser reads it. *)
Lemma data_length_Some op script o n o' :
  0 <= op < 256 -> 0 <= o <= len script -> len script <= isize_max ->
  data_length op script o = Ok (Some n, o') <->
  announces op n /\ suffix script o = length_field op n ++ suffix script o' /\
  o' = o + len (length_field op n) /\ o' <= len script.
Proof.
  intros Hop Ho Hs. unfold data_length, announces, length_field, OP_PUSHDATA1, OP_PUSHDATA2, OP_PUSHDATA4.
  assert (forall k opk, 0 <= Z.of_nat k ->
    ('(n, o) ← read_field (Z.of_nat k) opk script o; Ok (Some n, o)) = Ok (Some n, o') <->
    0 <= n < 256 ^ Z.of_nat k /\ suffix script o = to_le_bytes k n ++ suffix script o' /\
    o' = o + len (to_le_bytes k n) /\ o' <= len script) as K.
  { intros k opk Hk. rewrite bind_Ok. split.
    - intros ((v & o1) & R & [= -> ->]). apply read_field_Ok in R as (bs & E & L & -> & -> & B); [|lia..].
      pose proof (from_le_bytes_range bs) as Rb. rewrite L in Rb.
      rewrite to_from_le_bytes_len by (unfold len in L; lia). by rewrite L.
    - intros (Rn & E & -> & B). rewrite len_to_le_bytes in *. exists (n, o + Z.of_nat k).
      split; [|done]. apply read_field_Ok; [lia..|]. exists (to_le_bytes k n).
      rewrite len_to_le_bytes, from_to_le_bytes_small by done. done. }
  destruct (Z.leb_spec 1 op), (Z.leb_spec op 0x4b); cbn [andb].
  1: { destruct (Z.eqb_spec op 76); [lia|]. destruct (Z.eqb_spec op 77); [lia|].
       destruct (Z.eqb_spec op 78); [lia|]. split.
       - intros [= <- <-]. change (len (@nil byte)) with 0. rewrite Z.add_0_r. split; [tauto|]. split; [done|]. lia.
       - intros (A & _ & -> & _). change (len (@nil byte)) with 0. rewrite Z.add_0_r. do 3 f_equal. lia. }
  all: destruct (Z.eqb_spec op 76) as [->|]; [rewrite script_read_u8_eq by lia; rewrite (K 1%nat) by lia;
    change (256 ^ Z.of_nat 1) with 256; naive_solver lia|].
  all: destruct (Z.eqb_spec op 77) as [->|]; [unfold script_read_u16; change 2 with (Z.of_nat 2) at 1; rewrite K by lia;
    change (256 ^ Z.of_nat 2) with 65536; naive_solver lia|].
  all: destruct (Z.eqb_spec op 78) as [->|]; [unfold script_read_u32; change 4 with (Z.of_nat 4) at 1; rewrite K by lia;
    change (256 ^ Z.of_nat 4) with 4294967296; naive_solver lia|].
  all: split; [done|]; intros (A & _); lia.
Qed.

Lemma data_length_None op script o o' :
  0 <= op < 256 -> data_length op script o = Ok (None, o') <-> ~ (1 <= op <= OP_PUSHDATA4) /\ o' = o.
Proof.
  intros Hop. unfold data_length, OP_PUSHDATA1, OP_PUSHDATA2, OP_PUSHDATA4.
  assert (forall k : result ScriptError (Z * Z),
    ('(n, o) ← k; Ok (Some n, o)) = Ok (None, o') -> False) as K.
  { intros k H. by apply bind_Ok in H as ((v & o1) & _ & [=]). }
  destruct (Z.leb_spec 1 op), (Z.leb_spec op 0x4b); cbn [andb].
  1: split; [done|]; intros (? & _); lia.
  all: destruct (Z.eqb_spec op 76); [split; [by intros ?%K|]; lia|].
  all: destruct (Z.eqb_spec op 77); [split; [by intros ?%K|]; lia|].
  all: destruct (Z.eqb_spec op 78); [split; [by intros ?%K|]; lia|].
  all: split; [intros [= <-]; split; [lia|done]|by intros (_ & ->)].
Qed.

Lemma parse_one_Ok script o first r i :
  0 <= o -> len script <= isize_max -> suffix script o = first :: r ->
  parse_one script o first = Ok i <->
  instruction_wf i /\ ins_start i = o /\ ins_end i = o + len (instruction_bytes i) /\
  suffix script o = instruction_bytes i ++ suffix script (ins_end i) /\ ins_end i <= len script.
Proof.
  intros Ho Hs E. pose proof (b2z_range first) as Rf. unfold parse_one. cbv zeta.
  assert (suffix script (o + 1) = r) as E1 by by apply (suffix_app script o [first] r).
  assert (o + 1 <= len script) as Lo.
  { destruct (Z.le_gt_cases (o + 1) (len script)); [done|]. by rewrite suffix_nil in E by lia. }
  rewrite bind_Ok. split.
  - intros ([[n|] o1] & D & H).
    + apply data_length_Some in D as (A & S & Eo & L); [|done|lia|done].
      apply bind_Ok in H as (stop & R & [= <-]). apply ok_or_Ok, room_Some in R as (Ls & ->); [|done].
      pose proof (len_nonneg (length_field (b2z first) n)).
      assert (0 <= n) by (unfold announces in A; lia).
      destruct (slice_take script o1 n) as (Es & Ln); [lia..|].
      unfold instruction_wf, instruction_bytes. cbn [ins_opcode ins_data ins_start ins_end].
      rewrite Ln, z2b_b2z. repeat split; try done; try lia.
      * slen. lia.
      * rewrite E, <- E1, S, Es. cbn. by rewrite <- app_assoc.
    + apply data_length_None in D as (N & ->); [|done]. injection H as <-.
      unfold instruction_wf, instruction_bytes. cbn [ins_opcode ins_data ins_start ins_end].
      rewrite z2b_b2z, E, <- E1. repeat split; done || lia.
  - destruct i as [op data st en]. unfold instruction_wf, instruction_bytes.
    cbn [ins_opcode ins_data ins_start ins_end]. intros ((Rop & W) & -> & Een & S & L).
    rewrite E in S. injection S as -> S. rewrite z2b_small by done.
    destruct data as [d|].
    + exists (Some (len d), o + 1 + len (length_field op (len d))). rewrite <- app_assoc in S.
      rewrite len_cons, len_app in Een. pose proof (len_nonneg d).
      assert (suffix script (o + 1 + len (length_field op (len d))) = d ++ suffix script en) as Ed.
      { apply suffix_app; [lia|]. by rewrite E1. }
      split.
      * apply data_length_Some; [done|lia|done|]. rewrite Ed, E1. repeat split; done || lia.
      * apply bind_Ok. exists en. split; [apply ok_or_Ok, room_Some; [done|lia]|].
        do 2 f_equal. f_equal. replace en with (o + 1 + len (length_field op (len d)) + len d) by lia.
        eapply slice_prefix; [|exact Ed]. pose proof (len_nonneg (length_field op (len d))). lia.
    + exists (None, o + 1). split; [by apply data_length_None|]. slen. do 2 f_equal. lia.
Qed.

Lemma suffix_cons script o :
  0 <= o < len script -> exists first r, suffix script o = first :: r.
Proof.
  intros H. pose proof (suffix_len script o ltac:(lia)). destruct (suffix script o); [slen; lia|]. eauto.
Qed.

(** The instructions of the script from [offset] on. *)
Definition spells (script : list byte) (offset : Z) (instrs : list Instruction) : Prop :=
  Forall instruction_wf instrs /\ placed offset instrs /\
  suffix script offset = mjoin (instruction_bytes <$> instrs).

Lemma instruction_bytes_len i : 1 <= len (instruction_bytes i).
Proof. unfold instruction_bytes. rewrite len_cons. pose proof (len_nonneg (match ins_data i with Some data => length_field (ins_opcode i) (len data) ++ data | None => [] end)). lia. Qed.

Lemma parse_loop_total fuel script o :
  0 <= o -> len script <= isize_max -> len script - o <= Z.of_nat fuel ->
  is_Some (parse_loop fuel script o).
Proof.
  revert o; induction fuel as [|fuel IH]; intros o Ho Hs Hf; cbn [parse_loop]; rewrite get_suffix.
  - by rewrite suffix_nil by lia.
  - destruct (suffix script o) as [|b r] eqn:E; cbn [head]; [done|].
    destruct (parse_one script o b) as [i|e] eqn:P; [|done].
    apply (parse_one_Ok _ _ _ r) in P as (_ & _ & En & _ & _); [|done..].
    pose proof (instruction_bytes_len i).
    destruct (IH (ins_end i)) as (x & ->); [lia..|]. by destruct x.
Qed.

Lemma parse_loop_Ok fuel script o instrs :
  0 <= o <= len script -> len script <= isize_max -> len script - o <= Z.of_nat fuel ->
  parse_loop fuel script o = Some (Ok instrs) <-> spells script o instrs.
Proof.
  revert o instrs; induction fuel as [|fuel IH]; intros o instrs Ho Hs Hf; cbn [parse_loop];
    rewrite get_suffix; unfold spells.
  { rewrite suffix_nil by lia. cbn. split; [intros [= <-]; done|]. intros (_ & _ & E).
    by destruct instrs as [|[]]. }
  destruct (suffix script o) as [|b r] eqn:E; cbn [head].
  { split; [intros [= <-]; done|]. intros (_ & _ & D). by destruct instrs as [|[]]. }
  split.
  - destruct (parse_one script o b) as [i|e] eqn:P; [|done].
    apply (parse_one_Ok _ _ _ r) in P as (Wi & St & En & S & L); [|lia|done|done]. pose proof (instruction_bytes_len i).
    destruct (parse_loop fuel script (ins_end i)) as [[rest|]|] eqn:Q; try done.
    intros [= <-]. apply IH in Q as (F & Pl & Sp); [|lia..].
    split; [by constructor|]. split; [by cbn [placed]|].
    by rewrite fmap_cons', join_cons, <- Sp, <- S, E.
  - destruct instrs as [|i rest]; [by intros (_ & _ & [=])|]. intros (F & (St & En & Pl) & Sp).
    apply Forall_cons in F as (Wi & F). rewrite fmap_cons', join_cons in Sp.
    pose proof (instruction_bytes_len i). pose proof (suffix_len script o Ho) as Lr.
    assert (suffix script (ins_end i) = mjoin (instruction_bytes <$> rest)) as Sr.
    { rewrite En. apply suffix_app; [lia|]. by rewrite E. }
    assert (ins_end i <= len script) as Le.
    { rewrite E, Sp, len_app in Lr. pose proof (len_nonneg (mjoin (instruction_bytes <$> rest))). lia. }
    assert (parse_one script o b = Ok i) as ->.
    { apply (parse_one_Ok _ _ _ r); [lia|done|done|]. split; [done|]. split; [done|].
      split; [done|]. split; [|done]. by rewrite E, Sp, Sr. }
    rewrite (proj2 (IH (ins_end i) rest ltac:(lia) Hs ltac:(lia))) by done. done.
Qed.

(** ** The scanner and the parser agree *)
Lemma scan_field_read n op script o :
  0 <= o -> 0 <= n -> len script <= isize_max ->
  scan_field n script o = match read_field n op script o with Ok r => Some r | Err _ => None end.
Proof.
  intros Ho Hn Hs. unfold scan_field, read_field, checked_add.
  destruct (Z.leb_spec (o + n) (len script)).
  - rewrite (proj2 (Z.leb_le _ _)) by ulia. cbn. by rewrite (proj2 (Z.leb_le _ _)) by lia.
  - destruct (Z.leb_spec (o + n) usize_max); cbn; [|done].
    by rewrite (proj2 (Z.leb_gt (o + n) (len script))) by lia.
Qed.

Lemma scan_push_parse script o first :
  0 <= o -> len script <= isize_max ->
  scan_push (b2z first) script (o + 1) =
    match parse_one script o first with Ok i => Some (ins_end i) | Err _ => None end.
Proof.
  intros Ho Hs. unfold parse_one, scan_push, data_length. cbv zeta.
  assert (forall op n o', (stop ← checked_add usize_max o' n; if len script <? stop then None else Some stop) =
    match (stop ← ok_or (stop ← checked_add usize_max o' n;
                  if stop <=? len script then Some stop else None) (BadOpcode op);
           Ok (mkInstruction op (Some (slice script o' stop)) o stop)) with
    | Ok i => Some (ins_end i) | Err _ => None end) as K.
  { intros op n o'. unfold checked_add. destruct (o' + n <=? usize_max); [|done]. cbn.
    destruct (Z.ltb_spec (len script) (o' + n)), (Z.leb_spec (o' + n) (len script)); done || lia. }
  destruct ((1 <=? b2z first) && (b2z first <=? 75)); [apply K|].
  destruct (b2z first =? OP_PUSHDATA1).
  { unfold script_read_u8. destruct (get script (o + 1)) as [v|]; [|done]. cbn. apply K. }
  destruct (b2z first =? OP_PUSHDATA2).
  { rewrite (scan_field_read 2 OP_PUSHDATA2) by lia. unfold script_read_u16.
    destruct (read_field 2 OP_PUSHDATA2 script (o + 1)) as [[v o']|]; [|done]. cbn. apply K. }
  destruct (b2z first =? OP_PUSHDATA4); [|done].
  rewrite (scan_field_read 4 OP_PUSHDATA4) by lia. unfold script_read_u32.
  destruct (read_field 4 OP_PUSHDATA4 script (o + 1)) as [[v o']|]; [|done]. cbn. apply K.
Qed.

Lemma sigops_loop_total fuel script o last total :
  0 <= o -> len script <= isize_max -> len script - o <= Z.of_nat fuel ->
  is_Some (sigops_loop fuel script o last total).
Proof.
  revert o last total; induction fuel as [|fuel IH]; intros o last total Ho Hs Hf;
    cbn [sigops_loop]; rewrite get_suffix.
  { by rewrite suffix_nil by lia. }
  destruct (suffix script o) as [|b r] eqn:E; cbn [head]; [done|]. cbv zeta.
  rewrite scan_push_parse by done. destruct (parse_one script o b) as [i|e] eqn:P; [|done].
  apply (parse_one_Ok _ _ _ r) in P as (_ & _ & En & _ & _); [|done..].
  pose proof (instruction_bytes_len i). apply IH; lia.
Qed.

(** The cost of a sequence of instructions. *)
Fixpoint sigops_of (last_opcode : option Z) (total : Z) (instrs : list Instruction) : Z :=
  match instrs with
  | [] => total
  | i :: instrs =>
    sigops_of (Some (ins_opcode i))
      (saturating_add u32_max total (sigop_cost last_opcode (ins_opcode i))) instrs
  end.

Lemma sigops_loop_parse fuel script o last total instrs :
  0 <= o <= len script -> len script <= isize_max ->
  parse_loop fuel script o = Some (Ok instrs) ->
  sigops_loop fuel script o last total = Some (sigops_of last total instrs).
Proof.
  revert o last total instrs; induction fuel as [|fuel IH]; intros o last total instrs Ho Hs H;
    cbn [parse_loop sigops_loop] in *; rewrite get_suffix in *;
    destruct (suffix script o) as [|b r] eqn:E; cbn [head] in *; try (injection H as <-; done); [done|].
  cbv zeta. rewrite scan_push_parse by lia.
  destruct (parse_one script o b) as [i|e] eqn:P; [|done].
  destruct (parse_loop fuel script (ins_end i)) as [[rest|]|] eqn:Q; try done. injection H as <-.
  assert (ins_opcode i = b2z b) as Op.
  { unfold parse_one in P. apply bind_Ok in P as ([[n|] o1] & _ & P); [|by injection P as <-].
    by apply bind_Ok in P as (stop & _ & [= <-]). }
  apply (parse_one_Ok _ _ _ r) in P as (_ & _ & En & _ & L); [|lia|done|done].
  pose proof (instruction_bytes_len i). cbn [sigops_of]. rewrite Op. apply IH; [lia|done|done].
Qed.

Lemma parse_script_Ok script instrs :
  parse_script script = Ok instrs <-> len script <= MAX_SCRIPT_SIZE /\ spells script 0 instrs.
Proof.
  unfold parse_script. rewrite bind_Ok. setoid_rewrite assert_or_Ok. setoid_rewrite Z.leb_le.
  split.
  - intros ([] & L & H). split; [done|]. pose proof (len_nonneg script). unfold MAX_SCRIPT_SIZE in L.
    destruct (parse_loop_total (length script) script 0) as (x & E); [lia|ulia|unfold len; lia|].
    rewrite E in H. cbn in H. subst x. apply parse_loop_Ok in E; [done|lia|ulia|unfold len; lia].
  - intros (L & S). exists tt. split; [done|]. pose proof (len_nonneg script). unfold MAX_SCRIPT_SIZE in L.
    by rewrite (proj2 (parse_loop_Ok (length script) script 0 instrs ltac:(lia) ltac:(ulia)
      ltac:(unfold len; lia))).
Qed.

(** Parsing is exact: a script parses to a list of instructions exactly when
    it is at most 10,000 bytes long and is the concatenation of those
    instructions, each well formed for its opcode and carrying its position. *)
Theorem parse_script_iff script instrs :
  parse_script script = Ok instrs <-> len script <= MAX_SCRIPT_SIZE /\ spells script 0 instrs.
Proof. apply parse_script_Ok. Qed.

(** The signature-operation scanner counts exactly what the parser sees: on
    every script that parses, the scanned count is the saturating sum of the
    cost of its instructions, where a multisig opcode costs the key count pushed
    just before it, or 20. *)
Theorem sigops_count_parsed script instrs (P : parse_script script = Ok instrs) :
  count_script_sigops script = sigops_of None 0 instrs.
Proof.
  unfold parse_script in P. apply bind_Ok in P as (u & L & P).
  apply assert_or_Ok, Z.leb_le in L. unfold MAX_SCRIPT_SIZE in L. pose proof (len_nonneg script).
  destruct (parse_loop_total (length script) script 0) as (x & E); [lia|ulia|unfold len; lia|].
  rewrite E in P. cbn in P. subst x. unfold count_script_sigops.
  by rewrite (sigops_loop_parse _ _ _ _ _ instrs) by (done || ulia).
Qed.

(** ** What a seller's signature covers *)
Lemma var_bytes_inj a b x y :
  len (var_bytes a ++ x) <= isize_max -> len (var_bytes b ++ y) <= isize_max ->
  var_bytes a ++ x = var_bytes b ++ y -> a = b /\ x = y.
Proof.
  intros La Lb E. assert (a = b) as <-; [|split; [done|by apply app_inv_head in E]].
  assert (forall c z, len (var_bytes c ++ z) <= isize_max ->
    read_varbytes isize_max "item" (Decoder_new (var_bytes c ++ z)) =
      (Ok c, advance (Decoder_new (var_bytes c ++ z)) (len (var_bytes c)))) as K.
  { intros c z Lc. apply (read_varbytes_reads _ _ isize_max "item") with (r := z); [| |by apply wf_new|done];
      rewrite len_app, len_var_bytes in Lc; pose proof (compact_size_len_range (len c));
      pose proof (len_nonneg z); ulia. }
  pose proof (K a x La) as Ka. pose proof (K b y Lb) as Kb. rewrite E, Kb in Ka. congruence.
Qed.

Section seller.
Context {CR : Crypto}.

(** The output paired with an input from the end of the output list. *)
Definition paired_output (tx : Transaction) (input_index : Z) : option Output :=
  if input_index <? len (tx_outputs tx)
  then get (tx_outputs tx) (len (tx_outputs tx) - 1 - input_index) else None.

(** The message a HIP-1 seller signs for its input. *)
Definition seller_message (tx : Transaction) (input : Input) (output script : list byte) (value : Z)
  : list byte :=
  sighash_message tx zero_hash zero_hash (blake2b_256 output) (in_previous_output input) script value
    (in_sequence input) HIP1_SELLER_SIGHASH.

Lemma seller_hash_eq tx i input o bs script value :
  0 <= i -> get (tx_inputs tx) i = Some input -> paired_output tx i = Some o ->
  Output_encode o = Ok bs ->
  signature_hash tx i script value HIP1_SELLER_SIGHASH =
    Ok (blake2b_256 (seller_message tx input bs script value)).
Proof.
  intros Hi I P E. unfold signature_hash. rewrite I. cbn [ok_or mbind result_bind].
  unfold paired_output in P. destruct (Z.ltb_spec i (len (tx_outputs tx))) as [L|]; [|done].
  change (Z.land HIP1_SELLER_SIGHASH SIGHASH_BASE_MASK) with SIGHASH_SINGLE_REVERSE.
  unfold hash_outputs. change (SIGHASH_SINGLE_REVERSE =? SIGHASH_NONE) with false.
  change (SIGHASH_SINGLE_REVERSE =? SIGHASH_SINGLE) with false.
  change (SIGHASH_SINGLE_REVERSE =? SIGHASH_SINGLE_REVERSE) with true.
  cbn [assert_or andb mbind result_bind]. change (SIGHASH_ALL <=? SIGHASH_SINGLE_REVERSE) with true.
  change (SIGHASH_SINGLE_REVERSE <=? SIGHASH_SINGLE_REVERSE) with true.
  rewrite (proj2 (Z.ltb_lt _ _)) by done. rewrite P, E. done.
Qed.

Definition message_bytes (tx : Transaction) (prevouts sequences outputs : list byte)
    (outpoint : Outpoint) (script : list byte) (value sequence hash_type : Z) : list byte :=
  to_le_bytes 4 (tx_version tx) ++ prevouts ++ sequences ++ Outpoint_encode outpoint ++
  var_bytes script ++ to_le_bytes 8 value ++ to_le_bytes 4 sequence ++ outputs ++
  to_le_bytes 4 (tx_locktime tx) ++ to_le_bytes 4 hash_type.

Lemma sighash_message_eq tx p s o out script v q h :
  sighash_message tx p s o out script v q h = message_bytes tx p s o out script v q h.
Proof.
  unfold sighash_message, message_bytes, into_bytes. autorewrite with enc. by rewrite <- !app_assoc.
Qed.
Lemma Outpoint_encode_inj a b :
  Outpoint_wf a -> Outpoint_wf b -> Outpoint_encode a = Outpoint_encode b -> a = b.
Proof.
  intros (La & Ra) (Lb & Rb). unfold Outpoint_encode. intros E.
  apply app_inj_len in E as (E1 & E2); [|congruence]. destruct a, b; cbn in *. f_equal; [done|].
  apply (f_equal from_le_bytes) in E2. rewrite !from_to_le_bytes_small in E2 by ulia. done.
Qed.

Lemma le_bytes_inj n a b x y :
  0 <= a < 256 ^ Z.of_nat n -> 0 <= b < 256 ^ Z.of_nat n ->
  to_le_bytes n a ++ x = to_le_bytes n b ++ y -> a = b /\ x = y.
Proof.
  intros Ra Rb E. apply app_inj_len in E as (E & ->); [|by rewrite !length_to_le_bytes].
  split; [|done]. apply (f_equal from_le_bytes) in E. by rewrite !from_to_le_bytes_small in E.
Qed.

(** One signing of an input: the transaction, the input, the spent script and
    value; [seller_context] also names the input and its paired output. *)
Record signing := mkSigning { sg_tx : Transaction; sg_index : Z; sg_script : list byte; sg_value : Z }.

Record seller_context (g : signing) (input : Input) (output : list byte) : Prop := {
  sc_index : 0 <= sg_index g;
  sc_input : get (tx_inputs (sg_tx g)) (sg_index g) = Some input;
  sc_output : exists o, paired_output (sg_tx g) (sg_index g) = Some o /\ Output_encode o = Ok output;
  sc_types : Outpoint_wf (in_previous_output input) /\ u32 (in_sequence input) /\ u64 (sg_value g) /\
    u32 (tx_version (sg_tx g)) /\ u32 (tx_locktime (sg_tx g)) /\ len (sg_script g) <= MAX_SCRIPT_SIZE;
}.

(** What the seller's signature fixes. *)
Definition seller_scope (g : signing) (input : Input) (output : list byte) :=
  (tx_version (sg_tx g), tx_locktime (sg_tx g), in_previous_output input, in_sequence input,
   sg_script g, sg_value g, output).

Definition context_message (g : signing) (input : Input) (output : list byte) : list byte :=
  seller_message (sg_tx g) input output (sg_script g) (sg_value g).

Lemma length_Outpoint_encode o : Outpoint_wf o -> length (Outpoint_encode o) = 36%nat.
Proof. intros (L & _). unfold Outpoint_encode. rewrite length_app, length_to_le_bytes, L. done. Qed.

Lemma context_message_inj g g' input input' output output' :
  seller_context g input output -> seller_context g' input' output' ->
  context_message g input output = context_message g' input' output' ->
  tx_version (sg_tx g) = tx_version (sg_tx g') /\ in_previous_output input = in_previous_output input' /\
  sg_script g = sg_script g' /\ sg_value g = sg_value g' /\ in_sequence input = in_sequence input' /\
  blake2b_256 output = blake2b_256 output' /\ tx_locktime (sg_tx g) = tx_locktime (sg_tx g').
Proof.
  intros [_ _ _ (Wo & Rs & Rv & Rt & Rl & Ls)] [_ _ _ (Wo' & Rs' & Rv' & Rt' & Rl' & Ls')].
  unfold context_message, seller_message. rewrite !sighash_message_eq. unfold message_bytes. intros E.
  apply le_bytes_inj in E as (V & E); [|change (256 ^ Z.of_nat 4) with 4294967296; ulia..].
  apply app_inv_head, app_inv_head in E.
  apply app_inj_len in E as (O & E); [|by rewrite !length_Outpoint_encode].
  apply Outpoint_encode_inj in O; [|done..].
  assert (forall a o, len a <= MAX_SCRIPT_SIZE -> forall q l v h,
    len (var_bytes a ++ to_le_bytes 8 v ++ to_le_bytes 4 q ++ blake2b_256 o ++ to_le_bytes 4 l ++
         to_le_bytes 4 h) <= isize_max) as B.
  { intros a o La q l v h. slen. pose proof (compact_size_len_range (len a)).
    unfold blake2b_256, len at 3. rewrite blake2b_length. unfold MAX_SCRIPT_SIZE in La. ulia. }
  apply var_bytes_inj in E as (Sc & E); [|by apply B..].
  apply le_bytes_inj in E as (Va & E); [|change (256 ^ Z.of_nat 8) with 18446744073709551616; ulia..].
  apply le_bytes_inj in E as (Sq & E); [|change (256 ^ Z.of_nat 4) with 4294967296; ulia..].
  apply app_inj_len in E as (Ou & E); [|unfold blake2b_256; by rewrite !blake2b_length].
  apply le_bytes_inj in E as (Lo & _); [|change (256 ^ Z.of_nat 4) with 4294967296; ulia..].
  done.
Qed.

(** C26. A HIP-1 seller signs exactly its own side of the swap: two transactions
    give the seller's input the same signature hash exactly when they agree on
    version, locktime, the seller's outpoint and sequence, the spent script and
    value and the encoding of the output paired with the input, unless the
    messages hashed collide. In particular a buyer may add inputs and outputs
    without invalidating the signature, and cannot change the paired output. *)
Theorem seller_signature_scope g g' input input' output output'
    (S : seller_context g input output) (S' : seller_context g' input' output')
    (C : collision_free [context_message g input output; context_message g' input' output';
                         output; output']) :
  exists h h',
    signature_hash (sg_tx g) (sg_index g) (sg_script g) (sg_value g) HIP1_SELLER_SIGHASH = Ok h /\
    signature_hash (sg_tx g') (sg_index g') (sg_script g') (sg_value g') HIP1_SELLER_SIGHASH = Ok h' /\
    (h = h' <-> seller_scope g input output = seller_scope g' input' output').
Proof.
  pose proof S as [Hi I (o & P & E) _]. pose proof S' as [Hi' I' (o' & P' & E') _].
  rewrite (seller_hash_eq _ _ _ o output) by done.
  rewrite (seller_hash_eq _ _ _ o' output' (sg_script g')) by done.
  eexists _, _. split; [done|]. split; [done|]. split.
  - intros H. apply C in H; [|set_solver..].
    apply context_message_inj in H as (V & O & Sc & Va & Q & H & L); [|done..].
    apply C in H as <-; [|set_solver..]. unfold seller_scope. by rewrite V, O, Sc, Va, Q, L.
  - unfold seller_scope. intros [= V L O Q Sc Va Ou]. subst output'.
    unfold seller_message. rewrite !sighash_message_eq. unfold message_bytes. by rewrite V, L, O, Q, Sc, Va.
Qed.

End seller.

(** ** Examples *)
Lemma script_number_codec_witness :
  decode_script_number (encode_script_number (-1000)) true 4 = Ok (-1000).
Proof.
  apply (script_number_codec _ 4 (-1000)); [lia|]. split; [unfold i64_min, i64_max; lia|].
  split; [reflexivity|by vm_compute].
Defined.

(** [OP_2 <33-byte key> OP_2 OP_CHECKMULTISIG OP_CHECKSIG] *)
Definition sigops_script : list byte :=
  octets [0x52; 2; 7; 7; 0x52; OP_CHECKMULTISIG; OP_CHECKSIG].

Lemma sigops_count_parsed_witness : count_script_sigops sigops_script = 3.
Proof.
  rewrite (sigops_count_parsed sigops_script
    (match parse_script sigops_script with Ok instrs => instrs | Err _ => [] end));
    [reflexivity|vm_compute; reflexivity].
Defined.

(** A seller's input, and the same input in a transaction to which a buyer has
    added an input and an output. *)
Definition seller_input : Input := mkInput (mkOutpoint (zeros 32) 3) u32_max Witness_default.
Definition seller_payment : Output :=
  mkOutput 5000 (mkAddress x00 (zeros 20)) (mkCovenant KNone []).
Definition buyer_input : Input := mkInput (mkOutpoint (zeros 32) 9) 7 Witness_default.
Definition buyer_change : Output := mkOutput 40 (mkAddress x00 (zeros 32)) (mkCovenant KNone []).

Definition offer : signing := mkSigning (mkTransaction 0 [seller_input] [seller_payment] 0) 0 (zeros 5) 6000.
Definition completed : signing :=
  mkSigning (mkTransaction 0 [seller_input; buyer_input] [buyer_change; seller_payment] 0) 0 (zeros 5) 6000.
Definition payment_bytes : list byte :=
  match Output_encode seller_payment with Ok bs => bs | Err _ => [] end.

Lemma seller_example_context g :
  g = offer \/ g = completed -> seller_context g seller_input payment_bytes.
Proof.
  intros [->| ->]; (split; [cbn; lia|reflexivity| |]).
  all: try (exists seller_payment; split; vm_compute; reflexivity).
  all: unfold Outpoint_wf, MAX_SCRIPT_SIZE; cbn; repeat split; ulia || done.
Qed.

Lemma seller_signature_scope_witness :
  exists h h',
    @signature_hash toy_crypto (sg_tx offer) 0 (zeros 5) 6000 HIP1_SELLER_SIGHASH = Ok h /\
    @signature_hash toy_crypto (sg_tx completed) 0 (zeros 5) 6000 HIP1_SELLER_SIGHASH = Ok h' /\
    (h = h' <-> seller_scope offer seller_input payment_bytes =
                seller_scope completed seller_input payment_bytes).
Proof.
  apply (@seller_signature_scope toy_crypto offer completed seller_input seller_input
    payment_bytes payment_bytes).
  - apply seller_example_context. by left.
  - apply seller_example_context. by right.
  - apply collision_freeb_spec. vm_compute. reflexivity.
Defined.
