(* ===== verification/Interpreter.v ===== *)
(** * hns-script: script execution

    Models the execution half of [crates/hns-script/src/interpreter.rs]: the
    stack machine, signature and multi-signature checks and witness programs. A
    [Vec] used as a stack is a list with its top last, as in the source. The
    secp256k1 back end is the trait [SignatureVerifier], here a class; the
    digests of other crates are the class [ScriptDigests]. The items of the
    caller's stack after a failed execution are not modelled: the result is the
    error alone. *)

From S2P Require Import Prelude Encoding Primitives Covenants Transaction Script.
Local Open Scope Z_scope.

(** ** Interfaces to code outside the crate *)
Class SignatureVerifier := {
  validate_compact_signature : list byte -> result ScriptError unit;
  verify_signature : list byte -> list byte -> list byte -> result ScriptError bool;
  is_consensus_complete : bool;
}.

Definition UnavailableSignatureVerifier : SignatureVerifier := {|
  validate_compact_signature := fun _ => Err SignatureBackendUnavailable;
  verify_signature := fun _ _ _ => Err SignatureBackendUnavailable;
  is_consensus_complete := false;
|}.

(** Digests fill their output arrays. *)
Class ScriptDigests := {
  keccak256 : list byte -> list byte;
  ripemd160 : list byte -> list byte;
  sha1 : list byte -> list byte;
  sha256 : list byte -> list byte;
  keccak256_length : forall m, length (keccak256 m) = 32%nat;
  ripemd160_length : forall m, length (ripemd160 m) = 20%nat;
  sha1_length : forall m, length (sha1 m) = 20%nat;
  sha256_length : forall m, length (sha256 m) = 32%nat;
}.

(** ** Flags *)
Definition VERIFY_MINIMAL_DATA : Z := Z.shiftl 1 1.
Definition VERIFY_DISCOURAGE_UPGRADABLE_NOPS : Z := Z.shiftl 1 2.
Definition VERIFY_DISCOURAGE_UPGRADABLE_WITNESS_PROGRAM : Z := Z.shiftl 1 3.
Definition VERIFY_MINIMAL_IF : Z := Z.shiftl 1 4.
Definition VERIFY_NULLFAIL : Z := Z.shiftl 1 5.
Definition FLAGS_MANDATORY : Z :=
  Z.lor (Z.lor VERIFY_MINIMAL_DATA VERIFY_MINIMAL_IF) VERIFY_NULLFAIL.
Definition FLAGS_STANDARD : Z :=
  Z.lor (Z.lor FLAGS_MANDATORY VERIFY_DISCOURAGE_UPGRADABLE_NOPS)
    VERIFY_DISCOURAGE_UPGRADABLE_WITNESS_PROGRAM.

Definition flags_contains (flags other : Z) : bool := Z.land flags other =? other.
Definition minimal_numbers (flags : Z) : bool := flags_contains flags VERIFY_MINIMAL_DATA.

(** ** Vectors

    [remove], [insert] and [swap] panic out of range in Rust; every use below
    comes after [require_stack]. *)
Definition vec_pop (l : list (list byte)) : option (list byte * list (list byte)) :=
  match last l with Some x => Some (x, take (length l - 1) l) | None => None end.
Definition vec_at (l : list (list byte)) (i : Z) : list byte := default [] (get l i).
Definition vec_remove (l : list (list byte)) (i : Z) : list byte * list (list byte) :=
  (vec_at l i, take (Z.to_nat i) l ++ drop (S (Z.to_nat i)) l).
Definition vec_insert (l : list (list byte)) (i : Z) (x : list byte) : list (list byte) :=
  take (Z.to_nat i) l ++ x :: drop (Z.to_nat i) l.
Definition vec_swap (l : list (list byte)) (i j : Z) : list (list byte) :=
  <[Z.to_nat i := vec_at l j]> (<[Z.to_nat j := vec_at l i]> l).
Definition vec_truncate (l : list (list byte)) (n : Z) : list (list byte) := take (Z.to_nat n) l.

Definition push (stack : list (list byte)) (x : list byte) : list (list byte) := stack ++ [x].
Definition push_bool (stack : list (list byte)) (value : bool) : list (list byte) :=
  push stack (if value then [x01] else []).
Definition pop (stack : list (list byte)) : result ScriptError (list byte * list (list byte)) :=
  ok_or (vec_pop stack) InvalidStackOperation.
Definition require_stack (stack : list (list byte)) (count : Z) : result ScriptError unit :=
  assert_or (count <=? len stack) InvalidStackOperation.
Definition duplicate_tail (stack : list (list byte)) (count : Z) : result ScriptError (list (list byte)) :=
  require_stack stack count ;; Ok (stack ++ slice stack (len stack - count) (len stack)).
Definition enforce_stack_limit (stack alt_stack : list (list byte)) : result ScriptError unit :=
  assert_or (saturating_add usize_max (len stack) (len alt_stack) <=? MAX_SCRIPT_STACK) StackSize.

Definition decode_top_number (stack : list (list byte)) (flags maximum_size : Z) : result ScriptError Z :=
  top ← ok_or (last stack) InvalidStackOperation;
  decode_script_number top (minimal_numbers flags) maximum_size.

(** [decode_script_number(&pop(stack)?, minimal_numbers(flags), 4)?] *)
Definition pop_number (flags : Z) (stack : list (list byte)) : result ScriptError (Z * list (list byte)) :=
  '(top, stack) ← pop stack;
  n ← decode_script_number top (minimal_numbers flags) 4;
  Ok (n, stack).

Definition checked_i64 (v : Z) : option Z :=
  if (i64_min <=? v) && (v <=? i64_max) then Some v else None.

(** ** Stack operations *)
Definition pick_or_roll (flags opcode : Z) (stack : list (list byte)) : result ScriptError (list (list byte)) :=
  '(depth, stack) ← pop_number flags stack;
  assert_or (0 <=? depth) InvalidStackOperation ;;
  assert_or (depth <? len stack) InvalidStackOperation ;;
  let index := len stack - 1 - depth in
  let '(x, stack) :=
    if opcode =? OP_ROLL then vec_remove stack index else (vec_at stack index, stack) in
  Ok (push stack x).

(** The opcodes that only touch the main stack; [None] for other opcodes. *)
Definition stack_op (flags opcode : Z) (stack : list (list byte)) : option (result ScriptError (list (list byte))) :=
  let n := len stack in
  if opcode =? OP_2DROP then Some (require_stack stack 2 ;; Ok (vec_truncate stack (n - 2)))
  else if opcode =? OP_2DUP then Some (duplicate_tail stack 2)
  else if opcode =? OP_3DUP then Some (duplicate_tail stack 3)
  else if opcode =? OP_2OVER then
    Some (require_stack stack 4 ;; Ok (stack ++ slice stack (n - 4) (n - 2)))
  else if opcode =? OP_2ROT then
    Some (require_stack stack 6 ;;
          let '(first, stack) := vec_remove stack (n - 6) in
          let '(second, stack) := vec_remove stack (n - 6) in
          Ok (push (push stack first) second))
  else if opcode =? OP_2SWAP then
    Some (require_stack stack 4 ;;
          Ok (vec_swap (vec_swap stack (n - 4) (n - 2)) (n - 3) (n - 1)))
  else if opcode =? OP_IFDUP then
    Some (value ← ok_or (last stack) InvalidStackOperation;
          Ok (if cast_to_bool value then push stack value else stack))
  else if opcode =? OP_DEPTH then Some (Ok (push stack (encode_script_number n)))
  else if opcode =? OP_DROP then Some ('(_, stack) ← pop stack; Ok stack)
  else if opcode =? OP_DUP then Some (duplicate_tail stack 1)
  else if opcode =? OP_NIP then Some (require_stack stack 2 ;; Ok (snd (vec_remove stack (n - 2))))
  else if opcode =? OP_OVER then Some (require_stack stack 2 ;; Ok (push stack (vec_at stack (n - 2))))
  else if (opcode =? OP_PICK) || (opcode =? OP_ROLL) then Some (pick_or_roll flags opcode stack)
  else if opcode =? OP_ROT then
    Some (require_stack stack 3 ;;
          let '(x, stack) := vec_remove stack (n - 3) in Ok (push stack x))
  else if opcode =? OP_SWAP then Some (require_stack stack 2 ;; Ok (vec_swap stack (n - 2) (n - 1)))
  else if opcode =? OP_TUCK then
    Some (require_stack stack 2 ;; Ok (vec_insert stack (n - 2) (vec_at stack (n - 1))))
  else if opcode =? OP_SIZE then
    Some (top ← ok_or (last stack) InvalidStackOperation;
          Ok (push stack (encode_script_number (len top))))
  else None.

(** ** Comparisons and arithmetic *)
Definition of_bool (b : bool) : Z := if b then 1 else 0.

Definition unary_result (opcode value : Z) : option Z :=
  if opcode =? OP_1ADD then checked_i64 (value + 1)
  else if opcode =? OP_1SUB then checked_i64 (value - 1)
  else if opcode =? OP_NEGATE then checked_i64 (- value)
  else if opcode =? OP_ABS then checked_i64 (Z.abs value)
  else if opcode =? OP_NOT then Some (of_bool (value =? 0))
  else if opcode =? OP_0NOTEQUAL then Some (of_bool (negb (value =? 0)))
  else None.

Definition is_unary (opcode : Z) : bool :=
  bool_decide (opcode ∈ [OP_1ADD; OP_1SUB; OP_NEGATE; OP_ABS; OP_NOT; OP_0NOTEQUAL]).

Definition is_binary (opcode : Z) : bool :=
  bool_decide (opcode ∈ [OP_ADD; OP_SUB; OP_BOOLAND; OP_BOOLOR; OP_NUMEQUAL; OP_NUMEQUALVERIFY;
    OP_NUMNOTEQUAL; OP_LESSTHAN; OP_GREATERTHAN; OP_LESSTHANOREQUAL; OP_GREATERTHANOREQUAL; OP_MIN;
    OP_MAX]).

(** [None] is overflow; [OP_MAX] is the last of the binary opcodes. *)
Definition binary_result (opcode left_ right_ : Z) : option Z :=
  if opcode =? OP_ADD then checked_i64 (left_ + right_)
  else if opcode =? OP_SUB then checked_i64 (left_ - right_)
  else if opcode =? OP_BOOLAND then Some (of_bool (negb (left_ =? 0) && negb (right_ =? 0)))
  else if opcode =? OP_BOOLOR then Some (of_bool (negb (left_ =? 0) || negb (right_ =? 0)))
  else if (opcode =? OP_NUMEQUAL) || (opcode =? OP_NUMEQUALVERIFY) then Some (of_bool (left_ =? right_))
  else if opcode =? OP_NUMNOTEQUAL then Some (of_bool (negb (left_ =? right_)))
  else if opcode =? OP_LESSTHAN then Some (of_bool (left_ <? right_))
  else if opcode =? OP_GREATERTHAN then Some (of_bool (right_ <? left_))
  else if opcode =? OP_LESSTHANOREQUAL then Some (of_bool (left_ <=? right_))
  else if opcode =? OP_GREATERTHANOREQUAL then Some (of_bool (right_ <=? left_))
  else if opcode =? OP_MIN then Some (Z.min left_ right_)
  else Some (Z.max left_ right_).

Definition numeric_op (flags opcode : Z) (stack : list (list byte)) : option (result ScriptError (list (list byte))) :=
  if (opcode =? OP_EQUAL) || (opcode =? OP_EQUALVERIFY) then
    Some (require_stack stack 2 ;;
          '(right_, stack) ← pop stack;
          '(left_, stack) ← pop stack;
          let equal := bool_decide (left_ = right_) in
          if opcode =? OP_EQUALVERIFY then assert_or equal EqualVerify ;; Ok stack
          else Ok (push_bool stack equal))
  else if is_unary opcode then
    Some ('(value, stack) ← pop_number flags stack;
          r ← ok_or (unary_result opcode value) NumericOverflow;
          Ok (push stack (encode_script_number r)))
  else if is_binary opcode then
    Some (require_stack stack 2 ;;
          '(right_, stack) ← pop_number flags stack;
          '(left_, stack) ← pop_number flags stack;
          r ← ok_or (binary_result opcode left_ right_) NumericOverflow;
          if opcode =? OP_NUMEQUALVERIFY then assert_or (negb (r =? 0)) NumEqualVerify ;; Ok stack
          else Ok (push stack (encode_script_number r)))
  else if opcode =? OP_WITHIN then
    Some (require_stack stack 3 ;;
          '(maximum, stack) ← pop_number flags stack;
          '(minimum, stack) ← pop_number flags stack;
          '(value, stack) ← pop_number flags stack;
          Ok (push_bool stack ((minimum <=? value) && (value <? maximum))))
  else None.

Section machine.
Context {CR : Crypto} {DG : ScriptDigests} {SV : SignatureVerifier}.

(** ** Digests *)
Definition digest_of (opcode : Z) (x : list byte) : option (list byte) :=
  if opcode =? OP_BLAKE160 then Some (blake2b 20 x)
  else if opcode =? OP_BLAKE256 then Some (blake2b 32 x)
  else if opcode =? OP_SHA3 then Some (sha3_256 x)
  else if opcode =? OP_KECCAK then Some (keccak256 x)
  else if opcode =? OP_RIPEMD160 then Some (ripemd160 x)
  else if opcode =? OP_SHA1 then Some (sha1 x)
  else if opcode =? OP_SHA256 then Some (sha256 x)
  else if opcode =? OP_HASH160 then Some (ripemd160 (sha256 x))
  else if opcode =? OP_HASH256 then Some (sha256 (sha256 x))
  else None.

Definition is_digest (opcode : Z) : bool :=
  bool_decide (opcode ∈ [OP_BLAKE160; OP_BLAKE256; OP_SHA3; OP_KECCAK; OP_RIPEMD160; OP_SHA1;
    OP_SHA256; OP_HASH160; OP_HASH256]).

Definition digest_op (opcode : Z) (stack : list (list byte)) : option (result ScriptError (list (list byte))) :=
  if is_digest opcode then
    Some ('(x, stack) ← pop stack; Ok (push stack (default [] (digest_of opcode x))))
  else None.

(** ** Signatures *)
Definition check_signature (tx : Transaction) (input_index previous_value : Z)
    (subscript signature public_key : list byte) : result ScriptError bool :=
  compact ←
    (if len signature =? 0 then Ok (@None (list byte))
     else
       assert_or (negb (negb (len signature =? 65) ||
                        negb (is_valid_signature_hash_type (default x00 (get signature 64)))))
         SignatureEncoding ;;
       let compact := take 64 signature in
       validate_compact_signature compact ;; Ok (Some compact));
  assert_or (len public_key =? 33) PublicKeyEncoding ;;
  assert_or (bool_decide (head public_key ∈ [Some x02; Some x03])) PublicKeyEncoding ;;
  match compact with
  | None => Ok false
  | Some compact =>
    message ← signature_hash tx input_index subscript previous_value
      (b2z (default x00 (get signature 64)));
    verify_signature message compact public_key
  end.

(** The matching loop, from the last signature and the last key; every round
    uses up a key. *)
Fixpoint multisig_loop (check : list byte -> list byte -> result ScriptError bool) (sigs keys : list (list byte))
    (remaining_keys remaining_signatures : nat) : result ScriptError bool :=
  match remaining_signatures with
  | O => Ok true
  | S rs =>
    match remaining_keys with
    | O => Ok false
    | S rk =>
      if (remaining_keys <? remaining_signatures)%nat then Ok false
      else
        check (vec_at sigs (Z.of_nat rs)) (vec_at keys (Z.of_nat rk)) ≫= fun ok : bool =>
        multisig_loop check sigs keys rk (if ok then rs else remaining_signatures)
    end
  end.

Definition check_multisig (stack : list (list byte)) (tx : Transaction) (input_index previous_value : Z)
    (subscript : list byte) (flags operation_count : Z)
  : result ScriptError (bool * list (list byte) * Z) :=
  '(top, stack) ← pop stack;
  key_count ← decode_script_number top (minimal_numbers flags) 4;
  assert_or (0 <=? key_count) PublicKeyCount ;;
  assert_or (key_count <=? MAX_MULTISIG_PUBKEYS) PublicKeyCount ;;
  operation_count ← ok_or (checked_add usize_max operation_count key_count) OperationCount;
  assert_or (operation_count <=? MAX_SCRIPT_OPS) OperationCount ;;
  require_stack stack (saturating_add usize_max key_count 1) ;;
  let keys_start := len stack - key_count in
  let keys := drop (Z.to_nat keys_start) stack in
  let stack := take (Z.to_nat keys_start) stack in
  '(top, stack) ← pop stack;
  signature_count ← decode_script_number top (minimal_numbers flags) 4;
  assert_or (0 <=? signature_count) SignatureCount ;;
  assert_or (signature_count <=? key_count) SignatureCount ;;
  require_stack stack (saturating_add usize_max signature_count 1) ;;
  let signatures_start := len stack - signature_count in
  let candidate_signatures := drop (Z.to_nat signatures_start) stack in
  let stack := take (Z.to_nat signatures_start) stack in
  '(dummy, stack) ← pop stack;
  valid ← multisig_loop (check_signature tx input_index previous_value subscript)
    candidate_signatures keys (length keys) (length candidate_signatures);
  assert_or (negb (negb valid && flags_contains flags VERIFY_NULLFAIL
                   && existsb (fun s => negb (len s =? 0)) candidate_signatures)) NullFail ;;
  assert_or (len dummy =? 0) SignatureNullDummy ;;
  Ok (valid, stack, operation_count).

(** ** The machine *)
Record Machine := mkMachine {
  m_stack : list (list byte);
  m_alt_stack : list (list byte);
  m_conditions : list bool;
  m_operation_count : Z;
  m_last_separator : Z;
}.

Definition set_stack (m : Machine) (stack : list (list byte)) : Machine :=
  mkMachine stack (m_alt_stack m) (m_conditions m) (m_operation_count m) (m_last_separator m).
Definition set_conditions (m : Machine) (conditions : list bool) : Machine :=
  mkMachine (m_stack m) (m_alt_stack m) conditions (m_operation_count m) (m_last_separator m).

Section run.
Context (script : list byte) (tx : Transaction) (input_index previous_value flags : Z).

Definition lock_op (predicate_holds : Z -> bool) (stack : list (list byte)) : result ScriptError unit :=
  value ← decode_top_number stack flags 5;
  assert_or (negb (value <? 0)) NegativeLocktime ;;
  assert_or (value <=? u32_max) UnsatisfiedLocktime ;;
  assert_or (predicate_holds value) UnsatisfiedLocktime.

Definition all_true (conditions : list bool) : bool := forallb (fun c => c) conditions.

(** [OP_IF] and [OP_NOTIF] *)
Definition branch_op (opcode : Z) (m : Machine) : result ScriptError Machine :=
  if all_true (m_conditions m) then
    '(x, stack) ← ok_or (vec_pop (m_stack m)) UnbalancedConditional;
    assert_or (negb (flags_contains flags VERIFY_MINIMAL_IF
                     && negb ((len x =? 0) || bool_decide (x = [x01])))) MinimalIf ;;
    let value := cast_to_bool x in
    let value := if opcode =? OP_NOTIF then negb value else value in
    Ok (set_conditions (set_stack m stack) (m_conditions m ++ [value]))
  else Ok (set_conditions m (m_conditions m ++ [false])).

Definition else_op (m : Machine) : result ScriptError Machine :=
  match last (m_conditions m) with
  | None => Err UnbalancedConditional
  | Some c =>
    Ok (set_conditions m (take (length (m_conditions m) - 1) (m_conditions m) ++ [negb c]))
  end.

Definition endif_op (m : Machine) : result ScriptError Machine :=
  match last (m_conditions m) with
  | None => Err UnbalancedConditional
  | Some _ => Ok (set_conditions m (take (length (m_conditions m) - 1) (m_conditions m)))
  end.

Definition checksig_op (opcode : Z) (m : Machine) : result ScriptError Machine :=
  require_stack (m_stack m) 2 ;;
  '(public_key, stack) ← pop (m_stack m);
  '(signature, stack) ← pop stack;
  valid ← check_signature tx input_index previous_value
    (drop (Z.to_nat (m_last_separator m)) script) signature public_key;
  assert_or (negb (negb valid && flags_contains flags VERIFY_NULLFAIL && negb (len signature =? 0)))
    NullFail ;;
  if opcode =? OP_CHECKSIGVERIFY then assert_or valid CheckSigVerify ;; Ok (set_stack m stack)
  else Ok (set_stack m (push_bool stack valid)).

Definition checkmultisig_op (opcode : Z) (m : Machine) : result ScriptError Machine :=
  '(valid, stack, operation_count) ← check_multisig (m_stack m) tx input_index previous_value
    (drop (Z.to_nat (m_last_separator m)) script) flags (m_operation_count m);
  let m stack := mkMachine stack (m_alt_stack m) (m_conditions m) operation_count (m_last_separator m) in
  if opcode =? OP_CHECKMULTISIGVERIFY then assert_or valid CheckMultiSigVerify ;; Ok (m stack)
  else Ok (m (push_bool stack valid)).

(** The covenant type of the output at the input's own index. *)
Definition covenant_type : Z :=
  match get (tx_outputs tx) input_index with
  | Some output => b2z (CovenantKind_as_u8 (cov_kind (out_covenant output)))
  | None => 0
  end.

(** Lift an operation on the main stack. *)
Definition on_stack (m : Machine) (r : result ScriptError (list (list byte))) : result ScriptError Machine :=
  stack ← r; Ok (set_stack m stack).

Definition execute_opcode (i : Instruction) (m : Machine) : result ScriptError Machine :=
  let op := ins_opcode i in
  let stack := m_stack m in
  if op =? OP_0 then Ok (set_stack m (push stack []))
  else if op =? OP_1NEGATE then Ok (set_stack m (push stack (encode_script_number (-1))))
  else if (OP_1 <=? op) && (op <=? OP_16) then
    Ok (set_stack m (push stack (encode_script_number (op - OP_1 + 1))))
  else if op =? OP_NOP then Ok m
  else if op =? OP_TYPE then Ok (set_stack m (push stack (encode_script_number covenant_type)))
  else if op =? OP_CHECKLOCKTIMEVERIFY then
    lock_op (verify_locktime_predicate tx input_index) stack ;; Ok m
  else if op =? OP_CHECKSEQUENCEVERIFY then
    lock_op (verify_sequence_predicate tx input_index) stack ;; Ok m
  else if (op =? OP_NOP1) || ((OP_NOP4 <=? op) && (op <=? OP_NOP10)) then
    assert_or (negb (flags_contains flags VERIFY_DISCOURAGE_UPGRADABLE_NOPS))
      DiscourageUpgradableNops ;; Ok m
  else if (op =? OP_IF) || (op =? OP_NOTIF) then branch_op op m
  else if op =? OP_ELSE then else_op m
  else if op =? OP_ENDIF then endif_op m
  else if op =? OP_VERIFY then
    '(x, stack) ← pop stack;
    assert_or (cast_to_bool x) ErrVerify ;; Ok (set_stack m stack)
  else if op =? OP_RETURN then Err OpReturn
  else if op =? OP_TOALTSTACK then
    '(x, stack) ← pop stack;
    Ok (mkMachine stack (push (m_alt_stack m) x) (m_conditions m) (m_operation_count m)
          (m_last_separator m))
  else if op =? OP_FROMALTSTACK then
    '(x, alt_stack) ← ok_or (vec_pop (m_alt_stack m)) InvalidAltStackOperation;
    Ok (mkMachine (push stack x) alt_stack (m_conditions m) (m_operation_count m)
          (m_last_separator m))
  else if op =? OP_CODESEPARATOR then
    Ok (mkMachine stack (m_alt_stack m) (m_conditions m) (m_operation_count m) (ins_end i))
  else if (op =? OP_CHECKSIG) || (op =? OP_CHECKSIGVERIFY) then checksig_op op m
  else if (op =? OP_CHECKMULTISIG) || (op =? OP_CHECKMULTISIGVERIFY) then checkmultisig_op op m
  else
    match stack_op flags op stack, numeric_op flags op stack, digest_op op stack with
    | Some r, _, _ | _, Some r, _ | _, _, Some r => on_stack m r
    | _, _, _ => Err (BadOpcode op)
    end.

(** One iteration of the instruction loop. *)
Definition execute_instruction (i : Instruction) (m : Machine) : result ScriptError Machine :=
  assert_or (negb match ins_data i with Some data => MAX_SCRIPT_PUSH <? len data | None => false end)
    PushSize ;;
  operation_count ←
    (if OP_16 <? ins_opcode i then
       operation_count ← ok_or (checked_add usize_max (m_operation_count m) 1) OperationCount;
       assert_or (operation_count <=? MAX_SCRIPT_OPS) OperationCount ;;
       Ok operation_count
     else Ok (m_operation_count m));
  let m := mkMachine (m_stack m) (m_alt_stack m) (m_conditions m) operation_count (m_last_separator m) in
  assert_or (negb (is_disabled_opcode (ins_opcode i))) (DisabledOpcode (ins_opcode i)) ;;
  let executing := all_true (m_conditions m) in
  let is_branch := (OP_IF <=? ins_opcode i) && (ins_opcode i <=? OP_ENDIF) in
  m ←
    (if negb executing && negb is_branch then Ok m
     else match ins_data i with
          | Some data =>
            assert_or (negb (flags_contains flags VERIFY_MINIMAL_DATA
                             && negb (is_minimal_push (ins_opcode i) data))) MinimalData ;;
            Ok (set_stack m (push (m_stack m) data))
          | None => execute_opcode i m
          end);
  enforce_stack_limit (m_stack m) (m_alt_stack m) ;;
  Ok m.

Fixpoint execute_loop (instructions : list Instruction) (m : Machine) : result ScriptError Machine :=
  match instructions with
  | [] => Ok m
  | i :: instructions => m ← execute_instruction i m; execute_loop instructions m
  end.

Definition execute_script (stack : list (list byte)) : result ScriptError (list (list byte)) :=
  assert_or (input_index <? len (tx_inputs tx)) (InputIndex input_index (len (tx_inputs tx))) ;;
  assert_or (len stack <=? MAX_SCRIPT_STACK) StackSize ;;
  assert_or (forallb (fun x => len x <=? MAX_SCRIPT_PUSH) stack) PushSize ;;
  instructions ← parse_script script;
  m ← execute_loop instructions (mkMachine stack [] [] 0 0);
  assert_or (bool_decide (m_conditions m = [])) UnbalancedConditional ;;
  Ok (m_stack m).
End run.

(** ** Witness programs *)
Definition pubkey_hash_script (hash : list byte) : list byte :=
  octets [OP_DUP; OP_BLAKE160; 20] ++ hash ++ octets [OP_EQUALVERIFY; OP_CHECKSIG].

(** The script to run and the stack it runs on; [None] accepts without running. *)
Definition redeem_script (address : Address) (witness : list (list byte)) (flags : Z)
  : result ScriptError (option (list byte * list (list byte))) :=
  if b2z (addr_version address) =? 0 then
    if len (addr_hash address) =? 32 then
      '(witness_script, stack) ← ok_or (vec_pop witness) WitnessProgramWitnessEmpty;
      assert_or (len witness_script <=? MAX_SCRIPT_SIZE) ScriptSize ;;
      assert_or (bool_decide (sha3_256 witness_script = addr_hash address)) WitnessProgramMismatch ;;
      Ok (Some (witness_script, stack))
    else if len (addr_hash address) =? 20 then
      assert_or (len witness =? 2) WitnessProgramMismatch ;;
      Ok (Some (pubkey_hash_script (addr_hash address), witness))
    else Err WitnessProgramWrongLength
  else
    assert_or (negb (flags_contains flags VERIFY_DISCOURAGE_UPGRADABLE_WITNESS_PROGRAM))
      DiscourageUpgradableWitnessProgram ;;
    Ok None.

Definition verify_witness_program (tx : Transaction) (input_index : Z) (coin : Coin) (flags : Z)
  : result ScriptError unit :=
  input ← ok_or (get (tx_inputs tx) input_index) (InputIndex input_index (len (tx_inputs tx)));
  assert_or (bool_decide (in_previous_output input = coin_outpoint coin)) InputCoinMismatch ;;
  assert_or (negb (b2z (addr_version (coin_address coin)) =? 31)) OpReturn ;;
  assert_or (len (wit_items (in_witness input)) <=? MAX_SCRIPT_STACK) StackSize ;;
  redeem ← redeem_script (coin_address coin) (wit_items (in_witness input)) flags;
  match redeem with
  | None => Ok tt
  | Some (script, stack) =>
    stack ← execute_script script tx input_index (coin_value coin) flags stack;
    match stack with
    | [top] => assert_or (cast_to_bool top) EvalFalse
    | _ => Err EvalFalse
    end
  end.

End machine.

(** Decide the comparisons of closed integers in the goal. *)
Ltac closed_cmp :=
  repeat match goal with
  | |- context [?a =? ?b] =>
    let v := eval vm_compute in (a =? b) in
    lazymatch v with true => idtac | false => idtac end; change (a =? b) with v
  | |- context [?a <=? ?b] =>
    let v := eval vm_compute in (a <=? b) in
    lazymatch v with true => idtac | false => idtac end; change (a <=? b) with v
  end; cbn [andb orb negb]; cbv iota.

(** ** Pops from known stacks *)
Lemma vec_pop_snoc (l : list (list byte)) x : vec_pop (l ++ [x]) = Some (x, l).
Proof.
  unfold vec_pop. rewrite last_snoc, length_app. cbn [length].
  replace (length l + 1 - 1)%nat with (length l) by lia. by rewrite take_app_length.
Qed.

Lemma vec_pop_Some l x l' : vec_pop l = Some (x, l') <-> l = l' ++ [x].
Proof.
  split; [|intros ->; apply vec_pop_snoc]. destruct l as [|y l _] using rev_ind; [done|].
  rewrite vec_pop_snoc. by intros [= -> ->].
Qed.

Lemma pop_snoc (l : list (list byte)) x : pop (l ++ [x]) = Ok (x, l).
Proof. unfold pop. by rewrite vec_pop_snoc. Qed.

Lemma pop_Ok l x l' : pop l = Ok (x, l') <-> l = l' ++ [x].
Proof. unfold pop. rewrite ok_or_Ok. apply vec_pop_Some. Qed.

(** ** Multi-signatures: in-order matching

    The reference: the signatures match some keys, in the same order. *)
Definition in_order (ok : list byte -> list byte -> bool) (sigs keys : list (list byte)) : Prop :=
  exists ks, ks `sublist_of` keys /\ Forall2 (fun s k => ok s k = true) sigs ks.

Lemma in_order_nil ok keys : in_order ok [] keys.
Proof. exists []. split; [apply sublist_nil_l|constructor]. Qed.

Lemma in_order_length ok sigs keys : in_order ok sigs keys -> (length sigs <= length keys)%nat.
Proof. intros (ks & S & F). apply sublist_length in S. apply Forall2_length in F. lia. Qed.

Lemma in_order_weaken ok sigs keys k : in_order ok sigs keys -> in_order ok sigs (keys ++ [k]).
Proof. intros (ks & S & F). exists ks. split; [|done]. rewrite <- (app_nil_r ks). apply sublist_app; [done|apply sublist_nil_l]. Qed.

Lemma in_order_init ok sigs keys s : in_order ok (sigs ++ [s]) keys -> in_order ok sigs keys.
Proof.
  intros (ks & S & F). apply Forall2_app_inv_l in F as (k1 & k2 & F1 & F2 & ->).
  exists k1. split; [|done]. etrans; [|exact S]. rewrite <- (app_nil_r k1) at 1.
  apply sublist_app; [done|apply sublist_nil_l].
Qed.

(** Matching the last signature with the last key whenever possible loses
    nothing. *)
Lemma in_order_snoc ok sigs keys s k :
  in_order ok (sigs ++ [s]) (keys ++ [k]) <->
  if ok s k then in_order ok sigs keys else in_order ok (sigs ++ [s]) keys.
Proof.
  split.
  - intros (ks & S & F). apply Forall2_app_inv_l in F as (k1 & k2 & F1 & F2 & ->).
    apply Forall2_cons_inv_l in F2 as (k' & k3 & Ok' & F3 & ->). inversion F3; subst; clear F3.
    apply sublist_app_r in S as (l1 & l2 & E & S1 & S2).
    apply sublist_cons_r in S2 as [S2|(l3 & -> & S3)].
    + apply sublist_nil_r in S2 as ->. rewrite app_nil_r in E. subst l1.
      assert (in_order ok (sigs ++ [s]) keys) as I.
      { exists (k1 ++ [k']). split; [done|]. apply Forall2_app; [done|]. by repeat constructor. }
      destruct (ok s k); [by eapply in_order_init|done].
    + apply sublist_nil_r in S3 as ->. apply app_inj_tail in E as (-> & ->). rewrite Ok'. by exists l1.
  - destruct (ok s k) eqn:E; [|apply in_order_weaken]. intros (ks & S & F).
    exists (ks ++ [k]). split; [by apply sublist_app|]. apply Forall2_app; [done|]. by repeat constructor.
Qed.

Lemma take_snoc (l : list (list byte)) n x : l !! n = Some x -> take (S n) l = take n l ++ [x].
Proof. apply take_S_r. Qed.

Lemma vec_at_nat (l : list (list byte)) n x : l !! n = Some x -> vec_at l (Z.of_nat n) = x.
Proof. intros E. unfold vec_at, get. by rewrite Nat2Z.id, E. Qed.

Lemma multisig_loop_spec check ok sigs keys rk rs :
  (forall s k, s ∈ sigs -> k ∈ keys -> check s k = Ok (ok s k)) ->
  (rk <= length keys)%nat -> (rs <= length sigs)%nat ->
  exists valid, multisig_loop check sigs keys rk rs = Ok valid /\
    (valid = true <-> in_order ok (take rs sigs) (take rk keys)).
Proof.
  intros H. revert rs; induction rk as [|rk IH]; intros [|rs] Lk Ls; cbn [multisig_loop].
  1, 3: exists true; split; [done|]; split; [intros _; apply in_order_nil|done].
  - exists false. split; [done|]. split; [done|]. intros I%in_order_length.
    rewrite !length_take in I. lia.
  - destruct (Nat.ltb_spec (S rk) (S rs)).
    { exists false. split; [done|]. split; [done|]. intros I%in_order_length.
      rewrite !length_take in I. lia. }
    destruct (lookup_lt_is_Some_2 sigs rs ltac:(lia)) as (s & Es).
    destruct (lookup_lt_is_Some_2 keys rk ltac:(lia)) as (k & Ek).
    rewrite (vec_at_nat _ _ _ Es), (vec_at_nat _ _ _ Ek).
    rewrite (H s k) by (by eapply list_elem_of_lookup_2).
    cbn [mbind result_bind].
    assert (in_order ok (take (S rs) sigs) (take (S rk) keys) <->
      if ok s k then in_order ok (take rs sigs) (take rk keys)
      else in_order ok (take (S rs) sigs) (take rk keys)) as Q.
    { rewrite (take_snoc _ _ _ Es), (take_snoc _ _ _ Ek). apply in_order_snoc. }
    destruct (ok s k).
    + destruct (IH rs ltac:(lia) ltac:(lia)) as (v & E & K). exists v. by rewrite Q.
    + destruct (IH (S rs) ltac:(lia) ltac:(lia)) as (v & E & K). exists v. by rewrite Q.
Qed.

(** ** Small numbers on the stack *)
Lemma encode_small n : 1 <= n <= 127 -> encode_script_number n = [z2b n].
Proof.
  intros Hn. assert (b2z (z2b n) = n) as B by (apply z2b_small; lia).
  destruct (encode_number_eq n [z2b n]) as (l & u & E & ->).
  - lia.
  - unfold stripped. cbn. intros [= Q]. rewrite Q in B. change (b2z x00) with 0 in B. lia.
  - cbn. lia.
  - cbn [from_le_bytes]. rewrite B. lia.
  - apply (app_inj_tail [] l) in E as (<- & <-). rewrite B, (proj2 (Z.leb_gt _ _)) by lia.
    by rewrite (proj2 (Z.ltb_ge _ _)) by lia.
Qed.

Lemma decode_small n minimal :
  0 <= n <= 127 -> decode_script_number (encode_script_number n) minimal 4 = Ok n.
Proof.
  intros Hn. destruct (encode_number_sound n) as (V & M); [unfold i64_min, i64_max; lia|].
  rewrite decode_number_spec, V; [done|lia| |done].
  destruct (Z.eq_dec n 0) as [->|]; [by vm_compute|]. rewrite encode_small by lia.
  by change (len [z2b n]) with 1.
Qed.

Section multisig.
Context {CR : Crypto} {SV : SignatureVerifier}.

(** The stack [OP_CHECKMULTISIG] expects above [rest]. *)
Definition multisig_stack (rest sigs keys : list (list byte)) : list (list byte) :=
  ((rest ++ [[]]) ++ sigs ++ [encode_script_number (len sigs)]) ++
  keys ++ [encode_script_number (len keys)].

Lemma drop_tail (l t : list (list byte)) : drop (Z.to_nat (len (l ++ t) - len t)) (l ++ t) = t.
Proof. rewrite len_app. replace (Z.to_nat _) with (length l) by (unfold len; lia). apply drop_app_length. Qed.
Lemma take_tail (l t : list (list byte)) : take (Z.to_nat (len (l ++ t) - len t)) (l ++ t) = l.
Proof. rewrite len_app. replace (Z.to_nat _) with (length l) by (unfold len; lia). apply take_app_length. Qed.

(** C24. [OP_CHECKMULTISIG] accepts exactly the in-order matchings: on a stack with
    an empty dummy, [m] signatures and [n] keys (at most 20, within the
    operation budget), when each signature check is decided the greedy loop
    reports valid exactly when the signatures match some of the keys in the
    same order; it pops its arguments and charges one operation per key, and an
    invalid set with a non-empty signature fails under NULLFAIL. *)
Theorem multisig_in_order tx index value subscript flags count rest sigs keys ok
    (Lk : len keys <= MAX_MULTISIG_PUBKEYS) (Ls : len sigs <= len keys)
    (B : 0 <= count /\ count + len keys <= MAX_SCRIPT_OPS)
    (D : forall s k, s ∈ sigs -> k ∈ keys ->
       check_signature tx index value subscript s k = Ok (ok s k)) :
  exists valid, (valid = true <-> in_order ok sigs keys) /\
    check_multisig (multisig_stack rest sigs keys) tx index value subscript flags count =
      if negb valid && flags_contains flags VERIFY_NULLFAIL && existsb (fun s => negb (len s =? 0)) sigs
      then Err NullFail else Ok (valid, rest, count + len keys).
Proof.
  destruct (multisig_loop_spec _ ok sigs keys (length keys) (length sigs) D) as (valid & E & I); [done..|].
  rewrite !firstn_all in I. exists valid. split; [done|].
  unfold MAX_MULTISIG_PUBKEYS, MAX_SCRIPT_OPS in *. pose proof (len_nonneg sigs). pose proof (len_nonneg keys).
  pose proof (len_nonneg rest).
  unfold check_multisig, multisig_stack. rewrite app_assoc, pop_snoc. cbn [mbind result_bind].
  rewrite decode_small by lia. cbn [mbind result_bind].
  rewrite (proj2 (Z.leb_le 0 (len keys))) by lia. cbn [assert_or mbind result_bind].
  rewrite (proj2 (Z.leb_le (len keys) _)) by (unfold MAX_MULTISIG_PUBKEYS; lia).
  cbn [assert_or mbind result_bind].
  unfold checked_add. rewrite (proj2 (Z.leb_le _ usize_max)) by ulia. cbn [ok_or mbind result_bind].
  rewrite (proj2 (Z.leb_le _ MAX_SCRIPT_OPS)) by (unfold MAX_SCRIPT_OPS; lia).
  cbn [assert_or mbind result_bind]. unfold require_stack, saturating_add.
  rewrite (proj2 (Z.leb_le _ (len (_ ++ keys)))) by (slen; ulia). cbn [assert_or mbind result_bind].
  rewrite drop_tail, take_tail, app_assoc, pop_snoc. cbn [mbind result_bind].
  rewrite decode_small by lia. cbn [mbind result_bind].
  rewrite (proj2 (Z.leb_le 0 (len sigs))) by lia. cbn [assert_or mbind result_bind].
  rewrite (proj2 (Z.leb_le (len sigs) (len keys))) by lia. cbn [assert_or mbind result_bind].
  rewrite (proj2 (Z.leb_le _ (len (_ ++ sigs)))) by (slen; ulia). cbn [assert_or mbind result_bind].
  rewrite drop_tail, take_tail, pop_snoc. cbn [mbind result_bind]. rewrite E. cbn [mbind result_bind].
  by destruct (negb valid && _ && _).
Qed.
End multisig.

(** ** Pay to public-key hash *)
Section p2pkh.
Context {CR : Crypto} {DG : ScriptDigests} {SV : SignatureVerifier}.

Definition p2pkh_instructions (hash : list byte) : list Instruction :=
  [mkInstruction OP_DUP None 0 1; mkInstruction OP_BLAKE160 None 1 2;
   mkInstruction 20 (Some hash) 2 23; mkInstruction OP_EQUALVERIFY None 23 24;
   mkInstruction OP_CHECKSIG None 24 25].

Lemma p2pkh_parses hash :
  length hash = 20%nat -> parse_script (pubkey_hash_script hash) = Ok (p2pkh_instructions hash).
Proof.
  intros L. assert (len hash = 20) as Lh by (unfold len; lia). apply parse_script_Ok.
  assert (len (pubkey_hash_script hash) = 25) as Ls.
  { unfold pubkey_hash_script. rewrite !len_app, Lh. done. }
  rewrite Ls. split; [by vm_compute|]. split; [|split].
  - repeat constructor; cbn [ins_opcode ins_data]; unfold OP_DUP, OP_BLAKE160, OP_EQUALVERIFY,
      OP_CHECKSIG, OP_PUSHDATA4, announces; rewrite ?Lh; lia.
  - unfold p2pkh_instructions, placed, instruction_bytes. cbn [ins_opcode ins_data ins_start ins_end].
    change (length_field 20 (len hash)) with (@nil byte). cbn [app]. autorewrite with lens.
    rewrite Lh. done.
  - done.
Qed.

Definition machine_of (stack : list (list byte)) (count : Z) : Machine := mkMachine stack [] [] count 0.

Section steps.
Context (script : list byte) (tx : Transaction) (index value flags : Z).

Lemma limit_ok (stack : list (list byte)) : len stack <= 1000 -> enforce_stack_limit stack [] = Ok tt.
Proof.
  intros. unfold enforce_stack_limit, saturating_add. rewrite len_nil.
  by rewrite (proj2 (Z.leb_le _ _)) by (unfold MAX_SCRIPT_STACK; lia).
Qed.

(** An executed opcode costs one operation. *)
Lemma active_step i stack alt conds c sep :
  ins_data i = None -> OP_16 < ins_opcode i -> is_disabled_opcode (ins_opcode i) = false ->
  all_true conds = true -> 0 <= c < MAX_SCRIPT_OPS ->
  execute_instruction script tx index value flags i (mkMachine stack alt conds c sep) =
    (m ← execute_opcode script tx index value flags i (mkMachine stack alt conds (c + 1) sep);
     enforce_stack_limit (m_stack m) (m_alt_stack m) ;; Ok m).
Proof.
  intros Ed Ho Nd A Hc. unfold MAX_SCRIPT_OPS in Hc. unfold execute_instruction.
  rewrite Ed, (proj2 (Z.ltb_lt _ _)), Nd by done. cbn [m_operation_count negb assert_or mbind result_bind].
  unfold checked_add. rewrite (proj2 (Z.leb_le (c + 1) usize_max)) by ulia.
  cbn [ok_or mbind result_bind].
  rewrite (proj2 (Z.leb_le (c + 1) _)) by (unfold MAX_SCRIPT_OPS; lia).
  cbn [assert_or mbind result_bind m_conditions]. by rewrite A.
Qed.

(** A minimal push costs none. *)
Lemma push_step i data stack alt conds c sep :
  ins_data i = Some data -> ins_opcode i <= 0x4b -> is_minimal_push (ins_opcode i) data = true ->
  len data <= MAX_SCRIPT_PUSH -> all_true conds = true ->
  execute_instruction script tx index value flags i (mkMachine stack alt conds c sep) =
    (enforce_stack_limit (push stack data) alt ;; Ok (mkMachine (push stack data) alt conds c sep)).
Proof.
  intros Ed Ho M L A. unfold execute_instruction.
  rewrite Ed, (proj2 (Z.ltb_ge MAX_SCRIPT_PUSH _)), (proj2 (Z.ltb_ge OP_16 _)) by (unfold OP_16; lia).
  cbn [m_operation_count negb assert_or mbind result_bind].
  assert (is_disabled_opcode (ins_opcode i) = false) as ->.
  { apply bool_decide_eq_false. unfold OP_CAT, OP_SUBSTR, OP_LEFT, OP_RIGHT, OP_INVERT, OP_AND, OP_OR,
      OP_XOR, OP_2MUL, OP_2DIV, OP_MUL, OP_DIV, OP_MOD, OP_LSHIFT, OP_RSHIFT.
    rewrite !elem_of_cons, elem_of_nil. lia. }
  cbn [negb assert_or mbind result_bind m_conditions]. rewrite A, M. cbn [negb andb].
  rewrite andb_false_r. done.
Qed.
End steps.

(** Dispatch the next opcode, and settle the machine behind it. *)
Ltac dispatch :=
  rewrite active_step by (done || by vm_compute);
  unfold execute_opcode; cbn [ins_opcode ins_end m_stack m_alt_stack m_conditions m_operation_count
    m_last_separator]; closed_cmp.
Ltac settle :=
  unfold on_stack, set_stack; cbn [mbind result_bind m_stack m_alt_stack m_conditions
    m_operation_count m_last_separator from_option id push app];
  rewrite ?limit_ok by (by vm_compute); cbn [mbind result_bind].

Lemma p2pkh_runs tx index value flags hash sig key :
  length hash = 20%nat ->
  execute_loop (pubkey_hash_script hash) tx index value flags (p2pkh_instructions hash)
    (machine_of [sig; key] 0) =
  (assert_or (bool_decide (blake2b 20 key = hash)) EqualVerify ;;
   valid ← check_signature tx index value (pubkey_hash_script hash) sig key;
   assert_or (negb (negb valid && flags_contains flags VERIFY_NULLFAIL && negb (len sig =? 0)))
     NullFail ;;
   Ok (machine_of (push_bool [] valid) 4)).
Proof.
  intros L. assert (len hash = 20) as Lh by (unfold len; lia).
  unfold p2pkh_instructions, machine_of. cbn [execute_loop].
  dispatch. unfold stack_op. closed_cmp.
  change (duplicate_tail [sig; key] 1) with (@Ok ScriptError _ [sig; key; key]). settle.
  dispatch. unfold stack_op, numeric_op, digest_op, digest_of. closed_cmp.
  change (is_unary OP_BLAKE160) with false. change (is_binary OP_BLAKE160) with false.
  change (is_digest OP_BLAKE160) with true. cbv iota.
  change (pop [sig; key; key]) with (@Ok ScriptError _ (key, [sig; key])). settle.
  rewrite (push_step _ _ _ _ _ _ hash);
    [|done|done| |unfold MAX_SCRIPT_PUSH; lia|done].
  2: { unfold is_minimal_push. rewrite Lh. by destruct hash as [|? []]. }
  settle. dispatch. unfold stack_op, numeric_op. closed_cmp.
  change (require_stack [sig; key; blake2b 20 key; hash] 2) with (@Ok ScriptError _ tt).
  cbn [mbind result_bind].
  change (pop [sig; key; blake2b 20 key; hash]) with (@Ok ScriptError _ (hash, [sig; key; blake2b 20 key])).
  cbn [mbind result_bind].
  change (pop [sig; key; blake2b 20 key]) with (@Ok ScriptError _ (blake2b 20 key, [sig; key])).
  cbn [mbind result_bind].
  destruct (bool_decide (blake2b 20 key = hash)); [|done]. cbn [assert_or mbind result_bind]. settle.
  dispatch. unfold checksig_op. cbn [m_stack m_last_separator].
  change (require_stack [sig; key] 2) with (@Ok ScriptError _ tt). cbn [mbind result_bind].
  change (pop [sig; key]) with (@Ok ScriptError _ (key, [sig])). cbn [mbind result_bind].
  change (pop [sig]) with (@Ok ScriptError _ (sig, @nil (list byte))). cbn [mbind result_bind].
  change (drop (Z.to_nat 0) (pubkey_hash_script hash)) with (pubkey_hash_script hash).
  destruct (check_signature tx index value (pubkey_hash_script hash) sig key) as [valid|]; [|done].
  cbn [mbind result_bind]. destruct (assert_or _ NullFail); [|done]. closed_cmp. by destruct valid.
Qed.

(** A check that succeeds had a 65-byte signature and a 33-byte key. *)
Lemma check_signature_true tx index value script sig key :
  check_signature tx index value script sig key = Ok true -> len sig = 65 /\ len key = 33.
Proof.
  unfold check_signature. intros H. apply bind_Ok in H as (c & C & H).
  apply bind_Ok in H as (u & K & H). apply assert_or_Ok, Z.eqb_eq in K. split; [|done].
  apply bind_Ok in H as (u' & _ & H). destruct (Z.eqb_spec (len sig) 0).
  - by injection C as <-.
  - apply bind_Ok in C as (u2 & S & _). apply assert_or_Ok, negb_true_iff, orb_false_iff in S as (S & _).
    by apply negb_false_iff, Z.eqb_eq in S.
Qed.

(** C19. A version-0 coin with a 20-byte hash is spent exactly by its key: the
    witness program verifies when, and only when, the witness is a signature
    and a public key, the key hashes to the coin's hash, and the signature is
    valid for the key over the signature hash of the implied script, whatever
    the flags. *)
Theorem p2pkh_spend_iff tx index coin flags input
    (Hi : 0 <= index) (I : get (tx_inputs tx) index = Some input)
    (E : in_previous_output input = coin_outpoint coin)
    (V : addr_version (coin_address coin) = x00) (L : len (addr_hash (coin_address coin)) = 20) :
  verify_witness_program tx index coin flags = Ok tt <->
  exists sig key, wit_items (in_witness input) = [sig; key] /\
    blake2b 20 key = addr_hash (coin_address coin) /\
    check_signature tx index (coin_value coin) (pubkey_hash_script (addr_hash (coin_address coin)))
      sig key = Ok true.
Proof.
  set (hash := addr_hash (coin_address coin)) in *.
  assert (length hash = 20%nat) as Lh by (unfold len in L; lia).
  unfold verify_witness_program, redeem_script. rewrite I. cbn [ok_or mbind result_bind].
  rewrite E, V. fold hash. rewrite L, bool_decide_eqb_refl. change (b2z x00) with 0.
  closed_cmp. cbn [assert_or mbind result_bind].
  destruct (wit_items (in_witness input)) as [|sig [|key [|x l]]] eqn:W.
  1, 2: split; [done|]; by intros (? & ? & ? & _).
  2: { split; [|by intros (? & ? & ? & _)]. pose proof (len_nonneg l). slen.
       destruct (_ <=? MAX_SCRIPT_STACK); [|done]. cbn [assert_or mbind result_bind].
       destruct (Z.eqb_spec (1 + (1 + (1 + len l))) 2); [lia|done]. }
  change (len [sig; key]) with 2. closed_cmp. cbn [assert_or mbind result_bind].
  unfold execute_script. assert (index < len (tx_inputs tx)) as Bi.
  { apply lookup_lt_Some in I. unfold len. lia. }
  rewrite (proj2 (Z.ltb_lt _ _)) by done. change (len [sig; key]) with 2. closed_cmp.
  cbn [assert_or mbind result_bind forallb]. rewrite (p2pkh_parses hash Lh), andb_true_r.
  cbn [mbind result_bind]. fold (machine_of [sig; key] 0). rewrite (p2pkh_runs _ _ _ _ _ _ _ Lh). split.
  - intros H. apply bind_Ok in H as (stk & H & T). apply bind_Ok in H as (u & _ & H).
    apply bind_Ok in H as (m & R & H). apply bind_Ok in R as (u1 & Q & R).
    apply bind_Ok in R as (valid & C & R). apply bind_Ok in R as (u2 & _ & [= <-]).
    apply bind_Ok in H as (u3 & _ & [= <-]). apply assert_or_Ok, bool_decide_eq_true in Q.
    exists sig, key. split; [done|]. split; [done|]. by destruct valid.
  - intros (? & ? & [= <- <-] & Q & C). destruct (check_signature_true _ _ _ _ _ _ C) as (-> & ->).
    rewrite bool_decide_eq_true_2, C by done. done.
Qed.

End p2pkh.

(** ** Stack operations as rearrangements

    What the fixed-arity opcodes do to the top of the stack, top last. *)
Inductive stack_effect : Z -> list (list byte) -> list (list byte) -> Prop :=
| eff_2drop a b : stack_effect OP_2DROP [a; b] []
| eff_2dup a b : stack_effect OP_2DUP [a; b] [a; b; a; b]
| eff_3dup a b c : stack_effect OP_3DUP [a; b; c] [a; b; c; a; b; c]
| eff_2over a b c d : stack_effect OP_2OVER [a; b; c; d] [a; b; c; d; a; b]
| eff_2rot a b c d e f : stack_effect OP_2ROT [a; b; c; d; e; f] [c; d; e; f; a; b]
| eff_2swap a b c d : stack_effect OP_2SWAP [a; b; c; d] [c; d; a; b]
| eff_drop a : stack_effect OP_DROP [a] []
| eff_dup a : stack_effect OP_DUP [a] [a; a]
| eff_nip a b : stack_effect OP_NIP [a; b] [b]
| eff_over a b : stack_effect OP_OVER [a; b] [a; b; a]
| eff_rot a b c : stack_effect OP_ROT [a; b; c] [b; c; a]
| eff_swap a b : stack_effect OP_SWAP [a; b] [b; a]
| eff_tuck a b : stack_effect OP_TUCK [a; b] [b; a; b].

Definition arity (opcode : Z) : option nat :=
  if opcode =? OP_2DROP then Some 2%nat
  else if opcode =? OP_2DUP then Some 2%nat
  else if opcode =? OP_3DUP then Some 3%nat
  else if opcode =? OP_2OVER then Some 4%nat
  else if opcode =? OP_2ROT then Some 6%nat
  else if opcode =? OP_2SWAP then Some 4%nat
  else if opcode =? OP_DROP then Some 1%nat
  else if opcode =? OP_DUP then Some 1%nat
  else if opcode =? OP_NIP then Some 2%nat
  else if opcode =? OP_OVER then Some 2%nat
  else if opcode =? OP_ROT then Some 3%nat
  else if opcode =? OP_SWAP then Some 2%nat
  else if opcode =? OP_TUCK then Some 2%nat
  else None.

(** Positions counted from the bottom of the known top of a stack. *)
Section top.
Context (rest args : list (list byte)).

Lemma take_at k : take (Z.to_nat (len rest + Z.of_nat k)) (rest ++ args) = rest ++ take k args.
Proof.
  replace (Z.to_nat _) with (length rest + k)%nat by (unfold len; lia). by rewrite take_app_add.
Qed.

Lemma drop_at k : drop (Z.to_nat (len rest + Z.of_nat k)) (rest ++ args) = drop k args.
Proof.
  replace (Z.to_nat _) with (length rest + k)%nat by (unfold len; lia). by rewrite drop_app_add.
Qed.

Lemma vec_at_top k x : args !! k = Some x -> vec_at (rest ++ args) (len rest + Z.of_nat k) = x.
Proof.
  intros E. unfold vec_at, get. replace (Z.to_nat _) with (length rest + k)%nat by (unfold len; lia).
  by rewrite lookup_app_r, Nat.add_comm, Nat.add_sub, E by lia.
Qed.

Lemma remove_at k x :
  args !! k = Some x ->
  vec_remove (rest ++ args) (len rest + Z.of_nat k) = (x, rest ++ (take k args ++ drop (S k) args)).
Proof.
  intros E. unfold vec_remove. rewrite (vec_at_top k x E), take_at.
  replace (S (Z.to_nat _)) with (length rest + S k)%nat by (unfold len; lia).
  by rewrite drop_app_add, app_assoc.
Qed.

Lemma insert_at k x :
  vec_insert (rest ++ args) (len rest + Z.of_nat k) x = rest ++ (take k args ++ x :: drop k args).
Proof. unfold vec_insert. by rewrite take_at, drop_at, <- app_assoc. Qed.

Lemma swap_at i j x y :
  args !! i = Some x -> args !! j = Some y ->
  vec_swap (rest ++ args) (len rest + Z.of_nat i) (len rest + Z.of_nat j) =
    rest ++ <[i := y]> (<[j := x]> args).
Proof.
  intros Ex Ey. unfold vec_swap. rewrite (vec_at_top j y Ey), (vec_at_top i x Ex).
  replace (Z.to_nat (len rest + Z.of_nat i)) with (length rest + i)%nat by (unfold len; lia).
  replace (Z.to_nat (len rest + Z.of_nat j)) with (length rest + j)%nat by (unfold len; lia).
  by rewrite !insert_app_r.
Qed.

Lemma slice_at i j :
  (i <= j)%nat ->
  slice (rest ++ args) (len rest + Z.of_nat i) (len rest + Z.of_nat j) = take (j - i) (drop i args).
Proof.
  intros. unfold slice. rewrite drop_at. f_equal. lia.
Qed.

Lemma duplicate_top : duplicate_tail (rest ++ args) (len args) = Ok (rest ++ (args ++ args)).
Proof.
  unfold duplicate_tail, require_stack. pose proof (len_nonneg rest).
  rewrite len_app, (proj2 (Z.leb_le _ _)) by lia. cbn [assert_or mbind result_bind].
  replace (len rest + len args - len args) with (len rest + Z.of_nat 0) by lia.
  change (len rest + len args) with (len rest + Z.of_nat (length args)). rewrite slice_at by lia. rewrite Nat.sub_0_r, drop_0, firstn_all, <- app_assoc. done.
Qed.

Lemma require_top n : n <= len args -> require_stack (rest ++ args) n = Ok tt.
Proof.
  intros. unfold require_stack. pose proof (len_nonneg rest).
  by rewrite len_app, (proj2 (Z.leb_le _ _)) by lia.
Qed.
End top.

(** Express the positions of the goal relative to the known top. *)
Ltac top_positions :=
  repeat match goal with
  | |- context [len (?r ++ ?l) - ?k] =>
    let n := eval vm_compute in (len l) in
    let j := eval vm_compute in (Z.to_nat (n - k)) in
    replace (len (r ++ l) - k) with (len r + Z.of_nat j) by (rewrite len_app; change (len l) with n; lia)
  end.

Lemma stack_effect_runs flags op rest args results :
  stack_effect op args results -> stack_op flags op (rest ++ args) = Some (Ok (rest ++ results)).
Proof.
  destruct 1; unfold stack_op; closed_cmp; f_equal.
  all: try (rewrite require_top by (by vm_compute); cbn [mbind result_bind]); top_positions.
  - unfold vec_truncate. by rewrite take_at.
  - apply (duplicate_top rest [a; b]).
  - apply (duplicate_top rest [a; b; c]).
  - by rewrite slice_at, <- app_assoc by lia.
  - rewrite (remove_at _ _ 0 a) by done. cbn [take drop app]. rewrite (remove_at _ _ 0 b) by done.
    unfold push. by rewrite <- !app_assoc.
  - rewrite (swap_at _ _ 0 2 a c) by done. cbn. by rewrite (swap_at _ _ 1 3 b d) by done.
  - by rewrite pop_snoc, app_nil_r.
  - apply (duplicate_top rest [a]).
  - by rewrite (remove_at _ _ 0 a) by done.
  - rewrite (vec_at_top _ _ 0 a) by done. unfold push. by rewrite <- app_assoc.
  - rewrite (remove_at _ _ 0 a) by done. unfold push. by rewrite <- app_assoc.
  - by rewrite (swap_at _ _ 0 1 a b) by done.
  - by rewrite (vec_at_top _ _ 1 b), insert_at by done.
Qed.

Lemma stack_effect_exists op k args :
  arity op = Some k -> length args = k -> exists results, stack_effect op args results.
Proof.
  unfold arity. intros A L.
  repeat match goal with
  | H : (if ?op =? ?c then _ else _) = Some _ |- _ =>
    destruct (Z.eqb_spec op c) as [->|]; [injection H as <-|]
  end; [..|done].
  all: repeat (destruct args as [|? args]; try discriminate L).
  all: eexists; constructor.
Qed.

Lemma stack_effect_underflow flags op k (stack : list (list byte)) :
  arity op = Some k -> (length stack < k)%nat ->
  stack_op flags op stack = Some (Err InvalidStackOperation).
Proof.
  unfold arity. intros A L.
  assert (forall n, Z.of_nat k = n -> require_stack stack n = Err InvalidStackOperation) as R.
  { intros n <-. unfold require_stack. by rewrite (proj2 (Z.leb_gt _ _)) by (unfold len; lia). }
  repeat match goal with
  | H : (if ?op =? ?c then _ else _) = Some _ |- _ =>
    destruct (Z.eqb_spec op c) as [->|]; [injection H as <-|]
  end; [..|done].
  all: unfold stack_op; closed_cmp; unfold duplicate_tail; rewrite ?R by done; try done.
  destruct stack; [done|cbn in L; lia].
Qed.

(** The thirteen fixed-arity stack opcodes are exactly the rearrangements of
    Bitcoin script: with too few items each fails with an invalid stack
    operation, and otherwise it replaces the top items by the documented
    rearrangement of them and leaves the rest of the stack alone. *)
Theorem stack_op_effects flags op k stack (A : arity op = Some k) :
  ((length stack < k)%nat -> stack_op flags op stack = Some (Err InvalidStackOperation)) /\
  ((k <= length stack)%nat ->
   exists rest args results, stack = rest ++ args /\ stack_effect op args results /\
     stack_op flags op stack = Some (Ok (rest ++ results))).
Proof.
  split; [by apply stack_effect_underflow|]. intros L.
  rewrite <- (take_drop (length stack - k) stack).
  set (rest := take (length stack - k) stack). set (args := drop (length stack - k) stack).
  assert (length args = k) as La by (subst args; rewrite length_drop; lia).
  destruct (stack_effect_exists op k args A La) as (results & E).
  exists rest, args, results. split; [done|]. split; [done|]. by apply stack_effect_runs.
Qed.

(** ** Bounds of the machine *)
Definition items_ok (l : list (list byte)) : Prop := Forall (fun x => len x <= MAX_SCRIPT_PUSH) l.

Lemma encode_number_len v : len (encode_script_number v) <= 9.
Proof.
  assert (forall n m, (length (magnitude_bytes n m) <= n)%nat) as K.
  { induction n as [|n IH]; intros m; cbn; [lia|]. destruct (m =? 0); cbn; [lia|].
    specialize (IH (Z.shiftr m 8)). lia. }
  pose proof (K 8%nat (Z.abs v)). unfold encode_script_number, len. cbv zeta.
  destruct (v =? 0); [cbn; lia|]. destruct (last _); [|lia].
  repeat case_match; rewrite ?length_app, ?length_take; cbn [length]; lia.
Qed.

Lemma items_push l x : items_ok l -> len x <= MAX_SCRIPT_PUSH -> items_ok (push l x).
Proof. intros. apply Forall_app. split; [done|]. by apply Forall_singleton. Qed.
Lemma items_number l v : items_ok l -> items_ok (push l (encode_script_number v)).
Proof. intros. apply items_push; [done|]. pose proof (encode_number_len v). unfold MAX_SCRIPT_PUSH. lia. Qed.
Lemma items_bool l b : items_ok l -> items_ok (push_bool l b).
Proof. intros. apply items_push; [done|]. by destruct b. Qed.
Lemma items_take n l : items_ok l -> items_ok (take n l).
Proof. apply Forall_take. Qed.
Lemma items_drop n l : items_ok l -> items_ok (drop n l).
Proof. apply Forall_drop. Qed.
Lemma items_app a b : items_ok a -> items_ok b -> items_ok (a ++ b).
Proof. intros. by apply Forall_app. Qed.
Lemma items_slice l a b : items_ok l -> items_ok (slice l a b).
Proof. intros. by apply items_take, items_drop. Qed.
Lemma items_at l i : items_ok l -> len (vec_at l i) <= MAX_SCRIPT_PUSH.
Proof.
  intros F. unfold vec_at. destruct (get l i) as [x|] eqn:E; [|done]. cbn.
  exact (proj1 (Forall_lookup _ _) F _ _ E).
Qed.
Lemma items_swap l i j : items_ok l -> items_ok (vec_swap l i j).
Proof. intros. unfold vec_swap. apply Forall_insert; [apply Forall_insert; [done|]|]; by apply items_at. Qed.
Lemma items_insert l i x : items_ok l -> len x <= MAX_SCRIPT_PUSH -> items_ok (vec_insert l i x).
Proof. intros. apply items_app; [by apply items_take|]. constructor; [done|]. by apply items_drop. Qed.
Lemma items_remove l i x l' :
  items_ok l -> vec_remove l i = (x, l') -> items_ok l' /\ len x <= MAX_SCRIPT_PUSH.
Proof.
  intros F [= <- <-]. split; [|by apply items_at]. apply items_app; [by apply items_take|by apply items_drop].
Qed.
Lemma items_pop l x l' : items_ok l -> vec_pop l = Some (x, l') -> items_ok l' /\ len x <= MAX_SCRIPT_PUSH.
Proof. intros F ->%vec_pop_Some. apply Forall_app in F as (? & F). by apply Forall_cons in F as (? & _). Qed.
Lemma items_pop_Ok l x l' : items_ok l -> pop l = Ok (x, l') -> items_ok l' /\ len x <= MAX_SCRIPT_PUSH.
Proof. unfold pop. intros F E%ok_or_Ok. by eapply items_pop. Qed.
Lemma items_pop_number flags l n l' : items_ok l -> pop_number flags l = Ok (n, l') -> items_ok l'.
Proof.
  unfold pop_number. intros F H. apply bind_Ok in H as ((x & s) & P & H).
  apply bind_Ok in H as (v & _ & [= <- <-]). by eapply items_pop_Ok in P as (? & _).
Qed.
Lemma items_last l x : items_ok l -> last l = Some x -> len x <= MAX_SCRIPT_PUSH.
Proof. intros F E. destruct l as [|y l _] using rev_ind; [done|]. rewrite last_snoc in E. injection E as <-. apply Forall_app in F as (_ & F). by apply Forall_cons in F as (? & _). Qed.
Create HintDb items.
#[local] Hint Resolve items_push items_number items_bool items_take items_drop items_app items_slice
  items_at items_swap items_insert : items.

(** Split on the next arm of a dispatch. *)
Ltac arm H := match type of H with (if ?c then _ else _) = _ => destruct c end.

(** Break a successful step of a stack operation. *)
Ltac inv_items :=
  repeat match goal with
  | H : Some _ = Some _ |- _ => injection H as H
  | H : None = Some _ |- _ => discriminate H
  | H : Ok _ = Ok _ |- _ => injection H as H; subst
  | H : Err _ = Ok _ |- _ => discriminate H
  | H : _ ≫= _ = Ok _ |- _ => let p := fresh in apply bind_Ok in H as (p & ? & H); try destruct p
  | F : items_ok ?l, H : pop ?l = Ok _ |- _ => apply (items_pop_Ok _ _ _ F) in H as (? & ?)
  | F : items_ok ?l, H : pop_number _ ?l = Ok _ |- _ => apply (items_pop_number _ _ _ _ F) in H
  | H : ok_or _ _ = Ok _ |- _ => apply ok_or_Ok in H
  | F : items_ok ?l, H : last ?l = Some _ |- _ => apply (items_last _ _ F) in H
  | H : context [vec_remove ?l ?i] |- _ =>
    let x := fresh "x" in let l' := fresh "l" in let E := fresh in
    destruct (vec_remove l i) as (x & l') eqn:E; cbn [fst snd] in H;
    match goal with F : items_ok l |- _ => apply (items_remove _ _ _ _ F) in E as (? & ?) end
  end.

Lemma stack_op_items flags op s s' :
  items_ok s -> stack_op flags op s = Some (Ok s') -> items_ok s'.
Proof.
  intros F H. unfold stack_op, duplicate_tail, pick_or_roll, vec_truncate in H.
  repeat match type of H with (if ?c then _ else _) = _ => destruct c end; inv_items; eauto with items.
  all: repeat match goal with H : (if ?c then _ else _) = _ |- _ => destruct c end; inv_items; eauto with items.
  all: repeat case_match; inv_items; simplify_eq; eauto with items.
  all: repeat first [apply items_push | apply items_app | apply items_take | apply items_drop | apply items_at | done].
Qed.

Lemma numeric_op_items flags op s s' :
  items_ok s -> numeric_op flags op s = Some (Ok s') -> items_ok s'.
Proof.
  intros F H. unfold numeric_op in H.
  repeat match type of H with (if ?c then _ else _) = _ => destruct c end; inv_items; eauto with items.
  all: repeat match goal with H : (if ?c then _ else _) = _ |- _ => destruct c end; inv_items; eauto with items.
Qed.

Section bounds.
Context {CR : Crypto} {DG : ScriptDigests} {SV : SignatureVerifier}.

Lemma digest_op_items op s s' : items_ok s -> digest_op op s = Some (Ok s') -> items_ok s'.
Proof.
  intros F H. unfold digest_op in H. destruct (is_digest op); [|done]. inv_items.
  apply items_push; [done|]. unfold digest_of, MAX_SCRIPT_PUSH, len.
  repeat case_match; cbn; rewrite ?blake2b_length, ?sha3_256_length, ?keccak256_length,
    ?ripemd160_length, ?sha1_length, ?sha256_length; lia.
Qed.

(** The bounds the interpreter keeps. *)
Record machine_ok (script : list byte) (m : Machine) : Prop := {
  mo_stack : items_ok (m_stack m);
  mo_alt : items_ok (m_alt_stack m);
  mo_depth : len (m_stack m) + len (m_alt_stack m) <= MAX_SCRIPT_STACK;
  mo_count : 0 <= m_operation_count m <= MAX_SCRIPT_OPS;
  mo_separator : 0 <= m_last_separator m <= len script;
}.

(** All but the depth, which is enforced after each instruction. *)
Definition machine_pre (script : list byte) (m : Machine) : Prop :=
  items_ok (m_stack m) /\ items_ok (m_alt_stack m) /\
  0 <= m_operation_count m <= MAX_SCRIPT_OPS /\ 0 <= m_last_separator m <= len script.

Section run.
Context (script : list byte) (tx : Transaction) (index value flags : Z).

Lemma check_multisig_items stack sub count valid stack' count' :
  items_ok stack -> 0 <= count ->
  check_multisig stack tx index value sub flags count = Ok (valid, stack', count') ->
  items_ok stack' /\ 0 <= count' <= MAX_SCRIPT_OPS.
Proof.
  intros F Hc H. unfold check_multisig in H.
  apply bind_Ok in H as ((top & s1) & P1 & H). apply (items_pop_Ok _ _ _ F) in P1 as (F1 & _).
  apply bind_Ok in H as (kc & _ & H). apply bind_Ok in H as (u1 & K0 & H).
  apply bind_Ok in H as (u2 & _ & H). apply bind_Ok in H as (oc & O & H).
  apply bind_Ok in H as (u3 & O1 & H). apply bind_Ok in H as (u4 & _ & H).
  apply bind_Ok in H as ((top2 & s2) & P2 & H).
  apply (items_pop_Ok _ _ _ (items_take _ _ F1)) in P2 as (F2 & _).
  apply bind_Ok in H as (sc & _ & H). apply bind_Ok in H as (u5 & _ & H).
  apply bind_Ok in H as (u6 & _ & H). apply bind_Ok in H as (u7 & _ & H).
  apply bind_Ok in H as ((dm & s3) & P3 & H).
  apply (items_pop_Ok _ _ _ (items_take _ _ F2)) in P3 as (F3 & _).
  apply bind_Ok in H as (vd & _ & H). apply bind_Ok in H as (u8 & _ & H).
  apply bind_Ok in H as (u9 & _ & H). injection H as <- <- <-.
  apply ok_or_Ok, checked_add_Some in O as (-> & _).
  apply assert_or_Ok, Z.leb_le in K0, O1. split; [done|lia].
Qed.

Lemma execute_opcode_pre i m m' :
  0 <= ins_end i <= len script -> machine_pre script m ->
  execute_opcode script tx index value flags i m = Ok m' -> machine_pre script m'.
Proof.
  intros Ie (F & Fa & C & S) H. unfold execute_opcode in H. cbv zeta in H.
  assert (forall s, items_ok s -> machine_pre script (set_stack m s)) as Kset
    by (intros; unfold machine_pre; cbn; tauto).
  assert (forall r, (forall s, r = Some (Ok s) -> items_ok s) ->
    forall x, r = Some x -> on_stack m x = Ok m' -> machine_pre script m') as Kon.
  { intros r Kr x -> H'. unfold on_stack in H'. apply bind_Ok in H' as (s & -> & [= <-]). by apply Kset, Kr. }
  repeat match type of H with
  | (if ?c then Ok (set_stack _ _) else _) = _ =>
    destruct c; [injection H as <-; apply Kset; first [by eauto with items | by apply items_push]|]
  end.
  arm H; [by injection H as <-|].
  repeat match type of H with
  | (if ?c then Ok (set_stack _ _) else _) = _ =>
    destruct c; [injection H as <-; apply Kset; first [by eauto with items | by apply items_push]|]
  | (if ?c then (_ ≫= fun _ => Ok m) else _) = _ =>
    destruct c; [by apply bind_Ok in H as (? & _ & [= <-])|]
  end.
  arm H.
  { unfold branch_op in H. arm H; [|by injection H as <-].
    apply bind_Ok in H as ((x & s) & P & H). apply bind_Ok in H as (u & _ & [= <-]).
    apply ok_or_Ok, (items_pop _ _ _ F) in P as (P & _). unfold machine_pre. cbn. tauto. }
  arm H; [unfold else_op in H; case_match; [by injection H as <-|done]|].
  arm H; [unfold endif_op in H; case_match; [by injection H as <-|done]|].
  arm H.
  { apply bind_Ok in H as ((x & s) & P & H). apply bind_Ok in H as (u & _ & [= <-]).
    apply (items_pop_Ok _ _ _ F) in P as (P & _). by apply Kset. }
  arm H; [done|].
  arm H.
  { apply bind_Ok in H as ((x & s) & P & [= <-]). apply (items_pop_Ok _ _ _ F) in P as (P & L).
    unfold machine_pre. cbn. pose proof (items_push _ _ Fa L). tauto. }
  arm H.
  { apply bind_Ok in H as ((x & s) & P & [= <-]). apply ok_or_Ok, (items_pop _ _ _ Fa) in P as (P & L).
    unfold machine_pre. cbn. pose proof (items_push _ _ F L). tauto. }
  arm H; [injection H as <-; unfold machine_pre; cbn; tauto|].
  arm H.
  { unfold checksig_op in H. apply bind_Ok in H as (u & _ & H). apply bind_Ok in H as ((x & s) & P & H).
    apply (items_pop_Ok _ _ _ F) in P as (F1 & _). apply bind_Ok in H as ((y & s2) & P2 & H).
    apply (items_pop_Ok _ _ _ F1) in P2 as (F2 & _). apply bind_Ok in H as (v & _ & H).
    apply bind_Ok in H as (u2 & _ & H). arm H.
    - apply bind_Ok in H as (u3 & _ & [= <-]). by apply Kset.
    - injection H as <-. apply Kset. by apply items_bool. }
  arm H.
  { unfold checkmultisig_op in H. apply bind_Ok in H as ([[v s] oc] & P & H).
    apply check_multisig_items in P as (Fs & Co); [|done|tauto]. cbv zeta in H.
    arm H.
    - apply bind_Ok in H as (u3 & _ & [= <-]). unfold machine_pre. cbn. tauto.
    - injection H as <-. pose proof (items_bool _ v Fs). unfold machine_pre. cbn. tauto. }
  pose proof (fun s => stack_op_items flags (ins_opcode i) (m_stack m) s F) as K1.
  pose proof (fun s => numeric_op_items flags (ins_opcode i) (m_stack m) s F) as K2.
  pose proof (fun s => digest_op_items (ins_opcode i) (m_stack m) s F) as K3.
  destruct (stack_op _ _ _) as [r|]; [exact (Kon _ K1 r eq_refl H)|].
  destruct (numeric_op _ _ _) as [r|]; [exact (Kon _ K2 r eq_refl H)|].
  destruct (digest_op _ _) as [r|]; [exact (Kon _ K3 r eq_refl H)|done].
Qed.

Lemma execute_instruction_ok i m m' :
  0 <= ins_end i <= len script -> machine_ok script m ->
  execute_instruction script tx index value flags i m = Ok m' -> machine_ok script m'.
Proof.
  intros Ie [F Fa D C S] H. unfold execute_instruction in H.
  apply bind_Ok in H as (u & P & H). apply assert_or_Ok in P.
  apply bind_Ok in H as (oc & O & H). cbv zeta in H. apply bind_Ok in H as (u1 & _ & H).
  apply bind_Ok in H as (m1 & X & H). apply bind_Ok in H as (u2 & L & [= <-]).
  assert (0 <= oc <= MAX_SCRIPT_OPS) as Co.
  { arm O; [|by injection O as <-]. apply bind_Ok in O as (c & A & O).
    apply bind_Ok in O as (u3 & B & [= <-]). apply ok_or_Ok, checked_add_Some in A as (-> & _).
    apply assert_or_Ok, Z.leb_le in B. lia. }
  assert (machine_pre script m1) as (F1 & Fa1 & C1 & S1).
  { arm X; [injection X as <-; by split|]. destruct (ins_data i) as [d|].
    - apply bind_Ok in X as (u3 & _ & [= <-]). apply negb_true_iff, Z.ltb_ge in P.
      split; [|done]. by apply items_push.
    - eapply execute_opcode_pre; [done| |exact X]. by split. }
  apply assert_or_Ok, Z.leb_le in L. split; try done. unfold saturating_add in L.
  unfold MAX_SCRIPT_STACK in *. ulia.
Qed.

Lemma execute_loop_ok instrs o m m' :
  0 <= o -> placed o instrs -> suffix script o = mjoin (instruction_bytes <$> instrs) ->
  o <= len script -> machine_ok script m ->
  execute_loop script tx index value flags instrs m = Ok m' -> machine_ok script m'.
Proof.
  revert o m; induction instrs as [|i instrs IH]; intros o m Ho P E L M H; [by injection H as <-|].
  cbn [execute_loop] in H. apply bind_Ok in H as (m1 & X & H). destruct P as (St & En & P).
  rewrite fmap_cons', join_cons in E. pose proof (suffix_len script o ltac:(lia)) as Ls.
  rewrite E, len_app in Ls. pose proof (len_nonneg (mjoin (instruction_bytes <$> instrs))).
  pose proof (instruction_bytes_len i).
  apply (IH (ins_end i) m1); [lia|done| |lia| |done].
  - rewrite En. apply suffix_app; [lia|done].
  - eapply execute_instruction_ok; [|exact M|exact X]. lia.
Qed.
End run.

(** C25. Execution stays within the consensus limits: whatever script, witness
    stack, flags and signature back end, every machine reached at the end of a
    run that starts on admissible items holds at most 1,000 items of at most
    520 bytes on its two stacks, has counted at most 201 operations, and its
    code separator lies inside the script, so the subscript slice is in range. *)
Theorem execution_within_limits script tx index value flags instrs stack m
    (P : parse_script script = Ok instrs) (L : len stack <= MAX_SCRIPT_STACK)
    (F : items_ok stack)
    (H : execute_loop script tx index value flags instrs (mkMachine stack [] [] 0 0) = Ok m) :
  machine_ok script m.
Proof.
  apply parse_script_Ok in P as (Ls & _ & Pl & E).
  eapply (execute_loop_ok script tx index value flags instrs 0); try done.
  - apply len_nonneg.
  - pose proof (len_nonneg script). split; cbn; try done; try (unfold MAX_SCRIPT_OPS; lia).
    + constructor.
    + rewrite len_nil. lia.
Qed.
End bounds.

(** ** Examples

    A back end that accepts a signature whose first byte names the key's second
    byte, and digests from the example hash. *)
Definition toy_verifier : SignatureVerifier := {|
  validate_compact_signature := fun _ => Ok tt;
  verify_signature := fun _ sig key => Ok (bool_decide (head sig = head (tail key)));
  is_consensus_complete := false;
|}.

Definition toy_digests : ScriptDigests := {|
  keccak256 := toy_digest 32;
  ripemd160 := toy_digest 20;
  sha1 := toy_digest 20;
  sha256 := toy_digest 32;
  keccak256_length := fun _ => length_to_le_bytes 32 _;
  ripemd160_length := fun _ => length_to_le_bytes 20 _;
  sha1_length := fun _ => length_to_le_bytes 20 _;
  sha256_length := fun _ => length_to_le_bytes 32 _;
|}.

Definition key_of (n : Z) : list byte := x02 :: z2b n :: zeros 31.
Definition sig_of (n : Z) : list byte := z2b n :: zeros 63 ++ [x01].

Definition spend_coin : Coin :=
  mkCoin (mkOutpoint (zeros 32) 3) 6000 10 false (mkAddress x00 (toy_digest 20 (key_of 5)))
    (mkCovenant KNone []).
Definition spend_input : Input := mkInput (mkOutpoint (zeros 32) 3) u32_max (mkWitness [sig_of 5; key_of 5]).
Definition spend_tx : Transaction := mkTransaction 0 [spend_input] [seller_payment] 0.

Lemma p2pkh_spend_iff_witness :
  @verify_witness_program toy_crypto toy_digests toy_verifier spend_tx 0 spend_coin FLAGS_STANDARD = Ok tt.
Proof.
  apply (@p2pkh_spend_iff toy_crypto toy_digests toy_verifier spend_tx 0 spend_coin FLAGS_STANDARD
    spend_input); [lia|reflexivity..|].
  exists (sig_of 5), (key_of 5). split; [reflexivity|]. split; [reflexivity|]. vm_compute. reflexivity.
Defined.

(** Two of three: the first and the last key signed. *)
Lemma multisig_in_order_witness :
  exists valid,
    (valid = true <-> in_order (fun s k => bool_decide (head s = head (tail k)))
                        [sig_of 1; sig_of 3] [key_of 1; key_of 2; key_of 3]) /\
    @check_multisig toy_crypto toy_verifier
      (multisig_stack [] [sig_of 1; sig_of 3] [key_of 1; key_of 2; key_of 3]) spend_tx 0 6000 [] 0 1 =
      if negb valid && flags_contains 0 VERIFY_NULLFAIL
         && existsb (fun s => negb (len s =? 0)) [sig_of 1; sig_of 3]
      then Err NullFail else Ok (valid, [], 4).
Proof.
  apply (@multisig_in_order toy_crypto toy_verifier spend_tx 0 6000 [] 0 1 []
    [sig_of 1; sig_of 3] [key_of 1; key_of 2; key_of 3]).
  - by vm_compute.
  - by vm_compute.
  - by vm_compute.
  - intros s k Hs Hk.
    repeat match goal with
    | H : _ ∈ _ :: _ |- _ => apply elem_of_cons in H as [->|H]
    | H : _ ∈ [] |- _ => by apply not_elem_of_nil in H
    end; vm_compute; reflexivity.
Defined.

(** [OP_2 OP_3 OP_ADD OP_5 OP_EQUAL] *)
Definition sum_script : list byte := octets [0x52; 0x53; OP_ADD; 0x55; OP_EQUAL].

Definition run_of (script : list byte) : result ScriptError Machine :=
  instrs ← parse_script script;
  @execute_loop toy_crypto toy_digests toy_verifier script spend_tx 0 6000 0 instrs
    (mkMachine [] [] [] 0 0).

Lemma execution_within_limits_witness :
  exists m, run_of sum_script = Ok m /\ m_stack m = [[x01]] /\ machine_ok sum_script m.
Proof.
  eexists. split; [vm_compute; reflexivity|]. split; [reflexivity|].
  eapply (@execution_within_limits toy_crypto toy_digests toy_verifier sum_script spend_tx 0 6000 0
    (match parse_script sum_script with Ok instrs => instrs | Err _ => [] end) []);
    [vm_compute; reflexivity|by vm_compute|apply Forall_nil; exact I|vm_compute; reflexivity].
Defined.

Lemma stack_op_effects_witness :
  stack_op 0 OP_ROT [[x01]; [x02]] = Some (Err InvalidStackOperation).
Proof. apply (stack_op_effects 0 OP_ROT 3 [[x01]; [x02]]); [reflexivity|cbn; lia]. Defined.
