(* ===== verification/Cbor.v ===== *)
(** * hns-hrm: deterministic CBOR

    The strict CBOR subset of HRM objects (cbor.rs): the value type, the
    allocation and recursion limits, the encoder and the decoder. The recursion of
    [value] passes a depth that is compared with [max_depth] on entry; here it is
    the number of levels still allowed, so zero levels is the [Depth] error and no
    fuel is needed. A Rust [String] is its UTF-8 bytes. *)

From Stdlib Require Import Sorting.Sorted.
From S2P Require Import Prelude.
Local Open Scope Z_scope.

(** ** UTF-8, as [std::str::from_utf8] accepts it *)
Definition in_range (b : byte) (lo hi : Z) : bool := (lo <=? b2z b) && (b2z b <=? hi).

(** The continuation bytes a first byte asks for: the range of the second one,
    and how many more follow it. *)
Definition utf8_first (b : byte) : option (Z * Z * nat) :=
  if in_range b 0xc2 0xdf then Some (0x80, 0xbf, 0%nat)
  else if in_range b 0xe0 0xe0 then Some (0xa0, 0xbf, 1%nat)
  else if in_range b 0xe1 0xec then Some (0x80, 0xbf, 1%nat)
  else if in_range b 0xed 0xed then Some (0x80, 0x9f, 1%nat)
  else if in_range b 0xee 0xef then Some (0x80, 0xbf, 1%nat)
  else if in_range b 0xf0 0xf0 then Some (0x90, 0xbf, 2%nat)
  else if in_range b 0xf1 0xf3 then Some (0x80, 0xbf, 2%nat)
  else if in_range b 0xf4 0xf4 then Some (0x80, 0x8f, 2%nat)
  else None.

(** The pending continuation bytes: a range for the next one and how many follow. *)
Fixpoint utf8_from (pending : option (Z * Z * nat)) (bs : list byte) : bool :=
  match bs, pending with
  | [], None => true
  | [], Some _ => false
  | b :: bs, None =>
    if in_range b 0 0x7f then utf8_from None bs
    else match utf8_first b with Some p => utf8_from (Some p) bs | None => false end
  | b :: bs, Some (lo, hi, more) =>
    in_range b lo hi &&
    utf8_from (match more with O => None | S more => Some (0x80, 0xbf, more) end) bs
  end.
Definition from_utf8_ok (bs : list byte) : bool := utf8_from None bs.

(** ** Values and limits *)
Inductive Value :=
| VUnsigned (n : Z)
| VNegative (n : Z)
| VBytes (bs : list byte)
| VText (text : list byte)
| VArray (values : list Value)
| VMap (fields : list (Z * Value))
| VBool (b : bool)
| VNull.

Record DecodeLimits := mkLimits {
  max_depth : Z;
  max_items : Z;
  max_bytes : Z;
  max_array_len : Z;
  max_map_len : Z;
  max_string_bytes : Z;
}.

Definition DecodeLimits_default : DecodeLimits := mkLimits 32 1048576 1048576 4096 4096 1048576.

Inductive CborError :=
| InvalidLimits (reason : string)
| CborEmpty
| CborTooLarge
| CborTruncated
| NonPreferred
| CborUnsupported
| CborFloat
| CborIndefinite
| CborUtf8
| CborDepth
| CborItems
| CborContainer
| CborString
| CborMapKey
| NegativeRange
| CborTrailing.

Definition validate_limits (limits : DecodeLimits) : result CborError unit :=
  assert_or (negb (max_depth limits =? 0)) (InvalidLimits "max_depth must be nonzero") ;;
  assert_or (negb (max_items limits =? 0)) (InvalidLimits "max_items must be nonzero") ;;
  assert_or (negb (max_bytes limits =? 0)) (InvalidLimits "max_bytes must be nonzero").

(** A method on [&mut self]; the object is dropped with its error. *)
Definition stM (S E A : Type) : Type := S -> result E (A * S).
#[global] Instance stM_ret {S E} : MRet (stM S E) := fun _ a s => Ok (a, s).
#[global] Instance stM_bind {S E} : MBind (stM S E) :=
  fun _ _ f m s => match m s with Ok (a, s') => f a s' | Err e => Err e end.
Definition st_fail {S E A} (e : E) : stM S E A := fun _ => Err e.
Definition st_lift {S E A} (r : result E A) : stM S E A :=
  fun s => match r with Ok a => Ok (a, s) | Err e => Err e end.

(** ** The encoder *)
Definition encode_head (major argument : Z) : list byte :=
  let prefix := Z.shiftl major 5 in
  if argument <=? 23 then [z2b (Z.lor prefix argument)]
  else if argument <=? 0xff then [z2b (Z.lor prefix 24); z2b argument]
  else if argument <=? 0xffff then z2b (Z.lor prefix 25) :: to_be_bytes 2 argument
  else if argument <=? 0xffffffff then z2b (Z.lor prefix 26) :: to_be_bytes 4 argument
  else z2b (Z.lor prefix 27) :: to_be_bytes 8 argument.

Record CborEncoder := mkCborEncoder {
  ce_output : list byte;
  ce_limits : DecodeLimits;
  ce_items : Z;
}.

Definition encM := stM CborEncoder CborError.

Definition CborEncoder_bump_item : encM unit := fun e =>
  let items := saturating_add usize_max (ce_items e) 1 in
  if max_items (ce_limits e) <? items then Err CborItems
  else Ok (tt, mkCborEncoder (ce_output e) (ce_limits e) items).

Definition CborEncoder_ensure_future_items (additional : Z) : encM unit := fun e =>
  if max_items (ce_limits e) <? saturating_add usize_max (ce_items e) additional then Err CborItems
  else Ok (tt, e).

Definition CborEncoder_string_len (length : Z) : encM unit := fun e =>
  if max_string_bytes (ce_limits e) <? length then Err CborString else Ok (tt, e).

Definition CborEncoder_extend (bytes : list byte) : encM unit := fun e =>
  match checked_add usize_max (len (ce_output e)) (len bytes) with
  | None => Err CborTooLarge
  | Some new_len =>
    if max_bytes (ce_limits e) <? new_len then Err CborTooLarge
    else Ok (tt, mkCborEncoder (ce_output e ++ bytes) (ce_limits e) (ce_items e))
  end.

Definition CborEncoder_push (byte : byte) : encM unit := fun e =>
  if len (ce_output e) =? max_bytes (ce_limits e) then Err CborTooLarge
  else Ok (tt, mkCborEncoder (ce_output e ++ [byte]) (ce_limits e) (ce_items e)).

Definition CborEncoder_head (major argument : Z) : encM unit :=
  CborEncoder_extend (encode_head major argument).

(** A container that is longer than its limit. *)
Definition CborEncoder_container (length maximum : Z) : encM unit :=
  st_lift (assert_or (length <=? maximum) CborContainer).

Fixpoint increasing_keys {A} (previous : option Z) (fields : list (Z * A)) : result CborError unit :=
  match fields with
  | [] => Ok tt
  | (key, _) :: fields =>
    assert_or (negb (match previous with Some previous => key <=? previous | None => false end))
      CborMapKey ;;
    increasing_keys (Some key) fields
  end.

(** [for x in xs { f(x)? }] *)
Fixpoint st_each {S E A} (f : A -> stM S E unit) (xs : list A) : stM S E unit :=
  match xs with
  | [] => mret tt
  | x :: xs => f x ;; st_each f xs
  end.

Definition checked_magnitude (value : Z) : result CborError Z :=
  assert_or (negb (0 <=? value)) NegativeRange ;;
  let magnitude := -1 - value in
  assert_or (magnitude <=? u64_max) NegativeRange ;;
  Ok magnitude.

Definition st_get {S E} : stM S E S := fun s => Ok (s, s).

Fixpoint CborEncoder_value (levels : nat) (value : Value) : encM unit :=
  match levels with
  | O => st_fail CborDepth
  | S levels =>
    CborEncoder_bump_item ;;
    match value with
    | VUnsigned value => CborEncoder_head 0 value
    | VNegative value =>
      magnitude ← st_lift (checked_magnitude value); CborEncoder_head 1 magnitude
    | VBytes bytes =>
      CborEncoder_string_len (len bytes) ;;
      CborEncoder_head 2 (len bytes) ;;
      CborEncoder_extend bytes
    | VText text =>
      CborEncoder_string_len (len text) ;;
      CborEncoder_head 3 (len text) ;;
      CborEncoder_extend text
    | VArray values =>
      self ← st_get;
      CborEncoder_container (len values) (max_array_len (ce_limits self)) ;;
      CborEncoder_ensure_future_items (len values) ;;
      CborEncoder_head 4 (len values) ;;
      st_each (CborEncoder_value levels) values
    | VMap fields =>
      self ← st_get;
      CborEncoder_container (len fields) (max_map_len (ce_limits self)) ;;
      CborEncoder_ensure_future_items (Z.min usize_max (len fields * 2)) ;;
      st_lift (increasing_keys None fields) ;;
      CborEncoder_head 5 (len fields) ;;
      st_each (fun '(key, value) =>
        CborEncoder_bump_item ;; CborEncoder_head 0 key ;; CborEncoder_value levels value) fields
    | VBool false => CborEncoder_push xf4
    | VBool true => CborEncoder_push xf5
    | VNull => CborEncoder_push xf6
    end
  end.

Definition encode_canonical_with_limits (value : Value) (limits : DecodeLimits)
  : result CborError (list byte) :=
  validate_limits limits ;;
  '(_, encoder) ← CborEncoder_value (Z.to_nat (max_depth limits)) value (mkCborEncoder [] limits 0);
  Ok (ce_output encoder).

Definition encode_canonical (value : Value) : result CborError (list byte) :=
  encode_canonical_with_limits value DecodeLimits_default.

(** ** The decoder *)
Record CborDecoder := mkCborDecoder {
  cd_input : list byte;
  cd_position : Z;
  cd_limits : DecodeLimits;
  cd_items : Z;
}.

Definition cdecM := stM CborDecoder CborError.

Definition CborDecoder_ensure_future_items (additional : Z) : cdecM unit := fun d =>
  if max_items (cd_limits d) <? saturating_add usize_max (cd_items d) additional then Err CborItems
  else Ok (tt, d).

Definition CborDecoder_bump_item : cdecM unit := fun d =>
  let items := saturating_add usize_max (cd_items d) 1 in
  if max_items (cd_limits d) <? items then Err CborItems
  else Ok (tt, mkCborDecoder (cd_input d) (cd_position d) (cd_limits d) items).

Definition CborDecoder_byte : cdecM byte := fun d =>
  match get (cd_input d) (cd_position d) with
  | None => Err CborTruncated
  | Some byte => Ok (byte, mkCborDecoder (cd_input d) (cd_position d + 1) (cd_limits d) (cd_items d))
  end.

Definition CborDecoder_slice (length : Z) : cdecM (list byte) := fun d =>
  match checked_add usize_max (cd_position d) length with
  | None => Err CborTruncated
  | Some end_ =>
    if len (cd_input d) <? end_ then Err CborTruncated
    else Ok (slice (cd_input d) (cd_position d) end_,
             mkCborDecoder (cd_input d) end_ (cd_limits d) (cd_items d))
  end.

Definition CborDecoder_argument (additional : Z) : cdecM Z :=
  if additional <=? 23 then mret additional
  else if additional =? 24 then
    byte ← CborDecoder_byte;
    let value := b2z byte in
    st_lift (assert_or (negb (value <? 24)) NonPreferred) ;; mret value
  else if additional =? 25 then
    bytes ← CborDecoder_slice 2;
    let value := from_be_bytes bytes in
    st_lift (assert_or (negb (value <=? 0xff)) NonPreferred) ;; mret value
  else if additional =? 26 then
    bytes ← CborDecoder_slice 4;
    let value := from_be_bytes bytes in
    st_lift (assert_or (negb (value <=? 0xffff)) NonPreferred) ;; mret value
  else if additional =? 27 then
    bytes ← CborDecoder_slice 8;
    let value := from_be_bytes bytes in
    st_lift (assert_or (negb (value <=? 0xffffffff)) NonPreferred) ;; mret value
  else if additional =? 31 then st_fail CborIndefinite
  else st_fail CborUnsupported.

Definition CborDecoder_string_length (additional : Z) : cdecM Z :=
  length ← CborDecoder_argument additional;
  self ← st_get;
  st_lift (assert_or (length <=? max_string_bytes (cd_limits self)) CborString) ;;
  mret length.

Definition CborDecoder_container_length (additional maximum : Z) : cdecM Z :=
  length ← CborDecoder_argument additional;
  st_lift (assert_or (length <=? maximum) CborContainer) ;;
  mret length.

Fixpoint read_values (value : cdecM Value) (n : nat) : cdecM (list Value) :=
  match n with
  | O => mret []
  | S n => v ← value; vs ← read_values value n; mret (v :: vs)
  end.

Fixpoint read_fields (value : cdecM Value) (n : nat) (previous : option Z)
  : cdecM (list (Z * Value)) :=
  match n with
  | O => mret []
  | S n =>
    CborDecoder_bump_item ;;
    initial ← CborDecoder_byte;
    st_lift (assert_or (Z.shiftr (b2z initial) 5 =? 0) CborMapKey) ;;
    key ← CborDecoder_argument (Z.land (b2z initial) 0x1f);
    st_lift (assert_or (negb (match previous with Some previous => key <=? previous | None => false end))
      CborMapKey) ;;
    v ← value;
    fields ← read_fields value n (Some key);
    mret ((key, v) :: fields)
  end.

(** The [match] on the major type; [value] decodes one level deeper. *)
Definition CborDecoder_dispatch (value : cdecM Value) (major additional : Z) : cdecM Value :=
  match major with
  | 0 => n ← CborDecoder_argument additional; mret (VUnsigned n)
  | 1 => magnitude ← CborDecoder_argument additional; mret (VNegative (-1 - magnitude))
  | 2 =>
    length ← CborDecoder_string_length additional;
    bytes ← CborDecoder_slice length;
    mret (VBytes bytes)
  | 3 =>
    length ← CborDecoder_string_length additional;
    bytes ← CborDecoder_slice length;
    st_lift (assert_or (from_utf8_ok bytes) CborUtf8) ;;
    mret (VText bytes)
  | 4 =>
    self ← st_get;
    length ← CborDecoder_container_length additional (max_array_len (cd_limits self));
    CborDecoder_ensure_future_items length ;;
    values ← read_values value (Z.to_nat length);
    mret (VArray values)
  | 5 =>
    self ← st_get;
    length ← CborDecoder_container_length additional (max_map_len (cd_limits self));
    CborDecoder_ensure_future_items (Z.min usize_max (length * 2)) ;;
    fields ← read_fields value (Z.to_nat length) None;
    mret (VMap fields)
  | 6 => st_fail CborUnsupported
  | 7 =>
    if additional =? 20 then mret (VBool false)
    else if additional =? 21 then mret (VBool true)
    else if additional =? 22 then mret VNull
    else if (25 <=? additional) && (additional <=? 27) then st_fail CborFloat
    else if additional =? 31 then st_fail CborIndefinite
    else st_fail CborUnsupported
  | _ => st_fail CborUnsupported
  end.

Fixpoint CborDecoder_value (levels : nat) : cdecM Value :=
  match levels with
  | O => st_fail CborDepth
  | S levels =>
    CborDecoder_bump_item ;;
    initial ← CborDecoder_byte;
    let major := Z.shiftr (b2z initial) 5 in
    let additional := Z.land (b2z initial) 0x1f in
    CborDecoder_dispatch (CborDecoder_value levels) major additional
  end.

(** The value and the end check, before the comparison with the re-encoding. *)
Definition decode_strict (input : list byte) (limits : DecodeLimits) : result CborError Value :=
  validate_limits limits ;;
  assert_or (negb (len input =? 0)) CborEmpty ;;
  assert_or (len input <=? max_bytes limits) CborTooLarge ;;
  '(value, decoder) ← CborDecoder_value (Z.to_nat (max_depth limits)) (mkCborDecoder input 0 limits 0);
  assert_or (cd_position decoder =? len input) CborTrailing ;;
  Ok value.

Definition decode_canonical (input : list byte) (limits : DecodeLimits) : result CborError Value :=
  value ← decode_strict input limits;
  encoded ← encode_canonical_with_limits value limits;
  assert_or (bool_decide (encoded = input)) NonPreferred ;;
  Ok value.

(** RFC 8949 examples: [[1, [2, 3]]] and a map with a negative and a text. *)
Example decode_nested :
  decode_canonical (octets [0x82; 0x01; 0x82; 0x02; 0x03]) DecodeLimits_default =
    Ok (VArray [VUnsigned 1; VArray [VUnsigned 2; VUnsigned 3]]).
Proof. vm_compute. reflexivity. Qed.
Example decode_map :
  decode_canonical (octets [0xa2; 0x01; 0x20; 0x18; 0x64; 0x62; 0xc3; 0xbc]) DecodeLimits_default =
    Ok (VMap [(1, VNegative (-1)); (100, VText (octets [0xc3; 0xbc]))]).
Proof. vm_compute. reflexivity. Qed.
Example decode_unsorted :
  decode_canonical (octets [0xa2; 0x02; 0x20; 0x01; 0x20]) DecodeLimits_default = Err CborMapKey.
Proof. vm_compute. reflexivity. Qed.

(** ** Specification

    The bytes and the item count of a value, the Rust types of its fields, and
    the limits it has to respect at each nesting level. *)
Fixpoint cbor_bytes (v : Value) : list byte :=
  match v with
  | VUnsigned n => encode_head 0 n
  | VNegative n => encode_head 1 (-1 - n)
  | VBytes bs => encode_head 2 (len bs) ++ bs
  | VText text => encode_head 3 (len text) ++ text
  | VArray values => encode_head 4 (len values) ++ mjoin (map cbor_bytes values)
  | VMap fields =>
    encode_head 5 (len fields) ++ mjoin (map (fun f => encode_head 0 f.1 ++ cbor_bytes f.2) fields)
  | VBool false => [xf4]
  | VBool true => [xf5]
  | VNull => [xf6]
  end.

Definition sum_of (l : list Z) : Z := foldr Z.add 0 l.

Fixpoint cbor_items (v : Value) : Z :=
  match v with
  | VArray values => 1 + sum_of (map cbor_items values)
  | VMap fields => 1 + sum_of (map (fun f => 1 + cbor_items f.2) fields)
  | _ => 1
  end.

Inductive value_typed : Value -> Prop :=
| typed_unsigned n : u64 n -> value_typed (VUnsigned n)
| typed_negative n : - 2 ^ 127 <= n < 2 ^ 127 -> value_typed (VNegative n)
| typed_bytes bs : len bs <= isize_max -> value_typed (VBytes bs)
| typed_text text : len text <= isize_max -> from_utf8_ok text = true -> value_typed (VText text)
| typed_array values :
    len values <= isize_max -> Forall value_typed values -> value_typed (VArray values)
| typed_map fields :
    len fields <= isize_max -> Forall (fun f => u64 f.1 /\ value_typed f.2) fields ->
    value_typed (VMap fields)
| typed_bool b : value_typed (VBool b)
| typed_null : value_typed VNull.

Lemma encode_head_pos m n : 1 <= len (encode_head m n).
Proof. unfold encode_head. repeat zcase; rewrite len_cons; match goal with |- context [len ?l] => pose proof (len_nonneg l) end; lia. Qed.

Lemma cbor_bytes_pos v : 1 <= len (cbor_bytes v).
Proof.
  assert (forall m n bs, 1 <= len (encode_head m n ++ bs)) as H.
  { intros m n bs. rewrite len_app. pose proof (encode_head_pos m n). pose proof (len_nonneg bs). lia. }
  destruct v as [| | | | | |[]|]; cbn [cbor_bytes]; try apply H; try apply encode_head_pos; done.
Qed.

Definition option_key (previous : option Z) : list Z :=
  match previous with Some k => [k] | None => [] end.

Lemma increasing_keys_Sorted {A} previous (fields : list (Z * A)) :
  increasing_keys previous fields = Ok tt <-> Sorted Z.lt (option_key previous ++ map fst fields).
Proof.
  revert previous. induction fields as [|[k v] fields IH]; intros previous; cbn [increasing_keys map fst].
  - rewrite app_nil_r. split; [|done]. intros _. destruct previous; repeat constructor.
  - rewrite bind_Ok. setoid_rewrite assert_or_Ok. setoid_rewrite IH. cbn [option_key app].
    destruct previous as [p|]; cbn [option_key app negb].
    + destruct (Z.leb_spec k p); cbn [negb].
      * split; [by intros (_ & ? & _)|]. intros S. inversion S as [|? ? _ H0]. inversion H0. lia.
      * split; [intros (_ & _ & S); constructor; [done|by constructor]|].
        intros S. exists tt. split; [done|]. by inversion S.
    + split; [by intros (_ & _ & S)|]. intros S. by exists tt.
Qed.

Section limits.
Variable L : DecodeLimits.

Fixpoint value_fits (levels : nat) (v : Value) : Prop :=
  match levels with
  | O => False
  | S levels =>
    match v with
    | VNegative n => - 2 ^ 64 <= n <= -1
    | VBytes bs | VText bs => len bs <= max_string_bytes L
    | VArray values => len values <= max_array_len L /\ Forall (value_fits levels) values
    | VMap fields =>
      len fields <= max_map_len L /\ Sorted Z.lt (map fst fields) /\
      Forall (fun f => value_fits levels f.2) fields
    | _ => True
    end
  end.

(** Limits are [usize] values; no counter reaches [usize::MAX]. *)
Record limits_ok : Prop := {
  lim_depth : 0 < max_depth L;
  lim_items : 0 < max_items L < usize_max;
  lim_bytes : 0 < max_bytes L <= isize_max;
  lim_array : max_array_len L <= isize_max;
  lim_map : max_map_len L <= isize_max;
}.

Hypothesis OK : limits_ok.

Lemma items_pos v : 1 <= cbor_items v.
Proof.
  revert v. fix IH 1. intros v. destruct v as [| | | |vs|fs| |]; cbn [cbor_items]; try lia.
  - assert (0 <= sum_of (map cbor_items vs)); [|lia].
    induction vs as [|w vs IHv]; [done|]. cbn. pose proof (IH w). unfold sum_of in IHv. lia.
  - assert (0 <= sum_of (map (fun f => 1 + cbor_items f.2) fs)); [|lia].
    induction fs as [|[k w] fs IHf]; [done|]. cbn. pose proof (IH w). unfold sum_of in IHf. lia.
Qed.

(** *** What the encoder writes *)
Definition enc_good (out : list byte) (i : Z) : Prop :=
  len out <= max_bytes L /\ 0 <= i <= max_items L.

Definition writes (m : encM unit) (P : Prop) (bs : list byte) (n : Z) : Prop :=
  forall out i e', enc_good out i ->
    m (mkCborEncoder out L i) = Ok (tt, e') <->
    P /\ len out + len bs <= max_bytes L /\ i + n <= max_items L /\
    e' = mkCborEncoder (out ++ bs) L (i + n).

Lemma writes_seq m m' P P' bs bs' n n' :
  0 <= n -> 0 <= n' -> writes m P bs n -> writes m' P' bs' n' ->
  writes (m ;; m') (P /\ P') (bs ++ bs') (n + n').
Proof.
  intros N N' W W' out i e' G. pose proof (len_nonneg bs). pose proof (len_nonneg bs').
  unfold mbind, stM_bind. rewrite len_app. split.
  - destruct (m _) as [[[] e1]|] eqn:E; [|done]. apply W in E as (HP & H1 & H2 & ->); [|done].
    intros E'. apply W' in E' as (HP' & H3 & H4 & ->); [|destruct G; split; [slen|]; lia].
    slen. rewrite app_assoc. split; [done|]. split; [lia|]. split; [lia|]. f_equal. lia.
  - intros ((HP & HP') & H1 & H2 & ->).
    rewrite (proj2 (W out i _ G)) by (split; [done|]; split; [lia|]; split; [lia|reflexivity]).
    apply W'; [destruct G; split; [slen|]; lia|]. slen. split; [done|]. split; [lia|]. split; [lia|].
    rewrite app_assoc. f_equal. lia.
Qed.

Lemma writes_iff m P P' bs n : (P <-> P') -> writes m P bs n -> writes m P' bs n.
Proof. intros E W out i e' G. rewrite (W out i e' G). tauto. Qed.

Lemma writes_bump : writes CborEncoder_bump_item True [] 1.
Proof.
  intros out i e' (G1 & G2). destruct OK. unfold CborEncoder_bump_item, saturating_add.
  cbn [ce_items ce_limits ce_output]. rewrite Z.min_r by lia. change (len (@nil byte)) with 0.
  rewrite app_nil_r. destruct (Z.ltb_spec (max_items L) (i + 1)); [naive_solver lia|].
  split; [intros [= <-]; repeat split; lia|by intros (_ & _ & _ & ->)].
Qed.

Lemma writes_extend bs : writes (CborEncoder_extend bs) True bs 0.
Proof.
  intros out i e' (G1 & G2). destruct OK. pose proof (len_nonneg out). pose proof (len_nonneg bs).
  unfold CborEncoder_extend. cbn [ce_items ce_limits ce_output].
  destruct (checked_add usize_max (len out) (len bs)) as [k|] eqn:C.
  - apply checked_add_Some in C as (-> & _).
    destruct (Z.ltb_spec (max_bytes L) (len out + len bs)); [naive_solver lia|].
    rewrite Z.add_0_r. split; [intros [= <-]; repeat split; lia|by intros (_ & _ & _ & ->)].
  - unfold checked_add in C. destruct (Z.leb_spec (len out + len bs) usize_max); [done|].
    split; [done|]. intros (_ & B & _). ulia.
Qed.

Lemma writes_head m n : writes (CborEncoder_head m n) True (encode_head m n) 0.
Proof. apply writes_extend. Qed.

Lemma writes_push b : writes (CborEncoder_push b) True [b] 0.
Proof.
  intros out i e' (G1 & G2). unfold CborEncoder_push. cbn [ce_items ce_limits ce_output].
  change (len [b]) with 1. rewrite Z.add_0_r. destruct (Z.eqb_spec (len out) (max_bytes L)).
  - split; [done|]. intros (_ & B & _). lia.
  - split; [intros [= <-]; repeat split; lia|by intros (_ & _ & _ & ->)].
Qed.

Lemma writes_lift {A} (r : result CborError A) (P : Prop) k bs n :
  (forall a, r = Ok a -> writes (k a) P bs n) ->
  writes (a ← st_lift r; k a) (P /\ exists a, r = Ok a) bs n.
Proof.
  intros K out i e' G. unfold mbind, stM_bind, st_lift. destruct r as [a|e].
  - rewrite (K a eq_refl out i e' G). split; [|tauto]. intros (? & ?). split; [split; [done|by eexists]|done].
  - split; [done|]. by intros ((_ & ? & ?) & _).
Qed.

Lemma writes_assert b er (P : Prop) k bs n :
  writes k P bs n -> writes (st_lift (assert_or b er) ;; k) (b = true /\ P) bs n.
Proof.
  intros K. eapply writes_iff; [|apply writes_lift; intros; exact K]. destruct b; cbn; naive_solver.
Qed.

Lemma writes_string_len k P bs n m :
  writes m P bs n -> writes (CborEncoder_string_len k ;; m) (k <= max_string_bytes L /\ P) bs n.
Proof.
  intros W out i e' G. unfold mbind, stM_bind, CborEncoder_string_len. cbn [ce_limits].
  destruct (Z.ltb_spec (max_string_bytes L) k); [naive_solver lia|]. rewrite (W out i e' G). tauto.
Qed.

Lemma writes_ensure k m P bs n :
  0 <= k <= n -> writes m P bs n -> writes (CborEncoder_ensure_future_items k ;; m) P bs n.
Proof.
  intros K W out i e' G. unfold mbind, stM_bind, CborEncoder_ensure_future_items, saturating_add.
  cbn [ce_limits ce_items]. destruct OK. destruct (Z.ltb_spec (max_items L) (Z.min usize_max (i + k))).
  - split; [done|]. intros (_ & _ & ? & _). lia.
  - apply (W out i e' G).
Qed.

Lemma writes_get (f : CborEncoder -> encM unit) P bs n :
  (forall e, ce_limits e = L -> writes (f e) P bs n) -> writes (e ← st_get; f e) P bs n.
Proof. intros W out i e' G. apply (W (mkCborEncoder out L i)); done. Qed.

Lemma writes_each {A} (f : A -> encM unit) (P : A -> Prop) (enc : A -> list byte) (cnt : A -> Z) xs :
  (forall x, 0 <= cnt x /\ writes (f x) (P x) (enc x) (cnt x)) ->
  writes (st_each f xs) (Forall P xs) (mjoin (map enc xs)) (sum_of (map cnt xs)).
Proof.
  intros H. assert (forall l, 0 <= sum_of (map cnt l)) as Pos.
  { intros l. induction l as [|x l IH]; [done|]. unfold sum_of in *. cbn [map foldr]. destruct (H x). lia. }
  induction xs as [|x xs IH].
  - intros out i e' (G1 & G2). cbn. change (len (@nil byte)) with 0. rewrite app_nil_r, !Z.add_0_r.
    split; [intros [= <-]; repeat split; (done || lia)|by intros (_ & _ & _ & ->)].
  - destruct (H x) as (Hc & Hx). cbn [st_each map].
    eapply writes_iff; [symmetry; apply Forall_cons|]. apply writes_seq; [done|apply Pos|done|done].
Qed.

Lemma sum_of_ge {A} (f : A -> Z) k (l : list A) :
  (forall x, k <= f x) -> k * len l <= sum_of (map f l).
Proof.
  intros H. unfold sum_of. induction l as [|x l IH]; [rewrite len_nil; cbn; lia|].
  rewrite len_cons. cbn [map foldr]. pose proof (H x). lia.
Qed.

Lemma checked_magnitude_Ok n m :
  checked_magnitude n = Ok m <-> - 2 ^ 64 <= n <= -1 /\ m = -1 - n.
Proof.
  unfold checked_magnitude. destruct (Z.leb_spec 0 n); cbn.
  - split; [done|lia].
  - destruct (Z.leb_spec (-1 - n) u64_max); cbn.
    + split; [intros [= <-]; ulia|by intros (_ & ->)].
    + split; [done|ulia].
Qed.

Lemma CborEncoder_value_writes levels v :
  writes (CborEncoder_value levels v) (value_fits levels v) (cbor_bytes v) (cbor_items v).
Proof.
  revert v. induction levels as [|levels IH]; intros v.
  { intros out i e' G. split; [done|]. by intros ([] & _). }
  assert (forall m P bs n, 0 <= n -> writes m P bs n ->
    writes (CborEncoder_bump_item ;; m) P bs (1 + n)) as B.
  { intros m P bs n Hn W. eapply writes_iff; [|apply (writes_seq _ _ True P [] bs 1 n);
      [lia|done|apply writes_bump|exact W]]. tauto. }
  assert (forall m P bs, writes m P bs 0 -> writes (CborEncoder_bump_item ;; m) P bs 1) as B0
    by (intros m P bs W; by apply (B m P bs 0)).
  assert (forall m n k P bs c, 0 <= c -> writes k P bs c ->
    writes (CborEncoder_head m n ;; k) P (encode_head m n ++ bs) c) as Hd.
  { intros m n k P bs c Hc W. change c with (0 + c). eapply writes_iff;
      [|apply writes_seq; [lia|done|apply writes_head|exact W]]. tauto. }
  cbn [CborEncoder_value]. destruct v as [n|n|bs|bs|vs|fs|[]|]; cbn [value_fits cbor_bytes cbor_items].
  - apply B0. apply writes_head.
  - apply B0.
    eapply writes_iff; [|apply (writes_lift (checked_magnitude n) True)].
    + setoid_rewrite checked_magnitude_Ok. split; [by intros (_ & m & ? & _)|]. intros R. split; [done|].
      by eexists.
    + intros m (_ & ->)%checked_magnitude_Ok. apply writes_head.
  - apply B0. eapply writes_iff; [|apply writes_string_len, Hd; [done|apply writes_extend]].
    tauto.
  - apply B0. eapply writes_iff; [|apply writes_string_len, Hd; [done|apply writes_extend]].
    tauto.
  - pose proof (sum_of_ge cbor_items 1 vs items_pos) as S. pose proof (len_nonneg vs).
    apply B; [lia|]. apply writes_get. intros e ->. unfold CborEncoder_container.
    eapply writes_iff; [rewrite <- Z.leb_le; reflexivity|].
    apply writes_assert, writes_ensure; [lia|]. apply Hd; [lia|].
    apply (writes_each _ (value_fits levels) cbor_bytes cbor_items). intros x. split; [|apply IH].
    pose proof (items_pos x). lia.
  - pose proof (sum_of_ge (fun f : Z * Value => 1 + cbor_items f.2) 2 fs) as S.
    assert (2 * len fs <= sum_of (map (fun f => 1 + cbor_items f.2) fs)) as S2
      by (apply S; intros f; pose proof (items_pos f.2); lia).
    pose proof (len_nonneg fs). apply B; [lia|]. apply writes_get. intros e ->.
    unfold CborEncoder_container. eapply writes_iff; [rewrite <- Z.leb_le; reflexivity|].
    apply writes_assert, writes_ensure; [ulia|].
    eapply writes_iff; [|apply (writes_lift (increasing_keys None fs)
      (Forall (fun f => value_fits levels f.2) fs))].
    + rewrite <- (increasing_keys_Sorted None fs). split; [intros (F & [] & K); done|].
      intros (K & F). split; [done|by exists tt].
    + intros _ _. apply Hd; [lia|].
      apply (writes_each _ (fun f => value_fits levels f.2) (fun f => encode_head 0 f.1 ++ cbor_bytes f.2)
        (fun f => 1 + cbor_items f.2)).
      intros [k w]. cbn [fst snd]. pose proof (items_pos w). split; [lia|]. apply B; [lia|].
      apply Hd; [lia|apply IH].
  - apply B0. apply writes_push.
  - apply B0. apply writes_push.
  - apply B0. apply writes_push.
Qed.

Lemma encode_canonical_with_limits_Ok v bs :
  encode_canonical_with_limits v L = Ok bs <->
  value_fits (Z.to_nat (max_depth L)) v /\ cbor_items v <= max_items L /\
  len bs <= max_bytes L /\ bs = cbor_bytes v.
Proof.
  unfold encode_canonical_with_limits. destruct OK.
  assert (validate_limits L = Ok tt) as ->.
  { unfold validate_limits. rewrite !(proj2 (Z.eqb_neq _ _)) by lia. done. }
  cbn [mbind result_bind]. change (result_bind _ _ ?f ?m) with (m ≫= f). rewrite bind_Ok.
  assert (enc_good [] 0) as G by (split; [change (len (@nil byte)) with 0|]; lia).
  split.
  - intros ([[] e] & E & [= <-]). apply CborEncoder_value_writes in E as (F & B & I & ->); [|done].
    by cbn in *.
  - intros (F & I & B & ->). exists (tt, mkCborEncoder (cbor_bytes v) L (cbor_items v)). split; [|reflexivity].
    apply CborEncoder_value_writes; [done|]. split; [done|]. by split.
Qed.

(** *** Heads *)
Definition head_info (n : Z) : Z :=
  if n <=? 23 then n else if n <=? 0xff then 24 else if n <=? 0xffff then 25
  else if n <=? 0xffffffff then 26 else 27.
Definition head_tail (n : Z) : list byte :=
  if n <=? 23 then [] else if n <=? 0xff then [z2b n] else if n <=? 0xffff then to_be_bytes 2 n
  else if n <=? 0xffffffff then to_be_bytes 4 n else to_be_bytes 8 n.

Lemma encode_head_split m n :
  encode_head m n = z2b (Z.lor (Z.shiftl m 5) (head_info n)) :: head_tail n.
Proof. unfold encode_head, head_info, head_tail. repeat zcase; reflexivity. Qed.

Lemma head_info_range n : 0 <= n -> 0 <= head_info n < 32.
Proof. intros. unfold head_info. repeat zcase; lia. Qed.

Lemma initial_byte m a :
  0 <= m < 8 -> 0 <= a < 32 ->
  let b := z2b (Z.lor (Z.shiftl m 5) a) in
  Z.shiftr (b2z b) 5 = m /\ Z.land (b2z b) 0x1f = a.
Proof.
  intros Hm Ha. cbv zeta. rewrite lor_shiftl_add by lia. rewrite z2b_small by lia.
  rewrite Z.shiftr_div_pow2 by lia. change 0x1f with (Z.ones 5). rewrite Z.land_ones by lia.
  change (2 ^ 5) with 32. split.
  - rewrite Z.div_add_l, (Z.div_small a) by lia. lia.
  - rewrite Z.add_comm, Z.mod_add, Z.mod_small by lia. done.
Qed.

Lemma initial_byte_inv b :
  let m := Z.shiftr (b2z b) 5 in let a := Z.land (b2z b) 0x1f in
  b = z2b (Z.lor (Z.shiftl m 5) a) /\ 0 <= m < 8 /\ 0 <= a < 32.
Proof. destruct b; (vm_compute; split; [reflexivity|split; split; congruence]). Qed.

(** *** What the decoder reads

    [here p bs]: the input has [bs] at position [p]. *)
Variable I : list byte.
Hypothesis LI : len I <= max_bytes L.

Definition here (p : Z) (bs : list byte) : Prop := exists a c, I = a ++ bs ++ c /\ p = len a.
Definition st (p i : Z) : CborDecoder := mkCborDecoder I p L i.
Definition at_ok (p i : Z) : Prop := 0 <= p <= len I /\ 0 <= i <= max_items L.

Lemma here_app p a b : here p (a ++ b) <-> here p a /\ here (p + len a) b.
Proof.
  split.
  - intros (x & c & E & ->). split.
    + exists x, (b ++ c). by rewrite E, <- app_assoc.
    + exists (x ++ a), c. rewrite len_app, E. by rewrite <- !app_assoc.
  - intros ((x & c & E & ->) & (x' & c' & E' & P)). rewrite <- len_app in P.
    rewrite E, app_assoc in E'. unfold len in P. apply Nat2Z.inj in P.
    apply app_inj_1 in E' as (<- & ->); [|done]. exists x, c'. by rewrite E, <- app_assoc.
Qed.

Lemma here_bound p bs : here p bs -> 0 <= p /\ p + len bs <= len I.
Proof.
  intros (a & c & E & ->). rewrite E, !len_app. pose proof (len_nonneg a). pose proof (len_nonneg c). lia.
Qed.

Lemma here_nil p : 0 <= p <= len I -> here p [].
Proof.
  intros B. exists (take (Z.to_nat p) I), (drop (Z.to_nat p) I). cbn [app].
  rewrite take_drop. split; [done|]. unfold len in *. rewrite length_take. lia.
Qed.

(** [dreads m bs n v]: at [bs] the reader succeeds with [v], consuming [bs] and
    [n] items. [dinv m enc cnt P]: whatever it accepts is the encoding of its
    result. *)
Definition dreads {A} (m : cdecM A) (bs : list byte) (n : Z) (v : A) : Prop :=
  forall p i, here p bs -> at_ok p i -> i + n <= max_items L ->
    m (st p i) = Ok (v, st (p + len bs) (i + n)).

Definition dinv {A} (m : cdecM A) (enc : A -> list byte) (cnt : A -> Z) (P : A -> Prop) : Prop :=
  forall p i v d', at_ok p i -> m (st p i) = Ok (v, d') ->
    here p (enc v) /\ d' = st (p + len (enc v)) (i + cnt v) /\ at_ok (p + len (enc v)) (i + cnt v) /\ P v.

Lemma dreads_bind {A B} (m : cdecM A) (f : A -> cdecM B) b1 b2 n1 n2 v w :
  0 <= n1 -> 0 <= n2 -> dreads m b1 n1 v -> dreads (f v) b2 n2 w ->
  dreads (m ≫= f) (b1 ++ b2) (n1 + n2) w.
Proof.
  intros N1 N2 H1 H2 p i Hh (G1 & G2) Hn. apply here_app in Hh as (Ha & Hb).
  unfold mbind, stM_bind. rewrite (H1 p i Ha (conj G1 G2)) by lia.
  pose proof (here_bound _ _ Hb). pose proof (len_nonneg b1). pose proof (len_nonneg b2).
  rewrite (H2 _ _ Hb) by (unfold at_ok; lia). rewrite len_app. by rewrite !Z.add_assoc.
Qed.

Lemma dreads_ret {A} (v : A) : dreads (mret v) [] 0 v.
Proof. intros p i _ _ _. change (len (@nil byte)) with 0. by rewrite !Z.add_0_r. Qed.

Lemma dreads_map {A B} (m : cdecM A) (g : A -> B) bs n v :
  0 <= n -> dreads m bs n v -> dreads (x ← m; mret (g x)) bs n (g v).
Proof.
  intros N H. rewrite <- (app_nil_r bs), <- (Z.add_0_r n).
  eapply dreads_bind; [done|done|exact H|apply dreads_ret].
Qed.

Lemma dreads_assert {A} b er (k : cdecM A) bs n v :
  b = true -> dreads k bs n v -> dreads (st_lift (assert_or b er) ;; k) bs n v.
Proof. intros -> H p i. apply H. Qed.

Lemma dreads_get {A} (f : CborDecoder -> cdecM A) bs n v :
  (forall d, cd_limits d = L -> dreads (f d) bs n v) -> dreads (d ← st_get; f d) bs n v.
Proof. intros H p i. by apply (H (st p i)). Qed.

Lemma dreads_bump {A} (k : cdecM A) bs n v :
  0 <= n -> dreads k bs n v -> dreads (CborDecoder_bump_item ;; k) bs (1 + n) v.
Proof.
  intros N H p i Hh (G1 & G2) Hn. destruct OK. unfold mbind, stM_bind, CborDecoder_bump_item, saturating_add.
  cbn [cd_items cd_limits cd_input cd_position st]. rewrite Z.min_r by lia.
  rewrite (proj2 (Z.ltb_ge _ _)) by lia. fold (st p (i + 1)).
  rewrite (H p (i + 1) Hh) by (unfold at_ok; lia). by rewrite Z.add_assoc.
Qed.

Lemma dreads_ensure {A} k (m : cdecM A) bs n v :
  k <= n -> dreads m bs n v -> dreads (CborDecoder_ensure_future_items k ;; m) bs n v.
Proof.
  intros K H p i Hh G Hn. unfold mbind, stM_bind, CborDecoder_ensure_future_items, saturating_add.
  cbn [cd_items cd_limits st]. rewrite (proj2 (Z.ltb_ge _ _)) by lia. by apply H.
Qed.

Lemma dreads_byte b : dreads CborDecoder_byte [b] 0 b.
Proof.
  intros p i (a & c & E & ->) _ _. unfold CborDecoder_byte, get. cbn [cd_input cd_position st].
  rewrite E at 1. unfold len. rewrite Nat2Z.id, lookup_app_r, Nat.sub_diag by lia. cbn. by rewrite Z.add_0_r.
Qed.

Lemma dreads_slice bs k : len bs = k -> dreads (CborDecoder_slice k) bs 0 bs.
Proof.
  intros <- p i Hh G _. pose proof (here_bound _ _ Hh). destruct OK. unfold CborDecoder_slice.
  cbn [cd_input cd_position cd_limits cd_items st].
  rewrite (proj2 (checked_add_Some usize_max p (len bs) (p + len bs))) by (split; [done|ulia]).
  rewrite (proj2 (Z.ltb_ge _ _)) by lia. rewrite Z.add_0_r. do 2 f_equal.
  destruct Hh as (a & c & E & ->). rewrite E. unfold slice, len.
  replace (Z.to_nat (Z.of_nat (length a))) with (length a) by lia. rewrite drop_app_length.
  replace (Z.to_nat (Z.of_nat (length a) + Z.of_nat (length bs) - Z.of_nat (length a))) with (length bs) by lia.
  by rewrite take_app_length.
Qed.

Lemma dreads_argument n : u64 n -> dreads (CborDecoder_argument (head_info n)) (head_tail n) 0 n.
Proof.
  intros U. unfold CborDecoder_argument, head_info, head_tail.
  assert (forall k (m : nat) g, len (to_be_bytes m n) = k -> n < 256 ^ Z.of_nat m -> negb (n <=? g) = true ->
    dreads (bytes ← CborDecoder_slice k; let value := from_be_bytes bytes in
      st_lift (assert_or (negb (value <=? g)) NonPreferred) ;; mret value) (to_be_bytes m n) 0 n) as S.
  { intros k m g Lk B Hg. rewrite <- (app_nil_r (to_be_bytes m n)). change 0 with (0 + 0).
    eapply dreads_bind; [done|done|by apply dreads_slice|]. cbv zeta.
    rewrite from_to_be_bytes_small by ulia. apply dreads_assert; [done|]. apply dreads_ret. }
  repeat zcase; cbn [Z.leb Z.eqb Pos.eqb Z.compare Pos.compare Pos.compare_cont]; try lia.
  - apply dreads_ret.
  - rewrite <- (app_nil_r [z2b n]). change 0 with (0 + 0).
    eapply dreads_bind; [done|done|apply dreads_byte|]. cbv zeta. rewrite z2b_small by lia.
    apply dreads_assert; [|apply dreads_ret]. rewrite (proj2 (Z.ltb_ge n 24)) by lia. done.
  - apply S; [done|lia|]. by rewrite (proj2 (Z.leb_gt n 0xff)) by lia.
  - apply S; [done|lia|]. by rewrite (proj2 (Z.leb_gt n 0xffff)) by lia.
  - apply S; [done|ulia|]. by rewrite (proj2 (Z.leb_gt n 0xffffffff)) by lia.
Qed.

Lemma byte_inv p i b d' :
  at_ok p i -> CborDecoder_byte (st p i) = Ok (b, d') -> here p [b] /\ d' = st (p + 1) i.
Proof.
  intros (G & _) E. unfold CborDecoder_byte, get in E. cbn [cd_input cd_position cd_limits cd_items st] in E.
  destruct (I !! Z.to_nat p) as [x|] eqn:Lk; [|done]. injection E as <- <-. split; [|done].
  exists (take (Z.to_nat p) I), (drop (S (Z.to_nat p)) I). split.
  - symmetry. by apply take_drop_middle.
  - apply lookup_lt_Some in Lk. unfold len in *. rewrite length_take. lia.
Qed.

Lemma slice_inv k p i bs d' :
  0 <= k -> at_ok p i -> CborDecoder_slice k (st p i) = Ok (bs, d') ->
  here p bs /\ len bs = k /\ d' = st (p + k) i.
Proof.
  intros K (G & _) E. unfold CborDecoder_slice in E. cbn [cd_input cd_position cd_limits cd_items st] in E.
  destruct (checked_add usize_max p k) as [x|] eqn:C; [|done]. apply checked_add_Some in C as (-> & _).
  destruct (Z.ltb_spec (len I) (p + k)); [done|]. injection E as <- <-.
  assert (len (slice I p (p + k)) = k) as Ls.
  { unfold slice, len in *. rewrite length_take, length_drop. lia. }
  split; [|done]. exists (take (Z.to_nat p) I), (drop (Z.to_nat (p + k)) I). split.
  - unfold slice. replace (Z.to_nat (p + k)) with (Z.to_nat p + Z.to_nat (p + k - p))%nat by lia.
    rewrite <- drop_drop, take_drop. by rewrite take_drop.
  - unfold len in *. rewrite length_take. lia.
Qed.

(** One bind, one guard of a successful run. *)
Lemma st_bind_Ok {S E A B} (f : A -> stM S E B) (m : stM S E A) s b s' :
  (m ≫= f) s = Ok (b, s') <-> exists a s1, m s = Ok (a, s1) /\ f a s1 = Ok (b, s').
Proof. unfold mbind, stM_bind. destruct (m s) as [[a s1]|]; naive_solver. Qed.

Lemma st_lift_Ok {S E A} (r : result E A) (s : S) a s' :
  st_lift r s = Ok (a, s') <-> r = Ok a /\ s' = s.
Proof. unfold st_lift. destruct r; naive_solver. Qed.

Lemma argument_inv a p i n d' :
  0 <= a < 32 -> at_ok p i -> CborDecoder_argument a (st p i) = Ok (n, d') ->
  u64 n /\ a = head_info n /\ here p (head_tail n) /\ d' = st (p + len (head_tail n)) i.
Proof.
  intros Ha G E. unfold CborDecoder_argument in E.
  assert (forall k (m : nat) g, Z.of_nat m = k ->
    (bytes ← CborDecoder_slice k; let value := from_be_bytes bytes in
      st_lift (assert_or (negb (value <=? g)) NonPreferred) ;; mret value) (st p i) = Ok (n, d') ->
    g < n < 256 ^ k /\ here p (to_be_bytes m n) /\ d' = st (p + k) i) as S.
  { intros k m g Mk H. apply st_bind_Ok in H as (bs & d1 & H1 & H).
    apply slice_inv in H1 as (Hh & Lb & ->); [|lia|done]. cbv zeta in H.
    apply st_bind_Ok in H as (u & d2 & H2 & H). apply st_lift_Ok in H2 as (H2 & ->).
    apply assert_or_Ok, negb_true_iff, Z.leb_gt in H2. injection H as <- <-.
    pose proof (from_be_bytes_range bs) as R. rewrite Lb in R. split; [lia|].
    rewrite to_from_be_bytes_len by (unfold len in Lb; lia). done. }
  destruct (Z.leb_spec a 23).
  { injection E as <- <-. split; [ulia|]. unfold head_info, head_tail.
    rewrite (proj2 (Z.leb_le a 23)) by lia. split; [done|]. change (len (@nil byte)) with 0.
    rewrite Z.add_0_r. split; [|done]. apply here_nil, G. }
  destruct (Z.eqb_spec a 24) as [->|].
  { apply st_bind_Ok in E as (b & d1 & E1 & E). apply byte_inv in E1 as (Hh & ->); [|done].
    cbv zeta in E. apply st_bind_Ok in E as (u & d2 & E2 & E). apply st_lift_Ok in E2 as (E2 & ->).
    apply assert_or_Ok, negb_true_iff, Z.ltb_ge in E2. injection E as <- <-.
    pose proof (b2z_range b). split; [ulia|]. unfold head_info, head_tail.
    rewrite (proj2 (Z.leb_gt (b2z b) 23)), (proj2 (Z.leb_le (b2z b) 0xff)) by lia.
    by rewrite z2b_b2z. }
  destruct (Z.eqb_spec a 25) as [->|].
  { apply (S 2 2%nat) in E as (R & Hh & ->); [|done]. split; [ulia|].
    unfold head_info, head_tail.
    rewrite (proj2 (Z.leb_gt n 23)), (proj2 (Z.leb_gt n 0xff)), (proj2 (Z.leb_le n 0xffff)) by lia. done. }
  destruct (Z.eqb_spec a 26) as [->|].
  { apply (S 4 4%nat) in E as (R & Hh & ->); [|done]. split; [ulia|].
    unfold head_info, head_tail.
    rewrite (proj2 (Z.leb_gt n 23)), (proj2 (Z.leb_gt n 0xff)), (proj2 (Z.leb_gt n 0xffff)),
      (proj2 (Z.leb_le n 0xffffffff)) by lia. done. }
  destruct (Z.eqb_spec a 27) as [->|].
  { apply (S 8 8%nat) in E as (R & Hh & ->); [|done]. split; [ulia|].
    unfold head_info, head_tail.
    rewrite (proj2 (Z.leb_gt n 23)), (proj2 (Z.leb_gt n 0xff)), (proj2 (Z.leb_gt n 0xffff)),
      (proj2 (Z.leb_gt n 0xffffffff)) by lia. done. }
  destruct (a =? 31); discriminate E.
Qed.

Lemma dreads_head m n body cnt value v :
  0 <= m < 8 -> 0 <= n -> 0 <= cnt ->
  dreads (CborDecoder_dispatch value m (head_info n)) (head_tail n ++ body) cnt v ->
  dreads (CborDecoder_bump_item ;; initial ← CborDecoder_byte;
    let major := Z.shiftr (b2z initial) 5 in let additional := Z.land (b2z initial) 0x1f in
    CborDecoder_dispatch value major additional) (encode_head m n ++ body) (1 + cnt) v.
Proof.
  intros M N C H. apply dreads_bump; [done|]. rewrite encode_head_split.
  change (?b :: ?t) with ([b] ++ t). rewrite <- app_assoc. change cnt with (0 + cnt).
  eapply dreads_bind; [done|done|apply dreads_byte|]. cbv zeta.
  destruct (initial_byte m (head_info n) M (head_info_range n N)) as (-> & ->). exact H.
Qed.

Lemma dreads_string n body v (k : Z -> cdecM Value) :
  0 <= n <= max_string_bytes L -> n <= isize_max -> dreads (k n) body 0 v ->
  dreads (length ← CborDecoder_string_length (head_info n); k length) (head_tail n ++ body) 0 v.
Proof.
  intros R B H. change 0 with (0 + 0). eapply dreads_bind; [done|done| |exact H].
  unfold CborDecoder_string_length. rewrite <- (app_nil_r (head_tail n)). change 0 with (0 + 0).
  eapply dreads_bind; [done|done|apply dreads_argument; ulia|]. apply dreads_get. intros d ->.
  apply dreads_assert; [apply Z.leb_le; lia|apply dreads_ret].
Qed.

Lemma dreads_container n body cnt v maximum (k : Z -> cdecM Value) :
  0 <= n <= maximum -> n <= isize_max -> 0 <= cnt -> dreads (k n) body cnt v ->
  dreads (length ← CborDecoder_container_length (head_info n) maximum; k length)
    (head_tail n ++ body) cnt v.
Proof.
  intros R B C H. change cnt with (0 + cnt). eapply dreads_bind; [done|done| |exact H].
  unfold CborDecoder_container_length. rewrite <- (app_nil_r (head_tail n)). change 0 with (0 + 0).
  eapply dreads_bind; [done|done|apply dreads_argument; ulia|].
  apply dreads_assert; [apply Z.leb_le; lia|apply dreads_ret].
Qed.

Lemma sum_nonneg {A} (f : A -> Z) l : (forall x, 0 <= f x) -> 0 <= sum_of (map f l).
Proof. intros H. pose proof (sum_of_ge f 0 l H). lia. Qed.

Lemma dreads_values m vs :
  Forall (fun v => dreads m (cbor_bytes v) (cbor_items v) v) vs ->
  dreads (read_values m (length vs)) (mjoin (map cbor_bytes vs)) (sum_of (map cbor_items vs)) vs.
Proof.
  assert (forall v, 0 <= cbor_items v) as P by (intros v; pose proof (items_pos v); lia).
  induction 1 as [|v vs Hv F IH]; [apply dreads_ret|]. cbn [map length read_values].
  change (sum_of (cbor_items v :: ?l)) with (cbor_items v + sum_of l).
  pose proof (sum_nonneg cbor_items vs P). rewrite join_cons.
  eapply dreads_bind; [apply P|done|exact Hv|]. by apply dreads_map.
Qed.

Lemma dreads_fields m fs previous :
  Forall (fun f => u64 f.1 /\ dreads m (cbor_bytes f.2) (cbor_items f.2) f.2) fs ->
  increasing_keys previous fs = Ok tt ->
  dreads (read_fields m (length fs) previous)
    (mjoin (map (fun f => encode_head 0 f.1 ++ cbor_bytes f.2) fs))
    (sum_of (map (fun f => 1 + cbor_items f.2) fs)) fs.
Proof.
  assert (forall f : Z * Value, 0 <= 1 + cbor_items f.2) as P
    by (intros f; pose proof (items_pos f.2); lia).
  intros F. revert previous. induction F as [|[k v] fs (Hk & Hv) F IH]; intros previous K; [apply dreads_ret|].
  cbn [increasing_keys] in K. apply bind_Ok in K as (u & K1 & K). apply assert_or_Ok in K1.
  cbn [map length read_fields fst snd] in *. rewrite join_cons.
  change (sum_of ((1 + cbor_items v) :: ?l)) with (1 + cbor_items v + sum_of l).
  pose proof (sum_nonneg _ fs P). pose proof (items_pos v). rewrite <- app_assoc, <- Z.add_assoc.
  apply dreads_bump; [lia|]. rewrite encode_head_split. change (?b :: ?t) with ([b] ++ t).
  rewrite <- app_assoc. change (cbor_items v + ?x) with (0 + (cbor_items v + x)).
  eapply dreads_bind; [done|lia|apply dreads_byte|].
  destruct (initial_byte 0 (head_info k) ltac:(lia) (head_info_range k ltac:(ulia))) as (-> & ->).
  apply dreads_assert; [done|]. change (cbor_items v + ?x) with (0 + (cbor_items v + x)).
  eapply dreads_bind; [done|lia|by apply dreads_argument|]. apply dreads_assert; [done|].
  eapply dreads_bind; [lia|lia|exact Hv|]. apply dreads_map; [lia|]. by apply IH.
Qed.

Lemma CborDecoder_value_reads levels v :
  value_typed v -> value_fits levels v ->
  dreads (CborDecoder_value levels) (cbor_bytes v) (cbor_items v) v.
Proof.
  revert v. induction levels as [|levels IH]; intros v T F; [done|]. cbn [CborDecoder_value].
  assert (forall m n v', 0 <= m < 8 -> u64 n ->
    dreads (CborDecoder_dispatch (CborDecoder_value levels) m (head_info n)) (head_tail n) 0 v' ->
    dreads (CborDecoder_bump_item ;; initial ← CborDecoder_byte;
      let major := Z.shiftr (b2z initial) 5 in let additional := Z.land (b2z initial) 0x1f in
      CborDecoder_dispatch (CborDecoder_value levels) major additional) (encode_head m n) 1 v') as H0.
  { intros m n v' M N H. rewrite <- (app_nil_r (encode_head m n)). change 1 with (1 + 0).
    apply dreads_head; [done|ulia|done|]. by rewrite app_nil_r. }
  assert (forall m n body v', 0 <= m < 8 -> 0 <= n ->
    dreads (CborDecoder_dispatch (CborDecoder_value levels) m (head_info n)) (head_tail n ++ body) 0 v' ->
    dreads (CborDecoder_bump_item ;; initial ← CborDecoder_byte;
      let major := Z.shiftr (b2z initial) 5 in let additional := Z.land (b2z initial) 0x1f in
      CborDecoder_dispatch (CborDecoder_value levels) major additional) (encode_head m n ++ body) 1 v') as H1
    by (intros m n body v' M N; by apply (dreads_head m n body 0)).
  destruct T as [n U|n U|bs B|bs B U|vs B Fv|fs B Ff|b|]; cbn [value_fits cbor_bytes cbor_items] in *.
  - apply H0; [done|done|]. by apply dreads_map, dreads_argument.
  - apply H0; [done|ulia|]. replace n with (-1 - (-1 - n)) at 3 by lia.
    apply (dreads_map _ (fun m => VNegative (-1 - m))); [done|]. apply dreads_argument. ulia.
  - pose proof (len_nonneg bs). apply H1; [done|done|].
    apply dreads_string; [done|done|]. apply dreads_map; [done|]. by apply dreads_slice.
  - pose proof (len_nonneg bs). apply H1; [done|done|].
    apply dreads_string; [done|done|]. rewrite <- (app_nil_r bs) at 2. change 0 with (0 + 0).
    eapply dreads_bind; [done|done|by apply dreads_slice|]. apply dreads_assert; [done|apply dreads_ret].
  - destruct F as (Bv & Fl). pose proof (len_nonneg vs). pose proof (sum_of_ge cbor_items 1 vs items_pos).
    apply dreads_head; [done|done|lia|]. apply dreads_get. intros d ->.
    apply dreads_container; [done|done|lia|]. apply dreads_ensure; [lia|]. apply dreads_map; [lia|].
    unfold len. rewrite Nat2Z.id. apply dreads_values. apply Forall_forall. intros v I0.
    rewrite Forall_forall in Fv, Fl. apply IH; auto.
  - destruct F as (Bv & K & Fl). apply (increasing_keys_Sorted None) in K. pose proof (len_nonneg fs).
    assert (2 * len fs <= sum_of (map (fun f => 1 + cbor_items f.2) fs)) as S2
      by (apply sum_of_ge; intros f; pose proof (items_pos f.2); lia).
    apply dreads_head; [done|done|lia|]. apply dreads_get. intros d ->.
    apply dreads_container; [done|done|lia|]. apply dreads_ensure; [lia|]. apply dreads_map; [lia|].
    unfold len. rewrite Nat2Z.id. apply dreads_fields; [|done]. apply Forall_forall. intros f I0.
    rewrite Forall_forall in Ff, Fl. destruct (Ff f I0). split; [done|]. apply IH; auto.
  - destruct b; change 1 with (1 + 0); (apply dreads_bump; [done|]);
      rewrite <- (app_nil_r [_]); change 0 with (0 + 0);
      (eapply dreads_bind; [done|done|apply dreads_byte|apply dreads_ret]).
  - change 1 with (1 + 0). apply dreads_bump; [done|]. rewrite <- (app_nil_r [xf6]). change 0 with (0 + 0).
    eapply dreads_bind; [done|done|apply dreads_byte|]. apply dreads_ret.
Qed.

(** *** Whatever the decoder accepts is an encoding *)
Lemma bump_inv p i u d' :
  at_ok p i -> CborDecoder_bump_item (st p i) = Ok (u, d') -> d' = st p (i + 1) /\ at_ok p (i + 1).
Proof.
  intros (G1 & G2) E. destruct OK. unfold CborDecoder_bump_item, saturating_add in E.
  cbn [cd_items cd_limits cd_input cd_position st] in E. rewrite Z.min_r in E by lia.
  destruct (Z.ltb_spec (max_items L) (i + 1)); [done|]. injection E as <- <-. split; [done|].
  unfold at_ok. lia.
Qed.

Lemma ensure_inv k d u d' : CborDecoder_ensure_future_items k d = Ok (u, d') -> d' = d.
Proof. unfold CborDecoder_ensure_future_items. zcase; [done|]. by intros [= _ <-]. Qed.

Lemma string_length_inv a p i n d' :
  0 <= a < 32 -> at_ok p i -> CborDecoder_string_length a (st p i) = Ok (n, d') ->
  (u64 n /\ a = head_info n /\ here p (head_tail n) /\ d' = st (p + len (head_tail n)) i) /\
  n <= max_string_bytes L.
Proof.
  intros Ha G E. unfold CborDecoder_string_length in E. apply st_bind_Ok in E as (k & d1 & E1 & E).
  apply argument_inv in E1 as (U & -> & Hh & ->); [|done|done].
  apply st_bind_Ok in E as (d2 & d3 & E2 & E). injection E2 as <- <-.
  apply st_bind_Ok in E as (u & d4 & E3 & E). apply st_lift_Ok in E3 as (E3 & ->).
  apply assert_or_Ok, Z.leb_le in E3. by injection E as <- <-.
Qed.

Lemma container_length_inv a maximum p i n d' :
  0 <= a < 32 -> at_ok p i -> CborDecoder_container_length a maximum (st p i) = Ok (n, d') ->
  (u64 n /\ a = head_info n /\ here p (head_tail n) /\ d' = st (p + len (head_tail n)) i) /\ n <= maximum.
Proof.
  intros Ha G E. unfold CborDecoder_container_length in E. apply st_bind_Ok in E as (k & d1 & E1 & E).
  apply argument_inv in E1 as (U & -> & Hh & ->); [|done|done].
  apply st_bind_Ok in E as (u & d4 & E3 & E). apply st_lift_Ok in E3 as (E3 & ->).
  apply assert_or_Ok, Z.leb_le in E3. by injection E as <- <-.
Qed.

Lemma at_ok_here p i bs : at_ok p i -> here p bs -> at_ok (p + len bs) i.
Proof. intros (_ & G2) H. apply here_bound in H. pose proof (len_nonneg bs). unfold at_ok. lia. Qed.

Lemma read_values_inv m P n :
  dinv m cbor_bytes cbor_items P ->
  dinv (read_values m n) (fun vs => mjoin (map cbor_bytes vs)) (fun vs => sum_of (map cbor_items vs))
    (fun vs => length vs = n /\ Forall P vs).
Proof.
  intros M. induction n as [|n IH]; intros p i vs d' G E; cbn [read_values] in E.
  - injection E as <- <-. change (len (mjoin (map cbor_bytes []))) with 0.
    change (sum_of (map cbor_items [])) with 0. rewrite !Z.add_0_r.
    split; [apply here_nil, G|]. done.
  - apply st_bind_Ok in E as (v & d1 & E1 & E). apply M in E1 as (Hv & -> & G1 & Pv); [|done].
    apply st_bind_Ok in E as (ws & d2 & E2 & E). apply IH in E2 as (Hw & -> & G2 & Ln & Fw); [|done].
    injection E as <- <-. cbn [map]. rewrite join_cons, len_app, here_app.
    change (sum_of (cbor_items v :: ?l)) with (cbor_items v + sum_of l). rewrite !Z.add_assoc.
    split; [done|]. split; [done|]. split; [done|]. cbn [length]. split; [by rewrite Ln|by constructor].
Qed.

Lemma read_fields_inv m P n previous :
  dinv m cbor_bytes cbor_items P ->
  dinv (read_fields m n previous)
    (fun fs => mjoin (map (fun f => encode_head 0 f.1 ++ cbor_bytes f.2) fs))
    (fun fs => sum_of (map (fun f => 1 + cbor_items f.2) fs))
    (fun fs => length fs = n /\ increasing_keys previous fs = Ok tt /\ Forall (fun f => u64 f.1 /\ P f.2) fs).
Proof.
  intros M. revert previous. induction n as [|n IH]; intros previous p i fs d' G E; cbn [read_fields] in E.
  - injection E as <- <-. cbn [map]. change (len (mjoin [])) with 0. change (sum_of []) with 0.
    rewrite !Z.add_0_r. split; [apply here_nil, G|]. done.
  - apply st_bind_Ok in E as (u & d1 & E1 & E). apply bump_inv in E1 as (-> & G1); [|done].
    apply st_bind_Ok in E as (b & d2 & E2 & E). apply byte_inv in E2 as (Hb & ->); [|done].
    apply st_bind_Ok in E as (u3 & d3 & E3 & E). apply st_lift_Ok in E3 as (E3 & ->).
    apply assert_or_Ok, Z.eqb_eq in E3. destruct (initial_byte_inv b) as (Eb & _ & Ra). rewrite E3 in Eb.
    pose proof (at_ok_here _ _ _ G1 Hb) as G2. change (len [b]) with 1 in G2.
    apply st_bind_Ok in E as (k & d4 & E4 & E). apply argument_inv in E4 as (U & Ea & Hk & ->); [|done|done].
    pose proof (at_ok_here _ _ _ G2 Hk) as G3.
    apply st_bind_Ok in E as (u5 & d5 & E5 & E). apply st_lift_Ok in E5 as (E5 & ->). apply assert_or_Ok in E5.
    apply st_bind_Ok in E as (v & d6 & E6 & E). apply M in E6 as (Hv & -> & G4 & Pv); [|done].
    apply st_bind_Ok in E as (gs & d7 & E7 & E). apply IH in E7 as (Hg & -> & G5 & Ln & K & F); [|done].
    injection E as <- <-. cbn [map fst snd]. rewrite join_cons.
    assert (encode_head 0 k = [b] ++ head_tail k) as Eh by (rewrite encode_head_split, <- Ea, <- Eb; done).
    rewrite Eh, !here_app, !len_app. change (len [b]) with 1.
    change (sum_of ((1 + cbor_items v) :: ?l)) with (1 + cbor_items v + sum_of l).
    rewrite !Z.add_assoc in *. split; [done|]. split; [done|]. split; [done|]. cbn [length].
    split; [by rewrite Ln|]. cbn [increasing_keys]. rewrite E5. split; [done|]. by constructor.
Qed.

Lemma CborDecoder_value_inv levels :
  dinv (CborDecoder_value levels) cbor_bytes cbor_items (fun v => value_typed v /\ value_fits levels v).
Proof.
  induction levels as [|levels IH]; intros p i v d' G E; cbn [CborDecoder_value] in E; [done|].
  apply st_bind_Ok in E as (u & d1 & E1 & E). apply bump_inv in E1 as (-> & G1); [|done].
  apply st_bind_Ok in E as (b & d2 & E2 & E). apply byte_inv in E2 as (Hb & ->); [|done]. cbv zeta in E.
  destruct (initial_byte_inv b) as (Eb & Rm & Ra).
  set (m := Z.shiftr (b2z b) 5) in *. set (a := Z.land (b2z b) 0x1f) in *. clearbody m a.
  pose proof (at_ok_here _ _ _ G1 Hb) as G2. change (len [b]) with 1 in G2.
  assert (forall n, a = head_info n -> encode_head m n = [b] ++ head_tail n) as Eh
    by (intros n ->; rewrite encode_head_split, <- Eb; done).
  assert (forall n body cnt v', a = head_info n -> here (p + 1) (head_tail n) ->
    here (p + 1 + len (head_tail n)) body -> cbor_bytes v' = encode_head m n ++ body ->
    cbor_items v' = 1 + cnt -> at_ok (p + 1 + len (head_tail n)) (i + 1 + cnt) ->
    d' = st (p + 1 + len (head_tail n) + len body) (i + 1 + cnt) ->
    here p (cbor_bytes v') /\ d' = st (p + len (cbor_bytes v')) (i + cbor_items v') /\
    at_ok (p + len (cbor_bytes v')) (i + cbor_items v')) as Join.
  { intros n body cnt v' Ea H1 H2 -> -> Go ->. rewrite (Eh n Ea), <- app_assoc, !here_app, !len_app.
    change (len [b]) with 1. rewrite !Z.add_assoc. split; [done|]. split; [done|]. by apply at_ok_here. }
  assert (forall n v' cnt, a = head_info n -> here (p + 1) (head_tail n) -> cbor_bytes v' = encode_head m n ->
    cbor_items v' = 1 -> cnt = i + 1 -> d' = st (p + 1 + len (head_tail n)) cnt ->
    here p (cbor_bytes v') /\ d' = st (p + len (cbor_bytes v')) (i + cbor_items v') /\
    at_ok (p + len (cbor_bytes v')) (i + cbor_items v')) as Join0.
  { intros n v' cnt Ea H1 E1 E2 -> Ed. pose proof (at_ok_here _ _ _ G2 H1) as G3.
    apply (Join n [] 0); [done|done|apply here_nil, G3|by rewrite app_nil_r|done| |].
    - by rewrite Z.add_0_r.
    - change (len (@nil byte)) with 0. by rewrite !Z.add_0_r. }
  assert (m = 0 \/ m = 1 \/ m = 2 \/ m = 3 \/ m = 4 \/ m = 5 \/ m = 6 \/ m = 7) as Cm by lia.
  destruct Cm as [->|[->|[->|[->|[->|[->|[->| ->]]]]]]]; cbn [CborDecoder_dispatch] in E.
  - apply st_bind_Ok in E as (n & d3 & E3 & E). apply argument_inv in E3 as (U & Ea & Hn & ->); [|done|done].
    injection E as <- Ed. destruct (Join0 n (VUnsigned n) (i + 1)) as (? & ? & ?); [done..|].
    split_and!; try done. by constructor.
  - apply st_bind_Ok in E as (n & d3 & E3 & E). apply argument_inv in E3 as (U & Ea & Hn & ->); [|done|done].
    injection E as <- Ed. destruct (Join0 n (VNegative (-1 - n)) (i + 1)) as (? & ? & ?); try done.
    { cbn [cbor_bytes]. f_equal. lia. }
    split_and!; try done; [constructor; ulia|cbn; ulia].
  - apply st_bind_Ok in E as (n & d3 & E3 & E).
    apply string_length_inv in E3 as ((U & Ea & Hn & ->) & B); [|done|done].
    pose proof (at_ok_here _ _ _ G2 Hn) as G3.
    apply st_bind_Ok in E as (bs & d4 & E4 & E). apply slice_inv in E4 as (Hs & Ls & ->); [|ulia|done].
    injection E as <- Ed. subst n. pose proof (here_bound _ _ Hs). destruct OK. destruct G3.
    destruct (Join (len bs) bs 0 (VBytes bs)) as (? & ? & ?); rewrite ?Z.add_0_r; try done.
    split_and!; try done. constructor. lia.
  - apply st_bind_Ok in E as (n & d3 & E3 & E).
    apply string_length_inv in E3 as ((U & Ea & Hn & ->) & B); [|done|done].
    pose proof (at_ok_here _ _ _ G2 Hn) as G3.
    apply st_bind_Ok in E as (bs & d4 & E4 & E). apply slice_inv in E4 as (Hs & Ls & ->); [|ulia|done].
    apply st_bind_Ok in E as (u5 & d5 & E5 & E). apply st_lift_Ok in E5 as (E5 & ->). apply assert_or_Ok in E5.
    injection E as <- Ed. subst n. pose proof (here_bound _ _ Hs). destruct OK. destruct G3.
    destruct (Join (len bs) bs 0 (VText bs)) as (? & ? & ?); rewrite ?Z.add_0_r; try done.
    split_and!; try done. constructor; [lia|done].
  - apply st_bind_Ok in E as (d0 & d0' & E0 & E). injection E0 as <- <-.
    apply st_bind_Ok in E as (n & d3 & E3 & E).
    apply container_length_inv in E3 as ((U & Ea & Hn & ->) & B); [|done|done].
    pose proof (at_ok_here _ _ _ G2 Hn) as G3.
    apply st_bind_Ok in E as (u4 & d4 & E4 & E). apply ensure_inv in E4 as ->.
    apply st_bind_Ok in E as (vs & d5 & E5 & E).
    apply (read_values_inv _ _ _ IH) in E5 as (Hv & -> & G4 & Lv & Fv); [|done].
    injection E as <- Ed. assert (n = len vs) as -> by (unfold len; ulia).
    destruct (Join (len vs) (mjoin (map cbor_bytes vs)) (sum_of (map cbor_items vs)) (VArray vs))
      as (? & ? & ?); try done.
    { destruct G3, G4. unfold at_ok. lia. }
    apply Forall_and in Fv as (Fv1 & Fv2). destruct OK. cbn [cd_limits st] in B.
    split_and!; try done. constructor; [lia|done].
  - apply st_bind_Ok in E as (d0 & d0' & E0 & E). injection E0 as <- <-.
    apply st_bind_Ok in E as (n & d3 & E3 & E).
    apply container_length_inv in E3 as ((U & Ea & Hn & ->) & B); [|done|done].
    pose proof (at_ok_here _ _ _ G2 Hn) as G3.
    apply st_bind_Ok in E as (u4 & d4 & E4 & E). apply ensure_inv in E4 as ->.
    apply st_bind_Ok in E as (fs & d5 & E5 & E).
    apply (read_fields_inv _ _ _ _ IH) in E5 as (Hv & -> & G4 & Lv & K & Fv); [|done].
    injection E as <- Ed. assert (n = len fs) as -> by (unfold len; ulia).
    destruct (Join (len fs) (mjoin (map (fun f => encode_head 0 f.1 ++ cbor_bytes f.2) fs))
      (sum_of (map (fun f => 1 + cbor_items f.2) fs)) (VMap fs)) as (? & ? & ?); try done.
    { destruct G3, G4. unfold at_ok. lia. }
    destruct OK. cbn [cd_limits st] in B. split_and!; try done.
    + constructor; [lia|]. eapply Forall_impl; [exact Fv|]. by intros f (? & ? & ?).
    + split; [done|]. split; [by apply (increasing_keys_Sorted None)|].
      eapply Forall_impl; [exact Fv|]. by intros f (? & ? & ?).
  - discriminate E.
  - destruct (Z.eqb_spec a 20) as [->|]; [|destruct (Z.eqb_spec a 21) as [->|];
      [|destruct (Z.eqb_spec a 22) as [->|]]].
    4: destruct ((25 <=? a) && (a <=? 27)); [done|]; destruct (a =? 31); done.
    all: injection E as <- <-; rewrite Eb in Hb; (split; [exact Hb|]); (split; [done|]);
      (split; [exact G2|]); split; [by constructor|done].
Qed.

Lemma decode_strict_Ok v :
  decode_strict I L = Ok v <->
  value_typed v /\ value_fits (Z.to_nat (max_depth L)) v /\ cbor_items v <= max_items L /\
  I = cbor_bytes v.
Proof.
  unfold decode_strict. destruct OK as [D0 I0 B0 _ _].
  assert (validate_limits L = Ok tt) as ->.
  { unfold validate_limits. rewrite !(proj2 (Z.eqb_neq _ _)) by lia. done. }
  assert (at_ok 0 0) as G by (pose proof (len_nonneg I); unfold at_ok; lia).
  assert (forall bs, here 0 bs -> len bs = len I -> bs = I) as Full.
  { intros bs (a & c & E & La) Lb. destruct a; [|rewrite len_cons in La; pose proof (len_nonneg a); lia].
    rewrite E in Lb. cbn [app] in *. rewrite len_app in Lb.
    destruct c; [by rewrite app_nil_r in E|]. rewrite len_cons in Lb. pose proof (len_nonneg c). lia. }
  cbn [mbind result_bind]. split.
  - intros H. apply bind_Ok in H as (u & N & H). apply bind_Ok in H as (u' & _ & H).
    apply bind_Ok in H as ([w d] & E & H). apply bind_Ok in H as (u'' & P & [= <-]).
    apply (CborDecoder_value_inv _ 0 0) in E as (Hh & -> & (_ & Gi) & T & F); [|done].
    apply assert_or_Ok, Z.eqb_eq in P. cbn [cd_position st] in P. rewrite Z.add_0_l in *.
    split; [done|]. split; [done|]. split; [lia|]. symmetry. by apply Full.
  - intros (T & F & Ci & E). pose proof (len_nonneg I).
    assert (1 <= len I) as Ne by (rewrite E; apply cbor_bytes_pos).
    rewrite (proj2 (Z.eqb_neq (len I) 0)) by lia. cbn [negb assert_or mbind result_bind].
    rewrite (proj2 (Z.leb_le (len I) (max_bytes L))) by done. cbn [assert_or mbind result_bind].
    fold (st 0 0). rewrite (CborDecoder_value_reads _ v T F 0 0).
    + cbn [mbind result_bind cd_position st]. rewrite <- E, Z.add_0_l, Z.eqb_refl. done.
    + rewrite <- E. exists [], []. by rewrite app_nil_r.
    + done.
    + lia.
Qed.

End limits.

(** ** Theorems *)
Lemma decode_strict_bound input limits v : decode_strict input limits = Ok v -> len input <= max_bytes limits.
Proof.
  unfold decode_strict. intros H. apply bind_Ok in H as (u & _ & H). apply bind_Ok in H as (u' & _ & H).
  apply bind_Ok in H as (u2 & B & _). by apply assert_or_Ok, Z.leb_le in B.
Qed.

Lemma decode_strict_encodes limits input v :
  limits_ok limits ->
  decode_strict input limits = Ok v <->
  value_typed v /\ encode_canonical_with_limits v limits = Ok input.
Proof.
  intros OK. rewrite (encode_canonical_with_limits_Ok limits OK). split.
  - intros H. pose proof (decode_strict_bound _ _ _ H) as B.
    apply (decode_strict_Ok limits OK input B) in H as (T & F & Ci & E). done.
  - intros (T & F & Ci & B & E). by apply (decode_strict_Ok limits OK input B).
Qed.

(** The comparison with the re-encoding never fails. *)
Lemma decode_canonical_strict limits input : limits_ok limits -> decode_canonical input limits = decode_strict input limits.
Proof.
  intros OK. unfold decode_canonical. destruct (decode_strict input limits) as [v|e] eqn:D; [|done].
  apply (decode_strict_encodes limits input v OK) in D as (_ & D). cbn [mbind result_bind].
  rewrite D. cbn [mbind result_bind]. by rewrite bool_decide_eqb_refl.
Qed.

Lemma decode_canonical_encodes limits input v :
  limits_ok limits ->
  decode_canonical input limits = Ok v <-> value_typed v /\ encode_canonical_with_limits v limits = Ok input.
Proof. intros OK. rewrite decode_canonical_strict by done. by apply decode_strict_encodes. Qed.

(** The CBOR codec is canonical: the decoder accepts an input exactly when it
    is the encoding of a well-typed value within the limits, and returns that
    value. So no two inputs decode to one value, no value has two encodings, and
    the decoder's final comparison with the re-encoding never fails. *)
Theorem cbor_codec limits input :
  limits_ok limits ->
  (forall v, decode_canonical input limits = Ok v <->
    value_typed v /\ encode_canonical_with_limits v limits = Ok input) /\
  decode_canonical input limits = decode_strict input limits.
Proof. intros OK. split; [|by apply decode_canonical_strict]. intros v. by apply decode_canonical_encodes. Qed.

Lemma default_limits_ok : limits_ok DecodeLimits_default.
Proof. split; vm_compute; (split + idtac); congruence. Qed.

Lemma cbor_codec_witness :
  decode_canonical (octets [0xa1; 0x18; 0x64; 0x81; 0xf5]) DecodeLimits_default =
    Ok (VMap [(100, VArray [VBool true])]).
Proof.
  destruct (cbor_codec DecodeLimits_default (octets [0xa1; 0x18; 0x64; 0x81; 0xf5]) default_limits_ok)
    as (H & _).
  apply (proj2 (H _)). split.
  - repeat constructor; vm_compute; congruence.
  - vm_compute. reflexivity.
Defined.

(** Encoding succeeds exactly within the limits, and writes the preferred
    form: nesting no deeper than allowed, strings and containers within their
    bounds, map keys strictly increasing, negative numbers in CBOR's range, item
    count and length within the totals. *)
Theorem cbor_encode_iff limits v bs :
  limits_ok limits ->
  encode_canonical_with_limits v limits = Ok bs <->
  value_fits limits (Z.to_nat (max_depth limits)) v /\ cbor_items v <= max_items limits /\
  len bs <= max_bytes limits /\ bs = cbor_bytes v.
Proof. intros OK. exact (encode_canonical_with_limits_Ok limits OK v bs). Qed.

Definition small_limits : DecodeLimits := mkLimits 2 4 16 3 3 8.

Lemma cbor_encode_iff_witness :
  encode_canonical_with_limits (VArray [VUnsigned 500; VNull]) small_limits =
    Ok (octets [0x82; 0x19; 0x01; 0xf4; 0xf6]).
Proof.
  assert (limits_ok small_limits) as K by (split; vm_compute; (split + idtac); congruence).
  apply (proj2 (cbor_encode_iff small_limits (VArray [VUnsigned 500; VNull])
    (octets [0x82; 0x19; 0x01; 0xf4; 0xf6]) K)).
  vm_compute. repeat (split || constructor || congruence).
Defined.
