(* ===== verification/ScriptSteps.v ===== *)
(** * Executing scripts step by step

    What each opcode of the swap and HTLC scripts does, as equivalences: an
    instruction succeeds exactly when its operands are there and its checks pass,
    and then leaves a known machine. A script's theorem chains them. *)

From S2P Require Import Prelude Encoding Primitives Covenants Transaction Script Interpreter.
Local Open Scope Z_scope.

Definition bool_bytes (b : bool) : list byte := if b then [x01] else [].

Lemma cast_bool_bytes b : cast_to_bool (bool_bytes b) = b.
Proof. by destruct b. Qed.

(** Room on the stacks after an instruction. *)
Definition room (stack alt : list (list byte)) : Prop := len stack + len alt <= MAX_SCRIPT_STACK.

Lemma enforce_Ok stack alt u : enforce_stack_limit stack alt = Ok u <-> room stack alt.
Proof.
  unfold enforce_stack_limit, saturating_add, room, MAX_SCRIPT_STACK. rewrite assert_or_Ok, Z.leb_le.
  pose proof (len_nonneg stack). pose proof (len_nonneg alt). ulia.
Qed.

Lemma require_two s : require_stack s 2 = Ok tt <-> exists r x y, s = r ++ [x] ++ [y].
Proof.
  unfold require_stack. rewrite assert_or_Ok, Z.leb_le. split.
  - intros L. destruct s as [|y s _] using rev_ind; [by vm_compute in L|].
    destruct s as [|x s _] using rev_ind; [by vm_compute in L|]. exists s, x, y. by rewrite app_assoc.
  - intros (r & x & y & ->). rewrite !len_app. pose proof (len_nonneg r). change (len [x]) with 1.
    change (len [y]) with 1. lia.
Qed.

(** Well-formed opcodes and direct pushes, by computation on the opcode. *)
Lemma opcode_wf op a b :
  (0 <=? op) && (op <? 256) && negb ((1 <=? op) && (op <=? OP_PUSHDATA4)) = true ->
  instruction_wf (mkInstruction op None a b).
Proof.
  rewrite !andb_true_iff, negb_true_iff, andb_false_iff, Z.leb_le, Z.ltb_lt, !Z.leb_gt.
  unfold instruction_wf. cbn [ins_opcode ins_data]. lia.
Qed.

Lemma push_wf data a b :
  1 <= len data <= 0x4b -> instruction_wf (mkInstruction (len data) (Some data) a b).
Proof. intros L. split; cbn [ins_opcode ins_data]; [lia|]. left. lia. Qed.

Lemma minimal_direct data : 2 <= len data <= 75 -> is_minimal_push (len data) data = true.
Proof.
  intros L. unfold is_minimal_push. rewrite (proj2 (Z.leb_le (len data) 75)), Z.eqb_refl by lia.
  destruct data as [|x [|y data]]; [slen; lia..|done].
Qed.

Section steps.
Context {CR : Crypto} {DG : ScriptDigests} {SV : SignatureVerifier}.
Context (script : list byte) (tx : Transaction) (index value flags : Z).

Abbreviation exec := (execute_instruction script tx index value flags).

Lemma loop_cons i rest m m' :
  execute_loop script tx index value flags (i :: rest) m = Ok m' <->
  exists m1, exec i m = Ok m1 /\ execute_loop script tx index value flags rest m1 = Ok m'.
Proof. cbn [execute_loop]. apply bind_Ok. Qed.

Lemma loop_det i rest m m1 :
  exec i m = Ok m1 ->
  execute_loop script tx index value flags (i :: rest) m = execute_loop script tx index value flags rest m1.
Proof. intros E. cbn [execute_loop]. by rewrite E. Qed.

Lemma loop_nil m m' : execute_loop script tx index value flags [] m = Ok m' <-> m = m'.
Proof. cbn [execute_loop]. split; [by intros [= ->]|by intros ->]. Qed.

(** An executed opcode above the number opcodes costs one operation. *)
Lemma exec_active i stack alt conds c sep m' :
  ins_data i = None -> OP_16 < ins_opcode i -> is_disabled_opcode (ins_opcode i) = false ->
  all_true conds = true \/ ((OP_IF <=? ins_opcode i) && (ins_opcode i <=? OP_ENDIF) = true) -> 0 <= c ->
  exec i (mkMachine stack alt conds c sep) = Ok m' <->
  c < MAX_SCRIPT_OPS /\
  execute_opcode script tx index value flags i (mkMachine stack alt conds (c + 1) sep) = Ok m' /\
  room (m_stack m') (m_alt_stack m').
Proof.
  intros Ed Ho Nd A Hc. unfold execute_instruction. rewrite Ed, (proj2 (Z.ltb_lt _ _)), Nd by done.
  cbn [m_operation_count negb assert_or mbind result_bind]. unfold MAX_SCRIPT_OPS.
  destruct (Z.leb_spec (c + 1) 201) as [L|L].
  - unfold checked_add. rewrite (proj2 (Z.leb_le (c + 1) usize_max)) by ulia. cbn [ok_or mbind result_bind].
    rewrite (proj2 (Z.leb_le (c + 1) 201)) by lia. cbn [assert_or mbind result_bind m_conditions].
    assert ((negb (all_true conds) && negb ((OP_IF <=? ins_opcode i) && (ins_opcode i <=? OP_ENDIF))) = false) as ->
      by (destruct A as [-> | ->]; [done|apply andb_false_r]).
    change (result_bind _ _ ?f ?m) with (m ≫= f). rewrite bind_Ok. setoid_rewrite bind_Ok.
    setoid_rewrite enforce_Ok. cbn [m_stack m_alt_stack]. split.
    + intros (m1 & E & u & R & [= <-]). split; [lia|done].
    + intros (_ & E & R). exists m'. split; [done|]. by exists tt.
  - split; [|lia]. unfold checked_add. destruct (c + 1 <=? usize_max); [|done].
    cbn [ok_or mbind result_bind]. by rewrite (proj2 (Z.leb_gt (c + 1) 201)) by lia.
Qed.

Lemma exec_skip i stack alt conds c sep m' :
  ins_data i = None -> OP_16 < ins_opcode i -> is_disabled_opcode (ins_opcode i) = false ->
  all_true conds = false -> (OP_IF <=? ins_opcode i) && (ins_opcode i <=? OP_ENDIF) = false -> 0 <= c ->
  exec i (mkMachine stack alt conds c sep) = Ok m' <->
  c < MAX_SCRIPT_OPS /\ m' = mkMachine stack alt conds (c + 1) sep /\ room stack alt.
Proof.
  intros Ed Ho Nd A B Hc. unfold execute_instruction. rewrite Ed, (proj2 (Z.ltb_lt _ _)), Nd by done.
  cbn [m_operation_count negb assert_or mbind result_bind]. unfold MAX_SCRIPT_OPS.
  destruct (Z.leb_spec (c + 1) 201) as [L|L].
  - unfold checked_add. rewrite (proj2 (Z.leb_le (c + 1) usize_max)) by ulia. cbn [ok_or mbind result_bind].
    rewrite (proj2 (Z.leb_le (c + 1) 201)) by lia. cbn [assert_or mbind result_bind m_conditions].
    rewrite A, B. cbn [negb andb]. cbn [mbind result_bind m_stack m_alt_stack].
    change (result_bind _ _ ?f ?m) with (m ≫= f). rewrite bind_Ok. setoid_rewrite enforce_Ok. split.
    + intros (u & R & [= <-]). split; [lia|done].
    + intros (_ & -> & R). by exists tt.
  - split; [|lia]. unfold checked_add. destruct (c + 1 <=? usize_max); [|done].
    cbn [ok_or mbind result_bind]. by rewrite (proj2 (Z.leb_gt (c + 1) 201)) by lia.
Qed.

(** Opcodes that execute. *)
Ltac active :=
  rewrite exec_active by (done || (by left) || by vm_compute); unfold execute_opcode;
  cbn [ins_opcode ins_end m_stack m_alt_stack m_conditions m_operation_count m_last_separator]; closed_cmp.

Lemma exec_type a b stack alt conds c sep m' :
  all_true conds = true -> 0 <= c ->
  exec (mkInstruction OP_TYPE None a b) (mkMachine stack alt conds c sep) = Ok m' <->
  c < MAX_SCRIPT_OPS /\ room (stack ++ [encode_script_number (covenant_type tx index)]) alt /\
  m' = mkMachine (stack ++ [encode_script_number (covenant_type tx index)]) alt conds (c + 1) sep.
Proof.
  intros A C. active. unfold set_stack, push. cbn [m_stack m_alt_stack m_conditions m_operation_count m_last_separator].
  split; [by intros (? & [= <-] & ?)|by intros (? & ? & ->)].
Qed.

Lemma small_not_disabled n : 1 <= n <= 16 -> is_disabled_opcode (OP_1 + n - 1) = false.
Proof.
  intros N. apply bool_decide_eq_false. unfold OP_CAT, OP_SUBSTR, OP_LEFT, OP_RIGHT, OP_INVERT, OP_AND,
    OP_OR, OP_XOR, OP_2MUL, OP_2DIV, OP_MUL, OP_DIV, OP_MOD, OP_LSHIFT, OP_RSHIFT, OP_1.
  rewrite !elem_of_cons, elem_of_nil. lia.
Qed.

Lemma exec_small n a b stack alt conds c sep m' :
  1 <= n <= 16 -> all_true conds = true ->
  exec (mkInstruction (OP_1 + n - 1) None a b) (mkMachine stack alt conds c sep) = Ok m' <->
  room (stack ++ [encode_script_number n]) alt /\
  m' = mkMachine (stack ++ [encode_script_number n]) alt conds c sep.
Proof.
  intros N A. unfold execute_instruction. cbn [ins_data ins_opcode negb assert_or mbind result_bind].
  assert ((OP_16 <? OP_1 + n - 1) = false) as -> by (apply Z.ltb_ge; unfold OP_16, OP_1; lia).
  cbn [mbind result_bind m_operation_count m_stack m_alt_stack m_conditions m_last_separator].
  rewrite small_not_disabled by done. cbn [negb assert_or mbind result_bind]. rewrite A. cbn [negb andb]. unfold execute_opcode.
  cbn [ins_opcode m_stack]. change (result_bind _ _ ?f ?m) with (m ≫= f).
  rewrite (proj2 (Z.eqb_neq (OP_1 + n - 1) OP_0)) by (unfold OP_1, OP_0; lia).
  rewrite (proj2 (Z.eqb_neq (OP_1 + n - 1) OP_1NEGATE)) by (unfold OP_1, OP_1NEGATE; lia).
  rewrite (proj2 (Z.leb_le OP_1 (OP_1 + n - 1))) by lia.
  rewrite (proj2 (Z.leb_le (OP_1 + n - 1) OP_16)) by (unfold OP_1, OP_16; lia). cbn [andb].
  replace (OP_1 + n - 1 - OP_1 + 1) with n by lia. cbn [mbind result_bind].
  change (result_bind _ _ ?f ?m) with (m ≫= f). rewrite bind_Ok. setoid_rewrite enforce_Ok.
  unfold set_stack, push. cbn [m_stack m_alt_stack m_conditions m_operation_count m_last_separator].
  split; [by intros (u & R & [= <-])|]. intros (R & ->). by exists tt.
Qed.

(** Number opcodes in a branch not taken. *)
Lemma exec_skip_small n a b stack alt conds c sep m' :
  1 <= n <= 16 -> all_true conds = false ->
  exec (mkInstruction (OP_1 + n - 1) None a b) (mkMachine stack alt conds c sep) = Ok m' <->
  room stack alt /\ m' = mkMachine stack alt conds c sep.
Proof.
  intros N A. unfold execute_instruction. cbn [ins_data ins_opcode negb assert_or mbind result_bind].
  assert ((OP_16 <? OP_1 + n - 1) = false) as -> by (apply Z.ltb_ge; unfold OP_16, OP_1; lia).
  cbn [mbind result_bind m_operation_count m_stack m_alt_stack m_conditions m_last_separator].
  rewrite small_not_disabled by done. cbn [negb assert_or mbind result_bind]. rewrite A.
  rewrite (proj2 (Z.leb_gt OP_IF _)) by (unfold OP_IF, OP_1; lia).
  cbn [negb andb mbind result_bind m_stack m_alt_stack]. change (result_bind _ _ ?f ?m) with (m ≫= f).
  rewrite bind_Ok. setoid_rewrite enforce_Ok. split; [by intros (u & R & [= <-])|]. intros (R & ->). by exists tt.
Qed.

Lemma exec_push op data a b stack alt conds c sep m' :
  op <= 0x4b -> is_minimal_push op data = true -> len data <= MAX_SCRIPT_PUSH -> all_true conds = true ->
  exec (mkInstruction op (Some data) a b) (mkMachine stack alt conds c sep) = Ok m' <->
  room (stack ++ [data]) alt /\ m' = mkMachine (stack ++ [data]) alt conds c sep.
Proof.
  intros O M L A. rewrite (push_step _ _ _ _ _ _ data) by done. unfold push. rewrite bind_Ok.
  setoid_rewrite enforce_Ok. split; [by intros (u & R & [= <-])|]. intros (R & ->). by exists tt.
Qed.

Lemma exec_skip_push op data a b stack alt conds c sep m' :
  op <= OP_16 -> len data <= MAX_SCRIPT_PUSH -> is_disabled_opcode op = false -> all_true conds = false ->
  exec (mkInstruction op (Some data) a b) (mkMachine stack alt conds c sep) = Ok m' <->
  room stack alt /\ m' = mkMachine stack alt conds c sep.
Proof.
  intros O L Nd A. unfold execute_instruction. cbn [ins_data ins_opcode].
  rewrite (proj2 (Z.ltb_ge MAX_SCRIPT_PUSH _)), (proj2 (Z.ltb_ge OP_16 _)), Nd by done.
  cbn [m_operation_count negb assert_or mbind result_bind m_conditions m_stack m_alt_stack m_last_separator].
  rewrite A. replace ((OP_IF <=? op) && (op <=? OP_ENDIF)) with false.
  2: { symmetry. rewrite (proj2 (Z.leb_gt OP_IF op)); [done|]. unfold OP_IF, OP_16 in *. lia. }
  cbn [negb andb mbind result_bind m_stack m_alt_stack]. change (result_bind _ _ ?f ?m) with (m ≫= f).
  rewrite bind_Ok. setoid_rewrite enforce_Ok. split; [by intros (u & R & [= <-])|]. intros (R & ->). by exists tt.
Qed.

(** The two-operand comparison. *)
Lemma equal_op_Ok op stack s' :
  op = OP_EQUAL \/ op = OP_EQUALVERIFY ->
  numeric_op flags op stack = Some (Ok s') <->
  exists r x y, stack = r ++ [x] ++ [y] /\
    (if op =? OP_EQUALVERIFY then x = y /\ s' = r else s' = r ++ [bool_bytes (bool_decide (x = y))]).
Proof.
  intros O. unfold numeric_op.
  assert ((op =? OP_EQUAL) || (op =? OP_EQUALVERIFY) = true) as -> by (destruct O as [-> | ->]; done).
  split.
  - intros [= E]. apply bind_Ok in E as ([] & R & E). apply require_two in R as (r & x & y & ->).
    rewrite app_assoc, pop_snoc in E. cbn [mbind result_bind] in E. rewrite pop_snoc in E.
    cbn [mbind result_bind] in E. exists r, x, y. split; [done|].
    destruct (op =? OP_EQUALVERIFY).
    + apply bind_Ok in E as (u & B & [= <-]). by apply assert_or_Ok, bool_decide_eq_true in B.
    + injection E as <-. done.
  - intros (r & x & y & -> & E). f_equal. rewrite (proj2 (require_two _)) by (by exists r, x, y).
    cbn [mbind result_bind]. rewrite app_assoc, pop_snoc. cbn [mbind result_bind]. rewrite pop_snoc.
    cbn [mbind result_bind]. destruct (op =? OP_EQUALVERIFY).
    + destruct E as (-> & ->). by rewrite bool_decide_eqb_refl.
    + by rewrite E.
Qed.

Lemma exec_equal a b stack alt conds c sep m' :
  all_true conds = true -> 0 <= c ->
  exec (mkInstruction OP_EQUAL None a b) (mkMachine stack alt conds c sep) = Ok m' <->
  c < MAX_SCRIPT_OPS /\ exists r x y, stack = r ++ [x] ++ [y] /\
    room (r ++ [bool_bytes (bool_decide (x = y))]) alt /\
    m' = mkMachine (r ++ [bool_bytes (bool_decide (x = y))]) alt conds (c + 1) sep.
Proof.
  intros A C. active. change (stack_op flags OP_EQUAL stack) with (@None (result ScriptError (list (list byte)))).
  destruct (numeric_op flags OP_EQUAL stack) as [[s'|e]|] eqn:E.
  - apply equal_op_Ok in E as (r & x & y & -> & E); [|by left].
    change (OP_EQUAL =? OP_EQUALVERIFY) with false in E. cbv iota in E. subst s'.
    unfold on_stack, set_stack. cbn [mbind result_bind m_stack m_alt_stack m_conditions m_operation_count m_last_separator].
    split.
    + intros (Hc & [= <-] & R). split; [done|]. by exists r, x, y.
    + intros (Hc & r' & x' & y' & Es & R & ->). rewrite !app_assoc in Es.
      apply app_inj_tail in Es as (Es & ->). apply app_inj_tail in Es as (-> & ->). done.
  - split; [by intros (_ & ? & _)|]. intros (_ & r & x & y & -> & _).
    rewrite (proj2 (equal_op_Ok OP_EQUAL _ (r ++ [bool_bytes (bool_decide (x = y))]) (or_introl eq_refl))) in E; [done|].
    by exists r, x, y.
  - unfold numeric_op in E. by closed_cmp.
Qed.

Lemma exec_equalverify a b stack alt conds c sep m' :
  all_true conds = true -> 0 <= c ->
  exec (mkInstruction OP_EQUALVERIFY None a b) (mkMachine stack alt conds c sep) = Ok m' <->
  c < MAX_SCRIPT_OPS /\ exists r x, stack = r ++ [x] ++ [x] /\ room r alt /\
    m' = mkMachine r alt conds (c + 1) sep.
Proof.
  intros A C. active.
  change (stack_op flags OP_EQUALVERIFY stack) with (@None (result ScriptError (list (list byte)))).
  destruct (numeric_op flags OP_EQUALVERIFY stack) as [[s'|e]|] eqn:E.
  - apply equal_op_Ok in E as (r & x & y & -> & E); [|by right].
    change (OP_EQUALVERIFY =? OP_EQUALVERIFY) with true in E. cbv iota in E. destruct E as (-> & ->).
    unfold on_stack, set_stack. cbn [mbind result_bind m_stack m_alt_stack m_conditions m_operation_count m_last_separator].
    split.
    + intros (Hc & [= <-] & R). split; [done|]. by exists r, y.
    + intros (Hc & r' & x' & Es & R & ->). rewrite !app_assoc in Es.
      apply app_inj_tail in Es as (Es & ->). by apply app_inj_tail in Es as (-> & _).
  - split; [by intros (_ & ? & _)|]. intros (_ & r & x & -> & _).
    rewrite (proj2 (equal_op_Ok OP_EQUALVERIFY _ r (or_intror eq_refl))) in E; [done|]. by exists r, x, x.
  - unfold numeric_op in E. by closed_cmp.
Qed.

(** Conditionals. *)
Lemma exec_if a b stack alt conds c sep m' :
  all_true conds = true -> 0 <= c ->
  exec (mkInstruction OP_IF None a b) (mkMachine stack alt conds c sep) = Ok m' <->
  c < MAX_SCRIPT_OPS /\ exists r x, stack = r ++ [x] /\
    (flags_contains flags VERIFY_MINIMAL_IF = true -> x = [] \/ x = [x01]) /\ room r alt /\
    m' = mkMachine r alt (conds ++ [cast_to_bool x]) (c + 1) sep.
Proof.
  intros A C. active. unfold branch_op. cbn [m_conditions m_stack]. rewrite A.
  unfold set_conditions, set_stack. cbn [m_stack m_alt_stack m_conditions m_operation_count m_last_separator].
  change (OP_IF =? OP_NOTIF) with false. cbv iota. split.
  - intros (Hc & E & R). split; [done|]. apply bind_Ok in E as ([x r] & P & E).
    apply ok_or_Ok, vec_pop_Some in P as ->. apply bind_Ok in E as (u & M & [= <-]).
    exists r, x. split; [done|]. split; [|done]. intros F. apply assert_or_Ok, negb_true_iff in M.
    rewrite F in M. cbn [andb] in M. apply negb_false_iff, orb_true_iff in M as [M|M].
    + left. apply Z.eqb_eq in M. by destruct x.
    + right. by apply bool_decide_eq_true in M.
  - intros (Hc & r & x & -> & M & R & ->). split; [done|]. split; [|done].
    rewrite vec_pop_snoc. cbn [ok_or mbind result_bind].
    assert (negb (flags_contains flags VERIFY_MINIMAL_IF && negb ((len x =? 0) || bool_decide (x = [x01]))) = true) as ->; [|done].
    destruct (flags_contains flags VERIFY_MINIMAL_IF); [|done]. destruct (M eq_refl) as [-> | ->]; [done|].
    by rewrite bool_decide_eq_true_2.
Qed.

Lemma exec_else a b stack alt conds d c sep m' :
  0 <= c ->
  exec (mkInstruction OP_ELSE None a b) (mkMachine stack alt (conds ++ [d]) c sep) = Ok m' <->
  c < MAX_SCRIPT_OPS /\ room stack alt /\ m' = mkMachine stack alt (conds ++ [negb d]) (c + 1) sep.
Proof.
  intros C. rewrite exec_active; [|done|done|done|by right|done]. unfold execute_opcode.
  cbn [ins_opcode m_stack]. closed_cmp. unfold else_op, set_conditions.
  cbn [m_stack m_alt_stack m_conditions m_operation_count m_last_separator].
  rewrite last_snoc, length_app. cbn [length]. rewrite Nat.add_sub, take_app_length.
  split; [by intros (? & [= <-] & ?)|by intros (? & ? & ->)].
Qed.

Lemma exec_endif a b stack alt conds d c sep m' :
  0 <= c ->
  exec (mkInstruction OP_ENDIF None a b) (mkMachine stack alt (conds ++ [d]) c sep) = Ok m' <->
  c < MAX_SCRIPT_OPS /\ room stack alt /\ m' = mkMachine stack alt conds (c + 1) sep.
Proof.
  intros C. rewrite exec_active; [|done|done|done|by right|done]. unfold execute_opcode.
  cbn [ins_opcode m_stack]. closed_cmp. unfold endif_op, set_conditions.
  cbn [m_stack m_alt_stack m_conditions m_operation_count m_last_separator].
  rewrite last_snoc, length_app. cbn [length]. rewrite Nat.add_sub, take_app_length.
  split; [by intros (? & [= <-] & ?)|by intros (? & ? & ->)].
Qed.

(** Signatures, digests, drops and lock times. *)
Lemma exec_checksig a b stack alt conds c sep m' :
  all_true conds = true -> 0 <= c ->
  exec (mkInstruction OP_CHECKSIG None a b) (mkMachine stack alt conds c sep) = Ok m' <->
  c < MAX_SCRIPT_OPS /\ exists r sig key valid, stack = r ++ [sig] ++ [key] /\
    check_signature tx index value (drop (Z.to_nat sep) script) sig key = Ok valid /\
    (valid = false -> flags_contains flags VERIFY_NULLFAIL = true -> len sig = 0) /\
    room (r ++ [bool_bytes valid]) alt /\
    m' = mkMachine (r ++ [bool_bytes valid]) alt conds (c + 1) sep.
Proof.
  intros A C. active. unfold checksig_op, set_stack, push_bool, push.
  cbn [m_stack m_alt_stack m_conditions m_operation_count m_last_separator].
  change (OP_CHECKSIG =? OP_CHECKSIGVERIFY) with false. cbv iota. split.
  - intros (Hc & E & R). split; [done|]. apply bind_Ok in E as ([] & Q & E).
    apply require_two in Q as (r & sig & key & ->). rewrite app_assoc, pop_snoc in E.
    cbn [mbind result_bind] in E. rewrite pop_snoc in E. cbn [mbind result_bind] in E.
    apply bind_Ok in E as (valid & V & E). apply bind_Ok in E as (u & N & [= <-]).
    exists r, sig, key, valid. split; [by rewrite app_assoc|]. split; [done|]. split; [|done].
    intros -> F. apply assert_or_Ok, negb_true_iff in N. rewrite F in N. cbn [negb andb] in N.
    by apply negb_false_iff, Z.eqb_eq in N.
  - intros (Hc & r & sig & key & valid & -> & V & N & R & ->). split; [done|]. split; [|done].
    rewrite (proj2 (require_two _)) by (by exists r, sig, key). cbn [mbind result_bind].
    rewrite app_assoc, pop_snoc. cbn [mbind result_bind]. rewrite pop_snoc. cbn [mbind result_bind].
    rewrite V. cbn [mbind result_bind].
    assert (negb (negb valid && flags_contains flags VERIFY_NULLFAIL && negb (len sig =? 0)) = true) as ->; [|done].
    destruct valid; [done|]. destruct (flags_contains flags VERIFY_NULLFAIL); [|done].
    by rewrite N.
Qed.

Lemma exec_sha256 a b stack alt conds c sep m' :
  all_true conds = true -> 0 <= c ->
  exec (mkInstruction OP_SHA256 None a b) (mkMachine stack alt conds c sep) = Ok m' <->
  c < MAX_SCRIPT_OPS /\ exists r x, stack = r ++ [x] /\ room (r ++ [sha256 x]) alt /\
    m' = mkMachine (r ++ [sha256 x]) alt conds (c + 1) sep.
Proof.
  intros A C. active. unfold stack_op, numeric_op, digest_op. closed_cmp.
  change (is_unary OP_SHA256) with false. change (is_binary OP_SHA256) with false.
  change (is_digest OP_SHA256) with true. cbv iota. unfold on_stack, set_stack, push.
  cbn [m_stack m_alt_stack m_conditions m_operation_count m_last_separator]. split.
  - intros (Hc & E & R). split; [done|]. apply bind_Ok in E as (s1 & E & [= <-]).
    apply bind_Ok in E as ([x r] & P & [= <-]). apply pop_Ok in P as ->. by exists r, x.
  - intros (Hc & r & x & -> & R & ->). split; [done|]. split; [|done]. by rewrite pop_snoc.
Qed.

Lemma exec_drop a b stack alt conds c sep m' :
  all_true conds = true -> 0 <= c ->
  exec (mkInstruction OP_DROP None a b) (mkMachine stack alt conds c sep) = Ok m' <->
  c < MAX_SCRIPT_OPS /\ exists r x, stack = r ++ [x] /\ room r alt /\
    m' = mkMachine r alt conds (c + 1) sep.
Proof.
  intros A C. active. unfold stack_op. closed_cmp. unfold on_stack, set_stack.
  cbn [m_stack m_alt_stack m_conditions m_operation_count m_last_separator]. split.
  - intros (Hc & E & R). split; [done|]. apply bind_Ok in E as (s1 & E & [= <-]).
    apply bind_Ok in E as ([x r] & P & [= <-]). apply pop_Ok in P as ->. by exists r, x.
  - intros (Hc & r & x & -> & R & ->). split; [done|]. split; [|done]. by rewrite pop_snoc.
Qed.

(** The lock time on top of the stack stays there. *)
Lemma exec_cltv a b r n alt conds c sep m' :
  all_true conds = true -> 0 <= c -> 0 <= n <= u32_max -> len (encode_script_number n) <= 5 ->
  exec (mkInstruction OP_CHECKLOCKTIMEVERIFY None a b)
    (mkMachine (r ++ [encode_script_number n]) alt conds c sep) = Ok m' <->
  c < MAX_SCRIPT_OPS /\ verify_locktime_predicate tx index n = true /\
    room (r ++ [encode_script_number n]) alt /\
    m' = mkMachine (r ++ [encode_script_number n]) alt conds (c + 1) sep.
Proof.
  intros A C N L. active. unfold lock_op, decode_top_number. rewrite last_snoc. cbn [ok_or mbind result_bind].
  destruct (encode_number_sound n) as (V & M); [unfold i64_min, i64_max; ulia|].
  rewrite decode_number_spec by done. rewrite V. cbn [mbind result_bind].
  rewrite (proj2 (Z.ltb_ge n 0)), (proj2 (Z.leb_le n u32_max)) by lia. cbn [negb assert_or mbind result_bind].
  change (result_bind _ _ ?f ?m) with (m ≫= f). rewrite bind_Ok. setoid_rewrite assert_or_Ok. split.
  - by intros (Hc & (u & P & [= <-]) & R).
  - intros (Hc & P & R & ->). split; [done|]. split; [|done]. by exists tt.
Qed.
End steps.

(** ** Script-hash programs

    A version-0 coin with a 32-byte hash: the last witness item is the script, the
    others are the stack it runs on, and the run must end with one true item. *)
Lemma script_hash_spend_Ok {CR : Crypto} {DG : ScriptDigests} {SV : SignatureVerifier}
    tx index coin flags input :
  0 <= index -> get (tx_inputs tx) index = Some input ->
  in_previous_output input = coin_outpoint coin -> addr_version (coin_address coin) = x00 ->
  len (addr_hash (coin_address coin)) = 32 ->
  verify_witness_program tx index coin flags = Ok tt <->
  exists stack script instrs alt count sep top,
    wit_items (in_witness input) = stack ++ [script] /\ len stack < MAX_SCRIPT_STACK /\
    len script <= MAX_SCRIPT_SIZE /\ sha3_256 script = addr_hash (coin_address coin) /\
    Forall (fun x => len x <= MAX_SCRIPT_PUSH) stack /\ parse_script script = Ok instrs /\
    execute_loop script tx index (coin_value coin) flags instrs (mkMachine stack [] [] 0 0) =
      Ok (mkMachine [top] alt [] count sep) /\ cast_to_bool top = true.
Proof.
  intros Hi I E V L. unfold verify_witness_program, redeem_script. rewrite I. cbn [ok_or mbind result_bind].
  rewrite E, V, L, bool_decide_eqb_refl. change (b2z x00) with 0. closed_cmp.
  cbn [assert_or mbind result_bind]. change (result_bind _ _ ?f ?m) with (m ≫= f).
  assert (index < len (tx_inputs tx)) as Bi by (apply lookup_lt_Some in I; unfold len; lia).
  set (items := wit_items (in_witness input)). split.
  - intros H. apply bind_Ok in H as (u & S & H). apply assert_or_Ok, Z.leb_le in S.
    apply bind_Ok in H as (rd & R & H). apply bind_Ok in R as ([script stack] & P & R).
    apply ok_or_Ok, vec_pop_Some in P as P. apply bind_Ok in R as (u1 & B & R).
    apply assert_or_Ok, Z.leb_le in B. apply bind_Ok in R as (u2 & Hh & [= <-]).
    apply assert_or_Ok, bool_decide_eq_true in Hh. apply bind_Ok in H as (final & X & H).
    unfold execute_script in X. rewrite (proj2 (Z.ltb_lt index _)) in X by done.
    cbn [assert_or mbind result_bind] in X. apply bind_Ok in X as (u3 & S3 & X).
    apply bind_Ok in X as (u4 & F & X). apply assert_or_Ok in F.
    apply bind_Ok in X as (instrs & Pa & X). apply bind_Ok in X as (m & Run & X).
    apply bind_Ok in X as (u5 & Cn & [= <-]). apply assert_or_Ok, bool_decide_eq_true in Cn.
    destruct m as [st alt conds cnt sep]. cbn [m_stack m_conditions] in *. subst conds.
    destruct st as [|top [|]]; try done. apply assert_or_Ok in H.
    rewrite P, len_app in S. change (len [script]) with 1 in S.
    exists stack, script, instrs, alt, cnt, sep, top. split; [done|]. split; [lia|]. split; [done|].
    split; [done|]. split; [|done]. apply Forall_forall. intros x Ix. rewrite forallb_forall in F.
    apply Z.leb_le, F. by apply list_elem_of_In.
  - intros (stack & script & instrs & alt & cnt & sep & top & P & Sl & B & Hh & F & Pa & Run & T).
    rewrite P, len_app. change (len [script]) with 1.
    rewrite (proj2 (Z.leb_le (len stack + 1) _)) by lia. cbn [assert_or mbind result_bind].
    rewrite vec_pop_snoc. cbn [ok_or mbind result_bind].
    rewrite (proj2 (Z.leb_le (len script) _)) by done. cbn [assert_or mbind result_bind].
    rewrite bool_decide_eq_true_2 by done. cbn [assert_or mbind result_bind]. unfold execute_script.
    rewrite (proj2 (Z.ltb_lt index _)) by done. cbn [assert_or mbind result_bind].
    rewrite (proj2 (Z.leb_le (len stack) _)) by lia. cbn [assert_or mbind result_bind].
    assert (forallb (fun x => len x <=? MAX_SCRIPT_PUSH) stack = true) as ->.
    { apply forallb_forall. intros x Ix. apply Z.leb_le. rewrite Forall_forall in F. apply F.
      by apply list_elem_of_In. }
    cbn [assert_or mbind result_bind]. rewrite Pa. cbn [mbind result_bind]. rewrite Run.
    cbn [mbind result_bind m_conditions m_stack]. rewrite bool_decide_eq_true_2 by done.
    cbn [assert_or mbind result_bind]. by rewrite T.
Qed.
