(* ===== verification/K256.v ===== *)
(** * The k256 back end

    The secp256k1 crate is outside the repository: its types and operations are
    the class [K256], what its documentation promises of them is [K256Laws].
    [K256SignatureVerifier] is the implementation of hns-script's verifier trait
    over it. Keys and signatures are the byte arrays the callers hold. *)

From S2P Require Import Prelude Encoding Primitives Covenants Transaction Script Interpreter.
Local Open Scope Z_scope.

(** [sec1_key_ok k] is [VerifyingKey::from_sec1_bytes(k).is_ok()],
    [compact_ok s] is [Signature::from_slice(s).is_ok()]; the operations take the
    bytes those parsers accepted. [verifying_key sk] are the bytes of the
    compressed point of a signing key. *)
Class K256 := {
  sec1_key_ok : list byte -> bool;
  compact_ok : list byte -> bool;
  normalize_s : list byte -> option (list byte);
  verify_prehash : list byte -> list byte -> list byte -> bool;
  SigningKey : Type;
  verifying_key : SigningKey -> list byte;
  sign_prehash : SigningKey -> list byte -> option (list byte);
}.

(** Keys and signatures are well formed, a 33-byte key is a compressed point, a signature verifies under its key,
    [normalize_s] returns the low-S twin of a high-S signature, which verifies
    alike. *)
Class K256Laws {KC : K256} := {
  verifying_key_ok : forall sk, sec1_key_ok (verifying_key sk) = true;
  sec1_compressed : forall k, len k = 33 -> sec1_key_ok k = true -> head k ∈ [Some x02; Some x03];
  sign_ok : forall sk d s, sign_prehash sk d = Some s ->
    len s = 64 /\ compact_ok s = true /\ verify_prehash (verifying_key sk) d s = true;
  normalize_ok : forall s s', normalize_s s = Some s' ->
    len s' = 64 /\ compact_ok s' = true /\ normalize_s s' = None /\
    forall k d, verify_prehash k d s' = verify_prehash k d s;
}.
Arguments K256Laws : clear implicits.

(** DER signatures and raw private keys. *)
Class KeyCodec {KC : K256} := {
  from_der : list byte -> option (list byte);
  to_der : list byte -> list byte;
  signing_key_from_bytes : list byte -> option SigningKey;
}.
Arguments KeyCodec : clear implicits.

(** A DER signature parses back and is at most 72 bytes; a compressed point is 33. *)
Class KeyCodecLaws {KC : K256} {KD : KeyCodec KC} := {
  der_roundtrip : forall s, compact_ok s = true -> from_der (to_der s) = Some s;
  der_size : forall s, compact_ok s = true -> 8 <= len (to_der s) <= 72;
  compressed_size : forall sk, len (verifying_key sk) = 33;
}.
Arguments KeyCodecLaws : clear implicits.

(** [normalize_s().is_some()] *)
Definition is_high {KC : K256} (signature : list byte) : bool :=
  match normalize_s signature with Some _ => true | None => false end.

#[global] Instance K256SignatureVerifier {KC : K256} : SignatureVerifier := {|
  validate_compact_signature := fun signature =>
    assert_or (compact_ok signature) SignatureEncoding ;;
    assert_or (negb (is_high signature)) SignatureEncoding;
  verify_signature := fun message signature public_key =>
    assert_or (compact_ok signature) SignatureEncoding ;;
    assert_or (sec1_key_ok public_key) PublicKeyEncoding ;;
    Ok (verify_prehash public_key message signature);
  is_consensus_complete := true;
|}.

(** The normalized signature a signer emits. *)
Definition low_s {KC : K256} (signature : list byte) : list byte := default signature (normalize_s signature).

Lemma low_s_ok {KC : K256} (KL : K256Laws KC) sk d s :
  sign_prehash sk d = Some s ->
  len (low_s s) = 64 /\ compact_ok (low_s s) = true /\ is_high (low_s s) = false /\
  verify_prehash (verifying_key sk) d (low_s s) = true.
Proof.
  intros S. destruct (sign_ok _ _ _ S) as (L & C & V). unfold low_s, is_high.
  destruct (normalize_s s) as [s'|] eqn:N; cbn [from_option id].
  - destruct (normalize_ok _ _ N) as (L' & C' & N' & V'). rewrite N', V'. done.
  - rewrite N. done.
Qed.

(** What a successful signature check amounts to. *)
Lemma check_signature_k256 {CR : Crypto} {KC : K256} tx index value script sig key :
  check_signature tx index value script sig key = Ok true <->
  exists compact hash_type digest, sig = compact ++ [hash_type] /\ len compact = 64 /\
    is_valid_signature_hash_type hash_type = true /\ compact_ok compact = true /\
    is_high compact = false /\ len key = 33 /\ head key ∈ [Some x02; Some x03] /\
    signature_hash tx index script value (b2z hash_type) = Ok digest /\
    sec1_key_ok key = true /\ verify_prehash key digest compact = true.
Proof.
  unfold check_signature. split.
  - intros H. apply bind_Ok in H as (c & C & H). apply bind_Ok in H as (u & K & H).
    apply assert_or_Ok, Z.eqb_eq in K. apply bind_Ok in H as (u' & K' & H).
    apply assert_or_Ok, bool_decide_eq_true in K'. destruct (Z.eqb_spec (len sig) 0); [by injection C as <-|].
    apply bind_Ok in C as (u2 & S & C). apply assert_or_Ok, negb_true_iff, orb_false_iff in S as (S & T).
    apply negb_false_iff, Z.eqb_eq in S. apply negb_false_iff in T.
    apply bind_Ok in C as (u3 & V & [= <-]). cbn [validate_compact_signature K256SignatureVerifier] in V.
    apply bind_Ok in V as (u4 & V1 & V2). apply assert_or_Ok in V1. apply assert_or_Ok, negb_true_iff in V2.
    apply bind_Ok in H as (digest & D & H). cbn [verify_signature K256SignatureVerifier] in H.
    apply bind_Ok in H as (u5 & _ & H). apply bind_Ok in H as (u6 & K2 & [= H]). apply assert_or_Ok in K2.
    destruct (get sig 64) as [t|] eqn:G; [|unfold get in G; apply lookup_ge_None in G; unfold len in S; lia].
    cbn [default] in *. exists (take 64 sig), t, digest. split.
    { change (get sig 64) with (sig !! 64%nat) in G. rewrite <- take_S_r by done.
      by rewrite take_ge by (unfold len in S; lia). }
    split; [unfold len in *; rewrite length_take; lia|]. done.
  - intros (c & t & digest & -> & L & T & C & Hi & K & K' & D & Ks & V).
    assert (get (c ++ [t]) 64 = Some t) as G.
    { unfold get. rewrite lookup_app_r; unfold len in L; [|lia].
      replace (Z.to_nat 64 - length c)%nat with 0%nat by lia. done. }
    assert (take 64 (c ++ [t]) = c) as Tk by (apply take_app_length'; unfold len in L; lia).
    rewrite G, Tk. change (default x00 (Some t)) with t. rewrite len_app, L. change (len [t]) with 1.
    change (64 + 1 =? 0) with false. change (64 + 1 =? 65) with true. cbv iota. rewrite T.
    cbn [negb orb assert_or mbind result_bind validate_compact_signature verify_signature K256SignatureVerifier].
    rewrite C, Hi. cbn [negb assert_or mbind result_bind]. rewrite K, bool_decide_eq_true_2 by done.
    cbn [Z.eqb Pos.eqb assert_or mbind result_bind]. rewrite D. cbn [mbind result_bind].
    rewrite C, Ks. cbn [assert_or mbind result_bind]. by rewrite V.
Qed.

(** ** A concrete back end for examples: a signature names its key's number *)
Definition toy_k256 : K256 := {|
  sec1_key_ok := fun k => (len k =? 33) && bool_decide (head k ∈ [Some x02; Some x03]);
  compact_ok := fun s => len s =? 64;
  normalize_s := fun _ => None;
  verify_prehash := fun k d s => bool_decide (slice k 1 2 = take 1 s);
  SigningKey := byte;
  verifying_key := fun n => x02 :: n :: zeros 31;
  sign_prehash := fun n _ => Some (n :: zeros 63);
|}.

Lemma toy_k256_laws : K256Laws toy_k256.
Proof.
  split; cbn.
  - intros sk. by vm_compute.
  - intros k _ H. by apply andb_true_iff in H as (_ & H%bool_decide_eq_true).
  - intros sk d s [= <-]. split; [done|]. split; [done|]. by apply bool_decide_eq_true_2.
  - done.
Qed.

Definition toy_codec : KeyCodec toy_k256 := {|
  from_der := fun d => if len d =? 64 then Some d else None;
  to_der := fun s => s;
  signing_key_from_bytes := fun k => head k : option (@SigningKey toy_k256);
|}.

Lemma toy_codec_laws : KeyCodecLaws toy_k256 toy_codec.
Proof.
  split; cbn.
  - intros s ->. done.
  - intros s ->%Z.eqb_eq. lia.
  - done.
Qed.
