(* ===== verification/Swap.v ===== *)
(** * hns-swap: HIP-1 name swaps

    Models [crates/hns-swap/src/lib.rs]: the Shakedex lock script and its
    descriptor, swap proofs (codec, presigning, verification, buyer fulfillment and
    seller recovery), absolute time locks and reverse-Dutch auctions. The
    secp256k1 crate is the class [K256]; a method on [&mut self] returns the object
    it leaves behind. Formatted error texts keep their arguments. *)

From S2P Require Import Prelude Encoding Primitives Covenants NameState NameTransition Transaction Block Linkage NameTx Script Interpreter K256.
Local Open Scope Z_scope.

Definition SHAKEDEX_PROTOCOL_VERSION : Z := 2.
Definition MAX_SWAP_PROOF_SIZE : Z := 4 * 1024.
Definition MAX_AUCTION_STEPS : Z := 512.
Definition MAX_AUCTION_BUNDLE_SIZE : Z := 1024 * 1024.
Definition HSD_LOCKTIME_MULTIPLIER : Z := 512.
Definition MAX_HSD_TIME_LOCK : Z := Z.shiftl 1 40.
Definition SWAP_LOCK_SCRIPT_SIZE : Z := 44.
Definition COMPACT_SIGNATURE_SIZE : Z := 65.
Definition SHAKEDEX_RECOVERY_SIGHASH : Z := Z.lor SIGHASH_SINGLE SIGHASH_ANYONE_CAN_PAY.
Definition OP_9 : Z := 0x59.
Definition OP_10 : Z := 0x5a.

Inductive SwapError :=
| SwDecode (e : DecodeError)
| SwCovenant (e : CovenantError)
| SwScript (e : ScriptError)
| SwTransaction (e : TransactionError)
| SwNameTransaction (e : NameTransactionError)
| UnsupportedVersion (version : Z)
| ProofTooLarge (size : Z)
| BundleTooLarge (size : Z)
| InvalidPresenceFlag (field : string)
| SwInvalidName
| InvalidPublicKey
| ZeroPrice
| InvalidFee
| LockTimeOutOfRange (seconds : Z)
| WrongSellerHashType (hash_type : byte)
| UnsignedProof
| NetworkMismatch
| SigningKeyMismatch
| SignatureFailure
| InvalidSignature
| HighSignature
| OutpointMismatch
| NullShakedexLockingOutpoint
| CoinbaseShakedexLockingCoin
| LockingCoinNotFinalize
| NameMismatch
| SwNameHashMismatch
| LockScriptMismatch
| MissingShakedexBuyerInputs
| MissingShakedexRecoveryFundingInputs
| DuplicateShakedexSellerInput
| InvalidShakedexLockingCovenant
| InvalidShakedexFulfillment (reason : string)
| UnrecognizedShakedexSpend
| MissingShakedexRecoveryRecipient
| InvalidShakedexRecovery (reason : string)
| WrongShakedexSpendHashType (actual expected : byte)
| InvalidStepCount (steps : Z)
| InvalidPriceSchedule
| InvalidLockSchedule
| NonCanonicalSchedule
| InconsistentAuction
| ZeroListingSequence
| UnsupportedListingVersion (version : Z)
| InvalidListingLifetime
| ListingTooLarge (size : Z)
| UnsignedListingProof
| UnsignedListing
| ListingHashMismatch
| ListingNotYetActive
| ListingExpired
| ZeroCancellationSequence
| UnsupportedCancellationVersion (version : Z)
| InvalidCancellationLifetime
| CancellationTooLarge (size : Z)
| UnsignedCancellation
| CancellationHashMismatch
| CancellationListingMismatch
| CancellationSequenceNotNewer
| CancellationExpiresTooEarly
| CancellationNotYetActive
| CancellationExpired
| HighMarketplaceSignature
| UnsupportedHtlcVersion (version : Z)
| HtlcTooLarge (size : Z)
| ZeroHtlcValue
| ZeroHtlcHashlock
| HtlcKeyReuse
| ZeroHtlcRefundLocktime
| HtlcValueMismatch
| HtlcAddressMismatch
| HtlcCovenantMismatch
| HtlcFundingOutputIndex (requested outputs : Z)
| HtlcSpendInputIndex (requested inputs : Z)
| HtlcOutpointMismatch
| InvalidHtlcSignatureHashType (hash_type : byte)
| InvalidHtlcSignature
| HighHtlcSignature
| HtlcPreimageMismatch
| InvalidHtlcWitness
| SwArithmeticOverflow.

Record HsdTimeLock := mkTimeLock { tl_encoded : Z; tl_effective_time_seconds : Z }.
Record NetworkBinding := mkBinding { nb_magic : Z; nb_genesis : list byte }.

Record SwapProof := mkSwapProof {
  sp_network : NetworkBinding;
  sp_locking_outpoint : Outpoint;
  sp_name : list byte;
  sp_seller_public_key : list byte;
  sp_payment_address : Address;
  sp_price : Z;
  sp_lock_time_seconds : Z;
  sp_signature : option (list byte);
  sp_fee_address : option Address;
  sp_fee : Z;
}.

Inductive ShakedexSpendKind := Fulfillment | Recovery.

Record ShakedexLockDescriptor := mkLockDescriptor {
  ld_network : NetworkBinding;
  ld_locking_outpoint : Outpoint;
  ld_name : list byte;
  ld_seller_public_key : list byte;
}.

Record DutchStep := mkDutchStep { ds_price : Z; ds_lock_time_seconds : Z }.
Record DutchAuction := mkDutchAuction { da_proofs : list SwapProof }.

#[global] Instance NetworkBinding_eq_dec : EqDecision NetworkBinding.
Proof. solve_decision. Defined.

(** The byte [signature[64]]. *)
Definition hash_type_of (signature : list byte) : byte := default x00 (get signature 64).

(** ** Time locks *)
Definition encode_time_lock (seconds : Z) : result SwapError Z :=
  assert_or (negb (MAX_HSD_TIME_LOCK <=? seconds)) (LockTimeOutOfRange seconds) ;;
  let units := seconds / HSD_LOCKTIME_MULTIPLIER in
  assert_or (units <=? u32_max) (LockTimeOutOfRange seconds) ;;
  Ok (Z.lor LOCKTIME_FLAG units).

Definition encode_time_lock_not_before (seconds : Z) : result SwapError HsdTimeLock :=
  assert_or (negb ((seconds =? 0) || (MAX_HSD_TIME_LOCK <=? seconds))) (LockTimeOutOfRange seconds) ;;
  sum ← ok_or (checked_add u64_max seconds (HSD_LOCKTIME_MULTIPLIER - 1)) SwArithmeticOverflow;
  let units := sum / HSD_LOCKTIME_MULTIPLIER in
  assert_or (units <=? LOCKTIME_MASK) (LockTimeOutOfRange seconds) ;;
  assert_or (units <=? u32_max) (LockTimeOutOfRange seconds) ;;
  effective ← ok_or (checked_mul u64_max units HSD_LOCKTIME_MULTIPLIER) SwArithmeticOverflow;
  Ok (mkTimeLock (Z.lor LOCKTIME_FLAG units) effective).

(** ** The reverse-Dutch schedule *)
(** [for pair in items.windows(2) { f(pair[0], pair[1])? }] *)
Fixpoint check_windows {E A} (f : A -> A -> result E unit) (items : list A) : result E unit :=
  match items with
  | a :: ((b :: _) as rest) => f a b ;; check_windows f rest
  | _ => Ok tt
  end.

Definition check_step (price price' time time' : Z) : result SwapError unit :=
  assert_or (negb (price <? price')) NonCanonicalSchedule ;;
  lock ← encode_time_lock time;
  lock' ← encode_time_lock time';
  assert_or (negb (lock' <=? lock)) NonCanonicalSchedule.

Definition dutch_step (start_price price_delta start_time duration intervals index : Z)
  : result SwapError DutchStep :=
  product ← ok_or (checked_mul u64_max (duration / HSD_LOCKTIME_MULTIPLIER) index) SwArithmeticOverflow;
  let lock_units := start_time / HSD_LOCKTIME_MULTIPLIER + product / intervals in
  let reduction := price_delta * index / intervals in
  assert_or (reduction <=? u64_max) SwArithmeticOverflow ;;
  lock_time ← ok_or (checked_mul u64_max lock_units HSD_LOCKTIME_MULTIPLIER) SwArithmeticOverflow;
  Ok (mkDutchStep (start_price - reduction) lock_time).

Definition canonical_reverse_dutch_schedule (start_price end_price start_time end_time steps : Z)
  : result SwapError (list DutchStep) :=
  assert_or ((2 <=? steps) && (steps <=? MAX_AUCTION_STEPS)) (InvalidStepCount steps) ;;
  assert_or (negb ((start_price <? end_price) || (end_price =? 0))) InvalidPriceSchedule ;;
  assert_or (negb ((end_time <=? start_time) || negb (start_time mod HSD_LOCKTIME_MULTIPLIER =? 0) ||
                   negb (end_time mod HSD_LOCKTIME_MULTIPLIER =? 0))) InvalidLockSchedule ;;
  let intervals := steps - 1 in
  let duration := end_time - start_time in
  assert_or (negb (duration / HSD_LOCKTIME_MULTIPLIER <? intervals)) InvalidLockSchedule ;;
  let price_delta := start_price - end_price in
  schedule ← try_map (fun index =>
      dutch_step start_price price_delta start_time duration intervals (Z.of_nat index))
    (seq 0 (Z.to_nat steps));
  assert_or (negb (negb (bool_decide (ds_price <$> head schedule = Some start_price)) ||
                   negb (bool_decide (ds_price <$> last schedule = Some end_price)) ||
                   negb (bool_decide (ds_lock_time_seconds <$> head schedule = Some start_time)) ||
                   negb (bool_decide (ds_lock_time_seconds <$> last schedule = Some end_time))))
    NonCanonicalSchedule ;;
  check_windows (fun a b => check_step (ds_price a) (ds_price b) (ds_lock_time_seconds a)
    (ds_lock_time_seconds b)) schedule ;;
  Ok schedule.

(** ** Addresses on the wire *)
Definition put_swap_address (address : Address) (encoder : Encoder) : Encoder :=
  put_bytes (put_u8 (put_u8 encoder (addr_version address)) (z2b (len (addr_hash address))))
    (addr_hash address).

Definition decode_swap_address : decM SwapError Address :=
  version ← lift_err SwDecode read_u8;
  length ← lift_err SwDecode read_u8;
  hash ← lift_err SwDecode (read_bounded_vec (b2z length) 40);
  lift_res (map_err SwTransaction (Address_new version hash)).

Section swap.
Context {CR : Crypto} {KC : K256}.

(** ** The lock script *)
Definition create_lock_script (public_key : list byte) : list byte :=
  octets [OP_TYPE; OP_9; OP_EQUAL; OP_IF; 33] ++ public_key ++
  octets [OP_CHECKSIG; OP_ELSE; OP_TYPE; OP_10; OP_EQUAL; OP_ENDIF].

Definition lock_script_hash (public_key : list byte) : list byte :=
  sha3_256 (create_lock_script public_key).

Definition swap_blake2b_256 (input : list byte) : list byte := blake2b 32 input.

Definition validate_shakedex_signature (encoded : list byte) (expected_hash_type : byte)
  : result SwapError (list byte) :=
  assert_or (bool_decide (hash_type_of encoded = expected_hash_type))
    (WrongShakedexSpendHashType (hash_type_of encoded) expected_hash_type) ;;
  let signature := take 64 encoded in
  assert_or (compact_ok signature) InvalidSignature ;;
  assert_or (negb (is_high signature)) HighSignature ;;
  Ok signature.

(** ** Lock descriptors *)
Definition ShakedexLockDescriptor_validate (d : ShakedexLockDescriptor) : result SwapError unit :=
  assert_or (negb (Outpoint_is_null (ld_locking_outpoint d))) NullShakedexLockingOutpoint ;;
  assert_or (validate_name (ld_name d)) SwInvalidName ;;
  assert_or (sec1_key_ok (ld_seller_public_key d)) InvalidPublicKey.

Definition ShakedexLockDescriptor_new (network : NetworkBinding) (locking_outpoint : Outpoint)
    (name seller_public_key : list byte) : result SwapError ShakedexLockDescriptor :=
  let descriptor := mkLockDescriptor network locking_outpoint name seller_public_key in
  ShakedexLockDescriptor_validate descriptor ;;
  Ok descriptor.

Definition ShakedexLockDescriptor_verify_locking_coin (d : ShakedexLockDescriptor) (coin : Coin)
  : result SwapError unit :=
  ShakedexLockDescriptor_validate d ;;
  assert_or (negb (Outpoint_is_null (coin_outpoint coin))) NullShakedexLockingOutpoint ;;
  assert_or (negb (coin_coinbase coin)) CoinbaseShakedexLockingCoin ;;
  assert_or (bool_decide (coin_outpoint coin = ld_locking_outpoint d)) OutpointMismatch ;;
  assert_or (bool_decide (cov_kind (coin_covenant coin) = KFinalize)) LockingCoinNotFinalize ;;
  assert_or (bool_decide (Covenant_item (coin_covenant coin) 2 = Some (ld_name d))) NameMismatch ;;
  expected_name_hash ← map_err SwCovenant (hash_name (ld_name d));
  assert_or (bool_decide (Covenant_item_name_hash (coin_covenant coin) 0 = Some expected_name_hash))
    SwNameHashMismatch ;;
  _ ← map_err (fun _ => InvalidShakedexLockingCovenant) (FinalizeCovenant_try_from (coin_covenant coin));
  assert_or (negb (negb (b2z (addr_version (coin_address coin)) =? 0) ||
                   negb (bool_decide (addr_hash (coin_address coin) = lock_script_hash (ld_seller_public_key d)))))
    LockScriptMismatch.

Definition ShakedexLockDescriptor_from_locking_coin (network : NetworkBinding) (coin : Coin)
    (seller_public_key : list byte) : result SwapError ShakedexLockDescriptor :=
  assert_or (bool_decide (cov_kind (coin_covenant coin) = KFinalize)) LockingCoinNotFinalize ;;
  finalize ← map_err (fun _ => InvalidShakedexLockingCovenant)
    (FinalizeCovenant_try_from (coin_covenant coin));
  descriptor ← ShakedexLockDescriptor_new network (coin_outpoint coin) (fi_name finalize)
    seller_public_key;
  ShakedexLockDescriptor_verify_locking_coin descriptor coin ;;
  Ok descriptor.

Definition ShakedexLockDescriptor_lock_script (d : ShakedexLockDescriptor) : result SwapError (list byte) :=
  ShakedexLockDescriptor_validate d ;; Ok (create_lock_script (ld_seller_public_key d)).

Definition ShakedexLockDescriptor_lock_script_identifier (d : ShakedexLockDescriptor)
  : result SwapError (list byte) :=
  ShakedexLockDescriptor_validate d ;; Ok (lock_script_hash (ld_seller_public_key d)).

Definition ShakedexLockDescriptor_verify_for_network (d : ShakedexLockDescriptor)
    (expected_network : NetworkBinding) (coin : Coin) : result SwapError unit :=
  assert_or (bool_decide (ld_network d = expected_network)) NetworkMismatch ;;
  ShakedexLockDescriptor_verify_locking_coin d coin.

(** The witness is a signature of any content and the lock script. *)
Definition check_recovery_witness (script : list byte) (items : list (list byte)) (layout : string)
  : result SwapError unit :=
  match items with
  | [_; witness_script] =>
    assert_or (bool_decide (witness_script = script))
      (InvalidShakedexRecovery "seller witness script differs")
  | _ => Err (InvalidShakedexRecovery layout)
  end.

Definition repeats_outpoint (outpoint : Outpoint) (inputs : list Input) : bool :=
  existsb (fun input => bool_decide (in_previous_output input = outpoint)) inputs.

(** [inputs[0]] and [inputs[1..]], after the length check. *)
Definition verify_recovery_layout (d : ShakedexLockDescriptor) (transaction : Transaction) (coin : Coin)
    (recovery_recipient : Address) (require_witness : bool) : result SwapError unit :=
  ShakedexLockDescriptor_verify_locking_coin d coin ;;
  map_err SwTransaction (Address_validate recovery_recipient) ;;
  match tx_inputs transaction with
  | seller_input :: ((_ :: _) as others) =>
    assert_or (negb (negb (tx_version transaction =? 0) || negb (tx_locktime transaction =? 0)))
      (InvalidShakedexRecovery "transaction header or funding layout differs") ;;
    assert_or (negb (negb (bool_decide (in_previous_output seller_input = coin_outpoint coin)) ||
                     negb (in_sequence seller_input =? u32_max)))
      (InvalidShakedexRecovery "seller input is not canonical index zero") ;;
    assert_or (negb (repeats_outpoint (coin_outpoint coin) others)) DuplicateShakedexSellerInput ;;
    (let items := wit_items (in_witness seller_input) in
     if require_witness then
       check_recovery_witness (create_lock_script (ld_seller_public_key d)) items
         "seller witness layout differs"
     else if negb (len items =? 0) then
       check_recovery_witness (create_lock_script (ld_seller_public_key d)) items
         "seller witness is neither absent nor canonical"
     else Ok tt) ;;
    transfer ← ok_or (head (tx_outputs transaction))
      (InvalidShakedexRecovery "recovery TRANSFER output is missing");
    built ← map_err SwNameTransaction (build_transfer_output coin recovery_recipient);
    assert_or (bool_decide (transfer = built)) (InvalidShakedexRecovery "recovery TRANSFER output differs")
  | _ => Err (InvalidShakedexRecovery "transaction header or funding layout differs")
  end.

Definition ShakedexLockDescriptor_recovery_transaction (d : ShakedexLockDescriptor) (coin : Coin)
    (recovery_recipient : Address) (funding_inputs : list Input) (funding_outputs : list Output)
  : result SwapError Transaction :=
  ShakedexLockDescriptor_verify_locking_coin d coin ;;
  assert_or (negb (len funding_inputs =? 0)) MissingShakedexRecoveryFundingInputs ;;
  assert_or (negb (repeats_outpoint (coin_outpoint coin) funding_inputs)) DuplicateShakedexSellerInput ;;
  transaction ← map_err SwNameTransaction
    (build_transfer_transaction coin recovery_recipient funding_inputs funding_outputs);
  verify_recovery_layout d transaction coin recovery_recipient false ;;
  Ok transaction.

Definition ShakedexLockDescriptor_recovery_signature_hash (d : ShakedexLockDescriptor)
    (transaction : Transaction) (coin : Coin) (recovery_recipient : Address)
  : result SwapError (list byte) :=
  verify_recovery_layout d transaction coin recovery_recipient false ;;
  map_err SwScript (signature_hash transaction 0 (create_lock_script (ld_seller_public_key d))
    (coin_value coin) SHAKEDEX_RECOVERY_SIGHASH).

Definition ShakedexLockDescriptor_recovery_witness (d : ShakedexLockDescriptor) (signature : list byte)
  : result SwapError Witness :=
  ShakedexLockDescriptor_validate d ;;
  _ ← validate_shakedex_signature signature (z2b SHAKEDEX_RECOVERY_SIGHASH);
  Ok (mkWitness [signature; create_lock_script (ld_seller_public_key d)]).

Definition ShakedexLockDescriptor_finalize_witness (d : ShakedexLockDescriptor) : result SwapError Witness :=
  ShakedexLockDescriptor_validate d ;; Ok (mkWitness [create_lock_script (ld_seller_public_key d)]).

(** The first witness item, after the layout check has found two. *)
Definition first_witness_item (transaction : Transaction) : list byte :=
  match tx_inputs transaction with
  | input :: _ => default [] (head (wit_items (in_witness input)))
  | [] => []
  end.

Definition ShakedexLockDescriptor_verify_recovery (d : ShakedexLockDescriptor) (transaction : Transaction)
    (coin : Coin) (recovery_recipient : Address) : result SwapError unit :=
  verify_recovery_layout d transaction coin recovery_recipient true ;;
  signature ← ok_or (as_array COMPACT_SIGNATURE_SIZE (first_witness_item transaction)) InvalidSignature;
  signature_value ← validate_shakedex_signature signature (z2b SHAKEDEX_RECOVERY_SIGHASH);
  assert_or (sec1_key_ok (ld_seller_public_key d)) InvalidPublicKey ;;
  digest ← ShakedexLockDescriptor_recovery_signature_hash d transaction coin recovery_recipient;
  assert_or (verify_prehash (ld_seller_public_key d) digest signature_value) InvalidSignature.

(** ** Swap proofs *)
Definition SwapProof_validate (p : SwapProof) : result SwapError unit :=
  assert_or (validate_name (sp_name p)) SwInvalidName ;;
  assert_or (sec1_key_ok (sp_seller_public_key p)) InvalidPublicKey ;;
  map_err SwTransaction (Address_validate (sp_payment_address p)) ;;
  assert_or (negb (sp_price p =? 0)) ZeroPrice ;;
  _ ← encode_time_lock (sp_lock_time_seconds p);
  (match sp_fee_address p with
   | None => assert_or (sp_fee p =? 0) InvalidFee
   | Some address =>
     if 0 <? sp_fee p then map_err SwTransaction (Address_validate address) else Err InvalidFee
   end) ;;
  match sp_signature p with
  | Some signature =>
    assert_or (bool_decide (hash_type_of signature = z2b HIP1_SELLER_SIGHASH))
      (WrongSellerHashType (hash_type_of signature))
  | None => Ok tt
  end.

Definition SwapProof_encode (p : SwapProof) : result SwapError (list byte) :=
  SwapProof_validate p ;;
  let encoder := put_u16_le Encoder_new SHAKEDEX_PROTOCOL_VERSION in
  let encoder := put_u32_le encoder (nb_magic (sp_network p)) in
  let encoder := put_bytes encoder (nb_genesis (sp_network p)) in
  let encoder := put_bytes encoder (Outpoint_encode (sp_locking_outpoint p)) in
  let encoder := put_varbytes encoder (sp_name p) in
  let encoder := put_bytes encoder (sp_seller_public_key p) in
  let encoder := put_swap_address (sp_payment_address p) encoder in
  let encoder := put_u64_le encoder (sp_price p) in
  let encoder := put_u64_le encoder (sp_lock_time_seconds p) in
  let encoder := match sp_signature p with
                 | Some signature => put_bytes (put_u8 encoder x01) signature
                 | None => put_u8 encoder x00
                 end in
  let encoder := put_u64_le encoder (sp_fee p) in
  let encoder := match sp_fee_address p with
                 | Some address => put_swap_address address (put_u8 encoder x01)
                 | None => put_u8 encoder x00
                 end in
  let encoded := into_bytes encoder in
  assert_or (len encoded <=? MAX_SWAP_PROOF_SIZE) (ProofTooLarge (len encoded)) ;;
  Ok encoded.

Definition SwapProof_lock_descriptor (p : SwapProof) : result SwapError ShakedexLockDescriptor :=
  assert_or (validate_name (sp_name p)) SwInvalidName ;;
  ShakedexLockDescriptor_new (sp_network p) (sp_locking_outpoint p) (sp_name p) (sp_seller_public_key p).

(** A presence byte and the value behind it. *)
Definition read_optional {A} (field : string) (read : decM SwapError A) : decM SwapError (option A) :=
  flag ← lift_err SwDecode read_u8;
  if b2z flag =? 0 then mret None
  else if b2z flag =? 1 then (value ← read; mret (Some value))
  else lift_res (Err (InvalidPresenceFlag field)).

Definition SwapProof_read : decM SwapError SwapProof :=
  version ← lift_err SwDecode read_u16_le;
  lift_res (assert_or (version =? SHAKEDEX_PROTOCOL_VERSION) (UnsupportedVersion version)) ;;
  magic ← lift_err SwDecode read_u32_le;
  genesis ← lift_err SwDecode (read_array 32);
  transaction_hash ← lift_err SwDecode (read_array 32);
  index ← lift_err SwDecode read_u32_le;
  name ← lift_err SwDecode (read_varbytes 63 "swap name");
  seller_public_key ← lift_err SwDecode (read_array 33);
  payment_address ← decode_swap_address;
  price ← lift_err SwDecode read_u64_le;
  lock_time_seconds ← lift_err SwDecode read_u64_le;
  signature ← read_optional "signature" (lift_err SwDecode (read_array 65));
  fee ← lift_err SwDecode read_u64_le;
  fee_address ← read_optional "fee address" decode_swap_address;
  mret (mkSwapProof (mkBinding magic genesis) (mkOutpoint transaction_hash index) name
    seller_public_key payment_address price lock_time_seconds signature fee_address fee).

Definition SwapProof_decode (input : list byte) : result SwapError SwapProof :=
  assert_or (len input <=? MAX_SWAP_PROOF_SIZE) (ProofTooLarge (len input)) ;;
  proof ← run_all SwDecode SwapProof_read input;
  SwapProof_validate proof ;;
  Ok proof.

Definition SwapProof_offer_id (p : SwapProof) : result SwapError (list byte) :=
  _ ← ok_or (sp_signature p) UnsignedProof;
  encoded ← SwapProof_encode p;
  Ok (swap_blake2b_256 (encoded ++ bstr "HIP-0001/Shakedex-v2/offer")).

Definition verify_locking_coin (p : SwapProof) (coin : Coin) : result SwapError unit :=
  descriptor ← SwapProof_lock_descriptor p;
  ShakedexLockDescriptor_verify_locking_coin descriptor coin.

Definition SwapProof_presigned_transaction (p : SwapProof) (coin : Coin) : result SwapError Transaction :=
  SwapProof_validate p ;;
  verify_locking_coin p coin ;;
  let script := create_lock_script (sp_seller_public_key p) in
  let witness := match sp_signature p with
                 | Some signature => mkWitness [signature; script]
                 | None => Witness_default
                 end in
  placeholder ← map_err SwTransaction (Address_new x00 (zeros 20));
  let outputs := [mkOutput 0 placeholder (mkCovenant KTransfer [])] in
  outputs ←
    (if 0 <? sp_fee p then
       fee_address ← ok_or (sp_fee_address p) InvalidFee;
       Ok (outputs ++ [mkOutput (sp_fee p) fee_address Covenant_default])
     else Ok outputs);
  let outputs := outputs ++ [mkOutput (sp_price p) (sp_payment_address p) Covenant_default] in
  locktime ← encode_time_lock (sp_lock_time_seconds p);
  Ok (mkTransaction 0 [mkInput (sp_locking_outpoint p) (u32_max - 1) witness] outputs locktime).

(** The parsed compact signature of a proof. *)
Definition seller_compact (p : SwapProof) : result SwapError (list byte) :=
  encoded_signature ← ok_or (sp_signature p) UnsignedProof;
  let signature := take 64 encoded_signature in
  assert_or (compact_ok signature) InvalidSignature ;;
  assert_or (negb (is_high signature)) HighSignature ;;
  Ok signature.

Definition presigned_digest (p : SwapProof) (coin : Coin) : result SwapError (list byte) :=
  transaction ← SwapProof_presigned_transaction p coin;
  map_err SwScript (signature_hash transaction 0 (create_lock_script (sp_seller_public_key p))
    (coin_value coin) HIP1_SELLER_SIGHASH).

Definition SwapProof_verify (p : SwapProof) (coin : Coin) : result SwapError unit :=
  SwapProof_validate p ;;
  verify_locking_coin p coin ;;
  signature ← seller_compact p;
  digest ← presigned_digest p coin;
  assert_or (sec1_key_ok (sp_seller_public_key p)) InvalidPublicKey ;;
  assert_or (verify_prehash (sp_seller_public_key p) digest signature) InvalidSignature.

Definition with_signature (p : SwapProof) (signature : option (list byte)) : SwapProof :=
  mkSwapProof (sp_network p) (sp_locking_outpoint p) (sp_name p) (sp_seller_public_key p)
    (sp_payment_address p) (sp_price p) (sp_lock_time_seconds p) signature (sp_fee_address p) (sp_fee p).

(** The proof is left unsigned when an operation fails before the signature is
    stored. *)
Definition SwapProof_sign (p : SwapProof) (coin : Coin) (signing_key : SigningKey)
  : result SwapError unit * SwapProof :=
  if bool_decide (verifying_key signing_key = sp_seller_public_key p) then
    let p := with_signature p None in
    match
      digest ← presigned_digest p coin;
      ok_or (sign_prehash signing_key digest) SignatureFailure
    with
    | Err e => (Err e, p)
    | Ok signature =>
      let p := with_signature p (Some (low_s signature ++ [z2b HIP1_SELLER_SIGHASH])) in
      (SwapProof_verify p coin, p)
    end
  else (Err SigningKeyMismatch, p).

Definition SwapProof_verify_for_network (p : SwapProof) (expected_network : NetworkBinding) (coin : Coin)
  : result SwapError unit :=
  assert_or (bool_decide (sp_network p = expected_network)) NetworkMismatch ;;
  SwapProof_verify p coin.

Definition SwapProof_seller_signature_hash (p : SwapProof) (transaction : Transaction) (coin : Coin)
  : result SwapError (list byte) :=
  SwapProof_validate p ;;
  verify_locking_coin p coin ;;
  seller_input ← ok_or (head (tx_inputs transaction))
    (InvalidShakedexFulfillment "seller input is missing");
  assert_or (bool_decide (in_previous_output seller_input = coin_outpoint coin)) OutpointMismatch ;;
  map_err SwScript (signature_hash transaction 0 (create_lock_script (sp_seller_public_key p))
    (coin_value coin) HIP1_SELLER_SIGHASH).

Definition verify_seller_signature (p : SwapProof) (transaction : Transaction) (coin : Coin)
  : result SwapError unit :=
  signature ← seller_compact p;
  assert_or (sec1_key_ok (sp_seller_public_key p)) InvalidPublicKey ;;
  digest ← SwapProof_seller_signature_hash p transaction coin;
  assert_or (verify_prehash (sp_seller_public_key p) digest signature) InvalidSignature.

Definition transfer_recipient (transfer : Output) (p : SwapProof) (coin : Coin) : result SwapError Address :=
  transfer_fields ← map_err (fun _ =>
      InvalidShakedexFulfillment "TRANSFER covenant does not bind the locked name")
    (TransferCovenant_try_from (out_covenant transfer));
  locking_finalize ← map_err (fun _ => InvalidShakedexLockingCovenant)
    (FinalizeCovenant_try_from (coin_covenant coin));
  name_hash ← map_err SwCovenant (hash_name (sp_name p));
  assert_or (negb (negb (bool_decide (tr_name_hash transfer_fields = name_hash)) ||
                   negb (bool_decide (tr_name_hash transfer_fields = fi_name_hash locking_finalize)) ||
                   negb (tr_start_height transfer_fields =? fi_start_height locking_finalize)))
    (InvalidShakedexFulfillment "TRANSFER covenant does not bind the locked name") ;;
  map_err SwTransaction
    (Address_new (tr_recipient_version transfer_fields) (tr_recipient_hash transfer_fields)).

(** The seller's input: index zero, the presigned sequence and witness, no second
    spend of the lock. *)
Definition check_fulfillment_inputs (p : SwapProof) (transaction : Transaction) (coin : Coin)
  : result SwapError unit :=
  locktime ← (if tx_version transaction =? 0 then encode_time_lock (sp_lock_time_seconds p)
              else Ok (tx_locktime transaction));
  match tx_inputs transaction with
  | seller_input :: ((_ :: _) as others) =>
    assert_or (negb (negb (tx_version transaction =? 0) || negb (tx_locktime transaction =? locktime)))
      (InvalidShakedexFulfillment "transaction header or buyer funding layout differs") ;;
    assert_or (negb (negb (bool_decide (in_previous_output seller_input = coin_outpoint coin)) ||
                     negb (in_sequence seller_input =? u32_max - 1)))
      (InvalidShakedexFulfillment "seller input is not canonical index zero") ;;
    assert_or (negb (repeats_outpoint (coin_outpoint coin) others)) DuplicateShakedexSellerInput ;;
    match wit_items (in_witness seller_input) with
    | [encoded_signature; witness_script] =>
      expected_signature ← ok_or (sp_signature p) UnsignedProof;
      assert_or (negb (negb (bool_decide (encoded_signature = expected_signature)) ||
                       negb (bool_decide (witness_script = create_lock_script (sp_seller_public_key p)))))
        (InvalidShakedexFulfillment "seller witness differs from the presign")
    | _ => Err (InvalidShakedexFulfillment "seller witness layout differs")
    end
  | _ => Err (InvalidShakedexFulfillment "transaction header or buyer funding layout differs")
  end.

(** The first output transfers the name, the last pays the seller, the second
    pays the marketplace. *)
Definition check_fulfillment_outputs (p : SwapProof) (transaction : Transaction) (coin : Coin)
  : result SwapError unit :=
  transfer ← ok_or (head (tx_outputs transaction))
    (InvalidShakedexFulfillment "transfer output is missing");
  recipient ← transfer_recipient transfer p coin;
  built ← map_err SwNameTransaction (build_transfer_output coin recipient);
  assert_or (bool_decide (transfer = built))
    (InvalidShakedexFulfillment "transfer output differs from the locked name") ;;
  payment ← ok_or (last (tx_outputs transaction))
    (InvalidShakedexFulfillment "seller payment is missing");
  assert_or (negb (negb (out_value payment =? sp_price p) ||
                   negb (bool_decide (out_address payment = sp_payment_address p)) ||
                   negb (bool_decide (out_covenant payment = Covenant_default))))
    (InvalidShakedexFulfillment "seller payment is not the final output") ;;
  if 0 <? sp_fee p then
    fee ← ok_or (get (tx_outputs transaction) 1)
      (InvalidShakedexFulfillment "marketplace fee output is missing");
    assert_or (negb (negb (out_value fee =? sp_fee p) ||
                     negb (bool_decide (Some (out_address fee) = sp_fee_address p)) ||
                     negb (bool_decide (out_covenant fee = Covenant_default))))
      (InvalidShakedexFulfillment "marketplace fee output differs")
  else Ok tt.

Definition SwapProof_verify_fulfillment (p : SwapProof) (transaction : Transaction) (coin : Coin)
  : result SwapError unit :=
  SwapProof_verify p coin ;;
  check_fulfillment_inputs p transaction coin ;;
  check_fulfillment_outputs p transaction coin ;;
  verify_seller_signature p transaction coin.

Definition SwapProof_fulfillment_transaction (p : SwapProof) (coin : Coin) (name_recipient : Address)
    (buyer_inputs : list Input) (buyer_outputs : list Output) : result SwapError Transaction :=
  SwapProof_verify p coin ;;
  map_err SwTransaction (Address_validate name_recipient) ;;
  assert_or (negb (len buyer_inputs =? 0)) MissingShakedexBuyerInputs ;;
  assert_or (negb (repeats_outpoint (coin_outpoint coin) buyer_inputs)) DuplicateShakedexSellerInput ;;
  presigned ← SwapProof_presigned_transaction p coin;
  match tx_outputs presigned with
  | [] => Err (InvalidShakedexFulfillment "transfer output is missing")
  | _ :: outputs =>
    transfer ← map_err SwNameTransaction (build_transfer_output coin name_recipient);
    let outputs := transfer :: outputs in
    match last outputs with
    | None => Err (InvalidShakedexFulfillment "seller payment is missing")
    | Some payment =>
      let outputs := take (length outputs - 1) outputs ++ buyer_outputs ++ [payment] in
      let transaction := mkTransaction (tx_version presigned) (tx_inputs presigned ++ buyer_inputs)
        outputs (tx_locktime presigned) in
      SwapProof_verify_fulfillment p transaction coin ;;
      Ok transaction
    end
  end.

(** Recovery through the proof's own descriptor. *)
Definition SwapProof_recovery_transaction (p : SwapProof) (coin : Coin) (recovery_recipient : Address)
    (funding_inputs : list Input) (funding_outputs : list Output) : result SwapError Transaction :=
  descriptor ← SwapProof_lock_descriptor p;
  ShakedexLockDescriptor_recovery_transaction descriptor coin recovery_recipient funding_inputs
    funding_outputs.

Definition SwapProof_recovery_signature_hash (p : SwapProof) (transaction : Transaction) (coin : Coin)
    (recovery_recipient : Address) : result SwapError (list byte) :=
  descriptor ← SwapProof_lock_descriptor p;
  ShakedexLockDescriptor_recovery_signature_hash descriptor transaction coin recovery_recipient.

Definition SwapProof_recovery_witness (p : SwapProof) (signature : list byte) : result SwapError Witness :=
  descriptor ← SwapProof_lock_descriptor p;
  ShakedexLockDescriptor_recovery_witness descriptor signature.

Definition SwapProof_verify_recovery (p : SwapProof) (transaction : Transaction) (coin : Coin)
    (recovery_recipient : Address) : result SwapError unit :=
  descriptor ← SwapProof_lock_descriptor p;
  ShakedexLockDescriptor_verify_recovery descriptor transaction coin recovery_recipient.

Definition SwapProof_classify_spend (p : SwapProof) (transaction : Transaction) (coin : Coin)
    (expected_recovery_recipient : option Address) : result SwapError ShakedexSpendKind :=
  seller_input ← ok_or (head (tx_inputs transaction)) UnrecognizedShakedexSpend;
  match wit_items (in_witness seller_input) with
  | [signature; witness_script] =>
    assert_or (bool_decide (witness_script = create_lock_script (sp_seller_public_key p)))
      UnrecognizedShakedexSpend ;;
    signature ← ok_or (as_array COMPACT_SIGNATURE_SIZE signature) InvalidSignature;
    if b2z (hash_type_of signature) =? HIP1_SELLER_SIGHASH then
      SwapProof_verify_fulfillment p transaction coin ;; Ok Fulfillment
    else if b2z (hash_type_of signature) =? SHAKEDEX_RECOVERY_SIGHASH then
      recipient ← ok_or expected_recovery_recipient MissingShakedexRecoveryRecipient;
      SwapProof_verify_recovery p transaction coin recipient ;; Ok Recovery
    else Err UnrecognizedShakedexSpend
  | _ => Err UnrecognizedShakedexSpend
  end.

Definition SwapProof_is_executable (p : SwapProof) (parent_median_time : Z) : result SwapError bool :=
  encoded ← encode_time_lock (sp_lock_time_seconds p);
  threshold ← ok_or (checked_mul u64_max (Z.land encoded LOCKTIME_MASK) HSD_LOCKTIME_MULTIPLIER)
    SwArithmeticOverflow;
  Ok (threshold <? parent_median_time).

(** ** Auctions *)
Definition same_listing (p first : SwapProof) : bool :=
  bool_decide (sp_network p = sp_network first) &&
  bool_decide (sp_locking_outpoint p = sp_locking_outpoint first) &&
  bool_decide (sp_name p = sp_name first) &&
  bool_decide (sp_seller_public_key p = sp_seller_public_key first) &&
  bool_decide (sp_payment_address p = sp_payment_address first) &&
  bool_decide (sp_fee_address p = sp_fee_address first).

Definition add_to_bundle (first : SwapProof) (bundle_size : Z) (p : SwapProof) : result SwapError Z :=
  SwapProof_validate p ;;
  _ ← ok_or (sp_signature p) UnsignedProof;
  assert_or (same_listing p first) InconsistentAuction ;;
  encoded ← SwapProof_encode p;
  bundle_size ← ok_or (checked_add usize_max bundle_size (len encoded)) SwArithmeticOverflow;
  assert_or (bundle_size <=? MAX_AUCTION_BUNDLE_SIZE) (BundleTooLarge bundle_size) ;;
  Ok bundle_size.

Definition check_auction_step (a b : SwapProof) : result SwapError unit :=
  check_step (sp_price a) (sp_price b) (sp_lock_time_seconds a) (sp_lock_time_seconds b).

Definition DutchAuction_new (proofs : list SwapProof) : result SwapError DutchAuction :=
  match proofs with
  | [] => Err (InvalidStepCount 0)
  | first :: _ =>
    assert_or (len proofs <=? MAX_AUCTION_STEPS) (InvalidStepCount (len proofs)) ;;
    SwapProof_validate first ;;
    _ ← try_fold (add_to_bundle first) 0 proofs;
    check_windows check_auction_step proofs ;;
    Ok (mkDutchAuction proofs)
  end.

Definition DutchAuction_verify_all_for_network (a : DutchAuction) (expected_network : NetworkBinding)
    (coin : Coin) : result SwapError unit :=
  try_each (fun p => SwapProof_verify_for_network p expected_network coin) (da_proofs a).

Definition DutchAuction_new_verified (proofs : list SwapProof) (expected_network : NetworkBinding)
    (coin : Coin) : result SwapError DutchAuction :=
  auction ← DutchAuction_new proofs;
  DutchAuction_verify_all_for_network auction expected_network coin ;;
  Ok auction.

(** [for proof in proofs.iter().rev()] *)
Fixpoint first_executable (proofs : list SwapProof) (parent_median_time : Z)
  : result SwapError (option SwapProof) :=
  match proofs with
  | [] => Ok None
  | p :: proofs =>
    SwapProof_is_executable p parent_median_time ≫= fun executable : bool =>
    if executable then Ok (Some p) else first_executable proofs parent_median_time
  end.

Definition DutchAuction_best_executable (a : DutchAuction) (parent_median_time : Z)
  : result SwapError (option SwapProof) :=
  first_executable (rev (da_proofs a)) parent_median_time.

End swap.
