(* ===== verification/SwapScript.v ===== *)
(** * What the Shakedex lock script lets through

    The lock script of [crates/hns-swap/src/lib.rs] run by the interpreter: which
    witnesses spend a name locked under its hash. *)

From S2P Require Import Prelude Encoding Primitives Covenants Transaction Script Interpreter ScriptSteps K256 Swap.
Local Open Scope Z_scope.

Section lock_script.
Context {CR : Crypto} {DG : ScriptDigests} {SV : SignatureVerifier}.

Definition lock_instructions (key : list byte) : list Instruction :=
  [mkInstruction OP_TYPE None 0 1; mkInstruction OP_9 None 1 2; mkInstruction OP_EQUAL None 2 3;
   mkInstruction OP_IF None 3 4; mkInstruction 33 (Some key) 4 38; mkInstruction OP_CHECKSIG None 38 39;
   mkInstruction OP_ELSE None 39 40; mkInstruction OP_TYPE None 40 41; mkInstruction OP_10 None 41 42;
   mkInstruction OP_EQUAL None 42 43; mkInstruction OP_ENDIF None 43 44].

Lemma lock_script_parses key : len key = 33 -> parse_script (create_lock_script key) = Ok (lock_instructions key).
Proof.
  intros L. apply parse_script_Ok.
  assert (len (create_lock_script key) = 44) as Ls.
  { unfold create_lock_script. rewrite !len_app, L. done. }
  rewrite Ls. split; [by vm_compute|]. split; [|split].
  - unfold lock_instructions. rewrite <- L at 1. repeat (apply Forall_cons; split; [first
      [by apply opcode_wf|apply push_wf; rewrite L; lia]|]). by apply Forall_nil.
  - unfold lock_instructions, placed, instruction_bytes. cbn [ins_opcode ins_data ins_start ins_end].
    change (length_field 33 (len key)) with (@nil byte). cbn [app]. autorewrite with lens.
    rewrite L. done.
  - done.
Qed.

Lemma covenant_type_range tx index : 0 <= covenant_type tx index <= 255.
Proof. unfold covenant_type. case_match; [|lia]. pose proof (b2z_range (CovenantKind_as_u8 (cov_kind (out_covenant o)))). lia. Qed.

Lemma type_is tx index n :
  0 <= n <= 255 ->
  bool_decide (encode_script_number (covenant_type tx index) = encode_script_number n) =
  (covenant_type tx index =? n).
Proof.
  intros N. pose proof (covenant_type_range tx index) as T. destruct (Z.eqb_spec (covenant_type tx index) n) as [->|D].
  - by apply bool_decide_eq_true.
  - apply bool_decide_eq_false. intros E. apply D.
    rewrite <- (proj1 (encode_number_sound (covenant_type tx index) ltac:(unfold i64_min, i64_max; lia))), E.
    apply (proj1 (encode_number_sound n ltac:(unfold i64_min, i64_max; lia))).
Qed.

Lemma room_snoc (stack : list (list byte)) (x : list byte) :
  len stack < MAX_SCRIPT_STACK -> room (stack ++ [x]) [].
Proof. unfold room. rewrite len_app. change (len [x]) with 1. change (len (@nil (list byte))) with 0. lia. Qed.

Lemma room_lt (stack : list (list byte)) : len stack < MAX_SCRIPT_STACK -> room stack [].
Proof. unfold room. change (len (@nil (list byte))) with 0. lia. Qed.

(** The prefix [TYPE OP_n EQUAL] leaves whether the covenant has that type. *)
Lemma type_test tx script index value flags n a b c d rest stack conds k :
  1 <= n <= 16 -> all_true conds = true -> len stack < MAX_SCRIPT_STACK - 1 -> 0 <= k < 100 ->
  execute_loop script tx index value flags
    (mkInstruction OP_TYPE None a b :: mkInstruction (OP_1 + n - 1) None b c ::
     mkInstruction OP_EQUAL None c d :: rest) (mkMachine stack [] conds k 0) =
  execute_loop script tx index value flags rest
    (mkMachine (stack ++ [bool_bytes (covenant_type tx index =? n)]) [] conds (k + 1 + 1) 0).
Proof.
  intros N A L K. pose proof (room_snoc (stack ++ [encode_script_number (covenant_type tx index)])
    (encode_script_number n)) as R2. rewrite len_app in R2. change (len [_]) with 1 in R2.
  rewrite (loop_det _ _ _ _ _ _ _ _ (mkMachine (stack ++ [encode_script_number (covenant_type tx index)])
    [] conds (k + 1) 0)).
  2: { apply exec_type; [done|lia|]. split; [unfold MAX_SCRIPT_OPS; lia|]. split; [|done]. apply room_snoc. lia. }
  rewrite (loop_det _ _ _ _ _ _ _ _ (mkMachine ((stack ++ [encode_script_number (covenant_type tx index)]) ++
    [encode_script_number n]) [] conds (k + 1) 0)).
  2: { apply exec_small; [done|done|]. split; [|done]. apply R2. lia. }
  apply loop_det. apply exec_equal; [done|lia|]. split; [unfold MAX_SCRIPT_OPS; lia|].
  exists stack, (encode_script_number (covenant_type tx index)), (encode_script_number n).
  split; [by rewrite app_assoc|]. rewrite type_is by lia. split; [apply room_snoc; lia|done].
Qed.

Lemma type_test_room tx script index value flags n a b c rest stack conds k m :
  1 <= n <= 16 -> all_true conds = true -> 0 <= k ->
  execute_loop script tx index value flags
    (mkInstruction OP_TYPE None a b :: mkInstruction (OP_1 + n - 1) None b c :: rest)
    (mkMachine stack [] conds k 0) = Ok m -> len stack < MAX_SCRIPT_STACK - 1.
Proof.
  intros N A K H. apply loop_cons in H as (m1 & E & H). apply exec_type in E as (_ & _ & ->); [|done..].
  apply loop_cons in H as (m2 & E & _). apply exec_small in E as (R & _); [|done..].
  unfold room in R. rewrite !len_app in R. change (len [_]) with 1 in R.
  change (len (@nil (list byte))) with 0 in R. lia.
Qed.

(** The branch of a TRANSFER: a signature check. *)
Lemma lock_tail_skip key tx index value flags stack :
  room stack [] ->
  execute_loop (create_lock_script key) tx index value flags
    [mkInstruction OP_ELSE None 39 40; mkInstruction OP_TYPE None 40 41; mkInstruction OP_10 None 41 42;
     mkInstruction OP_EQUAL None 42 43; mkInstruction OP_ENDIF None 43 44] (mkMachine stack [] [true] 4 0) =
  Ok (mkMachine stack [] [] 8 0).
Proof.
  intros R. rewrite (loop_det _ _ _ _ _ _ _ _ (mkMachine stack [] [false] 5 0)).
  2: { apply (exec_else _ _ _ _ _ _ _ _ _ [] true); [lia|]. split; [by vm_compute|done]. }
  rewrite (loop_det _ _ _ _ _ _ _ _ (mkMachine stack [] [false] 6 0)).
  2: { apply exec_skip; [done..|lia|]. split; [by vm_compute|done]. }
  rewrite (loop_det _ _ _ _ _ _ _ _ (mkMachine stack [] [false] 6 0)).
  2: { change OP_10 with (OP_1 + 10 - 1). apply exec_skip_small; [lia|done|done]. }
  rewrite (loop_det _ _ _ _ _ _ _ _ (mkMachine stack [] [false] 7 0)).
  2: { apply exec_skip; [done..|lia|]. split; [by vm_compute|done]. }
  rewrite (loop_det _ _ _ _ _ _ _ _ (mkMachine stack [] [] 8 0)); [by apply loop_nil|].
  apply (exec_endif _ _ _ _ _ _ _ _ _ [] false); [lia|]. split; [by vm_compute|done].
Qed.

Lemma lock_run_transfer key tx index value flags stack m :
  len key = 33 -> covenant_type tx index = 9 -> len stack < MAX_SCRIPT_STACK - 1 ->
  execute_loop (create_lock_script key) tx index value flags (lock_instructions key)
    (mkMachine stack [] [] 0 0) = Ok m <->
  exists r sig valid, stack = r ++ [sig] /\
    check_signature tx index value (create_lock_script key) sig key = Ok valid /\
    (valid = false -> flags_contains flags VERIFY_NULLFAIL = true -> len sig = 0) /\
    m = mkMachine (r ++ [bool_bytes valid]) [] [] 8 0.
Proof.
  intros Lk T L. unfold lock_instructions. change OP_9 with (OP_1 + 9 - 1).
  rewrite type_test; [|lia|done|done|lia]. rewrite T. change (9 =? 9) with true.
  rewrite (loop_det _ _ _ _ _ _ _ _ (mkMachine stack [] [true] 3 0)).
  2: { apply exec_if; [done|lia|]. split; [by vm_compute|]. exists stack, (bool_bytes true).
       split; [done|]. split; [by right|]. split; [apply room_lt; lia|done]. }
  rewrite (loop_det _ _ _ _ _ _ _ _ (mkMachine (stack ++ [key]) [] [true] 3 0)).
  2: { apply exec_push; [lia|rewrite <- Lk; apply minimal_direct; lia|rewrite Lk; by vm_compute|done|].
       split; [apply room_snoc; lia|done]. }
  rewrite loop_cons. setoid_rewrite exec_checksig; [|done|lia]. split.
  - intros (m1 & (_ & r & sig & k & valid & E & C & N & R & ->) & H).
    rewrite app_assoc in E. apply app_inj_tail in E as (-> & ->). exists r, sig, valid.
    split; [done|]. split; [done|]. split; [done|]. rewrite lock_tail_skip in H by done.
    by injection H as <-.
  - intros (r & sig & valid & -> & C & N & ->). rewrite len_app in L. change (len [sig]) with 1 in L.
    assert (room (r ++ [bool_bytes valid]) []) as R by (apply room_snoc; lia).
    eexists. split; [|by apply lock_tail_skip]. split; [by vm_compute|].
    exists r, sig, key, valid. by rewrite app_assoc.
Qed.

(** The other branch: nothing but the type of the covenant. *)
Lemma lock_run_other key tx index value flags stack :
  len key = 33 -> covenant_type tx index <> 9 -> len stack < MAX_SCRIPT_STACK - 1 ->
  execute_loop (create_lock_script key) tx index value flags (lock_instructions key)
    (mkMachine stack [] [] 0 0) =
  Ok (mkMachine (stack ++ [bool_bytes (covenant_type tx index =? 10)]) [] [] 8 0).
Proof.
  intros Lk T L. unfold lock_instructions. change OP_9 with (OP_1 + 9 - 1).
  rewrite type_test; [|lia|done|done|lia]. rewrite (proj2 (Z.eqb_neq _ 9)) by done.
  assert (room stack []) as R by (apply room_lt; lia).
  rewrite (loop_det _ _ _ _ _ _ _ _ (mkMachine stack [] [false] 3 0)).
  2: { apply exec_if; [done|lia|]. split; [by vm_compute|]. exists stack, (bool_bytes false).
       split; [done|]. split; [by left|done]. }
  rewrite (loop_det _ _ _ _ _ _ _ _ (mkMachine stack [] [false] 3 0)).
  2: { apply exec_skip_push; [by vm_compute|rewrite Lk; by vm_compute|done..]. }
  rewrite (loop_det _ _ _ _ _ _ _ _ (mkMachine stack [] [false] 4 0)).
  2: { apply exec_skip; [done..|lia|]. split; [by vm_compute|done]. }
  rewrite (loop_det _ _ _ _ _ _ _ _ (mkMachine stack [] [true] 5 0)).
  2: { apply (exec_else _ _ _ _ _ _ _ _ _ [] false); [lia|]. split; [by vm_compute|done]. }
  change OP_10 with (OP_1 + 10 - 1). rewrite type_test; [|lia|done|done|lia].
  rewrite (loop_det _ _ _ _ _ _ _ _ (mkMachine (stack ++ [bool_bytes (covenant_type tx index =? 10)]) [] [] 8 0));
    [by apply loop_nil|].
  apply (exec_endif _ _ _ _ _ _ _ _ _ [] true); [lia|]. split; [by vm_compute|].
  split; [apply room_snoc; lia|done].
Qed.

Lemma lock_script_spend_Ok key tx index coin flags input
    (K : len key = 33) (Hi : 0 <= index) (I : get (tx_inputs tx) index = Some input)
    (E : in_previous_output input = coin_outpoint coin)
    (A : coin_address coin = mkAddress x00 (lock_script_hash key))
    (P : forall stack script, wit_items (in_witness input) = stack ++ [script] ->
         sha3_256 script = lock_script_hash key -> script = create_lock_script key) :
  verify_witness_program tx index coin flags = Ok tt <->
  (covenant_type tx index = 9 /\ exists sig,
     wit_items (in_witness input) = [sig; create_lock_script key] /\
     check_signature tx index (coin_value coin) (create_lock_script key) sig key = Ok true) \/
  (covenant_type tx index = 10 /\ wit_items (in_witness input) = [create_lock_script key]).
Proof.
  assert (len (lock_script_hash key) = 32) as L32 by apply (len_length _ 32), sha3_256_length.
  assert (len (create_lock_script key) <= MAX_SCRIPT_SIZE) as Ls.
  { apply parse_script_Ok with (instrs := lock_instructions key). by apply lock_script_parses. }
  rewrite script_hash_spend_Ok; [|done|exact I|done|by rewrite A|by rewrite A]. rewrite A. cbn [addr_hash].
  split.
  - intros (stack & script & instrs & alt & count & sep & top & W & Sl & _ & Hh & _ & Pa & Run & T).
    rewrite W in P |- *. specialize (P _ _ eq_refl Hh). subst script. rewrite lock_script_parses in Pa by done.
    injection Pa as <-. pose proof Run as Rm. apply (type_test_room _ _ _ _ _ 9) in Rm; [|lia|done|lia].
    destruct (Z.eq_dec (covenant_type tx index) 9) as [T9|T9].
    + left. split; [done|]. apply lock_run_transfer in Run as (r & sig & valid & -> & C & _ & M); [|done..].
      injection M as Es -> _ _. destruct r; [|by destruct r]. injection Es as ->.
      rewrite cast_bool_bytes in T. subst valid. by exists sig.
    + right. rewrite lock_run_other in Run by done. injection Run as Es _ _ _.
      destruct stack; [|by destruct stack]. injection Es as <-. rewrite cast_bool_bytes in T.
      by apply Z.eqb_eq in T.
  - intros [(T & sig & W & C)|(T & W)].
    + destruct (check_signature_true _ _ _ _ _ _ C) as (Lsig & _).
      exists [sig], (create_lock_script key), (lock_instructions key), [], 8, 0, (bool_bytes true).
      split; [done|]. split; [by vm_compute|]. split; [done|]. split; [done|].
      split; [apply Forall_singleton; rewrite Lsig; by vm_compute|]. split; [by apply lock_script_parses|].
      split; [|done]. apply lock_run_transfer; [done|done|by vm_compute|]. by exists [], sig, true.
    + exists [], (create_lock_script key), (lock_instructions key), [], 8, 0, (bool_bytes true).
      split; [done|]. split; [by vm_compute|]. split; [done|]. split; [done|].
      split; [by apply Forall_nil|]. split; [by apply lock_script_parses|]. split; [|done].
      rewrite lock_run_other; [by rewrite T|done|lia|by vm_compute].
Qed.

(** C4. A name locked under the hash of a seller's lock script moves in exactly two
    ways, whatever the flags, unless the witness exhibits a second preimage of the
    hash: to a TRANSFER output, with a witness of exactly one valid signature by
    the seller and the script; or to a FINALIZE output, with the script as the only
    witness item. *)
Theorem lock_script_spend_iff key tx index coin flags input
    (K : len key = 33) (Hi : 0 <= index) (I : get (tx_inputs tx) index = Some input)
    (E : in_previous_output input = coin_outpoint coin)
    (A : coin_address coin = mkAddress x00 (lock_script_hash key))
    (P : forall stack script, wit_items (in_witness input) = stack ++ [script] ->
         sha3_256 script = lock_script_hash key -> script = create_lock_script key) :
  verify_witness_program tx index coin flags = Ok tt <->
  (covenant_type tx index = 9 /\ exists sig,
     wit_items (in_witness input) = [sig; create_lock_script key] /\
     check_signature tx index (coin_value coin) (create_lock_script key) sig key = Ok true) \/
  (covenant_type tx index = 10 /\ wit_items (in_witness input) = [create_lock_script key]).
Proof. by apply lock_script_spend_Ok. Qed.
End lock_script.

(** A seller takes a name back: a TRANSFER signed under the lock. *)
Definition locked_key : list byte := key_of 5.
Definition locked_coin : Coin :=
  mkCoin (mkOutpoint (zeros 32) 3) 6000 10 false
    (mkAddress x00 (@lock_script_hash toy_crypto locked_key)) (mkCovenant KFinalize []).
Definition take_back_input : Input :=
  mkInput (mkOutpoint (zeros 32) 3) u32_max (mkWitness [sig_of 5; create_lock_script locked_key]).
Definition take_back : Transaction :=
  mkTransaction 0 [take_back_input]
    [mkOutput 6000 (coin_address locked_coin) (mkCovenant KTransfer [])] 0.

Lemma lock_script_spend_iff_witness :
  @verify_witness_program toy_crypto toy_digests toy_verifier take_back 0 locked_coin FLAGS_STANDARD = Ok tt.
Proof.
  apply (@lock_script_spend_iff toy_crypto toy_digests toy_verifier locked_key take_back 0 locked_coin
    FLAGS_STANDARD take_back_input); [reflexivity|lia|reflexivity..| |].
  - intros stack script W _. change (wit_items _) with ([sig_of 5] ++ [create_lock_script locked_key]) in W.
    apply app_inj_tail in W as (_ & W). by symmetry.
  - left. split; [reflexivity|]. exists (sig_of 5). split; [reflexivity|]. vm_compute. reflexivity.
Defined.
