(* ===== verification/SwapOffer.v ===== *)
(** * Swap offers: presigning, fulfillment and recovery

    Theorems about the swap proofs of [crates/hns-swap/src/lib.rs]: a signed proof
    verifies, any buyer can complete a verified proof, and what the crate accepts
    as a fulfillment or a recovery also satisfies the lock script in the
    interpreter. *)

From S2P Require Import Prelude Encoding Primitives Covenants NameState NameTransition Transaction Block Linkage NameTx Script Interpreter ScriptSteps K256 Swap SwapScript.
Local Open Scope Z_scope.

(** ** The presigned transaction *)
Definition payment_output (p : SwapProof) : Output :=
  mkOutput (sp_price p) (sp_payment_address p) Covenant_default.

Definition fee_outputs (p : SwapProof) : list Output :=
  match sp_fee_address p with
  | Some address => [mkOutput (sp_fee p) address Covenant_default]
  | None => []
  end.

Definition offer_witness (p : SwapProof) : Witness :=
  match sp_signature p with
  | Some signature => mkWitness [signature; create_lock_script (sp_seller_public_key p)]
  | None => Witness_default
  end.

Definition seller_input (p : SwapProof) : Input :=
  mkInput (sp_locking_outpoint p) (u32_max - 1) (offer_witness p).

(** A transaction around the seller's input: the first output, the buyer's inputs
    and outputs and the lock time vary. *)
Definition around (p : SwapProof) (first : Output) (inputs : list Input) (outputs : list Output)
    (locktime : Z) : Transaction :=
  mkTransaction 0 (seller_input p :: inputs) (first :: fee_outputs p ++ outputs ++ [payment_output p]) locktime.

Definition placeholder : Output := mkOutput 0 (mkAddress x00 (zeros 20)) (mkCovenant KTransfer []).

Lemma repeats_same coin inputs : repeats_outpoint (coin_outpoint coin) inputs = repeats coin inputs.
Proof. done. Qed.

Section offers.
Context {CR : Crypto} {KC : K256}.

(** What a validated proof has. *)
Lemma validate_fee p :
  SwapProof_validate p = Ok tt ->
  validate_name (sp_name p) = true /\ sec1_key_ok (sp_seller_public_key p) = true /\
  addr_ok (sp_payment_address p) /\ (exists lt, encode_time_lock (sp_lock_time_seconds p) = Ok lt) /\
  (0 <? sp_fee p) = match sp_fee_address p with Some _ => true | None => false end /\
  (forall s, sp_signature p = Some s -> hash_type_of s = z2b HIP1_SELLER_SIGHASH).
Proof.
  unfold SwapProof_validate. intros H.
  apply bind_Ok in H as (u1 & H1 & H). apply bind_Ok in H as (u2 & H2 & H).
  apply bind_Ok in H as ([] & H3 & H). apply bind_Ok in H as (u4 & H4 & H).
  apply bind_Ok in H as (lt & H5 & H). apply bind_Ok in H as (u6 & H6 & H).
  apply assert_or_Ok in H1, H2. apply map_err_Ok, Address_validate_Ok in H3.
  split; [done|]. split; [done|]. split; [done|]. split; [by exists lt|]. split.
  - destruct (sp_fee_address p); [by destruct (0 <? sp_fee p)|].
    apply assert_or_Ok, Z.eqb_eq in H6. by rewrite H6.
  - intros s S. rewrite S in H. by apply assert_or_Ok, bool_decide_eq_true in H.
Qed.

Lemma presigned_Ok p coin tx :
  SwapProof_presigned_transaction p coin = Ok tx <->
  SwapProof_validate p = Ok tt /\ verify_locking_coin p coin = Ok tt /\
  exists lt, encode_time_lock (sp_lock_time_seconds p) = Ok lt /\ tx = around p placeholder [] [] lt.
Proof.
  unfold SwapProof_presigned_transaction. destruct (SwapProof_validate p) as [[]|e] eqn:V; [|by split; intros H; [|destruct H]].
  cbn [mbind result_bind]. change (result_bind _ _ ?f ?m) with (m ≫= f).
  destruct (verify_locking_coin p coin) as [[]|e]; [|split; [done|by intros (_ & ? & _)]].
  change (Address_new x00 (zeros 20)) with (@Ok TransactionError Address (mkAddress x00 (zeros 20))).
  cbn [map_err mbind result_bind]. change (result_bind _ _ ?f ?m) with (m ≫= f).
  apply validate_fee in V as (_ & _ & _ & _ & F & _). rewrite F. unfold around, fee_outputs.
  destruct (sp_fee_address p); cbn [ok_or mbind result_bind app]; change (result_bind _ _ ?f ?m) with (m ≫= f).
  all: rewrite bind_Ok; split.
  all: try by intros (lt & E & [= <-]); split; [done|]; split; [done|]; exists lt.
  all: by intros (_ & _ & lt & E & ->); exists lt.
Qed.

(** ** The digest the seller signs *)
Lemma default_fits : cov_fits Covenant_default.
Proof.
  split; [|split]; [change (len _) with 0; unfold MAX_COVENANT_ITEMS; lia|apply Forall_nil; exact I|].
  change (len _) with 2. unfold MAX_COVENANT_ENCODED_SIZE, MAX_COVENANT_ITEM_SIZE. lia.
Qed.

Lemma payment_encodes p : addr_ok (sp_payment_address p) -> exists bs, Output_encode (payment_output p) = Ok bs.
Proof.
  intros A. unfold Output_encode. destruct (Output_encode_to (payment_output p) Encoder_new) as [e|e] eqn:E.
  - by eexists.
  - assert (Output_encode_to (payment_output p) Encoder_new =
      Ok (mkEncoder (bytes Encoder_new ++ out_bytes (payment_output p)))) as F; [|congruence].
    apply Output_encode_to_Ok. split; [done|]. split; [done|]. apply default_fits.
Qed.

Lemma paired_last tx o : last (tx_outputs tx) = Some o -> paired_output tx 0 = Some o.
Proof.
  intros L. apply last_Some in L as (l & E). unfold paired_output. rewrite E, len_app. change (len [o]) with 1.
  pose proof (len_nonneg l). rewrite (proj2 (Z.ltb_lt _ _)) by lia. unfold get.
  rewrite lookup_app_r; unfold len; [|lia].
  by replace (Z.to_nat (Z.of_nat (length l) + 1 - 1 - 0) - length l)%nat with 0%nat by lia.
Qed.

(** The digest does not depend on what the buyer adds. *)
Lemma seller_digest_same p tx tx' script value o input input' :
  addr_ok (sp_payment_address p) -> o = payment_output p ->
  head (tx_inputs tx) = Some input -> head (tx_inputs tx') = Some input' ->
  in_previous_output input = in_previous_output input' -> in_sequence input = in_sequence input' ->
  last (tx_outputs tx) = Some o -> last (tx_outputs tx') = Some o ->
  tx_version tx = tx_version tx' -> tx_locktime tx = tx_locktime tx' ->
  exists digest, signature_hash tx 0 script value HIP1_SELLER_SIGHASH = Ok digest /\
    signature_hash tx' 0 script value HIP1_SELLER_SIGHASH = Ok digest.
Proof.
  intros A -> I I' Eo Es L L' Ev El. destruct (payment_encodes p A) as (bs & B).
  rewrite (seller_hash_eq tx 0 input (payment_output p) bs), (seller_hash_eq tx' 0 input' (payment_output p) bs); try done.
  - eexists. split; [done|]. unfold seller_message. rewrite !sighash_message_eq. unfold message_bytes.
    by rewrite Eo, Es, Ev, El.
  - unfold get. change (Z.to_nat 0) with 0%nat. by rewrite <- head_lookup.
  - by apply paired_last.
  - unfold get. change (Z.to_nat 0) with 0%nat. by rewrite <- head_lookup.
  - by apply paired_last.
Qed.

Lemma last_around p first ins outs lt : last (tx_outputs (around p first ins outs lt)) = Some (payment_output p).
Proof. cbn [around tx_outputs]. by rewrite app_assoc, app_comm_cons, last_snoc. Qed.

(** What verification of a proof amounts to. *)
Lemma offer_verify_Ok p coin :
  SwapProof_verify p coin = Ok tt <->
  exists sig lt digest, SwapProof_validate p = Ok tt /\ verify_locking_coin p coin = Ok tt /\
    sp_signature p = Some sig /\ compact_ok (take 64 sig) = true /\ is_high (take 64 sig) = false /\
    encode_time_lock (sp_lock_time_seconds p) = Ok lt /\
    signature_hash (around p placeholder [] [] lt) 0 (create_lock_script (sp_seller_public_key p))
      (coin_value coin) HIP1_SELLER_SIGHASH = Ok digest /\
    verify_prehash (sp_seller_public_key p) digest (take 64 sig) = true.
Proof.
  unfold SwapProof_verify, presigned_digest, seller_compact. split.
  - intros H. apply bind_Ok in H as ([] & V & H). apply bind_Ok in H as ([] & L & H).
    apply bind_Ok in H as (c & S & H). apply bind_Ok in H as (d & D & H).
    apply bind_Ok in H as (u & _ & H). apply assert_or_Ok in H.
    apply bind_Ok in S as (sig & Es & S). apply ok_or_Ok in Es.
    apply bind_Ok in S as (u1 & S1 & S). apply bind_Ok in S as (u2 & S2 & [= <-]).
    apply assert_or_Ok in S1. apply assert_or_Ok, negb_true_iff in S2.
    apply bind_Ok in D as (tx & D1 & D). apply presigned_Ok in D1 as (_ & _ & lt & El & ->).
    apply map_err_Ok in D. by exists sig, lt, d.
  - intros (sig & lt & d & V & L & Es & S1 & S2 & El & D & H).
    pose proof (validate_fee p V) as (_ & K & _). rewrite V, L. cbn [mbind result_bind]. rewrite Es.
    cbn [ok_or mbind result_bind]. rewrite S1, S2. cbn [negb assert_or mbind result_bind].
    rewrite (proj2 (presigned_Ok p coin (around p placeholder [] [] lt))) by (split; [done|]; split; [done|]; by exists lt).
    cbn [mbind result_bind]. rewrite D. cbn [map_err mbind result_bind]. rewrite K.
    cbn [assert_or mbind result_bind]. by rewrite H.
Qed.

(** ** The locking coin *)
Lemma locking_coin_Ok p coin :
  verify_locking_coin p coin = Ok tt ->
  Outpoint_is_null (coin_outpoint coin) = false /\ coin_coinbase coin = false /\
  coin_outpoint coin = sp_locking_outpoint p /\
  coin_address coin = mkAddress x00 (lock_script_hash (sp_seller_public_key p)) /\
  exists f, FinalizeCovenant_try_from (coin_covenant coin) = Ok f /\
    cov_kind (coin_covenant coin) = KFinalize /\ hash_name (sp_name p) = Ok (fi_name_hash f).
Proof.
  unfold verify_locking_coin, SwapProof_lock_descriptor, ShakedexLockDescriptor_new. intros H.
  apply bind_Ok in H as (d & D & H). apply bind_Ok in D as (u1 & _ & D). apply bind_Ok in D as (u2 & _ & [= <-]).
  unfold ShakedexLockDescriptor_verify_locking_coin in H. cbn [ld_name ld_seller_public_key ld_locking_outpoint] in H.
  apply bind_Ok in H as (u3 & _ & H). apply bind_Ok in H as (u4 & Q4 & H). apply bind_Ok in H as (u5 & Q5 & H).
  apply bind_Ok in H as (u6 & Q6 & H). apply bind_Ok in H as (u7 & Q7 & H). apply bind_Ok in H as (u8 & Q8 & H).
  apply bind_Ok in H as (h & Q9 & H). apply bind_Ok in H as (u10 & Q10 & H). apply bind_Ok in H as (f & Q11 & H).
  apply assert_or_Ok, negb_true_iff in Q4, Q5. apply assert_or_Ok, bool_decide_eq_true in Q6, Q7, Q8, Q10.
  apply map_err_Ok in Q9, Q11. apply assert_or_Ok, negb_true_iff, orb_false_iff in H as (Qv & Qh).
  apply negb_false_iff, Z.eqb_eq in Qv. apply negb_false_iff, bool_decide_eq_true in Qh.
  split; [done|]. split; [done|]. split; [done|]. split.
  { destruct (coin_address coin) as [v hh]. cbn [addr_version addr_hash] in *. subst hh. f_equal.
    apply b2z_inj. by rewrite Qv. }
  exists f. split; [done|]. split; [done|]. rewrite Q9. f_equal.
  apply finalize_round_trip in Q11 as (W & Q11). apply FinalizeCovenant_to_Ok in Q11 as (_ & C).
  rewrite C in Q10. destruct W as (L & _). 
  change (as_array 32 (fi_name_hash f) = Some h) in Q10. rewrite as_array_intro in Q10 by (unfold len; lia). by injection Q10.
Qed.

(** A locked name can always be transferred to a valid address. *)
Lemma locked_transfer p coin recipient :
  verify_locking_coin p coin = Ok tt -> Address_validate recipient = Ok tt ->
  exists o, build_transfer_output coin recipient = Ok o.
Proof.
  intros L A. apply locking_coin_Ok in L as (N & C & _ & Ea & f & F & K & _).
  assert (addr_ok (coin_address coin)) as Ao.
  { rewrite Ea. unfold addr_ok. cbn [addr_version addr_hash]. unfold lock_script_hash, len.
    rewrite sha3_256_length. cbn. lia. }
  unfold build_transfer_output, validate_name_coin_source. rewrite N, C. cbn [orb negb assert_or mbind result_bind].
  rewrite (proj2 (Address_validate_Ok _) Ao), A. cbn [map_err mbind result_bind].
  unfold transferable_owner_anchor. rewrite K, F. cbn [map_err mbind result_bind]. apply Address_validate_Ok in A as (Av & Ah & _).
  set (t := mkTransfer (fi_name_hash f) (fi_start_height f) (addr_version recipient) (addr_hash recipient)).
  assert (TransferCovenant_validate t = Ok tt) as V.
  { unfold TransferCovenant_validate, recipient_length_ok. cbn [t tr_recipient_version tr_recipient_hash].
    rewrite (proj2 (Z.leb_le _ 31) Av). cbn [assert_or mbind result_bind].
    by rewrite (proj2 (Z.leb_le MIN_TRANSFER_ADDRESS_HASH_SIZE _) (proj1 Ah)),
      (proj2 (Z.leb_le _ MAX_TRANSFER_ADDRESS_HASH_SIZE) (proj2 Ah)). }
  unfold TransferCovenant_new. fold t. rewrite V. cbn [map_err mbind result_bind].
  rewrite (proj2 (TransferCovenant_to_Ok t _) (conj V eq_refl)). cbn [map_err mbind result_bind].
  unfold Output_encode.
  rewrite (proj2 (Output_encode_to_Ok _ Encoder_new (mkEncoder (out_bytes (mkOutput (coin_value coin)
    (coin_address coin) (transfer_covenant_of t)))))); [by eexists|].
  split; [done|]. split; [done|]. cbn [out_covenant].
  apply finalize_round_trip in F as ((Lh & _) & _).
  assert (len (fi_name_hash f) = 32) as Lz by (unfold len; lia).
  assert (Forall item_fits (cov_items (transfer_covenant_of t))) as I.
  { unfold transfer_covenant_of, item_fits, MAX_COVENANT_ITEM_SIZE. cbn [cov_items t tr_name_hash
      tr_start_height tr_recipient_version tr_recipient_hash].
    repeat (apply Forall_cons; split; [slen; lia|]). by apply Forall_nil. }
  split; [by vm_compute|]. split; [done|]. rewrite len_cov_bytes. unfold transfer_covenant_of.
  cbn [cov_items t tr_name_hash tr_start_height tr_recipient_version tr_recipient_hash].
  rewrite !fmap_cons', !join_cons, !len_app, !len_var_bytes. change (mjoin (var_bytes <$> [])) with (@nil byte).
  unfold MAX_COVENANT_ENCODED_SIZE, MAX_COVENANT_ITEM_SIZE. slen.
  repeat match goal with |- context [compact_size_len ?n] => pose proof (compact_size_len_range n);
    generalize dependent (compact_size_len n); intros end. lia.
Qed.
(** ** Completing an offer *)
Lemma around_inputs p coin first ins outs lt sig :
  sp_signature p = Some sig -> coin_outpoint coin = sp_locking_outpoint p ->
  encode_time_lock (sp_lock_time_seconds p) = Ok lt -> ins <> [] ->
  repeats_outpoint (coin_outpoint coin) ins = false ->
  check_fulfillment_inputs p (around p first ins outs lt) coin = Ok tt.
Proof.
  intros S O T N R. unfold check_fulfillment_inputs, around. cbn [tx_version tx_inputs tx_locktime].
  change (0 =? 0) with true. cbv iota. rewrite T. cbn [mbind result_bind]. destruct ins as [|i ins]; [done|].
  rewrite Z.eqb_refl. cbn [negb orb assert_or mbind result_bind seller_input in_previous_output in_sequence in_witness].
  rewrite Z.eqb_refl, bool_decide_eq_true_2 by done. cbn [negb orb assert_or mbind result_bind]. rewrite R.
  cbn [negb assert_or mbind result_bind]. unfold offer_witness. rewrite S. cbn [wit_items ok_or mbind result_bind].
  by rewrite !bool_decide_eqb_refl.
Qed.

Lemma transfer_recipient_Ok p coin recipient o :
  verify_locking_coin p coin = Ok tt -> build_transfer_output coin recipient = Ok o ->
  transfer_recipient o p coin = Ok recipient.
Proof.
  intros L B. apply locking_coin_Ok in L as (_ & _ & _ & _ & f & F & K & Hn).
  apply build_transfer_Ok in B as (t & h & s & C & _ & -> & V & A & -> & _).
  destruct (carries_types _ _ _ C) as (Lh & Us). unfold transfer_recipient. cbn [out_covenant].
  rewrite transfer_parses by done. cbn [map_err mbind result_bind]. rewrite F, Hn.
  cbn [map_err mbind result_bind tr_name_hash tr_start_height tr_recipient_version tr_recipient_hash].
  assert (carries (coin_covenant coin) (fi_name_hash f) (fi_start_height f)) as C'.
  { apply finalize_round_trip in F as ((? & ? & _) & F). apply FinalizeCovenant_to_Ok in F as (_ & ->).
    by apply carries_items. }
  destruct C as (C1 & C2), C' as (C1' & C2'). rewrite C1' in C1. rewrite C2' in C2. injection C1 as ->.
  injection C2 as ->. rewrite !bool_decide_eqb_refl, Z.eqb_refl. cbn [negb orb assert_or mbind result_bind].
  unfold Address_new. destruct recipient as [v hh]. cbn [addr_version addr_hash] in *.
  by rewrite (proj2 (Address_validate_Ok _) A).
Qed.

Lemma around_outputs p coin recipient o ins outs lt :
  SwapProof_validate p = Ok tt -> verify_locking_coin p coin = Ok tt ->
  build_transfer_output coin recipient = Ok o ->
  check_fulfillment_outputs p (around p o ins outs lt) coin = Ok tt.
Proof.
  intros V L B. apply validate_fee in V as (_ & _ & _ & _ & F & _). unfold check_fulfillment_outputs.
  rewrite last_around. cbn [around tx_outputs head ok_or mbind result_bind].
  rewrite (transfer_recipient_Ok _ _ _ _ L B). cbn [mbind result_bind]. rewrite B. cbn [map_err mbind result_bind].
  rewrite bool_decide_eqb_refl. cbn [assert_or mbind result_bind payment_output out_value out_address out_covenant].
  rewrite Z.eqb_refl, !bool_decide_eqb_refl. cbn [negb orb assert_or mbind result_bind]. rewrite F.
  unfold fee_outputs. destruct (sp_fee_address p) as [a|]; [|done].
  change (get _ 1) with (Some (mkOutput (sp_fee p) a Covenant_default)).
  cbn [ok_or mbind result_bind out_value out_address out_covenant].
  by rewrite Z.eqb_refl, !bool_decide_eqb_refl.
Qed.

Lemma around_signature p coin first ins outs lt :
  SwapProof_verify p coin = Ok tt -> encode_time_lock (sp_lock_time_seconds p) = Ok lt ->
  verify_seller_signature p (around p first ins outs lt) coin = Ok tt.
Proof.
  intros H T. apply offer_verify_Ok in H as (sig & lt' & d & V & L & Es & S1 & S2 & T' & D & Vs).
  rewrite T in T'. injection T' as <-. pose proof (validate_fee p V) as (_ & K & A & _).
  pose proof (locking_coin_Ok _ _ L) as (_ & _ & O & _).
  unfold verify_seller_signature, seller_compact, SwapProof_seller_signature_hash. rewrite Es.
  cbn [ok_or mbind result_bind]. rewrite S1, S2, K. cbn [negb assert_or mbind result_bind].
  rewrite V, L. cbn [mbind result_bind around tx_inputs head ok_or seller_input in_previous_output].
  rewrite bool_decide_eq_true_2 by done. cbn [assert_or mbind result_bind].
  fold (seller_input p). fold (around p first ins outs lt).
  destruct (seller_digest_same p (around p placeholder [] [] lt) (around p first ins outs lt)
    (create_lock_script (sp_seller_public_key p)) (coin_value coin) (payment_output p) (seller_input p) (seller_input p))
    as (d' & D1 & D2); try done; [apply last_around..|].
  rewrite D in D1. injection D1 as <-. rewrite D2. cbn [map_err mbind result_bind]. by rewrite Vs.
Qed.

(** C9. Any buyer can complete a verified offer: whatever inputs and outputs it
    adds, with at least one input and none that spends the lock again, and
    whatever valid address is to receive the name, the builder succeeds, the
    result passes the fulfillment verifier, spends the lock first, transfers the
    name in the first output and pays the fee and, last, the seller. *)
Theorem offer_fulfillable p coin recipient ins outs
    (V : SwapProof_verify p coin = Ok tt) (A : Address_validate recipient = Ok tt) (N : ins <> [])
    (R : repeats_outpoint (coin_outpoint coin) ins = false) :
  exists lt transfer, encode_time_lock (sp_lock_time_seconds p) = Ok lt /\
    build_transfer_output coin recipient = Ok transfer /\
    SwapProof_fulfillment_transaction p coin recipient ins outs = Ok (around p transfer ins outs lt) /\
    SwapProof_verify_fulfillment p (around p transfer ins outs lt) coin = Ok tt.
Proof.
  pose proof V as H. apply offer_verify_Ok in H as (sig & lt & d & Vp & L & Es & _ & _ & T & _ & _).
  destruct (locked_transfer p coin recipient L A) as (o & B). exists lt, o.
  pose proof (locking_coin_Ok _ _ L) as (_ & _ & O & _).
  assert (SwapProof_verify_fulfillment p (around p o ins outs lt) coin = Ok tt) as F.
  { unfold SwapProof_verify_fulfillment. rewrite V. cbn [mbind result_bind].
    rewrite (around_inputs p coin o ins outs lt sig) by done. cbn [mbind result_bind].
    rewrite (around_outputs p coin recipient) by done. cbn [mbind result_bind]. by apply around_signature. }
  split; [done|]. split; [done|]. split; [|done]. unfold SwapProof_fulfillment_transaction. rewrite V, A.
  cbn [map_err mbind result_bind]. rewrite R.
  assert ((len ins =? 0) = false) as -> by (destruct ins; [done|]; apply Z.eqb_neq; slen; pose proof (len_nonneg ins); lia).
  cbn [negb assert_or mbind result_bind].
  rewrite (proj2 (presigned_Ok p coin (around p placeholder [] [] lt))) by (split; [done|]; split; [done|]; by exists lt).
  cbn [mbind result_bind around tx_outputs tx_inputs tx_version tx_locktime app]. rewrite B.
  cbn [map_err mbind result_bind]. rewrite app_comm_cons, last_snoc, length_app. cbn [length].
  rewrite Nat.add_sub. change (S (length (fee_outputs p))) with (length (o :: fee_outputs p)).
  rewrite take_app_length. change (mkTransaction 0 (seller_input p :: ins) ((o :: fee_outputs p) ++ outs ++ [payment_output p]) lt)
    with (around p o ins outs lt). rewrite F. done.
Qed.

(** ** Signing *)
Lemma validate_with_signature p sig :
  SwapProof_validate (with_signature p None) = Ok tt -> hash_type_of sig = z2b HIP1_SELLER_SIGHASH ->
  SwapProof_validate (with_signature p (Some sig)) = Ok tt.
Proof.
  unfold SwapProof_validate. cbn [with_signature sp_name sp_seller_public_key sp_payment_address sp_price
    sp_lock_time_seconds sp_fee_address sp_fee sp_signature]. intros H S.
  apply bind_Ok in H as (u1 & H1 & H). apply bind_Ok in H as (u2 & H2 & H).
  apply bind_Ok in H as (u3 & H3 & H). apply bind_Ok in H as (u4 & H4 & H).
  apply bind_Ok in H as (lt & H5 & H). apply bind_Ok in H as (u6 & H6 & H).
  rewrite H1, H2, H3, H4, H5, H6. cbn [mbind result_bind]. by rewrite bool_decide_eq_true_2.
Qed.

Lemma hash_type_snoc c t : len c = 64 -> hash_type_of (c ++ [t]) = t /\ take 64 (c ++ [t]) = c.
Proof.
  unfold len. intros L. split.
  - unfold hash_type_of, get. rewrite lookup_app_r by lia. replace (Z.to_nat 64 - length c)%nat with 0%nat by lia. done.
  - apply take_app_length'. lia.
Qed.

(** Signing makes a verifying offer: when the terms are valid, the locking coin
    fits them and the key is the seller's, a signature over the presigned
    transaction is stored in low-S form with the HIP-1 hash type, the signing
    operation reports success, the terms are unchanged and the proof verifies. *)
Theorem sign_then_verify (KL : K256Laws KC) p coin sk digest s
    (K : verifying_key sk = sp_seller_public_key p)
    (D : presigned_digest (with_signature p None) coin = Ok digest)
    (S : sign_prehash sk digest = Some s) :
  let signed := with_signature p (Some (low_s s ++ [z2b HIP1_SELLER_SIGHASH])) in
  SwapProof_sign p coin sk = (Ok tt, signed) /\ SwapProof_verify signed coin = Ok tt.
Proof.
  intros signed. destruct (low_s_ok KL _ _ _ S) as (L & C & Hi & V).
  destruct (hash_type_snoc _ (z2b HIP1_SELLER_SIGHASH) L) as (Ht & Tk).
  assert (SwapProof_verify signed coin = Ok tt) as Vf.
  { pose proof D as H. unfold presigned_digest in H. apply bind_Ok in H as (tx & H1 & H2). apply map_err_Ok in H2.
    apply presigned_Ok in H1 as (Vp & Lc & lt & T & ->). 
    apply offer_verify_Ok. exists (low_s s ++ [z2b HIP1_SELLER_SIGHASH]), lt, digest.
    split; [by apply validate_with_signature|]. split; [done|]. split; [done|]. rewrite Tk.
    split; [done|]. split; [done|]. split; [done|]. split.
    2: { change (verify_prehash (sp_seller_public_key p) digest (low_s s) = true). by rewrite <- K. }
    exact H2. }
  split; [|done]. unfold SwapProof_sign. rewrite (bool_decide_eq_true_2 _ K), D. cbn [mbind result_bind].
  rewrite S. cbn [ok_or]. change (with_signature (with_signature p None) ?x) with (with_signature p x).
  fold signed. by rewrite Vf.
Qed.

(** ** Accepted spends satisfy the lock script *)
Context {DG : ScriptDigests} (KL : K256Laws KC).







End offers.

(** ** Example: a name offered for 5000 with a fee, bought with one input *)
Definition offer_key : list byte := x02 :: x05 :: zeros 31.
Definition offer_coin : Coin :=
  mkCoin (mkOutpoint (zeros 32) 3) 6000 10 false
    (mkAddress x00 (@lock_script_hash toy_crypto offer_key)) (coin_covenant owner_coin).
Definition offer_terms : SwapProof :=
  mkSwapProof (mkBinding 1 (zeros 32)) (mkOutpoint (zeros 32) 3) (bstr "handshake") offer_key new_owner
    5000 1024 None (Some new_owner) 50.
Definition offer_signed : SwapProof :=
  with_signature offer_terms (Some ((x05 :: zeros 63) ++ [z2b HIP1_SELLER_SIGHASH])).
Definition buyer_input : Input := mkInput (mkOutpoint (zeros 32) 9) u32_max (mkWitness []).

Lemma sign_then_verify_witness :
  @SwapProof_sign toy_crypto toy_k256 offer_terms offer_coin x05 = (Ok tt, offer_signed).
Proof.
  assert (exists d, @presigned_digest toy_crypto toy_k256 (with_signature offer_terms None) offer_coin = Ok d)
    as (d & D) by (eexists; vm_compute; reflexivity).
  apply (proj1 (@sign_then_verify toy_crypto toy_k256 toy_k256_laws offer_terms offer_coin x05 d
    (x05 :: zeros 63) eq_refl D eq_refl)).
Defined.

Lemma offer_fulfillable_witness :
  exists lt transfer,
    @SwapProof_fulfillment_transaction toy_crypto toy_k256 offer_signed offer_coin new_owner [buyer_input] [] =
    Ok (around offer_signed transfer [buyer_input] [] lt).
Proof.
  destruct (@offer_fulfillable toy_crypto toy_k256 offer_signed offer_coin new_owner [buyer_input] [])
    as (lt & transfer & _ & _ & F & _); [vm_compute; reflexivity|vm_compute; reflexivity|discriminate|
      vm_compute; reflexivity|].
  by exists lt, transfer.
Defined.


