(* ===== verification/SwapAuction.v ===== *)
(** * Time locks and reverse-Dutch auctions

    Theorems about the schedules of [crates/hns-swap/src/lib.rs]: when a schedule
    exists and what it is, time locks that are never early, and that the auction
    picks the cheapest executable step. *)

From stdpp Require Import sorting.
From S2P Require Import Prelude Encoding Primitives Covenants Transaction Block Script K256 Swap SwapOffer.
Local Open Scope Z_scope.

(** ** Time locks *)
Lemma flag_or units : 0 <= units < 2 ^ 31 -> Z.lor LOCKTIME_FLAG units = 2 ^ 31 + units.
Proof. intros U. unfold LOCKTIME_FLAG. rewrite lor_shiftl_add by lia. lia. Qed.

Lemma flag_mask units : 0 <= units < 2 ^ 31 -> Z.land (Z.lor LOCKTIME_FLAG units) LOCKTIME_MASK = units.
Proof.
  intros U. rewrite flag_or by done. change LOCKTIME_MASK with (Z.ones 31). rewrite Z.land_ones by lia.
  replace (2 ^ 31 + units) with (units + 1 * 2 ^ 31) by lia. rewrite Z_mod_plus_full, Z.mod_small; lia.
Qed.

Lemma encode_time_lock_Ok s lt :
  0 <= s -> encode_time_lock s = Ok lt <-> s < 2 ^ 40 /\ lt = 2 ^ 31 + s / 512.
Proof.
  intros S. unfold encode_time_lock. change MAX_HSD_TIME_LOCK with (2 ^ 40).
  change HSD_LOCKTIME_MULTIPLIER with 512.
  assert (s < 2 ^ 40 -> 0 <= s / 512 < 2 ^ 31) as R.
  { intros L. split; [apply Z.div_pos; lia|]. apply Z.div_lt_upper_bound; lia. }
  destruct (Z.leb_spec (2 ^ 40) s); cbn [negb assert_or mbind result_bind]; [split; [done|lia]|].
  specialize (R ltac:(lia)). rewrite (proj2 (Z.leb_le (s / 512) u32_max)) by ulia.
  cbn [assert_or mbind result_bind]. rewrite flag_or by done.
  split; [by intros [= <-]|by intros (_ & ->)].
Qed.

Lemma not_before_exact s (S : u64 s) :
  (forall tl, encode_time_lock_not_before s = Ok tl ->
     Z.land (tl_encoded tl) LOCKTIME_FLAG = LOCKTIME_FLAG /\
     Z.land (tl_encoded tl) LOCKTIME_MASK * 512 = tl_effective_time_seconds tl /\
     s <= tl_effective_time_seconds tl < s + 512) /\
  (is_ok (encode_time_lock_not_before s) = true <-> 0 < s <= LOCKTIME_MASK * 512).
Proof.
  unfold encode_time_lock_not_before. change MAX_HSD_TIME_LOCK with (2 ^ 40).
  change HSD_LOCKTIME_MULTIPLIER with 512. change LOCKTIME_MASK with (2 ^ 31 - 1).
  destruct (Z.eqb_spec s 0), (Z.leb_spec (2 ^ 40) s); cbn [orb negb assert_or mbind result_bind is_ok];
    try (split; [done|split; [done|ulia]]).
  unfold checked_add. rewrite (proj2 (Z.leb_le _ u64_max)) by ulia. cbn [ok_or mbind result_bind].
  pose proof (Z.div_mod (s + (512 - 1)) 512 ltac:(lia)) as DM.
  pose proof (Z.mod_pos_bound (s + (512 - 1)) 512 ltac:(lia)) as MB.
  set (units := (s + (512 - 1)) / 512) in *. destruct (Z.leb_spec units (2 ^ 31 - 1)); cbn [assert_or mbind result_bind].
  2: { split; [done|]. split; [done|]. ulia. }
  rewrite (proj2 (Z.leb_le units u32_max)) by ulia. cbn [assert_or mbind result_bind].
  unfold checked_mul. rewrite (proj2 (Z.leb_le (units * 512) u64_max)) by ulia. cbn [ok_or mbind result_bind is_ok].
  split; [|split; [ulia|done]]. intros tl [= <-]. cbn [tl_encoded tl_effective_time_seconds].
  change (2 ^ 31 - 1) with LOCKTIME_MASK. rewrite flag_mask by ulia. split; [|split; [done|ulia]].
  apply Z.bits_inj'. intros k _. rewrite Z.land_spec, Z.lor_spec.
  by destruct (Z.testbit LOCKTIME_FLAG k), (Z.testbit units k).
Qed.

(** C39. A lock encoded "not before" is never early and exact to 512 seconds: the
    operation succeeds exactly for positive times up to the last whole unit below
    2^40 seconds, and the lock it returns is in time mode, denotes exactly the
    reported effective time, and that time lies in the 512 seconds from the
    requested one on. *)
Theorem not_before_never_early s (S : u64 s) :
  (forall tl, encode_time_lock_not_before s = Ok tl ->
     Z.land (tl_encoded tl) LOCKTIME_FLAG = LOCKTIME_FLAG /\
     Z.land (tl_encoded tl) LOCKTIME_MASK * 512 = tl_effective_time_seconds tl /\
     s <= tl_effective_time_seconds tl < s + 512) /\
  (is_ok (encode_time_lock_not_before s) = true <-> 0 < s <= LOCKTIME_MASK * 512).
Proof. exact (not_before_exact s S). Qed.

(** ** The schedule *)
(** Step [i] of [steps] between two prices and two times. *)
Definition step_at (start_price end_price start_time end_time steps i : Z) : DutchStep :=
  mkDutchStep (start_price - (start_price - end_price) * i / (steps - 1))
    (start_time + (end_time - start_time) / 512 * i / (steps - 1) * 512).

Lemma dutch_step_Ok sp ep st et n i :
  u64 sp -> 0 < ep <= sp -> u64 et -> 0 <= st < et -> st mod 512 = 0 -> et mod 512 = 0 -> 2 <= n <= 512 ->
  0 <= i < n ->
  dutch_step sp (sp - ep) st (et - st) (n - 1) i = Ok (step_at sp ep st et n i).
Proof.
  intros Sp Ep Et St Ms Me N I. unfold dutch_step, step_at. change HSD_LOCKTIME_MULTIPLIER with 512.
  pose proof (Z.div_mod st 512 ltac:(lia)) as D1. pose proof (Z.div_mod (et - st) 512 ltac:(lia)) as D2.
  assert ((et - st) mod 512 = 0) as Md by (rewrite Zminus_mod, Ms, Me; done).
  set (q := st / 512) in *. set (d := (et - st) / 512) in *.
  assert (0 <= d <= 36028797018963967) as Rd by ulia.
  assert (0 <= d * i / (n - 1) <= d) as Rp.
  { split; [apply Z.div_pos; nia|]. apply Z.div_le_upper_bound; nia. }
  assert (0 <= (sp - ep) * i / (n - 1) <= sp - ep) as Rr.
  { split; [apply Z.div_pos; nia|]. apply Z.div_le_upper_bound; nia. }
  unfold checked_mul. rewrite (proj2 (Z.leb_le (d * i) u64_max)) by (unfold u64_max; nia).
  cbn [ok_or mbind result_bind]. set (pr := d * i / (n - 1)) in *. set (rd := (sp - ep) * i / (n - 1)) in *.
  rewrite (proj2 (Z.leb_le rd u64_max)), (proj2 (Z.leb_le ((q + pr) * 512) u64_max)) by ulia.
  cbn [assert_or ok_or mbind result_bind]. do 2 f_equal. lia.
Qed.

Lemma check_windows_Ok {E A} (f : A -> A -> result E unit) xs u :
  check_windows f xs = Ok u <->
  forall i a b, xs !! i = Some a -> xs !! (i + 1)%nat = Some b -> f a b = Ok tt.
Proof.
  destruct u. induction xs as [|x [|y xs] IH].
  - split; [intros _ i a b H|]; done.
  - split; [|done]. intros _ [|i] a b _ H; done.
  - cbn [check_windows]. rewrite bind_Ok. split.
    + intros ([] & F & W) [|i] a b Ha Hb; [by injection Ha as <-; injection Hb as <-|].
      by apply (proj1 IH W i).
    + intros H. exists tt. split; [by apply (H 0%nat)|]. apply IH. intros i a b Ha Hb. by apply (H (S i)).
Qed.

Lemma check_step_Ok p p' t t' :
  0 <= t -> 0 <= t' ->
  check_step p p' t t' = Ok tt <-> p' <= p /\ t < 2 ^ 40 /\ t' < 2 ^ 40 /\ t / 512 < t' / 512.
Proof.
  intros T T'. unfold check_step. split.
  - intros H. apply bind_Ok in H as (u & H1 & H). apply bind_Ok in H as (l & H2 & H). apply bind_Ok in H as (l' & H3 & H).
    apply assert_or_Ok, negb_true_iff in H1, H. apply Z.ltb_ge in H1. apply Z.leb_gt in H.
    apply encode_time_lock_Ok in H2 as (? & ->), H3 as (? & ->); [|done..]. lia.
  - intros (P & L & L' & D). rewrite (proj2 (Z.ltb_ge _ _) P). cbn [negb assert_or mbind result_bind].
    rewrite (proj2 (encode_time_lock_Ok t (2 ^ 31 + t / 512) T)) by done. cbn [mbind result_bind].
    rewrite (proj2 (encode_time_lock_Ok t' (2 ^ 31 + t' / 512) T')) by done. cbn [mbind result_bind].
    by rewrite (proj2 (Z.leb_gt _ _)) by lia.
Qed.

Record schedule_args (sp ep st et n : Z) : Prop := {
  sa_steps : 2 <= n <= 512;
  sa_price : 0 < ep <= sp;
  sa_times : 0 <= st < et;
  sa_aligned : st mod 512 = 0 /\ et mod 512 = 0;
  sa_room : n - 1 <= (et - st) / 512;
}.

(** Consecutive steps: the price does not rise, the lock advances by whole units. *)
Lemma step_at_order sp ep st et n i :
  schedule_args sp ep st et n -> 0 <= i ->
  ds_price (step_at sp ep st et n (i + 1)) <= ds_price (step_at sp ep st et n i) /\
  ds_lock_time_seconds (step_at sp ep st et n i) + 512 <= ds_lock_time_seconds (step_at sp ep st et n (i + 1)).
Proof.
  intros [N P T _ R] I. cbn [step_at ds_price ds_lock_time_seconds]. split.
  - assert ((sp - ep) * i / (n - 1) <= (sp - ep) * (i + 1) / (n - 1)) by (apply Z.div_le_mono; nia). lia.
  - set (d := (et - st) / 512) in *.
    assert (d * i / (n - 1) + 1 <= d * (i + 1) / (n - 1)); [|lia].
    rewrite <- Z.div_add by lia. apply Z.div_le_mono; nia.
Qed.

Lemma step_at_ends sp ep st et n :
  schedule_args sp ep st et n ->
  step_at sp ep st et n 0 = mkDutchStep sp st /\ step_at sp ep st et n (n - 1) = mkDutchStep ep et.
Proof.
  intros [N P T (A & B) R]. unfold step_at. rewrite !Z.mul_0_r, !Z.div_0_l, !Z.div_mul by lia. split; f_equal; try lia.
  assert ((et - st) mod 512 = 0) as M by (rewrite Zminus_mod, A, B; done).
  pose proof (Z.div_mod (et - st) 512 ltac:(lia)). lia.
Qed.

Definition schedule (sp ep st et n : Z) : list DutchStep :=
  (fun i => step_at sp ep st et n (Z.of_nat i)) <$> seq 0 (Z.to_nat n).

Lemma schedule_lookup sp ep st et n i :
  (i < Z.to_nat n)%nat -> schedule sp ep st et n !! i = Some (step_at sp ep st et n (Z.of_nat i)).
Proof. intros I. unfold schedule. rewrite list_lookup_fmap, lookup_seq_lt by done. done. Qed.

Lemma schedule_lookup_inv sp ep st et n i x :
  schedule sp ep st et n !! i = Some x -> (i < Z.to_nat n)%nat /\ x = step_at sp ep st et n (Z.of_nat i).
Proof.
  unfold schedule. rewrite list_lookup_fmap_Some. intros (j & -> & J). apply lookup_seq in J as (-> & J). done.
Qed.

Lemma schedule_ends sp ep st et n :
  schedule_args sp ep st et n ->
  head (schedule sp ep st et n) = Some (mkDutchStep sp st) /\ last (schedule sp ep st et n) = Some (mkDutchStep ep et).
Proof.
  intros A. destruct (step_at_ends _ _ _ _ _ A) as (E0 & E1). destruct A as [N _ _ _ _]. split.
  - rewrite head_lookup, schedule_lookup by lia. by rewrite <- E0.
  - assert (length (schedule sp ep st et n) = Z.to_nat n) as L by (unfold schedule; by rewrite length_fmap, length_seq).
    rewrite last_lookup, L, schedule_lookup by lia.
    rewrite <- E1. do 2 f_equal. lia.
Qed.

Lemma schedule_increasing sp ep st et n i :
  schedule_args sp ep st et n -> 0 <= i <= n - 1 ->
  st <= ds_lock_time_seconds (step_at sp ep st et n i) <= et.
Proof.
  intros A I. destruct (step_at_ends _ _ _ _ _ A) as (_ & E). apply (f_equal ds_lock_time_seconds) in E.
  destruct A as [N P T _ R]. cbn [step_at ds_lock_time_seconds] in *. set (d := (et - st) / 512) in *.
  assert (0 <= d * i / (n - 1)) by (apply Z.div_pos; nia).
  assert (d * i / (n - 1) <= d * (n - 1) / (n - 1)) by (apply Z.div_le_mono; nia). lia.
Qed.

Lemma schedule_checks sp ep st et n :
  schedule_args sp ep st et n ->
  check_windows (fun a b => check_step (ds_price a) (ds_price b) (ds_lock_time_seconds a)
    (ds_lock_time_seconds b)) (schedule sp ep st et n) = Ok tt <-> et < 2 ^ 40.
Proof.
  intros A. pose proof (sa_times _ _ _ _ _ A) as T. pose proof (sa_steps _ _ _ _ _ A) as N.
  rewrite check_windows_Ok. split.
  - intros H. specialize (H (Z.to_nat (n - 2)) _ _ (schedule_lookup sp ep st et n (Z.to_nat (n - 2)) ltac:(lia))
      (schedule_lookup sp ep st et n (Z.to_nat (n - 2) + 1) ltac:(lia))).
    replace (Z.of_nat (Z.to_nat (n - 2) + 1)) with (n - 1) in H by lia.
    rewrite (proj2 (step_at_ends _ _ _ _ _ A)) in H. apply check_step_Ok in H as (_ & _ & H & _); [done| |cbn; lia].
    pose proof (schedule_increasing _ _ _ _ _ (Z.of_nat (Z.to_nat (n - 2))) A ltac:(lia)). lia.
  - intros L i a b Ha Hb. apply schedule_lookup_inv in Ha as (I & ->), Hb as (I' & ->).
    pose proof (schedule_increasing _ _ _ _ _ (Z.of_nat i) A ltac:(lia)).
    pose proof (schedule_increasing _ _ _ _ _ (Z.of_nat (i + 1)) A ltac:(lia)).
    replace (Z.of_nat (i + 1)) with (Z.of_nat i + 1) in * by lia.
    destruct (step_at_order _ _ _ _ _ (Z.of_nat i) A ltac:(lia)) as (P & O).
    apply check_step_Ok; [lia..|]. split; [done|]. split; [lia|]. split; [lia|].
    apply Z.le_succ_l. unfold Z.succ.
    rewrite <- Z.div_add by lia. apply Z.div_le_mono; lia.
Qed.

(** The reverse-Dutch schedule exists exactly when it can and is the linear
    one: for 64-bit prices and times, construction succeeds exactly for 2 to 512
    steps, a positive end price at most the start price, times on whole 512-second
    units below 2^40 with at least one unit per interval; it then returns the
    interpolation, which starts and ends at the given terms, never raises the price
    and advances the lock by at least one unit at each step. *)
Theorem dutch_schedule_iff sp ep st et n sched
    (Rp : u64 sp /\ u64 ep) (Rt : u64 st /\ u64 et) (Rn : 0 <= n) :
  (canonical_reverse_dutch_schedule sp ep st et n = Ok sched <->
   schedule_args sp ep st et n /\ et < 2 ^ 40 /\ sched = schedule sp ep st et n) /\
  (schedule_args sp ep st et n ->
   head (schedule sp ep st et n) = Some (mkDutchStep sp st) /\
   last (schedule sp ep st et n) = Some (mkDutchStep ep et) /\
   forall i a b, schedule sp ep st et n !! i = Some a -> schedule sp ep st et n !! (i + 1)%nat = Some b ->
     ds_price b <= ds_price a /\ ds_lock_time_seconds a + 512 <= ds_lock_time_seconds b).
Proof.
  split.
  2: { intros A. destruct (schedule_ends _ _ _ _ _ A). split; [done|]. split; [done|]. intros i a b Ha Hb.
       apply schedule_lookup_inv in Ha as (I & ->), Hb as (I' & ->).
       replace (Z.of_nat (i + 1)) with (Z.of_nat i + 1) by lia. apply step_at_order; [done|lia]. }
  unfold canonical_reverse_dutch_schedule. change HSD_LOCKTIME_MULTIPLIER with 512. change MAX_AUCTION_STEPS with 512.
  assert (schedule_args sp ep st et n -> try_map (fun index =>
      dutch_step sp (sp - ep) st (et - st) (n - 1) (Z.of_nat index)) (seq 0 (Z.to_nat n)) =
      Ok (schedule sp ep st et n)) as B.
  { intros [N P T (A1 & A2) R]. apply try_map_Ok, Forall_forall. intros i I. apply elem_of_seq in I.
    apply dutch_step_Ok; try done; try lia; apply Rp || apply Rt. }
  split.
  - intros H. apply bind_Ok in H as (u1 & H1 & H). apply bind_Ok in H as (u2 & H2 & H).
    apply bind_Ok in H as (u3 & H3 & H). apply bind_Ok in H as (u4 & H4 & H).
    apply assert_or_Ok in H1, H2, H3, H4. apply negb_true_iff in H2, H3, H4. apply andb_true_iff in H1.
    rewrite !orb_false_iff, !negb_false_iff in *. rewrite Z.leb_le in H1. rewrite Z.ltb_ge in H2, H4.
    rewrite !Z.eqb_eq, Z.leb_gt in H3. rewrite Z.eqb_neq in H2. rewrite Z.leb_le in H1.
    assert (schedule_args sp ep st et n) as A by (split; ulia). rewrite (B A) in H. cbn [mbind result_bind] in H.
    apply bind_Ok in H as (u5 & _ & H). apply bind_Ok in H as ([] & W & [= <-]).
    apply schedule_checks in W; [|done]. done.
  - intros (A & L & ->). rewrite (B A). destruct (schedule_ends _ _ _ _ _ A) as (E0 & E1).
    pose proof A as [N P T (A1 & A2) R].
    rewrite (proj2 (Z.leb_le 2 n)), (proj2 (Z.leb_le n 512)), (proj2 (Z.ltb_ge sp ep)), (proj2 (Z.eqb_neq ep 0)),
      (proj2 (Z.leb_gt et st)), A1, A2, (proj2 (Z.ltb_ge _ (n - 1))) by lia.
    cbn [andb orb negb Z.eqb assert_or mbind result_bind]. rewrite E0, E1. cbn [fmap option_fmap option_map ds_price ds_lock_time_seconds].
    rewrite !bool_decide_eqb_refl. cbn [orb negb assert_or mbind result_bind].
    by rewrite (proj2 (schedule_checks _ _ _ _ _ A) L).
Qed.

Lemma dutch_schedule_iff_witness :
  canonical_reverse_dutch_schedule 1000 400 1024 5120 4 =
    Ok [mkDutchStep 1000 1024; mkDutchStep 800 2048; mkDutchStep 600 3584; mkDutchStep 400 5120].
Proof.
  apply (proj1 (dutch_schedule_iff 1000 400 1024 5120 4 _ ltac:(unfold u64, u64_max; lia)
    ltac:(unfold u64, u64_max; lia) ltac:(lia))).
  split; [split; [lia|lia|lia|split; reflexivity|vm_compute; discriminate]|]. split; [lia|reflexivity].
Defined.

Lemma not_before_never_early_witness : is_ok (encode_time_lock_not_before 1000) = true.
Proof. apply (proj2 (not_before_never_early 1000 ltac:(unfold u64, u64_max; lia))). split; [reflexivity|vm_compute; discriminate]. Defined.

(** ** Auctions *)
Section auctions.
Context {CR : Crypto} {KC : K256}.

Lemma executable_Ok p t b :
  0 <= sp_lock_time_seconds p < 2 ^ 40 ->
  SwapProof_is_executable p t = Ok b <-> b = (sp_lock_time_seconds p / 512 * 512 <? t).
Proof.
  intros L. unfold SwapProof_is_executable. change HSD_LOCKTIME_MULTIPLIER with 512.
  rewrite (proj2 (encode_time_lock_Ok _ (2 ^ 31 + sp_lock_time_seconds p / 512) (proj1 L))) by (split; [lia|done]).
  assert (0 <= sp_lock_time_seconds p / 512 < 2 ^ 31) as R.
  { split; [apply Z.div_pos; lia|]. apply Z.div_lt_upper_bound; lia. }
  cbn [mbind result_bind]. rewrite <- flag_or, flag_mask by done. unfold checked_mul.
  rewrite (proj2 (Z.leb_le _ u64_max)) by ulia. cbn [ok_or mbind result_bind].
  split; [by intros [= <-]|by intros ->].
Qed.

(** Steps that fall in price and rise in time. *)
Definition cheaper_later (p q : SwapProof) : Prop :=
  sp_price q <= sp_price p /\ sp_lock_time_seconds p / 512 < sp_lock_time_seconds q / 512.

Lemma auction_sorted a proofs :
  Forall (fun p => 0 <= sp_lock_time_seconds p) proofs ->
  DutchAuction_new proofs = Ok a ->
  da_proofs a = proofs /\ StronglySorted cheaper_later proofs /\
  Forall (fun p => sp_lock_time_seconds p < 2 ^ 40) proofs.
Proof.
  intros T H. unfold DutchAuction_new in H. destruct proofs as [|first rest] eqn:Ep; [done|]. rewrite <- Ep in *.
  apply bind_Ok in H as (u1 & _ & H). apply bind_Ok in H as (u2 & _ & H). apply bind_Ok in H as (n & F & H).
  apply bind_Ok in H as (u3 & W & [= <-]). split; [done|].
  assert (Forall (fun p => sp_lock_time_seconds p < 2 ^ 40) proofs) as B.
  { clear Ep W. revert F. generalize 0. induction proofs as [|p ps IH]; intros z F; [constructor|].
    cbn [try_fold] in F. apply bind_Ok in F as (z' & Fp & F). apply Forall_cons in T as (Tp & T).
    apply Forall_cons. split; [|by apply (IH T z')]. unfold add_to_bundle in Fp.
    apply bind_Ok in Fp as (u & V & _). unfold SwapProof_validate in V. do 4 apply bind_Ok in V as (? & _ & V).
    apply bind_Ok in V as (lt & E & _). apply encode_time_lock_Ok in E as (E & _); done. }
  split; [|done]. apply Sorted_StronglySorted.
  { intros x y z (P1 & T1) (P2 & T2). unfold cheaper_later. lia. }
  clear Ep F. induction proofs as [|p [|q ps] IH]; [constructor|by repeat constructor|].
  cbn [check_windows] in W. apply bind_Ok in W as (u & C & W).
  apply Forall_cons in T as (Tp & T). apply Forall_cons in B as (Bp & B).
  constructor; [by apply IH|]. constructor. destruct u. unfold check_auction_step in C.
  apply check_step_Ok in C as (? & _ & _ & ?); [done|done|]. by apply Forall_cons in T as (? & _).
Qed.

(** An auction offers the best step the chain allows: in every accepted auction
    and at every median time, the search returns a step that is executable and
    costs no more than any other executable step, and returns none exactly when no
    step is executable. *)
Theorem best_executable_cheapest proofs a t
    (T : Forall (fun p => 0 <= sp_lock_time_seconds p) proofs) (A : DutchAuction_new proofs = Ok a) :
  exists best, DutchAuction_best_executable a t = Ok best /\
    match best with
    | Some p => p ∈ proofs /\ SwapProof_is_executable p t = Ok true /\
        forall q, q ∈ proofs -> SwapProof_is_executable q t = Ok true -> sp_price p <= sp_price q
    | None => forall q, q ∈ proofs -> SwapProof_is_executable q t = Ok false
    end.
Proof.
  destruct (auction_sorted a proofs T A) as (E & S & B). unfold DutchAuction_best_executable. rewrite E. clear A E a.
  assert (forall p, p ∈ proofs -> exists b, SwapProof_is_executable p t = Ok b) as X.
  { intros p I. rewrite Forall_forall in T, B. eexists. apply executable_Ok; [|done]. split; [by apply T|by apply B]. }
  clear T B. induction proofs as [|p ps IH] using rev_ind.
  { exists None. split; [done|]. intros q I. by apply not_elem_of_nil in I. }
  rewrite rev_unit. cbn [first_executable]. assert (p ∈ ps ++ [p]) as Ip by set_solver.
  destruct (X p Ip) as (b & Eb). rewrite Eb. cbn [mbind result_bind]. destruct b.
  - exists (Some p). split; [done|]. split; [done|]. split; [done|]. intros q I _.
    apply elem_of_app in I as [I| ->%list_elem_of_singleton]; [|done].
    eapply (StronglySorted_app_1_elem_of _ _ _ q p) in S as (P & _); [done|done|set_solver].
  - destruct IH as (best & F & M); [by eapply StronglySorted_app_1_l|intros q I; apply X; set_solver|].
    exists best. split; [done|]. destruct best as [r|].
    + destruct M as (Ir & Er & M). split; [set_solver|]. split; [done|]. intros q I Eq.
      apply elem_of_app in I as [I| ->%list_elem_of_singleton]; [by apply M|congruence].
    + intros q I. apply elem_of_app in I as [I| ->%list_elem_of_singleton]; [by apply M|done].
Qed.
End auctions.

(** Two steps of one listing: 5000 from 1024 seconds on, 3000 from 2048 on. *)
Definition later_offer : SwapProof :=
  mkSwapProof (sp_network offer_signed) (sp_locking_outpoint offer_signed) (sp_name offer_signed)
    (sp_seller_public_key offer_signed) (sp_payment_address offer_signed) 3000 2048
    (sp_signature offer_signed) (sp_fee_address offer_signed) (sp_fee offer_signed).

Lemma best_executable_cheapest_witness :
  exists best, @DutchAuction_best_executable (mkDutchAuction [offer_signed; later_offer]) 2049 = Ok best /\
    match best with
    | Some p => p ∈ [offer_signed; later_offer] /\ SwapProof_is_executable p 2049 = Ok true /\
        forall q, q ∈ [offer_signed; later_offer] -> SwapProof_is_executable q 2049 = Ok true ->
        sp_price p <= sp_price q
    | None => forall q, q ∈ [offer_signed; later_offer] -> SwapProof_is_executable q 2049 = Ok false
    end.
Proof.
  apply (@best_executable_cheapest toy_k256).
  - repeat (apply Forall_cons; split; [vm_compute; discriminate|]). by apply Forall_nil.
  - vm_compute. reflexivity.
Defined.
