(* ===== verification/SwapCodec.v ===== *)
(** * The wire form of swap proofs

    The codec of [crates/hns-swap/src/lib.rs]: the encoder and the decoder of a
    swap proof are inverse on well-typed, valid proofs. *)

From S2P Require Import Prelude Encoding Primitives Covenants Transaction K256 Swap.
Local Open Scope Z_scope.

(** ** Addresses *)
Definition swap_address_bytes (a : Address) : list byte :=
  addr_version a :: z2b (len (addr_hash a)) :: addr_hash a.

Lemma bytes_put_swap_address a e : bytes (put_swap_address a e) = bytes e ++ swap_address_bytes a.
Proof. unfold put_swap_address, swap_address_bytes. autorewrite with enc. by rewrite <- !app_assoc. Qed.

Lemma swap_address_inv d a d' :
  dec_wf d -> decode_swap_address d = (Ok a, d') -> took d (swap_address_bytes a) d' /\ addr_ok a.
Proof.
  intros W H. unfold decode_swap_address in H. apply dec_bind_Ok in H as (v & d1 & H1 & H).
  apply dec_bind_Ok in H as (l & d2 & H2 & H). apply dec_bind_Ok in H as (h & d3 & H3 & H).
  apply lift_err_Ok in H1, H2, H3. apply lift_res_Ok in H as (H & ->). apply map_err_Ok in H.
  apply (read_u8_inv _ _ _ W) in H1. pose proof (took_wf _ _ _ H1) as W1. apply (read_u8_inv _ _ _ W1) in H2.
  pose proof (took_wf _ _ _ H2) as W2. pose proof (b2z_range l).
  apply read_bounded_vec_inv in H3 as (T3 & L & _); [|lia|done]. unfold Address_new in H.
  apply bind_Ok in H as ([] & V & [= <-]). apply Address_validate_Ok in V. split; [|done].
  unfold swap_address_bytes. cbn [addr_version addr_hash]. rewrite L, z2b_b2z.
  change (v :: l :: h) with ([v] ++ [l] ++ h). took_chain.
Qed.

Lemma swap_address_reads d a : addr_ok a -> reads d decode_swap_address (swap_address_bytes a) a.
Proof.
  intros A. pose proof A as (_ & L & _). unfold decode_swap_address, swap_address_bytes.
  change (?x :: ?y :: ?z) with ([x] ++ [y] ++ z). do 2 reads_step. rewrite z2b_small by lia.
  eapply reads_last; [apply reads_err, read_bounded_vec_reads; lia|]. apply reads_res. unfold Address_new.
  destruct a as [v h]. cbn [addr_version addr_hash] in *. by rewrite (proj2 (Address_validate_Ok _) A).
Qed.

(** ** Optional fields *)
Definition optional_bytes {A} (enc : A -> list byte) (v : option A) : list byte :=
  match v with Some a => x01 :: enc a | None => [x00] end.

Lemma read_presence_inv {A} field (read : decM SwapError A) enc (P : A -> Prop) d v d' :
  (forall d a d', dec_wf d -> read d = (Ok a, d') -> took d (enc a) d' /\ P a) ->
  dec_wf d -> read_optional field read d = (Ok v, d') ->
  took d (optional_bytes enc v) d' /\ match v with Some a => P a | None => True end.
Proof.
  intros R W H. unfold read_optional in H. apply dec_bind_Ok in H as (f & d1 & H1 & H). apply lift_err_Ok in H1.
  apply (read_u8_inv _ _ _ W) in H1. pose proof (took_wf _ _ _ H1) as W1.
  destruct (Z.eqb_spec (b2z f) 0) as [E|_].
  { apply dec_ret_Ok in H as (<- & ->). split; [|done]. cbn. change x00 with (z2b 0). by rewrite <- E, z2b_b2z. }
  destruct (Z.eqb_spec (b2z f) 1) as [E|_]; [|by apply lift_res_Ok in H as (? & _)].
  apply dec_bind_Ok in H as (a & d2 & H2 & H). apply dec_ret_Ok in H as (<- & ->). apply R in H2 as (T & Pa); [|done].
  split; [|done]. cbn. change (x01 :: enc a) with ([x01] ++ enc a). change x01 with (z2b 1). rewrite <- E, z2b_b2z. took_chain.
Qed.

Lemma read_presence_reads {A} field (read : decM SwapError A) enc (P : A -> Prop) d v :
  (forall d a, P a -> reads d read (enc a) a) -> match v with Some a => P a | None => True end ->
  reads d (read_optional field read) (optional_bytes enc v) v.
Proof.
  intros R Pv. unfold read_optional, optional_bytes. destruct v as [a|].
  - change (x01 :: enc a) with ([x01] ++ enc a). reads_step. change (b2z x01) with 1. cbn [Z.eqb Pos.eqb].
    eapply reads_last; [by apply R|apply reads_ret].
  - eapply reads_last; [apply reads_err, read_u8_reads|]. change (b2z x00) with 0. apply reads_ret.
Qed.

(** ** Swap proofs *)
Record SwapProof_wf (p : SwapProof) : Prop := {
  pw_magic : u32 (nb_magic (sp_network p));
  pw_genesis : len (nb_genesis (sp_network p)) = 32;
  pw_outpoint : Outpoint_wf (sp_locking_outpoint p);
  pw_key : len (sp_seller_public_key p) = 33;
  pw_price : u64 (sp_price p);
  pw_time : u64 (sp_lock_time_seconds p);
  pw_signature : match sp_signature p with Some s => len s = 65 | None => True end;
  pw_fee : u64 (sp_fee p);
}.

Definition proof_bytes (p : SwapProof) : list byte :=
  to_le_bytes 2 SHAKEDEX_PROTOCOL_VERSION ++ to_le_bytes 4 (nb_magic (sp_network p)) ++
  nb_genesis (sp_network p) ++ transaction_hash (sp_locking_outpoint p) ++
  to_le_bytes 4 (index (sp_locking_outpoint p)) ++ var_bytes (sp_name p) ++ sp_seller_public_key p ++
  swap_address_bytes (sp_payment_address p) ++ to_le_bytes 8 (sp_price p) ++
  to_le_bytes 8 (sp_lock_time_seconds p) ++ optional_bytes id (sp_signature p) ++
  to_le_bytes 8 (sp_fee p) ++ optional_bytes swap_address_bytes (sp_fee_address p).

Section codec.
Context {KC : K256}.

Lemma SwapProof_encode_Ok p bs :
  SwapProof_encode p = Ok bs <->
  SwapProof_validate p = Ok tt /\ bs = proof_bytes p /\ len bs <= MAX_SWAP_PROOF_SIZE.
Proof.
  unfold SwapProof_encode. rewrite bind_Ok. cbv zeta. setoid_rewrite bind_Ok. setoid_rewrite assert_or_Ok.
  setoid_rewrite Z.leb_le. unfold into_bytes.
  match goal with |- context [len (bytes ?e)] => assert (bytes e = proof_bytes p) as -> end.
  { unfold proof_bytes, optional_bytes. destruct (sp_fee_address p), (sp_signature p);
      rewrite ?bytes_put_swap_address; autorewrite with enc; rewrite ?bytes_put_swap_address;
      autorewrite with enc; unfold Outpoint_encode; rewrite <- !app_assoc; done. }
  split.
  - by intros ([] & V & [] & L & [= <-]).
  - intros (V & -> & L). exists tt. split; [done|]. by exists tt.
Qed.

Lemma SwapProof_read_inv d p d' :
  dec_wf d -> SwapProof_read d = (Ok p, d') -> took d (proof_bytes p) d' /\ SwapProof_wf p.
Proof.
  intros W H. unfold SwapProof_read in H.
  apply dec_bind_Ok in H as (v & d0 & H0 & H). apply dec_bind_Ok in H as (u & d0' & Hv & H).
  apply dec_bind_Ok in H as (magic & d1 & H1 & H). apply dec_bind_Ok in H as (genesis & d2 & H2 & H).
  apply dec_bind_Ok in H as (th & d3 & H3 & H). apply dec_bind_Ok in H as (ti & d4 & H4 & H).
  apply dec_bind_Ok in H as (name & d5 & H5 & H). apply dec_bind_Ok in H as (key & d6 & H6 & H).
  apply dec_bind_Ok in H as (pay & d7 & H7 & H). apply dec_bind_Ok in H as (price & d8 & H8 & H).
  apply dec_bind_Ok in H as (time & d9 & H9 & H). apply dec_bind_Ok in H as (sig & d10 & H10 & H).
  apply dec_bind_Ok in H as (fee & d11 & H11 & H). apply dec_bind_Ok in H as (fa & d12 & H12 & H).
  apply dec_ret_Ok in H as (<- & ->). apply lift_res_Ok in Hv as (Hv & ->).
  apply assert_or_Ok, Z.eqb_eq in Hv. subst v.
  apply lift_err_Ok in H0, H1, H2, H3, H4, H5, H6, H8, H9, H11. took_all.
  apply swap_address_inv in H7 as (H7 & _); [|done]. took_all.
  apply (read_presence_inv _ _ id (fun s => len s = 65)) in H10 as (H10 & S10); [|intros x a x' Wx Hx|done].
  2: { apply lift_err_Ok in Hx. by apply read_array_inv in Hx. }
  took_all. apply (read_presence_inv _ _ swap_address_bytes addr_ok) in H12 as (H12 & _);
    [|intros x a x' Wx Hx; by apply swap_address_inv|done]. took_all.
  split; [|split; cbn; try done; split; cbn; [unfold len in *; lia|done]]. unfold proof_bytes.
  cbn [sp_network nb_magic nb_genesis sp_locking_outpoint transaction_hash index sp_name sp_seller_public_key
    sp_payment_address sp_price sp_lock_time_seconds sp_signature sp_fee sp_fee_address]. took_chain.
Qed.

Lemma SwapProof_reads d p :
  SwapProof_wf p -> SwapProof_validate p = Ok tt -> reads d SwapProof_read (proof_bytes p) p.
Proof.
  intros [M G (Oh & Oi) K P T S F] V. unfold SwapProof_read, proof_bytes.
  unfold SwapProof_validate in V. apply bind_Ok in V as (u1 & Vn & V). apply assert_or_Ok, validate_name_spec in Vn as (Ln & _).
  apply bind_Ok in V as (u2 & _ & V). apply bind_Ok in V as ([] & Va & V). apply map_err_Ok, Address_validate_Ok in Va.
  apply bind_Ok in V as (u4 & _ & V). apply bind_Ok in V as (u5 & _ & V). apply bind_Ok in V as (u6 & Vf & V).
  assert (match sp_fee_address p with Some a => addr_ok a | None => True end) as Fa.
  { destruct (sp_fee_address p) as [a|]; [|done]. destruct (0 <? sp_fee p); [|done].
    destruct u6. by apply map_err_Ok, Address_validate_Ok in Vf. }
  unfold MAX_NAME_SIZE in Ln.
  eapply reads_bind; [by apply reads_err, read_u16_reads|]. eapply reads_nil_bind; [by apply reads_assert|].
  eapply reads_bind; [by apply reads_err, read_u32_reads|]. eapply reads_bind; [by apply reads_err, read_array_reads|].
  eapply reads_bind; [apply reads_err, read_array_reads; unfold len; lia|].
  eapply reads_bind; [by apply reads_err, read_u32_reads|].
  eapply reads_bind; [apply reads_err, read_varbytes_reads; unfold usize_max, u64_max; lia|].
  eapply reads_bind; [by apply reads_err, read_array_reads|].
  eapply reads_bind; [by apply swap_address_reads|].
  do 2 (eapply reads_bind; [by apply reads_err, read_u64_reads|]).
  eapply reads_bind; [apply (read_presence_reads _ _ _ (fun s => len s = 65)); [intros x a L; by apply reads_err, read_array_reads|done]|].
  eapply reads_bind; [by apply reads_err, read_u64_reads|].
  eapply reads_last; [apply (read_presence_reads _ _ _ addr_ok); [intros x a A; by apply swap_address_reads|done]|].
  destruct p as [[]  [] ? ? ? ? ? ? ? ?]. apply reads_ret.
Qed.

Lemma SwapProof_decode_Ok input p :
  SwapProof_decode input = Ok p <-> SwapProof_wf p /\ SwapProof_encode p = Ok input.
Proof.
  rewrite SwapProof_encode_Ok. unfold SwapProof_decode. split.
  - intros H. apply bind_Ok in H as (u & L & H). apply assert_or_Ok, Z.leb_le in L.
    apply bind_Ok in H as (q & R & H). apply bind_Ok in H as ([] & V & [= <-]).
    apply run_all_Ok in R as (d & R & F). apply SwapProof_read_inv in R as (T & W); [|apply wf_new; unfold MAX_SWAP_PROOF_SIZE in L; unfold isize_max; lia].
    apply took_finish in T; [|done]. done.
  - intros (W & V & -> & L). rewrite (proj2 (Z.leb_le _ _) L). cbn [assert_or mbind result_bind].
    rewrite (run_all_reads SwDecode SwapProof_read (proof_bytes p) p).
    + cbn [mbind result_bind]. by rewrite V.
    + unfold MAX_SWAP_PROOF_SIZE in L. unfold isize_max. lia.
    + by apply SwapProof_reads.
Qed.

(** Swap proofs have one spelling: decoding accepts an input exactly when it is
    the encoding of the well-typed, valid proof it returns. *)
Theorem swap_proof_codec input p :
  SwapProof_decode input = Ok p <-> SwapProof_wf p /\ SwapProof_encode p = Ok input.
Proof. apply SwapProof_decode_Ok. Qed.
End codec.
