(* ===== verification/Htlc.v ===== *)
(** * hns-swap: native hash time-locked contracts

    Models [crates/hns-swap/src/htlc.rs]: the descriptor and its codec, the lock
    script, funding checks, the two witnesses and the verification of a spend.
    The preimage type is its bytes; its redacted [Debug] and zeroing [Drop] have no
    observable value here. *)

From S2P Require Import Prelude Encoding Primitives Covenants NameTransition Transaction Script Interpreter ScriptSteps K256 Swap SwapScript.
Local Open Scope Z_scope.

Definition HNS_HTLC_VERSION : Z := 1.
Definition HNS_HTLC_PREIMAGE_SIZE : Z := 32.
Definition HNS_HTLC_HASHLOCK_SIZE : Z := 32.
Definition MAX_HNS_HTLC_DESCRIPTOR_SIZE : Z := 256.
Definition HNS_HTLC_SIGHASH : Z := SIGHASH_ALL.
Definition HNS_HTLC_DESCRIPTOR_HASH_DOMAIN : list byte := bstr "hns-rs/hns-swap/hns-htlc/v1/descriptor".

Record HnsHtlc := mkHtlc {
  ht_network : NetworkBinding;
  ht_value : Z;
  ht_hashlock : list byte;
  ht_receiver_public_key : list byte;
  ht_refund_public_key : list byte;
  ht_refund_locktime : Z;
}.

Inductive HnsHtlcSpend := Redeem (preimage : list byte) | Refund.

Definition preimage_for_settlement (spend : HnsHtlcSpend) : option (list byte) :=
  match spend with Redeem preimage => Some preimage | Refund => None end.

(** ** The script *)
Definition htlc_encode_script_number (value : Z) : list byte :=
  if value =? 0 then []
  else
    let bytes := magnitude_bytes 8 value in
    match last bytes with
    | Some top => if negb (Z.land (b2z top) 0x80 =? 0) then bytes ++ [x00] else bytes
    | None => bytes
    end.

Definition push_minimal_data (script data : list byte) : list byte :=
  match data with
  | [b] => if (1 <=? b2z b) && (b2z b <=? 16) then script ++ [z2b (OP_1 + b2z b - 1)]
           else script ++ [z2b 1] ++ data
  | _ => script ++ [z2b (len data)] ++ data
  end.

Section htlc.
Context {CR : Crypto} {DG : ScriptDigests} {KC : K256}.

Definition HnsHtlc_validate (h : HnsHtlc) : result SwapError unit :=
  assert_or (negb (ht_value h =? 0)) ZeroHtlcValue ;;
  assert_or (negb (bool_decide (ht_hashlock h = zeros 32))) ZeroHtlcHashlock ;;
  assert_or (sec1_key_ok (ht_receiver_public_key h)) InvalidPublicKey ;;
  assert_or (sec1_key_ok (ht_refund_public_key h)) InvalidPublicKey ;;
  assert_or (negb (bool_decide (ht_receiver_public_key h = ht_refund_public_key h))) HtlcKeyReuse ;;
  assert_or (negb (Z.land (ht_refund_locktime h) LOCKTIME_MASK =? 0)) ZeroHtlcRefundLocktime.

Definition HnsHtlc_verify_for_network (h : HnsHtlc) (expected_network : NetworkBinding)
  : result SwapError unit :=
  assert_or (bool_decide (ht_network h = expected_network)) NetworkMismatch ;;
  HnsHtlc_validate h.

Definition HnsHtlc_encode (h : HnsHtlc) : result SwapError (list byte) :=
  HnsHtlc_validate h ;;
  let encoder := put_u16_le (with_capacity 148) HNS_HTLC_VERSION in
  let encoder := put_u32_le encoder (nb_magic (ht_network h)) in
  let encoder := put_bytes encoder (nb_genesis (ht_network h)) in
  let encoder := put_u64_le encoder (ht_value h) in
  let encoder := put_bytes encoder (ht_hashlock h) in
  let encoder := put_bytes encoder (ht_receiver_public_key h) in
  let encoder := put_bytes encoder (ht_refund_public_key h) in
  let encoder := put_u32_le encoder (ht_refund_locktime h) in
  let encoded := into_bytes encoder in
  assert_or (len encoded <=? MAX_HNS_HTLC_DESCRIPTOR_SIZE) (HtlcTooLarge (len encoded)) ;;
  Ok encoded.

Definition HnsHtlc_read : decM SwapError HnsHtlc :=
  version ← lift_err SwDecode read_u16_le;
  lift_res (assert_or (version =? HNS_HTLC_VERSION) (UnsupportedHtlcVersion version)) ;;
  magic ← lift_err SwDecode read_u32_le;
  genesis ← lift_err SwDecode (read_array 32);
  value ← lift_err SwDecode read_u64_le;
  hashlock ← lift_err SwDecode (read_array 32);
  receiver_public_key ← lift_err SwDecode (read_array 33);
  refund_public_key ← lift_err SwDecode (read_array 33);
  refund_locktime ← lift_err SwDecode read_u32_le;
  mret (mkHtlc (mkBinding magic genesis) value hashlock receiver_public_key refund_public_key
    refund_locktime).

Definition HnsHtlc_decode (input : list byte) : result SwapError HnsHtlc :=
  assert_or (len input <=? MAX_HNS_HTLC_DESCRIPTOR_SIZE) (HtlcTooLarge (len input)) ;;
  htlc ← run_all SwDecode HnsHtlc_read input;
  HnsHtlc_validate htlc ;;
  Ok htlc.

Definition HnsHtlc_descriptor_hash (h : HnsHtlc) : result SwapError (list byte) :=
  encoded ← HnsHtlc_encode h;
  Ok (swap_blake2b_256 (HNS_HTLC_DESCRIPTOR_HASH_DOMAIN ++ encoded)).

Definition hash_preimage (preimage : list byte) : list byte := sha256 preimage.

Definition HnsHtlc_script (h : HnsHtlc) : result SwapError (list byte) :=
  HnsHtlc_validate h ;;
  let script := octets [OP_IF; OP_SHA256; 32] ++ ht_hashlock h ++ octets [OP_EQUALVERIFY; 33] ++
    ht_receiver_public_key h ++ octets [OP_ELSE] in
  let script := push_minimal_data script (htlc_encode_script_number (ht_refund_locktime h)) in
  Ok (script ++ octets [OP_CHECKLOCKTIMEVERIFY; OP_DROP; 33] ++ ht_refund_public_key h ++
      octets [OP_ENDIF; OP_CHECKSIG]).

Definition HnsHtlc_script_hash (h : HnsHtlc) : result SwapError (list byte) :=
  script ← HnsHtlc_script h; Ok (sha3_256 script).

Definition HnsHtlc_address (h : HnsHtlc) : result SwapError Address :=
  script_hash ← HnsHtlc_script_hash h;
  map_err SwTransaction (Address_new x00 script_hash).

Definition HnsHtlc_funding_output (h : HnsHtlc) : result SwapError Output :=
  address ← HnsHtlc_address h;
  Ok (mkOutput (ht_value h) address Covenant_default).

Definition HnsHtlc_verify_funding_output (h : HnsHtlc) (output : Output) : result SwapError unit :=
  HnsHtlc_validate h ;;
  assert_or (out_value output =? ht_value h) HtlcValueMismatch ;;
  address ← HnsHtlc_address h;
  assert_or (bool_decide (out_address output = address)) HtlcAddressMismatch ;;
  assert_or (negb (negb (bool_decide (cov_kind (out_covenant output) = KNone)) ||
                   negb (len (cov_items (out_covenant output)) =? 0))) HtlcCovenantMismatch.

Definition HnsHtlc_verify_funding_transaction (h : HnsHtlc) (transaction : Transaction)
    (output_index : Z) : result SwapError Outpoint :=
  output ← ok_or (get (tx_outputs transaction) output_index)
    (HtlcFundingOutputIndex output_index (len (tx_outputs transaction)));
  HnsHtlc_verify_funding_output h output ;;
  transaction_hash ← map_err SwTransaction (Transaction_transaction_hash transaction);
  assert_or (output_index <=? u32_max) SwArithmeticOverflow ;;
  Ok (mkOutpoint transaction_hash output_index).

Definition HnsHtlc_verify_funding_coin (h : HnsHtlc) (coin : Coin) : result SwapError unit :=
  HnsHtlc_verify_funding_output h (mkOutput (coin_value coin) (coin_address coin) (coin_covenant coin)).

(** ** Spending *)
Definition HnsHtlc_signature_hash (h : HnsHtlc) (transaction : Transaction) (input_index : Z)
    (funding_coin : Coin) : result SwapError (list byte) :=
  HnsHtlc_verify_funding_coin h funding_coin ;;
  input ← ok_or (get (tx_inputs transaction) input_index)
    (HtlcSpendInputIndex input_index (len (tx_inputs transaction)));
  assert_or (bool_decide (in_previous_output input = coin_outpoint funding_coin)) HtlcOutpointMismatch ;;
  script ← HnsHtlc_script h;
  map_err SwScript (signature_hash transaction input_index script (coin_value funding_coin)
    HNS_HTLC_SIGHASH).

Definition validate_htlc_signature (signature : list byte) : result SwapError unit :=
  assert_or (b2z (hash_type_of signature) =? HNS_HTLC_SIGHASH)
    (InvalidHtlcSignatureHashType (hash_type_of signature)) ;;
  assert_or (compact_ok (take 64 signature)) InvalidHtlcSignature ;;
  assert_or (negb (is_high (take 64 signature))) HighHtlcSignature.

Definition HnsHtlc_redeem_witness (h : HnsHtlc) (signature preimage : list byte)
  : result SwapError Witness :=
  HnsHtlc_validate h ;;
  validate_htlc_signature signature ;;
  assert_or (bool_decide (hash_preimage preimage = ht_hashlock h)) HtlcPreimageMismatch ;;
  script ← HnsHtlc_script h;
  Ok (mkWitness [signature; preimage; [x01]; script]).

Definition HnsHtlc_refund_witness (h : HnsHtlc) (signature : list byte) : result SwapError Witness :=
  HnsHtlc_validate h ;;
  validate_htlc_signature signature ;;
  script ← HnsHtlc_script h;
  Ok (mkWitness [signature; []; script]).

(** [selector != [1] || script != self.script()?] *)
Definition HnsHtlc_extract_preimage (h : HnsHtlc) (witness : Witness) : result SwapError (list byte) :=
  match wit_items witness with
  | [signature; preimage; selector; script] =>
    signature ← ok_or (as_array 65 signature) InvalidHtlcWitness;
    validate_htlc_signature signature ;;
    (if bool_decide (selector = [x01]) then
       expected ← HnsHtlc_script h; assert_or (bool_decide (script = expected)) InvalidHtlcWitness
     else Err InvalidHtlcWitness) ;;
    preimage ← ok_or (as_array HNS_HTLC_PREIMAGE_SIZE preimage) InvalidHtlcWitness;
    assert_or (bool_decide (hash_preimage preimage = ht_hashlock h)) HtlcPreimageMismatch ;;
    Ok preimage
  | _ => Err InvalidHtlcWitness
  end.

Definition HnsHtlc_verify_spend (h : HnsHtlc) (transaction : Transaction) (input_index : Z)
    (funding_coin : Coin) : result SwapError HnsHtlcSpend :=
  input ← ok_or (get (tx_inputs transaction) input_index)
    (HtlcSpendInputIndex input_index (len (tx_inputs transaction)));
  HnsHtlc_verify_funding_coin h funding_coin ;;
  map_err SwScript (verify_witness_program transaction input_index funding_coin FLAGS_STANDARD) ;;
  let witness := in_witness input in
  match wit_items witness with
  | [signature; selector; script] =>
    if len selector =? 0 then
      expected ← HnsHtlc_script h;
      if bool_decide (script = expected) then
        signature ← ok_or (as_array 65 signature) InvalidHtlcWitness;
        validate_htlc_signature signature ;;
        Ok Refund
      else Err InvalidHtlcWitness
    else Err InvalidHtlcWitness
  | [_; _; _; _] =>
    preimage ← HnsHtlc_extract_preimage h witness;
    Ok (Redeem preimage)
  | _ => Err InvalidHtlcWitness
  end.
End htlc.
