(* ===== verification/HtlcScript.v ===== *)
(** * Who can spend a hash time-locked contract

    The script of [crates/hns-swap/src/htlc.rs] run by the interpreter: what
    [HnsHtlc_verify_spend] accepts, and the codec of descriptors. *)

From S2P Require Import Prelude Encoding Primitives Covenants NameTransition Transaction Script Interpreter ScriptSteps K256 Swap SwapScript Htlc.
Local Open Scope Z_scope.

(** ** The lock time as a script number *)
Lemma htlc_number_same n : 0 <= n -> htlc_encode_script_number n = encode_script_number n.
Proof.
  intros N. unfold htlc_encode_script_number, encode_script_number. rewrite Z.abs_eq, (proj2 (Z.ltb_ge n 0)) by lia.
  destruct (n =? 0); [done|]. cbv zeta. by destruct (last (magnitude_bytes 8 n)).
Qed.

Lemma magnitude_length fuel n k : 0 <= n < 256 ^ Z.of_nat k -> (length (magnitude_bytes fuel n) <= k)%nat.
Proof.
  revert n k. induction fuel as [|fuel IH]; intros n k N; [simpl; lia|]. cbn [magnitude_bytes].
  destruct (Z.eqb_spec n 0); [simpl; lia|]. destruct k as [|k].
  { change (256 ^ Z.of_nat 0) with 1 in N. lia. }
  cbn [length]. apply le_n_S, IH. rewrite Nat2Z.inj_succ, Z.pow_succ_r in N by lia.
  rewrite Z.shiftr_div_pow2 by lia. change (2 ^ 8) with 256.
  split; [apply Z.div_pos; lia|]. apply Z.div_lt_upper_bound; lia.
Qed.

Lemma number_length n : 0 <= n <= u32_max -> len (encode_script_number n) <= 5.
Proof.
  intros N. rewrite <- htlc_number_same by lia. unfold htlc_encode_script_number.
  assert (length (magnitude_bytes 8 n) <= 4)%nat as L.
  { apply magnitude_length. change (256 ^ Z.of_nat 4) with 4294967296. ulia. }
  destruct (n =? 0); [by vm_compute|]. cbv zeta. repeat case_match; unfold len; rewrite ?length_app; cbn [length]; lia.
Qed.

(** A one-byte number is its byte. *)
Lemma number_single n b : 0 < n <= u32_max -> encode_script_number n = [b] -> b2z b = n /\ n <= 127.
Proof.
  intros N E. pose proof (proj1 (encode_number_sound n ltac:(unfold i64_min, i64_max; ulia))) as V. rewrite E in V.
  unfold script_value in V. change (len [b]) with 1 in V. cbn [from_le_bytes] in V. pose proof (b2z_range b).
  change (2 ^ (8 * 1 - 1)) with 128 in V. change (1 =? 0) with false in V. cbv iota in V.
  destruct (Z.leb_spec 128 (b2z b + 256 * 0)); lia.
Qed.

Lemma number_nonempty n : 0 < n <= u32_max -> encode_script_number n <> [].
Proof.
  intros N E. pose proof (proj1 (encode_number_sound n ltac:(unfold i64_min, i64_max; ulia))) as V. rewrite E in V.
  by vm_compute in V; subst n; lia.
Qed.

Lemma number_small n : 1 <= n <= 16 -> encode_script_number n = [z2b n].
Proof.
  intros N. assert (n = 1 \/ n = 2 \/ n = 3 \/ n = 4 \/ n = 5 \/ n = 6 \/ n = 7 \/ n = 8 \/ n = 9 \/ n = 10 \/
    n = 11 \/ n = 12 \/ n = 13 \/ n = 14 \/ n = 15 \/ n = 16) as D by lia.
  repeat (destruct D as [-> | D]; [by vm_compute|]). subst n. by vm_compute.
Qed.

(** The instruction that pushes the number [n] at [a]. *)
Definition number_instruction (n a : Z) : Instruction :=
  if n <=? 16 then mkInstruction (OP_1 + n - 1) None a (a + 1)
  else mkInstruction (len (encode_script_number n)) (Some (encode_script_number n)) a
         (a + 1 + len (encode_script_number n)).

Lemma number_direct n :
  16 < n <= u32_max -> is_minimal_push (len (encode_script_number n)) (encode_script_number n) = true /\
  1 <= len (encode_script_number n) <= 5.
Proof.
  intros N. pose proof (number_length n ltac:(lia)) as L. pose proof (number_nonempty n ltac:(lia)) as Ne.
  assert (1 <= len (encode_script_number n)) as L1.
  { destruct (encode_script_number n) as [|x l]; [done|]. slen. pose proof (len_nonneg l). lia. }
  split; [|lia]. destruct (Z.eq_dec (len (encode_script_number n)) 1) as [E|E].
  - destruct (encode_script_number n) as [|b [|c l]] eqn:En; [done| |slen; pose proof (len_nonneg l); lia].
    apply number_single in En as (Eb & Ln); [|lia]. unfold is_minimal_push. rewrite Eb.
    rewrite (proj2 (Z.leb_gt n 16)), (proj2 (Z.eqb_neq n 0x81)) by lia. by rewrite andb_false_r.
  - apply minimal_direct. lia.
Qed.

Lemma push_number script n a :
  0 < n <= u32_max ->
  push_minimal_data script (htlc_encode_script_number n) = script ++ instruction_bytes (number_instruction n a).
Proof.
  intros N. rewrite htlc_number_same by lia. unfold number_instruction. destruct (Z.leb_spec n 16) as [L|L].
  - rewrite number_small by lia. unfold push_minimal_data, instruction_bytes. rewrite z2b_small by lia.
    by rewrite (proj2 (Z.leb_le 1 n)), (proj2 (Z.leb_le n 16)) by lia.
  - destruct (number_direct n ltac:(lia)) as (_ & R). unfold push_minimal_data, instruction_bytes.
    cbn [ins_opcode ins_data]. assert (length_field (len (encode_script_number n)) (len (encode_script_number n)) = []) as ->.
    { unfold length_field. repeat case_match; try done; unfold OP_PUSHDATA1, OP_PUSHDATA2, OP_PUSHDATA4 in *; lia. }
    cbn [app]. destruct (encode_script_number n) as [|b [|c l]] eqn:E; [done| |done].
    apply number_single in E as (Eb & _); [|lia]. rewrite Eb, (proj2 (Z.leb_gt n 16)) by lia. by rewrite andb_false_r.
Qed.

(** ** The script's instructions *)
Definition htlc_instructions (h : HnsHtlc) : list Instruction :=
  let lock := number_instruction (ht_refund_locktime h) 71 in
  let e := ins_end lock in
  [mkInstruction OP_IF None 0 1; mkInstruction OP_SHA256 None 1 2;
   mkInstruction 32 (Some (ht_hashlock h)) 2 35; mkInstruction OP_EQUALVERIFY None 35 36;
   mkInstruction 33 (Some (ht_receiver_public_key h)) 36 70; mkInstruction OP_ELSE None 70 71; lock;
   mkInstruction OP_CHECKLOCKTIMEVERIFY None e (e + 1); mkInstruction OP_DROP None (e + 1) (e + 2);
   mkInstruction 33 (Some (ht_refund_public_key h)) (e + 2) (e + 36);
   mkInstruction OP_ENDIF None (e + 36) (e + 37); mkInstruction OP_CHECKSIG None (e + 37) (e + 38)].

(** The script of a valid descriptor. *)
Definition htlc_script (h : HnsHtlc) : list byte := mjoin (instruction_bytes <$> htlc_instructions h).

Record HnsHtlc_wf (h : HnsHtlc) : Prop := {
  hw_magic : u32 (nb_magic (ht_network h));
  hw_genesis : len (nb_genesis (ht_network h)) = 32;
  hw_value : u64 (ht_value h);
  hw_hashlock : len (ht_hashlock h) = 32;
  hw_receiver : len (ht_receiver_public_key h) = 33;
  hw_refund : len (ht_refund_public_key h) = 33;
  hw_locktime : u32 (ht_refund_locktime h);
}.

Lemma number_instruction_wf n a :
  0 < n <= u32_max ->
  instruction_wf (number_instruction n a) /\ ins_start (number_instruction n a) = a /\
  ins_end (number_instruction n a) = a + len (instruction_bytes (number_instruction n a)) /\
  len (instruction_bytes (number_instruction n a)) <= 6.
Proof.
  intros N. unfold number_instruction. destruct (Z.leb_spec n 16) as [L|L].
  - split; [|done]. apply opcode_wf. unfold OP_1, OP_PUSHDATA4.
    rewrite (proj2 (Z.leb_le 0 _)), (proj2 (Z.ltb_lt _ 256)), (proj2 (Z.leb_le 1 _)), (proj2 (Z.leb_gt _ 0x4e)) by lia. done.
  - destruct (number_direct n ltac:(lia)) as (_ & R). split; [apply push_wf; lia|]. split; [done|].
    unfold instruction_bytes. cbn [ins_opcode ins_data ins_end].
    assert (length_field (len (encode_script_number n)) (len (encode_script_number n)) = []) as ->.
    { unfold length_field. repeat case_match; try done; unfold OP_PUSHDATA1, OP_PUSHDATA2, OP_PUSHDATA4 in *; lia. }
    cbn [app]. rewrite len_cons. split; lia.
Qed.

Section script.
Context {CR : Crypto} {DG : ScriptDigests} {KC : K256}.

Lemma valid_locktime h : HnsHtlc_validate h = Ok tt -> u32 (ht_refund_locktime h) -> 0 < ht_refund_locktime h <= u32_max.
Proof.
  intros V U. unfold HnsHtlc_validate in V. do 5 apply bind_Ok in V as (? & _ & V).
  apply assert_or_Ok, negb_true_iff, Z.eqb_neq in V. destruct (Z.eq_dec (ht_refund_locktime h) 0) as [E|E].
  - by rewrite E in V.
  - unfold u32 in U. lia.
Qed.

Lemma HnsHtlc_script_Ok h : HnsHtlc_wf h -> HnsHtlc_validate h = Ok tt -> HnsHtlc_script h = Ok (htlc_script h).
Proof.
  intros W V. pose proof (valid_locktime h V (hw_locktime _ W)) as N. unfold HnsHtlc_script. rewrite V.
  cbn [mbind result_bind]. cbv zeta. rewrite (push_number _ _ 71) by done. f_equal.
  unfold htlc_script, htlc_instructions. cbv zeta. set (lock := number_instruction _ _).
  rewrite !fmap_cons', !join_cons. unfold instruction_bytes at 2 3 4 5 6 7 8 9 10 11 12 13.
  cbn [ins_opcode ins_data octets app]. unfold length_field. cbn [Z.eqb Pos.eqb app].
  change (mjoin (instruction_bytes <$> [])) with (@nil byte). rewrite <- !app_assoc. reflexivity.
Qed.

Lemma htlc_parses h :
  HnsHtlc_wf h -> HnsHtlc_validate h = Ok tt -> parse_script (htlc_script h) = Ok (htlc_instructions h).
Proof.
  intros W V. pose proof (valid_locktime h V (hw_locktime _ W)) as N.
  destruct (number_instruction_wf (ht_refund_locktime h) 71 N) as (Wi & Si & Ei & Li).
  destruct W as [_ _ _ Lh Lr Lf _]. apply parse_script_Ok. split; [|split; [|split]].
  - unfold htlc_script, htlc_instructions. cbv zeta. rewrite !fmap_cons', !join_cons, !len_app.
    unfold instruction_bytes at 1 2 3 4 5 6 8 9 10 11 12. cbn [ins_opcode ins_data].
    unfold length_field. cbn [Z.eqb Pos.eqb app]. change (mjoin (instruction_bytes <$> [])) with (@nil byte).
    slen. unfold MAX_SCRIPT_SIZE. lia.
  - unfold htlc_instructions. cbv zeta. rewrite <- Lh at 1. rewrite <- Lr at 1. rewrite <- Lf at 1.
    repeat (apply Forall_cons; split; [first [exact Wi|by apply opcode_wf|apply push_wf; lia]|]). by apply Forall_nil.
  - unfold htlc_instructions. cbv zeta. set (lock := number_instruction _ _) in *.
    cbn [placed ins_start ins_end]. unfold instruction_bytes at 1 2 3 4 5 6 8 9 10 11 12. cbn [ins_opcode ins_data].
    unfold length_field. cbn [Z.eqb Pos.eqb app]. slen. repeat split; lia.
  - done.
Qed.

(** ** Running it *)
Section runs.
Context {SV : SignatureVerifier} (h : HnsHtlc) (tx : Transaction) (index value flags : Z).
Context (W : HnsHtlc_wf h) (N : 0 < ht_refund_locktime h <= u32_max).
Context (F : flags_contains flags VERIFY_MINIMAL_IF = true).

Abbreviation run := (execute_loop (htlc_script h) tx index value flags).
Abbreviation lock := (number_instruction (ht_refund_locktime h) 71).

Lemma exec_number stack c :
  room (stack ++ [encode_script_number (ht_refund_locktime h)]) [] ->
  execute_instruction (htlc_script h) tx index value flags lock (mkMachine stack [] [true] c 0) =
  Ok (mkMachine (stack ++ [encode_script_number (ht_refund_locktime h)]) [] [true] c 0).
Proof.
  intros R. unfold number_instruction. destruct (Z.leb_spec (ht_refund_locktime h) 16).
  - by apply exec_small; [lia|..].
  - destruct (number_direct (ht_refund_locktime h) ltac:(lia)) as (M & L).
    by apply exec_push; [lia|done|unfold MAX_SCRIPT_PUSH; lia|..].
Qed.

Lemma exec_number_skip stack c :
  room stack [] ->
  execute_instruction (htlc_script h) tx index value flags lock (mkMachine stack [] [false] c 0) =
  Ok (mkMachine stack [] [false] c 0).
Proof.
  intros R. unfold number_instruction. destruct (Z.leb_spec (ht_refund_locktime h) 16).
  - by apply exec_skip_small; [lia|..].
  - destruct (number_direct (ht_refund_locktime h) ltac:(lia)) as (M & L).
    apply exec_skip_push; [unfold OP_16; lia|unfold MAX_SCRIPT_PUSH; lia| |done|done].
    apply bool_decide_eq_false. unfold OP_CAT, OP_SUBSTR, OP_LEFT, OP_RIGHT, OP_INVERT, OP_AND,
      OP_OR, OP_XOR, OP_2MUL, OP_2DIV, OP_MUL, OP_DIV, OP_MOD, OP_LSHIFT, OP_RSHIFT.
    rewrite !elem_of_cons, elem_of_nil. lia.
Qed.

(** The final signature check, which both branches share. *)
Lemma checksig_end a b stack key c m :
  0 <= c < 100 -> len stack < MAX_SCRIPT_STACK ->
  run [mkInstruction OP_CHECKSIG None a b] (mkMachine (stack ++ [key]) [] [] c 0) = Ok m <->
  exists r sig valid, stack = r ++ [sig] /\
    check_signature tx index value (htlc_script h) sig key = Ok valid /\
    (valid = false -> flags_contains flags VERIFY_NULLFAIL = true -> len sig = 0) /\
    m = mkMachine (r ++ [bool_bytes valid]) [] [] (c + 1) 0.
Proof.
  intros C L. rewrite loop_cons. setoid_rewrite exec_checksig; [|done|lia]. setoid_rewrite loop_nil. split.
  - intros (m1 & (_ & r & sig & k & valid & E & Ck & Nf & R & ->) & <-). rewrite app_assoc in E.
    apply app_inj_tail in E as (-> & ->). by exists r, sig, valid.
  - intros (r & sig & valid & -> & Ck & Nf & ->). rewrite len_app in L. change (len [sig]) with 1 in L.
    eexists. split; [|done]. split; [unfold MAX_SCRIPT_OPS; lia|]. exists r, sig, key, valid.
    rewrite app_assoc. split; [done|]. split; [done|]. split; [done|]. split; [apply room_snoc; lia|done].
Qed.

(** The refund branch, skipped. *)
Lemma redeem_tail st e :
  room st [] ->
  run (mkInstruction OP_ELSE None 70 71 :: lock :: mkInstruction OP_CHECKLOCKTIMEVERIFY None e (e + 1) ::
       mkInstruction OP_DROP None (e + 1) (e + 2) ::
       mkInstruction 33 (Some (ht_refund_public_key h)) (e + 2) (e + 36) ::
       mkInstruction OP_ENDIF None (e + 36) (e + 37) :: [mkInstruction OP_CHECKSIG None (e + 37) (e + 38)])
    (mkMachine st [] [true] 3 0) =
  run [mkInstruction OP_CHECKSIG None (e + 37) (e + 38)] (mkMachine st [] [] 7 0).
Proof.
  intros R. rewrite (loop_det _ _ _ _ _ _ _ _ (mkMachine st [] [false] 4 0)).
  2: { apply (exec_else _ _ _ _ _ _ _ _ _ [] true); [lia|]. split; [by vm_compute|done]. }
  rewrite (loop_det _ _ _ _ _ _ _ _ (mkMachine st [] [false] 4 0)) by (by apply exec_number_skip).
  rewrite (loop_det _ _ _ _ _ _ _ _ (mkMachine st [] [false] 5 0)).
  2: { apply exec_skip; [done..|lia|]. split; [by vm_compute|done]. }
  rewrite (loop_det _ _ _ _ _ _ _ _ (mkMachine st [] [false] 6 0)).
  2: { apply exec_skip; [done..|lia|]. split; [by vm_compute|done]. }
  rewrite (loop_det _ _ _ _ _ _ _ _ (mkMachine st [] [false] 6 0)).
  2: { apply exec_skip_push; [by vm_compute|rewrite (hw_refund _ W); by vm_compute|done..]. }
  apply loop_det. apply (exec_endif _ _ _ _ _ _ _ _ _ [] false); [lia|]. split; [by vm_compute|done].
Qed.

Lemma run_redeem r m :
  len r < MAX_SCRIPT_STACK - 1 ->
  run (htlc_instructions h) (mkMachine (r ++ [[x01]]) [] [] 0 0) = Ok m <->
  exists s pre sig valid, r = s ++ [sig] ++ [pre] /\ sha256 pre = ht_hashlock h /\
    check_signature tx index value (htlc_script h) sig (ht_receiver_public_key h) = Ok valid /\
    (valid = false -> flags_contains flags VERIFY_NULLFAIL = true -> len sig = 0) /\
    m = mkMachine (s ++ [bool_bytes valid]) [] [] 8 0.
Proof.
  intros L. unfold htlc_instructions. cbv zeta. set (e := ins_end lock).
  rewrite (loop_det _ _ _ _ _ _ _ _ (mkMachine r [] [true] 1 0)).
  2: { apply exec_if; [done|lia|]. split; [by vm_compute|]. exists r, [x01]. split; [done|]. split; [by right|].
       split; [apply room_lt; lia|done]. }
  destruct r as [|pre s _] using rev_ind.
  { split; [|by intros (s & pre & sig & valid & E & _); destruct s].
    intros H. apply loop_cons in H as (m1 & H & _). apply exec_sha256 in H as (_ & r & x & E & _); [|done|lia].
    by destruct r. }
  rewrite len_app in L. change (len [pre]) with 1 in L.
  rewrite (loop_det _ _ _ _ _ _ _ _ (mkMachine (s ++ [sha256 pre]) [] [true] 2 0)).
  2: { apply exec_sha256; [done|lia|]. split; [by vm_compute|]. exists s, pre. split; [done|].
       split; [apply room_snoc; lia|done]. }
  rewrite (loop_det _ _ _ _ _ _ _ _ (mkMachine ((s ++ [sha256 pre]) ++ [ht_hashlock h]) [] [true] 2 0)).
  2: { pose proof (hw_hashlock _ W) as Lh. apply exec_push; [lia|rewrite <- Lh; apply minimal_direct; lia|
         rewrite Lh; by vm_compute|done|]. split; [|done]. apply room_snoc. rewrite len_app. change (len [_]) with 1. lia. }
  destruct (decide (sha256 pre = ht_hashlock h)) as [Eh|Eh].
  2: { split.
       - intros H. apply loop_cons in H as (m1 & H & _). apply exec_equalverify in H as (_ & r & x & E & _); [|done|lia].
         rewrite app_assoc in E. apply app_inj_tail in E as (E & Ex). apply app_inj_tail in E as (_ & Ey). congruence.
       - intros (s' & pre' & sig & valid & E & Ep & _). rewrite app_assoc in E. apply app_inj_tail in E as (_ & ->). done. }
  rewrite (loop_det _ _ _ _ _ _ _ _ (mkMachine s [] [true] 3 0)).
  2: { apply exec_equalverify; [done|lia|]. split; [by vm_compute|]. exists s, (ht_hashlock h).
       rewrite Eh, app_assoc. split; [done|]. split; [apply room_lt; lia|done]. }
  rewrite (loop_det _ _ _ _ _ _ _ _ (mkMachine (s ++ [ht_receiver_public_key h]) [] [true] 3 0)).
  2: { pose proof (hw_receiver _ W) as Lr. apply exec_push; [lia|rewrite <- Lr; apply minimal_direct; lia|
         rewrite Lr; by vm_compute|done|]. split; [apply room_snoc; lia|done]. }
  rewrite redeem_tail by (apply room_snoc; lia). rewrite checksig_end by lia. split.
  - intros (s' & sig & valid & -> & Ck & Nf & ->). exists s', pre, sig, valid. by rewrite app_assoc.
  - intros (s' & pre' & sig & valid & E & _ & Ck & Nf & ->). rewrite app_assoc in E.
    apply app_inj_tail in E as (-> & ->). by exists s', sig, valid.
Qed.

(** The redeem branch, skipped. *)
Lemma refund_head r rest :
  room r [] ->
  run (mkInstruction OP_SHA256 None 1 2 :: mkInstruction 32 (Some (ht_hashlock h)) 2 35 ::
       mkInstruction OP_EQUALVERIFY None 35 36 :: mkInstruction 33 (Some (ht_receiver_public_key h)) 36 70 ::
       mkInstruction OP_ELSE None 70 71 :: rest) (mkMachine r [] [false] 1 0) =
  run rest (mkMachine r [] [true] 4 0).
Proof.
  intros R. rewrite (loop_det _ _ _ _ _ _ _ _ (mkMachine r [] [false] 2 0)).
  2: { apply exec_skip; [done..|lia|]. split; [by vm_compute|done]. }
  rewrite (loop_det _ _ _ _ _ _ _ _ (mkMachine r [] [false] 2 0)).
  2: { apply exec_skip_push; [by vm_compute|rewrite (hw_hashlock _ W); by vm_compute|done..]. }
  rewrite (loop_det _ _ _ _ _ _ _ _ (mkMachine r [] [false] 3 0)).
  2: { apply exec_skip; [done..|lia|]. split; [by vm_compute|done]. }
  rewrite (loop_det _ _ _ _ _ _ _ _ (mkMachine r [] [false] 3 0)).
  2: { apply exec_skip_push; [by vm_compute|rewrite (hw_receiver _ W); by vm_compute|done..]. }
  apply loop_det. apply (exec_else _ _ _ _ _ _ _ _ _ [] false); [lia|]. split; [by vm_compute|done].
Qed.

Lemma run_refund r m :
  len r < MAX_SCRIPT_STACK - 1 ->
  run (htlc_instructions h) (mkMachine (r ++ [[]]) [] [] 0 0) = Ok m <->
  verify_locktime_predicate tx index (ht_refund_locktime h) = true /\
  exists s sig valid, r = s ++ [sig] /\
    check_signature tx index value (htlc_script h) sig (ht_refund_public_key h) = Ok valid /\
    (valid = false -> flags_contains flags VERIFY_NULLFAIL = true -> len sig = 0) /\
    m = mkMachine (s ++ [bool_bytes valid]) [] [] 8 0.
Proof.
  intros L. unfold htlc_instructions. cbv zeta. set (e := ins_end lock).
  rewrite (loop_det _ _ _ _ _ _ _ _ (mkMachine r [] [false] 1 0)).
  2: { apply exec_if; [done|lia|]. split; [by vm_compute|]. exists r, []. split; [done|]. split; [by left|].
       split; [apply room_lt; lia|done]. }
  rewrite refund_head by (apply room_lt; lia).
  rewrite (loop_det _ _ _ _ _ _ _ _ (mkMachine (r ++ [encode_script_number (ht_refund_locktime h)]) [] [true] 4 0))
    by (apply exec_number, room_snoc; lia).
  rewrite loop_cons. setoid_rewrite exec_cltv; [|done|lia|lia|apply number_length; lia].
  transitivity (verify_locktime_predicate tx index (ht_refund_locktime h) = true /\
    run (mkInstruction OP_DROP None (e + 1) (e + 2) ::
      mkInstruction 33 (Some (ht_refund_public_key h)) (e + 2) (e + 36) ::
      mkInstruction OP_ENDIF None (e + 36) (e + 37) :: [mkInstruction OP_CHECKSIG None (e + 37) (e + 38)])
      (mkMachine (r ++ [encode_script_number (ht_refund_locktime h)]) [] [true] 5 0) = Ok m).
  { split; [by intros (m1 & (_ & P & _ & ->) & H)|]. intros (P & H). eexists. split; [|exact H].
    split; [by vm_compute|]. split; [done|]. split; [apply room_snoc; lia|done]. }
  rewrite (loop_det _ _ _ _ _ _ _ _ (mkMachine r [] [true] 6 0)).
  2: { apply exec_drop; [done|lia|]. split; [by vm_compute|]. eexists r, _. split; [done|].
       split; [apply room_lt; lia|done]. }
  rewrite (loop_det _ _ _ _ _ _ _ _ (mkMachine (r ++ [ht_refund_public_key h]) [] [true] 6 0)).
  2: { pose proof (hw_refund _ W) as Lr. apply exec_push; [lia|rewrite <- Lr; apply minimal_direct; lia|
         rewrite Lr; by vm_compute|done|]. split; [apply room_snoc; lia|done]. }
  rewrite (loop_det _ _ _ _ _ _ _ _ (mkMachine (r ++ [ht_refund_public_key h]) [] [] 7 0)).
  2: { apply (exec_endif _ _ _ _ _ _ _ _ _ [] true); [lia|]. split; [by vm_compute|]. split; [apply room_snoc; lia|done]. }
  by rewrite checksig_end by lia.
Qed.

Lemma run_selector stack m :
  run (htlc_instructions h) (mkMachine stack [] [] 0 0) = Ok m ->
  exists r x, stack = r ++ [x] /\ (x = [] \/ x = [x01]).
Proof.
  intros H. unfold htlc_instructions in H. cbv zeta in H. apply loop_cons in H as (m1 & H & _).
  apply exec_if in H as (_ & r & x & E & M & _); [|done|lia]. exists r, x. split; [done|]. by apply M.
Qed.
End runs.

(** ** Funding *)
Lemma funding_coin_Ok h coin :
  HnsHtlc_wf h -> HnsHtlc_verify_funding_coin h coin = Ok tt ->
  HnsHtlc_validate h = Ok tt /\ coin_value coin = ht_value h /\
  coin_address coin = mkAddress x00 (sha3_256 (htlc_script h)) /\ coin_covenant coin = Covenant_default.
Proof.
  intros W H. unfold HnsHtlc_verify_funding_coin, HnsHtlc_verify_funding_output in H.
  apply bind_Ok in H as ([] & V & H). apply bind_Ok in H as (u & Ev & H). apply assert_or_Ok, Z.eqb_eq in Ev.
  apply bind_Ok in H as (a & Ea & H). apply bind_Ok in H as (u' & Eq & H). apply assert_or_Ok, bool_decide_eq_true in Eq.
  cbn [out_value out_address out_covenant] in *. unfold HnsHtlc_address, HnsHtlc_script_hash in Ea.
  rewrite HnsHtlc_script_Ok in Ea by done. cbn [mbind result_bind] in Ea. apply map_err_Ok in Ea. unfold Address_new in Ea.
  apply bind_Ok in Ea as (u2 & _ & [= <-]). apply assert_or_Ok, negb_true_iff, orb_false_iff in H as (K & It).
  apply negb_false_iff, bool_decide_eq_true in K. apply negb_false_iff, Z.eqb_eq in It.
  split; [done|]. split; [done|]. split; [done|]. destruct (coin_covenant coin) as [k items]. cbn [cov_kind cov_items] in *.
  subst k. by destruct items.
Qed.

Lemma witness_program_outpoint {SV : SignatureVerifier} tx i coin flags input :
  get (tx_inputs tx) i = Some input -> verify_witness_program tx i coin flags = Ok tt ->
  in_previous_output input = coin_outpoint coin.
Proof.
  intros I H. unfold verify_witness_program in H. rewrite I in H. cbn [ok_or mbind result_bind] in H.
  apply bind_Ok in H as (u & H & _). by apply assert_or_Ok, bool_decide_eq_true in H.
Qed.

(** A checked signature is admissible exactly when it has the one hash type. *)
Lemma htlc_signature_Ok tx i value script sig key :
  check_signature tx i value script sig key = Ok true ->
  as_array 65 sig = Some sig /\
  (validate_htlc_signature sig = Ok tt <-> b2z (hash_type_of sig) = HNS_HTLC_SIGHASH).
Proof.
  intros C. apply check_signature_k256 in C as (c & t & d & -> & L & _ & Co & Hi & _).
  split; [apply as_array_intro; rewrite len_app, L; done|]. unfold validate_htlc_signature.
  assert (take 64 (c ++ [t]) = c) as -> by (apply take_app_length'; unfold len in L; lia).
  rewrite Co, Hi, <- Z.eqb_eq. destruct (b2z (hash_type_of (c ++ [t])) =? HNS_HTLC_SIGHASH); done.
Qed.

(** ** The witness program *)
Lemma htlc_program_Ok {SV : SignatureVerifier} h tx i coin flags input :
  HnsHtlc_wf h -> HnsHtlc_validate h = Ok tt -> 0 <= i -> get (tx_inputs tx) i = Some input ->
  in_previous_output input = coin_outpoint coin ->
  coin_address coin = mkAddress x00 (sha3_256 (htlc_script h)) ->
  flags_contains flags VERIFY_MINIMAL_IF = true ->
  (forall stack script, wit_items (in_witness input) = stack ++ [script] ->
     sha3_256 script = sha3_256 (htlc_script h) -> script = htlc_script h) ->
  verify_witness_program tx i coin flags = Ok tt <->
  (exists sig pre, wit_items (in_witness input) = [sig; pre; [x01]; htlc_script h] /\
     sha256 pre = ht_hashlock h /\ len pre <= MAX_SCRIPT_PUSH /\
     check_signature tx i (coin_value coin) (htlc_script h) sig (ht_receiver_public_key h) = Ok true) \/
  (exists sig, wit_items (in_witness input) = [sig; []; htlc_script h] /\
     verify_locktime_predicate tx i (ht_refund_locktime h) = true /\
     check_signature tx i (coin_value coin) (htlc_script h) sig (ht_refund_public_key h) = Ok true).
Proof.
  intros W V Hi I Op A F P. pose proof (valid_locktime h V (hw_locktime _ W)) as N.
  pose proof (htlc_parses h W V) as Pa. assert (len (htlc_script h) <= MAX_SCRIPT_SIZE) as Ls
    by (by apply parse_script_Ok in Pa as (? & _)).
  rewrite script_hash_spend_Ok; [|done|exact I|done|by rewrite A|rewrite A; apply (len_length _ 32), sha3_256_length].
  rewrite A. cbn [addr_hash]. split.
  - intros (stack & script & instrs & alt & count & sep & top & Wi & Sl & _ & Hh & Fi & Pa' & Run & T).
    pose proof (P _ _ Wi Hh) as ->. rewrite Pa in Pa'. injection Pa' as <-.
    destruct (run_selector h tx i (coin_value coin) flags F stack _ Run) as (r & x & -> & [-> | ->]);
      rewrite len_app in Sl; change (len [_]) with 1 in Sl.
    + right. apply run_refund in Run as (Lt & s & sig & valid & -> & C & _ & M); [|done..|lia].
      injection M as Es _ _ _. destruct s; [|by destruct s]. injection Es as ->. rewrite cast_bool_bytes in T. subst valid.
      by exists sig.
    + left. apply run_redeem in Run as (s & pre & sig & valid & -> & Eh & C & _ & M); [|done..|lia].
      injection M as Es _ _ _. destruct s; [|by destruct s]. injection Es as ->. rewrite cast_bool_bytes in T. subst valid.
      exists sig, pre. split; [done|]. split; [done|]. split; [|done].
      rewrite Forall_forall in Fi. apply Fi. cbn. set_solver.
  - intros [(sig & pre & Wi & Eh & Lp & C)|(sig & Wi & Lt & C)];
      destruct (check_signature_true _ _ _ _ _ _ C) as (Lsig & _).
    + exists [sig; pre; [x01]], (htlc_script h), (htlc_instructions h), [], 8, 0, (bool_bytes true).
      split; [done|]. split; [by vm_compute|]. split; [done|]. split; [done|]. split.
      { repeat (apply Forall_cons; split; [first [done|rewrite Lsig; by vm_compute|by vm_compute]|]). by apply Forall_nil. }
      split; [done|]. split; [|done]. apply (run_redeem h tx i _ flags W N [sig; pre]); [by vm_compute|].
      by exists [], pre, sig, true.
    + exists [sig; []], (htlc_script h), (htlc_instructions h), [], 8, 0, (bool_bytes true).
      split; [done|]. split; [by vm_compute|]. split; [done|]. split; [done|]. split.
      { repeat (apply Forall_cons; split; [first [rewrite Lsig; by vm_compute|by vm_compute]|]). by apply Forall_nil. }
      split; [done|]. split; [|done]. apply (run_refund h tx i _ flags W N [sig]); [by vm_compute|].
      split; [done|]. by exists [], sig, true.
Qed.

Lemma extract_preimage_Ok h sig pre script witness tx i value :
  HnsHtlc_wf h -> HnsHtlc_validate h = Ok tt -> wit_items witness = [sig; pre; [x01]; htlc_script h] ->
  sha256 pre = ht_hashlock h ->
  check_signature tx i value script sig (ht_receiver_public_key h) = Ok true ->
  forall p, HnsHtlc_extract_preimage h witness = Ok p <->
    p = pre /\ len pre = 32 /\ b2z (hash_type_of sig) = HNS_HTLC_SIGHASH.
Proof.
  intros W V E Eh C p. apply htlc_signature_Ok in C as (As & Vs). unfold HnsHtlc_extract_preimage.
  rewrite E, As. cbn [ok_or mbind result_bind]. rewrite HnsHtlc_script_Ok by done.
  rewrite (bool_decide_eq_true_2 ([x01] = [x01])) by done. cbn [mbind result_bind].
  rewrite bool_decide_eqb_refl. cbn [assert_or mbind result_bind]. unfold HNS_HTLC_PREIMAGE_SIZE, hash_preimage.
  split.
  - intros H. apply bind_Ok in H as ([] & S & H). apply Vs in S. apply bind_Ok in H as (q & Q & H).
    apply ok_or_Ok, as_array_Some in Q as (-> & L). by apply bind_Ok in H as (u & _ & [= <-]).
  - intros (-> & L & S). rewrite (proj2 Vs S). cbn [mbind result_bind]. rewrite as_array_intro by done.
    cbn [ok_or mbind result_bind]. by rewrite bool_decide_eq_true_2.
Qed.

(** C3. A funded contract is settled in exactly two ways. For a well-typed descriptor
    and a coin that passes its funding check, unless the witness exhibits a second
    preimage of the script hash: the spend check accepts an input that spends the
    coin and reports a redeem of [preimage] exactly when the witness is a signature
    of the receiver, that 32-byte preimage of the hash lock, the selector 1 and the
    script; and a refund exactly when the witness is a signature of the refund
    owner, the empty selector and the script, in a transaction whose lock time has
    reached the contract's. Both signatures must commit to the whole transaction. *)
Theorem htlc_spend_iff h tx i coin input spend
    (W : HnsHtlc_wf h) (Hi : 0 <= i) (I : get (tx_inputs tx) i = Some input)
    (Fc : HnsHtlc_verify_funding_coin h coin = Ok tt)
    (P : forall stack script, wit_items (in_witness input) = stack ++ [script] ->
         sha3_256 script = sha3_256 (htlc_script h) -> script = htlc_script h) :
  HnsHtlc_verify_spend h tx i coin = Ok spend <->
  in_previous_output input = coin_outpoint coin /\
  exists sig, b2z (hash_type_of sig) = SIGHASH_ALL /\
    match spend with
    | Redeem preimage =>
        wit_items (in_witness input) = [sig; preimage; [x01]; htlc_script h] /\
        len preimage = 32 /\ sha256 preimage = ht_hashlock h /\
        check_signature tx i (ht_value h) (htlc_script h) sig (ht_receiver_public_key h) = Ok true
    | Refund =>
        wit_items (in_witness input) = [sig; []; htlc_script h] /\
        verify_locktime_predicate tx i (ht_refund_locktime h) = true /\
        check_signature tx i (ht_value h) (htlc_script h) sig (ht_refund_public_key h) = Ok true
    end.
Proof.
  pose proof (funding_coin_Ok h coin W Fc) as (V & Ev & A & _).
  unfold HnsHtlc_verify_spend. rewrite I, Fc. cbn [ok_or mbind result_bind].
  change (result_bind _ _ ?f ?m) with (m ≫= f). split.
  - intros H. apply bind_Ok in H as ([] & Pr & H). apply map_err_Ok in Pr.
    pose proof (witness_program_outpoint _ _ _ _ _ I Pr) as Op. split; [done|].
    apply (htlc_program_Ok h tx i coin _ input) in Pr; try done. rewrite Ev in Pr.
    destruct Pr as [(sig & pre & Wi & Eh & _ & C)|(sig & Wi & Lt & C)]; rewrite Wi in H.
    + apply bind_Ok in H as (p & X & [= <-]).
      apply (extract_preimage_Ok h sig pre (htlc_script h) (in_witness input) tx i (ht_value h)) in X as (-> & L & S); try done.
      by exists sig.
    + change (len (@nil byte) =? 0) with true in H. cbv iota in H. rewrite HnsHtlc_script_Ok in H by done.
      cbn [mbind result_bind] in H. rewrite bool_decide_eqb_refl in H. pose proof C as C'.
      apply htlc_signature_Ok in C' as (As & Vs). rewrite As in H. cbn [ok_or mbind result_bind] in H.
      apply bind_Ok in H as ([] & S & [= <-]). apply Vs in S. by exists sig.
  - intros (Op & sig & S & H).
    assert (verify_witness_program tx i coin FLAGS_STANDARD = Ok tt) as ->.
    { apply (htlc_program_Ok h tx i coin _ input); try done. rewrite Ev. destruct spend as [pre|].
      - left. destruct H as (Wi & L & Eh & C). exists sig, pre. split; [done|]. split; [done|].
        split; [unfold MAX_SCRIPT_PUSH; lia|done].
      - right. by exists sig. }
    cbn [map_err mbind result_bind]. destruct spend as [pre|].
    + destruct H as (Wi & L & Eh & C). rewrite Wi. apply bind_Ok. exists pre. split; [|done].
      by apply (extract_preimage_Ok h sig pre (htlc_script h) (in_witness input) tx i (ht_value h)).
    + destruct H as (Wi & Lt & C). rewrite Wi. change (len (@nil byte) =? 0) with true. cbv iota.
      rewrite HnsHtlc_script_Ok by done. cbn [mbind result_bind]. rewrite bool_decide_eqb_refl.
      apply htlc_signature_Ok in C as (As & Vs). rewrite As. cbn [ok_or mbind result_bind].
      by rewrite (proj2 Vs S).
Qed.
End script.

(** ** The descriptor on the wire *)
Definition htlc_bytes (h : HnsHtlc) : list byte :=
  to_le_bytes 2 HNS_HTLC_VERSION ++ to_le_bytes 4 (nb_magic (ht_network h)) ++ nb_genesis (ht_network h) ++
  to_le_bytes 8 (ht_value h) ++ ht_hashlock h ++ ht_receiver_public_key h ++ ht_refund_public_key h ++
  to_le_bytes 4 (ht_refund_locktime h).

Section codec.
Context {KC : K256}.

Lemma HnsHtlc_encode_Ok h bs :
  HnsHtlc_wf h -> HnsHtlc_encode h = Ok bs <-> HnsHtlc_validate h = Ok tt /\ bs = htlc_bytes h.
Proof.
  intros [_ Lg _ Lh Lr Lf _]. unfold HnsHtlc_encode. rewrite bind_Ok. cbv zeta. unfold into_bytes. autorewrite with enc.
  rewrite <- !app_assoc. fold (htlc_bytes h).
  assert (len (htlc_bytes h) = 148) as -> by (unfold htlc_bytes; slen; lia).
  split; [by intros ([] & V & [= <-])|]. intros (V & ->). by exists tt.
Qed.

Lemma HnsHtlc_read_inv d h d' :
  dec_wf d -> HnsHtlc_read d = (Ok h, d') -> took d (htlc_bytes h) d' /\ HnsHtlc_wf h.
Proof.
  intros W H. unfold HnsHtlc_read in H.
  apply dec_bind_Ok in H as (v & d0 & H0 & H). apply dec_bind_Ok in H as (u & d0' & Hv & H).
  apply dec_bind_Ok in H as (magic & d1 & H1 & H). apply dec_bind_Ok in H as (genesis & d2 & H2 & H).
  apply dec_bind_Ok in H as (value & d3 & H3 & H). apply dec_bind_Ok in H as (lock & d4 & H4 & H).
  apply dec_bind_Ok in H as (key & d5 & H5 & H). apply dec_bind_Ok in H as (key' & d6 & H6 & H).
  apply dec_bind_Ok in H as (time & d7 & H7 & H). apply dec_ret_Ok in H as (<- & ->).
  apply lift_res_Ok in Hv as (Hv & ->). apply assert_or_Ok, Z.eqb_eq in Hv. subst v.
  apply lift_err_Ok in H0, H1, H2, H3, H4, H5, H6, H7. took_all.
  split; [|by split]. unfold htlc_bytes.
  cbn [ht_network nb_magic nb_genesis ht_value ht_hashlock ht_receiver_public_key ht_refund_public_key ht_refund_locktime].
  took_chain.
Qed.

Lemma HnsHtlc_reads d h : HnsHtlc_wf h -> reads d HnsHtlc_read (htlc_bytes h) h.
Proof.
  intros [M G V L R F T]. unfold HnsHtlc_read, htlc_bytes.
  eapply reads_bind; [by apply reads_err, read_u16_reads|]. eapply reads_nil_bind; [by apply reads_assert|].
  eapply reads_bind; [by apply reads_err, read_u32_reads|]. eapply reads_bind; [by apply reads_err, read_array_reads|].
  eapply reads_bind; [by apply reads_err, read_u64_reads|].
  do 3 (eapply reads_bind; [by apply reads_err, read_array_reads|]).
  eapply reads_last; [by apply reads_err, read_u32_reads|]. destruct h as [[] ? ? ? ? ?]. apply reads_ret.
Qed.

(** Descriptors have one spelling, of 148 bytes. *)
Lemma htlc_descriptor_codec input h :
  HnsHtlc_decode input = Ok h <-> HnsHtlc_wf h /\ HnsHtlc_encode h = Ok input.
Proof.
  unfold HnsHtlc_decode. split.
  - intros H. apply bind_Ok in H as (u & L & H). apply assert_or_Ok, Z.leb_le in L.
    apply bind_Ok in H as (q & R & H). apply bind_Ok in H as ([] & V & [= <-]).
    apply run_all_Ok in R as (d & R & F).
    apply HnsHtlc_read_inv in R as (T & W); [|apply wf_new; unfold MAX_HNS_HTLC_DESCRIPTOR_SIZE in L; unfold isize_max; lia].
    apply took_finish in T; [|done]. split; [done|]. by apply HnsHtlc_encode_Ok.
  - intros (W & E). apply HnsHtlc_encode_Ok in E as (V & ->); [|done].
    assert (len (htlc_bytes h) = 148) as L by (destruct W; unfold htlc_bytes; slen; lia). rewrite L.
    change (148 <=? MAX_HNS_HTLC_DESCRIPTOR_SIZE) with true. cbn [assert_or mbind result_bind].
    rewrite (run_all_reads SwDecode HnsHtlc_read (htlc_bytes h) h).
    + cbn [mbind result_bind]. by rewrite V.
    + rewrite L. unfold isize_max. lia.
    + by apply HnsHtlc_reads.
Qed.
End codec.

(** ** Example: the receiver redeems with the preimage *)
Definition secret : list byte := replicate 32 x2a.
Definition contract : HnsHtlc :=
  mkHtlc (mkBinding 1 (zeros 32)) 7000 (toy_digest 32 secret) (key_of 5) (key_of 6) 500.
Definition contract_coin : Coin :=
  mkCoin (mkOutpoint (zeros 32) 1) 7000 10 false (mkAddress x00 (toy_digest 32 (htlc_script contract)))
    Covenant_default.
Definition redeem_input : Input :=
  mkInput (mkOutpoint (zeros 32) 1) u32_max (mkWitness [sig_of 5; secret; [x01]; htlc_script contract]).
Definition redemption : Transaction := mkTransaction 0 [redeem_input] [] 0.

Lemma htlc_spend_iff_witness :
  @HnsHtlc_verify_spend toy_crypto toy_digests toy_k256 contract redemption 0 contract_coin = Ok (Redeem secret).
Proof.
  apply (@htlc_spend_iff toy_crypto toy_digests toy_k256 contract redemption 0 contract_coin redeem_input (Redeem secret)).
  - split; vm_compute; first [reflexivity|split; discriminate].
  - lia.
  - reflexivity.
  - vm_compute. reflexivity.
  - intros stack script E _. change (wit_items _) with ([sig_of 5; secret; [x01]] ++ [htlc_script contract]) in E.
    by apply app_inj_tail in E as (_ & <-).
  - split; [reflexivity|]. exists (sig_of 5). split; [reflexivity|]. split; [reflexivity|]. split; [reflexivity|].
    split; [reflexivity|]. vm_compute. reflexivity.
Defined.
