(* ===== verification/Listing.v ===== *)
(** * hns-swap: fixed-price listings and their cancellations

    Models [crates/hns-swap/src/listing.rs]: the signed publication envelope around
    a swap proof, the signed tombstone that cancels one listing, their codecs with
    the content hash at the end, and the checks of both. *)

From S2P Require Import Prelude Encoding Primitives Covenants NameState Transaction Script K256 Swap SwapCodec SwapOffer.
Local Open Scope Z_scope.

Definition FIXED_PRICE_LISTING_VERSION : Z := 1.
Definition LISTING_CANCELLATION_VERSION : Z := 1.
Definition MARKETPLACE_SIGNATURE_SIZE : Z := 64.
Definition MAX_FIXED_PRICE_LISTING_SIZE : Z := 8 * 1024.
Definition MAX_LISTING_CANCELLATION_SIZE : Z := 512.
Definition LISTING_SIGNATURE_DOMAIN : list byte := bstr "hns-rs/hns-swap/fixed-price-listing/v1/signature".
Definition LISTING_HASH_DOMAIN : list byte := bstr "hns-rs/hns-swap/fixed-price-listing/v1/hash".
Definition CANCELLATION_SIGNATURE_DOMAIN : list byte :=
  bstr "hns-rs/hns-swap/listing-cancellation/v1/signature".
Definition CANCELLATION_HASH_DOMAIN : list byte := bstr "hns-rs/hns-swap/listing-cancellation/v1/hash".

Record FixedPriceListing := mkListing {
  fl_proof : SwapProof;
  fl_created_at : Z;
  fl_expires_at : Z;
  fl_sequence : Z;
  fl_signature : option (list byte);
}.

Record ListingCancellation := mkCancellation {
  lc_network : NetworkBinding;
  lc_listing_hash : list byte;
  lc_seller_public_key : list byte;
  lc_created_at : Z;
  lc_expires_at : Z;
  lc_sequence : Z;
  lc_signature : option (list byte);
}.

(** The presence byte and the signature behind it. *)
Definition put_presence (encoded : list byte) (signature : option (list byte)) : list byte :=
  match signature with
  | Some signature => encoded ++ [x01] ++ signature
  | None => encoded ++ [x00]
  end.

Definition decode_marketplace_signature (field : string) : decM SwapError (option (list byte)) :=
  read_optional field (lift_err SwDecode (read_array MARKETPLACE_SIGNATURE_SIZE)).

Section listing.
Context {CR : Crypto} {KC : K256}.

Definition domain_hash (domain encoded : list byte) : list byte := swap_blake2b_256 (domain ++ encoded).

Definition validate_marketplace_signature (encoded : list byte) : result SwapError (list byte) :=
  assert_or (compact_ok encoded) InvalidSignature ;;
  assert_or (negb (is_high encoded)) HighMarketplaceSignature ;;
  Ok encoded.

(** [if let Some(signature) = &self.signature { validate_marketplace_signature(signature)?; }] *)
Definition check_optional_signature (signature : option (list byte)) : result SwapError unit :=
  match signature with
  | Some signature => _ ← validate_marketplace_signature signature; Ok tt
  | None => Ok tt
  end.

(** ** Listings *)
Definition FixedPriceListing_validate (l : FixedPriceListing) : result SwapError unit :=
  SwapProof_validate (fl_proof l) ;;
  _ ← ok_or (sp_signature (fl_proof l)) UnsignedListingProof;
  assert_or (negb (fl_sequence l =? 0)) ZeroListingSequence ;;
  assert_or (negb (fl_expires_at l <=? fl_created_at l)) InvalidListingLifetime ;;
  check_optional_signature (fl_signature l).

Definition FixedPriceListing_network (l : FixedPriceListing) : NetworkBinding := sp_network (fl_proof l).
Definition FixedPriceListing_name_hash (l : FixedPriceListing) : result SwapError (list byte) :=
  map_err SwCovenant (hash_name (sp_name (fl_proof l))).
Definition FixedPriceListing_lock_script_identifier (l : FixedPriceListing) : list byte :=
  lock_script_hash (sp_seller_public_key (fl_proof l)).
Definition FixedPriceListing_offer_id (l : FixedPriceListing) : result SwapError (list byte) :=
  SwapProof_offer_id (fl_proof l).
Definition FixedPriceListing_seller_public_key (l : FixedPriceListing) : list byte :=
  sp_seller_public_key (fl_proof l).

Definition FixedPriceListing_signing_bytes (l : FixedPriceListing) : result SwapError (list byte) :=
  FixedPriceListing_validate l ;;
  proof ← SwapProof_encode (fl_proof l);
  let encoder := with_capacity (saturating_add usize_max 26 (len proof)) in
  let encoder := put_u16_le encoder FIXED_PRICE_LISTING_VERSION in
  let encoder := put_u64_le encoder (fl_created_at l) in
  let encoder := put_u64_le encoder (fl_expires_at l) in
  let encoder := put_u64_le encoder (fl_sequence l) in
  Ok (into_bytes (put_varbytes encoder proof)).

Definition FixedPriceListing_encoding_without_hash (l : FixedPriceListing) : result SwapError (list byte) :=
  encoded ← FixedPriceListing_signing_bytes l;
  Ok (put_presence encoded (fl_signature l)).

Definition FixedPriceListing_verify (l : FixedPriceListing) : result SwapError unit :=
  FixedPriceListing_validate l ;;
  encoded_signature ← ok_or (fl_signature l) UnsignedListing;
  signature ← validate_marketplace_signature encoded_signature;
  bytes ← FixedPriceListing_signing_bytes l;
  let digest := domain_hash LISTING_SIGNATURE_DOMAIN bytes in
  assert_or (sec1_key_ok (sp_seller_public_key (fl_proof l))) InvalidPublicKey ;;
  assert_or (verify_prehash (sp_seller_public_key (fl_proof l)) digest signature) InvalidSignature.

Definition FixedPriceListing_is_active_at (l : FixedPriceListing) (now : Z) : result SwapError bool :=
  FixedPriceListing_verify l ;;
  Ok ((fl_created_at l <=? now) && (now <? fl_expires_at l)).

Definition listing_signed (l : FixedPriceListing) (signature : option (list byte)) : FixedPriceListing :=
  mkListing (fl_proof l) (fl_created_at l) (fl_expires_at l) (fl_sequence l) signature.

Definition FixedPriceListing_sign (l : FixedPriceListing) (signing_key : SigningKey)
  : result SwapError unit * FixedPriceListing :=
  if bool_decide (verifying_key signing_key = sp_seller_public_key (fl_proof l)) then
    let l := listing_signed l None in
    match
      FixedPriceListing_validate l ;;
      bytes ← FixedPriceListing_signing_bytes l;
      ok_or (sign_prehash signing_key (domain_hash LISTING_SIGNATURE_DOMAIN bytes)) SignatureFailure
    with
    | Err e => (Err e, l)
    | Ok signature =>
      let l := listing_signed l (Some (low_s signature)) in (FixedPriceListing_verify l, l)
    end
  else (Err SigningKeyMismatch, l).

Definition FixedPriceListing_verify_for_network (l : FixedPriceListing)
    (expected_network : NetworkBinding) (now : Z) (locking_coin : Coin) : result SwapError unit :=
  assert_or (bool_decide (FixedPriceListing_network l = expected_network)) NetworkMismatch ;;
  assert_or (negb (now <? fl_created_at l)) ListingNotYetActive ;;
  assert_or (negb (fl_expires_at l <=? now)) ListingExpired ;;
  FixedPriceListing_verify l ;;
  SwapProof_verify_for_network (fl_proof l) expected_network locking_coin.

Definition FixedPriceListing_listing_hash (l : FixedPriceListing) : result SwapError (list byte) :=
  FixedPriceListing_verify l ;;
  bytes ← FixedPriceListing_encoding_without_hash l;
  Ok (domain_hash LISTING_HASH_DOMAIN bytes).

Definition FixedPriceListing_encode (l : FixedPriceListing) : result SwapError (list byte) :=
  FixedPriceListing_verify l ;;
  encoded ← FixedPriceListing_encoding_without_hash l;
  let encoded := encoded ++ domain_hash LISTING_HASH_DOMAIN encoded in
  assert_or (len encoded <=? MAX_FIXED_PRICE_LISTING_SIZE) (ListingTooLarge (len encoded)) ;;
  Ok encoded.

(** The fields and the claimed hash. *)
Definition FixedPriceListing_read : decM SwapError (FixedPriceListing * list byte) :=
  version ← lift_err SwDecode read_u16_le;
  lift_res (assert_or (version =? FIXED_PRICE_LISTING_VERSION) (UnsupportedListingVersion version)) ;;
  created_at ← lift_err SwDecode read_u64_le;
  expires_at ← lift_err SwDecode read_u64_le;
  sequence ← lift_err SwDecode read_u64_le;
  proof_bytes ← lift_err SwDecode (read_varbytes MAX_SWAP_PROOF_SIZE "swap proof");
  proof ← lift_res (SwapProof_decode proof_bytes);
  signature ← decode_marketplace_signature "listing signature";
  claimed_hash ← lift_err SwDecode (read_array 32);
  mret (mkListing proof created_at expires_at sequence signature, claimed_hash).

Definition FixedPriceListing_decode (input : list byte) : result SwapError FixedPriceListing :=
  assert_or (len input <=? MAX_FIXED_PRICE_LISTING_SIZE) (ListingTooLarge (len input)) ;;
  '(listing, claimed_hash) ← run_all SwDecode FixedPriceListing_read input;
  FixedPriceListing_validate listing ;;
  bytes ← FixedPriceListing_encoding_without_hash listing;
  assert_or (bool_decide (claimed_hash = domain_hash LISTING_HASH_DOMAIN bytes)) ListingHashMismatch ;;
  FixedPriceListing_verify listing ;;
  Ok listing.

(** ** Cancellations *)
Definition ListingCancellation_validate (c : ListingCancellation) : result SwapError unit :=
  assert_or (sec1_key_ok (lc_seller_public_key c)) InvalidPublicKey ;;
  assert_or (negb (lc_sequence c =? 0)) ZeroCancellationSequence ;;
  assert_or (negb (lc_expires_at c <=? lc_created_at c)) InvalidCancellationLifetime ;;
  check_optional_signature (lc_signature c).

Definition ListingCancellation_for_listing (listing : FixedPriceListing)
    (created_at expires_at sequence : Z) : result SwapError ListingCancellation :=
  FixedPriceListing_verify listing ;;
  listing_hash ← FixedPriceListing_listing_hash listing;
  let cancellation := mkCancellation (FixedPriceListing_network listing) listing_hash
    (FixedPriceListing_seller_public_key listing) created_at expires_at sequence None in
  ListingCancellation_validate cancellation ;;
  assert_or (negb (sequence <=? fl_sequence listing)) CancellationSequenceNotNewer ;;
  assert_or (negb (created_at <? fl_created_at listing)) CancellationListingMismatch ;;
  assert_or (negb (expires_at <? fl_expires_at listing)) CancellationExpiresTooEarly ;;
  Ok cancellation.

Definition ListingCancellation_signing_bytes (c : ListingCancellation) : result SwapError (list byte) :=
  ListingCancellation_validate c ;;
  let encoder := put_u16_le (with_capacity 127) LISTING_CANCELLATION_VERSION in
  let encoder := put_u32_le encoder (nb_magic (lc_network c)) in
  let encoder := put_bytes encoder (nb_genesis (lc_network c)) in
  let encoder := put_bytes encoder (lc_listing_hash c) in
  let encoder := put_bytes encoder (lc_seller_public_key c) in
  let encoder := put_u64_le encoder (lc_created_at c) in
  let encoder := put_u64_le encoder (lc_expires_at c) in
  Ok (into_bytes (put_u64_le encoder (lc_sequence c))).

Definition ListingCancellation_encoding_without_hash (c : ListingCancellation)
  : result SwapError (list byte) :=
  encoded ← ListingCancellation_signing_bytes c;
  Ok (put_presence encoded (lc_signature c)).

Definition ListingCancellation_verify (c : ListingCancellation) : result SwapError unit :=
  ListingCancellation_validate c ;;
  encoded_signature ← ok_or (lc_signature c) UnsignedCancellation;
  signature ← validate_marketplace_signature encoded_signature;
  bytes ← ListingCancellation_signing_bytes c;
  let digest := domain_hash CANCELLATION_SIGNATURE_DOMAIN bytes in
  assert_or (sec1_key_ok (lc_seller_public_key c)) InvalidPublicKey ;;
  assert_or (verify_prehash (lc_seller_public_key c) digest signature) InvalidSignature.

Definition ListingCancellation_is_active_at (c : ListingCancellation) (now : Z) : result SwapError bool :=
  ListingCancellation_verify c ;;
  Ok ((lc_created_at c <=? now) && (now <? lc_expires_at c)).

Definition cancellation_signed (c : ListingCancellation) (signature : option (list byte))
  : ListingCancellation :=
  mkCancellation (lc_network c) (lc_listing_hash c) (lc_seller_public_key c) (lc_created_at c)
    (lc_expires_at c) (lc_sequence c) signature.

Definition ListingCancellation_sign (c : ListingCancellation) (signing_key : SigningKey)
  : result SwapError unit * ListingCancellation :=
  if bool_decide (verifying_key signing_key = lc_seller_public_key c) then
    let c := cancellation_signed c None in
    match
      ListingCancellation_validate c ;;
      bytes ← ListingCancellation_signing_bytes c;
      ok_or (sign_prehash signing_key (domain_hash CANCELLATION_SIGNATURE_DOMAIN bytes)) SignatureFailure
    with
    | Err e => (Err e, c)
    | Ok signature =>
      let c := cancellation_signed c (Some (low_s signature)) in (ListingCancellation_verify c, c)
    end
  else (Err SigningKeyMismatch, c).

Definition ListingCancellation_verify_for_listing (c : ListingCancellation) (listing : FixedPriceListing)
    (expected_network : NetworkBinding) (now : Z) : result SwapError unit :=
  assert_or (negb (negb (bool_decide (lc_network c = expected_network)) ||
                   negb (bool_decide (FixedPriceListing_network listing = expected_network)))) NetworkMismatch ;;
  assert_or (negb (now <? lc_created_at c)) CancellationNotYetActive ;;
  assert_or (negb (lc_expires_at c <=? now)) CancellationExpired ;;
  ListingCancellation_verify c ;;
  FixedPriceListing_verify listing ;;
  listing_hash ← FixedPriceListing_listing_hash listing;
  assert_or (negb (negb (bool_decide (lc_listing_hash c = listing_hash)) ||
                   negb (bool_decide (lc_seller_public_key c = FixedPriceListing_seller_public_key listing)) ||
                   (lc_created_at c <? fl_created_at listing))) CancellationListingMismatch ;;
  assert_or (negb (lc_sequence c <=? fl_sequence listing)) CancellationSequenceNotNewer ;;
  assert_or (negb (lc_expires_at c <? fl_expires_at listing)) CancellationExpiresTooEarly.

Definition ListingCancellation_cancellation_hash (c : ListingCancellation) : result SwapError (list byte) :=
  ListingCancellation_verify c ;;
  bytes ← ListingCancellation_encoding_without_hash c;
  Ok (domain_hash CANCELLATION_HASH_DOMAIN bytes).

Definition ListingCancellation_encode (c : ListingCancellation) : result SwapError (list byte) :=
  ListingCancellation_verify c ;;
  encoded ← ListingCancellation_encoding_without_hash c;
  let encoded := encoded ++ domain_hash CANCELLATION_HASH_DOMAIN encoded in
  assert_or (len encoded <=? MAX_LISTING_CANCELLATION_SIZE) (CancellationTooLarge (len encoded)) ;;
  Ok encoded.

Definition ListingCancellation_read : decM SwapError (ListingCancellation * list byte) :=
  version ← lift_err SwDecode read_u16_le;
  lift_res (assert_or (version =? LISTING_CANCELLATION_VERSION) (UnsupportedCancellationVersion version)) ;;
  magic ← lift_err SwDecode read_u32_le;
  genesis ← lift_err SwDecode (read_array 32);
  listing_hash ← lift_err SwDecode (read_array 32);
  seller_public_key ← lift_err SwDecode (read_array 33);
  created_at ← lift_err SwDecode read_u64_le;
  expires_at ← lift_err SwDecode read_u64_le;
  sequence ← lift_err SwDecode read_u64_le;
  signature ← decode_marketplace_signature "cancellation signature";
  claimed_hash ← lift_err SwDecode (read_array 32);
  mret (mkCancellation (mkBinding magic genesis) listing_hash seller_public_key created_at expires_at
    sequence signature, claimed_hash).

Definition ListingCancellation_decode (input : list byte) : result SwapError ListingCancellation :=
  assert_or (len input <=? MAX_LISTING_CANCELLATION_SIZE) (CancellationTooLarge (len input)) ;;
  '(cancellation, claimed_hash) ← run_all SwDecode ListingCancellation_read input;
  ListingCancellation_validate cancellation ;;
  bytes ← ListingCancellation_encoding_without_hash cancellation;
  assert_or (bool_decide (claimed_hash = domain_hash CANCELLATION_HASH_DOMAIN bytes)) CancellationHashMismatch ;;
  ListingCancellation_verify cancellation ;;
  Ok cancellation.

(** ** The listing codec *)
Definition listing_bytes (l : FixedPriceListing) : list byte :=
  to_le_bytes 2 FIXED_PRICE_LISTING_VERSION ++ to_le_bytes 8 (fl_created_at l) ++
  to_le_bytes 8 (fl_expires_at l) ++ to_le_bytes 8 (fl_sequence l) ++ var_bytes (proof_bytes (fl_proof l)) ++
  optional_bytes id (fl_signature l).

Record FixedPriceListing_wf (l : FixedPriceListing) : Prop := {
  lw_proof : SwapProof_wf (fl_proof l);
  lw_created : u64 (fl_created_at l);
  lw_expires : u64 (fl_expires_at l);
  lw_sequence : u64 (fl_sequence l);
  lw_signature : match fl_signature l with Some s => len s = 64 | None => True end;
}.

Lemma put_presence_bytes encoded signature : put_presence encoded signature = encoded ++ optional_bytes id signature.
Proof. by destruct signature. Qed.

Lemma listing_unhashed_Ok l bs :
  FixedPriceListing_encoding_without_hash l = Ok bs <->
  FixedPriceListing_validate l = Ok tt /\ SwapProof_encode (fl_proof l) = Ok (proof_bytes (fl_proof l)) /\
  bs = listing_bytes l.
Proof.
  unfold FixedPriceListing_encoding_without_hash, FixedPriceListing_signing_bytes. split.
  - intros H. apply bind_Ok in H as (e & H & [= <-]). apply bind_Ok in H as ([] & V & H).
    apply bind_Ok in H as (pb & E & [= <-]). pose proof E as E'. apply SwapProof_encode_Ok in E' as (_ & -> & _).
    split; [done|]. split; [done|]. rewrite put_presence_bytes. unfold into_bytes, listing_bytes.
    autorewrite with enc. unfold var_bytes. by rewrite <- !app_assoc.
  - intros (V & E & ->). rewrite V. cbn [mbind result_bind]. rewrite E. cbn [mbind result_bind].
    rewrite put_presence_bytes. unfold into_bytes, listing_bytes. autorewrite with enc. unfold var_bytes. by rewrite <- !app_assoc.
Qed.

Lemma listing_encode_Ok l bs :
  FixedPriceListing_encode l = Ok bs <->
  FixedPriceListing_verify l = Ok tt /\ bs = listing_bytes l ++ domain_hash LISTING_HASH_DOMAIN (listing_bytes l) /\
  len bs <= MAX_FIXED_PRICE_LISTING_SIZE.
Proof.
  unfold FixedPriceListing_encode. split.
  - intros H. apply bind_Ok in H as ([] & V & H). apply bind_Ok in H as (e & E & H).
    apply listing_unhashed_Ok in E as (_ & _ & ->). cbv zeta in H. apply bind_Ok in H as (u & L & [= <-]).
    by apply assert_or_Ok, Z.leb_le in L.
  - intros (V & -> & L). rewrite V. cbn [mbind result_bind].
    assert (FixedPriceListing_encoding_without_hash l = Ok (listing_bytes l)) as ->.
    { pose proof V as V'. unfold FixedPriceListing_verify in V'. apply bind_Ok in V' as (u & Vl & V').
      apply bind_Ok in V' as (s & _ & V'). apply bind_Ok in V' as (s' & _ & V'). apply bind_Ok in V' as (b & Sb & _).
      destruct (FixedPriceListing_encoding_without_hash l) as [bs|e] eqn:E.
      - f_equal. by apply listing_unhashed_Ok in E as (_ & _ & ->).
      - unfold FixedPriceListing_encoding_without_hash in E. by rewrite Sb in E. }
    cbn [mbind result_bind]. cbv zeta. by rewrite (proj2 (Z.leb_le _ _) L).
Qed.

Lemma listing_read_inv d l h d' :
  dec_wf d -> FixedPriceListing_read d = (Ok (l, h), d') ->
  took d (listing_bytes l ++ h) d' /\ FixedPriceListing_wf l /\ len h = 32.
Proof.
  intros W H. unfold FixedPriceListing_read, decode_marketplace_signature in H.
  apply dec_bind_Ok in H as (v & d0 & H0 & H). apply dec_bind_Ok in H as (u & d0' & Hv & H).
  apply dec_bind_Ok in H as (created & d1 & H1 & H). apply dec_bind_Ok in H as (expires & d2 & H2 & H).
  apply dec_bind_Ok in H as (sequence & d3 & H3 & H). apply dec_bind_Ok in H as (pb & d4 & H4 & H).
  apply dec_bind_Ok in H as (proof & d5 & H5 & H). apply dec_bind_Ok in H as (sig & d6 & H6 & H).
  apply dec_bind_Ok in H as (hash & d7 & H7 & H). apply dec_ret_Ok in H as ([= <- <-] & ->).
  apply lift_res_Ok in Hv as (Hv & ->). apply assert_or_Ok, Z.eqb_eq in Hv. subst v.
  apply lift_res_Ok in H5 as (H5 & ->). apply SwapProof_decode_Ok in H5 as (Wp & H5).
  apply SwapProof_encode_Ok in H5 as (_ & -> & _). apply lift_err_Ok in H0, H1, H2, H3, H4, H7. took_all.
  apply (read_presence_inv _ _ id (fun s => len s = 64)) in H6 as (H6 & S6); [|intros x a x' Wx Hx|done].
  2: { apply lift_err_Ok in Hx. by apply read_array_inv in Hx. }
  took_all. split; [|by split; [split|]]. unfold listing_bytes.
  cbn [fl_proof fl_created_at fl_expires_at fl_sequence fl_signature]. rewrite <- !app_assoc. took_chain.
Qed.

Lemma listing_reads d l h :
  FixedPriceListing_wf l -> SwapProof_encode (fl_proof l) = Ok (proof_bytes (fl_proof l)) -> len h = 32 ->
  reads d FixedPriceListing_read (listing_bytes l ++ h) (l, h).
Proof.
  intros [Wp C X S G] E L. pose proof E as E'. apply SwapProof_encode_Ok in E' as (_ & _ & Lp).
  unfold FixedPriceListing_read, listing_bytes, decode_marketplace_signature. rewrite <- !app_assoc.
  eapply reads_bind; [by apply reads_err, read_u16_reads|]. eapply reads_nil_bind; [by apply reads_assert|].
  do 3 (eapply reads_bind; [by apply reads_err, read_u64_reads|]).
  eapply reads_bind; [apply reads_err, read_varbytes_reads; [done|unfold MAX_SWAP_PROOF_SIZE in Lp; ulia]|].
  eapply reads_nil_bind; [by apply reads_res, SwapProof_decode_Ok|].
  eapply reads_bind; [apply (read_presence_reads _ _ _ (fun s => len s = 64)); [intros x a La; by apply reads_err, read_array_reads|done]|].
  eapply reads_last; [by apply reads_err, read_array_reads|]. destruct l. apply reads_ret.
Qed.

Lemma verify_validates l : FixedPriceListing_verify l = Ok tt ->
  FixedPriceListing_validate l = Ok tt /\ FixedPriceListing_encoding_without_hash l = Ok (listing_bytes l).
Proof.
  intros V. unfold FixedPriceListing_verify in V. apply bind_Ok in V as ([] & Vl & V). split; [done|].
  apply bind_Ok in V as (s & _ & V). apply bind_Ok in V as (s' & _ & V). apply bind_Ok in V as (b & Sb & _).
  unfold FixedPriceListing_signing_bytes in Sb. rewrite Vl in Sb. cbn [mbind result_bind] in Sb.
  apply bind_Ok in Sb as (pb & E & _). apply listing_unhashed_Ok. split; [done|]. split; [|done].
  pose proof E as E'. by apply SwapProof_encode_Ok in E' as (_ & <- & _).
Qed.

(** Listings have one spelling. *)
Lemma listing_decode_Ok input l :
  FixedPriceListing_decode input = Ok l <-> FixedPriceListing_wf l /\ FixedPriceListing_encode l = Ok input.
Proof.
  rewrite listing_encode_Ok. unfold FixedPriceListing_decode. split.
  - intros H. apply bind_Ok in H as (u & L & H). apply assert_or_Ok, Z.leb_le in L.
    apply bind_Ok in H as ([q h] & R & H). apply bind_Ok in H as (u1 & Vl & H). apply bind_Ok in H as (bs & E & H).
    apply bind_Ok in H as (u2 & Eh & H). apply bind_Ok in H as ([] & V & [= <-]).
    apply assert_or_Ok, bool_decide_eq_true in Eh. apply listing_unhashed_Ok in E as (_ & _ & ->).
    apply run_all_Ok in R as (d & R & F).
    apply listing_read_inv in R as (T & W & _); [|apply wf_new; unfold MAX_FIXED_PRICE_LISTING_SIZE in L; unfold isize_max; lia].
    apply took_finish in T; [|done]. subst h. done.
  - intros (W & V & -> & L). rewrite (proj2 (Z.leb_le _ _) L). cbn [assert_or mbind result_bind].
    destruct (verify_validates l V) as (Vl & E). pose proof E as E'. apply listing_unhashed_Ok in E' as (_ & Ep & _).
    rewrite (run_all_reads SwDecode FixedPriceListing_read _ (l, domain_hash LISTING_HASH_DOMAIN (listing_bytes l))).
    + cbn [mbind result_bind]. rewrite Vl. cbn [mbind result_bind]. rewrite E. cbn [mbind result_bind].
      rewrite bool_decide_eqb_refl. cbn [assert_or mbind result_bind]. by rewrite V.
    + unfold MAX_FIXED_PRICE_LISTING_SIZE in L. unfold isize_max. lia.
    + apply listing_reads; [done|done|]. apply (len_length _ 32), blake2b_length.
Qed.

(** ** Cancelling a listing *)
Lemma check_signature_Ok (KL : K256Laws KC) sk d s :
  sign_prehash sk d = Some s -> validate_marketplace_signature (low_s s) = Ok (low_s s).
Proof.
  intros S. destruct (low_s_ok KL _ _ _ S) as (_ & C & H & _). unfold validate_marketplace_signature.
  by rewrite C, H.
Qed.

Lemma cancellation_validate_signed c sig :
  ListingCancellation_validate (cancellation_signed c None) = Ok tt ->
  validate_marketplace_signature sig = Ok sig ->
  ListingCancellation_validate (cancellation_signed c (Some sig)) = Ok tt.
Proof.
  unfold ListingCancellation_validate. cbn [cancellation_signed lc_seller_public_key lc_sequence lc_expires_at
    lc_created_at lc_signature check_optional_signature]. intros H S.
  apply bind_Ok in H as (u1 & H1 & H). apply bind_Ok in H as (u2 & H2 & H). apply bind_Ok in H as (u3 & H3 & _).
  rewrite H1, H2, H3. cbn [mbind result_bind]. by rewrite S.
Qed.

Lemma cancellation_signing_same c sig bytes :
  ListingCancellation_validate (cancellation_signed c (Some sig)) = Ok tt ->
  ListingCancellation_signing_bytes c = Ok bytes ->
  ListingCancellation_signing_bytes (cancellation_signed c (Some sig)) = Ok bytes.
Proof.
  unfold ListingCancellation_signing_bytes. intros V B. apply bind_Ok in B as (u & _ & B). rewrite V. exact B.
Qed.

(** What [verify_for_listing] asks for. *)
Lemma verify_for_listing_Ok c l network now :
  ListingCancellation_verify_for_listing c l network now = Ok tt <->
  lc_network c = network /\ FixedPriceListing_network l = network /\
  lc_created_at c <= now < lc_expires_at c /\ ListingCancellation_verify c = Ok tt /\
  FixedPriceListing_verify l = Ok tt /\
  lc_listing_hash c = domain_hash LISTING_HASH_DOMAIN (listing_bytes l) /\
  lc_seller_public_key c = FixedPriceListing_seller_public_key l /\ fl_created_at l <= lc_created_at c /\
  fl_sequence l < lc_sequence c /\ fl_expires_at l <= lc_expires_at c.
Proof.
  unfold ListingCancellation_verify_for_listing, FixedPriceListing_listing_hash. split.
  - intros H. apply bind_Ok in H as (u1 & H1 & H). apply bind_Ok in H as (u2 & H2 & H).
    apply bind_Ok in H as (u3 & H3 & H). apply bind_Ok in H as ([] & H4 & H). apply bind_Ok in H as ([] & H5 & H).
    apply bind_Ok in H as (h & H6 & H). apply bind_Ok in H as (u7 & H7 & H). apply bind_Ok in H as (u8 & H8 & H).
    apply assert_or_Ok in H1, H2, H3, H7, H8, H. rewrite H5 in H6. cbn [mbind result_bind] in H6.
    rewrite (proj2 (verify_validates l H5)) in H6. injection H6 as <-.
    rewrite !negb_true_iff, ?orb_false_iff, ?negb_false_iff, ?bool_decide_eq_true, ?Z.ltb_ge, ?Z.leb_gt in *.
    destruct H7 as ((? & ?) & ?). rewrite ?Z.ltb_ge in *. destruct H1. split_and!; (done || lia).
  - intros (N1 & N2 & T & V & L & Eh & Ek & C & S & E).
    rewrite (bool_decide_eq_true_2 _ N1), (bool_decide_eq_true_2 _ N2), (proj2 (Z.ltb_ge now _)),
      (proj2 (Z.leb_gt _ now)) by lia.
    cbn [negb orb assert_or mbind result_bind]. rewrite V, L. cbn [mbind result_bind].
    rewrite (proj2 (verify_validates l L)). cbn [mbind result_bind].
    rewrite (bool_decide_eq_true_2 _ Eh), (bool_decide_eq_true_2 _ Ek), (proj2 (Z.ltb_ge (lc_created_at c) _)) by lia.
    cbn [negb orb assert_or mbind result_bind]. rewrite (proj2 (Z.leb_gt _ (fl_sequence l))) by lia.
    cbn [negb assert_or mbind result_bind]. by rewrite (proj2 (Z.ltb_ge (lc_expires_at c) _)) by lia.
Qed.

(** A seller can always withdraw a listing: a cancellation prepared for a
    verified listing and signed with the seller's key verifies against that
    listing at every moment of its own lifetime, and its lifetime covers the rest
    of the listing's, so no board can serve the listing as active while refusing
    the cancellation as expired. *)
Theorem cancellation_effective (KL : K256Laws KC) l created expires sequence c sk bytes s
    (F : ListingCancellation_for_listing l created expires sequence = Ok c)
    (K : verifying_key sk = FixedPriceListing_seller_public_key l)
    (B : ListingCancellation_signing_bytes c = Ok bytes)
    (S : sign_prehash sk (domain_hash CANCELLATION_SIGNATURE_DOMAIN bytes) = Some s) :
  let signed := cancellation_signed c (Some (low_s s)) in
  ListingCancellation_sign c sk = (Ok tt, signed) /\
  (forall now, created <= now < expires ->
     ListingCancellation_verify_for_listing signed l (FixedPriceListing_network l) now = Ok tt) /\
  (forall now, created <= now < fl_expires_at l -> now < expires).
Proof.
  intros signed. unfold ListingCancellation_for_listing in F. apply bind_Ok in F as ([] & V & F).
  apply bind_Ok in F as (h & Hh & F). apply bind_Ok in F as ([] & Vc & F). apply bind_Ok in F as (u1 & Q1 & F).
  apply bind_Ok in F as (u2 & Q2 & F). apply bind_Ok in F as (u3 & Q3 & [= <-]).
  apply assert_or_Ok, negb_true_iff in Q1, Q2, Q3. apply Z.leb_gt in Q1. apply Z.ltb_ge in Q2, Q3.
  destruct (low_s_ok KL _ _ _ S) as (_ & Co & Hi & Vf). pose proof (check_signature_Ok KL _ _ _ S) as Cs.
  pose proof (cancellation_validate_signed _ _ Vc Cs) as Vs.
  assert (ListingCancellation_verify signed = Ok tt) as Ve.
  { unfold ListingCancellation_verify. fold signed in Vs. rewrite Vs. unfold signed.
    cbn [mbind result_bind cancellation_signed lc_signature ok_or]. rewrite Cs. cbn [mbind result_bind].
    rewrite (cancellation_signing_same _ _ _ Vs B). cbn [mbind result_bind].
    change (lc_seller_public_key _) with (FixedPriceListing_seller_public_key l). rewrite <- K, verifying_key_ok. cbn [assert_or mbind result_bind]. by rewrite Vf. }
  split; [|split; [|lia]].
  - unfold ListingCancellation_sign. cbn [lc_seller_public_key]. rewrite (bool_decide_eq_true_2 _ K).
    change (cancellation_signed (mkCancellation ?a ?b ?c ?d ?e ?f None) None) with (mkCancellation a b c d e f None).
    rewrite Vc. cbn [mbind result_bind]. rewrite B. cbn [mbind result_bind]. rewrite S. cbn [ok_or]. fold signed.
    by rewrite Ve.
  - intros now T. apply verify_for_listing_Ok. unfold FixedPriceListing_listing_hash in Hh. rewrite V in Hh.
    cbn [mbind result_bind] in Hh. rewrite (proj2 (verify_validates l V)) in Hh. injection Hh as <-.
    cbn [signed cancellation_signed lc_network lc_created_at lc_expires_at lc_listing_hash lc_seller_public_key lc_sequence].
    split_and!; (done || lia).
Qed.

(** A verified listing fits its limit. *)
Lemma listing_size l :
  FixedPriceListing_wf l -> FixedPriceListing_verify l = Ok tt ->
  len (listing_bytes l) <= MAX_FIXED_PRICE_LISTING_SIZE - 32.
Proof.
  intros [_ _ _ _ G] V. destruct (verify_validates l V) as (_ & E). apply listing_unhashed_Ok in E as (_ & E & _).
  apply SwapProof_encode_Ok in E as (_ & _ & L). unfold listing_bytes. slen.
  pose proof (compact_size_len_range (len (proof_bytes (fl_proof l)))).
  unfold MAX_SWAP_PROOF_SIZE in L. unfold MAX_FIXED_PRICE_LISTING_SIZE.
  assert (len (optional_bytes id (fl_signature l)) <= 65); [|lia].
  destruct (fl_signature l); unfold optional_bytes, id; slen; lia.
Qed.

(** A cancellation withdraws one listing only: if one cancellation is accepted
    for two well-typed listings then they are the same listing, unless their
    contents collide under the digest. *)
Theorem cancellation_unique c l l' network network' now now'
    (W : FixedPriceListing_wf l) (W' : FixedPriceListing_wf l')
    (A : ListingCancellation_verify_for_listing c l network now = Ok tt)
    (A' : ListingCancellation_verify_for_listing c l' network' now' = Ok tt)
    (C : collision_free [LISTING_HASH_DOMAIN ++ listing_bytes l; LISTING_HASH_DOMAIN ++ listing_bytes l']) :
  l = l'.
Proof.
  apply verify_for_listing_Ok in A as (_ & _ & _ & _ & V & E & _), A' as (_ & _ & _ & _ & V' & E' & _).
  assert (listing_bytes l = listing_bytes l') as Eb.
  { rewrite E in E'. unfold domain_hash, swap_blake2b_256 in E'. apply C in E'; [|set_solver..].
    by apply app_inv_head in E'. }
  pose proof (listing_size l W V) as L. set (hb := domain_hash LISTING_HASH_DOMAIN (listing_bytes l)).
  assert (len hb = 32) as Lh by apply (len_length _ 32), blake2b_length.
  assert (FixedPriceListing_decode (listing_bytes l ++ hb) = Ok l) as D.
  { apply listing_decode_Ok. split; [done|]. apply listing_encode_Ok. split; [done|]. split; [done|].
    rewrite len_app, Lh. lia. }
  assert (FixedPriceListing_decode (listing_bytes l ++ hb) = Ok l') as D'; [|congruence].
  apply listing_decode_Ok. split; [done|]. apply listing_encode_Ok. split; [done|]. unfold hb. rewrite Eb.
  split; [done|]. rewrite Eb in L. rewrite len_app. fold hb. unfold hb in Lh. rewrite Eb in Lh. rewrite Lh. lia.
Qed.
End listing.

(** ** Example: a listing of the example offer, withdrawn at time 150 *)
Definition posted : FixedPriceListing := mkListing offer_signed 100 200 1 (Some (x05 :: zeros 63)).
Definition withdrawal : ListingCancellation :=
  match @ListingCancellation_for_listing toy_crypto toy_k256 posted 150 300 2 with
  | Ok c => c | Err _ => mkCancellation (mkBinding 0 []) [] [] 0 0 0 None end.
Definition withdrawal_signed : ListingCancellation := cancellation_signed withdrawal (Some (x05 :: zeros 63)).

Lemma cancellation_effective_witness :
  @ListingCancellation_sign toy_crypto toy_k256 withdrawal x05 = (Ok tt, withdrawal_signed).
Proof.
  assert (exists bytes, @ListingCancellation_signing_bytes toy_k256 withdrawal = Ok bytes) as (bytes & B)
    by (eexists; vm_compute; reflexivity).
  refine (proj1 (@cancellation_effective toy_crypto toy_k256 toy_k256_laws posted 150 300 2 withdrawal x05 bytes
    (x05 :: zeros 63) _ eq_refl B eq_refl)). vm_compute. reflexivity.
Defined.

Lemma cancellation_unique_witness : posted = mkListing offer_signed 100 200 1 (Some (x05 :: zeros 63)).
Proof.
  assert (FixedPriceListing_wf posted) as W.
  { split; [split|..]; vm_compute; first [reflexivity|split; discriminate|split; [reflexivity|split; discriminate]]. }
  apply (@cancellation_unique toy_crypto toy_k256 withdrawal_signed posted posted
    (mkBinding 1 (zeros 32)) (mkBinding 1 (zeros 32)) 160 170 W W).
  - vm_compute. reflexivity.
  - vm_compute. reflexivity.
  - apply collision_freeb_spec. vm_compute. reflexivity.
Defined.
