(* ===== verification/Experimental.v ===== *)
(** * hns-p2p-experimental: assignments, request tracking and transport policy

    Models [crates/hns-p2p-experimental/src/assignment.rs] (service bits, packet
    types, networks and wire profiles), [request.rs] (the tracker of correlated
    requests with its replay window) and [policy.rs] (the transport policy and the
    actions of replacing it). [BTreeSet<u64>] is [gset Z]; a [while] loop that pops
    from a queue is a recursion on the queue. *)

From stdpp Require Import gmap sorting.
From S2P Require Import Prelude.
Local Open Scope Z_scope.

(** ** assignment.rs *)
Definition HNSR_RENDEZVOUS_SERVICE : Z := 0x04000000.
Definition HNSR_RELAY_SERVICE : Z := 0x08000000.
Definition SHAKESCAPE_EXTENSION_SERVICE : Z := 0x10000000.
Definition ODOH_SERVICE : Z := 0x20000000.
Definition DNS_RELAY_SERVICE : Z := 0x40000000.
Definition RESERVED_EXPERIMENTAL_SERVICE : Z := 0x80000000.
Definition DNS_RELAY_REQUEST_PACKET : Z := 0xf0.
Definition DNS_RELAY_RESPONSE_PACKET : Z := 0xf1.
Definition ODOH_PACKET : Z := 0xf2.
Definition HNSR_PACKET : Z := 0xf3.
Definition SHAKESCAPE_EXTENSION_PACKET : Z := 0xf4.

(** [u64::count_ones]. *)
Fixpoint count_ones_positive (p : positive) : Z :=
  match p with
  | xH => 1
  | xO p => count_ones_positive p
  | xI p => 1 + count_ones_positive p
  end.
Definition count_ones (v : Z) : Z := match v with Zpos p => count_ones_positive p | _ => 0 end.

Definition ServiceBit_is_single_bit (v : Z) : bool := negb (v =? 0) && (count_ones v =? 1).

Definition ServiceMask_contains (mask service : Z) : bool := Z.land mask service =? service.
Definition ServiceMask_with (mask service : Z) : Z := Z.lor mask service.
(** [self.0 & !service.0] on 64 bits. *)
Definition ServiceMask_without (mask service : Z) : Z := Z.land mask (u64_max - service).

Inductive ExperimentalNetwork := XMainnet | XTestnet | XRegtest | XSimnet.
#[global] Instance ExperimentalNetwork_eq_dec : EqDecision ExperimentalNetwork.
Proof. solve_decision. Defined.

(** [network as u8]. *)
Definition ExperimentalNetwork_value (n : ExperimentalNetwork) : Z :=
  match n with XMainnet => 0 | XTestnet => 1 | XRegtest => 2 | XSimnet => 3 end.

Inductive AssignmentError :=
| LegacyProfileProhibited (network : ExperimentalNetwork)
| UnknownOfficialProfile (version : Z)
| UnknownNetworkIdentifier (value : Z).

Definition ExperimentalNetwork_try_from (value : Z) : result AssignmentError ExperimentalNetwork :=
  match value with
  | 0 => Ok XMainnet
  | 1 => Ok XTestnet
  | 2 => Ok XRegtest
  | 3 => Ok XSimnet
  | _ => Err (UnknownNetworkIdentifier value)
  end.

Inductive ExperimentalWireProfile :=
| ShakescapeV1
| LegacyDraftRegtest
| Official (version : Z)
| AutoProfile.
#[global] Instance ExperimentalWireProfile_eq_dec : EqDecision ExperimentalWireProfile.
Proof. solve_decision. Defined.

Definition validate_for_network (profile : ExperimentalWireProfile) (network : ExperimentalNetwork)
    (controlled_network : bool) : result AssignmentError unit :=
  match profile with
  | LegacyDraftRegtest =>
    if negb (bool_decide (network = XRegtest)) && negb controlled_network
    then Err (LegacyProfileProhibited network) else Ok tt
  | Official version => Err (UnknownOfficialProfile version)
  | ShakescapeV1 | AutoProfile => Ok tt
  end.

Record WireAssignments := mkAssignments {
  wa_dns_relay_service : Z;
  wa_dns_relay_request : Z;
  wa_dns_relay_response : Z;
  wa_odoh_service : Z;
  wa_odoh_packet : Z;
  wa_hnsr_rendezvous_service : Z;
  wa_hnsr_relay_service : Z;
  wa_hnsr_packet : Z;
  wa_shakescape_extension_service : Z;
  wa_shakescape_extension_packet : Z;
}.

Definition SHAKESCAPE_V1 : WireAssignments := {|
  wa_dns_relay_service := DNS_RELAY_SERVICE;
  wa_dns_relay_request := DNS_RELAY_REQUEST_PACKET;
  wa_dns_relay_response := DNS_RELAY_RESPONSE_PACKET;
  wa_odoh_service := ODOH_SERVICE;
  wa_odoh_packet := ODOH_PACKET;
  wa_hnsr_rendezvous_service := HNSR_RENDEZVOUS_SERVICE;
  wa_hnsr_relay_service := HNSR_RELAY_SERVICE;
  wa_hnsr_packet := HNSR_PACKET;
  wa_shakescape_extension_service := SHAKESCAPE_EXTENSION_SERVICE;
  wa_shakescape_extension_packet := SHAKESCAPE_EXTENSION_PACKET;
|}.

Definition WireAssignments_for_profile (profile : ExperimentalWireProfile) (network : ExperimentalNetwork)
    (controlled_network : bool) : result AssignmentError WireAssignments :=
  validate_for_network profile network controlled_network ;;
  match profile with
  | ShakescapeV1 | LegacyDraftRegtest | AutoProfile => Ok SHAKESCAPE_V1
  | Official version => Err (UnknownOfficialProfile version)
  end.

(** ** request.rs *)
Inductive RequestTrackerError :=
| ZeroCapacity
| TrackerZeroRequestId
| StaleGeneration (expected actual : Z)
| DuplicateRequestId (request_id : Z)
| CapacityExceeded (maximum : Z)
| UnknownRequestId (request_id : Z)
| NonIncreasingGeneration (previous next : Z).

Record RequestTracker := mkTracker {
  rt_generation : Z;
  rt_maximum_live : Z;
  rt_live : gset Z;
  rt_completed_order : list Z;
  rt_completed : gset Z;
}.

Definition RequestTracker_new (generation maximum_live : Z) : result RequestTrackerError RequestTracker :=
  if maximum_live =? 0 then Err ZeroCapacity
  else Ok (mkTracker generation maximum_live ∅ [] ∅).

(** The methods take [&mut self]: the tracker after the call comes back with the result. *)
Definition RequestTracker_admit (t : RequestTracker) (request_id generation : Z)
  : result RequestTrackerError unit * RequestTracker :=
  if request_id =? 0 then (Err TrackerZeroRequestId, t)
  else if negb (generation =? rt_generation t) then
    (Err (StaleGeneration (rt_generation t) generation), t)
  else if bool_decide (request_id ∈ rt_live t) || bool_decide (request_id ∈ rt_completed t) then
    (Err (DuplicateRequestId request_id), t)
  else if rt_maximum_live t <=? Z.of_nat (size (rt_live t)) then
    (Err (CapacityExceeded (rt_maximum_live t)), t)
  else (Ok tt, mkTracker (rt_generation t) (rt_maximum_live t) ({[request_id]} ∪ rt_live t)
                 (rt_completed_order t) (rt_completed t)).

(** [while self.completed_order.len() > self.maximum_live { pop_front; remove }] *)
Fixpoint expire (maximum_live : Z) (order : list Z) (completed : gset Z) : list Z * gset Z :=
  match order with
  | [] => ([], completed)
  | expired :: later =>
    if maximum_live <? len order then expire maximum_live later (completed ∖ {[expired]})
    else (order, completed)
  end.

Definition RequestTracker_complete (t : RequestTracker) (request_id : Z)
  : result RequestTrackerError unit * RequestTracker :=
  if bool_decide (request_id ∈ rt_live t) then
    let '(order, completed) := expire (rt_maximum_live t) (rt_completed_order t ++ [request_id])
                                 ({[request_id]} ∪ rt_completed t) in
    (Ok tt, mkTracker (rt_generation t) (rt_maximum_live t) (rt_live t ∖ {[request_id]}) order completed)
  else (Err (UnknownRequestId request_id), t).

Definition revoke_and_advance (t : RequestTracker) (generation : Z)
  : result RequestTrackerError unit * RequestTracker :=
  if generation <=? rt_generation t then (Err (NonIncreasingGeneration (rt_generation t) generation), t)
  else (Ok tt, mkTracker generation (rt_maximum_live t) ∅ [] ∅).

Definition live_count (t : RequestTracker) : Z := Z.of_nat (size (rt_live t)).

(** ** policy.rs *)
Inductive DnsRelayRequesterPolicy := RequesterAuto | RequesterDisabled | RequesterRequired.
Inductive ObliviousDnsPolicy := OdohRequired | OdohPreferred | DirectRelayAllowed | OdohDisabled.
#[global] Instance DnsRelayRequesterPolicy_eq_dec : EqDecision DnsRelayRequesterPolicy.
Proof. solve_decision. Defined.
#[global] Instance ObliviousDnsPolicy_eq_dec : EqDecision ObliviousDnsPolicy.
Proof. solve_decision. Defined.

Record HnsrPolicy := mkHnsrPolicy {
  has_client : bool;
  has_endpoint : bool;
  has_relay : bool;
  has_rendezvous : bool;
}.
#[global] Instance HnsrPolicy_eq_dec : EqDecision HnsrPolicy.
Proof. solve_decision. Defined.

Definition HnsrPolicy_disabled : HnsrPolicy := mkHnsrPolicy false false false false.
Definition with_client (p : HnsrPolicy) (enabled : bool) : HnsrPolicy :=
  mkHnsrPolicy enabled (has_endpoint p) (has_relay p) (has_rendezvous p).
Definition with_endpoint (p : HnsrPolicy) (enabled : bool) : HnsrPolicy :=
  mkHnsrPolicy (has_client p) enabled (has_relay p) (has_rendezvous p).
Definition with_relay (p : HnsrPolicy) (enabled : bool) : HnsrPolicy :=
  mkHnsrPolicy (has_client p) (has_endpoint p) enabled (has_rendezvous p).
Definition with_rendezvous (p : HnsrPolicy) (enabled : bool) : HnsrPolicy :=
  mkHnsrPolicy (has_client p) (has_endpoint p) (has_relay p) enabled.
Definition relay_default : HnsrPolicy := with_relay HnsrPolicy_disabled true.
Definition client_relay_default : HnsrPolicy := with_client relay_default true.

(** [DnsRelayOutputPolicy] is its one flag. *)
Record OutputRoles := mkOutputRoles { or_dns_relay : bool; or_odoh_target : bool }.
#[global] Instance OutputRoles_eq_dec : EqDecision OutputRoles.
Proof. solve_decision. Defined.

Record TransportPolicy := mkPolicy {
  tp_dns_relay_requester : DnsRelayRequesterPolicy;
  tp_oblivious_dns : ObliviousDnsPolicy;
  tp_allow_direct_relay_fallback : bool;
  tp_hnsr : HnsrPolicy;
  (** [opaque_relays.odoh_proxy], the only field of [OpaqueRelayRoles] *)
  tp_odoh_proxy : bool;
  tp_outputs : OutputRoles;
  tp_wire_profile : ExperimentalWireProfile;
}.
#[global] Instance TransportPolicy_eq_dec : EqDecision TransportPolicy.
Proof. solve_decision. Defined.

Definition TransportPolicy_default : TransportPolicy :=
  mkPolicy RequesterAuto OdohPreferred true client_relay_default true (mkOutputRoles false false) AutoProfile.

(** [ProviderRoles] and [with_legacy_provider_roles], which splits it. *)
Record ProviderRoles := mkProviderRoles { pr_dns_relay : bool; pr_odoh_proxy : bool; pr_odoh_target : bool }.
Definition ProviderRoles_split (r : ProviderRoles) : bool * OutputRoles :=
  (pr_odoh_proxy r, mkOutputRoles (if pr_dns_relay r then true else false) (pr_odoh_target r)).
Definition with_legacy_provider_roles (p : TransportPolicy) (roles : ProviderRoles) : TransportPolicy :=
  let '(opaque_relays, outputs) := ProviderRoles_split roles in
  mkPolicy (tp_dns_relay_requester p) (tp_oblivious_dns p) (tp_allow_direct_relay_fallback p) (tp_hnsr p)
    opaque_relays outputs (tp_wire_profile p).

Inductive PolicyAction :=
| StopAdmittingDnsRelayRequests
| CancelDnsRelayRequests
| StopAdmittingOdohRequests
| CancelOdohRequests
| WithdrawDnsRelayAdvertisement
| WithdrawOdohProxyAdvertisement
| WithdrawOdohTargetAdvertisement
| RevokeOdohTargetConfigurations
| WithdrawHnsrRoutes
| CloseHnsrCircuits
| ClearRequesterSelections
| DrainOpaqueRelayWork
| DrainOutputWork
| DrainProviderWork
| RefreshStructuredStatus
| RenegotiateAffectedPeers.
#[global] Instance PolicyAction_eq_dec : EqDecision PolicyAction.
Proof. solve_decision. Defined.

(** [*action as u8]. *)
Definition PolicyAction_value (a : PolicyAction) : Z :=
  match a with
  | StopAdmittingDnsRelayRequests => 0 | CancelDnsRelayRequests => 1
  | StopAdmittingOdohRequests => 2 | CancelOdohRequests => 3
  | WithdrawDnsRelayAdvertisement => 4 | WithdrawOdohProxyAdvertisement => 5
  | WithdrawOdohTargetAdvertisement => 6 | RevokeOdohTargetConfigurations => 7
  | WithdrawHnsrRoutes => 8 | CloseHnsrCircuits => 9 | ClearRequesterSelections => 10
  | DrainOpaqueRelayWork => 11 | DrainOutputWork => 12 | DrainProviderWork => 13
  | RefreshStructuredStatus => 14 | RenegotiateAffectedPeers => 15
  end.

Definition action_le (a b : PolicyAction) : Prop := PolicyAction_value a <= PolicyAction_value b.
#[global] Instance action_le_dec a b : Decision (action_le a b).
Proof. unfold action_le. apply _. Defined.

(** [Vec::dedup]: consecutive repeats are dropped. *)
Fixpoint vec_dedup {A} `{!EqDecision A} (l : list A) : list A :=
  match l with
  | [] => []
  | x :: tl =>
    match tl with
    | y :: _ => if bool_decide (x = y) then vec_dedup tl else x :: vec_dedup tl
    | [] => [x]
    end
  end.

Record PolicyTransition := mkPolicyTransition {
  pt_previous_generation : Z;
  pt_generation : Z;
  pt_previous : TransportPolicy;
  pt_current : TransportPolicy;
  pt_actions : list PolicyAction;
}.

Record PolicyController := mkController { pc_policy : TransportPolicy; pc_generation : Z }.
Definition PolicyController_default : PolicyController := mkController TransportPolicy_default 1.

(** The pushes of [replace], in order; [when b l] is [if b { push l }]. *)
Definition when {A} (b : bool) (l : list A) : list A := if b then l else [].

Definition replace_actions (previous next : TransportPolicy) : list PolicyAction :=
  when (bool_decide (tp_dns_relay_requester next = RequesterDisabled))
    [StopAdmittingDnsRelayRequests; CancelDnsRelayRequests] ++
  when (bool_decide (tp_oblivious_dns next = OdohDisabled)) [StopAdmittingOdohRequests; CancelOdohRequests] ++
  when (or_dns_relay (tp_outputs previous) && negb (or_dns_relay (tp_outputs next)))
    [WithdrawDnsRelayAdvertisement; DrainOutputWork] ++
  when (tp_odoh_proxy previous && negb (tp_odoh_proxy next))
    [WithdrawOdohProxyAdvertisement; DrainOpaqueRelayWork] ++
  when (or_odoh_target (tp_outputs previous) && negb (or_odoh_target (tp_outputs next)))
    [WithdrawOdohTargetAdvertisement; RevokeOdohTargetConfigurations; DrainOutputWork] ++
  when (negb (bool_decide (tp_hnsr previous = tp_hnsr next)))
    ([WithdrawHnsrRoutes; CloseHnsrCircuits] ++
     when (has_relay (tp_hnsr previous) && negb (has_relay (tp_hnsr next))) [DrainOpaqueRelayWork] ++
     when (has_endpoint (tp_hnsr previous) && negb (has_endpoint (tp_hnsr next))) [DrainOutputWork]) ++
  [ClearRequesterSelections; RefreshStructuredStatus] ++
  when (negb (bool_decide (tp_odoh_proxy previous = tp_odoh_proxy next)) ||
        negb (bool_decide (tp_outputs previous = tp_outputs next)) ||
        negb (bool_decide (has_relay (tp_hnsr previous) = has_relay (tp_hnsr next))) ||
        negb (bool_decide (has_rendezvous (tp_hnsr previous) = has_rendezvous (tp_hnsr next))) ||
        negb (bool_decide (tp_wire_profile previous = tp_wire_profile next)))
    [RenegotiateAffectedPeers].

Definition PolicyController_replace (c : PolicyController) (next : TransportPolicy)
  : option PolicyTransition * PolicyController :=
  if bool_decide (pc_policy c = next) then (None, c)
  else
    let previous := pc_policy c in
    let generation := saturating_add u64_max (pc_generation c) 1 in
    let actions := vec_dedup (merge_sort action_le (replace_actions previous next)) in
    (Some (mkPolicyTransition (pc_generation c) generation previous next actions),
     mkController next generation).

Definition accepts_result_generation (c : PolicyController) (generation : Z) : bool :=
  generation =? pc_generation c.

(** ** The request tracker as a log

    What the tracker promises: in a generation it remembers which requests are
    outstanding and which were the last [maximum_live] to complete. The log keeps
    every completion of the generation, newest first, and looks at a window of it. *)
Record TrackerLog := mkLog { lg_generation : Z; lg_outstanding : gset Z; lg_done : list Z }.

Inductive TrackerOp := OpAdmit (request_id generation : Z) | OpComplete (request_id : Z) | OpRevoke (generation : Z).

Definition log_step (maximum : Z) (l : TrackerLog) (op : TrackerOp)
  : result RequestTrackerError unit * TrackerLog :=
  match op with
  | OpAdmit id generation =>
    if id =? 0 then (Err TrackerZeroRequestId, l)
    else if negb (generation =? lg_generation l) then (Err (StaleGeneration (lg_generation l) generation), l)
    else if bool_decide (id ∈ lg_outstanding l \/ id ∈ take (Z.to_nat maximum) (lg_done l)) then
      (Err (DuplicateRequestId id), l)
    else if maximum <=? Z.of_nat (size (lg_outstanding l)) then (Err (CapacityExceeded maximum), l)
    else (Ok tt, mkLog (lg_generation l) ({[id]} ∪ lg_outstanding l) (lg_done l))
  | OpComplete id =>
    if bool_decide (id ∈ lg_outstanding l)
    then (Ok tt, mkLog (lg_generation l) (lg_outstanding l ∖ {[id]}) (id :: lg_done l))
    else (Err (UnknownRequestId id), l)
  | OpRevoke generation =>
    if generation <=? lg_generation l then (Err (NonIncreasingGeneration (lg_generation l) generation), l)
    else (Ok tt, mkLog generation ∅ [])
  end.

Definition tracker_step (t : RequestTracker) (op : TrackerOp) : result RequestTrackerError unit * RequestTracker :=
  match op with
  | OpAdmit id generation => RequestTracker_admit t id generation
  | OpComplete id => RequestTracker_complete t id
  | OpRevoke generation => revoke_and_advance t generation
  end.

(** The results of a sequence of steps and the state it ends in. *)
Fixpoint run_steps {S O R} (step : S -> O -> R * S) (s : S) (ops : list O) : list R * S :=
  match ops with
  | [] => ([], s)
  | op :: ops =>
    let '(r, s) := step s op in
    let '(rs, s) := run_steps step s ops in (r :: rs, s)
  end.

Lemma run_steps_app {S O R} (step : S -> O -> R * S) s xs ys :
  run_steps step s (xs ++ ys) =
  let '(rs, s1) := run_steps step s xs in let '(rs', s2) := run_steps step s1 ys in (rs ++ rs', s2).
Proof.
  revert s. induction xs as [|x xs IH]; intros s; cbn [run_steps app].
  - by destruct (run_steps step s ys).
  - destruct (step s x) as [r s']. rewrite IH. destruct (run_steps step s' xs) as [rs s1].
    by destruct (run_steps step s1 ys).
Qed.

Lemma run_steps_invariant {S O R} (step : S -> O -> R * S) (I : S -> Prop) s ops :
  (forall s op, I s -> I (step s op).2) -> I s -> I (run_steps step s ops).2.
Proof.
  intros P. revert s. induction ops as [|op ops IH]; intros s Is; [done|]. cbn [run_steps].
  pose proof (P s op Is) as Ps. destruct (step s op) as [r s']. specialize (IH s' Ps).
  by destruct (run_steps step s' ops).
Qed.

(** Two machines that agree step by step produce the same results. *)
Lemma run_steps_simulation {S S' O R} (step : S -> O -> R * S) (step' : S' -> O -> R * S')
    (Rel : S -> S' -> Prop) s s' ops :
  (forall s s' op, Rel s s' -> (step s op).1 = (step' s' op).1 /\ Rel (step s op).2 (step' s' op).2) ->
  Rel s s' ->
  (run_steps step s ops).1 = (run_steps step' s' ops).1 /\
  Rel (run_steps step s ops).2 (run_steps step' s' ops).2.
Proof.
  intros P. revert s s'. induction ops as [|op ops IH]; intros s s' Rs; [done|]. cbn [run_steps].
  destruct (P s s' op Rs) as [E Rn]. destruct (step s op) as [r s1], (step' s' op) as [r' s1'].
  cbn [fst snd] in *. destruct (IH _ _ Rn) as [E' Rn'].
  destruct (run_steps step s1 ops), (run_steps step' s1' ops). cbn [fst snd] in *. by subst.
Qed.

(** The replay window of the tracker is the window of the log. *)
Record tracks (maximum : Z) (t : RequestTracker) (l : TrackerLog) : Prop := mkTracks {
  tr_generation : rt_generation t = lg_generation l;
  tr_maximum : rt_maximum_live t = maximum;
  tr_live : rt_live t = lg_outstanding l;
  tr_order : rt_completed_order t = reverse (take (Z.to_nat maximum) (lg_done l));
  tr_completed : rt_completed t = list_to_set (rt_completed_order t);
  tr_nodup : NoDup (rt_completed_order t);
  tr_disjoint : forall id, id ∈ rt_live t -> id ∉ rt_completed_order t;
  tr_bound : Z.of_nat (size (rt_live t)) <= maximum;
}.

Lemma expire_drop maximum order completed :
  0 <= maximum -> NoDup order -> completed = list_to_set order ->
  expire maximum order completed =
  (drop (length order - Z.to_nat maximum) order, list_to_set (drop (length order - Z.to_nat maximum) order)).
Proof.
  intros M. revert completed. induction order as [|x order IH]; intros completed N E; subst; [done|].
  cbn [expire]. apply NoDup_cons in N as [Nx N]. destruct (maximum <? len (x :: order)) eqn:L.
  - apply Z.ltb_lt in L. unfold len in L. cbn [length] in *.
    replace (S (length order) - Z.to_nat maximum)%nat with (S (length order - Z.to_nat maximum)) by lia.
    cbn [drop]. apply IH; [done|]. set_solver.
  - apply Z.ltb_ge in L. unfold len in L. cbn [length] in *.
    by replace (S (length order) - Z.to_nat maximum)%nat with O by lia.
Qed.

Lemma window_push {A} (n : nat) (x : A) (l : list A) :
  (0 < n)%nat ->
  drop (length (reverse (take n l) ++ [x]) - n) (reverse (take n l) ++ [x]) = reverse (take n (x :: l)).
Proof.
  intros N. rewrite length_app, length_reverse, length_take. cbn [length].
  destruct n as [|n]; [lia|]. cbn [take]. rewrite reverse_cons.
  destruct (decide (length l <= n)%nat) as [L|L].
  - replace (S n `min` length l + 1 - S n)%nat with O by lia. cbn [drop].
    by rewrite !take_ge by lia.
  - replace (S n `min` length l + 1 - S n)%nat with 1%nat by lia.
    destruct (nth_lookup_or_length l n x) as [E|E]; [|lia].
    rewrite (take_S_r _ _ _ E), reverse_app. done.
Qed.

Lemma tracks_complete maximum t l id :
  0 < maximum -> tracks maximum t l -> id ∈ rt_live t ->
  tracks maximum (RequestTracker_complete t id).2
    (mkLog (lg_generation l) (lg_outstanding l ∖ {[id]}) (id :: lg_done l)).
Proof.
  intros M [Eg Em El Eo Ec N D B] I. unfold RequestTracker_complete.
  assert (NoDup (rt_completed_order t ++ [id])) as N'.
  { apply NoDup_app. split_and!; [done| |apply NoDup_singleton].
    intros y Hy Hi. apply list_elem_of_singleton in Hi as ->. by apply (D id). }
  rewrite (bool_decide_eq_true_2 _ I), Em, (expire_drop maximum); [|lia|done|rewrite Ec; set_solver].
  pose proof (window_push (Z.to_nat maximum) id (lg_done l) ltac:(lia)) as Ew. rewrite <- Eo in Ew.
  set (o := drop _ (rt_completed_order t ++ [id])) in *.
  assert (forall y, y ∈ o -> y ∈ rt_completed_order t ++ [id]) as Sub.
  { intros y Hy. unfold o in Hy. by apply (subseteq_drop _ _ y) in Hy. }
  split; cbn [snd rt_generation rt_maximum_live rt_live rt_completed_order rt_completed
              lg_generation lg_outstanding lg_done]; [done|done|by rewrite El|done|done| | |].
  - unfold o. rewrite <- (take_drop (length (rt_completed_order t ++ [id]) - Z.to_nat maximum)
      (rt_completed_order t ++ [id])) in N'. by apply NoDup_app in N' as (_ & _ & ?).
  - intros y Hy Ho. apply Sub, elem_of_app in Ho as [Ho|Ho].
    + apply (D y); [set_solver|done].
    + set_solver.
  - rewrite size_difference by set_solver. lia.
Qed.

Lemma tracks_step maximum t l op :
  0 < maximum -> tracks maximum t l ->
  (tracker_step t op).1 = (log_step maximum l op).1 /\
  tracks maximum (tracker_step t op).2 (log_step maximum l op).2.
Proof.
  intros M T. pose proof T as [Eg Em El Eo Ec N D B]. destruct op as [id g|id|g]; cbn [tracker_step log_step].
  - unfold RequestTracker_admit. rewrite Eg, Em, El, Ec, Eo.
    destruct (id =? 0); [done|]. destruct (negb (g =? lg_generation l)); [done|].
    rewrite (bool_decide_ext (id ∈ list_to_set (C := gset Z) (reverse (take (Z.to_nat maximum) (lg_done l))))
      (id ∈ take (Z.to_nat maximum) (lg_done l))) by (rewrite elem_of_list_to_set; apply elem_of_reverse).
    rewrite <- bool_decide_or. case_bool_decide as Dup; [done|].
    destruct (maximum <=? Z.of_nat (size (lg_outstanding l))) eqn:L; [done|]. apply Z.leb_gt in L.
    split; [done|]. split; cbn; [done|done|done|done|by rewrite <- Eo|by rewrite <- Eo| |].
    + intros y Hy Ho. rewrite elem_of_reverse in Ho. apply elem_of_union in Hy as [Hy|Hy].
      * apply elem_of_singleton in Hy as ->. apply Dup. right. exact Ho.
      * apply (D y); [by rewrite El|]. by rewrite Eo, elem_of_reverse.
    + rewrite size_union_alt. rewrite difference_disjoint by set_solver. pose proof (size_singleton (C := gset Z) id). lia.
  - case_bool_decide as I.
    + split; [|by apply tracks_complete; rewrite ?El]. unfold RequestTracker_complete.
      rewrite El, (bool_decide_eq_true_2 _ I). by destruct (expire _ _ _).
    + unfold RequestTracker_complete. by rewrite El, (bool_decide_eq_false_2 _ I).
  - unfold revoke_and_advance. rewrite Eg. destruct (g <=? lg_generation l); [done|]. split; [done|].
    split; cbn; [done|done|done|by rewrite take_nil|done|constructor|set_solver|rewrite size_empty; lia].
Qed.

(** C22. The request tracker implements the log: along every sequence of admissions,
    completions and generation changes it answers each call exactly as the log
    that remembers every completion would, so an identifier is refused as a
    duplicate precisely while it is outstanding or among the last [maximum_live]
    completions of the generation; never more than [maximum_live] requests are
    live, and the replay window never outgrows that bound. *)
Theorem request_tracker_refines generation maximum t ops (M : 0 <= maximum)
    (H : RequestTracker_new generation maximum = Ok t) :
  let '(results, t') := run_steps tracker_step t ops in
  let '(expected, l) := run_steps (log_step maximum) (mkLog generation ∅ []) ops in
  results = expected /\ rt_live t' = lg_outstanding l /\ rt_generation t' = lg_generation l /\
  live_count t' <= maximum /\
  rt_completed_order t' = reverse (take (Z.to_nat maximum) (lg_done l)) /\
  rt_completed t' = list_to_set (rt_completed_order t').
Proof.
  unfold RequestTracker_new in H. destruct (maximum =? 0) eqn:Z0; [done|]. apply Z.eqb_neq in Z0.
  injection H as <-.
  assert (tracks maximum (mkTracker generation maximum ∅ [] ∅) (mkLog generation ∅ [])) as T0.
  { split; cbn; [done|done|done|by rewrite take_nil|done|constructor|set_solver|rewrite size_empty; lia]. }
  destruct (run_steps_simulation tracker_step (log_step maximum) (tracks maximum) _ _ ops
    (fun s s' op R => tracks_step maximum s s' op ltac:(lia) R) T0) as [E T].
  destruct (run_steps tracker_step _ ops) as [rs t'], (run_steps (log_step maximum) _ ops) as [rs' l].
  cbn [fst snd] in *. destruct T as [Eg Em El Eo Ec N D B]. by unfold live_count.
Qed.

Lemma request_tracker_refines_witness :
  exists t, RequestTracker_new 7 2 = Ok t /\
  (run_steps tracker_step t [OpAdmit 1 7; OpAdmit 1 7; OpComplete 1; OpAdmit 1 7; OpAdmit 2 6]).1 =
  [Ok tt; Err (DuplicateRequestId 1); Ok tt; Err (DuplicateRequestId 1); Err (StaleGeneration 7 6)].
Proof.
  eexists. split; [reflexivity|].
  pose proof (request_tracker_refines 7 2 _ [OpAdmit 1 7; OpAdmit 1 7; OpComplete 1; OpAdmit 1 7; OpAdmit 2 6]
    ltac:(lia) eq_refl) as H.
  destruct (run_steps tracker_step _ _) as [rs t'] eqn:E.
  destruct (run_steps (log_step 2) _ _) as [rs' l] eqn:E'. destruct H as [-> _]. cbn [fst].
  vm_compute in E'. injection E' as <- _. reflexivity.
Defined.

(** ** What replacing a policy must do

    [dropped r p n]: the role [r] was on under [p] and is off under [n]. *)
Definition dropped (role : TransportPolicy -> bool) (previous next : TransportPolicy) : Prop :=
  role previous = true /\ role next = false.

Definition dns_output (p : TransportPolicy) : bool := or_dns_relay (tp_outputs p).
Definition odoh_target (p : TransportPolicy) : bool := or_odoh_target (tp_outputs p).
Definition hnsr_relay (p : TransportPolicy) : bool := has_relay (tp_hnsr p).
Definition hnsr_endpoint (p : TransportPolicy) : bool := has_endpoint (tp_hnsr p).

(** What a peer is told about a node: every role but the HNSR client and endpoint,
    and the wire profile. *)
Definition advertised (p : TransportPolicy) :=
  (tp_odoh_proxy p, dns_output p, odoh_target p, hnsr_relay p, has_rendezvous (tp_hnsr p), tp_wire_profile p).

Definition action_due (previous next : TransportPolicy) (a : PolicyAction) : Prop :=
  match a with
  | StopAdmittingDnsRelayRequests | CancelDnsRelayRequests => tp_dns_relay_requester next = RequesterDisabled
  | StopAdmittingOdohRequests | CancelOdohRequests => tp_oblivious_dns next = OdohDisabled
  | WithdrawDnsRelayAdvertisement => dropped dns_output previous next
  | WithdrawOdohProxyAdvertisement => dropped tp_odoh_proxy previous next
  | WithdrawOdohTargetAdvertisement | RevokeOdohTargetConfigurations => dropped odoh_target previous next
  | WithdrawHnsrRoutes | CloseHnsrCircuits => tp_hnsr previous <> tp_hnsr next
  | DrainOpaqueRelayWork => dropped tp_odoh_proxy previous next \/ dropped hnsr_relay previous next
  | DrainOutputWork =>
    dropped dns_output previous next \/ dropped odoh_target previous next \/ dropped hnsr_endpoint previous next
  | ClearRequesterSelections | RefreshStructuredStatus => True
  | DrainProviderWork => False
  | RenegotiateAffectedPeers => advertised previous <> advertised next
  end.

#[global] Instance action_le_trans : Transitive action_le.
Proof. intros a b c. unfold action_le. lia. Qed.
#[global] Instance action_le_total : Total action_le.
Proof. intros a b. unfold action_le. lia. Qed.
#[global] Instance action_le_antisym : AntiSymm (=) action_le.
Proof. intros [] []; unfold action_le; cbn; intros; (done || lia). Qed.

Lemma elem_of_when {A} (b : bool) (l : list A) x : x ∈ when b l <-> b = true /\ x ∈ l.
Proof. destruct b; set_solver. Qed.

Lemma elem_of_vec_dedup {A} `{!EqDecision A} (l : list A) x : x ∈ vec_dedup l <-> x ∈ l.
Proof.
  induction l as [|y l IH]; [done|]. cbn [vec_dedup]. destruct l as [|z l]; [done|].
  case_bool_decide; subst; set_solver.
Qed.

(** Deduplicating a sorted list leaves a strictly increasing one. *)
Lemma vec_dedup_strict {A} `{!EqDecision A} (R : relation A) `{!AntiSymm (=) R} (l : list A) :
  StronglySorted R l -> StronglySorted (fun a b => R a b /\ a <> b) (vec_dedup l).
Proof.
  induction 1 as [|x l S IH F]; [constructor|]. cbn [vec_dedup]. destruct l as [|y l]; [by repeat constructor|].
  case_bool_decide as E; [done|]. constructor; [done|]. apply Forall_forall. intros z Hz.
  rewrite elem_of_vec_dedup in Hz. rewrite Forall_forall in F. split; [by apply F|]. intros ->.
  apply elem_of_cons in Hz as [->|Hz]; [done|]. apply E. apply (anti_symm R); [apply F; set_solver|].
  inversion S as [|? ? _ F']; subst. rewrite Forall_forall in F'. by apply F'.
Qed.

Lemma and_negb (a b : bool) : a && negb b = true <-> a = true /\ b = false.
Proof. destruct a, b; naive_solver. Qed.

Lemma advertised_differs p n :
  advertised p <> advertised n <->
  negb (bool_decide (tp_odoh_proxy p = tp_odoh_proxy n)) || negb (bool_decide (tp_outputs p = tp_outputs n)) ||
  negb (bool_decide (has_relay (tp_hnsr p) = has_relay (tp_hnsr n))) ||
  negb (bool_decide (has_rendezvous (tp_hnsr p) = has_rendezvous (tp_hnsr n))) ||
  negb (bool_decide (tp_wire_profile p = tp_wire_profile n)) = true.
Proof.
  unfold advertised, dns_output, odoh_target, hnsr_relay.
  rewrite !orb_true_iff, !negb_true_iff, !bool_decide_eq_false. split.
  - intros N. destruct (decide (tp_odoh_proxy p = tp_odoh_proxy n)), (decide (tp_outputs p = tp_outputs n)),
      (decide (has_relay (tp_hnsr p) = has_relay (tp_hnsr n))),
      (decide (has_rendezvous (tp_hnsr p) = has_rendezvous (tp_hnsr n))),
      (decide (tp_wire_profile p = tp_wire_profile n)); try tauto. exfalso. apply N. congruence.
  - intros H [= E1 E2 E3 E4 E5 E6]. assert (tp_outputs p = tp_outputs n); [|tauto].
    destruct (tp_outputs p), (tp_outputs n). cbn in *. by subst.
Qed.

Lemma replace_actions_due p n a : a ∈ replace_actions p n <-> action_due p n a.
Proof.
  unfold replace_actions. rewrite !elem_of_app, !elem_of_when, !elem_of_app, !elem_of_when, <- advertised_differs,
    !and_negb, negb_true_iff, !bool_decide_eq_true, bool_decide_eq_false.
  assert (dropped hnsr_relay p n -> tp_hnsr p <> tp_hnsr n) as Hr.
  { unfold dropped, hnsr_relay. intros [A B] E. rewrite E in A. congruence. }
  assert (dropped hnsr_endpoint p n -> tp_hnsr p <> tp_hnsr n) as He.
  { unfold dropped, hnsr_endpoint. intros [A B] E. rewrite E in A. congruence. }
  unfold dropped, hnsr_relay, hnsr_endpoint, dns_output, odoh_target in *.
  destruct a; cbn [action_due]; rewrite ?elem_of_cons, ?elem_of_nil;
    unfold dropped, hnsr_relay, hnsr_endpoint, dns_output, odoh_target; intuition congruence.
Qed.

(** Replacing the policy performs exactly the actions that are due, each once and in
    the order of the enumeration: every role switched off is withdrawn and its work
    drained, a disabled requester is stopped and its requests cancelled, HNSR changes
    close the circuits, and peers are renegotiated with exactly when what they were
    told changes. The generation moves on, so results of the old policy are refused,
    until it saturates; an equal policy changes nothing. *)
Theorem policy_replace_exact c next :
  match PolicyController_replace c next with
  | (None, c') => next = pc_policy c /\ c' = c
  | (Some tr, c') =>
    next <> pc_policy c /\ c' = mkController next (pt_generation tr) /\
    pt_previous tr = pc_policy c /\ pt_current tr = next /\ pt_previous_generation tr = pc_generation c /\
    (forall a, a ∈ pt_actions tr <-> action_due (pc_policy c) next a) /\
    StronglySorted (fun a b => PolicyAction_value a < PolicyAction_value b) (pt_actions tr) /\
    (pc_generation c < u64_max -> accepts_result_generation c' (pc_generation c) = false)
  end.
Proof.
  unfold PolicyController_replace. case_bool_decide as E; [done|].
  cbn [pt_generation pt_previous pt_current pt_previous_generation pt_actions]. split_and!; try done.
  - intros a. rewrite elem_of_vec_dedup, (merge_sort_Permutation action_le). apply replace_actions_due.
  - pose proof (vec_dedup_strict action_le _ (StronglySorted_merge_sort action_le (replace_actions (pc_policy c) next))) as S.
    revert S. generalize (vec_dedup (merge_sort action_le (replace_actions (pc_policy c) next))).
    induction l as [|x l IH]; intros S; inversion S as [|? ? S' F]; subst; constructor; [by apply IH|].
    eapply Forall_impl; [exact F|]. cbn. intros y [L N]. unfold action_le in L.
    destruct (decide (PolicyAction_value x = PolicyAction_value y)) as [Ev|]; [|lia].
    exfalso. apply N. apply (anti_symm action_le); unfold action_le; lia.
  - intros G. unfold accepts_result_generation, saturating_add. cbn. apply Z.eqb_neq. lia.
Qed.
