(* ===== verification/Negotiation.v ===== *)
(** * hns-p2p-experimental: registry negotiation

    Models [crates/hns-p2p-experimental/src/negotiation.rs]: the hello a peer sends,
    its checks and codec, and the agreement computed from two hellos. Vectors are
    lists, [BTreeSet] is [gset], [sort_unstable] is [merge_sort] under the derived
    order (equal elements are equal values, so stability does not show). *)

From stdpp Require Import gmap sorting.
From S2P Require Import Prelude Encoding Experimental.
Local Open Scope Z_scope.

Definition HELLO_MAGIC : list byte := bstr "SKRN".
Definition HELLO_FORMAT_VERSION : Z := 1.
Definition MAX_REGISTRY_VERSIONS : Z := 16.
Definition MAX_PROTOCOL_RANGES : Z := 64.
Definition SHAKESCAPE_V1_REGISTRY_VERSION : Z := 1.
Definition SHAKESCAPE_V1_REGISTRY_PROTOCOL_VERSION : Z := 1.
Definition REGISTRY_NEGOTIATION_PROTOCOL_ID : Z := 0.
Definition REGISTRY_NEGOTIATION_PROTOCOL_VERSION : Z := SHAKESCAPE_V1_REGISTRY_PROTOCOL_VERSION.
Definition REGISTRY_NEGOTIATION_MAX_PAYLOAD : Z := 16384.
Definition SHAKESCAPE_V1_REGISTRY_FINGERPRINT : list byte := octets
  [0x04; 0xfc; 0xe3; 0xf1; 0x2b; 0x71; 0x7c; 0x42; 0x54; 0xbb; 0x66; 0xac; 0x07; 0x47; 0x4a; 0x6c;
   0x9f; 0x61; 0xbd; 0x29; 0x16; 0xef; 0xc1; 0x8e; 0xbf; 0xc7; 0x9d; 0xf8; 0x2a; 0x89; 0xa6; 0x6b].

Record ProtocolRange := mkRange { pg_protocol_id : Z; pg_minimum_version : Z; pg_maximum_version : Z }.
#[global] Instance ProtocolRange_eq_dec : EqDecision ProtocolRange.
Proof. solve_decision. Defined.

(** The derived orders: lexicographic in the order of the fields. *)
Definition range_le (a b : ProtocolRange) : Prop :=
  pg_protocol_id a < pg_protocol_id b \/
  (pg_protocol_id a = pg_protocol_id b /\
   (pg_minimum_version a < pg_minimum_version b \/
    (pg_minimum_version a = pg_minimum_version b /\ pg_maximum_version a <= pg_maximum_version b))).
Definition pair_le (a b : Z * Z) : Prop := a.1 < b.1 \/ (a.1 = b.1 /\ a.2 <= b.2).
#[global] Instance range_le_dec a b : Decision (range_le a b).
Proof. unfold range_le. apply _. Defined.
#[global] Instance pair_le_dec a b : Decision (pair_le a b).
Proof. unfold pair_le. apply _. Defined.

Inductive NegotiationError :=
| NegDecode (e : DecodeError)
| HelloWrongMagic (magic : list byte)
| HelloUnknownFormatVersion (version : Z)
| RegistryVersionCount (count : Z)
| ProtocolCount (count : Z)
| DuplicateOrZeroRegistryVersion
| DuplicateProtocol
| ManagedRegistryProtocol
| MissingRegistryProtocol
| UnsupportedRegistryProtocolRange (range : ProtocolRange)
| RegistryProtocolNotNegotiated
| InvalidProtocolRange (range : ProtocolRange)
| ZeroResourceLimit
| ZeroGenesis
| HelloUnknownNetwork (value : byte)
| NegWrongFingerprint (expected actual : list byte)
| NegWrongNetwork (local remote : ExperimentalNetwork)
| NegWrongGenesis
| NoCommonRegistry.

Definition ProtocolRange_validate (r : ProtocolRange) : result NegotiationError unit :=
  assert_or (negb ((pg_minimum_version r =? 0) || (pg_maximum_version r <? pg_minimum_version r)))
    (InvalidProtocolRange r).

Record RegistryHello := mkHello {
  rh_fingerprint : list byte;
  rh_registry_versions : list Z;
  rh_protocols : list ProtocolRange;
  rh_maximum_receive_size : Z;
  rh_maximum_live_requests : Z;
  rh_network : ExperimentalNetwork;
  rh_genesis_hash : list byte;
  rh_feature_flags : Z;
}.

(** [for protocol in &self.protocols { protocol.validate()?; }] *)
Fixpoint validate_ranges (protocols : list ProtocolRange) : result NegotiationError unit :=
  match protocols with
  | [] => Ok tt
  | protocol :: protocols => ProtocolRange_validate protocol ;; validate_ranges protocols
  end.

Definition is_registry_protocol (r : ProtocolRange) : bool := pg_protocol_id r =? REGISTRY_NEGOTIATION_PROTOCOL_ID.

Definition RegistryHello_validate (h : RegistryHello) : result NegotiationError unit :=
  assert_or (negb ((len (rh_registry_versions h) =? 0) || (MAX_REGISTRY_VERSIONS <? len (rh_registry_versions h))))
    (RegistryVersionCount (len (rh_registry_versions h))) ;;
  assert_or (negb (MAX_PROTOCOL_RANGES <? len (rh_protocols h))) (ProtocolCount (len (rh_protocols h))) ;;
  assert_or (negb ((rh_maximum_receive_size h =? 0) || (rh_maximum_live_requests h =? 0))) ZeroResourceLimit ;;
  assert_or (negb (bool_decide (rh_genesis_hash h = replicate 32 x00))) ZeroGenesis ;;
  let registry_versions : gset Z := list_to_set (rh_registry_versions h) in
  assert_or (negb (negb (Z.of_nat (size registry_versions) =? len (rh_registry_versions h)) ||
                   bool_decide (0 ∈ registry_versions))) DuplicateOrZeroRegistryVersion ;;
  let protocol_ids : gset Z := list_to_set (pg_protocol_id <$> rh_protocols h) in
  assert_or (Z.of_nat (size protocol_ids) =? len (rh_protocols h)) DuplicateProtocol ;;
  validate_ranges (rh_protocols h) ;;
  registry_protocol ← ok_or (List.find is_registry_protocol (rh_protocols h)) MissingRegistryProtocol;
  assert_or (negb ((REGISTRY_NEGOTIATION_PROTOCOL_VERSION <? pg_minimum_version registry_protocol) ||
                   (pg_maximum_version registry_protocol <? REGISTRY_NEGOTIATION_PROTOCOL_VERSION)))
    (UnsupportedRegistryProtocolRange registry_protocol).

Definition RegistryHello_shakescape (fingerprint : list byte) (registry_version : Z) (network : ExperimentalNetwork)
    (genesis_hash : list byte) (protocols : list ProtocolRange)
    (maximum_receive_size maximum_live_requests feature_flags : Z) : result NegotiationError RegistryHello :=
  assert_or (negb (existsb is_registry_protocol protocols)) ManagedRegistryProtocol ;;
  let protocols := protocols ++ [mkRange REGISTRY_NEGOTIATION_PROTOCOL_ID
    REGISTRY_NEGOTIATION_PROTOCOL_VERSION REGISTRY_NEGOTIATION_PROTOCOL_VERSION] in
  let hello := mkHello fingerprint [registry_version] protocols maximum_receive_size maximum_live_requests
    network genesis_hash feature_flags in
  RegistryHello_validate hello ;;
  Ok hello.

Definition RegistryHello_shakescape_v1 := RegistryHello_shakescape SHAKESCAPE_V1_REGISTRY_FINGERPRINT
  SHAKESCAPE_V1_REGISTRY_VERSION.

Definition put_range (e : Encoder) (r : ProtocolRange) : Encoder :=
  put_u16_le (put_u16_le (put_u16_le e (pg_protocol_id r)) (pg_minimum_version r)) (pg_maximum_version r).

(** The counts fit a byte: [validate] bounds them by 16 and 64. *)
Definition RegistryHello_encode (h : RegistryHello) : result NegotiationError (list byte) :=
  RegistryHello_validate h ;;
  let versions := merge_sort Z.le (rh_registry_versions h) in
  let protocols := merge_sort range_le (rh_protocols h) in
  let e := with_capacity (86 + len versions * 2 + len protocols * 6) in
  let e := put_bytes e HELLO_MAGIC in
  let e := put_u16_le e HELLO_FORMAT_VERSION in
  let e := put_bytes e (rh_fingerprint h) in
  let e := put_u8 e (z2b (len versions)) in
  let e := foldl put_u16_le e versions in
  let e := put_u8 e (z2b (len protocols)) in
  let e := foldl put_range e protocols in
  let e := put_u32_le e (rh_maximum_receive_size h) in
  let e := put_u16_le e (rh_maximum_live_requests h) in
  let e := put_u8 e (z2b (ExperimentalNetwork_value (rh_network h))) in
  let e := put_bytes e (rh_genesis_hash h) in
  let e := put_u64_le e (rh_feature_flags h) in
  Ok (into_bytes e).

Definition read_range : decM NegotiationError ProtocolRange :=
  protocol_id ← lift_err NegDecode read_u16_le;
  minimum_version ← lift_err NegDecode read_u16_le;
  maximum_version ← lift_err NegDecode read_u16_le;
  mret (mkRange protocol_id minimum_version maximum_version).

Definition RegistryHello_read : decM NegotiationError RegistryHello :=
  magic ← lift_err NegDecode (read_array 4);
  lift_res (assert_or (bool_decide (magic = HELLO_MAGIC)) (HelloWrongMagic magic)) ;;
  format_version ← lift_err NegDecode read_u16_le;
  lift_res (assert_or (format_version =? HELLO_FORMAT_VERSION) (HelloUnknownFormatVersion format_version)) ;;
  fingerprint ← lift_err NegDecode (read_array 32);
  count ← lift_err NegDecode read_u8;
  let registry_count := b2z count in
  lift_res (assert_or (negb ((registry_count =? 0) || (MAX_REGISTRY_VERSIONS <? registry_count)))
    (RegistryVersionCount registry_count)) ;;
  registry_versions ← read_n (Z.to_nat registry_count) (lift_err NegDecode read_u16_le);
  count ← lift_err NegDecode read_u8;
  let protocol_count := b2z count in
  lift_res (assert_or (negb (MAX_PROTOCOL_RANGES <? protocol_count)) (ProtocolCount protocol_count)) ;;
  protocols ← read_n (Z.to_nat protocol_count) read_range;
  maximum_receive_size ← lift_err NegDecode read_u32_le;
  maximum_live_requests ← lift_err NegDecode read_u16_le;
  network_byte ← lift_err NegDecode read_u8;
  network ← lift_res (map_err (fun _ => HelloUnknownNetwork network_byte)
    (ExperimentalNetwork_try_from (b2z network_byte)));
  genesis_hash ← lift_err NegDecode (read_array 32);
  feature_flags ← lift_err NegDecode read_u64_le;
  mret (mkHello fingerprint registry_versions protocols maximum_receive_size maximum_live_requests network
    genesis_hash feature_flags).

Definition RegistryHello_decode (input : list byte) : result NegotiationError RegistryHello :=
  hello ← run_all NegDecode RegistryHello_read input;
  RegistryHello_validate hello ;;
  Ok hello.

(** ** The agreement *)
Record NegotiatedRegistry := mkNegotiated {
  ng_fingerprint : list byte;
  ng_registry_version : Z;
  ng_protocols : list (Z * Z);
  ng_maximum_send_size : Z;
  ng_maximum_live_requests : Z;
  ng_network : ExperimentalNetwork;
  ng_genesis_hash : list byte;
  ng_feature_flags : Z;
}.

(** [Iterator::max]. *)
Definition iter_max (l : list Z) : option Z :=
  match l with [] => None | x :: l => Some (foldl Z.max x l) end.

(** One round of the loop over the local protocols: what is pushed, if anything. *)
Definition common_protocol (remote : list ProtocolRange) (local_protocol : ProtocolRange) : option (Z * Z) :=
  match List.find (fun candidate => pg_protocol_id candidate =? pg_protocol_id local_protocol) remote with
  | Some remote_protocol =>
    let minimum := Z.max (pg_minimum_version local_protocol) (pg_minimum_version remote_protocol) in
    let maximum := Z.min (pg_maximum_version local_protocol) (pg_maximum_version remote_protocol) in
    if minimum <=? maximum then
      let version := if pg_protocol_id local_protocol =? REGISTRY_NEGOTIATION_PROTOCOL_ID
                     then REGISTRY_NEGOTIATION_PROTOCOL_VERSION else maximum in
      Some (pg_protocol_id local_protocol, version)
    else None
  | None => None
  end.

Definition NegotiatedRegistry_negotiate (local remote : RegistryHello)
  : result NegotiationError NegotiatedRegistry :=
  RegistryHello_validate local ;;
  RegistryHello_validate remote ;;
  assert_or (bool_decide (rh_fingerprint local = rh_fingerprint remote))
    (NegWrongFingerprint (rh_fingerprint local) (rh_fingerprint remote)) ;;
  assert_or (bool_decide (rh_network local = rh_network remote))
    (NegWrongNetwork (rh_network local) (rh_network remote)) ;;
  assert_or (bool_decide (rh_genesis_hash local = rh_genesis_hash remote)) NegWrongGenesis ;;
  let remote_versions : gset Z := list_to_set (rh_registry_versions remote) in
  registry_version ← ok_or (iter_max (filter (.∈ remote_versions) (rh_registry_versions local))) NoCommonRegistry;
  let protocols := merge_sort pair_le (omap (common_protocol (rh_protocols remote)) (rh_protocols local)) in
  assert_or (bool_decide ((REGISTRY_NEGOTIATION_PROTOCOL_ID, REGISTRY_NEGOTIATION_PROTOCOL_VERSION) ∈ protocols))
    RegistryProtocolNotNegotiated ;;
  Ok (mkNegotiated (rh_fingerprint local) registry_version protocols
    (Z.min (rh_maximum_receive_size local) (rh_maximum_receive_size remote))
    (Z.min (rh_maximum_live_requests local) (rh_maximum_live_requests remote))
    (rh_network local) (rh_genesis_hash local) (Z.land (rh_feature_flags local) (rh_feature_flags remote))).

Definition NegotiatedRegistry_supports (n : NegotiatedRegistry) (protocol_id protocol_version : Z) : bool :=
  bool_decide ((protocol_id, protocol_version) ∈ ng_protocols n).

(** ** Valid hellos *)
Record hello_valid (h : RegistryHello) : Prop := mkValid {
  hv_versions : 1 <= len (rh_registry_versions h) <= MAX_REGISTRY_VERSIONS;
  hv_protocols : len (rh_protocols h) <= MAX_PROTOCOL_RANGES;
  hv_size : rh_maximum_receive_size h <> 0;
  hv_live : rh_maximum_live_requests h <> 0;
  hv_genesis : rh_genesis_hash h <> replicate 32 x00;
  hv_versions_nodup : NoDup (rh_registry_versions h);
  hv_versions_nonzero : 0 ∉ rh_registry_versions h;
  hv_ids_nodup : NoDup (pg_protocol_id <$> rh_protocols h);
  hv_ranges : Forall (fun r => pg_minimum_version r <> 0 /\ pg_minimum_version r <= pg_maximum_version r)
                (rh_protocols h);
  hv_registry : exists r, r ∈ rh_protocols h /\ pg_protocol_id r = REGISTRY_NEGOTIATION_PROTOCOL_ID /\
                pg_minimum_version r <= REGISTRY_NEGOTIATION_PROTOCOL_VERSION <= pg_maximum_version r;
}.

Lemma size_list_to_set_nodup (l : list Z) :
  Z.of_nat (size (list_to_set (C := gset Z) l)) = len l <-> NoDup l.
Proof.
  unfold len. split.
  - induction l as [|x l IH]; [constructor|]. intros E. cbn [list_to_set length] in E.
    assert (size (list_to_set (C := gset Z) l) <= length l)%nat as L.
    { clear. induction l as [|y l IH]; [by rewrite list_to_set_nil, size_empty|]. cbn [list_to_set length].
      pose proof (size_union_alt (C := gset Z) {[y]} (list_to_set l)) as U.
      pose proof (size_singleton (C := gset Z) y).
      pose proof (subseteq_size (C := gset Z) (list_to_set l ∖ {[y]}) (list_to_set l) ltac:(set_solver)). lia. }
    rewrite size_union_alt, size_singleton in E.
    pose proof (subseteq_size (C := gset Z) (list_to_set l ∖ {[x]}) (list_to_set l) ltac:(set_solver)) as S.
    constructor; [|apply IH; lia]. intros I.
    assert (size (list_to_set (C := gset Z) l ∖ {[x]}) < size (list_to_set (C := gset Z) l))%nat; [|lia].
    apply subset_size. split; [set_solver|]. intros Sub. specialize (Sub x). set_solver.
  - intros N. by rewrite size_list_to_set.
Qed.

(** In a list with distinct keys, the first match is the only one. *)
Lemma find_unique {A} (key : A -> Z) (l : list A) k a :
  NoDup (key <$> l) -> List.find (fun c => key c =? k) l = Some a <-> a ∈ l /\ key a = k.
Proof.
  intros N. split.
  - intros F. apply List.find_some in F as [I E]. apply Z.eqb_eq in E. by rewrite list_elem_of_In.
  - intros [I E]. induction l as [|x l IH]; [by apply elem_of_nil in I|]. cbn [List.find].
    rewrite fmap_cons in N. apply NoDup_cons in N as [Nx N]. apply elem_of_cons in I as [->|I].
    + by rewrite (proj2 (Z.eqb_eq _ _) E).
    + destruct (key x =? k) eqn:Ek; [|by apply IH]. apply Z.eqb_eq in Ek. exfalso. apply Nx.
      apply list_elem_of_fmap. exists a. split; [congruence|done].
Qed.

Lemma find_absent {A} (key : A -> Z) (l : list A) k :
  List.find (fun c => key c =? k) l = None <-> (forall a, a ∈ l -> key a <> k).
Proof.
  split.
  - intros F a I. apply list_elem_of_In in I. pose proof (List.find_none _ _ F a I) as E. by apply Z.eqb_neq in E.
  - intros F. destruct (List.find _ l) eqn:E; [|done]. apply List.find_some in E as [I E].
    apply Z.eqb_eq in E. by destruct (F a ltac:(by apply list_elem_of_In) E).
Qed.

Lemma validate_ranges_Ok l :
  validate_ranges l = Ok tt <-> Forall (fun r => pg_minimum_version r <> 0 /\ pg_minimum_version r <= pg_maximum_version r) l.
Proof.
  induction l as [|r l IH]; [by split|]. cbn [validate_ranges]. rewrite Forall_cons, bind_Ok, <- IH.
  unfold ProtocolRange_validate. split.
  - intros ([] & A & B). apply assert_or_Ok in A. rewrite negb_true_iff, orb_false_iff, Z.eqb_neq, Z.ltb_ge in A. done.
  - intros ((A & B) & C). exists tt. split; [|done]. apply assert_or_Ok.
    rewrite negb_true_iff, orb_false_iff, Z.eqb_neq, Z.ltb_ge. done.
Qed.

Lemma validate_hello_Ok h : RegistryHello_validate h = Ok tt <-> hello_valid h.
Proof.
  unfold RegistryHello_validate. rewrite !bind_Ok. pose proof (len_nonneg (rh_registry_versions h)) as L0. split.
  - intros (u1 & H1 & H). apply bind_Ok in H as (u2 & H2 & H). apply bind_Ok in H as (u3 & H3 & H).
    apply bind_Ok in H as (u4 & H4 & H). apply bind_Ok in H as (u5 & H5 & H). apply bind_Ok in H as (u6 & H6 & H).
    apply bind_Ok in H as ([] & H7 & H). apply bind_Ok in H as (r & H8 & H).
    apply assert_or_Ok in H1, H2, H3, H4, H5, H6, H. apply ok_or_Ok in H8. apply validate_ranges_Ok in H7.
    rewrite negb_true_iff in *. rewrite ?orb_false_iff, ?negb_false_iff, ?bool_decide_eq_false, ?Z.eqb_eq, ?Z.eqb_neq,
      ?Z.ltb_ge in *. destruct H1, H3, H5 as [H5 H5'], H. rewrite ?Z.ltb_ge, ?Z.eqb_neq in *.
    unfold len in H6. rewrite <- (length_fmap pg_protocol_id) in H6. apply size_list_to_set_nodup in H5, H6.
    rewrite elem_of_list_to_set in H5'.
    split; try done; [lia|]. unfold is_registry_protocol in H8. apply (find_unique pg_protocol_id) in H8 as [? ?]; [|done].
    exists r. done.
  - intros [[V1 V2] P S Li G Nv Zv Ni R (r & I & Er & M)]. exists tt. rewrite assert_or_Ok. split.
    { rewrite negb_true_iff, orb_false_iff, Z.eqb_neq, Z.ltb_ge. lia. }
    rewrite (proj2 (Z.ltb_ge _ _) P). cbn [negb assert_or mbind result_bind].
    rewrite (proj2 (Z.eqb_neq _ _) S), (proj2 (Z.eqb_neq _ _) Li). cbn [negb orb assert_or mbind result_bind].
    rewrite (bool_decide_eq_false_2 _ G). cbn [negb orb assert_or mbind result_bind].
    rewrite (proj2 (size_list_to_set_nodup _) Nv), Z.eqb_refl, bool_decide_eq_false_2 by by rewrite elem_of_list_to_set.
    cbn [negb orb assert_or mbind result_bind]. rewrite (proj2 (size_list_to_set_nodup _) Ni).
    unfold len. rewrite length_fmap, Z.eqb_refl. cbn [negb orb assert_or mbind result_bind].
    rewrite (proj2 (validate_ranges_Ok _) R). cbn [mbind result_bind].
    unfold is_registry_protocol. rewrite (proj2 (find_unique pg_protocol_id _ _ r Ni) (conj I Er)).
    cbn [ok_or mbind result_bind]. apply assert_or_Ok. rewrite negb_true_iff, orb_false_iff, !Z.ltb_ge. lia.
Qed.

(** ** What two hellos agree on *)
Definition supports_version (h : RegistryHello) (id version : Z) : Prop :=
  exists r, r ∈ rh_protocols h /\ pg_protocol_id r = id /\ pg_minimum_version r <= version <= pg_maximum_version r.

(** The highest value both sides have, in a predicate symmetric in the sides. *)
Definition highest_common (P Q : Z -> Prop) (v : Z) : Prop :=
  P v /\ Q v /\ forall w, P w -> Q w -> w <= v.

Record agreement (a b : RegistryHello) (n : NegotiatedRegistry) : Prop := mkAgreement {
  ag_valid : hello_valid a /\ hello_valid b;
  ag_fingerprint : rh_fingerprint a = ng_fingerprint n /\ rh_fingerprint b = ng_fingerprint n;
  ag_network : rh_network a = ng_network n /\ rh_network b = ng_network n;
  ag_genesis : rh_genesis_hash a = ng_genesis_hash n /\ rh_genesis_hash b = ng_genesis_hash n;
  ag_version : highest_common (.∈ rh_registry_versions a) (.∈ rh_registry_versions b) (ng_registry_version n);
  ag_sorted : StronglySorted (fun p q => p.1 < q.1) (ng_protocols n);
  ag_protocols : forall id v, (id, v) ∈ ng_protocols n <->
    if decide (id = REGISTRY_NEGOTIATION_PROTOCOL_ID) then v = REGISTRY_NEGOTIATION_PROTOCOL_VERSION
    else highest_common (supports_version a id) (supports_version b id) v;
  ag_size : ng_maximum_send_size n = Z.min (rh_maximum_receive_size a) (rh_maximum_receive_size b);
  ag_live : ng_maximum_live_requests n = Z.min (rh_maximum_live_requests a) (rh_maximum_live_requests b);
  ag_flags : ng_feature_flags n = Z.land (rh_feature_flags a) (rh_feature_flags b);
}.

Lemma highest_common_comm P Q v : highest_common P Q v <-> highest_common Q P v.
Proof. unfold highest_common. naive_solver. Qed.

Lemma highest_common_unique P Q v w : highest_common P Q v -> highest_common P Q w -> v = w.
Proof. intros (A & B & C) (A' & B' & C'). pose proof (C w A' B'). pose proof (C' v A B). lia. Qed.

Lemma agreement_comm a b n : agreement a b n -> agreement b a n.
Proof.
  intros [V F N G Ver S P Sz L Fl]. split; try done; try tauto.
  - by apply highest_common_comm.
  - intros id v. rewrite P. destruct (decide _); [done|]. apply highest_common_comm.
  - by rewrite Z.min_comm.
  - by rewrite Z.min_comm.
  - by rewrite Z.land_comm.
Qed.

Lemma iter_max_Some l v : iter_max l = Some v <-> v ∈ l /\ forall w, w ∈ l -> w <= v.
Proof.
  assert (forall (l : list Z) (x : Z), foldl Z.max x l ∈ x :: l /\ forall w, w ∈ x :: l -> w <= foldl Z.max x l) as F.
  { clear. induction l as [|y l IH]; intros x; cbn [foldl].
    - split; [left|]. intros w I. apply list_elem_of_singleton in I. lia.
    - destruct (IH (Z.max x y)) as [A B]. split.
      + apply elem_of_cons in A as [->|A]; [|set_solver].
        destruct (Z.max_spec x y) as [[_ ->]|[_ ->]]; set_solver.
      + intros w I. pose proof (B (Z.max x y) ltac:(left)).
        apply elem_of_cons in I as [->|I]; [lia|]. apply elem_of_cons in I as [->|I]; [lia|]. apply B. by right. }
  destruct l as [|x l]; cbn [iter_max].
  - split; [done|]. intros [I _]. by apply elem_of_nil in I.
  - destruct (F l x) as [A B]. split; [by intros [= <-]|]. intros [C D]. f_equal.
    pose proof (B v C). pose proof (D _ A). lia.
Qed.

#[global] Instance pair_le_trans : Transitive pair_le.
Proof. intros a b c. unfold pair_le. lia. Qed.
#[global] Instance pair_le_total : Total pair_le.
Proof. intros a b. unfold pair_le. lia. Qed.
#[global] Instance pair_le_antisym : AntiSymm (=) pair_le.
Proof. intros [a b] [c d]. unfold pair_le. cbn. intros. f_equal; lia. Qed.
#[global] Instance range_le_trans : Transitive range_le.
Proof. intros a b c. unfold range_le. lia. Qed.
#[global] Instance range_le_total : Total range_le.
Proof. intros a b. unfold range_le. lia. Qed.
#[global] Instance range_le_antisym : AntiSymm (=) range_le.
Proof. intros [a b c] [a' b' c']. unfold range_le. cbn. intros. f_equal; lia. Qed.

(** Strictly increasing lists with the same elements are equal. *)
Lemma increasing_unique (l l' : list (Z * Z)) :
  StronglySorted (fun p q => p.1 < q.1) l -> StronglySorted (fun p q => p.1 < q.1) l' ->
  (forall x, x ∈ l <-> x ∈ l') -> l = l'.
Proof.
  assert (forall l : list (Z * Z), StronglySorted (fun p q => p.1 < q.1) l -> NoDup l /\ StronglySorted pair_le l) as W.
  { clear. induction 1 as [|x l S [N W] F]; [split; constructor|]. rewrite Forall_forall in F. split.
    - constructor; [|done]. intros I. specialize (F x I). lia.
    - constructor; [done|]. apply Forall_forall. intros y I. left. by apply F. }
  intros S S' E. destruct (W l S) as [N T], (W l' S') as [N' T'].
  apply (StronglySorted_unique pair_le); [done|done|]. by apply NoDup_Permutation.
Qed.

Lemma increasing_sort (l : list (Z * Z)) :
  NoDup l.*1 -> StronglySorted (fun p q => p.1 < q.1) (merge_sort pair_le l).
Proof.
  intros N. pose proof (StronglySorted_merge_sort pair_le l) as S.
  rewrite <- (merge_sort_Permutation pair_le l) in N.
  induction S as [|x m S IH F]; [constructor|]. rewrite fmap_cons in N. apply NoDup_cons in N as [Nx N].
  constructor; [by apply IH|]. rewrite Forall_forall in F |- *. intros y I. destruct (F y I) as [L|[E _]]; [done|].
  exfalso. apply Nx. rewrite E. by apply list_elem_of_fmap_2.
Qed.

Lemma common_protocol_Some b r id v :
  hello_valid b -> common_protocol (rh_protocols b) r = Some (id, v) <->
  pg_protocol_id r = id /\ exists r', r' ∈ rh_protocols b /\ pg_protocol_id r' = id /\
    Z.max (pg_minimum_version r) (pg_minimum_version r') <= Z.min (pg_maximum_version r) (pg_maximum_version r') /\
    v = if decide (id = REGISTRY_NEGOTIATION_PROTOCOL_ID) then REGISTRY_NEGOTIATION_PROTOCOL_VERSION
        else Z.min (pg_maximum_version r) (pg_maximum_version r').
Proof.
  intros V. unfold common_protocol.
  assert (forall i (x y : Z), (if i =? REGISTRY_NEGOTIATION_PROTOCOL_ID then x else y) =
            if decide (i = REGISTRY_NEGOTIATION_PROTOCOL_ID) then x else y) as Ed.
  { intros i x y. destruct (Z.eqb_spec i REGISTRY_NEGOTIATION_PROTOCOL_ID); by destruct (decide _). }
  destruct (List.find _ _) as [r'|] eqn:F.
  - apply find_unique in F as [I E]; [|apply V]. destruct (_ <=? _) eqn:L.
    + apply Z.leb_le in L. rewrite Ed. split.
      * intros [= <- <-]. split; [done|]. exists r'. done.
      * intros (<- & r2 & I2 & E2 & L2 & ->). assert (r2 = r') as ->; [|done].
        pose proof (proj2 (find_unique _ _ _ r2 (hv_ids_nodup b V)) (conj I2 E2)) as F2.
        rewrite (proj2 (find_unique _ _ _ r' (hv_ids_nodup b V)) (conj I E)) in F2. congruence.
    + apply Z.leb_gt in L. split; [done|]. intros (<- & r2 & I2 & E2 & L2 & ->). assert (r2 = r') as ->; [|lia].
      pose proof (proj2 (find_unique _ _ _ r2 (hv_ids_nodup b V)) (conj I2 E2)) as F2.
      rewrite (proj2 (find_unique _ _ _ r' (hv_ids_nodup b V)) (conj I E)) in F2. congruence.
  - split; [done|]. intros (<- & r2 & I2 & E2 & _). by destruct (proj1 (find_absent pg_protocol_id _ _) F r2 I2).
Qed.

(** The protocols of a valid hello are found by their identifiers. *)
Lemma range_by_id h r r' :
  hello_valid h -> r ∈ rh_protocols h -> r' ∈ rh_protocols h -> pg_protocol_id r = pg_protocol_id r' -> r = r'.
Proof.
  intros V I I' E. pose proof (proj2 (find_unique _ _ _ r (hv_ids_nodup h V)) (conj I eq_refl)) as F.
  rewrite E, (proj2 (find_unique _ _ _ r' (hv_ids_nodup h V)) (conj I' eq_refl)) in F. congruence.
Qed.

Lemma pushed_protocols a b id v :
  hello_valid a -> hello_valid b ->
  (id, v) ∈ omap (common_protocol (rh_protocols b)) (rh_protocols a) <->
  if decide (id = REGISTRY_NEGOTIATION_PROTOCOL_ID) then v = REGISTRY_NEGOTIATION_PROTOCOL_VERSION
  else highest_common (supports_version a id) (supports_version b id) v.
Proof.
  intros Va Vb. rewrite list_elem_of_omap. setoid_rewrite (common_protocol_Some b _ id v Vb).
  destruct (decide (id = REGISTRY_NEGOTIATION_PROTOCOL_ID)) as [->|Ni].
  - split; [by intros (r & _ & _ & r' & _ & _ & _ & ->)|]. intros ->.
    destruct (hv_registry a Va) as (r & I & E & M), (hv_registry b Vb) as (r' & I' & E' & M').
    exists r. split; [done|]. split; [done|]. exists r'. split_and!; try done. lia.
  - unfold highest_common, supports_version. split.
    + intros (r & I & E & r' & I' & E' & L & ->). split; [|split].
      * exists r. split_and!; (done || lia).
      * exists r'. split_and!; (done || lia).
      * intros w (r1 & I1 & E1 & L1) (r2 & I2 & E2 & L2).
        rewrite (range_by_id a r1 r Va I1 I ltac:(congruence)) in L1.
        rewrite (range_by_id b r2 r' Vb I2 I' ltac:(congruence)) in L2. lia.
    + intros ((r & I & E & L) & (r' & I' & E' & L') & H). exists r. split; [done|]. split; [done|].
      exists r'. split; [done|]. split; [done|]. split; [lia|].
      assert (Z.min (pg_maximum_version r) (pg_maximum_version r') <= v); [|lia].
      apply H; [exists r|exists r']; split_and!; (done || lia).
Qed.

Lemma pushed_nodup a b :
  hello_valid a -> hello_valid b -> NoDup (omap (common_protocol (rh_protocols b)) (rh_protocols a)).*1.
Proof.
  intros Va Vb. pose proof (hv_ids_nodup a Va) as N. revert N. generalize (rh_protocols a).
  induction l as [|r l IH]; intros N; [constructor|]. rewrite fmap_cons in N. apply NoDup_cons in N as [Nr N].
  cbn [omap list_omap]. destruct (common_protocol _ r) as [[id v]|] eqn:C; [|by apply IH].
  rewrite fmap_cons. constructor; [|by apply IH]. intros I. apply Nr.
  apply list_elem_of_fmap in I as ([id' v'] & E & I). apply list_elem_of_omap in I as (r2 & I2 & C2).
  cbn in E. subst id'. apply common_protocol_Some in C as [E _], C2 as [E2 _]; [|done|done].
  apply list_elem_of_fmap. exists r2. split; [congruence|done].
Qed.

Lemma negotiate_Ok a b n : NegotiatedRegistry_negotiate a b = Ok n <-> agreement a b n.
Proof.
  unfold NegotiatedRegistry_negotiate. split.
  - intros H. apply bind_Ok in H as ([] & Va & H). apply bind_Ok in H as ([] & Vb & H).
    apply bind_Ok in H as (u1 & F & H). apply bind_Ok in H as (u2 & N & H). apply bind_Ok in H as (u3 & G & H).
    apply bind_Ok in H as (v & Ve & H). apply bind_Ok in H as (u4 & R & [= <-]).
    apply assert_or_Ok, bool_decide_eq_true in F, N, G, R. apply ok_or_Ok, iter_max_Some in Ve as [Iv Mv].
    apply validate_hello_Ok in Va, Vb. apply list_elem_of_filter in Iv as [Iv2 Iv1].
    apply elem_of_list_to_set in Iv2.
    split; cbn [ng_fingerprint ng_registry_version ng_protocols ng_maximum_send_size ng_maximum_live_requests
      ng_network ng_genesis_hash ng_feature_flags]; try done.
    + split_and!; [done|done|]. intros w I1 I2. apply Mv. apply list_elem_of_filter. split; [|done].
      by apply elem_of_list_to_set.
    + by apply increasing_sort, pushed_nodup.
    + intros id w. rewrite (merge_sort_Permutation pair_le). by apply pushed_protocols.
  - intros [[Va Vb] [F F'] [N N'] [G G'] Ver S P Sz L Fl]. pose proof Va as Va'. pose proof Vb as Vb'.
    apply validate_hello_Ok in Va', Vb'. rewrite Va', Vb'. cbn [mbind result_bind].
    rewrite (bool_decide_eq_true_2 (rh_fingerprint a = _)), (bool_decide_eq_true_2 (rh_network a = _)),
      (bool_decide_eq_true_2 (rh_genesis_hash a = _)) by congruence. cbn [assert_or mbind result_bind].
    destruct Ver as (I1 & I2 & M). rewrite (proj2 (iter_max_Some _ (ng_registry_version n))).
    2:{ split; [apply list_elem_of_filter; rewrite elem_of_list_to_set; done|]. intros w I.
        apply list_elem_of_filter in I as [Iw Iw']. apply elem_of_list_to_set in Iw. by apply M. }
    cbn [ok_or mbind result_bind].
    assert (merge_sort pair_le (omap (common_protocol (rh_protocols b)) (rh_protocols a)) = ng_protocols n) as ->.
    { apply increasing_unique; [by apply increasing_sort, pushed_nodup|done|]. intros [id v].
      by rewrite P, (merge_sort_Permutation pair_le), (pushed_protocols a b). }
    rewrite bool_decide_eq_true_2 by (apply P; by rewrite decide_True).
    cbn [assert_or mbind result_bind]. rewrite F, N, G, <- Sz, <- L, <- Fl. by destruct n.
Qed.

(** Negotiation succeeds exactly on valid hellos of one registry, network and chain
    that share a registry version, and its result is the declarative agreement: the
    highest common registry version, for every protocol the highest version in both
    ranges (and version 1 of the negotiation protocol itself, which is always
    there), sorted without repeats, the smaller of each resource limit and the
    common feature flags. *)
Theorem negotiation_exact a b n :
  NegotiatedRegistry_negotiate a b = Ok n <-> agreement a b n.
Proof. apply negotiate_Ok. Qed.

(** The two ends of a connection reach the same agreement: whichever hello is the
    local one, negotiation gives the same result or fails on both ends. *)
Theorem negotiation_symmetric a b n :
  NegotiatedRegistry_negotiate a b = Ok n <-> NegotiatedRegistry_negotiate b a = Ok n.
Proof. rewrite !negotiate_Ok. split; apply agreement_comm. Qed.

(** ** The hello on the wire *)
Definition range_bytes (r : ProtocolRange) : list byte :=
  to_le_bytes 2 (pg_protocol_id r) ++ to_le_bytes 2 (pg_minimum_version r) ++ to_le_bytes 2 (pg_maximum_version r).

Definition hello_bytes (h : RegistryHello) : list byte :=
  HELLO_MAGIC ++ to_le_bytes 2 HELLO_FORMAT_VERSION ++ rh_fingerprint h ++
  [z2b (len (rh_registry_versions h))] ++ mjoin (to_le_bytes 2 <$> rh_registry_versions h) ++
  [z2b (len (rh_protocols h))] ++ mjoin (range_bytes <$> rh_protocols h) ++
  to_le_bytes 4 (rh_maximum_receive_size h) ++ to_le_bytes 2 (rh_maximum_live_requests h) ++
  [z2b (ExperimentalNetwork_value (rh_network h))] ++ rh_genesis_hash h ++ to_le_bytes 8 (rh_feature_flags h).

(** The field types of the Rust structure. *)
Definition range_wf (r : ProtocolRange) : Prop :=
  u16 (pg_protocol_id r) /\ u16 (pg_minimum_version r) /\ u16 (pg_maximum_version r).

Record hello_wf (h : RegistryHello) : Prop := mkHelloWf {
  hw_fingerprint : len (rh_fingerprint h) = 32;
  hw_versions : Forall u16 (rh_registry_versions h);
  hw_protocols : Forall range_wf (rh_protocols h);
  hw_size : u32 (rh_maximum_receive_size h);
  hw_live : u16 (rh_maximum_live_requests h);
  hw_genesis : len (rh_genesis_hash h) = 32;
  hw_flags : u64 (rh_feature_flags h);
}.

(** The form a hello has after a trip: versions and protocols in order. *)
Definition hello_sorted (h : RegistryHello) : RegistryHello :=
  mkHello (rh_fingerprint h) (merge_sort Z.le (rh_registry_versions h)) (merge_sort range_le (rh_protocols h))
    (rh_maximum_receive_size h) (rh_maximum_live_requests h) (rh_network h) (rh_genesis_hash h) (rh_feature_flags h).

Lemma bytes_put_range e r : bytes (put_range e r) = bytes e ++ range_bytes r.
Proof. unfold put_range, range_bytes. by rewrite !bytes_put_u16, <- !app_assoc. Qed.

Lemma hello_encode_Ok h bs :
  RegistryHello_encode h = Ok bs <-> hello_valid h /\ bs = hello_bytes (hello_sorted h).
Proof.
  unfold RegistryHello_encode. rewrite bind_Ok.
  match goal with |- (exists a, _ /\ ?r = Ok bs) <-> _ => assert (r = Ok (hello_bytes (hello_sorted h))) as E end.
  { unfold into_bytes, hello_bytes. cbn [rh_fingerprint rh_registry_versions rh_protocols rh_maximum_receive_size
      rh_maximum_live_requests rh_network rh_genesis_hash rh_feature_flags hello_sorted].
    rewrite bytes_put_u64, bytes_put_bytes, bytes_put_u8, bytes_put_u16, bytes_put_u32.
    rewrite (bytes_foldl put_range range_bytes) by (intros; apply bytes_put_range).
    rewrite bytes_put_u8, (bytes_foldl put_u16_le (to_le_bytes 2)) by (intros; apply bytes_put_u16).
    rewrite bytes_put_u8, bytes_put_bytes, bytes_put_u16, bytes_put_bytes, bytes_with_capacity.
    by rewrite <- !app_assoc. }
  rewrite E. split.
  - intros ([] & V & [= <-]). split; [by apply validate_hello_Ok|done].
  - intros [V ->]. exists tt. split; [by apply validate_hello_Ok|done].
Qed.

Lemma network_try_from n : ExperimentalNetwork_try_from (ExperimentalNetwork_value n) = Ok n.
Proof. by destruct n. Qed.

Lemma network_value_inv v n : ExperimentalNetwork_try_from v = Ok n -> v = ExperimentalNetwork_value n.
Proof.
  unfold ExperimentalNetwork_try_from.
  destruct v as [|p|p]; [by intros [= <-]| |done]. destruct p as [[|[]|]|[|[]|]|]; try done; by intros [= <-].
Qed.

Lemma read_range_inv d r d' : dec_wf d -> read_range d = (Ok r, d') -> took d (range_bytes r) d' /\ range_wf r.
Proof.
  intros W H. unfold read_range in H. dbind H as i d1 H1. dbind H as m d2 H2. dbind H as x d3 H3.
  apply dec_ret_Ok in H as (<- & ->). took_all. split; [|done]. unfold range_bytes.
  cbn [pg_protocol_id pg_minimum_version pg_maximum_version]. took_chain.
Qed.

Lemma read_range_reads d r : range_wf r -> reads d read_range (range_bytes r) r.
Proof.
  intros (I & M & X). unfold read_range, range_bytes. eapply reads_bind; [by apply reads_err, read_u16_reads|].
  eapply reads_bind; [by apply reads_err, read_u16_reads|].
  eapply reads_last; [by apply reads_err, read_u16_reads|]. destruct r. apply reads_ret.
Qed.

Lemma count_byte b (n : nat) : Z.to_nat (b2z b) = n -> b = z2b (Z.of_nat n).
Proof. pose proof (b2z_range b). intros E. rewrite <- (z2b_b2z b) at 1. f_equal. lia. Qed.

Lemma hello_read_inv d h d' :
  dec_wf d -> RegistryHello_read d = (Ok h, d') -> took d (hello_bytes h) d' /\ hello_wf h.
Proof.
  intros W H. unfold RegistryHello_read in H. dbind H as magic d1 H1. dbind H as u1 d1' C1.
  apply assert_or_Ok, bool_decide_eq_true in C1. subst magic. dbind H as format d2 H2. dbind H as u2 d2' C2.
  apply assert_or_Ok, Z.eqb_eq in C2. subst format. dbind H as fingerprint d3 H3. dbind H as count d4 H4.
  cbn zeta in H. dbind H as u3 d4' C3. dbind H as versions d5 H5. dbind H as pcount d6 H6. cbn zeta in H.
  dbind H as u4 d6' C4. dbind H as protocols d7 H7. dbind H as size d8 H8. dbind H as live d9 H9.
  dbind H as nb d10 H10. dbind H as network d10' C5. dbind H as genesis d11 H11. dbind H as flags d12 H12.
  apply dec_ret_Ok in H as (<- & ->). apply map_err_Ok in C5. took_all.
  eapply (read_n_inv _ (to_le_bytes 2) u16) in H5 as (T5 & F5 & L5); [| |done].
  2:{ intros ? v ? Wd Hv. apply lift_err_Ok in Hv. by apply read_u16_inv. }
  took_all. eapply (read_n_inv _ range_bytes range_wf) in H7 as (T7 & F7 & L7); [| |done].
  2:{ intros ? v ? Wd Hv. by apply read_range_inv. }
  took_all. split; [|by split]. unfold hello_bytes.
  cbn [rh_fingerprint rh_registry_versions rh_protocols rh_maximum_receive_size rh_maximum_live_requests rh_network
    rh_genesis_hash rh_feature_flags].
  apply network_value_inv in C5. unfold len. rewrite <- (count_byte count (length versions)), <- (count_byte pcount (length protocols)), <- C5, z2b_b2z by done.
  took_chain.
Qed.

Lemma hello_reads d h :
  hello_wf h -> 1 <= len (rh_registry_versions h) <= MAX_REGISTRY_VERSIONS ->
  len (rh_protocols h) <= MAX_PROTOCOL_RANGES -> reads d RegistryHello_read (hello_bytes h) h.
Proof.
  intros [Fi Ve Pr Si Li Ge Fl] [V1 V2] P. unfold MAX_REGISTRY_VERSIONS, MAX_PROTOCOL_RANGES in V2, P.
  unfold RegistryHello_read, hello_bytes.
  eapply reads_bind; [by apply reads_err, read_array_reads|].
  eapply reads_nil_bind; [by apply reads_assert, bool_decide_eqb_refl|].
  eapply reads_bind; [by apply reads_err, read_u16_reads|]. eapply reads_nil_bind; [by apply reads_assert|].
  eapply reads_bind; [by apply reads_err, read_array_reads|]. eapply reads_bind; [by apply reads_err, read_u8_reads|].
  cbn zeta. pose proof (len_nonneg (rh_protocols h)). rewrite z2b_small by lia.
  eapply reads_nil_bind.
  { apply reads_assert. unfold MAX_REGISTRY_VERSIONS. rewrite negb_true_iff, orb_false_iff, Z.eqb_neq, Z.ltb_ge. lia. }
  replace (Z.to_nat (len (rh_registry_versions h))) with (length (rh_registry_versions h)) by (unfold len; lia).
  eapply reads_bind; [apply (reads_n _ (to_le_bytes 2))|].
  { intros d' x I. apply reads_err, read_u16_reads. rewrite Forall_forall in Ve. by apply Ve. }
  eapply reads_bind; [by apply reads_err, read_u8_reads|]. cbn zeta. rewrite z2b_small by lia.
  eapply reads_nil_bind.
  { apply reads_assert. unfold MAX_PROTOCOL_RANGES. rewrite negb_true_iff, Z.ltb_ge. lia. }
  replace (Z.to_nat (len (rh_protocols h))) with (length (rh_protocols h)) by (unfold len; lia).
  eapply reads_bind; [apply (reads_n _ range_bytes)|].
  { intros d' x I. apply read_range_reads. rewrite Forall_forall in Pr. by apply Pr. }
  eapply reads_bind; [by apply reads_err, read_u32_reads|]. eapply reads_bind; [by apply reads_err, read_u16_reads|].
  eapply reads_bind; [by apply reads_err, read_u8_reads|]. rewrite z2b_small by (destruct (rh_network h); cbn; lia).
  eapply reads_nil_bind; [by apply reads_res; rewrite network_try_from|].
  eapply reads_bind; [by apply reads_err, read_array_reads|].
  eapply reads_last; [by apply reads_err, read_u64_reads|]. destruct h. apply reads_ret.
Qed.

Lemma hello_decode_Ok bs h :
  len bs <= isize_max ->
  RegistryHello_decode bs = Ok h <-> hello_wf h /\ hello_valid h /\ bs = hello_bytes h.
Proof.
  intros L. unfold RegistryHello_decode. rewrite bind_Ok. split.
  - intros (h' & R & H). apply bind_Ok in H as ([] & V & [= <-]). apply validate_hello_Ok in V.
    apply run_all_Ok in R as (d & R & F). apply hello_read_inv in R as (T & W); [|by apply wf_new].
    apply took_finish in T; done.
  - intros (W & V & ->). exists h. split; [|by rewrite (proj2 (validate_hello_Ok h) V)].
    apply run_all_reads; [done|]. apply hello_reads; [done|apply V|apply V].
Qed.

(** ** Sorting does not change what a hello says *)
Lemma elem_sorted_range h r : r ∈ merge_sort range_le (rh_protocols h) <-> r ∈ rh_protocols h.
Proof. by rewrite (merge_sort_Permutation range_le). Qed.

Lemma elem_sorted_version h v : v ∈ merge_sort Z.le (rh_registry_versions h) <-> v ∈ rh_registry_versions h.
Proof. by rewrite (merge_sort_Permutation Z.le). Qed.

Lemma len_sorted {A} (R : relation A) `{∀ x y, Decision (R x y)} l : len (merge_sort R l) = len l.
Proof. unfold len. by rewrite (Permutation_length (merge_sort_Permutation R l)). Qed.

Lemma sorted_facts h :
  (NoDup (rh_registry_versions h) <-> NoDup (merge_sort Z.le (rh_registry_versions h))) /\
  (NoDup (pg_protocol_id <$> rh_protocols h) <-> NoDup (pg_protocol_id <$> merge_sort range_le (rh_protocols h))) /\
  (forall P, Forall P (rh_protocols h) <-> Forall P (merge_sort range_le (rh_protocols h))).
Proof.
  split_and!; [by rewrite (merge_sort_Permutation Z.le)|by rewrite (merge_sort_Permutation range_le)|].
  intros P. by rewrite (merge_sort_Permutation range_le).
Qed.

Lemma hello_sorted_valid h : hello_valid (hello_sorted h) <-> hello_valid h.
Proof.
  destruct (sorted_facts h) as (Fv & Fi & Fr).
  split; intros [V P S L G Nv Zv Ni R (r & I & E)];
    cbn [hello_sorted rh_registry_versions rh_protocols rh_maximum_receive_size rh_maximum_live_requests
      rh_genesis_hash] in *.
  - rewrite (len_sorted Z.le) in V. rewrite (len_sorted range_le) in P. rewrite elem_sorted_version in Zv. rewrite elem_sorted_range in I.
    split; try done; [by apply Fv|by apply Fi|by apply Fr|by exists r].
  - split; cbn [hello_sorted rh_registry_versions rh_protocols rh_maximum_receive_size rh_maximum_live_requests
      rh_genesis_hash]; rewrite ?(len_sorted Z.le), ?(len_sorted range_le), ?elem_sorted_version; try done;
      [by apply Fv|by apply Fi|by apply Fr|exists r; by rewrite elem_sorted_range].
Qed.

Lemma hello_sorted_wf h : hello_wf h -> hello_wf (hello_sorted h).
Proof.
  intros [F V P S L G Fl]. split; cbn [hello_sorted rh_fingerprint rh_registry_versions rh_protocols
    rh_maximum_receive_size rh_maximum_live_requests rh_genesis_hash rh_feature_flags]; try done;
    by rewrite ?(merge_sort_Permutation Z.le), ?(merge_sort_Permutation range_le).
Qed.

Lemma supports_sorted h id v : supports_version (hello_sorted h) id v <-> supports_version h id v.
Proof. unfold supports_version. cbn [hello_sorted rh_protocols]. by setoid_rewrite elem_sorted_range. Qed.

Lemma agreement_sorted a b n : agreement (hello_sorted a) b n <-> agreement a b n.
Proof.
  assert (forall id v, highest_common (supports_version (hello_sorted a) id) (supports_version b id) v <->
            highest_common (supports_version a id) (supports_version b id) v) as P.
  { intros id v. unfold highest_common. by setoid_rewrite supports_sorted. }
  split; intros [[Va Vb] F N G (I1 & I2 & M) S Pr Sz L Fl]; (split; try done).
  - by split; [apply hello_sorted_valid|].
  - unfold highest_common. split_and!; [by apply elem_sorted_version|done|]. intros w I. apply M. by apply elem_sorted_version.
  - intros id v. rewrite Pr. destruct (decide _); [done|]. apply P.
  - by split; [apply hello_sorted_valid|].
  - unfold highest_common. cbn [hello_sorted rh_registry_versions]. setoid_rewrite elem_sorted_version. done.
  - intros id v. rewrite Pr. destruct (decide _); [done|]. symmetry. apply P.
Qed.

Lemma negotiate_sorted a b n :
  NegotiatedRegistry_negotiate a (hello_sorted b) = Ok n <-> NegotiatedRegistry_negotiate a b = Ok n.
Proof.
  rewrite !negotiate_Ok. split; intros H.
  - apply agreement_comm, agreement_sorted. by apply agreement_comm.
  - apply agreement_comm, agreement_sorted. by apply agreement_comm.
Qed.

Lemma len_mjoin_const {A} (enc : A -> list byte) (k : Z) l :
  (forall a, len (enc a) = k) -> len (mjoin (enc <$> l)) = k * len l.
Proof.
  intros E. induction l as [|x l IH]; [by rewrite (len_nil (A := A)), Z.mul_0_r|]. rewrite fmap_cons'. rewrite join_cons, len_app, IH, E, len_cons. lia.
Qed.

(** An encoded hello is at most [87 + 2 * 16 + 6 * 64] bytes. *)
Lemma len_hello_bytes h :
  hello_wf h ->
  len (hello_bytes h) = 87 + 2 * len (rh_registry_versions h) + 6 * len (rh_protocols h).
Proof.
  intros [F _ _ _ _ G _]. unfold hello_bytes.
  rewrite !len_app, (len_mjoin_const (to_le_bytes 2) 2), (len_mjoin_const range_bytes 6), F, G, !len_to_le_bytes, !len_cons
    by (intros; unfold range_bytes; rewrite ?len_app, !len_to_le_bytes; lia).
  rewrite !len_nil. change (len HELLO_MAGIC) with 4. lia.
Qed.
