(* ===== verification/PeerState.v ===== *)
(** * hns-p2p-experimental: admission of experimental packets on a peer

    Models [crates/hns-p2p-experimental/src/peer.rs]: the state a node keeps about
    one connection and the operations that admit or refuse work on it. The methods
    take [&mut self], so a call is a state transformer whose [Err] keeps the changes
    made before it; [BTreeSet<PeerProtocol>] is a [gset]. *)

From stdpp Require Import gmap.
From S2P Require Import Prelude Encoding Experimental Negotiation.
Local Open Scope Z_scope.

Inductive PeerProtocol := DnsRelay | ObliviousDns | Hnsr | ShakescapeExtension.
#[global] Instance PeerProtocol_eq_dec : EqDecision PeerProtocol.
Proof. solve_decision. Defined.
#[global] Instance PeerProtocol_countable : Countable PeerProtocol.
Proof.
  refine (inj_countable' (fun p => match p with DnsRelay => 0 | ObliviousDns => 1 | Hnsr => 2 | ShakescapeExtension => 3 end)
    (fun z => match z with 0 => DnsRelay | 1 => ObliviousDns | 2 => Hnsr | _ => ShakescapeExtension end) _).
  by intros [].
Defined.

Definition required_service (p : PeerProtocol) : Z :=
  match p with
  | DnsRelay => DNS_RELAY_SERVICE
  | ObliviousDns => ODOH_SERVICE
  | Hnsr => HNSR_RENDEZVOUS_SERVICE
  | ShakescapeExtension => SHAKESCAPE_EXTENSION_SERVICE
  end.

Inductive ExperimentalAdmission :=
| OrdinaryHandshake
| AdmitExperimental (protocol : PeerProtocol)
| ReservedPrivatePacket.

Inductive PeerProtocolError :=
| ConnectionNotEstablished
| ProtocolDisabled (protocol : PeerProtocol)
| PacketWithoutService (protocol : PeerProtocol) (required_service : Z)
| HnsrPacketWithoutService
| MissingShakescapeExtensionService (protocol : PeerProtocol)
| AdvertisedServiceWithoutRegistry
| RegistryNotNegotiated (protocol : PeerProtocol)
| DnsRelayRequesterDisabled
| LocalDnsRelayProviderDisabled
| LocalDnsRelayServiceNotAdvertised
| LocalDnsRelayBackendNotReady
| LocalDnsRelayRegistryNotAdvertised
| PeerWrongFingerprint
| PeerWrongNetwork
| PeerWrongGenesis.

Record ExperimentalPeerState := mkPeer {
  ps_profile : ExperimentalWireProfile;
  ps_network : ExperimentalNetwork;
  ps_genesis_hash : list byte;
  ps_expected_fingerprint : list byte;
  ps_services : Z;
  ps_established : bool;
  ps_negotiated : option NegotiatedRegistry;
  ps_disabled : gset PeerProtocol;
}.

Definition ExperimentalPeerState_new (profile : ExperimentalWireProfile) (network : ExperimentalNetwork)
    (genesis_hash expected_fingerprint : list byte) (services : Z) : ExperimentalPeerState :=
  mkPeer profile network genesis_hash expected_fingerprint services false None ∅.

(** Calls on [&mut self] that may fail. *)
Definition peerM (A : Type) : Type :=
  ExperimentalPeerState -> result PeerProtocolError A * ExperimentalPeerState.
#[global] Instance peerM_ret : MRet peerM := fun _ a s => (Ok a, s).
#[global] Instance peerM_bind : MBind peerM := fun _ _ f m s =>
  match m s with (Ok a, s) => f a s | (Err e, s) => (Err e, s) end.

Definition set_disabled (s : ExperimentalPeerState) (disabled : gset PeerProtocol) : ExperimentalPeerState :=
  mkPeer (ps_profile s) (ps_network s) (ps_genesis_hash s) (ps_expected_fingerprint s) (ps_services s)
    (ps_established s) (ps_negotiated s) disabled.

(** [if !ok { self.disabled.insert(protocol); return Err(e); }] *)
Definition or_disable (protocol : PeerProtocol) (ok : bool) (e : PeerProtocolError) : peerM unit := fun s =>
  if ok then (Ok tt, s) else (Err e, set_disabled s ({[protocol]} ∪ ps_disabled s)).

Definition mark_established (s : ExperimentalPeerState) : ExperimentalPeerState :=
  mkPeer (ps_profile s) (ps_network s) (ps_genesis_hash s) (ps_expected_fingerprint s) (ps_services s)
    true (ps_negotiated s) (ps_disabled s).

Definition install_negotiation (negotiated : NegotiatedRegistry) : peerM unit := fun s =>
  if negb (ps_established s) then (Err ConnectionNotEstablished, s)
  else if negb (bool_decide (ng_fingerprint negotiated = ps_expected_fingerprint s)) then (Err PeerWrongFingerprint, s)
  else if negb (bool_decide (ng_network negotiated = ps_network s)) then (Err PeerWrongNetwork, s)
  else if negb (bool_decide (ng_genesis_hash negotiated = ps_genesis_hash s)) then (Err PeerWrongGenesis, s)
  else (Ok tt, mkPeer (ps_profile s) (ps_network s) (ps_genesis_hash s) (ps_expected_fingerprint s) (ps_services s)
                 (ps_established s) (Some negotiated) (ps_disabled s)).

Definition requires_registry (s : ExperimentalPeerState) : bool :=
  match ps_profile s with ShakescapeV1 | AutoProfile => true | _ => false end.

Definition ensure_active_and_established (protocol : PeerProtocol) : peerM unit := fun s =>
  if bool_decide (protocol ∈ ps_disabled s) then (Err (ProtocolDisabled protocol), s)
  else or_disable protocol (ps_established s) ConnectionNotEstablished s.

Definition ensure_registry_negotiated (protocol : PeerProtocol) : peerM unit := fun s =>
  if negb (requires_registry s) || bool_decide (protocol = ShakescapeExtension) then (Ok tt, s)
  else
    (or_disable protocol (ServiceMask_contains (ps_services s) SHAKESCAPE_EXTENSION_SERVICE)
       (MissingShakescapeExtensionService protocol) ;;
     match ps_negotiated s with
     | None => or_disable protocol false (RegistryNotNegotiated protocol)
     | Some negotiated =>
       or_disable protocol (bool_decide (ng_fingerprint negotiated = ps_expected_fingerprint s)) PeerWrongFingerprint
     end) s.

Definition admit_remote_dns_relay_provider : peerM ExperimentalAdmission := fun s =>
  (ensure_active_and_established DnsRelay ;;
   or_disable DnsRelay (ServiceMask_contains (ps_services s) DNS_RELAY_SERVICE)
     (PacketWithoutService DnsRelay DNS_RELAY_SERVICE) ;;
   ensure_registry_negotiated DnsRelay ;;
   mret (AdmitExperimental DnsRelay)) s.

Definition admit_outbound_dns_relay_request (requester_policy : DnsRelayRequesterPolicy)
  : peerM ExperimentalAdmission := fun s =>
  if bool_decide (requester_policy = RequesterDisabled) then (Err DnsRelayRequesterDisabled, s)
  else admit_remote_dns_relay_provider s.

(** [output_policy] is its one flag, as in the policy. *)
Definition admit_inbound_dns_relay_request (local_services : Z) (output_policy backend_ready : bool)
  : peerM ExperimentalAdmission := fun s =>
  (ensure_active_and_established DnsRelay ;;
   or_disable DnsRelay output_policy LocalDnsRelayProviderDisabled ;;
   or_disable DnsRelay (ServiceMask_contains local_services DNS_RELAY_SERVICE) LocalDnsRelayServiceNotAdvertised ;;
   or_disable DnsRelay backend_ready LocalDnsRelayBackendNotReady ;;
   or_disable DnsRelay
     (negb (requires_registry s && negb (ServiceMask_contains local_services SHAKESCAPE_EXTENSION_SERVICE)))
     LocalDnsRelayRegistryNotAdvertised ;;
   ensure_registry_negotiated DnsRelay ;;
   mret (AdmitExperimental DnsRelay)) s.

Definition protocol_for_packet (packet : Z) : option PeerProtocol :=
  if (packet =? DNS_RELAY_REQUEST_PACKET) || (packet =? DNS_RELAY_RESPONSE_PACKET) then Some DnsRelay
  else if packet =? ODOH_PACKET then Some ObliviousDns
  else if packet =? HNSR_PACKET then Some Hnsr
  else if packet =? SHAKESCAPE_EXTENSION_PACKET then Some ShakescapeExtension
  else None.

Definition admit_packet (packet : Z) : peerM ExperimentalAdmission := fun s =>
  if (packet =? DNS_RELAY_REQUEST_PACKET) || (packet =? DNS_RELAY_RESPONSE_PACKET)
  then admit_remote_dns_relay_provider s
  else
    match protocol_for_packet packet with
    | None => (Ok (if 0xf5 <=? packet then ReservedPrivatePacket else OrdinaryHandshake), s)
    | Some protocol =>
      let admits_service :=
        if packet =? HNSR_PACKET then
          ServiceMask_contains (ps_services s) HNSR_RENDEZVOUS_SERVICE ||
          ServiceMask_contains (ps_services s) HNSR_RELAY_SERVICE
        else ServiceMask_contains (ps_services s) (required_service protocol) in
      (ensure_active_and_established protocol ;;
       or_disable protocol admits_service
         (if packet =? HNSR_PACKET then HnsrPacketWithoutService
          else PacketWithoutService protocol (required_service protocol)) ;;
       ensure_registry_negotiated protocol ;;
       mret (AdmitExperimental protocol)) s
    end.

Definition validate_advertisements (s : ExperimentalPeerState) : result PeerProtocolError unit :=
  match ps_profile s with
  | ShakescapeV1 | AutoProfile =>
    let advertises_private_role :=
      ServiceMask_contains (ps_services s) DNS_RELAY_SERVICE || ServiceMask_contains (ps_services s) ODOH_SERVICE ||
      ServiceMask_contains (ps_services s) HNSR_RENDEZVOUS_SERVICE ||
      ServiceMask_contains (ps_services s) HNSR_RELAY_SERVICE in
    assert_or (negb (advertises_private_role && negb (ServiceMask_contains (ps_services s) SHAKESCAPE_EXTENSION_SERVICE)))
      AdvertisedServiceWithoutRegistry
  | _ => Ok tt
  end.

Definition is_disabled (s : ExperimentalPeerState) (protocol : PeerProtocol) : bool :=
  bool_decide (protocol ∈ ps_disabled s).

(** ** Histories of a connection *)
Inductive PeerOp :=
| Establish
| Install (negotiated : NegotiatedRegistry)
| AdmitOutbound (policy : DnsRelayRequesterPolicy)
| AdmitInbound (local_services : Z) (output_policy backend_ready : bool)
| AdmitPacket (packet : Z).

(** The answer of an operation; the two that admit nothing answer [None]. *)
Definition peer_step (s : ExperimentalPeerState) (op : PeerOp)
  : option (result PeerProtocolError ExperimentalAdmission) * ExperimentalPeerState :=
  let answer '(r, s) := (Some r, s) in
  match op with
  | Establish => (None, mark_established s)
  | Install negotiated => (None, (install_negotiation negotiated s).2)
  | AdmitOutbound policy => answer (admit_outbound_dns_relay_request policy s)
  | AdmitInbound local_services output_policy backend_ready =>
    answer (admit_inbound_dns_relay_request local_services output_policy backend_ready s)
  | AdmitPacket packet => answer (admit_packet packet s)
  end.

(** The protocol an operation asks for. *)
Definition op_protocol (op : PeerOp) : option PeerProtocol :=
  match op with
  | Establish | Install _ => None
  | AdmitOutbound _ | AdmitInbound _ _ _ => Some DnsRelay
  | AdmitPacket packet => protocol_for_packet packet
  end.

(** ** When work is admitted *)
Definition advertises (services service : Z) : Prop := ServiceMask_contains services service = true.

(** The registry handshake of this connection is done, with this node's registry,
    network and chain. *)
Definition registry_agreed (s : ExperimentalPeerState) : Prop :=
  advertises (ps_services s) SHAKESCAPE_EXTENSION_SERVICE /\
  exists n, ps_negotiated s = Some n /\ ng_fingerprint n = ps_expected_fingerprint s /\
    ng_network n = ps_network s /\ ng_genesis_hash n = ps_genesis_hash s.

Definition channel_ready (s : ExperimentalPeerState) (p : PeerProtocol) : Prop :=
  (p ∉ ps_disabled s) /\ ps_established s = true /\
  (requires_registry s = true -> p <> ShakescapeExtension -> registry_agreed s).

Definition offers (s : ExperimentalPeerState) (p : PeerProtocol) : Prop :=
  match p with
  | Hnsr => advertises (ps_services s) HNSR_RENDEZVOUS_SERVICE \/ advertises (ps_services s) HNSR_RELAY_SERVICE
  | p => advertises (ps_services s) (required_service p)
  end.

Definition admission_ready (s : ExperimentalPeerState) (op : PeerOp) (p : PeerProtocol) : Prop :=
  channel_ready s p /\
  match op with
  | Establish | Install _ => False
  | AdmitOutbound policy => policy <> RequesterDisabled /\ offers s p
  | AdmitInbound local_services output_policy backend_ready =>
    output_policy = true /\ advertises local_services DNS_RELAY_SERVICE /\ backend_ready = true /\
    (requires_registry s = true -> advertises local_services SHAKESCAPE_EXTENSION_SERVICE)
  | AdmitPacket _ => offers s p
  end.

(** What every history keeps: an installed agreement was checked against the
    connection's identity, and came after it was established. *)
Definition peer_inv (s : ExperimentalPeerState) : Prop :=
  forall n, ps_negotiated s = Some n ->
    ps_established s = true /\ ng_fingerprint n = ps_expected_fingerprint s /\
    ng_network n = ps_network s /\ ng_genesis_hash n = ps_genesis_hash s.

(** Calls that only ever add to the disabled protocols, and add only their own. *)
Definition only_disables {A} (p : PeerProtocol) (m : peerM A) : Prop :=
  forall s, (m s).2 = s \/ ((m s).2 = set_disabled s ({[p]} ∪ ps_disabled s) /\ exists e, (m s).1 = Err e).

Lemma only_disables_ret {A} p (a : A) : only_disables p (mret a).
Proof. intros s. by left. Qed.

Lemma only_disables_or p ok e : only_disables p (or_disable p ok e).
Proof. intros s. unfold or_disable. destruct ok; [by left|]. right. by split; [|exists e]. Qed.

Lemma only_disables_bind {A B} p (m : peerM A) (f : A -> peerM B) :
  only_disables p m -> (forall a, only_disables p (f a)) -> only_disables p (m ≫= f).
Proof.
  intros Hm Hf s. unfold mbind, peerM_bind. specialize (Hm s). destruct (m s) as [[a|e] s1]; cbn [fst snd] in *.
  - destruct Hm as [->|[_ [e E]]]; [apply Hf|done].
  - destruct Hm as [->|[-> _]]; [by left|]. right. by split; [|exists e].
Qed.

Lemma only_disables_active p : only_disables p (ensure_active_and_established p).
Proof.
  intros s. unfold ensure_active_and_established. case_bool_decide; [by left|]. apply only_disables_or.
Qed.

Lemma only_disables_registry p : only_disables p (ensure_registry_negotiated p).
Proof.
  intros s. unfold ensure_registry_negotiated. destruct (_ || _); [by left|].
  refine (only_disables_bind p _ _ (only_disables_or _ _ _) _ s). intros [].
  destruct (ps_negotiated s); apply only_disables_or.
Qed.

Create HintDb peer discriminated.
#[export] Hint Resolve only_disables_ret only_disables_or only_disables_active only_disables_registry : peer.

(** A chain of guards, each of which only disables [p]. *)
Ltac guards := repeat first [apply only_disables_bind; [solve [eauto with peer]|intros []] | solve [eauto with peer]].

(** An admission changes nothing but the set of disabled protocols, and that only by
    refusing. *)
Lemma admission_step s op p :
  op_protocol op = Some p ->
  exists r, (peer_step s op).1 = Some r /\
  ((peer_step s op).2 = s \/ ((peer_step s op).2 = set_disabled s ({[p]} ∪ ps_disabled s) /\ exists e, r = Err e)).
Proof.
  assert (only_disables DnsRelay admit_remote_dns_relay_provider) as Hr.
  { intros s'. unfold admit_remote_dns_relay_provider.
    match goal with |- (?m s').2 = _ \/ _ => cut (only_disables DnsRelay m); [by intros G; apply G|] end. guards. }
  assert (forall A (m : peerM A), (exists r, Some (m s).1 = Some r /\ ((m s).2 = s \/
     ((m s).2 = set_disabled s ({[p]} ∪ ps_disabled s) /\ exists e, r = Err e))) <->
     ((m s).2 = s \/ ((m s).2 = set_disabled s ({[p]} ∪ ps_disabled s) /\ exists e, (m s).1 = Err e))) as Ans.
  { intros A m. split; [by intros (r & [= <-] & H)|]. intros H. by exists (m s).1. }
  destruct op as [|n|policy|ls out ready|packet]; cbn [op_protocol peer_step]; try done.
  - intros [= <-]. specialize (Ans _ (admit_outbound_dns_relay_request policy)).
    destruct (admit_outbound_dns_relay_request policy s) as [r s'] eqn:E. cbn [fst snd] in *. apply Ans.
    unfold admit_outbound_dns_relay_request in E. case_bool_decide; [left; congruence|].
    specialize (Hr s). rewrite E in Hr. exact Hr.
  - intros [= <-]. specialize (Ans _ (admit_inbound_dns_relay_request ls out ready)).
    destruct (admit_inbound_dns_relay_request ls out ready s) as [r s'] eqn:E. cbn [fst snd] in *. apply Ans.
    unfold admit_inbound_dns_relay_request in E.
    match type of E with ?m s = _ => assert (only_disables DnsRelay m) as G by guards end.
    specialize (G s). rewrite E in G. exact G.
  - intros P. specialize (Ans _ (admit_packet packet)). destruct (admit_packet packet s) as [r s'] eqn:E.
    cbn [fst snd] in *. apply Ans. unfold admit_packet in E.
    destruct ((packet =? DNS_RELAY_REQUEST_PACKET) || (packet =? DNS_RELAY_RESPONSE_PACKET)) eqn:D.
    { unfold protocol_for_packet in P. rewrite D in P. injection P as <-. specialize (Hr s). rewrite E in Hr. exact Hr. }
    rewrite P in E. cbn zeta in E.
    match type of E with ?m s = _ => assert (only_disables p m) as G by guards end.
    specialize (G s). rewrite E in G. exact G.
Qed.

(** Guards that disable [p] whenever they refuse. *)
Definition refusal_disables {A} (p : PeerProtocol) (m : peerM A) : Prop :=
  forall s e s', m s = (Err e, s') -> p ∈ ps_disabled s'.

Lemma refusal_ret {A} p (a : A) : refusal_disables p (mret a).
Proof. by intros s e s'. Qed.

Lemma refusal_or p ok e : refusal_disables p (or_disable p ok e).
Proof. intros s e' s'. unfold or_disable. destruct ok; [done|]. intros [= <- <-]. cbn. set_solver. Qed.

Lemma refusal_active p : refusal_disables p (ensure_active_and_established p).
Proof.
  intros s e s'. unfold ensure_active_and_established. case_bool_decide; [by intros [= <- <-]|]. apply refusal_or.
Qed.

Lemma refusal_bind {A B} p (m : peerM A) (f : A -> peerM B) :
  refusal_disables p m -> (forall a, refusal_disables p (f a)) -> refusal_disables p (m ≫= f).
Proof.
  intros Hm Hf s e s' H. unfold mbind, peerM_bind in H. destruct (m s) as [[a|e1] s1] eqn:E; [by eapply Hf|].
  injection H as <- <-. by eapply Hm.
Qed.

Lemma refusal_registry p : refusal_disables p (ensure_registry_negotiated p).
Proof.
  intros s e s'. unfold ensure_registry_negotiated. destruct (_ || _); [done|].
  apply (refusal_bind p); [apply refusal_or|]. intros []. destruct (ps_negotiated s); apply refusal_or.
Qed.

#[export] Hint Resolve refusal_ret refusal_or refusal_active refusal_registry : peer.
Ltac refusals := repeat first [apply refusal_bind; [solve [eauto with peer]|intros []] | solve [eauto with peer]].

Lemma refusal_remote : refusal_disables DnsRelay admit_remote_dns_relay_provider.
Proof.
  intros s e s' E. unfold admit_remote_dns_relay_provider in E.
  match type of E with ?m s = _ => assert (refusal_disables DnsRelay m) as G by refusals end. by eapply G.
Qed.

Lemma refusal_step s op p e s' :
  op_protocol op = Some p -> op <> AdmitOutbound RequesterDisabled ->
  peer_step s op = (Some (Err e), s') -> p ∈ ps_disabled s'.
Proof.
  destruct op as [|n|policy|ls out ready|packet]; cbn [op_protocol peer_step]; try done.
  - intros [= <-] N H. unfold admit_outbound_dns_relay_request in H. rewrite bool_decide_eq_false_2 in H by congruence.
    destruct (admit_remote_dns_relay_provider s) as [r s1] eqn:E. injection H as -> ->. by eapply refusal_remote.
  - intros [= <-] _ H. destruct (admit_inbound_dns_relay_request ls out ready s) as [r s1] eqn:E. injection H as -> ->.
    unfold admit_inbound_dns_relay_request in E.
    match type of E with ?m s = _ => assert (refusal_disables DnsRelay m) as G by refusals end. by eapply G.
  - intros P _ H. destruct (admit_packet packet s) as [r s1] eqn:E. injection H as -> ->. unfold admit_packet in E.
    destruct ((packet =? DNS_RELAY_REQUEST_PACKET) || (packet =? DNS_RELAY_RESPONSE_PACKET)) eqn:D.
    { unfold protocol_for_packet in P. rewrite D in P. injection P as <-. by eapply refusal_remote. }
    rewrite P in E. cbn zeta in E.
    match type of E with ?m s = _ => assert (refusal_disables p m) as G by refusals end. by eapply G.
Qed.

(** A disabled protocol is refused by the first guard. *)
Lemma disabled_refused s op p :
  op_protocol op = Some p -> p ∈ ps_disabled s ->
  exists e s', peer_step s op = (Some (Err e), s') /\ p ∈ ps_disabled s'.
Proof.
  intros P D.
  assert (forall A (f : unit -> peerM A), (ensure_active_and_established p ≫= f) s = (Err (ProtocolDisabled p), s)) as G.
  { intros A f. unfold mbind, peerM_bind, ensure_active_and_established. by rewrite (bool_decide_eq_true_2 _ D). }
  destruct op as [|n|policy|ls out ready|packet]; cbn [op_protocol peer_step] in *; try done.
  - injection P as <-. unfold admit_outbound_dns_relay_request, admit_remote_dns_relay_provider.
    case_bool_decide; [by do 2 eexists|]. rewrite G. by do 2 eexists.
  - injection P as <-. unfold admit_inbound_dns_relay_request. rewrite G. by do 2 eexists.
  - unfold admit_packet, admit_remote_dns_relay_provider.
    destruct ((packet =? DNS_RELAY_REQUEST_PACKET) || (packet =? DNS_RELAY_RESPONSE_PACKET)) eqn:B.
    + unfold protocol_for_packet in P. rewrite B in P. injection P as <-. rewrite G. by do 2 eexists.
    + rewrite P. cbn zeta. rewrite G. by do 2 eexists.
Qed.

Lemma admit_none s packet :
  protocol_for_packet packet = None -> (admit_packet packet s).2 = s.
Proof.
  intros P. unfold admit_packet. destruct (_ || _) eqn:B; [|by rewrite P].
  unfold protocol_for_packet in P. by rewrite B in P.
Qed.

Lemma step_keeps_disabled s op p : p ∈ ps_disabled s -> p ∈ ps_disabled (peer_step s op).2.
Proof.
  intros D. destruct (op_protocol op) as [q|] eqn:P.
  - destruct (admission_step s op q P) as (r & _ & [->|[-> _]]); [done|]. cbn. set_solver.
  - destruct op as [|n|policy|ls out ready|packet]; cbn [peer_step op_protocol] in *; try done.
    + unfold install_negotiation. repeat case_match; done.
    + pose proof (admit_none s packet P) as E. destruct (admit_packet packet s). cbn in *. by subst.
Qed.

Lemma step_keeps_inv s op : peer_inv s -> peer_inv (peer_step s op).2.
Proof.
  intros I. destruct (op_protocol op) as [q|] eqn:P.
  - destruct (admission_step s op q P) as (r & _ & [->|[-> _]]); [done|]. exact I.
  - destruct op as [|n|policy|ls out ready|packet]; cbn [peer_step op_protocol] in *; try done.
    + intros n. cbn. intros E. by destruct (I n E) as (_ & ?).
    + unfold install_negotiation. destruct (ps_established s) eqn:Es; cbn [negb]; [|exact I].
      do 3 (case_bool_decide; cbn [negb]; [|exact I]). by intros n' [= <-].
    + pose proof (admit_none s packet P) as E. destruct (admit_packet packet s). cbn in *. by subst.
Qed.

(** ** The exact condition of admission *)
Lemma peer_bind_Ok {A B} (f : A -> peerM B) (m : peerM A) s v :
  ((m ≫= f) s).1 = Ok v <-> exists a s1, m s = (Ok a, s1) /\ (f a s1).1 = Ok v.
Proof.
  unfold mbind, peerM_bind. destruct (m s) as [[a|e] s1]; split.
  - intros H. by exists a, s1.
  - by intros (? & ? & [= <- <-] & H).
  - done.
  - by intros (? & ? & [=] & _).
Qed.

Lemma guard_Ok {B} p ok e (m : peerM B) s v :
  ((or_disable p ok e ;; m) s).1 = Ok v <-> ok = true /\ (m s).1 = Ok v.
Proof.
  rewrite peer_bind_Ok. unfold or_disable. destruct ok; split.
  - by intros (u & s1 & [= <- <-] & H).
  - intros [_ H]. by exists tt, s.
  - by intros (u & s1 & [=] & H).
  - by intros [? _].
Qed.

Lemma active_Ok {B} p (m : peerM B) s v :
  ((ensure_active_and_established p ;; m) s).1 = Ok v <->
  (p ∉ ps_disabled s) /\ ps_established s = true /\ (m s).1 = Ok v.
Proof.
  rewrite peer_bind_Ok. unfold ensure_active_and_established, or_disable. case_bool_decide as D.
  - split; [by intros (u & s1 & [=] & H)|]. by intros [? _].
  - destruct (ps_established s); split; [|intros (_ & _ & H); by exists tt, s| |by intros (_ & ? & _)].
    + by intros (u & s1 & [= <- <-] & H).
    + by intros (u & s1 & [=] & H).
Qed.

Lemma registry_Ok p s v :
  peer_inv s ->
  ((ensure_registry_negotiated p ;; mret (AdmitExperimental p)) s).1 = Ok v <->
  v = AdmitExperimental p /\ (requires_registry s = true -> p <> ShakescapeExtension -> registry_agreed s).
Proof.
  intros I. rewrite peer_bind_Ok. unfold ensure_registry_negotiated, registry_agreed, advertises.
  destruct (negb (requires_registry s) || bool_decide (p = ShakescapeExtension)) eqn:B.
  - split.
    + intros (u & s1 & [= <- <-] & [= <-]). split; [done|]. intros R N. rewrite R, bool_decide_eq_false_2 in B by done. done.
    + intros [-> _]. by exists tt, s.
  - apply orb_false_iff in B as [R N]. apply negb_false_iff in R. apply bool_decide_eq_false in N.
    unfold mbind, peerM_bind, or_disable. destruct (ServiceMask_contains _ _); split.
    + destruct (ps_negotiated s) as [n|] eqn:E; [|by intros (u & s1 & [=] & _)]. destruct (I n E) as (_ & F & Nn & G).
      rewrite (bool_decide_eq_true_2 _ F). intros (u & s1 & [= <- <-] & [= <-]). split; [done|]. intros _ _.
      split; [done|]. by exists n.
    + intros [-> H]. destruct (H R N) as (_ & n & E & F & _). exists tt, s. rewrite E, (bool_decide_eq_true_2 _ F). done.
    + by intros (u & s1 & [=] & _).
    + intros [-> H]. by destruct (H R N).
Qed.

Lemma remote_Ok s v :
  peer_inv s -> (admit_remote_dns_relay_provider s).1 = Ok v <->
  v = AdmitExperimental DnsRelay /\ channel_ready s DnsRelay /\ offers s DnsRelay.
Proof.
  intros I. unfold admit_remote_dns_relay_provider, channel_ready, offers, advertises, required_service.
  rewrite active_Ok, guard_Ok, (registry_Ok _ _ _ I). tauto.
Qed.

Lemma admit_packet_Ok s packet v p :
  peer_inv s -> protocol_for_packet packet = Some p ->
  (admit_packet packet s).1 = Ok v <-> v = AdmitExperimental p /\ channel_ready s p /\ offers s p.
Proof.
  intros I P. unfold admit_packet. destruct (_ || _) eqn:B.
  { unfold protocol_for_packet in P. rewrite B in P. injection P as <-. by apply remote_Ok. }
  rewrite P. cbn zeta. rewrite active_Ok, guard_Ok, (registry_Ok _ _ _ I).
  assert ((if packet =? HNSR_PACKET then ServiceMask_contains (ps_services s) HNSR_RENDEZVOUS_SERVICE ||
             ServiceMask_contains (ps_services s) HNSR_RELAY_SERVICE
           else ServiceMask_contains (ps_services s) (required_service p)) = true <-> offers s p) as ->.
  { unfold protocol_for_packet in P. rewrite B in P. unfold offers, advertises.
    destruct (packet =? ODOH_PACKET) eqn:O.
    { injection P as <-. apply Z.eqb_eq in O as ->. done. }
    destruct (packet =? HNSR_PACKET); [injection P as <-; apply orb_true_iff|].
    destruct (packet =? SHAKESCAPE_EXTENSION_PACKET); [by injection P as <-|done]. }
  unfold channel_ready. tauto.
Qed.

Lemma inbound_Ok s ls out ready v :
  peer_inv s -> (admit_inbound_dns_relay_request ls out ready s).1 = Ok v <->
  v = AdmitExperimental DnsRelay /\ admission_ready s (AdmitInbound ls out ready) DnsRelay.
Proof.
  intros I. unfold admit_inbound_dns_relay_request, admission_ready, channel_ready, advertises.
  rewrite active_Ok, !guard_Ok, (registry_Ok _ _ _ I), negb_true_iff, andb_false_iff, negb_false_iff.
  destruct (requires_registry s); intuition congruence.
Qed.

Lemma admission_Ok s op p :
  peer_inv s ->
  (peer_step s op).1 = Some (Ok (AdmitExperimental p)) <-> op_protocol op = Some p /\ admission_ready s op p.
Proof.
  intros I. destruct op as [|n|policy|ls out ready|packet]; cbn [peer_step op_protocol].
  - split; [done|by intros [? _]].
  - split; [done|by intros [? _]].
  - unfold admit_outbound_dns_relay_request, admission_ready. case_bool_decide as D.
    { split; [done|]. intros (_ & _ & N & _). done. }
    pose proof (remote_Ok s (AdmitExperimental p) I) as R.
    destruct (admit_remote_dns_relay_provider s) as [r s1]. cbn [fst] in *. split.
    + intros [= ->]. by destruct (proj1 R eq_refl) as ([= <-] & C & O).
    + intros ([= <-] & C & _ & O). by rewrite (proj2 R).
  - pose proof (inbound_Ok s ls out ready (AdmitExperimental p) I) as R.
    destruct (admit_inbound_dns_relay_request ls out ready s) as [r s1]. cbn [fst] in *. split.
    + intros [= ->]. by destruct (proj1 R eq_refl) as ([= <-] & H).
    + intros ([= <-] & H). by rewrite (proj2 R).
  - destruct (protocol_for_packet packet) as [q|] eqn:P.
    + pose proof (admit_packet_Ok s packet (AdmitExperimental p) q I P) as R.
      destruct (admit_packet packet s) as [r s1]. unfold admission_ready. cbn [fst] in *. split.
      * intros [= ->]. by destruct (proj1 R eq_refl) as ([= <-] & C & O).
      * intros ([= <-] & C & O). by rewrite (proj2 R).
    + split; [|by intros [? _]]. unfold admit_packet. destruct (_ || _) eqn:B.
      { unfold protocol_for_packet in P. by rewrite B in P. }
      rewrite P. by destruct (0xf5 <=? packet).
Qed.

(** C20. Experimental work is admitted on a connection exactly when it may be: after any
    history, a request or a packet is admitted for a protocol if and only if the
    protocol was never disabled, the connection is established, the service is
    advertised by the side that serves it (and, for inbound DNS work, the local
    operator opted in and the backend is ready), and, where the profile asks for the
    registry, both the extension service and an installed agreement of this
    connection's registry, network and genesis are present. *)
Theorem peer_admission_exact profile network genesis fingerprint services ops op p :
  let s := (run_steps peer_step (ExperimentalPeerState_new profile network genesis fingerprint services) ops).2 in
  (peer_step s op).1 = Some (Ok (AdmitExperimental p)) <-> op_protocol op = Some p /\ admission_ready s op p.
Proof.
  intros s. apply admission_Ok. apply (run_steps_invariant _ peer_inv); [apply step_keeps_inv|]. by intros n.
Qed.

(** A refusal is final and stays with its protocol: once an admission for a protocol
    is refused by the connection (and not by the node's own requester policy), that
    protocol and no other is disabled, and every later admission for it is refused,
    whatever the peer does in between; ordinary packets remain admitted. *)
Theorem peer_refusal_final s op p e s1 later
    (P : op_protocol op = Some p) (N : op <> AdmitOutbound RequesterDisabled)
    (R : peer_step s op = (Some (Err e), s1)) :
  ps_disabled s1 = {[p]} ∪ ps_disabled s /\
  (forall op', op_protocol op' = Some p ->
     exists e', (peer_step (run_steps peer_step s1 later).2 op').1 = Some (Err e')) /\
  (forall packet, packet < DNS_RELAY_REQUEST_PACKET ->
     (peer_step (run_steps peer_step s1 later).2 (AdmitPacket packet)).1 = Some (Ok OrdinaryHandshake)).
Proof.
  pose proof (refusal_step _ _ _ _ _ P N R) as D. split; [|split].
  - destruct (admission_step s op p P) as (r & _ & H). rewrite R in H. cbn [snd] in H.
    destruct H as [->|[-> _]]; [set_solver|done].
  - intros op' P'. assert (p ∈ ps_disabled (run_steps peer_step s1 later).2) as D'.
    { apply (run_steps_invariant _ (fun s => p ∈ ps_disabled s)); [|done]. intros. by apply step_keeps_disabled. }
    destruct (disabled_refused _ _ _ P' D') as (e' & s' & E & _). exists e'. by rewrite E.
  - intros packet L. cbn [peer_step]. unfold DNS_RELAY_REQUEST_PACKET in L.
    unfold admit_packet, protocol_for_packet, DNS_RELAY_REQUEST_PACKET, DNS_RELAY_RESPONSE_PACKET, ODOH_PACKET,
      HNSR_PACKET, SHAKESCAPE_EXTENSION_PACKET.
    rewrite !(proj2 (Z.eqb_neq _ _)) by lia. cbn [orb]. by rewrite (proj2 (Z.leb_gt _ _)) by lia.
Qed.

(** A DNS request before the connection is established: the protocol stays refused
    after the connection is up. *)
Definition fresh_peer : ExperimentalPeerState :=
  ExperimentalPeerState_new LegacyDraftRegtest XRegtest (replicate 32 x01) (replicate 32 x02)
    (DNS_RELAY_SERVICE + ODOH_SERVICE).

Lemma peer_refusal_final_witness :
  exists e, (peer_step (mark_established (peer_step fresh_peer (AdmitPacket 0xf0)).2) (AdmitPacket 0xf1)).1 = Some (Err e).
Proof.
  pose proof (peer_refusal_final fresh_peer (AdmitPacket 0xf0) DnsRelay ConnectionNotEstablished
    (set_disabled fresh_peer {[DnsRelay]}) [Establish] eq_refl ltac:(discriminate) eq_refl) as (_ & H & _).
  exact (H (AdmitPacket 0xf1) eq_refl).
Defined.
