(* ===== verification/Envelope.v ===== *)
(** * hns-p2p-experimental: the extension envelope and the registry handshake

    Models [crates/hns-p2p-experimental/src/envelope.rs]: the [SKX1] envelope around
    every extension message, the classification of its header against the
    assignments of the registry, and the typed messages that carry a registry hello. *)

From stdpp Require Import gmap sorting.
From S2P Require Import Prelude Encoding Experimental Negotiation.
Local Open Scope Z_scope.

Definition SHAKESCAPE_ENVELOPE_MAGIC : list byte := bstr "SKX1".
Definition SHAKESCAPE_ENVELOPE_OVERHEAD : Z := 26.
Definition SHAKESCAPE_EXTENSION_MAX_PACKET_PAYLOAD : Z := 1048576.
Definition SHAKESCAPE_EXTENSION_MAX_NESTED_PAYLOAD : Z :=
  SHAKESCAPE_EXTENSION_MAX_PACKET_PAYLOAD - SHAKESCAPE_ENVELOPE_OVERHEAD.
Definition ATOMIC_MARKET_PROTOCOL_ID : Z := 1.
Definition ATOMIC_MARKET_PROTOCOL_VERSION : Z := 1.
Definition CROSS_CHAIN_MARKET_PROTOCOL_ID : Z := 2.
Definition CROSS_CHAIN_MARKET_PROTOCOL_VERSION : Z := 4.
Definition REGISTRY_HELLO_MESSAGE_TYPE : Z := 1.
Definition REGISTRY_HELLO_ACK_MESSAGE_TYPE : Z := 2.

Inductive KnownMessage :=
| MsgRegistryHello | MsgRegistryHelloAck | MsgRegistryReject
| MsgMarketHello | MsgGetOfferInventory | MsgOfferInventory | MsgGetOffers | MsgOffers | MsgGetOffer | MsgOffer
| MsgOfferTombstone
| MsgDirectOfferInventory | MsgGetDirectOffer | MsgDirectOffer | MsgCancelDirectOffer | MsgAcceptDirectOffer
| MsgSwapSessionHello | MsgSwapFundingStatus | MsgSwapRedeemStatus | MsgSwapRefundStatus
| MsgSwapSessionProposal | MsgSwapWatchReady.
#[global] Instance KnownMessage_eq_dec : EqDecision KnownMessage.
Proof. solve_decision. Defined.

Definition requires_request_id (m : KnownMessage) : bool :=
  match m with
  | MsgRegistryReject | MsgMarketHello | MsgOfferTombstone | MsgDirectOfferInventory | MsgCancelDirectOffer
  | MsgSwapFundingStatus | MsgSwapRedeemStatus | MsgSwapRefundStatus | MsgSwapWatchReady => false
  | _ => true
  end.

Inductive ProtocolDisposition :=
| Known (message : KnownMessage)
| UnknownProtocol (protocol_id protocol_version : Z).

Inductive EnvelopeError :=
| EnvDecode (e : DecodeError)
| EnvWrongMagic (magic : list byte)
| EnvPayloadTooLarge (actual maximum : Z)
| EnvPacketTooLarge (actual maximum : Z)
| LengthMismatch (declared available : Z)
| UnknownMessage (protocol_id message_type : Z)
| ProtocolUnavailable (registry_version protocol_id : Z)
| UnsupportedFlags (protocol_id protocol_version flags : Z)
| ZeroRequestId (protocol_id message_type : Z).

Inductive RegistryEnvelopeError :=
| RegEnvelope (e : EnvelopeError)
| RegNegotiation (e : NegotiationError)
| WrongRegistryVersion (version : Z)
| RegistryIdentityMismatch (registry_version : Z)
| WrongProtocol (protocol_id protocol_version : Z)
| RegUnsupportedFlags (flags : Z)
| UnexpectedMessage (expected actual : KnownMessage).

Record ShakescapeExtensionEnvelope := mkEnvelope {
  ev_registry_version : Z;
  ev_protocol_id : Z;
  ev_protocol_version : Z;
  ev_message_type : Z;
  ev_flags : Z;
  ev_request_id : Z;
  ev_payload : list byte;
}.

(** The version of a protocol this node speaks. *)
Definition supported_protocol_version (registry_version protocol_id : Z) : option Z :=
  if protocol_id =? REGISTRY_NEGOTIATION_PROTOCOL_ID then Some REGISTRY_NEGOTIATION_PROTOCOL_VERSION
  else if protocol_id =? ATOMIC_MARKET_PROTOCOL_ID then Some ATOMIC_MARKET_PROTOCOL_VERSION
  else if (protocol_id =? CROSS_CHAIN_MARKET_PROTOCOL_ID) && (registry_version =? SHAKESCAPE_V1_REGISTRY_VERSION)
  then Some CROSS_CHAIN_MARKET_PROTOCOL_VERSION
  else None.

Definition registry_message_type (t : Z) : option KnownMessage :=
  match t with 1 => Some MsgRegistryHello | 2 => Some MsgRegistryHelloAck | 3 => Some MsgRegistryReject | _ => None end.
Definition atomic_message_type (t : Z) : option KnownMessage :=
  match t with
  | 1 => Some MsgMarketHello | 2 => Some MsgGetOfferInventory | 3 => Some MsgOfferInventory | 4 => Some MsgGetOffers
  | 5 => Some MsgOffers | 6 => Some MsgGetOffer | 7 => Some MsgOffer | 8 => Some MsgOfferTombstone | _ => None
  end.
Definition cross_chain_message_type (t : Z) : option KnownMessage :=
  match t with
  | 1 => Some MsgDirectOfferInventory | 2 => Some MsgGetDirectOffer | 3 => Some MsgDirectOffer
  | 4 => Some MsgCancelDirectOffer | 5 => Some MsgAcceptDirectOffer | 6 => Some MsgSwapSessionProposal
  | 7 => Some MsgSwapSessionHello | 8 => Some MsgSwapFundingStatus | 9 => Some MsgSwapRedeemStatus
  | 10 => Some MsgSwapRefundStatus | 11 => Some MsgSwapWatchReady | _ => None
  end.

(** The match on (registry version, protocol, message type): the messages of a known
    protocol, its unknown messages as errors, and [None] for other protocols. *)
Definition known_message (registry_version protocol_id message_type : Z)
  : result EnvelopeError (option KnownMessage) :=
  let of_table (m : option KnownMessage) : result EnvelopeError (option KnownMessage) :=
    match m with Some m => Ok (Some m) | None => Err (UnknownMessage protocol_id message_type) end in
  if protocol_id =? REGISTRY_NEGOTIATION_PROTOCOL_ID then of_table (registry_message_type message_type)
  else if protocol_id =? ATOMIC_MARKET_PROTOCOL_ID then of_table (atomic_message_type message_type)
  else if (registry_version =? SHAKESCAPE_V1_REGISTRY_VERSION) && (protocol_id =? CROSS_CHAIN_MARKET_PROTOCOL_ID)
  then of_table (cross_chain_message_type message_type)
  else Ok None.

Definition classify (e : ShakescapeExtensionEnvelope) : result EnvelopeError ProtocolDisposition :=
  let unknown := UnknownProtocol (ev_protocol_id e) (ev_protocol_version e) in
  let by_message :=
    known ← known_message (ev_registry_version e) (ev_protocol_id e) (ev_message_type e);
    match known with
    | Some message =>
      assert_or (negb (requires_request_id message && (ev_request_id e =? 0)))
        (ZeroRequestId (ev_protocol_id e) (ev_message_type e)) ;;
      Ok (Known message)
    | None => Ok unknown
    end in
  match supported_protocol_version (ev_registry_version e) (ev_protocol_id e) with
  | Some expected =>
    if negb (ev_protocol_version e =? expected) then Ok unknown
    else
      assert_or (ev_flags e =? 0) (UnsupportedFlags (ev_protocol_id e) (ev_protocol_version e) (ev_flags e)) ;;
      by_message
  | None => by_message
  end.

Definition validate_size (e : ShakescapeExtensionEnvelope) (maximum_payload : Z) : result EnvelopeError unit :=
  assert_or (negb ((maximum_payload <? len (ev_payload e)) || (u32_max <? len (ev_payload e))))
    (EnvPayloadTooLarge (len (ev_payload e)) (Z.min maximum_payload u32_max)).

Definition Envelope_encode (e : ShakescapeExtensionEnvelope) (maximum_payload : Z) : result EnvelopeError (list byte) :=
  validate_size e maximum_payload ;;
  _ ← classify e;
  assert_or (len (ev_payload e) <=? u32_max)
    (EnvPayloadTooLarge (len (ev_payload e)) (Z.min maximum_payload u32_max)) ;;
  let encoder := with_capacity (SHAKESCAPE_ENVELOPE_OVERHEAD + len (ev_payload e)) in
  let encoder := put_bytes encoder SHAKESCAPE_ENVELOPE_MAGIC in
  let encoder := put_u16_le encoder (ev_registry_version e) in
  let encoder := put_u16_le encoder (ev_protocol_id e) in
  let encoder := put_u16_le encoder (ev_protocol_version e) in
  let encoder := put_u16_le encoder (ev_message_type e) in
  let encoder := put_u16_le encoder (ev_flags e) in
  let encoder := put_u64_le encoder (ev_request_id e) in
  let encoder := put_u32_le encoder (len (ev_payload e)) in
  let encoder := put_bytes encoder (ev_payload e) in
  Ok (into_bytes encoder).

Definition Envelope_encode_canonical (e : ShakescapeExtensionEnvelope) : result EnvelopeError (list byte) :=
  Envelope_encode e SHAKESCAPE_EXTENSION_MAX_NESTED_PAYLOAD.

(** The fixed fields: an envelope without its payload, and the declared length. *)
Definition read_envelope_header : decM EnvelopeError (ShakescapeExtensionEnvelope * Z) :=
  magic ← lift_err EnvDecode (read_array 4);
  lift_res (assert_or (bool_decide (magic = SHAKESCAPE_ENVELOPE_MAGIC)) (EnvWrongMagic magic)) ;;
  registry_version ← lift_err EnvDecode read_u16_le;
  protocol_id ← lift_err EnvDecode read_u16_le;
  protocol_version ← lift_err EnvDecode read_u16_le;
  message_type ← lift_err EnvDecode read_u16_le;
  flags ← lift_err EnvDecode read_u16_le;
  request_id ← lift_err EnvDecode read_u64_le;
  payload_length ← lift_err EnvDecode read_u32_le;
  mret (mkEnvelope registry_version protocol_id protocol_version message_type flags request_id [], payload_length).

Definition with_payload (e : ShakescapeExtensionEnvelope) (payload : list byte) : ShakescapeExtensionEnvelope :=
  mkEnvelope (ev_registry_version e) (ev_protocol_id e) (ev_protocol_version e) (ev_message_type e) (ev_flags e)
    (ev_request_id e) payload.

Definition read_envelope (maximum_payload : Z) : decM EnvelopeError ShakescapeExtensionEnvelope :=
  '(header, payload_length) ← read_envelope_header;
  lift_res (assert_or (payload_length <=? maximum_payload) (EnvPayloadTooLarge payload_length maximum_payload)) ;;
  decoder ← dec_get;
  lift_res (assert_or (payload_length =? remaining decoder) (LengthMismatch payload_length (remaining decoder))) ;;
  payload ← lift_err EnvDecode (read_bounded_vec payload_length maximum_payload);
  mret (with_payload header payload).

Definition Envelope_decode (input : list byte) (maximum_payload : Z) : result EnvelopeError ShakescapeExtensionEnvelope :=
  envelope ← run_all EnvDecode (read_envelope maximum_payload) input;
  _ ← classify envelope;
  Ok envelope.

Definition Envelope_decode_canonical (input : list byte) : result EnvelopeError ShakescapeExtensionEnvelope :=
  assert_or (len input <=? SHAKESCAPE_EXTENSION_MAX_PACKET_PAYLOAD)
    (EnvPacketTooLarge (len input) SHAKESCAPE_EXTENSION_MAX_PACKET_PAYLOAD) ;;
  Envelope_decode input SHAKESCAPE_EXTENSION_MAX_NESTED_PAYLOAD.

(** ** Typed registry messages *)
Definition validate_registry_identity (registry_version : Z) (hello : RegistryHello)
  : result RegistryEnvelopeError unit :=
  expected_fingerprint ←
    (if registry_version =? SHAKESCAPE_V1_REGISTRY_VERSION then Ok SHAKESCAPE_V1_REGISTRY_FINGERPRINT
     else Err (WrongRegistryVersion registry_version));
  assert_or (negb (negb (bool_decide (rh_fingerprint hello = expected_fingerprint)) ||
                   negb (bool_decide (rh_registry_versions hello = [registry_version]))))
    (RegistryIdentityMismatch registry_version) ;;
  assert_or (negb ((registry_version =? SHAKESCAPE_V1_REGISTRY_VERSION) &&
                   existsb (fun protocol => pg_protocol_id protocol =? CROSS_CHAIN_MARKET_PROTOCOL_ID)
                     (rh_protocols hello)))
    (RegEnvelope (ProtocolUnavailable registry_version CROSS_CHAIN_MARKET_PROTOCOL_ID)).

Definition registry_message (registry_version message_type request_id : Z) (hello : RegistryHello)
  : result RegistryEnvelopeError ShakescapeExtensionEnvelope :=
  validate_registry_identity registry_version hello ;;
  payload ← map_err RegNegotiation (RegistryHello_encode hello);
  assert_or (len payload <=? REGISTRY_NEGOTIATION_MAX_PAYLOAD)
    (RegEnvelope (EnvPayloadTooLarge (len payload) REGISTRY_NEGOTIATION_MAX_PAYLOAD)) ;;
  let envelope := mkEnvelope registry_version REGISTRY_NEGOTIATION_PROTOCOL_ID REGISTRY_NEGOTIATION_PROTOCOL_VERSION
    message_type 0 request_id payload in
  _ ← map_err RegEnvelope (classify envelope);
  Ok envelope.

Definition registry_hello : Z -> RegistryHello -> result RegistryEnvelopeError ShakescapeExtensionEnvelope :=
  registry_message SHAKESCAPE_V1_REGISTRY_VERSION REGISTRY_HELLO_MESSAGE_TYPE.
Definition registry_hello_ack : Z -> RegistryHello -> result RegistryEnvelopeError ShakescapeExtensionEnvelope :=
  registry_message SHAKESCAPE_V1_REGISTRY_VERSION REGISTRY_HELLO_ACK_MESSAGE_TYPE.

Definition decode_registry_message (input : list byte) (expected_registry_version : Z) (expected : KnownMessage)
  : result RegistryEnvelopeError (Z * RegistryHello) :=
  assert_or (len input <=? SHAKESCAPE_EXTENSION_MAX_PACKET_PAYLOAD)
    (RegEnvelope (EnvPacketTooLarge (len input) SHAKESCAPE_EXTENSION_MAX_PACKET_PAYLOAD)) ;;
  envelope ← map_err RegEnvelope (Envelope_decode input REGISTRY_NEGOTIATION_MAX_PAYLOAD);
  assert_or (ev_registry_version envelope =? expected_registry_version)
    (WrongRegistryVersion (ev_registry_version envelope)) ;;
  assert_or (negb (negb (ev_protocol_id envelope =? REGISTRY_NEGOTIATION_PROTOCOL_ID) ||
                   negb (ev_protocol_version envelope =? REGISTRY_NEGOTIATION_PROTOCOL_VERSION)))
    (WrongProtocol (ev_protocol_id envelope) (ev_protocol_version envelope)) ;;
  assert_or (ev_flags envelope =? 0) (RegUnsupportedFlags (ev_flags envelope)) ;;
  disposition ← map_err RegEnvelope (classify envelope);
  actual ← match disposition with
    | Known actual => Ok actual
    | UnknownProtocol _ _ => Err (WrongProtocol (ev_protocol_id envelope) (ev_protocol_version envelope))
    end;
  assert_or (bool_decide (actual = expected)) (UnexpectedMessage expected actual) ;;
  hello ← map_err RegNegotiation (RegistryHello_decode (ev_payload envelope));
  validate_registry_identity expected_registry_version hello ;;
  Ok (ev_request_id envelope, hello).

Definition decode_registry_hello (input : list byte) : result RegistryEnvelopeError (Z * RegistryHello) :=
  decode_registry_message input SHAKESCAPE_V1_REGISTRY_VERSION MsgRegistryHello.
Definition decode_registry_hello_ack (input : list byte) : result RegistryEnvelopeError (Z * RegistryHello) :=
  decode_registry_message input SHAKESCAPE_V1_REGISTRY_VERSION MsgRegistryHelloAck.

(** ** The envelope codec *)
Definition header_bytes (e : ShakescapeExtensionEnvelope) (payload_length : Z) : list byte :=
  SHAKESCAPE_ENVELOPE_MAGIC ++ to_le_bytes 2 (ev_registry_version e) ++ to_le_bytes 2 (ev_protocol_id e) ++
  to_le_bytes 2 (ev_protocol_version e) ++ to_le_bytes 2 (ev_message_type e) ++ to_le_bytes 2 (ev_flags e) ++
  to_le_bytes 8 (ev_request_id e) ++ to_le_bytes 4 payload_length.

Definition envelope_bytes (e : ShakescapeExtensionEnvelope) : list byte :=
  header_bytes e (len (ev_payload e)) ++ ev_payload e.

(** The field types of the Rust structure. *)
Record envelope_wf (e : ShakescapeExtensionEnvelope) : Prop := mkEnvelopeWf {
  ew_registry_version : u16 (ev_registry_version e);
  ew_protocol_id : u16 (ev_protocol_id e);
  ew_protocol_version : u16 (ev_protocol_version e);
  ew_message_type : u16 (ev_message_type e);
  ew_flags : u16 (ev_flags e);
  ew_request_id : u64 (ev_request_id e);
}.

Lemma len_header_bytes e n : len (header_bytes e n) = SHAKESCAPE_ENVELOPE_OVERHEAD.
Proof. unfold header_bytes. rewrite !len_app, !len_to_le_bytes. done. Qed.

Lemma envelope_encode_Ok e maximum bs :
  Envelope_encode e maximum = Ok bs <->
  len (ev_payload e) <= maximum /\ len (ev_payload e) <= u32_max /\ (exists d, classify e = Ok d) /\
  bs = envelope_bytes e.
Proof.
  unfold Envelope_encode, validate_size.
  match goal with |- context [Ok (into_bytes ?x)] => assert (into_bytes x = envelope_bytes e) as -> end.
  { unfold into_bytes, envelope_bytes, header_bytes.
    rewrite bytes_put_bytes, bytes_put_u32, bytes_put_u64, !bytes_put_u16, bytes_put_bytes, bytes_with_capacity.
    by rewrite <- !app_assoc. }
  split.
  - intros H. apply bind_Ok in H as (u & L & H). apply bind_Ok in H as (d & C & H).
    apply bind_Ok in H as (u' & _ & [= <-]). apply assert_or_Ok in L.
    rewrite negb_true_iff, orb_false_iff, !Z.ltb_ge in L. destruct L. split_and!; try done. by exists d.
  - intros (L & L' & (d & C) & ->). rewrite (proj2 (Z.ltb_ge maximum _)), (proj2 (Z.ltb_ge u32_max _)) by done.
    cbn [negb orb assert_or mbind result_bind]. rewrite C. cbn [mbind result_bind].
    by rewrite (proj2 (Z.leb_le _ u32_max)).
Qed.

Lemma header_read_inv d e n d' :
  dec_wf d -> read_envelope_header d = (Ok (e, n), d') ->
  took d (header_bytes e n) d' /\ envelope_wf e /\ u32 n /\ ev_payload e = [].
Proof.
  intros W H. unfold read_envelope_header in H. dbind H as magic d1 H1. dbind H as u1 d1' C1.
  apply assert_or_Ok, bool_decide_eq_true in C1. subst magic.
  dbind H as rv d2 H2. dbind H as pi d3 H3. dbind H as pv d4 H4. dbind H as mt d5 H5. dbind H as fl d6 H6.
  dbind H as ri d7 H7. dbind H as pl d8 H8. apply dec_ret_Ok in H as ([= <- <-] & ->). took_all.
  split; [|by split_and!]. unfold header_bytes.
  cbn [ev_registry_version ev_protocol_id ev_protocol_version ev_message_type ev_flags ev_request_id]. took_chain.
Qed.

Lemma header_reads d e n :
  envelope_wf e -> u32 n -> reads d read_envelope_header (header_bytes e n) (with_payload e [], n).
Proof.
  intros [R I V M F Q] N. unfold read_envelope_header, header_bytes.
  eapply reads_bind; [by apply reads_err, read_array_reads|].
  eapply reads_nil_bind; [by apply reads_assert, bool_decide_eqb_refl|].
  do 5 (eapply reads_bind; [by apply reads_err, read_u16_reads|]).
  eapply reads_bind; [by apply reads_err, read_u64_reads|].
  eapply reads_last; [by apply reads_err, read_u32_reads|]. apply reads_ret.
Qed.

Lemma with_payload_eq e p : ev_payload e = p -> with_payload (with_payload e []) p = e.
Proof. intros <-. by destruct e. Qed.

Lemma envelope_decode_Ok input maximum e :
  len input <= isize_max ->
  Envelope_decode input maximum = Ok e <-> envelope_wf e /\ Envelope_encode e maximum = Ok input.
Proof.
  intros L. unfold Envelope_decode. rewrite envelope_encode_Ok, bind_Ok. setoid_rewrite bind_Ok. split.
  - intros (e' & R & dis & C & [= <-]). apply run_all_Ok in R as (d & R & Fi). unfold read_envelope in R.
    dbind R as hn d1 H1. destruct hn as [h n]. dbind R as u1 d1' C1. dbind R as dd d2 H2.
    unfold dec_get in H2. injection H2 as <- <-. dbind R as u2 d2' C2. dbind R as payload d3 H3.
    apply dec_ret_Ok in R as (<- & ->). apply header_read_inv in H1 as (T1 & W & N & P); [|by apply wf_new].
    apply assert_or_Ok, Z.leb_le in C1. took_all. apply read_bounded_vec_inv in H3 as (T3 & Ln & Lm); [|destruct N; lia|done].
    pose proof (took_trans _ _ _ _ _ T1 T3) as T. apply took_finish in T; [|done].
    assert (envelope_wf (with_payload h payload)) as Wp by by destruct W. split; [done|].
    split; [cbn; lia|]. split; [destruct N; cbn; lia|]. split; [by exists dis|].
    unfold envelope_bytes. cbn [with_payload ev_payload]. by rewrite Ln.
  - intros (W & Lm & Lu & (dis & C) & ->). exists e. split; [|by exists dis].
    pose proof (len_nonneg (ev_payload e)) as Lp. apply run_all_Ok. eexists. split; [|apply finish_all].
    unfold read_envelope, envelope_bytes in *. unfold mbind at 1, decM_bind at 1.
    rewrite (header_reads _ e (len (ev_payload e)) W ltac:(ulia) (ev_payload e)); [|by apply wf_new|by rewrite rest_new].
    pose proof (took_advance (Decoder_new (header_bytes e (len (ev_payload e)) ++ ev_payload e)) _ (ev_payload e)
      (wf_new _ L) (rest_new _)) as T.
    rewrite (proj2 (Z.leb_le _ _) Lm). unfold mbind, decM_bind, lift_res, assert_or, dec_get.
    assert (remaining (advance (Decoder_new (header_bytes e (len (ev_payload e)) ++ ev_payload e))
      (len (header_bytes e (len (ev_payload e))))) = len (ev_payload e)) as ->.
    { unfold remaining, advance, Decoder_new. cbn [position Encoding.input]. rewrite len_app. lia. }
    rewrite Z.eqb_refl. unfold lift_err.
    rewrite (read_bounded_vec_reads _ (ev_payload e) maximum Lm []); [|by eapply took_wf|].
    2:{ rewrite app_nil_r. apply rest_advance; [by apply wf_new|apply rest_new]. }
    rewrite advance_advance, <- len_app. cbn [map_err mret decM_ret]. unfold mret, decM_ret.
    by rewrite with_payload_eq.
Qed.

(** Envelopes have one spelling: canonical decoding accepts a packet exactly when it
    is the canonical encoding of the well-typed envelope it returns, so messages
    with a wrong magic or length, flags or zero request identifiers where a known
    protocol forbids them, or unknown messages of known protocols never decode, and
    every envelope that encodes is read back. *)
Theorem envelope_codec input e (L : len input <= isize_max) :
  Envelope_decode_canonical input = Ok e <-> envelope_wf e /\ Envelope_encode_canonical e = Ok input.
Proof.
  unfold Envelope_decode_canonical, Envelope_encode_canonical. split.
  - intros H. apply bind_Ok in H as (u & _ & H). by apply envelope_decode_Ok.
  - intros [W H]. pose proof H as E. apply envelope_encode_Ok in E as (Lm & _ & _ & Eb).
    rewrite (proj2 (Z.leb_le _ _)); [by apply envelope_decode_Ok|]. subst input. unfold envelope_bytes.
    rewrite len_app, len_header_bytes. unfold SHAKESCAPE_EXTENSION_MAX_NESTED_PAYLOAD in Lm. lia.
Qed.

Definition example_envelope : ShakescapeExtensionEnvelope := mkEnvelope 1 1 1 6 0 9 [x01; x02].

Lemma envelope_codec_witness :
  Envelope_decode_canonical (envelope_bytes example_envelope) = Ok example_envelope.
Proof.
  apply (envelope_codec (envelope_bytes example_envelope)); [vm_compute; discriminate|]. split; [|vm_compute; reflexivity].
  split; vm_compute; split; discriminate.
Defined.

(** ** The registry handshake *)
Definition identity_ok (h : RegistryHello) : Prop :=
  rh_fingerprint h = SHAKESCAPE_V1_REGISTRY_FINGERPRINT /\ rh_registry_versions h = [SHAKESCAPE_V1_REGISTRY_VERSION] /\
  forall r, r ∈ rh_protocols h -> pg_protocol_id r <> CROSS_CHAIN_MARKET_PROTOCOL_ID.

Lemma validate_identity_Ok h :
  validate_registry_identity SHAKESCAPE_V1_REGISTRY_VERSION h = Ok tt <-> identity_ok h.
Proof.
  unfold validate_registry_identity, identity_ok. rewrite Z.eqb_refl. cbn [mbind result_bind andb].
  assert (existsb (fun r => pg_protocol_id r =? CROSS_CHAIN_MARKET_PROTOCOL_ID) (rh_protocols h) = false <->
    forall r, r ∈ rh_protocols h -> pg_protocol_id r <> CROSS_CHAIN_MARKET_PROTOCOL_ID) as E.
  { rewrite <- not_true_iff_false, List.existsb_exists. setoid_rewrite <- list_elem_of_In. setoid_rewrite Z.eqb_eq. naive_solver. }
  rewrite <- E. split.
  - intros H. apply bind_Ok in H as (u & F & C). apply assert_or_Ok in F, C.
    rewrite negb_true_iff, orb_false_iff, !negb_false_iff, !bool_decide_eq_true in F. destruct F.
    by rewrite negb_true_iff in C.
  - intros (F & V & C). rewrite (bool_decide_eq_true_2 _ F), (bool_decide_eq_true_2 _ V). cbn. by rewrite C.
Qed.

Lemma identity_sorted h : identity_ok h -> identity_ok (hello_sorted h).
Proof.
  intros (F & V & C). unfold identity_ok. cbn [hello_sorted rh_fingerprint rh_registry_versions rh_protocols].
  split_and!; [done|by rewrite V|]. setoid_rewrite elem_sorted_range. done.
Qed.

(** A hello or an acknowledgement as an envelope. *)
Lemma registry_message_Ok message_type request_id h e :
  registry_message SHAKESCAPE_V1_REGISTRY_VERSION message_type request_id h = Ok e <->
  identity_ok h /\ hello_valid h /\ len (hello_bytes (hello_sorted h)) <= REGISTRY_NEGOTIATION_MAX_PAYLOAD /\
  e = mkEnvelope SHAKESCAPE_V1_REGISTRY_VERSION REGISTRY_NEGOTIATION_PROTOCOL_ID REGISTRY_NEGOTIATION_PROTOCOL_VERSION
        message_type 0 request_id (hello_bytes (hello_sorted h)) /\ exists d, classify e = Ok d.
Proof.
  unfold registry_message. split.
  - intros H. apply bind_Ok in H as ([] & I & H). apply bind_Ok in H as (payload & P & H).
    apply bind_Ok in H as (u & L & H). apply bind_Ok in H as (d & C & [= <-]).
    apply map_err_Ok in P, C. apply hello_encode_Ok in P as (V & ->). apply assert_or_Ok, Z.leb_le in L.
    split_and!; [by apply validate_identity_Ok|done|done|done|by exists d].
  - intros (I & V & L & -> & d & C). rewrite (proj2 (validate_identity_Ok h) I). cbn [mbind result_bind].
    rewrite (proj2 (hello_encode_Ok h _) (conj V eq_refl)). cbn [map_err mbind result_bind].
    rewrite (proj2 (Z.leb_le _ _) L). cbn [assert_or mbind result_bind]. by rewrite C.
Qed.

Lemma classify_registry e message :
  ev_protocol_id e = REGISTRY_NEGOTIATION_PROTOCOL_ID -> ev_protocol_version e = REGISTRY_NEGOTIATION_PROTOCOL_VERSION ->
  ev_flags e = 0 -> registry_message_type (ev_message_type e) = Some message -> requires_request_id message = true ->
  (exists d, classify e = Ok d) <-> ev_request_id e <> 0 /\ classify e = Ok (Known message).
Proof.
  intros P V F M R. unfold classify, known_message, supported_protocol_version. rewrite P, V, F, M. rewrite !Z.eqb_refl.
  cbn [negb assert_or mbind result_bind]. rewrite R.
  destruct (Z.eqb_spec (ev_request_id e) 0); cbn; split; try done.
  - by intros [d [=]].
  - by intros [? _].
  - by intros _; eexists.
Qed.

(** Sending a hello and receiving it: the reader gets the same request and the hello
    in sorted form. *)
Lemma registry_message_delivered message_type message request_id h e :
  hello_wf h -> u64 request_id -> registry_message_type message_type = Some message ->
  requires_request_id message = true ->
  registry_message SHAKESCAPE_V1_REGISTRY_VERSION message_type request_id h = Ok e ->
  exists wire, Envelope_encode_canonical e = Ok wire /\
    decode_registry_message wire SHAKESCAPE_V1_REGISTRY_VERSION message = Ok (request_id, hello_sorted h).
Proof.
  intros W Q M R H. apply registry_message_Ok in H as (I & V & L & -> & C).
  set (e := mkEnvelope _ _ _ _ _ _ _) in *. assert (1 <= message_type <= 3) as Mt.
  { destruct (decide (1 <= message_type <= 3)) as [|N]; [done|]. exfalso. revert M. unfold registry_message_type.
    destruct message_type as [|[[]|[]|]|]; try done; lia. }
  destruct (proj1 (classify_registry e message eq_refl eq_refl eq_refl M R) C) as [_ Ck].
  assert (envelope_wf e) as We by (split; cbn [e ev_registry_version ev_protocol_id ev_protocol_version
    ev_message_type ev_flags ev_request_id]; unfold u16, u64, u16_max, u64_max, SHAKESCAPE_V1_REGISTRY_VERSION,
    REGISTRY_NEGOTIATION_PROTOCOL_ID, REGISTRY_NEGOTIATION_PROTOCOL_VERSION, SHAKESCAPE_V1_REGISTRY_PROTOCOL_VERSION in *; lia).
  assert (forall maximum, REGISTRY_NEGOTIATION_MAX_PAYLOAD <= maximum -> Envelope_encode e maximum = Ok (envelope_bytes e)) as En.
  { intros maximum Lm. apply envelope_encode_Ok. unfold REGISTRY_NEGOTIATION_MAX_PAYLOAD in *. cbn [ev_payload e].
    split_and!; [lia|unfold u32_max; lia|done|done]. }
  exists (envelope_bytes e). split; [by apply En|].
  assert (len (envelope_bytes e) <= SHAKESCAPE_ENVELOPE_OVERHEAD + REGISTRY_NEGOTIATION_MAX_PAYLOAD) as Le.
  { unfold envelope_bytes. rewrite len_app, len_header_bytes. cbn [ev_payload e]. lia. }
  change (SHAKESCAPE_ENVELOPE_OVERHEAD + REGISTRY_NEGOTIATION_MAX_PAYLOAD) with 16410 in Le.
  unfold decode_registry_message. rewrite (proj2 (Z.leb_le _ SHAKESCAPE_EXTENSION_MAX_PACKET_PAYLOAD))
    by (unfold SHAKESCAPE_EXTENSION_MAX_PACKET_PAYLOAD; lia). cbn [assert_or mbind result_bind].
  rewrite (proj2 (envelope_decode_Ok (envelope_bytes e) REGISTRY_NEGOTIATION_MAX_PAYLOAD e ltac:(unfold isize_max; lia))
    (conj We (En _ (Z.le_refl _)))). cbn [map_err mbind result_bind ev_registry_version ev_protocol_id
    ev_protocol_version ev_flags ev_request_id ev_payload e]. rewrite !Z.eqb_refl. cbn [negb orb assert_or mbind result_bind].
  fold e. rewrite Ck. cbn [map_err mbind result_bind]. rewrite bool_decide_eqb_refl. cbn [assert_or mbind result_bind].
  rewrite (proj2 (hello_decode_Ok (hello_bytes (hello_sorted h)) (hello_sorted h) ltac:(unfold REGISTRY_NEGOTIATION_MAX_PAYLOAD in L; unfold isize_max; lia))
    (conj (hello_sorted_wf h W) (conj (proj2 (hello_sorted_valid h) V) eq_refl))). cbn [map_err mbind result_bind].
  by rewrite (proj2 (validate_identity_Ok _) (identity_sorted h I)).
Qed.

(** The registry handshake works end to end: when one side can form a hello and the
    other an acknowledgement, both envelopes encode, each side decodes the other's
    message with its request identifier, and the agreement each side computes from
    its own hello and the received one is the same. *)
Theorem registry_handshake_agrees a b request_id ea eb
    (Wa : hello_wf a) (Wb : hello_wf b) (Q : u64 request_id)
    (Ha : registry_hello request_id a = Ok ea) (Hb : registry_hello_ack request_id b = Ok eb) :
  exists wa wb a' b',
    Envelope_encode_canonical ea = Ok wa /\ Envelope_encode_canonical eb = Ok wb /\
    decode_registry_hello wa = Ok (request_id, a') /\ decode_registry_hello_ack wb = Ok (request_id, b') /\
    forall n, NegotiatedRegistry_negotiate a b' = Ok n <-> NegotiatedRegistry_negotiate b a' = Ok n.
Proof.
  destruct (registry_message_delivered REGISTRY_HELLO_MESSAGE_TYPE MsgRegistryHello _ _ _ Wa Q eq_refl eq_refl Ha) as (wa & Ea & Da).
  destruct (registry_message_delivered REGISTRY_HELLO_ACK_MESSAGE_TYPE MsgRegistryHelloAck _ _ _ Wb Q eq_refl eq_refl Hb) as (wb & Eb & Db).
  exists wa, wb, (hello_sorted a), (hello_sorted b). split_and!; try done. intros n.
  rewrite !negotiate_sorted, !negotiate_Ok. split; apply agreement_comm.
Qed.

(** C23. The cross-chain market cannot be negotiated: a hello that offers protocol
    [0x0002] is refused by both constructors, and no agreement made with a hello
    received over the wire supports any version of it. *)
Theorem cross_chain_never_negotiated :
  (forall h r request_id, r ∈ rh_protocols h -> pg_protocol_id r = CROSS_CHAIN_MARKET_PROTOCOL_ID ->
     (forall e, registry_hello request_id h <> Ok e) /\ (forall e, registry_hello_ack request_id h <> Ok e)) /\
  (forall wire message request_id local remote n version,
     decode_registry_message wire SHAKESCAPE_V1_REGISTRY_VERSION message = Ok (request_id, remote) ->
     NegotiatedRegistry_negotiate local remote = Ok n ->
     NegotiatedRegistry_supports n CROSS_CHAIN_MARKET_PROTOCOL_ID version = false).
Proof.
  split.
  - intros h r request_id I E. split; intros e H; apply registry_message_Ok in H as ((_ & _ & C) & _); by apply (C r).
  - intros wire message request_id local remote n version D A. unfold decode_registry_message in D.
    repeat (apply bind_Ok in D as (? & ? & D)). injection D as <- <-.
    match goal with H : validate_registry_identity _ _ = Ok ?u |- _ => destruct u; apply validate_identity_Ok in H as (_ & _ & C) end.
    apply bool_decide_eq_false. intros I. apply negotiate_Ok in A. apply (ag_protocols _ _ _ A) in I.
    rewrite decide_False in I by done. destruct I as (_ & (r & Ir & Er & _) & _). by apply (C r).
Qed.

(** ** Example: two peers of the first registry on the regression network *)
Definition example_hello (extra : list ProtocolRange) : RegistryHello :=
  mkHello SHAKESCAPE_V1_REGISTRY_FINGERPRINT [1] (extra ++ [mkRange 0 1 1]) 65536 8 XRegtest (replicate 32 x07) 3.

Lemma registry_handshake_agrees_witness :
  exists ea eb wa wb a' b',
    registry_hello 5 (example_hello [mkRange 1 1 3]) = Ok ea /\ registry_hello_ack 5 (example_hello []) = Ok eb /\
    Envelope_encode_canonical ea = Ok wa /\ Envelope_encode_canonical eb = Ok wb /\
    decode_registry_hello wa = Ok (5, a') /\ decode_registry_hello_ack wb = Ok (5, b').
Proof.
  assert (forall l, Forall range_wf l -> hello_wf (example_hello l)) as W.
  { intros l F. split; cbn [example_hello rh_fingerprint rh_registry_versions rh_protocols rh_maximum_receive_size
      rh_maximum_live_requests rh_genesis_hash rh_feature_flags]; [reflexivity| |apply Forall_app; split; [done|]|..];
      try reflexivity; repeat apply Forall_cons_2; try apply Forall_nil_2; repeat split;
      unfold u16, u32, u64, u16_max, u32_max, u64_max; cbn; lia. }
  do 2 eexists. destruct (registry_handshake_agrees (example_hello [mkRange 1 1 3]) (example_hello []) 5 _ _
    (W [mkRange 1 1 3] ltac:(repeat constructor; discriminate)) (W [] ltac:(constructor)) ltac:(unfold u64, u64_max; lia) eq_refl eq_refl)
    as (wa & wb & a' & b' & A & B & C & D & _). exists wa, wb, a', b'. split_and!; try done; reflexivity.
Defined.
