(* ===== verification/Registry.v ===== *)
(** * hns-p2p-experimental: registry documents

    Models [crates/hns-p2p-experimental/src/registry.rs]: the document that assigns
    service bits, packet types, protocol identifiers and service profiles, its
    checks, and the canonical binary form whose digest identifies a registry. A Rust
    [String] is its UTF-8 bytes; TOML parsing is a parameter. [sort_by] is
    [merge_sort]: a validated document has no two assignments with the same kind and
    value, so stability does not show. *)

From stdpp Require Import gmap sorting.
From S2P Require Import Prelude Encoding Primitives Covenants Transaction Script Interpreter Cbor Experimental Negotiation.
Local Open Scope Z_scope.

Definition SHAKESCAPE_V1_REGISTRY_NAME : list byte := bstr "Shakescape Experimental Handshake P2P Registry".
Definition SHAKESCAPE_V1_WIRE_PROFILE : list byte := bstr "shakescape-v1".
Definition HNSR_PROFILE_REGISTRY_NAME : list byte := bstr "Shakescape Experimental HNSR Service Profile Registry".
Definition HNSR_PROFILE_REGISTRY_VERSION : Z := 1.
Definition HNSR_PROFILE_REGISTRY_PROTOCOL_VERSION : Z := 1.
Definition HNSR_PROFILE_WIRE_PROFILE : list byte := bstr "hnsr-service-profiles-v1".
Definition REGISTRY_MAGIC : list byte := bstr "SKR1".
Definition CANONICAL_FORMAT_VERSION : Z := 1.
Definition MAX_REGISTRY_TEXT : Z := 256 * 1024.
Definition MAX_REGISTRY_BINARY : Z := 512 * 1024.
Definition MAX_ASSIGNMENTS : Z := 256.
Definition MAX_FIELD_LENGTH : Z := 4096.

Inductive AssignmentKind := KindServiceBit | KindPacketType | KindProtocolId | KindServiceProfile.
Inductive AssignmentStatus :=
| StatusExperimental | StatusStableExperimental | StatusDeprecated | StatusOfficialAlias | StatusRetired
| StatusReserved.
#[global] Instance AssignmentKind_eq_dec : EqDecision AssignmentKind.
Proof. solve_decision. Defined.
#[global] Instance AssignmentStatus_eq_dec : EqDecision AssignmentStatus.
Proof. solve_decision. Defined.

(** The discriminants. *)
Definition AssignmentKind_value (k : AssignmentKind) : Z :=
  match k with KindServiceBit => 1 | KindPacketType => 2 | KindProtocolId => 3 | KindServiceProfile => 4 end.
Definition AssignmentStatus_value (s : AssignmentStatus) : Z :=
  match s with
  | StatusExperimental => 1 | StatusStableExperimental => 2 | StatusDeprecated => 3 | StatusOfficialAlias => 4
  | StatusRetired => 5 | StatusReserved => 6
  end.

Inductive RegistryError :=
| DocumentTooLarge (actual maximum : Z)
| RegToml
| RegDecode (e : DecodeError)
| RegWrongMagic (magic : list byte)
| UnknownCanonicalFormat (version : Z)
| UnsupportedRegistryVersion (registry protocol : Z)
| InvalidRegistryStatus (status : AssignmentStatus)
| InvalidWireProfile (profile : list byte)
| AssignmentCount (count : Z)
| NetworkCount (count : Z)
| RegUnknownNetwork (value : byte)
| UnknownAssignmentKind (value : byte)
| UnknownAssignmentStatus (value : byte)
| InvalidBoolean (field : string) (value : byte)
| InvalidField (field : string)
| RegInvalidUtf8
| EntryVersionMismatch (name : list byte)
| ReversedRange (name : list byte)
| ValueOutsideKind (name : list byte) (value : Z) (kind : AssignmentKind)
| InvalidServiceBit (name : list byte) (value : Z)
| NonReservedRange (name : list byte)
| DuplicateNetwork (name : list byte)
| AssignmentCollision (first second : list byte)
| DuplicateSemanticName (name : list byte)
| InvalidProfileRegistryAssignment
| MissingRequiredAssignment (name : list byte) (kind : AssignmentKind) (value : Z)
| MissingRequiredAssignmentRange (name : list byte) (kind : AssignmentKind) (value range_end : Z)
| NonCanonicalBinary.

Definition AssignmentKind_try_from (value : byte) : result RegistryError AssignmentKind :=
  match b2z value with
  | 1 => Ok KindServiceBit
  | 2 => Ok KindPacketType
  | 3 => Ok KindProtocolId
  | 4 => Ok KindServiceProfile
  | _ => Err (UnknownAssignmentKind value)
  end.

Definition AssignmentStatus_try_from (value : byte) : result RegistryError AssignmentStatus :=
  match b2z value with
  | 1 => Ok StatusExperimental
  | 2 => Ok StatusStableExperimental
  | 3 => Ok StatusDeprecated
  | 4 => Ok StatusOfficialAlias
  | 5 => Ok StatusRetired
  | 6 => Ok StatusReserved
  | _ => Err (UnknownAssignmentStatus value)
  end.

Record RegistryMetadata := mkMetadata {
  rm_name : list byte;
  rm_version : Z;
  rm_protocol_version : Z;
  rm_status : AssignmentStatus;
  rm_owner : list byte;
  rm_wire_profile : list byte;
}.

Record RegistryAssignment := mkAssignment {
  ra_semantic_name : list byte;
  ra_kind : AssignmentKind;
  ra_value : Z;
  ra_range_end : option Z;
  ra_registry_version : Z;
  ra_protocol_version : Z;
  ra_status : AssignmentStatus;
  ra_owner : list byte;
  ra_source_proposal_url : list byte;
  ra_source_implementation_url : list byte;
  ra_network_applicability : list ExperimentalNetwork;
  ra_maximum_payload : Z;
  ra_security_classification : list byte;
  ra_first_supported_release : list byte;
  ra_deprecation_state : list byte;
  ra_replacement_assignment : option (list byte);
}.

Record RegistryDocument := mkDocument { rd_registry : RegistryMetadata; rd_assignments : list RegistryAssignment }.

(** ** Checks *)
Definition validate_field (field : string) (value : list byte) : result RegistryError unit :=
  assert_or (negb ((len value =? 0) || (MAX_FIELD_LENGTH <? len value))) (InvalidField field).

Definition RegistryMetadata_validate (m : RegistryMetadata) : result RegistryError unit :=
  validate_field "registry.name" (rm_name m) ;;
  validate_field "registry.owner" (rm_owner m) ;;
  validate_field "registry.wire_profile" (rm_wire_profile m) ;;
  expected_wire_profile ←
    (if bool_decide (rm_name m = SHAKESCAPE_V1_REGISTRY_NAME) && (rm_version m =? SHAKESCAPE_V1_REGISTRY_VERSION) &&
        (rm_protocol_version m =? SHAKESCAPE_V1_REGISTRY_PROTOCOL_VERSION)
     then Ok SHAKESCAPE_V1_WIRE_PROFILE
     else if bool_decide (rm_name m = HNSR_PROFILE_REGISTRY_NAME) && (rm_version m =? HNSR_PROFILE_REGISTRY_VERSION) &&
        (rm_protocol_version m =? HNSR_PROFILE_REGISTRY_PROTOCOL_VERSION)
     then Ok HNSR_PROFILE_WIRE_PROFILE
     else Err (UnsupportedRegistryVersion (rm_version m) (rm_protocol_version m)));
  assert_or (bool_decide (rm_status m = StatusStableExperimental)) (InvalidRegistryStatus (rm_status m)) ;;
  assert_or (bool_decide (rm_wire_profile m = expected_wire_profile)) (InvalidWireProfile (rm_wire_profile m)).

(** [RegistryAssignment::end]. *)
Definition assignment_end (a : RegistryAssignment) : Z :=
  match ra_range_end a with Some e => e | None => ra_value a end.

Definition kind_maximum (k : AssignmentKind) : Z :=
  match k with
  | KindServiceBit => u64_max
  | KindPacketType => u8_max
  | KindProtocolId | KindServiceProfile => u16_max
  end.

Definition option_is_some {A} (o : option A) : bool := match o with Some _ => true | None => false end.

Definition network_set_size (l : list ExperimentalNetwork) : Z := len (remove_dups l).

Definition RegistryAssignment_validate (metadata : RegistryMetadata) (a : RegistryAssignment)
  : result RegistryError unit :=
  validate_field "semantic_name" (ra_semantic_name a) ;;
  validate_field "owner" (ra_owner a) ;;
  validate_field "source_proposal_url" (ra_source_proposal_url a) ;;
  validate_field "source_implementation_url" (ra_source_implementation_url a) ;;
  validate_field "security_classification" (ra_security_classification a) ;;
  validate_field "first_supported_release" (ra_first_supported_release a) ;;
  validate_field "deprecation_state" (ra_deprecation_state a) ;;
  (match ra_replacement_assignment a with
   | Some replacement => validate_field "replacement_assignment" replacement
   | None => Ok tt
   end) ;;
  assert_or (negb (negb (ra_registry_version a =? rm_version metadata) ||
                   negb (ra_protocol_version a =? rm_protocol_version metadata)))
    (EntryVersionMismatch (ra_semantic_name a)) ;;
  assert_or (negb (assignment_end a <? ra_value a)) (ReversedRange (ra_semantic_name a)) ;;
  assert_or (negb (kind_maximum (ra_kind a) <? assignment_end a))
    (ValueOutsideKind (ra_semantic_name a) (assignment_end a) (ra_kind a)) ;;
  assert_or (negb (bool_decide (ra_kind a = KindServiceBit) &&
                   (option_is_some (ra_range_end a) || negb (count_ones (ra_value a) =? 1))))
    (InvalidServiceBit (ra_semantic_name a) (ra_value a)) ;;
  assert_or (negb (option_is_some (ra_range_end a) && negb (bool_decide (ra_status a = StatusReserved))))
    (NonReservedRange (ra_semantic_name a)) ;;
  assert_or (negb ((len (ra_network_applicability a) =? 0) || (4 <? len (ra_network_applicability a))))
    (NetworkCount (len (ra_network_applicability a))) ;;
  assert_or (network_set_size (ra_network_applicability a) =? len (ra_network_applicability a))
    (DuplicateNetwork (ra_semantic_name a)).

(** One pair of the collision loop. *)
Definition check_pair (left right : RegistryAssignment) : result RegistryError unit :=
  assert_or (negb (bool_decide (ra_kind left = ra_kind right) && (ra_value left <=? assignment_end right) &&
                   (ra_value right <=? assignment_end left)))
    (AssignmentCollision (ra_semantic_name left) (ra_semantic_name right)) ;;
  assert_or (negb (bool_decide (ra_semantic_name left = ra_semantic_name right)))
    (DuplicateSemanticName (ra_semantic_name left)).

(** Every assignment against those after it. *)
Fixpoint check_pairs (assignments : list RegistryAssignment) : result RegistryError unit :=
  match assignments with
  | [] => Ok tt
  | this :: later => try_each (check_pair this) later ;; check_pairs later
  end.

Definition require_assignment (d : RegistryDocument) (semantic_name : list byte) (kind : AssignmentKind) (value : Z)
  : result RegistryError unit :=
  assert_or (existsb (fun a => bool_decide (ra_semantic_name a = semantic_name) && bool_decide (ra_kind a = kind) &&
                               (ra_value a =? value) && negb (option_is_some (ra_range_end a))) (rd_assignments d))
    (MissingRequiredAssignment semantic_name kind value).

Definition require_assignment_range (d : RegistryDocument) (semantic_name : list byte) (kind : AssignmentKind)
    (value range_end : Z) : result RegistryError unit :=
  assert_or (existsb (fun a => bool_decide (ra_semantic_name a = semantic_name) && bool_decide (ra_kind a = kind) &&
                               (ra_value a =? value) && bool_decide (ra_range_end a = Some range_end) &&
                               bool_decide (ra_status a = StatusReserved)) (rd_assignments d))
    (MissingRequiredAssignmentRange semantic_name kind value range_end).

Definition PROFILE_REQUIREMENTS : list (list byte * AssignmentKind * Z) :=
  [(bstr "hnsr-profile-hns-node-v1", KindServiceProfile, 1); (bstr "hnsr-profile-hns-web-v1", KindServiceProfile, 2);
   (bstr "hnsr-profile-hns-chat-v1", KindServiceProfile, 3);
   (bstr "hnsr-profile-shakescape-swap-v1", KindServiceProfile, 4)].

Definition V1_REQUIREMENTS : list (list byte * AssignmentKind * Z) :=
  [(bstr "hnsr-rendezvous-service", KindServiceBit, 0x04000000); (bstr "hnsr-relay-service", KindServiceBit, 0x08000000);
   (bstr "shakescape-extension-service", KindServiceBit, 0x10000000);
   (bstr "p2p-odoh-service", KindServiceBit, 0x20000000); (bstr "p2p-dns-relay-service", KindServiceBit, 0x40000000);
   (bstr "getdnsrelay", KindPacketType, 0xf0); (bstr "dnsrelay", KindPacketType, 0xf1);
   (bstr "odns", KindPacketType, 0xf2); (bstr "hnsr", KindPacketType, 0xf3);
   (bstr "shakescape-ext", KindPacketType, 0xf4); (bstr "registry-negotiation", KindProtocolId, 0);
   (bstr "atomic-name-marketplace", KindProtocolId, 1); (bstr "cross-chain-marketplace", KindProtocolId, 2)].

(** The calls of [require_assignment], in order. *)
Definition require_all (d : RegistryDocument) (l : list (list byte * AssignmentKind * Z)) : result RegistryError unit :=
  try_each (fun '(name, kind, value) => require_assignment d name kind value) l.

Definition RegistryDocument_validate (d : RegistryDocument) : result RegistryError unit :=
  RegistryMetadata_validate (rd_registry d) ;;
  assert_or (negb ((len (rd_assignments d) =? 0) || (MAX_ASSIGNMENTS <? len (rd_assignments d))))
    (AssignmentCount (len (rd_assignments d))) ;;
  try_each (RegistryAssignment_validate (rd_registry d)) (rd_assignments d) ;;
  check_pairs (rd_assignments d) ;;
  if bool_decide (rm_name (rd_registry d) = HNSR_PROFILE_REGISTRY_NAME) then
    require_all d PROFILE_REQUIREMENTS ;;
    require_assignment_range d (bstr "reserved-hnsr-profiles-0x0005-0xffff") KindServiceProfile 5 u16_max ;;
    assert_or (negb (existsb (fun a => negb (bool_decide (ra_kind a = KindServiceProfile))) (rd_assignments d)))
      InvalidProfileRegistryAssignment
  else
    require_all d V1_REQUIREMENTS ;;
    require_assignment_range d (bstr "reserved-protocols-0x0003-0xffff") KindProtocolId 3 u16_max.

(** ** The canonical form *)

(** The tuple order of the sort: kind, value, end, name. *)
Definition assignment_le (a b : RegistryAssignment) : Prop :=
  AssignmentKind_value (ra_kind a) < AssignmentKind_value (ra_kind b) \/
  (AssignmentKind_value (ra_kind a) = AssignmentKind_value (ra_kind b) /\
   (ra_value a < ra_value b \/
    (ra_value a = ra_value b /\
     (assignment_end a < assignment_end b \/
      (assignment_end a = assignment_end b /\ bytes_le (ra_semantic_name a) (ra_semantic_name b) = true))))).
#[global] Instance assignment_le_dec a b : Decision (assignment_le a b).
Proof. unfold assignment_le. apply _. Defined.

Definition network_le (a b : ExperimentalNetwork) : Prop := ExperimentalNetwork_value a <= ExperimentalNetwork_value b.
#[global] Instance network_le_dec a b : Decision (network_le a b).
Proof. unfold network_le. apply _. Defined.

Definition put_string (value : list byte) (e : Encoder) : result RegistryError Encoder :=
  validate_field "canonical string" value ;;
  assert_or (len value <=? u16_max) (InvalidField "canonical string") ;;
  Ok (put_bytes (put_u16_le e (len value)) value).

Definition put_optional_string (value : option (list byte)) (e : Encoder) : result RegistryError Encoder :=
  match value with
  | Some value => put_string value (put_u8 e x01)
  | None => Ok (put_u8 e x00)
  end.

Definition put_range_end (range_end : option Z) (e : Encoder) : Encoder :=
  match range_end with
  | Some range_end => put_u64_le (put_u8 e x01) range_end
  | None => put_u8 e x00
  end.

Definition put_assignment (e : Encoder) (a : RegistryAssignment) : result RegistryError Encoder :=
  let e := put_u8 e (z2b (AssignmentKind_value (ra_kind a))) in
  let e := put_u8 e (z2b (AssignmentStatus_value (ra_status a))) in
  let e := put_u64_le e (ra_value a) in
  let e := put_range_end (ra_range_end a) e in
  let e := put_u16_le e (ra_registry_version a) in
  let e := put_u16_le e (ra_protocol_version a) in
  let e := put_u32_le e (ra_maximum_payload a) in
  e ← put_string (ra_semantic_name a) e;
  e ← put_string (ra_owner a) e;
  e ← put_string (ra_source_proposal_url a) e;
  e ← put_string (ra_source_implementation_url a) e;
  e ← put_string (ra_security_classification a) e;
  e ← put_string (ra_first_supported_release a) e;
  e ← put_string (ra_deprecation_state a) e;
  e ← put_optional_string (ra_replacement_assignment a) e;
  let networks := vec_dedup (merge_sort network_le (ra_network_applicability a)) in
  assert_or (len networks <=? u8_max) (NetworkCount (len networks)) ;;
  let e := put_u8 e (z2b (len networks)) in
  Ok (foldl (fun e n => put_u8 e (z2b (ExperimentalNetwork_value n))) e networks).

Definition canonical_bytes (d : RegistryDocument) : result RegistryError (list byte) :=
  RegistryDocument_validate d ;;
  let assignments := merge_sort assignment_le (rd_assignments d) in
  let m := rd_registry d in
  let e := with_capacity 4096 in
  let e := put_bytes e REGISTRY_MAGIC in
  let e := put_u16_le e CANONICAL_FORMAT_VERSION in
  let e := put_u16_le e (rm_version m) in
  let e := put_u16_le e (rm_protocol_version m) in
  let e := put_u8 e (z2b (AssignmentStatus_value (rm_status m))) in
  e ← put_string (rm_name m) e;
  e ← put_string (rm_owner m) e;
  e ← put_string (rm_wire_profile m) e;
  assert_or (len assignments <=? u16_max) (AssignmentCount (len assignments)) ;;
  let e := put_u16_le e (len assignments) in
  e ← try_fold put_assignment e assignments;
  Ok (into_bytes e).

Definition read_string : decM RegistryError (list byte) :=
  length ← lift_err RegDecode read_u16_le;
  lift_res (assert_or (negb ((length =? 0) || (MAX_FIELD_LENGTH <? length))) (InvalidField "canonical string")) ;;
  bytes ← lift_err RegDecode (read_bounded_vec length MAX_FIELD_LENGTH);
  lift_res (assert_or (from_utf8_ok bytes) RegInvalidUtf8) ;;
  mret bytes.

(** A presence byte and what it announces. *)
Definition read_presence_of {A} (field : string) (m : decM RegistryError A) : decM RegistryError (option A) :=
  present ← lift_err RegDecode read_u8;
  match b2z present with
  | 0 => mret None
  | 1 => value ← m; mret (Some value)
  | _ => lift_res (Err (InvalidBoolean field present))
  end.

Definition read_optional_string : decM RegistryError (option (list byte)) :=
  read_presence_of "optional_string" read_string.

Definition read_network : decM RegistryError ExperimentalNetwork :=
  byte ← lift_err RegDecode read_u8;
  lift_res (map_err (fun _ => RegUnknownNetwork byte) (ExperimentalNetwork_try_from (b2z byte))).

Definition read_assignment : decM RegistryError RegistryAssignment :=
  kind_byte ← lift_err RegDecode read_u8;
  kind ← lift_res (AssignmentKind_try_from kind_byte);
  status_byte ← lift_err RegDecode read_u8;
  status ← lift_res (AssignmentStatus_try_from status_byte);
  value ← lift_err RegDecode read_u64_le;
  range_end ← read_presence_of "range_end" (lift_err RegDecode read_u64_le);
  entry_registry_version ← lift_err RegDecode read_u16_le;
  entry_protocol_version ← lift_err RegDecode read_u16_le;
  maximum_payload ← lift_err RegDecode read_u32_le;
  semantic_name ← read_string;
  entry_owner ← read_string;
  source_proposal_url ← read_string;
  source_implementation_url ← read_string;
  security_classification ← read_string;
  first_supported_release ← read_string;
  deprecation_state ← read_string;
  replacement_assignment ← read_optional_string;
  count ← lift_err RegDecode read_u8;
  lift_res (assert_or (negb ((b2z count =? 0) || (4 <? b2z count))) (NetworkCount (b2z count))) ;;
  network_applicability ← read_n (Z.to_nat (b2z count)) read_network;
  mret (mkAssignment semantic_name kind value range_end entry_registry_version entry_protocol_version status
    entry_owner source_proposal_url source_implementation_url network_applicability maximum_payload
    security_classification first_supported_release deprecation_state replacement_assignment).

Definition read_document : decM RegistryError RegistryDocument :=
  magic ← lift_err RegDecode (read_array 4);
  lift_res (assert_or (bool_decide (magic = REGISTRY_MAGIC)) (RegWrongMagic magic)) ;;
  format_version ← lift_err RegDecode read_u16_le;
  lift_res (assert_or (format_version =? CANONICAL_FORMAT_VERSION) (UnknownCanonicalFormat format_version)) ;;
  registry_version ← lift_err RegDecode read_u16_le;
  protocol_version ← lift_err RegDecode read_u16_le;
  status_byte ← lift_err RegDecode read_u8;
  status ← lift_res (AssignmentStatus_try_from status_byte);
  name ← read_string;
  owner ← read_string;
  wire_profile ← read_string;
  assignment_count ← lift_err RegDecode read_u16_le;
  lift_res (assert_or (negb ((assignment_count =? 0) || (MAX_ASSIGNMENTS <? assignment_count)))
    (AssignmentCount assignment_count)) ;;
  assignments ← read_n (Z.to_nat assignment_count) read_assignment;
  mret (mkDocument (mkMetadata name registry_version protocol_version status owner wire_profile) assignments).

Definition from_canonical_bytes (input : list byte) : result RegistryError RegistryDocument :=
  assert_or (len input <=? MAX_REGISTRY_BINARY) (DocumentTooLarge (len input) MAX_REGISTRY_BINARY) ;;
  document ← run_all RegDecode read_document input;
  RegistryDocument_validate document ;;
  bytes ← canonical_bytes document;
  assert_or (bool_decide (bytes = input)) NonCanonicalBinary ;;
  Ok document.

(** [toml_from_str] is the TOML parser of the serde derive. *)
Definition from_toml (toml_from_str : list byte -> option RegistryDocument) (input : list byte)
  : result RegistryError RegistryDocument :=
  assert_or (len input <=? MAX_REGISTRY_TEXT) (DocumentTooLarge (len input) MAX_REGISTRY_TEXT) ;;
  document ← ok_or (toml_from_str input) RegToml;
  RegistryDocument_validate document ;;
  Ok document.

Definition RegistryDocument_id {SD : ScriptDigests} (d : RegistryDocument) : result RegistryError (list byte) :=
  bytes ← canonical_bytes d; Ok (sha256 bytes).

(** ** The bytes of a document *)
Definition string_bytes (s : list byte) : list byte := to_le_bytes 2 (len s) ++ s.
Definition presence_bytes {A} (enc : A -> list byte) (o : option A) : list byte :=
  match o with Some v => x01 :: enc v | None => [x00] end.
Definition network_bytes (n : ExperimentalNetwork) : list byte := [z2b (ExperimentalNetwork_value n)].

Definition assignment_bytes (a : RegistryAssignment) : list byte :=
  [z2b (AssignmentKind_value (ra_kind a))] ++ [z2b (AssignmentStatus_value (ra_status a))] ++
  to_le_bytes 8 (ra_value a) ++ presence_bytes (to_le_bytes 8) (ra_range_end a) ++
  to_le_bytes 2 (ra_registry_version a) ++ to_le_bytes 2 (ra_protocol_version a) ++
  to_le_bytes 4 (ra_maximum_payload a) ++
  string_bytes (ra_semantic_name a) ++ string_bytes (ra_owner a) ++ string_bytes (ra_source_proposal_url a) ++
  string_bytes (ra_source_implementation_url a) ++ string_bytes (ra_security_classification a) ++
  string_bytes (ra_first_supported_release a) ++ string_bytes (ra_deprecation_state a) ++
  presence_bytes string_bytes (ra_replacement_assignment a) ++
  [z2b (len (ra_network_applicability a))] ++ mjoin (network_bytes <$> ra_network_applicability a).

Definition document_bytes (d : RegistryDocument) : list byte :=
  REGISTRY_MAGIC ++ to_le_bytes 2 CANONICAL_FORMAT_VERSION ++ to_le_bytes 2 (rm_version (rd_registry d)) ++
  to_le_bytes 2 (rm_protocol_version (rd_registry d)) ++ [z2b (AssignmentStatus_value (rm_status (rd_registry d)))] ++
  string_bytes (rm_name (rd_registry d)) ++ string_bytes (rm_owner (rd_registry d)) ++
  string_bytes (rm_wire_profile (rd_registry d)) ++ to_le_bytes 2 (len (rd_assignments d)) ++
  mjoin (assignment_bytes <$> rd_assignments d).

(** The order of the canonical form. *)
Definition assignment_canon (a : RegistryAssignment) : RegistryAssignment :=
  mkAssignment (ra_semantic_name a) (ra_kind a) (ra_value a) (ra_range_end a) (ra_registry_version a)
    (ra_protocol_version a) (ra_status a) (ra_owner a) (ra_source_proposal_url a) (ra_source_implementation_url a)
    (vec_dedup (merge_sort network_le (ra_network_applicability a))) (ra_maximum_payload a)
    (ra_security_classification a) (ra_first_supported_release a) (ra_deprecation_state a)
    (ra_replacement_assignment a).
Definition document_canon (d : RegistryDocument) : RegistryDocument :=
  mkDocument (rd_registry d) (assignment_canon <$> merge_sort assignment_le (rd_assignments d)).

(** The field types: [String]s are UTF-8, integers fit their width. *)
Definition text (s : list byte) : Prop := from_utf8_ok s = true.
Record assignment_wf (a : RegistryAssignment) : Prop := mkAssignmentWf {
  aw_texts : Forall text [ra_semantic_name a; ra_owner a; ra_source_proposal_url a; ra_source_implementation_url a;
    ra_security_classification a; ra_first_supported_release a; ra_deprecation_state a];
  aw_replacement : forall s, ra_replacement_assignment a = Some s -> text s;
  aw_value : u64 (ra_value a);
  aw_end : forall e, ra_range_end a = Some e -> u64 e;
  aw_registry_version : u16 (ra_registry_version a);
  aw_protocol_version : u16 (ra_protocol_version a);
  aw_payload : u32 (ra_maximum_payload a);
}.
Record document_wf (d : RegistryDocument) : Prop := mkDocumentWf {
  dw_texts : Forall text [rm_name (rd_registry d); rm_owner (rd_registry d); rm_wire_profile (rd_registry d)];
  dw_version : u16 (rm_version (rd_registry d));
  dw_protocol_version : u16 (rm_protocol_version (rd_registry d));
  dw_assignments : Forall assignment_wf (rd_assignments d);
}.

Definition field_ok (s : list byte) : Prop := 1 <= len s <= MAX_FIELD_LENGTH.

Lemma validate_field_Ok f s : validate_field f s = Ok tt <-> field_ok s.
Proof.
  unfold validate_field, field_ok. rewrite assert_or_Ok, negb_true_iff, orb_false_iff, Z.eqb_neq, Z.ltb_ge.
  pose proof (len_nonneg s). lia.
Qed.

(** [Forall] over an explicit list. *)
Ltac forall_list := repeat first [apply Forall_nil_2 | apply Forall_cons_2; [done|]].

(** What [RegistryAssignment_validate] guarantees to the codec. *)
Record assignment_fields (a : RegistryAssignment) : Prop := mkFields {
  af_texts : Forall field_ok [ra_semantic_name a; ra_owner a; ra_source_proposal_url a; ra_source_implementation_url a;
    ra_security_classification a; ra_first_supported_release a; ra_deprecation_state a];
  af_replacement : forall s, ra_replacement_assignment a = Some s -> field_ok s;
  af_range : ra_value a <= assignment_end a;
  af_networks : 1 <= len (ra_network_applicability a) <= 4;
  af_nodup : NoDup (ra_network_applicability a);
}.

#[global] Instance network_le_trans : Transitive network_le.
Proof. intros a b c. unfold network_le. lia. Qed.
#[global] Instance network_le_total : Total network_le.
Proof. intros a b. unfold network_le. lia. Qed.
#[global] Instance network_le_antisym : AntiSymm (=) network_le.
Proof. intros [] []; unfold network_le; cbn; intros; (done || lia). Qed.

Lemma remove_dups_length (l : list ExperimentalNetwork) : network_set_size l = len l -> NoDup l.
Proof.
  unfold network_set_size, len. intros E. apply Nat2Z.inj in E. induction l as [|x l IH]; [constructor|].
  assert (forall l : list ExperimentalNetwork, length (remove_dups l) <= length l)%nat as L.
  { clear. induction l as [|x l IH]; [done|]. cbn. case_decide; cbn; lia. }
  cbn in E. pose proof (L l). case_decide; cbn in E; [lia|]. constructor; [done|]. apply IH. lia.
Qed.

Lemma assignment_validate_fields m a : RegistryAssignment_validate m a = Ok tt -> assignment_fields a.
Proof.
  intros H. unfold RegistryAssignment_validate in H.
  repeat match type of H with (_ ;; _) = _ => let u := fresh "u" in let E := fresh "E" in
    apply bind_Ok in H as (u & E & H); destruct u end.
  apply validate_field_Ok in E, E0, E1, E2, E3, E4, E5. split.
  - forall_list.
  - intros s Es. rewrite Es in E6. by apply validate_field_Ok in E6.
  - apply assert_or_Ok, negb_true_iff, Z.ltb_ge in E8. done.
  - apply assert_or_Ok in E12. rewrite negb_true_iff, orb_false_iff, Z.eqb_neq, Z.ltb_ge in E12.
    pose proof (len_nonneg (ra_network_applicability a)). lia.
  - apply assert_or_Ok, Z.eqb_eq in H. by apply remove_dups_length.
Qed.

(** ** Writing *)
Lemma put_string_Ok s e : field_ok s -> put_string s e = Ok (mkEncoder (bytes e ++ string_bytes s)).
Proof.
  intros F. unfold put_string. rewrite (proj2 (validate_field_Ok _ s) F). cbn [mbind result_bind].
  unfold field_ok, MAX_FIELD_LENGTH in F. rewrite (proj2 (Z.leb_le _ _)) by (unfold u16_max; lia).
  cbn [assert_or mbind result_bind]. f_equal. unfold put_bytes, put_u16_le, string_bytes. cbn [bytes].
  by rewrite <- app_assoc.
Qed.

Lemma put_optional_Ok o e :
  (forall s, o = Some s -> field_ok s) ->
  put_optional_string o e = Ok (mkEncoder (bytes e ++ presence_bytes string_bytes o)).
Proof.
  intros F. destruct o as [s|]; cbn [put_optional_string presence_bytes]; [|done].
  rewrite put_string_Ok by by apply F. rewrite bytes_put_u8. by rewrite <- app_assoc.
Qed.

Lemma sorted_networks a :
  assignment_fields a -> 1 <= len (ra_network_applicability (assignment_canon a)) <= 4.
Proof.
  intros [_ _ _ L N]. cbn [assignment_canon ra_network_applicability].
  assert (NoDup (merge_sort network_le (ra_network_applicability a))) as Ns by by rewrite merge_sort_Permutation.
  assert (forall l : list ExperimentalNetwork, NoDup l -> vec_dedup l = l) as D.
  { clear. induction l as [|x l IH]; intros Nl; [done|]. apply NoDup_cons in Nl as [Nx Nl]. cbn [vec_dedup].
    destruct l as [|y l]; [done|]. rewrite bool_decide_eq_false_2 by (intros ->; apply Nx; left). by rewrite IH. }
  rewrite (D _ Ns), (len_sorted network_le). lia.
Qed.

Lemma put_assignment_Ok a e :
  assignment_fields a -> put_assignment e a = Ok (mkEncoder (bytes e ++ assignment_bytes (assignment_canon a))).
Proof.
  intros F. pose proof (sorted_networks a F) as L. destruct F as [T R _ _ _].
  repeat (apply Forall_cons in T as [? T]). unfold put_assignment.
  do 7 (rewrite put_string_Ok by done; cbn [mbind result_bind]).
  rewrite put_optional_Ok by done. cbn [mbind result_bind].
  cbn [assignment_canon ra_network_applicability] in L. rewrite (proj2 (Z.leb_le _ u8_max)) by (unfold u8_max; lia).
  cbn [assert_or mbind result_bind]. f_equal.
  set (nets := vec_dedup _) in *.
  assert (forall e, foldl (fun e n => put_u8 e (z2b (ExperimentalNetwork_value n))) e nets =
    mkEncoder (bytes e ++ mjoin (network_bytes <$> nets))) as Ef.
  { intros e0. rewrite <- (bytes_foldl (fun e n => put_u8 e (z2b (ExperimentalNetwork_value n))) network_bytes e0 nets)
      by (intros; apply bytes_put_u8). by destruct (foldl _ _ _). }
  rewrite Ef. f_equal. unfold assignment_bytes. cbn [assignment_canon ra_semantic_name ra_kind ra_value ra_range_end
    ra_registry_version ra_protocol_version ra_status ra_owner ra_source_proposal_url ra_source_implementation_url
    ra_network_applicability ra_maximum_payload ra_security_classification ra_first_supported_release
    ra_deprecation_state ra_replacement_assignment]. fold nets. cbn [bytes put_u8].
  rewrite bytes_put_u32, !bytes_put_u16. destruct (ra_range_end a); cbn [put_range_end presence_bytes];
    rewrite ?bytes_put_u64, ?bytes_put_u8, ?bytes_put_u64; cbn [bytes put_u8]; by rewrite <- !app_assoc.
Qed.

Lemma put_assignments_Ok l e :
  Forall assignment_fields l ->
  try_fold put_assignment e l = Ok (mkEncoder (bytes e ++ mjoin (assignment_bytes <$> (assignment_canon <$> l)))).
Proof.
  intros F. revert e. induction F as [|a l Fa F IH]; intros e; cbn [try_fold].
  - cbn. rewrite app_nil_r. by destruct e.
  - rewrite put_assignment_Ok by done. cbn [mbind result_bind]. rewrite IH. cbn [bytes].
    by rewrite !fmap_cons, join_cons, app_assoc.
Qed.

Definition document_fields (d : RegistryDocument) : Prop :=
  Forall field_ok [rm_name (rd_registry d); rm_owner (rd_registry d); rm_wire_profile (rd_registry d)] /\
  1 <= len (rd_assignments d) <= MAX_ASSIGNMENTS /\ Forall assignment_fields (rd_assignments d).

Lemma document_validate_fields d :
  RegistryDocument_validate d = Ok tt -> document_fields d /\ check_pairs (rd_assignments d) = Ok tt.
Proof.
  intros H. unfold RegistryDocument_validate in H. apply bind_Ok in H as ([] & M & H).
  apply bind_Ok in H as (u & C & H). apply bind_Ok in H as ([] & A & H). apply bind_Ok in H as ([] & P & _).
  unfold RegistryMetadata_validate in M. apply bind_Ok in M as ([] & M1 & M). apply bind_Ok in M as ([] & M2 & M).
  apply bind_Ok in M as ([] & M3 & _). apply validate_field_Ok in M1, M2, M3.
  apply assert_or_Ok in C. rewrite negb_true_iff, orb_false_iff, Z.eqb_neq, Z.ltb_ge in C.
  pose proof (len_nonneg (rd_assignments d)). split; [|done]. split_and!; [forall_list|lia|lia|].
  apply try_each_Ok in A. eapply Forall_impl; [exact A|]. intros a. apply assignment_validate_fields.
Qed.

Lemma canon_length d : len (rd_assignments (document_canon d)) = len (rd_assignments d).
Proof.
  unfold document_canon. cbn [rd_assignments]. unfold len at 1. rewrite length_fmap.
  exact (len_sorted assignment_le (rd_assignments d)).
Qed.


Lemma canonical_bytes_Ok d bs :
  canonical_bytes d = Ok bs <-> RegistryDocument_validate d = Ok tt /\ bs = document_bytes (document_canon d).
Proof.
  unfold canonical_bytes. destruct (RegistryDocument_validate d) as [[]|e] eqn:V; cbn [mbind result_bind];
    [|by split; [|intros [? _]]].
  destruct (document_validate_fields d V) as ((T & L & F) & _). repeat (apply Forall_cons in T as [? T]).
  do 3 (rewrite put_string_Ok by done; cbn [mbind result_bind]).
  rewrite (len_sorted assignment_le). rewrite (proj2 (Z.leb_le _ u16_max)) by (unfold MAX_ASSIGNMENTS in L; unfold u16_max; lia).
  cbn [assert_or mbind result_bind]. rewrite put_assignments_Ok by by rewrite (merge_sort_Permutation assignment_le).
  cbn [mbind result_bind]. unfold into_bytes. cbn [bytes]. rewrite bytes_put_u16. cbn [bytes].
  rewrite bytes_put_u8, !bytes_put_u16, bytes_put_bytes, bytes_with_capacity, <- !app_assoc.
  unfold document_bytes. rewrite (canon_length d). cbn [document_canon rd_registry rd_assignments app].
  split; [by intros [= <-]|]. by intros [_ ->].
Qed.

(** ** Reading *)
Lemma read_string_inv d s d' :
  dec_wf d -> read_string d = (Ok s, d') -> took d (string_bytes s) d' /\ text s.
Proof.
  intros W H. unfold read_string in H. dbind H as n d1 H1. dbind H as u1 d1' C1. dbind H as bs d2 H2.
  dbind H as u2 d2' C2. apply dec_ret_Ok in H as (<- & ->). took_all.
  apply read_bounded_vec_inv in H2 as (T2 & L & _); [|destruct H; lia|done].
  apply assert_or_Ok in C2. split; [|done]. unfold string_bytes. rewrite L. by eapply took_trans.
Qed.

Lemma read_string_reads d s : field_ok s -> text s -> reads d read_string (string_bytes s) s.
Proof.
  unfold field_ok. intros F T. unfold read_string, string_bytes.
  eapply reads_bind; [apply reads_err, read_u16_reads; unfold MAX_FIELD_LENGTH in F; unfold u16, u16_max; lia|].
  eapply reads_nil_bind.
  { apply reads_assert. rewrite negb_true_iff, orb_false_iff, Z.eqb_neq, Z.ltb_ge. lia. }
  eapply reads_last; [apply reads_err, read_bounded_vec_reads; lia|].
  eapply reads_nil_bind; [by apply reads_assert|]. apply reads_ret.
Qed.

Lemma read_presence_of_inv {A} field (m : decM RegistryError A) enc (P : A -> Prop) d o d' :
  (forall d v d', dec_wf d -> m d = (Ok v, d') -> took d (enc v) d' /\ P v) ->
  dec_wf d -> read_presence_of field m d = (Ok o, d') ->
  took d (presence_bytes enc o) d' /\ forall v, o = Some v -> P v.
Proof.
  intros Hm W H. unfold read_presence_of in H. dbind H as b d1 H1. took_all.
  pose proof (z2b_b2z b) as Eb. destruct (b2z b) as [|[p|p|]|p]; inv_dec; try done.
  match goal with T : m _ = (Ok _, _) |- _ => apply Hm in T as [T P1]; [|done] end.
  split; [|by intros ? [= <-]]. by apply (took_trans _ [x01] _ _ _ H1).
Qed.

Lemma read_presence_of_reads {A} field (m : decM RegistryError A) enc d o :
  (forall d v, o = Some v -> reads d m (enc v) v) -> reads d (read_presence_of field m) (presence_bytes enc o) o.
Proof.
  intros Hm. unfold read_presence_of. destruct o as [v|]; cbn [presence_bytes].
  - change (x01 :: enc v) with ([x01] ++ enc v). eapply reads_bind; [by apply reads_err, read_u8_reads|].
    change (b2z x01) with 1. cbn [b2z]. eapply reads_last; [by apply Hm|]. apply reads_ret.
  - eapply reads_last; [by apply reads_err, read_u8_reads|]. apply reads_ret.
Qed.

Lemma kind_try_from k : AssignmentKind_try_from (z2b (AssignmentKind_value k)) = Ok k.
Proof. by destruct k. Qed.
Lemma status_try_from s : AssignmentStatus_try_from (z2b (AssignmentStatus_value s)) = Ok s.
Proof. by destruct s. Qed.
Lemma kind_inv b k : AssignmentKind_try_from b = Ok k -> b = z2b (AssignmentKind_value k).
Proof.
  intros H. rewrite <- (z2b_b2z b). unfold AssignmentKind_try_from in H.
  destruct (b2z b) as [|[[|[]|]|[|[]|]|]|]; try done; by injection H as <-.
Qed.
Lemma status_inv b s : AssignmentStatus_try_from b = Ok s -> b = z2b (AssignmentStatus_value s).
Proof.
  intros H. rewrite <- (z2b_b2z b). unfold AssignmentStatus_try_from in H.
  destruct (b2z b) as [|[[[]|[]|]|[[]|[]|]|]|]; try done; by injection H as <-.
Qed.

Lemma read_network_inv d n d' : dec_wf d -> read_network d = (Ok n, d') -> took d (network_bytes n) d' /\ True.
Proof.
  intros W H. unfold read_network in H. dbind H as b d1 H1. apply lift_res_Ok in H as (H & ->).
  apply map_err_Ok, network_value_inv in H. took_all. unfold network_bytes. by rewrite <- H, z2b_b2z.
Qed.

Lemma read_assignment_inv d a d' :
  dec_wf d -> read_assignment d = (Ok a, d') -> took d (assignment_bytes a) d' /\ assignment_wf a.
Proof.
  intros W H. unfold read_assignment in H. dbind H as kb d1 K1. dbind H as kind d1' C1. dbind H as sb d2 K2.
  dbind H as status d2' C2. dbind H as value d3 K3. took_all. dbind H as re d4 K4.
  apply (read_presence_of_inv _ _ (to_le_bytes 8) u64) in K4 as (T4 & R4); [| |done].
  2:{ intros ? v ? Wd Hv. apply lift_err_Ok in Hv. by apply read_u64_inv. }
  took_all. dbind H as rv d5 K5. dbind H as pv d6 K6. dbind H as mp d7 K7. took_all.
  dbind H as s1 e1 S1. apply read_string_inv in S1 as (S1 & X1); [|done]. took_all.
  dbind H as s2 e2 S2. apply read_string_inv in S2 as (S2 & X2); [|done]. took_all.
  dbind H as s3 e3 S3. apply read_string_inv in S3 as (S3 & X3); [|done]. took_all.
  dbind H as s4 e4 S4. apply read_string_inv in S4 as (S4 & X4); [|done]. took_all.
  dbind H as s5 e5 S5. apply read_string_inv in S5 as (S5 & X5); [|done]. took_all.
  dbind H as s6 e6 S6. apply read_string_inv in S6 as (S6 & X6); [|done]. took_all.
  dbind H as s7 e7 S7. apply read_string_inv in S7 as (S7 & X7); [|done]. took_all.
  dbind H as os e8 S8. apply (read_presence_of_inv _ _ string_bytes text) in S8 as (S8 & X8); [|apply read_string_inv|done].
  took_all. dbind H as count e9 S9. took_all. dbind H as u e9' C9. dbind H as nets e10 S10.
  apply (read_n_inv _ network_bytes (fun _ => True)) in S10 as (S10 & _ & L10); [|apply read_network_inv|done].
  apply dec_ret_Ok in H as (<- & ->). split.
  - unfold assignment_bytes. cbn [ra_semantic_name ra_kind ra_value ra_range_end ra_registry_version
      ra_protocol_version ra_status ra_owner ra_source_proposal_url ra_source_implementation_url
      ra_network_applicability ra_maximum_payload ra_security_classification ra_first_supported_release
      ra_deprecation_state ra_replacement_assignment].
    unfold len. rewrite <- (kind_inv _ _ C1), <- (status_inv _ _ C2), <- (count_byte count (length nets)) by done. took_chain.
  - split; cbn; try done. forall_list.
Qed.

Lemma read_assignment_reads d a :
  assignment_wf a -> assignment_fields a -> reads d read_assignment (assignment_bytes a) a.
Proof.
  intros [X XR V E R P M] [F FR _ L _]. repeat (apply Forall_cons in X as [? X]). repeat (apply Forall_cons in F as [? F]).
  unfold read_assignment, assignment_bytes.
  eapply reads_bind; [by apply reads_err, read_u8_reads|]. eapply reads_nil_bind; [by apply reads_res, kind_try_from|].
  eapply reads_bind; [by apply reads_err, read_u8_reads|]. eapply reads_nil_bind; [by apply reads_res, status_try_from|].
  eapply reads_bind; [by apply reads_err, read_u64_reads|].
  eapply reads_bind; [apply read_presence_of_reads; intros ? v Ev; apply reads_err, read_u64_reads; by apply E|].
  do 2 (eapply reads_bind; [by apply reads_err, read_u16_reads|]).
  eapply reads_bind; [by apply reads_err, read_u32_reads|].
  do 7 (eapply reads_bind; [by apply read_string_reads|]).
  eapply reads_bind; [apply read_presence_of_reads; intros ? v Ev; apply read_string_reads; [by apply FR|by apply XR]|].
  eapply reads_bind; [by apply reads_err, read_u8_reads|]. rewrite z2b_small by lia.
  eapply reads_nil_bind; [apply reads_assert; rewrite negb_true_iff, orb_false_iff, Z.eqb_neq, Z.ltb_ge; lia|].
  replace (Z.to_nat (len (ra_network_applicability a))) with (length (ra_network_applicability a)) by (unfold len; lia).
  eapply reads_last; [apply (reads_n _ network_bytes)|destruct a; apply reads_ret].
  intros d' n _. unfold read_network, network_bytes. eapply reads_last; [by apply reads_err, read_u8_reads|].
  rewrite z2b_small by (destruct n; cbn; lia). apply reads_res. by rewrite network_try_from.
Qed.

Lemma read_document_inv d x d' :
  dec_wf d -> read_document d = (Ok x, d') -> took d (document_bytes x) d' /\ document_wf x.
Proof.
  intros W H. unfold read_document in H. dbind H as magic d1 K1. dbind H as u1 d1' C1.
  apply assert_or_Ok, bool_decide_eq_true in C1. subst magic. dbind H as format d2 K2. dbind H as u2 d2' C2.
  apply assert_or_Ok, Z.eqb_eq in C2. subst format. dbind H as rv d3 K3. dbind H as pv d4 K4. dbind H as sb d5 K5.
  dbind H as status d5' C5. took_all.
  dbind H as s1 e1 S1. apply read_string_inv in S1 as (S1 & X1); [|done]. took_all.
  dbind H as s2 e2 S2. apply read_string_inv in S2 as (S2 & X2); [|done]. took_all.
  dbind H as s3 e3 S3. apply read_string_inv in S3 as (S3 & X3); [|done]. took_all.
  dbind H as n d6 K6. took_all. dbind H as u3 d6' C6. dbind H as l d7 K7.
  apply (read_n_inv _ assignment_bytes assignment_wf) in K7 as (T7 & F7 & L7); [|apply read_assignment_inv|done].
  apply dec_ret_Ok in H as (<- & ->). split.
  - unfold document_bytes. cbn [rd_registry rd_assignments rm_name rm_version rm_protocol_version rm_status rm_owner
      rm_wire_profile]. rewrite <- (status_inv _ _ C5).
    replace (len l) with n by (unfold len; match goal with U : u16 n |- _ => destruct U; lia end). took_chain.
  - split; cbn; try done. forall_list.
Qed.

Lemma read_document_reads d x :
  document_wf x -> document_fields x -> reads d read_document (document_bytes x) x.
Proof.
  intros [X V P A] (F & L & Fa).
  repeat (apply Forall_cons in X as [? X]). repeat (apply Forall_cons in F as [? F]).
  unfold read_document, document_bytes. unfold MAX_ASSIGNMENTS in L.
  eapply reads_bind; [by apply reads_err, read_array_reads|].
  eapply reads_nil_bind; [by apply reads_assert, bool_decide_eqb_refl|].
  eapply reads_bind; [by apply reads_err, read_u16_reads|]. eapply reads_nil_bind; [by apply reads_assert|].
  do 2 (eapply reads_bind; [by apply reads_err, read_u16_reads|]).
  eapply reads_bind; [by apply reads_err, read_u8_reads|]. eapply reads_nil_bind; [by apply reads_res, status_try_from|].
  do 3 (eapply reads_bind; [by apply read_string_reads|]).
  eapply reads_bind; [apply reads_err, read_u16_reads; unfold u16, u16_max; lia|].
  eapply reads_nil_bind.
  { apply reads_assert. unfold MAX_ASSIGNMENTS. rewrite negb_true_iff, orb_false_iff, Z.eqb_neq, Z.ltb_ge. lia. }
  replace (Z.to_nat (len (rd_assignments x))) with (length (rd_assignments x)) by (unfold len; lia).
  eapply reads_last; [apply (reads_n _ assignment_bytes)|destruct x as [[] ?]; apply reads_ret].
  intros d' a I. rewrite Forall_forall in A, Fa. apply read_assignment_reads; [by apply A|by apply Fa].
Qed.

Lemma canon_wf d : document_wf d -> document_fields d -> document_wf (document_canon d) /\ document_fields (document_canon d).
Proof.
  intros [X V P A] (F & L & Fa). split.
  - split; [done|done|done|]. cbn [document_canon rd_assignments]. apply Forall_fmap.
    rewrite (merge_sort_Permutation assignment_le). eapply Forall_impl; [exact A|]. by intros a [].
  - split; [done|]. rewrite canon_length. split; [done|]. cbn [document_canon rd_assignments]. apply Forall_fmap.
    rewrite (merge_sort_Permutation assignment_le). eapply Forall_impl; [exact Fa|]. intros a Fx.
    pose proof (sorted_networks a Fx). destruct Fx as [? ? ? ? N]. split; try done.
    cbn [assignment_canon ra_network_applicability].
    assert (StronglySorted network_le (merge_sort network_le (ra_network_applicability a))) as S
      by apply (StronglySorted_merge_sort network_le).
    apply (vec_dedup_strict network_le) in S. clear -S. induction S as [|x l S IH F]; constructor; [|done].
    intros I. rewrite Forall_forall in F. by destruct (F x I).
Qed.

(** Equal bytes, equal documents. *)
Lemma document_bytes_inj x y :
  document_wf x -> document_fields x -> document_wf y -> document_fields y ->
  len (document_bytes x) <= isize_max -> document_bytes x = document_bytes y -> x = y.
Proof.
  intros Wx Fx Wy Fy L E.
  pose proof (run_all_reads RegDecode read_document _ x L (read_document_reads _ x Wx Fx)) as Rx.
  rewrite E in L, Rx. rewrite (run_all_reads RegDecode read_document _ y L (read_document_reads _ y Wy Fy)) in Rx.
  congruence.
Qed.

(** The canonical form of a registry is unique: the decoder accepts exactly the
    canonical encodings of valid, well-typed documents in canonical order that fit
    the size limit, so the digest of a document names one set of assignments. *)
Theorem registry_document_codec input x :
  from_canonical_bytes input = Ok x <->
  document_wf x /\ document_canon x = x /\ canonical_bytes x = Ok input /\ len input <= MAX_REGISTRY_BINARY.
Proof.
  assert (forall bs : list byte, len bs <= MAX_REGISTRY_BINARY -> len bs <= isize_max) as S.
  { unfold MAX_REGISTRY_BINARY, isize_max. lia. }
  unfold from_canonical_bytes. split.
  - intros H. apply bind_Ok in H as (u & L & H). apply assert_or_Ok, Z.leb_le in L.
    apply bind_Ok in H as (y & R & H). apply bind_Ok in H as ([] & V & H). apply bind_Ok in H as (bs & C & H).
    apply bind_Ok in H as (u' & E & [= <-]). apply assert_or_Ok, bool_decide_eq_true in E. subst bs.
    pose proof C as C'. apply canonical_bytes_Ok in C' as [_ Eb].
    apply run_all_Ok in R as (d & R & F). apply read_document_inv in R as (T & W); [|by apply wf_new; apply S].
    apply took_finish in T; [|done]. split_and!; [done| |done|done].
    destruct (document_validate_fields y V) as [Fy _]. destruct (canon_wf y W Fy) as [Wc Fc].
    apply document_bytes_inj; try done; [rewrite <- Eb; by apply S|congruence].
  - intros (W & E & C & L). rewrite (proj2 (Z.leb_le _ _) L). cbn [assert_or mbind result_bind].
    pose proof C as C'. apply canonical_bytes_Ok in C' as [V Eb]. rewrite E in Eb. subst input.
    rewrite (run_all_reads RegDecode read_document _ x); [|by apply S|].
    2:{ apply read_document_reads; [done|]. by apply document_validate_fields. }
    cbn [mbind result_bind]. rewrite V. cbn [mbind result_bind]. rewrite C. cbn [mbind result_bind].
    by rewrite bool_decide_eqb_refl.
Qed.

(** ** A registry assigns every value once *)
Definition covers (a : RegistryAssignment) (kind : AssignmentKind) (value : Z) : Prop :=
  ra_kind a = kind /\ ra_value a <= value <= assignment_end a.

Lemma check_pair_Ok a b kind value :
  check_pair a b = Ok tt -> ra_semantic_name a <> ra_semantic_name b /\ (covers a kind value -> ~ covers b kind value).
Proof.
  intros H. unfold check_pair in H. apply bind_Ok in H as (u & C & N). apply assert_or_Ok in C, N.
  rewrite negb_true_iff in C, N. apply bool_decide_eq_false in N. split; [done|].
  intros [K1 V1] [K2 V2]. rewrite (bool_decide_eq_true_2 _ (eq_trans K1 (eq_sym K2))) in C.
  rewrite !(proj2 (Z.leb_le _ _)) in C by lia. done.
Qed.

Lemma check_pairs_apart l a b :
  check_pairs l = Ok tt -> a ∈ l -> b ∈ l -> a = b \/ check_pair a b = Ok tt \/ check_pair b a = Ok tt.
Proof.
  induction l as [|x l IH]; intros H Ia Ib; [by apply elem_of_nil in Ia|]. cbn [check_pairs] in H.
  apply bind_Ok in H as ([] & E & H). apply try_each_Ok in E. rewrite Forall_forall in E.
  apply elem_of_cons in Ia as [->|Ia], Ib as [->|Ib]; [by left| | |by apply IH].
  - right. left. by apply E.
  - right. right. by apply E.
Qed.

(** The names of the assignments a node is compiled with. *)
Definition compiled_assignments : list (list byte * AssignmentKind * Z) :=
  [(bstr "p2p-dns-relay-service", KindServiceBit, wa_dns_relay_service SHAKESCAPE_V1);
   (bstr "getdnsrelay", KindPacketType, wa_dns_relay_request SHAKESCAPE_V1);
   (bstr "dnsrelay", KindPacketType, wa_dns_relay_response SHAKESCAPE_V1);
   (bstr "p2p-odoh-service", KindServiceBit, wa_odoh_service SHAKESCAPE_V1);
   (bstr "odns", KindPacketType, wa_odoh_packet SHAKESCAPE_V1);
   (bstr "hnsr-rendezvous-service", KindServiceBit, wa_hnsr_rendezvous_service SHAKESCAPE_V1);
   (bstr "hnsr-relay-service", KindServiceBit, wa_hnsr_relay_service SHAKESCAPE_V1);
   (bstr "hnsr", KindPacketType, wa_hnsr_packet SHAKESCAPE_V1);
   (bstr "shakescape-extension-service", KindServiceBit, wa_shakescape_extension_service SHAKESCAPE_V1);
   (bstr "shakescape-ext", KindPacketType, wa_shakescape_extension_packet SHAKESCAPE_V1);
   (bstr "registry-negotiation", KindProtocolId, REGISTRY_NEGOTIATION_PROTOCOL_ID)].

Lemma required_present d name kind value :
  require_assignment d name kind value = Ok tt ->
  exists a, a ∈ rd_assignments d /\ ra_semantic_name a = name /\ covers a kind value.
Proof.
  intros H. apply assert_or_Ok, List.existsb_exists in H as (a & I & H). apply list_elem_of_In in I.
  rewrite !andb_true_iff, !bool_decide_eq_true, Z.eqb_eq, negb_true_iff in H. destruct H as (((N & K) & V) & R).
  exists a. split_and!; [done|done|]. split; [done|]. unfold assignment_end.
  destruct (ra_range_end a); [done|]. lia.
Qed.

(** A valid registry is unambiguous: no value of a kind is covered by two
    assignments and no name is used twice; and in a valid document of the first
    registry, whatever assignment covers a value the node is compiled with is the
    one of that name. *)
Theorem registry_unambiguous d (V : RegistryDocument_validate d = Ok tt) :
  (forall a b kind value, a ∈ rd_assignments d -> b ∈ rd_assignments d ->
     covers a kind value -> covers b kind value -> a = b) /\
  (forall a b, a ∈ rd_assignments d -> b ∈ rd_assignments d -> ra_semantic_name a = ra_semantic_name b -> a = b) /\
  (rm_name (rd_registry d) = SHAKESCAPE_V1_REGISTRY_NAME ->
   forall name kind value a, (name, kind, value) ∈ compiled_assignments -> a ∈ rd_assignments d ->
     covers a kind value -> ra_semantic_name a = name).
Proof.
  destruct (document_validate_fields d V) as [_ P].
  assert (forall a b kind value, a ∈ rd_assignments d -> b ∈ rd_assignments d ->
     covers a kind value -> covers b kind value -> a = b) as U.
  { intros a b kind value Ia Ib Ca Cb. destruct (check_pairs_apart _ a b P Ia Ib) as [|[C|C]]; [done| |];
      by destruct (check_pair_Ok _ _ kind value C) as [_ D]; destruct D. }
  split; [done|split].
  - intros a b Ia Ib N. destruct (check_pairs_apart _ a b P Ia Ib) as [|[C|C]]; [done| |];
      by destruct (check_pair_Ok _ _ KindServiceBit 0 C) as [D _]; destruct D.
  - intros Nm name kind value a I Ia Ca. unfold RegistryDocument_validate in V. rewrite Nm in V.
    apply bind_Ok in V as (? & _ & V). apply bind_Ok in V as (? & _ & V). apply bind_Ok in V as (? & _ & V).
    apply bind_Ok in V as (? & _ & V). rewrite bool_decide_eq_false_2 in V by (unfold SHAKESCAPE_V1_REGISTRY_NAME, HNSR_PROFILE_REGISTRY_NAME; discriminate).
    apply bind_Ok in V as ([] & R & _). apply try_each_Ok in R. rewrite Forall_forall in R.
    assert (incl compiled_assignments V1_REQUIREMENTS) as S.
    { intros y Hy. repeat (destruct Hy as [<-|Hy]; [vm_compute; tauto|]). destruct Hy. }
    apply list_elem_of_In, S, list_elem_of_In in I. specialize (R _ I). cbn in R.
    apply required_present in R as (b & Ib & <- & Cb). by rewrite (U a b kind value).
Qed.

(** ** Example: the assignments of the first registry *)
Definition example_assignment (name : list byte) (kind : AssignmentKind) (value : Z) (range_end : option Z)
  : RegistryAssignment :=
  mkAssignment name kind value range_end 1 1 (if option_is_some range_end then StatusReserved else StatusExperimental)
    (bstr "owner") (bstr "url") (bstr "url") [XMainnet; XRegtest] 4096 (bstr "public") (bstr "0.1.0") (bstr "active") None.
Definition example_document : RegistryDocument :=
  mkDocument (mkMetadata SHAKESCAPE_V1_REGISTRY_NAME 1 1 StatusStableExperimental (bstr "owner") SHAKESCAPE_V1_WIRE_PROFILE)
    (((fun '(name, kind, value) => example_assignment name kind value None) <$> V1_REQUIREMENTS) ++
     [example_assignment (bstr "reserved-protocols-0x0003-0xffff") KindProtocolId 3 (Some u16_max)]).

Lemma registry_unambiguous_witness :
  forall a, a ∈ rd_assignments example_document -> covers a KindPacketType HNSR_PACKET -> ra_semantic_name a = bstr "hnsr".
Proof.
  intros a I C. assert (RegistryDocument_validate example_document = Ok tt) as V by (vm_compute; reflexivity).
  apply (proj2 (proj2 (registry_unambiguous example_document V)) eq_refl (bstr "hnsr") KindPacketType HNSR_PACKET a);
    [|done|done]. apply list_elem_of_In. vm_compute. tauto.
Defined.
