(* ===== verification/DnsRelayWire.v ===== *)
(** * hns-dns-relay-protocol: HIP-76 messages

    Models [crates/hns-dns-relay-protocol/src/lib.rs]: the request and the response
    of the DNS relay, their checks and their codecs. *)

From S2P Require Import Prelude Encoding.
Local Open Scope Z_scope.

Definition MAX_DNS_RELAY_QUERY_BODY_SIZE : Z := 4 * 1024.
Definition MAX_DNS_RELAY_RESPONSE_BODY_SIZE : Z := u16_max.
Definition MAX_DNS_RELAY_REQUEST_PAYLOAD_SIZE : Z := 8 + 2 + MAX_DNS_RELAY_QUERY_BODY_SIZE.
Definition MAX_DNS_RELAY_RESPONSE_PAYLOAD_SIZE : Z := 8 + 1 + 2 + MAX_DNS_RELAY_RESPONSE_BODY_SIZE.

Inductive DnsRelayStatus :=
| RelayOk | RelayRefused | RelayUnsupported | RelayBusy | RelayInvalidQuery | RelayResolverUnavailable
| RelayTimeout | RelayInternalError.
#[global] Instance DnsRelayStatus_eq_dec : EqDecision DnsRelayStatus.
Proof. solve_decision. Defined.

Inductive DnsRelayProtocolError :=
| RelayDecode (e : DecodeError)
| RelayZeroRequestId
| EmptyQuery
| QueryTooLarge (length : Z)
| ResponseTooLarge (length : Z)
| UnknownStatus (value : byte)
| EmptySuccess
| ErrorHasBody.

Definition DnsRelayStatus_value (s : DnsRelayStatus) : Z :=
  match s with
  | RelayOk => 0 | RelayRefused => 1 | RelayUnsupported => 2 | RelayBusy => 3 | RelayInvalidQuery => 4
  | RelayResolverUnavailable => 5 | RelayTimeout => 6 | RelayInternalError => 7
  end.

Definition DnsRelayStatus_try_from (value : byte) : result DnsRelayProtocolError DnsRelayStatus :=
  match b2z value with
  | 0 => Ok RelayOk
  | 1 => Ok RelayRefused
  | 2 => Ok RelayUnsupported
  | 3 => Ok RelayBusy
  | 4 => Ok RelayInvalidQuery
  | 5 => Ok RelayResolverUnavailable
  | 6 => Ok RelayTimeout
  | 7 => Ok RelayInternalError
  | _ => Err (UnknownStatus value)
  end.

(** ** Requests *)
Record GetDnsRelay := mkGetDnsRelay { gd_request_id : Z; gd_query : list byte }.

Definition GetDnsRelay_validate (m : GetDnsRelay) : result DnsRelayProtocolError unit :=
  assert_or (negb (gd_request_id m =? 0)) RelayZeroRequestId ;;
  assert_or (negb (len (gd_query m) =? 0)) EmptyQuery ;;
  assert_or (len (gd_query m) <=? MAX_DNS_RELAY_QUERY_BODY_SIZE) (QueryTooLarge (len (gd_query m))).

Definition GetDnsRelay_new (request_id : Z) (query : list byte) : result DnsRelayProtocolError GetDnsRelay :=
  let message := mkGetDnsRelay request_id query in
  GetDnsRelay_validate message ;; Ok message.

Definition GetDnsRelay_encode (m : GetDnsRelay) : result DnsRelayProtocolError (list byte) :=
  GetDnsRelay_validate m ;;
  let encoder := put_u64_le (with_capacity (10 + len (gd_query m))) (gd_request_id m) in
  assert_or (len (gd_query m) <=? u16_max) (QueryTooLarge (len (gd_query m))) ;;
  Ok (into_bytes (put_bytes (put_u16_le encoder (len (gd_query m))) (gd_query m))).

Definition GetDnsRelay_read : decM DnsRelayProtocolError (Z * list byte) :=
  request_id ← lift_err RelayDecode read_u64_le;
  lift_res (assert_or (negb (request_id =? 0)) RelayZeroRequestId) ;;
  query_length ← lift_err RelayDecode read_u16_le;
  lift_res (assert_or (query_length <=? MAX_DNS_RELAY_QUERY_BODY_SIZE) (QueryTooLarge query_length)) ;;
  query ← lift_err RelayDecode (read_bounded_vec query_length MAX_DNS_RELAY_QUERY_BODY_SIZE);
  mret (request_id, query).

Definition GetDnsRelay_decode (input : list byte) : result DnsRelayProtocolError GetDnsRelay :=
  '(request_id, query) ← run_all RelayDecode GetDnsRelay_read input;
  GetDnsRelay_new request_id query.

(** ** Responses *)
Record DnsRelayMessage := mkDnsRelay { dr_request_id : Z; dr_status : DnsRelayStatus; dr_response : list byte }.

Definition DnsRelay_validate (m : DnsRelayMessage) : result DnsRelayProtocolError unit :=
  assert_or (negb (dr_request_id m =? 0)) RelayZeroRequestId ;;
  assert_or (len (dr_response m) <=? MAX_DNS_RELAY_RESPONSE_BODY_SIZE) (ResponseTooLarge (len (dr_response m))) ;;
  match dr_status m, len (dr_response m) =? 0 with
  | RelayOk, true => Err EmptySuccess
  | RelayOk, false => Ok tt
  | _, true => Ok tt
  | _, false => Err ErrorHasBody
  end.

Definition DnsRelay_new (request_id : Z) (status : DnsRelayStatus) (response : list byte)
  : result DnsRelayProtocolError DnsRelayMessage :=
  let message := mkDnsRelay request_id status response in
  DnsRelay_validate message ;; Ok message.

Definition DnsRelay_encode (m : DnsRelayMessage) : result DnsRelayProtocolError (list byte) :=
  DnsRelay_validate m ;;
  let encoder := put_u64_le (with_capacity (11 + len (dr_response m))) (dr_request_id m) in
  let encoder := put_u8 encoder (z2b (DnsRelayStatus_value (dr_status m))) in
  assert_or (len (dr_response m) <=? u16_max) (ResponseTooLarge (len (dr_response m))) ;;
  Ok (into_bytes (put_bytes (put_u16_le encoder (len (dr_response m))) (dr_response m))).

Definition DnsRelay_read : decM DnsRelayProtocolError (Z * DnsRelayStatus * list byte) :=
  request_id ← lift_err RelayDecode read_u64_le;
  lift_res (assert_or (negb (request_id =? 0)) RelayZeroRequestId) ;;
  status_byte ← lift_err RelayDecode read_u8;
  status ← lift_res (DnsRelayStatus_try_from status_byte);
  response_length ← lift_err RelayDecode read_u16_le;
  lift_res (assert_or (response_length <=? MAX_DNS_RELAY_RESPONSE_BODY_SIZE) (ResponseTooLarge response_length)) ;;
  response ← lift_err RelayDecode (read_bounded_vec response_length MAX_DNS_RELAY_RESPONSE_BODY_SIZE);
  mret (request_id, status, response).

Definition DnsRelay_decode (input : list byte) : result DnsRelayProtocolError DnsRelayMessage :=
  '(request_id, status, response) ← run_all RelayDecode DnsRelay_read input;
  DnsRelay_new request_id status response.

(** ** The codecs *)
Definition request_bytes (m : GetDnsRelay) : list byte :=
  to_le_bytes 8 (gd_request_id m) ++ to_le_bytes 2 (len (gd_query m)) ++ gd_query m.
Definition response_bytes (m : DnsRelayMessage) : list byte :=
  to_le_bytes 8 (dr_request_id m) ++ [z2b (DnsRelayStatus_value (dr_status m))] ++
  to_le_bytes 2 (len (dr_response m)) ++ dr_response m.

Lemma request_validate_Ok m :
  GetDnsRelay_validate m = Ok tt <->
  gd_request_id m <> 0 /\ 1 <= len (gd_query m) <= MAX_DNS_RELAY_QUERY_BODY_SIZE.
Proof.
  unfold GetDnsRelay_validate. rewrite !bind_Ok. pose proof (len_nonneg (gd_query m)). split.
  - intros (u1 & H1 & H2). apply bind_Ok in H2 as (u2 & H2 & H3). apply assert_or_Ok in H1, H2, H3.
    rewrite negb_true_iff, Z.eqb_neq in H1, H2. apply Z.leb_le in H3. lia.
  - intros [I L]. exists tt. rewrite (proj2 (Z.eqb_neq _ _) I), (proj2 (Z.eqb_neq (len (gd_query m)) 0)) by lia. split; [done|].
    cbn [negb assert_or mbind result_bind]. by rewrite (proj2 (Z.leb_le _ _)) by lia.
Qed.

Lemma request_encode_Ok m bs :
  GetDnsRelay_encode m = Ok bs <-> GetDnsRelay_validate m = Ok tt /\ bs = request_bytes m.
Proof.
  unfold GetDnsRelay_encode. destruct (GetDnsRelay_validate m) as [[]|] eqn:V; [|by split; [|intros [? _]]].
  apply request_validate_Ok in V as [_ L]. unfold MAX_DNS_RELAY_QUERY_BODY_SIZE in L. cbn [mbind result_bind].
  rewrite (proj2 (Z.leb_le _ u16_max)) by (unfold u16_max; lia). cbn [assert_or mbind result_bind]. unfold into_bytes, request_bytes.
  rewrite bytes_put_bytes, bytes_put_u16, bytes_put_u64, bytes_with_capacity, <- !app_assoc. cbn [app].
  split; [by intros [= <-]|]. by intros [_ ->].
Qed.

Lemma request_decode_Ok input m :
  len input <= isize_max ->
  GetDnsRelay_decode input = Ok m <-> u64 (gd_request_id m) /\ GetDnsRelay_encode m = Ok input.
Proof.
  intros L. rewrite request_encode_Ok. unfold GetDnsRelay_decode, GetDnsRelay_new. split.
  - intros H. apply bind_Ok in H as ([i q] & R & H). apply bind_Ok in H as ([] & V & [= <-]).
    apply run_all_Ok in R as (d & R & F). unfold GetDnsRelay_read in R. dbind R as i' d1 H1. dbind R as u1 d1' C1.
    dbind R as n d2 H2. dbind R as u2 d2' C2. dbind R as q' d3 H3. apply dec_ret_Ok in R as ([= <- <-] & ->).
    pose proof (wf_new _ L). took_all. apply read_bounded_vec_inv in H3 as (T3 & Ln & _); [|match goal with U : u16 n |- _ => destruct U; lia end|done].
    split; [done|]. split; [done|]. unfold request_bytes. cbn [gd_request_id gd_query]. rewrite Ln.
    symmetry. eapply took_finish; [|exact F]. took_chain.
  - intros (I & V & ->). pose proof V as V'. apply request_validate_Ok in V' as [N Lq].
    unfold MAX_DNS_RELAY_QUERY_BODY_SIZE in Lq.
    rewrite (run_all_reads RelayDecode GetDnsRelay_read _ (gd_request_id m, gd_query m)); [|done|].
    { cbn [mbind result_bind]. replace (mkGetDnsRelay (gd_request_id m) (gd_query m)) with m by by destruct m. by rewrite V. }
    unfold GetDnsRelay_read, request_bytes. eapply reads_bind; [by apply reads_err, read_u64_reads|].
    eapply reads_nil_bind; [apply reads_assert; by rewrite (proj2 (Z.eqb_neq _ _) N)|].
    eapply reads_bind; [apply reads_err, read_u16_reads; unfold u16, u16_max; lia|].
    eapply reads_nil_bind; [apply reads_assert; apply Z.leb_le; unfold MAX_DNS_RELAY_QUERY_BODY_SIZE; lia|].
    eapply reads_last; [apply reads_err, read_bounded_vec_reads; unfold MAX_DNS_RELAY_QUERY_BODY_SIZE; lia|]. apply reads_ret.
Qed.

Lemma relay_status_try_from s : DnsRelayStatus_try_from (z2b (DnsRelayStatus_value s)) = Ok s.
Proof. by destruct s. Qed.

Lemma relay_status_inv b s : DnsRelayStatus_try_from b = Ok s -> b = z2b (DnsRelayStatus_value s).
Proof.
  intros H. rewrite <- (z2b_b2z b). unfold DnsRelayStatus_try_from in H.
  destruct (b2z b) as [|[[[]|[]|]|[[]|[]|]|]|]; try done; by injection H as <-.
Qed.

Lemma response_validate_len m :
  DnsRelay_validate m = Ok tt -> dr_request_id m <> 0 /\ len (dr_response m) <= u16_max.
Proof.
  unfold DnsRelay_validate. intros H. apply bind_Ok in H as (u1 & H1 & H). apply bind_Ok in H as (u2 & H2 & _).
  apply assert_or_Ok in H1, H2. rewrite negb_true_iff, Z.eqb_neq in H1. apply Z.leb_le in H2. done.
Qed.

Lemma response_encode_Ok m bs :
  DnsRelay_encode m = Ok bs <-> DnsRelay_validate m = Ok tt /\ bs = response_bytes m.
Proof.
  unfold DnsRelay_encode. destruct (DnsRelay_validate m) as [[]|] eqn:V; [|by split; [|intros [? _]]].
  apply response_validate_len in V as [_ L]. cbn [mbind result_bind].
  rewrite (proj2 (Z.leb_le _ u16_max)) by done. cbn [assert_or mbind result_bind]. unfold into_bytes, response_bytes.
  rewrite bytes_put_bytes, bytes_put_u16, bytes_put_u8, bytes_put_u64, bytes_with_capacity, <- !app_assoc. cbn [app].
  split; [by intros [= <-]|]. by intros [_ ->].
Qed.

Lemma response_decode_Ok input m :
  len input <= isize_max ->
  DnsRelay_decode input = Ok m <-> u64 (dr_request_id m) /\ DnsRelay_encode m = Ok input.
Proof.
  intros L. rewrite response_encode_Ok. unfold DnsRelay_decode, DnsRelay_new. split.
  - intros H. apply bind_Ok in H as ([[i st] q] & R & H). apply bind_Ok in H as ([] & V & [= <-]).
    apply run_all_Ok in R as (d & R & F). unfold DnsRelay_read in R. dbind R as i' d1 H1. dbind R as u1 d1' C1.
    dbind R as sb d2 H2. dbind R as st' d2' C2. dbind R as n d3 H3. dbind R as u3 d3' C3. dbind R as q' d4 H4.
    apply dec_ret_Ok in R as ([= <- <- <-] & ->). pose proof (wf_new _ L). took_all.
    apply read_bounded_vec_inv in H4 as (T4 & Ln & _); [|match goal with U : u16 n |- _ => destruct U; lia end|done].
    split; [done|]. split; [done|]. unfold response_bytes. cbn [dr_request_id dr_status dr_response].
    rewrite Ln, <- (relay_status_inv _ _ C2). symmetry. eapply took_finish; [|exact F]. took_chain.
  - intros (I & V & ->). pose proof V as V'. apply response_validate_len in V' as [N Lq].
    pose proof (len_nonneg (dr_response m)).
    rewrite (run_all_reads RelayDecode DnsRelay_read _ (dr_request_id m, dr_status m, dr_response m)); [|done|].
    { cbn [mbind result_bind]. replace (mkDnsRelay (dr_request_id m) (dr_status m) (dr_response m)) with m by by destruct m.
      by rewrite V. }
    unfold DnsRelay_read, response_bytes. eapply reads_bind; [by apply reads_err, read_u64_reads|].
    eapply reads_nil_bind; [apply reads_assert; by rewrite (proj2 (Z.eqb_neq _ _) N)|].
    eapply reads_bind; [by apply reads_err, read_u8_reads|]. eapply reads_nil_bind; [by apply reads_res, relay_status_try_from|].
    eapply reads_bind; [apply reads_err, read_u16_reads; unfold u16; lia|].
    eapply reads_nil_bind; [apply reads_assert, Z.leb_le; exact Lq|].
    eapply reads_last; [apply reads_err, read_bounded_vec_reads; exact Lq|]. apply reads_ret.
Qed.

(** Relay messages have one spelling: each decoder accepts exactly the encodings of
    valid messages, so a decoded request always carries a nonzero identifier and a
    query of 1 to 4096 bytes, and a decoded response carries a body exactly when it
    reports success. *)
Theorem dns_relay_codec input (L : len input <= isize_max) :
  (forall m, GetDnsRelay_decode input = Ok m <-> u64 (gd_request_id m) /\ GetDnsRelay_encode m = Ok input) /\
  (forall m, DnsRelay_decode input = Ok m <-> u64 (dr_request_id m) /\ DnsRelay_encode m = Ok input) /\
  (forall m, DnsRelay_decode input = Ok m -> (dr_status m = RelayOk <-> dr_response m <> [])).
Proof.
  split; [intros m; by apply request_decode_Ok|]. split; [intros m; by apply response_decode_Ok|].
  intros m H. apply response_decode_Ok in H as [_ H]; [|done]. apply response_encode_Ok in H as [V _].
  unfold DnsRelay_validate in V. apply bind_Ok in V as (u1 & _ & V). apply bind_Ok in V as (u2 & _ & V).
  destruct (dr_response m) as [|b r] eqn:E.
  - change (len [] =? 0) with true in V. split; [intros Es; rewrite Es in V; done|done].
  - rewrite len_cons in V. pose proof (len_nonneg r). rewrite (proj2 (Z.eqb_neq _ 0)) in V by lia.
    split; [done|]. intros _. by destruct (dr_status m).
Qed.

Lemma dns_relay_codec_witness :
  DnsRelay_decode (response_bytes (mkDnsRelay 7 RelayBusy [])) = Ok (mkDnsRelay 7 RelayBusy []).
Proof.
  apply (proj1 (proj2 (dns_relay_codec (response_bytes (mkDnsRelay 7 RelayBusy [])) ltac:(vm_compute; discriminate)))).
  split; [vm_compute; split; discriminate|reflexivity].
Defined.
