(* ===== verification/OdohWire.v ===== *)
(** * hns-odoh-protocol: the messages of oblivious DNS

    Models [crates/hns-odoh-protocol/src]: TLS vectors, target locators, target
    configurations and their signed records ([config.rs]), the RFC 9230 message
    ([message.rs]), the packet bodies ([body.rs]) and the packet envelope
    ([envelope.rs]). [Odoh] models the encryption. [TlsDecoder] wraps [Decoder] and
    is the same cursor. DER decoding of signatures is a parameter. *)

From S2P Require Import Prelude Encoding Primitives Covenants Transaction Script Interpreter K256 Experimental.
Local Open Scope Z_scope.

Definition MAX_ODOH_QUERY_SIZE : Z := 8192.
Definition MAX_ODOH_RESPONSE_SIZE : Z := u16_max.
Definition MAX_ODOH_PACKET_SIZE : Z := 12 + 4 + MAX_ODOH_RESPONSE_SIZE + 2 + 4096.
Definition MAX_ODOH_CONFIG_SIZE : Z := 16384.
Definition MAX_OUTER_PADDING_SIZE : Z := 4096.
Definition MAX_ODOH_CONFIG_LIFETIME : Z := 172800.

Inductive OdohProtocolError :=
| OdDecode (e : DecodeError)
| OdInvalid (reason : string)
| OdTooLarge (actual maximum : Z)
| OdCryptography
| OdInvalidSignature.

(** ** config.rs: TLS vectors *)
Definition write_tls_vector (output value : list byte) (allow_empty : bool) : result OdohProtocolError (list byte) :=
  assert_or (allow_empty || negb (len value =? 0)) (OdInvalid "empty TLS vector") ;;
  assert_or (len value <=? u16_max) (OdTooLarge (len value) u16_max) ;;
  Ok (output ++ to_be_bytes 2 (len value) ++ value).

Definition tls_read_u16_be : decM OdohProtocolError Z :=
  bytes ← lift_err OdDecode (read_array 2); mret (from_be_bytes bytes).

Definition tls_vector (allow_empty : bool) : decM OdohProtocolError (list byte) :=
  length ← tls_read_u16_be;
  lift_res (assert_or (allow_empty || negb (length =? 0)) (OdInvalid "empty TLS vector")) ;;
  lift_err OdDecode (read_slice length).

(** ** config.rs: target locators *)
Definition DIRECT_BRONTIDE : Z := 1.
Definition HOST_IPV4 : Z := 4.
Definition HOST_IPV6 : Z := 6.

(** [std::net]: the octets of an address, and the flow and scope of a V6 socket
    address, which [SocketAddr::new] sets to zero. *)
Inductive IpAddr := IpV4 (octets : list byte) | IpV6 (octets : list byte).
#[global] Instance IpAddr_eq_dec : EqDecision IpAddr.
Proof. solve_decision. Defined.
Record SocketAddr := mkSocket { sa_ip : IpAddr; sa_port : Z; sa_flowinfo : Z; sa_scope_id : Z }.
#[global] Instance SocketAddr_eq_dec : EqDecision SocketAddr.
Proof. solve_decision. Defined.
Definition SocketAddr_new (ip : IpAddr) (port : Z) : SocketAddr := mkSocket ip port 0 0.

Definition octet (l : list byte) (i : nat) : Z := b2z (default x00 (l !! i)).
Definition segment (l : list byte) (i : nat) : Z := 256 * octet l (2 * i) + octet l (2 * i + 1).

Definition ip_is_unspecified (ip : IpAddr) : bool :=
  match ip with IpV4 o => bool_decide (o = replicate 4 x00) | IpV6 o => bool_decide (o = replicate 16 x00) end.

Definition ipv4_publicly_routable (o : list byte) : bool :=
  negb ((octet o 0 =? 10) || ((octet o 0 =? 172) && (16 <=? octet o 1) && (octet o 1 <=? 31)) ||
        ((octet o 0 =? 192) && (octet o 1 =? 168))) (* is_private *) &&
  negb (octet o 0 =? 127) (* is_loopback *) &&
  negb ((octet o 0 =? 169) && (octet o 1 =? 254)) (* is_link_local *) &&
  negb (bool_decide (o = replicate 4 xff)) (* is_broadcast *) &&
  negb (((octet o 0 =? 192) && (octet o 1 =? 0) && (octet o 2 =? 2)) ||
        ((octet o 0 =? 198) && (octet o 1 =? 51) && (octet o 2 =? 100)) ||
        ((octet o 0 =? 203) && (octet o 1 =? 0) && (octet o 2 =? 113))) (* is_documentation *) &&
  negb ((224 <=? octet o 0) && (octet o 0 <=? 239)) (* is_multicast *) &&
  negb (bool_decide (o = replicate 4 x00)) (* is_unspecified *) &&
  negb (octet o 0 =? 0) &&
  negb ((octet o 0 =? 100) && (64 <=? octet o 1) && (octet o 1 <=? 127)) &&
  negb ((octet o 0 =? 198) && ((octet o 1 =? 18) || (octet o 1 =? 19))) &&
  (octet o 0 <? 240).

Definition MAPPED_PREFIX : list byte := replicate 10 x00 ++ [xff; xff].

Definition is_publicly_routable (ip : IpAddr) : bool :=
  match ip with
  | IpV4 o => ipv4_publicly_routable o
  | IpV6 o =>
    if bool_decide (take 12 o = MAPPED_PREFIX) then ipv4_publicly_routable (drop 12 o)
    else negb (bool_decide (o = replicate 15 x00 ++ [x01]) || (octet o 0 =? 0xff) ||
               bool_decide (o = replicate 16 x00) ||
               (Z.land (segment o 0) 0xfe00 =? 0xfc00) || (Z.land (segment o 0) 0xffc0 =? 0xfe80) ||
               ((segment o 0 =? 0x2001) && (segment o 1 =? 0x0db8)))
  end.

Record DirectTargetLocator := mkLocator { tl_target_peer_key : list byte; tl_address : SocketAddr }.
#[global] Instance DirectTargetLocator_eq_dec : EqDecision DirectTargetLocator.
Proof. solve_decision. Defined.

Definition DirectTargetLocator_encode (l : DirectTargetLocator) : list byte :=
  let e := put_u8 (with_capacity 55) (z2b DIRECT_BRONTIDE) in
  let e := put_bytes e (tl_target_peer_key l) in
  let e := put_u16_le e 19 in
  let e := match sa_ip (tl_address l) with
           | IpV4 o => put_bytes (put_bytes (put_bytes (put_u8 e (z2b HOST_IPV4)) (replicate 10 x00)) [xff; xff]) o
           | IpV6 o => put_bytes (put_u8 e (z2b HOST_IPV6)) o
           end in
  into_bytes (put_u16_le e (sa_port (tl_address l))).

(** ** config.rs: configurations *)
Definition SUPPORTED_CONFIG_VERSION : Z := 1.
Definition KEM_X25519_SHA256 : Z := 0x0020.
Definition KDF_HKDF_SHA256 : Z := 0x0001.
Definition AEAD_AES_128_GCM : Z := 0x0001.
Definition TARGET_CONFIG_TAG : list byte := bstr "HNS-P2P-ODOH-CONFIG-V1" ++ [x00].

(** [OdohConfig] is its public key. *)
Record OdohConfig := mkConfig { cf_public_key : list byte }.

Definition OdohConfig_contents (c : OdohConfig) : list byte :=
  to_be_bytes 2 KEM_X25519_SHA256 ++ to_be_bytes 2 KDF_HKDF_SHA256 ++ to_be_bytes 2 AEAD_AES_128_GCM ++
  to_be_bytes 2 32 ++ cf_public_key c.

Definition write_config (list0 : list byte) (c : OdohConfig) : result OdohProtocolError (list byte) :=
  write_tls_vector (list0 ++ to_be_bytes 2 SUPPORTED_CONFIG_VERSION) (OdohConfig_contents c) false.

Definition encode_config_list (configurations : list OdohConfig) : result OdohProtocolError (list byte) :=
  assert_or (negb (len configurations =? 0)) (OdInvalid "ODoH configuration list is empty") ;;
  list0 ← try_fold write_config [] configurations;
  output ← write_tls_vector [] list0 false;
  assert_or (len output <=? MAX_ODOH_CONFIG_SIZE) (OdTooLarge (len output) MAX_ODOH_CONFIG_SIZE) ;;
  Ok output.

Definition read_config_contents : decM OdohProtocolError OdohConfig :=
  kem ← tls_read_u16_be;
  kdf_aead ← (if negb (kem =? KEM_X25519_SHA256) then mret false else
              kdf ← tls_read_u16_be;
              if negb (kdf =? KDF_HKDF_SHA256) then mret false else
              aead ← tls_read_u16_be; mret (aead =? AEAD_AES_128_GCM));
  lift_res (assert_or kdf_aead (OdInvalid "unsupported ODoH cipher suite")) ;;
  public_key ← tls_vector false;
  lift_res (assert_or (len public_key =? 32) (OdInvalid "invalid ODoH public key")) ;;
  mret (mkConfig public_key).

Definition decode_config_contents (contents : list byte) : result OdohProtocolError OdohConfig :=
  run_all OdDecode read_config_contents contents.

(** The [while] loop over the list; [None] is running out of fuel. *)
Fixpoint config_loop (fuel : nat) (d : Decoder) (configurations : list OdohConfig)
  : option (result OdohProtocolError (list OdohConfig)) :=
  match fuel with
  | O => None
  | S fuel =>
    if remaining d =? 0 then Some (Ok configurations)
    else
      match (version ← tls_read_u16_be; contents ← tls_vector false; mret (version, contents)) d with
      | (Err e, _) => Some (Err e)
      | (Ok (version, contents), d) =>
        if negb (version =? SUPPORTED_CONFIG_VERSION) then config_loop fuel d configurations
        else match decode_config_contents contents with
             | Err e => Some (Err e)
             | Ok c => config_loop fuel d (configurations ++ [c])
             end
      end
  end.

Definition decode_config_list (input : list byte) : option (result OdohProtocolError (list OdohConfig)) :=
  if (len input =? 0) || (MAX_ODOH_CONFIG_SIZE <? len input)
  then Some (Err (OdTooLarge (len input) MAX_ODOH_CONFIG_SIZE))
  else match run_all OdDecode (tls_vector false) input with
       | Err e => Some (Err e)
       | Ok list0 =>
         match config_loop (S (length list0)) (Decoder_new list0) [] with
         | Some (Ok []) => Some (Err (OdInvalid "no supported ODoH configuration"))
         | r => r
         end
       end.

(** ** message.rs: the RFC 9230 message *)
Inductive OdohMessageType := OdohQuery | OdohResponse.
#[global] Instance OdohMessageType_eq_dec : EqDecision OdohMessageType.
Proof. solve_decision. Defined.
Definition OdohMessageType_value (t : OdohMessageType) : Z := match t with OdohQuery => 1 | OdohResponse => 2 end.
Definition OdohMessageType_try_from (value : byte) : result OdohProtocolError OdohMessageType :=
  match b2z value with
  | 1 => Ok OdohQuery
  | 2 => Ok OdohResponse
  | _ => Err (OdInvalid "unknown RFC 9230 message type")
  end.

Record OdohMessage := mkMessage {
  om_message_type : OdohMessageType;
  om_key_id : list byte;
  om_encrypted_message : list byte;
}.

Definition OdohMessage_validate (m : OdohMessage) : result OdohProtocolError unit :=
  assert_or (len (om_key_id m) <=? u16_max) (OdTooLarge (len (om_key_id m)) u16_max) ;;
  assert_or (negb ((len (om_encrypted_message m) =? 0) || (u16_max <? len (om_encrypted_message m))))
    (OdTooLarge (len (om_encrypted_message m)) u16_max).

Definition OdohMessage_new (t : OdohMessageType) (key_id encrypted_message : list byte)
  : result OdohProtocolError OdohMessage :=
  let message := mkMessage t key_id encrypted_message in
  OdohMessage_validate message ;; Ok message.

Definition OdohMessage_encode (m : OdohMessage) : result OdohProtocolError (list byte) :=
  OdohMessage_validate m ;;
  output ← write_tls_vector [z2b (OdohMessageType_value (om_message_type m))] (om_key_id m) true;
  write_tls_vector output (om_encrypted_message m) false.

Definition OdohMessage_decode (input : list byte) : result OdohProtocolError OdohMessage :=
  match input with
  | [] => Err (OdInvalid "truncated ODoH message")
  | type_byte :: input =>
    message_type ← OdohMessageType_try_from type_byte;
    '(key_id, encrypted_message) ← run_all OdDecode
      (key_id ← tls_vector true; encrypted_message ← tls_vector false; mret (key_id, encrypted_message)) input;
    OdohMessage_new message_type key_id encrypted_message
  end.

Definition OdohMessage_aad (m : OdohMessage) : result OdohProtocolError (list byte) :=
  write_tls_vector [z2b (OdohMessageType_value (om_message_type m))] (om_key_id m) true.

(** ** message.rs: padded plaintexts *)
Definition encode_plaintext (dns : list byte) (block_size : Z) : result OdohProtocolError (list byte) :=
  assert_or (negb ((len dns =? 0) || (u16_max <? len dns) || (block_size =? 0))) (OdInvalid "invalid DNS plaintext size") ;;
  let padding_size := (block_size - len dns mod block_size) mod block_size in
  assert_or (padding_size <=? u16_max) (OdTooLarge padding_size u16_max) ;;
  output ← write_tls_vector [] dns false;
  Ok (output ++ to_be_bytes 2 padding_size ++ replicate (Z.to_nat padding_size) x00).

Definition decode_plaintext (input : list byte) : result OdohProtocolError (list byte) :=
  run_all OdDecode
    (dns ← tls_vector false;
     padding ← tls_vector true;
     lift_res (assert_or (negb (existsb (fun b => negb (bool_decide (b = x00))) padding))
       (OdInvalid "ODoH plaintext padding is nonzero")) ;;
     mret dns) input.

(** ** body.rs *)
Definition ODOH_ROLE_PROXY : Z := 1.
Definition ODOH_ROLE_TARGET : Z := 2.
Definition ODOH_ROLE_CONFIG_CACHE : Z := 4.
Definition ODOH_ROLE_MASK : Z := Z.lor (Z.lor ODOH_ROLE_PROXY ODOH_ROLE_TARGET) ODOH_ROLE_CONFIG_CACHE.

Definition within (low high v : Z) : bool := (low <=? v) && (v <=? high).

Definition validate_bucket (bucket : Z) : result OdohProtocolError unit :=
  assert_or (negb (negb (bucket =? 0) && (negb (within 128 4096 bucket) || negb (count_ones bucket =? 1))))
    (OdInvalid "invalid P2P ODoH padding bucket").

Definition validate_nonempty_size (value : list byte) (maximum : Z) (message : string) : result OdohProtocolError unit :=
  assert_or (negb (len value =? 0)) (OdInvalid message) ;;
  assert_or (len value <=? maximum) (OdTooLarge (len value) maximum).

Definition validate_padding (padding : list byte) : result OdohProtocolError unit :=
  assert_or (len padding <=? MAX_OUTER_PADDING_SIZE) (OdTooLarge (len padding) MAX_OUTER_PADDING_SIZE) ;;
  assert_or (negb (existsb (fun b => negb (bool_decide (b = x00))) padding)) (OdInvalid "outer padding is nonzero").

(** [padding.len() as u16]. *)
Definition put_padding (e : Encoder) (padding : list byte) : Encoder :=
  put_bytes (put_u16_le e (wrap 16 (len padding))) padding.

Definition read_padding : decM OdohProtocolError (list byte) :=
  length ← lift_err OdDecode read_u16_le;
  d ← dec_get;
  lift_res (assert_or (negb ((MAX_OUTER_PADDING_SIZE <? length) || negb (remaining d =? length)))
    (OdInvalid "invalid outer-padding length")) ;;
  padding ← lift_err OdDecode (read_bounded_vec length MAX_OUTER_PADDING_SIZE);
  lift_res (validate_padding padding) ;;
  mret padding.

Definition ensure_message_type (m : OdohMessage) (expected : OdohMessageType) : result OdohProtocolError unit :=
  assert_or (bool_decide (om_message_type m = expected)) (OdInvalid "unexpected RFC 9230 message type").

(** The length is known: what both [read_message] and the response body do. *)
Definition read_message_body (length maximum : Z) (reason : string) (expected_type : OdohMessageType)
  : decM OdohProtocolError OdohMessage :=
  d ← dec_get;
  lift_res (assert_or (negb ((length =? 0) || (maximum <? length) || (remaining d <? length + 2))) (OdInvalid reason)) ;;
  bytes ← lift_err OdDecode (read_slice length);
  message ← lift_res (OdohMessage_decode bytes);
  lift_res (ensure_message_type message expected_type) ;;
  mret message.

Definition read_message (maximum : Z) (expected_type : OdohMessageType) : decM OdohProtocolError OdohMessage :=
  length ← lift_err OdDecode read_u16_le;
  read_message_body length maximum "invalid ODoH query length" expected_type.

Record OdohCapabilities := mkCapabilities {
  oc_roles : Z;
  oc_max_client_query : Z;
  oc_max_target_response : Z;
  oc_max_live_per_connection : Z;
  oc_max_config_size : Z;
  oc_preferred_query_bucket : Z;
  oc_preferred_response_bucket : Z;
}.

Definition OdohCapabilities_validate (c : OdohCapabilities) : result OdohProtocolError unit :=
  assert_or (negb ((oc_roles c =? 0) || negb (Z.land (oc_roles c) (u8_max - ODOH_ROLE_MASK) =? 0)))
    (OdInvalid "invalid P2P ODoH capability roles") ;;
  assert_or (negb (negb (within 256 MAX_ODOH_QUERY_SIZE (oc_max_client_query c)) ||
                   negb (within 512 MAX_ODOH_RESPONSE_SIZE (oc_max_target_response c)) ||
                   negb (within 1 256 (oc_max_live_per_connection c)) ||
                   negb (within 128 MAX_ODOH_CONFIG_SIZE (oc_max_config_size c))))
    (OdInvalid "invalid P2P ODoH capability limit") ;;
  validate_bucket (oc_preferred_query_bucket c) ;;
  validate_bucket (oc_preferred_response_bucket c).

Definition OdohCapabilities_encode (c : OdohCapabilities) : result OdohProtocolError (list byte) :=
  OdohCapabilities_validate c ;;
  let e := put_u8 (with_capacity 15) (z2b (oc_roles c)) in
  let e := put_u16_le e (oc_max_client_query c) in
  let e := put_u32_le e (oc_max_target_response c) in
  let e := put_u16_le e (oc_max_live_per_connection c) in
  let e := put_u16_le e (oc_max_config_size c) in
  let e := put_u16_le e (oc_preferred_query_bucket c) in
  Ok (into_bytes (put_u16_le e (oc_preferred_response_bucket c))).

Definition read_capabilities : decM OdohProtocolError OdohCapabilities :=
  roles ← lift_err OdDecode read_u8;
  max_client_query ← lift_err OdDecode read_u16_le;
  max_target_response ← lift_err OdDecode read_u32_le;
  max_live_per_connection ← lift_err OdDecode read_u16_le;
  max_config_size ← lift_err OdDecode read_u16_le;
  preferred_query_bucket ← lift_err OdDecode read_u16_le;
  preferred_response_bucket ← lift_err OdDecode read_u16_le;
  mret (mkCapabilities (b2z roles) max_client_query max_target_response max_live_per_connection max_config_size
    preferred_query_bucket preferred_response_bucket).

Definition OdohCapabilities_decode (input : list byte) : result OdohProtocolError OdohCapabilities :=
  assert_or (len input =? 15) (OdInvalid "invalid P2P ODoH capabilities length") ;;
  capabilities ← run_all OdDecode read_capabilities input;
  OdohCapabilities_validate capabilities ;;
  Ok capabilities.

(** [OdohConfigBody] is its record. *)
Definition OdohConfigBody_new (record : list byte) : result OdohProtocolError (list byte) :=
  validate_nonempty_size record MAX_ODOH_CONFIG_SIZE "invalid CONFIG record length" ;; Ok record.

Definition OdohConfigBody_encode (record : list byte) : result OdohProtocolError (list byte) :=
  validate_nonempty_size record MAX_ODOH_CONFIG_SIZE "invalid CONFIG record length" ;;
  assert_or (len record <=? u16_max) (OdTooLarge (len record) u16_max) ;;
  Ok (into_bytes (put_bytes (put_u16_le (with_capacity (2 + len record)) (len record)) record)).

Definition OdohConfigBody_decode (input : list byte) : result OdohProtocolError (list byte) :=
  run_all OdDecode
    (length ← lift_err OdDecode read_u16_le;
     d ← dec_get;
     lift_res (assert_or (negb ((length =? 0) || (MAX_ODOH_CONFIG_SIZE <? length) || negb (remaining d =? length)))
       (OdInvalid "invalid CONFIG record length")) ;;
     lift_err OdDecode (read_bounded_vec length MAX_ODOH_CONFIG_SIZE)) input.

Inductive OdohStatus :=
| OdRefused | OdUnsupported | OdBusy | OdInvalidOuter | OdTargetUnreachable | OdTargetTimeout | OdConfigUnknown
| OdConfigExpired | OdTargetFailure | OdResponseTooLarge | OdRateLimited | OdCancelled | OdInternalError.

Definition OdohStatus_value (s : OdohStatus) : Z :=
  match s with
  | OdRefused => 0 | OdUnsupported => 1 | OdBusy => 2 | OdInvalidOuter => 3 | OdTargetUnreachable => 4
  | OdTargetTimeout => 5 | OdConfigUnknown => 6 | OdConfigExpired => 7 | OdTargetFailure => 8
  | OdResponseTooLarge => 9 | OdRateLimited => 10 | OdCancelled => 11 | OdInternalError => 12
  end.

Definition OdohStatus_try_from (value : byte) : result OdohProtocolError OdohStatus :=
  match b2z value with
  | 0 => Ok OdRefused | 1 => Ok OdUnsupported | 2 => Ok OdBusy | 3 => Ok OdInvalidOuter
  | 4 => Ok OdTargetUnreachable | 5 => Ok OdTargetTimeout | 6 => Ok OdConfigUnknown | 7 => Ok OdConfigExpired
  | 8 => Ok OdTargetFailure | 9 => Ok OdResponseTooLarge | 10 => Ok OdRateLimited | 11 => Ok OdCancelled
  | 12 => Ok OdInternalError
  | _ => Err (OdInvalid "unknown P2P ODoH error status")
  end.

Record OdohErrorBody := mkErrorBody { oe_status : OdohStatus; oe_retry_after : Z; oe_error_class : Z }.

Definition OdohErrorBody_encode (b : OdohErrorBody) : list byte :=
  into_bytes (put_u16_le (put_u32_le (put_u8 (with_capacity 7) (z2b (OdohStatus_value (oe_status b))))
    (oe_retry_after b)) (oe_error_class b)).

Definition OdohErrorBody_decode (input : list byte) : result OdohProtocolError OdohErrorBody :=
  assert_or (len input =? 7) (OdInvalid "invalid P2P ODoH error body") ;;
  run_all OdDecode
    (status_byte ← lift_err OdDecode read_u8;
     status ← lift_res (OdohStatus_try_from status_byte);
     retry_after ← lift_err OdDecode read_u32_le;
     error_class ← lift_err OdDecode read_u16_le;
     mret (mkErrorBody status retry_after error_class)) input.

(** ** envelope.rs *)
Definition ODOH_VERSION : Z := 1.
Definition ODNS_HEADER_SIZE : Z := 12.

Inductive OdohOpcode :=
| OpGetCaps | OpCaps | OpGetConfig | OpConfig | OpClientQuery | OpTargetQuery | OpTargetResponse | OpClientResponse
| OpCancel | OpError.
#[global] Instance OdohOpcode_eq_dec : EqDecision OdohOpcode.
Proof. solve_decision. Defined.

Definition OdohOpcode_value (o : OdohOpcode) : Z :=
  match o with
  | OpGetCaps => 0 | OpCaps => 1 | OpGetConfig => 2 | OpConfig => 3 | OpClientQuery => 4 | OpTargetQuery => 5
  | OpTargetResponse => 6 | OpClientResponse => 7 | OpCancel => 8 | OpError => 9
  end.

Definition OdohOpcode_try_from (value : byte) : result OdohProtocolError OdohOpcode :=
  match b2z value with
  | 0 => Ok OpGetCaps | 1 => Ok OpCaps | 2 => Ok OpGetConfig | 3 => Ok OpConfig | 4 => Ok OpClientQuery
  | 5 => Ok OpTargetQuery | 6 => Ok OpTargetResponse | 7 => Ok OpClientResponse | 8 => Ok OpCancel | 9 => Ok OpError
  | _ => Err (OdInvalid "unknown ODNS opcode")
  end.

Record OdnsPacket := mkPacket { op_opcode : OdohOpcode; op_request_id : Z; op_body : list byte }.

Definition OdnsPacket_validate (p : OdnsPacket) : result OdohProtocolError unit :=
  assert_or (negb (op_request_id p =? 0)) (OdInvalid "ODNS request ID is zero") ;;
  let total := saturating_add usize_max ODNS_HEADER_SIZE (len (op_body p)) in
  assert_or (total <=? MAX_ODOH_PACKET_SIZE) (OdTooLarge total MAX_ODOH_PACKET_SIZE) ;;
  match op_opcode p with
  | OpGetCaps => assert_or (len (op_body p) =? 0) (OdInvalid "GETCAPS body must be empty")
  | OpCancel =>
    assert_or (negb (negb (len (op_body p) =? 1) || (3 <? default 4 (b2z <$> head (op_body p)))))
      (OdInvalid "invalid CANCEL reason")
  | _ => Ok tt
  end.

Definition OdnsPacket_new (opcode : OdohOpcode) (request_id : Z) (body : list byte) : result OdohProtocolError OdnsPacket :=
  let packet := mkPacket opcode request_id body in
  OdnsPacket_validate packet ;; Ok packet.

Definition OdnsPacket_encode (p : OdnsPacket) : result OdohProtocolError (list byte) :=
  OdnsPacket_validate p ;;
  let e := put_u8 (with_capacity (ODNS_HEADER_SIZE + len (op_body p))) (z2b ODOH_VERSION) in
  let e := put_u8 e (z2b (OdohOpcode_value (op_opcode p))) in
  let e := put_u16_le e 0 in
  let e := put_u64_le e (op_request_id p) in
  Ok (into_bytes (put_bytes e (op_body p))).

Definition read_odns_packet : decM OdohProtocolError (OdohOpcode * Z * list byte) :=
  version ← lift_err OdDecode read_u8;
  lift_res (assert_or (b2z version =? ODOH_VERSION) (OdInvalid "unsupported ODNS version")) ;;
  opcode_byte ← lift_err OdDecode read_u8;
  opcode ← lift_res (OdohOpcode_try_from opcode_byte);
  flags ← lift_err OdDecode read_u16_le;
  lift_res (assert_or (flags =? 0) (OdInvalid "ODNS reserved flags are nonzero")) ;;
  request_id ← lift_err OdDecode read_u64_le;
  lift_res (assert_or (negb (request_id =? 0)) (OdInvalid "ODNS request ID is zero")) ;;
  d ← dec_get;
  body ← lift_err OdDecode (read_bounded_vec (remaining d) (MAX_ODOH_PACKET_SIZE - 12));
  mret (opcode, request_id, body).

Definition OdnsPacket_decode (input : list byte) : result OdohProtocolError OdnsPacket :=
  assert_or (len input <=? MAX_ODOH_PACKET_SIZE) (OdTooLarge (len input) MAX_ODOH_PACKET_SIZE) ;;
  '(opcode, request_id, body) ← run_all OdDecode read_odns_packet input;
  OdnsPacket_new opcode request_id body.

Section keys.
Context {CR : Crypto} {KC : K256} (from_der : list byte -> option (list byte)).

(** ** config.rs: locators and records that need keys *)
Definition DirectTargetLocator_new (target_peer_key : list byte) (address : SocketAddr) (allow_private : bool)
  : result OdohProtocolError DirectTargetLocator :=
  assert_or (sec1_key_ok target_peer_key) (OdInvalid "invalid target peer key") ;;
  assert_or (negb ((sa_port address =? 0) || ip_is_unspecified (sa_ip address))) (OdInvalid "invalid target endpoint") ;;
  assert_or (negb (negb allow_private && negb (is_publicly_routable (sa_ip address))))
    (OdInvalid "target endpoint is not publicly routable") ;;
  Ok (mkLocator target_peer_key address).

Definition decode_host (host_type : byte) (host : list byte) (port : Z) : result OdohProtocolError SocketAddr :=
  if (b2z host_type =? HOST_IPV4) && bool_decide (take 10 host = replicate 10 x00) &&
     bool_decide (take 2 (drop 10 host) = [xff; xff])
  then Ok (SocketAddr_new (IpV4 (drop 12 host)) port)
  else if b2z host_type =? HOST_IPV6 then Ok (SocketAddr_new (IpV6 host) port)
  else Err (OdInvalid "target host encoding mismatch").

Definition DirectTargetLocator_decode_from (allow_private : bool) : decM OdohProtocolError DirectTargetLocator :=
  locator_type ← lift_err OdDecode read_u8;
  lift_res (assert_or (b2z locator_type =? DIRECT_BRONTIDE) (OdInvalid "unsupported target locator type")) ;;
  target_peer_key ← lift_err OdDecode (read_array 33);
  length ← lift_err OdDecode read_u16_le;
  lift_res (assert_or (length =? 19) (OdInvalid "unsupported target locator length")) ;;
  host_type ← lift_err OdDecode read_u8;
  host ← lift_err OdDecode (read_array 16);
  port ← lift_err OdDecode read_u16_le;
  address ← lift_res (decode_host host_type host port);
  lift_res (DirectTargetLocator_new target_peer_key address allow_private).

Definition DirectTargetLocator_decode (input : list byte) (allow_private : bool)
  : result OdohProtocolError DirectTargetLocator :=
  run_all OdDecode (DirectTargetLocator_decode_from allow_private) input.

Record TargetConfigRecord := mkTargetRecord {
  tc_locator : DirectTargetLocator;
  tc_network_magic : Z;
  tc_sequence : Z;
  tc_issued_at : Z;
  tc_expires_at : Z;
  tc_configurations : list OdohConfig;
  tc_record_id : list byte;
  tc_raw : list byte;
}.

Definition odoh_blake2b_256 (parts : list (list byte)) : list byte := blake2b 32 (mjoin parts).

(** The fields before the signature, the position they end at, and the signature. *)
Definition read_target_record (expected_locator : DirectTargetLocator) (expected_network_magic : Z)
    (allow_private : bool)
  : decM OdohProtocolError (DirectTargetLocator * Z * Z * Z * list byte * Z * list byte) :=
  version ← lift_err OdDecode read_u8;
  lift_res (assert_or (b2z version =? 1) (OdInvalid "unsupported target record version")) ;;
  network_magic ← lift_err OdDecode read_u32_le;
  lift_res (assert_or (network_magic =? expected_network_magic) (OdInvalid "wrong target record network")) ;;
  locator ← DirectTargetLocator_decode_from allow_private;
  lift_res (assert_or (bool_decide (locator = expected_locator)) (OdInvalid "target locator substitution")) ;;
  sequence ← lift_err OdDecode read_u64_le;
  issued_at ← lift_err OdDecode read_u64_le;
  expires_at ← lift_err OdDecode read_u64_le;
  configurations_length ← lift_err OdDecode read_u16_le;
  lift_res (assert_or (negb ((configurations_length =? 0) || (MAX_ODOH_CONFIG_SIZE <? configurations_length)))
    (OdTooLarge configurations_length MAX_ODOH_CONFIG_SIZE)) ;;
  configuration_bytes ← lift_err OdDecode (read_bounded_vec configurations_length MAX_ODOH_CONFIG_SIZE);
  at_signature ← dec_get;
  signature_length_byte ← lift_err OdDecode read_u8;
  let signature_length := b2z signature_length_byte in
  d ← dec_get;
  lift_res (assert_or (negb (negb (within 8 72 signature_length) || negb (remaining d =? signature_length)))
    (OdInvalid "invalid target signature length")) ;;
  signature_bytes ← lift_err OdDecode (read_bounded_vec signature_length 72);
  mret (locator, sequence, issued_at, expires_at, configuration_bytes, position at_signature, signature_bytes).

(** [decode_config_list] never runs out of fuel ([config_list_total]). *)
Definition config_list_result (input : list byte) : result OdohProtocolError (list OdohConfig) :=
  default (Err (OdInvalid "out of fuel")) (decode_config_list input).

Definition TargetConfigRecord_decode_and_verify (input : list byte) (expected_locator : DirectTargetLocator)
    (expected_network_magic now : Z) (allow_private : bool) : result OdohProtocolError TargetConfigRecord :=
  assert_or (negb ((len input =? 0) || (MAX_ODOH_CONFIG_SIZE <? len input))) (OdTooLarge (len input) MAX_ODOH_CONFIG_SIZE) ;;
  '(locator, sequence, issued_at, expires_at, configuration_bytes, unsigned_length, signature_bytes) ←
    run_all OdDecode (read_target_record expected_locator expected_network_magic allow_private) input;
  assert_or (negb (sequence =? 0)) (OdInvalid "target record sequence is zero") ;;
  assert_or (negb ((saturating_add u64_max now 300 <? issued_at) || (expires_at <=? issued_at) || (expires_at <=? now) ||
                   (MAX_ODOH_CONFIG_LIFETIME <? saturating_sub expires_at issued_at)))
    (OdInvalid "invalid target record lifetime") ;;
  configurations ← config_list_result configuration_bytes;
  signature ← ok_or (from_der signature_bytes) OdInvalidSignature;
  assert_or (negb (is_high signature)) OdInvalidSignature ;;
  let digest := odoh_blake2b_256 [TARGET_CONFIG_TAG; take (Z.to_nat unsigned_length) input] in
  assert_or (sec1_key_ok (tl_target_peer_key locator)) OdInvalidSignature ;;
  assert_or (verify_prehash (tl_target_peer_key locator) digest signature) OdInvalidSignature ;;
  Ok (mkTargetRecord locator expected_network_magic sequence issued_at expires_at configurations
    (odoh_blake2b_256 [input]) input).

(** ** body.rs: bodies with locators and messages *)
Record GetConfigBody := mkGetConfig { gc_locator : DirectTargetLocator; gc_allow_cached : bool }.

Definition GetConfigBody_encode (b : GetConfigBody) : list byte :=
  DirectTargetLocator_encode (gc_locator b) ++ [if gc_allow_cached b then x01 else x00].

Definition GetConfigBody_decode (input : list byte) (allow_private : bool) : result OdohProtocolError GetConfigBody :=
  run_all OdDecode
    (locator ← DirectTargetLocator_decode_from allow_private;
     d ← dec_get;
     lift_res (assert_or (remaining d =? 1) (OdInvalid "invalid GETCONFIG body")) ;;
     flag ← lift_err OdDecode read_u8;
     allow_cached ← lift_res (match b2z flag with
       | 0 => Ok false
       | 1 => Ok true
       | _ => Err (OdInvalid "invalid GETCONFIG cache flag")
       end);
     mret (mkGetConfig locator allow_cached)) input.

Record ClientQuery := mkClientQuery {
  cq_locator : DirectTargetLocator;
  cq_config_id : list byte;
  cq_message : OdohMessage;
  cq_padding : list byte;
}.

(** [message.len() as u16]. *)
Definition ClientQuery_encode (q : ClientQuery) : result OdohProtocolError (list byte) :=
  ensure_message_type (cq_message q) OdohQuery ;;
  message ← OdohMessage_encode (cq_message q);
  validate_nonempty_size message MAX_ODOH_QUERY_SIZE "invalid CLIENT_QUERY message length" ;;
  validate_padding (cq_padding q) ;;
  let locator := DirectTargetLocator_encode (cq_locator q) in
  let e := with_capacity (len locator + 32 + 2 + len message + 2 + len (cq_padding q)) in
  let e := put_bytes (put_bytes e locator) (cq_config_id q) in
  let e := put_bytes (put_u16_le e (wrap 16 (len message))) message in
  Ok (into_bytes (put_padding e (cq_padding q))).

Definition ClientQuery_decode (input : list byte) (allow_private : bool) : result OdohProtocolError ClientQuery :=
  run_all OdDecode
    (locator ← DirectTargetLocator_decode_from allow_private;
     config_id ← lift_err OdDecode (read_array 32);
     message ← read_message MAX_ODOH_QUERY_SIZE OdohQuery;
     padding ← read_padding;
     mret (mkClientQuery locator config_id message padding)) input.

Record TargetQuery := mkTargetQuery { tq_config_id : list byte; tq_message : OdohMessage; tq_padding : list byte }.

Definition TargetQuery_encode (q : TargetQuery) : result OdohProtocolError (list byte) :=
  ensure_message_type (tq_message q) OdohQuery ;;
  message ← OdohMessage_encode (tq_message q);
  validate_nonempty_size message MAX_ODOH_QUERY_SIZE "invalid TARGET_QUERY message length" ;;
  validate_padding (tq_padding q) ;;
  let e := put_bytes (with_capacity (32 + 2 + len message + 2 + len (tq_padding q))) (tq_config_id q) in
  let e := put_bytes (put_u16_le e (wrap 16 (len message))) message in
  Ok (into_bytes (put_padding e (tq_padding q))).

Definition TargetQuery_decode (input : list byte) : result OdohProtocolError TargetQuery :=
  run_all OdDecode
    (config_id ← lift_err OdDecode (read_array 32);
     message ← read_message MAX_ODOH_QUERY_SIZE OdohQuery;
     padding ← read_padding;
     mret (mkTargetQuery config_id message padding)) input.

Record OdohResponseBody := mkResponseBody { rb_message : OdohMessage; rb_padding : list byte }.

Definition OdohResponseBody_encode (b : OdohResponseBody) : result OdohProtocolError (list byte) :=
  ensure_message_type (rb_message b) OdohResponse ;;
  message ← OdohMessage_encode (rb_message b);
  validate_nonempty_size message MAX_ODOH_RESPONSE_SIZE "invalid ODoH response length" ;;
  validate_padding (rb_padding b) ;;
  let e := put_u32_le (with_capacity (4 + len message + 2 + len (rb_padding b))) (wrap 32 (len message)) in
  Ok (into_bytes (put_padding (put_bytes e message) (rb_padding b))).

Definition OdohResponseBody_decode (input : list byte) : result OdohProtocolError OdohResponseBody :=
  run_all OdDecode
    (length ← lift_err OdDecode read_u32_le;
     message ← read_message_body length MAX_ODOH_RESPONSE_SIZE "invalid ODoH response length" OdohResponse;
     padding ← read_padding;
     mret (mkResponseBody message padding)) input.
End keys.

(** ** TLS vectors *)
Definition tls_bytes (v : list byte) : list byte := to_be_bytes 2 (len v) ++ v.

Lemma write_tls_vector_Ok out v a bs :
  write_tls_vector out v a = Ok bs <-> (a = true \/ v <> []) /\ len v <= u16_max /\ bs = out ++ tls_bytes v.
Proof.
  unfold write_tls_vector. destruct (a || negb (len v =? 0)) eqn:A; cbn [assert_or mbind result_bind].
  - destruct (len v <=? u16_max) eqn:L; cbn [assert_or mbind result_bind].
    + apply Z.leb_le in L. split; [intros [= <-]|by intros (_ & _ & ->)]. split; [|done].
      apply orb_true_iff in A as [->|A]; [by left|right]. by intros ->.
    + apply Z.leb_gt in L. split; [done|]. intros (_ & ? & _). lia.
  - apply orb_false_iff in A as [-> A]. split; [done|]. intros ([|N] & _); [done|]. by destruct v.
Qed.

Lemma tls_u16_reads d v : u16 v -> reads d tls_read_u16_be (to_be_bytes 2 v) v.
Proof.
  intros H. unfold tls_read_u16_be. eapply reads_last; [apply reads_err, read_array_reads; by autorewrite with lens|].
  intros d'. rewrite from_to_be_bytes_small; [apply reads_ret|]. unfold u16, u16_max in H. lia.
Qed.

Lemma tls_u16_inv d v d' : dec_wf d -> tls_read_u16_be d = (Ok v, d') -> took d (to_be_bytes 2 v) d' /\ u16 v.
Proof.
  intros W H. unfold tls_read_u16_be in H. dbind H as bs d1 H1. apply dec_ret_Ok in H as (<- & ->). took_all.
  assert (length bs = 2%nat) as L by (unfold len in *; lia). rewrite to_from_be_bytes_len by done. split; [done|].
  pose proof (from_be_bytes_range bs) as R. replace (len bs) with 2 in R. unfold u16, u16_max. lia.
Qed.

Lemma tls_vector_reads d a v :
  a = true \/ v <> [] -> len v <= u16_max -> reads d (tls_vector a) (tls_bytes v) v.
Proof.
  intros A L. unfold tls_vector, tls_bytes. pose proof (len_nonneg v).
  eapply reads_bind; [apply tls_u16_reads; by split|]. eapply reads_nil_bind; [apply reads_assert|by apply reads_err, read_slice_reads].
  destruct A as [->|N]; [done|]. destruct v as [|b v]; [done|]. rewrite len_cons. pose proof (len_nonneg v).
  rewrite (proj2 (Z.eqb_neq _ 0)) by lia. by destruct a.
Qed.

Lemma tls_vector_inv d a v d' :
  dec_wf d -> tls_vector a d = (Ok v, d') -> took d (tls_bytes v) d' /\ len v <= u16_max /\ (a = true \/ v <> []).
Proof.
  intros W H. unfold tls_vector in H. dbind H as n d1 H1. dbind H as u1 d1' C1. apply lift_err_Ok in H.
  apply tls_u16_inv in H1 as (T1 & U); [|done]. apply read_slice_inv in H as (T2 & L); [|by destruct U|by eapply took_wf].
  apply assert_or_Ok, orb_true_iff in C1. rewrite <- L in *. split; [by eapply took_trans|]. split; [by destruct U|].
  destruct C1 as [->|C]; [by left|right]. by intros ->.
Qed.

(** ** The RFC 9230 message *)
Lemma message_type_try_from t : OdohMessageType_try_from (z2b (OdohMessageType_value t)) = Ok t.
Proof. by destruct t. Qed.

Lemma message_type_inv b t : OdohMessageType_try_from b = Ok t -> b = z2b (OdohMessageType_value t).
Proof.
  intros H. rewrite <- (z2b_b2z b). unfold OdohMessageType_try_from in H.
  destruct (b2z b) as [|[| []|]|]; try done; by injection H as <-.
Qed.

Definition message_bytes (m : OdohMessage) : list byte :=
  z2b (OdohMessageType_value (om_message_type m)) :: tls_bytes (om_key_id m) ++ tls_bytes (om_encrypted_message m).

Lemma message_validate_Ok m :
  OdohMessage_validate m = Ok tt <->
  len (om_key_id m) <= u16_max /\ om_encrypted_message m <> [] /\ len (om_encrypted_message m) <= u16_max.
Proof.
  unfold OdohMessage_validate. rewrite bind_Ok. rewrite len_nonzero, <- Z.eqb_neq, <- Z.leb_le, <- Z.ltb_ge, <- orb_false_iff, <- negb_true_iff.
  split; [intros (u & ?%assert_or_Ok & ?%assert_or_Ok); done|]. intros (-> & ->). by exists tt.
Qed.

Lemma message_encode_Ok m bs :
  OdohMessage_encode m = Ok bs <-> OdohMessage_validate m = Ok tt /\ bs = message_bytes m.
Proof.
  unfold OdohMessage_encode. destruct (OdohMessage_validate m) as [[]|] eqn:V; [|by split; [|intros [? _]]].
  apply message_validate_Ok in V as (L1 & N & L2). cbn [mbind result_bind]. rewrite bind_Ok.
  setoid_rewrite write_tls_vector_Ok. split.
  - intros (o & (_ & _ & ->) & _ & _ & ->). split; [done|]. unfold message_bytes. by rewrite <- app_assoc.
  - intros (_ & ->). eexists. split; [split; [by left|done]|]. split; [by right|]. split; [done|]. by rewrite <- app_assoc.
Qed.

Lemma message_decode_Ok input m :
  len input <= isize_max -> OdohMessage_decode input = Ok m <-> OdohMessage_encode m = Ok input.
Proof.
  intros L. rewrite message_encode_Ok. unfold OdohMessage_decode, OdohMessage_new. destruct input as [|b input]; [by split; [|intros [_ ?]]|].
  rewrite len_cons in L. split.
  - intros H. apply bind_Ok in H as (t & T & H). apply bind_Ok in H as ([k e] & R & H). apply bind_Ok in H as ([] & V & [= <-]).
    split; [done|]. apply run_all_Ok in R as (d & R & F). dbind R as k' d1 K1. dbind R as e' d2 K2.
    apply dec_ret_Ok in R as ([= <- <-] & ->). apply tls_vector_inv in K1 as (T1 & _); [|apply wf_new; lia].
    apply tls_vector_inv in K2 as (T2 & _); [|by eapply took_wf]. apply message_type_inv in T as ->.
    unfold message_bytes. cbn [om_message_type om_key_id om_encrypted_message]. f_equal. symmetry.
    eapply took_finish; [|exact F]. took_chain.
  - intros (V & E). pose proof (f_equal (hd x00) E) as Eb. pose proof (f_equal tail E) as Ei. cbn [hd tail message_bytes] in Eb, Ei.
    subst b input. rewrite message_type_try_from. cbn [mbind result_bind]. pose proof V as (L1 & N & L2)%message_validate_Ok.
    rewrite (run_all_reads OdDecode _ _ (om_key_id m, om_encrypted_message m)); [|lia|].
    { cbn [mbind result_bind]. replace (mkMessage _ _ _) with m by by destruct m. by rewrite V. }
    eapply reads_bind; [apply tls_vector_reads; [by left|done]|].
    eapply reads_last; [apply tls_vector_reads; [by right|done]|]. apply reads_ret.
Qed.

(** ** Padded plaintexts *)
Lemma all_zero_spec l : existsb (fun b => negb (bool_decide (b = x00))) l = false <-> l = replicate (length l) x00.
Proof.
  induction l as [|b l IH]; [done|]. cbn [existsb length replicate]. rewrite orb_false_iff, IH, negb_false_iff, bool_decide_eq_true.
  split; [by intros [-> <-]|]. by intros [= -> <-].
Qed.

Lemma all_zero_replicate n : existsb (fun b => negb (bool_decide (b = x00))) (replicate n x00) = false.
Proof. apply all_zero_spec. by rewrite length_replicate. Qed.

Lemma encode_plaintext_Ok dns block bs :
  0 <= block -> encode_plaintext dns block = Ok bs ->
  exists pad, bs = tls_bytes dns ++ tls_bytes (replicate pad x00) /\ 0 < block /\ Z.of_nat pad < block /\
    (block | len dns + Z.of_nat pad) /\ dns <> [] /\ len dns <= u16_max /\ Z.of_nat pad <= u16_max.
Proof.
  intros B H. unfold encode_plaintext in H. apply bind_Ok in H as (u1 & K1 & H). apply bind_Ok in H as (u2 & K2 & H).
  apply bind_Ok in H as (o & K3 & [= <-]). apply assert_or_Ok in K1, K2. apply write_tls_vector_Ok in K3 as (_ & L & ->).
  rewrite negb_true_iff, !orb_false_iff, !Z.eqb_neq in K1. destruct K1 as [[N _] Z0]. apply Z.leb_le in K2.
  set (p := (block - len dns mod block) mod block) in *.
  assert (0 <= p < block) as P by (apply Z.mod_pos_bound; lia).
  exists (Z.to_nat p). rewrite Z2Nat.id by lia. split.
  { unfold tls_bytes. by rewrite len_replicate, Z2Nat.id by lia. }
  split; [lia|]. split; [lia|]. split; [|split; [by apply len_nonzero|done]].
  apply Z.mod_divide; [lia|]. subst p. rewrite Z.add_mod_idemp_r by lia.
  rewrite Z.add_sub_assoc, <- Zminus_mod_idemp_l, <- Zminus_mod_idemp_l. 
  replace (len dns + block) with (len dns + 1 * block) by lia. rewrite Z.mod_add by lia. rewrite Z.mod_mod by lia.
  by rewrite Z.sub_diag.
Qed.

Lemma decode_encode_plaintext dns block bs :
  0 <= block -> encode_plaintext dns block = Ok bs -> decode_plaintext bs = Ok dns.
Proof.
  intros B H. apply encode_plaintext_Ok in H as (p & -> & _ & _ & _ & N & L1 & L2); [|done].
  apply run_all_reads.
  { unfold tls_bytes. autorewrite with lens. unfold u16_max, isize_max in *. lia. }
  eapply reads_bind; [apply tls_vector_reads; [by right|done]|].
  eapply reads_last; [apply tls_vector_reads; [by left|by rewrite len_replicate]|]. intros d.
  eapply reads_nil_bind; [apply reads_assert; by rewrite all_zero_replicate|]. apply reads_ret.
Qed.

(** ** Configuration lists *)
Definition entry_bytes (version : Z) (contents : list byte) : list byte := to_be_bytes 2 version ++ tls_bytes contents.

Lemma config_entry_inv d version contents d' :
  dec_wf d -> (v ← tls_read_u16_be; c ← tls_vector false; mret (v, c)) d = (Ok (version, contents), d') ->
  took d (entry_bytes version contents) d'.
Proof.
  intros W H. dbind H as v d1 K1. dbind H as c d2 K2. apply dec_ret_Ok in H as ([= <- <-] & ->).
  apply tls_u16_inv in K1 as (T1 & _); [|done]. apply tls_vector_inv in K2 as (T2 & _); [|by eapply took_wf].
  by eapply took_trans.
Qed.

Lemma config_loop_total fuel d cs : dec_wf d -> remaining d < Z.of_nat fuel -> is_Some (config_loop fuel d cs).
Proof.
  revert d cs. induction fuel as [|fuel IH]; intros d cs W F; [unfold remaining, dec_wf in *; lia|].
  cbn [config_loop]. destruct (remaining d =? 0); [done|].
  destruct ((v ← tls_read_u16_be; c ← tls_vector false; mret (v, c)) d) as [[[v c]|e] d'] eqn:R; [|done].
  apply config_entry_inv in R; [|done]. pose proof (took_wf _ _ _ R) as W'. apply took_position in R as P.
  assert (remaining d' < Z.of_nat fuel) as F'.
  { destruct R as (_ & -> & _). unfold remaining, advance in *. cbn [input position]. unfold entry_bytes, tls_bytes.
    autorewrite with lens. pose proof (len_nonneg c). lia. }
  destruct (negb _); [by apply IH|]. destruct (decode_config_contents c); [by apply IH|done].
Qed.

(** [decode_config_list] always answers. *)
Lemma config_list_total inp : len inp <= isize_max -> is_Some (decode_config_list inp).
Proof.
  intros L. unfold decode_config_list. destruct (_ || _); [done|].
  destruct (run_all OdDecode (tls_vector false) inp) as [l|e] eqn:R; [|done].
  apply run_all_Ok in R as (d & R & _). apply tls_vector_inv in R as (_ & Ll & _); [|by apply wf_new].
  destruct (config_loop_total (S (length l)) (Decoder_new l) []) as [r ->].
  - apply wf_new. unfold u16_max, isize_max in *. lia.
  - unfold remaining, Decoder_new. cbn [input position]. unfold len. lia.
  - destruct r as [[|c cs]|]; done.
Qed.

Definition config_wf (c : OdohConfig) : Prop := len (cf_public_key c) = 32.

Lemma len_contents c : config_wf c -> len (OdohConfig_contents c) = 40.
Proof. unfold config_wf, OdohConfig_contents. intros H. autorewrite with lens. by rewrite H. Qed.

Lemma decode_contents c : config_wf c -> decode_config_contents (OdohConfig_contents c) = Ok c.
Proof.
  intros H. apply run_all_reads; [by rewrite len_contents|]. unfold read_config_contents, OdohConfig_contents.
  eapply reads_bind; [apply tls_u16_reads; done|].
  replace (to_be_bytes 2 KDF_HKDF_SHA256 ++ to_be_bytes 2 AEAD_AES_128_GCM ++ to_be_bytes 2 32 ++ cf_public_key c)
    with ((to_be_bytes 2 KDF_HKDF_SHA256 ++ to_be_bytes 2 AEAD_AES_128_GCM) ++ tls_bytes (cf_public_key c))
    by (unfold tls_bytes; rewrite H, <- app_assoc; done).
  eapply (reads_bind _ _ _ _ _ true).
  { cbn [Z.eqb KEM_X25519_SHA256 Pos.eqb negb]. eapply reads_bind; [apply tls_u16_reads; done|].
    cbn [Z.eqb KDF_HKDF_SHA256 Pos.eqb negb]. eapply reads_last; [apply tls_u16_reads; done|]. intros d. apply reads_ret. }
  eapply reads_nil_bind; [by apply reads_assert|].
  eapply reads_last; [apply tls_vector_reads; [right; apply len_nonzero; rewrite H; lia|rewrite H; done]|].
  intros d. eapply reads_nil_bind; [apply reads_assert; by rewrite H|]. destruct c. apply reads_ret.
Qed.

Definition config_bytes (c : OdohConfig) : list byte := entry_bytes SUPPORTED_CONFIG_VERSION (OdohConfig_contents c).

Lemma write_configs out cs :
  Forall config_wf cs -> try_fold write_config out cs = Ok (out ++ mjoin (config_bytes <$> cs)).
Proof.
  revert out. induction cs as [|c cs IH]; intros out F; [by rewrite app_nil_r|].
  apply Forall_cons in F as [Fc F]. cbn [try_fold fmap list_fmap mjoin list_join].
  assert (write_config out c = Ok (out ++ config_bytes c)) as ->.
  { apply write_tls_vector_Ok. split; [right; apply len_nonzero; rewrite len_contents; done|].
    split; [by rewrite len_contents|]. unfold config_bytes, entry_bytes. by rewrite !app_assoc. }
  cbn [mbind result_bind]. rewrite IH by done. by rewrite <- app_assoc.
Qed.

Lemma config_loop_reads fuel d acc cs :
  dec_wf d -> Forall config_wf cs -> rest d = mjoin (config_bytes <$> cs) -> (length cs < fuel)%nat ->
  config_loop fuel d acc = Some (Ok (acc ++ cs)).
Proof.
  revert fuel d acc. induction cs as [|c cs IH]; intros [|fuel] d acc W F R Lf; try (cbn [length] in Lf; lia).
  - cbn [config_loop]. rewrite (before_remaining _ _ W R). cbn [fmap list_fmap mjoin list_join]. by rewrite len_nil, app_nil_r.
  - cbn [config_loop length] in *. rewrite (before_remaining _ _ W R). apply Forall_cons in F as [Fc F].
    cbn [fmap list_fmap mjoin list_join] in *. rewrite len_app.
    assert (len (config_bytes c) = 44) as Lc.
    { unfold config_bytes, entry_bytes, tls_bytes. autorewrite with lens. rewrite len_contents by done. done. }
    match goal with |- context [_ + len ?x =? 0] => pose proof (len_nonneg x) end. rewrite (proj2 (Z.eqb_neq _ 0)) by lia.
    assert (reads d (v ← tls_read_u16_be; c ← tls_vector false; mret (v, c)) (config_bytes c) (SUPPORTED_CONFIG_VERSION, OdohConfig_contents c)) as Rd.
    { eapply reads_bind; [by apply tls_u16_reads|].
      eapply reads_last; [apply tls_vector_reads; [right; apply len_nonzero|]; by rewrite len_contents|]. intros d'. apply reads_ret. }
    rewrite (Rd _ W R). change (negb (SUPPORTED_CONFIG_VERSION =? SUPPORTED_CONFIG_VERSION)) with false. cbn [negb].
    rewrite decode_contents by done. rewrite (IH fuel); [by rewrite <- app_assoc| | |by eapply rest_advance|lia]; [|done].
    by eapply wf_advance.
Qed.

Lemma config_list_roundtrip cs out :
  Forall config_wf cs -> encode_config_list cs = Ok out -> decode_config_list out = Some (Ok cs).
Proof.
  intros F H. unfold encode_config_list in H. apply bind_Ok in H as (u1 & K1 & H). rewrite write_configs in H by done.
  cbn [mbind result_bind] in H. apply bind_Ok in H as (o & K2 & H). apply bind_Ok in H as (u2 & K3 & [= <-]).
  apply write_tls_vector_Ok in K2 as (N & L & E). cbn [app] in *. subst o. apply assert_or_Ok, Z.leb_le in K3.
  set (l := mjoin (config_bytes <$> cs)) in *. destruct N as [|N]; [done|]. unfold decode_config_list.
  assert (len (tls_bytes l) = 2 + len l) as Lt by (unfold tls_bytes; by autorewrite with lens).
  pose proof (len_nonneg l). rewrite (proj2 (Z.eqb_neq _ 0)), (proj2 (Z.ltb_ge _ _)) by lia. cbn [orb].
  rewrite (run_all_reads OdDecode (tls_vector false) (tls_bytes l) l);
    [|unfold MAX_ODOH_CONFIG_SIZE, isize_max in *; lia|apply tls_vector_reads; [by right|done]].
  rewrite (config_loop_reads _ _ [] cs); [| |done|by rewrite rest_new|].
  - destruct cs; [done|done].
  - apply wf_new. unfold u16_max, isize_max in *. lia.
  - apply le_n_S. subst l. clear -F. induction F as [|c cs Fc F IH]; [done|]. rewrite fmap_cons.
    change (mjoin (?a :: ?l)) with (a ++ mjoin l). rewrite length_app. cbn [length]. unfold config_bytes at 1, entry_bytes. rewrite !length_app, length_to_be_bytes. lia.
Qed.

(** ** Fixed-layout bodies *)
Lemma assert_negb_Ok {E} b (e : E) u : assert_or (negb b) e = Ok u <-> b = false.
Proof. rewrite assert_or_Ok. apply negb_true_iff. Qed.

Definition capabilities_bytes (c : OdohCapabilities) : list byte :=
  [z2b (oc_roles c)] ++ to_le_bytes 2 (oc_max_client_query c) ++ to_le_bytes 4 (oc_max_target_response c) ++
  to_le_bytes 2 (oc_max_live_per_connection c) ++ to_le_bytes 2 (oc_max_config_size c) ++
  to_le_bytes 2 (oc_preferred_query_bucket c) ++ to_le_bytes 2 (oc_preferred_response_bucket c).

Definition capabilities_wf (c : OdohCapabilities) : Prop :=
  0 <= oc_roles c <= u8_max /\ u16 (oc_max_client_query c) /\ u32 (oc_max_target_response c) /\ u16 (oc_max_live_per_connection c) /\
  u16 (oc_max_config_size c) /\ u16 (oc_preferred_query_bucket c) /\ u16 (oc_preferred_response_bucket c).

Lemma capabilities_encode_Ok c bs :
  OdohCapabilities_encode c = Ok bs <-> OdohCapabilities_validate c = Ok tt /\ bs = capabilities_bytes c.
Proof.
  unfold OdohCapabilities_encode. destruct (OdohCapabilities_validate c) as [[]|]; [|by split; [|intros [? _]]].
  cbn [mbind result_bind]. unfold into_bytes, capabilities_bytes.
  rewrite !bytes_put_u16, bytes_put_u32, bytes_put_u16, bytes_put_u8, bytes_with_capacity, <- !app_assoc. cbn [app].
  split; [by intros [= <-]|]. by intros [_ ->].
Qed.

Lemma capabilities_decode_Ok input c :
  OdohCapabilities_decode input = Ok c <-> capabilities_wf c /\ OdohCapabilities_encode c = Ok input.
Proof.
  rewrite capabilities_encode_Ok. unfold OdohCapabilities_decode. split.
  - intros H. apply bind_Ok in H as (u1 & K0 & H). apply assert_or_Ok, Z.eqb_eq in K0. apply bind_Ok in H as (c' & R & H).
    apply bind_Ok in H as ([] & V & [= <-]). apply run_all_Ok in R as (d & R & F). unfold read_capabilities in R.
    dbind R as r d1 K1. dbind R as q d2 K2. dbind R as t d3 K3. dbind R as l d4 K4. dbind R as f d5 K5. dbind R as x d6 K6.
    dbind R as y d7 K7. apply dec_ret_Ok in R as (<- & ->).
    assert (dec_wf (Decoder_new input)) by (apply wf_new; rewrite K0; done). took_all.
    pose proof (b2z_range r). split; [unfold capabilities_wf, u8_max; cbn; split_and!; try done; lia|]. split; [done|].
    unfold capabilities_bytes. cbn [oc_roles oc_max_client_query oc_max_target_response oc_max_live_per_connection oc_max_config_size
      oc_preferred_query_bucket oc_preferred_response_bucket]. rewrite z2b_b2z. symmetry. eapply took_finish; [|exact F]. took_chain.
  - intros ((R & U1 & U2 & U3 & U4 & U5 & U6) & V & ->). change (len (capabilities_bytes c) =? 15) with true. cbn [assert_or mbind result_bind].
    rewrite (run_all_reads OdDecode read_capabilities _ c); [cbn [mbind result_bind]; by rewrite V|done|].
    unfold read_capabilities, capabilities_bytes. eapply reads_bind; [by apply reads_err, read_u8_reads|].
    eapply reads_bind; [by apply reads_err, read_u16_reads|]. eapply reads_bind; [by apply reads_err, read_u32_reads|].
    do 3 (eapply reads_bind; [by apply reads_err, read_u16_reads|]). eapply reads_last; [by apply reads_err, read_u16_reads|].
    rewrite b2z_z2b, Z.mod_small by (unfold u8_max in R; lia). destruct c. apply reads_ret.
Qed.

Lemma odoh_status_try_from s : OdohStatus_try_from (z2b (OdohStatus_value s)) = Ok s.
Proof. by destruct s. Qed.

Lemma odoh_status_inv b s : OdohStatus_try_from b = Ok s -> b = z2b (OdohStatus_value s).
Proof.
  intros H. rewrite <- (z2b_b2z b). unfold OdohStatus_try_from in H.
  destruct (b2z b) as [|[[[[]|[]|]|[[]|[]|]|]|[[[]|[]|]|[[]|[]|]|]|]|]; try done; by injection H as <-.
Qed.

Lemma error_body_decode_Ok input b :
  OdohErrorBody_decode input = Ok b <->
  u32 (oe_retry_after b) /\ u16 (oe_error_class b) /\ OdohErrorBody_encode b = input.
Proof.
  assert (OdohErrorBody_encode b = [z2b (OdohStatus_value (oe_status b))] ++ to_le_bytes 4 (oe_retry_after b) ++ to_le_bytes 2 (oe_error_class b)) as ->.
  { unfold OdohErrorBody_encode, into_bytes. by rewrite bytes_put_u16, bytes_put_u32, bytes_put_u8, bytes_with_capacity, <- !app_assoc. }
  unfold OdohErrorBody_decode. split.
  - intros H. apply bind_Ok in H as (u1 & K0 & R). apply assert_or_Ok, Z.eqb_eq in K0. apply run_all_Ok in R as (d & R & F).
    dbind R as sb d1 K1. dbind R as s d1' C1. dbind R as r d2 K2. dbind R as c d3 K3. apply dec_ret_Ok in R as (<- & ->).
    assert (dec_wf (Decoder_new input)) by (apply wf_new; rewrite K0; done). took_all. split; [done|]. split; [done|].
    cbn [oe_status oe_retry_after oe_error_class]. rewrite <- (odoh_status_inv _ _ C1). eapply took_finish; [|exact F]. took_chain.
  - intros (U1 & U2 & <-). cbn [assert_or mbind result_bind].
    match goal with |- context [assert_or ?x _] => change x with true end. cbn [assert_or mbind result_bind].
    apply run_all_reads; [done|]. eapply reads_bind; [by apply reads_err, read_u8_reads|].
    eapply reads_nil_bind; [by apply reads_res, odoh_status_try_from|]. eapply reads_bind; [by apply reads_err, read_u32_reads|].
    eapply reads_last; [by apply reads_err, read_u16_reads|]. destruct b. apply reads_ret.
Qed.

Lemma nonempty_size_Ok v m reason :
  validate_nonempty_size v m reason = Ok tt <-> v <> [] /\ len v <= m.
Proof.
  unfold validate_nonempty_size. rewrite bind_Ok, len_nonzero, <- Z.eqb_neq, <- Z.leb_le. split.
  - intros (u & ?%assert_negb_Ok & ?%assert_or_Ok). done.
  - intros (-> & ->). by exists tt.
Qed.

Lemma config_body_decode_Ok input record :
  len input <= isize_max -> OdohConfigBody_decode input = Ok record <-> OdohConfigBody_encode record = Ok input.
Proof.
  intros L. assert (forall bs, OdohConfigBody_encode record = Ok bs <->
    record <> [] /\ len record <= MAX_ODOH_CONFIG_SIZE /\ bs = to_le_bytes 2 (len record) ++ record) as E.
  { intros bs. unfold OdohConfigBody_encode. destruct (validate_nonempty_size _ _ _) as [[]|e] eqn:V.
    - apply nonempty_size_Ok in V as [N M]. cbn [mbind result_bind]. unfold MAX_ODOH_CONFIG_SIZE in M.
      rewrite (proj2 (Z.leb_le _ u16_max)) by (unfold u16_max; lia). cbn [assert_or mbind result_bind]. unfold into_bytes.
      rewrite bytes_put_bytes, bytes_put_u16, bytes_with_capacity. cbn [app]. split; [by intros [= <-]|by intros (_ & _ & ->)].
    - split; [done|]. intros (N & M & _). rewrite (proj2 (nonempty_size_Ok _ _ _) (conj N M)) in V. done. }
  rewrite E. unfold OdohConfigBody_decode. split.
  - intros R. apply run_all_Ok in R as (d & R & F). dbind R as n d1 K1. dbind R as g d2 G. injection G as <- <-. dbind R as u1 d1' C1.
    apply lift_err_Ok in R. pose proof (wf_new _ L). took_all. apply read_bounded_vec_inv in R as (T & Ln & M); [|match goal with U : u16 n |- _ => destruct U; lia end|done].
    apply assert_negb_Ok in C1. rewrite !orb_false_iff, Z.eqb_neq in C1. rewrite len_nonzero, Ln. split; [apply C1|]. split; [lia|].
    symmetry. eapply took_finish; [|exact F]. took_chain.
  - intros (N & M & ->). apply run_all_before; [done|]. pose proof (len_nonneg record). unfold MAX_ODOH_CONFIG_SIZE in M.
    eapply before_bind; [apply before_reads, reads_err, read_u16_reads; unfold u16, u16_max; lia|].
    apply before_get. rewrite len_nil, Z.add_0_r. intros R. eapply before_nil_bind; [apply before_reads, reads_assert|].
    { apply negb_true_iff. apply len_nonzero, Z.eqb_neq in N. rewrite R, Z.eqb_refl, N, (proj2 (Z.ltb_ge _ _)) by (unfold MAX_ODOH_CONFIG_SIZE; lia). done. }
    apply before_reads, reads_err, read_bounded_vec_reads. exact M.
Qed.

(** ** Outer padding and embedded messages *)
Lemma validate_padding_Ok p :
  validate_padding p = Ok tt <-> len p <= MAX_OUTER_PADDING_SIZE /\ p = replicate (length p) x00.
Proof.
  unfold validate_padding. rewrite bind_Ok, <- Z.leb_le, <- all_zero_spec. split.
  - by intros (u & ?%assert_or_Ok & ?%assert_negb_Ok).
  - intros (-> & ->). by exists tt.
Qed.

Definition padding_bytes (p : list byte) : list byte := to_le_bytes 2 (len p) ++ p.

Lemma put_padding_bytes e p : validate_padding p = Ok tt -> bytes (put_padding e p) = bytes e ++ padding_bytes p.
Proof.
  intros (L & _)%validate_padding_Ok. unfold put_padding, padding_bytes, wrap, MAX_OUTER_PADDING_SIZE in *. pose proof (len_nonneg p).
  by rewrite bytes_put_bytes, bytes_put_u16, Z.mod_small, <- app_assoc by lia.
Qed.

Lemma read_padding_reads d p : validate_padding p = Ok tt -> reads_before d read_padding (padding_bytes p) [] p.
Proof.
  intros V. pose proof V as (L & _)%validate_padding_Ok. unfold MAX_OUTER_PADDING_SIZE in *. pose proof (len_nonneg p).
  unfold read_padding, padding_bytes. eapply before_bind; [apply before_reads, reads_err, read_u16_reads; unfold u16, u16_max; lia|].
  apply before_get. rewrite len_nil, Z.add_0_r. intros R. eapply before_nil_bind; [apply before_reads, reads_assert|].
  { by rewrite R, Z.eqb_refl, (proj2 (Z.ltb_ge _ _)) by (unfold MAX_OUTER_PADDING_SIZE; lia). }
  eapply before_last; [by apply before_reads, reads_err, read_bounded_vec_reads|]. intros d'.
  eapply before_nil_bind; [by apply before_reads, reads_res|]. apply before_reads, reads_ret.
Qed.

Lemma read_padding_inv d p d' :
  dec_wf d -> read_padding d = (Ok p, d') -> took d (padding_bytes p) d' /\ validate_padding p = Ok tt.
Proof.
  intros W H. unfold read_padding in H. dbind H as n d1 K1. dbind H as g d2 G. injection G as <- <-. dbind H as u1 d1' C1.
  dbind H as p' d3 K3. dbind H as u3 d3' C3. apply dec_ret_Ok in H as (<- & ->). destruct u3. took_all.
  apply read_bounded_vec_inv in K3 as (T & Ln & _); [|match goal with U : u16 n |- _ => destruct U; lia end|done].
  split; [|done]. unfold padding_bytes. rewrite Ln. took_chain.
Qed.

Lemma ensure_type_Ok m t : ensure_message_type m t = Ok tt <-> om_message_type m = t.
Proof. unfold ensure_message_type. by rewrite assert_or_Ok, bool_decide_eq_true. Qed.

(** A query or response message of a body: its type, its size and its bytes. *)
Definition embedded (maximum : Z) (t : OdohMessageType) (m : OdohMessage) : Prop :=
  om_message_type m = t /\ OdohMessage_validate m = Ok tt /\ len (message_bytes m) <= maximum.

Lemma read_message_body_reads d max reason t m after :
  2 <= len after -> embedded max t m -> max <= isize_max ->
  reads_before d (read_message_body (len (message_bytes m)) max reason t) (message_bytes m) after m.
Proof.
  intros A (T & V & L) M. unfold read_message_body. apply before_get. intros R.
  assert (0 < len (message_bytes m)) by (unfold message_bytes; rewrite len_cons; match goal with |- context [len ?x] => pose proof (len_nonneg x) end; lia).
  eapply before_nil_bind; [apply before_reads, reads_assert|].
  { rewrite (proj2 (Z.eqb_neq _ 0)), (proj2 (Z.ltb_ge max _)), (proj2 (Z.ltb_ge (remaining d) _)) by lia. done. }
  eapply before_last; [by apply before_reads, reads_err, read_slice_reads|]. intros d'.
  eapply before_nil_bind; [apply before_reads, reads_res, message_decode_Ok; [lia|by apply message_encode_Ok]|].
  eapply before_nil_bind; [by apply before_reads, reads_res, ensure_type_Ok|]. apply before_reads, reads_ret.
Qed.

Lemma read_message_body_inv d n max reason t m d' :
  0 <= n -> max <= isize_max -> dec_wf d -> read_message_body n max reason t d = (Ok m, d') ->
  took d (message_bytes m) d' /\ embedded max t m /\ len (message_bytes m) = n.
Proof.
  intros N M W H. unfold read_message_body in H. dbind H as g d2 G. injection G as <- <-. dbind H as u1 d1 C1. dbind H as bs d2 K2.
  dbind H as m' d3 C3. dbind H as u4 d4 C4. apply dec_ret_Ok in H as (<- & ->). destruct u4. apply read_slice_inv in K2 as (T & L); [|done|done].
  apply assert_negb_Ok in C1. rewrite !orb_false_iff, Z.ltb_ge in C1. destruct C1 as [[_ C1] _].
  apply message_decode_Ok in C3; [|lia]. apply message_encode_Ok in C3 as (V & ->). apply ensure_type_Ok in C4.
  split; [done|]. split; [|done]. split_and!; [done|done|lia].
Qed.

Definition sized_message (n : nat) (m : OdohMessage) : list byte := to_le_bytes n (len (message_bytes m)) ++ message_bytes m.

Lemma read_message_reads d m after :
  2 <= len after -> embedded MAX_ODOH_QUERY_SIZE OdohQuery m ->
  reads_before d (read_message MAX_ODOH_QUERY_SIZE OdohQuery) (sized_message 2 m) after m.
Proof.
  intros A E. pose proof E as (_ & _ & L). unfold MAX_ODOH_QUERY_SIZE in L. pose proof (len_nonneg (message_bytes m)).
  eapply before_bind; [apply before_reads, reads_err, read_u16_reads; unfold u16, u16_max; lia|].
  by apply read_message_body_reads.
Qed.

Lemma read_message_inv d m d' :
  dec_wf d -> read_message MAX_ODOH_QUERY_SIZE OdohQuery d = (Ok m, d') ->
  took d (sized_message 2 m) d' /\ embedded MAX_ODOH_QUERY_SIZE OdohQuery m.
Proof.
  intros W H. unfold read_message in H. dbind H as n d1 K1. took_all. match goal with U : u16 n |- _ => destruct U end.
  apply read_message_body_inv in H as (T & E & L); [|done|done|by eapply took_wf]. split; [|done].
  unfold sized_message. rewrite L. took_chain.
Qed.

Lemma embedded_message t max reason bs m :
  (ensure_message_type m t ;; message ← OdohMessage_encode m; validate_nonempty_size message max reason ;; Ok message) = Ok bs <->
  embedded max t m /\ bs = message_bytes m.
Proof.
  unfold embedded. rewrite bind_Ok. split.
  - intros ([] & T & H). apply bind_Ok in H as (e & E & H). apply bind_Ok in H as ([] & V & [= <-]).
    apply ensure_type_Ok in T. apply message_encode_Ok in E as (Vm & ->). apply nonempty_size_Ok in V as (_ & L). done.
  - intros ((T & V & L) & ->). exists tt. split; [by apply ensure_type_Ok|]. rewrite (proj2 (message_encode_Ok m _) (conj V eq_refl)).
    cbn [mbind result_bind]. by rewrite (proj2 (nonempty_size_Ok _ _ reason) (conj (ltac:(done) : message_bytes m <> []) L)).
Qed.

(** ** The packet envelope *)
Lemma odoh_opcode_try_from o : OdohOpcode_try_from (z2b (OdohOpcode_value o)) = Ok o.
Proof. by destruct o. Qed.

Lemma odoh_opcode_inv b o : OdohOpcode_try_from b = Ok o -> b = z2b (OdohOpcode_value o).
Proof.
  intros H. rewrite <- (z2b_b2z b). unfold OdohOpcode_try_from in H.
  destruct (b2z b) as [|[[[[]|[]|]|[[]|[]|]|]|[[[]|[]|]|[[]|[]|]|]|]|]; try done; by injection H as <-.
Qed.

Definition odns_bytes (p : OdnsPacket) : list byte :=
  [z2b ODOH_VERSION] ++ [z2b (OdohOpcode_value (op_opcode p))] ++ to_le_bytes 2 0 ++ to_le_bytes 8 (op_request_id p) ++ op_body p.

Lemma odns_encode_Ok p bs : OdnsPacket_encode p = Ok bs <-> OdnsPacket_validate p = Ok tt /\ bs = odns_bytes p.
Proof.
  unfold OdnsPacket_encode. destruct (OdnsPacket_validate p) as [[]|]; [|by split; [|intros [? _]]].
  cbn [mbind result_bind]. unfold into_bytes, odns_bytes.
  rewrite bytes_put_bytes, bytes_put_u64, bytes_put_u16, !bytes_put_u8, bytes_with_capacity, <- !app_assoc. cbn [app].
  split; [by intros [= <-]|]. by intros [_ ->].
Qed.

Lemma odns_validate_len p :
  OdnsPacket_validate p = Ok tt -> op_request_id p <> 0 /\ 12 + len (op_body p) <= MAX_ODOH_PACKET_SIZE.
Proof.
  unfold OdnsPacket_validate. intros H. apply bind_Ok in H as (u1 & K1%assert_negb_Ok%Z.eqb_neq & H).
  apply bind_Ok in H as (u2 & K2%assert_or_Ok%Z.leb_le & _). split; [done|]. unfold saturating_add, ODNS_HEADER_SIZE in K2.
  assert (MAX_ODOH_PACKET_SIZE < usize_max) by done. lia.
Qed.

Lemma odns_decode_Ok input p :
  OdnsPacket_decode input = Ok p <-> u64 (op_request_id p) /\ OdnsPacket_encode p = Ok input.
Proof.
  rewrite odns_encode_Ok. unfold OdnsPacket_decode, OdnsPacket_new. assert (MAX_ODOH_PACKET_SIZE <= isize_max) by done. split.
  - intros R. apply bind_Ok in R as (u0 & K0%assert_or_Ok%Z.leb_le & R). apply bind_Ok in R as ([[o i] b] & R & V). apply bind_Ok in V as ([] & V & [= <-]).
    apply run_all_Ok in R as (d & R & F). unfold read_odns_packet in R. dbind R as v d1 K1. dbind R as u1 d1' C1. dbind R as ob d2 K2.
    dbind R as o' d2' C2. dbind R as f d3 K3. dbind R as u3 d3' C3. dbind R as i' d4 K4. dbind R as u4 d4' C4. dbind R as g d5 G.
    injection G as <- <-. dbind R as b' d6 K6. apply dec_ret_Ok in R as ([= <- <- <-] & ->).
    assert (dec_wf (Decoder_new input)) by (apply wf_new; lia). took_all.
    apply read_bounded_vec_inv in K6 as (T & _ & _); [|by rewrite <- len_rest; [apply len_nonneg|]|done]. split; [done|]. split; [done|].
    apply assert_or_Ok, Z.eqb_eq in C1, C3. unfold odns_bytes. cbn [op_opcode op_request_id op_body].
    subst f. rewrite <- (odoh_opcode_inv _ _ C2), <- C1, z2b_b2z. symmetry. eapply took_finish; [|exact F]. took_chain.
  - intros (U & V & ->). pose proof V as (N & L)%odns_validate_len.
    assert (len (odns_bytes p) = 12 + len (op_body p)) as Lb by (unfold odns_bytes; autorewrite with lens; lia).
    rewrite (proj2 (Z.leb_le _ _)) by lia. cbn [assert_or mbind result_bind].
    rewrite (run_all_before OdDecode read_odns_packet _ (op_opcode p, op_request_id p, op_body p)); [|lia|].
    { cbn [mbind result_bind]. replace (mkPacket _ _ _) with p by by destruct p. by rewrite V. }
    unfold read_odns_packet, odns_bytes. eapply before_bind; [by apply before_reads, reads_err, read_u8_reads|].
    eapply before_nil_bind; [by apply before_reads, reads_assert|]. eapply before_bind; [by apply before_reads, reads_err, read_u8_reads|].
    eapply before_nil_bind; [apply before_reads, reads_res, odoh_opcode_try_from|]. eapply before_bind; [apply before_reads, reads_err, read_u16_reads; done|].
    eapply before_nil_bind; [by apply before_reads, reads_assert|]. eapply before_bind; [by apply before_reads, reads_err, read_u64_reads|].
    eapply before_nil_bind; [apply before_reads, reads_assert; by rewrite (proj2 (Z.eqb_neq _ _) N)|]. apply before_get. intros R.
    replace (remaining _) with (len (op_body p)) by (rewrite R; symmetry; apply Z.add_0_r).
    eapply before_last; [apply before_reads, reads_err, read_bounded_vec_reads; lia|]. intros d. apply before_reads, reads_ret.
Qed.

Section key_lemmas.
Context {CR : Crypto} {KC : K256}.

(** ** Locators *)
Definition octets_ok (ip : IpAddr) : Prop := match ip with IpV4 o => len o = 4 | IpV6 o => len o = 16 end.

(** A locator the decoder can produce: a key of 33 bytes and an address of [SocketAddr_new]. *)
Definition locator_wf (allow_private : bool) (l : DirectTargetLocator) : Prop :=
  len (tl_target_peer_key l) = 33 /\ octets_ok (sa_ip (tl_address l)) /\ u16 (sa_port (tl_address l)) /\
  sa_flowinfo (tl_address l) = 0 /\ sa_scope_id (tl_address l) = 0 /\
  DirectTargetLocator_new (tl_target_peer_key l) (tl_address l) allow_private = Ok l.

Definition host_bytes (ip : IpAddr) : list byte := match ip with IpV4 o => MAPPED_PREFIX ++ o | IpV6 o => o end.
Definition host_type (ip : IpAddr) : Z := match ip with IpV4 _ => HOST_IPV4 | IpV6 _ => HOST_IPV6 end.

Lemma locator_encode_eq l :
  DirectTargetLocator_encode l =
  [z2b DIRECT_BRONTIDE] ++ tl_target_peer_key l ++ to_le_bytes 2 19 ++ [z2b (host_type (sa_ip (tl_address l)))] ++
  host_bytes (sa_ip (tl_address l)) ++ to_le_bytes 2 (sa_port (tl_address l)).
Proof.
  unfold DirectTargetLocator_encode, into_bytes. rewrite bytes_put_u16. destruct (sa_ip (tl_address l)) as [o|o];
    repeat first [rewrite bytes_put_bytes | rewrite bytes_put_u8 | rewrite bytes_put_u16]; rewrite bytes_with_capacity, <- !app_assoc; done.
Qed.

Lemma decode_host_Ok ht host port a :
  len host = 16 -> decode_host ht host port = Ok a ->
  octets_ok (sa_ip a) /\ sa_port a = port /\ sa_flowinfo a = 0 /\ sa_scope_id a = 0 /\
  ht = z2b (host_type (sa_ip a)) /\ host = host_bytes (sa_ip a).
Proof.
  intros L H. unfold decode_host in H. destruct (_ && _) eqn:E.
  - injection H as <-. cbn [SocketAddr_new sa_ip sa_port sa_flowinfo sa_scope_id octets_ok host_type host_bytes].
    rewrite !andb_true_iff, !bool_decide_eq_true, Z.eqb_eq in E. destruct E as [[E1 E2] E3].
    assert (host = MAPPED_PREFIX ++ drop 12 host) as Eh.
    { rewrite <- (take_drop 10 host) at 1. rewrite <- (take_drop 2 (drop 10 host)), E2, E3, drop_drop. by rewrite app_assoc. }
    split_and!; try done; [unfold len in *; rewrite length_drop; lia|by rewrite <- E1, z2b_b2z].
  - destruct (b2z ht =? HOST_IPV6) eqn:E6; [|done]. apply Z.eqb_eq in E6. injection H as <-. cbn. split_and!; try done.
    by rewrite <- (z2b_b2z ht), E6.
Qed.

Lemma decode_host_bytes ip port :
  octets_ok ip -> decode_host (z2b (host_type ip)) (host_bytes ip) port = Ok (SocketAddr_new ip port).
Proof. by destruct ip as [o|o]. Qed.

Lemma locator_new_eq k a p l : DirectTargetLocator_new k a p = Ok l -> l = mkLocator k a.
Proof.
  unfold DirectTargetLocator_new. intros H. apply bind_Ok in H as (? & _ & H). apply bind_Ok in H as (? & _ & H).
  by apply bind_Ok in H as (? & _ & [= <-]).
Qed.

Lemma locator_inv allow d l d' :
  dec_wf d -> DirectTargetLocator_decode_from allow d = (Ok l, d') ->
  took d (DirectTargetLocator_encode l) d' /\ locator_wf allow l.
Proof.
  intros W H. unfold DirectTargetLocator_decode_from in H. dbind H as t d1 K1. dbind H as u1 d1' C1. dbind H as k d2 K2. dbind H as n d3 K3.
  dbind H as u3 d3' C3. dbind H as ht d4 K4. dbind H as h d5 K5. dbind H as p d6 K6. dbind H as a d6' C6.
  apply lift_res_Ok in H as (N & ->). took_all. apply decode_host_Ok in C6 as (O & P & Ff & Fs & -> & ->); [|done]. pose proof (locator_new_eq _ _ _ _ N) as ->.
  apply assert_or_Ok, Z.eqb_eq in C1, C3. subst n p. split; [|done].
  rewrite locator_encode_eq. cbn [tl_target_peer_key tl_address]. rewrite <- C1, z2b_b2z. took_chain.
Qed.

Lemma locator_reads allow d l :
  locator_wf allow l -> reads d (DirectTargetLocator_decode_from allow) (DirectTargetLocator_encode l) l.
Proof.
  intros (Lk & O & P & Ff & Fs & N). rewrite locator_encode_eq. unfold DirectTargetLocator_decode_from.
  eapply reads_bind; [by apply reads_err, read_u8_reads|]. eapply reads_nil_bind; [by apply reads_assert|].
  eapply reads_bind; [by apply reads_err, read_array_reads|]. eapply reads_bind; [apply reads_err, read_u16_reads; done|].
  eapply reads_nil_bind; [by apply reads_assert|]. eapply reads_bind; [by apply reads_err, read_u8_reads|].
  eapply reads_bind; [apply reads_err, read_array_reads|].
  { destruct (sa_ip (tl_address l)); cbn [host_bytes octets_ok] in *; [|done]. rewrite len_app, O. done. }
  eapply reads_last; [by apply reads_err, read_u16_reads|]. eapply reads_nil_bind; [by apply reads_res, decode_host_bytes|].
  apply reads_res. replace (SocketAddr_new _ _) with (tl_address l); [done|]. destruct (tl_address l); cbn in *. by subst.
Qed.

Lemma locator_decode_Ok inp allow l :
  len inp <= isize_max ->
  DirectTargetLocator_decode inp allow = Ok l <-> locator_wf allow l /\ DirectTargetLocator_encode l = inp.
Proof.
  intros L. split.
  - intros (d & R & F)%run_all_Ok. apply locator_inv in R as (T & W); [|by apply wf_new]. split; [done|]. by eapply took_finish.
  - intros (W & <-). apply run_all_reads; [done|]. by apply locator_reads.
Qed.

(** ** Bodies *)
Lemma get_config_decode_Ok inp allow b :
  len inp <= isize_max ->
  GetConfigBody_decode inp allow = Ok b <-> locator_wf allow (gc_locator b) /\ GetConfigBody_encode b = inp.
Proof.
  intros L. unfold GetConfigBody_decode, GetConfigBody_encode. split.
  - intros (d & R & F)%run_all_Ok. dbind R as l d1 K1. dbind R as g d2 G. injection G as <- <-. dbind R as u1 d1' C1. dbind R as f d3 K3.
    dbind R as c d3' C3. apply dec_ret_Ok in R as (<- & ->). apply locator_inv in K1 as (T & W); [|by apply wf_new]. took_all. split; [done|].
    cbn [gc_locator gc_allow_cached]. replace [if c then x01 else x00] with [f]; [eapply took_finish; [|exact F]; took_chain|].
    rewrite <- (z2b_b2z f). destruct (b2z f) as [|[]|]; try done; by injection C3 as <-.
  - intros (W & <-). apply run_all_before; [done|]. eapply before_bind; [by apply before_reads, locator_reads|].
    apply before_get. intros R. eapply before_nil_bind; [apply before_reads, reads_assert; by rewrite R|].
    eapply before_last; [by apply before_reads, reads_err, read_u8_reads|]. intros d'.
    eapply (before_nil_bind _ _ _ _ _ (gc_allow_cached b)); [apply before_reads, reads_res; by destruct (gc_allow_cached b)|].
    destruct b. apply before_reads, reads_ret.
Qed.

Definition target_query_bytes (q : TargetQuery) : list byte :=
  tq_config_id q ++ sized_message 2 (tq_message q) ++ padding_bytes (tq_padding q).
Definition client_query_bytes (q : ClientQuery) : list byte :=
  DirectTargetLocator_encode (cq_locator q) ++ cq_config_id q ++ sized_message 2 (cq_message q) ++ padding_bytes (cq_padding q).
Definition odoh_response_bytes (b : OdohResponseBody) : list byte :=
  sized_message 4 (rb_message b) ++ padding_bytes (rb_padding b).

Lemma len_padding_bytes p : 2 <= len (padding_bytes p ++ []).
Proof. rewrite app_nil_r. unfold padding_bytes. autorewrite with lens. pose proof (len_nonneg p). lia. Qed.

(** Splits the encoder's checks off. *)
Lemma checked_message {A} t max reason m p (f : list byte -> A) (v : A) :
  (ensure_message_type m t ;; message ← OdohMessage_encode m; validate_nonempty_size message max reason ;;
   validate_padding p ;; Ok (f message)) = Ok v <->
  embedded max t m /\ validate_padding p = Ok tt /\ v = f (message_bytes m).
Proof.
  pose proof (embedded_message t max reason) as E. split.
  - intros H. apply bind_Ok in H as ([] & K1 & H). apply bind_Ok in H as (e & K2 & H). apply bind_Ok in H as ([] & K3 & H).
    apply bind_Ok in H as ([] & K4 & [= <-]). destruct (proj1 (E e m)) as (Em & ->); [|done].
    rewrite K1. cbn [mbind result_bind]. rewrite K2. cbn [mbind result_bind]. by rewrite K3.
  - intros (Em & V & ->). pose proof (proj2 (E _ m) (conj Em eq_refl)) as H.
    apply bind_Ok in H as ([] & K1 & H). apply bind_Ok in H as (e & K2 & H). apply bind_Ok in H as ([] & K3 & [= ->]).
    rewrite K1. cbn [mbind result_bind]. rewrite K2. cbn [mbind result_bind]. rewrite K3. cbn [mbind result_bind]. by rewrite V.
Qed.

Lemma client_query_encode_Ok q bs :
  ClientQuery_encode q = Ok bs <->
  embedded MAX_ODOH_QUERY_SIZE OdohQuery (cq_message q) /\ validate_padding (cq_padding q) = Ok tt /\ bs = client_query_bytes q.
Proof.
  unfold ClientQuery_encode. rewrite checked_message. split; intros (E & V & ->); (split; [done|]; split; [done|]);
    unfold into_bytes, client_query_bytes, sized_message; rewrite put_padding_bytes, !bytes_put_bytes, bytes_put_u16, !bytes_put_bytes, bytes_with_capacity by done;
    cbn [app]; rewrite <- !app_assoc; unfold wrap; pose proof E as (_ & _ & L); unfold MAX_ODOH_QUERY_SIZE in L;
    pose proof (len_nonneg (message_bytes (cq_message q))); by rewrite Z.mod_small by lia.
Qed.

Lemma target_query_encode_Ok q bs :
  TargetQuery_encode q = Ok bs <->
  embedded MAX_ODOH_QUERY_SIZE OdohQuery (tq_message q) /\ validate_padding (tq_padding q) = Ok tt /\ bs = target_query_bytes q.
Proof.
  unfold TargetQuery_encode. rewrite checked_message. split; intros (E & V & ->); (split; [done|]; split; [done|]);
    unfold into_bytes, target_query_bytes, sized_message; rewrite put_padding_bytes, !bytes_put_bytes, bytes_put_u16, !bytes_put_bytes, bytes_with_capacity by done;
    cbn [app]; rewrite <- !app_assoc; unfold wrap; pose proof E as (_ & _ & L); unfold MAX_ODOH_QUERY_SIZE in L;
    pose proof (len_nonneg (message_bytes (tq_message q))); by rewrite Z.mod_small by lia.
Qed.

Lemma response_body_encode_Ok b bs :
  OdohResponseBody_encode b = Ok bs <->
  embedded MAX_ODOH_RESPONSE_SIZE OdohResponse (rb_message b) /\ validate_padding (rb_padding b) = Ok tt /\ bs = odoh_response_bytes b.
Proof.
  unfold OdohResponseBody_encode. rewrite checked_message. split; intros (E & V & ->); (split; [done|]; split; [done|]);
    unfold into_bytes, odoh_response_bytes, sized_message; rewrite put_padding_bytes, !bytes_put_bytes, bytes_put_u32, bytes_with_capacity by done;
    cbn [app]; rewrite <- !app_assoc; unfold wrap; pose proof E as (_ & _ & L); unfold MAX_ODOH_RESPONSE_SIZE, u16_max in L;
    pose proof (len_nonneg (message_bytes (rb_message b))); by rewrite Z.mod_small by lia.
Qed.

Lemma target_query_decode_Ok inp q :
  len inp <= isize_max ->
  TargetQuery_decode inp = Ok q <-> len (tq_config_id q) = 32 /\ TargetQuery_encode q = Ok inp.
Proof.
  intros L. rewrite target_query_encode_Ok. unfold TargetQuery_decode. split.
  - intros (d & R & F)%run_all_Ok. dbind R as c d1 K1. dbind R as m d2 K2. dbind R as p d3 K3. apply dec_ret_Ok in R as (<- & ->).
    pose proof (wf_new _ L). took_all. apply read_message_inv in K2 as (T2 & E); [|done].
    apply read_padding_inv in K3 as (T3 & V); [|by eapply took_wf]. split; [done|]. split; [done|]. split; [done|].
    symmetry. eapply took_finish; [|exact F]. unfold target_query_bytes. cbn [tq_config_id tq_message tq_padding]. took_chain.
  - intros (Lc & E & V & ->). apply run_all_before; [done|]. unfold target_query_bytes.
    eapply before_bind; [by apply before_reads, reads_err, read_array_reads|].
    eapply before_bind; [apply read_message_reads; [apply len_padding_bytes|done]|].
    eapply before_last; [by apply read_padding_reads|]. intros d. destruct q. apply before_reads, reads_ret.
Qed.

Lemma client_query_decode_Ok inp allow q :
  len inp <= isize_max ->
  ClientQuery_decode inp allow = Ok q <->
  locator_wf allow (cq_locator q) /\ len (cq_config_id q) = 32 /\ ClientQuery_encode q = Ok inp.
Proof.
  intros L. rewrite client_query_encode_Ok. unfold ClientQuery_decode. split.
  - intros (d & R & F)%run_all_Ok. dbind R as l d0 K0. dbind R as c d1 K1. dbind R as m d2 K2. dbind R as p d3 K3. apply dec_ret_Ok in R as (<- & ->).
    pose proof (wf_new _ L). apply locator_inv in K0 as (T0 & W); [|done]. took_all. apply read_message_inv in K2 as (T2 & E); [|done].
    apply read_padding_inv in K3 as (T3 & V); [|by eapply took_wf]. do 4 (split; [done|]).
    symmetry. eapply took_finish; [|exact F]. unfold client_query_bytes. cbn [cq_locator cq_config_id cq_message cq_padding]. took_chain.
  - intros (W & Lc & E & V & ->). apply run_all_before; [done|]. unfold client_query_bytes.
    eapply before_bind; [by apply before_reads, locator_reads|]. eapply before_bind; [by apply before_reads, reads_err, read_array_reads|].
    eapply before_bind; [apply read_message_reads; [apply len_padding_bytes|done]|].
    eapply before_last; [by apply read_padding_reads|]. intros d. destruct q. apply before_reads, reads_ret.
Qed.

Lemma response_body_decode_Ok inp b :
  len inp <= isize_max -> OdohResponseBody_decode inp = Ok b <-> OdohResponseBody_encode b = Ok inp.
Proof.
  intros L. rewrite response_body_encode_Ok. unfold OdohResponseBody_decode. assert (MAX_ODOH_RESPONSE_SIZE <= isize_max) as M by done. split.
  - intros (d & R & F)%run_all_Ok. dbind R as n d1 K1. dbind R as m d2 K2. dbind R as p d3 K3. apply dec_ret_Ok in R as (<- & ->).
    pose proof (wf_new _ L). took_all. apply read_message_body_inv in K2 as (T2 & E & Ln); [|match goal with U : u32 n |- _ => destruct U; lia end|done|done].
    apply read_padding_inv in K3 as (T3 & V); [|by eapply took_wf]. split; [done|]. split; [done|].
    symmetry. eapply took_finish; [|exact F]. unfold odoh_response_bytes, sized_message. cbn [rb_message rb_padding].
    rewrite Ln, <- app_assoc. took_chain.
  - intros (E & V & ->). apply run_all_before; [done|]. unfold odoh_response_bytes, sized_message. rewrite <- app_assoc.
    pose proof E as (_ & _ & Lm). pose proof (len_nonneg (message_bytes (rb_message b))). unfold MAX_ODOH_RESPONSE_SIZE, u16_max in Lm.
    eapply before_bind; [apply before_reads, reads_err, read_u32_reads; unfold u32, u32_max; lia|].
    eapply before_bind; [apply read_message_body_reads; [apply len_padding_bytes|done|done]|].
    eapply before_last; [by apply read_padding_reads|]. intros d. destruct b. apply before_reads, reads_ret.
Qed.

(** Oblivious DNS has one spelling per message. Each decoder accepts exactly the
    bytes its encoder produces from a value in range: the packet envelope, the RFC 9230
    message, the capabilities, the configuration request and reply, the query a client
    sends its proxy, the query the proxy forwards, the response and the error. A
    proxy that re-encodes what it decoded forwards the same bytes. *)
Theorem odoh_messages_codec inp (L : len inp <= isize_max) allow :
  (forall p, OdnsPacket_decode inp = Ok p <-> u64 (op_request_id p) /\ OdnsPacket_encode p = Ok inp) /\
  (forall m, OdohMessage_decode inp = Ok m <-> OdohMessage_encode m = Ok inp) /\
  (forall c, OdohCapabilities_decode inp = Ok c <-> capabilities_wf c /\ OdohCapabilities_encode c = Ok inp) /\
  (forall b, GetConfigBody_decode inp allow = Ok b <-> locator_wf allow (gc_locator b) /\ GetConfigBody_encode b = inp) /\
  (forall r, OdohConfigBody_decode inp = Ok r <-> OdohConfigBody_encode r = Ok inp) /\
  (forall q, ClientQuery_decode inp allow = Ok q <->
    locator_wf allow (cq_locator q) /\ len (cq_config_id q) = 32 /\ ClientQuery_encode q = Ok inp) /\
  (forall q, TargetQuery_decode inp = Ok q <-> len (tq_config_id q) = 32 /\ TargetQuery_encode q = Ok inp) /\
  (forall b, OdohResponseBody_decode inp = Ok b <-> OdohResponseBody_encode b = Ok inp) /\
  (forall b, OdohErrorBody_decode inp = Ok b <->
    u32 (oe_retry_after b) /\ u16 (oe_error_class b) /\ OdohErrorBody_encode b = inp).
Proof.
  split_and!; intros x; [apply odns_decode_Ok|by apply message_decode_Ok|apply capabilities_decode_Ok|by apply get_config_decode_Ok
    |by apply config_body_decode_Ok|by apply client_query_decode_Ok|by apply target_query_decode_Ok
    |by apply response_body_decode_Ok|apply error_body_decode_Ok].
Qed.

(** ** Target records *)
Context (from_der : list byte -> option (list byte)).

(** The bytes of a record before its signature. *)
Definition record_prefix (network_magic : Z) (l : DirectTargetLocator) (sequence issued_at expires_at : Z) (configurations : list byte) : list byte :=
  [x01] ++ to_le_bytes 4 network_magic ++ DirectTargetLocator_encode l ++ to_le_bytes 8 sequence ++ to_le_bytes 8 issued_at ++
  to_le_bytes 8 expires_at ++ to_le_bytes 2 (len configurations) ++ configurations.

Lemma target_record_inv inp expected magic allow r d :
  dec_wf (Decoder_new inp) -> read_target_record expected magic allow (Decoder_new inp) = (Ok r, d) -> finish d = Ok tt ->
  exists seq issued expires confs sig,
    r = (expected, seq, issued, expires, confs, len (record_prefix magic expected seq issued expires confs), sig) /\
    inp = record_prefix magic expected seq issued expires confs ++ [z2b (len sig)] ++ sig /\
    locator_wf allow expected /\ 8 <= len sig <= 72.
Proof.
  intros W R F. unfold read_target_record in R. dbind R as v d1 K1. dbind R as u1 d1' C1. dbind R as m d2 K2. dbind R as u2 d2' C2.
  dbind R as l d3 K3. dbind R as u3 d3' C3. dbind R as s d4 K4. dbind R as i d5 K5. dbind R as e d6 K6. dbind R as n d7 K7. dbind R as u7 d7' C7.
  dbind R as c d8 K8. dbind R as g d9 G. injection G as <- <-. dbind R as sl d9 K9. dbind R as g d10 G. injection G as <- <-.
  dbind R as u9 d9' C9. dbind R as sg d11 K11. apply dec_ret_Ok in R as (<- & ->). took_all. apply locator_inv in K3 as (T3 & Wl); [|done]. took_all.
  apply read_bounded_vec_inv in K8 as (T8 & Ln & _); [|match goal with U : u16 n |- _ => destruct U; lia end|done]. took_all.
  apply read_bounded_vec_inv in K11 as (T11 & Ls & _); [|apply b2z_range|done].
  apply assert_or_Ok, Z.eqb_eq in C1, C2. apply assert_or_Ok, bool_decide_eq_true in C3. subst m l n.
  apply assert_negb_Ok, orb_false_iff in C9 as [C9 _]. apply negb_false_iff in C9. unfold within in C9. rewrite andb_true_iff, !Z.leb_le, <- Ls in C9.
  assert (v = x01) as -> by (rewrite <- (z2b_b2z v), C1; done).
  assert (took (Decoder_new inp) (record_prefix magic expected s i e c) d8) as Tp by (unfold record_prefix; took_chain).
  exists s, i, e, c, sg. split.
  { apply took_position in Tp. cbn [Decoder_new position] in Tp. rewrite Z.add_0_l in Tp. by rewrite Tp. }
  split; [|done]. symmetry. eapply took_finish; [|exact F]. rewrite Ls, z2b_b2z. took_chain.
Qed.

Lemma config_list_nonempty inp : decode_config_list inp <> Some (Ok []).
Proof.
  unfold decode_config_list. destruct (_ || _); [done|]. destruct (run_all _ _ _) as [l|]; [|done].
  by destruct (config_loop _ _ _) as [[[|]|]|].
Qed.

Lemma config_list_result_Ok inp cs : config_list_result inp = Ok cs -> decode_config_list inp = Some (Ok cs) /\ cs <> [].
Proof.
  unfold config_list_result. intros H. pose proof (config_list_nonempty inp).
  destruct (decode_config_list inp) as [r|]; [|done]. change (r = Ok cs) in H. subst r. split; [done|]. by intros ->.
Qed.

(** A target record is accepted only for the target it was asked of. Its bytes are
    the record's fields and a DER signature; the locator is the expected one, which
    decodes under the caller's rule on private addresses; the network matches; the
    sequence is not zero; the record was issued at most five minutes in the future,
    has not expired and lives at most two days; it carries at least one usable
    configuration; and the signature, in low-S form, is by the target's own peer key
    over the tag and exactly the bytes before the signature. *)
Theorem target_record_authentic inp expected magic now allow r
    (L : len inp <= isize_max) (N : 0 <= now <= u64_max)
    (H : TargetConfigRecord_decode_and_verify from_der inp expected magic now allow = Ok r) :
  exists confs sig signature,
    let unsigned := record_prefix magic expected (tc_sequence r) (tc_issued_at r) (tc_expires_at r) confs in
    inp = unsigned ++ [z2b (len sig)] ++ sig /\ tc_raw r = inp /\
    tc_locator r = expected /\ tc_network_magic r = magic /\ locator_wf allow expected /\
    tc_sequence r <> 0 /\ tc_issued_at r <= now + 300 /\ now < tc_expires_at r /\
    tc_issued_at r < tc_expires_at r <= tc_issued_at r + 172800 /\
    decode_config_list confs = Some (Ok (tc_configurations r)) /\ tc_configurations r <> [] /\
    from_der sig = Some signature /\ is_high signature = false /\
    verify_prehash (tl_target_peer_key expected) (blake2b 32 (TARGET_CONFIG_TAG ++ unsigned)) signature = true.
Proof.
  unfold TargetConfigRecord_decode_and_verify in H. apply bind_Ok in H as (u0 & K0 & H).
  apply bind_Ok in H as ([[[[[[l s] i] e] c] n] sg] & R & H). apply run_all_Ok in R as (d & R & F).
  apply target_record_inv in R as (s' & i' & e' & c' & sg' & [= -> -> -> -> -> -> ->] & Ei & W & _); [|by apply wf_new|done].
  apply bind_Ok in H as (u1 & K1%assert_negb_Ok%Z.eqb_neq & H). apply bind_Ok in H as (u2 & K2%assert_negb_Ok & H).
  apply bind_Ok in H as (cs & K3 & H). apply config_list_result_Ok in K3 as (K3 & K3'). apply bind_Ok in H as (sig & K4 & H).
  apply ok_or_Ok in K4. apply bind_Ok in H as (u5 & K5%assert_negb_Ok & H). apply bind_Ok in H as (u6 & _ & H).
  apply bind_Ok in H as (u7 & K7%assert_or_Ok & [= <-]).
  rewrite !orb_false_iff, !Z.ltb_ge, !Z.leb_gt in K2. unfold saturating_add, saturating_sub, MAX_ODOH_CONFIG_LIFETIME in K2.
  exists c', sg', sig. cbn [tc_raw tc_locator tc_network_magic tc_sequence tc_issued_at tc_expires_at tc_configurations].
  split; [done|]. split; [done|]. split; [done|]. split; [done|]. split; [done|]. split; [done|]. split; [lia|]. split; [lia|]. split; [lia|].
  split; [done|]. split; [done|]. split; [done|]. split; [done|].
  rewrite Ei in K7 at 1. unfold odoh_blake2b_256 in K7. unfold len in K7. rewrite Nat2Z.id, take_app_length in K7.
  cbn [mjoin list_join] in K7. by rewrite app_nil_r in K7.
Qed.
End key_lemmas.

(** ** Examples *)
Lemma odoh_messages_codec_witness :
  let busy := mkErrorBody OdBusy 30 2 in
  OdohErrorBody_decode (OdohErrorBody_encode busy) = Ok busy.
Proof.
  intros busy. pose proof (@odoh_messages_codec toy_k256 (OdohErrorBody_encode busy) ltac:(vm_compute; discriminate) false) as H.
  destruct H as (_ & _ & _ & _ & _ & _ & _ & _ & H). apply H. split; [vm_compute; split; discriminate|].
  split; [vm_compute; split; discriminate|reflexivity].
Defined.

Definition sample_locator : DirectTargetLocator :=
  mkLocator (x02 :: x07 :: zeros 31) (SocketAddr_new (IpV4 [x05; x06; x07; x08]) 12038).
Definition sample_configs : list byte :=
  match encode_config_list [mkConfig (zeros 32)] with Ok b => b | Err _ => [] end.
Definition sample_record : list byte :=
  record_prefix 7 sample_locator 3 1000 5000 sample_configs ++ [z2b 64] ++ x07 :: zeros 63.

Lemma target_record_authentic_witness :
  exists r, @TargetConfigRecord_decode_and_verify toy_crypto toy_k256 Some sample_record sample_locator 7 2000 false = Ok r /\
    2000 < tc_expires_at r.
Proof.
  destruct (@TargetConfigRecord_decode_and_verify toy_crypto toy_k256 Some sample_record sample_locator 7 2000 false) as [r|] eqn:H;
    [|vm_compute in H; discriminate].
  exists r. split; [reflexivity|].
  destruct (@target_record_authentic toy_crypto toy_k256 Some sample_record sample_locator 7 2000 false r
    ltac:(vm_compute; discriminate) ltac:(vm_compute; split; discriminate) H) as (c & s & g & T).
  cbv zeta in T. apply T.
Defined.
