(* ===== verification/Odoh.v ===== *)
(** * hns-odoh-protocol: encrypted conversations

    Models the encryption of [crates/hns-odoh-protocol/src/message.rs] and
    [OdohConfig::key_id] of [config.rs]. HPKE, HKDF and AES-GCM are third-party
    crates: class [Hpke] has the calls the source makes and class [HpkeLaws] what
    RFC 9180, RFC 5869 and the AEAD interface promise of them. The entropy
    [setup_sender] draws is its argument. Zeroization has no result and is left out. *)

From S2P Require Import Prelude Encoding Primitives OdohWire.
Local Open Scope Z_scope.

(** [hkdf_expand salt ikm info n] is [Hkdf::new(Some(salt), ikm).expand(info, n bytes)];
    [seal] and [open_] return the context with its sequence number moved on. *)
Class Hpke := {
  Entropy : Type;
  SenderContext : Type;
  ReceiverContext : Type;
  hkdf_expand : list byte -> list byte -> list byte -> Z -> option (list byte);
  public_key_ok : list byte -> bool;
  private_key_ok : list byte -> bool;
  encapped_key_ok : list byte -> bool;
  setup_sender : Entropy -> list byte -> list byte -> option (list byte * SenderContext);
  setup_receiver : list byte -> list byte -> list byte -> option ReceiverContext;
  seal : SenderContext -> list byte -> list byte -> option (list byte * SenderContext);
  open_ : ReceiverContext -> list byte -> list byte -> option (list byte * ReceiverContext);
  export_sender : SenderContext -> list byte -> Z -> option (list byte);
  export_receiver : ReceiverContext -> list byte -> Z -> option (list byte);
  gcm_encrypt : list byte -> list byte -> list byte -> list byte -> option (list byte);
  gcm_decrypt : list byte -> list byte -> list byte -> list byte -> option (list byte);
}.

(** [keypair sk pk]: [pk] is the public key of [sk]. [paired s r]: the two ends of one
    setup, with equal sequence numbers. *)
Class HpkeLaws {HP : Hpke} := {
  keypair : list byte -> list byte -> Prop;
  paired : SenderContext -> ReceiverContext -> Prop;
  setup_pairs : forall e sk pk info enc s, keypair sk pk -> setup_sender e pk info = Some (enc, s) ->
    len enc = 32 /\ encapped_key_ok enc = true /\ exists r, setup_receiver sk enc info = Some r /\ paired s r;
  open_seal : forall s r pt aad ct s', paired s r -> seal s pt aad = Some (ct, s') ->
    ct <> [] /\ exists r', open_ r ct aad = Some (pt, r') /\ paired s' r';
  export_agrees : forall s r info n, paired s r -> export_sender s info n = export_receiver r info n;
  export_total : forall r info n, 0 <= n <= 255 * 32 -> is_Some (export_receiver r info n);
  gcm_open_seal : forall k n m aad c, gcm_encrypt k n m aad = Some c -> gcm_decrypt k n c aad = Some m;
}.
Arguments HpkeLaws : clear implicits.

Definition KEY_ID_INFO : list byte := bstr "odoh key id".
Definition QUERY_INFO : list byte := bstr "odoh query".
Definition RESPONSE_INFO : list byte := bstr "odoh response".
Definition RESPONSE_KEY_INFO : list byte := bstr "odoh key".
Definition RESPONSE_NONCE_INFO : list byte := bstr "odoh nonce".
Definition X25519_ENCAPSULATED_KEY_SIZE : Z := 32.

Section odoh.
Context {HP : Hpke}.

Definition OdohConfig_key_id (c : OdohConfig) : result OdohProtocolError (list byte) :=
  ok_or (hkdf_expand [] (OdohConfig_contents c) KEY_ID_INFO 32) OdCryptography.

Definition derive_response_secrets (secret query_plaintext response_nonce : list byte)
  : result OdohProtocolError (list byte * list byte) :=
  assert_or (len response_nonce <=? u16_max) (OdTooLarge (len response_nonce) u16_max) ;;
  let salt := query_plaintext ++ to_be_bytes 2 (len response_nonce) ++ response_nonce in
  key ← ok_or (hkdf_expand salt secret RESPONSE_KEY_INFO 16) OdCryptography;
  nonce ← ok_or (hkdf_expand salt secret RESPONSE_NONCE_INFO 12) OdCryptography;
  Ok (key, nonce).

Record QueryContext := mkQueryContext { qc_context : SenderContext; qc_query_plaintext : list byte }.

Definition open_response (c : QueryContext) (response : OdohMessage) : result OdohProtocolError (list byte) :=
  assert_or (negb (negb (bool_decide (om_message_type response = OdohResponse)) || negb (len (om_key_id response) =? 16)))
    (OdInvalid "invalid ODoH response") ;;
  response_secret ← ok_or (export_sender (qc_context c) RESPONSE_INFO 16) OdCryptography;
  '(key, nonce) ← derive_response_secrets response_secret (qc_query_plaintext c) (om_key_id response);
  aad ← OdohMessage_aad response;
  plaintext ← ok_or (gcm_decrypt key nonce (om_encrypted_message response) aad) OdCryptography;
  decode_plaintext plaintext.

Record OpenedQuery := mkOpened { oq_dns : list byte; oq_response_secret : list byte; oq_query_plaintext : list byte }.

Definition seal_response (q : OpenedQuery) (dns_response response_nonce : list byte) (block_size : Z)
  : result OdohProtocolError OdohMessage :=
  assert_or (len dns_response <=? MAX_ODOH_RESPONSE_SIZE) (OdTooLarge (len dns_response) MAX_ODOH_RESPONSE_SIZE) ;;
  plaintext ← encode_plaintext dns_response block_size;
  '(key, nonce) ← derive_response_secrets (oq_response_secret q) (oq_query_plaintext q) response_nonce;
  let response := mkMessage OdohResponse response_nonce [] in
  aad ← OdohMessage_aad response;
  encrypted_message ← ok_or (gcm_encrypt key nonce plaintext aad) OdCryptography;
  OdohMessage_new OdohResponse response_nonce encrypted_message.

Definition seal_query (entropy : Entropy) (configuration : OdohConfig) (dns : list byte)
  : result OdohProtocolError (OdohMessage * QueryContext) :=
  assert_or (len dns <=? MAX_ODOH_QUERY_SIZE) (OdTooLarge (len dns) MAX_ODOH_QUERY_SIZE) ;;
  key_id ← OdohConfig_key_id configuration;
  assert_or (public_key_ok (cf_public_key configuration)) (OdInvalid "invalid HPKE public key") ;;
  '(encapsulated, context) ← ok_or (setup_sender entropy (cf_public_key configuration) QUERY_INFO) OdCryptography;
  query_plaintext ← encode_plaintext dns 128;
  let provisional := mkMessage OdohQuery key_id [] in
  aad ← OdohMessage_aad provisional;
  '(ciphertext, context) ← ok_or (seal context query_plaintext aad) OdCryptography;
  message ← OdohMessage_new OdohQuery key_id (encapsulated ++ ciphertext);
  Ok (message, mkQueryContext context query_plaintext).

Definition open_query (private_key : list byte) (configuration : OdohConfig) (query : OdohMessage)
  : result OdohProtocolError OpenedQuery :=
  matches ← (if bool_decide (om_message_type query = OdohQuery)
             then key_id ← OdohConfig_key_id configuration; Ok (bool_decide (om_key_id query = key_id))
             else Ok false);
  assert_or matches (OdInvalid "query uses the wrong ODoH configuration") ;;
  assert_or (negb (len (om_encrypted_message query) <=? X25519_ENCAPSULATED_KEY_SIZE)) (OdInvalid "truncated HPKE query") ;;
  assert_or (private_key_ok private_key) OdCryptography ;;
  let encapsulated := take 32 (om_encrypted_message query) in
  assert_or (encapped_key_ok encapsulated) OdCryptography ;;
  context ← ok_or (setup_receiver private_key encapsulated QUERY_INFO) OdCryptography;
  aad ← OdohMessage_aad query;
  '(query_plaintext, context) ← ok_or (open_ context (drop 32 (om_encrypted_message query)) aad) OdCryptography;
  dns ← decode_plaintext query_plaintext;
  response_secret ← ok_or (export_receiver context RESPONSE_INFO 16) OdCryptography;
  Ok (mkOpened dns response_secret query_plaintext).

(** ** The conversation *)
Lemma message_new_Ok t k e m : OdohMessage_new t k e = Ok m -> m = mkMessage t k e /\ OdohMessage_validate m = Ok tt.
Proof. unfold OdohMessage_new. intros H. by apply bind_Ok in H as ([] & V & [= <-]). Qed.

(** The associated data is the header of the message, whatever its ciphertext. *)
Lemma aad_header t k e e' : OdohMessage_aad (mkMessage t k e) = OdohMessage_aad (mkMessage t k e').
Proof. done. Qed.

Lemma seal_query_Ok entropy c dns q ctx :
  seal_query entropy c dns = Ok (q, ctx) ->
  exists key_id enc s ct s' aad,
    OdohConfig_key_id c = Ok key_id /\ setup_sender entropy (cf_public_key c) QUERY_INFO = Some (enc, s) /\
    encode_plaintext dns 128 = Ok (qc_query_plaintext ctx) /\ OdohMessage_aad q = Ok aad /\
    seal s (qc_query_plaintext ctx) aad = Some (ct, s') /\ q = mkMessage OdohQuery key_id (enc ++ ct) /\
    qc_context ctx = s' /\ OdohMessage_validate q = Ok tt.
Proof.
  unfold seal_query. intros H. apply bind_Ok in H as (u0 & _ & H). apply bind_Ok in H as (k & K & H).
  apply bind_Ok in H as (u1 & _ & H). apply bind_Ok in H as ([enc s] & S%ok_or_Ok & H). apply bind_Ok in H as (p & P & H).
  apply bind_Ok in H as (aad & A & H). apply bind_Ok in H as ([ct s'] & C%ok_or_Ok & H). apply bind_Ok in H as (m & M & [= <- <-]).
  apply message_new_Ok in M as (-> & V). by exists k, enc, s, ct, s', aad.
Qed.

Context {HL : HpkeLaws HP}.

Lemma open_sealed_query entropy c dns q ctx sk :
  keypair sk (cf_public_key c) -> private_key_ok sk = true -> seal_query entropy c dns = Ok (q, ctx) ->
  exists secret, open_query sk c q = Ok (mkOpened dns secret (qc_query_plaintext ctx)) /\
    export_sender (qc_context ctx) RESPONSE_INFO 16 = Some secret.
Proof.
  intros KP SK H. apply seal_query_Ok in H as (k & enc & s & ct & s' & aad & K & S & P & A & C & -> & Ex & V).
  destruct (setup_pairs _ _ _ _ _ _ KP S) as (Le & Oe & r & Rr & Pr). destruct (open_seal _ _ _ _ _ _ Pr C) as (Nc & r' & Op & Pr').
  assert (0 <= 16 <= 255 * 32) as R16 by (split; discriminate). destruct (export_total r' RESPONSE_INFO 16 R16) as [secret Es]. exists secret. split; [|by rewrite Ex, (export_agrees _ _ _ _ Pr')].
  unfold open_query. cbn [om_message_type om_key_id om_encrypted_message]. rewrite K, bool_decide_eqb_refl. cbn [mbind result_bind].
  rewrite bool_decide_eqb_refl. cbn [assert_or mbind result_bind]. unfold X25519_ENCAPSULATED_KEY_SIZE. rewrite len_app, Le.
  apply len_nonzero in Nc. pose proof (len_nonneg ct). rewrite (proj2 (Z.leb_gt _ 32)) by lia. cbn [negb assert_or mbind result_bind].
  assert (length enc = 32%nat) as Ln by (unfold len in Le; lia). rewrite take_app_length', drop_app_length' by done. rewrite SK, Oe. cbn [assert_or mbind result_bind].
  rewrite Rr. cbn [ok_or mbind result_bind]. rewrite A. cbn [mbind result_bind]. rewrite Op. cbn [ok_or mbind result_bind].
  rewrite (decode_encode_plaintext dns 128 _ ltac:(lia) P). cbn [mbind result_bind]. by rewrite Es.
Qed.

Lemma open_sealed_response ctx secret dns response nonce block r :
  0 <= block -> len nonce = 16 -> export_sender (qc_context ctx) RESPONSE_INFO 16 = Some secret ->
  seal_response (mkOpened dns secret (qc_query_plaintext ctx)) response nonce block = Ok r ->
  OdohMessage_validate r = Ok tt /\ open_response ctx r = Ok response.
Proof.
  intros B Ln E H. unfold seal_response in H. apply bind_Ok in H as (u0 & _ & H). apply bind_Ok in H as (p & P & H).
  apply bind_Ok in H as ([key nn] & D & H). cbn [oq_response_secret oq_query_plaintext] in D. apply bind_Ok in H as (aad & A & H).
  apply bind_Ok in H as (em & G%ok_or_Ok & H). apply message_new_Ok in H as (-> & V). split; [done|]. unfold open_response.
  cbn [om_message_type om_key_id om_encrypted_message]. rewrite bool_decide_eqb_refl, Ln. cbn [Z.eqb Pos.eqb negb orb assert_or mbind result_bind].
  rewrite E. cbn [ok_or mbind result_bind]. rewrite D. cbn [mbind result_bind]. rewrite (aad_header _ _ em []), A. cbn [mbind result_bind].
  rewrite (gcm_open_seal _ _ _ _ _ G). cbn [ok_or mbind result_bind]. by eapply decode_encode_plaintext.
Qed.

Lemma valid_message_wire m :
  OdohMessage_validate m = Ok tt -> exists wire, OdohMessage_encode m = Ok wire /\ OdohMessage_decode wire = Ok m.
Proof.
  intros V. exists (message_bytes m). assert (OdohMessage_encode m = Ok (message_bytes m)) as E by by apply message_encode_Ok.
  split; [done|]. apply message_decode_Ok; [|done]. apply message_validate_Ok in V as (L1 & _ & L2).
  unfold message_bytes, tls_bytes. autorewrite with lens. unfold u16_max, isize_max in *. lia.
Qed.

(** C34. An oblivious DNS conversation is answered as it was asked. Whatever query a
    client seals for a target's configuration survives the wire and opens, with the
    target's private key, to the same DNS bytes; and whatever response the target
    then seals for that query, under any 16-byte nonce and padding block, survives
    the wire and opens, in the client's context, to the target's DNS bytes. *)
Theorem odoh_conversation entropy c dns q ctx sk
    (KP : keypair sk (cf_public_key c)) (SK : private_key_ok sk = true) (Q : seal_query entropy c dns = Ok (q, ctx)) :
  (exists wire, OdohMessage_encode q = Ok wire /\ OdohMessage_decode wire = Ok q) /\
  exists opened, open_query sk c q = Ok opened /\ oq_dns opened = dns /\
    forall response nonce block r, 0 <= block -> len nonce = 16 -> seal_response opened response nonce block = Ok r ->
      (exists wire, OdohMessage_encode r = Ok wire /\ OdohMessage_decode wire = Ok r) /\ open_response ctx r = Ok response.
Proof.
  destruct (open_sealed_query _ _ _ _ _ _ KP SK Q) as (secret & O & E). split.
  { apply valid_message_wire. by apply seal_query_Ok in Q as (? & ? & ? & ? & ? & ? & _ & _ & _ & _ & _ & _ & _ & V). }
  eexists. split; [exact O|]. split; [done|]. intros response nonce block r B Ln S.
  destruct (open_sealed_response _ _ _ _ _ _ _ B Ln E S) as (V & R). split; [by apply valid_message_wire|done].
Qed.
End odoh.

(** ** A concrete back end for examples: contexts count messages and ciphertexts carry
    their associated data and a tag byte *)
Definition toy_frame (aad m : list byte) : list byte := x55 :: tls_bytes aad ++ m.
Definition toy_unframe (aad c : list byte) : option (list byte) :=
  if bool_decide (take (length (toy_frame aad [])) c = toy_frame aad []) then Some (drop (length (toy_frame aad [])) c) else None.

Definition toy_hpke : Hpke := {|
  Entropy := byte; SenderContext := list byte * nat; ReceiverContext := list byte * nat;
  hkdf_expand := fun salt ikm info n => Some (replicate (Z.to_nat n) (z2b (len salt + len ikm + len info)));
  public_key_ok := fun k => len k =? 32;
  private_key_ok := fun k => len k =? 32;
  encapped_key_ok := fun k => len k =? 32;
  setup_sender := fun e pk info => Some (replicate 32 e, (pk ++ replicate 32 e ++ info, O));
  setup_receiver := fun sk enc info => Some (sk ++ enc ++ info, O);
  seal := fun s pt aad => Some (toy_frame aad pt, (s.1, S s.2));
  open_ := fun r ct aad => pt ← toy_unframe aad ct; Some (pt, (r.1, S r.2));
  export_sender := fun s info n => Some (replicate (Z.to_nat n) (z2b (len s.1 + len info)));
  export_receiver := fun r info n => Some (replicate (Z.to_nat n) (z2b (len r.1 + len info)));
  gcm_encrypt := fun _ _ m aad => Some (toy_frame aad m);
  gcm_decrypt := fun _ _ c aad => toy_unframe aad c;
|}.

Lemma toy_unframe_frame aad m : toy_unframe aad (toy_frame aad m) = Some m.
Proof.
  unfold toy_unframe. assert (toy_frame aad m = toy_frame aad [] ++ m) as -> by (unfold toy_frame; by rewrite app_nil_r).
  by rewrite take_app_length, bool_decide_eqb_refl, drop_app_length.
Qed.

Definition toy_hpke_laws : HpkeLaws toy_hpke.
Proof.
  refine (@Build_HpkeLaws toy_hpke (fun sk pk => sk = pk) (fun (s r : list byte * nat) => s = r) _ _ _ _ _); cbn.
  - intros e sk pk info enc s -> [= <- <-]. split; [done|]. split; [done|]. eexists. by split.
  - intros s r pt aad ct s' -> [= <- <-]. split; [done|]. rewrite toy_unframe_frame. cbn. by eexists.
  - by intros s r info n ->.
  - done.
  - intros k n m aad c [= <-]. apply toy_unframe_frame.
Defined.

Lemma sample_sealed : exists q ctx, @seal_query toy_hpke x07 (mkConfig (zeros 32)) [x01; x02] = Ok (q, ctx).
Proof.
  assert (match @seal_query toy_hpke x07 (mkConfig (zeros 32)) [x01; x02] with Ok _ => true | Err _ => false end = true) as H
    by (vm_compute; reflexivity).
  destruct (seal_query _ _ _) as [[q ctx]|]; [by exists q, ctx|done].
Qed.

Lemma odoh_conversation_witness :
  exists q ctx opened, @seal_query toy_hpke x07 (mkConfig (zeros 32)) [x01; x02] = Ok (q, ctx) /\
    @open_query toy_hpke (zeros 32) (mkConfig (zeros 32)) q = Ok opened /\ oq_dns opened = [x01; x02].
Proof.
  destruct sample_sealed as (q & ctx & Q).
  destruct (@odoh_conversation toy_hpke toy_hpke_laws x07 (mkConfig (zeros 32)) [x01; x02] q ctx (zeros 32) eq_refl eq_refl Q)
    as (_ & opened & O & D & _).
  exists q, ctx, opened. split; [exact Q|]. split; [exact O|exact D].
Defined.
