(* ===== verification/Text.v ===== *)
(** * ASCII text: what the parsers use of [str] and [char]

    Texts are their bytes. Prefixes, splitting, decimal numbers as [u32::from_str] reads
    and [Display] writes them, and the class of the third-party [hex] crate. *)

From S2P Require Import Prelude Encoding Cbor.
Local Open Scope Z_scope.

Definition is_ascii_text (s : list byte) : bool := forallb (fun b => b2z b <? 128) s.
Definition is_ascii_graphic (b : byte) : bool := in_range b 0x21 0x7e.
Definition is_ascii_digit (b : byte) : bool := in_range b 0x30 0x39.
Definition is_ascii_lowercase (b : byte) : bool := in_range b 0x61 0x7a.
Definition is_ascii_uppercase (b : byte) : bool := in_range b 0x41 0x5a.
Definition is_ascii_alphabetic (b : byte) : bool := is_ascii_lowercase b || is_ascii_uppercase b.
Definition is_ascii_alphanumeric (b : byte) : bool := is_ascii_alphabetic b || is_ascii_digit b.
Definition is_ascii_hexdigit (b : byte) : bool := is_ascii_digit b || in_range b 0x61 0x66 || in_range b 0x41 0x46.

Fixpoint strip_prefix (p s : list byte) : option (list byte) :=
  match p, s with
  | [], _ => Some s
  | a :: p, b :: s => if bool_decide (a = b) then strip_prefix p s else None
  | _ :: _, [] => None
  end.
Definition starts_with (p s : list byte) : bool := match strip_prefix p s with Some _ => true | None => false end.

(** [split_once]: around the first occurrence. *)
Fixpoint split_once (p s : list byte) : option (list byte * list byte) :=
  match strip_prefix p s with
  | Some after => Some ([], after)
  | None =>
    match s with
    | [] => None
    | b :: s => match split_once p s with Some (before, after) => Some (b :: before, after) | None => None end
    end
  end.

(** [split(c)]: the fields between the separators, never an empty list. *)
Fixpoint split_char (c : byte) (s : list byte) : list (list byte) :=
  match s with
  | [] => [[]]
  | b :: s =>
    if bool_decide (b = c) then [] :: split_char c s
    else match split_char c s with
         | f :: fs => (b :: f) :: fs
         | [] => [[b]]
         end
  end.

Definition contains_char (c : byte) (s : list byte) : bool := existsb (fun b => bool_decide (b = c)) s.

(** ** Decimal numbers *)
Definition digit_value (b : byte) : Z := b2z b - 0x30.
Definition digit (n : Z) : byte := z2b (0x30 + n).

(** [from_str] of an unsigned type: an optional plus sign, then digits, checked. *)
Fixpoint parse_digits (maximum acc : Z) (s : list byte) : option Z :=
  match s with
  | [] => Some acc
  | b :: s =>
    if is_ascii_digit b
    then product ← checked_mul maximum acc 10; acc ← checked_add maximum product (digit_value b); parse_digits maximum acc s
    else None
  end.
Definition parse_unsigned (maximum : Z) (s : list byte) : option Z :=
  match s with
  | [] => None
  | b :: rest =>
    if bool_decide (b = x2b) then match rest with [] => None | _ => parse_digits maximum 0 rest end
    else parse_digits maximum 0 s
  end.
Definition parse_u32 : list byte -> option Z := parse_unsigned u32_max.

(** [Display] of a number below [10 ^ (S fuel)]. *)
Fixpoint decimal_digits (fuel : nat) (n : Z) : list byte :=
  match fuel with
  | O => [digit n]
  | S fuel => if n <? 10 then [digit n] else decimal_digits fuel (n / 10) ++ [digit (n mod 10)]
  end.
Definition decimal (n : Z) : list byte := decimal_digits 20 n.

(** ** The [hex] crate *)
Definition is_lower_hex (b : byte) : bool := is_ascii_digit b || in_range b 0x61 0x66.

Class Hex := {
  hex_encode : list byte -> list byte;
  hex_decode : list byte -> option (list byte);
}.

(** [encode] writes two lowercase digits per byte, which [decode] reads back; [decode]
    reads every even run of lowercase digits, to the bytes that print so. *)
Class HexLaws {HX : Hex} := {
  hex_encode_digits : forall bs, len (hex_encode bs) = 2 * len bs /\ forallb is_lower_hex (hex_encode bs) = true;
  hex_decode_encode : forall bs, hex_decode (hex_encode bs) = Some bs;
  hex_decode_lower : forall s, forallb is_lower_hex s = true -> Z.even (len s) = true ->
    exists bs, hex_decode s = Some bs /\ hex_encode bs = s;
}.
Arguments HexLaws : clear implicits.

(** ** Lemmas *)
Lemma strip_prefix_Some p s r : strip_prefix p s = Some r <-> s = p ++ r.
Proof.
  revert s. induction p as [|a p IH]; intros s; cbn [strip_prefix app]; [split; [by intros [= ->]|by intros ->]|].
  destruct s as [|b s]; [done|]. destruct (bool_decide (a = b)) eqn:E; [|apply bool_decide_eq_false in E; split; [done|by intros [= -> ->]]].
  apply bool_decide_eq_true in E as ->. rewrite IH. split; [by intros ->|by intros [= ->]].
Qed.

Lemma strip_prefix_app p r : strip_prefix p (p ++ r) = Some r.
Proof. by apply strip_prefix_Some. Qed.

Lemma starts_with_spec p s : starts_with p s = true <-> exists r, s = p ++ r.
Proof.
  unfold starts_with. destruct (strip_prefix p s) as [r|] eqn:E.
  - apply strip_prefix_Some in E. split; [by exists r|done].
  - split; [done|]. intros (r & ->). by rewrite strip_prefix_app in E.
Qed.

Lemma split_once_Some p s before after : split_once p s = Some (before, after) -> s = before ++ p ++ after.
Proof.
  revert before. induction s as [|b s IH]; intros before H.
  - cbn in H. destruct (strip_prefix p []) as [r|] eqn:E; [|done]. injection H as <- <-. by apply strip_prefix_Some in E.
  - cbn [split_once] in H. destruct (strip_prefix p (b :: s)) as [r|] eqn:E; [injection H as <- <-; by apply strip_prefix_Some in E|].
    destruct (split_once p s) as [[before' after']|] eqn:R; [|done]. injection H as <- <-. cbn. by rewrite <- (IH _ eq_refl).
Qed.

(** The needle starts with a byte that occurs nowhere before it. *)
Lemma split_once_app c p before after :
  contains_char c before = false -> split_once (c :: p) (before ++ (c :: p) ++ after) = Some (before, after).
Proof.
  induction before as [|b before IH]; intros N.
  - cbn [app]. unfold split_once. destruct ((c :: p) ++ after) as [|x l] eqn:E; [done|]. change (c :: p ++ after) with ((c :: p) ++ after).
    by rewrite strip_prefix_app.
  - cbn [contains_char existsb] in N. apply orb_false_iff in N as [N1 N2]. cbn [app split_once strip_prefix].
    rewrite bool_decide_eq_false in N1. rewrite (bool_decide_eq_false_2 (c = b)) by congruence. change (c :: p ++ after) with ((c :: p) ++ after).
    by rewrite (IH N2).
Qed.

Lemma split_once_None c p s : contains_char c s = false -> split_once (c :: p) s = None.
Proof.
  induction s as [|b s IH]; intros N; [done|]. cbn [contains_char existsb] in N. apply orb_false_iff in N as [N1 N2].
  rewrite bool_decide_eq_false in N1. cbn [split_once strip_prefix]. rewrite (bool_decide_eq_false_2 (c = b)) by congruence. by rewrite IH.
Qed.

Lemma contains_char_app c a b : contains_char c (a ++ b) = contains_char c a || contains_char c b.
Proof. apply existsb_app. Qed.

Lemma contains_char_forallb c (f : byte -> bool) s : f c = false -> forallb f s = true -> contains_char c s = false.
Proof.
  intros Fc. induction s as [|b s IH]; [done|]. cbn [forallb]. intros (Hb & Hs)%andb_true_iff.
  change (contains_char c (b :: s)) with (bool_decide (b = c) || contains_char c s). rewrite (IH Hs), orb_false_r.
  apply bool_decide_eq_false. by intros ->; rewrite Fc in Hb.
Qed.

Lemma split_char_nonempty c s : split_char c s <> [].
Proof. destruct s as [|b s]; [done|]. cbn. destruct (bool_decide _); [done|]. by destruct (split_char c s). Qed.

Lemma split_char_app c f s : contains_char c f = false -> split_char c (f ++ c :: s) = f :: split_char c s.
Proof.
  induction f as [|b f IH]; intros N; cbn [app split_char].
  - by rewrite bool_decide_eqb_refl.
  - cbn [contains_char existsb] in N. apply orb_false_iff in N as [-> N]. by rewrite (IH N).
Qed.

Lemma split_char_last c f : contains_char c f = false -> split_char c f = [f].
Proof.
  induction f as [|b f IH]; intros N; [done|]. cbn [contains_char existsb] in N. apply orb_false_iff in N as [N1 N2].
  cbn [split_char]. by rewrite N1, (IH N2).
Qed.

(** Splitting loses nothing: the fields joined by the separator are the text. *)
Lemma split_char_cons c s f fs :
  split_char c s = f :: fs -> contains_char c f = false /\
  match fs with [] => s = f | _ => exists r, s = f ++ c :: r /\ split_char c r = fs end.
Proof.
  revert f. induction s as [|b s IH]; intros f H; cbn [split_char] in H; [by injection H as <- <-|].
  destruct (bool_decide (b = c)) eqn:E.
  - apply bool_decide_eq_true in E as ->. injection H as <- <-. split; [done|]. pose proof (split_char_nonempty c s).
    destruct (split_char c s) as [|g gs] eqn:S; [done|]. exists s. by rewrite S.
  - destruct (split_char c s) as [|g gs] eqn:S; [by destruct (split_char_nonempty c s)|]. injection H as <- <-.
    destruct (IH g eq_refl) as (N & R). split; [cbn; by rewrite E|]. destruct gs as [|g' gs]; [by subst|].
    destruct R as (r & -> & Rr). by exists r.
Qed.

(** ** Decimal numbers, read and written *)
Definition dec_value (acc : Z) (s : list byte) : Z := fold_left (fun acc b => 10 * acc + digit_value b) s acc.

Lemma digit_value_range b : is_ascii_digit b = true -> 0 <= digit_value b <= 9.
Proof. unfold is_ascii_digit, in_range, digit_value. rewrite andb_true_iff, !Z.leb_le. lia. Qed.

Lemma digit_digit_value b : is_ascii_digit b = true -> digit (digit_value b) = b.
Proof. intros H. unfold digit, digit_value. rewrite Z.add_sub_assoc, Z.add_simpl_l. apply z2b_b2z. Qed.

Lemma digit_ok n : 0 <= n <= 9 -> is_ascii_digit (digit n) = true /\ digit_value (digit n) = n.
Proof.
  intros H. unfold is_ascii_digit, in_range, digit_value, digit. rewrite b2z_z2b, Z.mod_small by lia.
  rewrite andb_true_iff, !Z.leb_le. lia.
Qed.

Lemma dec_value_ge acc s : 0 <= acc -> forallb is_ascii_digit s = true -> acc <= dec_value acc s.
Proof.
  revert acc. induction s as [|b s IH]; intros acc A F; [cbn; lia|]. cbn [forallb] in F. apply andb_true_iff in F as (Fb%digit_value_range & F).
  cbn [dec_value fold_left]. specialize (IH (10 * acc + digit_value b) ltac:(lia) F). unfold dec_value in IH. lia.
Qed.

Lemma dec_value_snoc acc s b : dec_value acc (s ++ [b]) = 10 * dec_value acc s + digit_value b.
Proof. unfold dec_value. by rewrite fold_left_app. Qed.

Lemma parse_digits_Some maximum acc s n :
  0 <= acc <= maximum ->
  parse_digits maximum acc s = Some n <-> forallb is_ascii_digit s = true /\ n = dec_value acc s /\ n <= maximum.
Proof.
  revert acc. induction s as [|b s IH]; intros acc A; cbn [parse_digits forallb].
  - split; [intros [= <-]; split; [done|]; split; [done|lia]|]. by intros (_ & -> & _).
  - destruct (is_ascii_digit b) eqn:D; cbn [andb]; [|by split; [|intros (? & _)]]. pose proof (digit_value_range _ D).
    assert (0 <= 10 * acc + digit_value b) by lia.
    unfold checked_mul, checked_add. destruct (Z.leb_spec (acc * 10) maximum) as [M|M]; cbn [mbind option_bind].
    + destruct (Z.leb_spec (acc * 10 + digit_value b) maximum) as [M2|M2]; cbn [mbind option_bind].
      * rewrite IH by lia. change (dec_value acc (b :: s)) with (dec_value (10 * acc + digit_value b) s). by rewrite (Z.mul_comm acc 10).
      * split; [done|]. intros (F & -> & Le). pose proof (dec_value_ge (10 * acc + digit_value b) s ltac:(lia) F).
        unfold dec_value in *. cbn [fold_left] in Le. lia.
    + split; [done|]. intros (F & -> & Le). pose proof (dec_value_ge (10 * acc + digit_value b) s ltac:(lia) F).
      unfold dec_value in *. cbn [fold_left] in Le. lia.
Qed.

(** A canonical decimal: digits with no leading zero. *)
Definition canonical_digits (s : list byte) : Prop :=
  forallb is_ascii_digit s = true /\ s <> [] /\ (head s = Some x30 -> s = [x30]).

Lemma dec_value_pos b s : forallb is_ascii_digit (b :: s) = true -> b <> x30 -> 0 < dec_value 0 (b :: s).
Proof.
  intros F N. cbn [forallb] in F. apply andb_true_iff in F as (Fb & F). pose proof (digit_value_range _ Fb).
  change (dec_value 0 (b :: s)) with (dec_value (digit_value b) s). pose proof (dec_value_ge (digit_value b) s ltac:(lia) F).
  destruct (Z.eq_dec (digit_value b) 0) as [Z0|Z0]; [|lia]. destruct N. by rewrite <- (digit_digit_value b Fb), Z0.
Qed.

Lemma digits_split n : 10 <= n -> n = 10 * (n / 10) + n mod 10 /\ 0 <= n mod 10 <= 9 /\ 1 <= n / 10.
Proof. intros H. pose proof (Z.div_mod n 10 ltac:(lia)). pose proof (Z.mod_pos_bound n 10 ltac:(lia)). lia. Qed.

Lemma decimal_digits_ok fuel n :
  0 <= n < 10 ^ Z.of_nat (S fuel) ->
  canonical_digits (decimal_digits fuel n) /\ dec_value 0 (decimal_digits fuel n) = n.
Proof.
  revert n. induction fuel as [|fuel IH]; intros n H.
  - cbn [decimal_digits]. replace (10 ^ Z.of_nat 1) with 10 in H by done. destruct (digit_ok n ltac:(lia)) as (D & V).
    split; [|cbn; by rewrite V]. split; [cbn; by rewrite D|]. split; [done|]. by intros [= ->].
  - cbn [decimal_digits]. destruct (Z.ltb_spec n 10) as [Sm|Sm].
    + destruct (digit_ok n ltac:(lia)) as (D & V). split; [|cbn; by rewrite V]. split; [cbn; by rewrite D|]. split; [done|]. by intros [= ->].
    + destruct (digits_split n Sm) as (E & M & Q). rewrite Nat2Z.inj_succ, Z.pow_succ_r in H by lia.
      assert (0 <= n / 10 < 10 ^ Z.of_nat (S fuel)) as R by lia.
      destruct (IH _ R) as ((F & N & C) & V). destruct (digit_ok (n mod 10) M) as (D & W).
      rewrite dec_value_snoc, V, W. split; [|lia]. split; [rewrite forallb_app, F; cbn; by rewrite D|]. split; [by destruct (decimal_digits _ _)|].
      intros Hd. exfalso. destruct (decimal_digits fuel (n / 10)) as [|b l]; [done|]. cbn [head app] in *. rewrite (C Hd) in V.
      change (dec_value 0 [x30]) with 0 in V. lia.
Qed.

(** The digits before the last of a canonical decimal. *)
Lemma canonical_snoc s d :
  canonical_digits (s ++ [d]) ->
  is_ascii_digit d = true /\ forallb is_ascii_digit s = true /\ (s = [] \/ canonical_digits s /\ 0 < dec_value 0 s).
Proof.
  intros (F & _ & C). rewrite forallb_app in F. apply andb_true_iff in F as (F & Fd). cbn [forallb] in Fd. rewrite andb_true_r in Fd.
  split; [done|]. split; [done|]. destruct s as [|b s]; [by left|right]. cbn [head app] in C.
  assert (b <> x30) as N by (intros ->; specialize (C eq_refl); injection C as C; by destruct s).
  split; [split; [done|]; split; [done|]; by intros [= ->]|by apply dec_value_pos].
Qed.

(** A number has one canonical decimal. *)
Lemma decimal_digits_unique fuel s :
  canonical_digits s -> dec_value 0 s < 10 ^ Z.of_nat (S fuel) -> s = decimal_digits fuel (dec_value 0 s).
Proof.
  revert s. induction fuel as [|fuel IH]; intros s C L; pose proof C as (_ & N & _);
    destruct (exists_last N) as (s' & d & ->); apply canonical_snoc in C as (Fd & F & C); rewrite dec_value_snoc in *;
    pose proof (digit_value_range d Fd) as Rd; cbn [decimal_digits].
  - replace (10 ^ Z.of_nat 1) with 10 in L by done. destruct C as [->|(_ & P)]; [|lia].
    change (dec_value 0 []) with 0. rewrite Z.mul_0_r, Z.add_0_l, digit_digit_value by done. done.
  - destruct C as [->|(C & P)].
    + change (dec_value 0 []) with 0. rewrite Z.mul_0_r, Z.add_0_l. rewrite (proj2 (Z.ltb_lt _ _)), digit_digit_value by (done || lia). done.
    + rewrite (proj2 (Z.ltb_ge _ 10)) by lia. rewrite Nat2Z.inj_succ, Z.pow_succ_r in L by lia. set (v := dec_value 0 s') in *.
      assert ((10 * v + digit_value d) / 10 = v) as Eq by (symmetry; eapply (Z.div_unique _ _ _ (digit_value d)); lia).
      assert ((10 * v + digit_value d) mod 10 = digit_value d) as Em by (symmetry; eapply (Z.mod_unique _ _ v); lia).
      rewrite Eq, Em, digit_digit_value by done. subst v. rewrite <- IH; [done|done|lia].
Qed.

Lemma parse_decimal maximum n : maximum < 10 ^ 21 -> 0 <= n <= maximum -> parse_unsigned maximum (decimal n) = Some n.
Proof.
  intros M H. destruct (decimal_digits_ok 20 n) as ((F & N & _) & V); [change (Z.of_nat 21) with 21; lia|].
  unfold parse_unsigned, decimal. destruct (decimal_digits 20 n) as [|b s] eqn:E; [done|].
  assert (b <> x2b) as Nb by (intros ->; cbn in F; done). rewrite bool_decide_eq_false_2 by done.
  apply parse_digits_Some; [lia|]. split; [done|]. split; [done|lia].
Qed.

Lemma parse_canonical maximum s n :
  0 <= maximum < 10 ^ 21 -> canonical_digits s -> parse_unsigned maximum s = Some n -> s = decimal n /\ 0 <= n <= maximum.
Proof.
  intros M C H. pose proof C as (F & N & _). unfold parse_unsigned in H. destruct s as [|b s]; [done|].
  assert (b <> x2b) as Nb by (intros ->; cbn in F; done). rewrite bool_decide_eq_false_2 in H by done.
  apply parse_digits_Some in H as (_ & -> & Le); [|lia]. pose proof (dec_value_ge 0 (b :: s) ltac:(lia) F).
  split; [|lia]. apply decimal_digits_unique; [done|]. change (Z.of_nat 21) with 21. lia.
Qed.

(** ** A concrete [hex] for examples *)
Definition nibble_char (n : Z) : byte := if n <? 10 then z2b (0x30 + n) else z2b (0x57 + n).
Definition nibble_value (b : byte) : option Z :=
  if is_ascii_digit b then Some (b2z b - 0x30)
  else if in_range b 0x61 0x66 then Some (b2z b - 0x57)
  else if in_range b 0x41 0x46 then Some (b2z b - 0x37) else None.

Fixpoint plain_hex_encode (bs : list byte) : list byte :=
  match bs with [] => [] | b :: bs => nibble_char (b2z b / 16) :: nibble_char (b2z b mod 16) :: plain_hex_encode bs end.
Fixpoint plain_hex_decode (s : list byte) : option (list byte) :=
  match s with
  | [] => Some []
  | [_] => None
  | h :: l :: s =>
    high ← nibble_value h; low ← nibble_value l; rest ← plain_hex_decode s; Some (z2b (16 * high + low) :: rest)
  end.
Definition plain_hex : Hex := {| hex_encode := plain_hex_encode; hex_decode := plain_hex_decode |}.

Lemma nibble_char_ok n : 0 <= n < 16 -> is_lower_hex (nibble_char n) = true /\ nibble_value (nibble_char n) = Some n.
Proof.
  intros H. assert (n ∈ [0; 1; 2; 3; 4; 5; 6; 7; 8; 9; 10; 11; 12; 13; 14; 15]) as E by (rewrite !elem_of_cons; lia).
  repeat (apply elem_of_cons in E as [->|E]; [by split|]). by apply elem_of_nil in E.
Qed.

Lemma nibble_chars b :
  is_lower_hex (nibble_char (b2z b / 16)) = true /\ is_lower_hex (nibble_char (b2z b mod 16)) = true /\
  nibble_value (nibble_char (b2z b / 16)) = Some (b2z b / 16) /\ nibble_value (nibble_char (b2z b mod 16)) = Some (b2z b mod 16).
Proof.
  pose proof (b2z_range b). pose proof (Z.mod_pos_bound (b2z b) 16 ltac:(lia)). pose proof (Z.div_mod (b2z b) 16 ltac:(lia)).
  destruct (nibble_char_ok (b2z b / 16)) as (-> & ->); [lia|]. by destruct (nibble_char_ok (b2z b mod 16)) as (-> & ->).
Qed.

Lemma nibble_values c : is_lower_hex c = true -> exists v, nibble_value c = Some v /\ 0 <= v < 16 /\ nibble_char v = c.
Proof.
  unfold is_lower_hex, nibble_value. destruct (is_ascii_digit c) eqn:D; cbn [orb].
  - intros _. exists (b2z c - 0x30). unfold is_ascii_digit, in_range in D. rewrite andb_true_iff, !Z.leb_le in D.
    split; [done|]. split; [lia|]. unfold nibble_char. rewrite (proj2 (Z.ltb_lt _ _)) by lia.
    rewrite Z.add_sub_assoc, Z.add_simpl_l. apply z2b_b2z.
  - intros L. rewrite L. exists (b2z c - 0x57). unfold in_range in L. rewrite andb_true_iff, !Z.leb_le in L.
    split; [done|]. split; [lia|]. unfold nibble_char. rewrite (proj2 (Z.ltb_ge _ _)) by lia.
    rewrite Z.add_sub_assoc, Z.add_simpl_l. apply z2b_b2z.
Qed.

Lemma plain_hex_laws : HexLaws plain_hex.
Proof.
  split; cbn [plain_hex hex_encode hex_decode].
  - induction bs as [|b bs (L & F)]; [done|]. cbn [plain_hex_encode forallb]. destruct (nibble_chars b) as (-> & -> & _).
    rewrite !len_cons, L. split; [lia|done].
  - induction bs as [|b bs IH]; [done|]. cbn [plain_hex_encode plain_hex_decode]. destruct (nibble_chars b) as (_ & _ & -> & ->).
    cbn [mbind option_bind]. rewrite IH. cbn [mbind option_bind]. rewrite <- Z.div_mod by lia. by rewrite z2b_b2z.
  - intros s. remember (length s) as n eqn:En. assert (length s <= n)%nat as L by lia. clear En. revert s L.
    induction n as [|n IH]; intros s L F E; [by destruct s; [exists []|cbn in L; lia]|].
    destruct s as [|h [|l s]]; [by exists []|done|]. cbn [forallb] in F. apply andb_true_iff in F as (Fh & F). apply andb_true_iff in F as (Fl & F).
    destruct (nibble_values h Fh) as (vh & Eh & Rh & Ch). destruct (nibble_values l Fl) as (vl & El & Rl & Cl).
    destruct (IH s) as (bs & D & P); [cbn in L; lia|done| |].
    { rewrite !len_cons in E. replace (1 + (1 + len s)) with (len s + 2 * 1) in E by lia. by rewrite Z.even_add_mul_2 in E. }
    exists (z2b (16 * vh + vl) :: bs). cbn [plain_hex_decode plain_hex_encode]. rewrite Eh, El, D. split; [done|].
    rewrite b2z_z2b, (Z.mod_small _ 256), P by lia. rewrite (Z.mul_comm 16 vh), Z.div_add_l, Z.div_small, Z.add_0_r by lia.
    rewrite Z.add_comm, Z.mod_add, Z.mod_small by lia. by rewrite Ch, Cl.
Qed.

Lemma ascii_utf8 s : is_ascii_text s = true -> from_utf8_ok s = true.
Proof.
  unfold from_utf8_ok. induction s as [|b s IH]; [done|]. cbn [is_ascii_text forallb utf8_from]. intros (Hb & Hs)%andb_true_iff.
  pose proof (b2z_range b). apply Z.ltb_lt in Hb. unfold in_range. rewrite (proj2 (Z.leb_le 0 _)), (proj2 (Z.leb_le _ 0x7f)) by lia. by apply IH.
Qed.
