(* ===== verification/ServiceAuthority.v ===== *)
(** * hns-service-authority: authority records, authorizations and delegations

    Models [crates/hns-service-authority/src/lib.rs]: the [hsa1] record of a name's
    root key, the authorization of a service key by that root, the delegation of an
    endpoint key by the service key, their codecs, signatures and selection, and the
    base-32 coding of keys. secp256k1 is class [K256]; DER and secret-key parsing are
    class [KeyCodec]. *)

From S2P Require Import Prelude Encoding Primitives Covenants Transaction Script Interpreter K256 Cbor Text.
Local Open Scope Z_scope.

Definition SERVICE_AUTH_DOMAIN : list byte := bstr "HNS-SERVICE-AUTH-V1" ++ [x00].
Definition SERVICE_AUTH_ID_DOMAIN : list byte := bstr "HNS-SERVICE-AUTH-ID-V1" ++ [x00].
Definition ENDPOINT_DELEGATION_DOMAIN : list byte := bstr "HNS-ENDPOINT-DELEGATION-V1" ++ [x00].
Definition ENDPOINT_DELEGATION_ID_DOMAIN : list byte := bstr "HNS-ENDPOINT-DELEGATION-ID-V1" ++ [x00].
Definition BASE32 : list byte := bstr "abcdefghijklmnopqrstuvwxyz234567".
Definition COMPRESSED_KEY_BASE32_LENGTH : Z := 53.
Definition AUTHORITY_VERSION : Z := 1.
Definition MIN_ENDPOINT_LIFETIME : Z := 300.
Definition MAX_ENDPOINT_LIFETIME : Z := 604800.
Definition MAX_SERVICE_NAME : Z := 63.
Definition MAX_SIGNATURE_SIZE : Z := 80.
Definition MAX_SERVICE_AUTHORIZATION_SIZE : Z := 256.
Definition MAX_ENDPOINT_DELEGATION_SIZE : Z := 256.
Definition MAX_SERVICE_AUTHORIZATION_CANDIDATES : Z := 16.
Definition MAX_ENDPOINT_DELEGATION_CANDIDATES : Z := 32.

Inductive AuthorityError :=
| AuthDecode (e : DecodeError)
| AuthInvalid (reason : string)
| AuthCryptography
| AuthMissing
| AuthAmbiguous
| AuthConflictingSequence.

(** ** Base 32

    [buffer] is a [u16]: shifting left drops the bits above it. *)
Definition base32_char (v : Z) : byte := default x00 (BASE32 !! Z.to_nat v).

(** The inner [while]; [bits] is below 13, so two steps are enough. *)
Fixpoint base32_emit (fuel : nat) (buffer bits : Z) (output : list byte) : Z * list byte :=
  match fuel with
  | O => (bits, output)
  | S fuel =>
    if 5 <=? bits
    then base32_emit fuel buffer (bits - 5) (output ++ [base32_char (Z.land (Z.shiftr buffer (bits - 5)) 31)])
    else (bits, output)
  end.

Definition base32_push (st : Z * Z * list byte) (b : byte) : Z * Z * list byte :=
  let '(buffer, bits, output) := st in
  let buffer := Z.lor (wrap 16 (Z.shiftl buffer 8)) (b2z b) in
  let '(bits, output) := base32_emit 2 buffer (bits + 8) output in
  (buffer, bits, output).

Definition encode_base32 (input : list byte) : list byte :=
  let '(buffer, bits, output) := foldl base32_push (0, 0, []) input in
  if bits =? 0 then output
  else output ++ [base32_char (Z.land (wrap 16 (Z.shiftl buffer (5 - bits))) 31)].

(** [iter().position]. *)
Fixpoint byte_position (b : byte) (l : list byte) : option Z :=
  match l with
  | [] => None
  | c :: l => if bool_decide (c = b) then Some 0 else Z.succ <$> byte_position b l
  end.

Definition base32_pull (st : Z * Z * list byte) (b : byte) : result AuthorityError (Z * Z * list byte) :=
  let '(buffer, bits, output) := st in
  value ← ok_or (byte_position b BASE32) (AuthInvalid "invalid lowercase base32");
  let buffer := Z.lor (wrap 16 (Z.shiftl buffer 5)) value in
  let bits := bits + 5 in
  if 8 <=? bits
  then let bits := bits - 8 in
       Ok (Z.land buffer (Z.shiftl 1 bits - 1), bits, output ++ [z2b (wrap 8 (Z.shiftr buffer bits))])
  else Ok (buffer, bits, output).

Definition decode_base32 (input : list byte) : result AuthorityError (list byte) :=
  '(buffer, bits, output) ← try_fold base32_pull (0, 0, []) input;
  assert_or (negb (negb (bits =? 0) && negb (buffer =? 0))) (AuthInvalid "nonzero base32 padding bits") ;;
  Ok output.

(** ** Keys and signatures *)
Record AuthorityRecord := mkAuthority { ar_root_key : list byte; ar_epoch : Z }.
#[global] Instance AuthorityRecord_eq_dec : EqDecision AuthorityRecord.
Proof. solve_decision. Defined.

Record ServiceIdentity := mkIdentity {
  si_network_magic : Z;
  si_name_hash : list byte;
  si_service_name : list byte;
  si_profile_id : Z;
}.
#[global] Instance ServiceIdentity_eq_dec : EqDecision ServiceIdentity.
Proof. solve_decision. Defined.

Definition validate_service_name (name : list byte) : result AuthorityError unit :=
  assert_or (negb (negb ((1 <=? len name) && (len name <=? MAX_SERVICE_NAME)) ||
                   bool_decide (head name = Some x2d) || bool_decide (last name = Some x2d) ||
                   negb (forallb (fun b => is_ascii_lowercase b || is_ascii_digit b || bool_decide (b = x2d)) name)))
    (AuthInvalid "noncanonical service name").

Definition ServiceIdentity_validate (i : ServiceIdentity) : result AuthorityError unit :=
  validate_service_name (si_service_name i).

Definition encode_signature (e : Encoder) (signature : list byte) : result AuthorityError Encoder :=
  assert_or (negb ((len signature =? 0) || (MAX_SIGNATURE_SIZE <? len signature))) (AuthInvalid "invalid signature length") ;;
  Ok (put_bytes (put_u8 e (z2b (len signature))) signature).

Definition decode_signature : decM AuthorityError (list byte) :=
  length_byte ← lift_err AuthDecode read_u8;
  let length := b2z length_byte in
  lift_res (assert_or ((1 <=? length) && (length <=? MAX_SIGNATURE_SIZE)) (AuthInvalid "invalid signature length")) ;;
  lift_err AuthDecode (read_bounded_vec length MAX_SIGNATURE_SIZE).

Record ServiceAuthorizationV1 := mkAuthorization {
  sa_network_magic : Z;
  sa_name_hash : list byte;
  sa_authority_epoch : Z;
  sa_service_name : list byte;
  sa_profile_id : Z;
  sa_service_key : list byte;
  sa_flags : Z;
  sa_serial : Z;
  sa_valid_from_height : Z;
  sa_valid_until_height : Z;
  sa_max_endpoint_lifetime : Z;
  sa_root_signature : list byte;
}.
#[global] Instance ServiceAuthorizationV1_eq_dec : EqDecision ServiceAuthorizationV1.
Proof. solve_decision. Defined.

Definition ServiceAuthorizationV1_identity (a : ServiceAuthorizationV1) : ServiceIdentity :=
  mkIdentity (sa_network_magic a) (sa_name_hash a) (sa_service_name a) (sa_profile_id a).

Record EndpointDelegationV1 := mkDelegation {
  ed_network_magic : Z;
  ed_authorization_id : list byte;
  ed_endpoint_key : list byte;
  ed_endpoint_sequence : Z;
  ed_issued_at : Z;
  ed_expires_at : Z;
  ed_capabilities : Z;
  ed_constraints_hash : list byte;
  ed_service_signature : list byte;
}.
#[global] Instance EndpointDelegationV1_eq_dec : EqDecision EndpointDelegationV1.
Proof. solve_decision. Defined.

(** ** Selection *)
Section select.
Context {T : Type} (is_candidate : T -> bool) (sequence : T -> Z) (encode : T -> result AuthorityError (list byte)).

(** The body of the loop: the guards of the [match] are tried in order. *)
Definition select_step (selected : option T) (candidate : T) : result AuthorityError (option T) :=
  if negb (is_candidate candidate) then Ok selected
  else match selected with
       | None => Ok (Some candidate)
       | Some current =>
         if sequence current <? sequence candidate then Ok (Some candidate)
         else if sequence candidate =? sequence current
         then a ← encode candidate; b ← encode current;
              if bool_decide (a = b) then Ok selected else Err AuthConflictingSequence
         else Ok selected
       end.

Definition select_by_sequence (candidates : list T) (maximum : Z) : result AuthorityError T :=
  let candidates := take (Z.to_nat (saturating_add usize_max maximum 1)) candidates in
  assert_or (len candidates <=? maximum) (AuthInvalid "too many authorization candidates") ;;
  selected ← try_fold select_step None candidates;
  ok_or selected AuthMissing.
End select.

Section keys.
Context {CR : Crypto} {KC : K256} {KD : KeyCodec KC}.

Definition validate_public_key (key : list byte) : result AuthorityError unit :=
  assert_or (sec1_key_ok key) (AuthInvalid "invalid compressed secp256k1 public key").

Definition authority_blake2b_256 (parts : list (list byte)) : list byte := blake2b 32 (mjoin parts).

Definition signing_key (private_key : list byte) : result AuthorityError SigningKey :=
  ok_or (signing_key_from_bytes private_key) AuthCryptography.

Definition public_key (private_key : list byte) : result AuthorityError (list byte) :=
  key ← signing_key private_key;
  assert_or (len (verifying_key key) =? 33) AuthCryptography ;;
  Ok (verifying_key key).

Definition authority_sign (domain message private_key : list byte) : result AuthorityError (list byte) :=
  let digest := authority_blake2b_256 [domain; message] in
  key ← signing_key private_key;
  signature ← ok_or (sign_prehash key digest) AuthCryptography;
  Ok (to_der (default signature (normalize_s signature))).

Definition authority_verify (domain message signature public_key : list byte) : result AuthorityError unit :=
  validate_public_key public_key ;;
  assert_or (negb ((len signature =? 0) || (MAX_SIGNATURE_SIZE <? len signature))) (AuthInvalid "invalid signature length") ;;
  signature ← ok_or (from_der signature) AuthCryptography;
  assert_or (negb (is_high signature)) AuthCryptography ;;
  let digest := authority_blake2b_256 [domain; message] in
  assert_or (sec1_key_ok public_key) AuthCryptography ;;
  assert_or (verify_prehash public_key digest signature) AuthCryptography.

(** ** Authority records *)
Definition AuthorityRecord_parse (text : list byte) : result AuthorityError AuthorityRecord :=
  assert_or (negb (negb (is_ascii_text text) || existsb (fun b => negb (is_ascii_graphic b) && negb (bool_decide (b = x20))) text))
    (AuthInvalid "non-printable hsa1 record") ;;
  let fields := split_char x20 text in
  assert_or (bool_decide (head fields = Some (bstr "hsa1"))) (AuthInvalid "invalid hsa1 marker") ;;
  key ← ok_or (field ← fields !! 1%nat; strip_prefix (bstr "k=") field) (AuthInvalid "invalid hsa1 key field");
  epoch ← ok_or (field ← fields !! 2%nat; strip_prefix (bstr "e=") field) (AuthInvalid "invalid hsa1 epoch field");
  assert_or (bool_decide (fields !! 3%nat = None) && negb (len key =? 0) && negb (len epoch =? 0)) (AuthInvalid "invalid hsa1 field count") ;;
  assert_or (negb ((1 <? len epoch) && bool_decide (head epoch = Some x30))) (AuthInvalid "noncanonical hsa1 epoch") ;;
  epoch ← ok_or (parse_u32 epoch) (AuthInvalid "invalid hsa1 epoch");
  assert_or (len key =? COMPRESSED_KEY_BASE32_LENGTH) (AuthInvalid "invalid hsa1 key length") ;;
  decoded_key ← decode_base32 key;
  assert_or (bool_decide (encode_base32 decoded_key = key)) (AuthInvalid "noncanonical hsa1 key encoding") ;;
  assert_or (len decoded_key =? 33) (AuthInvalid "invalid hsa1 key length") ;;
  validate_public_key decoded_key ;;
  Ok (mkAuthority decoded_key epoch).

Definition AuthorityRecord_encode (r : AuthorityRecord) : result AuthorityError (list byte) :=
  validate_public_key (ar_root_key r) ;;
  Ok (bstr "hsa1 k=" ++ encode_base32 (ar_root_key r) ++ bstr " e=" ++ decimal (ar_epoch r)).

Definition select_record_step (selected : option AuthorityRecord) (record : list byte) : result AuthorityError (option AuthorityRecord) :=
  if negb (bool_decide (record = bstr "hsa1")) && negb (starts_with (bstr "hsa1 ") record) then Ok selected
  else parsed ← AuthorityRecord_parse record;
       match selected with
       | Some _ => Err AuthAmbiguous
       | None => Ok (Some parsed)
       end.

Definition select_authority_record (records : list (list byte)) : result AuthorityError AuthorityRecord :=
  selected ← try_fold select_record_step None records;
  ok_or selected AuthMissing.

(** ** Service authorizations *)
Definition ServiceAuthorizationV1_encode_unsigned (a : ServiceAuthorizationV1) : result AuthorityError (list byte) :=
  validate_service_name (sa_service_name a) ;;
  validate_public_key (sa_service_key a) ;;
  let service_name := sa_service_name a in
  let e := put_u8 (with_capacity (96 + len service_name)) (z2b AUTHORITY_VERSION) in
  let e := put_u32_le e (sa_network_magic a) in
  let e := put_bytes e (sa_name_hash a) in
  let e := put_u32_le e (sa_authority_epoch a) in
  let e := put_u8 e (z2b (len service_name)) in
  let e := put_bytes e service_name in
  let e := put_u16_le e (sa_profile_id a) in
  let e := put_bytes e (sa_service_key a) in
  let e := put_u16_le e (sa_flags a) in
  let e := put_u64_le e (sa_serial a) in
  let e := put_u32_le e (sa_valid_from_height a) in
  let e := put_u32_le e (sa_valid_until_height a) in
  Ok (into_bytes (put_u32_le e (sa_max_endpoint_lifetime a))).

Definition with_root_signature (a : ServiceAuthorizationV1) (s : list byte) : ServiceAuthorizationV1 :=
  mkAuthorization (sa_network_magic a) (sa_name_hash a) (sa_authority_epoch a) (sa_service_name a) (sa_profile_id a)
    (sa_service_key a) (sa_flags a) (sa_serial a) (sa_valid_from_height a) (sa_valid_until_height a)
    (sa_max_endpoint_lifetime a) s.

Definition ServiceAuthorizationV1_sign (a : ServiceAuthorizationV1) (private_key : list byte)
  : result AuthorityError ServiceAuthorizationV1 :=
  unsigned ← ServiceAuthorizationV1_encode_unsigned a;
  signature ← authority_sign SERVICE_AUTH_DOMAIN (drop 1 unsigned) private_key;
  Ok (with_root_signature a signature).

Definition ServiceAuthorizationV1_verify (a : ServiceAuthorizationV1) (authority : AuthorityRecord) (identity : ServiceIdentity)
    (current_height allowed_flags : Z) : result AuthorityError unit :=
  ServiceIdentity_validate identity ;;
  assert_or (negb (negb (bool_decide (ServiceAuthorizationV1_identity a = identity)) || (sa_profile_id a =? 0) ||
                   negb (sa_authority_epoch a =? ar_epoch authority) ||
                   negb (Z.land (sa_flags a) (u16_max - allowed_flags) =? 0) || (sa_serial a =? 0) ||
                   (sa_valid_until_height a <=? sa_valid_from_height a) || (current_height <? sa_valid_from_height a) ||
                   (sa_valid_until_height a <=? current_height) ||
                   negb ((MIN_ENDPOINT_LIFETIME <=? sa_max_endpoint_lifetime a) &&
                         (sa_max_endpoint_lifetime a <=? MAX_ENDPOINT_LIFETIME))))
    (AuthInvalid "invalid service authorization context") ;;
  unsigned ← ServiceAuthorizationV1_encode_unsigned a;
  authority_verify SERVICE_AUTH_DOMAIN (drop 1 unsigned) (sa_root_signature a) (ar_root_key authority).

Definition ServiceAuthorizationV1_encode (a : ServiceAuthorizationV1) : result AuthorityError (list byte) :=
  unsigned ← ServiceAuthorizationV1_encode_unsigned a;
  let e := put_bytes (with_capacity (len unsigned + 1 + len (sa_root_signature a))) unsigned in
  e ← encode_signature e (sa_root_signature a);
  let encoded := into_bytes e in
  assert_or (len encoded <=? MAX_SERVICE_AUTHORIZATION_SIZE) (AuthInvalid "service authorization is too large") ;;
  Ok encoded.

Definition ServiceAuthorizationV1_id (a : ServiceAuthorizationV1) : result AuthorityError (list byte) :=
  encoded ← ServiceAuthorizationV1_encode a;
  Ok (authority_blake2b_256 [SERVICE_AUTH_ID_DOMAIN; encoded]).

Definition read_service_name : decM AuthorityError (list byte) :=
  length_byte ← lift_err AuthDecode read_u8;
  let name_length := b2z length_byte in
  lift_res (assert_or ((1 <=? name_length) && (name_length <=? MAX_SERVICE_NAME)) (AuthInvalid "invalid service name length")) ;;
  name ← lift_err AuthDecode (read_slice name_length);
  lift_res (assert_or (from_utf8_ok name) (AuthInvalid "service name is not ASCII")) ;;
  mret name.

Definition read_authorization : decM AuthorityError ServiceAuthorizationV1 :=
  version ← lift_err AuthDecode read_u8;
  lift_res (assert_or (b2z version =? AUTHORITY_VERSION) (AuthInvalid "unsupported service authorization version")) ;;
  network_magic ← lift_err AuthDecode read_u32_le;
  name_hash ← lift_err AuthDecode (read_array 32);
  authority_epoch ← lift_err AuthDecode read_u32_le;
  service_name ← read_service_name;
  profile_id ← lift_err AuthDecode read_u16_le;
  service_key ← lift_err AuthDecode (read_array 33);
  flags ← lift_err AuthDecode read_u16_le;
  serial ← lift_err AuthDecode read_u64_le;
  valid_from_height ← lift_err AuthDecode read_u32_le;
  valid_until_height ← lift_err AuthDecode read_u32_le;
  max_endpoint_lifetime ← lift_err AuthDecode read_u32_le;
  root_signature ← decode_signature;
  mret (mkAuthorization network_magic name_hash authority_epoch service_name profile_id service_key flags serial
    valid_from_height valid_until_height max_endpoint_lifetime root_signature).

Definition ServiceAuthorizationV1_decode (input : list byte) : result AuthorityError ServiceAuthorizationV1 :=
  assert_or (negb ((len input =? 0) || (MAX_SERVICE_AUTHORIZATION_SIZE <? len input))) (AuthInvalid "invalid service authorization size") ;;
  authorization ← run_all AuthDecode read_authorization input;
  ServiceAuthorizationV1_encode_unsigned authorization ;;
  Ok authorization.

(** ** Endpoint delegations *)
Definition EndpointDelegationV1_encode_unsigned (d : EndpointDelegationV1) : result AuthorityError (list byte) :=
  validate_public_key (ed_endpoint_key d) ;;
  let e := put_u8 (with_capacity 130) (z2b AUTHORITY_VERSION) in
  let e := put_u32_le e (ed_network_magic d) in
  let e := put_bytes e (ed_authorization_id d) in
  let e := put_bytes e (ed_endpoint_key d) in
  let e := put_u64_le e (ed_endpoint_sequence d) in
  let e := put_u64_le e (ed_issued_at d) in
  let e := put_u64_le e (ed_expires_at d) in
  let e := put_u32_le e (ed_capabilities d) in
  Ok (into_bytes (put_bytes e (ed_constraints_hash d))).

Definition with_service_signature (d : EndpointDelegationV1) (s : list byte) : EndpointDelegationV1 :=
  mkDelegation (ed_network_magic d) (ed_authorization_id d) (ed_endpoint_key d) (ed_endpoint_sequence d) (ed_issued_at d)
    (ed_expires_at d) (ed_capabilities d) (ed_constraints_hash d) s.

Definition EndpointDelegationV1_sign (d : EndpointDelegationV1) (private_key : list byte) : result AuthorityError EndpointDelegationV1 :=
  unsigned ← EndpointDelegationV1_encode_unsigned d;
  signature ← authority_sign ENDPOINT_DELEGATION_DOMAIN (drop 1 unsigned) private_key;
  Ok (with_service_signature d signature).

(** [authorization.id()?] is evaluated only when the networks agree. *)
Definition EndpointDelegationV1_verify (d : EndpointDelegationV1) (authorization : ServiceAuthorizationV1)
    (now allowed_capabilities : Z) (expected_constraints_hash : list byte) : result AuthorityError unit :=
  assert_or (ed_network_magic d =? sa_network_magic authorization) (AuthInvalid "invalid endpoint delegation context") ;;
  id ← ServiceAuthorizationV1_id authorization;
  assert_or (negb (negb (bool_decide (ed_authorization_id d = id)) || (ed_endpoint_sequence d =? 0) ||
                   negb (Z.land (ed_capabilities d) (u32_max - allowed_capabilities) =? 0) ||
                   negb (bool_decide (ed_constraints_hash d = expected_constraints_hash)) ||
                   (ed_expires_at d <=? ed_issued_at d) ||
                   (sa_max_endpoint_lifetime authorization <? saturating_sub (ed_expires_at d) (ed_issued_at d)) ||
                   (now <? ed_issued_at d) || (ed_expires_at d <=? now)))
    (AuthInvalid "invalid endpoint delegation context") ;;
  unsigned ← EndpointDelegationV1_encode_unsigned d;
  authority_verify ENDPOINT_DELEGATION_DOMAIN (drop 1 unsigned) (ed_service_signature d) (sa_service_key authorization).

Definition EndpointDelegationV1_encode (d : EndpointDelegationV1) : result AuthorityError (list byte) :=
  unsigned ← EndpointDelegationV1_encode_unsigned d;
  let e := put_bytes (with_capacity (len unsigned + 1 + len (ed_service_signature d))) unsigned in
  e ← encode_signature e (ed_service_signature d);
  let encoded := into_bytes e in
  assert_or (len encoded <=? MAX_ENDPOINT_DELEGATION_SIZE) (AuthInvalid "endpoint delegation is too large") ;;
  Ok encoded.

Definition EndpointDelegationV1_id (d : EndpointDelegationV1) : result AuthorityError (list byte) :=
  encoded ← EndpointDelegationV1_encode d;
  Ok (authority_blake2b_256 [ENDPOINT_DELEGATION_ID_DOMAIN; encoded]).

Definition read_delegation : decM AuthorityError EndpointDelegationV1 :=
  version ← lift_err AuthDecode read_u8;
  lift_res (assert_or (b2z version =? AUTHORITY_VERSION) (AuthInvalid "unsupported endpoint delegation version")) ;;
  network_magic ← lift_err AuthDecode read_u32_le;
  authorization_id ← lift_err AuthDecode (read_array 32);
  endpoint_key ← lift_err AuthDecode (read_array 33);
  endpoint_sequence ← lift_err AuthDecode read_u64_le;
  issued_at ← lift_err AuthDecode read_u64_le;
  expires_at ← lift_err AuthDecode read_u64_le;
  capabilities ← lift_err AuthDecode read_u32_le;
  constraints_hash ← lift_err AuthDecode (read_array 32);
  service_signature ← decode_signature;
  mret (mkDelegation network_magic authorization_id endpoint_key endpoint_sequence issued_at expires_at capabilities
    constraints_hash service_signature).

Definition EndpointDelegationV1_decode (input : list byte) : result AuthorityError EndpointDelegationV1 :=
  assert_or (negb ((len input =? 0) || (MAX_ENDPOINT_DELEGATION_SIZE <? len input))) (AuthInvalid "invalid endpoint delegation size") ;;
  delegation ← run_all AuthDecode read_delegation input;
  EndpointDelegationV1_encode_unsigned delegation ;;
  Ok delegation.

Definition is_ok {E A} (r : result E A) : bool := match r with Ok _ => true | Err _ => false end.

Definition select_service_authorization (candidates : list ServiceAuthorizationV1) (authority : AuthorityRecord)
    (identity : ServiceIdentity) (current_height allowed_flags : Z) : result AuthorityError ServiceAuthorizationV1 :=
  select_by_sequence (fun c => is_ok (ServiceAuthorizationV1_verify c authority identity current_height allowed_flags))
    sa_serial ServiceAuthorizationV1_encode candidates MAX_SERVICE_AUTHORIZATION_CANDIDATES.

Definition select_endpoint_delegation (candidates : list EndpointDelegationV1) (authorization : ServiceAuthorizationV1)
    (now allowed_capabilities : Z) (expected_constraints_hash : list byte) (is_logical_endpoint : EndpointDelegationV1 -> bool)
  : result AuthorityError EndpointDelegationV1 :=
  select_by_sequence
    (fun c => is_logical_endpoint c && is_ok (EndpointDelegationV1_verify c authorization now allowed_capabilities expected_constraints_hash))
    ed_endpoint_sequence EndpointDelegationV1_encode candidates MAX_ENDPOINT_DELEGATION_CANDIDATES.
End keys.

(** ** Base 32 reads back what it writes *)
Lemma base32_position v : 0 <= v < 32 -> byte_position (base32_char v) BASE32 = Some v.
Proof.
  intros H. assert (v ∈ Z.of_nat <$> seq 0 32) as E.
  { apply list_elem_of_fmap. exists (Z.to_nat v). rewrite elem_of_seq. lia. }
  cbn in E. repeat (apply elem_of_cons in E as [->|E]; [by vm_compute|]). by apply elem_of_nil in E.
Qed.

Lemma shift_in x v n : 0 <= n <= 16 -> 0 <= v < 2 ^ n -> Z.lor (wrap 16 (Z.shiftl x n)) v = (x mod 2 ^ (16 - n)) * 2 ^ n + v.
Proof.
  intros N V. unfold wrap. rewrite Z.shiftl_mul_pow2 by lia. replace (2 ^ 16) with (2 ^ (16 - n) * 2 ^ n) by (rewrite <- Z.pow_add_r by lia; f_equal; lia).
  rewrite Z.mul_mod_distr_r by (apply Z.pow_nonzero; lia). set (h := x mod 2 ^ (16 - n)).
  assert (Z.land (h * 2 ^ n) v = 0) as D; [|by rewrite <- Z.lxor_lor, <- Z.add_nocarry_lxor].
  apply Z.bits_inj'. intros i Hi. rewrite Z.land_spec, Z.bits_0. destruct (Z.ltb_spec i n) as [L|L].
  { by rewrite Z.mul_pow2_bits_low by lia. }
  assert (Z.testbit v i = false) as ->; [|by rewrite andb_false_r]. apply Z.testbit_false; [lia|].
  pose proof (Z.pow_le_mono_r 2 n i ltac:(lia) ltac:(lia)). by rewrite Z.div_small by lia.
Qed.

Lemma land31 x : Z.land x 31 = x mod 32.
Proof. change 31 with (Z.ones 5). by rewrite Z.land_ones by lia. Qed.

(** One character, once it is known to be one. *)
Lemma base32_pull_char buffer bits output v :
  0 <= bits <= 7 -> 0 <= buffer < 2 ^ bits -> 0 <= v < 32 ->
  base32_pull (buffer, bits, output) (base32_char v) =
  if bits <? 3 then Ok (32 * buffer + v, bits + 5, output)
  else Ok ((32 * buffer + v) mod 2 ^ (bits - 3), bits - 3, output ++ [z2b ((32 * buffer + v) / 2 ^ (bits - 3))]).
Proof.
  intros B R V. unfold base32_pull. rewrite base32_position by done. cbn [ok_or mbind result_bind].
  rewrite (shift_in buffer v 5) by (cbn; lia). change (2 ^ (16 - 5)) with 2048. change (2 ^ 5) with 32.
  assert (2 ^ bits <= 128) by (change 128 with (2 ^ 7); apply Z.pow_le_mono_r; lia). rewrite (Z.mod_small buffer) by lia.
  rewrite (Z.mul_comm buffer 32). destruct (Z.ltb_spec bits 3).
  - by rewrite (proj2 (Z.leb_gt _ _)) by lia.
  - rewrite (proj2 (Z.leb_le _ _)) by lia. replace (bits + 5 - 8) with (bits - 3) by lia.
    replace (Z.shiftl 1 (bits - 3) - 1) with (Z.ones (bits - 3)) by (rewrite Z.ones_equiv, Z.shiftl_1_l; lia).
    rewrite Z.land_ones, Z.shiftr_div_pow2 by lia. unfold wrap, z2b. change (2 ^ 8) with 256. by rewrite Z.mod_mod by lia.
Qed.

(** [bits] encoded bits wait in the encoder: they are the low bits of the last byte,
    whose high bits wait in the decoder. *)
Definition base32_rel (input : list byte) (e : Z * Z * list byte) : Prop :=
  let '(buffer, bits, output) := e in
  (bits = 0 /\ try_fold base32_pull (0, 0, []) output = Ok (0, 0, input)) \/
  (1 <= bits <= 4 /\ exists init last, input = init ++ [last] /\ buffer mod 2 ^ bits = b2z last mod 2 ^ bits /\
    try_fold base32_pull (0, 0, []) output = Ok (b2z last / 2 ^ bits, 8 - bits, init)).

Lemma base32_pull_app output st v :
  try_fold base32_pull (0, 0, []) output = Ok st ->
  try_fold base32_pull (0, 0, []) (output ++ [base32_char v]) = base32_pull st (base32_char v).
Proof. intros H. rewrite try_fold_app, H. cbn [mbind result_bind try_fold]. by destruct (base32_pull st (base32_char v)). Qed.

Lemma base32_emit_push buffer bits output :
  0 <= bits <= 4 ->
  base32_emit 2 buffer (bits + 8) output =
  if bits <? 2 then (bits + 3, output ++ [base32_char ((buffer / 2 ^ (bits + 3)) mod 32)])
  else (bits - 2, (output ++ [base32_char ((buffer / 2 ^ (bits + 3)) mod 32)]) ++ [base32_char ((buffer / 2 ^ (bits - 2)) mod 32)]).
Proof.
  intros B. cbn [base32_emit]. rewrite (proj2 (Z.leb_le 5 (bits + 8))) by lia. replace (bits + 8 - 5) with (bits + 3) by lia.
  rewrite land31, Z.shiftr_div_pow2 by lia. destruct (Z.ltb_spec bits 2).
  - by rewrite (proj2 (Z.leb_gt 5 (bits + 3))) by lia.
  - rewrite (proj2 (Z.leb_le 5 (bits + 3))) by lia. replace (bits + 3 - 5) with (bits - 2) by lia. by rewrite land31, Z.shiftr_div_pow2 by lia.
Qed.

Ltac base32_arith := cbn [Z.pow Z.pow_pos Pos.iter Z.mul Pos.mul Z.sub Z.add Z.opp Z.pos_sub Pos.add Pos.pred_double Pos.succ] in *; Z.div_mod_to_equations; lia.

(** The decoder, having the high bits of [last], reads its low bits and [w] after them. *)
Lemma base32_pull_last output init last bits w v :
  1 <= bits <= 4 -> 0 <= w < 2 ^ (5 - bits) ->
  try_fold base32_pull (0, 0, []) output = Ok (b2z last / 2 ^ bits, 8 - bits, init) ->
  v = (b2z last mod 2 ^ bits) * 2 ^ (5 - bits) + w ->
  try_fold base32_pull (0, 0, []) (output ++ [base32_char v]) = Ok (w, 5 - bits, init ++ [last]).
Proof.
  intros B W D ->. pose proof (b2z_range last). rewrite (base32_pull_app _ _ _ D).
  set (l := b2z last) in *. set (v := (l mod 2 ^ bits) * 2 ^ (5 - bits) + w).
  assert (0 <= l / 2 ^ bits < 2 ^ (8 - bits) /\ 0 <= v < 32 /\
    (32 * (l / 2 ^ bits) + v) mod 2 ^ (8 - bits - 3) = w /\ (32 * (l / 2 ^ bits) + v) / 2 ^ (8 - bits - 3) = l) as (R1 & R2 & E1 & E2).
  { subst v. assert (bits = 1 \/ bits = 2 \/ bits = 3 \/ bits = 4) as [->|[->|[->| ->]]] by lia; base32_arith. }
  rewrite base32_pull_char by lia. rewrite (proj2 (Z.ltb_ge _ _)) by lia. rewrite E1, E2. subst l. rewrite z2b_b2z. do 3 f_equal. lia.
Qed.

Lemma base32_push_rel input e b : base32_rel input e -> base32_rel (input ++ [b]) (base32_push e b).
Proof.
  destruct e as [[buffer bits] output]. intros H. pose proof (b2z_range b) as Rb. unfold base32_push.
  rewrite (shift_in buffer (b2z b) 8) by (cbn; lia). change (2 ^ (16 - 8)) with 256. change (2 ^ 8) with 256.
  rewrite base32_emit_push by (destruct H as [[-> _]|[? _]]; lia).
  destruct H as [(-> & D)|(B & init & last & -> & Eb & D)].
  - cbn [Z.ltb Z.compare Z.add]. right. split; [lia|].
    exists input, b. split; [done|]. split; [base32_arith|]. rewrite (base32_pull_app _ _ _ D).
    rewrite base32_pull_char by base32_arith. cbn [Z.ltb Z.compare]. do 3 f_equal. base32_arith.
  - pose proof (b2z_range last) as Rl.
    assert (((buffer mod 256 * 256 + b2z b) / 2 ^ (bits + 3)) mod 32 = (b2z last mod 2 ^ bits) * 2 ^ (5 - bits) + b2z b / 2 ^ (bits + 3) /\
      0 <= b2z b / 2 ^ (bits + 3) < 2 ^ (5 - bits)) as (E1 & R1).
    { assert (bits = 1 \/ bits = 2 \/ bits = 3 \/ bits = 4) as [->|[->|[->| ->]]] by lia; base32_arith. }
    pose proof (base32_pull_last _ _ _ _ _ _ B R1 D E1) as D1.
    assert (bits = 1 \/ bits = 2 \/ bits = 3 \/ bits = 4) as [->|[->|[->| ->]]] by lia; cbn [Z.ltb Z.compare Pos.compare Pos.compare_cont].
    + right. split; [lia|]. exists (init ++ [last]), b. split; [done|]. split; [base32_arith|exact D1].
    + left. split; [done|]. rewrite (base32_pull_app _ _ _ D1). rewrite base32_pull_char by base32_arith.
      change (5 - 2 <? 3) with false. cbv iota. change (5 - 2 - 3) with 0. change (2 ^ 0) with 1. rewrite Z.mod_1_r, Z.div_1_r.
      assert (32 * (b2z b / 2 ^ (2 + 3)) + ((buffer mod 256 * 256 + b2z b) / 2 ^ (2 - 2)) mod 32 = b2z b) as -> by base32_arith.
      by rewrite z2b_b2z.
    + right. split; [lia|]. exists (init ++ [last]), b. split; [done|]. split; [base32_arith|]. rewrite (base32_pull_app _ _ _ D1).
      rewrite base32_pull_char by base32_arith. cbn [Z.ltb Z.compare Pos.compare Pos.compare_cont]. do 3 f_equal. base32_arith.
    + right. split; [lia|]. exists (init ++ [last]), b. split; [done|]. split; [base32_arith|]. rewrite (base32_pull_app _ _ _ D1).
      rewrite base32_pull_char by base32_arith. cbn [Z.ltb Z.compare Pos.compare Pos.compare_cont]. do 3 f_equal. base32_arith.
Qed.

Lemma base32_foldl_rel input : base32_rel input (foldl base32_push (0, 0, []) input).
Proof. induction input as [|b input IH] using rev_ind; [by left|]. rewrite foldl_app. by apply base32_push_rel. Qed.

Lemma base32_roundtrip input : decode_base32 (encode_base32 input) = Ok input.
Proof.
  pose proof (base32_foldl_rel input) as H. unfold encode_base32, decode_base32.
  destruct (foldl base32_push (0, 0, []) input) as [[buffer bits] output].
  destruct H as [(-> & D)|(B & init & last & -> & Eb & D)]; [cbn [Z.eqb]; by rewrite D|].
  rewrite (proj2 (Z.eqb_neq bits 0)) by lia. pose proof (b2z_range last).
  rewrite land31. unfold wrap. rewrite Z.shiftl_mul_pow2 by lia.
  rewrite (base32_pull_last output init last bits 0); [|done|split; [lia|apply Z.pow_pos_nonneg; lia]|done|].
  - cbn [mbind result_bind]. by rewrite andb_false_r.
  - assert (bits = 1 \/ bits = 2 \/ bits = 3 \/ bits = 4) as [->|[->|[->| ->]]] by lia; base32_arith.
Qed.

(** The text is [8/5] as long, rounded up, and made of the alphabet. *)
Definition base32_shape (n : Z) (e : Z * Z * list byte) : Prop :=
  let '(_, bits, output) := e in 0 <= bits <= 4 /\ 5 * len output + bits = 8 * n /\ Forall (fun c => c ∈ BASE32) output.

Lemma base32_char_in v : base32_char (v mod 32) ∈ BASE32.
Proof.
  pose proof (Z.mod_pos_bound v 32 ltac:(lia)). unfold base32_char.
  destruct (lookup_lt_is_Some_2 BASE32 (Z.to_nat (v mod 32))) as [c E]; [change (length BASE32) with 32%nat; lia|].
  rewrite E. by eapply list_elem_of_lookup_2.
Qed.

Lemma base32_push_shape n e b : base32_shape n e -> base32_shape (n + 1) (base32_push e b).
Proof.
  destruct e as [[buffer bits] output]. intros (B & L & F). unfold base32_push. rewrite base32_emit_push by done.
  destruct (Z.ltb_spec bits 2); (split; [lia|]; split; [rewrite !len_app; change (len [_]) with 1; lia|]);
    rewrite !Forall_app, !Forall_singleton; split_and!; try done; apply base32_char_in.
Qed.

Lemma base32_encode_shape input :
  len (encode_base32 input) = (8 * len input + 4) / 5 /\ Forall (fun c => c ∈ BASE32) (encode_base32 input).
Proof.
  assert (base32_shape (len input) (foldl base32_push (0, 0, []) input)) as H.
  { induction input as [|b input IH] using rev_ind; [done|]. rewrite foldl_app, len_app. by apply base32_push_shape. }
  unfold encode_base32. destruct (foldl base32_push (0, 0, []) input) as [[buffer bits] output]. destruct H as (B & L & F).
  destruct (Z.eqb_spec bits 0) as [->|N]; [split; [|done]; apply Z.div_unique with (r := 4); lia|].
  rewrite len_app. change (len [_]) with 1. split; [apply Z.div_unique with (r := bits - 1); lia|].
  apply Forall_app. split; [done|]. rewrite land31. apply Forall_singleton, base32_char_in.
Qed.

(** ** Authority records *)
Definition printable (b : byte) : bool := is_ascii_graphic b || bool_decide (b = x20).

Lemma printable_text t :
  negb (negb (is_ascii_text t) || existsb (fun b => negb (is_ascii_graphic b) && negb (bool_decide (b = x20))) t) = forallb printable t.
Proof.
  induction t as [|b t IH]; [done|]. cbn [is_ascii_text forallb existsb]. rewrite <- IH. fold (is_ascii_text t).
  assert (printable b = true -> (b2z b <? 128) = true) as P.
  { unfold printable, is_ascii_graphic, in_range. rewrite orb_true_iff, andb_true_iff, !Z.leb_le, Z.ltb_lt, bool_decide_eq_true.
    intros [?| ->]; [lia|done]. }
  unfold printable in *. destruct (is_ascii_graphic b); cbn [orb negb andb] in *; [by rewrite P|].
  destruct (bool_decide (b = x20)); cbn [negb andb orb]; [by rewrite P|]. by rewrite orb_true_r.
Qed.

Definition record_text (key epoch : list byte) : list byte := bstr "hsa1 k=" ++ key ++ bstr " e=" ++ epoch.

Lemma record_fields key epoch :
  contains_char x20 key = false -> contains_char x20 epoch = false ->
  split_char x20 (record_text key epoch) = [bstr "hsa1"; bstr "k=" ++ key; bstr "e=" ++ epoch].
Proof.
  intros K E. unfold record_text. change (bstr "hsa1 k=" ++ key ++ bstr " e=" ++ epoch) with (bstr "hsa1" ++ x20 :: ((bstr "k=" ++ key) ++ x20 :: (bstr "e=" ++ epoch))).
  rewrite split_char_app by done. rewrite split_char_app by (rewrite contains_char_app, K; done).
  by rewrite split_char_last by (rewrite contains_char_app, E; done).
Qed.

Lemma record_fields_inv t key epoch :
  head (split_char x20 t) = Some (bstr "hsa1") -> (f ← split_char x20 t !! 1%nat; strip_prefix (bstr "k=") f) = Some key ->
  (f ← split_char x20 t !! 2%nat; strip_prefix (bstr "e=") f) = Some epoch -> split_char x20 t !! 3%nat = None ->
  t = record_text key epoch /\ contains_char x20 key = false /\ contains_char x20 epoch = false.
Proof.
  destruct (split_char x20 t) as [|f0 [|f1 [|f2 [|]]]] eqn:S; try done. cbn [head lookup list_lookup mbind option_bind].
  intros [= ->] K%strip_prefix_Some E%strip_prefix_Some _. apply split_char_cons in S as (_ & r & -> & S).
  apply split_char_cons in S as (N1 & r' & -> & S). apply split_char_cons in S as (N2 & ->). subst f1 f2.
  rewrite contains_char_app in N1, N2. apply orb_false_iff in N1 as (_ & N1), N2 as (_ & N2). split; [|done].
  unfold record_text. by rewrite <- !app_assoc.
Qed.

(** What the epoch field may be: the decimal number, or, through [u32::from_str], a
    plus sign and digits. *)
Definition plus_spelling (s : list byte) (n : Z) : Prop :=
  exists ds, s = x2b :: ds /\ ds <> [] /\ forallb is_ascii_digit ds = true /\ dec_value 0 ds = n.

Lemma epoch_field s n :
  (s <> [] /\ negb ((1 <? len s) && bool_decide (head s = Some x30)) = true /\ parse_u32 s = Some n) <->
  u32 n /\ (s = decimal n \/ plus_spelling s n).
Proof.
  split.
  - intros (N & Z0 & P). destruct s as [|b s]; [done|]. destruct (decide (b = x2b)) as [->|Nb].
    + unfold parse_u32, parse_unsigned in P. rewrite bool_decide_eqb_refl in P. destruct s as [|c s]; [done|].
      apply parse_digits_Some in P as (F & -> & Le); [|done]. pose proof (dec_value_ge 0 (c :: s) ltac:(lia) F). split; [done|].
      right. by exists (c :: s).
    + assert (canonical_digits (b :: s)) as C.
      { unfold parse_u32, parse_unsigned in P. rewrite bool_decide_eq_false_2 in P by done. apply parse_digits_Some in P as (F & _); [|done].
        split; [done|]. split; [done|]. cbn [head]. intros [= ->]. rewrite len_cons in Z0. cbn [head] in Z0.
        rewrite bool_decide_eqb_refl, andb_true_r, negb_true_iff, Z.ltb_ge in Z0. destruct s; [done|]. rewrite len_cons in Z0. pose proof (len_nonneg s). lia. }
      apply parse_canonical in P as (-> & R); [|done|done]. split; [done|]. by left.
  - intros (U & [->|(ds & -> & N & F & V)]).
    + destruct (decimal_digits_ok 20 n) as ((F & N & C) & V); [unfold u32, u32_max in U; change (Z.of_nat 21) with 21; lia|].
      split; [done|]. split; [|by apply parse_decimal]. unfold decimal. destruct (bool_decide _) eqn:B; [|by rewrite andb_false_r].
      apply bool_decide_eq_true in B. by rewrite (C B).
    + split; [done|]. split; [by rewrite andb_false_r|]. unfold parse_u32, parse_unsigned. rewrite bool_decide_eqb_refl.
      destruct ds as [|c ds]; [done|]. apply parse_digits_Some; [done|]. split; [done|]. split; [done|]. by destruct U.
Qed.

Lemma epoch_text s n : u32 n -> s = decimal n \/ plus_spelling s n -> forallb (fun b => is_ascii_digit b || bool_decide (b = x2b)) s = true.
Proof.
  intros U [->|(ds & -> & _ & F & _)].
  - destruct (decimal_digits_ok 20 n) as ((F & _) & _); [unfold u32, u32_max in U; change (Z.of_nat 21) with 21; lia|].
    unfold decimal. rewrite forallb_forall in *. intros b I. by rewrite (F b I).
  - cbn [forallb]. rewrite bool_decide_eqb_refl, orb_true_r. cbn [andb]. rewrite forallb_forall in *. intros b I. by rewrite (F b I).
Qed.

Section record_lemmas.
Context {KC : K256}.

Definition record_key_ok (r : AuthorityRecord) : Prop := len (ar_root_key r) = 33 /\ sec1_key_ok (ar_root_key r) = true.

Lemma base32_text k : forallb (fun b => is_ascii_lowercase b || is_ascii_digit b) (encode_base32 k) = true.
Proof.
  apply forallb_forall. intros b I. destruct (base32_encode_shape k) as (_ & F). rewrite Forall_forall in F.
  specialize (F b (proj2 (list_elem_of_In _ _) I)). revert F.
  assert (forallb (fun b => is_ascii_lowercase b || is_ascii_digit b) BASE32 = true) as A by done.
  rewrite forallb_forall in A. intros F%list_elem_of_In. by apply A.
Qed.

Lemma record_parse_text r epoch :
  record_key_ok r -> u32 (ar_epoch r) -> epoch = decimal (ar_epoch r) \/ plus_spelling epoch (ar_epoch r) ->
  AuthorityRecord_parse (record_text (encode_base32 (ar_root_key r)) epoch) = Ok r.
Proof.
  intros (Lk & Kk) U E. pose proof (base32_text (ar_root_key r)) as Bt. pose proof (epoch_text _ _ U E) as Et.
  assert (contains_char x20 (encode_base32 (ar_root_key r)) = false) as Nk by (eapply contains_char_forallb; [|exact Bt]; done).
  assert (contains_char x20 epoch = false) as Ne by (eapply contains_char_forallb; [|exact Et]; done).
  pose proof (proj2 (epoch_field epoch (ar_epoch r)) (conj U E)) as (Nn & Z0 & P). apply len_nonzero in Nn.
  unfold AuthorityRecord_parse. rewrite printable_text, record_fields by done. unfold record_text. rewrite !forallb_app.
  assert (forall b, is_ascii_lowercase b || is_ascii_digit b || bool_decide (b = x2b) = true -> printable b = true) as Pr.
  { intros b. unfold printable, is_ascii_lowercase, is_ascii_digit, is_ascii_graphic, in_range.
    rewrite !orb_true_iff, !andb_true_iff, !Z.leb_le, !bool_decide_eq_true. intros [[?|?]| ->]; [lia|lia|left; done]. }
  assert (forallb printable (encode_base32 (ar_root_key r)) = true) as -> by (eapply forallb_imp; [|exact Bt]; intros b H; apply Pr; by rewrite H).
  assert (forallb printable epoch = true) as ->.
  { eapply forallb_imp; [|exact Et]. intros b H. apply Pr. apply orb_true_iff in H as [-> | ->]; [by rewrite orb_true_r|by rewrite orb_true_r]. }
  change (forallb printable (bstr "hsa1 k=")) with true. change (forallb printable (bstr " e=")) with true.
  cbn [andb assert_or mbind result_bind head lookup list_lookup option_bind]. rewrite bool_decide_eqb_refl. cbn [assert_or mbind result_bind].
  rewrite !strip_prefix_app. cbn [ok_or mbind result_bind]. destruct (base32_encode_shape (ar_root_key r)) as (L53 & _). rewrite Lk in L53. change ((8 * 33 + 4) / 5) with 53 in L53.
  rewrite L53, (proj2 (Z.eqb_neq (len epoch) 0)) by done. change (bool_decide (None = None)) with true. cbn [Z.eqb Pos.eqb negb andb assert_or mbind result_bind].
  rewrite Z0, P. cbn [ok_or assert_or mbind result_bind COMPRESSED_KEY_BASE32_LENGTH Z.eqb Pos.eqb].
  rewrite base32_roundtrip. cbn [mbind result_bind]. rewrite bool_decide_eqb_refl, Lk. cbn [assert_or mbind result_bind Z.eqb Pos.eqb].
  unfold validate_public_key. rewrite Kk. cbn [assert_or mbind result_bind]. by destruct r.
Qed.

Lemma record_parse_inv text r :
  AuthorityRecord_parse text = Ok r ->
  record_key_ok r /\ u32 (ar_epoch r) /\ exists epoch, text = record_text (encode_base32 (ar_root_key r)) epoch /\
    (epoch = decimal (ar_epoch r) \/ plus_spelling epoch (ar_epoch r)).
Proof.
  unfold AuthorityRecord_parse. intros H. apply bind_Ok in H as (u0 & _ & H). apply bind_Ok in H as (u1 & K1%assert_or_Ok%bool_decide_eq_true & H).
  apply bind_Ok in H as (key & K2%ok_or_Ok & H). apply bind_Ok in H as (ep & K3%ok_or_Ok & H).
  apply bind_Ok in H as (u4 & K4%assert_or_Ok & H). rewrite !andb_true_iff, bool_decide_eq_true, !negb_true_iff, !Z.eqb_neq in K4. destruct K4 as ((K4 & _) & Ne).
  apply bind_Ok in H as (u5 & K5%assert_or_Ok & H). apply bind_Ok in H as (n & K6%ok_or_Ok & H). apply bind_Ok in H as (u7 & _ & H).
  apply bind_Ok in H as (dk & _ & H). apply bind_Ok in H as (u8 & K8%assert_or_Ok%bool_decide_eq_true & H).
  apply bind_Ok in H as (u9 & K9%assert_or_Ok%Z.eqb_eq & H). apply bind_Ok in H as (u10 & K10%assert_or_Ok & [= <-]).
  destruct (record_fields_inv _ _ _ K1 K2 K3 K4) as (-> & _). cbn [ar_root_key ar_epoch].
  destruct (proj1 (epoch_field ep n)) as (U & E); [by rewrite len_nonzero|].
  split; [done|]. split; [done|]. exists ep. by rewrite K8.
Qed.

(** The [hsa1] record, exactly. A text parses to a record when it is the record's
    encoding, or the same with the epoch spelled by a plus sign and any digits of
    that value: a leading zero is refused, a leading plus sign is not. *)
Theorem authority_record_text text r :
  AuthorityRecord_parse text = Ok r <->
  record_key_ok r /\ u32 (ar_epoch r) /\
  (AuthorityRecord_encode r = Ok text \/
   exists epoch, plus_spelling epoch (ar_epoch r) /\ text = bstr "hsa1 k=" ++ encode_base32 (ar_root_key r) ++ bstr " e=" ++ epoch).
Proof.
  assert (record_key_ok r -> AuthorityRecord_encode r = Ok (record_text (encode_base32 (ar_root_key r)) (decimal (ar_epoch r)))) as E.
  { intros (_ & K). unfold AuthorityRecord_encode, validate_public_key. by rewrite K. }
  split.
  - intros (K & U & ep & -> & [->|P])%record_parse_inv; (split; [done|]; split; [done|]); [left; by apply E|right; by exists ep].
  - intros (K & U & [H|(ep & P & ->)]).
    + rewrite (E K) in H. injection H as <-. apply record_parse_text; [done|done|by left].
    + apply (record_parse_text r ep); [done|done|by right].
Qed.

(** C31. One record, two texts: the plus sign makes a second spelling of every record. *)
Theorem authority_record_respelled r (K : record_key_ok r) (U : u32 (ar_epoch r)) :
  exists text, AuthorityRecord_parse text = Ok r /\ AuthorityRecord_encode r <> Ok text.
Proof.
  destruct (decimal_digits_ok 20 (ar_epoch r)) as ((F & N & _) & V); [unfold u32, u32_max in U; change (Z.of_nat 21) with 21; lia|].
  exists (record_text (encode_base32 (ar_root_key r)) (x2b :: decimal (ar_epoch r))). split.
  - apply record_parse_text; [done|done|]. right. by exists (decimal (ar_epoch r)).
  - unfold AuthorityRecord_encode, validate_public_key. destruct K as (_ & ->). cbn [assert_or mbind result_bind]. unfold record_text.
    intros E. injection E as E. apply app_inv_head, (f_equal (@len _)) in E. rewrite !len_cons in E. lia.
Qed.
End record_lemmas.

(** ** Selection *)
Section selection.
Context {T : Type} (is_candidate : T -> bool) (sequence : T -> Z) (encode : T -> result AuthorityError (list byte)).

Abbreviation step := (select_step is_candidate sequence encode).
Abbreviation select := (select_by_sequence is_candidate sequence encode).

(** What the loop knows of the candidates it has seen: [c] is the first of the greatest. *)
Definition chosen (seen : list T) (selected : option T) : Prop :=
  match selected with
  | None => forall x, x ∈ seen -> is_candidate x = false
  | Some c => c ∈ seen /\ is_candidate c = true /\
    forall x, x ∈ seen -> is_candidate x = true -> sequence x <= sequence c /\ (sequence x = sequence c -> encode x = encode c)
  end.

Lemma step_chosen seen selected x selected' :
  chosen seen selected -> step selected x = Ok selected' -> chosen (seen ++ [x]) selected'.
Proof.
  unfold select_step. destruct (is_candidate x) eqn:C; cbn [negb].
  2: { intros H [= <-]. destruct selected as [c|]; cbn [chosen] in *.
       - destruct H as (I & G & M). split; [apply elem_of_app; by left|]. split; [done|]. intros y [Iy| ->%list_elem_of_singleton]%elem_of_app; [by apply M|congruence].
       - intros y [Iy| ->%list_elem_of_singleton]%elem_of_app; [by apply H|done]. }
  destruct selected as [c|]; cbn [chosen].
  - intros (I & G & M). destruct (Z.ltb_spec (sequence c) (sequence x)) as [L|L].
    + intros [= <-]. split; [apply elem_of_app; right; by apply list_elem_of_singleton|]. split; [done|].
      intros y [Iy| ->%list_elem_of_singleton]%elem_of_app Cy; [|done]. destruct (M y Iy Cy). lia.
    + intros H. assert (selected' = Some c /\ (sequence x = sequence c -> encode x = encode c)) as (-> & E).
      { destruct (Z.eqb_spec (sequence x) (sequence c)) as [Eq|Nq]; [|injection H as <-; split; [done|]; intros; lia].
        apply bind_Ok in H as (a & Ea & H). apply bind_Ok in H as (b & Eb & H). destruct (bool_decide (a = b)) eqn:Eab; [|done].
        apply bool_decide_eq_true in Eab as ->. injection H as <-. by rewrite Ea, Eb. }
      split; [apply elem_of_app; by left|]. split; [done|]. intros y [Iy| ->%list_elem_of_singleton]%elem_of_app Cy; [by apply M|by split].
  - intros H [= <-]. split; [apply elem_of_app; right; by apply list_elem_of_singleton|]. split; [done|].
    intros y [Iy| ->%list_elem_of_singleton]%elem_of_app Cy; [|done]. by rewrite (H y Iy) in Cy.
Qed.

Lemma fold_chosen seen selected xs selected' :
  chosen seen selected -> try_fold step selected xs = Ok selected' -> chosen (seen ++ xs) selected'.
Proof.
  revert seen selected. induction xs as [|x xs IH]; intros seen selected C H; cbn [try_fold] in H; [injection H as <-; by rewrite app_nil_r|].
  apply bind_Ok in H as (s & S & H). rewrite cons_middle, app_assoc. eapply IH; [|done]. by eapply step_chosen.
Qed.

(** No two candidates disagree: same sequence, same bytes. *)
Definition consistent (xs : list T) : Prop :=
  forall x y, x ∈ xs -> y ∈ xs -> is_candidate x = true -> is_candidate y = true -> sequence x = sequence y ->
    exists bs, encode x = Ok bs /\ encode y = Ok bs.

Lemma fold_consistent seen selected xs :
  consistent (seen ++ xs) -> chosen seen selected -> exists selected', try_fold step selected xs = Ok selected'.
Proof.
  revert seen selected. induction xs as [|x xs IH]; intros seen selected Cn C; cbn [try_fold]; [by eexists|].
  assert (exists s, step selected x = Ok s) as (s & S).
  { unfold select_step. destruct (is_candidate x) eqn:Cx; cbn [negb]; [|by eexists]. destruct selected as [c|]; [|by eexists].
    destruct (_ <? _); [by eexists|]. destruct (Z.eqb_spec (sequence x) (sequence c)) as [Eq|]; [|by eexists].
    destruct C as (Ic & Gc & _). destruct (Cn x c) as (bs & -> & ->); [rewrite elem_of_app, elem_of_cons; by right; left|apply elem_of_app; by left|done|done|done|].
    cbn [mbind result_bind]. rewrite bool_decide_eqb_refl. by eexists. }
  rewrite S. cbn [mbind result_bind]. apply (IH (seen ++ [x])); [by rewrite <- app_assoc|by eapply step_chosen].
Qed.

Lemma select_bound xs maximum :
  0 <= maximum < usize_max -> select xs maximum =
  if len xs <=? maximum then selected ← try_fold step None xs; ok_or selected AuthMissing
  else Err (AuthInvalid "too many authorization candidates").
Proof.
  intros M. unfold select_by_sequence, saturating_add. rewrite Z.min_r by lia. destruct (Z.leb_spec (len xs) maximum) as [L|L].
  - rewrite take_ge by (unfold len in L; lia). by rewrite (proj2 (Z.leb_le _ _)).
  - assert (len (take (Z.to_nat (maximum + 1)) xs) = maximum + 1) as -> by (unfold len in *; rewrite length_take; lia).
    by rewrite (proj2 (Z.leb_gt _ _)) by lia.
Qed.
End selection.

(** Selection by sequence. What is selected is a valid candidate of greatest sequence,
    and every valid candidate of that sequence has its bytes; when no two valid
    candidates of one sequence differ, a valid candidate is selected as soon as there is
    one, and [Missing] is reported exactly when there is none; and more candidates than
    the bound, valid or not, are refused. *)
Theorem selection_exact {T} (is_candidate : T -> bool) (sequence : T -> Z) encode xs maximum (M : 0 <= maximum < usize_max) :
  let select := select_by_sequence is_candidate sequence encode xs maximum in
  (forall c, select = Ok c -> c ∈ xs /\ is_candidate c = true /\
    forall x, x ∈ xs -> is_candidate x = true -> sequence x <= sequence c /\ (sequence x = sequence c -> encode x = encode c)) /\
  (consistent is_candidate sequence encode xs -> len xs <= maximum ->
    (exists c, select = Ok c) \/ select = Err AuthMissing /\ forall x, x ∈ xs -> is_candidate x = false) /\
  (maximum < len xs -> select = Err (AuthInvalid "too many authorization candidates")).
Proof.
  intros select. subst select. rewrite select_bound by done. split; [|split].
  - intros c H. destruct (_ <=? _); [|done]. apply bind_Ok in H as (s & S & H). apply ok_or_Ok in H as ->.
    apply (fold_chosen is_candidate sequence encode []) in S; [done|by intros ? ?%elem_of_nil].
  - intros Cn L. rewrite (proj2 (Z.leb_le _ _)) by done. destruct (fold_consistent is_candidate sequence encode [] None xs) as (s & S); [done|by intros ? ?%elem_of_nil|].
    rewrite S. cbn [mbind result_bind]. apply (fold_chosen is_candidate sequence encode []) in S; [|by intros ? ?%elem_of_nil].
    destruct s as [c|]; [left; by exists c|right; by split].
  - intros L. by rewrite (proj2 (Z.leb_gt _ _)).
Qed.

(** The order of the candidates matters. Two valid candidates of one sequence that
    differ stop the selection when they come before a greater candidate, and are
    harmless when they come after it. *)
Theorem selection_order {T} (is_candidate : T -> bool) (sequence : T -> Z) encode (a b c : T) maximum ba bb
    (M : 3 <= maximum < usize_max) (V : is_candidate a = true /\ is_candidate b = true /\ is_candidate c = true)
    (S : sequence a = sequence b /\ sequence b < sequence c) (E : encode a = Ok ba /\ encode b = Ok bb /\ ba <> bb) :
  select_by_sequence is_candidate sequence encode [a; b; c] maximum = Err AuthConflictingSequence /\
  select_by_sequence is_candidate sequence encode [c; a; b] maximum = Ok c.
Proof.
  destruct V as (Va & Vb & Vc), S as (Sab & Sbc), E as (Ea & Eb & N). rewrite !select_bound by lia.
  change (len [a; b; c]) with 3. change (len [c; a; b]) with 3. rewrite (proj2 (Z.leb_le 3 maximum)) by lia.
  cbn [try_fold mbind result_bind select_step]. unfold select_step. rewrite Va, Vb, Vc. cbn [negb mbind result_bind].
  rewrite (proj2 (Z.ltb_ge (sequence a) (sequence b))), (proj2 (Z.eqb_eq (sequence b) (sequence a))) by lia.
  rewrite (proj2 (Z.ltb_ge (sequence c) (sequence a))), (proj2 (Z.eqb_neq (sequence a) (sequence c))) by lia. cbn [mbind result_bind].
  rewrite (proj2 (Z.ltb_ge (sequence c) (sequence b))), (proj2 (Z.eqb_neq (sequence b) (sequence c))) by lia.
  rewrite Eb. cbn [mbind result_bind]. rewrite Ea. cbn [mbind result_bind]. rewrite bool_decide_eq_false_2 by congruence. done.
Qed.

(** ** Names and signatures on the wire *)
Lemma service_name_Ok n :
  validate_service_name n = Ok tt -> 1 <= len n <= MAX_SERVICE_NAME /\ from_utf8_ok n = true.
Proof.
  unfold validate_service_name. rewrite assert_or_Ok, negb_true_iff, !orb_false_iff, !negb_false_iff, andb_true_iff, !Z.leb_le.
  intros (((L & _) & _) & F). split; [done|]. apply ascii_utf8. eapply forallb_imp; [|exact F]. intros b.
  unfold is_ascii_lowercase, is_ascii_digit, in_range. rewrite !orb_true_iff, !andb_true_iff, !Z.leb_le, bool_decide_eq_true, Z.ltb_lt.
  intros [[?|?]| ->]; [lia|lia|done].
Qed.

(** A field with its length in one byte before it. *)
Definition short_bytes (v : list byte) : list byte := z2b (len v) :: v.

Lemma read_service_name_reads d n :
  1 <= len n <= MAX_SERVICE_NAME -> from_utf8_ok n = true -> reads d read_service_name (short_bytes n) n.
Proof.
  intros L U. unfold read_service_name, short_bytes, MAX_SERVICE_NAME in *. change (z2b (len n) :: n) with ([z2b (len n)] ++ n).
  eapply reads_bind; [by apply reads_err, read_u8_reads|]. cbv zeta. rewrite z2b_small by lia.
  eapply reads_nil_bind; [apply reads_assert; rewrite !(proj2 (Z.leb_le _ _)) by lia; done|].
  eapply reads_last; [by apply reads_err, read_slice_reads|]. eapply reads_nil_bind; [by apply reads_assert|]. apply reads_ret.
Qed.

Lemma read_service_name_inv d n d' :
  dec_wf d -> read_service_name d = (Ok n, d') -> took d (short_bytes n) d' /\ 1 <= len n <= MAX_SERVICE_NAME.
Proof.
  intros W H. unfold read_service_name in H. dbind H as b d1 K1. dbind H as u1 d1' C1. dbind H as n' d2 K2. dbind H as u2 d2' C2.
  apply dec_ret_Ok in H as (<- & ->). took_all. apply read_slice_inv in K2 as (T & L); [|apply b2z_range|done].
  apply assert_or_Ok, andb_true_iff in C1. rewrite !Z.leb_le in C1. rewrite L. split; [|done]. unfold short_bytes. rewrite L, z2b_b2z.
  change (b :: n') with ([b] ++ n'). took_chain.
Qed.

Definition signature_ok (s : list byte) : Prop := 1 <= len s <= MAX_SIGNATURE_SIZE.

Lemma decode_signature_reads d s : signature_ok s -> reads d decode_signature (short_bytes s) s.
Proof.
  unfold signature_ok, MAX_SIGNATURE_SIZE. intros L. unfold decode_signature, short_bytes, MAX_SIGNATURE_SIZE. change (z2b (len s) :: s) with ([z2b (len s)] ++ s).
  eapply reads_bind; [by apply reads_err, read_u8_reads|]. cbv zeta. rewrite z2b_small by lia.
  eapply reads_nil_bind; [apply reads_assert; rewrite !(proj2 (Z.leb_le _ _)) by lia; done|]. apply reads_err, read_bounded_vec_reads. lia.
Qed.

Lemma decode_signature_inv d s d' : dec_wf d -> decode_signature d = (Ok s, d') -> took d (short_bytes s) d' /\ signature_ok s.
Proof.
  intros W H. unfold decode_signature in H. dbind H as b d1 K1. dbind H as u1 d1' C1. apply lift_err_Ok in H. took_all.
  apply read_bounded_vec_inv in H as (T & L & _); [|apply b2z_range|done].
  apply assert_or_Ok, andb_true_iff in C1. rewrite !Z.leb_le in C1. unfold signature_ok. rewrite L. split; [|done].
  unfold short_bytes. rewrite L, z2b_b2z. change (b :: s) with ([b] ++ s). took_chain.
Qed.

Lemma encode_signature_Ok e s e' :
  encode_signature e s = Ok e' <-> signature_ok s /\ e' = put_bytes (put_u8 e (z2b (len s))) s.
Proof.
  unfold encode_signature, signature_ok. pose proof (len_nonneg s). rewrite bind_Ok. setoid_rewrite assert_or_Ok.
  setoid_rewrite negb_true_iff. setoid_rewrite orb_false_iff. setoid_rewrite Z.eqb_neq. setoid_rewrite Z.ltb_ge. split.
  - intros (_ & (N & L) & [= <-]). split; [lia|done].
  - intros (L & ->). exists tt. split; [lia|done].
Qed.

Section codec.
Context {KC : K256}.

(** ** Authorizations *)
Definition unsigned_authorization (a : ServiceAuthorizationV1) : list byte :=
  [z2b AUTHORITY_VERSION] ++ to_le_bytes 4 (sa_network_magic a) ++ sa_name_hash a ++ to_le_bytes 4 (sa_authority_epoch a) ++
  short_bytes (sa_service_name a) ++ to_le_bytes 2 (sa_profile_id a) ++ sa_service_key a ++ to_le_bytes 2 (sa_flags a) ++
  to_le_bytes 8 (sa_serial a) ++ to_le_bytes 4 (sa_valid_from_height a) ++ to_le_bytes 4 (sa_valid_until_height a) ++
  to_le_bytes 4 (sa_max_endpoint_lifetime a).

Definition authorization_wf (a : ServiceAuthorizationV1) : Prop :=
  u32 (sa_network_magic a) /\ len (sa_name_hash a) = 32 /\ u32 (sa_authority_epoch a) /\ u16 (sa_profile_id a) /\
  len (sa_service_key a) = 33 /\ u16 (sa_flags a) /\ u64 (sa_serial a) /\ u32 (sa_valid_from_height a) /\
  u32 (sa_valid_until_height a) /\ u32 (sa_max_endpoint_lifetime a).

Definition authorization_valid (a : ServiceAuthorizationV1) : Prop :=
  validate_service_name (sa_service_name a) = Ok tt /\ sec1_key_ok (sa_service_key a) = true.

Lemma unsigned_authorization_Ok a bs :
  ServiceAuthorizationV1_encode_unsigned a = Ok bs <-> authorization_valid a /\ bs = unsigned_authorization a.
Proof.
  unfold ServiceAuthorizationV1_encode_unsigned, authorization_valid, validate_public_key.
  destruct (validate_service_name (sa_service_name a)) as [[]|]; [|by split; [|intros ((? & _) & _)]]. cbn [mbind result_bind].
  destruct (sec1_key_ok (sa_service_key a)); [|by split; [|intros ((_ & ?) & _)]]. cbn [assert_or mbind result_bind].
  unfold into_bytes, unsigned_authorization, short_bytes.
  repeat first [rewrite bytes_put_bytes | rewrite bytes_put_u8 | rewrite bytes_put_u16 | rewrite bytes_put_u32 | rewrite bytes_put_u64].
  rewrite bytes_with_capacity, <- !app_assoc. cbn [app]. split; [by intros [= <-]|by intros [_ ->]].
Qed.

Lemma authorization_encode_Ok a bs :
  ServiceAuthorizationV1_encode a = Ok bs <->
  authorization_valid a /\ signature_ok (sa_root_signature a) /\
  bs = unsigned_authorization a ++ short_bytes (sa_root_signature a) /\ len bs <= MAX_SERVICE_AUTHORIZATION_SIZE.
Proof.
  unfold ServiceAuthorizationV1_encode. split.
  - intros H. apply bind_Ok in H as (u & (V & ->)%unsigned_authorization_Ok & H). apply bind_Ok in H as (e & (S & ->)%encode_signature_Ok & H).
    apply bind_Ok in H as (u1 & L%assert_or_Ok%Z.leb_le & <-%Ok_inj). split; [done|]. split; [done|]. split; [|done].
    unfold into_bytes. by rewrite bytes_put_bytes, bytes_put_u8, bytes_put_bytes, bytes_with_capacity, <- app_assoc.
  - intros (V & S & -> & L). rewrite (proj2 (unsigned_authorization_Ok a _) (conj V eq_refl)). cbn [mbind result_bind].
    rewrite (proj2 (encode_signature_Ok _ _ _) (conj S eq_refl)). cbn [mbind result_bind]. unfold into_bytes.
    rewrite bytes_put_bytes, bytes_put_u8, bytes_put_bytes, bytes_with_capacity, <- app_assoc. cbn [app] in *. unfold short_bytes in L.
    by rewrite (proj2 (Z.leb_le _ _) L).
Qed.

Lemma read_authorization_inv d a d' :
  dec_wf d -> read_authorization d = (Ok a, d') ->
  took d (unsigned_authorization a ++ short_bytes (sa_root_signature a)) d' /\ authorization_wf a /\ signature_ok (sa_root_signature a).
Proof.
  intros W R. unfold read_authorization in R. dbind R as v d1 K1. dbind R as u1 d1' C1. dbind R as m d2 K2. dbind R as h d3 K3. dbind R as ep d4 K4.
  dbind R as n d5 K5. dbind R as p d6 K6. dbind R as k d7 K7. dbind R as f d8 K8. dbind R as s d9 K9. dbind R as vf d10 K10. dbind R as vu d11 K11.
  dbind R as ml d12 K12. dbind R as sg d13 K13. apply dec_ret_Ok in R as (<- & ->). took_all.
  apply read_service_name_inv in K5 as (T5 & _); [|done]. took_all. apply decode_signature_inv in K13 as (T13 & S); [|done].
  apply assert_or_Ok, Z.eqb_eq in C1. split; [|by split].
  unfold unsigned_authorization. cbn [sa_network_magic sa_name_hash sa_authority_epoch sa_service_name sa_profile_id sa_service_key sa_flags sa_serial
    sa_valid_from_height sa_valid_until_height sa_max_endpoint_lifetime sa_root_signature]. rewrite <- C1, z2b_b2z, <- !app_assoc. took_chain.
Qed.

Lemma read_authorization_reads d a :
  authorization_wf a -> authorization_valid a -> signature_ok (sa_root_signature a) ->
  reads d read_authorization (unsigned_authorization a ++ short_bytes (sa_root_signature a)) a.
Proof.
  intros (U1 & L1 & U2 & U3 & L2 & U4 & U5 & U6 & U7 & U8) (N & _) S. apply service_name_Ok in N as (Ln & Un).
  unfold read_authorization, unsigned_authorization. rewrite <- !app_assoc. eapply reads_bind; [by apply reads_err, read_u8_reads|].
  eapply reads_nil_bind; [by apply reads_assert|]. eapply reads_bind; [by apply reads_err, read_u32_reads|].
  eapply reads_bind; [by apply reads_err, read_array_reads|]. eapply reads_bind; [by apply reads_err, read_u32_reads|].
  eapply reads_bind; [by apply read_service_name_reads|]. eapply reads_bind; [by apply reads_err, read_u16_reads|].
  eapply reads_bind; [by apply reads_err, read_array_reads|]. eapply reads_bind; [by apply reads_err, read_u16_reads|].
  eapply reads_bind; [by apply reads_err, read_u64_reads|]. do 3 (eapply reads_bind; [by apply reads_err, read_u32_reads|]).
  eapply reads_last; [by apply decode_signature_reads|]. destruct a. apply reads_ret.
Qed.

Lemma authorization_decode_Ok inp a :
  ServiceAuthorizationV1_decode inp = Ok a <-> authorization_wf a /\ ServiceAuthorizationV1_encode a = Ok inp.
Proof.
  rewrite authorization_encode_Ok. unfold ServiceAuthorizationV1_decode. split.
  - intros H. apply bind_Ok in H as (u0 & K0%assert_or_Ok%negb_true_iff & H). apply orb_false_iff in K0 as (_ & K0%Z.ltb_ge).
    apply bind_Ok in H as (a' & (d & R & F)%run_all_Ok & H). apply bind_Ok in H as (u & (V & _)%unsigned_authorization_Ok & [= <-]).
    unfold MAX_SERVICE_AUTHORIZATION_SIZE in *. apply read_authorization_inv in R as (T & Wf & S); [|apply wf_new; unfold isize_max; lia].
    split; [done|]. split; [done|]. split; [done|]. split; [|done]. symmetry. by eapply took_finish.
  - intros (Wf & V & S & -> & L). unfold MAX_SERVICE_AUTHORIZATION_SIZE in *.
    rewrite (proj2 (Z.ltb_ge _ _)) by done. rewrite (proj2 (Z.eqb_neq _ 0)) by (apply len_nonzero; done). cbn [orb negb assert_or mbind result_bind].
    rewrite (run_all_reads AuthDecode read_authorization _ a); [|unfold isize_max; lia|by apply read_authorization_reads]. cbn [mbind result_bind].
    by rewrite (proj2 (unsigned_authorization_Ok a _) (conj V eq_refl)).
Qed.

(** ** Delegations *)
Definition unsigned_delegation (d : EndpointDelegationV1) : list byte :=
  [z2b AUTHORITY_VERSION] ++ to_le_bytes 4 (ed_network_magic d) ++ ed_authorization_id d ++ ed_endpoint_key d ++
  to_le_bytes 8 (ed_endpoint_sequence d) ++ to_le_bytes 8 (ed_issued_at d) ++ to_le_bytes 8 (ed_expires_at d) ++
  to_le_bytes 4 (ed_capabilities d) ++ ed_constraints_hash d.

Definition delegation_wf (d : EndpointDelegationV1) : Prop :=
  u32 (ed_network_magic d) /\ len (ed_authorization_id d) = 32 /\ len (ed_endpoint_key d) = 33 /\ u64 (ed_endpoint_sequence d) /\
  u64 (ed_issued_at d) /\ u64 (ed_expires_at d) /\ u32 (ed_capabilities d) /\ len (ed_constraints_hash d) = 32.

Lemma unsigned_delegation_Ok d bs :
  EndpointDelegationV1_encode_unsigned d = Ok bs <-> sec1_key_ok (ed_endpoint_key d) = true /\ bs = unsigned_delegation d.
Proof.
  unfold EndpointDelegationV1_encode_unsigned, validate_public_key.
  destruct (sec1_key_ok (ed_endpoint_key d)); [|by split; [|intros (? & _)]]. cbn [assert_or mbind result_bind].
  unfold into_bytes, unsigned_delegation.
  repeat first [rewrite bytes_put_bytes | rewrite bytes_put_u8 | rewrite bytes_put_u32 | rewrite bytes_put_u64].
  rewrite bytes_with_capacity, <- !app_assoc. cbn [app]. split; [by intros [= <-]|by intros [_ ->]].
Qed.

Lemma delegation_encode_Ok d bs :
  EndpointDelegationV1_encode d = Ok bs <->
  sec1_key_ok (ed_endpoint_key d) = true /\ signature_ok (ed_service_signature d) /\
  bs = unsigned_delegation d ++ short_bytes (ed_service_signature d) /\ len bs <= MAX_ENDPOINT_DELEGATION_SIZE.
Proof.
  unfold EndpointDelegationV1_encode. split.
  - intros H. apply bind_Ok in H as (u & (V & ->)%unsigned_delegation_Ok & H). apply bind_Ok in H as (e & (S & ->)%encode_signature_Ok & H).
    apply bind_Ok in H as (u1 & L%assert_or_Ok%Z.leb_le & <-%Ok_inj). split; [done|]. split; [done|]. split; [|done].
    unfold into_bytes. by rewrite bytes_put_bytes, bytes_put_u8, bytes_put_bytes, bytes_with_capacity, <- app_assoc.
  - intros (V & S & -> & L). rewrite (proj2 (unsigned_delegation_Ok d _) (conj V eq_refl)). cbn [mbind result_bind].
    rewrite (proj2 (encode_signature_Ok _ _ _) (conj S eq_refl)). cbn [mbind result_bind]. unfold into_bytes.
    rewrite bytes_put_bytes, bytes_put_u8, bytes_put_bytes, bytes_with_capacity, <- app_assoc. cbn [app] in *. unfold short_bytes in L.
    by rewrite (proj2 (Z.leb_le _ _) L).
Qed.

Lemma delegation_decode_Ok inp d :
  EndpointDelegationV1_decode inp = Ok d <-> delegation_wf d /\ EndpointDelegationV1_encode d = Ok inp.
Proof.
  rewrite delegation_encode_Ok. unfold EndpointDelegationV1_decode, MAX_ENDPOINT_DELEGATION_SIZE. split.
  - intros H. apply bind_Ok in H as (u0 & K0%assert_or_Ok%negb_true_iff & H). apply orb_false_iff in K0 as (_ & K0%Z.ltb_ge).
    apply bind_Ok in H as (d' & (dd & R & F)%run_all_Ok & H). apply bind_Ok in H as (u & (V & _)%unsigned_delegation_Ok & [= <-]).
    assert (dec_wf (Decoder_new inp)) by (apply wf_new; unfold isize_max; lia). unfold read_delegation in R.
    dbind R as v d1 K1. dbind R as u1 d1' C1. dbind R as m d2 K2. dbind R as a d3 K3. dbind R as k d4 K4. dbind R as s d5 K5. dbind R as i d6 K6.
    dbind R as e d7 K7. dbind R as c d8 K8. dbind R as h d9 K9. dbind R as sg d10 K10. apply dec_ret_Ok in R as (<- & ->). took_all.
    apply decode_signature_inv in K10 as (T10 & S); [|done]. apply assert_or_Ok, Z.eqb_eq in C1. split; [done|]. split; [done|]. split; [done|]. split; [|done].
    unfold unsigned_delegation. cbn [ed_network_magic ed_authorization_id ed_endpoint_key ed_endpoint_sequence ed_issued_at ed_expires_at ed_capabilities
      ed_constraints_hash ed_service_signature]. rewrite <- C1, z2b_b2z, <- !app_assoc. symmetry. eapply took_finish; [|exact F]. took_chain.
  - intros ((U1 & L1 & L2 & U2 & U3 & U4 & U5 & L3) & V & S & -> & L).
    rewrite (proj2 (Z.ltb_ge _ _)) by done. rewrite (proj2 (Z.eqb_neq _ 0)) by (apply len_nonzero; done). cbn [orb negb assert_or mbind result_bind].
    rewrite (run_all_reads AuthDecode read_delegation _ d); [|unfold isize_max; lia|].
    { cbn [mbind result_bind]. by rewrite (proj2 (unsigned_delegation_Ok d _) (conj V eq_refl)). }
    unfold read_delegation, unsigned_delegation. rewrite <- !app_assoc. eapply reads_bind; [by apply reads_err, read_u8_reads|].
    eapply reads_nil_bind; [by apply reads_assert|]. eapply reads_bind; [by apply reads_err, read_u32_reads|].
    do 2 (eapply reads_bind; [by apply reads_err, read_array_reads|]). do 3 (eapply reads_bind; [by apply reads_err, read_u64_reads|]).
    eapply reads_bind; [by apply reads_err, read_u32_reads|]. eapply reads_bind; [by apply reads_err, read_array_reads|].
    eapply reads_last; [by apply decode_signature_reads|]. destruct d. apply reads_ret.
Qed.
End codec.

(** Authorizations and delegations have one spelling: each decoder accepts exactly the
    encodings of well-formed values whose name, keys and signature lengths are valid. *)
Theorem service_authority_codec {KC : K256} inp :
  (forall a, ServiceAuthorizationV1_decode inp = Ok a <-> authorization_wf a /\ ServiceAuthorizationV1_encode a = Ok inp) /\
  (forall d, EndpointDelegationV1_decode inp = Ok d <-> delegation_wf d /\ EndpointDelegationV1_encode d = Ok inp).
Proof. split; intros x; [apply authorization_decode_Ok|apply delegation_decode_Ok]. Qed.

(** ** Chains of signatures *)
Section chain.
Context {CR : Crypto} {KC : K256} {KD : KeyCodec KC}.

(** [key] signed [message] under [domain], in low-S DER form. *)
Definition signed_by (key domain message der : list byte) : Prop :=
  sec1_key_ok key = true /\ signature_ok der /\ exists s, from_der der = Some s /\ is_high s = false /\
    verify_prehash key (blake2b 32 (domain ++ message)) s = true.

Lemma authority_digest domain message : authority_blake2b_256 [domain; message] = blake2b 32 (domain ++ message).
Proof. unfold authority_blake2b_256. cbn [mjoin list_join]. by rewrite app_nil_r. Qed.

Lemma authority_verify_Ok domain message der key :
  authority_verify domain message der key = Ok tt <-> signed_by key domain message der.
Proof.
  unfold authority_verify, signed_by, signature_ok. rewrite authority_digest. pose proof (len_nonneg der) as P. split.
  - intros H. apply bind_Ok in H as (u1 & K1%assert_or_Ok & H). apply bind_Ok in H as (u2 & K2%assert_or_Ok%negb_true_iff & H).
    apply bind_Ok in H as (s & K3%ok_or_Ok & H). apply bind_Ok in H as (u4 & K4%assert_or_Ok%negb_true_iff & H).
    apply bind_Ok in H as (u5 & _ & H). apply assert_or_Ok in H. rewrite orb_false_iff, Z.eqb_neq, Z.ltb_ge in K2.
    split; [done|]. split; [lia|]. by exists s.
  - intros (K & L & s & Ds & Hs & V). unfold validate_public_key. rewrite K. cbn [assert_or mbind result_bind].
    rewrite (proj2 (Z.eqb_neq _ 0)), (proj2 (Z.ltb_ge _ _)) by lia. cbn [orb negb assert_or mbind result_bind].
    rewrite Ds. cbn [ok_or mbind result_bind]. rewrite Hs. cbn [negb assert_or mbind result_bind]. by rewrite V.
Qed.

Definition authorization_context (a : ServiceAuthorizationV1) (authority : AuthorityRecord) (identity : ServiceIdentity) (height flags : Z) : Prop :=
  ServiceAuthorizationV1_identity a = identity /\ sa_profile_id a <> 0 /\ sa_authority_epoch a = ar_epoch authority /\
  Z.land (sa_flags a) (u16_max - flags) = 0 /\ sa_serial a <> 0 /\
  sa_valid_from_height a <= height < sa_valid_until_height a /\
  MIN_ENDPOINT_LIFETIME <= sa_max_endpoint_lifetime a <= MAX_ENDPOINT_LIFETIME.

Lemma authorization_verify_Ok a authority identity height flags :
  ServiceAuthorizationV1_verify a authority identity height flags = Ok tt <->
  authorization_context a authority identity height flags /\ authorization_valid a /\
  signed_by (ar_root_key authority) SERVICE_AUTH_DOMAIN (drop 1 (unsigned_authorization a)) (sa_root_signature a).
Proof.
  unfold ServiceAuthorizationV1_verify, authorization_context, ServiceIdentity_validate. split.
  - intros H. apply bind_Ok in H as ([] & N & H). apply bind_Ok in H as (u1 & K%assert_or_Ok%negb_true_iff & H).
    apply bind_Ok in H as (u & (V & ->)%unsigned_authorization_Ok & H%authority_verify_Ok).
    rewrite !orb_false_iff, !negb_false_iff, !bool_decide_eq_true, !andb_true_iff, !Z.eqb_neq, !Z.eqb_eq, !Z.leb_le, !Z.leb_gt, !Z.ltb_ge in K.
    split; [|done]. split_and!; apply K.
  - intros ((E & C) & (Vn & Vk) & S). rewrite <- E at 1. cbn [ServiceAuthorizationV1_identity si_service_name]. rewrite Vn. cbn [mbind result_bind].
    match goal with |- context [assert_or (negb ?x) _] => assert (x = false) as -> end.
    { rewrite !orb_false_iff, !negb_false_iff, !bool_decide_eq_true, !andb_true_iff, !Z.eqb_neq, !Z.eqb_eq, !Z.leb_le, !Z.leb_gt, !Z.ltb_ge.
      split_and!; try done; lia. }
    cbn [negb assert_or mbind result_bind]. rewrite (proj2 (unsigned_authorization_Ok a _) (conj (conj Vn Vk) eq_refl)).
    cbn [mbind result_bind]. by apply authority_verify_Ok.
Qed.

Definition delegation_context (d : EndpointDelegationV1) (a : ServiceAuthorizationV1) (now capabilities : Z) (constraints_hash : list byte) : Prop :=
  ed_network_magic d = sa_network_magic a /\ ServiceAuthorizationV1_id a = Ok (ed_authorization_id d) /\ ed_endpoint_sequence d <> 0 /\
  Z.land (ed_capabilities d) (u32_max - capabilities) = 0 /\ ed_constraints_hash d = constraints_hash /\
  ed_issued_at d <= now < ed_expires_at d /\ ed_expires_at d - ed_issued_at d <= sa_max_endpoint_lifetime a.

Lemma delegation_verify_Ok d a now capabilities hash :
  EndpointDelegationV1_verify d a now capabilities hash = Ok tt <->
  delegation_context d a now capabilities hash /\ sec1_key_ok (ed_endpoint_key d) = true /\
  signed_by (sa_service_key a) ENDPOINT_DELEGATION_DOMAIN (drop 1 (unsigned_delegation d)) (ed_service_signature d).
Proof.
  unfold EndpointDelegationV1_verify, delegation_context, saturating_sub. split.
  - intros H. apply bind_Ok in H as (u0 & K0%assert_or_Ok%Z.eqb_eq & H). apply bind_Ok in H as (i & I & H).
    apply bind_Ok in H as (u1 & K%assert_or_Ok%negb_true_iff & H). apply bind_Ok in H as (u & (V & ->)%unsigned_delegation_Ok & H%authority_verify_Ok).
    rewrite !orb_false_iff, !negb_false_iff, !bool_decide_eq_true, !Z.eqb_neq, !Z.eqb_eq, !Z.leb_gt, !Z.ltb_ge in K.
    destruct K as (((((((-> & K2) & K3) & K4) & K5) & K6) & K7) & K8). split; [|done]. split_and!; try done; lia.
  - intros ((E & I & C) & V & S). rewrite E, Z.eqb_refl. cbn [assert_or mbind result_bind]. rewrite I. cbn [mbind result_bind].
    match goal with |- context [assert_or (negb ?x) _] => assert (x = false) as -> end.
    { rewrite !orb_false_iff, !negb_false_iff, !bool_decide_eq_true, !Z.eqb_neq, !Z.eqb_eq, !Z.leb_gt, !Z.ltb_ge.
      destruct C as (C1 & C2 & C3 & C4 & C5). split_and!; try done; lia. }
    cbn [negb assert_or mbind result_bind]. rewrite (proj2 (unsigned_delegation_Ok d _) (conj V eq_refl)).
    cbn [mbind result_bind]. by apply authority_verify_Ok.
Qed.

(** C36. The chain from a name's root key to an endpoint, exactly. An authorization verifies
    under an authority record when it is for the expected identity and the record's
    epoch, within its heights and limits, and the root key signed all its fields; a
    delegation verifies under an authorization when it names that authorization, within
    its time window and limits, and the authorization's service key signed all its
    fields. *)
Theorem service_chain_exact a authority identity height flags d now capabilities hash :
  (ServiceAuthorizationV1_verify a authority identity height flags = Ok tt <->
   authorization_context a authority identity height flags /\ authorization_valid a /\
   signed_by (ar_root_key authority) SERVICE_AUTH_DOMAIN (drop 1 (unsigned_authorization a)) (sa_root_signature a)) /\
  (EndpointDelegationV1_verify d a now capabilities hash = Ok tt <->
   delegation_context d a now capabilities hash /\ sec1_key_ok (ed_endpoint_key d) = true /\
   signed_by (sa_service_key a) ENDPOINT_DELEGATION_DOMAIN (drop 1 (unsigned_delegation d)) (ed_service_signature d)).
Proof. split; [apply authorization_verify_Ok|apply delegation_verify_Ok]. Qed.

Context {KL : K256Laws KC} {DL : KeyCodecLaws KC KD}.

Lemma authority_sign_signed domain message sk key der :
  authority_sign domain message sk = Ok der -> public_key sk = Ok key -> signed_by key domain message der.
Proof.
  unfold authority_sign, public_key. intros H P. apply bind_Ok in H as (k & K & H). rewrite K in P. cbn [mbind result_bind] in P.
  apply bind_Ok in P as (u & _ & <-%Ok_inj). apply bind_Ok in H as (s & S%ok_or_Ok & <-%Ok_inj). rewrite authority_digest in S.
  apply sign_ok in S as (_ & C & V). split; [apply verifying_key_ok|].
  assert (exists s', default s (normalize_s s) = s' /\ compact_ok s' = true /\ is_high s' = false /\
   verify_prehash (verifying_key k) (blake2b 32 (domain ++ message)) s' = true) as (s' & -> & C' & H' & V').
  { unfold is_high. destruct (normalize_s s) as [s'|] eqn:N; [|by exists s; rewrite N].
    destruct (normalize_ok _ _ N) as (_ & C' & N' & E). exists s'. rewrite N', E. done. }
  pose proof (der_size s' C'). split; [unfold signature_ok, MAX_SIGNATURE_SIZE; lia|]. exists s'. by rewrite (der_roundtrip s' C').
Qed.

(** What the owner signs verifies. An authorization signed with the root's secret key
    verifies under the record of the root's public key, and a delegation signed with the
    service's secret key verifies under it, whenever their contexts hold. *)
Theorem service_chain_signs root service a a' d d' authority identity height flags now capabilities hash
    (R : public_key root = Ok (ar_root_key authority)) (S : public_key service = Ok (sa_service_key a))
    (Sa : ServiceAuthorizationV1_sign a root = Ok a') (Sd : EndpointDelegationV1_sign d service = Ok d')
    (Ca : authorization_context a authority identity height flags) (Cd : delegation_context d a' now capabilities hash) :
  ServiceAuthorizationV1_verify a' authority identity height flags = Ok tt /\ EndpointDelegationV1_verify d' a' now capabilities hash = Ok tt.
Proof.
  unfold ServiceAuthorizationV1_sign in Sa. apply bind_Ok in Sa as (ua & (Va & ->)%unsigned_authorization_Ok & Sa).
  apply bind_Ok in Sa as (sa & Ga & <-%Ok_inj). unfold EndpointDelegationV1_sign in Sd. apply bind_Ok in Sd as (ud & (Vd & ->)%unsigned_delegation_Ok & Sd).
  apply bind_Ok in Sd as (sd & Gd & <-%Ok_inj). split.
  - apply authorization_verify_Ok. split; [done|]. split; [done|]. exact (authority_sign_signed _ _ _ _ _ Ga R).
  - apply delegation_verify_Ok. split; [done|]. split; [done|]. exact (authority_sign_signed _ _ _ _ _ Gd S).
Qed.
End chain.

(** ** Examples *)
Lemma selection_exact_witness :
  exists c, select_by_sequence (fun _ => true) (fun x => x) (fun x => Ok [z2b x]) [3; 5; 4] 16 = Ok c /\ 3 <= c.
Proof.
  exists 5. split; [reflexivity|].
  apply (proj1 (selection_exact (fun _ => true) (fun x => x) (fun x => Ok [z2b x]) [3; 5; 4] 16 ltac:(vm_compute; split; [discriminate|reflexivity]))
    5 eq_refl); [by left|reflexivity].
Defined.

Lemma selection_order_witness :
  select_by_sequence (fun _ => true) fst (fun x => Ok [z2b x.2]) [(1, 1); (1, 2); (2, 3)] 16 = Err AuthConflictingSequence.
Proof.
  apply (selection_order (fun _ => true) fst (fun x => Ok [z2b x.2]) (1, 1) (1, 2) (2, 3) 16 [x01] [x02]).
  - vm_compute; split; [discriminate|reflexivity].
  - split; [reflexivity|]. split; reflexivity.
  - split; [reflexivity|]. vm_compute. reflexivity.
  - split; [reflexivity|]. split; [reflexivity|discriminate].
Defined.

Lemma authority_record_respelled_witness :
  exists text, @AuthorityRecord_parse toy_k256 text = Ok (mkAuthority (x02 :: x07 :: zeros 31) 4).
Proof.
  destruct (@authority_record_respelled toy_k256 (mkAuthority (x02 :: x07 :: zeros 31) 4)) as (text & P & _).
  - split; reflexivity.
  - vm_compute; split; discriminate.
  - exists text. exact P.
Defined.

Definition sample_root : AuthorityRecord := mkAuthority (x02 :: x07 :: zeros 31) 4.
Definition sample_identity : ServiceIdentity := mkIdentity 7 (zeros 32) (bstr "chat") 3.
Definition sample_authorization : ServiceAuthorizationV1 :=
  mkAuthorization 7 (zeros 32) 4 (bstr "chat") 3 (x02 :: x08 :: zeros 31) 0 1 100 200 600 [].
Definition sample_signed : ServiceAuthorizationV1 :=
  match @ServiceAuthorizationV1_sign toy_crypto toy_k256 toy_codec sample_authorization [x07] with Ok a => a | Err _ => sample_authorization end.
Definition sample_delegation : EndpointDelegationV1 :=
  mkDelegation 7 (match @ServiceAuthorizationV1_id toy_crypto toy_k256 sample_signed with Ok i => i | Err _ => [] end)
    (x02 :: x09 :: zeros 31) 1 1000 1300 0 (zeros 32) [].
Definition sample_delegated : EndpointDelegationV1 :=
  match @EndpointDelegationV1_sign toy_crypto toy_k256 toy_codec sample_delegation [x08] with Ok d => d | Err _ => sample_delegation end.

Lemma service_chain_signs_witness :
  @ServiceAuthorizationV1_verify toy_crypto toy_k256 toy_codec sample_signed sample_root sample_identity 150 0 = Ok tt.
Proof.
  apply (@service_chain_signs toy_crypto toy_k256 toy_codec toy_k256_laws toy_codec_laws [x07] [x08] sample_authorization sample_signed
    sample_delegation sample_delegated sample_root sample_identity 150 0 1100 0 (zeros 32)).
  - vm_compute. reflexivity.
  - vm_compute. reflexivity.
  - vm_compute. reflexivity.
  - vm_compute. reflexivity.
  - split; [reflexivity|]. split; [discriminate|]. split; [reflexivity|]. split; [reflexivity|]. split; [discriminate|].
    vm_compute. repeat split; discriminate.
  - split; [reflexivity|]. split; [vm_compute; reflexivity|]. split; [discriminate|]. split; [reflexivity|]. split; [reflexivity|].
    vm_compute. repeat split; discriminate.
Defined.
