(* ===== verification/Chat.v ===== *)
(** * hns-chat-protocol: owner-bound chat identities and mailbox values

    Models [crates/hns-chat-protocol/src]: the [hnschat] resource binding
    ([binding.rs]), its proof against the current owner output ([owner.rs]) and the
    mailbox values ([wire.rs]). secp256k1 is class [K256], the hexadecimal crate class
    [Hex]. Texts are their bytes. *)

From stdpp Require Import gmap.
From S2P Require Import Prelude Encoding Primitives Covenants Resource Transaction Script Interpreter K256 Cbor Text ServiceAuthority.
Local Open Scope Z_scope.

Inductive ChatProtocolError :=
| ChatDecode (e : DecodeError)
| ChatInvalid (reason : string)
| ChatTooLarge (actual maximum : Z)
| ChatMissingBinding
| ChatAmbiguousBinding
| ChatUnsupportedOwnerScript
| ChatStaleOwner
| ChatAmbiguousOwnerKey
| ChatDuplicateMessageId.

(** ** binding.rs *)
Definition CHAT_PREFIX : list byte := bstr "hnschat=".
Definition CHAT_CANONICAL_PREFIX : list byte := bstr "hnschat=v1;key=owner;pk=".
Definition GENERATION_FIELD : list byte := bstr ";generation=".

Inductive ChatKeyMode := ChatOwner.
#[global] Instance ChatKeyMode_eq_dec : EqDecision ChatKeyMode.
Proof. solve_decision. Defined.

Record ChatIdentityBindingV1 := mkBindingV1 {
  cb_key_mode : ChatKeyMode;
  cb_xonly_public_key : list byte;
  cb_generation : Z;
}.

Definition parse_generation (text : list byte) : result ChatProtocolError Z :=
  assert_or (negb ((len text =? 0) || ((1 <? len text) && bool_decide (head text = Some x30)) || negb (forallb is_ascii_digit text)))
    (ChatInvalid "generation is not canonical decimal") ;;
  generation ← ok_or (parse_u32 text) (ChatInvalid "generation exceeds u32");
  assert_or (negb (generation =? 0)) (ChatInvalid "generation must be nonzero") ;;
  Ok generation.

Section keys.
Context {CR : Crypto} {KC : K256} {HX : Hex}.

Definition validate_xonly_public_key (public_key : list byte) : result ChatProtocolError unit :=
  assert_or (sec1_key_ok (x02 :: public_key)) (ChatInvalid "invalid secp256k1 x-only public key").

Definition ChatIdentityBindingV1_validate (b : ChatIdentityBindingV1) : result ChatProtocolError unit :=
  assert_or (negb (negb (bool_decide (cb_key_mode b = ChatOwner)) || (cb_generation b =? 0)))
    (ChatInvalid "version 1 requires owner key mode and nonzero generation") ;;
  validate_xonly_public_key (cb_xonly_public_key b).

Definition parse_xonly_public_key (text : list byte) : result ChatProtocolError (list byte) :=
  assert_or (negb (negb (len text =? 64) || negb (forallb (fun b => is_ascii_digit b || in_range b 0x61 0x66) text)))
    (ChatInvalid "public key must be exactly 64 lowercase hexadecimal characters") ;;
  decoded ← ok_or (hex_decode text) (ChatInvalid "public key is not hexadecimal");
  assert_or (len decoded =? 32) (ChatInvalid "public key is not 32 bytes") ;;
  validate_xonly_public_key decoded ;;
  Ok decoded.

(** The fields after the prefix: the key, and the generation or its default. *)
Definition parse_fields (remainder : list byte) : result ChatProtocolError (list byte * Z) :=
  match split_once GENERATION_FIELD remainder with
  | Some (public_key, generation) =>
    assert_or (negb (contains_char x3b generation)) (ChatInvalid "resource has duplicate, unknown, or trailing fields") ;;
    generation ← parse_generation generation;
    Ok (public_key, generation)
  | None =>
    assert_or (negb (contains_char x3b remainder)) (ChatInvalid "resource has duplicate, unknown, or trailing fields") ;;
    Ok (remainder, 1)
  end.

Definition parse_chat_binding (text : list byte) : result ChatProtocolError ChatIdentityBindingV1 :=
  assert_or (negb (negb (is_ascii_text text) || (len text =? 0) || existsb (fun b => negb (is_ascii_graphic b)) text))
    (ChatInvalid "resource binding must contain only visible ASCII without whitespace") ;;
  remainder ← ok_or (strip_prefix CHAT_CANONICAL_PREFIX text)
    (ChatInvalid "resource fields are missing, unknown, duplicated, or out of order");
  '(public_key, generation) ← parse_fields remainder;
  xonly_public_key ← parse_xonly_public_key public_key;
  Ok (mkBindingV1 ChatOwner xonly_public_key generation).

Definition encode_chat_binding (b : ChatIdentityBindingV1) : result ChatProtocolError (list byte) :=
  ChatIdentityBindingV1_validate b ;;
  Ok (CHAT_CANONICAL_PREFIX ++ hex_encode (cb_xonly_public_key b) ++ GENERATION_FIELD ++ decimal (cb_generation b)).

(** [selected.replace(parsed).is_some()]. *)
Definition replace_selected (selected : option ChatIdentityBindingV1) (parsed : ChatIdentityBindingV1)
  : result ChatProtocolError (option ChatIdentityBindingV1) :=
  match selected with
  | Some _ => Err ChatAmbiguousBinding
  | None => Ok (Some parsed)
  end.

Definition select_text (selected : option ChatIdentityBindingV1) (record : list byte)
  : result ChatProtocolError (option ChatIdentityBindingV1) :=
  if negb (starts_with CHAT_PREFIX record) then Ok selected
  else parsed ← parse_chat_binding record; replace_selected selected parsed.

Definition select_chat_binding (records : list (list byte)) : result ChatProtocolError ChatIdentityBindingV1 :=
  selected ← try_fold select_text None records;
  ok_or selected ChatMissingBinding.

Definition select_record (selected : option ChatIdentityBindingV1) (record : ResourceRecord)
  : result ChatProtocolError (option ChatIdentityBindingV1) :=
  match record with
  | Txt strings =>
    length ← try_fold (fun total string => ok_or (checked_add usize_max total (len string)) (ChatTooLarge usize_max MAX_RESOURCE_SIZE)) 0 strings;
    assert_or (length <=? MAX_RESOURCE_SIZE) (ChatTooLarge length MAX_RESOURCE_SIZE) ;;
    let text := mjoin strings in
    if negb (starts_with CHAT_PREFIX text) then Ok selected
    else assert_or (from_utf8_ok text) (ChatInvalid "hnschat TXT record is not canonical ASCII") ;;
         parsed ← parse_chat_binding text; replace_selected selected parsed
  | _ => Ok selected
  end.

Definition select_chat_binding_from_resource (resource : Resource) : result ChatProtocolError ChatIdentityBindingV1 :=
  selected ← try_fold select_record None (records resource);
  ok_or selected ChatMissingBinding.

(** ** owner.rs *)
Inductive ChatIdentityTrust := ResourceAuthenticated | CurrentOwnerVerified | TrustStaleOwner | TrustUnsupportedOwnerScript.
#[global] Instance ChatIdentityTrust_eq_dec : EqDecision ChatIdentityTrust.
Proof. solve_decision. Defined.

Record VerifiedOwnerBindingV1 := mkVerified {
  vb_binding : ChatIdentityBindingV1;
  vb_original_compressed_public_key : list byte;
  vb_trust : ChatIdentityTrust;
}.

Definition xonly_from_compressed_public_key (key : list byte) : result ChatProtocolError (list byte) :=
  assert_or (negb (negb (bool_decide (head key ∈ [Some x02; Some x03])) || negb (sec1_key_ok key)))
    (ChatInvalid "invalid compressed secp256k1 public key") ;;
  Ok (drop 1 key).

Definition try_parity (owner_output : Output) (xonly_public_key : list byte) (matched : option (list byte)) (parity : byte)
  : result ChatProtocolError (option (list byte)) :=
  let candidate := parity :: xonly_public_key in
  if negb (sec1_key_ok candidate) then Ok matched
  else match Address_from_compressed_public_key candidate with
       | Err _ => Err (ChatInvalid "owner public key cannot form an address")
       | Ok candidate_address =>
         if bool_decide (addr_version candidate_address = addr_version (out_address owner_output)) &&
            bool_decide (addr_hash candidate_address = addr_hash (out_address owner_output))
         then match matched with
              | Some _ => Err ChatAmbiguousOwnerKey
              | None => Ok (Some candidate)
              end
         else Ok matched
       end.

Definition resolve_compressed_owner_key (owner_output : Output) (xonly_public_key : list byte) : result ChatProtocolError (list byte) :=
  assert_or (negb (negb (b2z (addr_version (out_address owner_output)) =? 0) ||
                   negb (len (addr_hash (out_address owner_output)) =? 20))) ChatUnsupportedOwnerScript ;;
  assert_or (sec1_key_ok (x02 :: xonly_public_key)) (ChatInvalid "invalid secp256k1 x-only public key") ;;
  matched ← try_fold (try_parity owner_output xonly_public_key) None [x02; x03];
  ok_or matched ChatStaleOwner.

Definition verify_current_owner_binding (binding : ChatIdentityBindingV1) (owner_output : Output)
  : result ChatProtocolError VerifiedOwnerBindingV1 :=
  ChatIdentityBindingV1_validate binding ;;
  original_compressed_public_key ← resolve_compressed_owner_key owner_output (cb_xonly_public_key binding);
  Ok (mkVerified binding original_compressed_public_key CurrentOwnerVerified).

(** The conditions are tried in order; the key is only parsed when the first two hold. *)
Definition owner_authority_record (verified : VerifiedOwnerBindingV1) : result ChatProtocolError AuthorityRecord :=
  let refused := ChatInvalid "owner authority requires a current verified binding" in
  assert_or (negb (negb (bool_decide (vb_trust verified = CurrentOwnerVerified)) || (cb_generation (vb_binding verified) =? 0))) refused ;;
  xonly ← xonly_from_compressed_public_key (vb_original_compressed_public_key verified);
  assert_or (bool_decide (xonly = cb_xonly_public_key (vb_binding verified))) refused ;;
  Ok (mkAuthority (vb_original_compressed_public_key verified) (cb_generation (vb_binding verified))).

(** ** wire.rs *)
Definition HNS_CHAT_WIRE_VERSION : Z := 1.
Definition MAX_CHAT_CIPHERTEXT_SIZE : Z := 8 * 1024.
Definition MAX_CHAT_ACKNOWLEDGEMENT_SIZE : Z := 2 * 1024.
Definition MAX_CHAT_ENVELOPE_SIZE : Z := 1 + 32 + 32 + 8 + 8 + 3 + MAX_CHAT_CIPHERTEXT_SIZE.
Definition MAX_CHAT_ACKNOWLEDGEMENT_WIRE_SIZE : Z := 1 + 32 + 8 + 3 + MAX_CHAT_ACKNOWLEDGEMENT_SIZE.
Definition MAX_CHAT_EXPIRATION_WINDOW : Z := 7 * 24 * 60 * 60.

Definition all_zero (bs : list byte) : bool := forallb (fun b => bool_decide (b = x00)) bs.

Record ChatEnvelopeV1 := mkChatEnvelope {
  ce_message_id : list byte;
  ce_recipient_public_key : list byte;
  ce_created_at : Z;
  ce_expires_at : Z;
  ce_gift_wrap : list byte;
}.

Definition ChatEnvelopeV1_validate (e : ChatEnvelopeV1) : result ChatProtocolError unit :=
  assert_or (negb (all_zero (ce_message_id e))) (ChatInvalid "message identifier is zero") ;;
  assert_or (negb (all_zero (ce_recipient_public_key e))) (ChatInvalid "recipient public key is zero") ;;
  assert_or (sec1_key_ok (x02 :: ce_recipient_public_key e)) (ChatInvalid "recipient public key is not a valid x-only secp256k1 key") ;;
  assert_or (negb ((ce_created_at e =? 0) || (ce_expires_at e <=? ce_created_at e) ||
                   (MAX_CHAT_EXPIRATION_WINDOW <? ce_expires_at e - ce_created_at e)))
    (ChatInvalid "message timestamps are noncanonical or exceed retention") ;;
  assert_or (negb (len (ce_gift_wrap e) =? 0)) (ChatInvalid "NIP-59 gift wrap is empty") ;;
  assert_or (len (ce_gift_wrap e) <=? MAX_CHAT_CIPHERTEXT_SIZE) (ChatTooLarge (len (ce_gift_wrap e)) MAX_CHAT_CIPHERTEXT_SIZE).

Definition ChatEnvelopeV1_encode (e : ChatEnvelopeV1) : result ChatProtocolError (list byte) :=
  ChatEnvelopeV1_validate e ;;
  let encoder := put_u8 (with_capacity (saturating_add usize_max 81 (len (ce_gift_wrap e)))) (z2b HNS_CHAT_WIRE_VERSION) in
  let encoder := put_bytes (put_bytes encoder (ce_message_id e)) (ce_recipient_public_key e) in
  let encoder := put_u64_le (put_u64_le encoder (ce_created_at e)) (ce_expires_at e) in
  let encoded := into_bytes (put_varbytes encoder (ce_gift_wrap e)) in
  assert_or (len encoded <=? MAX_CHAT_ENVELOPE_SIZE) (ChatTooLarge (len encoded) MAX_CHAT_ENVELOPE_SIZE) ;;
  Ok encoded.

Definition read_chat_envelope : decM ChatProtocolError ChatEnvelopeV1 :=
  version ← lift_err ChatDecode read_u8;
  lift_res (assert_or (b2z version =? HNS_CHAT_WIRE_VERSION) (ChatInvalid "unsupported chat envelope version")) ;;
  message_id ← lift_err ChatDecode (read_array 32);
  recipient_public_key ← lift_err ChatDecode (read_array 32);
  created_at ← lift_err ChatDecode read_u64_le;
  expires_at ← lift_err ChatDecode read_u64_le;
  gift_wrap ← lift_err ChatDecode (read_varbytes MAX_CHAT_CIPHERTEXT_SIZE "NIP-59 gift wrap");
  mret (mkChatEnvelope message_id recipient_public_key created_at expires_at gift_wrap).

Definition ChatEnvelopeV1_decode (input : list byte) : result ChatProtocolError ChatEnvelopeV1 :=
  assert_or (len input <=? MAX_CHAT_ENVELOPE_SIZE) (ChatTooLarge (len input) MAX_CHAT_ENVELOPE_SIZE) ;;
  envelope ← run_all ChatDecode read_chat_envelope input;
  ChatEnvelopeV1_validate envelope ;;
  Ok envelope.

Record ChatAcknowledgementV1 := mkChatAck { ca_message_id : list byte; ca_received_at : Z; ca_encrypted_receipt : list byte }.

Definition ChatAcknowledgementV1_validate (a : ChatAcknowledgementV1) : result ChatProtocolError unit :=
  assert_or (negb (all_zero (ca_message_id a))) (ChatInvalid "message identifier is zero") ;;
  assert_or (negb (ca_received_at a =? 0)) (ChatInvalid "acknowledgement timestamp is zero") ;;
  assert_or (negb (len (ca_encrypted_receipt a) =? 0)) (ChatInvalid "encrypted acknowledgement is empty") ;;
  assert_or (len (ca_encrypted_receipt a) <=? MAX_CHAT_ACKNOWLEDGEMENT_SIZE)
    (ChatTooLarge (len (ca_encrypted_receipt a)) MAX_CHAT_ACKNOWLEDGEMENT_SIZE).

Definition ChatAcknowledgementV1_encode (a : ChatAcknowledgementV1) : result ChatProtocolError (list byte) :=
  ChatAcknowledgementV1_validate a ;;
  let encoder := put_u8 (with_capacity (saturating_add usize_max 42 (len (ca_encrypted_receipt a)))) (z2b HNS_CHAT_WIRE_VERSION) in
  let encoder := put_u64_le (put_bytes encoder (ca_message_id a)) (ca_received_at a) in
  let encoded := into_bytes (put_varbytes encoder (ca_encrypted_receipt a)) in
  assert_or (len encoded <=? MAX_CHAT_ACKNOWLEDGEMENT_WIRE_SIZE) (ChatTooLarge (len encoded) MAX_CHAT_ACKNOWLEDGEMENT_WIRE_SIZE) ;;
  Ok encoded.

Definition read_chat_ack : decM ChatProtocolError ChatAcknowledgementV1 :=
  version ← lift_err ChatDecode read_u8;
  lift_res (assert_or (b2z version =? HNS_CHAT_WIRE_VERSION) (ChatInvalid "unsupported acknowledgement version")) ;;
  message_id ← lift_err ChatDecode (read_array 32);
  received_at ← lift_err ChatDecode read_u64_le;
  encrypted_receipt ← lift_err ChatDecode (read_varbytes MAX_CHAT_ACKNOWLEDGEMENT_SIZE "encrypted acknowledgement");
  mret (mkChatAck message_id received_at encrypted_receipt).

Definition ChatAcknowledgementV1_decode (input : list byte) : result ChatProtocolError ChatAcknowledgementV1 :=
  assert_or (len input <=? MAX_CHAT_ACKNOWLEDGEMENT_WIRE_SIZE) (ChatTooLarge (len input) MAX_CHAT_ACKNOWLEDGEMENT_WIRE_SIZE) ;;
  acknowledgement ← run_all ChatDecode read_chat_ack input;
  ChatAcknowledgementV1_validate acknowledgement ;;
  Ok acknowledgement.

(** [HashSet::insert] answers whether the identifier was absent. *)
Definition insert_message_id (identifiers : gset (list byte)) (envelope : ChatEnvelopeV1)
  : result ChatProtocolError (gset (list byte)) :=
  ChatEnvelopeV1_validate envelope ;;
  if bool_decide (ce_message_id envelope ∈ identifiers) then Err ChatDuplicateMessageId
  else Ok ({[ce_message_id envelope]} ∪ identifiers).

Definition validate_unique_message_ids (envelopes : list ChatEnvelopeV1) : result ChatProtocolError unit :=
  try_fold insert_message_id ∅ envelopes ;; Ok tt.
End keys.

(** ** Bindings *)
Section binding_lemmas.
Context {KC : K256} {HX : Hex} {HL : HexLaws HX}.

Lemma parse_generation_Ok s n : parse_generation s = Ok n <-> s = decimal n /\ 1 <= n <= u32_max.
Proof.
  unfold parse_generation. split.
  - intros H. apply bind_Ok in H as (u1 & K1%assert_or_Ok%negb_true_iff & H). apply bind_Ok in H as (g & K2%ok_or_Ok & H).
    apply bind_Ok in H as (u3 & K3%assert_or_Ok%negb_true_iff%Z.eqb_neq & [= <-]).
    rewrite !orb_false_iff, negb_false_iff, Z.eqb_neq, <- len_nonzero in K1. destruct K1 as ((N & Z0) & F).
    assert (canonical_digits s) as C.
    { split; [done|]. split; [done|]. intros Hd. rewrite Hd, bool_decide_eqb_refl, andb_true_r, Z.ltb_ge in Z0.
      destruct s as [|b [|c s]]; [done|by injection Hd as ->|]. rewrite !len_cons in Z0. pose proof (len_nonneg s). lia. }
    apply parse_canonical in K2 as (-> & R); [|done|done]. split; [done|lia].
  - intros (-> & R). unfold u32_max in R. destruct (decimal_digits_ok 20 n) as ((F & N & C) & _); [change (Z.of_nat 21) with 21; lia|].
    change (decimal_digits 20 n) with (decimal n) in *. rewrite F. rewrite (proj2 (Z.eqb_neq _ 0)) by by apply len_nonzero.
    assert ((1 <? len (decimal n)) && bool_decide (head (decimal n) = Some x30) = false) as ->.
    { destruct (bool_decide _) eqn:B; [|apply andb_false_r]. apply bool_decide_eq_true in B. by rewrite (C B). }
    cbn [negb orb assert_or mbind result_bind]. unfold parse_u32. rewrite parse_decimal by (unfold u32_max; lia).
    cbn [ok_or mbind result_bind]. by rewrite (proj2 (Z.eqb_neq n 0)) by lia.
Qed.

Lemma parse_xonly_Ok s k :
  parse_xonly_public_key s = Ok k <-> s = hex_encode k /\ len k = 32 /\ sec1_key_ok (x02 :: k) = true.
Proof.
  unfold parse_xonly_public_key, validate_xonly_public_key. split.
  - intros H. apply bind_Ok in H as (u1 & K1%assert_or_Ok%negb_true_iff & H). apply bind_Ok in H as (d & K2%ok_or_Ok & H).
    apply bind_Ok in H as (u3 & K3%assert_or_Ok%Z.eqb_eq & H). apply bind_Ok in H as (u4 & K4%assert_or_Ok & [= <-]).
    rewrite orb_false_iff, !negb_false_iff, Z.eqb_eq in K1. destruct K1 as (L & F).
    destruct (hex_decode_lower s) as (bs & D & E); [done|by rewrite L|]. rewrite D in K2. injection K2 as ->. done.
  - intros (-> & L & K). destruct (hex_encode_digits k) as (Lh & F). unfold is_lower_hex in F. rewrite Lh, L, F. cbn [Z.mul Pos.mul Z.eqb Pos.eqb negb orb assert_or mbind result_bind].
    rewrite hex_decode_encode. cbn [ok_or mbind result_bind]. rewrite L. cbn [Z.eqb Pos.eqb assert_or mbind result_bind]. by rewrite K.
Qed.

Lemma visible_text t :
  negb (negb (is_ascii_text t) || (len t =? 0) || existsb (fun b => negb (is_ascii_graphic b)) t) = negb (len t =? 0) && forallb is_ascii_graphic t.
Proof.
  assert (forallb is_ascii_graphic t = is_ascii_text t && negb (existsb (fun b => negb (is_ascii_graphic b)) t)) as ->.
  { induction t as [|b t IH]; [done|]. cbn [forallb existsb is_ascii_text]. fold (is_ascii_text t). rewrite IH.
    assert (is_ascii_graphic b = true -> (b2z b <? 128) = true) as P.
    { unfold is_ascii_graphic, in_range. rewrite andb_true_iff, !Z.leb_le, Z.ltb_lt. lia. }
    destruct (is_ascii_graphic b); cbn [negb orb andb]; [by rewrite P|]. by rewrite andb_false_r. }
  by destruct (is_ascii_text t), (len t =? 0).
Qed.

Definition binding_text (key : list byte) (tail : list byte) : list byte := CHAT_CANONICAL_PREFIX ++ hex_encode key ++ tail.

(** The default and the explicit generation. *)
Definition generation_text (n : Z) (tail : list byte) : Prop := tail = GENERATION_FIELD ++ decimal n \/ n = 1 /\ tail = [].

Lemma hex_no_semicolon k : contains_char x3b (hex_encode k) = false.
Proof. destruct (hex_encode_digits k) as (_ & F). eapply contains_char_forallb; [|exact F]. done. Qed.

Lemma decimal_text n : 0 <= n <= u32_max -> forallb is_ascii_digit (decimal n) = true.
Proof. intros R. unfold u32_max in R. destruct (decimal_digits_ok 20 n) as ((F & _) & _); [change (Z.of_nat 21) with 21; lia|done]. Qed.

Lemma parse_fields_Ok k n tail :
  1 <= n <= u32_max -> generation_text n tail -> parse_fields (hex_encode k ++ tail) = Ok (hex_encode k, n).
Proof.
  intros R [->|(-> & ->)]; unfold parse_fields.
  - change GENERATION_FIELD with (x3b :: bstr "generation="). rewrite (split_once_app x3b) by apply hex_no_semicolon.
    rewrite (contains_char_forallb x3b is_ascii_digit) by (done || apply decimal_text; lia). cbn [negb assert_or mbind result_bind].
    by rewrite (proj2 (parse_generation_Ok _ n) (conj eq_refl R)).
  - rewrite app_nil_r. change GENERATION_FIELD with (x3b :: bstr "generation="). rewrite split_once_None by apply hex_no_semicolon.
    by rewrite hex_no_semicolon.
Qed.

Lemma parse_fields_inv r k n :
  parse_fields r = Ok (k, n) -> exists tail, r = k ++ tail /\ generation_text n tail /\ 1 <= n <= u32_max.
Proof.
  unfold parse_fields. destruct (split_once GENERATION_FIELD r) as [[k' g]|] eqn:S; intros H.
  - apply split_once_Some in S as ->. apply bind_Ok in H as (u & _ & H). apply bind_Ok in H as (n' & (-> & R)%parse_generation_Ok & [= <- <-]).
    exists (GENERATION_FIELD ++ decimal n'). split; [done|]. split; [by left|done].
  - apply bind_Ok in H as (u & _ & [= <- <-]). exists []. split; [by rewrite app_nil_r|]. split; [by right|done].
Qed.

Definition binding_ok (b : ChatIdentityBindingV1) : Prop :=
  len (cb_xonly_public_key b) = 32 /\ sec1_key_ok (x02 :: cb_xonly_public_key b) = true /\ 1 <= cb_generation b <= u32_max.

Lemma parse_binding_Ok text b :
  parse_chat_binding text = Ok b <->
  binding_ok b /\ exists tail, text = binding_text (cb_xonly_public_key b) tail /\ generation_text (cb_generation b) tail.
Proof.
  unfold parse_chat_binding. rewrite visible_text. split.
  - intros H. apply bind_Ok in H as (u & _ & H). apply bind_Ok in H as (r & ->%ok_or_Ok%strip_prefix_Some & H).
    apply bind_Ok in H as ([k n] & (tail & -> & G & R)%parse_fields_inv & H). apply bind_Ok in H as (x & (-> & L & K)%parse_xonly_Ok & [= <-]).
    split; [done|]. by exists tail.
  - intros ((L & K & R) & tail & -> & G). unfold binding_text. rewrite !forallb_app. destruct (hex_encode_digits (cb_xonly_public_key b)) as (_ & F).
    assert (forallb is_ascii_graphic (hex_encode (cb_xonly_public_key b)) = true) as ->.
    { eapply forallb_imp; [|exact F]. intros c. unfold is_lower_hex, is_ascii_digit, is_ascii_graphic, in_range. rewrite orb_true_iff, !andb_true_iff, !Z.leb_le. lia. }
    assert (forallb is_ascii_graphic tail = true) as ->.
    { destruct G as [->|(_ & ->)]; [|done]. rewrite forallb_app. apply andb_true_iff. split; [done|]. eapply forallb_imp; [|apply decimal_text; lia].
      intros c. unfold is_ascii_digit, is_ascii_graphic, in_range. rewrite !andb_true_iff, !Z.leb_le. lia. }
    change (forallb is_ascii_graphic CHAT_CANONICAL_PREFIX) with true. rewrite len_app. change (len CHAT_CANONICAL_PREFIX) with 24.
    match goal with |- context [24 + len ?x] => pose proof (len_nonneg x) end. rewrite (proj2 (Z.eqb_neq _ 0)) by lia. cbn [negb andb assert_or mbind result_bind].
    rewrite strip_prefix_app. cbn [ok_or mbind result_bind]. rewrite (parse_fields_Ok _ _ _ R G). cbn [mbind result_bind].
    rewrite (proj2 (parse_xonly_Ok _ _) (conj eq_refl (conj L K))). cbn [mbind result_bind]. destruct b as [[] ? ?]. done.
Qed.

Lemma encode_binding_Ok b text :
  binding_ok b -> encode_chat_binding b = Ok text <-> text = binding_text (cb_xonly_public_key b) (GENERATION_FIELD ++ decimal (cb_generation b)).
Proof.
  intros (_ & K & R). unfold encode_chat_binding, ChatIdentityBindingV1_validate, validate_xonly_public_key, binding_text.
  destruct (cb_key_mode b). rewrite bool_decide_eqb_refl, (proj2 (Z.eqb_neq (cb_generation b) 0)), K by lia.
  cbn [negb orb assert_or mbind result_bind]. split; [by intros <-%Ok_inj|by intros ->].
Qed.

(** The chat binding of a name, exactly. A text is a binding's when it is the binding's
    encoding, or, for generation one, the same without the generation; and every
    binding that parses has a 32-byte x-only key on the curve and a nonzero
    generation, so encoding it and parsing again gives it back. *)
Theorem chat_binding_text text b :
  parse_chat_binding text = Ok b <->
  binding_ok b /\ (encode_chat_binding b = Ok text \/
    cb_generation b = 1 /\ text = bstr "hnschat=v1;key=owner;pk=" ++ hex_encode (cb_xonly_public_key b)).
Proof.
  rewrite parse_binding_Ok. split.
  - intros (B & tail & -> & [->|(G & ->)]); (split; [done|]); [left; by apply encode_binding_Ok|right]. split; [done|]. unfold binding_text. by rewrite app_nil_r.
  - intros (B & [->%encode_binding_Ok|(G & ->)]); try done; (split; [done|]); [eexists; split; [done|by left]|].
    exists []. unfold binding_text. rewrite app_nil_r. split; [done|by right].
Qed.
End binding_lemmas.

(** ** Owners *)
Section owner_lemmas.
Context {CR : Crypto} {KC : K256}.

(** [key] is a compressed key that controls the output: a version-0 program of its hash. *)
Definition controls (key : list byte) (output : Output) : Prop :=
  sec1_key_ok key = true /\ addr_version (out_address output) = x00 /\ addr_hash (out_address output) = blake2b 20 key.

#[global] Instance controls_dec key output : Decision (controls key output).
Proof. unfold controls. apply _. Defined.

(** Exactly one parity of the x-only key controls the output. *)
Definition controlled_by (xonly : list byte) (output : Output) (key : list byte) : Prop :=
  (key = x02 :: xonly \/ key = x03 :: xonly) /\ controls key output /\
  forall other, other = x02 :: xonly \/ other = x03 :: xonly -> controls other output -> other = key.

Lemma candidate_address parity xonly :
  parity = x02 \/ parity = x03 -> Address_from_compressed_public_key (parity :: xonly) = Ok (mkAddress x00 (blake2b 20 (parity :: xonly))).
Proof.
  intros P. unfold Address_from_compressed_public_key, Address_new, Address_validate. cbn [head addr_version addr_hash].
  assert ((b2z parity =? 2) || (b2z parity =? 3) = true) as -> by (by destruct P as [->| ->]). cbn [assert_or mbind result_bind].
  assert (len (blake2b 20 (parity :: xonly)) = 20) as -> by apply (len_length _ 20), blake2b_length. reflexivity.
Qed.

Lemma try_parity_eq output xonly matched parity :
  parity = x02 \/ parity = x03 ->
  try_parity output xonly matched parity =
  if decide (controls (parity :: xonly) output)
  then match matched with Some _ => Err ChatAmbiguousOwnerKey | None => Ok (Some (parity :: xonly)) end
  else Ok matched.
Proof.
  intros P. unfold try_parity. destruct (sec1_key_ok (parity :: xonly)) eqn:K; cbn [negb].
  2: { rewrite decide_False; [done|]. intros (K' & _). congruence. }
  rewrite candidate_address by done. cbn [addr_version addr_hash]. destruct (decide (controls _ _)) as [(_ & V & H)|N].
  - by rewrite V, H, !bool_decide_eqb_refl.
  - destruct (bool_decide (x00 = addr_version (out_address output)) && bool_decide (blake2b 20 (parity :: xonly) = addr_hash (out_address output))) eqn:B; [|done].
    apply andb_true_iff in B as (V%bool_decide_eq_true & H%bool_decide_eq_true). by destruct N.
Qed.

Lemma resolve_Ok output xonly key :
  resolve_compressed_owner_key output xonly = Ok key <-> sec1_key_ok (x02 :: xonly) = true /\ controlled_by xonly output key.
Proof.
  unfold resolve_compressed_owner_key. cbn [try_fold]. rewrite !try_parity_eq by (by left). unfold controlled_by.
  assert (forall k, controls k output -> negb (negb (b2z (addr_version (out_address output)) =? 0) || negb (len (addr_hash (out_address output)) =? 20)) = true) as G.
  { intros k (_ & -> & ->). assert (len (blake2b 20 k) = 20) as -> by apply (len_length _ 20), blake2b_length. done. }
  assert (forall m, try_parity output xonly m x03 = if decide (controls (x03 :: xonly) output)
    then match m with Some _ => Err ChatAmbiguousOwnerKey | None => Ok (Some (x03 :: xonly)) end else Ok m) as T by (intros m; apply try_parity_eq; by right).
  split.
  - intros H. apply bind_Ok in H as (u1 & _ & H). apply bind_Ok in H as (u2 & K%assert_or_Ok & H). split; [done|].
    destruct (decide (controls (x02 :: xonly) output)) as [C2|C2]; cbn [mbind result_bind] in H; rewrite T in H;
      destruct (decide (controls (x03 :: xonly) output)) as [C3|C3]; try done; cbn [mbind result_bind ok_or] in H; try done; injection H as <-;
      (split; [by auto|]; split; [done|]); by intros o [->| ->].
  - intros (K & E & C & U). rewrite (G _ C), K. cbn [assert_or mbind result_bind].
    destruct (decide (controls (x02 :: xonly) output)) as [C2|C2]; cbn [mbind result_bind]; rewrite T;
      destruct (decide (controls (x03 :: xonly) output)) as [C3|C3]; cbn [mbind result_bind ok_or].
    + pose proof (U _ (or_introl eq_refl) C2). pose proof (U _ (or_intror eq_refl) C3). congruence.
    + by rewrite (U _ (or_introl eq_refl) C2).
    + by rewrite (U _ (or_intror eq_refl) C3).
    + by destruct E as [-> | ->].
Qed.

(** A verified binding belongs to the current owner. Verification succeeds exactly for
    valid bindings whose x-only key has one parity, and only one, that controls the
    owner's output; it keeps that compressed key, and the authority record it yields
    has that key as its root and the binding's generation as its epoch. *)
Theorem chat_owner_proven binding output v :
  verify_current_owner_binding binding output = Ok v <->
  ChatIdentityBindingV1_validate binding = Ok tt /\
  controlled_by (cb_xonly_public_key binding) output (vb_original_compressed_public_key v) /\
  v = mkVerified binding (vb_original_compressed_public_key v) CurrentOwnerVerified /\
  owner_authority_record v = Ok (mkAuthority (vb_original_compressed_public_key v) (cb_generation binding)).
Proof.
  unfold verify_current_owner_binding. split.
  - intros H. apply bind_Ok in H as ([] & V & H). apply bind_Ok in H as (k & (K & C)%resolve_Ok & [= <-]).
    cbn [vb_original_compressed_public_key]. split; [done|]. split; [done|]. split; [done|].
    unfold ChatIdentityBindingV1_validate in V. apply bind_Ok in V as (u & G%assert_or_Ok & _).
    unfold owner_authority_record, xonly_from_compressed_public_key. cbn [vb_trust vb_binding vb_original_compressed_public_key].
    rewrite bool_decide_eqb_refl. rewrite negb_true_iff, orb_false_iff in G. destruct G as (_ & ->). cbn [negb orb assert_or mbind result_bind].
    destruct C as (E & (K' & _) & _). rewrite K'. assert (bool_decide (head k ∈ [Some x02; Some x03]) = true) as -> by (by destruct E as [-> | ->]).
    cbn [negb orb assert_or mbind result_bind]. assert (drop 1 k = cb_xonly_public_key binding) as -> by (by destruct E as [-> | ->]).
    by rewrite bool_decide_eqb_refl.
  - intros (V & C & -> & _). rewrite V. cbn [mbind result_bind vb_original_compressed_public_key] in *.
    unfold ChatIdentityBindingV1_validate in V. apply bind_Ok in V as (u & _ & K%assert_or_Ok).
    by rewrite (proj2 (resolve_Ok _ _ _) (conj K C)).
Qed.
End owner_lemmas.

(** ** Mailbox values *)
Section wire_lemmas.
Context {KC : K256}.

Definition envelope_bytes (e : ChatEnvelopeV1) : list byte :=
  [z2b HNS_CHAT_WIRE_VERSION] ++ ce_message_id e ++ ce_recipient_public_key e ++ to_le_bytes 8 (ce_created_at e) ++
  to_le_bytes 8 (ce_expires_at e) ++ var_bytes (ce_gift_wrap e).
Definition ack_bytes (a : ChatAcknowledgementV1) : list byte :=
  [z2b HNS_CHAT_WIRE_VERSION] ++ ca_message_id a ++ to_le_bytes 8 (ca_received_at a) ++ var_bytes (ca_encrypted_receipt a).

Definition envelope_wf (e : ChatEnvelopeV1) : Prop :=
  len (ce_message_id e) = 32 /\ len (ce_recipient_public_key e) = 32 /\ u64 (ce_created_at e) /\ u64 (ce_expires_at e).
Definition ack_wf (a : ChatAcknowledgementV1) : Prop := len (ca_message_id a) = 32 /\ u64 (ca_received_at a).

Lemma envelope_gift e : ChatEnvelopeV1_validate e = Ok tt -> len (ce_gift_wrap e) <= MAX_CHAT_CIPHERTEXT_SIZE.
Proof.
  unfold ChatEnvelopeV1_validate. intros H. do 5 apply bind_Ok in H as (? & _ & H). by apply assert_or_Ok, Z.leb_le in H.
Qed.

Lemma ack_receipt a : ChatAcknowledgementV1_validate a = Ok tt -> len (ca_encrypted_receipt a) <= MAX_CHAT_ACKNOWLEDGEMENT_SIZE.
Proof.
  unfold ChatAcknowledgementV1_validate. intros H. do 3 apply bind_Ok in H as (? & _ & H). by apply assert_or_Ok, Z.leb_le in H.
Qed.

(** A field of up to 64 KiB has a length prefix of at most three bytes. *)
Lemma len_var_small bs : len bs <= 0xffff -> len (var_bytes bs) <= 3 + len bs.
Proof.
  intros L. rewrite len_var_bytes. pose proof (len_nonneg bs). unfold compact_size_len.
  repeat match goal with |- context [if ?b then _ else _] => destruct b eqn:? end; rewrite ?Z.leb_gt, ?Z.ltb_ge in *; lia.
Qed.

Lemma chat_envelope_encode_Ok e bs :
  envelope_wf e -> ChatEnvelopeV1_encode e = Ok bs <-> ChatEnvelopeV1_validate e = Ok tt /\ bs = envelope_bytes e.
Proof.
  intros (L1 & L2 & _). unfold ChatEnvelopeV1_encode. destruct (ChatEnvelopeV1_validate e) as [[]|] eqn:V; [|by split; [|intros [? _]]].
  apply envelope_gift in V. cbn [mbind result_bind]. unfold into_bytes.
  rewrite bytes_put_varbytes, !bytes_put_u64, !bytes_put_bytes, bytes_put_u8, bytes_with_capacity, <- !app_assoc. cbn [app].
  change (z2b HNS_CHAT_WIRE_VERSION :: ce_message_id e ++ ce_recipient_public_key e ++ to_le_bytes 8 (ce_created_at e) ++ to_le_bytes 8 (ce_expires_at e) ++ var_bytes (ce_gift_wrap e)) with (envelope_bytes e).
  unfold MAX_CHAT_CIPHERTEXT_SIZE in V. pose proof (len_var_small (ce_gift_wrap e) ltac:(lia)).
  assert (len (envelope_bytes e) <= MAX_CHAT_ENVELOPE_SIZE) as L.
  { unfold envelope_bytes. rewrite !len_app, L1, L2, !len_to_le_bytes. change (len [_]) with 1. unfold MAX_CHAT_ENVELOPE_SIZE, MAX_CHAT_CIPHERTEXT_SIZE. lia. }
  rewrite (proj2 (Z.leb_le _ _) L). cbn [assert_or mbind result_bind]. split; [by intros <-%Ok_inj|by intros [_ ->]].
Qed.

Lemma chat_ack_encode_Ok a bs :
  ack_wf a -> ChatAcknowledgementV1_encode a = Ok bs <-> ChatAcknowledgementV1_validate a = Ok tt /\ bs = ack_bytes a.
Proof.
  intros (L1 & _). unfold ChatAcknowledgementV1_encode. destruct (ChatAcknowledgementV1_validate a) as [[]|] eqn:V; [|by split; [|intros [? _]]].
  apply ack_receipt in V. cbn [mbind result_bind]. unfold into_bytes.
  rewrite bytes_put_varbytes, !bytes_put_u64, !bytes_put_bytes, bytes_put_u8, bytes_with_capacity, <- !app_assoc. cbn [app].
  change (z2b HNS_CHAT_WIRE_VERSION :: ca_message_id a ++ to_le_bytes 8 (ca_received_at a) ++ var_bytes (ca_encrypted_receipt a)) with (ack_bytes a).
  unfold MAX_CHAT_ACKNOWLEDGEMENT_SIZE in V. pose proof (len_var_small (ca_encrypted_receipt a) ltac:(lia)).
  assert (len (ack_bytes a) <= MAX_CHAT_ACKNOWLEDGEMENT_WIRE_SIZE) as L.
  { unfold ack_bytes. rewrite !len_app, L1, !len_to_le_bytes. change (len [_]) with 1. unfold MAX_CHAT_ACKNOWLEDGEMENT_WIRE_SIZE, MAX_CHAT_ACKNOWLEDGEMENT_SIZE. lia. }
  rewrite (proj2 (Z.leb_le _ _) L). cbn [assert_or mbind result_bind]. split; [by intros <-%Ok_inj|by intros [_ ->]].
Qed.

Lemma chat_envelope_decode_Ok inp e :
  ChatEnvelopeV1_decode inp = Ok e <-> envelope_wf e /\ ChatEnvelopeV1_encode e = Ok inp.
Proof.
  unfold ChatEnvelopeV1_decode. assert (MAX_CHAT_ENVELOPE_SIZE <= isize_max) as M by done. split.
  - intros H. apply bind_Ok in H as (u & L%assert_or_Ok%Z.leb_le & H). apply bind_Ok in H as (e' & (d & R & F)%run_all_Ok & H).
    apply bind_Ok in H as ([] & V & [= <-]). unfold read_chat_envelope in R. dbind R as v d1 K1. dbind R as u1 d1' C1. dbind R as i d2 K2. dbind R as r d3 K3.
    dbind R as c d4 K4. dbind R as x d5 K5. dbind R as g d6 K6. apply dec_ret_Ok in R as (<- & ->). assert (dec_wf (Decoder_new inp)) by (apply wf_new; lia). took_all.
    split; [done|]. apply chat_envelope_encode_Ok; [done|]. split; [done|]. apply assert_or_Ok, Z.eqb_eq in C1.
    unfold envelope_bytes. cbn [ce_message_id ce_recipient_public_key ce_created_at ce_expires_at ce_gift_wrap]. rewrite <- C1, z2b_b2z.
    symmetry. eapply took_finish; [|exact F]. took_chain.
  - intros (W & E). pose proof E as (V & ->)%chat_envelope_encode_Ok; [|done]. pose proof V as G%envelope_gift.
    unfold ChatEnvelopeV1_encode in E. rewrite V in E. cbn [mbind result_bind] in E. apply bind_Ok in E as (u & L%assert_or_Ok & Eb%Ok_inj).
    rewrite Eb in L. rewrite L. cbn [assert_or mbind result_bind]. apply Z.leb_le in L. destruct W as (L1 & L2 & U1 & U2).
    rewrite (run_all_reads ChatDecode read_chat_envelope _ e); [cbn [mbind result_bind]; by rewrite V|lia|].
    unfold read_chat_envelope, envelope_bytes. eapply reads_bind; [by apply reads_err, read_u8_reads|]. eapply reads_nil_bind; [by apply reads_assert|].
    do 2 (eapply reads_bind; [by apply reads_err, read_array_reads|]). do 2 (eapply reads_bind; [by apply reads_err, read_u64_reads|]).
    eapply reads_last; [apply reads_err, read_varbytes_reads; [done|etransitivity; [exact G|done]]|]. destruct e. apply reads_ret.
Qed.

Lemma chat_ack_decode_Ok inp a :
  ChatAcknowledgementV1_decode inp = Ok a <-> ack_wf a /\ ChatAcknowledgementV1_encode a = Ok inp.
Proof.
  unfold ChatAcknowledgementV1_decode. assert (MAX_CHAT_ACKNOWLEDGEMENT_WIRE_SIZE <= isize_max) as M by done. split.
  - intros H. apply bind_Ok in H as (u & L%assert_or_Ok%Z.leb_le & H). apply bind_Ok in H as (e' & (d & R & F)%run_all_Ok & H).
    apply bind_Ok in H as ([] & V & [= <-]). unfold read_chat_ack in R. dbind R as v d1 K1. dbind R as u1 d1' C1. dbind R as i d2 K2.
    dbind R as c d4 K4. dbind R as g d6 K6. apply dec_ret_Ok in R as (<- & ->). assert (dec_wf (Decoder_new inp)) by (apply wf_new; lia). took_all.
    split; [done|]. apply chat_ack_encode_Ok; [done|]. split; [done|]. apply assert_or_Ok, Z.eqb_eq in C1.
    unfold ack_bytes. cbn [ca_message_id ca_received_at ca_encrypted_receipt]. rewrite <- C1, z2b_b2z.
    symmetry. eapply took_finish; [|exact F]. took_chain.
  - intros (W & E). pose proof E as (V & ->)%chat_ack_encode_Ok; [|done]. pose proof V as G%ack_receipt.
    unfold ChatAcknowledgementV1_encode in E. rewrite V in E. cbn [mbind result_bind] in E. apply bind_Ok in E as (u & L%assert_or_Ok & Eb%Ok_inj).
    rewrite Eb in L. rewrite L. cbn [assert_or mbind result_bind]. apply Z.leb_le in L. destruct W as (L1 & U1).
    rewrite (run_all_reads ChatDecode read_chat_ack _ a); [cbn [mbind result_bind]; by rewrite V|lia|].
    unfold read_chat_ack, ack_bytes. eapply reads_bind; [by apply reads_err, read_u8_reads|]. eapply reads_nil_bind; [by apply reads_assert|].
    eapply reads_bind; [by apply reads_err, read_array_reads|]. eapply reads_bind; [by apply reads_err, read_u64_reads|].
    eapply reads_last; [apply reads_err, read_varbytes_reads; [done|etransitivity; [exact G|done]]|]. destruct a. apply reads_ret.
Qed.

Lemma insert_ids_Ok ids es :
  is_ok (try_fold insert_message_id ids es) = true <->
  Forall (fun e => ChatEnvelopeV1_validate e = Ok tt) es /\ NoDup (ce_message_id <$> es) /\ (forall e, e ∈ es -> ce_message_id e ∉ ids).
Proof.
  revert ids. induction es as [|e es IH]; intros ids; cbn [try_fold fmap list_fmap].
  - split; [intros _; split; [done|]; split; [constructor|by intros ? ?%elem_of_nil]|done].
  - rewrite Forall_cons, NoDup_cons.
    assert (insert_message_id ids e = (ChatEnvelopeV1_validate e ;; if bool_decide (ce_message_id e ∈ ids) then Err ChatDuplicateMessageId
      else Ok ({[ce_message_id e]} ∪ ids))) as -> by done.
    destruct (ChatEnvelopeV1_validate e) as [[]|]; cbn [mbind result_bind is_ok]; [|split; [by intros Hf|by intros ((? & _) & _)]].
    destruct (bool_decide _) eqn:B; cbn [mbind result_bind is_ok].
    + apply bool_decide_eq_true in B. split; [by intros Hf|]. intros (_ & _ & N). destruct (N e); [by left|done].
    + apply bool_decide_eq_false in B. rewrite IH. split.
      * intros (V & D & N). split; [done|]. split.
        -- split; [|done]. intros (e' & E & I)%list_elem_of_fmap. apply (N e' I). rewrite E. set_solver.
        -- intros e' [->|I]%elem_of_cons; [done|]. specialize (N e' I). set_solver.
      * intros ((_ & V) & (Nd & D) & N). split; [done|]. split; [done|]. intros e' I. apply not_elem_of_union. split; [|apply N; by right].
        intros E%elem_of_singleton. apply Nd. rewrite <- E. by apply list_elem_of_fmap_2.
Qed.

(** Mailbox values have one spelling, and a batch is accepted exactly when every
    envelope is valid and no identifier occurs twice. *)
Theorem chat_mailbox_codec inp es :
  (forall e, ChatEnvelopeV1_decode inp = Ok e <-> envelope_wf e /\ ChatEnvelopeV1_encode e = Ok inp) /\
  (forall a, ChatAcknowledgementV1_decode inp = Ok a <-> ack_wf a /\ ChatAcknowledgementV1_encode a = Ok inp) /\
  (validate_unique_message_ids es = Ok tt <-> Forall (fun e => ChatEnvelopeV1_validate e = Ok tt) es /\ NoDup (ce_message_id <$> es)).
Proof.
  split; [intros e; apply chat_envelope_decode_Ok|]. split; [intros a; apply chat_ack_decode_Ok|].
  pose proof (insert_ids_Ok ∅ es) as I. unfold validate_unique_message_ids. destruct (try_fold insert_message_id ∅ es) as [s|e]; cbn [mbind result_bind is_ok] in *.
  - destruct I as (I & _). destruct (I eq_refl) as (V & D & _). by split.
  - split; [done|]. intros (V & D). destruct I as (_ & I). by discriminate I.
Qed.
End wire_lemmas.

(** ** Examples *)
Lemma chat_binding_text_witness :
  let b := mkBindingV1 ChatOwner (zeros 32) 7 in
  exists text, @encode_chat_binding toy_k256 plain_hex b = Ok text /\ @parse_chat_binding toy_k256 plain_hex text = Ok b.
Proof.
  intros b. exists (@binding_text plain_hex (zeros 32) (GENERATION_FIELD ++ decimal 7)).
  assert (@encode_chat_binding toy_k256 plain_hex b = Ok (@binding_text plain_hex (zeros 32) (GENERATION_FIELD ++ decimal 7))) as E by reflexivity.
  split; [exact E|]. apply (@chat_binding_text toy_k256 plain_hex plain_hex_laws). split; [|left; exact E].
  split; [reflexivity|]. split; [reflexivity|]. vm_compute. split; discriminate.
Defined.
