(* ===== verification/HrmUri.v ===== *)
(** * hns-hrm: retrieval locators

    Models [crates/hns-hrm/src/uri.rs], the syntax check of RFC 3986 URIs with an
    explicit scheme, and of the standard library the [Ipv6Addr] parser it calls. *)

From S2P Require Import Prelude Encoding Cbor Text.
Local Open Scope Z_scope.

(** ** Bytes and components *)
Definition byte_in (s : string) (b : byte) : bool := existsb (fun c => bool_decide (c = b)) (bstr s).

Definition is_unreserved (b : byte) : bool := is_ascii_alphanumeric b || byte_in "-._~" b.
Definition is_sub_delimiter (b : byte) : bool := byte_in "!$&'()*+,;=" b.
Definition is_pchar (b : byte) : bool := is_unreserved b || is_sub_delimiter b || byte_in ":@" b.
Definition is_query_or_fragment_byte (b : byte) : bool := is_pchar b || byte_in "/?" b.
Definition is_path_byte (b : byte) : bool := is_pchar b || bool_decide (b = x2f).
Definition is_reg_name_byte (b : byte) : bool := is_unreserved b || is_sub_delimiter b.
Definition is_userinfo_byte (b : byte) : bool := is_unreserved b || is_sub_delimiter b || bool_decide (b = x3a).

(** The index of the loop is the bytes still to be read. *)
Fixpoint valid_component (allowed : byte -> bool) (bs : list byte) : bool :=
  match bs with
  | [] => true
  | b :: bs =>
    if bool_decide (b = x25)
    then match bs with
         | h :: l :: bs => is_ascii_hexdigit h && is_ascii_hexdigit l && valid_component allowed bs
         | _ => false
         end
    else allowed b && valid_component allowed bs
  end.

Definition valid_query_or_fragment (bs : list byte) : bool := valid_component is_query_or_fragment_byte bs.
Definition valid_path_rootless (bs : list byte) : bool :=
  match bs with [] => false | b :: _ => negb (bool_decide (b = x2f)) && valid_component is_path_byte bs end.
Definition valid_path_absolute (bs : list byte) : bool :=
  bool_decide (head bs = Some x2f) && ((len bs =? 1) || negb (bool_decide (bs !! 1%nat = Some x2f))) && valid_component is_path_byte bs.
Definition valid_path_abempty (bs : list byte) : bool :=
  ((len bs =? 0) || bool_decide (head bs = Some x2f)) && valid_component is_path_byte bs.

(** ** Splitting *)
Fixpoint split_byte (delimiter : byte) (bs : list byte) : option (list byte * list byte) :=
  match bs with
  | [] => None
  | b :: bs =>
    if bool_decide (b = delimiter) then Some ([], bs)
    else match split_byte delimiter bs with Some (before, after) => Some (b :: before, after) | None => None end
  end.
Definition rsplit_byte (delimiter : byte) (bs : list byte) : option (list byte * list byte) :=
  match split_byte delimiter (rev bs) with Some (after, before) => Some (rev before, rev after) | None => None end.

(** ** [str::parse::<Ipv6Addr>], of the standard library

    The parser's position is the text still to be read. *)
Fixpoint span (f : byte -> bool) (s : list byte) : list byte * list byte :=
  match s with
  | [] => ([], [])
  | b :: r => if f b then let '(a, r) := span f r in (b :: a, r) else ([], s)
  end.

Definition read_given_char (c : byte) (s : list byte) : option (list byte) :=
  match s with b :: s => if bool_decide (b = c) then Some s else None | [] => None end.

(** [read_number::<u8>(10, Some(3), false)] *)
Definition read_octet (s : list byte) : option (list byte) :=
  let '(digits, s) := span is_ascii_digit s in
  if (len digits =? 0) || (3 <? len digits) || (bool_decide (head digits = Some x30) && (1 <? len digits)) ||
     (255 <? dec_value 0 digits)
  then None else Some s.

(** [read_number::<u16>(16, Some(4), true)] *)
Definition read_group (s : list byte) : option (list byte) :=
  let '(digits, s) := span is_ascii_hexdigit s in
  if (len digits =? 0) || (4 <? len digits) then None else Some s.

Definition read_separator (c : byte) (index : nat) (inner : list byte -> option (list byte)) (s : list byte) : option (list byte) :=
  match index with
  | O => inner s
  | S _ => s ← read_given_char c s; inner s
  end.

Definition read_ipv4_addr (s : list byte) : option (list byte) :=
  s ← read_octet s; s ← read_separator x2e 1 read_octet s; s ← read_separator x2e 2 read_octet s; read_separator x2e 3 read_octet s.

(** [read_groups] from group [i] with [left] of the [limit] still to be read: how many
    groups were read, whether an IPv4 address ended them, and the text left. *)
Fixpoint read_groups (left i : nat) (s : list byte) : nat * bool * list byte :=
  match left with
  | O => (i, false, s)
  | S more =>
    match (match more with O => None | S _ => read_separator x3a i read_ipv4_addr s end) with
    | Some s => (i + 2, true, s)%nat
    | None =>
      match read_separator x3a i read_group s with
      | Some s => read_groups more (S i) s
      | None => (i, false, s)
      end
    end
  end.

Definition read_ipv6_addr (s : list byte) : option (list byte) :=
  let '(head_size, head_ipv4, s) := read_groups 8 0 s in
  if bool_decide (head_size = 8%nat) then Some s
  else if head_ipv4 then None
  else s ← read_given_char x3a s;
       s ← read_given_char x3a s;
       let '(_, _, s) := read_groups (8 - (head_size + 1)) 0 s in
       Some s.

Definition parse_ipv6 (s : list byte) : bool := bool_decide (read_ipv6_addr s = Some []).

(** ** uri.rs *)
Definition valid_ipvfuture (bs : list byte) : bool :=
  match (match strip_prefix [x76] bs with Some r => Some r | None => strip_prefix [x56] bs end) with
  | None => false
  | Some version_and_address =>
    match split_byte x2e version_and_address with
    | None => false
    | Some (version, address) =>
      negb (len version =? 0) && forallb is_ascii_hexdigit version && negb (len address =? 0) &&
      forallb (fun b => is_unreserved b || is_sub_delimiter b || bool_decide (b = x3a)) address
    end
  end.

Definition valid_ip_literal (bs : list byte) : bool := from_utf8_ok bs && (parse_ipv6 bs || valid_ipvfuture bs).

Definition valid_port_suffix (bs : list byte) : bool :=
  (len bs =? 0) || match strip_prefix [x3a] bs with Some port => forallb is_ascii_digit port | None => false end.

Definition valid_host_and_port (bs : list byte) : bool :=
  if starts_with [x5b] bs
  then match split_byte x5d bs with
       | None => false
       | Some (literal, suffix) => valid_ip_literal (drop 1 literal) && valid_port_suffix suffix
       end
  else if contains_char x5b bs || contains_char x5d bs then false
  else match rsplit_byte x3a bs with
       | Some (before, after) =>
         negb (contains_char x3a before) && valid_component is_reg_name_byte before && forallb is_ascii_digit after
       | None => valid_component is_reg_name_byte bs
       end.

Definition valid_authority (bs : list byte) : bool :=
  match rsplit_byte x40 bs with
  | Some (before, after) => negb (contains_char x40 before) && valid_component is_userinfo_byte before && valid_host_and_port after
  | None => valid_host_and_port bs
  end.

(** [position(|b| b == '/').unwrap_or(len)] and [split_at]. *)
Definition split_path (bs : list byte) : list byte * list byte :=
  match split_byte x2f bs with Some (before, after) => (before, x2f :: after) | None => (bs, []) end.

Definition valid_hier_part (bs : list byte) : bool :=
  match strip_prefix [x2f; x2f] bs with
  | Some authority_and_path =>
    let '(authority, path) := split_path authority_and_path in valid_authority authority && valid_path_abempty path
  | None =>
    match bs with
    | [] => true
    | b :: _ => if bool_decide (b = x2f) then valid_path_absolute bs else valid_path_rootless bs
    end
  end.

Definition valid_scheme (scheme : list byte) : bool :=
  match scheme with
  | [] => false
  | b :: rest => is_ascii_alphabetic b && forallb (fun b => is_ascii_alphanumeric b || byte_in "+-." b) rest
  end.

(** The reference after the colon: fragment, query and hierarchical part. *)
Definition valid_reference (reference : list byte) : bool :=
  let without_fragment := match split_byte x23 reference with
    | Some (before, after) => if contains_char x23 after || negb (valid_query_or_fragment after) then None else Some before
    | None => Some reference
    end in
  match without_fragment with
  | None => false
  | Some without_fragment =>
    match split_byte x3f without_fragment with
    | Some (before, after) => valid_query_or_fragment after && valid_hier_part before
    | None => valid_hier_part without_fragment
    end
  end.

Definition is_valid_absolute_uri (bytes : list byte) : bool :=
  if (len bytes =? 0) || negb (forallb is_ascii_graphic bytes) then false
  else match split_byte x3a bytes with
       | None => false
       | Some (scheme, reference) =>
         if (len reference =? 0) || negb (valid_scheme scheme) then false else valid_reference reference
       end.

Example uri_examples :
  (is_valid_absolute_uri <$> [bstr "https://example.test/a/b?x=1%202#part"; bstr "https://[2001:db8::1]:8443/x"; bstr "urn:example:a";
    bstr "https://[::ffff:1.2.3.4]/"; bstr "https://[v1.a:b]"; bstr "mailto:"; bstr "https://[::1"; bstr "//x/y"; bstr "a:%2"; bstr "x://a:b:c";
    bstr "x://[1::2::3]"; bstr "x://[1:2:3:4:5:6:7:8:9]"; bstr "x://[::1.2.3.04]"]) =
  [true; true; true; true; true; false; false; false; false; false; false; false; false].
Proof. vm_compute. reflexivity. Qed.

(** ** Facts about all bytes, by evaluation *)
Definition all_bytes : list byte := (fun n => z2b (Z.of_nat n)) <$> seq 0 256.

Lemma byte_forall (f : byte -> bool) : forallb f all_bytes = true -> forall b, f b = true.
Proof.
  intros H b. rewrite forallb_forall in H. apply H. apply list_elem_of_In. unfold all_bytes. apply list_elem_of_fmap.
  exists (Z.to_nat (b2z b)). pose proof (b2z_range b). rewrite Z2Nat.id, z2b_b2z by lia. split; [done|]. apply elem_of_seq. lia.
Qed.

Lemma byte_imp (f g : byte -> bool) : forallb (fun b => implb (f b) (g b)) all_bytes = true -> forall b, f b = true -> g b = true.
Proof. intros H b F. pose proof (byte_forall _ H b) as I. cbv beta in I. rewrite F in I. exact I. Qed.

(** ** Splitting *)
Lemma contains_cons c b s : contains_char c (b :: s) = bool_decide (b = c) || contains_char c s.
Proof. done. Qed.

Lemma split_byte_Some c bs a r : split_byte c bs = Some (a, r) <-> bs = a ++ c :: r /\ contains_char c a = false.
Proof.
  revert a. induction bs as [|b bs IH]; intros a; cbn [split_byte]; [split; [done|]; intros (E & _); by destruct a|].
  destruct (bool_decide (b = c)) eqn:B.
  - apply bool_decide_eq_true in B as ->. split; [by intros [= <- <-]|]. intros (E & N). destruct a as [|x a]; [by injection E as ->|].
    injection E as <- ->. by rewrite contains_cons, bool_decide_eqb_refl in N.
  - destruct (split_byte c bs) as [[a' r']|].
    + split; [intros [= <- <-]; destruct (proj1 (IH a') eq_refl) as (-> & N); split; [done|]; by rewrite contains_cons, B|].
      intros (E & N). destruct a as [|x a]; [injection E as -> _; by rewrite bool_decide_eqb_refl in B|]. injection E as -> E.
      rewrite contains_cons in N. apply orb_false_iff in N as (_ & N). by injection (proj2 (IH a) (conj E N)) as -> ->.
    + split; [done|]. intros (E & N). destruct a as [|x a]; [injection E as -> _; by rewrite bool_decide_eqb_refl in B|]. injection E as -> E.
      rewrite contains_cons in N. apply orb_false_iff in N as (_ & N). by discriminate (proj2 (IH a) (conj E N)).
Qed.

Lemma split_byte_None c bs : split_byte c bs = None <-> contains_char c bs = false.
Proof.
  induction bs as [|b bs IH]; [done|]. cbn [split_byte]. rewrite contains_cons. destruct (bool_decide (b = c)); cbn [orb]; [done|].
  rewrite <- IH. by destruct (split_byte c bs) as [[? ?]|].
Qed.

Lemma contains_rev c s : contains_char c (rev s) = contains_char c s.
Proof.
  induction s as [|b s IH]; [done|]. cbn [rev]. rewrite contains_char_app, contains_cons, IH. rewrite contains_cons. cbn. rewrite orb_false_r. apply orb_comm.
Qed.

Lemma rsplit_byte_Some c bs a r : rsplit_byte c bs = Some (a, r) <-> bs = a ++ c :: r /\ contains_char c r = false.
Proof.
  unfold rsplit_byte. destruct (split_byte c (rev bs)) as [[x y]|] eqn:S.
  - apply split_byte_Some in S as (E & N). apply (f_equal (@rev _)) in E. rewrite rev_involutive, rev_app_distr in E. cbn [rev] in E. rewrite <- app_assoc in E. cbn [app] in E.
    split.
    + intros [= <- <-]. split; [done|]. by rewrite contains_rev.
    + intros (Eb & Nr). assert (split_byte c (rev bs) = Some (rev r, rev a)) as S'.
      { apply split_byte_Some. rewrite contains_rev. split; [|done]. rewrite Eb, rev_app_distr. cbn [rev]. by rewrite <- app_assoc. }
      assert (split_byte c (rev bs) = Some (x, y)) as S''.
      { apply split_byte_Some. split; [|done]. rewrite E, rev_app_distr. cbn [rev]. rewrite !rev_involutive, <- app_assoc. done. }
      rewrite S' in S''. injection S'' as <- <-. by rewrite !rev_involutive.
  - apply split_byte_None in S. rewrite contains_rev in S. split; [done|]. intros (-> & _). rewrite contains_char_app, contains_cons, bool_decide_eqb_refl, orb_true_r in S. done.
Qed.

Lemma rsplit_byte_None c bs : contains_char c bs = false -> rsplit_byte c bs = None.
Proof. intros N. unfold rsplit_byte. by rewrite (proj2 (split_byte_None c (rev bs))) by by rewrite contains_rev. Qed.

(** ** Components *)
Inductive Component (allowed : byte -> bool) : list byte -> Prop :=
| component_nil : Component allowed []
| component_escape h l bs : is_ascii_hexdigit h = true -> is_ascii_hexdigit l = true -> Component allowed bs -> Component allowed (x25 :: h :: l :: bs)
| component_byte b bs : b <> x25 -> allowed b = true -> Component allowed bs -> Component allowed (b :: bs).

Lemma component_spec allowed bs : valid_component allowed bs = true <-> Component allowed bs.
Proof.
  split.
  - remember (length bs) as n eqn:En. assert (length bs <= n)%nat as L by lia. clear En. revert bs L.
    induction n as [|n IH]; intros [|b bs] L; cbn [length] in L; try lia; [constructor|constructor|]. cbn [valid_component].
    destruct (bool_decide (b = x25)) eqn:B.
    + apply bool_decide_eq_true in B as ->. destruct bs as [|h [|l bs]]; try done. rewrite !andb_true_iff. intros ((Hh & Hl) & H).
      constructor; [done|done|]. apply IH; [cbn [length] in L; lia|done].
    + apply bool_decide_eq_false in B. intros (A & H)%andb_true_iff. constructor; [done|done|]. apply IH; [lia|done].
  - induction 1 as [|h l bs Hh Hl _ IH|b bs N A _ IH]; [done| |]; cbn [valid_component].
    + by rewrite bool_decide_eqb_refl, Hh, Hl, IH.
    + by rewrite bool_decide_eq_false_2, A, IH by done.
Qed.

(** Every byte of a component is allowed, a percent sign or a hexadecimal digit. *)
Lemma component_bytes allowed (f : byte -> bool) bs :
  Component allowed bs -> (forall b, allowed b = true -> f b = true) -> f x25 = true -> (forall b, is_ascii_hexdigit b = true -> f b = true) ->
  forallb f bs = true.
Proof.
  intros C A P H. induction C as [|h l bs Hh Hl _ IH|b bs _ Ab _ IH]; [done| |]; cbn [forallb].
  - by rewrite P, (H h Hh), (H l Hl), IH.
  - by rewrite (A b Ab), IH.
Qed.

(** ** The grammar of RFC 3986 *)
Inductive Host : list byte -> Prop :=
| host_ipv6 l : parse_ipv6 l = true -> Host (x5b :: l ++ [x5d])
| host_future v version address :
    v = x76 \/ v = x56 -> version <> [] -> forallb is_ascii_hexdigit version = true -> address <> [] -> forallb is_userinfo_byte address = true ->
    Host (x5b :: (v :: version ++ x2e :: address) ++ [x5d])
| host_name name : Component is_reg_name_byte name -> Host name.

Inductive Port : list byte -> Prop :=
| port_none : Port []
| port_digits digits : forallb is_ascii_digit digits = true -> Port (x3a :: digits).

Inductive Authority : list byte -> Prop :=
| authority_host host port : Host host -> Port port -> Authority (host ++ port)
| authority_user user host port : Component is_userinfo_byte user -> Host host -> Port port -> Authority (user ++ x40 :: host ++ port).

Inductive HierPart : list byte -> Prop :=
| hier_authority authority : Authority authority -> HierPart (x2f :: x2f :: authority)
| hier_authority_path authority path :
    Authority authority -> Component is_path_byte path -> HierPart (x2f :: x2f :: authority ++ x2f :: path)
| hier_absolute path : Component is_path_byte path -> head path <> Some x2f -> HierPart (x2f :: path)
| hier_rootless path : path <> [] -> Component is_path_byte path -> head path <> Some x2f -> HierPart path
| hier_empty : HierPart [].

Inductive Part (mark : byte) : list byte -> Prop :=
| part_none : Part mark []
| part_some bs : Component is_query_or_fragment_byte bs -> Part mark (mark :: bs).

Inductive Uri : list byte -> Prop :=
| uri_intro first rest hier query fragment :
    is_ascii_alphabetic first = true -> forallb (fun b => is_ascii_alphanumeric b || byte_in "+-." b) rest = true ->
    HierPart hier -> Part x3f query -> Part x23 fragment -> hier ++ query ++ fragment <> [] ->
    Uri ((first :: rest) ++ x3a :: hier ++ query ++ fragment).

(** ** What the readers of an IPv6 address consume *)
Definition ipv6_byte (b : byte) : bool := is_ascii_hexdigit b || byte_in ":." b.
Definition consumes (s s' : list byte) : Prop := exists c, s = c ++ s' /\ forallb ipv6_byte c = true.

Lemma consumes_refl s : consumes s s.
Proof. by exists []. Qed.

Lemma consumes_trans s s' s'' : consumes s s' -> consumes s' s'' -> consumes s s''.
Proof. intros (c & -> & C) (d & -> & D). exists (c ++ d). by rewrite <- app_assoc, forallb_app, C, D. Qed.

Lemma span_consumes f s a r : (forall b, f b = true -> ipv6_byte b = true) -> span f s = (a, r) -> consumes s r.
Proof.
  intros F. revert a. induction s as [|b s IH]; intros a; cbn [span]; [intros [= <- <-]; apply consumes_refl|].
  destruct (f b) eqn:B; [|intros [= <- <-]; apply consumes_refl].
  destruct (span f s) as [a' r'] eqn:S. intros [= <- <-]. destruct (IH a' eq_refl) as (c & -> & C). exists (b :: c). cbn [forallb]. by rewrite (F b B), C.
Qed.

Lemma hex_ipv6 b : is_ascii_hexdigit b = true -> ipv6_byte b = true.
Proof. apply byte_imp. by vm_compute. Qed.

Lemma digit_ipv6 b : is_ascii_digit b = true -> ipv6_byte b = true.
Proof. apply byte_imp. by vm_compute. Qed.

Lemma given_consumes c s s' : ipv6_byte c = true -> read_given_char c s = Some s' -> consumes s s'.
Proof.
  intros C. destruct s as [|b s]; [done|]. cbn [read_given_char]. case_bool_decide as B; [|done]. subst b. intros [= <-]. exists [c]. cbn. by rewrite C.
Qed.

Lemma octet_consumes s s' : read_octet s = Some s' -> consumes s s'.
Proof. unfold read_octet. destruct (span _ s) as [a r] eqn:S. destruct (_ || _); [done|]. intros [= <-]. eauto using span_consumes, digit_ipv6. Qed.

Lemma group_consumes s s' : read_group s = Some s' -> consumes s s'.
Proof. unfold read_group. destruct (span _ s) as [a r] eqn:S. destruct (_ || _); [done|]. intros [= <-]. eauto using span_consumes, hex_ipv6. Qed.

Lemma separator_consumes c i inner s s' :
  ipv6_byte c = true -> (forall s s', inner s = Some s' -> consumes s s') -> read_separator c i inner s = Some s' -> consumes s s'.
Proof.
  intros C I. destruct i; cbn [read_separator]; [apply I|]. intros (t & G & H)%bind_Some. eauto using consumes_trans, given_consumes.
Qed.

Lemma ipv4_consumes s s' : read_ipv4_addr s = Some s' -> consumes s s'.
Proof.
  unfold read_ipv4_addr. intros (a & A & (b & B & (c & C & D)%bind_Some)%bind_Some)%bind_Some.
  repeat match goal with H : read_separator _ _ _ _ = _ |- _ => apply separator_consumes in H; [|done|exact octet_consumes] end.
  eauto using consumes_trans, octet_consumes.
Qed.

Lemma groups_consumes n i s k v s' : read_groups n i s = (k, v, s') -> consumes s s'.
Proof.
  revert i s. induction n as [|n IH]; intros i s; cbn [read_groups]; [intros [= _ _ <-]; apply consumes_refl|].
  destruct (match n with O => None | S _ => read_separator x3a i read_ipv4_addr s end) as [t|] eqn:V.
  - intros [= _ _ <-]. destruct n; [done|]. by apply separator_consumes in V; [|done|exact ipv4_consumes].
  - destruct (read_separator x3a i read_group s) as [t|] eqn:G; [|intros [= _ _ <-]; apply consumes_refl].
    intros H%IH. apply separator_consumes in G; [|done|exact group_consumes]. eauto using consumes_trans.
Qed.

Lemma ipv6_bytes s : parse_ipv6 s = true -> forallb ipv6_byte s = true.
Proof.
  unfold parse_ipv6. intros H%bool_decide_eq_true. assert (consumes s []) as (c & -> & C); [|by rewrite app_nil_r].
  unfold read_ipv6_addr in H. destruct (read_groups 8 0 s) as [[k v] t] eqn:G. apply groups_consumes in G.
  case_bool_decide; [by injection H as ->|]. destruct v; [done|]. apply bind_Some in H as (a & A & (b & B & H)%bind_Some).
  destruct (read_groups _ 0 b) as [[k' v'] t'] eqn:G'. injection H as ->. apply groups_consumes in G'.
  apply given_consumes in A; [|done]. apply given_consumes in B; [|done]. eauto using consumes_trans.
Qed.

(** ** The bytes of each part *)
Definition host_byte (b : byte) : bool := is_reg_name_byte b || byte_in "%:[]" b.
Definition authority_byte (b : byte) : bool := host_byte b || bool_decide (b = x40).
Definition hier_byte (b : byte) : bool := authority_byte b || bool_decide (b = x2f).
Definition part_byte (b : byte) : bool := hier_byte b || bool_decide (b = x3f).

(** An inclusion of byte classes: every byte is tried. *)
Ltac bytes_incl := apply forallb_imp, byte_imp; by vm_compute.

Lemma component_class allowed (f : byte -> bool) bs :
  forallb (fun b => implb (allowed b || bool_decide (b = x25) || is_ascii_hexdigit b) (f b)) all_bytes = true -> Component allowed bs -> forallb f bs = true.
Proof.
  intros F C. pose proof (byte_imp _ _ F) as I. cbv beta in I. apply (component_bytes allowed); [done|..]; intros; apply I; rewrite ?orb_true_iff; auto.
Qed.

Lemma component_no allowed c bs :
  forallb (fun b => implb (allowed b || bool_decide (b = x25) || is_ascii_hexdigit b) (negb (bool_decide (b = c)))) all_bytes = true ->
  Component allowed bs -> contains_char c bs = false.
Proof. intros F C. eapply contains_char_forallb, component_class; [|exact F|exact C]. cbn. by rewrite bool_decide_eqb_refl. Qed.

Lemma port_bytes p : Port p -> forallb host_byte p = true.
Proof. intros [|d D]; [done|]. cbn [forallb]. apply andb_true_iff. split; [done|]. revert D. bytes_incl. Qed.

Lemma future_bytes v version address :
  v = x76 \/ v = x56 -> forallb is_ascii_hexdigit version = true -> forallb is_userinfo_byte address = true ->
  forallb is_userinfo_byte (v :: version ++ x2e :: address) = true.
Proof.
  intros V W A. cbn [forallb]. rewrite forallb_app. cbn [forallb]. rewrite A. destruct V as [-> | ->]; cbn [andb]; rewrite !andb_true_iff; (split; [done|]); (split; [|done]); revert W; bytes_incl.
Qed.

Lemma bracketed l : forallb host_byte l = true -> forallb host_byte (x5b :: l ++ [x5d]) = true.
Proof. intros H. cbn [forallb]. by rewrite forallb_app, H. Qed.

Lemma host_bytes h : Host h -> forallb host_byte h = true.
Proof.
  intros [l L|v n a V _ N _ A|n C]; [apply bracketed..|revert C; by apply component_class; vm_compute].
  - apply ipv6_bytes in L. revert L. bytes_incl.
  - pose proof (future_bytes _ _ _ V N A) as F. revert F. bytes_incl.
Qed.

Lemma host_port_bytes h p : Host h -> Port p -> forallb host_byte (h ++ p) = true.
Proof. intros H P. by rewrite forallb_app, host_bytes, port_bytes. Qed.

Lemma authority_bytes a : Authority a -> forallb authority_byte a = true.
Proof.
  intros [h p H P|u h p U H P]; pose proof (host_port_bytes _ _ H P) as HP.
  - revert HP. bytes_incl.
  - rewrite forallb_app. cbn [forallb]. rewrite !andb_true_iff. split; [|split; [done|revert HP; bytes_incl]].
    revert U. by apply component_class; vm_compute.
Qed.

Lemma hier_bytes h : HierPart h -> forallb hier_byte h = true.
Proof.
  assert (forall p, Component is_path_byte p -> forallb hier_byte p = true) as PB by (intros p; by apply component_class; vm_compute).
  assert (forall a, Authority a -> forallb hier_byte a = true) as AB.
  { intros a A%authority_bytes. revert A. bytes_incl. }
  intros [a A|a p A P|p P _|p _ P _|]; cbn [forallb]; rewrite ?forallb_app; cbn [forallb]; rewrite ?AB, ?PB by done; done.
Qed.

Lemma len_eqb_nil {A} (l : list A) : (len l =? 0) = true -> l = [].
Proof. destruct l; [done|]. rewrite len_cons. pose proof (len_nonneg l). rewrite Z.eqb_eq. lia. Qed.

(** ** The authority *)
Lemma port_spec bs : valid_port_suffix bs = true <-> Port bs.
Proof.
  unfold valid_port_suffix. split.
  - intros [E|H]%orb_true_iff.
    + apply len_eqb_nil in E as ->. constructor.
    + destruct (strip_prefix [x3a] bs) as [p|] eqn:S; [|done]. apply strip_prefix_Some in S as ->. by constructor.
  - intros [|d D]; [done|]. apply orb_true_iff. right. change (x3a :: d) with ([x3a] ++ d). by rewrite strip_prefix_app.
Qed.

Lemma ip_literal_host l : valid_ip_literal l = true -> Host (x5b :: l ++ [x5d]).
Proof.
  unfold valid_ip_literal. intros (_ & [H|H]%orb_true_iff)%andb_true_iff; [by constructor|]. unfold valid_ipvfuture in H.
  destruct (match strip_prefix [x76] l with Some r => Some r | None => strip_prefix [x56] l end) as [r|] eqn:R; [|done].
  assert (exists v, (v = x76 \/ v = x56) /\ l = v :: r) as (v & V & ->).
  { destruct (strip_prefix [x76] l) as [?|] eqn:A; [injection R as ->; apply strip_prefix_Some in A as ->; eauto|]. apply strip_prefix_Some in R as ->. eauto. }
  destruct (split_byte x2e r) as [[version address]|] eqn:S; [|done]. apply split_byte_Some in S as (-> & _).
  rewrite !andb_true_iff in H. destruct H as (((N & HV) & M) & HA). apply negb_true_iff, Z.eqb_neq in N, M. apply (host_future v version address); try done; by intros ->.
Qed.


Lemma host_ip_literal l : valid_ip_literal l = true -> contains_char x5d l = false.
Proof.
  intros H%ip_literal_host. inversion H as [l' L E|v n a V _ N _ A E|n H1 E].
  - apply app_inj_tail in E as (-> & _). eapply contains_char_forallb, ipv6_bytes, L. by vm_compute.
  - rewrite app_comm_cons in E. apply app_inj_tail in E as (<- & _). eapply contains_char_forallb, (future_bytes v n a V N A). by vm_compute.
  - exfalso. apply (component_no is_reg_name_byte x5b) in H1; [by rewrite contains_cons, bool_decide_eqb_refl in H1|by vm_compute].
Qed.

Lemma ip_literal_valid l : Host (x5b :: l ++ [x5d]) -> valid_ip_literal l = true.
Proof.
  intros H. inversion H as [l' L E|v n a V Nn N Na A E|n H1 E].
  - apply app_inj_tail in E as (-> & _). unfold valid_ip_literal. rewrite L. cbn [orb]. rewrite andb_true_r. apply ascii_utf8.
    apply ipv6_bytes in L. revert L. bytes_incl.
  - rewrite app_comm_cons in E. apply app_inj_tail in E as (<- & _). unfold valid_ip_literal. apply andb_true_iff. split.
    + apply ascii_utf8. pose proof (future_bytes v n a V N A) as F. revert F. bytes_incl.
    + apply orb_true_iff. right. unfold valid_ipvfuture.
      assert (split_byte x2e (n ++ x2e :: a) = Some (n, a)) as S.
      { apply split_byte_Some. split; [done|]. eapply contains_char_forallb, N. by vm_compute. }
      assert (forall l : list byte, l <> [] -> negb (len l =? 0) = true) as NZ.
      { intros k K. apply negb_true_iff, Z.eqb_neq. by apply len_nonzero. }
      assert (forall r, match strip_prefix [x76] (v :: r) with Some r => Some r | None => strip_prefix [x56] (v :: r) end = Some r) as ->
        by (by destruct V as [-> | ->]).
      rewrite S, !NZ, N by done. exact A.
  - exfalso. apply (component_no is_reg_name_byte x5b) in H1; [by rewrite contains_cons, bool_decide_eqb_refl in H1|by vm_compute].
Qed.

Lemma literal_host_valid l p : Host (x5b :: l ++ [x5d]) -> Port p -> valid_host_and_port ((x5b :: l ++ [x5d]) ++ p) = true.
Proof.
  intros H%ip_literal_valid P. unfold valid_host_and_port. rewrite (proj2 (starts_with_spec _ _)) by (by eexists).
  assert (split_byte x5d ((x5b :: l ++ [x5d]) ++ p) = Some (x5b :: l, p)) as ->.
  { apply split_byte_Some. rewrite <- !app_comm_cons, <- app_assoc. split; [done|]. rewrite contains_cons. by apply host_ip_literal. }
  change (drop 1 (x5b :: l)) with l. rewrite H. by apply port_spec.
Qed.

(** A registered name and its port hold no bracket, and the name no colon. *)
Lemma name_port_no n p c : Component is_reg_name_byte n -> Port p -> byte_in "[]" c = true -> contains_char c (n ++ p) = false.
Proof.
  intros C P B. apply (contains_char_forallb _ (fun b => is_reg_name_byte b || byte_in "%:" b)).
  - apply (byte_imp (byte_in "[]") (fun c => negb (is_reg_name_byte c || byte_in "%:" c))) in B; [by apply negb_true_iff|by vm_compute].
  - rewrite forallb_app. apply andb_true_iff. split; [revert C; by apply component_class; vm_compute|]. destruct P as [|d D]; [done|].
    cbn [forallb]. apply andb_true_iff. split; [done|]. revert D. bytes_incl.
Qed.

Lemma name_host_valid n p : Component is_reg_name_byte n -> Port p -> valid_host_and_port (n ++ p) = true.
Proof.
  intros C P. pose proof (fun c => name_port_no n p c C P) as NP. unfold valid_host_and_port.
  assert (starts_with [x5b] (n ++ p) = false) as ->.
  { destruct (starts_with _ _) eqn:SW; [|done]. apply starts_with_spec in SW as (r & E). specialize (NP x5b eq_refl). rewrite E in NP. done. }
  rewrite !NP by done. cbn [orb]. assert (contains_char x3a n = false) as NC by (revert C; by apply component_no; vm_compute).
  destruct P as [|d D]; [rewrite app_nil_r, rsplit_byte_None by done; by apply component_spec|].
  assert (rsplit_byte x3a (n ++ x3a :: d) = Some (n, d)) as ->.
  { apply rsplit_byte_Some. split; [done|]. eapply contains_char_forallb, D. by vm_compute. }
  rewrite NC, D. cbn [negb andb]. rewrite andb_true_r. by apply component_spec.
Qed.

Lemma host_and_port_spec bs : valid_host_and_port bs = true <-> exists h p, bs = h ++ p /\ Host h /\ Port p.
Proof.
  unfold valid_host_and_port. split.
  - destruct (starts_with [x5b] bs) eqn:SW.
    + apply starts_with_spec in SW as (r & ->). cbn [app]. destruct (split_byte x5d (x5b :: r)) as [[literal suffix]|] eqn:S; [|done].
      apply split_byte_Some in S as (E & _). destruct literal as [|b l]; [done|]. injection E as <- ->. change (drop 1 (x5b :: l)) with l.
      intros (L & P)%andb_true_iff. exists (x5b :: l ++ [x5d]), suffix. rewrite <- app_comm_cons, <- app_assoc. split; [done|].
      split; [by apply ip_literal_host|by apply port_spec].
    + destruct (contains_char x5b bs || contains_char x5d bs); [done|]. destruct (rsplit_byte x3a bs) as [[before after]|] eqn:R.
      * apply rsplit_byte_Some in R as (-> & _). rewrite !andb_true_iff. intros ((_ & C) & D). exists before, (x3a :: after).
        split; [done|]. split; [by apply host_name, component_spec|by constructor].
      * intros C. exists bs, []. rewrite app_nil_r. split; [done|]. split; [by apply host_name, component_spec|constructor].
  - intros (h & p & -> & H & P). destruct H as [l L|v n a V Nn N Na A|n C]; [by apply literal_host_valid; [constructor|]..|by apply name_host_valid].
Qed.

Lemma authority_spec bs : valid_authority bs = true <-> Authority bs.
Proof.
  unfold valid_authority. split.
  - destruct (rsplit_byte x40 bs) as [[user rest]|] eqn:R.
    + apply rsplit_byte_Some in R as (-> & _). rewrite !andb_true_iff. intros ((_ & U) & (h & p & -> & H & P)%host_and_port_spec).
      constructor; [by apply component_spec|done|done].
    + intros (h & p & -> & H & P)%host_and_port_spec. by constructor.
  - assert (forall h p, Host h -> Port p -> contains_char x40 (h ++ p) = false) as NA.
    { intros h p H P. eapply contains_char_forallb, host_port_bytes; [by vm_compute|done|done]. }
    intros [h p H P|u h p U H P].
    + rewrite rsplit_byte_None by by apply NA. apply host_and_port_spec. eauto.
    + rewrite (proj2 (rsplit_byte_Some x40 _ u (h ++ p))) by (split; [done|by apply NA]).
      rewrite (component_no is_userinfo_byte x40 u) by (done || by vm_compute). cbn [negb andb]. apply andb_true_iff.
      split; [by apply component_spec|]. apply host_and_port_spec. eauto.
Qed.

(** ** The hierarchical part *)
Lemma path_head p : Component is_path_byte p -> Component is_path_byte (x2f :: p).
Proof. intros C. by constructor. Qed.

Lemma path_tail p : Component is_path_byte (x2f :: p) -> Component is_path_byte p.
Proof. by inversion 1. Qed.

Lemma hier_part_spec bs : valid_hier_part bs = true <-> HierPart bs.
Proof.
  unfold valid_hier_part. split.
  - destruct (strip_prefix [x2f; x2f] bs) as [r|] eqn:S.
    + apply strip_prefix_Some in S as ->. unfold split_path. destruct (split_byte x2f r) as [[a p]|] eqn:B.
      * apply split_byte_Some in B as (-> & _). intros (A & (_ & P)%andb_true_iff)%andb_true_iff.
        apply hier_authority_path; [by apply authority_spec|]. by apply path_tail, component_spec.
      * intros (A & _)%andb_true_iff. by apply hier_authority, authority_spec.
    + destruct bs as [|b bs]; [intros _; apply hier_empty|]. destruct (bool_decide (b = x2f)) eqn:B; [apply bool_decide_eq_true in B as ->|apply bool_decide_eq_false in B].
      * unfold valid_path_absolute. rewrite !andb_true_iff. intros (_ & C). apply hier_absolute; [by apply path_tail, component_spec|].
        intros E. destruct bs as [|c bs]; [done|]. injection E as ->. by cbn in S; rewrite !bool_decide_eqb_refl in S.
      * unfold valid_path_rootless. intros (_ & C)%andb_true_iff. apply hier_rootless; [done|by apply component_spec|]. cbn. congruence.
  - intros [a A|a p A P|p P N|p E P N|]; [..|done].
    + cbn [strip_prefix]. rewrite !bool_decide_eqb_refl. unfold split_path. rewrite (proj2 (split_byte_None x2f a)); [by rewrite (proj2 (authority_spec a))|].
      eapply contains_char_forallb, authority_bytes, A. by vm_compute.
    + cbn [strip_prefix]. rewrite !bool_decide_eqb_refl. unfold split_path. rewrite (proj2 (split_byte_Some x2f _ a p)).
      * rewrite (proj2 (authority_spec a)) by done. cbn [andb]. unfold valid_path_abempty. apply andb_true_iff. split; [done|]. by apply component_spec, path_head.
      * split; [done|]. eapply contains_char_forallb, authority_bytes, A. by vm_compute.
    + assert (strip_prefix [x2f; x2f] (x2f :: p) = None) as ->.
      { destruct (strip_prefix _ _) eqn:S; [|done]. apply strip_prefix_Some in S. injection S as ->. by cbn in N. }
      rewrite bool_decide_eqb_refl. unfold valid_path_absolute. rewrite !andb_true_iff. split; [split|by apply component_spec, path_head].
      * by apply bool_decide_eq_true.
      * destruct p as [|c p]; [done|]. apply orb_true_iff. right. apply negb_true_iff, bool_decide_eq_false. cbn in N |- *. congruence.
    + assert (strip_prefix [x2f; x2f] p = None) as ->.
      { destruct (strip_prefix _ _) eqn:S; [|done]. apply strip_prefix_Some in S as ->. by cbn in N. }
      destruct p as [|c p]; [done|]. cbn in N. rewrite bool_decide_eq_false_2 by congruence. unfold valid_path_rootless.
      apply andb_true_iff. split; [by rewrite bool_decide_eq_false_2 by congruence|by apply component_spec].
Qed.

(** ** The reference and the URI *)
Lemma query_spec bs : (match split_byte x3f bs with Some (before, after) => valid_query_or_fragment after && valid_hier_part before | None => valid_hier_part bs end) = true <->
  exists hier query, bs = hier ++ query /\ HierPart hier /\ Part x3f query.
Proof.
  split.
  - destruct (split_byte x3f bs) as [[h q]|] eqn:S.
    + apply split_byte_Some in S as (-> & _). intros (Q & H)%andb_true_iff. exists h, (x3f :: q). split; [done|]. split; [by apply hier_part_spec|].
      by apply part_some, component_spec.
    + intros H. exists bs, []. rewrite app_nil_r. split; [done|]. split; [by apply hier_part_spec|constructor].
  - intros (h & q & -> & H & Q). assert (contains_char x3f h = false) as N by (eapply contains_char_forallb, hier_bytes, H; by vm_compute).
    destruct Q as [|q Q].
    + rewrite app_nil_r, (proj2 (split_byte_None _ _)) by done. by apply hier_part_spec.
    + rewrite (proj2 (split_byte_Some x3f _ h q)) by done. rewrite (proj2 (hier_part_spec h)) by done. rewrite andb_true_r. by apply component_spec.
Qed.

Lemma hier_query_bytes h q : HierPart h -> Part x3f q -> forallb part_byte (h ++ q) = true.
Proof.
  intros H%hier_bytes Q. rewrite forallb_app. apply andb_true_iff. split; [revert H; bytes_incl|]. destruct Q as [|q Q]; [done|].
  cbn [forallb]. apply andb_true_iff. split; [done|]. revert Q. by apply component_class; vm_compute.
Qed.

Lemma reference_spec r : valid_reference r = true <->
  exists hier query fragment, r = hier ++ query ++ fragment /\ HierPart hier /\ Part x3f query /\ Part x23 fragment.
Proof.
  unfold valid_reference. split.
  - destruct (split_byte x23 r) as [[b f]|] eqn:S.
    + apply split_byte_Some in S as (-> & _). destruct (contains_char x23 f || _) eqn:F; [done|]. apply orb_false_iff in F as (_ & F%negb_false_iff).
      intros (h & q & -> & H & Q)%query_spec. exists h, q, (x23 :: f). rewrite <- app_assoc. do 3 (split; [done|]). by apply part_some, component_spec.
    + intros (h & q & -> & H & Q)%query_spec. exists h, q, []. rewrite app_nil_r. repeat split; [done|done|constructor].
  - intros (h & q & f & -> & H & Q & F). rewrite app_assoc. pose proof (hier_query_bytes h q H Q) as B.
    assert (contains_char x23 (h ++ q) = false) as N by (eapply contains_char_forallb, B; by vm_compute). destruct F as [|f F].
    + rewrite app_nil_r, (proj2 (split_byte_None _ _)) by done. apply query_spec. eauto.
    + rewrite (proj2 (split_byte_Some x23 _ (h ++ q) f)) by done. rewrite (component_no is_query_or_fragment_byte x23 f) by (done || by vm_compute).
      unfold valid_query_or_fragment. rewrite (proj2 (component_spec _ f)) by done. cbn [orb negb]. apply query_spec. eauto.
Qed.

Lemma uri_graphic first rest h q f :
  is_ascii_alphabetic first = true -> forallb (fun b => is_ascii_alphanumeric b || byte_in "+-." b) rest = true ->
  HierPart h -> Part x3f q -> Part x23 f -> forallb is_ascii_graphic ((first :: rest) ++ x3a :: h ++ q ++ f) = true.
Proof.
  intros A R H Q F. rewrite app_assoc with (l := h). rewrite forallb_app. cbn [forallb]. rewrite forallb_app. rewrite !andb_true_iff. repeat split.
  - revert A. apply byte_imp. by vm_compute.
  - revert R. bytes_incl.
  - pose proof (hier_query_bytes h q H Q) as B. revert B. bytes_incl.
  - destruct F as [|f F]; [done|]. cbn [forallb]. apply andb_true_iff. split; [done|]. revert F. by apply component_class; vm_compute.
Qed.

(** [is_valid_absolute_uri] accepts exactly the URIs of the RFC 3986 grammar whose
    scheme is followed by something: scheme, hierarchical part with an optional
    authority, optional query and optional fragment, every escape complete. *)
Theorem uri_grammar v : is_valid_absolute_uri v = true <-> Uri v.
Proof.
  unfold is_valid_absolute_uri. split.
  - destruct ((len v =? 0) || _); [done|]. destruct (split_byte x3a v) as [[scheme r]|] eqn:S; [|done]. apply split_byte_Some in S as (-> & _).
    destruct (len r =? 0) eqn:R; [done|]. destruct (valid_scheme scheme) eqn:VS; [|done]. cbn [orb negb].
    intros (h & q & f & -> & H & Q & F)%reference_spec. destruct scheme as [|b rest]; [done|]. apply andb_true_iff in VS as (A & VS).
    apply uri_intro; try done. intros E. by rewrite E in R.
  - intros [first rest h q f A R H Q F N]. rewrite (uri_graphic first rest h q f) by done.
    assert (valid_scheme (first :: rest) = true) as VS by (cbn [valid_scheme]; by rewrite A, R).
    assert (contains_char x3a (first :: rest) = false) as NC.
    { apply (contains_char_forallb _ (fun b => is_ascii_alphanumeric b || byte_in "+-." b)); [by vm_compute|]. cbn [forallb].
      rewrite R. unfold is_ascii_alphanumeric. by rewrite A. }
    replace (len ((first :: rest) ++ x3a :: h ++ q ++ f) =? 0) with false by (symmetry; apply Z.eqb_neq, len_nonzero; done).
    cbn [orb negb]. rewrite (proj2 (split_byte_Some x3a _ (first :: rest) (h ++ q ++ f))) by done. rewrite VS.
    replace (len (h ++ q ++ f) =? 0) with false by (symmetry; by apply Z.eqb_neq, len_nonzero). cbn [orb negb]. apply reference_spec. eauto 10.
Qed.
