(* ===== verification/BTree.v ===== *)
(** * Ordered collections of byte strings

    [BTreeSet<String>] and [BTreeMap<String, BTreeSet<String>>] of the standard
    library: the entries in the order of their keys, which for strings is the
    lexicographic order of the bytes. Two such collections with the same members
    are equal, whatever order they were filled in. *)

From Stdlib Require Import Sorting.Sorted.
From S2P Require Import Prelude.
Local Open Scope Z_scope.

Definition bytes_lt (a b : list byte) : Prop := bytes_le a b = true /\ a <> b.

(** [BTreeSet::insert]; what it returns is whether [x] was absent. *)
Fixpoint bs_insert (x : list byte) (s : list (list byte)) : list (list byte) :=
  match s with
  | [] => [x]
  | y :: s' => if bool_decide (x = y) then s else if bytes_le x y then x :: s else y :: bs_insert x s'
  end.
Definition bs_extend (s xs : list (list byte)) : list (list byte) := foldl (fun s x => bs_insert x s) s xs.
Definition bs_collect (xs : list (list byte)) : list (list byte) := bs_extend [] xs.

(** [entry(key).or_default()] changed by [f]. *)
Fixpoint bm_modify (key : list byte) (f : list (list byte) -> list (list byte)) (m : list (list byte * list (list byte)))
    : list (list byte * list (list byte)) :=
  match m with
  | [] => [(key, f [])]
  | (k, s) :: m' =>
    if bool_decide (key = k) then (k, f s) :: m'
    else if bytes_le key k then (key, f []) :: m
    else (k, s) :: bm_modify key f m'
  end.
Definition bm_get (key : list byte) (m : list (list byte * list (list byte))) : option (list (list byte)) :=
  snd <$> List.find (fun e => bool_decide (e.1 = key)) m.

(** ** The order *)
Lemma bytes_le_refl a : bytes_le a a = true.
Proof. induction a as [|x a IH]; [done|]. cbn. by rewrite Z.ltb_irrefl. Qed.

Lemma bytes_le_cons x y a b : bytes_le (x :: a) (y :: b) = true <-> b2z x < b2z y \/ (x = y /\ bytes_le a b = true).
Proof.
  cbn. destruct (Z.ltb_spec (b2z x) (b2z y)); [by split; [left|]|]. destruct (Z.ltb_spec (b2z y) (b2z x)).
  - split; [done|]. intros [?|(-> & _)]; lia.
  - assert (x = y) as -> by (apply b2z_inj; lia). split; [by right|]. intros [?|(_ & ?)]; [lia|done].
Qed.

Lemma bytes_le_trans a b c : bytes_le a b = true -> bytes_le b c = true -> bytes_le a c = true.
Proof.
  revert b c. induction a as [|x a IH]; intros [|y b] [|z c]; try done. rewrite !bytes_le_cons.
  intros [L1|(-> & L1)] [L2|(-> & L2)]; [left; lia|by left|by left|right; split; [done|by apply (IH b)]].
Qed.

Lemma bytes_le_antisym a b : bytes_le a b = true -> bytes_le b a = true -> a = b.
Proof.
  revert b. induction a as [|x a IH]; intros [|y b]; try done. rewrite !bytes_le_cons. intros [L1|(-> & L1)] [L2|(E & L2)]; try (subst; lia).
  by rewrite (IH b).
Qed.

Lemma bytes_le_total a b : bytes_le a b = false -> bytes_le b a = true.
Proof.
  revert b. induction a as [|x a IH]; intros [|y b]; try done. cbn. destruct (Z.ltb_spec (b2z x) (b2z y)); [done|]. destruct (Z.ltb_spec (b2z y) (b2z x)); [done|].
  apply IH.
Qed.

Lemma bytes_lt_trans a b c : bytes_lt a b -> bytes_lt b c -> bytes_lt a c.
Proof.
  intros (L1 & N1) (L2 & N2). split; [by apply (bytes_le_trans a b)|]. intros ->. apply N1. by apply bytes_le_antisym.
Qed.

(** ** Sets *)
Definition ssorted : list (list byte) -> Prop := StronglySorted bytes_lt.

Lemma elem_bs_insert x s y : y ∈ bs_insert x s <-> y = x \/ y ∈ s.
Proof.
  induction s as [|z s IH]; cbn [bs_insert]; [by rewrite list_elem_of_singleton, elem_of_nil; naive_solver|].
  case_bool_decide as E; [subst; rewrite elem_of_cons; naive_solver|]. destruct (bytes_le x z); rewrite !elem_of_cons; [done|].
  rewrite IH. naive_solver.
Qed.

Lemma elem_bs_extend s xs y : y ∈ bs_extend s xs <-> y ∈ s \/ y ∈ xs.
Proof.
  unfold bs_extend. revert s. induction xs as [|x xs IH]; intros s; cbn [foldl]; [rewrite elem_of_nil; naive_solver|].
  rewrite IH, elem_bs_insert, elem_of_cons. naive_solver.
Qed.

Lemma ssorted_insert x s : ssorted s -> ssorted (bs_insert x s).
Proof.
  induction 1 as [|y s SS IH F]; cbn [bs_insert]; [repeat constructor|]. case_bool_decide as E; [by constructor|].
  destruct (bytes_le x y) eqn:L.
  - constructor; [by constructor|]. constructor; [done|]. eapply Forall_impl; [exact F|]. intros z Z. by apply (bytes_lt_trans x y).
  - constructor; [done|]. apply Forall_forall. intros z Z. apply elem_bs_insert in Z as [-> | Z].
    + split; [by apply bytes_le_total|congruence].
    + rewrite Forall_forall in F. by apply F.
Qed.

Lemma ssorted_extend s xs : ssorted s -> ssorted (bs_extend s xs).
Proof. unfold bs_extend. revert s. induction xs as [|x xs IH]; intros s H; [done|]. apply IH. by apply ssorted_insert. Qed.

Lemma ssorted_head x s y : ssorted (x :: s) -> y ∈ s -> bytes_lt x y.
Proof. intros H. inversion H as [|? ? _ F]. rewrite Forall_forall in F. apply F. Qed.

Lemma ssorted_ext s t : ssorted s -> ssorted t -> (forall x, x ∈ s <-> x ∈ t) -> s = t.
Proof.
  revert t. induction s as [|x s IH]; intros [|y t] Ss St E; [done| | |].
  - exfalso. apply (not_elem_of_nil y), E, elem_of_cons. by left.
  - exfalso. apply (not_elem_of_nil x), E, elem_of_cons. by left.
  - assert (x = y) as ->.
    { assert (x ∈ y :: t) as Hx by (apply E, elem_of_cons; by left). assert (y ∈ x :: s) as Hy by (apply E, elem_of_cons; by left).
      apply elem_of_cons in Hx as [Hx|Hx]; [done|]. apply elem_of_cons in Hy as [Hy|Hy]; [done|].
      destruct (ssorted_head _ _ _ St Hx) as (L1 & _). destruct (ssorted_head _ _ _ Ss Hy) as (L2 & _). by apply bytes_le_antisym. }
    f_equal. apply IH; [by inversion Ss|by inversion St|]. intros z. specialize (E z). rewrite !elem_of_cons in E. split; intros Z.
    + destruct (proj1 E (or_intror Z)) as [-> |]; [|done]. by destruct (ssorted_head _ _ _ Ss Z) as (_ & N).
    + destruct (proj2 E (or_intror Z)) as [-> |]; [|done]. by destruct (ssorted_head _ _ _ St Z) as (_ & N).
Qed.

Lemma ssorted_NoDup s : ssorted s -> NoDup s.
Proof.
  induction 1 as [|x s SS IH F]; [constructor|]. constructor; [|done]. intros I. rewrite Forall_forall in F. by destruct (F x I) as (_ & N).
Qed.

Lemma bs_collect_sorted s : ssorted s -> bs_collect s = s.
Proof.
  intros H. apply ssorted_ext; [apply ssorted_extend; constructor|done|]. intros x. unfold bs_collect. rewrite elem_bs_extend, elem_of_nil. naive_solver.
Qed.

(** ** Maps to sets *)
Definition bm_has (m : list (list byte * list (list byte))) (k v : list byte) : Prop := exists s, (k, s) ∈ m /\ v ∈ s.
Definition bm_ok (m : list (list byte * list (list byte))) : Prop := ssorted (fst <$> m) /\ Forall (fun e => ssorted e.2 /\ e.2 <> []) m.

Lemma bm_keys_modify key f m k : k ∈ (bm_modify key f m).*1 <-> k = key \/ k ∈ m.*1.
Proof.
  induction m as [|[k' s] m IH]; cbn [bm_modify]; [rewrite !fmap_cons, list_elem_of_singleton, elem_of_nil; naive_solver|].
  case_bool_decide as E; [subst; rewrite !fmap_cons, !elem_of_cons; naive_solver|].
  destruct (bytes_le key k'); rewrite !fmap_cons, !elem_of_cons; [done|]. rewrite IH. naive_solver.
Qed.

Lemma bm_ok_modify key f m : (forall s, ssorted s -> ssorted (f s) /\ f s <> []) -> bm_ok m -> bm_ok (bm_modify key f m).
Proof.
  intros Hf (K & V). assert (ssorted []) as S0 by constructor. split.
  - clear V. induction m as [|[k s] m IH]; cbn [bm_modify]; [repeat constructor|]. rewrite fmap_cons in K. inversion K as [|? ? SK F]; subst.
    case_bool_decide as E; [exact K|]. destruct (bytes_le key k) eqn:L.
    + rewrite fmap_cons. constructor; [by constructor|]. constructor; [done|]. eapply Forall_impl; [exact F|]. intros z Z. by apply (bytes_lt_trans _ k).
    + rewrite fmap_cons. constructor; [by apply IH|]. apply Forall_forall. intros z Z. apply bm_keys_modify in Z as [-> | Z].
      * split; [by apply bytes_le_total|cbn; congruence].
      * rewrite Forall_forall in F. by apply F.
  - clear K. induction m as [|[k s] m IH]; cbn [bm_modify]; [constructor; [by apply Hf|constructor]|]. apply Forall_cons in V as (V & Vs).
    case_bool_decide; [constructor; [apply Hf, V|done]|]. destruct (bytes_le key k); [constructor; [by apply Hf|by constructor]|]. constructor; [done|by apply IH].
Qed.

Lemma bm_has_cons k s m k' v : bm_has ((k, s) :: m) k' v <-> (k' = k /\ v ∈ s) \/ bm_has m k' v.
Proof.
  unfold bm_has. split.
  - intros (t & [E|I]%elem_of_cons & V); [injection E as -> ->; by left|]. right. eauto.
  - intros [(-> & V)|(t & I & V)]; [exists s|exists t]; rewrite elem_of_cons; eauto.
Qed.

Lemma bm_has_nil k v : ~ bm_has [] k v.
Proof. intros (s & I & _). by apply elem_of_nil in I. Qed.

(** What is in a map after its entry at [key] gained [xs]. *)
Lemma bm_has_modify key xs m k v :
  bm_has (bm_modify key (fun s => bs_extend s xs) m) k v <-> (k = key /\ v ∈ xs) \/ bm_has m k v.
Proof.
  assert (v ∈ bs_extend [] xs <-> v ∈ xs) as E0 by (rewrite elem_bs_extend, elem_of_nil; naive_solver).
  pose proof (bm_has_nil k v). induction m as [|[k' s] m IH]; cbn [bm_modify]; [rewrite bm_has_cons, E0; naive_solver|].
  case_bool_decide as E; [subst; rewrite !bm_has_cons, elem_bs_extend; naive_solver|].
  destruct (bytes_le key k'); rewrite !bm_has_cons, ?E0; [done|]. rewrite IH. naive_solver.
Qed.

Lemma bm_has_key m k v : bm_has m k v -> k ∈ m.*1.
Proof. intros (s & I & _). apply list_elem_of_fmap. by exists (k, s). Qed.

Lemma bm_key_has m k : bm_ok m -> k ∈ m.*1 -> exists v, bm_has m k v.
Proof.
  intros (_ & V) ([k' s] & -> & I)%list_elem_of_fmap. rewrite Forall_forall in V. destruct (V _ I) as (_ & N). cbn in N.
  destruct s as [|v s]; [done|]. exists v, (v :: s). split; [done|]. apply elem_of_cons. by left.
Qed.

Lemma bm_ok_tail k s m : bm_ok ((k, s) :: m) -> bm_ok m /\ ssorted s /\ k ∉ m.*1.
Proof.
  intros (K & V). rewrite fmap_cons in K. pose proof (ssorted_NoDup _ K) as N%NoDup_cons. apply Forall_cons in V as ((V & _) & Vs).
  inversion K; subst. destruct N. done.
Qed.

Lemma bm_ext m m' : bm_ok m -> bm_ok m' -> (forall k v, bm_has m k v <-> bm_has m' k v) -> m = m'.
Proof.
  intros O O' E. assert (m.*1 = m'.*1) as K.
  { apply ssorted_ext; [apply O|apply O'|]. intros k. split; intros I.
    - destruct (bm_key_has m k O I) as (v & H). by apply (bm_has_key m' k v), E.
    - destruct (bm_key_has m' k O' I) as (v & H). by apply (bm_has_key m k v), E. }
  revert m' O' E K. induction m as [|[k s] m IH]; intros [|[k' s'] m'] O' E K; try done. injection K as <- K.
  apply bm_ok_tail in O as (O & Ss & N). apply bm_ok_tail in O' as (O' & Ss' & N').
  assert (s = s') as <-.
  { apply ssorted_ext; [done|done|]. intros v. specialize (E k v). rewrite !bm_has_cons in E. split; intros V.
    - destruct (proj1 E (or_introl (conj eq_refl V))) as [(_ & ?)|H]; [done|]. by apply bm_has_key in H.
    - destruct (proj2 E (or_introl (conj eq_refl V))) as [(_ & ?)|H]; [done|]. by apply bm_has_key in H. }
  f_equal. apply IH; [done|done| |done]. intros k2 v. specialize (E k2 v). rewrite !bm_has_cons in E. split; intros H.
  - destruct (proj1 E (or_intror H)) as [(-> & _)|?]; [by apply bm_has_key in H|done].
  - destruct (proj2 E (or_intror H)) as [(-> & _)|?]; [by apply bm_has_key in H|done].
Qed.

(** ** Maps by byte strings

    [BTreeMap<[u8; N], V>]: the entries in the order of their keys. *)
Section tree_map.
Context {V : Type}.

Fixpoint tm_insert (key : list byte) (v : V) (m : list (list byte * V)) : list (list byte * V) :=
  match m with
  | [] => [(key, v)]
  | (k, x) :: m' =>
    if bool_decide (key = k) then (key, v) :: m'
    else if bytes_le key k then (key, v) :: m
    else (k, x) :: tm_insert key v m'
  end.
Fixpoint tm_get (key : list byte) (m : list (list byte * V)) : option V :=
  match m with
  | [] => None
  | (k, x) :: m => if bool_decide (key = k) then Some x else tm_get key m
  end.
Definition tm_ok (m : list (list byte * V)) : Prop := ssorted (fst <$> m).

Lemma tm_get_insert key v m : tm_get key (tm_insert key v m) = Some v.
Proof.
  induction m as [|[k x] m IH]; cbn [tm_insert]; [cbn; by rewrite bool_decide_eq_true_2|].
  case_bool_decide as E; [cbn; by rewrite bool_decide_eq_true_2|]. destruct (bytes_le key k); cbn [tm_get]; [by rewrite bool_decide_eq_true_2|].
  by rewrite bool_decide_eq_false_2.
Qed.

Lemma tm_get_insert_ne key key' v m : key' <> key -> tm_get key' (tm_insert key v m) = tm_get key' m.
Proof.
  intros N. induction m as [|[k x] m IH]; cbn [tm_insert]; [cbn; by rewrite bool_decide_eq_false_2|].
  case_bool_decide as E; [subst; cbn [tm_get]; by rewrite !(bool_decide_eq_false_2 (key' = _))|].
  destruct (bytes_le key k); cbn [tm_get]; [by rewrite (bool_decide_eq_false_2 (key' = key))|]. by rewrite IH.
Qed.

Lemma tm_keys_insert key v m k : k ∈ (tm_insert key v m).*1 <-> k = key \/ k ∈ m.*1.
Proof.
  induction m as [|[k' x] m IH]; cbn [tm_insert]; [rewrite !fmap_cons, list_elem_of_singleton, elem_of_nil; naive_solver|].
  case_bool_decide as E; [subst; rewrite !fmap_cons, !elem_of_cons; naive_solver|].
  destruct (bytes_le key k'); rewrite !fmap_cons, !elem_of_cons; [done|]. rewrite IH. naive_solver.
Qed.

Lemma tm_ok_insert key v m : tm_ok m -> tm_ok (tm_insert key v m).
Proof.
  unfold tm_ok. induction m as [|[k x] m IH]; intros K; cbn [tm_insert]; [repeat constructor|]. rewrite fmap_cons in K. inversion K as [|? ? SK F]; subst.
  case_bool_decide as E; [by subst; rewrite fmap_cons; constructor|]. destruct (bytes_le key k) eqn:L.
  - rewrite fmap_cons. constructor; [by rewrite fmap_cons; constructor|]. rewrite fmap_cons. constructor; [done|]. eapply Forall_impl; [exact F|].
    intros z Z. by apply (bytes_lt_trans key k).
  - rewrite fmap_cons. constructor; [by apply IH|]. apply Forall_forall. intros z Z. apply tm_keys_insert in Z as [-> | Z]; cbn [fst].
    + split; [by apply bytes_le_total|congruence].
    + rewrite Forall_forall in F. by apply F.
Qed.

Lemma tm_get_elem key v m : tm_ok m -> tm_get key m = Some v <-> (key, v) ∈ m.
Proof.
  unfold tm_ok. induction m as [|[k x] m IH]; intros K; cbn [tm_get]; [by split; [|intros ?%elem_of_nil]|]. rewrite fmap_cons in K. inversion K as [|? ? SK F]; subst.
  rewrite elem_of_cons, <- IH by done. case_bool_decide as E.
  - subst. split; [intros [= ->]; by left|]. intros [[= ->]|H]; [done|]. exfalso. rewrite IH in H by done.
    assert (k ∈ m.*1) as I by (apply list_elem_of_fmap; by exists (k, v)). rewrite Forall_forall in F. by destruct (F k I).
  - split; [by right|]. intros [[= -> ->]|H]; [done|done].
Qed.

Lemma tm_get_None key m : tm_get key m = None <-> key ∉ m.*1.
Proof.
  induction m as [|[k x] m IH]; cbn [tm_get]; [by split; [intros _ ?%elem_of_nil|]|]. rewrite fmap_cons, elem_of_cons. case_bool_decide as E; [|rewrite IH]; naive_solver.
Qed.


(** A key after all the others goes to the end. *)
Lemma tm_insert_last key v m : Forall (fun e => bytes_lt e.1 key) m -> tm_insert key v m = m ++ [(key, v)].
Proof.
  induction 1 as [|[k x] m (L & N) F IH]; [done|]. cbn [tm_insert fst] in *. rewrite bool_decide_eq_false_2 by congruence.
  destruct (bytes_le key k) eqn:E; [by destruct N; apply bytes_le_antisym|]. by rewrite IH.
Qed.
End tree_map.
