(* ===== verification/HrmModel.v ===== *)
(** * hns-hrm: manifest objects

    Models [crates/hns-hrm/src/model.rs]: the objects of a Handshake Resource
    Manifest, their checks, their CBOR maps in both directions, and the signed
    envelope. A [String] is its UTF-8 bytes and an array of bytes its list; the
    curve and the digests are those of the classes [K256], [Crypto] and
    [ScriptDigests]. *)

From Stdlib Require Import Sorting.Sorted.
From S2P Require Import Prelude Encoding Primitives Covenants Transaction Script Interpreter K256 Cbor Text HrmUri.
Local Open Scope Z_scope.

Definition HRM_SIGNATURE_DOMAIN : list byte := bstr "HNS-HRM-v1" ++ [x00].
Definition HRM_VERSION : Z := 1.
Definition ALGORITHM_SECP256K1_ECDSA : Z := 1.
Definition MAX_ENVELOPE_BYTES : Z := 1048576.
Definition MAX_RESOURCES : Z := 1024.
Definition MAX_DELEGATIONS : Z := 4096.
Definition MAX_SIGNATURES : Z := 16.
Definition MAX_SIGNATURE_BYTES : Z := 80.
Definition MAX_PROFILE_IDENTIFIER_BYTES : Z := 128.
Definition MAX_RESOURCE_IDENTIFIER_BYTES : Z := 65536.
Definition MAX_PROOF_URIS : Z := 4.
Definition MAX_URI_BYTES : Z := 2048.
Definition MAX_RIGHTS : Z := 64.
Definition MAX_RIGHT_BYTES : Z := 128.

Definition ExtensionMap : Type := list (Z * Value).

Inductive HrmModelError := HmCbor (e : CborError) | HmInvalid (what : string) | HmCryptography.

(** ** [BTreeMap<u64, V>]: the entries in key order *)
Section btree.
Context {V : Type}.
Fixpoint bt_insert (k : Z) (v : V) (m : list (Z * V)) : list (Z * V) :=
  match m with
  | [] => [(k, v)]
  | (k', v') :: m' => if k <? k' then (k, v) :: m else if k =? k' then (k, v) :: m' else (k', v') :: bt_insert k v m'
  end.
Definition bt_collect (fields : list (Z * V)) : list (Z * V) := foldl (fun m f => bt_insert f.1 f.2 m) [] fields.
Fixpoint bt_remove (k : Z) (m : list (Z * V)) : option (V * list (Z * V)) :=
  match m with
  | [] => None
  | (k', v) :: m => if k' =? k then Some (v, m) else match bt_remove k m with Some (w, m) => Some (w, (k', v) :: m) | None => None end
  end.
Definition bt_contains (k : Z) (m : list (Z * V)) : bool := existsb (fun f => f.1 =? k) m.
End btree.

(** ** Fields of a map *)
Fixpoint open_map_keys (previous : option Z) (fields : ExtensionMap) : result HrmModelError unit :=
  match fields with
  | [] => Ok tt
  | (key, _) :: fields =>
    assert_or (negb (match previous with Some previous => key <=? previous | None => false end))
      (HmInvalid "open HRM map keys are not strictly increasing") ;;
    open_map_keys (Some key) fields
  end.
Definition validate_open_map (fields : ExtensionMap) : result HrmModelError unit := open_map_keys None fields.

Definition exact_fields (value : Value) (required optional : list Z) : result HrmModelError (list (Z * Value)) :=
  match value with
  | VMap fields =>
    let map := bt_collect fields in
    assert_or (negb (existsb (fun f => negb (existsb (Z.eqb f.1) (required ++ optional))) map)) (HmInvalid "unknown HRM map key") ;;
    assert_or (negb (existsb (fun key => negb (bt_contains key map)) required)) (HmInvalid "missing required HRM map key") ;;
    Ok map
  | _ => Err (HmInvalid "expected HRM CBOR map")
  end.

Definition take_value (fields : list (Z * Value)) (key : Z) : result HrmModelError (Value * list (Z * Value)) :=
  ok_or (bt_remove key fields) (HmInvalid "missing required HRM field").
Definition take_unsigned (fields : list (Z * Value)) (key : Z) : result HrmModelError (Z * list (Z * Value)) :=
  '(v, fields) ← take_value fields key;
  match v with VUnsigned n => Ok (n, fields) | _ => Err (HmInvalid "HRM field is not unsigned") end.
Definition take_bytes (fields : list (Z * Value)) (key : Z) : result HrmModelError (list byte * list (Z * Value)) :=
  '(v, fields) ← take_value fields key;
  match v with VBytes bs => Ok (bs, fields) | _ => Err (HmInvalid "HRM field is not a byte string") end.
Definition take_array (fields : list (Z * Value)) (key n : Z) : result HrmModelError (list byte * list (Z * Value)) :=
  '(bs, fields) ← take_bytes fields key;
  assert_or (len bs =? n) (HmInvalid "HRM byte string has the wrong size") ;;
  Ok (bs, fields).
Definition take_text (fields : list (Z * Value)) (key : Z) : result HrmModelError (list byte * list (Z * Value)) :=
  '(v, fields) ← take_value fields key;
  match v with VText text => Ok (text, fields) | _ => Err (HmInvalid "HRM field is not text") end.
Definition take_bool (fields : list (Z * Value)) (key : Z) : result HrmModelError (bool * list (Z * Value)) :=
  '(v, fields) ← take_value fields key;
  match v with VBool b => Ok (b, fields) | _ => Err (HmInvalid "HRM field is not boolean") end.
Definition take_array_values (fields : list (Z * Value)) (key : Z) : result HrmModelError (list Value * list (Z * Value)) :=
  '(v, fields) ← take_value fields key;
  match v with VArray values => Ok (values, fields) | _ => Err (HmInvalid "HRM field is not an array") end.
Definition text_item (value : Value) : result HrmModelError (list byte) :=
  match value with VText text => Ok text | _ => Err (HmInvalid "HRM array item is not text") end.
Definition take_text_array (fields : list (Z * Value)) (key : Z) : result HrmModelError (list (list byte) * list (Z * Value)) :=
  '(values, fields) ← take_array_values fields key;
  texts ← try_map text_item values;
  Ok (texts, fields).
Definition take_optional_map (fields : list (Z * Value)) (key : Z) : result HrmModelError (option ExtensionMap * list (Z * Value)) :=
  match bt_remove key fields with
  | None => Ok (None, fields)
  | Some (VMap map, fields) => validate_open_map map ;; Ok (Some map, fields)
  | Some (_, _) => Err (HmInvalid "HRM optional field is not a map")
  end.
Definition optional_map (key : Z) (map : option ExtensionMap) : list (Z * Value) :=
  match map with Some map => [(key, VMap map)] | None => [] end.

Definition validate_profile_identifier (profile : list byte) : result HrmModelError unit :=
  assert_or (negb ((len profile =? 0) || (MAX_PROFILE_IDENTIFIER_BYTES <? len profile) ||
                   negb (forallb (fun b => is_ascii_lowercase b || is_ascii_digit b || byte_in "-./" b) profile)))
    (HmInvalid "invalid HRM profile identifier").
Definition validate_uri (uri : list byte) : result HrmModelError unit :=
  assert_or (negb ((MAX_URI_BYTES <? len uri) || negb (is_valid_absolute_uri uri))) (HmInvalid "invalid HRM retrieval URI").
Definition validate_optional_map (map : option ExtensionMap) : result HrmModelError unit :=
  match map with Some map => validate_open_map map | None => Ok tt end.

(** [BTreeSet::insert] in a loop that stops at a repeated element. *)
Definition insert_unique {A} `{!EqDecision A} (seen : list A) (x : A) (what : string) : result HrmModelError (list A) :=
  assert_or (negb (bool_decide (x ∈ seen))) (HmInvalid what) ;; Ok (x :: seen).

(** ** Objects *)
Record SignatureObject := mkSignatureObject { so_algorithm : Z; so_public_key : list byte; so_signature : list byte }.
Record Controller := mkController { ct_algorithm : Z; ct_public_key : list byte }.

Inductive ResourceAuthority :=
| HnsLocal
| External (proof_profile proof_hash : list byte) (proof_uris : list (list byte))
| ParentDelegation (parent_subject parent_resource_id delegation_id : list byte).

Record ResourceEntry := mkResourceEntry {
  rs_profile : list byte;
  rs_resource_id : list byte;
  rs_identifier : list byte;
  rs_authority : ResourceAuthority;
  rs_not_before : Z;
  rs_expires_at : Z;
  rs_attributes : option ExtensionMap;
}.

Record Delegation := mkHrmDelegation {
  dg_delegation_id : list byte;
  dg_parent_resource_id : list byte;
  dg_child_profile : list byte;
  dg_child_resource_id : list byte;
  dg_child_identifier : list byte;
  dg_child_subject : list byte;
  dg_child_controller : Controller;
  dg_rights : list (list byte);
  dg_not_before : Z;
  dg_expires_at : Z;
  dg_may_subdelegate : bool;
  dg_constraints : option ExtensionMap;
}.

Record Payload := mkPayload {
  hp_version : Z;
  hp_subject : list byte;
  hp_sequence : Z;
  hp_issued_at : Z;
  hp_expires_at : Z;
  hp_controller : Controller;
  hp_resources : list ResourceEntry;
  hp_delegations : list Delegation;
  hp_extensions : option ExtensionMap;
}.

Record HrmEnvelope := mkHrmEnvelope { he_payload : Payload; he_signatures : list SignatureObject }.

Definition model_decode_limits : DecodeLimits :=
  mkLimits 32 MAX_ENVELOPE_BYTES MAX_ENVELOPE_BYTES MAX_DELEGATIONS 64 MAX_ENVELOPE_BYTES.

(** The window of a resource or a delegation lies in that of its payload. *)
Definition window_outside (issued_at expires_at not_before until : Z) : bool :=
  (not_before <? issued_at) || (expires_at <? until) || (until <=? not_before).

Section model.
Context {CR : Crypto} {SD : ScriptDigests} {KC : K256} {KD : KeyCodec KC}.

Definition hrm_blake2b_256 (parts : list (list byte)) : list byte := blake2b 32 (mjoin parts).

Definition hrm_validate_public_key (public_key : list byte) : result HrmModelError unit :=
  assert_or (bool_decide (head public_key ∈ [Some x02; Some x03])) (HmInvalid "invalid compressed secp256k1 public key") ;;
  assert_or (sec1_key_ok public_key) (HmInvalid "invalid compressed secp256k1 public key").

Definition validate_der_low_s (signature : list byte) : result HrmModelError unit :=
  assert_or (negb ((len signature =? 0) || (MAX_SIGNATURE_BYTES <? len signature))) (HmInvalid "invalid secp256k1 signature size") ;;
  parsed ← ok_or (from_der signature) (HmInvalid "invalid DER secp256k1 signature");
  assert_or (negb (is_high parsed || negb (bool_decide (to_der parsed = signature)))) (HmInvalid "noncanonical secp256k1 signature").

Definition hrm_signing_key (private_key : list byte) : result HrmModelError SigningKey :=
  ok_or (signing_key_from_bytes private_key) HmCryptography.

Definition hrm_public_key (private_key : list byte) : result HrmModelError (list byte) :=
  key ← hrm_signing_key private_key;
  assert_or (len (verifying_key key) =? 33) HmCryptography ;;
  Ok (verifying_key key).

Definition signature_digest (network_magic : Z) (payload : list byte) : list byte :=
  hrm_blake2b_256 [HRM_SIGNATURE_DOMAIN; to_le_bytes 4 network_magic; payload].

(** *** SignatureObject *)
Definition SignatureObject_validate (s : SignatureObject) : result HrmModelError unit :=
  assert_or (negb ((len (so_public_key s) =? 0) || (256 <? len (so_public_key s)) || (len (so_signature s) =? 0) || (512 <? len (so_signature s))))
    (HmInvalid "invalid signature object size") ;;
  if so_algorithm s =? ALGORITHM_SECP256K1_ECDSA
  then assert_or (len (so_public_key s) =? 33) (HmInvalid "invalid controller public key length") ;;
       hrm_validate_public_key (so_public_key s) ;;
       validate_der_low_s (so_signature s)
  else Ok tt.

Definition SignatureObject_to_value (s : SignatureObject) : result HrmModelError Value :=
  SignatureObject_validate s ;;
  Ok (VMap [(0, VUnsigned (so_algorithm s)); (1, VBytes (so_public_key s)); (2, VBytes (so_signature s))]).

Definition SignatureObject_from_value (value : Value) : result HrmModelError SignatureObject :=
  fields ← exact_fields value [0; 1; 2] [];
  '(algorithm, fields) ← take_unsigned fields 0;
  '(public_key, fields) ← take_bytes fields 1;
  '(signature, fields) ← take_bytes fields 2;
  let s := mkSignatureObject algorithm public_key signature in
  SignatureObject_validate s ;;
  Ok s.

(** *** Controller *)
Definition Controller_secp256k1 (public_key : list byte) : result HrmModelError Controller :=
  hrm_validate_public_key public_key ;;
  Ok (mkController ALGORITHM_SECP256K1_ECDSA public_key).

Definition Controller_validate (c : Controller) : result HrmModelError unit :=
  assert_or (ct_algorithm c =? ALGORITHM_SECP256K1_ECDSA) (HmInvalid "unsupported HRM controller algorithm") ;;
  hrm_validate_public_key (ct_public_key c).

Definition Controller_to_value (c : Controller) : result HrmModelError Value :=
  Controller_validate c ;;
  Ok (VMap [(0, VUnsigned (ct_algorithm c)); (1, VBytes (ct_public_key c))]).

Definition Controller_from_value (value : Value) : result HrmModelError Controller :=
  fields ← exact_fields value [0; 1] [];
  '(algorithm, fields) ← take_unsigned fields 0;
  '(public_key, fields) ← take_array fields 1 33;
  let c := mkController algorithm public_key in
  Controller_validate c ;;
  Ok c.

(** *** ResourceAuthority *)
Definition ResourceAuthority_validate (a : ResourceAuthority) : result HrmModelError unit :=
  match a with
  | HnsLocal | ParentDelegation _ _ _ => Ok tt
  | External proof_profile _ proof_uris =>
    validate_profile_identifier proof_profile ;;
    assert_or (len proof_uris <=? MAX_PROOF_URIS) (HmInvalid "invalid external proof URI count") ;;
    _ ← try_fold (fun unique uri => validate_uri uri ;; insert_unique unique uri "duplicate external proof URI") [] proof_uris;
    Ok tt
  end.

Definition ResourceAuthority_to_value (a : ResourceAuthority) : result HrmModelError Value :=
  ResourceAuthority_validate a ;;
  Ok (match a with
      | HnsLocal => VMap [(0, VUnsigned 0)]
      | External proof_profile proof_hash proof_uris =>
        VMap [(0, VUnsigned 1); (1, VText proof_profile); (2, VBytes proof_hash); (3, VArray (VText <$> proof_uris))]
      | ParentDelegation parent_subject parent_resource_id delegation_id =>
        VMap [(0, VUnsigned 2); (1, VBytes parent_subject); (2, VBytes parent_resource_id); (3, VBytes delegation_id)]
      end).

Definition authority_kind (value : Value) : result HrmModelError Z :=
  match value with
  | VMap fields =>
    ok_or (f ← List.find (fun f => f.1 =? 0) fields; match f.2 with VUnsigned kind => Some kind | _ => None end)
      (HmInvalid "missing resource authority kind")
  | _ => Err (HmInvalid "resource authority is not a map")
  end.

Definition ResourceAuthority_from_value (value : Value) : result HrmModelError ResourceAuthority :=
  kind ← authority_kind value;
  authority ←
    (if kind =? 0 then exact_fields value [0] [] ;; Ok HnsLocal
     else if kind =? 1 then
       fields ← exact_fields value [0; 1; 2; 3] [];
       '(actual_kind, fields) ← take_unsigned fields 0;
       assert_or (actual_kind =? 1) (HmInvalid "invalid external authority kind") ;;
       '(proof_profile, fields) ← take_text fields 1;
       '(proof_hash, fields) ← take_array fields 2 32;
       '(proof_uris, fields) ← take_text_array fields 3;
       Ok (External proof_profile proof_hash proof_uris)
     else if kind =? 2 then
       fields ← exact_fields value [0; 1; 2; 3] [];
       '(actual_kind, fields) ← take_unsigned fields 0;
       assert_or (actual_kind =? 2) (HmInvalid "invalid parent authority kind") ;;
       '(parent_subject, fields) ← take_array fields 1 32;
       '(parent_resource_id, fields) ← take_array fields 2 32;
       '(delegation_id, fields) ← take_array fields 3 32;
       Ok (ParentDelegation parent_subject parent_resource_id delegation_id)
     else Err (HmInvalid "unknown resource authority kind"));
  ResourceAuthority_validate authority ;;
  Ok authority.

(** *** ResourceEntry *)
Definition ResourceEntry_validate (r : ResourceEntry) (issued_at expires_at : Z) : result HrmModelError unit :=
  validate_profile_identifier (rs_profile r) ;;
  assert_or (len (rs_identifier r) <=? MAX_RESOURCE_IDENTIFIER_BYTES) (HmInvalid "resource identifier is too large") ;;
  assert_or (negb (window_outside issued_at expires_at (rs_not_before r) (rs_expires_at r)))
    (HmInvalid "resource validity is outside the HRM payload") ;;
  ResourceAuthority_validate (rs_authority r) ;;
  validate_optional_map (rs_attributes r).

Definition ResourceEntry_to_value (r : ResourceEntry) (issued_at expires_at : Z) : result HrmModelError Value :=
  ResourceEntry_validate r issued_at expires_at ;;
  authority ← ResourceAuthority_to_value (rs_authority r);
  Ok (VMap ([(0, VText (rs_profile r)); (1, VBytes (rs_resource_id r)); (2, VBytes (rs_identifier r)); (3, authority);
             (4, VUnsigned (rs_not_before r)); (5, VUnsigned (rs_expires_at r))] ++ optional_map 6 (rs_attributes r))).

Definition ResourceEntry_from_value (value : Value) (issued_at expires_at : Z) : result HrmModelError ResourceEntry :=
  fields ← exact_fields value [0; 1; 2; 3; 4; 5] [6];
  '(profile, fields) ← take_text fields 0;
  '(resource_id, fields) ← take_array fields 1 32;
  '(identifier, fields) ← take_bytes fields 2;
  '(authority, fields) ← take_value fields 3;
  authority ← ResourceAuthority_from_value authority;
  '(not_before, fields) ← take_unsigned fields 4;
  '(until, fields) ← take_unsigned fields 5;
  '(attributes, fields) ← take_optional_map fields 6;
  let r := mkResourceEntry profile resource_id identifier authority not_before until attributes in
  ResourceEntry_validate r issued_at expires_at ;;
  Ok r.

(** *** Delegation *)
Definition Delegation_validate (d : Delegation) (issued_at expires_at : Z) : result HrmModelError unit :=
  validate_profile_identifier (dg_child_profile d) ;;
  assert_or (len (dg_child_identifier d) <=? MAX_RESOURCE_IDENTIFIER_BYTES) (HmInvalid "child resource identifier is too large") ;;
  Controller_validate (dg_child_controller d) ;;
  assert_or (negb ((len (dg_rights d) =? 0) || (MAX_RIGHTS <? len (dg_rights d)))) (HmInvalid "invalid delegation rights count") ;;
  try_each (fun right => assert_or (negb ((len right =? 0) || (MAX_RIGHT_BYTES <? len right))) (HmInvalid "invalid delegation right")) (dg_rights d) ;;
  assert_or (negb (window_outside issued_at expires_at (dg_not_before d) (dg_expires_at d)))
    (HmInvalid "delegation validity is outside the HRM payload") ;;
  validate_optional_map (dg_constraints d).

Definition Delegation_fields_without_id (d : Delegation) : result HrmModelError ExtensionMap :=
  Controller_validate (dg_child_controller d) ;;
  controller ← Controller_to_value (dg_child_controller d);
  let fields :=
    [(1, VBytes (dg_parent_resource_id d)); (2, VText (dg_child_profile d)); (3, VBytes (dg_child_resource_id d));
     (4, VBytes (dg_child_identifier d)); (5, VBytes (dg_child_subject d)); (6, controller);
     (7, VArray (VText <$> dg_rights d)); (8, VUnsigned (dg_not_before d)); (9, VUnsigned (dg_expires_at d));
     (10, VBool (dg_may_subdelegate d))] in
  validate_optional_map (dg_constraints d) ;;
  Ok (fields ++ optional_map 11 (dg_constraints d)).

Definition Delegation_body_value (d : Delegation) (issued_at expires_at : Z) : result HrmModelError Value :=
  Delegation_validate d issued_at expires_at ;;
  fields ← Delegation_fields_without_id d;
  Ok (VMap fields).

Definition Delegation_to_value (d : Delegation) (issued_at expires_at : Z) : result HrmModelError Value :=
  Delegation_validate d issued_at expires_at ;;
  fields ← Delegation_fields_without_id d;
  Ok (VMap ((0, VBytes (dg_delegation_id d)) :: fields)).

Definition Delegation_from_value (value : Value) (issued_at expires_at : Z) : result HrmModelError Delegation :=
  fields ← exact_fields value [0; 1; 2; 3; 4; 5; 6; 7; 8; 9; 10] [11];
  '(delegation_id, fields) ← take_array fields 0 32;
  '(parent_resource_id, fields) ← take_array fields 1 32;
  '(child_profile, fields) ← take_text fields 2;
  '(child_resource_id, fields) ← take_array fields 3 32;
  '(child_identifier, fields) ← take_bytes fields 4;
  '(child_subject, fields) ← take_array fields 5 32;
  '(child_controller, fields) ← take_value fields 6;
  child_controller ← Controller_from_value child_controller;
  '(rights, fields) ← take_text_array fields 7;
  '(not_before, fields) ← take_unsigned fields 8;
  '(until, fields) ← take_unsigned fields 9;
  '(may_subdelegate, fields) ← take_bool fields 10;
  '(constraints, fields) ← take_optional_map fields 11;
  let d := mkHrmDelegation delegation_id parent_resource_id child_profile child_resource_id child_identifier child_subject
             child_controller rights not_before until may_subdelegate constraints in
  Delegation_validate d issued_at expires_at ;;
  Ok d.

(** *** Payload *)
Definition Payload_validate (p : Payload) : result HrmModelError unit :=
  assert_or (hp_version p =? HRM_VERSION) (HmInvalid "unsupported HRM payload version") ;;
  assert_or (hp_issued_at p <? hp_expires_at p) (HmInvalid "invalid HRM payload validity") ;;
  Controller_validate (hp_controller p) ;;
  assert_or (len (hp_resources p) <=? MAX_RESOURCES) (HmInvalid "too many HRM resources") ;;
  assert_or (len (hp_delegations p) <=? MAX_DELEGATIONS) (HmInvalid "too many HRM delegations") ;;
  _ ← try_fold (fun ids r =>
        ResourceEntry_validate r (hp_issued_at p) (hp_expires_at p) ;;
        insert_unique ids (rs_resource_id r) "duplicate HRM resource identifier") [] (hp_resources p);
  _ ← try_fold (fun ids d =>
        Delegation_validate d (hp_issued_at p) (hp_expires_at p) ;;
        insert_unique ids (dg_delegation_id d) "duplicate HRM delegation identifier") [] (hp_delegations p);
  validate_optional_map (hp_extensions p).

Definition Payload_to_value (p : Payload) : result HrmModelError Value :=
  Payload_validate p ;;
  controller ← Controller_to_value (hp_controller p);
  resources ← try_map (fun r => ResourceEntry_to_value r (hp_issued_at p) (hp_expires_at p)) (hp_resources p);
  delegations ← try_map (fun d => Delegation_to_value d (hp_issued_at p) (hp_expires_at p)) (hp_delegations p);
  Ok (VMap ([(0, VUnsigned (hp_version p)); (1, VBytes (hp_subject p)); (2, VUnsigned (hp_sequence p)); (3, VUnsigned (hp_issued_at p));
             (4, VUnsigned (hp_expires_at p)); (5, controller); (6, VArray resources); (7, VArray delegations)] ++
            optional_map 8 (hp_extensions p))).

Definition Payload_from_value (value : Value) : result HrmModelError Payload :=
  fields ← exact_fields value [0; 1; 2; 3; 4; 5; 6; 7] [8];
  '(version, fields) ← take_unsigned fields 0;
  '(subject, fields) ← take_array fields 1 32;
  '(sequence, fields) ← take_unsigned fields 2;
  '(issued_at, fields) ← take_unsigned fields 3;
  '(expires_at, fields) ← take_unsigned fields 4;
  '(controller, fields) ← take_value fields 5;
  controller ← Controller_from_value controller;
  '(resource_values, fields) ← take_array_values fields 6;
  assert_or (len resource_values <=? MAX_RESOURCES) (HmInvalid "too many HRM resources") ;;
  resources ← try_map (fun r => ResourceEntry_from_value r issued_at expires_at) resource_values;
  '(delegation_values, fields) ← take_array_values fields 7;
  assert_or (len delegation_values <=? MAX_DELEGATIONS) (HmInvalid "too many HRM delegations") ;;
  delegations ← try_map (fun d => Delegation_from_value d issued_at expires_at) delegation_values;
  '(extensions, fields) ← take_optional_map fields 8;
  let p := mkPayload version subject sequence issued_at expires_at controller resources delegations extensions in
  Payload_validate p ;;
  Ok p.

Definition Payload_encode (p : Payload) : result HrmModelError (list byte) :=
  Payload_validate p ;;
  value ← Payload_to_value p;
  encoded ← map_err HmCbor (encode_canonical_with_limits value model_decode_limits);
  assert_or (len encoded <=? MAX_ENVELOPE_BYTES) (HmInvalid "HRM payload is too large") ;;
  Ok encoded.

Definition Payload_decode (bytes : list byte) : result HrmModelError Payload :=
  assert_or (negb ((len bytes =? 0) || (MAX_ENVELOPE_BYTES <? len bytes))) (HmInvalid "invalid HRM payload size") ;;
  value ← map_err HmCbor (decode_canonical bytes model_decode_limits);
  payload ← Payload_from_value value;
  encoded ← Payload_encode payload;
  assert_or (bool_decide (encoded = bytes)) (HmInvalid "noncanonical HRM payload") ;;
  Ok payload.

Definition Payload_validate_context (p : Payload) (subject : list byte) (sequence now clock_skew : Z) : result HrmModelError unit :=
  Payload_validate p ;;
  assert_or (bool_decide (hp_subject p = subject) && (hp_sequence p =? sequence)) (HmInvalid "HRM subject or sequence mismatch") ;;
  let earliest := saturating_sub (hp_issued_at p) clock_skew in
  let latest := saturating_add u64_max (hp_expires_at p) clock_skew in
  assert_or (negb ((now <? earliest) || (latest <=? now))) (HmInvalid "HRM payload is not currently valid").

(** *** Envelope *)
Definition HrmEnvelope_validate_structure (e : HrmEnvelope) : result HrmModelError unit :=
  Payload_validate (he_payload e) ;;
  assert_or (negb ((len (he_signatures e) =? 0) || (MAX_SIGNATURES <? len (he_signatures e)))) (HmInvalid "invalid HRM signature count") ;;
  try_each SignatureObject_validate (he_signatures e).

Definition HrmEnvelope_encode (e : HrmEnvelope) : result HrmModelError (list byte) :=
  HrmEnvelope_validate_structure e ;;
  payload ← Payload_encode (he_payload e);
  signatures ← try_map SignatureObject_to_value (he_signatures e);
  encoded ← map_err HmCbor (encode_canonical_with_limits (VMap [(0, VBytes payload); (1, VArray signatures)]) model_decode_limits);
  assert_or (len encoded <=? MAX_ENVELOPE_BYTES) (HmInvalid "HRM envelope is too large") ;;
  Ok encoded.

Definition HrmEnvelope_decode (bytes : list byte) : result HrmModelError HrmEnvelope :=
  assert_or (negb ((len bytes =? 0) || (MAX_ENVELOPE_BYTES <? len bytes))) (HmInvalid "invalid HRM envelope size") ;;
  value ← map_err HmCbor (decode_canonical bytes model_decode_limits);
  fields ← exact_fields value [0; 1] [];
  '(payload, fields) ← take_bytes fields 0;
  payload ← Payload_decode payload;
  '(signatures, fields) ← take_array_values fields 1;
  signatures ← try_map SignatureObject_from_value signatures;
  let envelope := mkHrmEnvelope payload signatures in
  HrmEnvelope_validate_structure envelope ;;
  encoded ← HrmEnvelope_encode envelope;
  assert_or (bool_decide (encoded = bytes)) (HmInvalid "noncanonical HRM envelope") ;;
  Ok envelope.

Definition HrmEnvelope_envelope_hash (e : HrmEnvelope) : result HrmModelError (list byte) :=
  encoded ← HrmEnvelope_encode e; Ok (sha256 encoded).

(** Whether the loop returns at this signature. *)
Definition signature_accepts (controller_key digest : list byte) (s : SignatureObject) : bool :=
  if negb (so_algorithm s =? ALGORITHM_SECP256K1_ECDSA) || negb (bool_decide (so_public_key s = controller_key)) then false
  else match from_der (so_signature s) with
       | Some parsed => negb (is_high parsed) && verify_prehash controller_key digest parsed
       | None => false
       end.

Definition HrmEnvelope_verify_controller_signature (e : HrmEnvelope) (network_magic : Z) : result HrmModelError unit :=
  HrmEnvelope_validate_structure e ;;
  payload ← Payload_encode (he_payload e);
  let digest := signature_digest network_magic payload in
  let controller_key := ct_public_key (hp_controller (he_payload e)) in
  assert_or (sec1_key_ok controller_key) HmCryptography ;;
  assert_or (existsb (signature_accepts controller_key digest) (he_signatures e)) HmCryptography.

Definition HrmEnvelope_sign (payload : Payload) (network_magic : Z) (private_key : list byte) : result HrmModelError HrmEnvelope :=
  Payload_validate payload ;;
  key ← hrm_signing_key private_key;
  let public_key := verifying_key key in
  assert_or (bool_decide (public_key = ct_public_key (hp_controller payload))) (HmInvalid "private key does not match the HRM controller") ;;
  payload_bytes ← Payload_encode payload;
  let digest := signature_digest network_magic payload_bytes in
  signature ← ok_or (sign_prehash key digest) HmCryptography;
  let signature := default signature (normalize_s signature) in
  let envelope := mkHrmEnvelope payload [mkSignatureObject ALGORITHM_SECP256K1_ECDSA public_key (to_der signature)] in
  HrmEnvelope_validate_structure envelope ;;
  HrmEnvelope_encode envelope ;;
  Ok envelope.

Definition HrmEnvelope_validate_context (e : HrmEnvelope) (network_magic : Z) (subject : list byte) (sequence now clock_skew : Z)
    : result HrmModelError unit :=
  Payload_validate_context (he_payload e) subject sequence now clock_skew ;;
  HrmEnvelope_verify_controller_signature e network_magic.
End model.

(** ** Reading the fields of a map *)
Definition fields_typed (m : list (Z * Value)) : Prop := Forall (fun f => u64 f.1 /\ value_typed f.2) m.
Definition text_ok (t : list byte) : Prop := len t <= isize_max /\ from_utf8_ok t = true.
Definition map_typed (m : option ExtensionMap) : Prop := match m with Some m => value_typed (VMap m) | None => True end.

Lemma bt_insert_typed k v m : u64 k -> value_typed v -> fields_typed m -> fields_typed (bt_insert k v m).
Proof.
  intros K V. induction m as [|[k' v'] m IH]; intros F; cbn [bt_insert]; [by constructor|]. apply Forall_cons in F as (H & F).
  destruct (k <? k'); [by constructor; [|constructor]|]. destruct (k =? k'); [by constructor|]. constructor; [done|by apply IH].
Qed.

Lemma bt_collect_typed fs m : fields_typed fs -> fields_typed m -> fields_typed (foldl (fun m f => bt_insert f.1 f.2 m) m fs).
Proof.
  revert m. induction fs as [|f fs IH]; intros m F M; [done|]. apply Forall_cons in F as ((K & V) & F). cbn [foldl]. apply IH; [done|]. by apply bt_insert_typed.
Qed.

Lemma exact_fields_typed v r o m : value_typed v -> exact_fields v r o = Ok m -> fields_typed m.
Proof.
  intros T. destruct v; try done. cbn [exact_fields]. intros H. apply bind_Ok in H as (u & _ & H). apply bind_Ok in H as (u' & _ & H). apply Ok_inj in H as <-.
  inversion T. apply bt_collect_typed; [done|constructor].
Qed.

Lemma bt_remove_typed k m v m' : fields_typed m -> bt_remove k m = Some (v, m') -> value_typed v /\ fields_typed m'.
Proof.
  revert m'. induction m as [|[k' w] m IH]; intros m' F; cbn [bt_remove]; [done|]. apply Forall_cons in F as ((K & W) & F). cbn in K, W.
  destruct (k' =? k); [by intros [= <- <-]|]. destruct (bt_remove k m) as [[x m'']|]; [|done]. intros [= <- <-].
  destruct (IH m'' F eq_refl) as (? & ?). split; [done|]. by constructor.
Qed.

(** One step of a reader: what was read is typed and so is what is left. *)
Definition take_gives {A} (P : A -> Prop) (r : result HrmModelError (A * list (Z * Value))) : Prop :=
  forall a m, r = Ok (a, m) -> P a /\ fields_typed m.

Section takes.
Variables (m : list (Z * Value)) (k : Z).
Hypothesis F : fields_typed m.

Lemma take_value_typed : take_gives value_typed (take_value m k).
Proof. intros v m' H. apply ok_or_Ok in H. by apply (bt_remove_typed k m). Qed.

Lemma take_unsigned_typed : take_gives u64 (take_unsigned m k).
Proof.
  intros n m' H. apply bind_Ok in H as ([v m''] & (T & F')%take_value_typed & H). destruct v; try done. injection H as <- <-. by inversion T.
Qed.

Lemma take_bytes_typed : take_gives (fun b => len b <= isize_max) (take_bytes m k).
Proof.
  intros n m' H. apply bind_Ok in H as ([v m''] & (T & F')%take_value_typed & H). destruct v; try done. apply Ok_inj in H. injection H as <- <-. by inversion T.
Qed.

Lemma take_array_typed n : take_gives (fun b => len b = n) (take_array m k n).
Proof.
  intros b m' H. apply bind_Ok in H as ([v m''] & (T & F')%take_bytes_typed & H). apply bind_Ok in H as (u & L%assert_or_Ok & H).
  apply Ok_inj in H. injection H as <- <-. split; [by apply Z.eqb_eq|done].
Qed.

Lemma take_text_typed : take_gives text_ok (take_text m k).
Proof.
  intros n m' H. apply bind_Ok in H as ([v m''] & (T & F')%take_value_typed & H). destruct v; try done. apply Ok_inj in H. injection H as <- <-. by inversion T.
Qed.

Lemma take_bool_typed : take_gives (fun _ => True) (take_bool m k).
Proof.
  intros n m' H. apply bind_Ok in H as ([v m''] & (T & F')%take_value_typed & H). destruct v; try done. by injection H as <- <-.
Qed.

Lemma take_array_values_typed : take_gives (Forall value_typed) (take_array_values m k).
Proof.
  intros n m' H. apply bind_Ok in H as ([v m''] & (T & F')%take_value_typed & H). destruct v; try done. injection H as <- <-. by inversion T.
Qed.

Lemma take_text_array_typed : take_gives (Forall text_ok) (take_text_array m k).
Proof.
  intros n m' H. apply bind_Ok in H as ([vs m''] & (T & F')%take_array_values_typed & H). apply bind_Ok in H as (ts & M & H). injection H as <- <-.
  split; [|done]. apply try_map_inv in M. induction M as [|v t vs ts E _ IH]; [constructor|]. apply Forall_cons in T as (V & T).
  constructor; [|by apply IH]. destruct v; try done. apply Ok_inj in E as <-. by inversion V.
Qed.

Lemma take_optional_map_typed : take_gives map_typed (take_optional_map m k).
Proof.
  intros n m' H. unfold take_optional_map in H. destruct (bt_remove k m) as [[v m'']|] eqn:R; [|by injection H as <- <-].
  apply bt_remove_typed in R as (T & F'); [|done]. destruct v; try done. apply bind_Ok in H as (u & _ & H). by injection H as <- <-.
Qed.
End takes.

(** *** The field that is read is the first one left *)
Lemma remove_head {V} k (v : V) m : bt_remove k ((k, v) :: m) = Some (v, m).
Proof. cbn [bt_remove]. by rewrite Z.eqb_refl. Qed.

Lemma take_value_head k v m : take_value ((k, v) :: m) k = Ok (v, m).
Proof. unfold take_value. by rewrite remove_head. Qed.
Lemma take_unsigned_head k n m : take_unsigned ((k, VUnsigned n) :: m) k = Ok (n, m).
Proof. unfold take_unsigned. by rewrite take_value_head. Qed.
Lemma take_bytes_head k b m : take_bytes ((k, VBytes b) :: m) k = Ok (b, m).
Proof. unfold take_bytes. by rewrite take_value_head. Qed.
Lemma take_array_head k b n m : len b = n -> take_array ((k, VBytes b) :: m) k n = Ok (b, m).
Proof. intros <-. unfold take_array. rewrite take_bytes_head. cbn [mbind result_bind]. by rewrite Z.eqb_refl. Qed.
Lemma take_text_head k t m : take_text ((k, VText t) :: m) k = Ok (t, m).
Proof. unfold take_text. by rewrite take_value_head. Qed.
Lemma take_bool_head k b m : take_bool ((k, VBool b) :: m) k = Ok (b, m).
Proof. unfold take_bool. by rewrite take_value_head. Qed.
Lemma take_array_values_head k vs m : take_array_values ((k, VArray vs) :: m) k = Ok (vs, m).
Proof. unfold take_array_values. by rewrite take_value_head. Qed.
Lemma take_text_array_head k ts m : take_text_array ((k, VArray (VText <$> ts)) :: m) k = Ok (ts, m).
Proof.
  unfold take_text_array. rewrite take_array_values_head. cbn [mbind result_bind]. rewrite (proj2 (try_map_inv _ _ ts)); [done|].
  induction ts; [constructor|]. by constructor.
Qed.
Lemma take_optional_head k map : validate_optional_map map = Ok tt -> take_optional_map (optional_map k map) k = Ok (map, []).
Proof. destruct map as [map|]; [|done]. intros V. unfold take_optional_map. cbn [optional_map]. rewrite remove_head. cbn in V. by rewrite V. Qed.

Create Rewrite HintDb takes.
#[export] Hint Rewrite take_value_head take_unsigned_head take_bytes_head take_text_head take_bool_head take_array_values_head take_text_array_head : takes.
(** Take the next field of a map whose fields are known. *)
Ltac take_next := first [rewrite_strat (topdown (hints takes)) | rewrite take_array_head by done | rewrite take_optional_head by done]; cbn [mbind result_bind].

Lemma texts_typed ts : len ts <= isize_max -> Forall text_ok ts -> value_typed (VArray (VText <$> ts)).
Proof.
  intros L T. constructor; [unfold len in *; by rewrite length_fmap|]. induction T as [|t ts (? & ?) _ IH]; [constructor|].
  constructor; [by constructor|]. apply IH. rewrite len_cons in L. lia.
Qed.

Lemma optional_typed k map : u64 k -> map_typed map -> fields_typed (optional_map k map).
Proof. intros K T. destruct map; [|constructor]. constructor; [done|constructor]. Qed.

(** ** Loops that refuse a repeated element *)
Lemma unique_fold {A B} `{!EqDecision B} (check : A -> result HrmModelError unit) (key : A -> B) what seen xs :
  (exists s, try_fold (fun ids x => check x ;; insert_unique ids (key x) what) seen xs = Ok s) <->
  Forall (fun x => check x = Ok tt) xs /\ NoDup (key <$> xs) /\ (forall k, k ∈ (key <$> xs) -> k ∉ seen).
Proof.
  revert seen. induction xs as [|x xs IH]; intros seen; cbn [try_fold fmap list_fmap].
  { split; [intros _|by eexists]. split; [constructor|]. split; [constructor|]. intros k H. by apply elem_of_nil in H. }
  rewrite Forall_cons, NoDup_cons. split.
  - intros (s & H). apply bind_Ok in H as (s' & H & R). apply bind_Ok in H as ([] & C & H). apply bind_Ok in H as (u & N%assert_or_Ok & E).
    apply Ok_inj in E as <-. apply negb_true_iff, bool_decide_eq_false in N. destruct (proj1 (IH _) (ex_intro _ s R)) as (F & D & Sn).
    split; [done|]. split; [split; [|done]|].
    + intros I. apply (Sn _ I). apply elem_of_cons. by left.
    + intros k [-> | K]%elem_of_cons; [done|]. intros I. apply (Sn k K). apply elem_of_cons. by right.
  - intros ((C & F) & (N & D) & Sn). rewrite C. cbn [mbind result_bind]. assert (insert_unique seen (key x) what = Ok (key x :: seen)) as ->.
    { unfold insert_unique. by rewrite bool_decide_eq_false_2 by (apply Sn, elem_of_cons; by left). }
    cbn [mbind result_bind]. apply IH.
    split; [done|]. split; [done|]. intros k K. rewrite elem_of_cons. intros [-> | I]; [done|]. apply (Sn k); [|done]. apply elem_of_cons. by right.
Qed.

(** ** Objects and their CBOR maps *)
Definition signature_typed (s : SignatureObject) : Prop :=
  u64 (so_algorithm s) /\ len (so_public_key s) <= isize_max /\ len (so_signature s) <= isize_max.
Definition controller_typed (c : Controller) : Prop := u64 (ct_algorithm c) /\ len (ct_public_key c) = 33.
Definition authority_typed (a : ResourceAuthority) : Prop :=
  match a with
  | HnsLocal => True
  | External profile hash uris => text_ok profile /\ len hash = 32 /\ Forall text_ok uris
  | ParentDelegation s r d => len s = 32 /\ len r = 32 /\ len d = 32
  end.
Record resource_typed (r : ResourceEntry) : Prop := {
  rt_profile : text_ok (rs_profile r);
  rt_id : len (rs_resource_id r) = 32;
  rt_identifier : len (rs_identifier r) <= isize_max;
  rt_authority : authority_typed (rs_authority r);
  rt_from : u64 (rs_not_before r);
  rt_until : u64 (rs_expires_at r);
  rt_attributes : map_typed (rs_attributes r);
}.
Record delegation_typed (d : Delegation) : Prop := {
  dt_id : len (dg_delegation_id d) = 32;
  dt_parent : len (dg_parent_resource_id d) = 32;
  dt_profile : text_ok (dg_child_profile d);
  dt_resource : len (dg_child_resource_id d) = 32;
  dt_identifier : len (dg_child_identifier d) <= isize_max;
  dt_subject : len (dg_child_subject d) = 32;
  dt_controller : controller_typed (dg_child_controller d);
  dt_rights : Forall text_ok (dg_rights d);
  dt_from : u64 (dg_not_before d);
  dt_until : u64 (dg_expires_at d);
  dt_constraints : map_typed (dg_constraints d);
}.
Record payload_typed (p : Payload) : Prop := {
  pt_version : u64 (hp_version p);
  pt_subject : len (hp_subject p) = 32;
  pt_sequence : u64 (hp_sequence p);
  pt_issued : u64 (hp_issued_at p);
  pt_expires : u64 (hp_expires_at p);
  pt_controller : controller_typed (hp_controller p);
  pt_resources : Forall resource_typed (hp_resources p);
  pt_delegations : Forall delegation_typed (hp_delegations p);
  pt_extensions : map_typed (hp_extensions p);
}.
Definition hrm_typed (e : HrmEnvelope) : Prop := payload_typed (he_payload e) /\ Forall signature_typed (he_signatures e).

(** Open the next field of a map read by [from_value], with its type. *)
Ltac opened H F lem x :=
  let m := fresh "m" in let T := fresh "T" in let F' := fresh "F" in
  apply bind_Ok in H; destruct H as ([x m] & T & H); apply lem in T; [|exact F]; destruct T as [T F']; clear F; rename F' into F.

Section objects.
Context {CR : Crypto} {SD : ScriptDigests} {KC : K256} {KD : KeyCodec KC}.

Lemma signature_roundtrip s v :
  signature_typed s -> SignatureObject_to_value s = Ok v -> value_typed v /\ SignatureObject_from_value v = Ok s.
Proof.
  intros (A & P & Sg) H. apply bind_Ok in H as ([] & V & H). apply Ok_inj in H as <-. split.
  - constructor; [done|]. repeat (constructor; [split; [done|by constructor]|]). constructor.
  - unfold SignatureObject_from_value.
    assert (forall a b c, exact_fields (VMap [(0, a); (1, b); (2, c)]) [0; 1; 2] [] = Ok [(0, a); (1, b); (2, c)]) as -> by done.
    cbn [mbind result_bind]. do 3 take_next. rewrite (ltac:(by destruct s) : mkSignatureObject (so_algorithm s) (so_public_key s) (so_signature s) = s). by rewrite V.
Qed.

Lemma signature_read v s : value_typed v -> SignatureObject_from_value v = Ok s -> signature_typed s.
Proof.
  intros T H. apply bind_Ok in H as (m & F%exact_fields_typed & H); [|done].
  opened H F take_unsigned_typed a. opened H F take_bytes_typed b. opened H F take_bytes_typed c.
  apply bind_Ok in H as (u & _ & H). by apply Ok_inj in H as <-.
Qed.

Lemma controller_roundtrip c v :
  controller_typed c -> Controller_to_value c = Ok v -> value_typed v /\ Controller_from_value v = Ok c.
Proof.
  intros (A & P) H. apply bind_Ok in H as ([] & V & H). apply Ok_inj in H as <-. split.
  - constructor; [done|]. repeat (constructor; [split; [done|constructor; ulia]|]). constructor.
  - unfold Controller_from_value.
    assert (forall a b, exact_fields (VMap [(0, a); (1, b)]) [0; 1] [] = Ok [(0, a); (1, b)]) as -> by done.
    cbn [mbind result_bind]. do 2 take_next. rewrite (ltac:(by destruct c) : mkController (ct_algorithm c) (ct_public_key c) = c). by rewrite V.
Qed.

Lemma controller_read v c : value_typed v -> Controller_from_value v = Ok c -> controller_typed c.
Proof.
  intros T H. apply bind_Ok in H as (m & F%exact_fields_typed & H); [|done].
  opened H F take_unsigned_typed a. opened H F take_array_typed b. apply bind_Ok in H as (u & _ & H). by apply Ok_inj in H as <-.
Qed.

Lemma authority_uris profile hash uris : ResourceAuthority_validate (External profile hash uris) = Ok tt -> len uris <= isize_max.
Proof.
  intros H. apply bind_Ok in H as (u & _ & H). apply bind_Ok in H as (u' & L%assert_or_Ok & _). apply Z.leb_le in L. unfold MAX_PROOF_URIS in L. ulia.
Qed.

Lemma authority_roundtrip a v :
  authority_typed a -> ResourceAuthority_to_value a = Ok v -> value_typed v /\ ResourceAuthority_from_value v = Ok a.
Proof.
  intros T H. apply bind_Ok in H as ([] & V & H). apply Ok_inj in H as <-.
  assert (forall n a b c, exact_fields (VMap [(0, VUnsigned n); (1, a); (2, b); (3, c)]) [0; 1; 2; 3] [] = Ok [(0, VUnsigned n); (1, a); (2, b); (3, c)]) as EF by done.
  unfold ResourceAuthority_from_value. destruct a as [|profile hash uris|s r d]; cbn in T.
  - split; [|by cbn]. constructor; [done|]. repeat constructor; done.
  - destruct T as (P & L & U). pose proof (authority_uris _ _ _ V). split.
    + destruct P. constructor; [done|]. repeat (constructor; [split; [done|first [by constructor|constructor; ulia|by apply texts_typed]]|]). constructor.
    + cbn [authority_kind List.find fst snd Z.eqb mbind option_bind ok_or result_bind]. rewrite EF. cbn [mbind result_bind]. take_next.
      cbn [Z.eqb Pos.eqb assert_or mbind result_bind]. do 3 take_next. by rewrite V.
  - destruct T as (Ls & Lr & Ld). split.
    + constructor; [done|]. repeat (constructor; [split; [done|first [by constructor|constructor; ulia]]|]). constructor.
    + cbn [authority_kind List.find fst snd Z.eqb mbind option_bind ok_or result_bind]. rewrite EF. cbn [mbind result_bind]. take_next.
      cbn [Z.eqb Pos.eqb assert_or mbind result_bind]. by do 3 take_next.
Qed.

Lemma authority_read v a : value_typed v -> ResourceAuthority_from_value v = Ok a -> authority_typed a.
Proof.
  intros T H. apply bind_Ok in H as (k & _ & H). apply bind_Ok in H as (a' & H & E). apply bind_Ok in E as (u & _ & E). apply Ok_inj in E as ->.
  destruct (k =? 0); [apply bind_Ok in H as (m & _ & H); by apply Ok_inj in H as <-|].
  destruct (k =? 1); [|destruct (k =? 2); [|done]]; (apply bind_Ok in H as (m & F%exact_fields_typed & H); [|done]);
    opened H F take_unsigned_typed n; apply bind_Ok in H as (u' & _ & H).
  - opened H F take_text_typed p. opened H F take_array_typed h. opened H F take_text_array_typed us. by apply Ok_inj in H as <-.
  - opened H F take_array_typed p. opened H F take_array_typed h. opened H F take_array_typed us. by apply Ok_inj in H as <-.
Qed.

Lemma resource_roundtrip r i e v :
  resource_typed r -> ResourceEntry_to_value r i e = Ok v -> value_typed v /\ ResourceEntry_from_value v i e = Ok r.
Proof.
  intros [(P1 & P2) I D A N U M] H. apply bind_Ok in H as ([] & V & H). apply bind_Ok in H as (av & AV & H). apply Ok_inj in H as <-.
  destruct (authority_roundtrip _ _ A AV) as (AT & AR). assert (validate_optional_map (rs_attributes r) = Ok tt) as VM.
  { pose proof V as W. do 4 (apply bind_Ok in W as (? & _ & W)). exact W. }
  split.
  - constructor; [destruct (rs_attributes r); done|]. apply Forall_app. split; [|by apply optional_typed].
    repeat (constructor; [split; [done|first [done|by constructor|constructor; ulia]]|]). constructor.
  - unfold ResourceEntry_from_value.
    assert (forall a b c d f g m, exact_fields (VMap ([(0, a); (1, b); (2, c); (3, d); (4, f); (5, g)] ++ optional_map 6 m)) [0; 1; 2; 3; 4; 5] [6] =
      Ok ([(0, a); (1, b); (2, c); (3, d); (4, f); (5, g)] ++ optional_map 6 m)) as -> by (intros; by destruct m).
    cbn [mbind result_bind app]. do 4 take_next. rewrite AR. cbn [mbind result_bind]. do 3 take_next.
    rewrite (ltac:(by destruct r) : mkResourceEntry (rs_profile r) (rs_resource_id r) (rs_identifier r) (rs_authority r) (rs_not_before r) (rs_expires_at r) (rs_attributes r) = r).
    by rewrite V.
Qed.

Lemma resource_read v i e r : value_typed v -> ResourceEntry_from_value v i e = Ok r -> resource_typed r.
Proof.
  intros T H. apply bind_Ok in H as (m & F%exact_fields_typed & H); [|done].
  opened H F take_text_typed p. opened H F take_array_typed a. opened H F take_bytes_typed b. opened H F take_value_typed c.
  apply bind_Ok in H as (au & AR%authority_read & H); [|done].
  opened H F take_unsigned_typed d. opened H F take_unsigned_typed u. opened H F take_optional_map_typed o.
  apply bind_Ok in H as (? & _ & H). by apply Ok_inj in H as <-.
Qed.

Lemma delegation_checks d i e : Delegation_validate d i e = Ok tt ->
  Controller_validate (dg_child_controller d) = Ok tt /\ validate_optional_map (dg_constraints d) = Ok tt /\ len (dg_rights d) <= isize_max.
Proof.
  intros H. do 2 (apply bind_Ok in H as (? & _ & H)). apply bind_Ok in H as ([] & C & H). apply bind_Ok in H as (? & R%assert_or_Ok & H).
  do 2 (apply bind_Ok in H as (? & _ & H)). split; [done|]. split; [done|]. apply negb_true_iff, orb_false_iff in R as (_ & R).
  apply Z.ltb_ge in R. unfold MAX_RIGHTS in R. ulia.
Qed.

Lemma delegation_roundtrip d i e v :
  delegation_typed d -> Delegation_to_value d i e = Ok v -> value_typed v /\ Delegation_from_value v i e = Ok d.
Proof.
  intros [I P (Q1 & Q2) R D S C G N U M] H. apply bind_Ok in H as ([] & V & H). apply bind_Ok in H as (fs & W & H). apply Ok_inj in H as <-.
  destruct (delegation_checks _ _ _ V) as (CV & MV & RL). unfold Delegation_fields_without_id in W. rewrite CV in W. cbn [mbind result_bind] in W.
  apply bind_Ok in W as (cv & CT & W). rewrite MV in W. apply Ok_inj in W as <-.
  destruct (controller_roundtrip _ _ C CT) as (CVT & CR').
  split.
  - constructor; [destruct (dg_constraints d); done|]. rewrite app_comm_cons. apply Forall_app. split; [|by apply optional_typed].
    repeat (constructor; [split; [done|first [done|by constructor|by apply texts_typed|constructor; ulia]]|]). constructor.
  - unfold Delegation_from_value.
    assert (forall a b c d f g h j k l n m,
      exact_fields (VMap ((0, a) :: [(1, b); (2, c); (3, d); (4, f); (5, g); (6, h); (7, j); (8, k); (9, l); (10, n)] ++ optional_map 11 m))
        [0; 1; 2; 3; 4; 5; 6; 7; 8; 9; 10] [11] =
      Ok ((0, a) :: [(1, b); (2, c); (3, d); (4, f); (5, g); (6, h); (7, j); (8, k); (9, l); (10, n)] ++ optional_map 11 m)) as -> by (intros; by destruct m).
    cbn [mbind result_bind app]. do 7 take_next. rewrite CR'. cbn [mbind result_bind]. do 5 take_next.
    rewrite (ltac:(by destruct d) : mkHrmDelegation (dg_delegation_id d) (dg_parent_resource_id d) (dg_child_profile d) (dg_child_resource_id d)
      (dg_child_identifier d) (dg_child_subject d) (dg_child_controller d) (dg_rights d) (dg_not_before d) (dg_expires_at d)
      (dg_may_subdelegate d) (dg_constraints d) = d).
    by rewrite V.
Qed.

Lemma delegation_read v i e d : value_typed v -> Delegation_from_value v i e = Ok d -> delegation_typed d.
Proof.
  intros T H. apply bind_Ok in H as (m & F%exact_fields_typed & H); [|done].
  opened H F take_array_typed a. opened H F take_array_typed b. opened H F take_text_typed p. opened H F take_array_typed c.
  opened H F take_bytes_typed f. opened H F take_array_typed s. opened H F take_value_typed cv.
  apply bind_Ok in H as (co & CO%controller_read & H); [|done].
  opened H F take_text_array_typed r. opened H F take_unsigned_typed n. opened H F take_unsigned_typed u. opened H F take_bool_typed ms.
  opened H F take_optional_map_typed o. apply bind_Ok in H as (? & _ & H). by apply Ok_inj in H as <-.
Qed.
End objects.

(** ** Lists of objects *)
Lemma try_map_roundtrip {A} (to_v : A -> result HrmModelError Value) (from_v : Value -> result HrmModelError A) (typed : A -> Prop) xs vs :
  (forall x v, typed x -> to_v x = Ok v -> value_typed v /\ from_v v = Ok x) -> Forall typed xs -> try_map to_v xs = Ok vs ->
  Forall value_typed vs /\ try_map from_v vs = Ok xs /\ len vs = len xs.
Proof.
  intros R T M%try_map_inv. rewrite try_map_inv. induction M as [|x v xs vs E _ IH]; [by repeat constructor|]. apply Forall_cons in T as (Tx & T).
  destruct (R x v Tx E) as (Tv & F). destruct (IH T) as (Tvs & Fs & L). rewrite !len_cons, L. split; [by constructor|]. split; [by constructor|done].
Qed.

Lemma try_map_read {A} (from_v : Value -> result HrmModelError A) (typed : A -> Prop) vs xs :
  (forall v x, value_typed v -> from_v v = Ok x -> typed x) -> Forall value_typed vs -> try_map from_v vs = Ok xs -> Forall typed xs.
Proof.
  intros R T M%try_map_inv. induction M as [|v x vs xs E _ IH]; [constructor|]. apply Forall_cons in T as (Tv & T). constructor; [by apply (R v)|by apply IH].
Qed.

Lemma model_limits_ok : limits_ok model_decode_limits.
Proof. split; vm_compute; (split + idtac); congruence. Qed.

(** The size checks around an encoding hold of themselves. *)
Lemma encoded_size v bs : encode_canonical_with_limits v model_decode_limits = Ok bs -> 1 <= len bs <= MAX_ENVELOPE_BYTES.
Proof. intros H. apply (encode_canonical_with_limits_Ok _ model_limits_ok) in H as (_ & _ & L & ->). split; [apply cbor_bytes_pos|exact L]. Qed.

Lemma size_guard {E} (bs : list byte) (e : E) : 1 <= len bs <= MAX_ENVELOPE_BYTES ->
  assert_or (negb ((len bs =? 0) || (MAX_ENVELOPE_BYTES <? len bs))) e = Ok tt.
Proof. intros H. rewrite (proj2 (Z.eqb_neq _ _)), (proj2 (Z.ltb_ge _ _)) by lia. done. Qed.

Section codec.
Context {CR : Crypto} {SD : ScriptDigests} {KC : K256} {KD : KeyCodec KC}.

Lemma payload_counts p : Payload_validate p = Ok tt ->
  len (hp_resources p) <= MAX_RESOURCES /\ len (hp_delegations p) <= MAX_DELEGATIONS /\ validate_optional_map (hp_extensions p) = Ok tt.
Proof.
  intros H. do 3 (apply bind_Ok in H as (? & _ & H)). apply bind_Ok in H as (? & R%assert_or_Ok & H). apply bind_Ok in H as (? & D%assert_or_Ok & H).
  do 2 (apply bind_Ok in H as (? & _ & H)). apply Z.leb_le in R, D. done.
Qed.

Lemma payload_roundtrip p v :
  payload_typed p -> Payload_to_value p = Ok v -> value_typed v /\ Payload_from_value v = Ok p.
Proof.
  intros [V0 S Q I X C R D M] H. apply bind_Ok in H as ([] & V & H). apply bind_Ok in H as (cv & CT & H). apply bind_Ok in H as (rv & RT & H).
  apply bind_Ok in H as (dv & DT & H). apply Ok_inj in H as <-. destruct (payload_counts p V) as (LR & LD & VM).
  destruct (controller_roundtrip _ _ C CT) as (CVT & CR').
  destruct (try_map_roundtrip _ (fun r => ResourceEntry_from_value r (hp_issued_at p) (hp_expires_at p)) _ _ _ (fun x v => resource_roundtrip x _ _ v) R RT) as (RVT & RR & LR').
  destruct (try_map_roundtrip _ (fun r => Delegation_from_value r (hp_issued_at p) (hp_expires_at p)) _ _ _ (fun x v => delegation_roundtrip x _ _ v) D DT) as (DVT & DR & LD').
  unfold MAX_RESOURCES in LR. unfold MAX_DELEGATIONS in LD. split.
  - constructor; [destruct (hp_extensions p); done|]. apply Forall_app. split; [|by apply optional_typed].
    repeat (constructor; [split; [done|first [done|by constructor|constructor; [ulia|done]|constructor; ulia]]|]). constructor.
  - unfold Payload_from_value.
    assert (forall a b c d f g h j m, exact_fields (VMap ([(0, a); (1, b); (2, c); (3, d); (4, f); (5, g); (6, h); (7, j)] ++ optional_map 8 m)) [0; 1; 2; 3; 4; 5; 6; 7] [8] =
      Ok ([(0, a); (1, b); (2, c); (3, d); (4, f); (5, g); (6, h); (7, j)] ++ optional_map 8 m)) as -> by (intros; by destruct m).
    cbn [mbind result_bind app]. do 6 take_next. rewrite CR'. cbn [mbind result_bind]. take_next.
    rewrite (proj2 (Z.leb_le (len rv) _)) by (unfold MAX_RESOURCES; lia). cbn [assert_or mbind result_bind]. rewrite RR. cbn [mbind result_bind]. take_next.
    rewrite (proj2 (Z.leb_le (len dv) _)) by (unfold MAX_DELEGATIONS; lia). cbn [assert_or mbind result_bind]. rewrite DR. cbn [mbind result_bind]. take_next.
    rewrite (ltac:(by destruct p) : mkPayload (hp_version p) (hp_subject p) (hp_sequence p) (hp_issued_at p) (hp_expires_at p) (hp_controller p)
      (hp_resources p) (hp_delegations p) (hp_extensions p) = p).
    by rewrite V.
Qed.

Lemma payload_read v p : value_typed v -> Payload_from_value v = Ok p -> payload_typed p.
Proof.
  intros T H. apply bind_Ok in H as (m & F%exact_fields_typed & H); [|done].
  opened H F take_unsigned_typed a. opened H F take_array_typed b. opened H F take_unsigned_typed c. opened H F take_unsigned_typed d. opened H F take_unsigned_typed e.
  opened H F take_value_typed f. apply bind_Ok in H as (co & CO%controller_read & H); [|done].
  opened H F take_array_values_typed rv. apply bind_Ok in H as (? & _ & H).
  apply bind_Ok in H as (rs & RS & H). apply (try_map_read _ resource_typed) in RS; [|intros ? ?; apply resource_read|done].
  opened H F take_array_values_typed dv. apply bind_Ok in H as (? & _ & H).
  apply bind_Ok in H as (ds & DS & H). apply (try_map_read _ delegation_typed) in DS; [|intros ? ?; apply delegation_read|done].
  opened H F take_optional_map_typed o. apply bind_Ok in H as (? & _ & H). by apply Ok_inj in H as <-.
Qed.

Lemma payload_encode_Ok p bs : Payload_encode p = Ok bs <->
  exists v, Payload_to_value p = Ok v /\ encode_canonical_with_limits v model_decode_limits = Ok bs.
Proof.
  unfold Payload_encode. split.
  - intros H. apply bind_Ok in H as (? & _ & H). apply bind_Ok in H as (v & V & H). apply bind_Ok in H as (e & E%map_err_Ok & H).
    apply bind_Ok in H as (? & _ & H). apply Ok_inj in H as ->. eauto.
  - intros (v & V & E). pose proof (encoded_size _ _ E). pose proof V as W. apply bind_Ok in W as ([] & W & _). apply bind_Ok. exists tt. split; [exact W|].
    apply bind_Ok. exists v. split; [exact V|]. apply bind_Ok. exists bs. split; [by apply map_err_Ok|]. apply bind_Ok. exists tt. split; [|done].
    apply assert_or_Ok, Z.leb_le. lia.
Qed.

Lemma payload_decode_Ok bs p : Payload_decode bs = Ok p <-> payload_typed p /\ Payload_encode p = Ok bs.
Proof.
  unfold Payload_decode. split.
  - intros H. apply bind_Ok in H as (? & _ & H). apply bind_Ok in H as (v & V%map_err_Ok & H). apply bind_Ok in H as (p' & P & H).
    apply bind_Ok in H as (e & E & H). apply bind_Ok in H as (? & B%assert_or_Ok & H). apply Ok_inj in H as ->. apply bool_decide_eq_true in B as ->.
    split; [|done]. apply (decode_canonical_encodes _ _ _ model_limits_ok) in V as (T & _). by apply (payload_read v).
  - intros (T & E). pose proof E as W. apply payload_encode_Ok in W as (v & V & C). destruct (payload_roundtrip p v T V) as (VT & R).
    rewrite size_guard by eauto using encoded_size. cbn [mbind result_bind]. rewrite (proj2 (decode_canonical_encodes _ _ v model_limits_ok)) by done.
    cbn [map_err mbind result_bind]. rewrite R. cbn [mbind result_bind]. rewrite E. cbn [mbind result_bind]. by rewrite bool_decide_eqb_refl.
Qed.

Lemma structure_Ok e : HrmEnvelope_validate_structure e = Ok tt <->
  Payload_validate (he_payload e) = Ok tt /\ 1 <= len (he_signatures e) <= MAX_SIGNATURES /\
  Forall (fun s => SignatureObject_validate s = Ok tt) (he_signatures e).
Proof.
  unfold HrmEnvelope_validate_structure. pose proof (len_nonneg (he_signatures e)). split.
  - intros H1. apply bind_Ok in H1 as ([] & V & H1). apply bind_Ok in H1 as ([] & N%assert_or_Ok & F%try_each_Ok).
    rewrite negb_true_iff, orb_false_iff, Z.eqb_neq, Z.ltb_ge in N. split; [done|]. split; [lia|done].
  - intros (V & L & F). apply bind_Ok. exists tt. split; [done|]. apply bind_Ok. exists tt. split; [|by apply try_each_Ok].
    apply assert_or_Ok. rewrite negb_true_iff, orb_false_iff, Z.eqb_neq, Z.ltb_ge. lia.
Qed.

Lemma hrm_encode_Ok e bs : HrmEnvelope_encode e = Ok bs <->
  exists payload signatures, Payload_encode (he_payload e) = Ok payload /\ 1 <= len (he_signatures e) <= MAX_SIGNATURES /\
    try_map SignatureObject_to_value (he_signatures e) = Ok signatures /\
    encode_canonical_with_limits (VMap [(0, VBytes payload); (1, VArray signatures)]) model_decode_limits = Ok bs.
Proof.
  unfold HrmEnvelope_encode. split.
  - intros H. apply bind_Ok in H as ([] & (_ & L & _)%structure_Ok & H). apply bind_Ok in H as (p & P & H). apply bind_Ok in H as (ss & SS & H).
    apply bind_Ok in H as (e' & E%map_err_Ok & H). apply bind_Ok in H as (? & _ & H). apply Ok_inj in H as ->. eauto 10.
  - intros (p & ss & P & L & SS & E). pose proof (encoded_size _ _ E). apply bind_Ok. exists tt. split.
    + apply structure_Ok. split; [by apply bind_Ok in P as ([] & V & _)|]. split; [done|]. apply try_map_inv in SS.
      clear -SS. induction SS as [|s v ss vs H _ IH]; [constructor|]. constructor; [by apply bind_Ok in H as ([] & V & _)|done].
    + apply bind_Ok. exists p. split; [done|]. apply bind_Ok. exists ss. split; [done|]. apply bind_Ok. exists bs. split; [by apply map_err_Ok|].
      apply bind_Ok. exists tt. split; [|done]. apply assert_or_Ok, Z.leb_le. lia.
Qed.

Lemma hrm_decode_Ok bs e : HrmEnvelope_decode bs = Ok e <-> hrm_typed e /\ HrmEnvelope_encode e = Ok bs.
Proof.
  unfold HrmEnvelope_decode. split.
  - intros H. apply bind_Ok in H as (? & _ & H). apply bind_Ok in H as (v & V%map_err_Ok & H).
    apply (decode_canonical_encodes _ _ _ model_limits_ok) in V as (T & _).
    apply bind_Ok in H as (m & F%exact_fields_typed & H); [|done]. opened H F take_bytes_typed pb.
    apply bind_Ok in H as (p & (PT & _)%payload_decode_Ok & H). opened H F take_array_values_typed sv.
    apply bind_Ok in H as (ss & SS & H). apply (try_map_read _ signature_typed) in SS; [|intros ? ?; apply signature_read|done].
    apply bind_Ok in H as (? & _ & H). apply bind_Ok in H as (b & E & H). apply bind_Ok in H as (? & B%assert_or_Ok & H). apply Ok_inj in H as <-.
    apply bool_decide_eq_true in B as ->. done.
  - intros ((PT & ST) & E). pose proof E as W. apply hrm_encode_Ok in W as (p & ss & P & L & SS & C).
    destruct (try_map_roundtrip _ SignatureObject_from_value _ _ _ signature_roundtrip ST SS) as (VT & R & LS).
    assert (1 <= len p <= MAX_ENVELOPE_BYTES) as LP by (apply payload_encode_Ok in P as (? & _ & ?); eauto using encoded_size).
    unfold MAX_SIGNATURES in L. unfold MAX_ENVELOPE_BYTES in LP.
    rewrite size_guard by eauto using encoded_size. cbn [mbind result_bind]. rewrite (proj2 (decode_canonical_encodes _ _ (VMap [(0, VBytes p); (1, VArray ss)]) model_limits_ok)).
    2: { split; [|done]. constructor; [done|]. constructor; [split; [done|constructor; ulia]|]. constructor; [split; [done|constructor; [ulia|done]]|constructor]. }
    cbn [map_err mbind result_bind].
    assert (forall a b, exact_fields (VMap [(0, a); (1, b)]) [0; 1] [] = Ok [(0, a); (1, b)]) as -> by done. cbn [mbind result_bind]. take_next.
    rewrite (proj2 (payload_decode_Ok p (he_payload e))) by done. cbn [mbind result_bind]. take_next. rewrite R. cbn [mbind result_bind].
    rewrite (ltac:(by destruct e) : mkHrmEnvelope (he_payload e) (he_signatures e) = e). pose proof E as V. apply bind_Ok in V as ([] & -> & _).
    cbn [mbind result_bind]. rewrite E. cbn [mbind result_bind]. by rewrite bool_decide_eqb_refl.
Qed.
(** C32. The two codecs of a manifest are canonical: [Payload::decode] and
    [Envelope::decode] return an object exactly when it has the Rust types and the
    input is what [encode] writes for it. So every check of the decoder is one the
    encoder makes, nothing encodable is refused, no object has a second encoding,
    and the final comparisons never fail on a well-formed object. *)
Theorem hrm_codec :
  (forall bs p, Payload_decode bs = Ok p <-> payload_typed p /\ Payload_encode p = Ok bs) /\
  (forall bs e, HrmEnvelope_decode bs = Ok e <-> hrm_typed e /\ HrmEnvelope_encode e = Ok bs).
Proof. split; [exact payload_decode_Ok|exact hrm_decode_Ok]. Qed.
End codec.

(** ** Signatures *)
Section signing.
Context {CR : Crypto} {SD : ScriptDigests} {KC : K256} {KD : KeyCodec KC}.

Lemma public_key_Ok k : hrm_validate_public_key k = Ok tt <-> head k ∈ [Some x02; Some x03] /\ sec1_key_ok k = true.
Proof.
  unfold hrm_validate_public_key. split.
  - intros H. apply bind_Ok in H as (? & B%assert_or_Ok & K%assert_or_Ok). by apply bool_decide_eq_true in B.
  - intros (B & K). apply bind_Ok. exists tt. split; [by apply assert_or_Ok, bool_decide_eq_true|]. by apply assert_or_Ok.
Qed.

Lemma der_low_s_Ok sg : validate_der_low_s sg = Ok tt <->
  1 <= len sg <= MAX_SIGNATURE_BYTES /\ exists parsed, from_der sg = Some parsed /\ is_high parsed = false /\ to_der parsed = sg.
Proof.
  unfold validate_der_low_s. pose proof (len_nonneg sg). split.
  - intros H1. apply bind_Ok in H1 as (? & L%assert_or_Ok & H1). rewrite negb_true_iff, orb_false_iff, Z.eqb_neq, Z.ltb_ge in L. split; [lia|].
    apply bind_Ok in H1 as (p & P%ok_or_Ok & H1%assert_or_Ok). rewrite negb_true_iff, orb_false_iff, negb_false_iff, bool_decide_eq_true in H1. by exists p.
  - intros (L & p & P & Hi & D). apply bind_Ok. exists tt. split; [apply assert_or_Ok; rewrite negb_true_iff, orb_false_iff, Z.eqb_neq, Z.ltb_ge; lia|].
    apply bind_Ok. exists p. split; [by apply ok_or_Ok|]. apply assert_or_Ok. by rewrite negb_true_iff, orb_false_iff, negb_false_iff, bool_decide_eq_true.
Qed.

Lemma accepts_spec k d s : signature_accepts k d s = true <->
  so_algorithm s = ALGORITHM_SECP256K1_ECDSA /\ so_public_key s = k /\
  exists parsed, from_der (so_signature s) = Some parsed /\ is_high parsed = false /\ verify_prehash k d parsed = true.
Proof.
  unfold signature_accepts. destruct (Z.eqb_spec (so_algorithm s) ALGORITHM_SECP256K1_ECDSA) as [A|A]; cbn [negb orb]; [|by split; [|intros (? & _)]].
  case_bool_decide as B; cbn [negb]; [|by split; [|intros (_ & ? & _)]]. destruct (from_der (so_signature s)) as [p|]; [|by split; [|intros (_ & _ & ? & ? & _)]].
  rewrite andb_true_iff, negb_true_iff. split; [by eauto 10|]. by intros (_ & _ & ? & [= <-] & ?).
Qed.

Lemma verify_signature_Ok e magic : HrmEnvelope_verify_controller_signature e magic = Ok tt <->
  HrmEnvelope_validate_structure e = Ok tt /\ exists payload s parsed,
    Payload_encode (he_payload e) = Ok payload /\ s ∈ he_signatures e /\ so_algorithm s = ALGORITHM_SECP256K1_ECDSA /\
    so_public_key s = ct_public_key (hp_controller (he_payload e)) /\ from_der (so_signature s) = Some parsed /\ is_high parsed = false /\
    verify_prehash (ct_public_key (hp_controller (he_payload e))) (signature_digest magic payload) parsed = true.
Proof.
  unfold HrmEnvelope_verify_controller_signature. split.
  - intros H. apply bind_Ok in H as ([] & V & H). split; [done|]. apply bind_Ok in H as (p & P & H). apply bind_Ok in H as (? & _ & H%assert_or_Ok).
    apply existsb_exists in H as (s & I & (A & K & q & Q & Hi & Ver)%accepts_spec). exists p, s, q. by rewrite list_elem_of_In.
  - intros (V & p & s & q & P & I & A & K & Q & Hi & Ver). apply bind_Ok. exists tt. split; [done|]. apply bind_Ok. exists p. split; [done|].
    apply bind_Ok. exists tt. split.
    + apply assert_or_Ok. apply bind_Ok in V as (? & V & _). do 2 (apply bind_Ok in V as (? & _ & V)). apply bind_Ok in V as ([] & C & _).
      apply bind_Ok in C as (? & _ & C). by apply public_key_Ok in C as (_ & C).
    + apply assert_or_Ok, existsb_exists. exists s. split; [by apply list_elem_of_In|]. apply accepts_spec. eauto 10.
Qed.

Lemma context_Ok e magic subject sequence now skew :
  HrmEnvelope_validate_context e magic subject sequence now skew = Ok tt <->
  Payload_validate (he_payload e) = Ok tt /\ 1 <= len (he_signatures e) <= MAX_SIGNATURES /\
  Forall (fun s => SignatureObject_validate s = Ok tt) (he_signatures e) /\
  hp_subject (he_payload e) = subject /\ hp_sequence (he_payload e) = sequence /\
  saturating_sub (hp_issued_at (he_payload e)) skew <= now < saturating_add u64_max (hp_expires_at (he_payload e)) skew /\
  exists payload s parsed,
    Payload_encode (he_payload e) = Ok payload /\ s ∈ he_signatures e /\ so_algorithm s = ALGORITHM_SECP256K1_ECDSA /\
    so_public_key s = ct_public_key (hp_controller (he_payload e)) /\ from_der (so_signature s) = Some parsed /\ is_high parsed = false /\
    verify_prehash (ct_public_key (hp_controller (he_payload e))) (signature_digest magic payload) parsed = true.
Proof.
  unfold HrmEnvelope_validate_context, Payload_validate_context. split.
  - intros H. apply bind_Ok in H as ([] & H & (S%structure_Ok & Ver)%verify_signature_Ok). apply bind_Ok in H as ([] & V & H).
    apply bind_Ok in H as (? & I%assert_or_Ok & W%assert_or_Ok). apply andb_true_iff in I as (Es%bool_decide_eq_true & Eq%Z.eqb_eq).
    rewrite negb_true_iff, orb_false_iff, Z.ltb_ge, Z.leb_gt in W. destruct S as (_ & L & F). repeat split; try done; lia.
  - intros (V & L & F & Es & Eq & W & Ver). apply bind_Ok. exists tt. split; [|by apply verify_signature_Ok; rewrite structure_Ok].
    apply bind_Ok. exists tt. split; [done|]. apply bind_Ok. exists tt. split; [apply assert_or_Ok; by rewrite bool_decide_eq_true_2, (proj2 (Z.eqb_eq _ _))|].
    apply assert_or_Ok. rewrite negb_true_iff, orb_false_iff, Z.ltb_ge, Z.leb_gt. lia.
Qed.

(** [Envelope::validate_context] succeeds exactly for the manifest that was asked
    for: it is well formed with one to sixteen well-formed signatures, its subject
    and sequence are the expected ones, the time lies in its window widened by the
    skew (saturating at the ends of [u64]), and one of its signatures is by its
    controller's key, low-S, over the digest of its network and its own encoding. *)
Theorem hrm_context_exact e magic subject sequence now skew :
  HrmEnvelope_validate_context e magic subject sequence now skew = Ok tt <->
  Payload_validate (he_payload e) = Ok tt /\ 1 <= len (he_signatures e) <= MAX_SIGNATURES /\
  Forall (fun s => SignatureObject_validate s = Ok tt) (he_signatures e) /\
  hp_subject (he_payload e) = subject /\ hp_sequence (he_payload e) = sequence /\
  saturating_sub (hp_issued_at (he_payload e)) skew <= now < saturating_add u64_max (hp_expires_at (he_payload e)) skew /\
  exists payload s parsed,
    Payload_encode (he_payload e) = Ok payload /\ s ∈ he_signatures e /\ so_algorithm s = ALGORITHM_SECP256K1_ECDSA /\
    so_public_key s = ct_public_key (hp_controller (he_payload e)) /\ from_der (so_signature s) = Some parsed /\ is_high parsed = false /\
    verify_prehash (ct_public_key (hp_controller (he_payload e))) (signature_digest magic payload) parsed = true.
Proof. exact (context_Ok e magic subject sequence now skew). Qed.

Lemma signed_object_valid (KL : K256Laws KC) (KDL : KeyCodecLaws KC KD) sk sg :
  compact_ok sg = true -> is_high sg = false -> SignatureObject_validate (mkSignatureObject ALGORITHM_SECP256K1_ECDSA (verifying_key sk) (to_der sg)) = Ok tt.
Proof.
  intros C H. pose proof (der_size _ C). pose proof (compressed_size sk) as K. unfold SignatureObject_validate. cbn [so_public_key so_signature so_algorithm].
  rewrite K, (proj2 (Z.eqb_neq (len (to_der sg)) 0)), (proj2 (Z.ltb_ge 512 _)) by lia. cbn [Z.eqb Z.ltb Z.compare Pos.compare Pos.compare_cont orb negb assert_or mbind result_bind].
  rewrite Z.eqb_refl. apply bind_Ok. exists tt. split; [done|]. apply bind_Ok. exists tt. split.
  - apply public_key_Ok. split; [|apply verifying_key_ok]. apply sec1_compressed; [done|apply verifying_key_ok].
  - apply der_low_s_Ok. split; [unfold MAX_SIGNATURE_BYTES; lia|]. exists sg. by rewrite der_roundtrip.
Qed.

Lemma encode_head_len m n : len (encode_head m n) <= 9.
Proof. unfold encode_head. repeat zcase; rewrite len_cons; slen; rewrite ?len_to_be_bytes; lia. Qed.

(** What the envelope around one signature costs. *)
Definition SIGNED_OVERHEAD : Z := 160.

Lemma signed_fits payload key sg :
  len payload + SIGNED_OVERHEAD <= MAX_ENVELOPE_BYTES -> len key = 33 -> len sg <= 72 ->
  exists bs, encode_canonical_with_limits
    (VMap [(0, VBytes payload); (1, VArray [VMap [(0, VUnsigned 1); (1, VBytes key); (2, VBytes sg)]])]) model_decode_limits = Ok bs.
Proof.
  intros L K G. eexists. apply (encode_canonical_with_limits_Ok _ model_limits_ok). unfold SIGNED_OVERHEAD, MAX_ENVELOPE_BYTES in L.
  pose proof (len_nonneg payload). split; [|split; [|split; [|reflexivity]]].
  - change (Z.to_nat (max_depth model_decode_limits)) with (S (S (S (S 28)))). generalize 28%nat. intros n. cbn [value_fits map fst snd].
    assert (len payload <= max_string_bytes model_decode_limits) as LP by (cbn; unfold MAX_ENVELOPE_BYTES; lia).
    assert (len key <= max_string_bytes model_decode_limits) as LK by (cbn; unfold MAX_ENVELOPE_BYTES; lia).
    assert (len sg <= max_string_bytes model_decode_limits) as LG by (cbn; unfold MAX_ENVELOPE_BYTES; lia).
    split; [by vm_compute|]. split; [repeat constructor|]. constructor; [exact LP|]. constructor; [|constructor]. split; [by vm_compute|]. constructor; [|constructor].
    split; [by vm_compute|]. split; [repeat constructor|]. constructor; [done|]. constructor; [exact LK|]. constructor; [exact LG|constructor].
  - vm_compute. discriminate.
  - cbn [cbor_bytes map fst snd]. rewrite !join_cons. unfold len in *. autorewrite with list. cbn [length]. 
    pose proof (encode_head_len 2 (Z.of_nat (length payload))). pose proof (encode_head_len 2 (Z.of_nat (length key))). pose proof (encode_head_len 2 (Z.of_nat (length sg))).
    unfold len, model_decode_limits, MAX_ENVELOPE_BYTES in *. cbn [max_bytes]. rewrite ?length_app. cbn.
    change (length (encode_head 5 (Z.of_nat 2))) with 1%nat. change (length (encode_head 4 (Z.of_nat 1))) with 1%nat.
    change (length (encode_head 5 (Z.of_nat 3))) with 1%nat. lia.
Qed.

(** Signing works: for a payload that encodes, with the private key of its
    controller and room for one signature, [Envelope::sign] returns an envelope
    around that payload which encodes, which decodes to itself, and whose
    controller signature verifies on the same network. *)
Theorem hrm_sign_verifies (KL : K256Laws KC) (KDL : KeyCodecLaws KC KD) p magic private_key sk payload signature :
  payload_typed p -> signing_key_from_bytes private_key = Some sk -> verifying_key sk = ct_public_key (hp_controller p) ->
  Payload_encode p = Ok payload -> len payload + SIGNED_OVERHEAD <= MAX_ENVELOPE_BYTES ->
  sign_prehash sk (signature_digest magic payload) = Some signature ->
  exists e bs, HrmEnvelope_sign p magic private_key = Ok e /\ he_payload e = p /\ HrmEnvelope_encode e = Ok bs /\
    HrmEnvelope_decode bs = Ok e /\ HrmEnvelope_verify_controller_signature e magic = Ok tt.
Proof.
  intros PT SK VK PE Room SG. destruct (sign_ok _ _ _ SG) as (_ & SC & SV).
  set (low := default signature (normalize_s signature)).
  assert (compact_ok low = true /\ is_high low = false /\ verify_prehash (verifying_key sk) (signature_digest magic payload) low = true) as (LC & LH & LV).
  { unfold low. destruct (normalize_s signature) as [s'|] eqn:N.
    - change (default signature (Some s')) with s'. destruct (normalize_ok _ _ N) as (_ & C & N' & E). unfold is_high. by rewrite N', E.
    - change (default signature None) with signature. unfold is_high. by rewrite N. }
  pose proof (der_roundtrip _ LC) as DR. pose proof (der_size _ LC) as DS.
  set (s := mkSignatureObject ALGORITHM_SECP256K1_ECDSA (verifying_key sk) (to_der low)). set (e := mkHrmEnvelope p [s]).
  assert (SignatureObject_validate s = Ok tt) as SVal by by apply signed_object_valid.
  pose proof PE as PV. apply bind_Ok in PV as ([] & PV & _). assert (HrmEnvelope_validate_structure e = Ok tt) as EV.
  { apply structure_Ok. split; [done|]. split; [by vm_compute|]. by repeat constructor. }
  destruct (signed_fits payload (verifying_key sk) (to_der low) Room (compressed_size sk) (proj2 DS)) as (bs & EB).
  assert (HrmEnvelope_encode e = Ok bs) as EE.
  { apply hrm_encode_Ok. exists payload, [VMap [(0, VUnsigned 1); (1, VBytes (verifying_key sk)); (2, VBytes (to_der low))]].
    split; [done|]. split; [by vm_compute|]. split; [|done]. apply try_map_inv. constructor; [|constructor]. unfold SignatureObject_to_value. by rewrite SVal. }
  exists e, bs. split; [|split; [done|]; split; [done|]; split].
  - unfold HrmEnvelope_sign. apply bind_Ok. exists tt. split; [done|]. apply bind_Ok. exists sk. split; [by apply ok_or_Ok|].
    apply bind_Ok. exists tt. split; [by apply assert_or_Ok, bool_decide_eq_true|]. apply bind_Ok. exists payload. split; [done|].
    apply bind_Ok. exists signature. split; [by apply ok_or_Ok|]. apply bind_Ok. exists tt. split; [exact EV|]. apply bind_Ok. by exists bs.
  - apply hrm_decode_Ok. split; [|done]. split; [done|]. constructor; [|constructor]. split; [done|]. cbn. rewrite compressed_size. split; ulia.
  - apply verify_signature_Ok. split; [done|]. exists payload, s, low. split; [done|]. split; [by apply list_elem_of_singleton|]. cbn. by rewrite <- VK.
Qed.
End signing.

(** ** A manifest *)
Definition sample_controller : Controller := mkController 1 (x02 :: x07 :: zeros 31).
Definition sample_payload : Payload :=
  mkPayload 1 (replicate 32 x0f) 7 1700000000 1700086400 sample_controller
    [mkResourceEntry (bstr "hns.named-service/v1") (replicate 32 x03) [xa1; x00; x01]
       (External (bstr "dns.proof/v1") (replicate 32 x04) [bstr "https://example.test/proof"]) 1700000000 1700080000 (Some [(0, VUnsigned 0)])]
    [mkHrmDelegation (replicate 32 x08) (replicate 32 x03) (bstr "hns.named-service/v1") (replicate 32 x09) [x01] (replicate 32 x0a)
       sample_controller [bstr "publish"] 1700000000 1700000001 true None] None.

Lemma sample_payload_typed : payload_typed sample_payload.
Proof.
  assert (forall t, (len t <=? isize_max) && from_utf8_ok t = true -> text_ok t) as TX by (intros t (L%Z.leb_le & U)%andb_true_iff; done).
  split; try done; [repeat constructor; try done; try (by apply TX); try (by vm_compute)..].
Qed.

Lemma hrm_sign_verifies_witness :
  exists e bs, @HrmEnvelope_sign toy_crypto toy_k256 toy_codec sample_payload 0xae3895cf [x07] = Ok e /\
    @HrmEnvelope_encode toy_k256 toy_codec e = Ok bs.
Proof.
  destruct (@Payload_encode toy_k256 sample_payload) as [payload|] eqn:P; [|by vm_compute in P].
  destruct (@hrm_sign_verifies toy_crypto toy_k256 toy_codec toy_k256_laws toy_codec_laws sample_payload 0xae3895cf [x07] x07 payload (x07 :: zeros 63))
    as (e & bs & S & _ & E & _); [exact sample_payload_typed|reflexivity|reflexivity|exact P| |reflexivity|exists e, bs; exact (conj S E)].
  assert (match @Payload_encode toy_k256 sample_payload with Ok p => len p + SIGNED_OVERHEAD <=? MAX_ENVELOPE_BYTES | Err _ => false end = true) as L by (vm_compute; reflexivity).
  rewrite P in L. by apply Z.leb_le.
Defined.
