(* ===== verification/HrmCommitment.v ===== *)
(** * hns-hrm: commitments

    Models [crates/hns-hrm/src/commitment.rs]: the [hrm1] TXT record that commits a
    name to a manifest, and the choice among a name's records. The strings of a
    record are kept apart, as in the source. URL-safe base64 is the class
    [Base64]. *)

From Stdlib Require Import Sorting.Sorted.
From S2P Require Import Prelude Encoding Cbor Text HrmUri BTree.
Local Open Scope Z_scope.

(** ** [base64], outside the repository *)
Class Base64 := {
  base64_encode : list byte -> list byte;
  base64_decode : list byte -> option (list byte);
}.

Definition is_base64url (b : byte) : bool := is_ascii_alphanumeric b || byte_in "-_" b.

(** 32 bytes are 43 characters of the URL-safe alphabet, which decode to them. *)
Class Base64Laws {B64 : Base64} := {
  base64_roundtrip : forall bs, base64_decode (base64_encode bs) = Some bs;
  base64_digest : forall bs, len bs = 32 -> len (base64_encode bs) = 43;
  base64_alphabet : forall bs, forallb is_base64url (base64_encode bs) = true;
}.
Arguments Base64Laws : clear implicits.

(** ** Limits and errors *)
Definition HRM_MARKER : list byte := bstr "hrm1".
Definition HASH_PREFIX : list byte := bstr "sha256:".
Definition SHA256_BASE64URL_LENGTH : Z := 43.
Definition HNS_MAX_RESOURCE_BYTES : Z := 512.
Definition HNS_MAX_TXT_STRINGS : Z := 255.
Definition HNS_MAX_TXT_STRING_BYTES : Z := 255.
Definition HNS_MAX_TXT_RECORDS : Z := 255.

Record CommitmentLimits := mkCommitmentLimits {
  maximum_candidate_records : Z;
  maximum_txt_strings : Z;
  maximum_txt_string_bytes : Z;
  maximum_record_bytes : Z;
  maximum_uris : Z;
  maximum_extension_keys : Z;
  maximum_extension_values : Z;
}.
Definition CommitmentLimits_default : CommitmentLimits :=
  mkCommitmentLimits HNS_MAX_TXT_RECORDS HNS_MAX_TXT_STRINGS HNS_MAX_TXT_STRING_BYTES HNS_MAX_RESOURCE_BYTES 4 HNS_MAX_TXT_STRINGS HNS_MAX_TXT_STRINGS.

Record HrmCommitment := mkCommitment {
  hc_sequence : Z;
  hc_envelope_hash : list byte;
  hc_uris : list (list byte);
  hc_extensions : list (list byte * list (list byte));
}.

Inductive CommitmentError :=
| CmInvalidLimits (what : string)
| CmEmptyRecord
| CmInvalidMarker
| CmTooManyCandidateRecords (actual maximum : Z)
| CmTooManyStrings (actual maximum : Z)
| CmStringTooLong (index actual maximum : Z)
| CmNonPrintableAscii (index : Z)
| CmRecordTooLarge (actual maximum : Z)
| CmMalformedField (index : Z)
| CmMissingField (field : string)
| CmDuplicateSingleton (field : string)
| CmInvalidSequence
| CmInvalidHash
| CmInvalidUri (index : Z)
| CmTooManyUris (actual maximum : Z)
| CmUnknownField (field : list byte)
| CmTooManyExtensionKeys (actual maximum : Z)
| CmTooManyExtensionValues (actual maximum : Z)
| CmMissing
| CmConflictingSequence (sequence : Z).

Definition validate_commitment_limits (l : CommitmentLimits) : result CommitmentError unit :=
  let bounded n hi := (1 <=? n) && (n <=? hi) in
  assert_or (bounded (maximum_candidate_records l) HNS_MAX_TXT_RECORDS) (CmInvalidLimits "maximum_candidate_records must be in 1..=255") ;;
  assert_or (bounded (maximum_txt_strings l) HNS_MAX_TXT_STRINGS) (CmInvalidLimits "maximum_txt_strings must be in 1..=255") ;;
  assert_or (bounded (maximum_txt_string_bytes l) HNS_MAX_TXT_STRING_BYTES) (CmInvalidLimits "maximum_txt_string_bytes must be in 1..=255") ;;
  assert_or (bounded (maximum_record_bytes l) HNS_MAX_RESOURCE_BYTES) (CmInvalidLimits "maximum_record_bytes must be in 1..=512") ;;
  assert_or (bounded (maximum_uris l) HNS_MAX_TXT_STRINGS) (CmInvalidLimits "maximum_uris must be in 1..=255") ;;
  assert_or (maximum_extension_keys l <=? HNS_MAX_TXT_STRINGS) (CmInvalidLimits "maximum_extension_keys must not exceed 255") ;;
  assert_or (maximum_extension_values l <=? HNS_MAX_TXT_STRINGS) (CmInvalidLimits "maximum_extension_values must not exceed 255").

(** ** One record *)
Fixpoint txt_shape_loop (limits : CommitmentLimits) (index encoded_bytes : Z) (strings : list (list byte)) : result CommitmentError Z :=
  match strings with
  | [] => Ok encoded_bytes
  | bytes :: strings =>
    assert_or (len bytes <=? maximum_txt_string_bytes limits) (CmStringTooLong index (len bytes) (maximum_txt_string_bytes limits)) ;;
    assert_or (forallb (fun b => in_range b 0x20 0x7e) bytes) (CmNonPrintableAscii index) ;;
    txt_shape_loop limits (index + 1) (saturating_add usize_max (saturating_add usize_max encoded_bytes 1) (len bytes)) strings
  end.

Definition validate_txt_shape (strings : list (list byte)) (limits : CommitmentLimits) : result CommitmentError unit :=
  assert_or (len strings <=? maximum_txt_strings limits) (CmTooManyStrings (len strings) (maximum_txt_strings limits)) ;;
  encoded_bytes ← txt_shape_loop limits 0 3 strings;
  assert_or (encoded_bytes <=? maximum_record_bytes limits) (CmRecordTooLarge encoded_bytes (maximum_record_bytes limits)).

Definition parse_sequence (value : list byte) : result CommitmentError Z :=
  assert_or (negb ((len value =? 0) || negb (forallb is_ascii_digit value) || ((1 <? len value) && starts_with [x30] value))) CmInvalidSequence ;;
  ok_or (parse_unsigned u64_max value) CmInvalidSequence.

Section commitments.
Context {B64 : Base64}.

Definition parse_hash (value : list byte) : result CommitmentError (list byte) :=
  encoded ← ok_or (strip_prefix HASH_PREFIX value) CmInvalidHash;
  assert_or (negb (negb (len encoded =? SHA256_BASE64URL_LENGTH) || contains_char x3d encoded)) CmInvalidHash ;;
  digest ← ok_or (base64_decode encoded) CmInvalidHash;
  assert_or (len digest =? 32) CmInvalidHash ;;
  assert_or (bool_decide (base64_encode digest = encoded)) CmInvalidHash ;;
  Ok digest.

(** The variables of the loop over the fields of a record. *)
Record FieldState := mkFieldState {
  fs_sequence : option Z;
  fs_hash : option (list byte);
  fs_uris : list (list byte);
  fs_extensions : list (list byte * list (list byte));
  fs_value_count : Z;
}.

Definition extension_field (limits : CommitmentLimits) (st : FieldState) (key value : list byte) : result CommitmentError FieldState :=
  let known := bm_get key (fs_extensions st) in
  let is_new_key := match known with Some _ => false | None => true end in
  assert_or (negb (is_new_key && (len (fs_extensions st) =? maximum_extension_keys limits)))
    (CmTooManyExtensionKeys (saturating_add usize_max (len (fs_extensions st)) 1) (maximum_extension_keys limits)) ;;
  let extensions := bm_modify key (bs_insert value) (fs_extensions st) in
  if bool_decide (value ∈ default [] known)
  then Ok (mkFieldState (fs_sequence st) (fs_hash st) (fs_uris st) extensions (fs_value_count st))
  else let count := saturating_add usize_max (fs_value_count st) 1 in
       assert_or (count <=? maximum_extension_values limits) (CmTooManyExtensionValues count (maximum_extension_values limits)) ;;
       Ok (mkFieldState (fs_sequence st) (fs_hash st) (fs_uris st) extensions count).

Definition commitment_field (limits : CommitmentLimits) (index : Z) (st : FieldState) (text : list byte) : result CommitmentError FieldState :=
  match split_once [x3d] text with
  | None => Err (CmMalformedField index)
  | Some (key, value) =>
    assert_or (negb (len key =? 0)) (CmMalformedField index) ;;
    if bool_decide (key = bstr "seq") then
      assert_or (bool_decide (fs_sequence st = None)) (CmDuplicateSingleton "seq") ;;
      sequence ← parse_sequence value;
      Ok (mkFieldState (Some sequence) (fs_hash st) (fs_uris st) (fs_extensions st) (fs_value_count st))
    else if bool_decide (key = bstr "hash") then
      assert_or (bool_decide (fs_hash st = None)) (CmDuplicateSingleton "hash") ;;
      hash ← parse_hash value;
      Ok (mkFieldState (fs_sequence st) (Some hash) (fs_uris st) (fs_extensions st) (fs_value_count st))
    else if bool_decide (key = bstr "uri") then
      assert_or (is_valid_absolute_uri value) (CmInvalidUri index) ;;
      let uris := bs_insert value (fs_uris st) in
      assert_or (len uris <=? maximum_uris limits) (CmTooManyUris (len uris) (maximum_uris limits)) ;;
      Ok (mkFieldState (fs_sequence st) (fs_hash st) uris (fs_extensions st) (fs_value_count st))
    else if starts_with (bstr "x-") key then extension_field limits st key value
    else Err (CmUnknownField key)
  end.

Fixpoint commitment_fields (limits : CommitmentLimits) (index : Z) (st : FieldState) (strings : list (list byte)) : result CommitmentError FieldState :=
  match strings with
  | [] => Ok st
  | text :: strings => st ← commitment_field limits index st text; commitment_fields limits (index + 1) st strings
  end.

Definition parse_txt_commitment (strings : list (list byte)) (limits : CommitmentLimits) : result CommitmentError HrmCommitment :=
  validate_commitment_limits limits ;;
  validate_txt_shape strings limits ;;
  match strings with
  | [] => Err CmEmptyRecord
  | marker :: fields =>
    assert_or (bool_decide (marker = HRM_MARKER)) CmInvalidMarker ;;
    st ← commitment_fields limits 1 (mkFieldState None None [] [] 0) fields;
    sequence ← ok_or (fs_sequence st) (CmMissingField "seq");
    envelope_hash ← ok_or (fs_hash st) (CmMissingField "hash");
    assert_or (negb (len (fs_uris st) =? 0)) (CmMissingField "uri") ;;
    Ok (mkCommitment sequence envelope_hash (fs_uris st) (fs_extensions st))
  end.

(** ** The choice among records *)
Fixpoint parsed_candidates (limits : CommitmentLimits) (record_index : Z) (records : list (list (list byte)))
    : result CommitmentError (list HrmCommitment) :=
  match records with
  | [] => Ok []
  | strings :: records =>
    let candidate_count := saturating_add usize_max record_index 1 in
    assert_or (candidate_count <=? maximum_candidate_records limits)
      (CmTooManyCandidateRecords candidate_count (maximum_candidate_records limits)) ;;
    let this := if bool_decide (head strings = Some HRM_MARKER)
                then match parse_txt_commitment strings limits with Ok c => [c] | Err _ => [] end else [] in
    parsed ← parsed_candidates limits (record_index + 1) records;
    Ok (this ++ parsed)
  end.

Definition greatest_sequence (parsed : list HrmCommitment) : option Z :=
  match parsed with
  | [] => None
  | c :: parsed => Some (foldl (fun m c => Z.max m (hc_sequence c)) (hc_sequence c) parsed)
  end.

(** The loop over the other commitments of the greatest sequence. *)
Definition merge_commitment (hash : list byte) (sequence : Z) (st : list (list byte) * list (list byte * list (list byte))) (c : HrmCommitment)
    : result CommitmentError (list (list byte) * list (list byte * list (list byte))) :=
  let '(uris, extensions) := st in
  assert_or (bool_decide (hc_envelope_hash c = hash)) (CmConflictingSequence sequence) ;;
  Ok (bs_extend uris (hc_uris c),
      foldl (fun m e => bm_modify e.1 (fun s => bs_extend s e.2) m) extensions (hc_extensions c)).

Definition commitment_strings (c : HrmCommitment) : list (list byte) :=
  [HRM_MARKER; bstr "seq=" ++ decimal (hc_sequence c); bstr "hash=" ++ HASH_PREFIX ++ base64_encode (hc_envelope_hash c)] ++
  ((fun uri => bstr "uri=" ++ uri) <$> hc_uris c) ++
  mjoin ((fun e => (fun value => e.1 ++ [x3d] ++ value) <$> e.2) <$> hc_extensions c).

Definition bm_count (m : list (list byte * list (list byte))) : Z := sum_of ((fun e => len e.2) <$> m).

Definition validate_materialized_commitment (c : HrmCommitment) (limits : CommitmentLimits) : result CommitmentError unit :=
  assert_or (len (hc_uris c) <=? maximum_uris limits) (CmTooManyUris (len (hc_uris c)) (maximum_uris limits)) ;;
  assert_or (len (hc_extensions c) <=? maximum_extension_keys limits)
    (CmTooManyExtensionKeys (len (hc_extensions c)) (maximum_extension_keys limits)) ;;
  assert_or (bm_count (hc_extensions c) <=? maximum_extension_values limits)
    (CmTooManyExtensionValues (bm_count (hc_extensions c)) (maximum_extension_values limits)) ;;
  validate_txt_shape (commitment_strings c) limits.

Definition select_commitment (records : list (list (list byte))) (limits : CommitmentLimits) : result CommitmentError HrmCommitment :=
  validate_commitment_limits limits ;;
  parsed ← parsed_candidates limits 0 records;
  greatest_sequence ← ok_or (greatest_sequence parsed) CmMissing;
  match filter (fun c => hc_sequence c = greatest_sequence) parsed with
  | [] => Err CmMissing
  | selected :: greatest =>
    '(uris, extensions) ← try_fold (merge_commitment (hc_envelope_hash selected) greatest_sequence)
       (bs_collect (hc_uris selected), (fun e => (e.1, bs_collect e.2)) <$> hc_extensions selected) greatest;
    let selected := mkCommitment (hc_sequence selected) (hc_envelope_hash selected) uris extensions in
    validate_materialized_commitment selected limits ;;
    Ok selected
  end.
End commitments.

(** ** What a parsed commitment looks like *)
Definition extension_key (k : list byte) : Prop := starts_with (bstr "x-") k = true /\ contains_char x3d k = false.

Record commitment_wf (c : HrmCommitment) : Prop := {
  cw_sequence : u64 (hc_sequence c);
  cw_hash : len (hc_envelope_hash c) = 32;
  cw_uris : ssorted (hc_uris c);
  cw_nonempty : hc_uris c <> [];
  cw_valid : Forall (fun u => is_valid_absolute_uri u = true) (hc_uris c);
  cw_extensions : bm_ok (hc_extensions c);
  cw_keys : Forall (fun e => extension_key e.1) (hc_extensions c);
}.

Record fields_wf (st : FieldState) : Prop := {
  fw_sequence : forall n, fs_sequence st = Some n -> u64 n;
  fw_hash : forall h, fs_hash st = Some h -> len h = 32;
  fw_uris : ssorted (fs_uris st);
  fw_valid : Forall (fun u => is_valid_absolute_uri u = true) (fs_uris st);
  fw_extensions : bm_ok (fs_extensions st);
  fw_keys : Forall (fun e => extension_key e.1) (fs_extensions st);
}.

Lemma parse_sequence_Ok v n : parse_sequence v = Ok n <-> u64 n /\ v = decimal n.
Proof.
  unfold parse_sequence. split.
  - intros H. apply bind_Ok in H as (? & C%assert_or_Ok & H%ok_or_Ok). rewrite negb_true_iff, !orb_false_iff, negb_false_iff in C. destruct C as ((N & D) & Z0).
    apply parse_canonical in H as (-> & R); [done|by vm_compute|]. split; [done|]. split; [by intros ->|]. intros Hd.
    destruct v as [|b [|c v]]; [done|by injection Hd as ->|]. injection Hd as ->. apply andb_false_iff in Z0 as [Z0|Z0]; [|done].
    rewrite !len_cons in Z0. pose proof (len_nonneg v). apply Z.ltb_ge in Z0. lia.
  - intros (R & ->). destruct (decimal_digits_ok 20 n) as ((F & N & Z0) & V); [change (Z.of_nat 21) with 21; unfold u64, u64_max in R; lia|].
    apply bind_Ok. exists tt. split; [|by apply ok_or_Ok, parse_decimal]. fold (decimal n) in *. apply assert_or_Ok. rewrite negb_true_iff, !orb_false_iff, negb_false_iff, F.
    split; [split; [|done]|]; [by apply Z.eqb_neq, len_nonzero|]. destruct (starts_with [x30] (decimal n)) eqn:E; [|by rewrite andb_false_r].
    apply starts_with_spec in E as (r & E). rewrite E in *. rewrite (Z0 eq_refl). done.
Qed.

Lemma split_once_byte c s : split_once [c] s = split_byte c s.
Proof.
  induction s as [|b s IH]; [done|]. cbn [split_once split_byte strip_prefix]. rewrite IH. destruct (decide (c = b)) as [->|N].
  - by rewrite bool_decide_eqb_refl.
  - by rewrite !bool_decide_eq_false_2 by congruence.
Qed.

Lemma extension_keys_modify key f m :
  extension_key key -> Forall (fun e => extension_key e.1) m -> Forall (fun e : list byte * list (list byte) => extension_key e.1) (bm_modify key f m).
Proof.
  intros K F. apply Forall_forall. intros [k s] I. cbn. assert (k ∈ (bm_modify key f m).*1) as I' by (apply list_elem_of_fmap; by exists (k, s)).
  apply bm_keys_modify in I' as [-> | ([k' t] & -> & J)%list_elem_of_fmap]; [done|]. rewrite Forall_forall in F. by apply (F (k', t)).
Qed.

Lemma insert_nonempty v s : ssorted s -> ssorted (bs_insert v s) /\ bs_insert v s <> [].
Proof. intros H. split; [by apply ssorted_insert|]. destruct s as [|y s]; cbn; [done|]. by repeat case_match. Qed.

Section parse.
Context {B64 : Base64}.

Lemma parse_hash_Ok v h : parse_hash v = Ok h -> len h = 32.
Proof.
  intros H. apply bind_Ok in H as (? & _ & H). apply bind_Ok in H as (? & _ & H). apply bind_Ok in H as (? & _ & H). apply bind_Ok in H as (? & L%assert_or_Ok & H).
  apply bind_Ok in H as (? & _ & H). apply Ok_inj in H as <-. by apply Z.eqb_eq.
Qed.

Lemma extension_field_wf limits st key value st' :
  extension_key key -> fields_wf st -> extension_field limits st key value = Ok st' -> fields_wf st'.
Proof.
  intros K [] H. apply bind_Ok in H as (? & _ & H).
  assert (bm_ok (bm_modify key (bs_insert value) (fs_extensions st))) as M by (apply bm_ok_modify; [apply insert_nonempty|done]).
  destruct (bool_decide _); [apply Ok_inj in H as <-|apply bind_Ok in H as (? & _ & H); apply Ok_inj in H as <-]; split; try done; by apply extension_keys_modify.
Qed.

Lemma field_wf limits i st text st' : fields_wf st -> commitment_field limits i st text = Ok st' -> fields_wf st'.
Proof.
  intros W. unfold commitment_field. rewrite split_once_byte. destruct (split_byte x3d text) as [[key value]|] eqn:S; [|done].
  apply split_byte_Some in S as (_ & NK). intros H. apply bind_Ok in H as (? & _ & H). pose proof W as [].
  destruct (bool_decide (key = _)).
  { apply bind_Ok in H as (? & _ & H). apply bind_Ok in H as (n & (N & _)%parse_sequence_Ok & H). apply Ok_inj in H as <-. split; try done. by intros ? [= <-]. }
  destruct (bool_decide (key = _)).
  { apply bind_Ok in H as (? & _ & H). apply bind_Ok in H as (h & N%parse_hash_Ok & H). apply Ok_inj in H as <-. split; try done. by intros ? [= <-]. }
  destruct (bool_decide (key = _)).
  { apply bind_Ok in H as (? & V%assert_or_Ok & H). apply bind_Ok in H as (? & _ & H). apply Ok_inj in H as <-. split; try done; [by apply ssorted_insert|].
    apply Forall_forall. intros u [-> | I]%elem_bs_insert; [done|]. rewrite Forall_forall in fw_valid0. by apply fw_valid0. }
  destruct (starts_with (bstr "x-") key) eqn:X; [|done]. by apply (extension_field_wf limits st key value).
Qed.

Lemma parse_wf strings limits c : parse_txt_commitment strings limits = Ok c -> commitment_wf c.
Proof.
  intros H. apply bind_Ok in H as (? & _ & H). apply bind_Ok in H as (? & _ & H). destruct strings as [|marker fields]; [done|].
  apply bind_Ok in H as (? & _ & H). apply bind_Ok in H as (st & F & H). apply bind_Ok in H as (n & N%ok_or_Ok & H). apply bind_Ok in H as (h & Hh%ok_or_Ok & H).
  apply bind_Ok in H as (? & U%assert_or_Ok & H). apply Ok_inj in H as <-.
  assert (forall strings i st0, fields_wf st0 -> commitment_fields limits i st0 strings = Ok st -> fields_wf st) as Loop.
  { clear. induction strings as [|t ts IH]; intros i st0 W; cbn [commitment_fields]; [by intros [= <-]|]. intros H. apply bind_Ok in H as (st1 & E & H).
    apply field_wf in E; [|done]. by apply IH in H. }
  apply Loop in F as []; [|by split; try constructor; try constructor]. split; cbn; eauto. intros E. by rewrite E in U.
Qed.

(** ** The candidates *)
Definition candidate (limits : CommitmentLimits) (strings : list (list byte)) : option HrmCommitment :=
  if bool_decide (head strings = Some HRM_MARKER) then match parse_txt_commitment strings limits with Ok c => Some c | Err _ => None end else None.

Lemma parsed_candidates_spec limits i records :
  0 <= i <= maximum_candidate_records limits -> maximum_candidate_records limits <= HNS_MAX_TXT_RECORDS ->
  parsed_candidates limits i records =
    if i + len records <=? maximum_candidate_records limits then Ok (omap (candidate limits) records)
    else Err (CmTooManyCandidateRecords (maximum_candidate_records limits + 1) (maximum_candidate_records limits)).
Proof.
  intros I M. unfold HNS_MAX_TXT_RECORDS in M. revert i I. induction records as [|r rs IH]; intros i I; cbn [parsed_candidates].
  { rewrite len_nil. by rewrite (proj2 (Z.leb_le _ _)) by lia. }
  assert (saturating_add usize_max i 1 = i + 1) as -> by (unfold saturating_add, usize_max, u64_max; lia). rewrite len_cons. pose proof (len_nonneg rs).
  destruct (Z.leb_spec (i + 1) (maximum_candidate_records limits)); cbn [assert_or mbind result_bind].
  - rewrite IH by lia. replace (i + 1 + len rs) with (i + (1 + len rs)) by lia. destruct (i + (1 + len rs) <=? _); [|done]. cbn [mbind result_bind]. f_equal.
    change (omap (candidate limits) (r :: rs)) with (match candidate limits r with Some c => c :: omap (candidate limits) rs | None => omap (candidate limits) rs end).
    unfold candidate at 2. by destruct (bool_decide _); [destruct (parse_txt_commitment r limits)|].
  - rewrite (proj2 (Z.leb_gt _ _)) by lia. repeat f_equal; lia.
Qed.

Lemma candidates_wf limits records : Forall commitment_wf (omap (candidate limits) records).
Proof.
  apply Forall_forall. intros c (r & _ & H)%list_elem_of_omap. unfold candidate in H. destruct (bool_decide _); [|done].
  destruct (parse_txt_commitment r limits) eqn:P; [|done]. injection H as <-. by apply parse_wf in P.
Qed.
End parse.

(** ** Merging *)
Lemma greatest_spec cs g :
  greatest_sequence cs = Some g <-> (exists c, c ∈ cs /\ hc_sequence c = g) /\ (forall c, c ∈ cs -> hc_sequence c <= g).
Proof.
  assert (forall cs m, (foldl (fun m c => Z.max m (hc_sequence c)) m cs = m \/ exists c, c ∈ cs /\ hc_sequence c = foldl (fun m c => Z.max m (hc_sequence c)) m cs) /\
    m <= foldl (fun m c => Z.max m (hc_sequence c)) m cs /\ (forall c, c ∈ cs -> hc_sequence c <= foldl (fun m c => Z.max m (hc_sequence c)) m cs)) as F.
  { clear. induction cs as [|c cs IH]; intros m; cbn [foldl]; [split; [by left|]; split; [lia|]; intros c I; by apply elem_of_nil in I|].
    destruct (IH (Z.max m (hc_sequence c))) as (E & L & B). set (g := foldl _ _ cs) in *. split; [|split; [lia|]].
    - destruct E as [E|(c' & I & E)]; [|right; exists c'; by rewrite elem_of_cons; eauto].
      destruct (Z.max_spec m (hc_sequence c)) as [(_ & M)|(_ & M)]; rewrite M in E; [|by left]. right. exists c. rewrite elem_of_cons. by split; [left|].
    - intros c' [-> | I]%elem_of_cons; [lia|by apply B]. }
  destruct cs as [|c cs]; cbn [greatest_sequence]; [split; [done|]; intros ((c & I & _) & _); by apply elem_of_nil in I|].
  destruct (F cs (hc_sequence c)) as (E & L & B). set (g' := foldl _ _ cs) in *.
  assert ((exists c0, c0 ∈ c :: cs /\ hc_sequence c0 = g') /\ (forall c0, c0 ∈ c :: cs -> hc_sequence c0 <= g')) as (G1 & G2).
  { split; [destruct E as [E|(c' & I & E)]; [exists c|exists c']; rewrite elem_of_cons; eauto|]. intros c' [-> | I]%elem_of_cons; [lia|by apply B]. }
  split; [by intros [= <-]|]. intros ((c1 & I1 & E1) & B1). destruct G1 as (c2 & I2 & E2). pose proof (B1 _ I2). pose proof (G2 _ I1). f_equal. lia.
Qed.

(** Folding the extensions of one commitment into a map. *)
Lemma extend_map es m :
  bm_ok m -> Forall (fun e => e.2 <> []) es ->
  bm_ok (foldl (fun m e => bm_modify e.1 (fun s => bs_extend s e.2) m) m es) /\
  forall k v, bm_has (foldl (fun m e => bm_modify e.1 (fun s => bs_extend s e.2) m) m es) k v <-> bm_has m k v \/ bm_has es k v.
Proof.
  revert m. induction es as [|[k s] es IH]; intros m M N; cbn [foldl].
  - split; [done|]. intros k v. pose proof (bm_has_nil k v). naive_solver.
  - apply Forall_cons in N as (Ns & N). cbn in Ns. destruct (IH (bm_modify k (fun t => bs_extend t s) m)) as (O & H); [|done|].
    + apply bm_ok_modify; [|done]. intros t T. split; [by apply ssorted_extend|]. destruct s as [|x s]; [done|]. intros E.
      apply (not_elem_of_nil x). rewrite <- E. apply elem_bs_extend. right. apply elem_of_cons. by left.
    + split; [done|]. intros k' v. cbn [fst snd]. rewrite H, bm_has_modify, bm_has_cons. naive_solver.
Qed.

Section merging.
Variables (hash : list byte) (g : Z).

(** The union of the locators and of the extensions of some commitments. *)
Definition union_of (cs : list HrmCommitment) (st : list (list byte) * list (list byte * list (list byte))) : Prop :=
  ssorted st.1 /\ (forall u, u ∈ st.1 <-> exists c, c ∈ cs /\ u ∈ hc_uris c) /\
  bm_ok st.2 /\ (forall k v, bm_has st.2 k v <-> exists c, c ∈ cs /\ bm_has (hc_extensions c) k v).

Lemma union_unique cs cs' st st' : (forall c, c ∈ cs <-> c ∈ cs') -> union_of cs st -> union_of cs' st' -> st = st'.
Proof.
  intros E (S1 & U1 & M1 & X1) (S2 & U2 & M2 & X2). destruct st as [u m], st' as [u' m']. cbn in *. f_equal.
  - apply ssorted_ext; [done|done|]. intros x. rewrite U1, U2. by setoid_rewrite E.
  - apply bm_ext; [done|done|]. intros k v. rewrite X1, X2. by setoid_rewrite E.
Qed.

Lemma union_first c : commitment_wf c -> union_of [c] (bs_collect (hc_uris c), (fun e => (e.1, bs_collect e.2)) <$> hc_extensions c).
Proof.
  intros []. unfold union_of. cbn [fst snd]. rewrite bs_collect_sorted by done.
  assert ((fun e => (e.1, bs_collect e.2)) <$> hc_extensions c = hc_extensions c) as ->.
  { clear cw_keys0. destruct cw_extensions0 as (_ & V). induction V as [|[k s] m (V & _) _ IH]; [done|]. cbn. rewrite bs_collect_sorted by done. f_equal. exact IH. }
  split; [done|]. split; [|split; [done|]]; intros; setoid_rewrite list_elem_of_singleton; naive_solver.
Qed.

Lemma merge_spec first rest cs st :
  commitment_wf first -> Forall commitment_wf rest -> union_of cs st ->
  (Forall (fun c => hc_envelope_hash c = hash) rest -> exists st', try_fold (merge_commitment hash g) st rest = Ok st' /\ union_of (cs ++ rest) st') /\
  (~ Forall (fun c => hc_envelope_hash c = hash) rest -> try_fold (merge_commitment hash g) st rest = Err (CmConflictingSequence g)).
Proof.
  intros _. revert cs st. induction rest as [|c rest IH]; intros cs st W U; cbn [try_fold].
  { split; [intros _; exists st; by rewrite app_nil_r|]. intros N. destruct N. constructor. }
  apply Forall_cons in W as (Wc & W). destruct st as [u m]. rewrite Forall_cons.
  assert (merge_commitment hash g (u, m) c = if bool_decide (hc_envelope_hash c = hash)
    then Ok (bs_extend u (hc_uris c), foldl (fun m e => bm_modify e.1 (fun s => bs_extend s e.2) m) m (hc_extensions c))
    else Err (CmConflictingSequence g)) as -> by (unfold merge_commitment; by destruct (bool_decide _)).
  destruct (bool_decide (hc_envelope_hash c = hash)) eqn:B; cbn [mbind result_bind].
  - apply bool_decide_eq_true in B. destruct U as (U1 & U2 & U3 & U4). cbn [fst snd] in *.
    destruct (extend_map (hc_extensions c) m U3) as (O & X). { destruct Wc as [_ _ _ _ _ (_ & V) _]. eapply Forall_impl; [exact V|]. by intros e (_ & ?). }
    match goal with |- context [try_fold _ ?st' rest] => destruct (IH (cs ++ [c]) st' W) as (I1 & I2) end.
    { unfold union_of. cbn [fst snd]. split; [by apply ssorted_extend|]. split; [|split; [done|]].
      - intros x. rewrite elem_bs_extend, U2. setoid_rewrite elem_of_app. setoid_rewrite list_elem_of_singleton. naive_solver.
      - intros k v. rewrite X, U4. setoid_rewrite elem_of_app. setoid_rewrite list_elem_of_singleton. naive_solver. }
    rewrite <- app_assoc in I1. split; [intros (_ & F); by apply I1|]. intros N. apply I2. intros F. by apply N.
  - apply bool_decide_eq_false in B. split; [by intros (? & _)|done].
Qed.
End merging.

(** ** Selection *)
Section select.
Context {B64 : Base64}.

Lemma limits_records limits : validate_commitment_limits limits = Ok tt -> 0 <= maximum_candidate_records limits <= HNS_MAX_TXT_RECORDS.
Proof. intros H. apply bind_Ok in H as (? & H%assert_or_Ok & _). rewrite andb_true_iff, !Z.leb_le in H. lia. Qed.

(** The commitments of the greatest sequence, once it is known. *)
Lemma select_split records limits c :
  select_commitment records limits = Ok c <->
  validate_commitment_limits limits = Ok tt /\ len records <= maximum_candidate_records limits /\
  exists g, greatest_sequence (omap (candidate limits) records) = Some g /\ hc_sequence c = g /\
    (forall c', c' ∈ filter (fun c => hc_sequence c = g) (omap (candidate limits) records) -> hc_envelope_hash c' = hc_envelope_hash c) /\
    union_of (filter (fun c => hc_sequence c = g) (omap (candidate limits) records)) (hc_uris c, hc_extensions c) /\
    validate_materialized_commitment c limits = Ok tt.
Proof.
  set (cs := omap (candidate limits) records). assert (Forall commitment_wf cs) as W by apply candidates_wf.
  unfold select_commitment. destruct (validate_commitment_limits limits) as [[]|e] eqn:VL; [|by split; [|intros (? & _)]]. cbn [mbind result_bind].
  pose proof (limits_records limits VL) as R. rewrite parsed_candidates_spec by lia. rewrite Z.add_0_l. fold cs.
  destruct (Z.leb_spec (len records) (maximum_candidate_records limits)); [|split; [done|intros (_ & ? & _); lia]]. cbn [mbind result_bind].
  destruct (greatest_sequence cs) as [g|] eqn:G; [|by split; [|intros (_ & _ & ? & ? & _)]]. cbn [ok_or mbind result_bind].
  destruct (filter (fun c => hc_sequence c = g) cs) as [|first rest] eqn:F.
  { exfalso. apply greatest_spec in G as ((c' & I & E) & _). apply (not_elem_of_nil c'). rewrite <- F. by apply list_elem_of_filter. }
  assert (forall c', c' ∈ first :: rest -> hc_sequence c' = g /\ commitment_wf c') as In.
  { intros c'. rewrite <- F, list_elem_of_filter. intros (E & I). split; [done|]. rewrite Forall_forall in W. by apply W. }
  destruct (In first) as (Eg & W1); [apply elem_of_cons; by left|].
  assert (Forall commitment_wf rest) as Wr by (apply Forall_forall; intros c' I; apply In, elem_of_cons; by right).
  destruct (merge_spec (hc_envelope_hash first) g first rest [first] _ W1 Wr (union_first first W1)) as (M1 & M2).
  destruct (decide (Forall (fun c => hc_envelope_hash c = hc_envelope_hash first) rest)) as [A|A].
  - destruct (M1 A) as ([u m] & -> & U). cbn [mbind result_bind app] in U |- *. change (union_of (first :: rest) (u, m)) in U. split.
    + intros H1. apply bind_Ok in H1 as ([] & V & H'). apply Ok_inj in H' as <-. split; [done|]. split; [done|]. exists g. rewrite F. split; [done|]. split; [done|]. split; [|done].
      intros c' [-> | I]%elem_of_cons; [done|]. rewrite Forall_forall in A. by apply A.
    + intros (_ & _ & g' & [= <-] & Ec & Hh & U' & V). rewrite F in Hh, U'. pose proof (union_unique _ _ _ _ (fun c => iff_refl _) U U') as Eu. injection Eu as -> ->.
      rewrite Eg, (Hh first) by (apply elem_of_cons; by left). destruct c as [cs' ch cu ce]. cbn in *. subst cs'. by rewrite V.
  - rewrite (M2 A). split; [done|]. intros (_ & _ & g' & [= <-] & Ec & Hh & _ & _). rewrite F in Hh. exfalso. apply A, Forall_forall. intros c' I.
    rewrite (Hh c'), (Hh first); [done|apply elem_of_cons; by left|apply elem_of_cons; by right].
Qed.

(** The outcome on the parsed candidates depends on them as a set. *)
Definition select_among (limits : CommitmentLimits) (cs : list HrmCommitment) : result CommitmentError HrmCommitment :=
  g ← ok_or (greatest_sequence cs) CmMissing;
  match filter (fun c => hc_sequence c = g) cs with
  | [] => Err CmMissing
  | selected :: greatest =>
    '(uris, extensions) ← try_fold (merge_commitment (hc_envelope_hash selected) g)
       (bs_collect (hc_uris selected), (fun e => (e.1, bs_collect e.2)) <$> hc_extensions selected) greatest;
    let selected := mkCommitment (hc_sequence selected) (hc_envelope_hash selected) uris extensions in
    validate_materialized_commitment selected limits ;;
    Ok selected
  end.

Lemma select_among_eq records limits :
  select_commitment records limits =
    (validate_commitment_limits limits ;; parsed ← parsed_candidates limits 0 records; select_among limits parsed).
Proof. done. Qed.

Lemma greatest_perm cs cs' : Permutation cs cs' -> greatest_sequence cs = greatest_sequence cs'.
Proof.
  intros P. assert (forall g, greatest_sequence cs = Some g <-> greatest_sequence cs' = Some g) as E.
  { intros g. rewrite !greatest_spec. by setoid_rewrite P. }
  destruct (greatest_sequence cs) as [g|]; [by symmetry; apply E|]. destruct (greatest_sequence cs') as [g|]; [|done]. by apply E.
Qed.

Lemma select_among_perm limits cs cs' : Forall commitment_wf cs -> Permutation cs cs' -> select_among limits cs = select_among limits cs'.
Proof.
  intros W P. unfold select_among. rewrite (greatest_perm cs cs' P). destruct (greatest_sequence cs') as [g|]; [|done]. cbn [ok_or mbind result_bind].
  pose proof (filter_Permutation (fun c => hc_sequence c = g) _ _ P) as PF.
  assert (Forall commitment_wf (filter (fun c => hc_sequence c = g) cs)) as WF.
  { apply Forall_forall. intros c (_ & I)%list_elem_of_filter. rewrite Forall_forall in W. by apply W. }
  assert (Forall (fun c => hc_sequence c = g) (filter (fun c => hc_sequence c = g) cs)) as SF by (apply Forall_forall; intros c I; by apply list_elem_of_filter in I as (? & _)).
  destruct (filter (fun c => hc_sequence c = g) cs) as [|f r] eqn:E; [apply Permutation_nil_l in PF; by rewrite <- PF|].
  destruct (filter (fun c => hc_sequence c = g) cs') as [|f' r']; [symmetry in PF; by apply Permutation_nil_cons in PF|].
  assert (Forall commitment_wf (f' :: r')) as WF' by (by rewrite <- PF). assert (Forall (fun c => hc_sequence c = g) (f' :: r')) as SF' by (by rewrite <- PF).
  apply Forall_cons in WF as (W1 & Wr), WF' as (W1' & Wr'), SF as (Eg & _), SF' as (Eg' & _). rewrite Eg, Eg'.
  assert (forall c, c ∈ f :: r <-> c ∈ f' :: r') as PE by (intros c; by rewrite PF).
  destruct (merge_spec (hc_envelope_hash f) g f r [f] _ W1 Wr (union_first f W1)) as (M1 & M2).
  destruct (merge_spec (hc_envelope_hash f') g f' r' [f'] _ W1' Wr' (union_first f' W1')) as (M1' & M2').
  assert (forall h, Forall (fun c => hc_envelope_hash c = h) (f :: r) <-> Forall (fun c => hc_envelope_hash c = h) (f' :: r')) as PH by (intros h; by rewrite PF).
  destruct (decide (Forall (fun c => hc_envelope_hash c = hc_envelope_hash f) r)) as [A|A].
  - pose proof (proj1 (PH (hc_envelope_hash f)) (proj2 (Forall_cons _ _ _) (conj eq_refl A))) as (Ef & A')%Forall_cons. rewrite Ef in M1' |- *.
    destruct (M1 A) as (st & -> & U). destruct (M1' A') as (st' & -> & U'). by rewrite (union_unique _ _ _ _ PE U U').
  - rewrite (M2 A), M2'; [done|]. intros A'. apply A. pose proof (proj2 (PH (hc_envelope_hash f')) (proj2 (Forall_cons _ _ _) (conj eq_refl A'))) as (Ef & A'')%Forall_cons.
    by rewrite Ef.
Qed.

(** C29. The choice is a function of the set of records: reordering a name's TXT
    records changes neither the selected commitment nor the error. *)
Theorem commitment_order limits records records' :
  Permutation records records' -> select_commitment records limits = select_commitment records' limits.
Proof.
  intros P. rewrite !select_among_eq. destruct (validate_commitment_limits limits) as [[]|] eqn:V; [|done]. cbn [mbind result_bind].
  pose proof (limits_records limits V). rewrite !parsed_candidates_spec by lia. rewrite !Z.add_0_l. unfold len. rewrite (Permutation_length P).
  destruct (_ <=? _); [|done]. cbn [mbind result_bind]. apply select_among_perm; [apply candidates_wf|]. by apply omap_Permutation.
Qed.

(** [select_commitment] returns exactly the union of the greatest: every valid
    [hrm1] record has at most the sequence of the result, all those of its sequence
    (and there is one) have its hash, its locators and extension values are theirs
    and no others, in ascending order without repetition, and the result as a
    record keeps the limits. *)
Theorem commitment_exact limits records c :
  select_commitment records limits = Ok c <->
  validate_commitment_limits limits = Ok tt /\ len records <= maximum_candidate_records limits /\
  let valid c' := exists r, r ∈ records /\ head r = Some HRM_MARKER /\ parse_txt_commitment r limits = Ok c' in
  let top c' := valid c' /\ hc_sequence c' = hc_sequence c in
  (exists c', top c') /\ (forall c', valid c' -> hc_sequence c' <= hc_sequence c) /\ (forall c', top c' -> hc_envelope_hash c' = hc_envelope_hash c) /\
  ssorted (hc_uris c) /\ (forall u, u ∈ hc_uris c <-> exists c', top c' /\ u ∈ hc_uris c') /\
  bm_ok (hc_extensions c) /\ (forall k v, bm_has (hc_extensions c) k v <-> exists c', top c' /\ bm_has (hc_extensions c') k v) /\
  validate_materialized_commitment c limits = Ok tt.
Proof.
  cbv zeta. assert (forall c', (exists r, r ∈ records /\ head r = Some HRM_MARKER /\ parse_txt_commitment r limits = Ok c') <-> c' ∈ omap (candidate limits) records) as VC.
  { intros c'. rewrite list_elem_of_omap. unfold candidate. apply exist_proper. intros r. split.
    - intros (I & H & P). split; [done|]. by rewrite bool_decide_eq_true_2, P.
    - intros (I & H). split; [done|]. case_bool_decide; [|done]. by destruct (parse_txt_commitment r limits); [injection H as ->|]. }
  rewrite select_split. setoid_rewrite VC. split.
  - intros (V & L & g & (G1 & G2)%greatest_spec & <- & Hh & (U1 & U2 & U3 & U4) & M). cbn [fst snd] in *.
    setoid_rewrite list_elem_of_filter in Hh. setoid_rewrite list_elem_of_filter in U2. setoid_rewrite list_elem_of_filter in U4.
    split; [done|]. split; [done|]. split; [destruct G1 as (c' & ? & ?); by exists c'|]. split; [done|]. split; [naive_solver|]. split; [done|].
    split; [intros u; rewrite U2; naive_solver|]. split; [done|]. split; [intros k v; rewrite U4; naive_solver|done].
  - intros (V & L & (c0 & I0 & E0) & B & Hh & U1 & U2 & U3 & U4 & M). split; [done|]. split; [done|]. exists (hc_sequence c). split; [apply greatest_spec; eauto|].
    split; [done|]. setoid_rewrite list_elem_of_filter. split; [naive_solver|]. split; [|done]. unfold union_of. cbn [fst snd]. setoid_rewrite list_elem_of_filter.
    split; [done|]. split; [intros u; rewrite U2; naive_solver|]. split; [done|]. intros k v; rewrite U4; naive_solver.
Qed.
End select.

(** ** The text of a commitment *)
Definition bm_pairs (m : list (list byte * list (list byte))) : list (list byte * list byte) := mjoin ((fun e => pair e.1 <$> e.2) <$> m).
Definition bm_insert_pair (m : list (list byte * list (list byte))) (p : list byte * list byte) := bm_modify p.1 (bs_insert p.2) m.
Definition bm_of_pairs (m : list (list byte * list (list byte))) (ps : list (list byte * list byte)) := foldl bm_insert_pair m ps.

Lemma elem_pairs m k v : (k, v) ∈ bm_pairs m <-> bm_has m k v.
Proof.
  induction m as [|[k' s] m IH]; [unfold bm_pairs; cbn; rewrite elem_of_nil; pose proof (bm_has_nil k v); naive_solver|].
  unfold bm_pairs in *. rewrite fmap_cons, join_cons, elem_of_app, IH, bm_has_cons, list_elem_of_fmap. cbn [fst snd]. naive_solver.
Qed.

Lemma pair_strings m : mjoin ((fun e => (fun value => e.1 ++ [x3d] ++ value) <$> e.2) <$> m) = (fun p : list byte * list byte => p.1 ++ [x3d] ++ p.2) <$> bm_pairs m.
Proof.
  unfold bm_pairs. induction m as [|[k s] m IH]; [done|]. rewrite !fmap_cons, !join_cons, fmap_app, IH. f_equal. cbn [fst snd]. by rewrite <- list_fmap_compose.
Qed.

Lemma bm_of_pairs_ok m ps : bm_ok m -> bm_ok (bm_of_pairs m ps) /\ forall k v, bm_has (bm_of_pairs m ps) k v <-> bm_has m k v \/ (k, v) ∈ ps.
Proof.
  unfold bm_of_pairs. revert m. induction ps as [|[k0 v0] ps IH]; intros m M; cbn [foldl].
  { split; [done|]. intros k v. rewrite elem_of_nil. naive_solver. }
  destruct (IH (bm_insert_pair m (k0, v0))) as (O & H); [apply bm_ok_modify; [apply insert_nonempty|done]|]. split; [done|]. intros k v.
  rewrite H, elem_of_cons. unfold bm_insert_pair. cbn [fst snd]. change (bs_insert v0) with (fun s => bs_extend s [v0]). rewrite bm_has_modify, list_elem_of_singleton. naive_solver.
Qed.

Lemma bm_of_pairs_eq m : bm_ok m -> bm_of_pairs [] (bm_pairs m) = m.
Proof.
  intros M. assert (bm_ok []) as O by (split; constructor). destruct (bm_of_pairs_ok [] (bm_pairs m) O) as (O' & H). apply bm_ext; [done|done|].
  intros k v. rewrite H, elem_pairs. pose proof (bm_has_nil k v). naive_solver.
Qed.

Lemma len_bs_insert v s : ssorted s -> len (bs_insert v s) = len s + (if bool_decide (v ∈ s) then 0 else 1).
Proof.
  intros H. induction s as [|y s IH]; cbn [bs_insert]; [by rewrite bool_decide_eq_false_2 by apply not_elem_of_nil|].
  destruct (decide (v = y)) as [->|E].
  { rewrite bool_decide_eqb_refl, (bool_decide_eq_true_2 (y ∈ y :: s)) by (apply elem_of_cons; by left). lia. }
  rewrite (bool_decide_eq_false_2 (v = y)) by done. destruct (bytes_le v y) eqn:L.
  - rewrite bool_decide_eq_false_2; [rewrite !len_cons; lia|]. intros [?|I]%elem_of_cons; [done|]. destruct (ssorted_head _ _ _ H I) as (L' & _).
    by apply E, bytes_le_antisym.
  - inversion H; subst. rewrite !len_cons, IH by done. erewrite (bool_decide_ext (v ∈ y :: s) (v ∈ s)); [lia|]. rewrite elem_of_cons. naive_solver.
Qed.

Lemma bm_get_absent key m : Forall (bytes_lt key) m.*1 -> bm_get key m = None.
Proof.
  induction m as [|[k s] m IH]; [done|]. rewrite fmap_cons, Forall_cons. intros ((_ & N) & F). unfold bm_get. cbn [List.find fst].
  rewrite bool_decide_eq_false_2 by (cbn in N; congruence). by apply IH.
Qed.

Lemma bm_modify_counts key v m : bm_ok m ->
  len (bm_modify key (bs_insert v) m) = len m + (match bm_get key m with Some _ => 0 | None => 1 end) /\
  bm_count (bm_modify key (bs_insert v) m) = bm_count m + (if bool_decide (v ∈ default [] (bm_get key m)) then 0 else 1).
Proof.
  intros M. induction m as [|[k s] m IH]; [by rewrite bool_decide_eq_false_2 by apply not_elem_of_nil|]. pose proof M as (K & _).
  apply bm_ok_tail in M as (M & Ss & N). cbn [bm_modify]. destruct (decide (key = k)) as [->|E].
  - rewrite (bool_decide_eqb_refl k). unfold bm_get. cbn [List.find fst]. rewrite bool_decide_eqb_refl. cbn [fmap option_fmap option_map snd]. change (default [] (Some s)) with s.
    split; [rewrite !len_cons; lia|]. unfold bm_count. rewrite !fmap_cons. cbn [sum_of foldr snd]. rewrite len_bs_insert by done. lia.
  - rewrite (bool_decide_eq_false_2 (key = k)) by done. destruct (bytes_le key k) eqn:L.
    + assert (bm_get key ((k, s) :: m) = None) as ->.
      { apply bm_get_absent. rewrite fmap_cons in K |- *. inversion K as [|? ? _ F]; subst. constructor; [done|]. eapply Forall_impl; [exact F|]. intros z Z.
        by apply (bytes_lt_trans _ k). }
      rewrite bool_decide_eq_false_2 by apply not_elem_of_nil. split; [rewrite !len_cons; lia|]. unfold bm_count. rewrite !fmap_cons. cbn [sum_of foldr snd]. change (len (bs_insert v [])) with 1. lia.
    + destruct (IH M) as (IH1 & IH2). assert (bm_get key ((k, s) :: m) = bm_get key m) as ->.
      { unfold bm_get. cbn [List.find fst]. by rewrite bool_decide_eq_false_2 by congruence. }
      rewrite !len_cons, IH1. split; [lia|]. unfold bm_count in *. rewrite !fmap_cons. cbn [sum_of foldr snd] in *. unfold sum_of in *. lia.
Qed.

Lemma bm_of_pairs_grows m ps : bm_ok m -> len m <= len (bm_of_pairs m ps) /\ bm_count m <= bm_count (bm_of_pairs m ps).
Proof.
  revert m. induction ps as [|[k v] ps IH]; intros m M; [unfold bm_of_pairs; cbn [foldl]; lia|].
  destruct (bm_modify_counts k v m M) as (C1 & C2). change (bm_of_pairs m ((k, v) :: ps)) with (bm_of_pairs (bm_modify k (bs_insert v) m) ps).
  destruct (IH (bm_modify k (bs_insert v) m)) as (L1 & L2); [apply bm_ok_modify; [apply insert_nonempty|done]|]. repeat case_match; lia.
Qed.

Section text.
Context {B64 : Base64}.
Variable limits : CommitmentLimits.

Lemma fields_app i st a b : commitment_fields limits i st (a ++ b) = st' ← commitment_fields limits i st a; commitment_fields limits (i + len a) st' b.
Proof.
  revert i st. induction a as [|t a IH]; intros i st; cbn [app commitment_fields]; [by rewrite len_nil, Z.add_0_r|].
  destruct (commitment_field limits i st t); [|done]. cbn [mbind result_bind]. rewrite IH, len_cons. by rewrite Z.add_assoc.
Qed.

Lemma key_split k v : contains_char x3d k = false -> split_once [x3d] (k ++ [x3d] ++ v) = Some (k, v).
Proof. intros N. rewrite split_once_byte. by apply split_byte_Some. Qed.

Lemma len_bs_extend s xs : ssorted s -> len s <= len (bs_extend s xs).
Proof.
  revert s. induction xs as [|x xs IH]; intros s H; [unfold bs_extend; cbn [foldl]; lia|]. change (bs_extend s (x :: xs)) with (bs_extend (bs_insert x s) xs).
  pose proof (IH (bs_insert x s) (ssorted_insert x s H)). rewrite len_bs_insert in H0 by done. case_bool_decide; lia.
Qed.

Lemma uri_fields us i st :
  ssorted (fs_uris st) -> Forall (fun u => is_valid_absolute_uri u = true) us -> len (bs_extend (fs_uris st) us) <= maximum_uris limits ->
  commitment_fields limits i st ((fun uri => bstr "uri=" ++ uri) <$> us) =
    Ok (mkFieldState (fs_sequence st) (fs_hash st) (bs_extend (fs_uris st) us) (fs_extensions st) (fs_value_count st)).
Proof.
  revert i st. induction us as [|u us IH]; intros i st Ss V L; [by destruct st|]. apply Forall_cons in V as (Vu & V). rewrite fmap_cons. cbn [commitment_fields].
  assert (commitment_field limits i st (bstr "uri=" ++ u) = Ok (mkFieldState (fs_sequence st) (fs_hash st) (bs_insert u (fs_uris st)) (fs_extensions st) (fs_value_count st))) as ->.
  { unfold commitment_field. change (bstr "uri=" ++ u) with (bstr "uri" ++ [x3d] ++ u). rewrite key_split by done. cbn -[is_valid_absolute_uri bs_insert]. rewrite Vu. cbn [assert_or mbind result_bind].
    pose proof (len_bs_extend (bs_insert u (fs_uris st)) us (ssorted_insert _ _ Ss)). change (bs_extend (fs_uris st) (u :: us)) with (bs_extend (bs_insert u (fs_uris st)) us) in L.
    by rewrite (proj2 (Z.leb_le _ _)) by lia. }
  cbn [mbind result_bind]. rewrite IH; [done|by apply ssorted_insert|done|done].
Qed.

Lemma extension_dispatch i st k v : extension_key k ->
  commitment_field limits i st (k ++ [x3d] ++ v) = extension_field limits st k v.
Proof.
  intros (X & N). unfold commitment_field. rewrite key_split by done. apply starts_with_spec in X as (r & ->).
  rewrite (proj2 (Z.eqb_neq _ _)) by (rewrite len_app; pose proof (len_nonneg r); change (len (bstr "x-")) with 2; lia). cbn [negb assert_or mbind result_bind].
  rewrite !bool_decide_eq_false_2 by (intros E; by apply (f_equal head) in E). by rewrite (proj2 (starts_with_spec _ _)) by (by eexists).
Qed.

Lemma extension_fields ps i st :
  maximum_extension_values limits <= HNS_MAX_TXT_STRINGS ->
  bm_ok (fs_extensions st) -> fs_value_count st = bm_count (fs_extensions st) -> Forall (fun p => extension_key p.1) ps ->
  len (bm_of_pairs (fs_extensions st) ps) <= maximum_extension_keys limits -> bm_count (bm_of_pairs (fs_extensions st) ps) <= maximum_extension_values limits ->
  commitment_fields limits i st ((fun p : list byte * list byte => p.1 ++ [x3d] ++ p.2) <$> ps) =
    Ok (mkFieldState (fs_sequence st) (fs_hash st) (fs_uris st) (bm_of_pairs (fs_extensions st) ps) (bm_count (bm_of_pairs (fs_extensions st) ps))).
Proof.
  intros Mx. unfold HNS_MAX_TXT_STRINGS in Mx. revert i st. induction ps as [|[k v] ps IH]; intros i st O C K L1 L2.
  { destruct st; cbn in *. by rewrite C. }
  apply Forall_cons in K as (Kk & K). rewrite fmap_cons. cbn [commitment_fields fst snd]. rewrite extension_dispatch by done.
  destruct (bm_modify_counts k v (fs_extensions st) O) as (C1 & C2).
  assert (bm_ok (bm_modify k (bs_insert v) (fs_extensions st))) as O' by (apply bm_ok_modify; [apply insert_nonempty|done]).
  change (bm_of_pairs (fs_extensions st) ((k, v) :: ps)) with (bm_of_pairs (bm_modify k (bs_insert v) (fs_extensions st)) ps) in *.
  destruct (bm_of_pairs_grows (bm_modify k (bs_insert v) (fs_extensions st)) ps O') as (G1 & G2).
  assert (extension_field limits st k v = Ok (mkFieldState (fs_sequence st) (fs_hash st) (fs_uris st) (bm_modify k (bs_insert v) (fs_extensions st))
    (bm_count (bm_modify k (bs_insert v) (fs_extensions st))))) as ->.
  { unfold extension_field. set (new := match bm_get k (fs_extensions st) with Some _ => false | None => true end).
    assert (new && (len (fs_extensions st) =? maximum_extension_keys limits) = false) as ->.
    { unfold new. destruct (bm_get k (fs_extensions st)); [done|]. cbn [andb]. apply Z.eqb_neq. lia. }
    cbn [negb assert_or mbind result_bind]. rewrite C2, C. destruct (bool_decide (v ∈ _)); [by rewrite Z.add_0_r|].
    assert (saturating_add usize_max (bm_count (fs_extensions st)) 1 = bm_count (fs_extensions st) + 1) as -> by (unfold saturating_add, usize_max, u64_max; lia).
    by rewrite (proj2 (Z.leb_le _ _)) by lia. }
  cbn [mbind result_bind]. by rewrite IH.
Qed.

Lemma hash_text (BL : Base64Laws B64) h : len h = 32 -> parse_hash (HASH_PREFIX ++ base64_encode h) = Ok h.
Proof.
  intros L. unfold parse_hash. rewrite strip_prefix_app. cbn [ok_or mbind result_bind]. rewrite base64_digest by done.
  rewrite (contains_char_forallb x3d is_base64url) by (apply base64_alphabet || by vm_compute). cbn [Z.eqb SHA256_BASE64URL_LENGTH Pos.eqb negb orb assert_or mbind result_bind].
  rewrite base64_roundtrip. cbn [ok_or mbind result_bind]. rewrite L. cbn [Z.eqb Pos.eqb assert_or mbind result_bind]. by rewrite bool_decide_eqb_refl.
Qed.

Lemma commitment_parses (BL : Base64Laws B64) c :
  validate_commitment_limits limits = Ok tt -> commitment_wf c -> validate_materialized_commitment c limits = Ok tt ->
  parse_txt_commitment (commitment_strings c) limits = Ok c.
Proof.
  intros V W M. destruct W as [Q Hh U N Vu X K]. apply bind_Ok in M as (? & M1%assert_or_Ok & M). apply bind_Ok in M as (? & M2%assert_or_Ok & M).
  apply bind_Ok in M as ([] & M3%assert_or_Ok & M). apply Z.leb_le in M1, M2, M3.
  assert (maximum_extension_values limits <= HNS_MAX_TXT_STRINGS) as Mx.
  { pose proof V as V'. do 6 (apply bind_Ok in V' as (? & _ & V')). by apply assert_or_Ok, Z.leb_le in V'. }
  unfold parse_txt_commitment. rewrite V. cbn [mbind result_bind]. rewrite M. cbn [mbind result_bind]. unfold commitment_strings. cbn [app].
  rewrite bool_decide_eqb_refl. cbn [assert_or mbind result_bind commitment_fields].
  assert (forall st, fs_sequence st = None -> commitment_field limits 1 st (bstr "seq=" ++ decimal (hc_sequence c)) =
    Ok (mkFieldState (Some (hc_sequence c)) (fs_hash st) (fs_uris st) (fs_extensions st) (fs_value_count st))) as E1.
  { intros st E. unfold commitment_field. change (bstr "seq=" ++ ?x) with (bstr "seq" ++ [x3d] ++ x). rewrite key_split by done.
    cbn -[parse_sequence decimal]. rewrite E. cbn -[parse_sequence decimal]. by rewrite (proj2 (parse_sequence_Ok _ (hc_sequence c))). }
  rewrite E1 by done. cbn [mbind result_bind].
  assert (forall st, fs_hash st = None -> commitment_field limits (1 + 1) st (bstr "hash=" ++ HASH_PREFIX ++ base64_encode (hc_envelope_hash c)) =
    Ok (mkFieldState (fs_sequence st) (Some (hc_envelope_hash c)) (fs_uris st) (fs_extensions st) (fs_value_count st))) as E2.
  { intros st E. unfold commitment_field. change (bstr "hash=" ++ ?x) with (bstr "hash" ++ [x3d] ++ x). rewrite key_split by done.
    cbn -[parse_hash HASH_PREFIX]. rewrite E. cbn -[parse_hash HASH_PREFIX]. by rewrite hash_text. }
  rewrite E2 by done. cbn [mbind result_bind fs_sequence fs_hash fs_uris fs_extensions fs_value_count].
  assert (bs_extend [] (hc_uris c) = hc_uris c) as EU by by apply bs_collect_sorted. pose proof (bm_of_pairs_eq _ X) as EM.
  assert (bm_ok []) as O by (split; constructor).
  rewrite fields_app, uri_fields by (cbn [fs_uris]; rewrite ?EU; try done; constructor). cbn [mbind result_bind fs_sequence fs_hash fs_uris fs_extensions fs_value_count].
  rewrite pair_strings, extension_fields; cbn [fs_sequence fs_hash fs_uris fs_extensions fs_value_count]; rewrite ?EM; try done.
  - cbn [mbind result_bind ok_or fs_sequence fs_hash fs_uris fs_extensions]. rewrite EU. rewrite (proj2 (Z.eqb_neq _ _)) by (by apply len_nonzero). by destruct c.
  - apply Forall_forall. intros [k v] (s & I & _)%elem_pairs. rewrite Forall_forall in K. by apply (K (k, s)).
Qed.
End text.

(** The selected commitment is itself one record: the strings that stand for it
    when its size is checked parse, under the same limits, to that commitment. *)
Theorem commitment_text {B64 : Base64} (BL : Base64Laws B64) limits records c :
  select_commitment records limits = Ok c -> parse_txt_commitment (commitment_strings c) limits = Ok c.
Proof.
  intros (V & _ & g & (G1 & _)%greatest_spec & E & Hh & (U1 & U2 & U3 & U4) & M)%select_split. cbn [fst snd] in *. apply commitment_parses; [done|done| |done].
  destruct G1 as (c0 & I0 & E0). pose proof (candidates_wf limits records) as W. rewrite Forall_forall in W.
  assert (c0 ∈ filter (fun c => hc_sequence c = g) (omap (candidate limits) records)) as F0 by (by apply list_elem_of_filter).
  pose proof (W c0 I0) as []. split; try done.
  - by rewrite E, <- E0.
  - by rewrite <- (Hh c0 F0).
  - intros En. destruct (hc_uris c0) as [|u us] eqn:Eu; [done|]. apply (not_elem_of_nil u). rewrite <- En. apply U2. exists c0. rewrite Eu. split; [done|]. apply elem_of_cons. by left.
  - apply Forall_forall. intros u (c' & (_ & I)%list_elem_of_filter & Iu)%U2. pose proof (cw_valid _ (W _ I)) as V'. rewrite Forall_forall in V'. by apply V'.
  - apply Forall_forall. intros [k s] I. pose proof (bm_key_has _ k U3) as (v & Hv); [apply list_elem_of_fmap; by exists (k, s)|].
    apply U4 in Hv as (c' & (_ & I')%list_elem_of_filter & (s' & Is & _)). pose proof (cw_keys _ (W _ I')) as K'. rewrite Forall_forall in K'. by apply (K' (k, s')).
Qed.

(** ** A concrete [Base64] for examples: the number a byte string spells, in base 64 *)
Definition b64_alphabet : list byte := bstr "ABCDEFGHIJKLMNOPQRSTUVWXYZabcdefghijklmnopqrstuvwxyz0123456789-_".
Definition b64_char (n : Z) : byte := default x41 (b64_alphabet !! Z.to_nat n).
Fixpoint b64_index (l : list byte) (c : byte) : Z :=
  match l with [] => 0 | b :: l => if bool_decide (b = c) then 0 else 1 + b64_index l c end.
Fixpoint b64_digits (n : nat) (v : Z) : list byte :=
  match n with O => [] | S n => b64_char (v mod 64) :: b64_digits n (v / 64) end.
Fixpoint b64_value (s : list byte) : Z :=
  match s with [] => 0 | c :: s => b64_index b64_alphabet c + 64 * b64_value s end.
Definition plain_base64 : Base64 := {|
  base64_encode := fun bs => b64_digits ((4 * length bs + 2) / 3) (from_le_bytes bs);
  base64_decode := fun s => Some (to_le_bytes (3 * length s / 4) (b64_value s));
|}.

Lemma b64_char_ok n : 0 <= n < 64 -> is_base64url (b64_char n) = true /\ b64_index b64_alphabet (b64_char n) = n.
Proof.
  intros H. assert (Forall (fun n => is_base64url (b64_char n) = true /\ b64_index b64_alphabet (b64_char n) = n) (Z.of_nat <$> seq 0 64)) as F.
  { apply Forall_forall, Forall_forall. repeat constructor. }
  rewrite Forall_forall in F. apply F. apply list_elem_of_fmap. exists (Z.to_nat n). rewrite Z2Nat.id by lia. split; [done|]. apply elem_of_seq. lia.
Qed.

Lemma b64_digits_ok n v : length (b64_digits n v) = n /\ forallb is_base64url (b64_digits n v) = true /\ (0 <= v < 64 ^ Z.of_nat n -> b64_value (b64_digits n v) = v).
Proof.
  revert v. induction n as [|n IH]; intros v; [by split; [|split; [|intros; cbn in *; lia]]|]. cbn [b64_digits length forallb b64_value].
  pose proof (Z.mod_pos_bound v 64 ltac:(lia)) as B. destruct (b64_char_ok (v mod 64) B) as (C1 & C2). destruct (IH (v / 64)) as (L & F & V).
  rewrite L, F, C1, C2. split; [done|]. split; [done|]. intros R. rewrite Nat2Z.inj_succ, Z.pow_succ_r in R by lia. rewrite V.
  - pose proof (Z.div_mod v 64). lia.
  - split; [apply Z.div_pos; lia|]. apply Z.div_lt_upper_bound; lia.
Qed.

Lemma plain_base64_laws : Base64Laws plain_base64.
Proof.
  split; intros bs; cbn [base64_decode base64_encode plain_base64].
  - set (m := ((4 * length bs + 2) / 3)%nat). destruct (b64_digits_ok m (from_le_bytes bs)) as (L & _ & V). rewrite L.
    pose proof (Nat.div_mod (4 * length bs + 2) 3 ltac:(lia)). pose proof (Nat.mod_upper_bound (4 * length bs + 2) 3 ltac:(lia)). fold m in H.
    assert (3 * m / 4 = length bs)%nat as -> by (symmetry; apply (Nat.div_unique _ _ _ (3 * m - 4 * length bs)); lia). rewrite V.
    + by rewrite to_from_le_bytes.
    + pose proof (from_le_bytes_range bs) as R. unfold len in R. split; [lia|]. eapply Z.lt_le_trans; [apply R|].
      change 256 with (2 ^ 8). change 64 with (2 ^ 6). rewrite <- !Z.pow_mul_r by lia. apply Z.pow_le_mono_r; lia.
  - intros L. unfold len in L |- *. destruct (b64_digits_ok ((4 * length bs + 2) / 3) (from_le_bytes bs)) as (-> & _). by replace (length bs) with 32%nat by lia.
  - apply b64_digits_ok.
Qed.

Definition sample_record (n : Z) (extra : list (list byte)) : list (list byte) :=
  @commitment_strings plain_base64 (mkCommitment n (replicate 32 x05) [bstr "https://a.test/m"] []) ++ extra.
Definition sample_records : list (list (list byte)) :=
  [sample_record 3 []; [bstr "spf1"]; sample_record 4 [bstr "x-b=1"; bstr "uri=ipfs:x"; bstr "x-b=0"]; sample_record 4 [bstr "x-a=2"]; [bstr "hrm1"; bstr "seq=9"]].
Definition sample_commitment : HrmCommitment :=
  mkCommitment 4 (replicate 32 x05) [bstr "https://a.test/m"; bstr "ipfs:x"] [(bstr "x-a", [bstr "2"]); (bstr "x-b", [bstr "0"; bstr "1"])].

Lemma commitment_order_witness : @select_commitment plain_base64 (rev sample_records) CommitmentLimits_default = Ok sample_commitment.
Proof.
  rewrite <- (@commitment_order plain_base64 CommitmentLimits_default sample_records (rev sample_records) (Permutation_rev sample_records)).
  vm_compute. reflexivity.
Defined.

Lemma commitment_text_witness : @parse_txt_commitment plain_base64 (@commitment_strings plain_base64 sample_commitment) CommitmentLimits_default = Ok sample_commitment.
Proof. apply (@commitment_text plain_base64 plain_base64_laws CommitmentLimits_default sample_records). vm_compute. reflexivity. Defined.
