(* ===== verification/HrmValidation.v ===== *)
(** * hns-hrm: authorization

    Models [crates/hns-hrm/src/validation.rs]: the check of a name's current
    manifest and the recursive walk up the delegations of a resource, with its
    budgets, its deadline, its cycle set and its rollback observations. The clock,
    the retrieval of parents and proofs, and the profile rules are the caller's:
    the class [HrmAdapters], whose operations act on a world of their own. The
    mutable fields of [Context] survive an error, as [authorize] goes on after one. *)

From stdpp Require Import gmap.
From S2P Require Import Prelude Encoding Primitives Covenants Transaction Script Interpreter K256 Cbor Text HrmUri BTree HrmModel HrmCommitment.
Local Open Scope Z_scope.

Definition MAX_PARENT_DEPTH : Z := 32.

Record ValidationLimits := mkValidationLimits {
  maximum_parent_depth : Z;
  maximum_fetched_objects : Z;
  maximum_fetched_bytes : Z;
  maximum_cache_lifetime : Z;
  maximum_redirects_per_object : Z;
  maximum_validation_milliseconds : Z;
  vl_commitment : CommitmentLimits;
}.
Definition ValidationLimits_default : ValidationLimits :=
  mkValidationLimits 16 64 (8 * 1048576) 86400 4 10000 CommitmentLimits_default.

Record RollbackState := mkRollbackState {
  rb_network_magic : Z;
  rb_subject : list byte;
  rb_sequence : Z;
  rb_envelope_hash : list byte;
  rb_chain_height : Z;
  rb_chain_work : list byte;
  rb_chain_anchor : list byte;
}.
Definition RollbackObservations : Type := gmap (Z * list byte) RollbackState.

Record AcceptedReorganization := mkReorganization {
  previous_chain_height : Z;
  previous_chain_work : list byte;
  previous_chain_anchor : list byte;
  current_chain_height : Z;
  current_chain_work : list byte;
  current_chain_anchor : list byte;
}.

Record AuthenticatedNameState := mkNameState {
  ns_network_magic : Z;
  ns_subject : list byte;
  ns_has_current_owner : bool;
  ns_revoked : bool;
  ns_expired : bool;
  ns_finality_accepted : bool;
  ns_chain_height : Z;
  ns_chain_work : list byte;
  ns_chain_anchor : list byte;
  ns_accepted_reorganization : option AcceptedReorganization;
  ns_commitment_records : list (list (list byte));
}.
Record ResolvedManifest := mkResolved { rm_name_state : AuthenticatedNameState; rm_envelope : list byte }.

Record FetchBudget := mkFetchBudget { fb_objects : Z; fb_bytes : Z; fb_maximum_redirects : Z; fb_milliseconds : Z }.
Record FetchUsage := mkFetchUsage { fu_objects : Z; fu_bytes : Z }.
Record FetchOutcome (T : Type) := mkFetchOutcome { fo_value : T; fo_usage : FetchUsage }.
Arguments mkFetchOutcome {T}.
Arguments fo_value {T}.
Arguments fo_usage {T}.

Record ResourcePolicy := mkResourcePolicy {
  permits_hns_local_origin : bool;
  permits_external_origin : bool;
  permits_parent_delegation : bool;
  permits_subdelegation : bool;
  rp_cache_until : Z;
}.

Record ResourceValidationContext := mkResourceContext {
  rc_network_magic : Z;
  rc_subject : list byte;
  rc_controller : Controller;
  rc_resource : ResourceEntry;
  rc_action : list byte;
  rc_now : Z;
  rc_milliseconds : Z;
}.
Record ExternalProofContext := mkExternalContext { ec_context : ResourceValidationContext; ec_proof_profile : list byte }.
Record DelegationValidationContext := mkDelegationContext {
  dc_parent : ResourceEntry;
  dc_child : ResourceEntry;
  dc_delegation : Delegation;
  dc_action : list byte;
  dc_now : Z;
  dc_milliseconds : Z;
}.

(** ** The clock, [ManifestResolver], [ExternalProofResolver] and [ProfilePolicy]

    [elapsed_millis] is [started_at.elapsed().as_millis()]; a callback's error is
    its text, and [validate_external_proof] returns the proof's [cache_until]. *)
Class HrmAdapters := {
  World : Type;
  elapsed_millis : World -> Z * World;
  resolve_current : list byte -> FetchBudget -> World -> result (list byte) (FetchOutcome ResolvedManifest) * World;
  fetch_proof : list byte -> list byte -> list (list byte) -> FetchBudget -> World -> result (list byte) (FetchOutcome (list byte)) * World;
  validate_resource : ResourceValidationContext -> World -> result (list byte) ResourcePolicy * World;
  validate_external_proof : ExternalProofContext -> list byte -> World -> result (list byte) Z * World;
  validate_delegation : DelegationValidationContext -> World -> result (list byte) unit * World;
}.

Inductive ProofLink :=
| LinkHnsLocal (subject resource_id : list byte)
| LinkExternal (subject resource_id proof_profile proof_hash : list byte)
| LinkParentDelegation (parent_subject parent_resource_id child_subject child_resource_id delegation_id : list byte).

Record ValidatedManifestSnapshot := mkSnapshot {
  vs_validated_at : Z;
  vs_sequence : Z;
  vs_envelope_hash : list byte;
  vs_controller : Controller;
  vs_payload_issued_at : Z;
  vs_payload_expires_at : Z;
  vs_resources : list ResourceEntry;
  vs_delegations : list Delegation;
  vs_rollback_state : RollbackState;
  vs_accepted_reorganization : option AcceptedReorganization;
}.
Record ValidatedCurrentManifest := mkCurrentManifest {
  cm_network_magic : Z;
  cm_subject : list byte;
  cm_expires_at : Z;
  cm_rollback_observation : RollbackState;
  cm_fetched_objects : Z;
  cm_fetched_bytes : Z;
  cm_current_snapshot : ValidatedManifestSnapshot;
}.
Record ValidatedAuthorization := mkAuthorization {
  va_network_magic : Z;
  va_subject : list byte;
  va_resource_id : list byte;
  va_profile : list byte;
  va_action : list byte;
  va_expires_at : Z;
  va_proof_chain : list ProofLink;
  va_rollback_observations : list RollbackState;
  va_fetched_objects : Z;
  va_fetched_bytes : Z;
  va_current_snapshot : ValidatedManifestSnapshot;
}.
Record AuthorizedResource := mkAuthorized {
  az_resource : ResourceEntry;
  az_delegations : list Delegation;
  az_snapshot : ValidatedManifestSnapshot;
  az_expires_at : Z;
  az_permits_subdelegation : bool;
  az_proof_chain : list ProofLink;
  az_observations : list RollbackState;
}.

Inductive ValidationError :=
| VInvalidLimits (what : string)
| VCommitment (e : CommitmentError)
| VModel (e : HrmModelError)
| VNameState
| VResolverContext
| VEnvelopeHash
| VMissingResource
| VProfile (what : list byte)
| VExternalRetrieval (what : list byte)
| VParentRetrieval (what : list byte)
| VOrigin
| VParentDelegation
| VRight
| VCycle
| VDepth
| VBudget
| VDeadline
| VRollback.

(** ** Pure checks *)
Definition ValidationLimits_validate (l : ValidationLimits) : result ValidationError unit :=
  assert_or (negb ((maximum_parent_depth l =? 0) || (MAX_PARENT_DEPTH <? maximum_parent_depth l)))
    (VInvalidLimits "maximum_parent_depth must be in 1..=32") ;;
  assert_or (negb ((maximum_fetched_objects l =? 0) || (maximum_fetched_bytes l =? 0) || (maximum_cache_lifetime l =? 0) ||
                   (maximum_validation_milliseconds l =? 0)))
    (VInvalidLimits "fetch, byte, and cache lifetime limits must be nonzero").

Definition AcceptedReorganization_matches (r : AcceptedReorganization) (previous current : RollbackState) : bool :=
  (previous_chain_height r =? rb_chain_height previous) && bool_decide (previous_chain_work r = rb_chain_work previous) &&
  bool_decide (previous_chain_anchor r = rb_chain_anchor previous) && (current_chain_height r =? rb_chain_height current) &&
  bool_decide (current_chain_work r = rb_chain_work current) && bool_decide (current_chain_anchor r = rb_chain_anchor current) &&
  negb (bool_decide (previous_chain_anchor r = current_chain_anchor r)).

Definition validate_rollback (previous current : RollbackState) (accepted : option AcceptedReorganization) : result ValidationError unit :=
  assert_or ((rb_network_magic previous =? rb_network_magic current) && bool_decide (rb_subject previous = rb_subject current)) VRollback ;;
  let rolls_back :=
    (rb_sequence current <? rb_sequence previous) ||
    ((rb_sequence current =? rb_sequence previous) && negb (bool_decide (rb_envelope_hash current = rb_envelope_hash previous))) ||
    negb (bytes_le (rb_chain_work previous) (rb_chain_work current)) in
  assert_or (negb (rolls_back && negb (match accepted with Some evidence => AcceptedReorganization_matches evidence previous current | None => false end)))
    VRollback.

Definition rollback_observation (state : AuthenticatedNameState) (commitment : HrmCommitment) : RollbackState :=
  mkRollbackState (ns_network_magic state) (ns_subject state) (hc_sequence commitment) (hc_envelope_hash commitment)
    (ns_chain_height state) (ns_chain_work state) (ns_chain_anchor state).

Definition time_active (not_before expires_at now : Z) : bool := (not_before <=? now) && (now <? expires_at).

#[global] Instance Controller_eq_dec : EqDecision Controller.
Proof. solve_decision. Defined.

Definition validate_child_binding (parent child : ResourceEntry) (d : Delegation) (child_state : AuthenticatedNameState)
    (child_controller : Controller) (action : list byte) (now : Z) : result ValidationError unit :=
  assert_or (negb (negb (bool_decide (dg_parent_resource_id d = rs_resource_id parent)) ||
                   negb (bool_decide (dg_child_profile d = rs_profile child)) ||
                   negb (bool_decide (dg_child_resource_id d = rs_resource_id child)) ||
                   negb (bool_decide (dg_child_identifier d = rs_identifier child)) ||
                   negb (bool_decide (dg_child_subject d = ns_subject child_state)) ||
                   negb (bool_decide (dg_child_controller d = child_controller)) ||
                   negb (existsb (fun right => bool_decide (right = action)) (dg_rights d)) ||
                   (now <? dg_not_before d) || (dg_expires_at d <=? now) ||
                   (dg_not_before d <? rs_not_before parent) || (rs_expires_at parent <? dg_expires_at d) ||
                   (rs_not_before child <? dg_not_before d) || (dg_expires_at d <? rs_expires_at child)))
    VParentDelegation.

Definition unusable_state (state : AuthenticatedNameState) (expected_network_magic : Z) : bool :=
  negb (ns_network_magic state =? expected_network_magic) || negb (ns_has_current_owner state) || ns_revoked state || ns_expired state ||
  negb (ns_finality_accepted state).

Definition rollback_allowed (observations : RollbackObservations) (key : Z * list byte) (observation : RollbackState)
    (accepted : option AcceptedReorganization) : result ValidationError unit :=
  match observations !! key with Some previous => validate_rollback previous observation accepted | None => Ok tt end.

Definition snapshot (now : Z) (commitment : HrmCommitment) (p : Payload) (observation : RollbackState) (state : AuthenticatedNameState)
    : ValidatedManifestSnapshot :=
  mkSnapshot now (hc_sequence commitment) (hc_envelope_hash commitment) (hp_controller p) (hp_issued_at p) (hp_expires_at p)
    (hp_resources p) (hp_delegations p) observation (ns_accepted_reorganization state).

Definition ValidatedManifestSnapshot_resource (s : ValidatedManifestSnapshot) (resource_id : list byte) : option ResourceEntry :=
  List.find (fun r => bool_decide (rs_resource_id r = resource_id)) (vs_resources s).

Section validation.
Context {CR : Crypto} {SD : ScriptDigests} {KC : K256} {KD : KeyCodec KC} {B64 : Base64} {HA : HrmAdapters}.

(** ** The current manifest *)
Definition validate_current_manifest (root : ResolvedManifest) (expected_network_magic : Z) (expected_subject : list byte) (now : Z)
    (limits : ValidationLimits) (previous_observations : RollbackObservations) (w : World) : result ValidationError ValidatedCurrentManifest :=
  ValidationLimits_validate limits ;;
  let state := rm_name_state root in
  assert_or (bool_decide (ns_subject state = expected_subject)) VResolverContext ;;
  let fetched_bytes := len (rm_envelope root) in
  assert_or (fetched_bytes <=? maximum_fetched_bytes limits) VBudget ;;
  assert_or (negb (unusable_state state expected_network_magic)) VNameState ;;
  commitment ← map_err VCommitment (select_commitment (ns_commitment_records state) (vl_commitment limits));
  let '(elapsed, w) := elapsed_millis w in
  assert_or (elapsed <? maximum_validation_milliseconds limits) VDeadline ;;
  assert_or (bool_decide (sha256 (rm_envelope root) = hc_envelope_hash commitment)) VEnvelopeHash ;;
  envelope ← map_err VModel (HrmEnvelope_decode (rm_envelope root));
  map_err VModel (HrmEnvelope_validate_context envelope expected_network_magic expected_subject (hc_sequence commitment) now 0) ;;
  let '(elapsed, w) := elapsed_millis w in
  assert_or (elapsed <? maximum_validation_milliseconds limits) VDeadline ;;
  let observation := rollback_observation state commitment in
  rollback_allowed previous_observations (expected_network_magic, expected_subject) observation (ns_accepted_reorganization state) ;;
  let expires_at := Z.min (hp_expires_at (he_payload envelope)) (saturating_add u64_max now (maximum_cache_lifetime limits)) in
  Ok (mkCurrentManifest expected_network_magic expected_subject expires_at observation 1 fetched_bytes
        (snapshot now commitment (he_payload envelope) observation state)).

(** ** [Context] *)
Record Ctx := mkCtx {
  cx_fetched_objects : Z;
  cx_fetched_bytes : Z;
  cx_active : gset (list byte * list byte);
  cx_world : World;
}.
Definition ctxM (A : Type) : Type := Ctx -> result ValidationError A * Ctx.
#[global] Instance ctxM_ret : MRet ctxM := fun _ a s => (Ok a, s).
#[global] Instance ctxM_bind : MBind ctxM := fun _ _ f m s => match m s with (Ok a, s') => f a s' | (Err e, s') => (Err e, s') end.
Definition lift_ctx {A} (r : result ValidationError A) : ctxM A := fun s => (r, s).
Definition callback {A} (f : World -> result (list byte) A * World) (wrap : list byte -> ValidationError) : ctxM A := fun s =>
  let '(r, w) := f (cx_world s) in
  (map_err wrap r, mkCtx (cx_fetched_objects s) (cx_fetched_bytes s) (cx_active s) w).

(** The fields of [Context] that do not change. *)
Variables (expected_network_magic now : Z) (action : list byte) (limits : ValidationLimits) (previous_observations : RollbackObservations).

Definition decision_budget : ctxM Z := fun s =>
  let '(elapsed, w) := elapsed_millis (cx_world s) in
  let remaining := match checked_sub (maximum_validation_milliseconds limits) elapsed with
                   | Some r => if r =? 0 then None else Some r
                   | None => None
                   end in
  (ok_or remaining VDeadline, mkCtx (cx_fetched_objects s) (cx_fetched_bytes s) (cx_active s) w).
Definition check_deadline : ctxM unit := decision_budget ;; mret tt.

Definition charge_fetch (usage : FetchUsage) (minimum_body_bytes : Z) : ctxM unit := fun s =>
  if (fu_objects usage =? 0) || (fu_bytes usage <? minimum_body_bytes) then (Err VBudget, s)
  else let objects := saturating_add usize_max (cx_fetched_objects s) (fu_objects usage) in
       let bytes := saturating_add usize_max (cx_fetched_bytes s) (fu_bytes usage) in
       (assert_or (negb ((maximum_fetched_objects limits <? objects) || (maximum_fetched_bytes limits <? bytes))) VBudget,
        mkCtx objects bytes (cx_active s) (cx_world s)).
Definition charge_object (bytes : Z) : ctxM unit := charge_fetch (mkFetchUsage 1 bytes) bytes.

Definition fetch_budget : ctxM FetchBudget := fun s =>
  (remaining_objects ← lift_ctx (ok_or (checked_sub (maximum_fetched_objects limits) (cx_fetched_objects s)) VBudget);
   remaining_bytes ← lift_ctx (ok_or (checked_sub (maximum_fetched_bytes limits) (cx_fetched_bytes s)) VBudget);
   lift_ctx (assert_or (negb ((remaining_objects =? 0) || (remaining_bytes =? 0))) VBudget) ;;
   milliseconds ← decision_budget;
   mret (mkFetchBudget remaining_objects remaining_bytes (maximum_redirects_per_object limits) milliseconds)) s.

(** What the match on the resource's authority computes: the proof chain, the
    inherited right to delegate, the expiry and the observations. *)
Definition Origin : Type := list ProofLink * bool * Z * list RollbackState.

Section walk.
(** [authorize] on a parent: its manifest, resource, depth and whether it is charged. *)
Variable recurse : ResolvedManifest -> list byte -> Z -> bool -> ctxM AuthorizedResource.

Definition external_origin (state : AuthenticatedNameState) (controller : Controller) (resource : ResourceEntry) (resource_id : list byte)
    (proof_profile proof_hash : list byte) (proof_uris : list (list byte)) (expires_at : Z) (observation : RollbackState) : ctxM Origin :=
  budget ← fetch_budget;
  fetched ← callback (fetch_proof proof_profile proof_hash proof_uris budget) VExternalRetrieval;
  check_deadline ;;
  charge_fetch (fo_usage fetched) (len (fo_value fetched)) ;;
  let proof := fo_value fetched in
  lift_ctx (assert_or (bool_decide (sha256 proof = proof_hash)) VOrigin) ;;
  milliseconds ← decision_budget;
  let context := mkExternalContext (mkResourceContext (ns_network_magic state) (ns_subject state) controller resource action now milliseconds) proof_profile in
  cache_until ← callback (validate_external_proof context proof) VProfile;
  check_deadline ;;
  lift_ctx (assert_or (now <? cache_until) VOrigin) ;;
  mret ([LinkExternal (ns_subject state) resource_id proof_profile proof_hash], true, Z.min expires_at cache_until, [observation]).

Definition parent_origin (state : AuthenticatedNameState) (controller : Controller) (resource : ResourceEntry) (resource_id : list byte)
    (parent_subject parent_resource_id delegation_id : list byte) (depth expires_at : Z) (observation : RollbackState) : ctxM Origin :=
  budget ← fetch_budget;
  fetched ← callback (resolve_current parent_subject budget) VParentRetrieval;
  check_deadline ;;
  charge_fetch (fo_usage fetched) (len (rm_envelope (fo_value fetched))) ;;
  let parent_resolved := fo_value fetched in
  lift_ctx (assert_or ((ns_network_magic (rm_name_state parent_resolved) =? expected_network_magic) &&
                       bool_decide (ns_subject (rm_name_state parent_resolved) = parent_subject)) VResolverContext) ;;
  parent ← recurse parent_resolved parent_resource_id (depth + 1) false;
  lift_ctx (assert_or (az_permits_subdelegation parent) VParentDelegation) ;;
  delegation ← lift_ctx (ok_or (List.find (fun d => bool_decide (dg_delegation_id d = delegation_id)) (az_delegations parent)) VParentDelegation);
  lift_ctx (validate_child_binding (az_resource parent) resource delegation state controller action now) ;;
  milliseconds ← decision_budget;
  callback (validate_delegation (mkDelegationContext (az_resource parent) resource delegation action now milliseconds)) VProfile ;;
  check_deadline ;;
  mret (az_proof_chain parent ++ [LinkParentDelegation parent_subject parent_resource_id (ns_subject state) resource_id delegation_id],
        dg_may_subdelegate delegation,
        Z.min (Z.min expires_at (az_expires_at parent)) (dg_expires_at delegation),
        observation :: az_observations parent).

Definition resource_origin (state : AuthenticatedNameState) (controller : Controller) (resource : ResourceEntry) (resource_id : list byte)
    (policy : ResourcePolicy) (depth expires_at : Z) (observation : RollbackState) : ctxM Origin :=
  match rs_authority resource with
  | HnsLocal =>
    lift_ctx (assert_or (permits_hns_local_origin policy) VOrigin) ;;
    mret ([LinkHnsLocal (ns_subject state) resource_id], true, expires_at, [observation])
  | External proof_profile proof_hash proof_uris =>
    lift_ctx (assert_or (permits_external_origin policy) VOrigin) ;;
    external_origin state controller resource resource_id proof_profile proof_hash proof_uris expires_at observation
  | ParentDelegation parent_subject parent_resource_id delegation_id =>
    lift_ctx (assert_or (permits_parent_delegation policy) VOrigin) ;;
    parent_origin state controller resource resource_id parent_subject parent_resource_id delegation_id depth expires_at observation
  end.

Definition authorize_inner (resolved : ResolvedManifest) (resource_id : list byte) (depth : Z) (charge_resolved : bool) : ctxM AuthorizedResource :=
  (if charge_resolved then charge_object (len (rm_envelope resolved)) else mret tt) ;;
  let state := rm_name_state resolved in
  lift_ctx (assert_or (negb (unusable_state state expected_network_magic)) VNameState) ;;
  commitment ← lift_ctx (map_err VCommitment (select_commitment (ns_commitment_records state) (vl_commitment limits)));
  check_deadline ;;
  lift_ctx (assert_or (bool_decide (sha256 (rm_envelope resolved) = hc_envelope_hash commitment)) VEnvelopeHash) ;;
  envelope ← lift_ctx (map_err VModel (HrmEnvelope_decode (rm_envelope resolved)));
  lift_ctx (map_err VModel (HrmEnvelope_validate_context envelope (ns_network_magic state) (ns_subject state) (hc_sequence commitment) now 0)) ;;
  check_deadline ;;
  let observation := rollback_observation state commitment in
  lift_ctx (rollback_allowed previous_observations (ns_network_magic state, ns_subject state) observation (ns_accepted_reorganization state)) ;;
  let payload := he_payload envelope in
  resource ← lift_ctx (ok_or (List.find (fun r => bool_decide (rs_resource_id r = resource_id)) (hp_resources payload)) VMissingResource);
  lift_ctx (assert_or (time_active (rs_not_before resource) (rs_expires_at resource) now) (VProfile (bstr "resource is not currently valid"))) ;;
  milliseconds ← decision_budget;
  policy ← callback (validate_resource (mkResourceContext (ns_network_magic state) (ns_subject state) (hp_controller payload) resource action now milliseconds)) VProfile;
  check_deadline ;;
  lift_ctx (assert_or (now <? rp_cache_until policy) (VProfile (bstr "profile authorization is not currently cacheable"))) ;;
  let expires_at := Z.min (Z.min (hp_expires_at payload) (rs_expires_at resource)) (rp_cache_until policy) in
  '(proof_chain, inherited_subdelegation, expires_at, observations) ←
    resource_origin state (hp_controller payload) resource resource_id policy depth expires_at observation;
  mret (mkAuthorized resource (hp_delegations payload) (snapshot now commitment payload observation state) expires_at
          (permits_subdelegation policy && inherited_subdelegation) proof_chain observations).
End walk.

Definition set_active (f : gset (list byte * list byte) -> gset (list byte * list byte)) (s : Ctx) : Ctx :=
  mkCtx (cx_fetched_objects s) (cx_fetched_bytes s) (f (cx_active s)) (cx_world s).

(** The cycle check around one step of the walk: the pair is active while the step
    runs, and the deadline is checked again whatever the step returned. *)
Definition with_active {A} (key : list byte * list byte) (step : ctxM A) : ctxM A := fun s =>
  if bool_decide (key ∈ cx_active s) then (Err VCycle, s)
  else let '(r, s) := step (set_active (fun active => {[ key ]} ∪ active) s) in
       (check_deadline ;; lift_ctx r) (set_active (fun active => active ∖ {[ key ]}) s).

(** [levels] bounds the recursion; [authorize] at depth [d] needs
    [maximum_parent_depth - d + 2] of them, the last for the [Depth] error. *)
Fixpoint authorize (levels : nat) (resolved : ResolvedManifest) (resource_id : list byte) (depth : Z) (charge_resolved : bool)
    : ctxM AuthorizedResource :=
  match levels with
  | O => lift_ctx (Err VDepth)
  | S levels =>
    check_deadline ;;
    lift_ctx (assert_or (depth <=? maximum_parent_depth limits) VDepth) ;;
    with_active (ns_subject (rm_name_state resolved), resource_id)
      (authorize_inner (authorize levels) resolved resource_id depth charge_resolved)
  end.

Definition LEVELS : nat := S (S (Z.to_nat (maximum_parent_depth limits))).

Definition validate_authorization (root : ResolvedManifest) (expected_subject resource_id : list byte) (w : World)
    : result ValidationError ValidatedAuthorization :=
  ValidationLimits_validate limits ;;
  assert_or (negb ((len action =? 0) || (128 <? len action) || negb (is_ascii_text action))) VRight ;;
  assert_or (bool_decide (ns_subject (rm_name_state root) = expected_subject)) VResolverContext ;;
  let '(r, context) := (authorized ← authorize LEVELS root resource_id 0 true; check_deadline ;; mret authorized) (mkCtx 0 0 ∅ w) in
  authorized ← r;
  let expires_at := Z.min (az_expires_at authorized) (saturating_add u64_max now (maximum_cache_lifetime limits)) in
  Ok (mkAuthorization expected_network_magic expected_subject resource_id (rs_profile (az_resource authorized)) action expires_at
        (az_proof_chain authorized) (az_observations authorized) (cx_fetched_objects context) (cx_fetched_bytes context)
        (az_snapshot authorized)).
End validation.

(** ** Rollback *)
Definition reorganized (accepted : option AcceptedReorganization) (previous current : RollbackState) : Prop :=
  exists r, accepted = Some r /\ previous_chain_anchor r <> current_chain_anchor r /\
    previous_chain_height r = rb_chain_height previous /\ previous_chain_work r = rb_chain_work previous /\ previous_chain_anchor r = rb_chain_anchor previous /\
    current_chain_height r = rb_chain_height current /\ current_chain_work r = rb_chain_work current /\ current_chain_anchor r = rb_chain_anchor current.

Definition advances (previous current : RollbackState) : Prop :=
  (rb_sequence previous < rb_sequence current \/ (rb_sequence previous = rb_sequence current /\ rb_envelope_hash previous = rb_envelope_hash current)) /\
  bytes_le (rb_chain_work previous) (rb_chain_work current) = true.

Definition same_name (previous current : RollbackState) : Prop :=
  rb_network_magic previous = rb_network_magic current /\ rb_subject previous = rb_subject current.

Lemma matches_spec r previous current : AcceptedReorganization_matches r previous current = true <-> reorganized (Some r) previous current.
Proof.
  unfold AcceptedReorganization_matches, reorganized. rewrite !andb_true_iff, negb_true_iff, !Z.eqb_eq, !bool_decide_eq_true, bool_decide_eq_false.
  split; [intros H; exists r; naive_solver|]. intros (r' & [= <-] & H). naive_solver.
Qed.

Lemma rollback_Ok previous current accepted :
  validate_rollback previous current accepted = Ok tt <-> same_name previous current /\ (advances previous current \/ reorganized accepted previous current).
Proof.
  unfold validate_rollback, same_name. set (rolls := _ || negb (bytes_le _ _)).
  assert (rolls = false <-> advances previous current) as R.
  { unfold rolls, advances. rewrite !orb_false_iff, andb_false_iff, Z.ltb_ge, Z.eqb_neq, !negb_false_iff, bool_decide_eq_true. split.
    - intros ((L & D) & W). split; [|done]. destruct D as [D|D]; [left; lia|]. destruct (Z.eq_dec (rb_sequence previous) (rb_sequence current)); [by right|left; lia].
    - intros ([L|(E & Hh)] & W); (split; [split|done]); [lia|left; lia|lia|by right]. }
  set (m := match accepted with Some _ => _ | None => false end). assert (m = true <-> reorganized accepted previous current) as M.
  { unfold m. destruct accepted as [r|]; [apply matches_spec|]. split; [done|]. by intros (? & ? & _). }
  split.
  - intros H. apply bind_Ok in H as (? & N%assert_or_Ok & H%assert_or_Ok). apply andb_true_iff in N as (N1%Z.eqb_eq & N2%bool_decide_eq_true). split; [done|].
    apply negb_true_iff, andb_false_iff in H as [H|H%negb_false_iff]; [left; by apply R|right; by apply M].
  - intros ((N1 & N2) & H). apply bind_Ok. exists tt. split; [apply assert_or_Ok; by rewrite N1, Z.eqb_refl, bool_decide_eq_true_2|].
    apply assert_or_Ok. destruct H as [->%R| ->%M]; [done|]. by rewrite andb_false_r.
Qed.

(** An observation may follow another of the same name exactly when its sequence
    is higher, or the same with the same manifest, on a chain of no less work, or
    when the evidence names this very reorganization between two anchors. Without
    such evidence accepted observations only move forward: the rule composes. *)
Theorem rollback_exact :
  (forall previous current accepted, validate_rollback previous current accepted = Ok tt <->
    same_name previous current /\ (advances previous current \/ reorganized accepted previous current)) /\
  (forall a b c, validate_rollback a b None = Ok tt -> validate_rollback b c None = Ok tt -> validate_rollback a c None = Ok tt /\ rb_sequence a <= rb_sequence c).
Proof.
  split; [exact rollback_Ok|]. intros a b c. rewrite !rollback_Ok. intros ((N1 & N2) & H1) ((N3 & N4) & H2).
  assert (forall x y, ~ reorganized None x y) as NR by (by intros x y (? & ? & _)).
  destruct H1 as [(S1 & W1)|H1]; [|by apply NR in H1]. destruct H2 as [(S2 & W2)|H2]; [|by apply NR in H2].
  split; [|lia]. split; [split; congruence|]. left. split; [|by apply (bytes_le_trans _ (rb_chain_work b))]. destruct S1 as [?|(? & ?)], S2 as [?|(? & ?)]; (left; lia) || (right; split; [lia|congruence]).
Qed.

(** ** The walk *)
Section walk_proofs.
Context {CR : Crypto} {SD : ScriptDigests} {KC : K256} {KD : KeyCodec KC} {B64 : Base64} {HA : HrmAdapters}.
Variables (magic now : Z) (action : list byte) (limits : ValidationLimits) (previous : RollbackObservations).

Lemma ctx_bind_Ok {A B} (m : ctxM A) (f : A -> ctxM B) s b s' :
  (m ≫= f) s = (Ok b, s') <-> exists a s1, m s = (Ok a, s1) /\ f a s1 = (Ok b, s').
Proof.
  unfold mbind, ctxM_bind. destruct (m s) as [[a|e] s1]; split.
  - eauto.
  - by intros (? & ? & [= <- <-] & ?).
  - done.
  - by intros (? & ? & ? & _).
Qed.

Lemma ctx_bind_ext {A B} (m m' : ctxM A) (f f' : A -> ctxM B) s :
  m s = m' s -> (forall a s1, f a s1 = f' a s1) -> (m ≫= f) s = (m' ≫= f') s.
Proof. unfold mbind, ctxM_bind. intros -> H. destruct (m' s) as [[a|e] s1]; [|done]. apply H. Qed.

Lemma lift_ctx_Ok {A} (r : result ValidationError A) s a s' : lift_ctx r s = (Ok a, s') <-> r = Ok a /\ s' = s.
Proof. unfold lift_ctx. split; [by intros [= -> <-]|]. by intros (-> & ->). Qed.

Lemma lift_Err_bind {A B} e (f : A -> ctxM B) s : (lift_ctx (Err e) ≫= f) s = (Err e, s).
Proof. done. Qed.

(** *** Enough levels *)
Lemma inner_ext rec1 rec2 resolved id depth charge s :
  (forall r i c s, rec1 r i (depth + 1) c s = rec2 r i (depth + 1) c s) ->
  authorize_inner magic now action limits previous rec1 resolved id depth charge s =
  authorize_inner magic now action limits previous rec2 resolved id depth charge s.
Proof.
  intros E. unfold authorize_inner. repeat (apply ctx_bind_ext; [done|intros ? ?]). apply ctx_bind_ext; [|done].
  unfold resource_origin. case_match; try done. apply ctx_bind_ext; [done|intros ? ?]. unfold parent_origin.
  do 5 (apply ctx_bind_ext; [done|intros ? ?]). by apply ctx_bind_ext; [apply E|].
Qed.

Lemma levels_enough n n' resolved id depth charge s :
  maximum_parent_depth limits + 2 - depth <= Z.of_nat n -> maximum_parent_depth limits + 2 - depth <= Z.of_nat n' -> depth <= maximum_parent_depth limits + 1 ->
  authorize magic now action limits previous n resolved id depth charge s = authorize magic now action limits previous n' resolved id depth charge s.
Proof.
  revert n' resolved id depth charge s. induction n as [|n IH]; intros [|n'] resolved id depth charge s L L' D; try lia. cbn [authorize].
  apply ctx_bind_ext; [done|intros ? ?]. destruct (Z.leb_spec depth (maximum_parent_depth limits)) as [Le|Gt]; [|cbn [assert_or]; by rewrite !lift_Err_bind].
  apply ctx_bind_ext; [done|intros ? s9]. unfold with_active. destruct (bool_decide _); [done|].
  rewrite (inner_ext (authorize magic now action limits previous n) (authorize magic now action limits previous n')); [done|].
  intros r i c s2. apply IH; lia.
Qed.

(** *** What an authorization rests on *)
Definition manifest_current (resolved : ResolvedManifest) (c : HrmCommitment) (e : HrmEnvelope) : Prop :=
  let state := rm_name_state resolved in
  unusable_state state magic = false /\
  select_commitment (ns_commitment_records state) (vl_commitment limits) = Ok c /\
  sha256 (rm_envelope resolved) = hc_envelope_hash c /\ HrmEnvelope_decode (rm_envelope resolved) = Ok e /\
  HrmEnvelope_validate_context e (ns_network_magic state) (ns_subject state) (hc_sequence c) now 0 = Ok tt /\
  rollback_allowed previous (ns_network_magic state, ns_subject state) (rollback_observation state c) (ns_accepted_reorganization state) = Ok tt.

(** The profile accepted the resource in its manifest, at this time. *)
Definition resource_context (resolved : ResolvedManifest) (e : HrmEnvelope) (r : ResourceEntry) (ms : Z) : ResourceValidationContext :=
  mkResourceContext (ns_network_magic (rm_name_state resolved)) (ns_subject (rm_name_state resolved)) (hp_controller (he_payload e)) r action now ms.

Definition resource_current (resolved : ResolvedManifest) (id : list byte) (c : HrmCommitment) (e : HrmEnvelope) (r : ResourceEntry) (policy : ResourcePolicy) : Prop :=
  manifest_current resolved c e /\ r ∈ hp_resources (he_payload e) /\ rs_resource_id r = id /\ rs_not_before r <= now < rs_expires_at r /\
  now < rp_cache_until policy /\ exists ms w w', validate_resource (resource_context resolved e r ms) w = (Ok policy, w').

Definition authorized (resolved : ResolvedManifest) (c : HrmCommitment) (e : HrmEnvelope) (r : ResourceEntry) (policy : ResourcePolicy)
    (chain : list ProofLink) (inherited : bool) (until : Z) (observations : list RollbackState) : AuthorizedResource :=
  let observation := rollback_observation (rm_name_state resolved) c in
  mkAuthorized r (hp_delegations (he_payload e)) (snapshot now c (he_payload e) observation (rm_name_state resolved))
    (Z.min (Z.min (Z.min (hp_expires_at (he_payload e)) (rs_expires_at r)) (rp_cache_until policy)) until)
    (permits_subdelegation policy && inherited) chain (observation :: observations).

(** A delegation from the parent's resource to exactly this child: its profile,
    resource, identifier, name and controller, for this action, current, and with a
    window inside the parent's that contains the child's. *)
Record delegates (parent child : ResourceEntry) (d : Delegation) (child_state : AuthenticatedNameState) (child_controller : Controller) : Prop := {
  del_parent : dg_parent_resource_id d = rs_resource_id parent;
  del_profile : dg_child_profile d = rs_profile child;
  del_resource : dg_child_resource_id d = rs_resource_id child;
  del_identifier : dg_child_identifier d = rs_identifier child;
  del_subject : dg_child_subject d = ns_subject child_state;
  del_controller : dg_child_controller d = child_controller;
  del_right : action ∈ dg_rights d;
  del_now : dg_not_before d <= now < dg_expires_at d;
  del_inside : rs_not_before parent <= dg_not_before d /\ dg_expires_at d <= rs_expires_at parent;
  del_contains : dg_not_before d <= rs_not_before child /\ rs_expires_at child <= dg_expires_at d;
}.

Lemma child_binding_Ok parent child d state controller :
  validate_child_binding parent child d state controller action now = Ok tt <-> delegates parent child d state controller.
Proof.
  unfold validate_child_binding. rewrite assert_or_Ok, negb_true_iff, !orb_false_iff, !negb_false_iff, !Z.ltb_ge, Z.leb_gt, existsb_exists. split.
  - intros ((((((((((((B1 & B2) & B3) & B4) & B5) & B6) & (x & Ix & B7)) & T1) & T2) & T3) & T4) & T5) & T6).
    apply bool_decide_eq_true in B1, B2, B3, B4, B5, B6, B7. subst x. apply list_elem_of_In in Ix. by split.
  - intros [-> -> -> -> -> -> I (T1 & T2) (T3 & T4) (T5 & T6)]. rewrite !bool_decide_eq_true_2 by done. repeat split; try done.
    exists action. split; [by apply list_elem_of_In|by apply bool_decide_eq_true].
Qed.

(** A resource is authorized by its own name, by an accepted external proof, or by
    a delegation in the manifest of an authorized parent. *)
Inductive Grants : ResolvedManifest -> list byte -> AuthorizedResource -> Prop :=
| grants_local resolved id c e r policy :
    resource_current resolved id c e r policy -> rs_authority r = HnsLocal -> permits_hns_local_origin policy = true ->
    Grants resolved id (authorized resolved c e r policy [LinkHnsLocal (ns_subject (rm_name_state resolved)) id] true (hp_expires_at (he_payload e)) [])
| grants_external resolved id c e r policy profile hash uris proof until :
    resource_current resolved id c e r policy -> rs_authority r = External profile hash uris -> permits_external_origin policy = true ->
    sha256 proof = hash -> now < until ->
    (exists ms w w', validate_external_proof (mkExternalContext (resource_context resolved e r ms) profile) proof w = (Ok until, w')) ->
    Grants resolved id (authorized resolved c e r policy [LinkExternal (ns_subject (rm_name_state resolved)) id profile hash] true until [])
| grants_parent resolved id c e r policy ps pr did p parent d :
    resource_current resolved id c e r policy -> rs_authority r = ParentDelegation ps pr did -> permits_parent_delegation policy = true ->
    Grants p pr parent -> ns_network_magic (rm_name_state p) = magic -> ns_subject (rm_name_state p) = ps ->
    az_permits_subdelegation parent = true -> d ∈ az_delegations parent -> dg_delegation_id d = did ->
    delegates (az_resource parent) r d (rm_name_state resolved) (hp_controller (he_payload e)) ->
    (exists ms w w', validate_delegation (mkDelegationContext (az_resource parent) r d action now ms) w = (Ok tt, w')) ->
    Grants resolved id (authorized resolved c e r policy
      (az_proof_chain parent ++ [LinkParentDelegation ps pr (ns_subject (rm_name_state resolved)) id did]) (dg_may_subdelegate d)
      (Z.min (az_expires_at parent) (dg_expires_at d)) (az_observations parent)).

(** The nodes of a chain, the origin first. *)
Inductive Chain : list ProofLink -> list (list byte * list byte) -> Prop :=
| chain_local s i : Chain [LinkHnsLocal s i] [(s, i)]
| chain_external s i p h : Chain [LinkExternal s i p h] [(s, i)]
| chain_parent links nodes ps pr s i d : Chain links (nodes ++ [(ps, pr)]) -> Chain (links ++ [LinkParentDelegation ps pr s i d]) ((nodes ++ [(ps, pr)]) ++ [(s, i)]).

(** *** Soundness *)
Definition within (s : Ctx) : Prop := cx_fetched_objects s <= maximum_fetched_objects limits /\ cx_fetched_bytes s <= maximum_fetched_bytes limits.
Definition keeps (s s' : Ctx) : Prop := cx_active s' = cx_active s /\ (within s -> within s').

Lemma keeps_refl s : keeps s s.
Proof. done. Qed.
Lemma keeps_trans s1 s2 s3 : keeps s1 s2 -> keeps s2 s3 -> keeps s1 s3.
Proof. intros (A1 & W1) (A2 & W2). split; [congruence|auto]. Qed.

Lemma budget_keeps s ms s' : decision_budget limits s = (Ok ms, s') -> keeps s s'.
Proof. unfold decision_budget. destruct (elapsed_millis (cx_world s)) as [t w]. by intros [= _ <-]. Qed.

Lemma deadline_keeps s u s' : check_deadline limits s = (Ok u, s') -> keeps s s'.
Proof. intros (ms & s1 & H%budget_keeps & E)%ctx_bind_Ok. by injection E as _ <-. Qed.

Lemma callback_Ok {A} (f : World -> result (list byte) A * World) wrap s a s' :
  callback f wrap s = (Ok a, s') -> keeps s s' /\ f (cx_world s) = (Ok a, cx_world s').
Proof.
  unfold callback. destruct (f (cx_world s)) as [r w] eqn:E. intros H. injection H as H <-. apply map_err_Ok in H as ->. done.
Qed.

Lemma charge_keeps usage n s u s' : charge_fetch limits usage n s = (Ok u, s') -> keeps s s'.
Proof.
  unfold charge_fetch. destruct (_ || _); [done|]. intros H. injection H as H <-. apply assert_or_Ok in H. apply negb_true_iff, orb_false_iff in H as (O & B).
  apply Z.ltb_ge in O, B. by split.
Qed.

Lemma fetch_budget_keeps s b s' : fetch_budget limits s = (Ok b, s') -> keeps s s'.
Proof.
  unfold fetch_budget. intros (o & s1 & (_ & ->)%lift_ctx_Ok & H)%ctx_bind_Ok. apply ctx_bind_Ok in H as (y & s2 & (_ & ->)%lift_ctx_Ok & H).
  apply ctx_bind_Ok in H as (? & s3 & (_ & ->)%lift_ctx_Ok & H). apply ctx_bind_Ok in H as (ms & s4 & K%budget_keeps & H). by injection H as _ <-.
Qed.

Lemma Ok_pair_inj {E A S} (a b : A) (s s' : S) : (@Ok E A a, s) = (Ok b, s') -> a = b /\ s = s'.
Proof. by intros [= -> ->]. Qed.

(** Take the next step of a successful computation apart. *)
Ltac step H a s1 K := apply ctx_bind_Ok in H; destruct H as (a & s1 & K & H).
Ltac lifted H a K := let s1 := fresh "s" in step H a s1 K; apply lift_ctx_Ok in K; destruct K as (K & ->).

Lemma find_Some {A} (f : A -> bool) l x : List.find f l = Some x -> x ∈ l /\ f x = true.
Proof. intros H. apply find_some in H as (I & E). by rewrite list_elem_of_In. Qed.

(** What one call establishes, given what the calls on the parents do. *)
Definition call_sound (call : ResolvedManifest -> list byte -> Z -> bool -> ctxM AuthorizedResource) : Prop :=
  forall resolved id depth charge s az s', call resolved id depth charge s = (Ok az, s') ->
  depth <= maximum_parent_depth limits /\ keeps s s' /\ Grants resolved id az /\
  exists nodes, Chain (az_proof_chain az) (nodes ++ [(ns_subject (rm_name_state resolved), id)]) /\
    NoDup (nodes ++ [(ns_subject (rm_name_state resolved), id)]) /\
    (forall x, x ∈ nodes ++ [(ns_subject (rm_name_state resolved), id)] -> x ∉ cx_active s) /\
    len (az_proof_chain az) <= maximum_parent_depth limits - depth + 1.

Lemma external_sound state controller r id profile hash uris ex obs s chain inherited until observations s' :
  external_origin now action limits state controller r id profile hash uris ex obs s = (Ok (chain, inherited, until, observations), s') ->
  keeps s s' /\ exists proof cache ms w w', sha256 proof = hash /\ now < cache /\
    validate_external_proof (mkExternalContext (mkResourceContext (ns_network_magic state) (ns_subject state) controller r action now ms) profile) proof w = (Ok cache, w') /\
    chain = [LinkExternal (ns_subject state) id profile hash] /\ inherited = true /\ until = Z.min ex cache /\ observations = [obs].
Proof.
  intros H. step H b s1 K1. apply fetch_budget_keeps in K1. step H f s2 K2. apply callback_Ok in K2 as (K2 & _). step H u s3 K3. apply deadline_keeps in K3.
  step H u' s4 K4. apply charge_keeps in K4. lifted H u2 E. step H ms s5 K5. apply budget_keeps in K5. step H cache s6 K6. apply callback_Ok in K6 as (K6 & V).
  step H u3 s7 K7. apply deadline_keeps in K7. lifted H u4 L. injection H as <- <- <- <- <-.
  apply assert_or_Ok, bool_decide_eq_true in E. apply assert_or_Ok, Z.ltb_lt in L. split; [eauto 10 using keeps_trans|]. by exists (fo_value f), cache, ms, (cx_world s5), (cx_world s6).
Qed.

Lemma parent_sound call state controller r id ps pr did depth ex obs s chain inherited until observations s' :
  call_sound call ->
  parent_origin magic now action limits call state controller r id ps pr did depth ex obs s = (Ok (chain, inherited, until, observations), s') ->
  keeps s s' /\ exists p parent d nodes ms w w',
    Grants p pr parent /\ ns_network_magic (rm_name_state p) = magic /\ ns_subject (rm_name_state p) = ps /\ az_permits_subdelegation parent = true /\
    d ∈ az_delegations parent /\ dg_delegation_id d = did /\ delegates (az_resource parent) r d state controller /\
    validate_delegation (mkDelegationContext (az_resource parent) r d action now ms) w = (Ok tt, w') /\
    Chain (az_proof_chain parent) (nodes ++ [(ps, pr)]) /\ NoDup (nodes ++ [(ps, pr)]) /\ (forall x, x ∈ nodes ++ [(ps, pr)] -> x ∉ cx_active s) /\
    len (az_proof_chain parent) <= maximum_parent_depth limits - depth /\
    chain = az_proof_chain parent ++ [LinkParentDelegation ps pr (ns_subject state) id did] /\ inherited = dg_may_subdelegate d /\
    until = Z.min (Z.min ex (az_expires_at parent)) (dg_expires_at d) /\ observations = obs :: az_observations parent.
Proof.
  intros Call H. step H b s1 K1. apply fetch_budget_keeps in K1. step H f s2 K2. apply callback_Ok in K2 as (K2 & _). step H u s3 K3. apply deadline_keeps in K3.
  step H u' s4 K4. apply charge_keeps in K4. lifted H u2 E. step H parent s5 K5. lifted H u3 P. lifted H d D. lifted H u4 B. destruct u4. apply child_binding_Ok in B.
  step H ms s6 K6. apply budget_keeps in K6. step H u5 s7 K7. apply callback_Ok in K7 as (K7 & V). destruct u5. step H u6 s8 K8. apply deadline_keeps in K8.
  injection H as <- <- <- <- <-. apply assert_or_Ok, andb_true_iff in E as (E1%Z.eqb_eq & E2%bool_decide_eq_true). apply assert_or_Ok in P.
  apply ok_or_Ok, find_Some in D as (D1 & D2%bool_decide_eq_true). apply Call in K5 as (_ & K5 & G & nodes & C & N & A & L). rewrite E2 in C, N, A.
  assert (keeps s s4) as K04 by eauto using keeps_trans. split; [eauto 10 using keeps_trans|].
  exists (fo_value f), parent, d, nodes, ms, (cx_world s6), (cx_world s7). destruct K04 as (A4 & _). rewrite A4 in A. split_and!; try done. lia.
Qed.

Lemma inner_sound call resolved id depth charge s az s' :
  call_sound call -> depth <= maximum_parent_depth limits -> (ns_subject (rm_name_state resolved), id) ∈ cx_active s ->
  authorize_inner magic now action limits previous call resolved id depth charge s = (Ok az, s') ->
  keeps s s' /\ Grants resolved id az /\
  exists nodes, Chain (az_proof_chain az) (nodes ++ [(ns_subject (rm_name_state resolved), id)]) /\
    NoDup (nodes ++ [(ns_subject (rm_name_state resolved), id)]) /\ (forall x, x ∈ nodes -> x ∉ cx_active s) /\
    len (az_proof_chain az) <= maximum_parent_depth limits - depth + 1.
Proof.
  intros Call Dp Act H. step H u0 s1 K0. assert (keeps s s1) as K1 by (destruct charge; [by apply charge_keeps in K0|by injection K0 as _ <-]). clear K0.
  lifted H u1 US. lifted H c SC. step H u2 s2 K2. apply deadline_keeps in K2. lifted H u3 EH. lifted H e ED. lifted H u4 VC. step H u5 s3 K3. apply deadline_keeps in K3.
  lifted H u6 RB. lifted H r FR. lifted H u7 TA. step H ms s4 K4. apply budget_keeps in K4. step H policy s5 K5. apply callback_Ok in K5 as (K5 & VR).
  step H u8 s6 K6. apply deadline_keeps in K6. lifted H u9 CU. step H o s7 OR. destruct o as [[[chain inherited] until] observations]. apply Ok_pair_inj in H as (<- & <-).
  assert (keeps s s6) as K06 by eauto 10 using keeps_trans. destruct u4, u6. apply map_err_Ok in SC, ED, VC.
  apply assert_or_Ok in US, EH, TA, CU. apply negb_true_iff in US. apply bool_decide_eq_true in EH. apply Z.ltb_lt in CU. apply ok_or_Ok, find_Some in FR as (FR & FI%bool_decide_eq_true).
  apply andb_true_iff in TA as (TA1%Z.leb_le & TA2%Z.ltb_lt).
  assert (resource_current resolved id c e r policy) as RC by (split; [by split|]; repeat split; eauto).
  set (key := (ns_subject (rm_name_state resolved), id)) in *. assert (NoDup ([] ++ [key])) as N1 by (constructor; [apply not_elem_of_nil|constructor]).
  set (ex := Z.min (Z.min (hp_expires_at (he_payload e)) (rs_expires_at r)) (rp_cache_until policy)) in *.
  unfold resource_origin in OR. destruct (rs_authority r) as [|profile hash uris|ps pr did] eqn:AU.
  - lifted OR u P. injection OR as <- <- <- <- <-. apply assert_or_Ok in P. split; [done|]. split.
    + replace ex with (Z.min ex (hp_expires_at (he_payload e))) by lia. by apply grants_local.
    + exists []. split; [constructor|]. split; [done|]. split; [by intros x X%elem_of_nil|]. cbn [az_proof_chain]. rewrite len_cons, len_nil. lia.
  - lifted OR u P. apply assert_or_Ok in P. apply external_sound in OR as (K7 & proof & cache & ms' & w & w' & SH & NC & VX & -> & -> & -> & ->).
    split; [by apply (keeps_trans s s6)|]. split; [eapply grants_external; eauto|]. exists []. split; [constructor|]. split; [done|].
    split; [by intros x X%elem_of_nil|]. cbn [az_proof_chain]. rewrite len_cons, len_nil. lia.
  - lifted OR u P. apply assert_or_Ok in P.
    apply parent_sound in OR as (K7 & p & parent & d & nodes & ms' & w & w' & G & Em & Es & Sub & Di & De & CB & VD & C & N & A & L & -> & -> & -> & ->); [|done].
    split; [by apply (keeps_trans s s6)|]. split; [rewrite <- Z.min_assoc; eapply grants_parent; eauto|].
    exists (nodes ++ [(ps, pr)]). split; [by apply chain_parent|]. destruct K06 as (A6 & _). rewrite A6 in A. split; [|split; [done|]].
    + apply NoDup_app. split; [done|]. split; [|done]. intros x X ->%list_elem_of_singleton. by apply (A _ X).
    + cbn [az_proof_chain]. rewrite len_app, len_cons, len_nil. lia.
Qed.

Lemma authorize_sound n : call_sound (authorize magic now action limits previous n).
Proof.
  induction n as [|n IH]; intros resolved id depth charge s az s' H; cbn [authorize] in H; [done|].
  step H u s1 K1. apply deadline_keeps in K1. lifted H u1 D. apply assert_or_Ok, Z.leb_le in D. unfold with_active in H.
  case_bool_decide as A; [done|]. destruct (authorize_inner _ _ _ _ _ _ _ _ _ _ _) as [r s2] eqn:I. step H u2 s3 K3. apply lift_ctx_Ok in H as (-> & ->). apply deadline_keeps in K3.
  set (key := (ns_subject (rm_name_state resolved), id)) in *. assert (key ∈ cx_active (set_active (fun active => {[key]} ∪ active) s1)) as KA by (unfold set_active; cbn [cx_active]; set_solver).
  apply inner_sound in I as ((A2 & W2) & G & nodes & C & N & Dj & L); [|done|done|done].
  destruct K1 as (A1 & W1), K3 as (A3 & W3). cbn [cx_active set_active] in A2, A3, Dj. split; [done|]. split; [split|].
  - rewrite A3, A2, <- A1. set_solver.
  - intros W. apply W3, W2, W1, W.
  - split; [done|]. exists nodes. split; [done|]. split; [done|]. split; [|done]. rewrite <- A1. intros x [X| ->%list_elem_of_singleton]%elem_of_app; [|done].
    intros I. apply (Dj x X). set_solver.
Qed.

(** *** Consequences *)
Lemma current_until resolved c e : manifest_current resolved c e -> now < hp_expires_at (he_payload e) <= u64_max.
Proof.
  intros (_ & _ & _ & D & V & _). apply hrm_decode_Ok in D as ((T & _) & _). apply context_Ok in V as (_ & _ & _ & _ & _ & W & _).
  pose proof (pt_expires _ T) as U. unfold u64, saturating_add, saturating_sub, u64_max in *. lia.
Qed.

Lemma current_observed resolved c e : manifest_current resolved c e ->
  let o := rollback_observation (rm_name_state resolved) c in exists accepted, rollback_allowed previous (rb_network_magic o, rb_subject o) o accepted = Ok tt.
Proof. intros (_ & _ & _ & _ & _ & R). by eexists. Qed.

Lemma grants_window resolved id az : Grants resolved id az ->
  now < az_expires_at az <= u64_max /\ az_expires_at az <= rs_expires_at (az_resource az) /\
  Forall (fun o => exists accepted, rollback_allowed previous (rb_network_magic o, rb_subject o) o accepted = Ok tt) (az_observations az).
Proof.
  induction 1 as [resolved id c e r policy (MC & _ & _ & T & CU & _)|resolved id c e r policy pf h us proof until (MC & _ & _ & T & CU & _) _ _ _ Lt
    |resolved id c e r policy ps pr did p parent d (MC & _ & _ & T & CU & _) _ _ G (W & _ & O) _ _ _ _ _ CB];
    pose proof (current_until _ _ _ MC); pose proof (current_observed _ _ _ MC); unfold authorized; cbn [az_expires_at az_resource az_observations].
  - split; [lia|]. split; [lia|]. by repeat constructor.
  - split; [lia|]. split; [lia|]. by repeat constructor.
  - pose proof (del_now _ _ _ _ _ CB) as (_ & L). split; [lia|]. split; [lia|]. by constructor.
Qed.

Lemma chain_nonempty links nodes : Chain links nodes -> 1 <= len links.
Proof. intros [| |l n ps pr s i d _]; try done. rewrite len_app, len_cons, len_nil. pose proof (len_nonneg l). lia. Qed.

Record limits_typed : Prop := {
  lt_depth : u64 (maximum_parent_depth limits);
  lt_objects : u64 (maximum_fetched_objects limits);
  lt_bytes : u64 (maximum_fetched_bytes limits);
  lt_cache : u64 (maximum_cache_lifetime limits);
}.

(** What a granted authorization rests on. *)
Lemma authorization_grants root subject id w a :
  validate_authorization magic now action limits previous root subject id w = Ok a ->
  exists az, Grants root id az /\ ns_subject (rm_name_state root) = subject /\ va_proof_chain a = az_proof_chain az /\ va_current_snapshot a = az_snapshot az.
Proof.
  intros H. do 2 (apply bind_Ok in H as (? & _ & H)). apply bind_Ok in H as (? & S%assert_or_Ok%bool_decide_eq_true & H).
  match type of H with (let '(_, _) := ?x in _) = _ => destruct x as [r s'] eqn:R end. apply bind_Ok in H as (az & -> & H). apply Ok_inj in H as <-.
  step R az' s1 K1. step R u s2 K2. injection R as -> <-. apply authorize_sound in K1 as (_ & _ & G & _). by exists az.
Qed.

(** C8. An authorization is sound: it is granted by a chain of authority that starts
    at a name's own resource or at an accepted external proof and goes down by
    delegations, each in a current, committed and signed manifest, each for this
    action and in its window; no name and resource occurs twice in the chain, which
    is no longer than the depth limit allows; the retrieval budgets are kept; it is
    valid now and expires no later than anything it rests on; and every reported
    observation passed the rollback rule against the persisted one. *)
Theorem authorization_sound root subject id w a :
  limits_typed -> validate_authorization magic now action limits previous root subject id w = Ok a ->
  exists az nodes, Grants root id az /\ ns_subject (rm_name_state root) = subject /\ 1 <= len action <= 128 /\
    va_proof_chain a = az_proof_chain az /\ Chain (va_proof_chain a) (nodes ++ [(subject, id)]) /\ NoDup (nodes ++ [(subject, id)]) /\
    1 <= len (va_proof_chain a) <= maximum_parent_depth limits + 1 /\
    va_fetched_objects a <= maximum_fetched_objects limits /\ va_fetched_bytes a <= maximum_fetched_bytes limits /\
    now < va_expires_at a <= Z.min (az_expires_at az) (now + maximum_cache_lifetime limits) /\
    Forall (fun o => exists accepted, rollback_allowed previous (rb_network_magic o, rb_subject o) o accepted = Ok tt) (va_rollback_observations a) /\
    va_action a = action /\ va_profile a = rs_profile (az_resource az) /\ va_current_snapshot a = az_snapshot az.
Proof.
  intros [D O B C] H. apply bind_Ok in H as (? & VL & H). apply bind_Ok in H as (? & VA%assert_or_Ok & H). apply bind_Ok in H as (? & S%assert_or_Ok & H).
  apply bool_decide_eq_true in S. rewrite negb_true_iff, !orb_false_iff, Z.eqb_neq, Z.ltb_ge in VA. destruct VA as ((A1 & A2) & _).
  apply bind_Ok in VL as (? & _ & VL%assert_or_Ok). rewrite negb_true_iff, !orb_false_iff, !Z.eqb_neq in VL. destruct VL as (((_ & _) & C0) & _).
  match type of H with (let '(_, _) := ?x in _) = _ => destruct x as [r s'] eqn:R end. apply bind_Ok in H as (az & -> & H). apply Ok_inj in H as <-.
  step R az' s1 K1. step R u s2 K2. injection R as -> <-. apply deadline_keeps in K2. apply authorize_sound in K1 as (_ & K1 & G & nodes & Ch & N & _ & L). rewrite S in Ch, N.
  destruct (keeps_trans _ _ _ K1 K2) as (_ & W). destruct W as (W1 & W2); [split; cbn; [apply O|apply B]|]. destruct (grants_window _ _ _ G) as (X & _ & Ob).
  exists az, nodes. cbn. pose proof (len_nonneg action). pose proof (chain_nonempty _ _ Ch). unfold saturating_add, u64, u64_max in *.
  repeat split; try done; lia.
Qed.

(** C30. The walk always ends within the depth limit: more levels of recursion than
    [validate_authorization] allows change nothing, at any depth it can reach. *)
Theorem authorization_terminates root id charge s n :
  (LEVELS limits <= n)%nat ->
  authorize magic now action limits previous n root id 0 charge s = authorize magic now action limits previous (LEVELS limits) root id 0 charge s.
Proof.
  intros L. unfold LEVELS in *. destruct (Z.leb_spec 0 (maximum_parent_depth limits)).
  - apply levels_enough; lia.
  - destruct n as [|n]; [lia|]. cbn [authorize]. apply ctx_bind_ext; [done|intros ? ?]. rewrite (proj2 (Z.leb_gt _ _)) by lia.
    cbn [assert_or]. by rewrite !lift_Err_bind.
Qed.

(** [validate_current_manifest] succeeds exactly for the current manifest of the
    expected name: the name state is usable on the network, its selected commitment
    is to these bytes, they decode to a manifest its controller signed for this
    name, sequence and time, both clock readings are before the deadline, and the
    observation may follow the persisted one. The result then reports that
    manifest, its expiry cut by the cache limit. *)
Theorem current_manifest_exact root subject w m :
  validate_current_manifest root magic subject now limits previous w = Ok m <->
  exists c e, let state := rm_name_state root in let '(t1, w1) := elapsed_millis w in let '(t2, _) := elapsed_millis w1 in
    ValidationLimits_validate limits = Ok tt /\ ns_subject state = subject /\ len (rm_envelope root) <= maximum_fetched_bytes limits /\
    manifest_current root c e /\ t1 < maximum_validation_milliseconds limits /\ t2 < maximum_validation_milliseconds limits /\
    m = mkCurrentManifest magic subject (Z.min (hp_expires_at (he_payload e)) (saturating_add u64_max now (maximum_cache_lifetime limits)))
          (rollback_observation state c) 1 (len (rm_envelope root)) (snapshot now c (he_payload e) (rollback_observation state c) state).
Proof.
  unfold validate_current_manifest, manifest_current. destruct (elapsed_millis w) as [t1 w1]. destruct (elapsed_millis w1) as [t2 w2]. split.
  - intros H. apply bind_Ok in H as ([] & VL & H). apply bind_Ok in H as (? & S%assert_or_Ok & H). apply bind_Ok in H as (? & L%assert_or_Ok & H).
    apply bind_Ok in H as (? & U%assert_or_Ok & H). apply bind_Ok in H as (c & SC%map_err_Ok & H). apply bind_Ok in H as (? & T1%assert_or_Ok & H).
    apply bind_Ok in H as (? & E%assert_or_Ok & H). apply bind_Ok in H as (e & D%map_err_Ok & H). apply bind_Ok in H as ([] & V%map_err_Ok & H).
    apply bind_Ok in H as (? & T2%assert_or_Ok & H). apply bind_Ok in H as ([] & R & H). apply Ok_inj in H as <-.
    apply bool_decide_eq_true in S, E. apply Z.leb_le in L. apply Z.ltb_lt in T1, T2. apply negb_true_iff in U.
    assert (ns_network_magic (rm_name_state root) = magic) as M.
    { unfold unusable_state in U. rewrite !orb_false_iff, negb_false_iff, Z.eqb_eq in U. apply U. }
    exists c, e. rewrite <- S, <- M in V, R. by repeat split.
  - intros (c & e & VL & S & L & (U & SC & E & D & V & R) & T1 & T2 & ->). assert (ns_network_magic (rm_name_state root) = magic) as M.
    { unfold unusable_state in U. rewrite !orb_false_iff, negb_false_iff, Z.eqb_eq in U. apply U. }
    rewrite S, M in V, R. apply bind_Ok. exists tt. split; [done|]. apply bind_Ok. exists tt. split; [by apply assert_or_Ok, bool_decide_eq_true|].
    apply bind_Ok. exists tt. split; [by apply assert_or_Ok, Z.leb_le|]. apply bind_Ok. exists tt. split; [apply assert_or_Ok; by rewrite U|].
    apply bind_Ok. exists c. split; [by apply map_err_Ok|]. apply bind_Ok. exists tt. split; [by apply assert_or_Ok, Z.ltb_lt|].
    apply bind_Ok. exists tt. split; [by apply assert_or_Ok, bool_decide_eq_true|]. apply bind_Ok. exists e. split; [by apply map_err_Ok|].
    apply bind_Ok. exists tt. split; [by apply map_err_Ok|]. apply bind_Ok. exists tt. split; [by apply assert_or_Ok, Z.ltb_lt|].
    apply bind_Ok. by exists tt.
Qed.
End walk_proofs.

(** ** A delegation, with a clock that ticks *)
Definition sample_subject (b : byte) : list byte := replicate 32 b.
Definition child_controller : Controller := mkController 1 (x02 :: x09 :: zeros 31).
Definition sample_profile : list byte := bstr "hns.named-service/v1".

Definition parent_payload : Payload :=
  mkPayload 1 (sample_subject x01) 7 1000 9000 sample_controller
    [mkResourceEntry sample_profile (sample_subject x11) [x01] HnsLocal 1000 8000 None]
    [mkHrmDelegation (sample_subject x33) (sample_subject x11) sample_profile (sample_subject x22) [x02] (sample_subject x02)
       child_controller [bstr "publish"] 2000 7000 true None] None.
Definition child_payload : Payload :=
  mkPayload 1 (sample_subject x02) 3 1500 9500 child_controller
    [mkResourceEntry sample_profile (sample_subject x22) [x02] (ParentDelegation (sample_subject x01) (sample_subject x11) (sample_subject x33)) 2000 6000 None]
    [] None.

Definition resolved_for (p : Payload) (private_key : list byte) : ResolvedManifest :=
  let bytes := match @HrmEnvelope_sign toy_crypto toy_k256 toy_codec p 0xae3895cf private_key with
               | Ok e => match @HrmEnvelope_encode toy_k256 toy_codec e with Ok bs => bs | Err _ => [] end
               | Err _ => []
               end in
  mkResolved (mkNameState 0xae3895cf (hp_subject p) true false false true 10 (zeros 32) (zeros 32) None
    [@commitment_strings plain_base64 (mkCommitment (hp_sequence p) (@sha256 toy_digests bytes) [bstr "https://a.test/m"] [])]) bytes.

Definition toy_adapters : HrmAdapters := {|
  World := Z;
  elapsed_millis := fun t => (t, t + 1);
  resolve_current := fun s _ t => let m := resolved_for parent_payload [x07] in (Ok (mkFetchOutcome m (mkFetchUsage 1 (len (rm_envelope m)))), t);
  fetch_proof := fun _ _ _ _ t => (Err [], t);
  validate_resource := fun _ t => (Ok (mkResourcePolicy true false true true 5000), t);
  validate_external_proof := fun _ _ t => (Err [], t);
  validate_delegation := fun _ t => (Ok tt, t);
|}.

Definition sample_authorization_result : result ValidationError ValidatedAuthorization :=
  @validate_authorization toy_crypto toy_digests toy_k256 toy_codec plain_base64 toy_adapters 0xae3895cf 3000 (bstr "publish") ValidationLimits_default ∅
    (resolved_for child_payload [x09]) (sample_subject x02) (sample_subject x22) (0 : @World toy_adapters).

Example sample_authorized :
  match sample_authorization_result with
  | Ok a => (va_proof_chain a, va_expires_at a, va_fetched_objects a) =
      ([LinkHnsLocal (sample_subject x01) (sample_subject x11);
        LinkParentDelegation (sample_subject x01) (sample_subject x11) (sample_subject x02) (sample_subject x22) (sample_subject x33)], 5000, 2)
  | Err _ => False
  end.
Proof. vm_compute. reflexivity. Qed.

Lemma authorization_sound_witness : exists a, sample_authorization_result = Ok a /\ 3000 < va_expires_at a.
Proof.
  assert (is_ok sample_authorization_result = true) as H by (vm_compute; reflexivity). destruct sample_authorization_result as [a|] eqn:E; [|discriminate H].
  exists a. split; [reflexivity|]. unfold sample_authorization_result in E.
  destruct (@authorization_sound toy_crypto toy_digests toy_k256 toy_codec plain_base64 toy_adapters 0xae3895cf 3000 (bstr "publish") ValidationLimits_default ∅
    (resolved_for child_payload [x09]) (sample_subject x02) (sample_subject x22) (0 : @World toy_adapters) a) as (az & nodes & _ & _ & _ & _ & _ & _ & _ & _ & _ & W & _); [|exact E|lia].
  split; vm_compute; split; discriminate.
Defined.

Lemma authorization_terminates_witness :
  fst (@authorize toy_crypto toy_digests toy_k256 toy_codec plain_base64 toy_adapters 0xae3895cf 3000 (bstr "publish") ValidationLimits_default ∅ 40
         (resolved_for child_payload [x09]) (sample_subject x44) 0 true (mkCtx 0 0 ∅ (0 : @World toy_adapters))) = Err VMissingResource.
Proof.
  rewrite (@authorization_terminates toy_crypto toy_digests toy_k256 toy_codec plain_base64 toy_adapters); [vm_compute; reflexivity|].
  change (LEVELS ValidationLimits_default) with 18%nat. lia.
Defined.

Definition sample_observation (n : Z) : RollbackState := mkRollbackState 1 (zeros 32) n (zeros 32) n (zeros 32) (zeros 32).
Lemma rollback_exact_witness : validate_rollback (sample_observation 3) (sample_observation 7) None = Ok tt.
Proof. apply (proj2 rollback_exact (sample_observation 3) (sample_observation 5) (sample_observation 7)); vm_compute; reflexivity. Defined.
