(* ===== verification/Hnsa.v ===== *)
(** * hns-service-authority: named services under an HRM manifest

    Models [crates/hns-service-authority/src/hrm.rs]: the identity of a named
    service, its resource and its controller delegation inside a manifest, the
    observation of a validated manifest with the generation high-water mark that
    guards it, and the endpoint delegations the service controller signs. The HRM
    manifest it observes is [HrmValidation]'s; SHA-256, BLAKE2b, secp256k1 and DER
    are the classes of the other components. *)

From stdpp Require Import relations.
From S2P Require Import Prelude Encoding Primitives Covenants Transaction Script Interpreter K256 Cbor Text HrmUri BTree ServiceAuthority HrmModel HrmCommitment HrmValidation.
Local Open Scope Z_scope.

Definition NAMED_SERVICE_PROFILE : list byte := bstr "hns.named-service/v1".
Definition OPERATE_ACTION : list byte := bstr "operate".
Definition DELEGATE_ENDPOINT : list byte := bstr "delegate-endpoint".
Definition HNSA_VERSION : Z := 1.
Definition HNSA_MAX_SERVICE_NAME : Z := 63.
Definition MIN_SERVICE_ENDPOINT_LIFETIME : Z := 300.
Definition MAX_SERVICE_ENDPOINT_LIFETIME : Z := 604800.
Definition HNSA_MAX_ENDPOINT_DELEGATION_SIZE : Z := 320.
Definition MAX_ENDPOINT_SIGNATURE_SIZE : Z := 80.
Definition HNSA_MAX_ENDPOINT_DELEGATION_CANDIDATES : Z := 32.
Definition SERVICE_GENERATION_OBSERVATION_VERSION : Z := 1.
Definition SERVICE_GENERATION_OBSERVATION_SIZE : Z := 258.
Definition SERVICE_GENERATION_OBSERVATION_PAYLOAD_SIZE : Z := SERVICE_GENERATION_OBSERVATION_SIZE - 32.

Definition RESOURCE_ID_DOMAIN : list byte := bstr "HNS-HRM-NAMED-SERVICE-ID-V1" ++ [x00].
Definition SERVICE_DELEGATION_ID_DOMAIN : list byte := bstr "HNS-HRM-NAMED-SERVICE-DELEGATION-ID-V1" ++ [x00].
Definition ENDPOINT_SIGNATURE_DOMAIN : list byte := bstr "HNS-HRM-HNSA-ENDPOINT-DELEGATION-V1" ++ [x00].
Definition ENDPOINT_ID_DOMAIN : list byte := bstr "HNS-HRM-HNSA-ENDPOINT-DELEGATION-ID-V1" ++ [x00].
Definition SERVICE_GENERATION_OBSERVATION_MAGIC : list byte := bstr "HNSASGO" ++ [x00].
Definition SERVICE_GENERATION_OBSERVATION_CHECKSUM_DOMAIN : list byte := bstr "HNS-HRM-HNSA-SERVICE-GENERATION-OBSERVATION-V1" ++ [x00].

Inductive HnsaError :=
| HnsaDecode (e : DecodeError)
| HnsaHrm (e : HrmModelError)
| HnsaInvalid (what : string)
| HnsaWithdrawn
| HnsaAmbiguous
| GenerationRollback
| GenerationConflict
| MissingEndpoint
| EndpointSequenceConflict
| HnsaCryptography.

(** ** CBOR fields *)
Definition hnsa_validate_service_name (name : list byte) : result HnsaError unit :=
  assert_or (negb (negb ((1 <=? len name) && (len name <=? HNSA_MAX_SERVICE_NAME)) ||
                   bool_decide (head name = Some x2d) || bool_decide (last name = Some x2d) ||
                   negb (forallb (fun b => is_ascii_lowercase b || is_ascii_digit b || bool_decide (b = x2d)) name)))
    (HnsaInvalid "noncanonical named-service name").

(** [fields.windows(2).any(|pair| pair[0].0 >= pair[1].0)] *)
Fixpoint unordered_pair (fields : list (Z * Value)) : bool :=
  match fields with
  | (a, _) :: (((b, _) :: _) as rest) => (b <=? a) || unordered_pair rest
  | _ => false
  end.
Definition validate_ordered_map (fields : list (Z * Value)) (message : string) : result HnsaError unit :=
  assert_or (negb (unordered_pair fields)) (HnsaInvalid message).

Definition value_u64 (value : Value) (message : string) : result HnsaError Z :=
  match value with VUnsigned n => Ok n | _ => Err (HnsaInvalid message) end.
Definition value_u32 (value : Value) (message : string) : result HnsaError Z :=
  n ← value_u64 value message; assert_or (n <=? u32_max) (HnsaInvalid message) ;; Ok n.
Definition value_u16 (value : Value) (message : string) : result HnsaError Z :=
  n ← value_u64 value message; assert_or (n <=? u16_max) (HnsaInvalid message) ;; Ok n.
Definition value_array (n : Z) (value : Value) (message : string) : result HnsaError (list byte) :=
  match value with
  | VBytes bytes => assert_or (len bytes =? n) (HnsaInvalid message) ;; Ok bytes
  | _ => Err (HnsaInvalid message)
  end.
Definition value_text (value : Value) (message : string) : result HnsaError (list byte) :=
  match value with VText text => Ok text | _ => Err (HnsaInvalid message) end.

(** ** Identities *)
Record NamedServiceIdentity := mkNamedService {
  ni_network_magic : Z;
  ni_name_hash : list byte;
  ni_service_name : list byte;
  ni_application_profile_id : Z;
}.
#[global] Instance NamedServiceIdentity_eq_dec : EqDecision NamedServiceIdentity.
Proof. solve_decision. Defined.

Definition NamedServiceIdentity_validate (i : NamedServiceIdentity) : result HnsaError unit :=
  hnsa_validate_service_name (ni_service_name i) ;;
  assert_or (negb (ni_application_profile_id i =? 0)) (HnsaInvalid "application profile ID zero is invalid").

Definition NamedServiceIdentity_new (network_magic : Z) (name_hash service_name : list byte) (application_profile_id : Z)
    : result HnsaError NamedServiceIdentity :=
  let i := mkNamedService network_magic name_hash service_name application_profile_id in
  NamedServiceIdentity_validate i ;; Ok i.

Definition identity_value (i : NamedServiceIdentity) : Value :=
  VMap [(0, VUnsigned (ni_network_magic i)); (1, VBytes (ni_name_hash i)); (2, VText (ni_service_name i));
        (3, VUnsigned (ni_application_profile_id i))].

Definition canonical_identifier (i : NamedServiceIdentity) : result HnsaError (list byte) :=
  NamedServiceIdentity_validate i ;;
  map_err (fun _ => HnsaInvalid "named-service identifier exceeds CBOR limits") (encode_canonical (identity_value i)).

Definition identifier_limits : DecodeLimits := mkLimits 2 9 160 0 4 HNSA_MAX_SERVICE_NAME.

Definition decode_identifier (input : list byte) : result HnsaError NamedServiceIdentity :=
  value ← map_err (fun _ => HnsaInvalid "invalid named-service identifier CBOR") (decode_canonical input identifier_limits);
  match value with
  | VMap [(k0, v0); (k1, v1); (k2, v2); (k3, v3)] =>
    assert_or ((k0 =? 0) && (k1 =? 1) && (k2 =? 2) && (k3 =? 3)) (HnsaInvalid "invalid named-service identifier fields") ;;
    network_magic ← value_u32 v0 "invalid named-service network";
    name_hash ← value_array 32 v1 "invalid named-service name hash";
    service_name ← value_text v2 "invalid named-service name";
    application_profile_id ← value_u16 v3 "invalid named-service application profile";
    let i := mkNamedService network_magic name_hash service_name application_profile_id in
    NamedServiceIdentity_validate i ;;
    identifier ← canonical_identifier i;
    assert_or (bool_decide (identifier = input)) (HnsaInvalid "noncanonical named-service identifier") ;;
    Ok i
  | VMap _ => Err (HnsaInvalid "invalid named-service identifier fields")
  | _ => Err (HnsaInvalid "named-service identifier is not a map")
  end.

(** ** The application's policy *)
Record NamedServicePolicy := mkServicePolicy {
  np_application_profile_id : Z;
  np_allowed_profile_flags : Z;
  np_required_profile_flags : Z;
  np_expected_profile_constraints_hash : list byte;
  np_allowed_endpoint_capabilities : Z;
  np_required_endpoint_capabilities : Z;
  np_expected_endpoint_constraints_hash : list byte;
  np_maximum_endpoint_lifetime : Z;
}.

Definition NamedServicePolicy_validate (p : NamedServicePolicy) : result HnsaError unit :=
  assert_or (negb (np_application_profile_id p =? 0)) (HnsaInvalid "application profile ID zero is invalid") ;;
  assert_or (Z.land (np_required_profile_flags p) (u16_max - np_allowed_profile_flags p) =? 0)
    (HnsaInvalid "required service flags are not allowed") ;;
  assert_or (Z.land (np_required_endpoint_capabilities p) (u32_max - np_allowed_endpoint_capabilities p) =? 0)
    (HnsaInvalid "required endpoint capabilities are not allowed") ;;
  assert_or (negb ((np_maximum_endpoint_lifetime p =? 0) || (MAX_SERVICE_ENDPOINT_LIFETIME <? np_maximum_endpoint_lifetime p)))
    (HnsaInvalid "invalid application endpoint lifetime limit").

(** ** Attributes of the resource, constraints of the delegation *)
Record NamedServiceAttributes := mkServiceAttributes {
  na_profile_flags : Z;
  na_profile_constraints_hash : list byte;
  na_presentation : option (list (Z * Value));
}.

Definition NamedServiceAttributes_to_hrm_map (a : NamedServiceAttributes) : result HnsaError (list (Z * Value)) :=
  let fields := [(0, VUnsigned (na_profile_flags a)); (1, VBytes (na_profile_constraints_hash a))] in
  match na_presentation a with
  | Some presentation =>
    validate_ordered_map presentation "invalid presentation map" ;;
    Ok (fields ++ [(2, VMap presentation)])
  | None => Ok fields
  end.

Definition NamedServiceAttributes_from_resource (r : ResourceEntry) : result HnsaError NamedServiceAttributes :=
  fields ← ok_or (rs_attributes r) (HnsaInvalid "named-service attributes are required");
  match fields with
  | (k0, v0) :: (k1, v1) :: others =>
    assert_or (negb ((1 <? len others) || negb (k0 =? 0) || negb (k1 =? 1) ||
                     match head others with Some (k2, _) => negb (k2 =? 2) | None => false end))
      (HnsaInvalid "invalid named-service attribute fields") ;;
    profile_flags ← value_u16 v0 "invalid named-service profile flags";
    profile_constraints_hash ← value_array 32 v1 "invalid named-service profile constraints hash";
    presentation ← match head others with
                   | None => Ok None
                   | Some (_, VMap fields) => validate_ordered_map fields "invalid presentation map" ;; Ok (Some fields)
                   | Some _ => Err (HnsaInvalid "presentation is not a map")
                   end;
    Ok (mkServiceAttributes profile_flags profile_constraints_hash presentation)
  | _ => Err (HnsaInvalid "invalid named-service attribute fields")
  end.

Record ServiceDelegationConstraints := mkConstraints {
  sc_service_generation : Z;
  sc_max_endpoint_lifetime : Z;
  sc_allowed_endpoint_capabilities : Z;
  sc_endpoint_constraints_hash : list byte;
}.

Definition ServiceDelegationConstraints_validate (c : ServiceDelegationConstraints) : result HnsaError unit :=
  assert_or (negb (sc_service_generation c =? 0)) (HnsaInvalid "service generation must be nonzero") ;;
  assert_or ((MIN_SERVICE_ENDPOINT_LIFETIME <=? sc_max_endpoint_lifetime c) && (sc_max_endpoint_lifetime c <=? MAX_SERVICE_ENDPOINT_LIFETIME))
    (HnsaInvalid "invalid maximum endpoint lifetime").

Definition ServiceDelegationConstraints_to_hrm_map (c : ServiceDelegationConstraints) : result HnsaError (list (Z * Value)) :=
  ServiceDelegationConstraints_validate c ;;
  Ok [(0, VUnsigned (sc_service_generation c)); (1, VUnsigned (sc_max_endpoint_lifetime c));
      (2, VUnsigned (sc_allowed_endpoint_capabilities c)); (3, VBytes (sc_endpoint_constraints_hash c))].

Definition ServiceDelegationConstraints_from_delegation (d : Delegation) : result HnsaError ServiceDelegationConstraints :=
  fields ← ok_or (dg_constraints d) (HnsaInvalid "service delegation constraints are required");
  match fields with
  | [(k0, v0); (k1, v1); (k2, v2); (k3, v3)] =>
    assert_or ((k0 =? 0) && (k1 =? 1) && (k2 =? 2) && (k3 =? 3)) (HnsaInvalid "invalid service delegation constraint fields") ;;
    service_generation ← value_u64 v0 "invalid service delegation generation";
    max_endpoint_lifetime ← value_u32 v1 "invalid maximum endpoint lifetime";
    allowed_endpoint_capabilities ← value_u32 v2 "invalid endpoint capability mask";
    endpoint_constraints_hash ← value_array 32 v3 "invalid endpoint constraints hash";
    let c := mkConstraints service_generation max_endpoint_lifetime allowed_endpoint_capabilities endpoint_constraints_hash in
    ServiceDelegationConstraints_validate c ;;
    Ok c
  | _ => Err (HnsaInvalid "invalid service delegation constraint fields")
  end.

(** ** Observations *)
Record ServiceGenerationObservation := mkObservation {
  go_network_magic : Z;
  go_subject : list byte;
  go_resource_id : list byte;
  go_highest_generation : Z;
  go_high_water_delegation_id : list byte;
  go_active_delegation_id : option (list byte);
  go_hrm_sequence : Z;
  go_hrm_envelope_hash : list byte;
  go_rollback_state : RollbackState;
}.
Definition ServiceGenerationObservation_key (o : ServiceGenerationObservation) : Z * list byte * list byte :=
  (go_network_magic o, go_subject o, go_resource_id o).
Definition is_withdrawn (o : ServiceGenerationObservation) : bool := negb (bool_decide (is_Some (go_active_delegation_id o))).

Definition validate_observation (o : ServiceGenerationObservation) : result HnsaError unit :=
  let r := go_rollback_state o in
  assert_or (negb (negb (rb_network_magic r =? go_network_magic o) || negb (bool_decide (rb_subject r = go_subject o)) ||
                   negb (rb_sequence r =? go_hrm_sequence o) || negb (bool_decide (rb_envelope_hash r = go_hrm_envelope_hash o)) ||
                   ((go_highest_generation o =? 0) &&
                    (negb (bool_decide (go_high_water_delegation_id o = zeros 32)) || bool_decide (is_Some (go_active_delegation_id o)))) ||
                   match go_active_delegation_id o with Some id => negb (bool_decide (id = go_high_water_delegation_id o)) | None => false end))
    (HnsaInvalid "invalid service-generation observation").

Definition validate_previous (previous : option ServiceGenerationObservation) (identity : NamedServiceIdentity) (resource_id : list byte)
    : result HnsaError unit :=
  match previous with
  | Some previous =>
    validate_observation previous ;;
    assert_or (negb (negb (go_network_magic previous =? ni_network_magic identity) ||
                     negb (bool_decide (go_subject previous = ni_name_hash identity)) ||
                     negb (bool_decide (go_resource_id previous = resource_id))))
      (HnsaInvalid "invalid prior service-generation observation")
  | None => Ok tt
  end.

Definition withdrawn_observation (identity : NamedServiceIdentity) (resource_id : list byte) (previous : option ServiceGenerationObservation)
    (hrm_sequence : Z) (hrm_envelope_hash : list byte) (rollback_state : RollbackState) (accepted_reorganization : bool)
    : ServiceGenerationObservation :=
  let '(highest_generation, high_water_delegation_id) :=
    if accepted_reorganization then (0, zeros 32)
    else match previous with
         | Some previous => (go_highest_generation previous, go_high_water_delegation_id previous)
         | None => (0, zeros 32)
         end in
  mkObservation (ni_network_magic identity) (ni_name_hash identity) resource_id highest_generation high_water_delegation_id None
    hrm_sequence hrm_envelope_hash rollback_state.

Definition apply_generation_rule (previous : option ServiceGenerationObservation) (d : Delegation) (c : ServiceDelegationConstraints)
    (accepted_reorganization : bool) : result HnsaError unit :=
  match previous with
  | None => Ok tt
  | Some previous =>
    if accepted_reorganization then Ok tt
    else
      assert_or (negb ((sc_service_generation c <? go_highest_generation previous) ||
                       (is_withdrawn previous && (sc_service_generation c <=? go_highest_generation previous))))
        GenerationRollback ;;
      assert_or (negb ((sc_service_generation c =? go_highest_generation previous) &&
                       negb (bool_decide (dg_delegation_id d = go_high_water_delegation_id previous))))
        GenerationConflict
  end.

(** The observation's sequence, envelope hash or work went back, under evidence. *)
Definition reorganization_accepted (previous : option ServiceGenerationObservation) (current : RollbackState) (accepted : option AcceptedReorganization) : bool :=
  match previous with
  | Some previous =>
    let prior := go_rollback_state previous in
    let actually_rolls_back :=
      (rb_sequence current <? rb_sequence prior) ||
      ((rb_sequence current =? rb_sequence prior) && negb (bool_decide (rb_envelope_hash current = rb_envelope_hash prior))) ||
      negb (bytes_le (rb_chain_work prior) (rb_chain_work current)) in
    actually_rolls_back &&
    match accepted with Some evidence => AcceptedReorganization_matches evidence prior current | None => false end
  | None => false
  end.

Record VerifiedNamedService := mkVerified {
  vn_identity : NamedServiceIdentity;
  vn_resource_id : list byte;
  vn_delegation_id : list byte;
  vn_service_generation : Z;
  vn_service_controller_key : list byte;
  vn_profile_flags : Z;
  vn_profile_constraints_hash : list byte;
  vn_max_endpoint_lifetime : Z;
  vn_allowed_endpoint_capabilities : Z;
  vn_required_endpoint_capabilities : Z;
  vn_endpoint_constraints_hash : list byte;
  vn_application_maximum_endpoint_lifetime : Z;
  vn_resource_not_before : Z;
  vn_resource_expires_at : Z;
  vn_delegation_not_before : Z;
  vn_delegation_expires_at : Z;
  vn_cache_until : Z;
  vn_validated_at : Z;
  vn_hrm_sequence : Z;
  vn_hrm_envelope_hash : list byte;
  vn_generation_observation : ServiceGenerationObservation;
}.

Inductive ObservedNamedService :=
| ObservedActive (service : VerifiedNamedService)
| ObservedWithdrawn (observation : ServiceGenerationObservation).

Definition ObservedNamedService_observation (o : ObservedNamedService) : ServiceGenerationObservation :=
  match o with ObservedActive service => vn_generation_observation service | ObservedWithdrawn observation => observation end.
Definition into_active (o : ObservedNamedService) : result HnsaError VerifiedNamedService :=
  match o with ObservedActive service => Ok service | ObservedWithdrawn _ => Err HnsaWithdrawn end.

(** ** Endpoint delegations *)
Record HnsaEndpoint := mkEndpoint {
  en_version : Z;
  en_network_magic : Z;
  en_service_resource_id : list byte;
  en_service_delegation_id : list byte;
  en_service_generation : Z;
  en_endpoint_key : list byte;
  en_endpoint_sequence : Z;
  en_issued_at : Z;
  en_expires_at : Z;
  en_capabilities : Z;
  en_constraints_hash : list byte;
  en_service_signature : list byte;
}.

Definition with_endpoint_signature (d : HnsaEndpoint) (signature : list byte) : HnsaEndpoint :=
  mkEndpoint (en_version d) (en_network_magic d) (en_service_resource_id d) (en_service_delegation_id d) (en_service_generation d)
    (en_endpoint_key d) (en_endpoint_sequence d) (en_issued_at d) (en_expires_at d) (en_capabilities d) (en_constraints_hash d) signature.

Definition validate_service_context (d : HnsaEndpoint) (service : VerifiedNamedService) (now required_capabilities : Z) : result HnsaError unit :=
  let required := Z.lor required_capabilities (vn_required_endpoint_capabilities service) in
  assert_or (negb (negb (en_network_magic d =? ni_network_magic (vn_identity service)) ||
                   negb (bool_decide (en_service_resource_id d = vn_resource_id service)) ||
                   negb (bool_decide (en_service_delegation_id d = vn_delegation_id service)) ||
                   negb (en_service_generation d =? vn_service_generation service) ||
                   (now <? vn_validated_at service) || (vn_cache_until service <=? now) ||
                   (now <? en_issued_at d) || (en_expires_at d <=? now) ||
                   (en_issued_at d <? vn_resource_not_before service) || (en_issued_at d <? vn_delegation_not_before service) ||
                   (vn_resource_expires_at service <? en_expires_at d) || (vn_delegation_expires_at service <? en_expires_at d) ||
                   (Z.min (vn_max_endpoint_lifetime service) (vn_application_maximum_endpoint_lifetime service)
                      <? saturating_sub (en_expires_at d) (en_issued_at d)) ||
                   negb (Z.land (en_capabilities d) (u32_max - vn_allowed_endpoint_capabilities service) =? 0) ||
                   negb (Z.land (en_capabilities d) required =? required) ||
                   negb (bool_decide (en_constraints_hash d = vn_endpoint_constraints_hash service))))
    (HnsaInvalid "endpoint delegation context mismatch").

Definition read_endpoint : decM HnsaError HnsaEndpoint :=
  version ← lift_err HnsaDecode read_u8;
  lift_res (assert_or (b2z version =? HNSA_VERSION) (HnsaInvalid "unsupported HRM-backed endpoint delegation version")) ;;
  network_magic ← lift_err HnsaDecode read_u32_le;
  service_resource_id ← lift_err HnsaDecode (read_array 32);
  service_delegation_id ← lift_err HnsaDecode (read_array 32);
  service_generation ← lift_err HnsaDecode read_u64_le;
  endpoint_key ← lift_err HnsaDecode (read_array 33);
  endpoint_sequence ← lift_err HnsaDecode read_u64_le;
  issued_at ← lift_err HnsaDecode read_u64_le;
  expires_at ← lift_err HnsaDecode read_u64_le;
  capabilities ← lift_err HnsaDecode read_u32_le;
  constraints_hash ← lift_err HnsaDecode (read_array 32);
  length_byte ← lift_err HnsaDecode read_u8;
  let signature_length := b2z length_byte in
  lift_res (assert_or ((1 <=? signature_length) && (signature_length <=? MAX_ENDPOINT_SIGNATURE_SIZE)) (HnsaInvalid "invalid endpoint signature length")) ;;
  service_signature ← lift_err HnsaDecode (read_bounded_vec signature_length MAX_ENDPOINT_SIGNATURE_SIZE);
  mret (mkEndpoint (b2z version) network_magic service_resource_id service_delegation_id service_generation endpoint_key endpoint_sequence
    issued_at expires_at capabilities constraints_hash service_signature).

Definition read_observation : decM HnsaError ServiceGenerationObservation :=
  magic ← lift_err HnsaDecode (read_array 8);
  lift_res (assert_or (bool_decide (magic = SERVICE_GENERATION_OBSERVATION_MAGIC)) (HnsaInvalid "invalid service-generation observation magic")) ;;
  version ← lift_err HnsaDecode read_u8;
  lift_res (assert_or (b2z version =? SERVICE_GENERATION_OBSERVATION_VERSION) (HnsaInvalid "unsupported service-generation observation version")) ;;
  network_magic ← lift_err HnsaDecode read_u32_le;
  subject ← lift_err HnsaDecode (read_array 32);
  resource_id ← lift_err HnsaDecode (read_array 32);
  highest_generation ← lift_err HnsaDecode read_u64_le;
  high_water_delegation_id ← lift_err HnsaDecode (read_array 32);
  state ← lift_err HnsaDecode read_u8;
  active_delegation_id ← lift_res (if b2z state =? 0 then Ok None
                                   else if b2z state =? 1 then Ok (Some high_water_delegation_id)
                                   else Err (HnsaInvalid "invalid service-generation observation state"));
  hrm_sequence ← lift_err HnsaDecode read_u64_le;
  hrm_envelope_hash ← lift_err HnsaDecode (read_array 32);
  chain_height ← lift_err HnsaDecode read_u32_le;
  chain_work ← lift_err HnsaDecode (read_array 32);
  chain_anchor ← lift_err HnsaDecode (read_array 32);
  mret (mkObservation network_magic subject resource_id highest_generation high_water_delegation_id active_delegation_id hrm_sequence
    hrm_envelope_hash (mkRollbackState network_magic subject hrm_sequence hrm_envelope_hash chain_height chain_work chain_anchor)).

Section hnsa.
Context {CR : Crypto} {SD : ScriptDigests} {KC : K256} {KD : KeyCodec KC}.

Definition hnsa_blake2b_256 (parts : list (list byte)) : list byte := blake2b 32 (mjoin parts).
Definition hnsa_sha256 (parts : list (list byte)) : list byte := sha256 (mjoin parts).

Definition hnsa_validate_public_key (key : list byte) : result HnsaError unit :=
  assert_or (bool_decide (head key ∈ [Some x02; Some x03])) (HnsaInvalid "invalid compressed secp256k1 public key") ;;
  assert_or (sec1_key_ok key) (HnsaInvalid "invalid compressed secp256k1 public key").

Definition hnsa_signing_key (private_key : list byte) : result HnsaError SigningKey :=
  ok_or (signing_key_from_bytes private_key) HnsaCryptography.

(** The parsed signature. *)
Definition hnsa_validate_signature (signature : list byte) : result HnsaError (list byte) :=
  assert_or (negb ((len signature =? 0) || (MAX_ENDPOINT_SIGNATURE_SIZE <? len signature))) (HnsaInvalid "invalid endpoint signature length") ;;
  parsed ← ok_or (from_der signature) (HnsaInvalid "invalid DER endpoint signature");
  assert_or (negb (is_high parsed || negb (bool_decide (to_der parsed = signature)))) (HnsaInvalid "noncanonical endpoint signature") ;;
  Ok parsed.

Definition service_resource_id (i : NamedServiceIdentity) : result HnsaError (list byte) :=
  identifier ← canonical_identifier i;
  Ok (hnsa_sha256 [RESOURCE_ID_DOMAIN; identifier]).

(** ** The resource and the delegation of a service *)
Definition named_service_resource (identity : NamedServiceIdentity) (attributes : NamedServiceAttributes) (not_before expires_at : Z)
    : result HnsaError ResourceEntry :=
  assert_or (not_before <? expires_at) (HnsaInvalid "invalid named-service resource interval") ;;
  resource_id ← service_resource_id identity;
  identifier ← canonical_identifier identity;
  attributes ← NamedServiceAttributes_to_hrm_map attributes;
  Ok (mkResourceEntry NAMED_SERVICE_PROFILE resource_id identifier HnsLocal not_before expires_at (Some attributes)).

Definition service_delegation_id (d : Delegation) (payload_issued_at payload_expires_at : Z) : result HnsaError (list byte) :=
  value ← map_err HnsaHrm (Delegation_body_value d payload_issued_at payload_expires_at);
  body ← map_err (fun _ => HnsaInvalid "service delegation body exceeds CBOR limits") (encode_canonical value);
  Ok (hnsa_sha256 [SERVICE_DELEGATION_ID_DOMAIN; body]).

Definition with_delegation_id (d : Delegation) (id : list byte) : Delegation :=
  mkHrmDelegation id (dg_parent_resource_id d) (dg_child_profile d) (dg_child_resource_id d) (dg_child_identifier d) (dg_child_subject d)
    (dg_child_controller d) (dg_rights d) (dg_not_before d) (dg_expires_at d) (dg_may_subdelegate d) (dg_constraints d).

Definition outside_resource : HnsaError := HnsaInvalid "service delegation is outside its named-service resource".

(** The operands of the first test are evaluated in order, up to the first that holds. *)
Definition service_controller_delegation (identity : NamedServiceIdentity) (resource : ResourceEntry) (service_controller_key : list byte)
    (constraints : ServiceDelegationConstraints) (not_before expires_at payload_issued_at payload_expires_at : Z) : result HnsaError Delegation :=
  assert_or (bool_decide (rs_profile resource = NAMED_SERVICE_PROFILE)) outside_resource ;;
  resource_id ← service_resource_id identity;
  assert_or (bool_decide (rs_resource_id resource = resource_id)) outside_resource ;;
  identifier ← canonical_identifier identity;
  assert_or (negb (negb (bool_decide (rs_identifier resource = identifier)) || negb (match rs_authority resource with HnsLocal => true | _ => false end) ||
                   (not_before <? rs_not_before resource) || (rs_expires_at resource <? expires_at)))
    outside_resource ;;
  child_controller ← map_err HnsaHrm (Controller_secp256k1 service_controller_key);
  constraints ← ServiceDelegationConstraints_to_hrm_map constraints;
  let d := mkHrmDelegation (zeros 32) resource_id NAMED_SERVICE_PROFILE resource_id identifier (ni_name_hash identity) child_controller
             [DELEGATE_ENDPOINT; OPERATE_ACTION] not_before expires_at false (Some constraints) in
  id ← service_delegation_id d payload_issued_at payload_expires_at;
  Ok (with_delegation_id d id).

(** ** Validation against the identity and the policy *)
Definition hnsa_validate_resource (resource : ResourceEntry) (identity : NamedServiceIdentity) (policy : NamedServicePolicy) (now : Z)
    : result HnsaError NamedServiceAttributes :=
  let invalid := HnsaInvalid "invalid named-service resource" in
  assert_or (bool_decide (rs_profile resource = NAMED_SERVICE_PROFILE)) invalid ;;
  identifier ← canonical_identifier identity;
  assert_or (bool_decide (rs_identifier resource = identifier)) invalid ;;
  resource_id ← service_resource_id identity;
  assert_or (negb (negb (bool_decide (rs_resource_id resource = resource_id)) || negb (match rs_authority resource with HnsLocal => true | _ => false end) ||
                   (rs_expires_at resource <=? rs_not_before resource) || (now <? rs_not_before resource) || (rs_expires_at resource <=? now)))
    invalid ;;
  decoded ← decode_identifier (rs_identifier resource);
  assert_or (bool_decide (decoded = identity)) (HnsaInvalid "named-service identity mismatch") ;;
  attributes ← NamedServiceAttributes_from_resource resource;
  assert_or (negb (negb (Z.land (na_profile_flags attributes) (u16_max - np_allowed_profile_flags policy) =? 0) ||
                   negb (Z.land (na_profile_flags attributes) (np_required_profile_flags policy) =? np_required_profile_flags policy) ||
                   negb (bool_decide (na_profile_constraints_hash attributes = np_expected_profile_constraints_hash policy))))
    (HnsaInvalid "named-service application policy mismatch") ;;
  Ok attributes.

Definition validate_service_delegation (d : Delegation) (resource : ResourceEntry) (identity : NamedServiceIdentity) (policy : NamedServicePolicy)
    (now payload_issued_at payload_expires_at : Z) : result HnsaError ServiceDelegationConstraints :=
  assert_or (negb (negb (bool_decide (dg_parent_resource_id d = rs_resource_id resource)) ||
                   negb (bool_decide (dg_child_profile d = NAMED_SERVICE_PROFILE)) ||
                   negb (bool_decide (dg_child_resource_id d = rs_resource_id resource)) ||
                   negb (bool_decide (dg_child_identifier d = rs_identifier resource)) ||
                   negb (bool_decide (dg_child_subject d = ni_name_hash identity)) ||
                   negb (ct_algorithm (dg_child_controller d) =? ALGORITHM_SECP256K1_ECDSA) ||
                   negb (bool_decide (dg_rights d = [DELEGATE_ENDPOINT; OPERATE_ACTION])) || dg_may_subdelegate d ||
                   (dg_not_before d <? rs_not_before resource) || (rs_expires_at resource <? dg_expires_at d) ||
                   (dg_expires_at d <=? dg_not_before d) || (now <? dg_not_before d) || (dg_expires_at d <=? now)))
    (HnsaInvalid "invalid service-controller delegation") ;;
  hnsa_validate_public_key (ct_public_key (dg_child_controller d)) ;;
  constraints ← ServiceDelegationConstraints_from_delegation d;
  assert_or (negb (negb (Z.land (sc_allowed_endpoint_capabilities constraints) (u32_max - np_allowed_endpoint_capabilities policy) =? 0) ||
                   negb (Z.land (sc_allowed_endpoint_capabilities constraints) (np_required_endpoint_capabilities policy)
                           =? np_required_endpoint_capabilities policy) ||
                   negb (bool_decide (sc_endpoint_constraints_hash constraints = np_expected_endpoint_constraints_hash policy))))
    (HnsaInvalid "service delegation violates application policy") ;;
  id ← service_delegation_id d payload_issued_at payload_expires_at;
  assert_or (bool_decide (dg_delegation_id d = id)) (HnsaInvalid "service delegation ID mismatch") ;;
  Ok constraints.

(** ** The profile HRM Core dispatches to

    [text] is the [Display] of an error. *)
Record NamedServiceProfilePolicy := mkProfilePolicy { pp_identity : NamedServiceIdentity; pp_policy : NamedServicePolicy }.

Definition NamedServiceProfilePolicy_new (identity : NamedServiceIdentity) (policy : NamedServicePolicy) : result HnsaError NamedServiceProfilePolicy :=
  NamedServiceIdentity_validate identity ;;
  NamedServicePolicy_validate policy ;;
  assert_or (ni_application_profile_id identity =? np_application_profile_id policy) (HnsaInvalid "application profile policy mismatch") ;;
  Ok (mkProfilePolicy identity policy).

Definition profile_validate_resource (text : HnsaError -> list byte) (p : NamedServiceProfilePolicy) (context : ResourceValidationContext)
    : result (list byte) ResourcePolicy :=
  assert_or (negb (negb (rc_network_magic context =? ni_network_magic (pp_identity p)) ||
                   negb (bool_decide (rc_subject context = ni_name_hash (pp_identity p))) ||
                   negb (bool_decide (rc_action context = OPERATE_ACTION))))
    (bstr "named-service request context mismatch") ;;
  map_err text (hnsa_validate_resource (rc_resource context) (pp_identity p) (pp_policy p) (rc_now context)) ;;
  Ok (mkResourcePolicy true false false false (rs_expires_at (rc_resource context))).
Definition profile_validate_external_proof (p : NamedServiceProfilePolicy) (context : ExternalProofContext) (proof : list byte) : result (list byte) Z :=
  Err (bstr "HNSA version 1 has no external-origin proof").
Definition profile_validate_delegation (p : NamedServiceProfilePolicy) (context : DelegationValidationContext) : result (list byte) unit :=
  Err (bstr "HNSA version 1 has no parent-resource mapping").

(** ** Durable observations *)
Definition service_generation_observation_checksum (bytes : list byte) : list byte :=
  hnsa_blake2b_256 [SERVICE_GENERATION_OBSERVATION_CHECKSUM_DOMAIN; bytes].

Definition ServiceGenerationObservation_encode (o : ServiceGenerationObservation) : result HnsaError (list byte) :=
  validate_observation o ;;
  let e := put_bytes (with_capacity SERVICE_GENERATION_OBSERVATION_SIZE) SERVICE_GENERATION_OBSERVATION_MAGIC in
  let e := put_u8 e (z2b SERVICE_GENERATION_OBSERVATION_VERSION) in
  let e := put_u32_le e (go_network_magic o) in
  let e := put_bytes e (go_subject o) in
  let e := put_bytes e (go_resource_id o) in
  let e := put_u64_le e (go_highest_generation o) in
  let e := put_bytes e (go_high_water_delegation_id o) in
  let e := put_u8 e (if bool_decide (is_Some (go_active_delegation_id o)) then x01 else x00) in
  let e := put_u64_le e (go_hrm_sequence o) in
  let e := put_bytes e (go_hrm_envelope_hash o) in
  let e := put_u32_le e (rb_chain_height (go_rollback_state o)) in
  let e := put_bytes e (rb_chain_work (go_rollback_state o)) in
  let e := put_bytes e (rb_chain_anchor (go_rollback_state o)) in
  let encoded := into_bytes e in
  assert_or (len encoded =? SERVICE_GENERATION_OBSERVATION_PAYLOAD_SIZE) (HnsaInvalid "invalid service-generation observation encoding size") ;;
  Ok (encoded ++ service_generation_observation_checksum encoded).

Definition ServiceGenerationObservation_decode (input : list byte) : result HnsaError ServiceGenerationObservation :=
  assert_or (len input =? SERVICE_GENERATION_OBSERVATION_SIZE) (HnsaInvalid "invalid service-generation observation size") ;;
  let payload := take (Z.to_nat SERVICE_GENERATION_OBSERVATION_PAYLOAD_SIZE) input in
  let supplied_checksum := drop (Z.to_nat SERVICE_GENERATION_OBSERVATION_PAYLOAD_SIZE) input in
  assert_or (bool_decide (supplied_checksum = service_generation_observation_checksum payload))
    (HnsaInvalid "service-generation observation checksum mismatch") ;;
  observation ← run_all HnsaDecode read_observation payload;
  validate_observation observation ;;
  encoded ← ServiceGenerationObservation_encode observation;
  assert_or (bool_decide (encoded = input)) (HnsaInvalid "noncanonical service-generation observation") ;;
  Ok observation.

Definition ServiceGenerationObservation_restore (input : list byte) (identity : NamedServiceIdentity) : result HnsaError ServiceGenerationObservation :=
  NamedServiceIdentity_validate identity ;;
  observation ← ServiceGenerationObservation_decode input;
  resource_id ← service_resource_id identity;
  assert_or (bool_decide (ServiceGenerationObservation_key observation = (ni_network_magic identity, ni_name_hash identity, resource_id)))
    (HnsaInvalid "persisted service-generation observation identity mismatch") ;;
  Ok observation.

(** ** Observing a validated manifest *)
Definition operates (resource_id : list byte) (d : Delegation) : bool :=
  bool_decide (dg_parent_resource_id d = resource_id) && existsb (fun right => bool_decide (right = OPERATE_ACTION)) (dg_rights d).

#[global] Instance RollbackState_eq_dec : EqDecision RollbackState.
Proof. solve_decision. Defined.

Definition provenance_ok (manifest : ValidatedCurrentManifest) (identity : NamedServiceIdentity) (policy : NamedServicePolicy) : bool :=
  let snapshot := cm_current_snapshot manifest in
  let rollback := vs_rollback_state snapshot in
  negb (negb (ni_application_profile_id identity =? np_application_profile_id policy) ||
        negb (cm_network_magic manifest =? ni_network_magic identity) || negb (bool_decide (cm_subject manifest = ni_name_hash identity)) ||
        negb (rb_network_magic rollback =? ni_network_magic identity) || negb (bool_decide (rb_subject rollback = ni_name_hash identity)) ||
        negb (rb_sequence rollback =? vs_sequence snapshot) || negb (bool_decide (rb_envelope_hash rollback = vs_envelope_hash snapshot)) ||
        negb (bool_decide (cm_rollback_observation manifest = rollback))).

Definition observe_named_service (manifest : ValidatedCurrentManifest) (identity : NamedServiceIdentity) (policy : NamedServicePolicy)
    (previous : option ServiceGenerationObservation) : result HnsaError ObservedNamedService :=
  NamedServiceIdentity_validate identity ;;
  NamedServicePolicy_validate policy ;;
  expected_resource_id ← service_resource_id identity;
  let snapshot := cm_current_snapshot manifest in
  assert_or (provenance_ok manifest identity policy) (HnsaInvalid "authenticated current HRM manifest provenance mismatch") ;;
  validate_previous previous identity expected_resource_id ;;
  let current_rollback := vs_rollback_state snapshot in
  match previous with
  | Some previous =>
    map_err (fun _ => GenerationRollback) (validate_rollback (go_rollback_state previous) current_rollback (vs_accepted_reorganization snapshot))
  | None => Ok tt
  end ;;
  let reorganization := reorganization_accepted previous current_rollback (vs_accepted_reorganization snapshot) in
  let withdrawn := ObservedWithdrawn (withdrawn_observation identity expected_resource_id previous (vs_sequence snapshot) (vs_envelope_hash snapshot)
                                        current_rollback reorganization) in
  match ValidatedManifestSnapshot_resource snapshot expected_resource_id with
  | None => Ok withdrawn
  | Some resource =>
    attributes ← hnsa_validate_resource resource identity policy (vs_validated_at snapshot);
    let candidates := take 2 (List.filter (operates expected_resource_id) (vs_delegations snapshot)) in
    assert_or (len candidates <=? 1) HnsaAmbiguous ;;
    match head candidates with
    | None => Ok withdrawn
    | Some d =>
      constraints ← validate_service_delegation d resource identity policy (vs_validated_at snapshot) (vs_payload_issued_at snapshot) (vs_payload_expires_at snapshot);
      apply_generation_rule previous d constraints reorganization ;;
      let observation := mkObservation (ni_network_magic identity) (ni_name_hash identity) expected_resource_id (sc_service_generation constraints)
                           (dg_delegation_id d) (Some (dg_delegation_id d)) (vs_sequence snapshot) (vs_envelope_hash snapshot) current_rollback in
      Ok (ObservedActive (mkVerified identity expected_resource_id (dg_delegation_id d) (sc_service_generation constraints)
            (ct_public_key (dg_child_controller d)) (na_profile_flags attributes) (na_profile_constraints_hash attributes)
            (sc_max_endpoint_lifetime constraints) (sc_allowed_endpoint_capabilities constraints) (np_required_endpoint_capabilities policy)
            (sc_endpoint_constraints_hash constraints) (np_maximum_endpoint_lifetime policy) (rs_not_before resource) (rs_expires_at resource)
            (dg_not_before d) (dg_expires_at d) (Z.min (Z.min (cm_expires_at manifest) (rs_expires_at resource)) (dg_expires_at d))
            (vs_validated_at snapshot) (vs_sequence snapshot) (vs_envelope_hash snapshot) observation))
    end
  end.

(** ** Endpoint delegations *)
Definition HnsaEndpoint_validate_body (d : HnsaEndpoint) : result HnsaError unit :=
  assert_or (en_version d =? HNSA_VERSION) (HnsaInvalid "unsupported HRM-backed endpoint delegation version") ;;
  hnsa_validate_public_key (en_endpoint_key d) ;;
  assert_or (negb ((en_service_generation d =? 0) || (en_endpoint_sequence d =? 0) || (en_expires_at d <=? en_issued_at d) ||
                   (MAX_SERVICE_ENDPOINT_LIFETIME <? saturating_sub (en_expires_at d) (en_issued_at d))))
    (HnsaInvalid "invalid endpoint delegation fields").

Definition HnsaEndpoint_encode_body (d : HnsaEndpoint) : result HnsaError (list byte) :=
  HnsaEndpoint_validate_body d ;;
  let e := put_u8 (with_capacity 170) (z2b (en_version d)) in
  let e := put_u32_le e (en_network_magic d) in
  let e := put_bytes e (en_service_resource_id d) in
  let e := put_bytes e (en_service_delegation_id d) in
  let e := put_u64_le e (en_service_generation d) in
  let e := put_bytes e (en_endpoint_key d) in
  let e := put_u64_le e (en_endpoint_sequence d) in
  let e := put_u64_le e (en_issued_at d) in
  let e := put_u64_le e (en_expires_at d) in
  let e := put_u32_le e (en_capabilities d) in
  Ok (into_bytes (put_bytes e (en_constraints_hash d))).

Definition HnsaEndpoint_encode (d : HnsaEndpoint) : result HnsaError (list byte) :=
  body ← HnsaEndpoint_encode_body d;
  hnsa_validate_signature (en_service_signature d) ;;
  let e := put_bytes (with_capacity (len body + 1 + len (en_service_signature d))) body in
  let e := put_u8 e (z2b (len (en_service_signature d))) in
  let encoded := into_bytes (put_bytes e (en_service_signature d)) in
  assert_or (len encoded <=? HNSA_MAX_ENDPOINT_DELEGATION_SIZE) (HnsaInvalid "endpoint delegation exceeds 320 bytes") ;;
  Ok encoded.

Definition HnsaEndpoint_decode (input : list byte) : result HnsaError HnsaEndpoint :=
  assert_or (negb ((len input =? 0) || (HNSA_MAX_ENDPOINT_DELEGATION_SIZE <? len input))) (HnsaInvalid "invalid endpoint delegation size") ;;
  d ← run_all HnsaDecode read_endpoint input;
  encoded ← HnsaEndpoint_encode d;
  assert_or (bool_decide (encoded = input)) (HnsaInvalid "noncanonical endpoint delegation") ;;
  Ok d.

Definition HnsaEndpoint_id (d : HnsaEndpoint) : result HnsaError (list byte) :=
  encoded ← HnsaEndpoint_encode d;
  Ok (hnsa_sha256 [ENDPOINT_ID_DOMAIN; encoded]).

Definition verify_admission (d : HnsaEndpoint) (service_controller_key : list byte) : result HnsaError unit :=
  body ← HnsaEndpoint_encode_body d;
  signature ← hnsa_validate_signature (en_service_signature d);
  hnsa_validate_public_key service_controller_key ;;
  let digest := hnsa_blake2b_256 [ENDPOINT_SIGNATURE_DOMAIN; body] in
  assert_or (verify_prehash service_controller_key digest signature) HnsaCryptography.

Definition verify_uncommitted (d : HnsaEndpoint) (service : VerifiedNamedService) (now required_capabilities : Z) : result HnsaError unit :=
  validate_service_context d service now required_capabilities ;;
  verify_admission d (vn_service_controller_key service).

(** [self] is updated before the last check: the delegation left behind comes back
    with the result. *)
Definition sign_uncommitted (d : HnsaEndpoint) (service : VerifiedNamedService) (now : Z) (service_private_key : list byte)
    : result HnsaError unit * HnsaEndpoint :=
  match (key ← hnsa_signing_key service_private_key;
         assert_or (bool_decide (verifying_key key = vn_service_controller_key service)) (HnsaInvalid "signing key is not the current service controller") ;;
         validate_service_context d service now 0 ;;
         body ← HnsaEndpoint_encode_body d;
         let digest := hnsa_blake2b_256 [ENDPOINT_SIGNATURE_DOMAIN; body] in
         signature ← ok_or (sign_prehash key digest) HnsaCryptography;
         Ok (to_der (default signature (normalize_s signature)))) with
  | Err e => (Err e, d)
  | Ok der => let d := with_endpoint_signature d der in (verify_uncommitted d service now 0, d)
  end.

Definition select_endpoint_delegation_uncommitted (candidates : list HnsaEndpoint) (service : VerifiedNamedService) (now required_capabilities : Z)
    (is_logical_endpoint : HnsaEndpoint -> bool) : result HnsaError HnsaEndpoint :=
  let candidates := take (Z.to_nat (saturating_add usize_max HNSA_MAX_ENDPOINT_DELEGATION_CANDIDATES 1)) candidates in
  assert_or (len candidates <=? HNSA_MAX_ENDPOINT_DELEGATION_CANDIDATES) (HnsaInvalid "too many endpoint-delegation candidates") ;;
  let valid := List.filter (fun c => is_logical_endpoint c && is_ok (verify_uncommitted c service now required_capabilities)) candidates in
  greatest ← ok_or (match map en_endpoint_sequence valid with [] => None | s :: rest => Some (foldl Z.max s rest) end) MissingEndpoint;
  match List.filter (fun c => en_endpoint_sequence c =? greatest) valid with
  | [] => Err MissingEndpoint
  | selected :: others =>
    selected_bytes ← HnsaEndpoint_encode selected;
    try_each (fun c => bytes ← HnsaEndpoint_encode c; assert_or (bool_decide (bytes = selected_bytes)) EndpointSequenceConflict) others ;;
    Ok selected
  end.
End hnsa.

(** ** Identifiers *)
Definition identity_typed (i : NamedServiceIdentity) : Prop :=
  u32 (ni_network_magic i) /\ len (ni_name_hash i) = 32 /\ u16 (ni_application_profile_id i).

Lemma hnsa_service_name_Ok n : hnsa_validate_service_name n = Ok tt -> 1 <= len n <= HNSA_MAX_SERVICE_NAME /\ from_utf8_ok n = true.
Proof. intros H. apply service_name_Ok, assert_or_Ok. by apply assert_or_Ok in H. Qed.

Lemma identity_validate_Ok i : NamedServiceIdentity_validate i = Ok tt ->
  1 <= len (ni_service_name i) <= HNSA_MAX_SERVICE_NAME /\ from_utf8_ok (ni_service_name i) = true.
Proof. unfold NamedServiceIdentity_validate. intros H. apply bind_Ok in H as ([] & H & _). by apply hnsa_service_name_Ok. Qed.

Lemma identity_size i : len (ni_name_hash i) = 32 -> len (ni_service_name i) <= HNSA_MAX_SERVICE_NAME -> len (cbor_bytes (identity_value i)) <= 160.
Proof.
  unfold HNSA_MAX_SERVICE_NAME. intros Lh Ln.
  pose proof (encode_head_len 0 (ni_network_magic i)). pose proof (encode_head_len 2 32).
  pose proof (encode_head_len 3 (len (ni_service_name i))). pose proof (encode_head_len 0 (ni_application_profile_id i)).
  unfold identity_value. cbn [cbor_bytes map fst snd]. rewrite !join_cons, !len_app, Lh in *.
  change (len (encode_head 5 _)) with 1. change (len (encode_head 0 0)) with 1. change (len (encode_head 0 1)) with 1.
  change (len (encode_head 0 2)) with 1. change (len (encode_head 0 3)) with 1. change (len (mjoin [])) with 0. lia.
Qed.

Definition identifier_room (L : DecodeLimits) : Prop :=
  limits_ok L /\ 2 <= max_depth L /\ 9 <= max_items L /\ 160 <= max_bytes L /\ 4 <= max_map_len L /\ HNSA_MAX_SERVICE_NAME <= max_string_bytes L.
Lemma identifier_limits_room : identifier_room identifier_limits.
Proof. split; [split; vm_compute; intuition congruence|]. vm_compute. intuition congruence. Qed.
Lemma default_room : identifier_room DecodeLimits_default.
Proof. split; [exact default_limits_ok|]. vm_compute. intuition congruence. Qed.

Lemma identity_encodes i L :
  identity_typed i -> NamedServiceIdentity_validate i = Ok tt -> identifier_room L ->
  encode_canonical_with_limits (identity_value i) L = Ok (cbor_bytes (identity_value i)).
Proof.
  intros (_ & Lh & _) V (OK & Dp & It & By & Mp & St). destruct (identity_validate_Ok _ V) as (Ln & _).
  apply (encode_canonical_with_limits_Ok L OK). split; [|split; [done|]; split; [|done]].
  - replace (Z.to_nat (max_depth L)) with (S (S (Z.to_nat (max_depth L - 2)))) by lia. unfold identity_value. cbn [value_fits].
    split; [exact Mp|]. split; [repeat constructor|]. unfold HNSA_MAX_SERVICE_NAME in *. by repeat constructor; cbn; lia.
  - pose proof (identity_size i Lh ltac:(lia)). lia.
Qed.

Lemma identity_value_typed i : identity_typed i -> NamedServiceIdentity_validate i = Ok tt -> value_typed (identity_value i).
Proof.
  intros (U1 & Lh & U2) V. destruct (identity_validate_Ok _ V) as (Ln & U). unfold HNSA_MAX_SERVICE_NAME in Ln.
  unfold u32, u16, u32_max, u16_max in *. constructor; [done|].
  repeat (constructor; [split; [done|]; constructor; unfold u64, u64_max, isize_max in *; try done; lia|]). constructor.
Qed.

Lemma canonical_identifier_Ok i bs :
  identity_typed i -> canonical_identifier i = Ok bs <-> NamedServiceIdentity_validate i = Ok tt /\ bs = cbor_bytes (identity_value i).
Proof.
  intros T. unfold canonical_identifier, encode_canonical. split.
  - intros H. apply bind_Ok in H as ([] & V & H). rewrite (identity_encodes i _ T V default_room) in H. by injection H as <-.
  - intros (V & ->). rewrite V. cbn [mbind result_bind]. by rewrite (identity_encodes i _ T V default_room).
Qed.

Lemma value_u64_Ok v m n : value_u64 v m = Ok n <-> v = VUnsigned n.
Proof. destruct v; cbn; split; try done; by intros [= <-]. Qed.
Lemma value_u32_Ok v m n : value_u32 v m = Ok n <-> v = VUnsigned n /\ n <= u32_max.
Proof.
  unfold value_u32. rewrite bind_Ok. setoid_rewrite value_u64_Ok. setoid_rewrite bind_Ok. setoid_rewrite assert_or_Ok. setoid_rewrite Z.leb_le. split.
  - by intros (? & -> & ? & ? & [= <-]).
  - intros (-> & L). eexists. split; [done|]. by exists tt.
Qed.
Lemma value_u16_Ok v m n : value_u16 v m = Ok n <-> v = VUnsigned n /\ n <= u16_max.
Proof.
  unfold value_u16. rewrite bind_Ok. setoid_rewrite value_u64_Ok. setoid_rewrite bind_Ok. setoid_rewrite assert_or_Ok. setoid_rewrite Z.leb_le. split.
  - by intros (? & -> & ? & ? & [= <-]).
  - intros (-> & L). eexists. split; [done|]. by exists tt.
Qed.
Lemma value_array_Ok k v m bs : value_array k v m = Ok bs <-> v = VBytes bs /\ len bs = k.
Proof.
  unfold value_array. destruct v; try (split; [done|by intros (? & _)]). rewrite bind_Ok. setoid_rewrite assert_or_Ok. setoid_rewrite Z.eqb_eq. split.
  - by intros (_ & L & [= <-]).
  - intros ([= ->] & L). by exists tt.
Qed.
Lemma value_text_Ok v m t : value_text v m = Ok t <-> v = VText t.
Proof. destruct v; cbn; split; try done; by intros [= <-]. Qed.

Lemma decode_identifier_Ok inp i :
  decode_identifier inp = Ok i <-> identity_typed i /\ canonical_identifier i = Ok inp.
Proof.
  unfold decode_identifier. destruct identifier_limits_room as (OK & R). split.
  - intros H. apply bind_Ok in H as (v & D & H). apply map_err_Ok in D. apply (decode_canonical_encodes _ _ _ OK) in D as (T & _).
    destruct v as [| | | | |[|[k0 v0] [|[k1 v1] [|[k2 v2] [|[k3 v3] [|]]]]]| |]; try done.
    apply bind_Ok in H as (? & _ & H). apply bind_Ok in H as (m & (-> & M)%value_u32_Ok & H). apply bind_Ok in H as (h & (-> & L)%value_array_Ok & H).
    apply bind_Ok in H as (n & ->%value_text_Ok & H). apply bind_Ok in H as (p & (-> & P)%value_u16_Ok & H).
    apply bind_Ok in H as (? & _ & H). apply bind_Ok in H as (bs & C & H). apply bind_Ok in H as (? & <-%assert_or_Ok%bool_decide_eq_true & [= <-]).
    split; [|done]. inversion T as [| | | | |fs _ F| |]; subst. rewrite !Forall_cons in F. destruct F as ((_ & F0) & _ & _ & (_ & F3) & _).
    inversion F0; inversion F3; subst. unfold u64, u64_max in *. split; [|split; [done|]]; cbn [ni_network_magic ni_application_profile_id]; ulia.
  - intros (T & C). pose proof C as (V & ->)%canonical_identifier_Ok; [|done]. pose proof (identity_encodes i _ T V identifier_limits_room) as E.
    apply bind_Ok. exists (identity_value i). split; [apply map_err_Ok, (decode_canonical_encodes _ _ _ OK); by split; [apply identity_value_typed|]|].
    unfold identity_value at 1. destruct T as (U1 & Lh & U2). apply bind_Ok. exists tt. split; [done|].
    apply bind_Ok. exists (ni_network_magic i). split; [apply value_u32_Ok; split; [done|ulia]|].
    apply bind_Ok. exists (ni_name_hash i). split; [by apply value_array_Ok|]. apply bind_Ok. exists (ni_service_name i). split; [done|].
    apply bind_Ok. exists (ni_application_profile_id i). split; [apply value_u16_Ok; split; [done|ulia]|].
    assert (mkNamedService (ni_network_magic i) (ni_name_hash i) (ni_service_name i) (ni_application_profile_id i) = i) as -> by by destruct i.
    apply bind_Ok. exists tt. split; [done|]. apply bind_Ok. exists (cbor_bytes (identity_value i)). split; [done|].
    by rewrite bool_decide_eqb_refl.
Qed.

(** Named-service identifiers have one spelling: [decode_identifier] accepts exactly
    the canonical identifiers of well-typed valid identities and returns the
    identity, so two services never share an identifier. *)
Theorem service_identifier_codec inp i :
  decode_identifier inp = Ok i <-> identity_typed i /\ canonical_identifier i = Ok inp.
Proof. apply decode_identifier_Ok. Qed.

(** ** Durable observations *)
Lemma observation_Ok o : validate_observation o = Ok tt <->
  rb_network_magic (go_rollback_state o) = go_network_magic o /\ rb_subject (go_rollback_state o) = go_subject o /\
  rb_sequence (go_rollback_state o) = go_hrm_sequence o /\ rb_envelope_hash (go_rollback_state o) = go_hrm_envelope_hash o /\
  (go_highest_generation o = 0 -> go_high_water_delegation_id o = zeros 32 /\ go_active_delegation_id o = None) /\
  (forall id, go_active_delegation_id o = Some id -> id = go_high_water_delegation_id o).
Proof.
  unfold validate_observation. rewrite assert_or_Ok, negb_true_iff, !orb_false_iff, !negb_false_iff, !Z.eqb_eq, !bool_decide_eq_true.
  assert (forall P Q R S U V U' V' : Prop, (U <-> U') -> (V <-> V') -> (((((P /\ Q) /\ R) /\ S) /\ U) /\ V <-> P /\ Q /\ R /\ S /\ U' /\ V')) as K by tauto.
  apply K.
  - rewrite andb_false_iff, Z.eqb_neq, orb_false_iff, negb_false_iff, bool_decide_eq_true, bool_decide_eq_false. rewrite <- eq_None_not_Some.
    destruct (decide (go_highest_generation o = 0)); intuition congruence.
  - destruct (go_active_delegation_id o) as [id|]; [|by split]. rewrite negb_false_iff, bool_decide_eq_true. split; [by intros -> ? [= <-]|by intros H; apply H].
Qed.

Definition observation_typed (o : ServiceGenerationObservation) : Prop :=
  u32 (go_network_magic o) /\ len (go_subject o) = 32 /\ len (go_resource_id o) = 32 /\ u64 (go_highest_generation o) /\
  len (go_high_water_delegation_id o) = 32 /\ u64 (go_hrm_sequence o) /\ len (go_hrm_envelope_hash o) = 32 /\
  u32 (rb_chain_height (go_rollback_state o)) /\ len (rb_chain_work (go_rollback_state o)) = 32 /\ len (rb_chain_anchor (go_rollback_state o)) = 32.

Definition observation_bytes (o : ServiceGenerationObservation) : list byte :=
  SERVICE_GENERATION_OBSERVATION_MAGIC ++ [z2b SERVICE_GENERATION_OBSERVATION_VERSION] ++ to_le_bytes 4 (go_network_magic o) ++ go_subject o ++
  go_resource_id o ++ to_le_bytes 8 (go_highest_generation o) ++ go_high_water_delegation_id o ++
  [if bool_decide (is_Some (go_active_delegation_id o)) then x01 else x00] ++ to_le_bytes 8 (go_hrm_sequence o) ++ go_hrm_envelope_hash o ++
  to_le_bytes 4 (rb_chain_height (go_rollback_state o)) ++ rb_chain_work (go_rollback_state o) ++ rb_chain_anchor (go_rollback_state o).

Lemma observation_bytes_len o : observation_typed o -> len (observation_bytes o) = SERVICE_GENERATION_OBSERVATION_PAYLOAD_SIZE.
Proof.
  intros (_ & L1 & L2 & _ & L3 & _ & L4 & _ & L5 & L6). unfold observation_bytes. rewrite !len_app, !len_to_le_bytes, L1, L2, L3, L4, L5, L6.
  change (len [_]) with 1. done.
Qed.

Section observations.
Context {CR : Crypto}.

Lemma observation_encode_Ok o bs :
  observation_typed o ->
  ServiceGenerationObservation_encode o = Ok bs <->
  validate_observation o = Ok tt /\ bs = observation_bytes o ++ service_generation_observation_checksum (observation_bytes o).
Proof.
  intros T. unfold ServiceGenerationObservation_encode. destruct (validate_observation o) as [[]|]; [|by split; [|intros (? & _)]].
  cbn [mbind result_bind]. match goal with |- context [into_bytes ?e] => assert (into_bytes e = observation_bytes o) as -> end.
  { unfold into_bytes, observation_bytes. repeat first [rewrite bytes_put_bytes | rewrite bytes_put_u8 | rewrite bytes_put_u32 | rewrite bytes_put_u64].
    by rewrite bytes_with_capacity, <- !app_assoc. }
  rewrite (observation_bytes_len _ T), Z.eqb_refl. cbn [assert_or mbind result_bind]. split; [by intros [= <-]|by intros (_ & ->)].
Qed.

Lemma read_observation_inv d o d' :
  dec_wf d -> read_observation d = (Ok o, d') -> took d (observation_bytes o) d' /\ observation_typed o.
Proof.
  intros W R. unfold read_observation in R. dbind R as mg d1 K1. dbind R as u1 d1' C1. dbind R as v d2 K2. dbind R as u2 d2' C2. dbind R as m d3 K3.
  dbind R as s d4 K4. dbind R as r d5 K5. dbind R as g d6 K6. dbind R as hw d7 K7. dbind R as st d8 K8. dbind R as a d9 C9. dbind R as sq d10 K10.
  dbind R as h d11 K11. dbind R as ht d12 K12. dbind R as wk d13 K13. dbind R as an d14 K14. apply dec_ret_Ok in R as (<- & ->). took_all.
  apply assert_or_Ok, bool_decide_eq_true in C1. apply assert_or_Ok, Z.eqb_eq in C2.
  assert ([if bool_decide (is_Some a) then x01 else x00] = [st]) as St.
  { destruct (Z.eqb_spec (b2z st) 0) as [E|_]; [injection C9 as <-; rewrite <- (z2b_b2z st), E; done|].
    destruct (Z.eqb_spec (b2z st) 1) as [E|_]; [injection C9 as <-; rewrite <- (z2b_b2z st), E; done|done]. }
  split; [|by split_and!]. unfold observation_bytes. cbn [go_network_magic go_subject go_resource_id go_highest_generation go_high_water_delegation_id
    go_active_delegation_id go_hrm_sequence go_hrm_envelope_hash go_rollback_state rb_chain_height rb_chain_work rb_chain_anchor].
  rewrite St, <- C1, <- C2, z2b_b2z. took_chain.
Qed.

Lemma read_observation_reads d o :
  observation_typed o -> validate_observation o = Ok tt -> reads d read_observation (observation_bytes o) o.
Proof.
  intros (U1 & L1 & L2 & U2 & L3 & U3 & L4 & U4 & L5 & L6) (E1 & E2 & E3 & E4 & _ & A)%observation_Ok. unfold read_observation, observation_bytes.
  eapply reads_bind; [by apply reads_err, read_array_reads|]. eapply reads_nil_bind; [by apply reads_assert, bool_decide_eq_true|].
  eapply reads_bind; [by apply reads_err, read_u8_reads|]. eapply reads_nil_bind; [by apply reads_assert|].
  eapply reads_bind; [by apply reads_err, read_u32_reads|]. do 2 (eapply reads_bind; [by apply reads_err, read_array_reads|]).
  eapply reads_bind; [by apply reads_err, read_u64_reads|]. eapply reads_bind; [by apply reads_err, read_array_reads|].
  eapply reads_bind; [by apply reads_err, read_u8_reads|].
  eapply (reads_nil_bind _ _ _ _ (go_active_delegation_id o)).
  { apply reads_res. destruct (go_active_delegation_id o) as [id|] eqn:Ea; [|done]. by rewrite (A id eq_refl). }
  eapply reads_bind; [by apply reads_err, read_u64_reads|]. eapply reads_bind; [by apply reads_err, read_array_reads|].
  eapply reads_bind; [by apply reads_err, read_u32_reads|]. eapply reads_bind; [by apply reads_err, read_array_reads|].
  eapply reads_last; [by apply reads_err, read_array_reads|]. rewrite <- E1, <- E2, <- E3, <- E4. destruct o as [? ? ? ? ? ? ? ? []]. cbn in *. subst. apply reads_ret.
Qed.

Lemma observation_decode_Ok inp o :
  ServiceGenerationObservation_decode inp = Ok o <-> observation_typed o /\ ServiceGenerationObservation_encode o = Ok inp.
Proof.
  unfold ServiceGenerationObservation_decode. split.
  - intros H. apply bind_Ok in H as (? & L%assert_or_Ok%Z.eqb_eq & H). apply bind_Ok in H as (? & _ & H).
    apply bind_Ok in H as (o' & (d & R & F)%run_all_Ok & H). apply bind_Ok in H as (? & _ & H). apply bind_Ok in H as (bs & E & H).
    apply bind_Ok in H as (? & <-%assert_or_Ok%bool_decide_eq_true & [= <-]). split; [|done].
    apply read_observation_inv in R as (_ & T); [done|]. apply wf_new. unfold SERVICE_GENERATION_OBSERVATION_SIZE, len in *. rewrite length_take. unfold isize_max. lia.
  - intros (T & E). pose proof E as (V & ->)%observation_encode_Ok; [|done]. pose proof (observation_bytes_len _ T) as L.
    set (body := observation_bytes o) in *. set (sum := service_generation_observation_checksum body) in *.
    assert (len sum = 32) as Ls by apply (len_length _ 32), blake2b_length.
    rewrite len_app, L, Ls. change (_ + 32 =? SERVICE_GENERATION_OBSERVATION_SIZE) with true. cbn [assert_or mbind result_bind].
    rewrite take_app_length', drop_app_length' by (unfold len in L; lia). fold sum. rewrite bool_decide_eqb_refl. cbn [assert_or mbind result_bind].
    rewrite (run_all_reads HnsaDecode read_observation body o); [|by rewrite L|by apply read_observation_reads]. cbn [mbind result_bind].
    rewrite V. cbn [mbind result_bind]. rewrite E. cbn [mbind result_bind]. by rewrite bool_decide_eqb_refl.
Qed.
End observations.

(** ** Endpoint delegations on the wire *)
Definition endpoint_typed (d : HnsaEndpoint) : Prop :=
  u32 (en_network_magic d) /\ len (en_service_resource_id d) = 32 /\ len (en_service_delegation_id d) = 32 /\ u64 (en_service_generation d) /\
  len (en_endpoint_key d) = 33 /\ u64 (en_endpoint_sequence d) /\ u64 (en_issued_at d) /\ u64 (en_expires_at d) /\ u32 (en_capabilities d) /\
  len (en_constraints_hash d) = 32.

Definition endpoint_body (d : HnsaEndpoint) : list byte :=
  [z2b (en_version d)] ++ to_le_bytes 4 (en_network_magic d) ++ en_service_resource_id d ++ en_service_delegation_id d ++
  to_le_bytes 8 (en_service_generation d) ++ en_endpoint_key d ++ to_le_bytes 8 (en_endpoint_sequence d) ++ to_le_bytes 8 (en_issued_at d) ++
  to_le_bytes 8 (en_expires_at d) ++ to_le_bytes 4 (en_capabilities d) ++ en_constraints_hash d.

Lemma endpoint_body_len d : endpoint_typed d -> len (endpoint_body d) = 170.
Proof.
  intros (_ & L1 & L2 & _ & L3 & _ & _ & _ & _ & L4). unfold endpoint_body. by rewrite !len_app, !len_to_le_bytes, L1, L2, L3, L4.
Qed.

Section endpoints.
Context {CR : Crypto} {SD : ScriptDigests} {KC : K256} {KD : KeyCodec KC}.

Definition key_ok (k : list byte) : Prop := head k ∈ [Some x02; Some x03] /\ sec1_key_ok k = true.
Definition der_ok (signature parsed : list byte) : Prop :=
  1 <= len signature <= MAX_ENDPOINT_SIGNATURE_SIZE /\ from_der signature = Some parsed /\ is_high parsed = false /\ to_der parsed = signature.
Definition endpoint_valid (d : HnsaEndpoint) : Prop :=
  en_version d = HNSA_VERSION /\ key_ok (en_endpoint_key d) /\ en_service_generation d <> 0 /\ en_endpoint_sequence d <> 0 /\
  en_issued_at d < en_expires_at d /\ en_expires_at d - en_issued_at d <= MAX_SERVICE_ENDPOINT_LIFETIME.

Lemma hnsa_key_Ok k : hnsa_validate_public_key k = Ok tt <-> key_ok k.
Proof.
  unfold hnsa_validate_public_key, key_ok. split.
  - intros H. apply bind_Ok in H as (? & H%assert_or_Ok & K%assert_or_Ok). by apply bool_decide_eq_true in H.
  - intros (H & K). apply bind_Ok. exists tt. split; [by apply assert_or_Ok, bool_decide_eq_true|by apply assert_or_Ok].
Qed.

Lemma hnsa_signature_Ok s p : hnsa_validate_signature s = Ok p <-> der_ok s p.
Proof.
  unfold hnsa_validate_signature, der_ok. pose proof (len_nonneg s). split.
  - intros H1. apply bind_Ok in H1 as (? & L%assert_or_Ok & H1). rewrite negb_true_iff, orb_false_iff, Z.eqb_neq, Z.ltb_ge in L. split; [lia|].
    apply bind_Ok in H1 as (q & P%ok_or_Ok & H1). apply bind_Ok in H1 as (? & K%assert_or_Ok & [= <-]).
    by rewrite negb_true_iff, orb_false_iff, negb_false_iff, bool_decide_eq_true in K.
  - intros (L & P & Hi & D). apply bind_Ok. exists tt. split; [apply assert_or_Ok; rewrite negb_true_iff, orb_false_iff, Z.eqb_neq, Z.ltb_ge; lia|].
    apply bind_Ok. exists p. split; [by apply ok_or_Ok|]. apply bind_Ok. exists tt. split; [|done].
    apply assert_or_Ok. by rewrite negb_true_iff, orb_false_iff, negb_false_iff, bool_decide_eq_true.
Qed.

Lemma endpoint_body_valid d : HnsaEndpoint_validate_body d = Ok tt <-> endpoint_valid d.
Proof.
  unfold HnsaEndpoint_validate_body, endpoint_valid, saturating_sub. split.
  - intros H. apply bind_Ok in H as (? & V%assert_or_Ok%Z.eqb_eq & H). apply bind_Ok in H as ([] & K%hnsa_key_Ok & H%assert_or_Ok).
    rewrite negb_true_iff, !orb_false_iff, !Z.eqb_neq, Z.leb_gt, Z.ltb_ge in H. unfold MAX_SERVICE_ENDPOINT_LIFETIME in *. split; [done|]. split; [done|]. lia.
  - intros (V & K & H). apply bind_Ok. exists tt. split; [by apply assert_or_Ok, Z.eqb_eq|]. apply bind_Ok. exists tt. split; [by apply hnsa_key_Ok|].
    apply assert_or_Ok. rewrite negb_true_iff, !orb_false_iff, !Z.eqb_neq, Z.leb_gt, Z.ltb_ge. unfold MAX_SERVICE_ENDPOINT_LIFETIME in *. lia.
Qed.

Lemma encode_body_Ok d bs : HnsaEndpoint_encode_body d = Ok bs <-> endpoint_valid d /\ bs = endpoint_body d.
Proof.
  rewrite <- endpoint_body_valid. unfold HnsaEndpoint_encode_body. destruct (HnsaEndpoint_validate_body d) as [[]|]; [|by split; [|intros (? & _)]].
  cbn [mbind result_bind]. unfold into_bytes, endpoint_body.
  repeat first [rewrite bytes_put_bytes | rewrite bytes_put_u8 | rewrite bytes_put_u32 | rewrite bytes_put_u64].
  rewrite bytes_with_capacity, <- !app_assoc. cbn [app]. split; [by intros [= <-]|by intros [_ ->]].
Qed.

Lemma endpoint_encode_Ok d bs :
  endpoint_typed d ->
  HnsaEndpoint_encode d = Ok bs <->
  endpoint_valid d /\ (exists parsed, der_ok (en_service_signature d) parsed) /\ bs = endpoint_body d ++ short_bytes (en_service_signature d).
Proof.
  intros T. pose proof (endpoint_body_len d T) as L. unfold HnsaEndpoint_encode. split.
  - intros H. apply bind_Ok in H as (b & (V & ->)%encode_body_Ok & H). apply bind_Ok in H as (p & P%hnsa_signature_Ok & H).
    apply bind_Ok in H as (? & _ & <-%Ok_inj). split; [done|]. split; [by exists p|].
    unfold into_bytes. by rewrite bytes_put_bytes, bytes_put_u8, bytes_put_bytes, bytes_with_capacity, <- app_assoc.
  - intros (V & (p & P) & ->). rewrite (proj2 (encode_body_Ok d _) (conj V eq_refl)). cbn [mbind result_bind].
    rewrite (proj2 (hnsa_signature_Ok _ _) P). cbn [mbind result_bind]. unfold into_bytes.
    rewrite bytes_put_bytes, bytes_put_u8, bytes_put_bytes, bytes_with_capacity, <- app_assoc. change ([z2b (len (en_service_signature d))] ++ en_service_signature d) with (short_bytes (en_service_signature d)).
    destruct P as (Ls & _). unfold MAX_ENDPOINT_SIGNATURE_SIZE, HNSA_MAX_ENDPOINT_DELEGATION_SIZE in *. cbn [app].
    rewrite (proj2 (Z.leb_le _ _)); [done|]. unfold short_bytes. rewrite len_app, len_cons, L. lia.
Qed.

Lemma read_endpoint_inv d e d' :
  dec_wf d -> read_endpoint d = (Ok e, d') -> took d (endpoint_body e ++ short_bytes (en_service_signature e)) d' /\ endpoint_typed e.
Proof.
  intros W R. unfold read_endpoint in R. dbind R as v d1 K1. dbind R as u1 d1' C1. dbind R as m d2 K2. dbind R as r d3 K3. dbind R as i d4 K4. dbind R as g d5 K5.
  dbind R as k d6 K6. dbind R as s d7 K7. dbind R as a d8 K8. dbind R as x d9 K9. dbind R as c d10 K10. dbind R as h d11 K11. dbind R as l d12 K12.
  dbind R as u2 d13 C2. dbind R as sg d14 K14. apply dec_ret_Ok in R as (<- & ->). took_all.
  apply read_bounded_vec_inv in K14 as (T14 & Ls & _); [|apply b2z_range|done]. split; [|by split_and!].
  unfold endpoint_body, short_bytes. cbn [en_version en_network_magic en_service_resource_id en_service_delegation_id en_service_generation en_endpoint_key
    en_endpoint_sequence en_issued_at en_expires_at en_capabilities en_constraints_hash en_service_signature].
  rewrite Ls, !z2b_b2z, <- !app_assoc. change (l :: sg) with ([l] ++ sg). took_chain.
Qed.

Lemma read_endpoint_reads d e p :
  endpoint_typed e -> endpoint_valid e -> der_ok (en_service_signature e) p ->
  reads d read_endpoint (endpoint_body e ++ short_bytes (en_service_signature e)) e.
Proof.
  intros (U1 & L1 & L2 & U2 & L3 & U3 & U4 & U5 & U6 & L4) (V & _) (Ls & _). unfold MAX_ENDPOINT_SIGNATURE_SIZE, HNSA_VERSION in *.
  unfold read_endpoint, endpoint_body, short_bytes, MAX_ENDPOINT_SIGNATURE_SIZE. rewrite <- !app_assoc. eapply reads_bind; [by apply reads_err, read_u8_reads|].
  rewrite V. eapply reads_nil_bind; [by apply reads_assert|].
  eapply reads_bind; [by apply reads_err, read_u32_reads|]. do 2 (eapply reads_bind; [by apply reads_err, read_array_reads|]).
  eapply reads_bind; [by apply reads_err, read_u64_reads|]. eapply reads_bind; [by apply reads_err, read_array_reads|].
  do 3 (eapply reads_bind; [by apply reads_err, read_u64_reads|]). eapply reads_bind; [by apply reads_err, read_u32_reads|].
  eapply reads_bind; [by apply reads_err, read_array_reads|].
  change (z2b (len (en_service_signature e)) :: en_service_signature e) with ([z2b (len (en_service_signature e))] ++ en_service_signature e).
  eapply reads_bind; [by apply reads_err, read_u8_reads|]. cbv zeta. rewrite (z2b_small (len _)) by lia.
  eapply reads_nil_bind; [apply reads_assert; rewrite !(proj2 (Z.leb_le _ _)) by lia; done|].
  eapply reads_last; [apply reads_err, read_bounded_vec_reads; lia|]. change (b2z (z2b 1)) with 1. rewrite <- V. destruct e. apply reads_ret.
Qed.

Lemma endpoint_decode_Ok inp d :
  HnsaEndpoint_decode inp = Ok d <-> endpoint_typed d /\ HnsaEndpoint_encode d = Ok inp.
Proof.
  unfold HnsaEndpoint_decode. split.
  - intros H. apply bind_Ok in H as (? & L%assert_or_Ok & H). rewrite negb_true_iff, orb_false_iff, Z.ltb_ge in L. unfold HNSA_MAX_ENDPOINT_DELEGATION_SIZE in L.
    apply bind_Ok in H as (e & (dd & R & F)%run_all_Ok & H). apply bind_Ok in H as (bs & E & H). apply bind_Ok in H as (? & <-%assert_or_Ok%bool_decide_eq_true & [= <-]).
    split; [|done]. apply read_endpoint_inv in R as (_ & T); [done|]. apply wf_new. unfold isize_max. lia.
  - intros (T & E). pose proof E as (V & (p & P) & ->)%endpoint_encode_Ok; [|done]. pose proof (endpoint_body_len d T) as L.
    assert (len (short_bytes (en_service_signature d)) <= 81) as Ls by (destruct P as (Ls & _); unfold short_bytes, MAX_ENDPOINT_SIGNATURE_SIZE in *; rewrite len_cons; lia).
    set (sg := short_bytes (en_service_signature d)) in *. pose proof (len_nonneg sg). assert (len (endpoint_body d ++ sg) = 170 + len sg) as La by (rewrite len_app; lia).
    unfold HNSA_MAX_ENDPOINT_DELEGATION_SIZE. rewrite La, (proj2 (Z.eqb_neq _ _)), (proj2 (Z.ltb_ge _ _)) by lia. cbn [orb negb assert_or mbind result_bind].
    rewrite (run_all_reads HnsaDecode read_endpoint _ d); [|rewrite La; unfold isize_max; lia|by eapply read_endpoint_reads]. cbn [mbind result_bind].
    rewrite E. cbn [mbind result_bind]. by rewrite bool_decide_eqb_refl.
Qed.

(** Both durable forms have one spelling: an observation or an endpoint delegation
    is decoded exactly from the bytes its own encoder writes, checksum and DER
    signature included. *)
Theorem hnsa_codec inp :
  (forall o, ServiceGenerationObservation_decode inp = Ok o <-> observation_typed o /\ ServiceGenerationObservation_encode o = Ok inp) /\
  (forall d, HnsaEndpoint_decode inp = Ok d <-> endpoint_typed d /\ HnsaEndpoint_encode d = Ok inp).
Proof. split; intros x; [apply observation_decode_Ok|apply endpoint_decode_Ok]. Qed.

(** ** Verification and signing *)
Definition endpoint_context (d : HnsaEndpoint) (s : VerifiedNamedService) (now required : Z) : Prop :=
  en_network_magic d = ni_network_magic (vn_identity s) /\ en_service_resource_id d = vn_resource_id s /\
  en_service_delegation_id d = vn_delegation_id s /\ en_service_generation d = vn_service_generation s /\
  vn_validated_at s <= now < vn_cache_until s /\ en_issued_at d <= now < en_expires_at d /\
  vn_resource_not_before s <= en_issued_at d /\ vn_delegation_not_before s <= en_issued_at d /\
  en_expires_at d <= vn_resource_expires_at s /\ en_expires_at d <= vn_delegation_expires_at s /\
  en_expires_at d - en_issued_at d <= Z.min (vn_max_endpoint_lifetime s) (vn_application_maximum_endpoint_lifetime s) /\
  Z.land (en_capabilities d) (u32_max - vn_allowed_endpoint_capabilities s) = 0 /\
  Z.land (en_capabilities d) (Z.lor required (vn_required_endpoint_capabilities s)) = Z.lor required (vn_required_endpoint_capabilities s) /\
  en_constraints_hash d = vn_endpoint_constraints_hash s.

Lemma endpoint_context_Ok d s now required :
  validate_service_context d s now required = Ok tt <-> endpoint_context d s now required.
Proof.
  unfold validate_service_context, endpoint_context, saturating_sub. cbv zeta.
  rewrite assert_or_Ok, negb_true_iff, !orb_false_iff, !negb_false_iff, !bool_decide_eq_true, !Z.eqb_eq, !Z.ltb_ge, !Z.leb_gt. split.
  - intros H. repeat match type of H with _ /\ _ => destruct H as (H & ?) end. split_and!; try done; lia.
  - intros (? & ? & ? & ? & ? & ? & ? & ? & ? & ? & ? & ? & ? & ?). split_and!; try done; lia.
Qed.

(** [key] signed all the fields of [d] under the endpoint domain. *)
Definition endpoint_signed (key : list byte) (d : HnsaEndpoint) : Prop :=
  key_ok key /\ exists parsed, der_ok (en_service_signature d) parsed /\
    verify_prehash key (blake2b 32 (ENDPOINT_SIGNATURE_DOMAIN ++ endpoint_body d)) parsed = true.

Lemma endpoint_digest body : hnsa_blake2b_256 [ENDPOINT_SIGNATURE_DOMAIN; body] = blake2b 32 (ENDPOINT_SIGNATURE_DOMAIN ++ body).
Proof. unfold hnsa_blake2b_256. cbn [mjoin list_join]. by rewrite app_nil_r. Qed.

Lemma verify_admission_Ok d key : verify_admission d key = Ok tt <-> endpoint_valid d /\ endpoint_signed key d.
Proof.
  unfold verify_admission, endpoint_signed. split.
  - intros H. apply bind_Ok in H as (b & (V & ->)%encode_body_Ok & H). apply bind_Ok in H as (p & P%hnsa_signature_Ok & H).
    apply bind_Ok in H as ([] & K%hnsa_key_Ok & H%assert_or_Ok). rewrite endpoint_digest in H. split; [done|]. split; [done|]. by exists p.
  - intros (V & K & p & P & H). apply bind_Ok. exists (endpoint_body d). split; [by apply encode_body_Ok|]. apply bind_Ok. exists p.
    split; [by apply hnsa_signature_Ok|]. apply bind_Ok. exists tt. split; [by apply hnsa_key_Ok|]. rewrite endpoint_digest. by apply assert_or_Ok.
Qed.

Lemma verify_uncommitted_Ok d s now required :
  verify_uncommitted d s now required = Ok tt <->
  endpoint_context d s now required /\ endpoint_valid d /\ endpoint_signed (vn_service_controller_key s) d.
Proof.
  unfold verify_uncommitted. rewrite <- verify_admission_Ok, <- endpoint_context_Ok. rewrite bind_Ok. split; [by intros ([] & ?)|]. intros ?. by exists tt.
Qed.

(** What an endpoint delegation must be to count for a service at a time: it names
    the service's resource, delegation and generation, its window lies in theirs and
    within both lifetime limits, its capabilities are allowed and include the
    required ones, and the service's controller key signed all its fields. *)
Theorem endpoint_verify_exact d s now required :
  verify_uncommitted d s now required = Ok tt <->
  endpoint_context d s now required /\ endpoint_valid d /\ endpoint_signed (vn_service_controller_key s) d.
Proof. apply verify_uncommitted_Ok. Qed.

(** Signing. Whatever [sign_uncommitted] is asked to sign, it changes nothing but the
    signature, and reports success only with a delegation that verifies; and it does
    succeed for the service's own key on a valid delegation in the service's context,
    leaving one that encodes and decodes back. *)
Theorem endpoint_sign_verifies (KL : K256Laws KC) (KDL : KeyCodecLaws KC KD) d s now sk :
  let '(r, d') := sign_uncommitted d s now sk in
  (exists signature, d' = with_endpoint_signature d signature) /\
  (r = Ok tt -> verify_uncommitted d' s now 0 = Ok tt) /\
  (forall key signature, endpoint_typed d -> signing_key_from_bytes sk = Some key -> verifying_key key = vn_service_controller_key s ->
    endpoint_context d s now 0 -> endpoint_valid d ->
    sign_prehash key (blake2b 32 (ENDPOINT_SIGNATURE_DOMAIN ++ endpoint_body d)) = Some signature ->
    r = Ok tt /\ exists bs, HnsaEndpoint_encode d' = Ok bs /\ HnsaEndpoint_decode bs = Ok d').
Proof.
  unfold sign_uncommitted. match goal with |- context [match ?m with Ok _ => _ | Err _ => _ end] => destruct m as [der|e] eqn:E end.
  - split; [by exists der|]. split; [done|]. intros key signature T SK VK C V SG.
    apply bind_Ok in E as (k & K%ok_or_Ok & E). rewrite SK in K. injection K as <-. do 2 (apply bind_Ok in E as (? & _ & E)).
    apply bind_Ok in E as (b & (_ & ->)%encode_body_Ok & E). rewrite endpoint_digest in E. apply bind_Ok in E as (sg & G%ok_or_Ok & [= <-]).
    rewrite SG in G. injection G as <-. change (default signature (normalize_s signature)) with (low_s signature).
    destruct (low_s_ok KL _ _ _ SG) as (_ & LC & LH & LV). pose proof (der_size _ LC) as DS. pose proof (der_roundtrip _ LC) as DR.
    set (d' := with_endpoint_signature d (to_der (low_s signature))).
    assert (der_ok (en_service_signature d') (low_s signature)) as P by (unfold der_ok, MAX_ENDPOINT_SIGNATURE_SIZE; cbn; split; [lia|done]).
    split.
    + apply verify_uncommitted_Ok. split; [done|]. split; [done|]. rewrite <- VK. split; [|by exists (low_s signature)].
      split; [apply sec1_compressed; [apply compressed_size|]|]; apply verifying_key_ok.
    + exists (endpoint_body d' ++ short_bytes (en_service_signature d')). rewrite endpoint_decode_Ok. rewrite endpoint_encode_Ok by done. eauto 10.
  - split; [exists (en_service_signature d); by destruct d|]. split; [done|]. intros key signature T SK VK C V SG. exfalso. apply (f_equal is_ok) in E.
    cbn [is_ok] in E. unfold hnsa_signing_key in E. rewrite SK in E. cbn [ok_or mbind result_bind] in E. rewrite VK, bool_decide_eqb_refl in E.
    cbn [assert_or mbind result_bind] in E. rewrite (proj2 (endpoint_context_Ok _ _ _ _) C) in E. cbn [mbind result_bind] in E.
    rewrite (proj2 (encode_body_Ok d _) (conj V eq_refl)) in E. cbn [mbind result_bind] in E. rewrite endpoint_digest, SG in E. done.
Qed.

(** ** Selection *)
Lemma foldl_max s l : (forall x, x ∈ s :: l -> x <= foldl Z.max s l) /\ foldl Z.max s l ∈ s :: l.
Proof.
  revert s. induction l as [|y l IH]; intros s; cbn [foldl].
  - split; [intros x ->%list_elem_of_singleton; done|by apply list_elem_of_singleton].
  - destruct (IH (Z.max s y)) as (U & I). split.
    + intros x [->|[->|J]%elem_of_cons]%elem_of_cons.
      * pose proof (U (Z.max s y) ltac:(left)). lia.
      * pose proof (U (Z.max s y) ltac:(left)). lia.
      * by apply U; right.
    + apply elem_of_cons in I as [->|I]; [|by do 2 right]. destruct (Z.max_spec s y) as [(_ & ->)|(_ & ->)]; [by right; left|by left].
Qed.

(** Encodings determine the delegation. *)
Lemma endpoint_encode_inj a b bs : endpoint_typed a -> endpoint_typed b -> HnsaEndpoint_encode a = Ok bs -> HnsaEndpoint_encode b = Ok bs -> a = b.
Proof.
  intros Ta Tb Ea Eb. pose proof (proj2 (endpoint_decode_Ok bs a) (conj Ta Ea)) as Da. pose proof (proj2 (endpoint_decode_Ok bs b) (conj Tb Eb)) as Db. congruence.
Qed.

Section selecting.
Variables (candidates : list HnsaEndpoint) (s : VerifiedNamedService) (now required : Z) (logical : HnsaEndpoint -> bool).
Hypothesis T : Forall endpoint_typed candidates.

Definition counts (c : HnsaEndpoint) : Prop := c ∈ candidates /\ logical c = true /\ verify_uncommitted c s now required = Ok tt.
Definition greatest (c : HnsaEndpoint) : Prop := counts c /\ forall x, counts x -> en_endpoint_sequence x <= en_endpoint_sequence c.
Definition select := select_endpoint_delegation_uncommitted candidates s now required logical.

Lemma counts_encodes c : counts c -> exists bs, HnsaEndpoint_encode c = Ok bs.
Proof.
  intros (I & _ & (_ & V & _ & p & P & _)%verify_uncommitted_Ok). rewrite Forall_forall in T. eexists. apply endpoint_encode_Ok; [by apply T|]. eauto.
Qed.

Lemma same_bytes_each xs bs : Forall counts xs ->
  let each := try_each (fun c => bytes ← HnsaEndpoint_encode c; assert_or (bool_decide (bytes = bs)) EndpointSequenceConflict) xs in
  (each = Ok tt /\ Forall (fun c => HnsaEndpoint_encode c = Ok bs) xs) \/
  (each = Err EndpointSequenceConflict /\ Exists (fun c => HnsaEndpoint_encode c <> Ok bs) xs).
Proof.
  intros F. unfold try_each. induction F as [|c xs C _ IH]; [left; by split|]. destruct (counts_encodes c C) as (b & E). cbn [try_fold].
  rewrite E. cbn [mbind result_bind]. case_bool_decide as B; cbn [assert_or mbind result_bind].
  - destruct IH as [(-> & F)|(-> & F)]; [left|right]; split; try done; [|by right]. constructor; [by rewrite E, B|done].
  - right. split; [done|]. left. rewrite E. congruence.
Qed.

(** The three outcomes of a selection within the bound. *)
Lemma select_cases : len candidates <= HNSA_MAX_ENDPOINT_DELEGATION_CANDIDATES ->
  (select = Err MissingEndpoint /\ forall c, ~ counts c) \/
  (exists c, select = Ok c /\ greatest c /\ forall x, greatest x -> HnsaEndpoint_encode x = HnsaEndpoint_encode c) \/
  (select = Err EndpointSequenceConflict /\ exists a b, greatest a /\ greatest b /\ HnsaEndpoint_encode a <> HnsaEndpoint_encode b).
Proof.
  intros L. unfold select, select_endpoint_delegation_uncommitted. change (saturating_add usize_max HNSA_MAX_ENDPOINT_DELEGATION_CANDIDATES 1) with 33.
  unfold HNSA_MAX_ENDPOINT_DELEGATION_CANDIDATES in *. rewrite take_ge by (unfold len in L; lia). rewrite (proj2 (Z.leb_le _ _)) by lia. cbn [assert_or mbind result_bind].
  set (valid := List.filter _ candidates). assert (forall c, In c valid <-> counts c) as V.
  { intros c. unfold valid, counts. rewrite filter_In, andb_true_iff, list_elem_of_In. destruct (verify_uncommitted c s now required) as [[]|]; cbn; intuition congruence. }
  clearbody valid. destruct valid as [|v0 vs]; [left; split; [done|]; by intros c C%V|]. right. cbn [map ok_or mbind result_bind].
  destruct (foldl_max (en_endpoint_sequence v0) (map en_endpoint_sequence vs)) as (U & I). set (m := foldl Z.max _ _) in *.
  change (en_endpoint_sequence v0 :: map en_endpoint_sequence vs) with (map en_endpoint_sequence (v0 :: vs)) in *. set (valid := v0 :: vs) in *. clearbody valid m.
  assert (forall x, counts x -> en_endpoint_sequence x <= m) as Um by (intros x X%V; by apply U, list_elem_of_In, in_map).
  apply list_elem_of_In, in_map_iff in I as (g & Sg & Ig).
  assert (forall c, In c (List.filter (fun c => en_endpoint_sequence c =? m) valid) <-> greatest c) as G.
  { intros c. unfold greatest. rewrite filter_In, Z.eqb_eq, V. split; [by intros (C & ->)|].
    intros (C & Gc). split; [done|]. specialize (Gc g (proj1 (V g) Ig)). specialize (Um c C). lia. }
  assert (In g (List.filter (fun c => en_endpoint_sequence c =? m) valid)) as Gg by (by apply filter_In; rewrite Z.eqb_eq).
  destruct (List.filter _ valid) as [|c others]; [done|]. assert (greatest c) as Gc by (apply G; by left). destruct (counts_encodes c (proj1 Gc)) as (b & E).
  rewrite E. cbn [mbind result_bind]. destruct (same_bytes_each others b) as [(-> & F)|(-> & F)].
  - apply Forall_forall. intros x X%list_elem_of_In. by apply (G x); right.
  - left. exists c. split; [done|]. split; [done|]. rewrite Forall_forall in F. intros x [<-|X]%G; [done|]. rewrite E. by apply F, list_elem_of_In.
  - right. split; [done|]. apply Exists_exists in F as (x & X%list_elem_of_In & N). exists x, c. rewrite E. split; [by apply G; right|done].
Qed.

Lemma select_outcomes : len candidates <= HNSA_MAX_ENDPOINT_DELEGATION_CANDIDATES ->
  (select = Err MissingEndpoint /\ forall c, ~ counts c) \/
  (exists c, select = Ok c /\ greatest c /\ forall x, greatest x -> x = c) \/
  (select = Err EndpointSequenceConflict /\ exists a b, greatest a /\ greatest b /\ a <> b).
Proof.
  intros L. destruct (select_cases L) as [?|[(c & E & G & Same)|(E & a & b & Ga & Gb & N)]]; [by left|right; left|right; right].
  - exists c. split; [done|]. split; [done|]. intros x X. destruct (counts_encodes c (proj1 G)) as (bs & Eb). rewrite Forall_forall in T.
    eapply endpoint_encode_inj; [apply T, X|apply T, G| |exact Eb]. by rewrite (Same x X).
  - split; [done|]. exists a, b. split; [done|]. split; [done|]. by intros ->.
Qed.

Lemma select_too_many : HNSA_MAX_ENDPOINT_DELEGATION_CANDIDATES < len candidates -> select = Err (HnsaInvalid "too many endpoint-delegation candidates").
Proof.
  unfold select, select_endpoint_delegation_uncommitted. change (saturating_add usize_max HNSA_MAX_ENDPOINT_DELEGATION_CANDIDATES 1) with 33.
  unfold HNSA_MAX_ENDPOINT_DELEGATION_CANDIDATES. intros L. assert (len (take (Z.to_nat 33) candidates) = 33) as -> by (unfold len in *; rewrite length_take; lia). done.
Qed.
End selecting.

Lemma endpoint_greatest_perm xs ys s now required logical c : xs ≡ₚ ys -> greatest xs s now required logical c -> greatest ys s now required logical c.
Proof. intros P ((I & C) & G). split; [split; [by rewrite <- P|done]|]. intros x (J & X). apply G. split; [by rewrite P|done]. Qed.

(** Selecting an endpoint. Within 32 candidates the outcome is exactly one of three:
    no candidate counts and the endpoint is missing; the candidates of greatest
    sequence among those that count are all one delegation, which is returned; or two
    of them differ and the selection reports the conflict. More candidates are
    refused. The order in which the candidates arrive changes nothing. *)
Theorem endpoint_selection_exact xs s now required logical (T : Forall endpoint_typed xs) :
  let select := select_endpoint_delegation_uncommitted xs s now required logical in
  let best := greatest xs s now required logical in
  (len xs <= HNSA_MAX_ENDPOINT_DELEGATION_CANDIDATES ->
    (select = Err MissingEndpoint /\ forall c, ~ counts xs s now required logical c) \/
    (exists c, select = Ok c /\ best c /\ forall x, best x -> x = c) \/
    (select = Err EndpointSequenceConflict /\ exists a b, best a /\ best b /\ a <> b)) /\
  (HNSA_MAX_ENDPOINT_DELEGATION_CANDIDATES < len xs -> select = Err (HnsaInvalid "too many endpoint-delegation candidates")) /\
  (forall ys, xs ≡ₚ ys -> select_endpoint_delegation_uncommitted ys s now required logical = select).
Proof.
  intros sel best. pose proof (fun ys Ty L => select_outcomes ys s now required logical Ty L) as Cases.
  split; [by apply Cases|]. split; [apply select_too_many|]. intros ys P. change (select ys s now required logical = select xs s now required logical).
  assert (Forall endpoint_typed ys) as Ty by by rewrite <- P. assert (len ys = len xs) as Le by (unfold len; by rewrite P).
  destruct (Z.leb_spec (len xs) HNSA_MAX_ENDPOINT_DELEGATION_CANDIDATES) as [L|L]; [|by rewrite !select_too_many by lia].
  pose proof (fun c => endpoint_greatest_perm xs ys s now required logical c P) as Pxy. pose proof (fun c => endpoint_greatest_perm ys xs s now required logical c (symmetry P)) as Pyx.
  assert (forall c, ~ counts ys s now required logical c <-> ~ counts xs s now required logical c) as Pc by (intros c; unfold counts; by rewrite P).
  destruct (Cases xs T L) as [(-> & N)|[(c & -> & G & Same)|(-> & a & b & Ga & Gb & N)]], (Cases ys Ty ltac:(lia)) as [(-> & N')|[(c' & -> & G' & Same')|(-> & a' & b' & Ga' & Gb' & N')]].
  - done.
  - by destruct (N c' (proj1 (Pyx _ G'))).
  - by destruct (N a' (proj1 (Pyx _ Ga'))).
  - by destruct (N' c (proj1 (Pxy _ G))).
  - by rewrite (Same c' (Pyx _ G')).
  - destruct N'. by rewrite (Same a' (Pyx _ Ga')), (Same b' (Pyx _ Gb')).
  - by destruct (N' a (proj1 (Pxy _ Ga))).
  - destruct N. by rewrite (Same' a (Pxy _ Ga)), (Same' b (Pxy _ Gb)).
  - done.
Qed.
End endpoints.

(** ** Observing a manifest, declaratively *)
Section observing.
Context {CR : Crypto} {SD : ScriptDigests} {KC : K256} {KD : KeyCodec KC}.

Definition resource_valid (r : ResourceEntry) (i : NamedServiceIdentity) (p : NamedServicePolicy) (now : Z) (a : NamedServiceAttributes) : Prop :=
  identity_typed i /\ rs_profile r = NAMED_SERVICE_PROFILE /\ canonical_identifier i = Ok (rs_identifier r) /\ service_resource_id i = Ok (rs_resource_id r) /\
  rs_authority r = HnsLocal /\ rs_not_before r <= now < rs_expires_at r /\ NamedServiceAttributes_from_resource r = Ok a /\
  Z.land (na_profile_flags a) (u16_max - np_allowed_profile_flags p) = 0 /\
  Z.land (na_profile_flags a) (np_required_profile_flags p) = np_required_profile_flags p /\
  na_profile_constraints_hash a = np_expected_profile_constraints_hash p.

Lemma resource_Ok r i p now a : hnsa_validate_resource r i p now = Ok a <-> resource_valid r i p now a.
Proof.
  unfold hnsa_validate_resource, resource_valid. cbv zeta. split.
  - intros H. apply bind_Ok in H as (? & Hp%assert_or_Ok%bool_decide_eq_true & H). apply bind_Ok in H as (id & Hi & H).
    apply bind_Ok in H as (? & <-%assert_or_Ok%bool_decide_eq_true & H). apply bind_Ok in H as (rid & Hr & H). apply bind_Ok in H as (? & K%assert_or_Ok & H).
    rewrite negb_true_iff, !orb_false_iff, !negb_false_iff, bool_decide_eq_true, !Z.leb_gt, Z.ltb_ge in K. destruct K as ((((<- & Ka) & _) & N) & E).
    apply bind_Ok in H as (i' & (T & _)%decode_identifier_Ok & H). apply bind_Ok in H as (? & ->%assert_or_Ok%bool_decide_eq_true & H).
    apply bind_Ok in H as (a' & A & H). apply bind_Ok in H as (? & K%assert_or_Ok & [= <-]).
    rewrite negb_true_iff, !orb_false_iff, !negb_false_iff, bool_decide_eq_true, !Z.eqb_eq in K. destruct (rs_authority r); try done. intuition done.
  - intros (T & Hp & Hi & Hr & Ha & W & A & F1 & F2 & F3). apply bind_Ok. exists tt. split; [by apply assert_or_Ok, bool_decide_eq_true|].
    apply bind_Ok. exists (rs_identifier r). split; [done|]. apply bind_Ok. exists tt. split; [by apply assert_or_Ok, bool_decide_eq_true|].
    apply bind_Ok. exists (rs_resource_id r). split; [done|]. apply bind_Ok. exists tt. split.
    { apply assert_or_Ok. rewrite Ha, negb_true_iff, !orb_false_iff, !negb_false_iff, bool_decide_eq_true, !Z.leb_gt, Z.ltb_ge. intuition lia. }
    apply bind_Ok. exists i. split; [by apply decode_identifier_Ok|]. apply bind_Ok. exists tt. split; [by apply assert_or_Ok, bool_decide_eq_true|].
    apply bind_Ok. exists a. split; [done|]. apply bind_Ok. exists tt. split; [|done]. apply assert_or_Ok.
    by rewrite negb_true_iff, !orb_false_iff, !negb_false_iff, bool_decide_eq_true, !Z.eqb_eq.
Qed.

Definition delegation_valid (d : Delegation) (r : ResourceEntry) (i : NamedServiceIdentity) (p : NamedServicePolicy) (now issued_at expires_at : Z)
    (c : ServiceDelegationConstraints) : Prop :=
  dg_parent_resource_id d = rs_resource_id r /\ dg_child_profile d = NAMED_SERVICE_PROFILE /\ dg_child_resource_id d = rs_resource_id r /\
  dg_child_identifier d = rs_identifier r /\ dg_child_subject d = ni_name_hash i /\ ct_algorithm (dg_child_controller d) = ALGORITHM_SECP256K1_ECDSA /\
  dg_rights d = [DELEGATE_ENDPOINT; OPERATE_ACTION] /\ dg_may_subdelegate d = false /\
  rs_not_before r <= dg_not_before d <= now /\ now < dg_expires_at d <= rs_expires_at r /\ key_ok (ct_public_key (dg_child_controller d)) /\
  ServiceDelegationConstraints_from_delegation d = Ok c /\
  Z.land (sc_allowed_endpoint_capabilities c) (u32_max - np_allowed_endpoint_capabilities p) = 0 /\
  Z.land (sc_allowed_endpoint_capabilities c) (np_required_endpoint_capabilities p) = np_required_endpoint_capabilities p /\
  sc_endpoint_constraints_hash c = np_expected_endpoint_constraints_hash p /\
  service_delegation_id d issued_at expires_at = Ok (dg_delegation_id d).

Lemma service_delegation_Ok d r i p now ia ea c :
  validate_service_delegation d r i p now ia ea = Ok c <-> delegation_valid d r i p now ia ea c.
Proof.
  unfold validate_service_delegation, delegation_valid. split.
  - intros H. apply bind_Ok in H as (? & K%assert_or_Ok & H). rewrite negb_true_iff, !orb_false_iff, !negb_false_iff, !bool_decide_eq_true, !Z.leb_gt, !Z.ltb_ge, Z.eqb_eq in K.
    apply bind_Ok in H as ([] & Ky%hnsa_key_Ok & H). apply bind_Ok in H as (c' & C & H). apply bind_Ok in H as (? & P%assert_or_Ok & H).
    rewrite negb_true_iff, !orb_false_iff, !negb_false_iff, bool_decide_eq_true, !Z.eqb_eq in P. apply bind_Ok in H as (id & I & H).
    apply bind_Ok in H as (? & E%assert_or_Ok%bool_decide_eq_true & [= <-]). rewrite E. intuition done.
  - intros (E1 & E2 & E3 & E4 & E5 & E6 & E7 & E8 & W1 & W2 & Ky & C & P1 & P2 & P3 & I). apply bind_Ok. exists tt. split.
    { apply assert_or_Ok. rewrite negb_true_iff, !orb_false_iff, !negb_false_iff, !bool_decide_eq_true, !Z.leb_gt, !Z.ltb_ge, Z.eqb_eq. intuition lia. }
    apply bind_Ok. exists tt. split; [by apply hnsa_key_Ok|]. apply bind_Ok. exists c. split; [done|]. apply bind_Ok. exists tt. split.
    { apply assert_or_Ok. by rewrite negb_true_iff, !orb_false_iff, !negb_false_iff, bool_decide_eq_true, !Z.eqb_eq. }
    apply bind_Ok. exists (dg_delegation_id d). split; [done|]. apply bind_Ok. exists tt. split; [by apply assert_or_Ok, bool_decide_eq_true|done].
Qed.

(** A generation may follow an observation when it is greater, or when it is the same
    delegation still active; an accepted reorganization starts over. *)
Definition generation_allowed (previous : option ServiceGenerationObservation) (id : list byte) (generation : Z) (reorganization : bool) : Prop :=
  match previous with
  | None => True
  | Some o => reorganization = true \/ go_highest_generation o < generation \/
              generation = go_highest_generation o /\ is_withdrawn o = false /\ id = go_high_water_delegation_id o
  end.

Lemma generation_rule_Ok previous d c reorganization :
  apply_generation_rule previous d c reorganization = Ok tt <->
  generation_allowed previous (dg_delegation_id d) (sc_service_generation c) reorganization.
Proof.
  unfold apply_generation_rule, generation_allowed. destruct previous as [o|]; [|done]. destruct reorganization; [by split; [left|]|]. split.
  - intros H. right. apply bind_Ok in H as (? & K%assert_or_Ok & H%assert_or_Ok). rewrite negb_true_iff, orb_false_iff, andb_false_iff, Z.ltb_ge, Z.leb_gt in K.
    rewrite negb_true_iff, andb_false_iff, Z.eqb_neq, negb_false_iff, bool_decide_eq_true in H. destruct (is_withdrawn o); [left; destruct K as (? & [?|?]); [done|lia]|].
    destruct (decide (sc_service_generation c = go_highest_generation o)); [right; by destruct H|left; lia].
  - intros [?|H]; [done|]. apply bind_Ok. exists tt. split; apply assert_or_Ok.
    + rewrite negb_true_iff, orb_false_iff, andb_false_iff, Z.ltb_ge, Z.leb_gt. intuition lia.
    + rewrite negb_true_iff, andb_false_iff, Z.eqb_neq, negb_false_iff, bool_decide_eq_true. destruct H as [?|(-> & _ & ->)]; [left; lia|by right].
Qed.

Definition previous_ok (previous : option ServiceGenerationObservation) (i : NamedServiceIdentity) (resource_id : list byte) (current : RollbackState)
    (accepted : option AcceptedReorganization) : Prop :=
  match previous with
  | None => True
  | Some o => validate_observation o = Ok tt /\ ServiceGenerationObservation_key o = (ni_network_magic i, ni_name_hash i, resource_id) /\
              validate_rollback (go_rollback_state o) current accepted = Ok tt
  end.

Definition observation_of (i : NamedServiceIdentity) (rid : list byte) (s : ValidatedManifestSnapshot) (d : Delegation) (c : ServiceDelegationConstraints)
    : ServiceGenerationObservation :=
  mkObservation (ni_network_magic i) (ni_name_hash i) rid (sc_service_generation c) (dg_delegation_id d) (Some (dg_delegation_id d)) (vs_sequence s)
    (vs_envelope_hash s) (vs_rollback_state s).

Definition verified_of (i : NamedServiceIdentity) (p : NamedServicePolicy) (rid : list byte) (m : ValidatedCurrentManifest) (r : ResourceEntry)
    (a : NamedServiceAttributes) (d : Delegation) (c : ServiceDelegationConstraints) : VerifiedNamedService :=
  let s := cm_current_snapshot m in
  mkVerified i rid (dg_delegation_id d) (sc_service_generation c) (ct_public_key (dg_child_controller d)) (na_profile_flags a)
    (na_profile_constraints_hash a) (sc_max_endpoint_lifetime c) (sc_allowed_endpoint_capabilities c) (np_required_endpoint_capabilities p)
    (sc_endpoint_constraints_hash c) (np_maximum_endpoint_lifetime p) (rs_not_before r) (rs_expires_at r) (dg_not_before d) (dg_expires_at d)
    (Z.min (Z.min (cm_expires_at m) (rs_expires_at r)) (dg_expires_at d)) (vs_validated_at s) (vs_sequence s) (vs_envelope_hash s)
    (observation_of i rid s d c).

(** What the manifest says of the service: nothing, or one valid delegation. *)
Definition manifest_says (m : ValidatedCurrentManifest) (i : NamedServiceIdentity) (p : NamedServicePolicy) (previous : option ServiceGenerationObservation)
    (rid : list byte) (o : ObservedNamedService) : Prop :=
  let s := cm_current_snapshot m in
  let reorganization := reorganization_accepted previous (vs_rollback_state s) (vs_accepted_reorganization s) in
  let withdrawn := ObservedWithdrawn (withdrawn_observation i rid previous (vs_sequence s) (vs_envelope_hash s) (vs_rollback_state s) reorganization) in
  (ValidatedManifestSnapshot_resource s rid = None /\ o = withdrawn) \/
  exists r a, ValidatedManifestSnapshot_resource s rid = Some r /\ resource_valid r i p (vs_validated_at s) a /\
    ((List.filter (operates rid) (vs_delegations s) = [] /\ o = withdrawn) \/
     exists d c, List.filter (operates rid) (vs_delegations s) = [d] /\
       delegation_valid d r i p (vs_validated_at s) (vs_payload_issued_at s) (vs_payload_expires_at s) c /\
       generation_allowed previous (dg_delegation_id d) (sc_service_generation c) reorganization /\
       o = ObservedActive (verified_of i p rid m r a d c)).

Definition observable (m : ValidatedCurrentManifest) (i : NamedServiceIdentity) (p : NamedServicePolicy) (previous : option ServiceGenerationObservation)
    (rid : list byte) : Prop :=
  NamedServiceIdentity_validate i = Ok tt /\ NamedServicePolicy_validate p = Ok tt /\ service_resource_id i = Ok rid /\ provenance_ok m i p = true /\
  previous_ok previous i rid (vs_rollback_state (cm_current_snapshot m)) (vs_accepted_reorganization (cm_current_snapshot m)).

Lemma previous_Ok previous i rid current accepted :
  (validate_previous previous i rid = Ok tt /\
   match previous with
   | Some o => map_err (fun _ => GenerationRollback) (validate_rollback (go_rollback_state o) current accepted)
   | None => Ok tt
   end = Ok tt) <-> previous_ok previous i rid current accepted.
Proof.
  unfold validate_previous, previous_ok. destruct previous as [o|]; [|done]. rewrite map_err_Ok. split.
  - intros (H & R). apply bind_Ok in H as ([] & V & K%assert_or_Ok). split; [done|]. split; [|done].
    rewrite negb_true_iff, !orb_false_iff, !negb_false_iff, !bool_decide_eq_true, Z.eqb_eq in K. destruct K as ((E1 & E2) & E3).
    unfold ServiceGenerationObservation_key. congruence.
  - intros (V & [= E1 E2 E3] & R). split; [|done]. apply bind_Ok. exists tt. split; [done|]. apply assert_or_Ok.
    by rewrite negb_true_iff, !orb_false_iff, !negb_false_iff, !bool_decide_eq_true, Z.eqb_eq.
Qed.

Lemma take_2_one {A} (l : list A) d : len (take 2 l) <= 1 -> head (take 2 l) = Some d <-> l = [d].
Proof.
  destruct l as [|x [|y l]]; cbn [take head]; intros L; [by split|split; [by intros [= ->]|by intros [= ->]]|].
  change (2 <= 1) in L. lia.
Qed.

Lemma observe_Ok m i p previous o :
  observe_named_service m i p previous = Ok o <-> exists rid, observable m i p previous rid /\ manifest_says m i p previous rid o.
Proof.
  unfold observe_named_service, observable, manifest_says. cbv zeta. set (s := cm_current_snapshot m). split.
  - intros H. apply bind_Ok in H as ([] & Vi & H). apply bind_Ok in H as ([] & Vp & H). apply bind_Ok in H as (rid & Hr & H).
    apply bind_Ok in H as (? & Pr%assert_or_Ok & H). apply bind_Ok in H as ([] & V1 & H). apply bind_Ok in H as ([] & V2 & H).
    exists rid. split; [split_and!; try done; by apply previous_Ok|]. destruct (ValidatedManifestSnapshot_resource s rid) as [r|]; [right|left; by injection H as <-].
    apply bind_Ok in H as (a & A%resource_Ok & H). apply bind_Ok in H as (? & L%assert_or_Ok%Z.leb_le & H). exists r, a. split; [done|]. split; [done|].
    destruct (head _) as [d|] eqn:Hd; [right|left].
    + apply (take_2_one _ _ L) in Hd. apply bind_Ok in H as (c & C%service_delegation_Ok & H). apply bind_Ok in H as ([] & G%generation_rule_Ok & [= <-]). by exists d, c.
    + injection H as <-. split; [|done]. by destruct (List.filter _ _).
  - intros (rid & (Vi & Vp & Hr & Pr & (V1 & V2)%previous_Ok) & H). apply bind_Ok. exists tt. split; [done|]. apply bind_Ok. exists tt. split; [done|].
    apply bind_Ok. exists rid. split; [done|]. apply bind_Ok. exists tt. split; [by apply assert_or_Ok|]. apply bind_Ok. exists tt. split; [done|].
    apply bind_Ok. exists tt. split; [done|]. destruct H as [(-> & ->)|(r & a & -> & A & H)]; [done|]. apply bind_Ok. exists a. split; [by apply resource_Ok|].
    destruct H as [(-> & ->)|(d & c & -> & C & G & ->)]; [done|]. cbn [take head]. apply bind_Ok. exists tt. split; [done|].
    apply bind_Ok. exists c. split; [by apply service_delegation_Ok|]. apply bind_Ok. exists tt. split; [by apply generation_rule_Ok|done].
Qed.

(** Observing a manifest, exactly. A service is active when the manifest's provenance
    is the one asked for, it does not roll back what was observed before without
    accepted evidence, it carries the service's own resource under the application's
    policy, exactly one delegation of that resource carries the right to operate,
    that delegation is valid to the last field and identifier, and its generation may
    follow; it is withdrawn when the resource or every such delegation is gone. In
    every other case the observation fails, so nothing ambiguous or malformed is ever
    taken for a withdrawal. *)
Theorem observe_exact m i p previous o :
  observe_named_service m i p previous = Ok o <-> exists rid, observable m i p previous rid /\ manifest_says m i p previous rid o.
Proof. apply observe_Ok. Qed.

(** ** Histories *)
Lemma constraints_generation d c : ServiceDelegationConstraints_from_delegation d = Ok c -> sc_service_generation c <> 0.
Proof.
  unfold ServiceDelegationConstraints_from_delegation. intros H. apply bind_Ok in H as (fs & _ & H).
  destruct fs as [|[k0 v0] [|[k1 v1] [|[k2 v2] [|[k3 v3] [|]]]]]; try done. do 5 (apply bind_Ok in H as (? & _ & H)).
  apply bind_Ok in H as ([] & V & [= <-]). apply bind_Ok in V as (? & N%assert_or_Ok & _). by apply negb_true_iff, Z.eqb_neq in N.
Qed.

Lemma provenance_rollback m i p : provenance_ok m i p = true ->
  let r := vs_rollback_state (cm_current_snapshot m) in
  rb_network_magic r = ni_network_magic i /\ rb_subject r = ni_name_hash i /\ rb_sequence r = vs_sequence (cm_current_snapshot m) /\
  rb_envelope_hash r = vs_envelope_hash (cm_current_snapshot m).
Proof.
  unfold provenance_ok. cbv zeta. rewrite negb_true_iff, !orb_false_iff, !negb_false_iff, !bool_decide_eq_true, !Z.eqb_eq. tauto.
Qed.

(** What is observed can be observed from again. *)
Lemma observed_valid m i p previous o :
  observe_named_service m i p previous = Ok o ->
  validate_observation (ObservedNamedService_observation o) = Ok tt /\
  go_rollback_state (ObservedNamedService_observation o) = vs_rollback_state (cm_current_snapshot m).
Proof.
  intros (rid & (_ & _ & _ & (P1 & P2 & P3 & P4)%provenance_rollback & Pv) & H)%observe_Ok.
  assert (forall b, validate_observation (withdrawn_observation i rid previous (vs_sequence (cm_current_snapshot m)) (vs_envelope_hash (cm_current_snapshot m))
    (vs_rollback_state (cm_current_snapshot m)) b) = Ok tt) as W.
  { intros b. apply observation_Ok. unfold withdrawn_observation. destruct b; [by split_and!|]. destruct previous as [o'|]; [|by split_and!].
    destruct Pv as ((_ & _ & _ & _ & Z0 & _)%observation_Ok & _). cbn. split_and!; try done. intros E. by destruct (Z0 E). }
  destruct H as [(_ & ->)|(r & a & _ & _ & [(_ & ->)|(d & c & _ & C & _ & ->)])]; cbn [ObservedNamedService_observation].
  - split; [by apply W|]. unfold withdrawn_observation. by destruct (reorganization_accepted _ _ _), previous.
  - split; [by apply W|]. unfold withdrawn_observation. by destruct (reorganization_accepted _ _ _), previous.
  - split; [|done]. apply observation_Ok. cbn. split_and!; try done; [|by intros ? [= <-]]. intros E. destruct C as (_ & _ & _ & _ & _ & _ & _ & _ & _ & _ & _ & C & _).
    by apply constraints_generation in C.
Qed.

(** One observation after another, the chain not reorganization_accepted in between. *)
Definition service_advances (i : NamedServiceIdentity) (p : NamedServicePolicy) (o o' : ServiceGenerationObservation) : Prop :=
  exists m v, observe_named_service m i p (Some o) = Ok v /\ o' = ObservedNamedService_observation v /\
    reorganization_accepted (Some o) (vs_rollback_state (cm_current_snapshot m)) (vs_accepted_reorganization (cm_current_snapshot m)) = false.

(** [o'] may come after [o]. *)
Definition may_follow (o o' : ServiceGenerationObservation) : Prop :=
  let r := go_rollback_state o in
  let r' := go_rollback_state o' in
  rb_sequence r <= rb_sequence r' /\ (rb_sequence r = rb_sequence r' -> rb_envelope_hash r = rb_envelope_hash r') /\
  bytes_le (rb_chain_work r) (rb_chain_work r') = true /\
  go_highest_generation o <= go_highest_generation o' /\
  (go_highest_generation o = go_highest_generation o' ->
    go_high_water_delegation_id o = go_high_water_delegation_id o' /\ (is_withdrawn o = true -> is_withdrawn o' = true)).

Lemma may_follow_refl o : may_follow o o.
Proof. unfold may_follow. split_and!; try done. apply bytes_le_refl. Qed.
Lemma may_follow_trans a b c : may_follow a b -> may_follow b c -> may_follow a c.
Proof.
  intros (S1 & E1 & W1 & G1 & H1) (S2 & E2 & W2 & G2 & H2). split_and!; [lia| |by eapply bytes_le_trans|lia|].
  - intros E. rewrite E1, E2 by lia. done.
  - intros E. destruct (H1 ltac:(lia)) as (-> & X1), (H2 ltac:(lia)) as (-> & X2). split; [done|]. intros Y. by apply X2, X1.
Qed.

Lemma rollback_forward r r' accepted :
  validate_rollback r r' accepted = Ok tt ->
  (rb_sequence r' <? rb_sequence r) || ((rb_sequence r' =? rb_sequence r) && negb (bool_decide (rb_envelope_hash r' = rb_envelope_hash r))) ||
    negb (bytes_le (rb_chain_work r) (rb_chain_work r')) = false \/
  exists evidence, accepted = Some evidence /\ AcceptedReorganization_matches evidence r r' = true.
Proof.
  unfold validate_rollback. intros H. apply bind_Ok in H as (? & _ & H%assert_or_Ok). destruct (_ || _); [right|by left].
  destruct accepted as [e|]; [|done]. exists e. split; [done|]. by destruct (AcceptedReorganization_matches e r r').
Qed.
Lemma advance_follows i p o o' : service_advances i p o o' -> may_follow o o'.
Proof.
  intros (m & v & H & -> & R). pose proof (observed_valid _ _ _ _ _ H) as (_ & Er). apply observe_Ok in H as (rid & (_ & _ & _ & _ & _ & _ & Rb) & H).
  unfold may_follow. cbv zeta. rewrite Er. set (s := cm_current_snapshot m) in *.
  assert ((rb_sequence (vs_rollback_state s) <? rb_sequence (go_rollback_state o)) || ((rb_sequence (vs_rollback_state s) =? rb_sequence (go_rollback_state o)) &&
    negb (bool_decide (rb_envelope_hash (vs_rollback_state s) = rb_envelope_hash (go_rollback_state o)))) ||
    negb (bytes_le (rb_chain_work (go_rollback_state o)) (rb_chain_work (vs_rollback_state s))) = false) as F.
  { apply rollback_forward in Rb as [F|(e & E & M)]; [done|]. unfold reorganization_accepted in R. rewrite E, M, andb_true_r in R. exact R. }
  rewrite !orb_false_iff, negb_false_iff, Z.ltb_ge, andb_false_iff, Z.eqb_neq, negb_false_iff, bool_decide_eq_true in F. destruct F as ((F1 & F2) & F3).
  unfold manifest_says in H. cbv zeta in H. fold s in H. rewrite R in H.
  split_and!; [done|intros ?; destruct F2; [lia|done]|done|..].
  all: destruct H as [(_ & ->)|(r & a & _ & _ & [(_ & ->)|(d & c & _ & _ & G & ->)])]; cbn in *; try done.
  - destruct G as [?|[?|(-> & _)]]; [done|lia|lia].
  - intros E. destruct G as [?|[?|(_ & W & ->)]]; [done|lia|]. split; [done|]. by rewrite W.
Qed.

(** C37. Over a history of observations without an accepted reorganization, the sequence,
    the chain work and the service generation never go back, one sequence has one
    envelope and one generation has one delegation, and a generation seen withdrawn is
    never active again. Every observation made can be persisted and resumed from. *)
Theorem generation_history i p o o' :
  rtc (service_advances i p) o o' ->
  may_follow o o' /\ (o <> o' -> validate_observation o' = Ok tt) /\
  (is_withdrawn o = true -> is_withdrawn o' = false -> go_highest_generation o < go_highest_generation o') /\
  (go_highest_generation o = go_highest_generation o' -> forall a a', go_active_delegation_id o = Some a -> go_active_delegation_id o' = Some a' ->
    validate_observation o = Ok tt -> validate_observation o' = Ok tt -> a = a').
Proof.
  intros H. assert (may_follow o o') as F.
  { induction H as [o|o o1 o' S _ IH]; [apply may_follow_refl|]. eapply may_follow_trans; [by eapply advance_follows|done]. }
  split; [done|]. destruct F as (_ & _ & _ & G & Same). split_and!.
  - intros N. apply rtc_inv_r in H as [->|(o1 & _ & m & v & Ob & -> & _)]; [done|]. by apply observed_valid in Ob as (? & _).
  - intros W A. destruct (decide (go_highest_generation o = go_highest_generation o')) as [E|]; [|lia]. destruct (Same E) as (_ & X). by rewrite X in A.
  - intros E a a' A A' (_ & _ & _ & _ & _ & V)%observation_Ok (_ & _ & _ & _ & _ & V')%observation_Ok. rewrite (V _ A), (V' _ A'). by apply Same.
Qed.

(** ** Publishing *)
Definition attributes_typed (a : NamedServiceAttributes) : Prop := u16 (na_profile_flags a) /\ len (na_profile_constraints_hash a) = 32.
Definition constraints_typed (c : ServiceDelegationConstraints) : Prop :=
  u32 (sc_max_endpoint_lifetime c) /\ u32 (sc_allowed_endpoint_capabilities c) /\ len (sc_endpoint_constraints_hash c) = 32.

Lemma attributes_roundtrip a fs profile rid identifier authority nb ex :
  attributes_typed a -> NamedServiceAttributes_to_hrm_map a = Ok fs ->
  NamedServiceAttributes_from_resource (mkResourceEntry profile rid identifier authority nb ex (Some fs)) = Ok a.
Proof.
  intros (U & L) H. unfold NamedServiceAttributes_to_hrm_map in H. destruct a as [flags hash [pr|]]; cbn [na_profile_flags na_profile_constraints_hash na_presentation] in *.
  - apply bind_Ok in H as ([] & V & [= <-]). unfold NamedServiceAttributes_from_resource. cbn [rs_attributes ok_or mbind result_bind app head].
    change (negb _) with true. cbn [assert_or mbind result_bind]. rewrite (proj2 (value_u16_Ok _ _ flags)) by (split; [done|ulia]). cbn [mbind result_bind].
    rewrite (proj2 (value_array_Ok 32 _ _ hash)) by done. cbn [mbind result_bind]. by rewrite V.
  - injection H as <-. unfold NamedServiceAttributes_from_resource. cbn [rs_attributes ok_or mbind result_bind app head].
    change (negb _) with true. cbn [assert_or mbind result_bind]. rewrite (proj2 (value_u16_Ok _ _ flags)) by (split; [done|ulia]). cbn [mbind result_bind].
    by rewrite (proj2 (value_array_Ok 32 _ _ hash)).
Qed.

Lemma constraints_roundtrip c fs d :
  constraints_typed c -> ServiceDelegationConstraints_to_hrm_map c = Ok fs -> dg_constraints d = Some fs ->
  ServiceDelegationConstraints_from_delegation d = Ok c.
Proof.
  intros (U1 & U2 & L) H D. unfold ServiceDelegationConstraints_to_hrm_map in H. apply bind_Ok in H as ([] & V & [= <-]).
  unfold ServiceDelegationConstraints_from_delegation. rewrite D. cbn [ok_or mbind result_bind]. change (_ && _) with true. cbn [assert_or mbind result_bind value_u64].
  rewrite (proj2 (value_u32_Ok (VUnsigned (sc_max_endpoint_lifetime c)) _ _)) by (split; [done|ulia]). cbn [mbind result_bind].
  rewrite (proj2 (value_u32_Ok (VUnsigned (sc_allowed_endpoint_capabilities c)) _ _)) by (split; [done|ulia]). cbn [mbind result_bind].
  rewrite (proj2 (value_array_Ok 32 _ _ (sc_endpoint_constraints_hash c))) by done. cbn [mbind result_bind].
  assert (mkConstraints (sc_service_generation c) (sc_max_endpoint_lifetime c) (sc_allowed_endpoint_capabilities c) (sc_endpoint_constraints_hash c) = c) as -> by by destruct c.
  by rewrite V.
Qed.

(** The delegation identifier is not part of what it identifies. *)
Lemma delegation_id_free d id ia ea : service_delegation_id (with_delegation_id d id) ia ea = service_delegation_id d ia ea.
Proof. done. Qed.

Definition policy_accepts (p : NamedServicePolicy) (a : NamedServiceAttributes) (c : ServiceDelegationConstraints) : Prop :=
  Z.land (na_profile_flags a) (u16_max - np_allowed_profile_flags p) = 0 /\
  Z.land (na_profile_flags a) (np_required_profile_flags p) = np_required_profile_flags p /\
  na_profile_constraints_hash a = np_expected_profile_constraints_hash p /\
  Z.land (sc_allowed_endpoint_capabilities c) (u32_max - np_allowed_endpoint_capabilities p) = 0 /\
  Z.land (sc_allowed_endpoint_capabilities c) (np_required_endpoint_capabilities p) = np_required_endpoint_capabilities p /\
  sc_endpoint_constraints_hash c = np_expected_endpoint_constraints_hash p.

Lemma controller_delegation_Ok i r key c nb ex ia ea d :
  service_controller_delegation i r key c nb ex ia ea = Ok d ->
  exists rid identifier fs d0 id, service_resource_id i = Ok rid /\ rs_resource_id r = rid /\ canonical_identifier i = Ok identifier /\ rs_identifier r = identifier /\
    rs_not_before r <= nb /\ ex <= rs_expires_at r /\ hrm_validate_public_key key = Ok tt /\ ServiceDelegationConstraints_to_hrm_map c = Ok fs /\
    d0 = mkHrmDelegation (zeros 32) rid NAMED_SERVICE_PROFILE rid identifier (ni_name_hash i) (mkController ALGORITHM_SECP256K1_ECDSA key)
           [DELEGATE_ENDPOINT; OPERATE_ACTION] nb ex false (Some fs) /\
    service_delegation_id d0 ia ea = Ok id /\ d = with_delegation_id d0 id.
Proof.
  unfold service_controller_delegation. intros H. apply bind_Ok in H as (? & _ & H). apply bind_Ok in H as (rid & Hr & H).
  apply bind_Ok in H as (? & Er%assert_or_Ok%bool_decide_eq_true & H). apply bind_Ok in H as (identifier & Hi & H). apply bind_Ok in H as (? & K%assert_or_Ok & H).
  rewrite negb_true_iff, !orb_false_iff, negb_false_iff, bool_decide_eq_true, !Z.ltb_ge in K. destruct K as (((Ei & _) & N) & E).
  apply bind_Ok in H as (ct & Hc%map_err_Ok & H). unfold Controller_secp256k1 in Hc. apply bind_Ok in Hc as ([] & Hk & [= <-]).
  apply bind_Ok in H as (fs & Hf & H). apply bind_Ok in H as (id & Hd & [= <-]). exists rid, identifier, fs. do 2 eexists. split_and!; [exact Hr|exact Er|exact Hi|exact Ei|exact N|exact E|exact Hk|exact Hf|reflexivity|exact Hd|reflexivity].
Qed.

(** Publishing works: put the resource and the delegation that the builders return
    into a manifest whose provenance checks, as the only delegation of the service
    that may operate, within their windows and the application's policy, and a first
    observation finds the service active, under the key and limits that were
    published. *)
Theorem published_service_observed i p a key c nb ex dnb dex r d m :
  identity_typed i -> attributes_typed a -> constraints_typed c -> policy_accepts p a c -> NamedServicePolicy_validate p = Ok tt ->
  provenance_ok m i p = true ->
  let s := cm_current_snapshot m in
  named_service_resource i a nb ex = Ok r ->
  service_controller_delegation i r key c dnb dex (vs_payload_issued_at s) (vs_payload_expires_at s) = Ok d ->
  ValidatedManifestSnapshot_resource s (rs_resource_id r) = Some r ->
  List.filter (operates (rs_resource_id r)) (vs_delegations s) = [d] ->
  dnb <= vs_validated_at s < dex ->
  observe_named_service m i p None = Ok (ObservedActive (verified_of i p (rs_resource_id r) m r a d c)) /\
  vn_service_controller_key (verified_of i p (rs_resource_id r) m r a d c) = key.
Proof.
  intros Ti Ta Tc (A1 & A2 & A3 & C1 & C2 & C3) Vp Pr s Hr Hd Fr Fd W. subst s.
  unfold named_service_resource in Hr. apply bind_Ok in Hr as (? & Lt%assert_or_Ok%Z.ltb_lt & Hr). apply bind_Ok in Hr as (rid & R & Hr).
  apply bind_Ok in Hr as (identifier & I & Hr). apply bind_Ok in Hr as (fs & F & Hr%Ok_inj).
  assert (NamedServiceAttributes_from_resource r = Ok a) as Ra by (rewrite <- Hr; by apply attributes_roundtrip).
  apply controller_delegation_Ok in Hd as (rid' & identifier' & fs' & d0 & id & _ & Er & _ & Ei & N & E & K & F' & Ed0 & Hid & Ed).
  assert (dg_constraints d = Some fs') as Dc by by rewrite Ed, Ed0. pose proof (constraints_roundtrip _ _ _ Tc F' Dc) as Rc.
  pose proof I as (Vi & _)%canonical_identifier_Ok; [|done]. apply public_key_Ok in K.
  assert (rs_resource_id r = rid /\ rs_identifier r = identifier /\ rs_not_before r = nb /\ rs_expires_at r = ex) as (R1 & R2 & R3 & R4) by by rewrite <- Hr.
  split; [|by rewrite Ed, Ed0]. apply observe_Ok. exists (rs_resource_id r). split; [by rewrite R1; split_and!|].
  right. exists r, a. split; [done|]. split; [unfold resource_valid; rewrite R1, R2, R3, R4; split_and!; try done; try (by rewrite <- Hr); lia|].
  right. exists d, c. split; [done|]. split; [|done]. assert (dg_delegation_id d = id) as Di by by rewrite Ed.
  unfold delegation_valid. rewrite Di. split_and!; try done; try (rewrite Ed, Ed0; cbn; congruence || lia || done). by rewrite Ed, delegation_id_free.
Qed.
End observing.

(** ** HRM Core with this profile *)
Section profile.
Context {CR : Crypto} {SD : ScriptDigests} {KC : K256} {KD : KeyCodec KC} {B64 : Base64}.

(** The clock and the retrievals of [base], the rules of [p]. *)
Definition hnsa_adapters (base : HrmAdapters) (text : HnsaError -> list byte) (p : NamedServiceProfilePolicy) : HrmAdapters := {|
  World := @World base;
  elapsed_millis := @elapsed_millis base;
  resolve_current := @resolve_current base;
  fetch_proof := @fetch_proof base;
  validate_resource := fun context w => (profile_validate_resource text p context, w);
  validate_external_proof := fun context proof w => (profile_validate_external_proof p context proof, w);
  validate_delegation := fun context w => (profile_validate_delegation p context, w);
|}.

Lemma profile_resource_Ok text p context policy :
  profile_validate_resource text p context = Ok policy <->
  rc_network_magic context = ni_network_magic (pp_identity p) /\ rc_subject context = ni_name_hash (pp_identity p) /\ rc_action context = OPERATE_ACTION /\
  (exists a, resource_valid (rc_resource context) (pp_identity p) (pp_policy p) (rc_now context) a) /\
  policy = mkResourcePolicy true false false false (rs_expires_at (rc_resource context)).
Proof.
  unfold profile_validate_resource. split.
  - intros H. apply bind_Ok in H as (? & K%assert_or_Ok & H). rewrite negb_true_iff, !orb_false_iff, !negb_false_iff, !bool_decide_eq_true, Z.eqb_eq in K.
    apply bind_Ok in H as (a & A%map_err_Ok%resource_Ok & H). apply Ok_inj in H as <-. destruct K as ((? & ?) & ?). eauto 10.
  - intros (E1 & E2 & E3 & (a & A) & ->). apply bind_Ok. exists tt. split.
    { apply assert_or_Ok. by rewrite negb_true_iff, !orb_false_iff, !negb_false_iff, !bool_decide_eq_true, Z.eqb_eq. }
    apply bind_Ok. exists a. split; [by apply map_err_Ok, resource_Ok|done].
Qed.

(** HRM Core, dispatching to the named-service profile, authorizes a service only from
    the name's own manifest: whatever parents and proofs the resolvers offer, the
    proof chain is the single local link of the expected name and the service's own
    resource identifier, for the action to operate, and that resource satisfies the
    identity and the application's policy in the current snapshot. *)
Theorem hnsa_authorization_local base text p magic now action limits previous root subject id w a :
  @validate_authorization _ _ _ _ _ (hnsa_adapters base text p) magic now action limits previous root subject id w = Ok a ->
  va_proof_chain a = [LinkHnsLocal subject id] /\ subject = ni_name_hash (pp_identity p) /\ action = OPERATE_ACTION /\
  service_resource_id (pp_identity p) = Ok id /\
  exists r attributes, r ∈ vs_resources (va_current_snapshot a) /\ resource_valid r (pp_identity p) (pp_policy p) now attributes.
Proof.
  intros (az & G & S & -> & ->)%authorization_grants.
  destruct G as [resolved id c e r policy R _ _|resolved id c e r policy profile hash uris proof until R _ Pe _ _ _|resolved id c e r policy ps pr did q parent d R _ Pd].
  all: destruct R as (_ & I & Ri & _ & _ & ms & w1 & w2 & V); cbn [validate_resource hnsa_adapters] in V; injection V as V _;
    apply profile_resource_Ok in V as (_ & Es & Ea & (at' & A) & ->); try done.
  cbn in *. rewrite S in *. split; [done|]. split; [done|]. split; [done|]. split; [|by exists r, at'].
  destruct A as (_ & _ & _ & A & _). by rewrite A, Ri.
Qed.
End profile.

(** ** A service, published, observed and withdrawn *)
Definition sample_service : NamedServiceIdentity := mkNamedService 0xae3895cf (sample_subject x01) (bstr "mail") 7.
Definition sample_service_policy : NamedServicePolicy := mkServicePolicy 7 1 1 (zeros 32) 3 1 (zeros 32) 3600.
Definition sample_attributes : NamedServiceAttributes := mkServiceAttributes 1 (zeros 32) None.
Definition sample_constraints (generation : Z) : ServiceDelegationConstraints := mkConstraints generation 3600 3 (zeros 32).
Definition service_key : list byte := x02 :: x09 :: zeros 31.

Definition ok_get {E A} (a : A) (r : result E A) : A := match r with Ok x => x | Err _ => a end.
Definition no_resource : ResourceEntry := mkResourceEntry [] [] [] HnsLocal 0 0 None.
Definition no_delegation : Delegation := mkHrmDelegation [] [] [] [] [] [] child_controller [] 0 0 false None.
Definition sample_service_resource : ResourceEntry := ok_get no_resource (@named_service_resource toy_digests sample_service sample_attributes 1000 8000).
Definition sample_service_delegation (generation : Z) : Delegation :=
  ok_get no_delegation (@service_controller_delegation toy_digests toy_k256 sample_service sample_service_resource service_key (sample_constraints generation)
    2000 7000 1000 9000).
Definition service_payload (sequence : Z) (delegations : list Delegation) : Payload :=
  mkPayload 1 (sample_subject x01) sequence 1000 9000 sample_controller [sample_service_resource] delegations None.

(** The manifest as HRM Core validates it. *)
Definition service_manifest (sequence : Z) (delegations : list Delegation) : result ValidationError ValidatedCurrentManifest :=
  @validate_current_manifest toy_crypto toy_digests toy_k256 toy_codec plain_base64 toy_adapters (resolved_for (service_payload sequence delegations) [x07])
    0xae3895cf (sample_subject x01) 3000 ValidationLimits_default ∅ (0 : @World toy_adapters).

Definition sample_observe (previous : option ServiceGenerationObservation) (m : ValidatedCurrentManifest) : result HnsaError ObservedNamedService :=
  @observe_named_service toy_digests toy_k256 m sample_service sample_service_policy previous.
Definition observe_manifest (sequence : Z) (delegations : list Delegation) (previous : option ServiceGenerationObservation) : result HnsaError ObservedNamedService :=
  match service_manifest sequence delegations with Ok m => sample_observe previous m | Err _ => Err HnsaAmbiguous end.
Definition no_observation : ServiceGenerationObservation := mkObservation 0 [] [] 0 [] None 0 [] (mkRollbackState 0 [] 0 [] 0 [] []).
Definition observed (r : result HnsaError ObservedNamedService) : ServiceGenerationObservation := ok_get no_observation (o ← r; Ok (ObservedNamedService_observation o)).

Definition observation1 := observed (observe_manifest 7 [sample_service_delegation 1] None).
Definition observation2 := observed (observe_manifest 8 [] (Some observation1)).
Definition observation3 := observed (observe_manifest 9 [sample_service_delegation 2] (Some observation2)).

Example sample_observed :
  (go_highest_generation observation1, is_withdrawn observation1, go_highest_generation observation2, is_withdrawn observation2,
   go_highest_generation observation3, is_withdrawn observation3) = (1, false, 1, true, 2, false) /\
  observe_manifest 9 [sample_service_delegation 1] (Some observation2) = Err GenerationRollback.
Proof. vm_compute. done. Qed.

Definition no_manifest : ValidatedCurrentManifest :=
  mkCurrentManifest 0 [] 0 (go_rollback_state no_observation) 0 0
    (mkSnapshot 0 0 [] child_controller 0 0 [] [] (go_rollback_state no_observation) None).
Definition sample_manifest : ValidatedCurrentManifest := ok_get no_manifest (service_manifest 7 [sample_service_delegation 1]).
Definition sample_verified : VerifiedNamedService :=
  verified_of sample_service sample_service_policy (rs_resource_id sample_service_resource) sample_manifest sample_service_resource sample_attributes
    (sample_service_delegation 1) (sample_constraints 1).

Lemma published_service_observed_witness :
  observe_named_service (SD := toy_digests) (KC := toy_k256) sample_manifest sample_service sample_service_policy None = Ok (ObservedActive sample_verified).
Proof.
  apply (@published_service_observed toy_digests toy_k256 sample_service sample_service_policy sample_attributes service_key (sample_constraints 1) 1000 8000 2000 7000
    sample_service_resource (sample_service_delegation 1) sample_manifest); vm_compute; try reflexivity; repeat split; try reflexivity; try discriminate.
Defined.

Lemma generation_history_witness :
  is_withdrawn observation2 = true /\ go_highest_generation observation2 < go_highest_generation observation3.
Proof.
  split; [vm_compute; reflexivity|]. apply (@generation_history toy_digests toy_k256 sample_service sample_service_policy); [|vm_compute; reflexivity|vm_compute; reflexivity].
  apply rtc_once. exists (ok_get no_manifest (service_manifest 9 [sample_service_delegation 2])).
  exists (ok_get (ObservedWithdrawn no_observation) (observe_manifest 9 [sample_service_delegation 2] (Some observation2))). split; [|split]; vm_compute; reflexivity.
Defined.

Definition sample_endpoint (sequence : Z) : HnsaEndpoint :=
  mkEndpoint 1 0xae3895cf (rs_resource_id sample_service_resource) (dg_delegation_id (sample_service_delegation 1)) 1 (x02 :: x0a :: zeros 31) sequence
    2500 4000 1 (zeros 32) [].
Definition signed_endpoint (sequence : Z) : HnsaEndpoint :=
  snd (@sign_uncommitted toy_crypto toy_k256 toy_codec (sample_endpoint sequence) sample_verified 3000 [x09]).

Lemma signed_endpoint_typed sequence : u64 sequence -> endpoint_typed (signed_endpoint sequence).
Proof.
  intros U. assert (endpoint_typed (sample_endpoint sequence)) as T.
  { unfold endpoint_typed, sample_endpoint. cbn [en_endpoint_sequence]. split_and!; try exact U; vm_compute; try reflexivity; split; discriminate. }
  unfold signed_endpoint, sign_uncommitted. set (m := hnsa_signing_key _ ≫= _). by destruct m.
Qed.

Lemma endpoint_sign_verifies_witness :
  fst (@sign_uncommitted toy_crypto toy_k256 toy_codec (sample_endpoint 5) sample_verified 3000 [x09]) = Ok tt /\
  exists bs, @HnsaEndpoint_decode toy_k256 toy_codec bs = Ok (signed_endpoint 5).
Proof.
  pose proof (@endpoint_sign_verifies toy_crypto toy_k256 toy_codec toy_k256_laws toy_codec_laws (sample_endpoint 5) sample_verified 3000 [x09]) as H.
  unfold signed_endpoint. destruct (sign_uncommitted (sample_endpoint 5) sample_verified 3000 [x09]) as [r d']. destruct H as (_ & _ & H).
  destruct (H x09 (x09 :: zeros 63)) as (-> & bs & _ & D); [vm_compute; repeat split; try reflexivity; discriminate|reflexivity|reflexivity| | |reflexivity|].
  - apply endpoint_context_Ok. vm_compute. reflexivity.
  - apply endpoint_body_valid. vm_compute. reflexivity.
  - split; [reflexivity|]. by exists bs.
Defined.

Lemma endpoint_selection_exact_witness :
  @select_endpoint_delegation_uncommitted toy_crypto toy_k256 toy_codec [signed_endpoint 6; signed_endpoint 5] sample_verified 3000 1 (fun _ => true) =
  @select_endpoint_delegation_uncommitted toy_crypto toy_k256 toy_codec [signed_endpoint 5; signed_endpoint 6] sample_verified 3000 1 (fun _ => true) /\
  @select_endpoint_delegation_uncommitted toy_crypto toy_k256 toy_codec [signed_endpoint 5; signed_endpoint 6] sample_verified 3000 1 (fun _ => true) = Ok (signed_endpoint 6).
Proof.
  split; [|vm_compute; reflexivity].
  apply (@endpoint_selection_exact toy_crypto toy_k256 toy_codec [signed_endpoint 5; signed_endpoint 6] sample_verified 3000 1 (fun _ => true)); [|apply perm_swap].
  apply Forall_cons. split; [apply signed_endpoint_typed; vm_compute; split; discriminate|].
  apply Forall_cons. split; [apply signed_endpoint_typed; vm_compute; split; discriminate|by apply Forall_nil].
Defined.

Definition hnsa_result : result ValidationError ValidatedAuthorization :=
  @validate_authorization toy_crypto toy_digests toy_k256 toy_codec plain_base64
    (@hnsa_adapters toy_digests toy_adapters (fun _ => []) (mkProfilePolicy sample_service sample_service_policy))
    0xae3895cf 3000 OPERATE_ACTION ValidationLimits_default ∅ (resolved_for (service_payload 7 [sample_service_delegation 1]) [x07])
    (sample_subject x01) (rs_resource_id sample_service_resource) (0 : @World toy_adapters).

Lemma hnsa_authorization_local_witness :
  exists a, hnsa_result = Ok a /\ va_proof_chain a = [LinkHnsLocal (sample_subject x01) (rs_resource_id sample_service_resource)].
Proof.
  assert (is_ok hnsa_result = true) as H by (vm_compute; reflexivity). destruct hnsa_result as [a|] eqn:E; [|discriminate H].
  exists a. split; [reflexivity|]. unfold hnsa_result in E.
  by apply (@hnsa_authorization_local toy_crypto toy_digests toy_k256 toy_codec plain_base64 _ _ _ _ _ _ _ _ _ _ _ _ _) in E as (-> & _).
Defined.
