(* ===== verification/Lease.v ===== *)
(** * hns-service-authority: fenced operation leases

    Models [crates/hns-service-authority/src/lease.rs]: identities and tokens, the
    guard an embedding supplies, and the scope that runs one operation under it. The
    guard is the embedding's: the class [FencedLeaseGuard], whose answers depend on a
    world of their own. The asynchronous variants differ from these only in awaiting
    the callbacks. *)

From S2P Require Import Prelude Primitives.
Local Open Scope Z_scope.

(** ** Computations on a state that survives errors *)
Definition effM (S E A : Type) : Type := S -> result E A * S.
#[global] Instance effM_ret {S E} : MRet (effM S E) := fun _ a s => (Ok a, s).
#[global] Instance effM_bind {S E} : MBind (effM S E) :=
  fun _ _ f m s => match m s with (Ok a, s') => f a s' | (Err e, s') => (Err e, s') end.
Definition eff_lift {S E A} (r : result E A) : effM S E A := fun s => (r, s).
Definition eff_err {S E E' A} (f : E -> E') (m : effM S E A) : effM S E' A := fun s => let '(r, s') := m s in (map_err f r, s').

Lemma eff_bind_Ok {S E A B} (f : A -> effM S E B) (m : effM S E A) s b s' :
  (m ≫= f) s = (Ok b, s') <-> exists a s1, m s = (Ok a, s1) /\ f a s1 = (Ok b, s').
Proof.
  unfold mbind, effM_bind. destruct (m s) as [[a|e] s1].
  - split; [by exists a, s1|]. by intros (? & ? & [= -> ->] & ?).
  - split; [done|]. by intros (? & ? & ? & _).
Qed.
Lemma eff_lift_Ok {S E A} (r : result E A) (s : S) a s' : eff_lift r s = (Ok a, s') <-> r = Ok a /\ s' = s.
Proof. unfold eff_lift. naive_solver. Qed.
Lemma eff_err_Ok {S E E' A} (f : E -> E') (m : effM S E A) s a s' : eff_err f m s = (Ok a, s') <-> m s = (Ok a, s').
Proof. unfold eff_err. destruct (m s) as [[x|e] s1]; cbn; naive_solver. Qed.
Lemma eff_ret_Ok {S E A} (a b : A) (s s' : S) : (mret a : effM S E A) s = (Ok b, s') <-> a = b /\ s = s'.
Proof. unfold mret, effM_ret. naive_solver. Qed.

Lemma eff_bind_run {S E A B} (f : A -> effM S E B) (m : effM S E A) s r s' :
  (m ≫= f) s = (r, s') -> (exists a s1, m s = (Ok a, s1) /\ f a s1 = (r, s')) \/ (exists e, m s = (Err e, s') /\ r = Err e).
Proof. unfold mbind, effM_bind. destruct (m s) as [[a|e] s1]; [left; by exists a, s1|]. intros [= <- <-]. right. by exists e. Qed.
Lemma eff_err_run {S E E' A} (g : E -> E') (m : effM S E A) s r s' : eff_err g m s = (r, s') -> exists r0, m s = (r0, s') /\ r = map_err g r0.
Proof. unfold eff_err. destruct (m s) as [r0 s1]. intros [= <- <-]. by exists r0. Qed.

(** ** Identities, tokens, keys *)
Inductive LeaseError := ZeroStorageNamespace | ZeroFencingToken | KeyMismatch | FenceChanged | LeaseLost.

Definition StorageNamespaceId_new (value : list byte) : result LeaseError (list byte) :=
  assert_or (negb (bool_decide (value = zeros 32))) ZeroStorageNamespace ;; Ok value.
Definition FencingToken_new (value : Z) : result LeaseError Z :=
  assert_or (negb (value =? 0)) ZeroFencingToken ;; Ok value.

Record AuthorityLeaseKey := mkLeaseKey { lk_storage_namespace_id : list byte; lk_network_magic : Z; lk_subject : list byte }.
#[global] Instance AuthorityLeaseKey_eq_dec : EqDecision AuthorityLeaseKey.
Proof. solve_decision. Defined.

(** ** The guard *)
Class FencedLeaseGuard (K G W : Type) := {
  guard_key : G -> W -> K;
  guard_fencing_token : G -> W -> Z;
  guard_ensure_held : G -> W -> result LeaseError unit * W;
}.

Inductive LeaseAcquireError (E : Type) := AcquireBackend (e : E) | AcquireLease (e : LeaseError).
Arguments AcquireBackend {E}.
Arguments AcquireLease {E}.
Inductive LeaseScopeError (E : Type) := ScopeOperation (e : E) | ScopeLease (e : LeaseError).
Arguments ScopeOperation {E}.
Arguments ScopeLease {E}.

Record LeaseWitness (K G : Type) := mkWitness { lw_key : K; lw_fence : Z; lw_guard : G }.
Arguments mkWitness {K G}.
Arguments lw_key {K G}.
Arguments lw_fence {K G}.
Arguments lw_guard {K G}.
Record HeldFencedLease (K G : Type) := mkHeld { hl_key : K; hl_fence : Z; hl_guard : G }.
Arguments mkHeld {K G}.
Arguments hl_key {K G}.
Arguments hl_fence {K G}.
Arguments hl_guard {K G}.

Section lease.
Context {K G W : Type} `{!EqDecision K} {FG : FencedLeaseGuard K G W}.

Definition guard_get_key (guard : G) : effM W LeaseError K := fun w => (Ok (guard_key guard w), w).
Definition guard_get_token (guard : G) : effM W LeaseError Z := fun w => (Ok (guard_fencing_token guard w), w).

Definition LeaseWitness_ensure_held (lease : LeaseWitness K G) : effM W LeaseError unit :=
  guard_ensure_held (lw_guard lease) ;;
  key ← guard_get_key (lw_guard lease);
  eff_lift (assert_or (bool_decide (key = lw_key lease)) KeyMismatch) ;;
  fence ← guard_get_token (lw_guard lease);
  eff_lift (assert_or (fence =? lw_fence lease) FenceChanged).

Definition from_acquired (key : K) (guard : G) : effM W LeaseError (HeldFencedLease K G) :=
  guard_ensure_held guard ;;
  guard_key ← guard_get_key guard;
  eff_lift (assert_or (bool_decide (guard_key = key)) KeyMismatch) ;;
  fence ← guard_get_token guard;
  mret (mkHeld key fence guard).

Definition HeldFencedLease_acquire {E} (key : K) (acquire : K -> W -> result E G * W) : effM W (LeaseAcquireError E) (HeldFencedLease K G) :=
  guard ← eff_err AcquireBackend (acquire key);
  eff_err AcquireLease (from_acquired key guard).

Definition HeldFencedLease_ensure_held (held : HeldFencedLease K G) : effM W LeaseError unit :=
  guard_ensure_held (hl_guard held) ;;
  key ← guard_get_key (hl_guard held);
  eff_lift (assert_or (bool_decide (key = hl_key held)) KeyMismatch) ;;
  fence ← guard_get_token (hl_guard held);
  eff_lift (assert_or (fence =? hl_fence held) FenceChanged).

(** The operation runs whatever it returns; its outcome is withheld until the lease
    has been checked again. *)
Definition HeldFencedLease_run {R E} (held : HeldFencedLease K G) (operation : LeaseWitness K G -> effM W E R) : effM W (LeaseScopeError E) R :=
  eff_err ScopeLease (HeldFencedLease_ensure_held held) ;;
  let witness := mkWitness (hl_key held) (hl_fence held) (hl_guard held) in
  outcome ← (fun w => let '(r, w) := operation witness w in (Ok r, w));
  eff_err ScopeLease (HeldFencedLease_ensure_held held) ;;
  eff_lift (map_err ScopeOperation outcome).

(** The guard answers for this key and token in [w], and leaves [w']. *)
Definition holds (key : K) (fence : Z) (guard : G) (w w' : W) : Prop :=
  guard_ensure_held guard w = (Ok tt, w') /\ guard_key guard w' = key /\ guard_fencing_token guard w' = fence.

Lemma held_Ok held w u w' : HeldFencedLease_ensure_held held w = (Ok u, w') <-> holds (hl_key held) (hl_fence held) (hl_guard held) w w'.
Proof.
  destruct u. unfold HeldFencedLease_ensure_held, holds. split.
  - intros H. apply eff_bind_Ok in H as ([] & w1 & G0 & H). apply eff_bind_Ok in H as (k & w2 & [= <- <-] & H).
    apply eff_bind_Ok in H as (? & w3 & (K0%assert_or_Ok%bool_decide_eq_true & ->)%eff_lift_Ok & H). apply eff_bind_Ok in H as (f & w4 & [= <- <-] & H).
    apply eff_lift_Ok in H as (F%assert_or_Ok%Z.eqb_eq & ->). done.
  - intros (H & E1 & E2). apply eff_bind_Ok. exists tt, w'. split; [done|]. apply eff_bind_Ok. exists (guard_key (hl_guard held) w'), w'. split; [done|].
    apply eff_bind_Ok. exists tt, w'. split; [by apply eff_lift_Ok; rewrite bool_decide_eq_true_2|].
    apply eff_bind_Ok. exists (guard_fencing_token (hl_guard held) w'), w'. split; [done|]. apply eff_lift_Ok. by rewrite E2, Z.eqb_refl.
Qed.

Lemma witness_Ok lease w u w' : LeaseWitness_ensure_held lease w = (Ok u, w') <-> holds (lw_key lease) (lw_fence lease) (lw_guard lease) w w'.
Proof. exact (held_Ok (mkHeld (lw_key lease) (lw_fence lease) (lw_guard lease)) w u w'). Qed.

(** A lease scope. An acquired lease has the requested key and the guard's token, and
    the guard was held. An operation's result is released exactly when the guard
    answered for that key and token when the scope was entered, the operation
    succeeded, and the guard still did when it ended: a lease lost or replaced in
    between withholds the result, whatever the operation did. *)
Theorem lease_scope_exact {R E} (held : HeldFencedLease K G) (operation : LeaseWitness K G -> effM W E R) w r w' :
  (forall E' key (acquire : K -> W -> result E' G * W) v, HeldFencedLease_acquire key acquire w = (Ok v, w') <->
     exists w1, acquire key w = (Ok (hl_guard v), w1) /\ hl_key v = key /\ holds (hl_key v) (hl_fence v) (hl_guard v) w1 w') /\
  (HeldFencedLease_run held operation w = (Ok r, w') <->
   exists w1 w2, holds (hl_key held) (hl_fence held) (hl_guard held) w w1 /\
     operation (mkWitness (hl_key held) (hl_fence held) (hl_guard held)) w1 = (Ok r, w2) /\ holds (hl_key held) (hl_fence held) (hl_guard held) w2 w').
Proof.
  split.
  - intros E' key acquire v. unfold HeldFencedLease_acquire, from_acquired, holds. split.
    + intros H. apply eff_bind_Ok in H as (g & w1 & A%eff_err_Ok & H). apply eff_err_Ok in H. apply eff_bind_Ok in H as ([] & w2 & G0 & H).
      apply eff_bind_Ok in H as (k & w3 & [= <- <-] & H). apply eff_bind_Ok in H as (? & w4 & (K0%assert_or_Ok%bool_decide_eq_true & ->)%eff_lift_Ok & H).
      apply eff_bind_Ok in H as (f & w5 & [= <- <-] & H). apply eff_ret_Ok in H as (<- & <-). by exists w1.
    + intros (w1 & A & Kk & H & Ek & Ef). apply eff_bind_Ok. exists (hl_guard v), w1. split; [by apply eff_err_Ok|]. apply eff_err_Ok.
      apply eff_bind_Ok. exists tt, w'. split; [done|]. apply eff_bind_Ok. exists (guard_key (hl_guard v) w'), w'. split; [done|].
      apply eff_bind_Ok. exists tt, w'. split; [apply eff_lift_Ok; rewrite bool_decide_eq_true_2; [done|by rewrite Ek, Kk]|].
      apply eff_bind_Ok. exists (guard_fencing_token (hl_guard v) w'), w'. split; [done|]. apply eff_ret_Ok. rewrite Ef, <- Kk. by destruct v.
  - unfold HeldFencedLease_run. split.
    + intros H. apply eff_bind_Ok in H as ([] & w1 & H1%eff_err_Ok%held_Ok & H). apply eff_bind_Ok in H as (o & w2 & O & H).
      apply eff_bind_Ok in H as ([] & w3 & H2%eff_err_Ok%held_Ok & H). apply eff_lift_Ok in H as (M%map_err_Ok & ->). subst o.
      exists w1, w2. split; [done|]. split; [|done]. destruct (operation _ w1) as [x y]. by injection O as -> ->.
    + intros (w1 & w2 & H1 & O & H2). apply eff_bind_Ok. exists tt, w1. split; [by apply eff_err_Ok, held_Ok|]. apply eff_bind_Ok. exists (Ok r), w2.
      split; [by rewrite O|]. apply eff_bind_Ok. exists tt, w'. split; [by apply eff_err_Ok, held_Ok|]. by apply eff_lift_Ok.
Qed.
End lease.
