(* ===== verification/AuthorityState.v ===== *)
(** * hns-service-authority: durable authority state

    Models [crates/hns-service-authority/src/authority_state.rs]: the aggregate of
    all observations of a name, its canonical encoding and fingerprint, and the state
    machine that proposes a successor, persists it by compare-and-swap under a fenced
    lease, and releases a result only then. What the embedding supplies (the guard,
    the loader, the store, the retrieval, the clock) is the class [AuthorityHost].
    The asynchronous variants differ from these only in awaiting the callbacks. *)

From stdpp Require Import relations gmap sorting.
From S2P Require Import Prelude Encoding Primitives Covenants Transaction Script Interpreter K256 Cbor Text HrmUri BTree ServiceAuthority HrmModel HrmCommitment HrmValidation Hnsa Lease.
Local Open Scope Z_scope.

Definition NAMED_SERVICE_AUTHORITY_SNAPSHOT_VERSION : Z := 1.
Definition MAX_NAMED_SERVICE_AUTHORITY_ENTRIES : Z := MAX_RESOURCES.
Definition SNAPSHOT_MAGIC : list byte := bstr "HNSAAST" ++ [x00].
Definition SNAPSHOT_CHECKSUM_DOMAIN : list byte := bstr "HNS-HRM-HNSA-AUTHORITY-SNAPSHOT-CHECKSUM-V1" ++ [x00].
Definition SNAPSHOT_FINGERPRINT_DOMAIN : list byte := bstr "HNS-HRM-HNSA-AUTHORITY-SNAPSHOT-FINGERPRINT-V1" ++ [x00].
Definition CHECKSUM_SIZE : Z := 32.
Definition ROLLBACK_BODY_SIZE : Z := 8 + 32 + 4 + 32 + 32.
Definition SNAPSHOT_HEADER_SIZE : Z := 8 + 1 + 4 + 32 + 4 + 8 + 8 + 1 + ROLLBACK_BODY_SIZE + 4.
Definition MIN_SNAPSHOT_SIZE : Z := SNAPSHOT_HEADER_SIZE + CHECKSUM_SIZE.
Definition MAX_SNAPSHOT_SIZE : Z := SNAPSHOT_HEADER_SIZE + MAX_NAMED_SERVICE_AUTHORITY_ENTRIES * SERVICE_GENERATION_OBSERVATION_SIZE + CHECKSUM_SIZE.

Inductive NamedServiceAuthorityError :=
| AsDecode (e : DecodeError)
| AsHnsa (e : HnsaError)
| AsValidation (e : ValidationError)
| AsLease (e : LeaseError)
| InvalidSnapshot (what : string)
| BindingMismatch
| TrustedTimeRollback
| RevisionRollback
| RevisionExhausted
| AsCapacity
| PendingPersistence
| CommittedResultNotCurrent
| OperationTimeMismatch
| DurableStateMismatch
| OperationLeaseMismatch.

Inductive CommitError (E : Type) := CommitAuthority (e : NamedServiceAuthorityError) | CommitPersistence (e : E).
Arguments CommitAuthority {E}.
Arguments CommitPersistence {E}.
Inductive OperationError (R P : Type) := OpRetrieval (e : R) | OpAuthority (e : NamedServiceAuthorityError) | OpPersistence (e : P).
Arguments OpRetrieval {R P}.
Arguments OpAuthority {R P}.
Arguments OpPersistence {R P}.
Definition operation_error {R P} (e : CommitError P) : OperationError R P :=
  match e with CommitAuthority e => OpAuthority e | CommitPersistence e => OpPersistence e end.

(** What the store is to check, without and with the fence. *)
Inductive AuthorityPersistenceExpectation := ExpectAbsent | ExpectExact (revision : Z) (fingerprint : list byte).
Inductive NamedServiceAuthorityExpectation :=
| FencedAbsent (storage_namespace_id : list byte) (fencing_token : Z)
| FencedExact (storage_namespace_id : list byte) (fencing_token revision : Z) (fingerprint : list byte).
Definition expectation_fenced {G} (e : AuthorityPersistenceExpectation) (lease : LeaseWitness AuthorityLeaseKey G) : NamedServiceAuthorityExpectation :=
  let storage_namespace_id := lk_storage_namespace_id (lw_key lease) in
  let fencing_token := lw_fence lease in
  match e with
  | ExpectAbsent => FencedAbsent storage_namespace_id fencing_token
  | ExpectExact revision fingerprint => FencedExact storage_namespace_id fencing_token revision fingerprint
  end.

Inductive NamedServiceAuthorityStorageState := StorageAbsent | StoragePresent (encoded : list byte) (minimum_revision : Z).

(** ** Snapshots *)
Record NamedServiceAuthoritySnapshot := mkAuthoritySnapshot {
  sn_network_magic : Z;
  sn_subject : list byte;
  sn_capacity : Z;
  sn_revision : Z;
  sn_trusted_time_high_water : Z;
  sn_rollback_state : option RollbackState;
  sn_observations : list (list byte * ServiceGenerationObservation);
}.
#[global] Instance ServiceGenerationObservation_eq_dec : EqDecision ServiceGenerationObservation.
Proof. solve_decision. Defined.
#[global] Instance NamedServiceAuthoritySnapshot_eq_dec : EqDecision NamedServiceAuthoritySnapshot.
Proof. solve_decision. Defined.

Definition validate_capacity (capacity : Z) : result NamedServiceAuthorityError unit :=
  assert_or ((1 <=? capacity) && (capacity <=? MAX_NAMED_SERVICE_AUTHORITY_ENTRIES)) (InvalidSnapshot "authority capacity must be in 1..=1024").

Definition next_revision (current : Z) : result NamedServiceAuthorityError Z :=
  next ← ok_or (checked_add u64_max current 1) RevisionExhausted;
  assert_or (negb (next =? u64_max)) RevisionExhausted ;;
  Ok next.

(** No retained observation is ahead of the root. *)
Definition validate_entry (s : NamedServiceAuthoritySnapshot) (global : RollbackState) (entry : list byte * ServiceGenerationObservation)
    : result NamedServiceAuthorityError unit :=
  let '(resource_id, o) := entry in
  assert_or (negb (negb (go_network_magic o =? sn_network_magic s) || negb (bool_decide (go_subject o = sn_subject s)) ||
                   negb (bool_decide (go_resource_id o = resource_id))))
    (InvalidSnapshot "service observation binding mismatch") ;;
  let root := go_rollback_state o in
  assert_or (negb ((rb_sequence global <? rb_sequence root) || negb (bytes_le (rb_chain_work root) (rb_chain_work global)) ||
                   ((rb_sequence root =? rb_sequence global) && negb (bool_decide (rb_envelope_hash root = rb_envelope_hash global)))))
    (InvalidSnapshot "service observation is ahead of subject rollback state").

Definition snapshot_validate (s : NamedServiceAuthoritySnapshot) : result NamedServiceAuthorityError unit :=
  validate_capacity (sn_capacity s) ;;
  assert_or (negb (sn_revision s =? u64_max)) (InvalidSnapshot "authority revision u64::MAX is reserved") ;;
  assert_or (len (sn_observations s) <=? sn_revision s) (InvalidSnapshot "authority entry count exceeds reachable revision lineage") ;;
  assert_or (len (sn_observations s) <=? sn_capacity s) (InvalidSnapshot "authority entry count exceeds capacity") ;;
  match sn_rollback_state s with
  | None => assert_or (len (sn_observations s) =? 0) (InvalidSnapshot "service observations exist without a subject rollback state")
  | Some global =>
    assert_or (negb (sn_revision s =? 0)) (InvalidSnapshot "revision zero cannot contain authority observations") ;;
    assert_or (negb (negb (rb_network_magic global =? sn_network_magic s) || negb (bool_decide (rb_subject global = sn_subject s))))
      (InvalidSnapshot "subject rollback-state binding mismatch") ;;
    try_each (validate_entry s global) (sn_observations s)
  end.

Definition encode_rollback_body (e : Encoder) (r : RollbackState) : Encoder :=
  let e := put_u64_le e (rb_sequence r) in
  let e := put_bytes e (rb_envelope_hash r) in
  let e := put_u32_le e (rb_chain_height r) in
  let e := put_bytes e (rb_chain_work r) in
  put_bytes e (rb_chain_anchor r).

Definition read_rollback_body (network_magic : Z) (subject : list byte) : decM NamedServiceAuthorityError RollbackState :=
  sequence ← lift_err AsDecode read_u64_le;
  envelope_hash ← lift_err AsDecode (read_array 32);
  chain_height ← lift_err AsDecode read_u32_le;
  chain_work ← lift_err AsDecode (read_array 32);
  chain_anchor ← lift_err AsDecode (read_array 32);
  mret (mkRollbackState network_magic subject sequence envelope_hash chain_height chain_work chain_anchor).
Definition decode_rollback_body (input : list byte) (network_magic : Z) (subject : list byte) : result NamedServiceAuthorityError RollbackState :=
  run_all AsDecode (read_rollback_body network_magic subject) input.

Definition actually_rolls_back (previous current : RollbackState) : bool :=
  (rb_sequence current <? rb_sequence previous) ||
  ((rb_sequence current =? rb_sequence previous) && negb (bool_decide (rb_envelope_hash current = rb_envelope_hash previous))) ||
  negb (bytes_le (rb_chain_work previous) (rb_chain_work current)).

Section snapshots.
Context {CR : Crypto}.

Definition as_blake2b_256 (parts : list (list byte)) : list byte := blake2b 32 (mjoin parts).
Definition snapshot_checksum (payload : list byte) : list byte := as_blake2b_256 [SNAPSHOT_CHECKSUM_DOMAIN; payload].

Definition put_observation (e : Encoder) (entry : list byte * ServiceGenerationObservation) : result NamedServiceAuthorityError Encoder :=
  encoded ← map_err AsHnsa (ServiceGenerationObservation_encode entry.2);
  Ok (put_bytes e encoded).

Definition snapshot_encode (s : NamedServiceAuthoritySnapshot) : result NamedServiceAuthorityError (list byte) :=
  snapshot_validate s ;;
  entry_bytes ← ok_or (checked_mul usize_max (len (sn_observations s)) SERVICE_GENERATION_OBSERVATION_SIZE) (InvalidSnapshot "authority snapshot size overflow");
  encoded_size ← ok_or (size ← checked_add usize_max SNAPSHOT_HEADER_SIZE entry_bytes; checked_add usize_max size CHECKSUM_SIZE)
                   (InvalidSnapshot "authority snapshot size overflow");
  let e := put_bytes (with_capacity encoded_size) SNAPSHOT_MAGIC in
  let e := put_u8 e (z2b NAMED_SERVICE_AUTHORITY_SNAPSHOT_VERSION) in
  let e := put_u32_le e (sn_network_magic s) in
  let e := put_bytes e (sn_subject s) in
  assert_or (sn_capacity s <=? u32_max) (InvalidSnapshot "authority capacity is not encodable") ;;
  let e := put_u32_le e (sn_capacity s) in
  let e := put_u64_le e (sn_revision s) in
  let e := put_u64_le e (sn_trusted_time_high_water s) in
  let e := put_u8 e (if bool_decide (is_Some (sn_rollback_state s)) then x01 else x00) in
  let e := match sn_rollback_state s with
           | Some rollback => encode_rollback_body e rollback
           | None => put_bytes e (zeros (Z.to_nat ROLLBACK_BODY_SIZE))
           end in
  assert_or (len (sn_observations s) <=? u32_max) (InvalidSnapshot "authority entry count is not encodable") ;;
  let e := put_u32_le e (len (sn_observations s)) in
  e ← try_fold put_observation e (sn_observations s);
  let encoded := into_bytes e in
  assert_or (len encoded + CHECKSUM_SIZE =? encoded_size) (InvalidSnapshot "authority snapshot encoded size mismatch") ;;
  Ok (encoded ++ snapshot_checksum encoded).

(** The loop over the entries: the map so far and the previous resource. *)
Definition read_entry (network_magic : Z) (subject : list byte) (st : list (list byte * ServiceGenerationObservation) * option (list byte))
    : decM NamedServiceAuthorityError (list (list byte * ServiceGenerationObservation) * option (list byte)) :=
  let '(observations, previous_resource) := st in
  encoded ← lift_err AsDecode (read_slice SERVICE_GENERATION_OBSERVATION_SIZE);
  o ← lift_res (map_err AsHnsa (ServiceGenerationObservation_decode encoded));
  let resource_id := go_resource_id o in
  lift_res (assert_or ((go_network_magic o =? network_magic) && bool_decide (go_subject o = subject))
    (InvalidSnapshot "authority service observation binding mismatch")) ;;
  lift_res (assert_or (negb (match previous_resource with Some previous => bytes_le resource_id previous | None => false end))
    (InvalidSnapshot "authority service observations are not strictly sorted")) ;;
  lift_res (assert_or (negb (bool_decide (is_Some (tm_get resource_id observations)))) (InvalidSnapshot "duplicate authority service observation")) ;;
  mret (tm_insert resource_id o observations, Some resource_id).

Fixpoint read_entries (network_magic : Z) (subject : list byte) (count : nat) (st : list (list byte * ServiceGenerationObservation) * option (list byte))
    : decM NamedServiceAuthorityError (list (list byte * ServiceGenerationObservation)) :=
  match count with
  | O => mret st.1
  | S count => st ← read_entry network_magic subject st; read_entries network_magic subject count st
  end.

Definition read_snapshot : decM NamedServiceAuthorityError NamedServiceAuthoritySnapshot :=
  magic ← lift_err AsDecode (read_array 8);
  lift_res (assert_or (bool_decide (magic = SNAPSHOT_MAGIC)) (InvalidSnapshot "invalid authority snapshot magic")) ;;
  version ← lift_err AsDecode read_u8;
  lift_res (assert_or (b2z version =? NAMED_SERVICE_AUTHORITY_SNAPSHOT_VERSION) (InvalidSnapshot "unsupported authority snapshot version")) ;;
  network_magic ← lift_err AsDecode read_u32_le;
  subject ← lift_err AsDecode (read_array 32);
  capacity ← lift_err AsDecode read_u32_le;
  lift_res (validate_capacity capacity) ;;
  revision ← lift_err AsDecode read_u64_le;
  trusted_time_high_water ← lift_err AsDecode read_u64_le;
  has_rollback ← lift_err AsDecode read_u8;
  rollback_body ← lift_err AsDecode (read_slice ROLLBACK_BODY_SIZE);
  rollback_state ← lift_res (if b2z has_rollback =? 0
                             then assert_or (bool_decide (rollback_body = zeros (Z.to_nat ROLLBACK_BODY_SIZE))) (InvalidSnapshot "noncanonical absent rollback state") ;; Ok None
                             else if b2z has_rollback =? 1 then r ← decode_rollback_body rollback_body network_magic subject; Ok (Some r)
                             else Err (InvalidSnapshot "invalid authority rollback-state marker"));
  count ← lift_err AsDecode read_u32_le;
  lift_res (assert_or (count <=? capacity) (InvalidSnapshot "authority entry count exceeds capacity")) ;;
  expected_remaining ← lift_res (ok_or (checked_mul usize_max count SERVICE_GENERATION_OBSERVATION_SIZE) (InvalidSnapshot "authority entry size overflow"));
  d ← dec_get;
  lift_res (assert_or (remaining d =? expected_remaining) (InvalidSnapshot "authority snapshot entry length mismatch")) ;;
  observations ← read_entries network_magic subject (Z.to_nat count) ([], None);
  mret (mkAuthoritySnapshot network_magic subject capacity revision trusted_time_high_water rollback_state observations).

Definition snapshot_decode (input : list byte) : result NamedServiceAuthorityError NamedServiceAuthoritySnapshot :=
  assert_or ((MIN_SNAPSHOT_SIZE <=? len input) && (len input <=? MAX_SNAPSHOT_SIZE)) (InvalidSnapshot "invalid authority snapshot size") ;;
  let payload_size := len input - CHECKSUM_SIZE in
  let payload := take (Z.to_nat payload_size) input in
  let supplied_checksum := drop (Z.to_nat payload_size) input in
  assert_or (bool_decide (supplied_checksum = snapshot_checksum payload)) (InvalidSnapshot "authority snapshot checksum mismatch") ;;
  s ← run_all AsDecode read_snapshot payload;
  snapshot_validate s ;;
  encoded ← snapshot_encode s;
  assert_or (bool_decide (encoded = input)) (InvalidSnapshot "noncanonical authority snapshot") ;;
  Ok s.

Definition snapshot_fingerprint (s : NamedServiceAuthoritySnapshot) : result NamedServiceAuthorityError (list byte) :=
  encoded ← snapshot_encode s;
  Ok (as_blake2b_256 [SNAPSHOT_FINGERPRINT_DOMAIN; encoded]).
Definition exact_expectation (s : NamedServiceAuthoritySnapshot) : result NamedServiceAuthorityError AuthorityPersistenceExpectation :=
  fingerprint ← snapshot_fingerprint s;
  Ok (ExpectExact (sn_revision s) fingerprint).

(** [&&] evaluates the fingerprint only for the expected revision. *)
Definition snapshot_matches_expectation (s : NamedServiceAuthoritySnapshot) (e : AuthorityPersistenceExpectation) : result NamedServiceAuthorityError bool :=
  match e with
  | ExpectAbsent => Ok false
  | ExpectExact revision fingerprint =>
    if sn_revision s =? revision then actual ← snapshot_fingerprint s; Ok (bool_decide (actual = fingerprint)) else Ok false
  end.
End snapshots.

(** ** The state *)
Record NamedServiceAuthorityState := mkAuthorityState {
  as_snapshot : NamedServiceAuthoritySnapshot;
  as_pending : option AuthorityPersistenceExpectation;
  as_storage_namespace_id : option (list byte);
}.
Record CommittedNamedService := mkCommitted { cs_authority_revision : Z; cs_observed : ObservedNamedService }.
Definition CommittedNamedService_observation (c : CommittedNamedService) : ServiceGenerationObservation := ObservedNamedService_observation (cs_observed c).
Definition CommittedNamedService_active (c : CommittedNamedService) : option VerifiedNamedService :=
  match cs_observed c with ObservedActive service => Some service | ObservedWithdrawn _ => None end.

Definition with_revision (s : NamedServiceAuthoritySnapshot) (revision time : Z) (root : option RollbackState)
    (observations : list (list byte * ServiceGenerationObservation)) : NamedServiceAuthoritySnapshot :=
  mkAuthoritySnapshot (sn_network_magic s) (sn_subject s) (sn_capacity s) revision time root observations.

Definition NamedServiceAuthorityState_new (network_magic : Z) (subject : list byte) (capacity trusted_now : Z)
    : result NamedServiceAuthorityError NamedServiceAuthorityState :=
  validate_capacity capacity ;;
  Ok (mkAuthorityState (mkAuthoritySnapshot network_magic subject capacity 0 trusted_now None []) (Some ExpectAbsent) None).

Section restore.
Context {CR : Crypto}.

Definition NamedServiceAuthorityState_restore (encoded : list byte) (expected_network_magic : Z) (expected_subject : list byte)
    (expected_capacity minimum_revision trusted_now : Z) : result NamedServiceAuthorityError NamedServiceAuthorityState :=
  s ← snapshot_decode encoded;
  assert_or ((sn_network_magic s =? expected_network_magic) && bool_decide (sn_subject s = expected_subject) && (sn_capacity s =? expected_capacity)) BindingMismatch ;;
  assert_or (minimum_revision <=? sn_revision s) RevisionRollback ;;
  assert_or (sn_trusted_time_high_water s <=? trusted_now) TrustedTimeRollback ;;
  if sn_trusted_time_high_water s <? trusted_now
  then expected ← exact_expectation s;
       revision ← next_revision (sn_revision s);
       let candidate := with_revision s revision trusted_now (sn_rollback_state s) (sn_observations s) in
       snapshot_validate candidate ;;
       Ok (mkAuthorityState candidate (Some expected) None)
  else Ok (mkAuthorityState s None None).

Definition prepare_transition (st : NamedServiceAuthorityState) (trusted_time_high_water : Z) (rollback_state : option RollbackState)
    (observations : list (list byte * ServiceGenerationObservation)) : result NamedServiceAuthorityError NamedServiceAuthorityState :=
  let s := as_snapshot st in
  if (trusted_time_high_water =? sn_trusted_time_high_water s) && bool_decide (rollback_state = sn_rollback_state s) &&
     bool_decide (observations = sn_observations s)
  then Ok st
  else expectation ← exact_expectation s;
       revision ← next_revision (sn_revision s);
       let candidate := with_revision s revision trusted_time_high_water rollback_state observations in
       snapshot_validate candidate ;;
       Ok (mkAuthorityState candidate (Some expectation) (as_storage_namespace_id st)).
End restore.

(** ** The embedding *)
Class AuthorityHost (HA : HrmAdapters) := {
  HostWorld : Type;
  HostGuard : Type;
  PersistError : Type;
  RetrieveError : Type;
  host_guard :: FencedLeaseGuard AuthorityLeaseKey HostGuard HostWorld;
  host_load : LeaseWitness AuthorityLeaseKey HostGuard -> HostWorld -> result PersistError NamedServiceAuthorityStorageState * HostWorld;
  host_persist : NamedServiceAuthorityExpectation -> NamedServiceAuthoritySnapshot -> HostWorld -> result PersistError unit * HostWorld;
  host_retrieve : Z -> HostWorld -> result RetrieveError ResolvedManifest * HostWorld;
  host_clock : HostWorld -> @World HA;
}.

Section authority.
Context {CR : Crypto} {SD : ScriptDigests} {KC : K256} {KD : KeyCodec KC} {B64 : Base64} {HA : HrmAdapters} {HS : AuthorityHost HA}.

Definition authM (E A : Type) : Type := effM (NamedServiceAuthorityState * HostWorld) E A.
Definition Commit : Type := CommitError PersistError.
Definition Operation : Type := OperationError RetrieveError PersistError.
Definition AuthorityLease : Type := LeaseWitness AuthorityLeaseKey HostGuard.

(** A callback changes the world, [set_state] the state. *)
Definition on_world {E A} (f : HostWorld -> result E A * HostWorld) : authM E A := fun '(st, w) => let '(r, w') := f w in (r, (st, w')).
Definition get_state {E} : authM E NamedServiceAuthorityState := fun '(st, w) => (Ok st, (st, w)).
Definition get_world {E} : authM E HostWorld := fun '(st, w) => (Ok w, (st, w)).
Definition set_state {E} (st : NamedServiceAuthorityState) : authM E unit := fun '(_, w) => (Ok tt, (st, w)).

Definition ensure_held (lease : AuthorityLease) : authM NamedServiceAuthorityError unit :=
  eff_err AsLease (on_world (LeaseWitness_ensure_held lease)).

Definition validate_lease (lease : AuthorityLease) : authM NamedServiceAuthorityError unit :=
  ensure_held lease ;;
  st ← get_state;
  let key := lw_key lease in
  eff_lift (assert_or (negb (negb (lk_network_magic key =? sn_network_magic (as_snapshot st)) ||
                             negb (bool_decide (lk_subject key = sn_subject (as_snapshot st))) ||
                             match as_storage_namespace_id st with
                             | Some namespace => negb (bool_decide (namespace = lk_storage_namespace_id key))
                             | None => false
                             end))
              BindingMismatch).

(** What stays pending given what the store holds. *)
Definition pending_after (st : NamedServiceAuthorityState) (loaded : NamedServiceAuthorityStorageState)
    : result NamedServiceAuthorityError (option AuthorityPersistenceExpectation) :=
  match loaded with
  | StorageAbsent => match as_pending st with Some ExpectAbsent => Ok (as_pending st) | _ => Err DurableStateMismatch end
  | StoragePresent encoded minimum_revision =>
    durable ← snapshot_decode encoded;
    let s := as_snapshot st in
    assert_or ((sn_network_magic durable =? sn_network_magic s) && bool_decide (sn_subject durable = sn_subject s) && (sn_capacity durable =? sn_capacity s))
      BindingMismatch ;;
    assert_or (minimum_revision <=? sn_revision durable) RevisionRollback ;;
    if bool_decide (durable = s) then Ok None
    else match as_pending st with
         | Some (ExpectExact revision fingerprint) =>
           matches ← snapshot_matches_expectation durable (ExpectExact revision fingerprint);
           if matches : bool then Ok (as_pending st) else Err DurableStateMismatch
         | _ => Err DurableStateMismatch
         end
  end.

Definition reconcile_loaded (lease : AuthorityLease) (loaded : NamedServiceAuthorityStorageState) : authM NamedServiceAuthorityError unit :=
  st ← get_state;
  pending ← eff_lift (pending_after st loaded);
  ensure_held lease ;;
  set_state (mkAuthorityState (as_snapshot st) pending (Some (lk_storage_namespace_id (lw_key lease)))).

Definition reconfirm (lease : AuthorityLease) : authM Commit unit :=
  eff_err CommitAuthority (validate_lease lease) ;;
  loaded ← eff_err CommitPersistence (on_world (host_load lease));
  eff_err CommitAuthority (ensure_held lease) ;;
  eff_err CommitAuthority (reconcile_loaded lease loaded).

Definition bind_current_revision (st : NamedServiceAuthorityState) (committed : CommittedNamedService) : result NamedServiceAuthorityError unit :=
  assert_or (match as_pending st with None => true | Some _ => false end) PendingPersistence ;;
  assert_or (cs_authority_revision committed =? sn_revision (as_snapshot st)) CommittedResultNotCurrent ;;
  let o := CommittedNamedService_observation committed in
  assert_or (negb (negb (go_network_magic o =? sn_network_magic (as_snapshot st)) || negb (bool_decide (go_subject o = sn_subject (as_snapshot st))) ||
                   negb (bool_decide (tm_get (go_resource_id o) (sn_observations (as_snapshot st)) = Some o))))
    CommittedResultNotCurrent.

Definition bind_current_at (lease : AuthorityLease) (committed : CommittedNamedService) (trusted_now : Z) : authM NamedServiceAuthorityError unit :=
  validate_lease lease ;;
  st ← get_state;
  eff_lift (bind_current_revision st committed) ;;
  eff_lift (assert_or (negb (negb (trusted_now =? sn_trusted_time_high_water (as_snapshot st)) ||
                             match CommittedNamedService_active committed with
                             | Some active => (trusted_now <? vn_validated_at active) || (vn_cache_until active <=? trusted_now)
                             | None => false
                             end))
              OperationTimeMismatch).

Definition persist_pending (lease : AuthorityLease) : authM Commit unit :=
  eff_err CommitAuthority (validate_lease lease) ;;
  st ← get_state;
  match as_pending st with
  | None => mret tt
  | Some expectation =>
    eff_err CommitPersistence (on_world (host_persist (expectation_fenced expectation lease) (as_snapshot st))) ;;
    eff_err CommitAuthority (ensure_held lease) ;;
    set_state (mkAuthorityState (as_snapshot st) None (as_storage_namespace_id st))
  end.

(** [prepare_transition] on the current state. *)
Definition transition (time : Z) (root : option RollbackState) (observations : list (list byte * ServiceGenerationObservation))
    : authM NamedServiceAuthorityError unit :=
  st ← get_state;
  st ← eff_lift (prepare_transition st time root observations);
  set_state st.

Definition advance_trusted_time_persisted (lease : AuthorityLease) (trusted_now : Z) : authM Commit Z :=
  persist_pending lease ;;
  st ← get_state;
  eff_lift (assert_or (sn_trusted_time_high_water (as_snapshot st) <=? trusted_now) (CommitAuthority TrustedTimeRollback)) ;;
  eff_err CommitAuthority (transition trusted_now (sn_rollback_state (as_snapshot st)) (sn_observations (as_snapshot st))) ;;
  persist_pending lease ;;
  st ← get_state;
  mret (sn_revision (as_snapshot st)).

Definition previous_roots (s : NamedServiceAuthoritySnapshot) : RollbackObservations :=
  match sn_rollback_state s with Some previous => {[ (sn_network_magic s, sn_subject s) := previous ]} | None => ∅ end.

Definition subject_reorganized (s : NamedServiceAuthoritySnapshot) (validated : ValidatedCurrentManifest) : bool :=
  match sn_rollback_state s with
  | Some previous =>
    actually_rolls_back previous (cm_rollback_observation validated) &&
    match vs_accepted_reorganization (cm_current_snapshot validated) with
    | Some evidence => AcceptedReorganization_matches evidence previous (cm_rollback_observation validated)
    | None => false
    end
  | None => false
  end.

(** The decision on a validated manifest, with the observations to persist. *)
Definition observe_decision (s : NamedServiceAuthoritySnapshot) (validated : ValidatedCurrentManifest) (identity : NamedServiceIdentity) (policy : NamedServicePolicy)
    : result NamedServiceAuthorityError ObservedNamedService * list (list byte * ServiceGenerationObservation) :=
  let reorganization := subject_reorganized s validated in
  let observations := if reorganization then [] else sn_observations s in
  let observed := resource_id ← service_resource_id identity;
                  observe_named_service validated identity policy (if reorganization then None else tm_get resource_id (sn_observations s)) in
  match observed with
  | Ok observed =>
    let o := ObservedNamedService_observation observed in
    if bool_decide (tm_get (go_resource_id o) observations = None) && (sn_capacity s <=? len observations)
    then (Err AsCapacity, observations)
    else (Ok observed, tm_insert (go_resource_id o) o observations)
  | Err e => (Err (AsHnsa e), observations)
  end.

Definition prepare_validate_and_observe (root : ResolvedManifest) (identity : NamedServiceIdentity) (policy : NamedServicePolicy) (trusted_now : Z)
    (limits : ValidationLimits) : authM NamedServiceAuthorityError ObservedNamedService :=
  st ← get_state;
  let s := as_snapshot st in
  eff_lift (assert_or (match as_pending st with None => true | Some _ => false end) PendingPersistence) ;;
  eff_lift (assert_or ((ni_network_magic identity =? sn_network_magic s) && bool_decide (ni_name_hash identity = sn_subject s)) BindingMismatch) ;;
  eff_lift (assert_or (trusted_now =? sn_trusted_time_high_water s) OperationTimeMismatch) ;;
  w ← get_world;
  match validate_current_manifest root (sn_network_magic s) (sn_subject s) trusted_now limits (previous_roots s) (host_clock w) with
  | Err error =>
    transition trusted_now (sn_rollback_state s) (sn_observations s) ;;
    eff_lift (Err (AsValidation error))
  | Ok validated =>
    let '(decision, observations) := observe_decision s validated identity policy in
    transition trusted_now (Some (cm_rollback_observation validated)) observations ;;
    eff_lift decision
  end.

(** The decision is kept while its transition is persisted. *)
Definition validate_and_observe_resolved (lease : AuthorityLease) (root : ResolvedManifest) (identity : NamedServiceIdentity) (policy : NamedServicePolicy)
    (trusted_now : Z) (limits : ValidationLimits) : authM Commit CommittedNamedService :=
  eff_err CommitAuthority (validate_lease lease) ;;
  st ← get_state;
  eff_lift (assert_or (match as_pending st with None => true | Some _ => false end) (CommitAuthority PendingPersistence)) ;;
  eff_lift (assert_or (trusted_now =? sn_trusted_time_high_water (as_snapshot st)) (CommitAuthority OperationTimeMismatch)) ;;
  prepared ← (fun s => let '(r, s) := prepare_validate_and_observe root identity policy trusted_now limits s in (Ok r, s));
  persist_pending lease ;;
  st ← get_state;
  eff_lift (observed ← map_err CommitAuthority prepared; Ok (mkCommitted (sn_revision (as_snapshot st)) observed)).

Definition retrieve_validate_and_observe (lease : AuthorityLease) (trusted_now : Z) (identity : NamedServiceIdentity) (policy : NamedServicePolicy)
    (limits : ValidationLimits) : authM Operation CommittedNamedService :=
  eff_err operation_error (advance_trusted_time_persisted lease trusted_now) ;;
  retrieved ← (fun s => let '(r, s) := on_world (host_retrieve trusted_now) s in (Ok r, s));
  eff_err OpAuthority (validate_lease lease) ;;
  root ← eff_lift (map_err OpRetrieval retrieved);
  eff_err operation_error (validate_and_observe_resolved lease root identity policy trusted_now limits).
End authority.

(** ** The snapshot codec *)
Definition root_typed (r : RollbackState) : Prop :=
  u64 (rb_sequence r) /\ len (rb_envelope_hash r) = 32 /\ u32 (rb_chain_height r) /\ len (rb_chain_work r) = 32 /\ len (rb_chain_anchor r) = 32.
Definition root_bytes (r : RollbackState) : list byte :=
  to_le_bytes 8 (rb_sequence r) ++ rb_envelope_hash r ++ to_le_bytes 4 (rb_chain_height r) ++ rb_chain_work r ++ rb_chain_anchor r.

Record snapshot_typed (s : NamedServiceAuthoritySnapshot) : Prop := {
  st_magic : u32 (sn_network_magic s);
  st_subject : len (sn_subject s) = 32;
  st_revision : u64 (sn_revision s);
  st_time : u64 (sn_trusted_time_high_water s);
  st_root : match sn_rollback_state s with Some r => root_typed r | None => True end;
  st_sorted : tm_ok (sn_observations s);
  st_entries : Forall (fun e => go_resource_id e.2 = e.1 /\ observation_typed e.2 /\ validate_observation e.2 = Ok tt) (sn_observations s);
}.

Lemma root_bytes_len r : root_typed r -> len (root_bytes r) = ROLLBACK_BODY_SIZE.
Proof. intros (_ & L1 & _ & L2 & L3). unfold root_bytes. by rewrite !len_app, !len_to_le_bytes, L1, L2, L3. Qed.

Lemma decode_rollback_Ok inp magic subject r :
  len inp <= isize_max ->
  decode_rollback_body inp magic subject = Ok r <-> root_typed r /\ rb_network_magic r = magic /\ rb_subject r = subject /\ inp = root_bytes r.
Proof.
  intros L. unfold decode_rollback_body. split.
  - intros (d & R & F)%run_all_Ok. pose proof (wf_new inp L) as W. unfold read_rollback_body in R. dbind R as q d1 K1. dbind R as h d2 K2. dbind R as t d3 K3.
    dbind R as wk d4 K4. dbind R as an d5 K5. apply dec_ret_Ok in R as (<- & ->). took_all. split; [by split_and!|]. split; [done|]. split; [done|].
    symmetry. eapply took_finish; [|exact F]. unfold root_bytes. cbn [rb_sequence rb_envelope_hash rb_chain_height rb_chain_work rb_chain_anchor]. took_chain.
  - intros ((U1 & L1 & U2 & L2 & L3) & <- & <- & ->). apply run_all_reads; [done|]. unfold read_rollback_body, root_bytes.
    eapply reads_bind; [by apply reads_err, read_u64_reads|]. eapply reads_bind; [by apply reads_err, read_array_reads|].
    eapply reads_bind; [by apply reads_err, read_u32_reads|]. eapply reads_bind; [by apply reads_err, read_array_reads|].
    eapply reads_last; [by apply reads_err, read_array_reads|]. destruct r. apply reads_ret.
Qed.

Section snapshot_codec.
Context {CR : Crypto}.

Definition observation_encoding (o : ServiceGenerationObservation) : list byte :=
  observation_bytes o ++ service_generation_observation_checksum (observation_bytes o).
Definition entries_bytes (es : list (list byte * ServiceGenerationObservation)) : list byte := mjoin ((fun e => observation_encoding e.2) <$> es).
Definition snapshot_bytes (s : NamedServiceAuthoritySnapshot) : list byte :=
  SNAPSHOT_MAGIC ++ [z2b NAMED_SERVICE_AUTHORITY_SNAPSHOT_VERSION] ++ to_le_bytes 4 (sn_network_magic s) ++ sn_subject s ++ to_le_bytes 4 (sn_capacity s) ++
  to_le_bytes 8 (sn_revision s) ++ to_le_bytes 8 (sn_trusted_time_high_water s) ++ [if bool_decide (is_Some (sn_rollback_state s)) then x01 else x00] ++
  match sn_rollback_state s with Some r => root_bytes r | None => zeros (Z.to_nat ROLLBACK_BODY_SIZE) end ++
  to_le_bytes 4 (len (sn_observations s)) ++ entries_bytes (sn_observations s).

Definition entry_typed (e : list byte * ServiceGenerationObservation) : Prop :=
  go_resource_id e.2 = e.1 /\ observation_typed e.2 /\ validate_observation e.2 = Ok tt.

Lemma observation_encoding_len o : observation_typed o -> len (observation_encoding o) = SERVICE_GENERATION_OBSERVATION_SIZE.
Proof.
  intros T. unfold observation_encoding. rewrite len_app, (observation_bytes_len _ T). unfold service_generation_observation_checksum, hnsa_blake2b_256, len.
  by rewrite blake2b_length.
Qed.

Lemma entries_bytes_len es : Forall entry_typed es -> len (entries_bytes es) = len es * SERVICE_GENERATION_OBSERVATION_SIZE.
Proof.
  unfold entries_bytes. induction 1 as [|e es (_ & T & _) _ IH]; [done|]. rewrite fmap_cons, join_cons, len_app, IH, len_cons, (observation_encoding_len _ T). lia.
Qed.

Lemma snapshot_bytes_len s : snapshot_typed s ->
  len (snapshot_bytes s) = SNAPSHOT_HEADER_SIZE + len (sn_observations s) * SERVICE_GENERATION_OBSERVATION_SIZE.
Proof.
  intros [_ L _ _ R _ E]. unfold snapshot_bytes. rewrite !len_app, !len_to_le_bytes, L, (entries_bytes_len _ E). change (len [_]) with 1.
  assert (len (match sn_rollback_state s with Some r => root_bytes r | None => zeros (Z.to_nat ROLLBACK_BODY_SIZE) end) = ROLLBACK_BODY_SIZE) as ->.
  { destruct (sn_rollback_state s); [by apply root_bytes_len|done]. }
  change (len SNAPSHOT_MAGIC) with 8. change (len [_]) with 1. change ROLLBACK_BODY_SIZE with 108. unfold SNAPSHOT_HEADER_SIZE. change ROLLBACK_BODY_SIZE with 108. lia.
Qed.

Lemma put_observations_Ok es e e' :
  Forall entry_typed es -> try_fold put_observation e es = Ok e' <-> bytes e' = bytes e ++ entries_bytes es.
Proof.
  intros F. revert e e'. unfold entries_bytes. induction F as [|[rid o] es (_ & T & V) _ IH]; intros e e'; cbn [try_fold].
  - rewrite app_nil_r. destruct e, e'. cbn. split; [by intros [= <-]|]. by intros ->.
  - cbn [snd] in *. assert (put_observation e (rid, o) = Ok (put_bytes e (observation_encoding o))) as ->.
    { unfold put_observation. cbn [snd]. assert (ServiceGenerationObservation_encode o = Ok (observation_encoding o)) as -> by (by apply observation_encode_Ok). done. }
    cbn [mbind result_bind]. rewrite IH, bytes_put_bytes, fmap_cons, join_cons. cbn [snd]. by rewrite <- app_assoc.
Qed.

Lemma validate_counts s : snapshot_validate s = Ok tt ->
  1 <= sn_capacity s <= MAX_NAMED_SERVICE_AUTHORITY_ENTRIES /\ sn_revision s <> u64_max /\ len (sn_observations s) <= sn_revision s /\ len (sn_observations s) <= sn_capacity s.
Proof.
  unfold snapshot_validate, validate_capacity. intros H. apply bind_Ok in H as (? & C%assert_or_Ok & H). rewrite andb_true_iff, !Z.leb_le in C.
  apply bind_Ok in H as (? & R%assert_or_Ok%negb_true_iff%Z.eqb_neq & H). apply bind_Ok in H as (? & L%assert_or_Ok%Z.leb_le & H).
  apply bind_Ok in H as (? & K%assert_or_Ok%Z.leb_le & _). done.
Qed.

Lemma snapshot_encode_Ok s bs :
  snapshot_typed s -> snapshot_encode s = Ok bs <-> snapshot_validate s = Ok tt /\ bs = snapshot_bytes s ++ snapshot_checksum (snapshot_bytes s).
Proof.
  intros T. pose proof (snapshot_bytes_len s T) as Lb. destruct (snapshot_validate s) as [[]|] eqn:V; [|unfold snapshot_encode; rewrite V; by split; [|intros (? & _)]].
  destruct (validate_counts s V) as (C & _ & _ & L). pose proof (len_nonneg (sn_observations s)) as P. change MAX_NAMED_SERVICE_AUTHORITY_ENTRIES with 1024 in C.
  unfold snapshot_encode. rewrite V. cbn [mbind result_bind]. unfold checked_mul, checked_add. change SERVICE_GENERATION_OBSERVATION_SIZE with 258 in *.
  change SNAPSHOT_HEADER_SIZE with 178 in *. change CHECKSUM_SIZE with 32. rewrite (proj2 (Z.leb_le (len _ * 258) _)) by ulia. cbn [ok_or mbind result_bind option_bind].
  rewrite (proj2 (Z.leb_le (178 + _) _)) by ulia. cbn [mbind option_bind]. rewrite (proj2 (Z.leb_le (178 + _ + 32) _)) by ulia. cbn [ok_or mbind result_bind].
  rewrite (proj2 (Z.leb_le (sn_capacity s) _)) by ulia. cbn [assert_or mbind result_bind]. rewrite (proj2 (Z.leb_le (len _) u32_max)) by ulia. cbn [assert_or mbind result_bind].
  match goal with |- context [try_fold put_observation ?e _] => set (e0 := e) end.
  assert (bytes e0 ++ entries_bytes (sn_observations s) = snapshot_bytes s) as E0.
  { unfold e0, snapshot_bytes, encode_rollback_body, root_bytes. destruct (sn_rollback_state s);
      repeat first [rewrite bytes_put_bytes | rewrite bytes_put_u8 | rewrite bytes_put_u32 | rewrite bytes_put_u64]; by rewrite bytes_with_capacity, <- !app_assoc. }
  assert (try_fold put_observation e0 (sn_observations s) = Ok (mkEncoder (snapshot_bytes s))) as ->.
  { apply put_observations_Ok; [apply T|]. by rewrite E0. }
  cbn [mbind result_bind into_bytes bytes]. rewrite Lb, (proj2 (Z.eqb_eq _ _)) by lia. cbn [assert_or mbind result_bind]. split; [by intros [= <-]|by intros (_ & ->)].
Qed.

(** The state of the loop: a sorted map, the previous resource its last key. *)
Definition loop_ok (st : list (list byte * ServiceGenerationObservation) * option (list byte)) : Prop :=
  tm_ok st.1 /\ last (st.1.*1) = st.2.

Lemma loop_next st rid (o : ServiceGenerationObservation) :
  loop_ok st -> match st.2 with Some p => bytes_le rid p = false | None => True end ->
  tm_insert rid o st.1 = st.1 ++ [(rid, o)] /\ loop_ok (st.1 ++ [(rid, o)], Some rid) /\ tm_get rid st.1 = None.
Proof.
  destruct st as [m prev]. cbn [fst snd]. intros (Sm & P) N. cbn [fst snd] in *. assert (Forall (fun e => bytes_lt e.1 rid) m) as F.
  { destruct m as [|[k x] m _] using rev_ind; [done|]. unfold tm_ok in Sm. rewrite fmap_app in P, Sm. cbn in P, Sm. rewrite last_snoc in P. subst prev.
    assert (bytes_lt k rid) as Kr by (split; [by apply bytes_le_total|]; intros ->; by rewrite bytes_le_refl in N).
    apply StronglySorted_app in Sm as (L & _). apply Forall_app. split; [|by apply Forall_singleton].
    apply Forall_forall. intros e I. eapply bytes_lt_trans; [|exact Kr]. apply L; [apply list_elem_of_fmap; by exists e|by apply list_elem_of_singleton]. }
  pose proof (tm_insert_last rid o m F) as E. split; [done|]. split.
  - split; cbn [fst snd]; [rewrite <- E; by apply tm_ok_insert|]. rewrite fmap_app. apply last_snoc.
  - apply tm_get_None. intros ([k x] & -> & I)%list_elem_of_fmap. rewrite Forall_forall in F. by destruct (F _ I) as (_ & ?).
Qed.

Lemma read_entry_inv magic subject st d st' d' :
  dec_wf d -> loop_ok st -> read_entry magic subject st d = (Ok st', d') ->
  exists o, took d (observation_encoding o) d' /\ entry_typed (go_resource_id o, o) /\ st' = (st.1 ++ [(go_resource_id o, o)], Some (go_resource_id o)) /\ loop_ok st'.
Proof.
  destruct st as [m prev]. intros W O R. unfold read_entry in R. dbind R as en d1 K1. dbind R as o d1' C1. dbind R as u1 d2 C2. dbind R as u2 d3 C3. dbind R as u3 d4 C4.
  apply dec_ret_Ok in R as (<- & ->). apply read_slice_inv in K1 as (T & _); [|done|done]. apply map_err_Ok, observation_decode_Ok in C1 as (To & E).
  pose proof E as (Vo & ->)%observation_encode_Ok; [|done]. apply assert_or_Ok, negb_true_iff in C3. exists o. split; [done|]. split; [done|].
  destruct (loop_next (m, prev) (go_resource_id o) o O) as (E1 & O' & _); [by destruct prev|]. cbn [fst] in *. rewrite E1. by split.
Qed.

Lemma read_entries_inv magic subject n st d es d' :
  dec_wf d -> loop_ok st -> read_entries magic subject n st d = (Ok es, d') -> Forall entry_typed st.1 ->
  exists new, es = st.1 ++ new /\ length new = n /\ took d (entries_bytes new) d' /\ tm_ok es /\ Forall entry_typed es.
Proof.
  revert st d. induction n as [|n IH]; intros st d W O R F; cbn [read_entries] in R.
  - apply dec_ret_Ok in R as (<- & ->). exists []. rewrite app_nil_r. split_and!; try done; [by apply took_refl|apply O].
  - dbind R as st1 d1 K1. apply read_entry_inv in K1 as (o & T & To & -> & O'); [|done|done]. pose proof (took_wf _ _ _ T) as W1. cbn [fst] in *.
    apply IH in R as (new & -> & Ln & Tn & S & Fe); [|done|done|by apply Forall_app; split; [|constructor]]. exists ((go_resource_id o, o) :: new). cbn [fst] in *. rewrite <- app_assoc.
    split; [done|]. split; [cbn; lia|]. split; [|by rewrite app_assoc in *]. unfold entries_bytes. rewrite fmap_cons, join_cons. by eapply took_trans.
Qed.

Lemma read_entries_reads magic subject new st d after :
  loop_ok st -> tm_ok (st.1 ++ new) -> Forall entry_typed new -> Forall (fun e => go_network_magic e.2 = magic /\ go_subject e.2 = subject) new ->
  reads_before d (read_entries magic subject (length new) st) (entries_bytes new) after (st.1 ++ new).
Proof.
  revert st d. induction new as [|[rid o] new IH]; intros st d O S F B; cbn [read_entries length].
  - rewrite app_nil_r. apply before_reads, reads_ret.
  - apply Forall_cons in F as ((E & To & V) & F). apply Forall_cons in B as ((B1 & B2) & B). cbn [fst snd] in *. subst rid.
    unfold entries_bytes. rewrite fmap_cons, join_cons. cbn [snd].
    assert (match st.2 with Some p => bytes_le (go_resource_id o) p = false | None => True end) as N.
    { destruct st as [m prev]. destruct O as (Sm & P). cbn [fst snd] in *. destruct prev as [p|]; [|done]. unfold tm_ok in S. rewrite fmap_app, fmap_cons in S.
      apply StronglySorted_app in S as (L & _). apply last_Some_elem_of in P. destruct (L p (go_resource_id o) P ltac:(by apply elem_of_cons; left)) as (Le & Ne).
      destruct (bytes_le (go_resource_id o) p) eqn:X; [|done]. by destruct Ne; apply bytes_le_antisym. }
    destruct (loop_next st (go_resource_id o) o O N) as (E1 & O' & G0).
    eapply (before_bind _ _ _ _ _ _ (st.1 ++ [(go_resource_id o, o)], Some (go_resource_id o))).
    + apply before_reads. destruct st as [m prev]. unfold read_entry. cbn [fst snd] in *. eapply reads_last.
      { apply reads_err, read_slice_reads. by apply observation_encoding_len. }
      eapply (reads_nil_bind _ _ _ _ o); [apply reads_res, map_err_Ok, observation_decode_Ok; split; [done|]; by apply observation_encode_Ok|].
      cbv zeta. eapply reads_nil_bind; [apply reads_assert; rewrite B1, Z.eqb_refl; by apply bool_decide_eq_true|].
      eapply reads_nil_bind; [apply reads_assert; destruct prev; [by rewrite N|done]|].
      eapply reads_nil_bind; [apply reads_assert; rewrite G0; done|]. rewrite E1. apply reads_ret.
    + cbn [fst] in *. rewrite (app_assoc st.1 [_] new : st.1 ++ (go_resource_id o, o) :: new = _). apply IH; [done| |done|done]. cbn [fst]. by rewrite <- app_assoc.
Qed.

Lemma validate_binds s e : snapshot_validate s = Ok tt -> e ∈ sn_observations s -> go_network_magic e.2 = sn_network_magic s /\ go_subject e.2 = sn_subject s.
Proof.
  unfold snapshot_validate. intros H I. do 4 (apply bind_Ok in H as (? & _ & H)). destruct (sn_rollback_state s) as [g|].
  - do 2 (apply bind_Ok in H as (? & _ & H)). rewrite try_each_Ok, Forall_forall in H. apply H in I. destruct e as [rid o]. unfold validate_entry in I.
    apply bind_Ok in I as (? & B%assert_or_Ok & _). rewrite !negb_orb, !negb_involutive in B. apply andb_prop in B as (B & _). apply andb_prop in B as (M & B).
    cbn [snd]. split; [by apply Z.eqb_eq|by apply bool_decide_eq_true in B].
  - apply assert_or_Ok, Z.eqb_eq in H. destruct (sn_observations s); [by apply elem_of_nil in I|]. rewrite len_cons in H. pose proof (len_nonneg l). lia.
Qed.

Lemma read_snapshot_inv d s d' :
  dec_wf d -> read_snapshot d = (Ok s, d') -> snapshot_typed s /\ u32 (sn_capacity s).
Proof.
  intros W R. unfold read_snapshot in R. dbind R as mg d1 K1. dbind R as u1 d1' C1. dbind R as v d2 K2. dbind R as u2 d2' C2. dbind R as nm d3 K3. dbind R as su d4 K4.
  dbind R as ca d5 K5. dbind R as u3 d5' C3. dbind R as re d6 K6. dbind R as ti d7 K7. dbind R as hr d8 K8. dbind R as rb d9 K9. dbind R as ro d9' C4.
  dbind R as co d10 K10. dbind R as u4 d10' C5. dbind R as er d10'' C6. dbind R as dd d11 G. dbind R as u5 d11' C7. dbind R as es d12 K12.
  apply dec_ret_Ok in R as (<- & ->). unfold dec_get in G. injection G as <- <-. took_all. apply read_slice_inv in K9 as (T9 & L9); [|done|done]. took_all.
  apply read_entries_inv in K12 as (new & E & _ & _ & Sm & Fe); [|done|by split; [constructor|]|constructor].
  split; [|done]. constructor; cbn [sn_network_magic sn_subject sn_revision sn_trusted_time_high_water sn_rollback_state sn_observations]; try done.
  destruct ro as [ro|]; [|done]. destruct (b2z hr =? 0); [by apply bind_Ok in C4 as (? & _ & ?)|]. destruct (b2z hr =? 1); [|done].
  apply bind_Ok in C4 as (r & C4 & [= ->]). apply decode_rollback_Ok in C4 as (? & _); [done|]. rewrite L9. done.
Qed.

Lemma validate_root s r : snapshot_validate s = Ok tt -> sn_rollback_state s = Some r -> rb_network_magic r = sn_network_magic s /\ rb_subject r = sn_subject s.
Proof.
  unfold snapshot_validate. intros H E. do 4 (apply bind_Ok in H as (? & _ & H)). rewrite E in H. apply bind_Ok in H as (? & _ & H).
  apply bind_Ok in H as (? & B%assert_or_Ok & _). rewrite negb_orb, !negb_involutive in B. apply andb_prop in B as (M & B). split; [by apply Z.eqb_eq|by apply bool_decide_eq_true in B].
Qed.

Lemma read_snapshot_reads s d :
  snapshot_typed s -> snapshot_validate s = Ok tt -> reads_before d read_snapshot (snapshot_bytes s) [] s.
Proof.
  intros T V. destruct (validate_counts s V) as (C & _ & _ & L). destruct T as [U1 L1 U2 U3 Ro So En]. pose proof (len_nonneg (sn_observations s)) as P.
  unfold MAX_NAMED_SERVICE_AUTHORITY_ENTRIES, MAX_RESOURCES in C. unfold read_snapshot, snapshot_bytes.
  eapply before_bind; [by apply before_reads, reads_err, read_array_reads|]. eapply before_nil_bind; [by apply before_reads, reads_assert, bool_decide_eq_true|].
  eapply before_bind; [by apply before_reads, reads_err, read_u8_reads|]. eapply before_nil_bind; [by apply before_reads, reads_assert|].
  eapply before_bind; [by apply before_reads, reads_err, read_u32_reads|]. eapply before_bind; [by apply before_reads, reads_err, read_array_reads|].
  eapply before_bind; [apply before_reads, reads_err, read_u32_reads; ulia|].
  eapply before_nil_bind; [apply before_reads, reads_assert; by rewrite andb_true_iff, !Z.leb_le|].
  eapply before_bind; [by apply before_reads, reads_err, read_u64_reads|]. eapply before_bind; [by apply before_reads, reads_err, read_u64_reads|].
  eapply before_bind; [by apply before_reads, reads_err, read_u8_reads|].
  eapply before_bind; [apply before_reads, reads_err, read_slice_reads; destruct (sn_rollback_state s); [by apply root_bytes_len|done]|].
  eapply (before_nil_bind _ _ _ _ _ (sn_rollback_state s)).
  { apply before_reads, reads_res. destruct (sn_rollback_state s) as [r|] eqn:Er; cbn; [|done].
    assert (decode_rollback_body (root_bytes r) (sn_network_magic s) (sn_subject s) = Ok r) as ->; [|done]. apply decode_rollback_Ok; [by rewrite root_bytes_len|].
    split; [done|]. destruct (validate_root s r V Er) as (-> & ->). done. }
  eapply before_bind; [apply before_reads, reads_err, read_u32_reads; ulia|]. eapply before_nil_bind; [by apply before_reads, reads_assert, Z.leb_le|].
  eapply (before_nil_bind _ _ _ _ _ (len (sn_observations s) * SERVICE_GENERATION_OBSERVATION_SIZE)).
  { apply before_reads, reads_res. unfold checked_mul. rewrite (proj2 (Z.leb_le _ _)); [done|]. change SERVICE_GENERATION_OBSERVATION_SIZE with 258. ulia. }
  apply before_get. intros Rm. rewrite (entries_bytes_len _ En) in Rm. change (len []) with 0 in Rm.
  eapply before_nil_bind; [apply before_reads, reads_assert; apply Z.eqb_eq; lia|].
  eapply (before_last _ _ _ _ _ (sn_observations s)); [|intros; destruct s; apply before_reads, reads_ret].
  assert (Z.to_nat (len (sn_observations s)) = length (sn_observations s)) as -> by (unfold len; lia). apply (read_entries_reads _ _ _ ([], None)); try done.
  - by split; [constructor|].
  - apply Forall_forall. intros e I. by apply (validate_binds s e).
Qed.

Lemma snapshot_decode_Ok inp s : snapshot_decode inp = Ok s <-> snapshot_typed s /\ snapshot_encode s = Ok inp.
Proof.
  unfold snapshot_decode. split.
  - intros H. apply bind_Ok in H as (? & B%assert_or_Ok & H). apply bind_Ok in H as (? & _ & H). apply bind_Ok in H as (s' & R & H).
    apply bind_Ok in H as (? & _ & H). apply bind_Ok in H as (en & E & H). apply bind_Ok in H as (? & Q%assert_or_Ok%bool_decide_eq_true & [= <-]). subst en.
    split; [|done]. apply run_all_Ok in R as (d & R & _). eapply read_snapshot_inv; [|exact R]. apply wf_new.
    rewrite andb_true_iff, !Z.leb_le in B. change MAX_SNAPSHOT_SIZE with 264402 in B. unfold len in *. rewrite length_take. unfold isize_max. lia.
  - intros (T & E). pose proof E as (V & ->)%snapshot_encode_Ok; [|done]. destruct (validate_counts s V) as (C & _ & _ & L). pose proof (len_nonneg (sn_observations s)) as P.
    set (cs := snapshot_checksum (snapshot_bytes s)) in *. assert (len cs = CHECKSUM_SIZE) as Lc by (unfold cs, snapshot_checksum, as_blake2b_256, len; by rewrite blake2b_length).
    assert (len (snapshot_bytes s) <= MAX_SNAPSHOT_SIZE - CHECKSUM_SIZE /\ SNAPSHOT_HEADER_SIZE <= len (snapshot_bytes s)) as B.
    { rewrite (snapshot_bytes_len s T). change MAX_NAMED_SERVICE_AUTHORITY_ENTRIES with 1024 in C. change SNAPSHOT_HEADER_SIZE with 178. change CHECKSUM_SIZE with 32.
      change SERVICE_GENERATION_OBSERVATION_SIZE with 258. change MAX_SNAPSHOT_SIZE with 264402. lia. }
    rewrite len_app, Lc. unfold MIN_SNAPSHOT_SIZE. rewrite !(proj2 (Z.leb_le _ _)) by lia. cbn [andb assert_or mbind result_bind].
    assert (Z.to_nat (len (snapshot_bytes s) + CHECKSUM_SIZE - CHECKSUM_SIZE) = length (snapshot_bytes s)) as -> by (unfold len; lia).
    rewrite take_app_length, drop_app_length. fold cs. rewrite bool_decide_eq_true_2 by done. cbn [assert_or mbind result_bind].
    rewrite (run_all_before AsDecode read_snapshot _ s); [|change MAX_SNAPSHOT_SIZE with 264402 in B; change CHECKSUM_SIZE with 32 in B; unfold isize_max; lia|by apply read_snapshot_reads].
    cbn [mbind result_bind]. rewrite V. cbn [mbind result_bind]. rewrite E. cbn [mbind result_bind]. by rewrite bool_decide_eq_true_2.
Qed.
End snapshot_codec.

(** ** What a successor may be *)
Definition same_binding (p s : NamedServiceAuthoritySnapshot) : Prop :=
  sn_network_magic s = sn_network_magic p /\ sn_subject s = sn_subject p /\ sn_capacity s = sn_capacity p.

(** Nothing recorded is lost or goes back. *)
Definition carries (p s : NamedServiceAuthoritySnapshot) : Prop :=
  (forall r, sn_rollback_state p = Some r -> exists r', sn_rollback_state s = Some r' /\ actually_rolls_back r r' = false) /\
  (forall rid o, tm_get rid (sn_observations p) = Some o -> exists o', tm_get rid (sn_observations s) = Some o' /\ may_follow o o').

(** The chain reorganized below the root, with accepted evidence of exactly that. *)
Definition reorganizes (p s : NamedServiceAuthoritySnapshot) : Prop :=
  exists r r' evidence, sn_rollback_state p = Some r /\ sn_rollback_state s = Some r' /\ actually_rolls_back r r' = true /\
    AcceptedReorganization_matches evidence r r' = true.

Definition succeeds (p s : NamedServiceAuthoritySnapshot) : Prop :=
  same_binding p s /\ sn_revision s = sn_revision p + 1 /\ sn_trusted_time_high_water p <= sn_trusted_time_high_water s /\
  snapshot_validate s = Ok tt /\ (carries p s \/ reorganizes p s).

Definition created (s : NamedServiceAuthoritySnapshot) : Prop :=
  snapshot_validate s = Ok tt /\ sn_revision s = 0 /\ sn_rollback_state s = None /\ sn_observations s = [].

Lemma rolls_back_false r r' : actually_rolls_back r r' = false <->
  rb_sequence r <= rb_sequence r' /\ (rb_sequence r = rb_sequence r' -> rb_envelope_hash r = rb_envelope_hash r') /\ bytes_le (rb_chain_work r) (rb_chain_work r') = true.
Proof.
  unfold actually_rolls_back. rewrite !orb_false_iff, negb_false_iff, Z.ltb_ge, andb_false_iff, Z.eqb_neq, negb_false_iff, bool_decide_eq_true. split.
  - intros ((F1 & F2) & F3). split; [done|]. split; [|done]. intros ?. destruct F2; [lia|done].
  - intros (F1 & F2 & F3). split; [|done]. split; [done|]. destruct (decide (rb_sequence r' = rb_sequence r)); [right; symmetry; apply F2; lia|by left].
Qed.
Lemma rolls_back_refl r : actually_rolls_back r r = false.
Proof. apply rolls_back_false. split; [lia|]. split; [done|apply bytes_le_refl]. Qed.
Lemma rolls_back_trans a b c : actually_rolls_back a b = false -> actually_rolls_back b c = false -> actually_rolls_back a c = false.
Proof.
  rewrite !rolls_back_false. intros (S1 & E1 & W1) (S2 & E2 & W2). split; [lia|]. split; [|by eapply bytes_le_trans]. intros E. rewrite E1, E2 by lia. done.
Qed.

Lemma carries_refl s : carries s s.
Proof. split; [intros r E; exists r; split; [done|apply rolls_back_refl]|]. intros rid o E. exists o. split; [done|apply may_follow_refl]. Qed.
Lemma successor_carries_same p s : sn_rollback_state s = sn_rollback_state p -> sn_observations s = sn_observations p -> carries p s.
Proof. unfold carries. intros -> ->. apply (carries_refl p). Qed.
Lemma carries_trans a b c : carries a b -> carries b c -> carries a c.
Proof.
  intros (R1 & O1) (R2 & O2). split.
  - intros r E. apply R1 in E as (r1 & E & F1). apply R2 in E as (r2 & E & F2). exists r2. split; [done|by eapply rolls_back_trans].
  - intros rid o E. apply O1 in E as (o1 & E & F1). apply O2 in E as (o2 & E & F2). exists o2. split; [done|by eapply may_follow_trans].
Qed.

Lemma tm_get_member {V} key (v : V) m : tm_get key m = Some v -> (key, v) ∈ m.
Proof.
  induction m as [|[k x] m IH]; cbn [tm_get]; [done|]. rewrite elem_of_cons. case_bool_decide as E; [intros [= ->]; subst; by left|]. intros H. right. by apply IH.
Qed.

(** Every retained observation is at or behind the root. *)
Lemma entry_behind s g rid o : snapshot_validate s = Ok tt -> sn_rollback_state s = Some g -> tm_get rid (sn_observations s) = Some o ->
  actually_rolls_back (go_rollback_state o) g = false /\ go_resource_id o = rid.
Proof.
  unfold snapshot_validate. intros H E I%tm_get_member. do 4 (apply bind_Ok in H as (? & _ & H)). rewrite E in H. do 2 (apply bind_Ok in H as (? & _ & H)).
  rewrite try_each_Ok, Forall_forall in H. apply H in I. unfold validate_entry in I. apply bind_Ok in I as (? & B%assert_or_Ok & R%assert_or_Ok).
  rewrite negb_true_iff, !orb_false_iff, !negb_false_iff, bool_decide_eq_true in B. destruct B as ((_ & _) & B). apply bool_decide_eq_true in B. split; [|done].
  apply rolls_back_false. rewrite negb_true_iff, !orb_false_iff, negb_false_iff, Z.ltb_ge, andb_false_iff, Z.eqb_neq, negb_false_iff, bool_decide_eq_true in R.
  destruct R as ((R1 & R2) & R3). split; [done|]. split; [|done]. intros E2. by destruct R3.
Qed.

Lemma no_root_no_entries s rid : snapshot_validate s = Ok tt -> sn_rollback_state s = None -> tm_get rid (sn_observations s) = None.
Proof.
  unfold snapshot_validate. intros H E. do 4 (apply bind_Ok in H as (? & _ & H)). rewrite E in H. apply assert_or_Ok, Z.eqb_eq in H.
  destruct (sn_observations s); [done|]. rewrite len_cons in H. pose proof (len_nonneg l). lia.
Qed.

Section succession.
Context {CR : Crypto} {SD : ScriptDigests} {KC : K256} {KD : KeyCodec KC} {B64 : Base64} {HA : HrmAdapters}.

Lemma manifest_observed root magic subject now limits previous w m :
  validate_current_manifest root magic subject now limits previous w = Ok m ->
  rollback_allowed previous (magic, subject) (cm_rollback_observation m) (vs_accepted_reorganization (cm_current_snapshot m)) = Ok tt /\
  vs_rollback_state (cm_current_snapshot m) = cm_rollback_observation m.
Proof.
  unfold validate_current_manifest. destruct (elapsed_millis w) as [t1 w1]. destruct (elapsed_millis w1) as [t2 w2]. intros H.
  do 4 (apply bind_Ok in H as (? & _ & H)). apply bind_Ok in H as (c & _ & H). do 2 (apply bind_Ok in H as (? & _ & H)). apply bind_Ok in H as (e & _ & H).
  do 2 (apply bind_Ok in H as (? & _ & H)). apply bind_Ok in H as ([] & R & H). by apply Ok_inj in H as <-.
Qed.

Lemma observed_resource m i p previous o rid :
  observe_named_service m i p previous = Ok o -> service_resource_id i = Ok rid -> go_resource_id (ObservedNamedService_observation o) = rid.
Proof.
  intros (rid' & (_ & _ & E & _) & H)%observe_Ok E'. rewrite E in E'. injection E' as ->. unfold manifest_says in H. cbv zeta in H.
  destruct H as [(_ & ->)|(r & a & _ & _ & [(_ & ->)|(d & c & _ & _ & _ & ->)])]; cbn [ObservedNamedService_observation]; try done;
    unfold withdrawn_observation; by destruct (reorganization_accepted _ _ _), previous.
Qed.

(** Unless the subject is reorganized its root goes forward. *)
Lemma root_forward s m :
  rollback_allowed (previous_roots s) (sn_network_magic s, sn_subject s) (cm_rollback_observation m) (vs_accepted_reorganization (cm_current_snapshot m)) = Ok tt ->
  subject_reorganized s m = false -> forall r, sn_rollback_state s = Some r -> actually_rolls_back r (cm_rollback_observation m) = false.
Proof.
  unfold rollback_allowed, subject_reorganized. intros A F r E. assert (previous_roots s !! (sn_network_magic s, sn_subject s) = Some r) as X.
  { unfold previous_roots. rewrite E. apply lookup_singleton_eq. }
  rewrite X in A. rewrite E in F.
  apply rollback_forward in A as [A|(e & Ev & M)]; [exact A|]. rewrite Ev, M, andb_true_r in F. exact F.
Qed.

Lemma decision_carries s m i p decision observations :
  snapshot_validate s = Ok tt -> subject_reorganized s m = false -> vs_rollback_state (cm_current_snapshot m) = cm_rollback_observation m ->
  (forall r, sn_rollback_state s = Some r -> actually_rolls_back r (cm_rollback_observation m) = false) ->
  observe_decision s m i p = (decision, observations) ->
  forall rid o, tm_get rid (sn_observations s) = Some o -> exists o', tm_get rid observations = Some o' /\ may_follow o o'.
Proof.
  intros V F Er Fw D rid o G. unfold observe_decision in D. rewrite F in D. destruct (_ ≫= _) as [v|e] eqn:Ob.
  - apply bind_Ok in Ob as (rid' & Hr & Ob). pose proof (observed_resource _ _ _ _ _ _ Ob Hr) as Hv. destruct (_ && _); [injection D as <- <-; exists o; split; [done|apply may_follow_refl]|].
    injection D as <- <-. rewrite Hv. destruct (decide (rid = rid')) as [->|N]; [|exists o; split; [by rewrite tm_get_insert_ne|apply may_follow_refl]].
    rewrite G in Ob. exists (ObservedNamedService_observation v). split; [apply tm_get_insert|]. apply (advance_follows i p). exists m, v. split; [done|]. split; [done|].
    unfold reorganization_accepted. apply andb_false_iff. left. rewrite Er. destruct (sn_rollback_state s) as [g|] eqn:Eg; [|by rewrite no_root_no_entries in G].
    destruct (entry_behind s g rid' o V Eg G) as (B & _). exact (rolls_back_trans _ _ _ B (Fw g eq_refl)).
  - injection D as <- <-. exists o. split; [done|apply may_follow_refl].
Qed.

(** A decision on a current manifest makes a lawful successor. *)
Lemma decision_succession s m i p decision observations root magic_now limits w s' :
  snapshot_validate s = Ok tt ->
  validate_current_manifest root (sn_network_magic s) (sn_subject s) magic_now limits (previous_roots s) w = Ok m ->
  observe_decision s m i p = (decision, observations) ->
  sn_rollback_state s' = Some (cm_rollback_observation m) -> sn_observations s' = observations -> carries s s' \/ reorganizes s s'.
Proof.
  intros V (A & Er)%manifest_observed D E1 E2. destruct (subject_reorganized s m) eqn:F.
  - right. unfold subject_reorganized in F. unfold reorganizes. destruct (sn_rollback_state s) as [r|]; [|done]. apply andb_prop in F as (F1 & F2).
    destruct (vs_accepted_reorganization _) as [ev|]; [|done]. by exists r, (cm_rollback_observation m), ev.
  - left. pose proof (root_forward s m A F) as Fw. split; [intros r E; exists (cm_rollback_observation m); split; [done|by apply Fw]|].
    rewrite E2. by apply (decision_carries s m i p decision).
Qed.

Definition settled (st : NamedServiceAuthorityState) : Prop := as_pending st = None.

(** A transition from a settled state: unchanged, or a proposal on its snapshot. *)
Lemma authority_transition_Ok st time root observations st' :
  prepare_transition st time root observations = Ok st' ->
  (st' = st /\ time = sn_trusted_time_high_water (as_snapshot st) /\ root = sn_rollback_state (as_snapshot st) /\ observations = sn_observations (as_snapshot st)) \/
  exists fp, snapshot_fingerprint (as_snapshot st) = Ok fp /\ as_pending st' = Some (ExpectExact (sn_revision (as_snapshot st)) fp) /\
    as_storage_namespace_id st' = as_storage_namespace_id st /\
    as_snapshot st' = with_revision (as_snapshot st) (sn_revision (as_snapshot st) + 1) time root observations /\ snapshot_validate (as_snapshot st') = Ok tt.
Proof.
  unfold prepare_transition. destruct (_ && _) eqn:Q.
  - intros [= <-]. apply andb_prop in Q as (Q & Q3). apply andb_prop in Q as (Q1 & Q2). left. apply bool_decide_eq_true in Q2, Q3. apply Z.eqb_eq in Q1. done.
  - intros H. apply bind_Ok in H as (e & E & H). apply bind_Ok in E as (fp & Fp & [= <-]). apply bind_Ok in H as (rev & R & H). apply bind_Ok in H as ([] & V & [= <-]).
    unfold next_revision in R. apply bind_Ok in R as (n & N & R). apply bind_Ok in R as (? & _ & [= <-]). unfold checked_add in N. destruct (_ <=? _); [|done]. injection N as <-.
    right. exists fp. done.
Qed.
End succession.

Lemma next_revision_Ok r r' : next_revision r = Ok r' <-> r + 1 < u64_max /\ r' = r + 1.
Proof.
  unfold next_revision, checked_add. destruct (Z.leb_spec (r + 1) u64_max) as [L0|L0]; cbn [ok_or mbind result_bind]; [|split; [done|lia]]. split.
  - intros H. apply bind_Ok in H as (? & N%assert_or_Ok%negb_true_iff%Z.eqb_neq & [= <-]). lia.
  - intros (L & ->). apply bind_Ok. exists tt. split; [|done]. apply assert_or_Ok, negb_true_iff, Z.eqb_neq. lia.
Qed.

Lemma validate_revision s r t : snapshot_validate s = Ok tt -> sn_revision s <= r -> r <> u64_max ->
  snapshot_validate (with_revision s r t (sn_rollback_state s) (sn_observations s)) = Ok tt.
Proof.
  intros V Le N. pose proof (validate_counts s V) as (_ & _ & C & _). unfold snapshot_validate in *. cbn [with_revision sn_capacity sn_revision sn_observations sn_rollback_state sn_network_magic sn_subject].
  apply bind_Ok in V as ([] & Vc & V). apply bind_Ok in V as (? & _ & V). apply bind_Ok in V as (? & _ & V). apply bind_Ok in V as ([] & Vk & V). rewrite Vc. cbn [mbind result_bind].
  apply bind_Ok. exists tt. split; [by apply assert_or_Ok, negb_true_iff, Z.eqb_neq|]. apply bind_Ok. exists tt. split; [apply assert_or_Ok, Z.leb_le; lia|].
  apply bind_Ok. exists tt. split; [done|]. destruct (sn_rollback_state s) as [g|]; [|done]. apply bind_Ok in V as (? & Z0%assert_or_Ok%negb_true_iff%Z.eqb_neq & V).
  apply bind_Ok in V as ([] & B & V). apply bind_Ok. exists tt. split; [apply assert_or_Ok, negb_true_iff, Z.eqb_neq; pose proof (len_nonneg (sn_observations s)); lia|].
  apply bind_Ok. exists tt. split; [done|]. rewrite try_each_Ok in *. eapply Forall_impl; [exact V|]. by intros [rid o].
Qed.

(** ** The store

    [durable w] is the aggregate the store holds. The laws are what the callbacks are
    documented to do: checking the lease, loading and retrieving change nothing
    durable; what is loaded is what is held; a persist that succeeds holds the
    proposed snapshot, having found exactly the expected one or the proposed one
    itself; a persist that fails left the store alone or, ambiguously, installed the
    snapshot over the expected one. *)
Definition expected {CR : Crypto} (e : NamedServiceAuthorityExpectation) (held : option NamedServiceAuthoritySnapshot) : Prop :=
  match e with
  | FencedAbsent _ _ => held = None
  | FencedExact _ _ revision fingerprint => exists p, held = Some p /\ sn_revision p = revision /\ snapshot_fingerprint p = Ok fingerprint
  end.

Class AuthorityHostLaws {CR : Crypto} {HA : HrmAdapters} (HS : AuthorityHost HA) := {
  durable : HostWorld -> option NamedServiceAuthoritySnapshot;
  guard_keeps : forall (g : HostGuard) w, durable (guard_ensure_held g w).2 = durable w;
  retrieve_keeps : forall now w, durable (host_retrieve now w).2 = durable w;
  load_keeps : forall lease w, durable (host_load lease w).2 = durable w;
  load_reads : forall lease w loaded w', host_load lease w = (Ok loaded, w') ->
    match loaded with StorageAbsent => durable w = None | StoragePresent encoded _ => exists s, durable w = Some s /\ snapshot_decode encoded = Ok s end;
  persist_swaps : forall e s w u w', host_persist e s w = (Ok u, w') -> durable w' = Some s /\ (durable w = Some s \/ expected e (durable w));
  persist_fails : forall e s w x w', host_persist e s w = (Err x, w') -> durable w' = durable w \/ (durable w' = Some s /\ expected e (durable w));
}.

(** ** Lineages *)
Inductive durable_step : option NamedServiceAuthoritySnapshot -> option NamedServiceAuthoritySnapshot -> Prop :=
| durable_create s : created s -> durable_step None (Some s)
| durable_succeed p s : succeeds p s -> durable_step (Some p) (Some s).

Section lineages.
Context {CR : Crypto}.

(** What a state's pending proposal is to replace. *)
Inductive lineage (st : NamedServiceAuthorityState) : option NamedServiceAuthoritySnapshot -> Prop :=
| lineage_settled : as_pending st = None -> snapshot_validate (as_snapshot st) = Ok tt -> lineage st (Some (as_snapshot st))
| lineage_creating : as_pending st = Some ExpectAbsent -> created (as_snapshot st) -> lineage st None
| lineage_proposing p fp : as_pending st = Some (ExpectExact (sn_revision p) fp) -> snapshot_fingerprint p = Ok fp -> succeeds p (as_snapshot st) -> lineage st (Some p).

(** The fingerprint tells what is held from what is to be replaced. *)
Definition bound (held base : option NamedServiceAuthoritySnapshot) : Prop :=
  forall p b fp, held = Some p -> base = Some b -> sn_revision p = sn_revision b -> snapshot_fingerprint p = Ok fp -> snapshot_fingerprint b = Ok fp -> p = b.

Lemma lineage_valid st base : lineage st base -> snapshot_validate (as_snapshot st) = Ok tt.
Proof. by intros [_ V|_ (V & _)|p fp _ _ (_ & _ & _ & V & _)]. Qed.
Lemma bound_same s : bound (Some s) (Some s).
Proof. by intros p b fp [= <-] [= <-]. Qed.
Lemma bound_proposed st base : lineage st base -> bound (Some (as_snapshot st)) base.
Proof.
  intros [_ _|_ _|p fp _ _ (_ & R & _)]; [apply bound_same|by intros ? ? ? _ ?|]. intros q b fp' [= <-] [= <-] E. lia.
Qed.

(** Swapping the proposal in is a lawful step. *)
Lemma swap_step st base held e :
  lineage st base -> bound held base -> as_pending st = Some e ->
  (forall G (lease : LeaseWitness AuthorityLeaseKey G), expected (expectation_fenced e lease) held -> durable_step held (Some (as_snapshot st))).
Proof.
  intros L B P G lease X. destruct L as [N _|N C|p fp N F S]; rewrite N in P; [done|..]; injection P as <-; cbn in X.
  - subst held. by constructor.
  - destruct X as (q & -> & R & F'). rewrite (B q p fp eq_refl eq_refl R F' F). by constructor.
Qed.
End lineages.

Section sessions.
Context {CR : Crypto} {SD : ScriptDigests} {KC : K256} {KD : KeyCodec KC} {B64 : Base64} {HA : HrmAdapters} {HS : AuthorityHost HA} {HL : AuthorityHostLaws HS}.
Local Notation config := (NamedServiceAuthorityState * HostWorld)%type.

Definition tracked (c : config) : Prop := exists base, lineage c.1 base /\ bound (durable c.2) base.
Definition synced (c : config) : Prop := as_pending c.1 = None -> durable c.2 = Some (as_snapshot c.1).

(** What any operation guarantees, whatever it returns. *)
Definition lawful (c c' : config) : Prop :=
  tracked c -> tracked c' /\ rtc durable_step (durable c.2) (durable c'.2) /\ (synced c -> synced c').
Definition unmoved (c c' : config) : Prop := c'.1 = c.1 /\ durable c'.2 = durable c.2.

Lemma lawful_trans a b c : lawful a b -> lawful b c -> lawful a c.
Proof. intros H1 H2 T. destruct (H1 T) as (T1 & R1 & S1). destruct (H2 T1) as (T2 & R2 & S2). split; [done|]. split; [by etrans|]. intros S. by apply S2, S1. Qed.
Lemma unmoved_lawful c c' : unmoved c c' -> lawful c c'.
Proof. intros (E1 & E2) T. unfold tracked, synced. rewrite E1, E2. split; [done|]. by split. Qed.
Lemma unmoved_refl c : unmoved c c.
Proof. done. Qed.
Lemma unmoved_trans a b c : unmoved a b -> unmoved b c -> unmoved a c.
Proof. intros (E1 & E2) (E3 & E4). split; congruence. Qed.

(** Both relations pass through a bind. *)
Lemma lawful_bind {E A B} (m : authM E A) (f : A -> authM E B) c r c' :
  (m ≫= f) c = (r, c') -> (forall r1 c1, m c = (r1, c1) -> lawful c c1) -> (forall a c1, m c = (Ok a, c1) -> f a c1 = (r, c') -> lawful c1 c') -> lawful c c'.
Proof. intros [(a & c1 & M & H)|(e & M & _)]%eff_bind_run Hm Hf; [|by eapply Hm]. eapply lawful_trans; [by eapply Hm|by eapply Hf]. Qed.
Lemma unmoved_bind {E A B} (m : authM E A) (f : A -> authM E B) c r c' :
  (m ≫= f) c = (r, c') -> (forall r1 c1, m c = (r1, c1) -> unmoved c c1) -> (forall a c1, m c = (Ok a, c1) -> f a c1 = (r, c') -> unmoved c1 c') -> unmoved c c'.
Proof. intros [(a & c1 & M & H)|(e & M & _)]%eff_bind_run Hm Hf; [|by eapply Hm]. eapply unmoved_trans; [by eapply Hm|by eapply Hf]. Qed.

Lemma on_world_unmoved {E A} (f : HostWorld -> result E A * HostWorld) c r c' :
  on_world f c = (r, c') -> (forall w, durable (f w).2 = durable w) -> unmoved c c'.
Proof. destruct c as [st w]. unfold on_world. intros H K. specialize (K w). destruct (f w). injection H as <- <-. by split. Qed.

Lemma ensure_held_unmoved lease c r c' : ensure_held lease c = (r, c') -> unmoved c c'.
Proof.
  intros (r0 & H & _)%eff_err_run. apply on_world_unmoved in H; [done|]. intros w. unfold LeaseWitness_ensure_held, mbind, effM_bind.
  pose proof (guard_keeps (lw_guard lease) w) as K. destruct (guard_ensure_held (lw_guard lease) w) as [[[]|] w1]; [|done]. cbn. by repeat case_match; simplify_eq/=.
Qed.

Lemma validate_lease_unmoved lease c r c' : validate_lease lease c = (r, c') -> unmoved c c'.
Proof.
  intros H. eapply unmoved_bind; [exact H|by intros ? ? ?%ensure_held_unmoved|]. intros [] [st w] _ K. unfold get_state, eff_lift, mbind, effM_bind in K. by injection K as <- <-.
Qed.

(** Retrying the proposal: the snapshot stays, and success settles it. *)
Lemma persist_lawful lease c r c' :
  persist_pending lease c = (r, c') -> lawful c c' /\ as_snapshot c'.1 = as_snapshot c.1 /\ (is_ok r = true -> settled c'.1).
Proof.
  intros [([] & c1 & M & H)|(e & M & ->)]%eff_bind_run; apply eff_err_run in M as (r0 & M & _); apply validate_lease_unmoved in M as U; pose proof (unmoved_lawful _ _ U) as L;
    [|split; [done|]; by destruct U as (-> & _)].
  destruct U as (E1 & _). rewrite <- E1. clear M E1. assert (lawful c1 c' /\ as_snapshot c'.1 = as_snapshot c1.1 /\ (is_ok r = true -> settled c'.1)) as (L2 & ? & ?); [|split; [by eapply lawful_trans|done]].
  clear L c. destruct c1 as [st w]. unfold mbind at 1, effM_bind at 1, get_state at 1 in H. destruct (as_pending st) as [e|] eqn:P; [|by injection H as <- <-; split; [apply unmoved_lawful|]].
  apply eff_bind_run in H as [([] & c1 & M & H)|(x & M & ->)]; apply eff_err_run in M as (r2 & M & Er); unfold on_world in M; destruct (host_persist _ _ w) as [rp w1] eqn:Hp; injection M as <- <-.
  - destruct rp as [[]|]; [|done]. clear Er. apply persist_swaps in Hp as (D & X).
    assert (forall st', as_snapshot st' = as_snapshot st -> (as_pending st' = None \/ st' = st) -> forall w', durable w' = Some (as_snapshot st) -> lawful (st, w) (st', w')) as Step.
    { intros st' Es Pn w' Dw (base & Ln & B). cbn [fst snd] in *. unfold tracked, synced. cbn [fst snd]. rewrite Dw, Es. split; [|split; [|done]].
      - destruct Pn as [Pn| ->]; [exists (Some (as_snapshot st)); rewrite <- Es; split; [apply lineage_settled; [done|rewrite Es; by eapply lineage_valid]|apply bound_same]|].
        exists base. split; [done|by apply bound_proposed].
      - destruct X as [-> |X]; [constructor|]. apply rtc_once. by eapply swap_step. }
    apply eff_bind_run in H as [([] & c2 & M & H)|(y & M & ->)]; apply eff_err_run in M as (r1 & M & _); apply ensure_held_unmoved in M as (E1 & E2); cbn [fst snd] in *.
    + destruct c2 as [st2 w2]. injection H as <- <-. cbn [fst snd] in *. split; [apply Step; [done|by left|congruence]|done].
    + destruct c' as [st2 w2]. cbn [fst snd] in *. subst st2. split; [apply Step; [done|by right|congruence]|done].
  - destruct rp as [|y]; [done|]. split; [|done]. intros (base & Ln & B). cbn [fst snd] in *. unfold tracked, synced. cbn [fst snd]. rewrite P.
    apply persist_fails in Hp as [-> |(-> & X)]; [split; [by exists base|by split]|]. split; [exists base; split; [done|by apply bound_proposed]|]. split; [|done].
    apply rtc_once. by eapply swap_step.
Qed.

(** A transition from a settled state that makes a lawful successor. *)
Lemma transition_lawful time root observations c r c' :
  transition time root observations c = (r, c') -> settled c.1 -> sn_trusted_time_high_water (as_snapshot c.1) <= time ->
  (forall s', sn_rollback_state s' = root -> sn_observations s' = observations -> carries (as_snapshot c.1) s' \/ reorganizes (as_snapshot c.1) s') ->
  lawful c c' /\ c'.2 = c.2 /\ (is_ok r = true -> sn_trusted_time_high_water (as_snapshot c'.1) = time /\ sn_observations (as_snapshot c'.1) = observations).
Proof.
  destruct c as [st w]. unfold transition, get_state, set_state, eff_lift, mbind, effM_bind. intros H N Ti Su. cbn [fst snd] in *.
  destruct (prepare_transition _ _ _ _) as [st1|e] eqn:T; injection H as <- <-; [|split; [by apply unmoved_lawful|done]].
  apply authority_transition_Ok in T as [(-> & -> & -> & ->)|(fp & F & P & _ & Es & V)]; [split; [by apply unmoved_lawful|done]|].
  split; [|cbn; by rewrite Es]. intros (base & Ln & B). cbn [fst snd] in *. unfold tracked, synced. cbn [fst snd]. rewrite P. split; [|by split].
  exists (Some (as_snapshot st)). split.
  - apply (lineage_proposing _ _ fp); [done|done|]. assert (succeeds (as_snapshot st) (as_snapshot st1)); [|done]. rewrite Es in *.
    split; [done|]. split; [done|]. split; [done|]. split; [done|]. by apply Su.
  - destruct Ln as [_ _|X _|? ? X _ _]; [done|by rewrite N in X|by rewrite N in X].
Qed.

Lemma advance_lawful lease now c r c' :
  advance_trusted_time_persisted lease now c = (r, c') ->
  lawful c c' /\ (is_ok r = true -> settled c'.1 /\ sn_trusted_time_high_water (as_snapshot c'.1) = now).
Proof.
  intros [([] & c1 & M & H)|(e & M & ->)]%eff_bind_run; apply persist_lawful in M as (L1 & _ & S1); [|done]. specialize (S1 eq_refl).
  destruct c1 as [st w]. unfold mbind at 1, effM_bind at 1, get_state at 1 in H.
  apply eff_bind_run in H as [([] & c2 & (A%assert_or_Ok%Z.leb_le & ->)%eff_lift_Ok & H)|(e & [= _ <-] & ->)]; [|done].
  apply eff_bind_run in H as [([] & c2 & M & H)|(e & M & ->)]; apply eff_err_run in M as (r2 & M & Er);
    (apply transition_lawful in M as (L2 & _ & F2); [|done|done|intros; left; by apply successor_carries_same]);
    pose proof (lawful_trans _ _ _ L1 L2) as L; [|done].
  destruct r2 as [[]|]; [|done]. destruct (F2 eq_refl) as (T2 & _).
  apply eff_bind_run in H as [([] & c3 & M & H)|(e & M & ->)]; apply persist_lawful in M as (L3 & E3 & S3); pose proof (lawful_trans _ _ _ L L3) as L'; [|done].
  destruct c3 as [st3 w3]. injection H as <- <-. split; [done|]. intros _. split; [by apply S3|]. cbn [fst] in *. congruence.
Qed.

Lemma prepare_lawful root identity policy now limits c r c' :
  prepare_validate_and_observe root identity policy now limits c = (r, c') ->
  lawful c c' /\ forall o, r = Ok o -> sn_trusted_time_high_water (as_snapshot c'.1) = now /\
    tm_get (go_resource_id (ObservedNamedService_observation o)) (sn_observations (as_snapshot c'.1)) = Some (ObservedNamedService_observation o).
Proof.
  destruct c as [st w]. unfold prepare_validate_and_observe. unfold mbind at 1, effM_bind at 1, get_state at 1. intros H. cbv zeta in H.
  apply eff_bind_run in H as [([] & c1 & (A1%assert_or_Ok & ->)%eff_lift_Ok & H)|(e & [= _ <-] & ->)]; [|by split; [apply unmoved_lawful|]].
  apply eff_bind_run in H as [([] & c1 & (_ & ->)%eff_lift_Ok & H)|(e & [= _ <-] & ->)]; [|by split; [apply unmoved_lawful|]].
  apply eff_bind_run in H as [([] & c1 & (A2%assert_or_Ok%Z.eqb_eq & ->)%eff_lift_Ok & H)|(e & [= _ <-] & ->)]; [|by split; [apply unmoved_lawful|]].
  assert (settled st) as N by (unfold settled; by destruct (as_pending st)). unfold mbind at 1, effM_bind at 1, get_world at 1 in H.
  destruct (validate_current_manifest _ _ _ _ _ _ _) as [m|e] eqn:V.
  - destruct (observe_decision (as_snapshot st) m identity policy) as [decision observations] eqn:D.
    assert (forall r1 c1, transition now (Some (cm_rollback_observation m)) observations (st, w) = (r1, c1) -> lawful (st, w) c1 /\
      (is_ok r1 = true -> sn_trusted_time_high_water (as_snapshot c1.1) = now /\ sn_observations (as_snapshot c1.1) = observations)) as T.
    { intros r1 c1 M. split; [intros (base & Ln & B); pose proof (lineage_valid _ _ Ln) as Va|unfold lawful in *];
        [apply transition_lawful in M as (L & _); [apply L; by exists base|done|cbn; lia|intros; by eapply decision_succession]|].
      intros Ok1. destruct r1 as [[]|]; [|done]. unfold transition, get_state, set_state, eff_lift, mbind, effM_bind in M.
      destruct (prepare_transition _ _ _ _) as [st1|] eqn:P; [|done]. injection M as <-. cbn [fst].
      apply authority_transition_Ok in P as [(-> & -> & _ & ->)|(fp & _ & _ & _ & -> & _)]; done. }
    apply eff_bind_run in H as [([] & c1 & M & [= -> ->])|(e & M & ->)]; apply T in M as (L & F); (split; [done|]); [|done]. intros o ->.
    destruct (F eq_refl) as (F1 & F2). split; [done|]. rewrite F2. unfold observe_decision in D.
    destruct (_ ≫= _); [|done]. destruct (_ && _); [done|]. injection D as -> <-. apply tm_get_insert.
  - apply eff_bind_run in H as [([] & c1 & M & [= <- <-])|(x & M & ->)]; (apply transition_lawful in M as (L & _); [by split|done|cbn; lia|intros; left; by apply successor_carries_same]).
Qed.

(** Reconciling keeps the proposal, or finds it installed. *)
Lemma pending_keeps st loaded held pending :
  pending_after st loaded = Ok pending ->
  match loaded with StorageAbsent => held = None | StoragePresent en _ => exists s, held = Some s /\ snapshot_decode en = Ok s end ->
  (pending = None /\ held = Some (as_snapshot st)) \/ (pending = as_pending st /\ as_pending st <> None).
Proof.
  unfold pending_after. destruct loaded as [|en mr]; intros H R.
  - right. destruct (as_pending st) as [[|]|]; try done. by injection H as <-.
  - destruct R as (s & -> & D). apply bind_Ok in H as (s' & D' & H). rewrite D in D'. injection D' as <-. do 2 (apply bind_Ok in H as (? & _ & H)).
    case_bool_decide as E; [injection H as <-; left; by rewrite E|]. right. destruct (as_pending st) as [[|rev fp]|]; try done.
    apply bind_Ok in H as ([] & _ & H); [|done]. by injection H as <-.
Qed.

(** A released result is the current one of a settled state. *)
Definition released (c : config) (k : CommittedNamedService) (now : Z) : Prop :=
  let o := CommittedNamedService_observation k in
  settled c.1 /\ cs_authority_revision k = sn_revision (as_snapshot c.1) /\ sn_trusted_time_high_water (as_snapshot c.1) = now /\
  tm_get (go_resource_id o) (sn_observations (as_snapshot c.1)) = Some o.

Lemma observe_lawful lease root identity policy now limits c r c' :
  validate_and_observe_resolved lease root identity policy now limits c = (r, c') ->
  lawful c c' /\ forall k, r = Ok k -> released c' k now.
Proof.
  intros [([] & c1 & M & H)|(e & M & ->)]%eff_bind_run; apply eff_err_run in M as (r0 & M & _); apply validate_lease_unmoved, unmoved_lawful in M as L1; [|done].
  destruct c1 as [st w]. unfold mbind at 1, effM_bind at 1, get_state at 1 in H.
  apply eff_bind_run in H as [([] & c2 & (_ & ->)%eff_lift_Ok & H)|(e & [= _ <-] & ->)]; [|done].
  apply eff_bind_run in H as [([] & c2 & (_ & ->)%eff_lift_Ok & H)|(e & [= _ <-] & ->)]; [|done].
  apply eff_bind_run in H as [(prepared & c2 & Pr & H)|(e & Pr & ->)]; destruct (prepare_validate_and_observe _ _ _ _ _ _) as [r2 c2'] eqn:P; [|done]. injection Pr as -> ->.
  apply prepare_lawful in P as (L2 & F2). pose proof (lawful_trans _ _ _ L1 L2) as L.
  apply eff_bind_run in H as [([] & c3 & M2 & H)|(e & M2 & ->)]; apply persist_lawful in M2 as (L3 & E3 & S3); pose proof (lawful_trans _ _ _ L L3) as L'; [|done].
  destruct c3 as [st3 w3]. unfold mbind at 1, effM_bind at 1, get_state at 1, eff_lift at 1 in H. injection H as <- <-. split; [done|]. intros k K. apply bind_Ok in K as (o & ->%map_err_Ok & [= <-]).
  destruct (F2 o eq_refl) as (F3 & F4). unfold released, CommittedNamedService_observation. cbn [cs_observed cs_authority_revision fst] in *. rewrite <- E3 in F3, F4. by split; [apply S3|].
Qed.

Lemma retrieve_lawful lease now identity policy limits c r c' :
  retrieve_validate_and_observe lease now identity policy limits c = (r, c') ->
  lawful c c' /\ forall k, r = Ok k -> released c' k now.
Proof.
  intros [(rev & c1 & M & H)|(e & M & ->)]%eff_bind_run; apply eff_err_run in M as (r0 & M & _); apply advance_lawful in M as (L1 & _); [|done].
  apply eff_bind_run in H as [(retrieved & c2 & R & H)|(e & R & ->)]; destruct (on_world _ c1) as [r2 c2'] eqn:O; [|done]. injection R as -> ->.
  apply on_world_unmoved, unmoved_lawful in O; [|intros; apply retrieve_keeps]. pose proof (lawful_trans _ _ _ L1 O) as L2.
  apply eff_bind_run in H as [([] & c3 & M2 & H)|(e & M2 & ->)]; apply eff_err_run in M2 as (r3 & M2 & _); apply validate_lease_unmoved, unmoved_lawful in M2;
    pose proof (lawful_trans _ _ _ L2 M2) as L3; [|done].
  apply eff_bind_run in H as [(root & c4 & (_ & ->)%eff_lift_Ok & H)|(e & [= _ <-] & ->)]; [|done].
  apply eff_err_run in H as (r4 & H & ->). apply observe_lawful in H as (L4 & F). split; [by eapply lawful_trans|]. intros k K%map_err_Ok. by apply F.
Qed.

(** Reopening under a lease compares the state with the store. *)
Lemma reconfirm_lawful lease c r c' :
  reconfirm lease c = (r, c') -> lawful c c' /\ as_snapshot c'.1 = as_snapshot c.1 /\ durable c'.2 = durable c.2 /\
  (is_ok r = true -> synced c' /\ as_storage_namespace_id c'.1 = Some (lk_storage_namespace_id (lw_key lease))).
Proof.
  intros [([] & c1 & M & H)|(e & M & ->)]%eff_bind_run; apply eff_err_run in M as (r0 & M & _); apply validate_lease_unmoved in M as U1;
    [|split; [by apply unmoved_lawful|]; destruct U1 as (-> & ->); done].
  apply eff_bind_run in H as [(loaded & c2 & M2 & H)|(e & M2 & ->)]; apply eff_err_run in M2 as (r2 & M2 & Er); pose proof (on_world_unmoved _ _ _ _ M2 (load_keeps _)) as U2;
    pose proof (unmoved_trans _ _ _ U1 U2) as U; [|split; [by apply unmoved_lawful|]; destruct U as (-> & ->); done].
  symmetry in Er. apply map_err_Ok in Er as ->. assert (match loaded with StorageAbsent => durable c2.2 = None | StoragePresent en _ => exists s, durable c2.2 = Some s /\ snapshot_decode en = Ok s end) as Rd.
  { destruct U2 as (_ & ->). unfold on_world in M2. destruct c1 as [st1 w1]. destruct (host_load lease w1) as [x y] eqn:Lo. injection M2 as -> _. by apply load_reads in Lo. }
  apply eff_bind_run in H as [([] & c3 & M3 & H)|(e & M3 & ->)]; apply eff_err_run in M3 as (r3 & M3 & _); apply ensure_held_unmoved in M3 as U3;
    pose proof (unmoved_trans _ _ _ U U3) as U'; [|split; [by apply unmoved_lawful|]; destruct U' as (-> & ->); done].
  rewrite <- (proj2 U3) in Rd. apply eff_err_run in H as (r4 & H & ->). clear r0 r3 M M2 M3 U U1 U2 U3.
  destruct c3 as [st3 w3]. unfold reconcile_loaded in H. unfold mbind at 1, effM_bind at 1, get_state at 1 in H. destruct U' as (E1 & E2). cbn [fst snd] in *.
  rewrite <- E1, <- E2. apply eff_bind_run in H as [(pending & c4 & (P & ->)%eff_lift_Ok & H)|(e & [= _ <-] & ->)]; [|split; [by apply unmoved_lawful|done]].
  apply eff_bind_run in H as [([] & c4 & M & H)|(e & M & ->)]; apply ensure_held_unmoved in M as (U1 & U2); cbn [fst snd] in *; [|split; [apply unmoved_lawful; split; congruence|]; rewrite U1, U2; done].
  destruct c4 as [st4 w4]. injection H as <- <-. cbn [fst snd as_snapshot as_pending as_storage_namespace_id] in *.
  destruct (pending_keeps _ _ _ _ P Rd) as [(-> & D)|(-> & N)].
  - split; [|split; [done|]; split; [done|]; intros _; split; [intros _; cbn; congruence|done]].
    intros (base & Ln & B). unfold tracked, synced. rewrite <- E1, <- E2 in *. cbn [fst snd as_snapshot as_pending]. rewrite U2, D. split; [|by split].
    exists (Some (as_snapshot st3)). split; [apply (lineage_settled (mkAuthorityState _ None _)); [done|exact (lineage_valid _ _ Ln)]|apply bound_same].
  - split; [|split; [done|]; split; [done|]; intros _; split; [intros X; by destruct N|done]].
    intros (base & Ln & B). unfold tracked, synced. rewrite <- E1, <- E2 in *. cbn [fst snd as_snapshot as_pending]. rewrite U2. split; [|split; [done|by intros _ ?]].
    exists base. split; [|done]. destruct Ln as [Z _|Z C|p fp Z F S]; [by destruct N|by apply lineage_creating|by apply (lineage_proposing _ p fp)].
Qed.

(** One operation of an open authority under a lease, with any outcome. *)
Inductive authority_step (lease : AuthorityLease) : config -> config -> Prop :=
| step_reconfirm c r c' : reconfirm lease c = (r, c') -> authority_step lease c c'
| step_persist c r c' : persist_pending lease c = (r, c') -> authority_step lease c c'
| step_advance now c r c' : advance_trusted_time_persisted lease now c = (r, c') -> authority_step lease c c'
| step_resolved root identity policy now limits c r c' :
    validate_and_observe_resolved lease root identity policy now limits c = (r, c') -> authority_step lease c c'
| step_retrieve identity policy now limits c r c' :
    retrieve_validate_and_observe lease now identity policy limits c = (r, c') -> authority_step lease c c'.

(** A fresh authority, or one restored from what the store holds. *)
Inductive opens : config -> Prop :=
| opens_new network_magic subject capacity now st w : NamedServiceAuthorityState_new network_magic subject capacity now = Ok st -> opens (st, w)
| opens_restored encoded s network_magic subject capacity minimum now st w :
    durable w = Some s -> snapshot_decode encoded = Ok s ->
    NamedServiceAuthorityState_restore encoded network_magic subject capacity minimum now = Ok st -> opens (st, w).

Lemma step_lawful lease c c' : authority_step lease c c' -> lawful c c'.
Proof.
  intros [? ? ? H|? ? ? H|? ? ? ? H|? ? ? ? ? ? ? ? H|? ? ? ? ? ? ? H]; by first [apply reconfirm_lawful in H|apply persist_lawful in H|apply advance_lawful in H|apply observe_lawful in H|apply retrieve_lawful in H]; destruct H.
Qed.
Lemma steps_lawful lease c c' : rtc (authority_step lease) c c' -> lawful c c'.
Proof. induction 1 as [c|c c1 c' H _ IH]; [by apply unmoved_lawful|]. eapply lawful_trans; [by eapply step_lawful|done]. Qed.

Lemma restore_Ok encoded network_magic subject capacity minimum now st :
  NamedServiceAuthorityState_restore encoded network_magic subject capacity minimum now = Ok st <->
  exists s, snapshot_decode encoded = Ok s /\ sn_network_magic s = network_magic /\ sn_subject s = subject /\ sn_capacity s = capacity /\
    minimum <= sn_revision s /\ sn_trusted_time_high_water s <= now /\
    if now =? sn_trusted_time_high_water s then st = mkAuthorityState s None None
    else exists fp, snapshot_fingerprint s = Ok fp /\ sn_revision s + 1 < u64_max /\
      st = mkAuthorityState (with_revision s (sn_revision s + 1) now (sn_rollback_state s) (sn_observations s)) (Some (ExpectExact (sn_revision s) fp)) None.
Proof.
  unfold NamedServiceAuthorityState_restore. split.
  - intros H. apply bind_Ok in H as (s & D & H). apply bind_Ok in H as (? & B%assert_or_Ok & H). apply bind_Ok in H as (? & R%assert_or_Ok%Z.leb_le & H).
    apply bind_Ok in H as (? & T%assert_or_Ok%Z.leb_le & H). rewrite !andb_true_iff, !Z.eqb_eq, bool_decide_eq_true in B. destruct B as ((B1 & B2) & B3).
    exists s. do 6 (split; [done|]). destruct (Z.eqb_spec now (sn_trusted_time_high_water s)) as [E|N].
    + rewrite (proj2 (Z.ltb_ge _ _)) in H by lia. by injection H as <-.
    + rewrite (proj2 (Z.ltb_lt _ _)) in H by lia. apply bind_Ok in H as (e & E & H). apply bind_Ok in E as (fp & Fp & [= <-]).
      apply bind_Ok in H as (rev & (Lr & ->)%next_revision_Ok & H). apply bind_Ok in H as (? & _ & [= <-]). by exists fp.
  - intros (s & D & <- & <- & <- & R & T & H). apply bind_Ok. exists s. split; [done|]. apply bind_Ok. exists tt.
    split; [apply assert_or_Ok; rewrite !Z.eqb_refl; cbn; by rewrite bool_decide_eq_true_2|]. apply bind_Ok. exists tt. split; [by apply assert_or_Ok, Z.leb_le|].
    apply bind_Ok. exists tt. split; [by apply assert_or_Ok, Z.leb_le|]. destruct (Z.eqb_spec now (sn_trusted_time_high_water s)) as [E|N].
    + rewrite (proj2 (Z.ltb_ge _ _)) by lia. by rewrite H.
    + destruct H as (fp & Fp & Lr & ->). rewrite (proj2 (Z.ltb_lt _ _)) by lia. unfold exact_expectation. rewrite Fp. cbn [mbind result_bind].
      apply bind_Ok. exists (sn_revision s + 1). split; [by apply next_revision_Ok|]. apply bind_Ok. exists tt. split; [|done].
      apply snapshot_decode_Ok in D as (Ty & (V & _)%snapshot_encode_Ok); [|done]. apply validate_revision; [done|lia|lia].
Qed.

Lemma opens_tracked c : opens c -> tracked c.
Proof.
  intros [magic subject capacity now st w H|encoded s magic subject capacity mr now st w Du D H].
  - exists None. apply bind_Ok in H as ([] & V & [= <-]). split; [|by intros ? ? ? _ ?]. apply lineage_creating; [done|]. split; [|done].
    unfold snapshot_validate. cbn [fst as_snapshot sn_capacity sn_revision sn_observations sn_rollback_state]. rewrite V. cbn [mbind result_bind].
    change (len []) with 0. apply bind_Ok. exists tt. split; [done|]. apply bind_Ok. exists tt. split; [done|]. apply bind_Ok. exists tt. split; [|done].
    apply assert_or_Ok in V. rewrite andb_true_iff, Z.leb_le in V. apply assert_or_Ok, Z.leb_le. lia.
  - apply restore_Ok in H as (s' & D' & _ & _ & _ & _ & T & H). rewrite D in D'. injection D' as <-. apply snapshot_decode_Ok in D as (Ty & (V & _)%snapshot_encode_Ok); [|done].
    exists (Some s). cbn [fst snd]. rewrite Du. split; [|apply bound_same]. destruct (now =? _) eqn:E; [subst st; by apply (lineage_settled (mkAuthorityState s None None))|].
    destruct H as (fp & Fp & Lr & ->). apply (lineage_proposing _ s fp); [done|done|]. split; [done|]. split; [done|]. split; [done|].
    split; [apply validate_revision; [done|lia|lia]|]. left. by apply successor_carries_same.
Qed.

(** A lineage of stored aggregates, summed up: nothing goes back, and nothing recorded
    is lost unless a step of it was an accepted reorganization. *)
Definition preserved (p s : NamedServiceAuthoritySnapshot) : Prop :=
  same_binding p s /\ sn_revision p <= sn_revision s /\ sn_trusted_time_high_water p <= sn_trusted_time_high_water s /\
  (sn_revision p = sn_revision s -> p = s) /\
  (carries p s \/ exists a b, rtc durable_step (Some p) (Some a) /\ succeeds a b /\ reorganizes a b /\ rtc durable_step (Some b) (Some s)).

Lemma stored_stays p d : rtc durable_step (Some p) d -> d <> None.
Proof. intros R ->. apply rtc_inv_r in R as [|(d & _ & St)]; [done|inversion St]. Qed.

Lemma steps_preserved p d s : rtc durable_step (Some p) d -> d = Some s -> preserved p s.
Proof.
  intros H. revert s. pattern d. revert d H. apply rtc_ind_r; [|intros d d' H St IH]; intros s E.
  - injection E as <-. split; [done|]. split; [lia|]. split; [lia|]. split; [done|]. left. apply carries_refl.
  - subst d'. inversion St as [? C E1|a ? Sc E1]; subst; [by apply stored_stays in H|].
    destruct (IH a eq_refl) as ((B1 & B2 & B3) & R & T & _ & C). pose proof Sc as ((D1 & D2 & D3) & Rv & Ti & V & Cs).
    split; [split_and!; congruence|]. split; [lia|]. split; [lia|]. split; [lia|]. destruct C as [C|(x & y & X1 & X2 & X3 & X4)].
    + destruct Cs as [Cs|Cs]; [left; by eapply carries_trans|]. right. exists a, s. by split_and!.
    + right. exists x, y. split_and!; try done. eapply rtc_r; [exact X4|]. by constructor.
Qed.

(** C6. The store's history under one authority: from any opening, through any sequence of
    operations with any outcomes, every change of the stored aggregate is the creation
    of an empty one or a successor at the next revision; its binding never changes, its
    revision and trusted time never go back; and no recorded root or observation is
    lost or goes back unless one of the steps is a reorganization with accepted
    evidence of exactly that step. *)
Theorem authority_history lease c c' :
  opens c -> rtc (authority_step lease) c c' ->
  rtc durable_step (durable c.2) (durable c'.2) /\
  (forall p, durable c.2 = Some p -> exists s, durable c'.2 = Some s /\ preserved p s) /\
  snapshot_validate (as_snapshot c'.1) = Ok tt.
Proof.
  intros O H. destruct (steps_lawful _ _ _ H (opens_tracked _ O)) as ((base & Ln & _) & R & _). split; [done|]. split; [|by eapply lineage_valid].
  intros p E. rewrite E in R. destruct (durable c'.2) as [s|] eqn:D.
  - exists s. split; [done|]. by eapply steps_preserved.
  - by apply stored_stays in R.
Qed.

(** C7. Released results are durable: once an authority has been reconfirmed under its
    lease, a result released by any later operation is in the aggregate that the store
    then holds, at the result's revision and at the operation's trusted time, nothing
    is pending, and the result can be bound as the current one at once. *)
Theorem authority_released_durable lease c c1 c2 c3 u :
  opens c -> rtc (authority_step lease) c c1 -> reconfirm lease c1 = (Ok u, c2) -> rtc (authority_step lease) c2 c3 ->
  forall now identity policy limits k c',
  (retrieve_validate_and_observe lease now identity policy limits c3 = (Ok k, c') \/
   exists root, validate_and_observe_resolved lease root identity policy now limits c3 = (Ok k, c')) ->
  exists s, durable c'.2 = Some s /\ as_snapshot c'.1 = s /\ as_pending c'.1 = None /\ snapshot_validate s = Ok tt /\
    sn_revision s = cs_authority_revision k /\ sn_trusted_time_high_water s = now /\
    tm_get (go_resource_id (CommittedNamedService_observation k)) (sn_observations s) = Some (CommittedNamedService_observation k) /\
    bind_current_revision c'.1 k = Ok tt.
Proof.
  intros O H1 Rc H2 now identity policy limits k c' K. destruct (steps_lawful _ _ _ H1 (opens_tracked _ O)) as (T1 & _ & _).
  apply reconfirm_lawful in Rc as (L & _ & _ & F). destruct (F eq_refl) as (S2 & _). destruct (L T1) as (T2 & _ & _). destruct (steps_lawful _ _ _ H2 T2) as (T3 & _ & S3).
  assert (lawful c3 c' /\ released c' k now) as (L4 & P & R & T & G).
  { destruct K as [K|(root & K)]; [apply retrieve_lawful in K as (? & K)|apply observe_lawful in K as (? & K)]; split; try done; by apply K. }
  destruct (L4 T3) as ((base & Ln & _) & _ & S4). pose proof (lineage_valid _ _ Ln) as V. exists (as_snapshot c'.1). split; [by apply S4, P; apply S3|].
  do 6 (split; [done|]). unfold bind_current_revision. rewrite P. cbn [assert_or mbind result_bind]. rewrite R, Z.eqb_refl. cbn [assert_or mbind result_bind].
  destruct (validate_binds _ _ V (tm_get_member _ _ _ G)) as (E1 & E2). cbn [snd] in E1, E2. rewrite E1, E2, Z.eqb_refl, G. by rewrite !bool_decide_eq_true_2.
Qed.

(** Reopening: the bytes that restore are exactly the encodings of well-formed
    snapshots; a state restores exactly from bytes of its own binding, at or above the
    revision floor and not before its trusted time, to that snapshot itself, or at a
    later time to the proposal that records that time on top of it. *)
Theorem authority_reopen_exact :
  (forall encoded s, snapshot_decode encoded = Ok s <-> snapshot_typed s /\ snapshot_encode s = Ok encoded) /\
  (forall encoded network_magic subject capacity minimum now st,
    NamedServiceAuthorityState_restore encoded network_magic subject capacity minimum now = Ok st <->
    exists s, snapshot_decode encoded = Ok s /\ sn_network_magic s = network_magic /\ sn_subject s = subject /\ sn_capacity s = capacity /\
      minimum <= sn_revision s /\ sn_trusted_time_high_water s <= now /\
      if now =? sn_trusted_time_high_water s then st = mkAuthorityState s None None
      else exists fp, snapshot_fingerprint s = Ok fp /\ sn_revision s + 1 < u64_max /\
        st = mkAuthorityState (with_revision s (sn_revision s + 1) now (sn_rollback_state s) (sn_observations s)) (Some (ExpectExact (sn_revision s) fp)) None).
Proof. split; [exact snapshot_decode_Ok|exact restore_Ok]. Qed.
End sessions.

(** ** A store in memory *)
Definition toy_swap (e : NamedServiceAuthorityExpectation) (s : NamedServiceAuthoritySnapshot) (held : option NamedServiceAuthoritySnapshot) : bool :=
  match e, held with
  | FencedAbsent _ _, None => true
  | FencedExact _ _ revision fingerprint, Some p =>
    (sn_revision p =? revision) && match @snapshot_fingerprint toy_crypto p with Ok f => bool_decide (f = fingerprint) | Err _ => false end
  | _, _ => false
  end || bool_decide (held = Some s).
Definition toy_load (held : option NamedServiceAuthoritySnapshot) : result unit NamedServiceAuthorityStorageState :=
  match held with
  | None => Ok StorageAbsent
  | Some s => match @snapshot_encode toy_crypto s with
              | Ok e => match @snapshot_decode toy_crypto e with
                        | Ok s' => if bool_decide (s' = s) then Ok (StoragePresent e 0) else Err tt
                        | Err _ => Err tt
                        end
              | Err _ => Err tt
              end
  end.
Definition toy_key : AuthorityLeaseKey := mkLeaseKey (x01 :: zeros 31) 0xae3895cf (sample_subject x01).
Definition toy_guard : FencedLeaseGuard AuthorityLeaseKey unit (option NamedServiceAuthoritySnapshot) :=
  {| guard_key := fun _ _ => toy_key; guard_fencing_token := fun _ _ => 5; guard_ensure_held := fun _ w => (Ok tt, w) |}.
Definition toy_host : AuthorityHost toy_adapters :=
  {| HostWorld := option NamedServiceAuthoritySnapshot; HostGuard := unit; PersistError := unit; RetrieveError := unit; host_guard := toy_guard;
     host_load := fun _ w => (toy_load w, w);
     host_persist := fun e s w => if toy_swap e s w then (Ok tt, Some s) else (Err tt, w);
     host_retrieve := fun _ w => (Ok (resolved_for (service_payload 7 [sample_service_delegation 1]) [x07]), w);
     host_clock := fun _ => 0 : @World toy_adapters |}.

#[refine] Definition toy_host_laws : @AuthorityHostLaws toy_crypto toy_adapters toy_host := {| durable := fun w : @HostWorld _ toy_host => w |}.
Proof.
  all: cbn.
  - done.
  - done.
  - done.
  - intros _ w loaded w' [= E <-]. destruct w as [s|]; cbn in E; [|by injection E as <-]. destruct (snapshot_encode s) as [e|]; [|done].
    destruct (snapshot_decode e) as [s'|] eqn:D; [|done]. case_bool_decide; [|done]. injection E as <-. subst s'. by exists s.
  - intros e s w u w'. unfold toy_swap. destruct (_ || _) eqn:O; [|done]. intros [= <- <-]. split; [done|]. apply orb_prop in O as [O|O%bool_decide_eq_true]; [right|by left].
    destruct e as [ns f|ns f r fp], w as [p|]; cbn in O; try done. apply andb_prop in O as (R%Z.eqb_eq & F). exists p. split; [done|]. split; [done|].
    destruct (snapshot_fingerprint p) as [x|]; [|done]. apply bool_decide_eq_true in F. by subst x.
  - intros e s w x w'. destruct (toy_swap e s w); [done|]. intros [= <- <-]. by left.
Defined.

Definition toy_config : Type := NamedServiceAuthorityState * @HostWorld toy_adapters toy_host.
Definition toy_lease : @AuthorityLease toy_adapters toy_host := mkWitness toy_key 5 tt.
Definition empty_state : NamedServiceAuthorityState :=
  mkAuthorityState (mkAuthoritySnapshot 0xae3895cf (sample_subject x01) 16 0 2500 None []) (Some ExpectAbsent) None.
Definition reconfirmed (c : toy_config) := @reconfirm toy_crypto toy_adapters toy_host toy_lease c.
Definition retrieved (now : Z) (c : toy_config) :=
  @retrieve_validate_and_observe toy_crypto toy_digests toy_k256 toy_codec plain_base64 toy_adapters toy_host toy_lease now sample_service sample_service_policy
    ValidationLimits_default c.
Definition toy_open : toy_config := snd (reconfirmed (empty_state, None)).
Definition toy_first := retrieved 3000 toy_open.
Definition toy_second := retrieved 3100 (snd toy_first).

Example toy_session :
  match toy_first, toy_second with
  | (Ok a, (_, Some s)), (Ok b, (_, Some s')) =>
    (cs_authority_revision a, sn_revision s, len (sn_observations s), cs_authority_revision b, sn_trusted_time_high_water s') = (2, 2, 1, 3, 3100)
  | _, _ => False
  end.
Proof. vm_compute. done. Qed.

Lemma toy_opens : @opens toy_crypto toy_adapters toy_host toy_host_laws (empty_state, None).
Proof. apply (@opens_new toy_crypto toy_adapters toy_host toy_host_laws 0xae3895cf (sample_subject x01) 16 2500 empty_state None). reflexivity. Qed.
Lemma toy_step now c : @authority_step toy_crypto toy_digests toy_k256 toy_codec plain_base64 toy_adapters toy_host toy_lease c (snd (retrieved now c)).
Proof. apply (@step_retrieve toy_crypto toy_digests toy_k256 toy_codec plain_base64 toy_adapters toy_host toy_lease sample_service sample_service_policy now ValidationLimits_default c (fst (retrieved now c))). apply surjective_pairing. Qed.

Lemma toy_open_step : @authority_step toy_crypto toy_digests toy_k256 toy_codec plain_base64 toy_adapters toy_host toy_lease (empty_state, None) toy_open.
Proof.
  apply (@step_reconfirm toy_crypto toy_digests toy_k256 toy_codec plain_base64 toy_adapters toy_host toy_lease (empty_state, None) (fst (reconfirmed (empty_state, None))) toy_open).
  apply surjective_pairing.
Qed.
Lemma toy_first_step : @authority_step toy_crypto toy_digests toy_k256 toy_codec plain_base64 toy_adapters toy_host toy_lease toy_open (snd toy_first).
Proof. exact (toy_step 3000 toy_open). Qed.
Lemma toy_second_step : @authority_step toy_crypto toy_digests toy_k256 toy_codec plain_base64 toy_adapters toy_host toy_lease (snd toy_first) (snd toy_second).
Proof. exact (toy_step 3100 (snd toy_first)). Qed.
Definition toy_durable (c : toy_config) : option NamedServiceAuthoritySnapshot := @durable toy_crypto toy_adapters toy_host toy_host_laws (snd c).
Lemma toy_second_stored : exists s, toy_durable (snd toy_second) = Some s /\ sn_revision s = 3.
Proof. vm_compute. eexists. split; reflexivity. Qed.

Lemma authority_history_witness :
  exists s, toy_durable (snd toy_second) = Some s /\ sn_revision s = 3 /\ rtc durable_step (toy_durable (empty_state, None)) (Some s).
Proof.
  destruct toy_second_stored as (s & E & Rv).
  assert (forall c', rtc (@authority_step toy_crypto toy_digests toy_k256 toy_codec plain_base64 toy_adapters toy_host toy_lease) (empty_state, None) c' ->
    rtc durable_step (toy_durable (empty_state, None)) (toy_durable c')) as G.
  { intros c' H. exact (proj1 (@authority_history toy_crypto toy_digests toy_k256 toy_codec plain_base64 toy_adapters toy_host toy_host_laws toy_lease (empty_state, None) c' toy_opens H)). }
  assert (rtc durable_step (toy_durable (empty_state, None)) (toy_durable (snd toy_second))) as R.
  { apply G. eapply rtc_l; [exact toy_open_step|]. eapply rtc_l; [exact toy_first_step|]. apply rtc_once. exact toy_second_step. }
  clear G. rewrite E in R. exists s. split; [exact E|]. split; [exact Rv|exact R].
Defined.

Lemma toy_reconfirmed : @reconfirm toy_crypto toy_adapters toy_host toy_lease (empty_state, None) = (Ok tt, toy_open).
Proof. vm_compute. reflexivity. Qed.
Lemma retrieved_run now c :
  @retrieve_validate_and_observe toy_crypto toy_digests toy_k256 toy_codec plain_base64 toy_adapters toy_host toy_lease now sample_service sample_service_policy
    ValidationLimits_default c = (fst (retrieved now c), snd (retrieved now c)).
Proof. apply surjective_pairing. Qed.
Lemma toy_second_run : is_ok (fst toy_second) = true /\
  @retrieve_validate_and_observe toy_crypto toy_digests toy_k256 toy_codec plain_base64 toy_adapters toy_host toy_lease 3100 sample_service sample_service_policy
    ValidationLimits_default (snd toy_first) = (fst toy_second, snd toy_second).
Proof. split; [vm_compute; reflexivity|]. exact (retrieved_run 3100 (snd toy_first)). Qed.

Lemma authority_released_durable_witness :
  exists k s, fst toy_second = Ok k /\ toy_durable (snd toy_second) = Some s /\ sn_revision s = cs_authority_revision k /\ sn_trusted_time_high_water s = 3100.
Proof.
  pose proof toy_second_run as (H & E). destruct (fst toy_second) as [k|]; [|discriminate H]. exists k.
  assert (forall c', @retrieve_validate_and_observe toy_crypto toy_digests toy_k256 toy_codec plain_base64 toy_adapters toy_host toy_lease 3100 sample_service
    sample_service_policy ValidationLimits_default (snd toy_first) = (Ok k, c') ->
    exists s, toy_durable c' = Some s /\ sn_revision s = cs_authority_revision k /\ sn_trusted_time_high_water s = 3100) as G.
  { intros c' E'. destruct (@authority_released_durable toy_crypto toy_digests toy_k256 toy_codec plain_base64 toy_adapters toy_host toy_host_laws toy_lease
      (empty_state, None) (empty_state, None) toy_open (snd toy_first) tt toy_opens (rtc_refl _ _) toy_reconfirmed (rtc_once _ _ toy_first_step)
      3100 sample_service sample_service_policy ValidationLimits_default k c' (or_introl E')) as (s & D & _ & _ & _ & R & T & _). exists s. split; [exact D|]. split; [exact R|exact T]. }
  destruct (G (snd toy_second) E) as (s & X). exists s. split; [reflexivity|exact X].
Defined.
