(* ===== verification/Market.v ===== *)
(** * hns-marketplace-protocol: types, signatures and direct offers

    Models [crates/hns-marketplace-protocol/src/types.rs], [crypto.rs], [direct.rs] and
    the errors of [lib.rs]: chains, assets, pairs and amounts, the header every signed
    object carries, signing and verification under a domain, and the offer, its
    cancellation and its acceptance. A [ChainId] is its number, an [AssetAmount] its
    value; keys, identifiers and signatures are their bytes. *)

From S2P Require Import Prelude Encoding Primitives Covenants NameState Transaction Script K256 Swap Envelope.
Local Open Scope Z_scope.

(** ** [lib.rs] *)
Definition MARKETPLACE_PROTOCOL_VERSION : Z := 2.

Inductive MarketplaceError :=
| MkDecode (e : DecodeError)
| MkEnvelope (e : EnvelopeError)
| MkSwap (e : SwapError)
| MkUnsupportedVersion (version : Z)
| MkInvalid (what : string)
| MkTooLarge (actual maximum : Z)
| MkArithmeticOverflow
| MkInvalidSignature
| MkSigningKeyMismatch
| MkNetworkMismatch
| MkNotYetValid (created_at now : Z)
| MkExpired (expires_at now : Z)
| MkHashMismatch
| MkUnknownMessage (protocol_id message_type : Z).

Definition ensure_size (bytes : list byte) (maximum : Z) : result MarketplaceError (list byte) :=
  assert_or (len bytes <=? maximum) (MkTooLarge (len bytes) maximum) ;; Ok bytes.

(** ** Chains, assets, pairs, amounts *)
Definition HANDSHAKE : Z := 1.
Definition BITCOIN : Z := 2.
Definition ETHEREUM : Z := 3.
Definition ChainId_new (value : Z) : result MarketplaceError Z :=
  assert_or (negb (value =? 0)) (MkInvalid "zero chain identifier") ;; Ok value.
Definition ChainId_encode_to (e : Encoder) (chain : Z) : Encoder := put_u16_le e chain.
Definition ChainId_decode_from : decM MarketplaceError Z :=
  value ← lift_err MkDecode read_u16_le;
  lift_res (ChainId_new value).

Record AssetId := mkAsset { ai_chain : Z; ai_asset : Z }.
#[global] Instance AssetId_eq_dec : EqDecision AssetId.
Proof. solve_decision. Defined.
Definition ASSET_HNS : AssetId := mkAsset HANDSHAKE 0.
Definition ASSET_BTC : AssetId := mkAsset BITCOIN 0.
Definition ASSET_ETH : AssetId := mkAsset ETHEREUM 0.
Definition AssetId_encode_to (e : Encoder) (a : AssetId) : Encoder :=
  let e := ChainId_encode_to e (ai_chain a) in put_u16_le e (ai_asset a).
Definition AssetId_decode_from : decM MarketplaceError AssetId :=
  chain ← ChainId_decode_from;
  asset ← lift_err MkDecode read_u16_le;
  mret (mkAsset chain asset).

Record MarketPair := mkPair { mp_base : AssetId; mp_quote : AssetId }.
#[global] Instance MarketPair_eq_dec : EqDecision MarketPair.
Proof. solve_decision. Defined.
Definition HNS_BTC : MarketPair := mkPair ASSET_HNS ASSET_BTC.
Definition HNS_ETH : MarketPair := mkPair ASSET_HNS ASSET_ETH.

Definition MarketPair_new (base quote : AssetId) : result MarketplaceError MarketPair :=
  assert_or (negb (negb (bool_decide (base = ASSET_HNS)) || negb (bool_decide (quote = ASSET_BTC) || bool_decide (quote = ASSET_ETH))))
    (MkInvalid "market pair is not a canonical HNS/BTC or HNS/ETH pair") ;;
  Ok (mkPair base quote).

Definition counterchain (p : MarketPair) : result MarketplaceError Z :=
  MarketPair_new (mp_base p) (mp_quote p) ;;
  match ai_chain (mp_base p) =? HANDSHAKE, ai_chain (mp_quote p) =? HANDSHAKE with
  | true, false => Ok (ai_chain (mp_quote p))
  | false, true => Ok (ai_chain (mp_base p))
  | _, _ => Err (MkInvalid "market pair must contain exactly one Handshake asset")
  end.

Definition MarketPair_contains (p : MarketPair) (asset : AssetId) : bool := bool_decide (mp_base p = asset) || bool_decide (mp_quote p = asset).
Definition MarketPair_other (p : MarketPair) (asset : AssetId) : result MarketplaceError AssetId :=
  if bool_decide (asset = mp_base p) then Ok (mp_quote p)
  else if bool_decide (asset = mp_quote p) then Ok (mp_base p)
  else Err (MkInvalid "asset is not in market pair").
Definition MarketPair_encode_to (e : Encoder) (p : MarketPair) : Encoder :=
  let e := AssetId_encode_to e (mp_base p) in AssetId_encode_to e (mp_quote p).
Definition MarketPair_decode_from : decM MarketplaceError MarketPair :=
  base ← AssetId_decode_from;
  quote ← AssetId_decode_from;
  lift_res (MarketPair_new base quote).

Definition u128_max : Z := 2 ^ 128 - 1.
Definition u128 (x : Z) : Prop := 0 <= x <= u128_max.
Definition AssetAmount_checked_add (a b : Z) : result MarketplaceError Z := ok_or (checked_add u128_max a b) MkArithmeticOverflow.
Definition AssetAmount_checked_sub (a b : Z) : result MarketplaceError Z := ok_or (checked_sub a b) MkArithmeticOverflow.
Definition AssetAmount_encode_to (e : Encoder) (amount : Z) : Encoder := put_bytes e (to_le_bytes 16 amount).
Definition AssetAmount_decode_from : decM MarketplaceError Z :=
  bytes ← lift_err MkDecode (read_array 16);
  mret (from_le_bytes bytes).

(** The public one-object codecs. *)
Definition ChainId_encode (chain : Z) : list byte := to_le_bytes 2 chain.
Definition ChainId_decode (input : list byte) : result MarketplaceError Z := run_all MkDecode ChainId_decode_from input.
Definition AssetId_encode (a : AssetId) : list byte := into_bytes (AssetId_encode_to (with_capacity 4) a).
Definition AssetId_decode (input : list byte) : result MarketplaceError AssetId := run_all MkDecode AssetId_decode_from input.
Definition MarketPair_encode (p : MarketPair) : result MarketplaceError (list byte) :=
  MarketPair_new (mp_base p) (mp_quote p) ;; Ok (into_bytes (MarketPair_encode_to (with_capacity 8) p)).
Definition MarketPair_decode (input : list byte) : result MarketplaceError MarketPair := run_all MkDecode MarketPair_decode_from input.
Definition AssetAmount_encode (amount : Z) : list byte := to_le_bytes 16 amount.
Definition AssetAmount_decode (input : list byte) : result MarketplaceError Z := run_all MkDecode AssetAmount_decode_from input.

(** ** Networks *)
Record MarketNetwork := mkMarketNetwork {
  mn_hns_magic : Z;
  mn_hns_genesis : list byte;
  mn_counterchain : Z;
  mn_counterchain_network : Z;
  mn_counterchain_genesis : list byte;
}.
#[global] Instance MarketNetwork_eq_dec : EqDecision MarketNetwork.
Proof. solve_decision. Defined.

Definition MarketNetwork_validate (n : MarketNetwork) : result MarketplaceError unit :=
  assert_or (negb ((mn_hns_magic n =? 0) || bool_decide (mn_hns_genesis n = zeros 32) || (mn_counterchain n =? HANDSHAKE) ||
                   (mn_counterchain_network n =? 0) || bool_decide (mn_counterchain_genesis n = zeros 32)))
    (MkInvalid "invalid network binding").
Definition MarketNetwork_validate_for_pair (n : MarketNetwork) (pair : MarketPair) : result MarketplaceError unit :=
  MarketNetwork_validate n ;;
  chain ← counterchain pair;
  assert_or (chain =? mn_counterchain n) (MkInvalid "network counterchain differs from market pair").
Definition MarketNetwork_encode_to (e : Encoder) (n : MarketNetwork) : Encoder :=
  let e := put_u32_le e (mn_hns_magic n) in
  let e := put_bytes e (mn_hns_genesis n) in
  let e := ChainId_encode_to e (mn_counterchain n) in
  let e := put_u64_le e (mn_counterchain_network n) in
  put_bytes e (mn_counterchain_genesis n).
Definition MarketNetwork_decode_from : decM MarketplaceError MarketNetwork :=
  hns_magic ← lift_err MkDecode read_u32_le;
  hns_genesis ← lift_err MkDecode (read_array 32);
  counterchain ← ChainId_decode_from;
  counterchain_network ← lift_err MkDecode read_u64_le;
  counterchain_genesis ← lift_err MkDecode (read_array 32);
  let value := mkMarketNetwork hns_magic hns_genesis counterchain counterchain_network counterchain_genesis in
  lift_res (MarketNetwork_validate value) ;;
  mret value.
Definition MarketNetwork_encode (n : MarketNetwork) : result MarketplaceError (list byte) :=
  MarketNetwork_validate n ;; Ok (into_bytes (MarketNetwork_encode_to (with_capacity 78) n)).
Definition MarketNetwork_decode (input : list byte) : result MarketplaceError MarketNetwork := run_all MkDecode MarketNetwork_decode_from input.

(** ** The header of a signed object *)
Record SignedObjectHeader := mkSignedHeader {
  sh_version : Z;
  sh_network : MarketNetwork;
  sh_pair : MarketPair;
  sh_signer_public_key : list byte;
  sh_sequence : Z;
  sh_created_at : Z;
  sh_expires_at : Z;
}.
#[global] Instance SignedObjectHeader_eq_dec : EqDecision SignedObjectHeader.
Proof. solve_decision. Defined.

Definition COMPACT_SIGNATURE_SIZE : Z := 64.
Definition encode_fixed_versioned (maximum : Z) (encode : Encoder -> result MarketplaceError Encoder) : result MarketplaceError (list byte) :=
  encoder ← encode Encoder_new;
  ensure_size (into_bytes encoder) maximum.

Definition header_encode_to (e : Encoder) (h : SignedObjectHeader) : Encoder :=
  let e := put_u16_le e (sh_version h) in
  let e := MarketNetwork_encode_to e (sh_network h) in
  let e := MarketPair_encode_to e (sh_pair h) in
  let e := put_bytes e (sh_signer_public_key h) in
  let e := put_u64_le e (sh_sequence h) in
  let e := put_u64_le e (sh_created_at h) in
  put_u64_le e (sh_expires_at h).

Definition with_signer (h : SignedObjectHeader) (key : list byte) : SignedObjectHeader :=
  mkSignedHeader (sh_version h) (sh_network h) (sh_pair h) key (sh_sequence h) (sh_created_at h) (sh_expires_at h).

Section market_crypto.
Context {CR : Crypto} {KC : K256} {KD : KeyCodec KC}.

(** ** [crypto.rs] *)
Definition market_hash (domain bytes : list byte) : list byte := blake2b 32 (domain ++ bytes).
Definition market_signing_key (private_key : list byte) : result MarketplaceError SigningKey :=
  ok_or (signing_key_from_bytes private_key) MkInvalidSignature.
Definition market_public_key (private_key : list byte) : result MarketplaceError (list byte) :=
  key ← market_signing_key private_key;
  assert_or (len (verifying_key key) =? 33) MkInvalidSignature ;;
  Ok (verifying_key key).
Definition market_validate_public_key (public_key : list byte) : result MarketplaceError unit := assert_or (sec1_key_ok public_key) MkInvalidSignature.
Definition market_sign (domain bytes expected_public_key private_key : list byte) : result MarketplaceError (list byte) :=
  key ← market_signing_key private_key;
  assert_or (bool_decide (verifying_key key = expected_public_key)) MkSigningKeyMismatch ;;
  signature ← ok_or (sign_prehash key (market_hash domain bytes)) MkInvalidSignature;
  Ok (low_s signature).
Definition market_verify (domain bytes signature public_key : list byte) : result MarketplaceError unit :=
  assert_or (sec1_key_ok public_key) MkInvalidSignature ;;
  assert_or (compact_ok signature) MkInvalidSignature ;;
  assert_or (negb (is_high signature)) MkInvalidSignature ;;
  assert_or (verify_prehash public_key (market_hash domain bytes) signature) MkInvalidSignature.

(** ** Header checks *)
Definition header_validate (h : SignedObjectHeader) : result MarketplaceError unit :=
  assert_or (sh_version h =? MARKETPLACE_PROTOCOL_VERSION) (MkUnsupportedVersion (sh_version h)) ;;
  MarketNetwork_validate_for_pair (sh_network h) (sh_pair h) ;;
  market_validate_public_key (sh_signer_public_key h) ;;
  assert_or (negb ((sh_sequence h =? 0) || (sh_expires_at h <=? sh_created_at h))) (MkInvalid "invalid sequence or validity interval").
Definition header_validate_at (h : SignedObjectHeader) (expected_network : MarketNetwork) (now : Z) : result MarketplaceError unit :=
  header_validate h ;;
  assert_or (bool_decide (sh_network h = expected_network)) MkNetworkMismatch ;;
  assert_or (sh_created_at h <=? now) (MkNotYetValid (sh_created_at h) now) ;;
  assert_or (now <? sh_expires_at h) (MkExpired (sh_expires_at h) now).
Definition header_decode_from : decM MarketplaceError SignedObjectHeader :=
  version ← lift_err MkDecode read_u16_le;
  network ← MarketNetwork_decode_from;
  pair ← MarketPair_decode_from;
  signer_public_key ← lift_err MkDecode (read_array 33);
  sequence ← lift_err MkDecode read_u64_le;
  created_at ← lift_err MkDecode read_u64_le;
  expires_at ← lift_err MkDecode read_u64_le;
  let header := mkSignedHeader version network pair signer_public_key sequence created_at expires_at in
  lift_res (header_validate header) ;;
  mret header.

(** The header with its signer, as far as it was set. *)
Definition bind_signer (h : SignedObjectHeader) (private_key : list byte) : result MarketplaceError unit * SignedObjectHeader :=
  match market_public_key private_key with
  | Err e => (Err e, h)
  | Ok public_key =>
    if negb (bool_decide (sh_signer_public_key h = zeros 33)) && negb (bool_decide (sh_signer_public_key h = public_key))
    then (Err MkSigningKeyMismatch, h)
    else let h := with_signer h public_key in (header_validate h, h)
  end.
End market_crypto.

(** ** Direct offers ([direct.rs]) *)
Definition MAX_DIRECT_OFFER_SIZE : Z := 8 * 1024.
Definition OFFER_ID_DOMAIN : list byte := bstr "HNS-DIRECT-OFFER-ID-V2" ++ [x00].
Definition OFFER_SIGNATURE_DOMAIN : list byte := bstr "HNS-DIRECT-OFFER-SIGNATURE-V2" ++ [x00].
Definition OFFER_CANCEL_SIGNATURE_DOMAIN : list byte := bstr "HNS-DIRECT-OFFER-CANCEL-V2" ++ [x00].
Definition OFFER_ACCEPT_SIGNATURE_DOMAIN : list byte := bstr "HNS-DIRECT-OFFER-ACCEPT-V2" ++ [x00].
Definition DIRECT_OFFER_ROLE_MODEL : Z := 2.

Record DirectOffer := mkDirectOffer {
  do_header : SignedObjectHeader;
  do_offer_id : list byte;
  do_swap_session_id : list byte;
  do_settlement_public_key : list byte;
  do_offered_asset : AssetId;
  do_offered_amount : Z;
  do_received_asset : AssetId;
  do_received_amount : Z;
  do_signature : list byte;
}.
Record DirectOfferCancellation := mkOfferCancellation {
  oc_header : SignedObjectHeader;
  oc_offer_id : list byte;
  oc_offer_sequence : Z;
  oc_signature : list byte;
}.
Record DirectOfferAcceptance := mkAcceptance {
  oa_header : SignedObjectHeader;
  oa_offer_id : list byte;
  oa_swap_session_id : list byte;
  oa_maker_settlement_public_key : list byte;
  oa_signature : list byte;
}.

Definition direct_check_input (inp : list byte) : result MarketplaceError unit :=
  assert_or (len inp <=? MAX_DIRECT_OFFER_SIZE) (MkTooLarge (len inp) MAX_DIRECT_OFFER_SIZE).
Definition decode_role_model : decM MarketplaceError unit :=
  model ← lift_err MkDecode read_u8;
  lift_res (assert_or (b2z model =? DIRECT_OFFER_ROLE_MODEL) (MkInvalid "unsupported direct-offer role model")).
Definition direct_encode_signed (unsigned signature : list byte) : result MarketplaceError (list byte) :=
  encode_fixed_versioned MAX_DIRECT_OFFER_SIZE (fun e => let e := put_bytes e unsigned in Ok (put_bytes e signature)).
Definition hns_or_btc (asset : AssetId) : bool := bool_decide (asset = ASSET_HNS) || bool_decide (asset = ASSET_BTC).

Section direct.
Context {CR : Crypto} {KC : K256} {KD : KeyCodec KC}.

Definition DirectOffer_validate_fields (o : DirectOffer) : result MarketplaceError unit :=
  header_validate (do_header o) ;;
  market_validate_public_key (do_settlement_public_key o) ;;
  assert_or (negb (negb (bool_decide (sh_pair (do_header o) = HNS_BTC)) || bool_decide (do_swap_session_id o = zeros 32) ||
                   negb (hns_or_btc (do_offered_asset o)) || negb (hns_or_btc (do_received_asset o)) ||
                   bool_decide (do_offered_asset o = do_received_asset o) || (do_offered_amount o =? 0) || (do_received_amount o =? 0) ||
                   bool_decide (do_settlement_public_key o = sh_signer_public_key (do_header o))))
    (MkInvalid "invalid direct HNS/BTC offer").
Definition DirectOffer_encode_unsigned (o : DirectOffer) : result MarketplaceError (list byte) :=
  DirectOffer_validate_fields o ;;
  encode_fixed_versioned (MAX_DIRECT_OFFER_SIZE - 96) (fun e =>
    let e := put_u8 e (z2b DIRECT_OFFER_ROLE_MODEL) in
    let e := header_encode_to e (do_header o) in
    let e := put_bytes e (do_swap_session_id o) in
    let e := put_bytes e (do_settlement_public_key o) in
    let e := AssetId_encode_to e (do_offered_asset o) in
    let e := AssetAmount_encode_to e (do_offered_amount o) in
    let e := AssetId_encode_to e (do_received_asset o) in
    Ok (AssetAmount_encode_to e (do_received_amount o))).
Definition DirectOffer_verify_id (o : DirectOffer) : result MarketplaceError unit :=
  DirectOffer_validate_fields o ;;
  unsigned ← DirectOffer_encode_unsigned o;
  assert_or (bool_decide (do_offer_id o = market_hash OFFER_ID_DOMAIN unsigned) && negb (bool_decide (do_offer_id o = zeros 32))) MkHashMismatch.
Definition DirectOffer_signature_bytes (o : DirectOffer) : result MarketplaceError (list byte) :=
  unsigned ← DirectOffer_encode_unsigned o; Ok (do_offer_id o ++ unsigned).
Definition DirectOffer_verify_signature (o : DirectOffer) : result MarketplaceError unit :=
  bytes ← DirectOffer_signature_bytes o;
  market_verify OFFER_SIGNATURE_DOMAIN bytes (do_signature o) (sh_signer_public_key (do_header o)).

(** What the [&mut self] methods change. *)
Definition offer_with (o : DirectOffer) (h : SignedObjectHeader) (id signature : list byte) : DirectOffer :=
  mkDirectOffer h id (do_swap_session_id o) (do_settlement_public_key o) (do_offered_asset o) (do_offered_amount o) (do_received_asset o)
    (do_received_amount o) signature.
Definition DirectOffer_refresh_id (o : DirectOffer) : result MarketplaceError unit * DirectOffer :=
  match DirectOffer_encode_unsigned o with
  | Ok unsigned => (Ok tt, offer_with o (do_header o) (market_hash OFFER_ID_DOMAIN unsigned) (do_signature o))
  | Err e => (Err e, o)
  end.
Definition DirectOffer_sign (o : DirectOffer) (private_key : list byte) : result MarketplaceError unit * DirectOffer :=
  let '(r, h) := bind_signer (do_header o) private_key in
  let o := offer_with o h (do_offer_id o) (do_signature o) in
  match r with
  | Err e => (Err e, o)
  | Ok _ =>
    let '(r, o) := DirectOffer_refresh_id o in
    match r with
    | Err e => (Err e, o)
    | Ok _ =>
      match bytes ← DirectOffer_signature_bytes o; market_sign OFFER_SIGNATURE_DOMAIN bytes (sh_signer_public_key (do_header o)) private_key with
      | Ok signature => (Ok tt, offer_with o (do_header o) (do_offer_id o) signature)
      | Err e => (Err e, o)
      end
    end
  end.
Definition DirectOffer_verify_at (o : DirectOffer) (expected_network : MarketNetwork) (now : Z) : result MarketplaceError unit :=
  header_validate_at (do_header o) expected_network now ;;
  DirectOffer_verify_id o ;;
  DirectOffer_verify_signature o.
Definition DirectOffer_encode (o : DirectOffer) : result MarketplaceError (list byte) :=
  DirectOffer_verify_id o ;;
  DirectOffer_verify_signature o ;;
  encode_fixed_versioned MAX_DIRECT_OFFER_SIZE (fun e =>
    unsigned ← DirectOffer_encode_unsigned o;
    let e := put_bytes e unsigned in
    let e := put_bytes e (do_offer_id o) in
    Ok (put_bytes e (do_signature o))).
Definition DirectOffer_read : decM MarketplaceError DirectOffer :=
  decode_role_model ;;
  header ← header_decode_from;
  swap_session_id ← lift_err MkDecode (read_array 32);
  settlement_public_key ← lift_err MkDecode (read_array 33);
  offered_asset ← AssetId_decode_from;
  offered_amount ← AssetAmount_decode_from;
  received_asset ← AssetId_decode_from;
  received_amount ← AssetAmount_decode_from;
  offer_id ← lift_err MkDecode (read_array 32);
  signature ← lift_err MkDecode (read_array 64);
  mret (mkDirectOffer header offer_id swap_session_id settlement_public_key offered_asset offered_amount received_asset received_amount signature).
Definition DirectOffer_decode (inp : list byte) : result MarketplaceError DirectOffer :=
  direct_check_input inp ;;
  o ← run_all MkDecode DirectOffer_read inp;
  DirectOffer_validate_fields o ;;
  DirectOffer_verify_id o ;;
  DirectOffer_verify_signature o ;;
  Ok o.

(** *** Cancellations *)
Definition cancellation_validate_fields (c : DirectOfferCancellation) : result MarketplaceError unit :=
  header_validate (oc_header c) ;;
  assert_or (negb (bool_decide (oc_offer_id c = zeros 32) || (oc_offer_sequence c =? 0))) (MkInvalid "invalid direct-offer cancellation").
Definition cancellation_encode_unsigned (c : DirectOfferCancellation) : result MarketplaceError (list byte) :=
  cancellation_validate_fields c ;;
  encode_fixed_versioned (MAX_DIRECT_OFFER_SIZE - 64) (fun e =>
    let e := put_u8 e (z2b DIRECT_OFFER_ROLE_MODEL) in
    let e := header_encode_to e (oc_header c) in
    let e := put_bytes e (oc_offer_id c) in
    Ok (put_u64_le e (oc_offer_sequence c))).
Definition cancellation_verify_signature (c : DirectOfferCancellation) : result MarketplaceError unit :=
  unsigned ← cancellation_encode_unsigned c;
  market_verify OFFER_CANCEL_SIGNATURE_DOMAIN unsigned (oc_signature c) (sh_signer_public_key (oc_header c)).
Definition cancellation_sign (c : DirectOfferCancellation) (private_key : list byte) : result MarketplaceError unit * DirectOfferCancellation :=
  let '(r, h) := bind_signer (oc_header c) private_key in
  let c := mkOfferCancellation h (oc_offer_id c) (oc_offer_sequence c) (oc_signature c) in
  match r ;; unsigned ← cancellation_encode_unsigned c; market_sign OFFER_CANCEL_SIGNATURE_DOMAIN unsigned (sh_signer_public_key (oc_header c)) private_key with
  | Ok signature => (Ok tt, mkOfferCancellation h (oc_offer_id c) (oc_offer_sequence c) signature)
  | Err e => (Err e, c)
  end.
Definition cancellation_verify_for_offer (c : DirectOfferCancellation) (o : DirectOffer) (expected_network : MarketNetwork) (now : Z)
    : result MarketplaceError unit :=
  DirectOffer_verify_at o expected_network now ;;
  header_validate_at (oc_header c) expected_network now ;;
  cancellation_verify_signature c ;;
  let h := oc_header c in
  let oh := do_header o in
  assert_or (negb (negb (bool_decide (oc_offer_id c = do_offer_id o)) || negb (oc_offer_sequence c =? sh_sequence oh) ||
                   negb (bool_decide (sh_network h = sh_network oh)) || negb (bool_decide (sh_pair h = sh_pair oh)) ||
                   negb (bool_decide (sh_signer_public_key h = sh_signer_public_key oh)) || (sh_sequence h <=? sh_sequence oh) ||
                   (sh_created_at h <? sh_created_at oh)))
    (MkInvalid "direct-offer cancellation does not bind its offer").
Definition cancellation_encode (c : DirectOfferCancellation) : result MarketplaceError (list byte) :=
  cancellation_verify_signature c ;;
  unsigned ← cancellation_encode_unsigned c;
  direct_encode_signed unsigned (oc_signature c).
Definition cancellation_read : decM MarketplaceError DirectOfferCancellation :=
  decode_role_model ;;
  header ← header_decode_from;
  offer_id ← lift_err MkDecode (read_array 32);
  offer_sequence ← lift_err MkDecode read_u64_le;
  signature ← lift_err MkDecode (read_array 64);
  mret (mkOfferCancellation header offer_id offer_sequence signature).
Definition cancellation_decode (inp : list byte) : result MarketplaceError DirectOfferCancellation :=
  direct_check_input inp ;;
  c ← run_all MkDecode cancellation_read inp;
  cancellation_validate_fields c ;;
  cancellation_verify_signature c ;;
  Ok c.

(** *** Acceptances *)
Definition acceptance_validate_fields (a : DirectOfferAcceptance) : result MarketplaceError unit :=
  header_validate (oa_header a) ;;
  market_validate_public_key (oa_maker_settlement_public_key a) ;;
  assert_or (negb (negb (bool_decide (sh_pair (oa_header a) = HNS_BTC)) || bool_decide (oa_offer_id a = zeros 32) ||
                   bool_decide (oa_swap_session_id a = zeros 32) ||
                   bool_decide (oa_maker_settlement_public_key a = sh_signer_public_key (oa_header a))))
    (MkInvalid "invalid direct-offer acceptance").
Definition acceptance_encode_unsigned (a : DirectOfferAcceptance) : result MarketplaceError (list byte) :=
  acceptance_validate_fields a ;;
  encode_fixed_versioned (MAX_DIRECT_OFFER_SIZE - 64) (fun e =>
    let e := put_u8 e (z2b DIRECT_OFFER_ROLE_MODEL) in
    let e := header_encode_to e (oa_header a) in
    let e := put_bytes e (oa_offer_id a) in
    let e := put_bytes e (oa_swap_session_id a) in
    Ok (put_bytes e (oa_maker_settlement_public_key a))).
Definition acceptance_verify_signature (a : DirectOfferAcceptance) : result MarketplaceError unit :=
  unsigned ← acceptance_encode_unsigned a;
  market_verify OFFER_ACCEPT_SIGNATURE_DOMAIN unsigned (oa_signature a) (sh_signer_public_key (oa_header a)).
Definition acceptance_sign (a : DirectOfferAcceptance) (private_key : list byte) : result MarketplaceError unit * DirectOfferAcceptance :=
  let '(r, h) := bind_signer (oa_header a) private_key in
  let a := mkAcceptance h (oa_offer_id a) (oa_swap_session_id a) (oa_maker_settlement_public_key a) (oa_signature a) in
  match r ;; unsigned ← acceptance_encode_unsigned a; market_sign OFFER_ACCEPT_SIGNATURE_DOMAIN unsigned (sh_signer_public_key (oa_header a)) private_key with
  | Ok signature => (Ok tt, mkAcceptance h (oa_offer_id a) (oa_swap_session_id a) (oa_maker_settlement_public_key a) signature)
  | Err e => (Err e, a)
  end.
Definition acceptance_verify_for_offer (a : DirectOfferAcceptance) (o : DirectOffer) (expected_network : MarketNetwork) (now : Z)
    : result MarketplaceError unit :=
  DirectOffer_verify_at o expected_network now ;;
  header_validate_at (oa_header a) expected_network now ;;
  acceptance_verify_signature a ;;
  let h := oa_header a in
  let oh := do_header o in
  assert_or (negb (negb (bool_decide (oa_offer_id a = do_offer_id o)) || negb (bool_decide (oa_swap_session_id a = do_swap_session_id o)) ||
                   negb (bool_decide (sh_network h = sh_network oh)) || negb (bool_decide (sh_pair h = sh_pair oh)) ||
                   bool_decide (sh_signer_public_key h = sh_signer_public_key oh) ||
                   bool_decide (sh_signer_public_key h = do_settlement_public_key o) ||
                   bool_decide (oa_maker_settlement_public_key a = sh_signer_public_key oh) ||
                   bool_decide (oa_maker_settlement_public_key a = do_settlement_public_key o) ||
                   (sh_created_at h <? sh_created_at oh) || (sh_expires_at oh <? sh_expires_at h)))
    (MkInvalid "direct-offer acceptance does not bind an eligible live offer").
Definition acceptance_encode (a : DirectOfferAcceptance) : result MarketplaceError (list byte) :=
  acceptance_verify_signature a ;;
  unsigned ← acceptance_encode_unsigned a;
  direct_encode_signed unsigned (oa_signature a).
Definition acceptance_read : decM MarketplaceError DirectOfferAcceptance :=
  decode_role_model ;;
  header ← header_decode_from;
  offer_id ← lift_err MkDecode (read_array 32);
  swap_session_id ← lift_err MkDecode (read_array 32);
  maker_settlement_public_key ← lift_err MkDecode (read_array 33);
  signature ← lift_err MkDecode (read_array 64);
  mret (mkAcceptance header offer_id swap_session_id maker_settlement_public_key signature).
Definition acceptance_decode (inp : list byte) : result MarketplaceError DirectOfferAcceptance :=
  direct_check_input inp ;;
  a ← run_all MkDecode acceptance_read inp;
  acceptance_validate_fields a ;;
  acceptance_verify_signature a ;;
  Ok a.
End direct.

(** ** Codecs *)
Definition asset_bytes (a : AssetId) : list byte := to_le_bytes 2 (ai_chain a) ++ to_le_bytes 2 (ai_asset a).
Definition pair_bytes (p : MarketPair) : list byte := asset_bytes (mp_base p) ++ asset_bytes (mp_quote p).
Definition network_bytes (n : MarketNetwork) : list byte :=
  to_le_bytes 4 (mn_hns_magic n) ++ mn_hns_genesis n ++ to_le_bytes 2 (mn_counterchain n) ++ to_le_bytes 8 (mn_counterchain_network n) ++ mn_counterchain_genesis n.
Definition signed_header_bytes (h : SignedObjectHeader) : list byte :=
  to_le_bytes 2 (sh_version h) ++ network_bytes (sh_network h) ++ pair_bytes (sh_pair h) ++ sh_signer_public_key h ++
  to_le_bytes 8 (sh_sequence h) ++ to_le_bytes 8 (sh_created_at h) ++ to_le_bytes 8 (sh_expires_at h).

Definition asset_typed (a : AssetId) : Prop := u16 (ai_chain a) /\ u16 (ai_asset a).
Definition network_typed (n : MarketNetwork) : Prop :=
  u32 (mn_hns_magic n) /\ len (mn_hns_genesis n) = 32 /\ u16 (mn_counterchain n) /\ u64 (mn_counterchain_network n) /\ len (mn_counterchain_genesis n) = 32.
Definition signed_header_typed (h : SignedObjectHeader) : Prop :=
  u16 (sh_version h) /\ network_typed (sh_network h) /\ (asset_typed (mp_base (sh_pair h)) /\ asset_typed (mp_quote (sh_pair h))) /\
  len (sh_signer_public_key h) = 33 /\ u64 (sh_sequence h) /\ u64 (sh_created_at h) /\ u64 (sh_expires_at h).

Lemma asset_encode_bytes e a : bytes (AssetId_encode_to e a) = bytes e ++ asset_bytes a.
Proof. unfold AssetId_encode_to, ChainId_encode_to, asset_bytes. by rewrite !bytes_put_u16, <- app_assoc. Qed.
Lemma amount_encode_bytes e a : bytes (AssetAmount_encode_to e a) = bytes e ++ to_le_bytes 16 a.
Proof. apply bytes_put_bytes. Qed.
Lemma network_encode_bytes e n : bytes (MarketNetwork_encode_to e n) = bytes e ++ network_bytes n.
Proof.
  unfold MarketNetwork_encode_to, ChainId_encode_to, network_bytes. by rewrite bytes_put_bytes, bytes_put_u64, bytes_put_u16, bytes_put_bytes, bytes_put_u32, <- !app_assoc.
Qed.
Lemma header_encode_bytes e h : bytes (header_encode_to e h) = bytes e ++ signed_header_bytes h.
Proof.
  unfold header_encode_to, MarketPair_encode_to, signed_header_bytes, pair_bytes.
  by rewrite !bytes_put_u64, bytes_put_bytes, !asset_encode_bytes, network_encode_bytes, bytes_put_u16, <- !app_assoc.
Qed.
Create HintDb market_bytes.
#[export] Hint Rewrite asset_encode_bytes amount_encode_bytes network_encode_bytes header_encode_bytes bytes_put_bytes bytes_put_u8 bytes_put_u16 bytes_put_u32 bytes_put_u64 : market_bytes.

Lemma asset_bytes_len a : len (asset_bytes a) = 4.
Proof. unfold asset_bytes. by rewrite len_app, !len_to_le_bytes. Qed.
Lemma network_bytes_len n : network_typed n -> len (network_bytes n) = 78.
Proof. intros (_ & L1 & _ & _ & L2). unfold network_bytes. by rewrite !len_app, !len_to_le_bytes, L1, L2. Qed.
Lemma signed_header_len h : signed_header_typed h -> len (signed_header_bytes h) = 145.
Proof.
  intros (_ & N & _ & L & _). unfold signed_header_bytes, pair_bytes. rewrite !len_app, !len_to_le_bytes, (network_bytes_len _ N), !asset_bytes_len, L. done.
Qed.

(** *** The parts *)
Lemma chain_reads d c : u16 c -> c <> 0 -> reads d ChainId_decode_from (to_le_bytes 2 c) c.
Proof.
  intros U N. eapply reads_last; [by apply reads_err, read_u16_reads|]. apply reads_res. unfold ChainId_new. by rewrite (proj2 (Z.eqb_neq _ _)).
Qed.
Lemma chain_inv d c d' : dec_wf d -> ChainId_decode_from d = (Ok c, d') -> took d (to_le_bytes 2 c) d' /\ u16 c /\ c <> 0.
Proof.
  intros W H. unfold ChainId_decode_from in H. dbind H as v d1 K. took_all. apply lift_res_Ok in H as (H & ->). apply bind_Ok in H as (? & N%assert_or_Ok & [= <-]).
  split; [done|]. split; [done|]. by apply negb_true_iff, Z.eqb_neq in N.
Qed.
Lemma asset_reads d a : asset_typed a -> ai_chain a <> 0 -> reads d AssetId_decode_from (asset_bytes a) a.
Proof.
  intros (U1 & U2) N. eapply reads_bind; [by apply chain_reads|]. eapply reads_last; [by apply reads_err, read_u16_reads|]. destruct a. apply reads_ret.
Qed.
Lemma asset_inv d a d' : dec_wf d -> AssetId_decode_from d = (Ok a, d') -> took d (asset_bytes a) d' /\ asset_typed a /\ ai_chain a <> 0.
Proof.
  intros W H. unfold AssetId_decode_from in H. dbind H as c d1 K1. apply chain_inv in K1 as (K1 & U & N); [|done]. took_all. dbind H as x d2 K2. took_all.
  apply dec_ret_Ok in H as (<- & ->). unfold asset_bytes. cbn [ai_chain ai_asset]. split; [took_chain|done].
Qed.
Lemma amount_reads d a : u128 a -> reads d AssetAmount_decode_from (to_le_bytes 16 a) a.
Proof.
  intros U. eapply reads_last; [by apply reads_err, read_array_reads; rewrite len_to_le_bytes|]. rewrite from_to_le_bytes_small; [apply reads_ret|]. unfold u128, u128_max in U. lia.
Qed.
Lemma amount_inv d a d' : dec_wf d -> AssetAmount_decode_from d = (Ok a, d') -> took d (to_le_bytes 16 a) d' /\ u128 a.
Proof.
  intros W H. unfold AssetAmount_decode_from in H. dbind H as b d1 K. took_all. apply dec_ret_Ok in H as (<- & ->).
  rewrite to_from_le_bytes_len by (unfold len in *; lia). split; [done|]. pose proof (from_le_bytes_range b) as R. unfold u128, u128_max. unfold len in *. assert (length b = 16%nat) as E by lia.
  rewrite E in R. change (8 * Z.of_nat 16) with 128 in R. lia.
Qed.

Lemma pair_new_Ok base quote p : MarketPair_new base quote = Ok p <-> p = mkPair base quote /\ base = ASSET_HNS /\ (quote = ASSET_BTC \/ quote = ASSET_ETH).
Proof.
  unfold MarketPair_new. split.
  - intros H. apply bind_Ok in H as (? & B%assert_or_Ok & [= <-]). rewrite negb_orb, !negb_involutive, andb_true_iff, orb_true_iff, !bool_decide_eq_true in B. naive_solver.
  - intros (-> & -> & Q). apply bind_Ok. exists tt. split; [|done]. apply assert_or_Ok. rewrite negb_orb, !negb_involutive, andb_true_iff, orb_true_iff, !bool_decide_eq_true. done.
Qed.

(** [mread] reads one field of a message; [minv] inverts the reads of its parts. *)
Ltac mread := first
  [ by apply reads_err, read_u8_reads | by apply reads_err, read_u16_reads | by apply reads_err, read_u32_reads | by apply reads_err, read_u64_reads
  | by apply reads_err, read_array_reads | by apply chain_reads | by apply asset_reads | by apply amount_reads ].
Ltac mstep := eapply reads_bind; [solve [mread]|].
Ltac minv := repeat first
  [ progress took_all
  | match goal with
    | W : dec_wf ?d, H : ChainId_decode_from ?d = (Ok _, _) |- _ => apply (chain_inv _ _ _ W) in H as (H & ? & ?)
    | W : dec_wf ?d, H : AssetId_decode_from ?d = (Ok _, _) |- _ => apply (asset_inv _ _ _ W) in H as (H & ? & ?)
    | W : dec_wf ?d, H : AssetAmount_decode_from ?d = (Ok _, _) |- _ => apply (amount_inv _ _ _ W) in H as (H & ?)
    end ].

Lemma network_reads d n : network_typed n -> mn_counterchain n <> 0 -> MarketNetwork_validate n = Ok tt -> reads d MarketNetwork_decode_from (network_bytes n) n.
Proof.
  intros (U1 & L1 & U2 & U3 & L2) N V. unfold MarketNetwork_decode_from, network_bytes. do 4 mstep. eapply reads_last; [mread|]. cbv zeta. destruct n.
  eapply reads_nil_bind; [by apply reads_res|]. apply reads_ret.
Qed.
Lemma network_inv d n d' : dec_wf d -> MarketNetwork_decode_from d = (Ok n, d') -> took d (network_bytes n) d' /\ network_typed n /\ MarketNetwork_validate n = Ok tt.
Proof.
  intros W H. unfold MarketNetwork_decode_from in H. dbind H as a d1 K1. dbind H as b d2 K2. dbind H as c d3 K3. dbind H as x d4 K4. dbind H as y d5 K5. dbind H as u d6 K6.
  apply dec_ret_Ok in H as (<- & ->). minv. destruct u. split; [|done]. unfold network_bytes. cbn [mn_hns_magic mn_hns_genesis mn_counterchain mn_counterchain_network mn_counterchain_genesis].
  took_chain.
Qed.
Lemma pair_inv d p d' : dec_wf d -> MarketPair_decode_from d = (Ok p, d') ->
  took d (pair_bytes p) d' /\ asset_typed (mp_base p) /\ asset_typed (mp_quote p).
Proof.
  intros W H. unfold MarketPair_decode_from in H. dbind H as a d1 K1. dbind H as b d2 K2. apply lift_res_Ok in H as ((-> & _)%pair_new_Ok & ->). minv.
  split; [|done]. unfold pair_bytes. cbn [mp_base mp_quote]. took_chain.
Qed.
Lemma pair_reads d p : MarketPair_new (mp_base p) (mp_quote p) = Ok p -> reads d MarketPair_decode_from (pair_bytes p) p.
Proof.
  intros N. pose proof N as (_ & B & Q)%pair_new_Ok. unfold MarketPair_decode_from, pair_bytes. eapply reads_bind; [apply asset_reads; rewrite B; by repeat split|].
  eapply reads_last; [apply asset_reads; destruct Q as [-> | ->]; by repeat split|]. by apply reads_res.
Qed.

Section headers.
Context {KC : K256}.

(** What a valid header promises. *)
Lemma header_validate_Ok h : header_validate h = Ok tt <->
  sh_version h = MARKETPLACE_PROTOCOL_VERSION /\ MarketNetwork_validate (sh_network h) = Ok tt /\
  MarketPair_new (mp_base (sh_pair h)) (mp_quote (sh_pair h)) = Ok (sh_pair h) /\ mn_counterchain (sh_network h) = ai_chain (mp_quote (sh_pair h)) /\
  sec1_key_ok (sh_signer_public_key h) = true /\ sh_sequence h <> 0 /\ sh_created_at h < sh_expires_at h.
Proof.
  unfold header_validate, MarketNetwork_validate_for_pair, counterchain, market_validate_public_key. split.
  - intros H. apply bind_Ok in H as (? & V%assert_or_Ok%Z.eqb_eq & H). apply bind_Ok in H as (? & N & H). apply bind_Ok in N as ([] & N & P).
    apply bind_Ok in P as (c & P & Q%assert_or_Ok%Z.eqb_eq). apply bind_Ok in P as (p & P & C). pose proof P as (-> & B & Qt)%pair_new_Ok.
    apply bind_Ok in H as (? & K%assert_or_Ok & S%assert_or_Ok). rewrite negb_true_iff, orb_false_iff, Z.eqb_neq, Z.leb_gt in S.
    destruct (sh_pair h) as [b q]. cbn [mp_base mp_quote] in *. subst b. split_and!; try done; [|apply S|apply S]. rewrite <- Q. destruct Qt as [-> | ->]; by injection C as <-.
  - intros (V & N & P & C & K & S & T). apply bind_Ok. exists tt. split; [by apply assert_or_Ok, Z.eqb_eq|]. apply bind_Ok. exists tt. split.
    + apply bind_Ok. exists tt. split; [done|]. apply bind_Ok. exists (mn_counterchain (sh_network h)). split; [|by apply assert_or_Ok, Z.eqb_eq].
      apply bind_Ok. exists (sh_pair h). split; [done|]. apply pair_new_Ok in P as (_ & B & Q). rewrite B, C. by destruct Q as [-> | ->].
    + apply bind_Ok. exists tt. split; [by apply assert_or_Ok|]. apply assert_or_Ok. by rewrite negb_true_iff, orb_false_iff, Z.eqb_neq, Z.leb_gt.
Qed.

Lemma signed_header_reads d h : signed_header_typed h -> header_validate h = Ok tt -> reads d header_decode_from (signed_header_bytes h) h.
Proof.
  intros (U1 & N & _ & L & U2 & U3 & U4) V. pose proof V as (_ & VN & P & C & _)%header_validate_Ok. unfold header_decode_from, signed_header_bytes. mstep.
  eapply reads_bind; [apply network_reads; [done| |done]; rewrite C; apply pair_new_Ok in P as (_ & _ & [-> | ->]); done|].
  eapply reads_bind; [by apply pair_reads|]. do 3 mstep. eapply reads_last; [mread|]. cbv zeta. destruct h. eapply reads_nil_bind; [by apply reads_res|]. apply reads_ret.
Qed.
Lemma header_inv d h d' : dec_wf d -> header_decode_from d = (Ok h, d') -> took d (signed_header_bytes h) d' /\ signed_header_typed h /\ header_validate h = Ok tt.
Proof.
  intros W H. unfold header_decode_from in H. dbind H as v d1 K1. dbind H as n d2 K2. dbind H as p d3 K3. dbind H as k d4 K4. dbind H as s d5 K5. dbind H as c d6 K6.
  dbind H as x d7 K7. dbind H as u d8 K8. apply dec_ret_Ok in H as (<- & ->). destruct u. minv. apply network_inv in K2 as (K2 & TN & _); [|done]. minv.
  apply pair_inv in K3 as (K3 & TP); [|done]. minv. split; [|done]. unfold signed_header_bytes.
  cbn [sh_version sh_network sh_pair sh_signer_public_key sh_sequence sh_created_at sh_expires_at]. took_chain.
Qed.
End headers.

(** *** Messages

    A message is read field by field, checked, and encoded only when it checks. *)
Lemma message_decode {M} (read : decM MarketplaceError M) (post : M -> result MarketplaceError M) (mbytes : M -> list byte) (typed valid : M -> Prop) maximum inp m :
  maximum <= isize_max ->
  (forall d m d', dec_wf d -> read d = (Ok m, d') -> typed m /\ took d (mbytes m) d') ->
  (forall d m, typed m -> valid m -> reads d read (mbytes m) m) ->
  (forall m x, typed m -> post m = Ok x <-> x = m /\ valid m) ->
  (assert_or (len inp <=? maximum) (MkTooLarge (len inp) maximum) ;; m ← run_all MkDecode read inp; post m) = Ok m <->
  typed m /\ valid m /\ inp = mbytes m /\ len inp <= maximum.
Proof.
  intros Lm Inv Rd Po. split.
  - intros H. apply bind_Ok in H as (? & L%assert_or_Ok%Z.leb_le & H). apply bind_Ok in H as (m' & R & H).
    apply run_all_Ok in R as (d & R & F). apply Inv in R as (T & K); [|apply wf_new; lia]. apply Po in H as (-> & C); [|done]. split; [done|]. split; [done|]. split; [|done]. symmetry. by eapply took_finish.
  - intros (T & C & -> & L). apply bind_Ok. exists tt. split; [by apply assert_or_Ok, Z.leb_le|]. apply bind_Ok. exists m.
    split; [apply run_all_reads; [lia|by apply Rd]|]. by apply Po.
Qed.

(** Checks in a row, then the message itself. *)
Lemma check2_Ok {M} (a b : result MarketplaceError unit) (m x : M) : (a ;; b ;; Ok m) = Ok x <-> x = m /\ a = Ok tt /\ b = Ok tt.
Proof. destruct a as [[]|], b as [[]|]; cbn; naive_solver. Qed.
Lemma check3_Ok {M} (a b c : result MarketplaceError unit) (m x : M) : (a ;; b ;; c ;; Ok m) = Ok x <-> x = m /\ a = Ok tt /\ b = Ok tt /\ c = Ok tt.
Proof. destruct a as [[]|], b as [[]|], c as [[]|]; cbn; naive_solver. Qed.

Lemma ensure_size_Ok bs maximum out : ensure_size bs maximum = Ok out <-> out = bs /\ len bs <= maximum.
Proof.
  unfold ensure_size. split; [intros H; apply bind_Ok in H as (? & L%assert_or_Ok%Z.leb_le & [= <-]); done|]. intros (-> & L). apply bind_Ok. exists tt.
  split; [by apply assert_or_Ok, Z.leb_le|done].
Qed.
(** [sized] computes what a fixed-size encoder writes. *)
Ltac sized := unfold encode_fixed_versioned; cbv zeta beta; cbn [mbind result_bind]; rewrite ensure_size_Ok; unfold into_bytes; autorewrite with market_bytes;
  cbn [bytes Encoder_new]; rewrite <- ?app_assoc, ?app_nil_l.

(** *** Direct offers *)
Definition offer_unsigned (o : DirectOffer) : list byte :=
  [z2b DIRECT_OFFER_ROLE_MODEL] ++ signed_header_bytes (do_header o) ++ do_swap_session_id o ++ do_settlement_public_key o ++ asset_bytes (do_offered_asset o) ++
  to_le_bytes 16 (do_offered_amount o) ++ asset_bytes (do_received_asset o) ++ to_le_bytes 16 (do_received_amount o).
Definition offer_bytes (o : DirectOffer) : list byte := offer_unsigned o ++ do_offer_id o ++ do_signature o.
Definition offer_typed (o : DirectOffer) : Prop :=
  signed_header_typed (do_header o) /\ len (do_swap_session_id o) = 32 /\ len (do_settlement_public_key o) = 33 /\ asset_typed (do_offered_asset o) /\
  u128 (do_offered_amount o) /\ asset_typed (do_received_asset o) /\ u128 (do_received_amount o) /\ len (do_offer_id o) = 32 /\ len (do_signature o) = 64.
Definition cancellation_unsigned (c : DirectOfferCancellation) : list byte :=
  [z2b DIRECT_OFFER_ROLE_MODEL] ++ signed_header_bytes (oc_header c) ++ oc_offer_id c ++ to_le_bytes 8 (oc_offer_sequence c).
Definition cancellation_typed (c : DirectOfferCancellation) : Prop :=
  signed_header_typed (oc_header c) /\ len (oc_offer_id c) = 32 /\ u64 (oc_offer_sequence c) /\ len (oc_signature c) = 64.
Definition acceptance_unsigned (a : DirectOfferAcceptance) : list byte :=
  [z2b DIRECT_OFFER_ROLE_MODEL] ++ signed_header_bytes (oa_header a) ++ oa_offer_id a ++ oa_swap_session_id a ++ oa_maker_settlement_public_key a.
Definition acceptance_typed (a : DirectOfferAcceptance) : Prop :=
  signed_header_typed (oa_header a) /\ len (oa_offer_id a) = 32 /\ len (oa_swap_session_id a) = 32 /\ len (oa_maker_settlement_public_key a) = 33 /\ len (oa_signature a) = 64.

Section direct_codec.
Context {CR : Crypto} {KC : K256} {KD : KeyCodec KC}.

Lemma role_reads d : reads d decode_role_model [z2b DIRECT_OFFER_ROLE_MODEL] tt.
Proof. eapply reads_last; [apply reads_err, read_u8_reads|]. by apply reads_assert. Qed.
Lemma role_inv d u d' : dec_wf d -> decode_role_model d = (Ok u, d') -> took d [z2b DIRECT_OFFER_ROLE_MODEL] d'.
Proof.
  intros W H. unfold decode_role_model in H. dbind H as m d1 K. apply lift_res_Ok in H as (E%assert_or_Ok%Z.eqb_eq & ->). took_all.
  replace (z2b DIRECT_OFFER_ROLE_MODEL) with m; [done|]. rewrite <- E. by rewrite z2b_b2z.
Qed.

(** The size checks never fail on well-typed messages. *)
Lemma offer_unsigned_Ok o bs : offer_typed o -> DirectOffer_encode_unsigned o = Ok bs <-> DirectOffer_validate_fields o = Ok tt /\ bs = offer_unsigned o.
Proof.
  intros (H & L1 & L2 & A1 & U1 & A2 & U2 & L3 & L4). unfold DirectOffer_encode_unsigned. destruct (DirectOffer_validate_fields o) as [[]|]; [|by split; [|intros (? & _)]].
  cbn [mbind result_bind]. sized. fold (offer_unsigned o).
  assert (len (offer_unsigned o) = 251) as -> by (unfold offer_unsigned; rewrite !len_app, !len_to_le_bytes, (signed_header_len _ H), L1, L2, !asset_bytes_len; done).
  split; [by intros (-> & _)|]. by intros (_ & ->).
Qed.
Lemma cancellation_unsigned_Ok c bs : cancellation_typed c -> cancellation_encode_unsigned c = Ok bs <-> cancellation_validate_fields c = Ok tt /\ bs = cancellation_unsigned c.
Proof.
  intros (H & L1 & _). unfold cancellation_encode_unsigned. destruct (cancellation_validate_fields c) as [[]|]; [|by split; [|intros (? & _)]].
  cbn [mbind result_bind]. sized. fold (cancellation_unsigned c).
  assert (len (cancellation_unsigned c) = 186) as -> by (unfold cancellation_unsigned; rewrite !len_app, !len_to_le_bytes, (signed_header_len _ H), L1; done).
  split; [by intros (-> & _)|]. by intros (_ & ->).
Qed.
Lemma acceptance_unsigned_Ok a bs : acceptance_typed a -> acceptance_encode_unsigned a = Ok bs <-> acceptance_validate_fields a = Ok tt /\ bs = acceptance_unsigned a.
Proof.
  intros (H & L1 & L2 & L3 & _). unfold acceptance_encode_unsigned. destruct (acceptance_validate_fields a) as [[]|]; [|by split; [|intros (? & _)]].
  cbn [mbind result_bind]. sized. fold (acceptance_unsigned a).
  assert (len (acceptance_unsigned a) = 243) as -> by (unfold acceptance_unsigned; rewrite !len_app, (signed_header_len _ H), L1, L2, L3; done).
  split; [by intros (-> & _)|]. by intros (_ & ->).
Qed.

(** [key] signed [bytes] under [domain], in low-S form. *)
Definition market_signed (key domain bytes signature : list byte) : Prop :=
  sec1_key_ok key = true /\ compact_ok signature = true /\ is_high signature = false /\ verify_prehash key (market_hash domain bytes) signature = true.
Lemma market_verify_Ok domain bs signature key : market_verify domain bs signature key = Ok tt <-> market_signed key domain bs signature.
Proof.
  unfold market_verify, market_signed. destruct (sec1_key_ok key), (compact_ok signature), (is_high signature), (verify_prehash key (market_hash domain bs) signature);
    cbn; naive_solver.
Qed.

Definition offer_valid (o : DirectOffer) : Prop :=
  DirectOffer_validate_fields o = Ok tt /\ do_offer_id o = market_hash OFFER_ID_DOMAIN (offer_unsigned o) /\ do_offer_id o <> zeros 32 /\
  market_signed (sh_signer_public_key (do_header o)) OFFER_SIGNATURE_DOMAIN (do_offer_id o ++ offer_unsigned o) (do_signature o).
Definition cancellation_valid (c : DirectOfferCancellation) : Prop :=
  cancellation_validate_fields c = Ok tt /\ market_signed (sh_signer_public_key (oc_header c)) OFFER_CANCEL_SIGNATURE_DOMAIN (cancellation_unsigned c) (oc_signature c).
Definition acceptance_valid (a : DirectOfferAcceptance) : Prop :=
  acceptance_validate_fields a = Ok tt /\ market_signed (sh_signer_public_key (oa_header a)) OFFER_ACCEPT_SIGNATURE_DOMAIN (acceptance_unsigned a) (oa_signature a).

Lemma offer_checks o : offer_typed o -> (DirectOffer_verify_id o = Ok tt /\ DirectOffer_verify_signature o = Ok tt) <-> offer_valid o.
Proof.
  intros T. unfold DirectOffer_verify_id, DirectOffer_verify_signature, DirectOffer_signature_bytes, offer_valid. split.
  - intros (H1 & H2). apply bind_Ok in H1 as ([] & V & H1). apply bind_Ok in H1 as (bs & (_ & ->)%offer_unsigned_Ok & H1); [|done]. apply assert_or_Ok, andb_true_iff in H1 as (I & N).
    apply bool_decide_eq_true in I. apply negb_true_iff, bool_decide_eq_false in N. apply bind_Ok in H2 as (sb & S & H2%market_verify_Ok).
    apply bind_Ok in S as (bs & (_ & ->)%offer_unsigned_Ok & [= <-]); [|done]. done.
  - intros (V & I & N & S). assert (DirectOffer_encode_unsigned o = Ok (offer_unsigned o)) as E by (by apply offer_unsigned_Ok). rewrite V, E. cbn [mbind result_bind].
    split; [|by apply market_verify_Ok]. apply assert_or_Ok. rewrite <- I. rewrite bool_decide_eq_true_2 by done. by rewrite bool_decide_eq_false_2.
Qed.
Lemma cancellation_checks c : cancellation_typed c -> cancellation_verify_signature c = Ok tt <-> cancellation_valid c.
Proof.
  intros T. unfold cancellation_verify_signature, cancellation_valid. split.
  - intros H. apply bind_Ok in H as (bs & (V & ->)%cancellation_unsigned_Ok & S%market_verify_Ok); done.
  - intros (V & S). apply bind_Ok. exists (cancellation_unsigned c). split; [by apply cancellation_unsigned_Ok|by apply market_verify_Ok].
Qed.
Lemma acceptance_checks a : acceptance_typed a -> acceptance_verify_signature a = Ok tt <-> acceptance_valid a.
Proof.
  intros T. unfold acceptance_verify_signature, acceptance_valid. split.
  - intros H. apply bind_Ok in H as (bs & (V & ->)%acceptance_unsigned_Ok & S%market_verify_Ok); done.
  - intros (V & S). apply bind_Ok. exists (acceptance_unsigned a). split; [by apply acceptance_unsigned_Ok|by apply market_verify_Ok].
Qed.

Lemma validate_header_of o : DirectOffer_validate_fields o = Ok tt -> header_validate (do_header o) = Ok tt.
Proof. intros H. by apply bind_Ok in H as ([] & ? & _). Qed.
Lemma validate_offer_assets o : DirectOffer_validate_fields o = Ok tt -> ai_chain (do_offered_asset o) <> 0 /\ ai_chain (do_received_asset o) <> 0.
Proof.
  intros H. apply bind_Ok in H as (? & _ & H). apply bind_Ok in H as (? & _ & H%assert_or_Ok). rewrite negb_true_iff, !orb_false_iff, !negb_false_iff in H.
  destruct H as (((((((_ & _) & A1) & A2) & _) & _) & _) & _). unfold hns_or_btc in *. rewrite orb_true_iff, !bool_decide_eq_true in A1, A2.
  destruct A1 as [-> | ->], A2 as [-> | ->]; done.
Qed.

Lemma offer_reads d o : offer_typed o -> offer_valid o -> reads d DirectOffer_read (offer_bytes o) o.
Proof.
  intros (H & L1 & L2 & A1 & U1 & A2 & U2 & L3 & L4) (V & _). destruct (validate_offer_assets o V) as (N1 & N2). unfold DirectOffer_read, offer_bytes, offer_unsigned.
  rewrite <- !app_assoc. eapply reads_bind; [apply role_reads|]. eapply reads_bind; [apply signed_header_reads; [done|by apply validate_header_of]|]. do 7 mstep.
  eapply reads_last; [mread|]. destruct o. apply reads_ret.
Qed.
Lemma offer_inv d o d' : dec_wf d -> DirectOffer_read d = (Ok o, d') -> offer_typed o /\ took d (offer_bytes o) d'.
Proof.
  intros W R. unfold DirectOffer_read in R. dbind R as u d1 K1. apply role_inv in K1; [|done]. minv. dbind R as h d2 K2. apply header_inv in K2 as (K2 & TH & _); [|done]. minv.
  dbind R as x3 d3 K3. dbind R as x4 d4 K4. dbind R as x5 d5 K5. dbind R as x6 d6 K6. dbind R as x7 d7 K7. dbind R as x8 d8 K8. dbind R as x9 d9 K9. dbind R as x10 d10 K10.
  apply dec_ret_Ok in R as (<- & ->). minv. split; [by split_and!|]. unfold offer_bytes, offer_unsigned.
  cbn [do_header do_swap_session_id do_settlement_public_key do_offered_asset do_offered_amount do_received_asset do_received_amount do_offer_id do_signature].
  rewrite <- !app_assoc. took_chain.
Qed.

Lemma offer_bytes_len o : offer_typed o -> len (offer_bytes o) = 347.
Proof.
  intros (H & L1 & L2 & A1 & U1 & A2 & U2 & L3 & L4). unfold offer_bytes, offer_unsigned. rewrite !len_app, !len_to_le_bytes, (signed_header_len _ H), L1, L2, L3, L4, !asset_bytes_len. done.
Qed.

(** An offer's bytes and the offer determine each other. *)
Lemma offer_decode_Ok inp o : DirectOffer_decode inp = Ok o <-> offer_typed o /\ offer_valid o /\ inp = offer_bytes o.
Proof.
  unfold DirectOffer_decode, direct_check_input. rewrite (message_decode DirectOffer_read _ offer_bytes offer_typed offer_valid).
  - split; [by intros (? & ? & ? & _)|]. intros (T & V & ->). split_and!; try done. by rewrite (offer_bytes_len _ T).
  - done.
  - exact offer_inv.
  - exact offer_reads.
  - intros m x T. rewrite check3_Ok, <- (offer_checks m T). split; [naive_solver|]. intros (-> & I & S). split_and!; try done. by apply bind_Ok in I as ([] & ? & _).
Qed.
Lemma offer_encode_Ok o bs : offer_typed o -> DirectOffer_encode o = Ok bs <-> offer_valid o /\ bs = offer_bytes o.
Proof.
  intros T. unfold DirectOffer_encode. rewrite <- (offer_checks o T). split.
  - intros H. apply bind_Ok in H as ([] & I & H). apply bind_Ok in H as ([] & S & H). split; [done|]. apply bind_Ok in H as (e & E & H%ensure_size_Ok).
    apply bind_Ok in E as (un & (_ & ->)%offer_unsigned_Ok & [= <-]); [|done]. destruct H as (-> & _). unfold into_bytes. autorewrite with market_bytes. cbn [bytes Encoder_new]. by rewrite <- !app_assoc.
  - intros ((I & S) & ->). rewrite I, S. cbn [mbind result_bind]. assert (DirectOffer_encode_unsigned o = Ok (offer_unsigned o)) as -> by (apply offer_unsigned_Ok; [done|]; split; [by apply bind_Ok in I as ([] & ? & _)|done]).
    sized. split; [done|]. fold (offer_bytes o). by rewrite (offer_bytes_len _ T).
Qed.

Definition cancellation_bytes (c : DirectOfferCancellation) : list byte := cancellation_unsigned c ++ oc_signature c.
Definition acceptance_bytes (a : DirectOfferAcceptance) : list byte := acceptance_unsigned a ++ oa_signature a.
Lemma cancellation_decode_Ok inp c : cancellation_decode inp = Ok c <-> cancellation_typed c /\ cancellation_valid c /\ inp = cancellation_bytes c.
Proof.
  unfold cancellation_decode, direct_check_input. rewrite (message_decode cancellation_read _ cancellation_bytes cancellation_typed cancellation_valid).
  - split; [by intros (? & ? & ? & _)|]. intros (T & V & ->). split_and!; try done. destruct T as (H & L1 & _ & L2). unfold cancellation_bytes, cancellation_unsigned.
    by rewrite !len_app, !len_to_le_bytes, (signed_header_len _ H), L1, L2.
  - done.
  - intros d m d' W R. unfold cancellation_read in R. dbind R as u d1 K1. apply role_inv in K1; [|done]. minv. dbind R as h d2 K2. apply header_inv in K2 as (K2 & TH & _); [|done]. minv.
    dbind R as x3 d3 K3. dbind R as x4 d4 K4. dbind R as x5 d5 K5. apply dec_ret_Ok in R as (<- & ->). minv. split; [done|]. unfold cancellation_bytes, cancellation_unsigned.
    cbn [oc_header oc_offer_id oc_offer_sequence oc_signature]. rewrite <- !app_assoc. took_chain.
  - intros d m (H & L1 & U & L2) (V & _). unfold cancellation_read, cancellation_bytes, cancellation_unsigned. rewrite <- !app_assoc. eapply reads_bind; [apply role_reads|].
    eapply reads_bind; [apply signed_header_reads; [done|by apply bind_Ok in V as ([] & ? & _)]|]. do 2 mstep. eapply reads_last; [mread|]. destruct m. apply reads_ret.
  - intros m x T. rewrite check2_Ok, <- (cancellation_checks m T). split; [naive_solver|]. intros (-> & S). split_and!; try done. by apply (cancellation_checks m T) in S as (? & _).
Qed.
Lemma acceptance_decode_Ok inp a : acceptance_decode inp = Ok a <-> acceptance_typed a /\ acceptance_valid a /\ inp = acceptance_bytes a.
Proof.
  unfold acceptance_decode, direct_check_input. rewrite (message_decode acceptance_read _ acceptance_bytes acceptance_typed acceptance_valid).
  - split; [by intros (? & ? & ? & _)|]. intros (T & V & ->). split_and!; try done. destruct T as (H & L1 & L2 & L3 & L4). unfold acceptance_bytes, acceptance_unsigned.
    by rewrite !len_app, (signed_header_len _ H), L1, L2, L3, L4.
  - done.
  - intros d m d' W R. unfold acceptance_read in R. dbind R as u d1 K1. apply role_inv in K1; [|done]. minv. dbind R as h d2 K2. apply header_inv in K2 as (K2 & TH & _); [|done]. minv.
    dbind R as x3 d3 K3. dbind R as x4 d4 K4. dbind R as x5 d5 K5. dbind R as x6 d6 K6. apply dec_ret_Ok in R as (<- & ->). minv. split; [done|]. unfold acceptance_bytes, acceptance_unsigned.
    cbn [oa_header oa_offer_id oa_swap_session_id oa_maker_settlement_public_key oa_signature]. rewrite <- !app_assoc. took_chain.
  - intros d m (H & L1 & L2 & L3 & L4) (V & _). unfold acceptance_read, acceptance_bytes, acceptance_unsigned. rewrite <- !app_assoc. eapply reads_bind; [apply role_reads|].
    eapply reads_bind; [apply signed_header_reads; [done|by apply bind_Ok in V as ([] & ? & _)]|]. do 3 mstep. eapply reads_last; [mread|]. destruct m. apply reads_ret.
  - intros m x T. rewrite check2_Ok, <- (acceptance_checks m T). split; [naive_solver|]. intros (-> & S). split_and!; try done. by apply (acceptance_checks m T) in S as (? & _).
Qed.

(** Both signed encoders write the unsigned bytes and the signature. *)
Lemma direct_signed_Ok unsigned signature bs : len unsigned + len signature <= MAX_DIRECT_OFFER_SIZE ->
  direct_encode_signed unsigned signature = Ok bs <-> bs = unsigned ++ signature.
Proof. intros L. unfold direct_encode_signed. sized. rewrite len_app. naive_solver. Qed.
Lemma cancellation_encode_Ok c bs : cancellation_typed c -> cancellation_encode c = Ok bs <-> cancellation_valid c /\ bs = cancellation_bytes c.
Proof.
  intros T. pose proof T as (H & L1 & _ & L2). assert (len (cancellation_unsigned c) + len (oc_signature c) <= MAX_DIRECT_OFFER_SIZE) as L.
  { unfold cancellation_unsigned. by rewrite !len_app, !len_to_le_bytes, (signed_header_len _ H), L1, L2. }
  unfold cancellation_encode. rewrite <- (cancellation_checks c T). split.
  - intros X. apply bind_Ok in X as ([] & S & X). apply bind_Ok in X as (un & (_ & ->)%cancellation_unsigned_Ok & X%direct_signed_Ok); done.
  - intros (S & ->). rewrite S. cbn [mbind result_bind]. apply bind_Ok. exists (cancellation_unsigned c).
    split; [apply cancellation_unsigned_Ok; [done|]; split; [by apply (cancellation_checks c T) in S as (? & _)|done]|by apply direct_signed_Ok].
Qed.
Lemma acceptance_encode_Ok a bs : acceptance_typed a -> acceptance_encode a = Ok bs <-> acceptance_valid a /\ bs = acceptance_bytes a.
Proof.
  intros T. pose proof T as (H & L1 & L2 & L3 & L4). assert (len (acceptance_unsigned a) + len (oa_signature a) <= MAX_DIRECT_OFFER_SIZE) as L.
  { unfold acceptance_unsigned. by rewrite !len_app, (signed_header_len _ H), L1, L2, L3, L4. }
  unfold acceptance_encode. rewrite <- (acceptance_checks a T). split.
  - intros X. apply bind_Ok in X as ([] & S & X). apply bind_Ok in X as (un & (_ & ->)%acceptance_unsigned_Ok & X%direct_signed_Ok); done.
  - intros (S & ->). rewrite S. cbn [mbind result_bind]. apply bind_Ok. exists (acceptance_unsigned a).
    split; [apply acceptance_unsigned_Ok; [done|]; split; [by apply (acceptance_checks a T) in S as (? & _)|done]|by apply direct_signed_Ok].
Qed.

Lemma offer_codec inp o : DirectOffer_decode inp = Ok o <-> offer_typed o /\ DirectOffer_encode o = Ok inp.
Proof. rewrite offer_decode_Ok. split; [intros (T & V & ->); split; [done|by apply offer_encode_Ok]|]. by intros (T & (V & ->)%offer_encode_Ok). Qed.
Lemma offer_cancellation_codec inp c : cancellation_decode inp = Ok c <-> cancellation_typed c /\ cancellation_encode c = Ok inp.
Proof. rewrite cancellation_decode_Ok. split; [intros (T & V & ->); split; [done|by apply cancellation_encode_Ok]|]. by intros (T & (V & ->)%cancellation_encode_Ok). Qed.
Lemma offer_acceptance_codec inp a : acceptance_decode inp = Ok a <-> acceptance_typed a /\ acceptance_encode a = Ok inp.
Proof. rewrite acceptance_decode_Ok. split; [intros (T & V & ->); split; [done|by apply acceptance_encode_Ok]|]. by intros (T & (V & ->)%acceptance_encode_Ok). Qed.

(** *** Signing *)
Context {KL : K256Laws KC} {DL : KeyCodecLaws KC KD}.

Lemma market_sign_Ok domain bs key private_key signature :
  market_sign domain bs key private_key = Ok signature -> market_signed key domain bs signature /\ len signature = 64.
Proof.
  unfold market_sign. intros H. apply bind_Ok in H as (sk & _ & H). apply bind_Ok in H as (? & K%assert_or_Ok%bool_decide_eq_true & H).
  apply bind_Ok in H as (s & S%ok_or_Ok & [= <-]). destruct (low_s_ok KL _ _ _ S) as (L & C & Hi & V). rewrite K in V. split; [|done].
  split; [rewrite <- K; apply verifying_key_ok|]. done.
Qed.
Lemma bind_signer_Ok h private_key u h' : bind_signer h private_key = (Ok u, h') ->
  exists sk, signing_key_from_bytes private_key = Some sk /\ h' = with_signer h (verifying_key sk) /\ header_validate h' = Ok tt.
Proof.
  unfold bind_signer, market_public_key, market_signing_key. destruct (signing_key_from_bytes private_key) as [sk|]; [|done]. cbn [ok_or mbind result_bind].
  rewrite compressed_size. cbn [Z.eqb Pos.eqb assert_or mbind result_bind]. destruct (_ && _); [done|]. intros [= V <-]. destruct u. by exists sk.
Qed.
Lemma signed_header_keeps h sk : signed_header_typed h -> signed_header_typed (with_signer h (verifying_key sk)).
Proof. intros (U1 & N & P & _ & U). split; [done|]. split; [done|]. split; [done|]. split; [apply compressed_size|done]. Qed.

Lemma offer_sign_valid o private_key o' :
  offer_typed o -> DirectOffer_sign o private_key = (Ok tt, o') -> do_offer_id o' <> zeros 32 -> offer_typed o' /\ offer_valid o'.
Proof.
  intros To So Nz.
  unfold DirectOffer_sign in So. destruct (bind_signer _ _) as [[u|] h] eqn:B; [|done]. apply bind_signer_Ok in B as (sk & _ & -> & Vh).
  unfold DirectOffer_refresh_id in So. set (o1 := offer_with o _ _ _) in So. assert (offer_typed o1) as T1 by (destruct To as (H & T); split; [by apply signed_header_keeps|done]).
  destruct (DirectOffer_encode_unsigned o1) as [un|] eqn:U; [|done]. apply offer_unsigned_Ok in U as (V1 & ->); [|done].
  set (o2 := offer_with o1 _ _ _) in So. assert (offer_typed o2) as T2.
  { destruct T1 as (H & X1 & X2 & X3 & X4 & X5 & X6 & _ & X8). split_and!; try done. unfold o2, offer_with, market_hash, len. cbn. by rewrite blake2b_length. }
  destruct (_ ≫= _) as [s|] eqn:S; [|done]. injection So as <-. apply bind_Ok in S as (sb & Sb & (S & L)%market_sign_Ok). apply bind_Ok in Sb as (un & (V2 & ->)%offer_unsigned_Ok & [= <-]); [|done].
  split; [|split_and!; try done; split; apply S]. destruct T2 as (H & X1 & X2 & X3 & X4 & X5 & X6 & X7 & _). by split_and!.
Qed.
Lemma cancellation_sign_valid c private_key c' : cancellation_typed c -> cancellation_sign c private_key = (Ok tt, c') -> cancellation_typed c' /\ cancellation_valid c'.
Proof.
  intros Tc Sc.
  unfold cancellation_sign in Sc. destruct (bind_signer _ _) as [[u|] h] eqn:B; [|done]. apply bind_signer_Ok in B as (sk & _ & -> & Vh). cbn [mbind result_bind] in Sc.
  set (c1 := mkOfferCancellation _ _ _ _) in Sc. assert (cancellation_typed c1) as T1 by (destruct Tc as (H & T); split; [by apply signed_header_keeps|done]).
  destruct (_ ≫= _) as [s|] eqn:S; [|done]. injection Sc as <-. apply bind_Ok in S as (un & (V & ->)%cancellation_unsigned_Ok & (S & L)%market_sign_Ok); [|done].
  split; [|split; [done|exact S]]. destruct T1 as (X1 & X2 & X3 & _). by split_and!.
Qed.
Lemma acceptance_sign_valid a private_key a' : acceptance_typed a -> acceptance_sign a private_key = (Ok tt, a') -> acceptance_typed a' /\ acceptance_valid a'.
Proof.
  intros Ta Sa.
  unfold acceptance_sign in Sa. destruct (bind_signer _ _) as [[u|] h] eqn:B; [|done]. apply bind_signer_Ok in B as (sk & _ & -> & Vh). cbn [mbind result_bind] in Sa.
  set (a1 := mkAcceptance _ _ _ _ _) in Sa. assert (acceptance_typed a1) as T1 by (destruct Ta as (H & T); split; [by apply signed_header_keeps|done]).
  destruct (_ ≫= _) as [s|] eqn:S; [|done]. injection Sa as <-. apply bind_Ok in S as (un & (V & ->)%acceptance_unsigned_Ok & (S & L)%market_sign_Ok); [|done].
  split; [|split; [done|exact S]]. destruct T1 as (X1 & X2 & X3 & X4 & _). by split_and!.
Qed.

(** What a signer produces verifies: a signed offer, cancellation or acceptance has
    every check of its verifier behind it. The signer does not exclude an offer whose
    identifier hashes to zero, the verifier refuses it. *)
Theorem direct_signing_verifies o c a private_key o' c' a' :
  offer_typed o -> cancellation_typed c -> acceptance_typed a ->
  DirectOffer_sign o private_key = (Ok tt, o') -> cancellation_sign c private_key = (Ok tt, c') -> acceptance_sign a private_key = (Ok tt, a') ->
  do_offer_id o' <> zeros 32 ->
  (exists bs, DirectOffer_encode o' = Ok bs /\ DirectOffer_decode bs = Ok o') /\
  (exists bs, cancellation_encode c' = Ok bs /\ cancellation_decode bs = Ok c') /\
  (exists bs, acceptance_encode a' = Ok bs /\ acceptance_decode bs = Ok a') /\
  (forall now, sh_created_at (do_header o') <= now < sh_expires_at (do_header o') -> DirectOffer_verify_at o' (sh_network (do_header o')) now = Ok tt).
Proof.
  intros To Tc Ta So Sc Sa Nz. destruct (offer_sign_valid _ _ _ To So Nz) as (To' & Vo). destruct (cancellation_sign_valid _ _ _ Tc Sc) as (Tc' & Vc).
  destruct (acceptance_sign_valid _ _ _ Ta Sa) as (Ta' & Va).
  split_and!.
  - exists (offer_bytes o'). split; [by apply offer_encode_Ok|by apply offer_decode_Ok].
  - exists (cancellation_bytes c'). split; [by apply cancellation_encode_Ok|by apply cancellation_decode_Ok].
  - exists (acceptance_bytes a'). split; [by apply acceptance_encode_Ok|by apply acceptance_decode_Ok].
  - intros now (T1 & T2). pose proof Vo as (V & _). unfold DirectOffer_verify_at. apply (offer_checks o' To') in Vo as (I & S). rewrite I, S.
    unfold header_validate_at. rewrite (validate_header_of _ V). cbn [mbind result_bind]. rewrite bool_decide_eq_true_2 by done. by rewrite (proj2 (Z.leb_le _ _)), (proj2 (Z.ltb_lt _ _)).
Qed.
End direct_codec.
