(* ===== verification/MarketSwap.v ===== *)
(** * hns-marketplace-protocol: swap sessions

    Models [crates/hns-marketplace-protocol/src/swap.rs]: settlement deadlines, the
    session hello both parties sign, the maker's proposal before the taker has signed,
    the native HTLC bound into it, and the readiness, funding, redeem and refund
    statuses of a session. A proposal is the hello it wraps. *)

From S2P Require Import Prelude Encoding Primitives Covenants NameState Transaction Script Interpreter K256 Swap SwapAuction Htlc Envelope Market.
Local Open Scope Z_scope.

Definition MAX_SWAP_MESSAGE_SIZE : Z := 8 * 1024.
Definition MAX_SETTLEMENT_UNIX_TIME : Z := 0x7fffffff.
Definition SESSION_HELLO_MAKER_SIGNATURE_DOMAIN : list byte := bstr "HNS-MARKET-SWAP-SESSION-HELLO-MAKER-V1" ++ [x00].
Definition SESSION_HELLO_TAKER_SIGNATURE_DOMAIN : list byte := bstr "HNS-MARKET-SWAP-SESSION-HELLO-TAKER-V1" ++ [x00].
Definition FUNDING_STATUS_SIGNATURE_DOMAIN : list byte := bstr "HNS-MARKET-SWAP-FUNDING-STATUS-V1" ++ [x00].
Definition REDEEM_STATUS_SIGNATURE_DOMAIN : list byte := bstr "HNS-MARKET-SWAP-REDEEM-STATUS-V1" ++ [x00].
Definition REFUND_STATUS_SIGNATURE_DOMAIN : list byte := bstr "HNS-MARKET-SWAP-REFUND-STATUS-V1" ++ [x00].
Definition WATCH_READY_SIGNATURE_DOMAIN : list byte := bstr "HNS-MARKET-SWAP-WATCH-READY-V1" ++ [x00].

(** ** Deadlines *)
Inductive DeadlineKind := BlockHeight | UnixTime.
#[global] Instance DeadlineKind_eq_dec : EqDecision DeadlineKind.
Proof. solve_decision. Defined.
Definition deadline_kind_byte (k : DeadlineKind) : byte := match k with BlockHeight => x01 | UnixTime => x02 end.
Definition DeadlineKind_try_from (value : byte) : result MarketplaceError DeadlineKind :=
  if b2z value =? 1 then Ok BlockHeight else if b2z value =? 2 then Ok UnixTime else Err (MkInvalid "unknown settlement deadline kind").

Record SettlementDeadline := mkDeadline { sd_kind : DeadlineKind; sd_value : Z }.
#[global] Instance SettlementDeadline_eq_dec : EqDecision SettlementDeadline.
Proof. solve_decision. Defined.
Definition SettlementDeadline_validate (d : SettlementDeadline) : result MarketplaceError unit :=
  assert_or (negb ((sd_value d =? 0) || (bool_decide (sd_kind d = BlockHeight) && (u32_max <? sd_value d)) ||
                   (bool_decide (sd_kind d = UnixTime) && (MAX_SETTLEMENT_UNIX_TIME <? sd_value d))))
    (MkInvalid "invalid settlement deadline").
Definition SettlementDeadline_encode_to (e : Encoder) (d : SettlementDeadline) : Encoder :=
  let e := put_u8 e (deadline_kind_byte (sd_kind d)) in put_u64_le e (sd_value d).
Definition SettlementDeadline_decode_from : decM MarketplaceError SettlementDeadline :=
  kind ← lift_err MkDecode read_u8;
  kind ← lift_res (DeadlineKind_try_from kind);
  value ← lift_err MkDecode read_u64_le;
  let deadline := mkDeadline kind value in
  lift_res (SettlementDeadline_validate deadline) ;;
  mret deadline.
Definition SettlementDeadline_encode (d : SettlementDeadline) : result MarketplaceError (list byte) :=
  SettlementDeadline_validate d ;; Ok (into_bytes (SettlementDeadline_encode_to (with_capacity 9) d)).
Definition SettlementDeadline_decode (inp : list byte) : result MarketplaceError SettlementDeadline := run_all MkDecode SettlementDeadline_decode_from inp.

Definition hns_refund_time_lock (d : SettlementDeadline) : result MarketplaceError HsdTimeLock :=
  SettlementDeadline_validate d ;;
  assert_or (bool_decide (sd_kind d = UnixTime)) (MkInvalid "native HNS HTLC refunds require a Unix deadline") ;;
  map_err MkSwap (encode_time_lock_not_before (sd_value d)).

Inductive SwapAssetSide := SideOffered | SideReceived.

(** ** The session hello *)
Record SwapSessionHello := mkHello {
  hl_header : SignedObjectHeader;
  hl_direct_offer_id : list byte;
  hl_swap_session_id : list byte;
  hl_maker_key : list byte;
  hl_taker_key : list byte;
  hl_offered_asset : AssetId;
  hl_offered_amount : Z;
  hl_received_asset : AssetId;
  hl_received_amount : Z;
  hl_hashlock : list byte;
  hl_first_funding_chain : Z;
  hl_offered_lock_commitment : list byte;
  hl_offered_refund_deadline : SettlementDeadline;
  hl_offered_minimum_confirmations : Z;
  hl_received_lock_commitment : list byte;
  hl_received_refund_deadline : SettlementDeadline;
  hl_received_minimum_confirmations : Z;
  hl_maker_signature : list byte;
  hl_taker_signature : list byte;
}.
#[global] Instance SwapSessionHello_eq_dec : EqDecision SwapSessionHello.
Proof. solve_decision. Defined.

(** A hello with some of the fields its methods assign. *)
Definition hello_with (h : SwapSessionHello) (maker_key offered_lock received_lock maker_signature taker_signature : list byte) : SwapSessionHello :=
  mkHello (hl_header h) (hl_direct_offer_id h) (hl_swap_session_id h) maker_key (hl_taker_key h) (hl_offered_asset h) (hl_offered_amount h)
    (hl_received_asset h) (hl_received_amount h) (hl_hashlock h) (hl_first_funding_chain h) offered_lock (hl_offered_refund_deadline h)
    (hl_offered_minimum_confirmations h) received_lock (hl_received_refund_deadline h) (hl_received_minimum_confirmations h) maker_signature taker_signature.
Definition with_maker_key (h : SwapSessionHello) (key : list byte) : SwapSessionHello :=
  hello_with h key (hl_offered_lock_commitment h) (hl_received_lock_commitment h) (hl_maker_signature h) (hl_taker_signature h).
Definition with_signatures (h : SwapSessionHello) (maker taker : list byte) : SwapSessionHello :=
  hello_with h (hl_maker_key h) (hl_offered_lock_commitment h) (hl_received_lock_commitment h) maker taker.

#[global] Instance HnsHtlc_eq_dec : EqDecision HnsHtlc.
Proof. solve_decision. Defined.

Record HnsHtlcSessionBinding := mkSessionBinding {
  hb_descriptor : HnsHtlc;
  hb_descriptor_hash : list byte;
  hb_promised_refund_unix_time : Z;
  hb_effective_refund_unix_time : Z;
}.

Definition hns_side_terms (h : SwapSessionHello) (side : SwapAssetSide) : AssetId * Z * SettlementDeadline :=
  match side with
  | SideOffered => (hl_offered_asset h, hl_offered_amount h, hl_offered_refund_deadline h)
  | SideReceived => (hl_received_asset h, hl_received_amount h, hl_received_refund_deadline h)
  end.
Definition funding_authority (h : SwapSessionHello) (chain : Z) : result MarketplaceError (list byte) :=
  if chain =? ai_chain (hl_offered_asset h) then Ok (hl_maker_key h)
  else if chain =? ai_chain (hl_received_asset h) then Ok (hl_taker_key h)
  else Err (MkInvalid "settlement chain is outside the swap session").
Definition redeem_authority (h : SwapSessionHello) (chain : Z) : result MarketplaceError (list byte) :=
  if chain =? ai_chain (hl_received_asset h) then Ok (hl_maker_key h)
  else if chain =? ai_chain (hl_offered_asset h) then Ok (hl_taker_key h)
  else Err (MkInvalid "settlement chain is outside the swap session").

Definition swap_check_input (inp : list byte) : result MarketplaceError unit :=
  assert_or (len inp <=? MAX_SWAP_MESSAGE_SIZE) (MkTooLarge (len inp) MAX_SWAP_MESSAGE_SIZE).
Definition pair_contains_chain (h : SignedObjectHeader) (chain : Z) : bool :=
  (ai_chain (mp_base (sh_pair h)) =? chain) || (ai_chain (mp_quote (sh_pair h)) =? chain).

Section hello.
Context {CR : Crypto} {KC : K256} {KD : KeyCodec KC}.

Definition hello_validate_fields (h : SwapSessionHello) : result MarketplaceError unit :=
  header_validate (hl_header h) ;;
  market_validate_public_key (hl_maker_key h) ;;
  market_validate_public_key (hl_taker_key h) ;;
  SettlementDeadline_validate (hl_offered_refund_deadline h) ;;
  SettlementDeadline_validate (hl_received_refund_deadline h) ;;
  let signer := sh_signer_public_key (hl_header h) in
  assert_or (negb (bool_decide (signer = hl_maker_key h) || bool_decide (signer = hl_taker_key h) || bool_decide (hl_maker_key h = hl_taker_key h) ||
                   bool_decide (hl_direct_offer_id h = zeros 32) || bool_decide (hl_swap_session_id h = zeros 32) || bool_decide (hl_hashlock h = zeros 32) ||
                   bool_decide (hl_offered_lock_commitment h = zeros 32) || bool_decide (hl_received_lock_commitment h = zeros 32) ||
                   (hl_offered_minimum_confirmations h =? 0) || (hl_received_minimum_confirmations h =? 0) ||
                   (hl_offered_amount h =? 0) || (hl_received_amount h =? 0) || bool_decide (hl_offered_asset h = hl_received_asset h) ||
                   negb (MarketPair_contains (sh_pair (hl_header h)) (hl_offered_asset h)) ||
                   negb (MarketPair_contains (sh_pair (hl_header h)) (hl_received_asset h)) ||
                   negb (hl_first_funding_chain h =? ai_chain (hl_offered_asset h)) ||
                   negb (bool_decide (sd_kind (hl_offered_refund_deadline h) = UnixTime)) ||
                   negb (bool_decide (sd_kind (hl_received_refund_deadline h) = UnixTime)) ||
                   (sd_value (hl_offered_refund_deadline h) <=? sd_value (hl_received_refund_deadline h)) ||
                   (sd_value (hl_received_refund_deadline h) <? sh_expires_at (hl_header h))))
    (MkInvalid "invalid swap session hello").

Definition hello_encode_unsigned (h : SwapSessionHello) : result MarketplaceError (list byte) :=
  hello_validate_fields h ;;
  encode_fixed_versioned (MAX_SWAP_MESSAGE_SIZE - 128) (fun e =>
    let e := header_encode_to e (hl_header h) in
    let e := put_bytes e (hl_direct_offer_id h) in
    let e := put_bytes e (hl_swap_session_id h) in
    let e := put_bytes e (hl_maker_key h) in
    let e := put_bytes e (hl_taker_key h) in
    let e := AssetId_encode_to e (hl_offered_asset h) in
    let e := AssetAmount_encode_to e (hl_offered_amount h) in
    let e := AssetId_encode_to e (hl_received_asset h) in
    let e := AssetAmount_encode_to e (hl_received_amount h) in
    let e := put_bytes e (hl_hashlock h) in
    let e := ChainId_encode_to e (hl_first_funding_chain h) in
    let e := put_bytes e (hl_offered_lock_commitment h) in
    let e := SettlementDeadline_encode_to e (hl_offered_refund_deadline h) in
    let e := put_u32_le e (hl_offered_minimum_confirmations h) in
    let e := put_bytes e (hl_received_lock_commitment h) in
    let e := SettlementDeadline_encode_to e (hl_received_refund_deadline h) in
    Ok (put_u32_le e (hl_received_minimum_confirmations h))).

Definition verify_maker_signature (h : SwapSessionHello) : result MarketplaceError unit :=
  unsigned ← hello_encode_unsigned h;
  market_verify SESSION_HELLO_MAKER_SIGNATURE_DOMAIN unsigned (hl_maker_signature h) (hl_maker_key h).
Definition hello_verify_signatures (h : SwapSessionHello) : result MarketplaceError unit :=
  verify_maker_signature h ;;
  unsigned ← hello_encode_unsigned h;
  market_verify SESSION_HELLO_TAKER_SIGNATURE_DOMAIN unsigned (hl_taker_signature h) (hl_taker_key h).

Definition sign_maker (h : SwapSessionHello) (private_key : list byte) : result MarketplaceError unit * SwapSessionHello :=
  match market_public_key private_key with
  | Err e => (Err e, h)
  | Ok public_key =>
    if negb (bool_decide (hl_maker_key h = zeros 33)) && negb (bool_decide (hl_maker_key h = public_key)) then (Err MkSigningKeyMismatch, h)
    else
      let h := with_maker_key h public_key in
      match hello_validate_fields h ;; unsigned ← hello_encode_unsigned h;
            market_sign SESSION_HELLO_MAKER_SIGNATURE_DOMAIN unsigned (hl_maker_key h) private_key with
      | Ok signature => (Ok tt, with_signatures h signature (hl_taker_signature h))
      | Err e => (Err e, h)
      end
  end.
Definition accept_taker (h : SwapSessionHello) (private_key : list byte) : result MarketplaceError unit * SwapSessionHello :=
  match public_key ← market_public_key private_key;
        assert_or (bool_decide (hl_taker_key h = public_key)) MkSigningKeyMismatch ;;
        hello_validate_fields h ;;
        verify_maker_signature h ;;
        unsigned ← hello_encode_unsigned h;
        market_sign SESSION_HELLO_TAKER_SIGNATURE_DOMAIN unsigned (hl_taker_key h) private_key with
  | Ok signature => (Ok tt, with_signatures h (hl_maker_signature h) signature)
  | Err e => (Err e, h)
  end.

Definition verify_agreement (h : SwapSessionHello) (expected_network : MarketNetwork) : result MarketplaceError unit :=
  hello_validate_fields h ;;
  assert_or (bool_decide (sh_network (hl_header h) = expected_network)) MkNetworkMismatch ;;
  hello_verify_signatures h.
Definition hello_verify_at (h : SwapSessionHello) (expected_network : MarketNetwork) (now : Z) : result MarketplaceError unit :=
  verify_agreement h expected_network ;;
  assert_or (now <? sd_value (hl_received_refund_deadline h)) (MkExpired (sd_value (hl_received_refund_deadline h)) now) ;;
  header_validate_at (hl_header h) expected_network now.
Definition verify_maker_proposal_at (h : SwapSessionHello) (expected_network : MarketNetwork) (now : Z) : result MarketplaceError unit :=
  hello_validate_fields h ;;
  assert_or (bool_decide (sh_network (hl_header h) = expected_network)) MkNetworkMismatch ;;
  assert_or (now <? sd_value (hl_received_refund_deadline h)) (MkExpired (sd_value (hl_received_refund_deadline h)) now) ;;
  header_validate_at (hl_header h) expected_network now ;;
  verify_maker_signature h.
Definition verify_new_funding_at (h : SwapSessionHello) (expected_network : MarketNetwork) (now : Z) : result MarketplaceError unit :=
  hello_verify_at h expected_network now.

(** The hello is the accepted offer seen from the maker's side. *)
Definition binds_acceptance (h : SwapSessionHello) (offer : DirectOffer) (acceptance : DirectOfferAcceptance) : bool :=
  let role_binding_invalid :=
    negb (bool_decide (sh_signer_public_key (hl_header h) = sh_signer_public_key (oa_header acceptance))) ||
    negb (bool_decide (hl_maker_key h = oa_maker_settlement_public_key acceptance)) ||
    negb (bool_decide (hl_taker_key h = do_settlement_public_key offer)) ||
    negb (bool_decide (hl_offered_asset h = do_received_asset offer)) || negb (bool_decide (hl_received_asset h = do_offered_asset offer)) ||
    negb (hl_offered_amount h =? do_received_amount offer) || negb (hl_received_amount h =? do_offered_amount offer) ||
    (sh_sequence (hl_header h) <=? sh_sequence (oa_header acceptance)) in
  negb (role_binding_invalid || negb (bool_decide (hl_direct_offer_id h = do_offer_id offer)) ||
        negb (bool_decide (hl_swap_session_id h = do_swap_session_id offer)) || negb (bool_decide (hl_swap_session_id h = oa_swap_session_id acceptance)) ||
        negb (bool_decide (sh_network (hl_header h) = sh_network (do_header offer))) || negb (bool_decide (sh_pair (hl_header h) = sh_pair (do_header offer))) ||
        (sh_created_at (hl_header h) <? sh_created_at (oa_header acceptance)) || (sh_expires_at (oa_header acceptance) <? sh_expires_at (hl_header h))).
Definition verify_terms_for_direct_offer (h : SwapSessionHello) (offer : DirectOffer) (acceptance : DirectOfferAcceptance) (expected_network : MarketNetwork) (now : Z)
    : result MarketplaceError MarketNetwork :=
  DirectOffer_verify_at offer expected_network now ;;
  acceptance_verify_for_offer acceptance offer expected_network now ;;
  assert_or (binds_acceptance h offer acceptance) (MkInvalid "swap session hello does not bind its direct-offer acceptance") ;;
  Ok expected_network.
Definition hello_verify_for_direct_offer (h : SwapSessionHello) (offer : DirectOffer) (acceptance : DirectOfferAcceptance) (expected_network : MarketNetwork) (now : Z)
    : result MarketplaceError unit :=
  expected_network ← verify_terms_for_direct_offer h offer acceptance expected_network now;
  hello_verify_at h expected_network now.

(** *** The native HTLC of one side *)
Definition build_hns_htlc (h : SwapSessionHello) (side : SwapAssetSide) (receiver_public_key refund_public_key : list byte)
    : result MarketplaceError HnsHtlcSessionBinding :=
  header_validate (hl_header h) ;;
  assert_or (negb (bool_decide (hl_hashlock h = zeros 32))) (MkInvalid "zero SHA-256 hashlock") ;;
  let '(asset, amount, deadline) := hns_side_terms h side in
  assert_or (bool_decide (asset = ASSET_HNS)) (MkInvalid "selected swap side is not native HNS") ;;
  assert_or (amount <=? u64_max) (MkInvalid "native HNS amount exceeds the exact u64 range") ;;
  assert_or (negb (amount =? 0)) (MkInvalid "native HNS amount is zero") ;;
  time_lock ← hns_refund_time_lock deadline;
  let descriptor := mkHtlc (mkBinding (mn_hns_magic (sh_network (hl_header h))) (mn_hns_genesis (sh_network (hl_header h)))) amount (hl_hashlock h)
                      receiver_public_key refund_public_key (tl_encoded time_lock) in
  map_err MkSwap (HnsHtlc_validate descriptor) ;;
  hash ← map_err MkSwap (HnsHtlc_descriptor_hash descriptor);
  Ok (mkSessionBinding descriptor hash (sd_value deadline) (tl_effective_time_seconds time_lock)).
Definition build_and_bind_hns_htlc (h : SwapSessionHello) (side : SwapAssetSide) (receiver_public_key refund_public_key : list byte)
    : result MarketplaceError HnsHtlcSessionBinding * SwapSessionHello :=
  match build_hns_htlc h side receiver_public_key refund_public_key with
  | Err e => (Err e, h)
  | Ok binding =>
    (Ok binding, match side with
                 | SideOffered => hello_with h (hl_maker_key h) (hb_descriptor_hash binding) (hl_received_lock_commitment h) (hl_maker_signature h) (hl_taker_signature h)
                 | SideReceived => hello_with h (hl_maker_key h) (hl_offered_lock_commitment h) (hb_descriptor_hash binding) (hl_maker_signature h) (hl_taker_signature h)
                 end)
  end.
Definition lock_commitment (h : SwapSessionHello) (side : SwapAssetSide) : list byte :=
  match side with SideOffered => hl_offered_lock_commitment h | SideReceived => hl_received_lock_commitment h end.
Definition verify_hns_htlc (h : SwapSessionHello) (side : SwapAssetSide) (descriptor : HnsHtlc) : result MarketplaceError HnsHtlcSessionBinding :=
  hello_verify_signatures h ;;
  expected ← build_hns_htlc h side (ht_receiver_public_key descriptor) (ht_refund_public_key descriptor);
  assert_or (negb (negb (bool_decide (descriptor = hb_descriptor expected)) || negb (bool_decide (lock_commitment h side = hb_descriptor_hash expected))))
    (MkInvalid "native HNS HTLC differs from the swap session") ;;
  Ok expected.

(** *** Codec *)
Definition hello_read_unsigned : decM MarketplaceError SwapSessionHello :=
  header ← header_decode_from;
  direct_offer_id ← lift_err MkDecode (read_array 32);
  swap_session_id ← lift_err MkDecode (read_array 32);
  maker_key ← lift_err MkDecode (read_array 33);
  taker_key ← lift_err MkDecode (read_array 33);
  offered_asset ← AssetId_decode_from;
  offered_amount ← AssetAmount_decode_from;
  received_asset ← AssetId_decode_from;
  received_amount ← AssetAmount_decode_from;
  hashlock ← lift_err MkDecode (read_array 32);
  first_funding_chain ← ChainId_decode_from;
  offered_lock_commitment ← lift_err MkDecode (read_array 32);
  offered_refund_deadline ← SettlementDeadline_decode_from;
  offered_minimum_confirmations ← lift_err MkDecode read_u32_le;
  received_lock_commitment ← lift_err MkDecode (read_array 32);
  received_refund_deadline ← SettlementDeadline_decode_from;
  received_minimum_confirmations ← lift_err MkDecode read_u32_le;
  let message := mkHello header direct_offer_id swap_session_id maker_key taker_key offered_asset offered_amount received_asset received_amount hashlock
                   first_funding_chain offered_lock_commitment offered_refund_deadline offered_minimum_confirmations received_lock_commitment
                   received_refund_deadline received_minimum_confirmations (zeros 64) (zeros 64) in
  lift_res (hello_validate_fields message) ;;
  mret message.
Definition hello_read : decM MarketplaceError SwapSessionHello :=
  message ← hello_read_unsigned;
  maker_signature ← lift_err MkDecode (read_array 64);
  taker_signature ← lift_err MkDecode (read_array 64);
  mret (with_signatures message maker_signature taker_signature).
Definition hello_encode (h : SwapSessionHello) : result MarketplaceError (list byte) :=
  hello_verify_signatures h ;;
  encode_fixed_versioned MAX_SWAP_MESSAGE_SIZE (fun e =>
    unsigned ← hello_encode_unsigned h;
    let e := put_bytes e unsigned in
    let e := put_bytes e (hl_maker_signature h) in
    Ok (put_bytes e (hl_taker_signature h))).
Definition hello_decode (inp : list byte) : result MarketplaceError SwapSessionHello :=
  swap_check_input inp ;;
  message ← run_all MkDecode hello_read inp;
  hello_validate_fields message ;;
  hello_verify_signatures message ;;
  Ok message.

(** ** The maker's proposal *)
Definition from_maker_signed (h : SwapSessionHello) : result MarketplaceError SwapSessionHello :=
  assert_or (bool_decide (hl_taker_signature h = zeros 64)) (MkInvalid "swap session proposal already has a taker signature") ;;
  hello_validate_fields h ;;
  verify_maker_signature h ;;
  Ok h.
Definition into_maker_proposal (h : SwapSessionHello) (private_key : list byte) : result MarketplaceError SwapSessionHello :=
  let h := with_signatures h (hl_maker_signature h) (zeros 64) in
  let '(r, h) := sign_maker h private_key in
  r ;; from_maker_signed h.
Definition proposal_verify_at (p : SwapSessionHello) (expected_network : MarketNetwork) (now : Z) : result MarketplaceError unit :=
  verify_maker_proposal_at p expected_network now.
Definition proposal_verify_for_direct_offer (p : SwapSessionHello) (offer : DirectOffer) (acceptance : DirectOfferAcceptance) (expected_network : MarketNetwork) (now : Z)
    : result MarketplaceError unit :=
  expected_network ← verify_terms_for_direct_offer p offer acceptance expected_network now;
  proposal_verify_at p expected_network now.
Definition proposal_accept_taker (p : SwapSessionHello) (expected_network : MarketNetwork) (now : Z) (private_key : list byte)
    : result MarketplaceError SwapSessionHello :=
  proposal_verify_at p expected_network now ;;
  let '(r, h) := accept_taker p private_key in
  r ;; hello_verify_signatures h ;; Ok h.
Definition proposal_encode (p : SwapSessionHello) : result MarketplaceError (list byte) :=
  hello_validate_fields p ;;
  assert_or (bool_decide (hl_taker_signature p = zeros 64)) (MkInvalid "swap session proposal already has a taker signature") ;;
  verify_maker_signature p ;;
  encode_fixed_versioned MAX_SWAP_MESSAGE_SIZE (fun e =>
    unsigned ← hello_encode_unsigned p;
    let e := put_bytes e unsigned in
    Ok (put_bytes e (hl_maker_signature p))).
Definition proposal_read : decM MarketplaceError SwapSessionHello :=
  hello ← hello_read_unsigned;
  maker_signature ← lift_err MkDecode (read_array 64);
  mret (with_signatures hello maker_signature (hl_taker_signature hello)).
Definition proposal_decode (inp : list byte) : result MarketplaceError SwapSessionHello :=
  swap_check_input inp ;;
  hello ← run_all MkDecode proposal_read inp;
  from_maker_signed hello.
End hello.

(** ** Statuses *)
Inductive SettlementState := StBroadcast | StSeen | StConfirmed | StReorged.
#[global] Instance SettlementState_eq_dec : EqDecision SettlementState.
Proof. solve_decision. Defined.
Definition state_byte (s : SettlementState) : byte := match s with StBroadcast => x01 | StSeen => x02 | StConfirmed => x03 | StReorged => x04 end.
Definition state_try_from (what : string) (value : byte) : result MarketplaceError SettlementState :=
  if b2z value =? 1 then Ok StBroadcast else if b2z value =? 2 then Ok StSeen else if b2z value =? 3 then Ok StConfirmed
  else if b2z value =? 4 then Ok StReorged else Err (MkInvalid what).
Definition FundingState_try_from := state_try_from "unknown funding state".
Definition RedeemState_try_from := state_try_from "unknown redeem state".
Definition RefundState_try_from := state_try_from "unknown refund state".

Record SwapWatchReady := mkWatchReady {
  wr_header : SignedObjectHeader;
  wr_swap_session_id : list byte;
  wr_chain : Z;
  wr_lock_commitment : list byte;
  wr_minimum_confirmations : Z;
  wr_signature : list byte;
}.
Record SwapFundingStatus := mkFunding {
  fs_header : SignedObjectHeader;
  fs_swap_session_id : list byte;
  fs_chain : Z;
  fs_lock_commitment : list byte;
  fs_transaction_id : list byte;
  fs_output_index : Z;
  fs_amount : Z;
  fs_confirmations : Z;
  fs_state : SettlementState;
  fs_signature : list byte;
}.
Record SwapRedeemStatus := mkRedeem {
  rd_header : SignedObjectHeader;
  rd_swap_session_id : list byte;
  rd_chain : Z;
  rd_transaction_id : list byte;
  rd_preimage_hash : list byte;
  rd_confirmations : Z;
  rd_state : SettlementState;
  rd_signature : list byte;
}.
Record SwapRefundStatus := mkRefund {
  rf_header : SignedObjectHeader;
  rf_swap_session_id : list byte;
  rf_chain : Z;
  rf_transaction_id : list byte;
  rf_confirmations : Z;
  rf_state : SettlementState;
  rf_signature : list byte;
}.

Definition swap_encode_signed (unsigned signature : list byte) (verify : result MarketplaceError unit) : result MarketplaceError (list byte) :=
  verify ;;
  encode_fixed_versioned MAX_SWAP_MESSAGE_SIZE (fun e => let e := put_bytes e unsigned in Ok (put_bytes e signature)).

Section statuses.
Context {CR : Crypto} {KC : K256} {KD : KeyCodec KC}.

Definition verify_status_session (header : SignedObjectHeader) (swap_session_id : list byte) (h : SwapSessionHello) (expected_network : MarketNetwork)
    (expected_authority : list byte) : result MarketplaceError unit :=
  verify_agreement h expected_network ;;
  assert_or (negb (negb (bool_decide (swap_session_id = hl_swap_session_id h)) || negb (bool_decide (sh_network header = sh_network (hl_header h))) ||
                   negb (bool_decide (sh_pair header = sh_pair (hl_header h))) || negb (bool_decide (sh_signer_public_key header = expected_authority)) ||
                   (sh_sequence header <=? sh_sequence (hl_header h)) || (sh_created_at header <? sh_created_at (hl_header h))))
    (MkInvalid "swap status does not bind its session hello").
Definition verify_status (header : SignedObjectHeader) (domain unsigned signature : list byte) : result MarketplaceError unit :=
  market_verify domain unsigned signature (sh_signer_public_key header).

(** Signing a status sets the signer of its header, then the signature. *)
Definition status_sign {M} (header : M -> SignedObjectHeader) (put : M -> SignedObjectHeader -> list byte -> M) (signature : M -> list byte)
    (domain : list byte) (encode_unsigned : M -> result MarketplaceError (list byte)) (m : M) (private_key : list byte) : result MarketplaceError unit * M :=
  let '(r, h) := bind_signer (header m) private_key in
  let m := put m h (signature m) in
  match r ;; unsigned ← encode_unsigned m; market_sign domain unsigned (sh_signer_public_key (header m)) private_key with
  | Ok s => (Ok tt, put m h s)
  | Err e => (Err e, m)
  end.

(** *** Watch readiness *)
Definition ready_validate_fields (m : SwapWatchReady) : result MarketplaceError unit :=
  header_validate (wr_header m) ;;
  assert_or (negb (bool_decide (wr_swap_session_id m = zeros 32) || bool_decide (wr_lock_commitment m = zeros 32) ||
                   (wr_minimum_confirmations m =? 0) || negb (pair_contains_chain (wr_header m) (wr_chain m))))
    (MkInvalid "invalid swap watch readiness").
Definition ready_encode_unsigned (m : SwapWatchReady) : result MarketplaceError (list byte) :=
  ready_validate_fields m ;;
  encode_fixed_versioned (MAX_SWAP_MESSAGE_SIZE - 64) (fun e =>
    let e := header_encode_to e (wr_header m) in
    let e := put_bytes e (wr_swap_session_id m) in
    let e := ChainId_encode_to e (wr_chain m) in
    let e := put_bytes e (wr_lock_commitment m) in
    Ok (put_u32_le e (wr_minimum_confirmations m))).
Definition ready_verify_signature (m : SwapWatchReady) : result MarketplaceError unit :=
  unsigned ← ready_encode_unsigned m;
  verify_status (wr_header m) WATCH_READY_SIGNATURE_DOMAIN unsigned (wr_signature m).
Definition ready_put (m : SwapWatchReady) (h : SignedObjectHeader) (signature : list byte) : SwapWatchReady :=
  mkWatchReady h (wr_swap_session_id m) (wr_chain m) (wr_lock_commitment m) (wr_minimum_confirmations m) signature.
Definition ready_sign := status_sign wr_header ready_put wr_signature WATCH_READY_SIGNATURE_DOMAIN ready_encode_unsigned.
Definition ready_verify_for_session (m : SwapWatchReady) (h : SwapSessionHello) (expected_network : MarketNetwork) (now : Z) : result MarketplaceError unit :=
  authority ← redeem_authority h (wr_chain m);
  verify_status_session (wr_header m) (wr_swap_session_id m) h expected_network authority ;;
  expected ← (if wr_chain m =? ai_chain (hl_offered_asset h) then Ok (hl_offered_lock_commitment h, hl_offered_minimum_confirmations h)
              else if wr_chain m =? ai_chain (hl_received_asset h) then Ok (hl_received_lock_commitment h, hl_received_minimum_confirmations h)
              else Err (MkInvalid "watch-ready chain is outside the swap session"));
  assert_or (negb (negb (bool_decide (wr_lock_commitment m = expected.1)) || negb (wr_minimum_confirmations m =? expected.2)))
    (MkInvalid "watch-ready policy differs from the swap session") ;;
  header_validate_at (wr_header m) expected_network now ;;
  ready_verify_signature m.
Definition ready_encode (m : SwapWatchReady) : result MarketplaceError (list byte) :=
  unsigned ← ready_encode_unsigned m;
  swap_encode_signed unsigned (wr_signature m) (ready_verify_signature m).
Definition ready_read : decM MarketplaceError SwapWatchReady :=
  header ← header_decode_from;
  swap_session_id ← lift_err MkDecode (read_array 32);
  chain ← ChainId_decode_from;
  lock_commitment ← lift_err MkDecode (read_array 32);
  minimum_confirmations ← lift_err MkDecode read_u32_le;
  signature ← lift_err MkDecode (read_array 64);
  mret (mkWatchReady header swap_session_id chain lock_commitment minimum_confirmations signature).
Definition ready_decode (inp : list byte) : result MarketplaceError SwapWatchReady :=
  swap_check_input inp ;;
  m ← run_all MkDecode ready_read inp;
  ready_validate_fields m ;;
  ready_verify_signature m ;;
  Ok m.

(** *** Funding *)
Definition funding_validate_fields (m : SwapFundingStatus) : result MarketplaceError unit :=
  header_validate (fs_header m) ;;
  let confirmed := bool_decide (fs_state m = StConfirmed) in
  assert_or (negb (bool_decide (fs_swap_session_id m = zeros 32) || bool_decide (fs_transaction_id m = zeros 32) || bool_decide (fs_lock_commitment m = zeros 32) ||
                   (fs_amount m =? 0) || negb (pair_contains_chain (fs_header m) (fs_chain m)) ||
                   ((fs_chain m =? ETHEREUM) && negb (fs_output_index m =? 0)) || negb (Bool.eqb confirmed (0 <? fs_confirmations m))))
    (MkInvalid "invalid swap funding status").
Definition funding_encode_unsigned (m : SwapFundingStatus) : result MarketplaceError (list byte) :=
  funding_validate_fields m ;;
  encode_fixed_versioned (MAX_SWAP_MESSAGE_SIZE - 64) (fun e =>
    let e := header_encode_to e (fs_header m) in
    let e := put_bytes e (fs_swap_session_id m) in
    let e := ChainId_encode_to e (fs_chain m) in
    let e := put_bytes e (fs_lock_commitment m) in
    let e := put_bytes e (fs_transaction_id m) in
    let e := put_u32_le e (fs_output_index m) in
    let e := AssetAmount_encode_to e (fs_amount m) in
    let e := put_u32_le e (fs_confirmations m) in
    Ok (put_u8 e (state_byte (fs_state m)))).
Definition funding_verify_signature (m : SwapFundingStatus) : result MarketplaceError unit :=
  unsigned ← funding_encode_unsigned m;
  verify_status (fs_header m) FUNDING_STATUS_SIGNATURE_DOMAIN unsigned (fs_signature m).
Definition funding_put (m : SwapFundingStatus) (h : SignedObjectHeader) (signature : list byte) : SwapFundingStatus :=
  mkFunding h (fs_swap_session_id m) (fs_chain m) (fs_lock_commitment m) (fs_transaction_id m) (fs_output_index m) (fs_amount m) (fs_confirmations m) (fs_state m) signature.
Definition funding_sign := status_sign fs_header funding_put fs_signature FUNDING_STATUS_SIGNATURE_DOMAIN funding_encode_unsigned.
Definition funding_verify_at (m : SwapFundingStatus) (expected_network : MarketNetwork) (now : Z) : result MarketplaceError unit :=
  header_validate_at (fs_header m) expected_network now ;; funding_verify_signature m.
Definition funding_verify_for_session (m : SwapFundingStatus) (h : SwapSessionHello) (expected_network : MarketNetwork) (now : Z) : result MarketplaceError unit :=
  expected_authority ← funding_authority h (fs_chain m);
  verify_status_session (fs_header m) (fs_swap_session_id m) h expected_network expected_authority ;;
  expected_amount ← (if fs_chain m =? ai_chain (hl_offered_asset h) then Ok (hl_offered_amount h)
                     else if fs_chain m =? ai_chain (hl_received_asset h) then Ok (hl_received_amount h)
                     else Err (MkInvalid "funding status chain is outside the swap session"));
  assert_or (fs_amount m =? expected_amount) (MkInvalid "funding status amount differs from the swap session") ;;
  let expected_commitment := if fs_chain m =? ai_chain (hl_offered_asset h) then hl_offered_lock_commitment h else hl_received_lock_commitment h in
  assert_or (bool_decide (fs_lock_commitment m = expected_commitment)) (MkInvalid "funding status lock differs from the swap session") ;;
  let minimum_confirmations :=
    if fs_chain m =? ai_chain (hl_offered_asset h) then hl_offered_minimum_confirmations h else hl_received_minimum_confirmations h in
  assert_or (negb (bool_decide (fs_state m = StConfirmed) && (fs_confirmations m <? minimum_confirmations)))
    (MkInvalid "confirmed funding status is below the frozen confirmation minimum") ;;
  funding_verify_at m expected_network now.
Definition funding_encode (m : SwapFundingStatus) : result MarketplaceError (list byte) :=
  unsigned ← funding_encode_unsigned m;
  swap_encode_signed unsigned (fs_signature m) (funding_verify_signature m).
Definition funding_read : decM MarketplaceError SwapFundingStatus :=
  header ← header_decode_from;
  swap_session_id ← lift_err MkDecode (read_array 32);
  chain ← ChainId_decode_from;
  lock_commitment ← lift_err MkDecode (read_array 32);
  transaction_id ← lift_err MkDecode (read_array 32);
  output_index ← lift_err MkDecode read_u32_le;
  amount ← AssetAmount_decode_from;
  confirmations ← lift_err MkDecode read_u32_le;
  state ← lift_err MkDecode read_u8;
  state ← lift_res (FundingState_try_from state);
  signature ← lift_err MkDecode (read_array 64);
  mret (mkFunding header swap_session_id chain lock_commitment transaction_id output_index amount confirmations state signature).
Definition funding_decode (inp : list byte) : result MarketplaceError SwapFundingStatus :=
  swap_check_input inp ;;
  m ← run_all MkDecode funding_read inp;
  funding_validate_fields m ;;
  funding_verify_signature m ;;
  Ok m.

(** *** Redeems *)
Definition redeem_validate_fields (m : SwapRedeemStatus) : result MarketplaceError unit :=
  header_validate (rd_header m) ;;
  let confirmed := bool_decide (rd_state m = StConfirmed) in
  assert_or (negb (bool_decide (rd_swap_session_id m = zeros 32) || bool_decide (rd_transaction_id m = zeros 32) || bool_decide (rd_preimage_hash m = zeros 32) ||
                   negb (pair_contains_chain (rd_header m) (rd_chain m)) || negb (Bool.eqb confirmed (0 <? rd_confirmations m))))
    (MkInvalid "invalid swap redeem status").
Definition redeem_encode_unsigned (m : SwapRedeemStatus) : result MarketplaceError (list byte) :=
  redeem_validate_fields m ;;
  encode_fixed_versioned (MAX_SWAP_MESSAGE_SIZE - 64) (fun e =>
    let e := header_encode_to e (rd_header m) in
    let e := put_bytes e (rd_swap_session_id m) in
    let e := ChainId_encode_to e (rd_chain m) in
    let e := put_bytes e (rd_transaction_id m) in
    let e := put_bytes e (rd_preimage_hash m) in
    let e := put_u32_le e (rd_confirmations m) in
    Ok (put_u8 e (state_byte (rd_state m)))).
Definition redeem_verify_signature (m : SwapRedeemStatus) : result MarketplaceError unit :=
  unsigned ← redeem_encode_unsigned m;
  verify_status (rd_header m) REDEEM_STATUS_SIGNATURE_DOMAIN unsigned (rd_signature m).
Definition redeem_put (m : SwapRedeemStatus) (h : SignedObjectHeader) (signature : list byte) : SwapRedeemStatus :=
  mkRedeem h (rd_swap_session_id m) (rd_chain m) (rd_transaction_id m) (rd_preimage_hash m) (rd_confirmations m) (rd_state m) signature.
Definition redeem_sign := status_sign rd_header redeem_put rd_signature REDEEM_STATUS_SIGNATURE_DOMAIN redeem_encode_unsigned.
Definition redeem_verify_at (m : SwapRedeemStatus) (expected_network : MarketNetwork) (now : Z) : result MarketplaceError unit :=
  header_validate_at (rd_header m) expected_network now ;; redeem_verify_signature m.
Definition redeem_verify_for_session (m : SwapRedeemStatus) (h : SwapSessionHello) (expected_network : MarketNetwork) (now : Z) : result MarketplaceError unit :=
  expected_authority ← redeem_authority h (rd_chain m);
  verify_status_session (rd_header m) (rd_swap_session_id m) h expected_network expected_authority ;;
  assert_or (bool_decide (rd_preimage_hash m = hl_hashlock h)) (MkInvalid "redeem status hashlock differs from the swap session") ;;
  redeem_verify_at m expected_network now.
Definition redeem_encode (m : SwapRedeemStatus) : result MarketplaceError (list byte) :=
  unsigned ← redeem_encode_unsigned m;
  swap_encode_signed unsigned (rd_signature m) (redeem_verify_signature m).
Definition redeem_read : decM MarketplaceError SwapRedeemStatus :=
  header ← header_decode_from;
  swap_session_id ← lift_err MkDecode (read_array 32);
  chain ← ChainId_decode_from;
  transaction_id ← lift_err MkDecode (read_array 32);
  preimage_hash ← lift_err MkDecode (read_array 32);
  confirmations ← lift_err MkDecode read_u32_le;
  state ← lift_err MkDecode read_u8;
  state ← lift_res (RedeemState_try_from state);
  signature ← lift_err MkDecode (read_array 64);
  mret (mkRedeem header swap_session_id chain transaction_id preimage_hash confirmations state signature).
Definition redeem_decode (inp : list byte) : result MarketplaceError SwapRedeemStatus :=
  swap_check_input inp ;;
  m ← run_all MkDecode redeem_read inp;
  redeem_validate_fields m ;;
  redeem_verify_signature m ;;
  Ok m.

(** *** Refunds *)
Definition refund_validate_fields (m : SwapRefundStatus) : result MarketplaceError unit :=
  header_validate (rf_header m) ;;
  let confirmed := bool_decide (rf_state m = StConfirmed) in
  assert_or (negb (bool_decide (rf_swap_session_id m = zeros 32) || bool_decide (rf_transaction_id m = zeros 32) ||
                   negb (pair_contains_chain (rf_header m) (rf_chain m)) || negb (Bool.eqb confirmed (0 <? rf_confirmations m))))
    (MkInvalid "invalid swap refund status").
Definition refund_encode_unsigned (m : SwapRefundStatus) : result MarketplaceError (list byte) :=
  refund_validate_fields m ;;
  encode_fixed_versioned (MAX_SWAP_MESSAGE_SIZE - 64) (fun e =>
    let e := header_encode_to e (rf_header m) in
    let e := put_bytes e (rf_swap_session_id m) in
    let e := ChainId_encode_to e (rf_chain m) in
    let e := put_bytes e (rf_transaction_id m) in
    let e := put_u32_le e (rf_confirmations m) in
    Ok (put_u8 e (state_byte (rf_state m)))).
Definition refund_verify_signature (m : SwapRefundStatus) : result MarketplaceError unit :=
  unsigned ← refund_encode_unsigned m;
  verify_status (rf_header m) REFUND_STATUS_SIGNATURE_DOMAIN unsigned (rf_signature m).
Definition refund_put (m : SwapRefundStatus) (h : SignedObjectHeader) (signature : list byte) : SwapRefundStatus :=
  mkRefund h (rf_swap_session_id m) (rf_chain m) (rf_transaction_id m) (rf_confirmations m) (rf_state m) signature.
Definition refund_sign := status_sign rf_header refund_put rf_signature REFUND_STATUS_SIGNATURE_DOMAIN refund_encode_unsigned.
Definition refund_verify_at (m : SwapRefundStatus) (expected_network : MarketNetwork) (now : Z) : result MarketplaceError unit :=
  header_validate_at (rf_header m) expected_network now ;; refund_verify_signature m.
Definition refund_verify_for_session (m : SwapRefundStatus) (h : SwapSessionHello) (expected_network : MarketNetwork) (now : Z) : result MarketplaceError unit :=
  expected_authority ← funding_authority h (rf_chain m);
  verify_status_session (rf_header m) (rf_swap_session_id m) h expected_network expected_authority ;;
  refund_verify_at m expected_network now.
Definition refund_encode (m : SwapRefundStatus) : result MarketplaceError (list byte) :=
  unsigned ← refund_encode_unsigned m;
  swap_encode_signed unsigned (rf_signature m) (refund_verify_signature m).
Definition refund_read : decM MarketplaceError SwapRefundStatus :=
  header ← header_decode_from;
  swap_session_id ← lift_err MkDecode (read_array 32);
  chain ← ChainId_decode_from;
  transaction_id ← lift_err MkDecode (read_array 32);
  confirmations ← lift_err MkDecode read_u32_le;
  state ← lift_err MkDecode read_u8;
  state ← lift_res (RefundState_try_from state);
  signature ← lift_err MkDecode (read_array 64);
  mret (mkRefund header swap_session_id chain transaction_id confirmations state signature).
Definition refund_decode (inp : list byte) : result MarketplaceError SwapRefundStatus :=
  swap_check_input inp ;;
  m ← run_all MkDecode refund_read inp;
  refund_validate_fields m ;;
  refund_verify_signature m ;;
  Ok m.
End statuses.

(** ** Terms *)
Definition deadline_ok (d : SettlementDeadline) : Prop :=
  sd_value d <> 0 /\ (sd_kind d = BlockHeight -> sd_value d <= u32_max) /\ (sd_kind d = UnixTime -> sd_value d <= MAX_SETTLEMENT_UNIX_TIME).
Lemma deadline_validate_Ok d : SettlementDeadline_validate d = Ok tt <-> deadline_ok d.
Proof.
  unfold SettlementDeadline_validate, deadline_ok. rewrite assert_or_Ok, negb_true_iff, !orb_false_iff, Z.eqb_neq, !andb_false_iff, !Z.ltb_ge, !bool_decide_eq_false.
  destruct d as [[|] v]; cbn; naive_solver.
Qed.

(** The complete terms of a swap: three different keys, both assets of the pair, the
    maker's side funded first and refundable only after the taker's. *)
Record session_terms {KC : K256} (h : SwapSessionHello) : Prop := {
  sx_header : header_validate (hl_header h) = Ok tt;
  sx_maker : sec1_key_ok (hl_maker_key h) = true;
  sx_taker : sec1_key_ok (hl_taker_key h) = true;
  sx_signer_maker : sh_signer_public_key (hl_header h) <> hl_maker_key h;
  sx_signer_taker : sh_signer_public_key (hl_header h) <> hl_taker_key h;
  sx_maker_taker : hl_maker_key h <> hl_taker_key h;
  sx_offer : hl_direct_offer_id h <> zeros 32;
  sx_session : hl_swap_session_id h <> zeros 32;
  sx_hashlock : hl_hashlock h <> zeros 32;
  sx_offered_lock : hl_offered_lock_commitment h <> zeros 32;
  sx_received_lock : hl_received_lock_commitment h <> zeros 32;
  sx_confirmations : hl_offered_minimum_confirmations h <> 0 /\ hl_received_minimum_confirmations h <> 0;
  sx_amounts : hl_offered_amount h <> 0 /\ hl_received_amount h <> 0;
  sx_assets : hl_offered_asset h <> hl_received_asset h;
  sx_offered_pair : hl_offered_asset h = mp_base (sh_pair (hl_header h)) \/ hl_offered_asset h = mp_quote (sh_pair (hl_header h));
  sx_received_pair : hl_received_asset h = mp_base (sh_pair (hl_header h)) \/ hl_received_asset h = mp_quote (sh_pair (hl_header h));
  sx_first : hl_first_funding_chain h = ai_chain (hl_offered_asset h);
  sx_unix : sd_kind (hl_offered_refund_deadline h) = UnixTime /\ sd_kind (hl_received_refund_deadline h) = UnixTime;
  sx_latest : sd_value (hl_offered_refund_deadline h) <= MAX_SETTLEMENT_UNIX_TIME;
  sx_order : sd_value (hl_received_refund_deadline h) <> 0 /\ sd_value (hl_offered_refund_deadline h) <> 0 /\
    sd_value (hl_received_refund_deadline h) < sd_value (hl_offered_refund_deadline h);
  sx_window : sh_expires_at (hl_header h) <= sd_value (hl_received_refund_deadline h);
}.

Section terms.
Context {CR : Crypto} {KC : K256} {KD : KeyCodec KC}.

Lemma contains_Ok p a : MarketPair_contains p a = true <-> a = mp_base p \/ a = mp_quote p.
Proof. unfold MarketPair_contains. rewrite orb_true_iff, !bool_decide_eq_true. naive_solver. Qed.

Lemma hello_validate_Ok h : hello_validate_fields h = Ok tt <-> session_terms h.
Proof.
  unfold hello_validate_fields, market_validate_public_key. cbv zeta. split.
  - intros H. apply bind_Ok in H as ([] & V & H). apply bind_Ok in H as (? & K1%assert_or_Ok & H). apply bind_Ok in H as (? & K2%assert_or_Ok & H).
    apply bind_Ok in H as ([] & D1%deadline_validate_Ok & H). apply bind_Ok in H as ([] & D2%deadline_validate_Ok & H%assert_or_Ok).
    rewrite negb_true_iff, !orb_false_iff, !negb_false_iff, !Z.eqb_neq, Z.leb_gt, Z.ltb_ge in H.
    destruct H as (((((((((((((((((((B1 & B2) & B3) & B4) & B5) & B6) & B7) & B8) & B9) & B10) & B11) & B12) & B13) & B14) & B15) & B16) & B17) & B18) & B19) & B20).
    apply bool_decide_eq_false in B1, B2, B3, B4, B5, B6, B7, B8, B13. apply bool_decide_eq_true in B17, B18. apply contains_Ok in B14, B15. apply Z.eqb_eq in B16.
    destruct D1 as (Z1 & _ & M1), D2 as (Z2 & _ & M2). constructor; try done. by apply M1.
  - intros []. apply bind_Ok. exists tt. split; [done|]. apply bind_Ok. exists tt. split; [by apply assert_or_Ok|]. apply bind_Ok. exists tt. split; [by apply assert_or_Ok|].
    destruct sx_unix0 as (X1 & X2). apply bind_Ok. exists tt. split; [apply deadline_validate_Ok; repeat split; try lia; intros E; rewrite E in X1; done|].
    apply bind_Ok. exists tt. split; [apply deadline_validate_Ok; repeat split; try lia; intros E; rewrite E in X2; done|]. apply assert_or_Ok.
    rewrite negb_true_iff, !orb_false_iff, !negb_false_iff, !Z.eqb_neq, Z.leb_gt, Z.ltb_ge.
    rewrite !bool_decide_eq_false, !bool_decide_eq_true, !contains_Ok, Z.eqb_eq. destruct sx_confirmations0, sx_amounts0. repeat split; try done; lia.
Qed.
End terms.

(** ** Codecs *)
Definition deadline_bytes (d : SettlementDeadline) : list byte := [deadline_kind_byte (sd_kind d)] ++ to_le_bytes 8 (sd_value d).
Definition hello_unsigned (h : SwapSessionHello) : list byte :=
  signed_header_bytes (hl_header h) ++ hl_direct_offer_id h ++ hl_swap_session_id h ++ hl_maker_key h ++ hl_taker_key h ++ asset_bytes (hl_offered_asset h) ++
  to_le_bytes 16 (hl_offered_amount h) ++ asset_bytes (hl_received_asset h) ++ to_le_bytes 16 (hl_received_amount h) ++ hl_hashlock h ++
  to_le_bytes 2 (hl_first_funding_chain h) ++ hl_offered_lock_commitment h ++ deadline_bytes (hl_offered_refund_deadline h) ++
  to_le_bytes 4 (hl_offered_minimum_confirmations h) ++ hl_received_lock_commitment h ++ deadline_bytes (hl_received_refund_deadline h) ++
  to_le_bytes 4 (hl_received_minimum_confirmations h).
Record hello_typed (h : SwapSessionHello) : Prop := {
  ht_header : signed_header_typed (hl_header h);
  ht_offer : len (hl_direct_offer_id h) = 32;
  ht_session : len (hl_swap_session_id h) = 32;
  ht_maker : len (hl_maker_key h) = 33;
  ht_taker : len (hl_taker_key h) = 33;
  ht_offered : asset_typed (hl_offered_asset h);
  ht_offered_amount : u128 (hl_offered_amount h);
  ht_received : asset_typed (hl_received_asset h);
  ht_received_amount : u128 (hl_received_amount h);
  ht_hash : len (hl_hashlock h) = 32;
  ht_first : u16 (hl_first_funding_chain h);
  ht_offered_lock : len (hl_offered_lock_commitment h) = 32;
  ht_offered_deadline : u64 (sd_value (hl_offered_refund_deadline h));
  ht_offered_conf : u32 (hl_offered_minimum_confirmations h);
  ht_received_lock : len (hl_received_lock_commitment h) = 32;
  ht_received_deadline : u64 (sd_value (hl_received_refund_deadline h));
  ht_received_conf : u32 (hl_received_minimum_confirmations h);
  ht_maker_sig : len (hl_maker_signature h) = 64;
  ht_taker_sig : len (hl_taker_signature h) = 64;
}.

Lemma deadline_encode_bytes e d : bytes (SettlementDeadline_encode_to e d) = bytes e ++ deadline_bytes d.
Proof. unfold SettlementDeadline_encode_to, deadline_bytes. by rewrite bytes_put_u64, bytes_put_u8, <- app_assoc. Qed.
Lemma chain_encode_bytes e c : bytes (ChainId_encode_to e c) = bytes e ++ to_le_bytes 2 c.
Proof. apply bytes_put_u16. Qed.
#[export] Hint Rewrite deadline_encode_bytes chain_encode_bytes : market_bytes.
Lemma deadline_bytes_len d : len (deadline_bytes d) = 9.
Proof. unfold deadline_bytes. by rewrite len_app, len_to_le_bytes. Qed.
Lemma deadline_reads d x : u64 (sd_value x) -> SettlementDeadline_validate x = Ok tt -> reads d SettlementDeadline_decode_from (deadline_bytes x) x.
Proof.
  intros U V. unfold SettlementDeadline_decode_from, deadline_bytes. eapply reads_bind; [apply reads_err, read_u8_reads|].
  eapply (reads_nil_bind _ _ _ _ (sd_kind x)); [apply reads_res; by destruct (sd_kind x)|]. eapply reads_last; [mread|]. cbv zeta. destruct x.
  eapply reads_nil_bind; [by apply reads_res|]. apply reads_ret.
Qed.
Lemma kind_byte b k : DeadlineKind_try_from b = Ok k -> b = deadline_kind_byte k.
Proof.
  unfold DeadlineKind_try_from. destruct (Z.eqb_spec (b2z b) 1) as [E|_]; [intros [= <-]|destruct (Z.eqb_spec (b2z b) 2) as [E|_]; [intros [= <-]|done]]; apply b2z_inj; by rewrite E.
Qed.
Lemma deadline_inv d x d' : dec_wf d -> SettlementDeadline_decode_from d = (Ok x, d') -> took d (deadline_bytes x) d' /\ u64 (sd_value x).
Proof.
  intros W H. unfold SettlementDeadline_decode_from in H. dbind H as b d1 K1. dbind H as k d1' K2. dbind H as v d2 K3. dbind H as u d3 K4. apply dec_ret_Ok in H as (<- & ->).
  apply kind_byte in K2 as ->. minv. split; [|done]. unfold deadline_bytes. cbn [sd_kind sd_value]. took_chain.
Qed.

Section swap_codec.
Context {CR : Crypto} {KC : K256} {KD : KeyCodec KC}.

Lemma hello_unsigned_len h : hello_typed h -> len (hello_unsigned h) = 439.
Proof.
  intros []. unfold hello_unsigned. rewrite !len_app, !len_to_le_bytes, !deadline_bytes_len, !asset_bytes_len, (signed_header_len _ ht_header0).
  rewrite ht_offer0, ht_session0, ht_maker0, ht_taker0, ht_hash0, ht_offered_lock0, ht_received_lock0. done.
Qed.
Lemma hello_unsigned_Ok h bs : hello_typed h -> hello_encode_unsigned h = Ok bs <-> session_terms h /\ bs = hello_unsigned h.
Proof.
  intros T. rewrite <- hello_validate_Ok. unfold hello_encode_unsigned. destruct (hello_validate_fields h) as [[]|]; [|by split; [|intros (? & _)]].
  cbn [mbind result_bind]. sized. fold (hello_unsigned h). rewrite (hello_unsigned_len h T). split; [by intros (-> & _)|]. by intros (_ & ->).
Qed.

Definition maker_signed (h : SwapSessionHello) : Prop :=
  market_signed (hl_maker_key h) SESSION_HELLO_MAKER_SIGNATURE_DOMAIN (hello_unsigned h) (hl_maker_signature h).
Definition taker_signed (h : SwapSessionHello) : Prop :=
  market_signed (hl_taker_key h) SESSION_HELLO_TAKER_SIGNATURE_DOMAIN (hello_unsigned h) (hl_taker_signature h).

Lemma maker_signature_Ok h : hello_typed h -> verify_maker_signature h = Ok tt <-> session_terms h /\ maker_signed h.
Proof.
  intros T. unfold verify_maker_signature. split.
  - intros H. apply bind_Ok in H as (bs & (V & ->)%hello_unsigned_Ok & S%market_verify_Ok); done.
  - intros (V & S). apply bind_Ok. exists (hello_unsigned h). split; [by apply hello_unsigned_Ok|by apply market_verify_Ok].
Qed.
Lemma hello_signatures_Ok h : hello_typed h -> hello_verify_signatures h = Ok tt <-> session_terms h /\ maker_signed h /\ taker_signed h.
Proof.
  intros T. unfold hello_verify_signatures. split.
  - intros H. apply bind_Ok in H as ([] & (V & M)%maker_signature_Ok & H); [|done]. apply bind_Ok in H as (bs & (_ & ->)%hello_unsigned_Ok & S%market_verify_Ok); done.
  - intros (V & M & S). apply bind_Ok. exists tt. split; [by apply maker_signature_Ok|]. apply bind_Ok. exists (hello_unsigned h).
    split; [by apply hello_unsigned_Ok|by apply market_verify_Ok].
Qed.

Lemma terms_chains h : session_terms h -> ai_chain (hl_offered_asset h) <> 0 /\ ai_chain (hl_received_asset h) <> 0.
Proof.
  intros []. apply header_validate_Ok in sx_header0 as (_ & _ & (_ & B & Q)%pair_new_Ok & _). rewrite B in *.
  split; [destruct sx_offered_pair0 as [-> | ->]|destruct sx_received_pair0 as [-> | ->]]; try done; by destruct Q as [-> | ->].
Qed.
Lemma terms_deadlines h : session_terms h ->
  SettlementDeadline_validate (hl_offered_refund_deadline h) = Ok tt /\ SettlementDeadline_validate (hl_received_refund_deadline h) = Ok tt.
Proof. intros H%hello_validate_Ok. apply bind_Ok in H as (? & _ & H). do 2 (apply bind_Ok in H as (? & _ & H)). apply bind_Ok in H as ([] & D1 & H). apply bind_Ok in H as ([] & D2 & _). done. Qed.

(** The unsigned part reads back with empty signatures. *)
Lemma hello_unsigned_reads d h : hello_typed h -> session_terms h -> reads d hello_read_unsigned (hello_unsigned h) (with_signatures h (zeros 64) (zeros 64)).
Proof.
  intros [] V. destruct (terms_chains h V) as (N1 & N2). destruct (terms_deadlines h V) as (D1 & D2). pose proof (sx_first _ V) as F. rewrite F in ht_first0.
  unfold hello_read_unsigned, hello_unsigned. rewrite F. eapply reads_bind; [apply signed_header_reads; [done|apply V]|]. do 11 mstep.
  eapply reads_bind; [by apply deadline_reads|]. do 2 mstep. eapply reads_bind; [by apply deadline_reads|]. eapply reads_last; [mread|]. cbv zeta.
  rewrite <- F. eapply reads_nil_bind; [apply reads_res, hello_validate_Ok; by destruct V|]. apply reads_ret.
Qed.
Lemma hello_unsigned_inv d h d' : dec_wf d -> hello_read_unsigned d = (Ok h, d') ->
  took d (hello_unsigned h) d' /\ hello_typed h /\ session_terms h /\ hl_maker_signature h = zeros 64 /\ hl_taker_signature h = zeros 64.
Proof.
  intros W R. unfold hello_read_unsigned in R. dbind R as x1 d1 K1. apply header_inv in K1 as (K1 & TH & _); [|done]. minv.
  dbind R as x2 d2 K2. dbind R as x3 d3 K3. dbind R as x4 d4 K4. dbind R as x5 d5 K5. dbind R as x6 d6 K6. dbind R as x7 d7 K7. dbind R as x8 d8 K8. dbind R as x9 d9 K9.
  dbind R as x10 d10 K10. dbind R as x11 d11 K11. dbind R as x12 d12 K12. minv. dbind R as x13 d13 K13. apply deadline_inv in K13 as (K13 & U13); [|done]. minv.
  dbind R as x14 d14 K14. dbind R as x15 d15 K15. minv. dbind R as x16 d16 K16. apply deadline_inv in K16 as (K16 & U16); [|done]. minv. dbind R as x17 d17 K17. minv.
  dbind R as u d18 K18. destruct u. apply dec_ret_Ok in R as (<- & ->). split; [|split; [by constructor|]; split; [by apply hello_validate_Ok|done]]. unfold hello_unsigned.
  cbn [hl_header hl_direct_offer_id hl_swap_session_id hl_maker_key hl_taker_key hl_offered_asset hl_offered_amount hl_received_asset hl_received_amount hl_hashlock
    hl_first_funding_chain hl_offered_lock_commitment hl_offered_refund_deadline hl_offered_minimum_confirmations hl_received_lock_commitment hl_received_refund_deadline
    hl_received_minimum_confirmations]. took_chain.
Qed.

(** *** Hellos and proposals *)
Definition hello_bytes (h : SwapSessionHello) : list byte := hello_unsigned h ++ hl_maker_signature h ++ hl_taker_signature h.
Definition proposal_bytes (p : SwapSessionHello) : list byte := hello_unsigned p ++ hl_maker_signature p.
Definition hello_valid (h : SwapSessionHello) : Prop := session_terms h /\ maker_signed h /\ taker_signed h.
Definition proposal_valid (p : SwapSessionHello) : Prop := session_terms p /\ maker_signed p /\ hl_taker_signature p = zeros 64.

Lemma with_signatures_typed h maker taker : hello_typed h -> len maker = 64 -> len taker = 64 -> hello_typed (with_signatures h maker taker).
Proof. intros [] L1 L2. by constructor. Qed.
Lemma with_signatures_terms h maker taker : session_terms h -> session_terms (with_signatures h maker taker).
Proof. intros []. by constructor. Qed.
Lemma with_own_signatures h : with_signatures h (hl_maker_signature h) (hl_taker_signature h) = h.
Proof. by destruct h. Qed.

Lemma session_hello_decode_Ok inp h : hello_decode inp = Ok h <-> hello_typed h /\ hello_valid h /\ inp = hello_bytes h.
Proof.
  unfold hello_decode, swap_check_input. rewrite (message_decode hello_read _ hello_bytes hello_typed hello_valid).
  - split; [by intros (? & ? & ? & _)|]. intros (T & V & ->). split_and!; try done. unfold hello_bytes. by rewrite !len_app, (hello_unsigned_len h T), (ht_maker_sig h T), (ht_taker_sig h T).
  - done.
  - intros d m d' W R. unfold hello_read in R. dbind R as m0 d1 K1. apply hello_unsigned_inv in K1 as (K1 & T & _ & _); [|done]. minv. dbind R as s1 d2 K2. dbind R as s2 d3 K3. minv.
    apply dec_ret_Ok in R as (<- & ->). split; [by apply with_signatures_typed|]. unfold hello_bytes. cbn [with_signatures hello_with hl_maker_signature hl_taker_signature].
    change (hello_unsigned (with_signatures m0 s1 s2)) with (hello_unsigned m0). took_chain.
  - intros d m T (V & _). unfold hello_read, hello_bytes. eapply reads_bind; [by apply hello_unsigned_reads|]. eapply reads_bind; [apply reads_err, read_array_reads, T|].
    eapply reads_last; [apply reads_err, read_array_reads, T|]. destruct m. apply reads_ret.
  - intros m x T. rewrite check2_Ok, hello_validate_Ok, (hello_signatures_Ok m T). unfold hello_valid. naive_solver.
Qed.
Lemma session_hello_encode_Ok h bs : hello_typed h -> hello_encode h = Ok bs <-> hello_valid h /\ bs = hello_bytes h.
Proof.
  intros T. unfold hello_encode, hello_valid. rewrite <- (hello_signatures_Ok h T). split.
  - intros H. apply bind_Ok in H as ([] & S & H). split; [done|]. apply bind_Ok in H as (e & E & (-> & _)%ensure_size_Ok). apply bind_Ok in E as (un & (_ & ->)%hello_unsigned_Ok & [= <-]); [|done].
    unfold into_bytes. autorewrite with market_bytes. cbn [bytes Encoder_new]. by rewrite <- !app_assoc.
  - intros (S & ->). rewrite S. cbn [mbind result_bind]. assert (hello_encode_unsigned h = Ok (hello_unsigned h)) as -> by (apply hello_unsigned_Ok; [done|]; split; [by apply (hello_signatures_Ok h T) in S as (? & _)|done]).
    sized. split; [done|]. by rewrite !len_app, (hello_unsigned_len h T), (ht_maker_sig h T), (ht_taker_sig h T).
Qed.

Lemma proposal_decode_Ok inp p : proposal_decode inp = Ok p <-> hello_typed p /\ proposal_valid p /\ inp = proposal_bytes p.
Proof.
  unfold proposal_decode, swap_check_input. rewrite (message_decode proposal_read _ proposal_bytes hello_typed proposal_valid).
  - split; [by intros (? & ? & ? & _)|]. intros (T & V & ->). split_and!; try done. unfold proposal_bytes. by rewrite !len_app, (hello_unsigned_len p T), (ht_maker_sig p T).
  - done.
  - intros d m d' W R. unfold proposal_read in R. dbind R as m0 d1 K1. apply hello_unsigned_inv in K1 as (K1 & T & _ & _ & Z0); [|done]. minv. dbind R as s1 d2 K2. minv.
    apply dec_ret_Ok in R as (<- & ->). split; [apply with_signatures_typed; try done; by rewrite Z0|]. unfold proposal_bytes. cbn [with_signatures hello_with hl_maker_signature].
    change (hello_unsigned (with_signatures m0 s1 (hl_taker_signature m0))) with (hello_unsigned m0). took_chain.
  - intros d m T (V & _ & Z0). unfold proposal_read, proposal_bytes. eapply reads_bind; [by apply hello_unsigned_reads|]. eapply reads_last; [apply reads_err, read_array_reads, T|].
    cbn [with_signatures hello_with hl_taker_signature]. rewrite <- Z0. destruct m. apply reads_ret.
  - intros m x T. unfold from_maker_signed. rewrite check3_Ok, assert_or_Ok, bool_decide_eq_true, hello_validate_Ok, (maker_signature_Ok m T). unfold proposal_valid. naive_solver.
Qed.
Lemma proposal_encode_Ok p bs : hello_typed p -> proposal_encode p = Ok bs <-> proposal_valid p /\ bs = proposal_bytes p.
Proof.
  intros T. unfold proposal_encode, proposal_valid. split.
  - intros H. apply bind_Ok in H as ([] & V%hello_validate_Ok & H). apply bind_Ok in H as (? & Z0%assert_or_Ok%bool_decide_eq_true & H).
    apply bind_Ok in H as ([] & (_ & S)%maker_signature_Ok & H); [|done]. split; [done|]. apply bind_Ok in H as (e & E & (-> & _)%ensure_size_Ok).
    apply bind_Ok in E as (un & (_ & ->)%hello_unsigned_Ok & [= <-]); [|done]. unfold into_bytes. autorewrite with market_bytes. done.
  - intros ((V & S & Z0) & ->). apply bind_Ok. exists tt. split; [by apply hello_validate_Ok|]. apply bind_Ok. exists tt. split; [by apply assert_or_Ok, bool_decide_eq_true|].
    apply bind_Ok. exists tt. split; [by apply maker_signature_Ok|]. assert (hello_encode_unsigned p = Ok (hello_unsigned p)) as -> by (by apply hello_unsigned_Ok).
    sized. split; [done|]. by rewrite !len_app, (hello_unsigned_len p T), (ht_maker_sig p T).
Qed.

(** *** Statuses *)
Lemma state_byte_of what s : state_try_from what (state_byte s) = Ok s.
Proof. by destruct s. Qed.
Lemma state_of_byte what b s : state_try_from what b = Ok s -> b = state_byte s.
Proof.
  unfold state_try_from. destruct (Z.eqb_spec (b2z b) 1) as [E|_]; [|destruct (Z.eqb_spec (b2z b) 2) as [E|_]; [|destruct (Z.eqb_spec (b2z b) 3) as [E|_];
    [|destruct (Z.eqb_spec (b2z b) 4) as [E|_]; [|done]]]]; intros [= <-]; apply b2z_inj; by rewrite E.
Qed.
Lemma paired_chain h c : header_validate h = Ok tt -> pair_contains_chain h c = true -> c <> 0.
Proof.
  intros (_ & _ & (_ & B & Q)%pair_new_Ok & _)%header_validate_Ok. unfold pair_contains_chain. rewrite B, orb_true_iff, !Z.eqb_eq. intros [<- |<-]; [done|]. by destruct Q as [-> | ->].
Qed.
Lemma swap_signed_Ok unsigned signature verify bs : len unsigned + len signature <= MAX_SWAP_MESSAGE_SIZE ->
  swap_encode_signed unsigned signature verify = Ok bs <-> verify = Ok tt /\ bs = unsigned ++ signature.
Proof.
  intros L. unfold swap_encode_signed. destruct verify as [[]|]; cbn [mbind result_bind]; [|by split; [|intros (? & _)]]. sized. rewrite len_app. naive_solver.
Qed.

(** What the checks, the codec and the signer of the four statuses share. *)
Class StatusMessage (M : Type) := {
  sm_header : M -> SignedObjectHeader;
  sm_signature : M -> list byte;
  sm_put : M -> SignedObjectHeader -> list byte -> M;
  sm_domain : list byte;
  sm_validate : M -> result MarketplaceError unit;
  sm_encode_unsigned : M -> result MarketplaceError (list byte);
  sm_read : decM MarketplaceError M;
  sm_unsigned : M -> list byte;
  sm_typed : M -> Prop;
}.
Class StatusLaws (M : Type) {MS : StatusMessage M} : Prop := {
  sm_unsigned_Ok m bs : sm_typed m -> sm_encode_unsigned m = Ok bs <-> sm_validate m = Ok tt /\ bs = sm_unsigned m;
  sm_small m : sm_typed m -> len (sm_unsigned m) + len (sm_signature m) <= MAX_SWAP_MESSAGE_SIZE;
  sm_validate_header m : sm_validate m = Ok tt -> header_validate (sm_header m) = Ok tt;
  sm_inv d m d' : dec_wf d -> sm_read d = (Ok m, d') -> sm_typed m /\ took d (sm_unsigned m ++ sm_signature m) d';
  sm_reads d m : sm_typed m -> sm_validate m = Ok tt -> reads d sm_read (sm_unsigned m ++ sm_signature m) m;
  sm_put_typed m k s : sm_typed m -> len k = 33 -> len s = 64 -> sm_typed (sm_put m (with_signer (sm_header m) k) s);
  sm_typed_signature m : sm_typed m -> len (sm_signature m) = 64;
  sm_put_header m h s : sm_header (sm_put m h s) = h /\ sm_signature (sm_put m h s) = s;
  sm_put_put m h s s' : sm_put (sm_put m h s) h s' = sm_put m h s';
  sm_put_validate m h s s' : sm_validate (sm_put m h s) = sm_validate (sm_put m h s');
  sm_put_unsigned m h s s' : sm_unsigned (sm_put m h s) = sm_unsigned (sm_put m h s');
}.

Section status.
Context {M : Type} {MS : StatusMessage M} {SL : StatusLaws M}.

Definition status_valid (m : M) : Prop :=
  sm_validate m = Ok tt /\ market_signed (sh_signer_public_key (sm_header m)) sm_domain (sm_unsigned m) (sm_signature m).
Definition status_bytes (m : M) : list byte := sm_unsigned m ++ sm_signature m.
Definition sm_verify_signature (m : M) : result MarketplaceError unit :=
  unsigned ← sm_encode_unsigned m; verify_status (sm_header m) sm_domain unsigned (sm_signature m).
Definition sm_encode (m : M) : result MarketplaceError (list byte) :=
  unsigned ← sm_encode_unsigned m; swap_encode_signed unsigned (sm_signature m) (sm_verify_signature m).
Definition sm_decode (inp : list byte) : result MarketplaceError M :=
  swap_check_input inp ;; m ← run_all MkDecode sm_read inp; sm_validate m ;; sm_verify_signature m ;; Ok m.

Lemma status_verify_Ok m : sm_typed m -> sm_verify_signature m = Ok tt <-> status_valid m.
Proof.
  intros T. unfold sm_verify_signature, verify_status, status_valid. split.
  - intros H. apply bind_Ok in H as (bs & (V & ->)%sm_unsigned_Ok & S%market_verify_Ok); done.
  - intros (V & S). apply bind_Ok. exists (sm_unsigned m). split; [by apply sm_unsigned_Ok|by apply market_verify_Ok].
Qed.
Lemma status_encode_Ok m bs : sm_typed m -> sm_encode m = Ok bs <-> status_valid m /\ bs = status_bytes m.
Proof.
  intros T. unfold sm_encode. pose proof (sm_small m T). split.
  - intros H'. apply bind_Ok in H' as (un & (V & ->)%sm_unsigned_Ok & (S & ->)%swap_signed_Ok); [|done..]. by apply status_verify_Ok in S.
  - intros (V & ->). apply bind_Ok. exists (sm_unsigned m). split; [apply sm_unsigned_Ok; [done|]; by split; [apply V|]|]. apply swap_signed_Ok; [done|].
    split; [by apply status_verify_Ok|done].
Qed.
Lemma status_decode_Ok inp m : sm_decode inp = Ok m <-> sm_typed m /\ status_valid m /\ inp = status_bytes m.
Proof.
  unfold sm_decode, swap_check_input. rewrite (message_decode sm_read _ status_bytes sm_typed status_valid).
  - split; [by intros (? & ? & ? & _)|]. intros (T & V & ->). split_and!; try done. unfold status_bytes. rewrite len_app. by apply sm_small.
  - done.
  - exact sm_inv.
  - intros d m' T (V & _). by apply sm_reads.
  - intros m' x T. rewrite check2_Ok, (status_verify_Ok m' T). unfold status_valid. naive_solver.
Qed.
Lemma status_codec inp m : sm_decode inp = Ok m <-> sm_typed m /\ sm_encode m = Ok inp.
Proof. rewrite status_decode_Ok. split; [intros (T & V & ->); split; [done|by apply status_encode_Ok]|]. by intros (T & (V & ->)%status_encode_Ok). Qed.

Lemma status_sign_valid {KL : K256Laws KC} {DL : KeyCodecLaws KC KD} m private_key m' :
  sm_typed m -> status_sign sm_header sm_put sm_signature sm_domain sm_encode_unsigned m private_key = (Ok tt, m') -> sm_typed m' /\ status_valid m'.
Proof.
  intros T R. unfold status_sign in R. destruct (bind_signer _ _) as [[u|] h] eqn:B; [|done]. apply bind_signer_Ok in B as (sk & _ & -> & Vh). cbn [mbind result_bind] in R.
  set (m1 := sm_put m _ _) in R. assert (sm_typed m1) as T1 by (apply sm_put_typed; [done|apply compressed_size|by apply sm_typed_signature]).
  destruct (_ ≫= _) as [s|] eqn:S; [|done]. injection R as <-. apply bind_Ok in S as (un & (V & ->)%sm_unsigned_Ok & (S & L)%market_sign_Ok); [|done].
  unfold m1 in *. rewrite (proj1 (sm_put_header _ _ _)) in S. rewrite sm_put_put. split; [apply sm_put_typed; [done|apply compressed_size|done]|]. split; [by erewrite sm_put_validate|].
  destruct (sm_put_header m (with_signer (sm_header m) (verifying_key sk)) s) as (-> & ->). by erewrite sm_put_unsigned.
Qed.
End status.

Definition ready_unsigned (m : SwapWatchReady) : list byte :=
  signed_header_bytes (wr_header m) ++ wr_swap_session_id m ++ to_le_bytes 2 (wr_chain m) ++ wr_lock_commitment m ++ to_le_bytes 4 (wr_minimum_confirmations m).
Definition ready_typed (m : SwapWatchReady) : Prop :=
  signed_header_typed (wr_header m) /\ len (wr_swap_session_id m) = 32 /\ u16 (wr_chain m) /\ len (wr_lock_commitment m) = 32 /\ u32 (wr_minimum_confirmations m) /\
  len (wr_signature m) = 64.
Definition funding_unsigned (m : SwapFundingStatus) : list byte :=
  signed_header_bytes (fs_header m) ++ fs_swap_session_id m ++ to_le_bytes 2 (fs_chain m) ++ fs_lock_commitment m ++ fs_transaction_id m ++
  to_le_bytes 4 (fs_output_index m) ++ to_le_bytes 16 (fs_amount m) ++ to_le_bytes 4 (fs_confirmations m) ++ [state_byte (fs_state m)].
Definition funding_typed (m : SwapFundingStatus) : Prop :=
  signed_header_typed (fs_header m) /\ len (fs_swap_session_id m) = 32 /\ u16 (fs_chain m) /\ len (fs_lock_commitment m) = 32 /\ len (fs_transaction_id m) = 32 /\
  u32 (fs_output_index m) /\ u128 (fs_amount m) /\ u32 (fs_confirmations m) /\ len (fs_signature m) = 64.
Definition redeem_unsigned (m : SwapRedeemStatus) : list byte :=
  signed_header_bytes (rd_header m) ++ rd_swap_session_id m ++ to_le_bytes 2 (rd_chain m) ++ rd_transaction_id m ++ rd_preimage_hash m ++
  to_le_bytes 4 (rd_confirmations m) ++ [state_byte (rd_state m)].
Definition redeem_typed (m : SwapRedeemStatus) : Prop :=
  signed_header_typed (rd_header m) /\ len (rd_swap_session_id m) = 32 /\ u16 (rd_chain m) /\ len (rd_transaction_id m) = 32 /\ len (rd_preimage_hash m) = 32 /\
  u32 (rd_confirmations m) /\ len (rd_signature m) = 64.
Definition refund_unsigned (m : SwapRefundStatus) : list byte :=
  signed_header_bytes (rf_header m) ++ rf_swap_session_id m ++ to_le_bytes 2 (rf_chain m) ++ rf_transaction_id m ++ to_le_bytes 4 (rf_confirmations m) ++
  [state_byte (rf_state m)].
Definition refund_typed (m : SwapRefundStatus) : Prop :=
  signed_header_typed (rf_header m) /\ len (rf_swap_session_id m) = 32 /\ u16 (rf_chain m) /\ len (rf_transaction_id m) = 32 /\ u32 (rf_confirmations m) /\
  len (rf_signature m) = 64.

#[global] Instance ready_message : StatusMessage SwapWatchReady :=
  { sm_header := wr_header; sm_signature := wr_signature; sm_put := ready_put; sm_domain := WATCH_READY_SIGNATURE_DOMAIN; sm_validate := ready_validate_fields;
    sm_encode_unsigned := ready_encode_unsigned; sm_read := ready_read; sm_unsigned := ready_unsigned; sm_typed := ready_typed }.
#[global] Instance funding_message : StatusMessage SwapFundingStatus :=
  { sm_header := fs_header; sm_signature := fs_signature; sm_put := funding_put; sm_domain := FUNDING_STATUS_SIGNATURE_DOMAIN; sm_validate := funding_validate_fields;
    sm_encode_unsigned := funding_encode_unsigned; sm_read := funding_read; sm_unsigned := funding_unsigned; sm_typed := funding_typed }.
#[global] Instance redeem_message : StatusMessage SwapRedeemStatus :=
  { sm_header := rd_header; sm_signature := rd_signature; sm_put := redeem_put; sm_domain := REDEEM_STATUS_SIGNATURE_DOMAIN; sm_validate := redeem_validate_fields;
    sm_encode_unsigned := redeem_encode_unsigned; sm_read := redeem_read; sm_unsigned := redeem_unsigned; sm_typed := redeem_typed }.
#[global] Instance refund_message : StatusMessage SwapRefundStatus :=
  { sm_header := rf_header; sm_signature := rf_signature; sm_put := refund_put; sm_domain := REFUND_STATUS_SIGNATURE_DOMAIN; sm_validate := refund_validate_fields;
    sm_encode_unsigned := refund_encode_unsigned; sm_read := refund_read; sm_unsigned := refund_unsigned; sm_typed := refund_typed }.

Lemma ready_chain m : ready_validate_fields m = Ok tt -> header_validate (wr_header m) = Ok tt /\ wr_chain m <> 0.
Proof.
  intros H. apply bind_Ok in H as ([] & V & H%assert_or_Ok). rewrite negb_true_iff, !orb_false_iff, !negb_false_iff in H. split; [done|]. eapply paired_chain; [done|apply H].
Qed.
Lemma funding_chain m : funding_validate_fields m = Ok tt -> header_validate (fs_header m) = Ok tt /\ fs_chain m <> 0.
Proof.
  intros H. apply bind_Ok in H as ([] & V & H%assert_or_Ok). rewrite negb_true_iff, !orb_false_iff, !negb_false_iff in H. split; [done|]. eapply paired_chain; [done|apply H].
Qed.
Lemma redeem_chain m : redeem_validate_fields m = Ok tt -> header_validate (rd_header m) = Ok tt /\ rd_chain m <> 0.
Proof.
  intros H. apply bind_Ok in H as ([] & V & H%assert_or_Ok). rewrite negb_true_iff, !orb_false_iff, !negb_false_iff in H. split; [done|]. eapply paired_chain; [done|apply H].
Qed.
Lemma refund_chain m : refund_validate_fields m = Ok tt -> header_validate (rf_header m) = Ok tt /\ rf_chain m <> 0.
Proof.
  intros H. apply bind_Ok in H as ([] & V & H%assert_or_Ok). rewrite negb_true_iff, !orb_false_iff, !negb_false_iff in H. split; [done|]. eapply paired_chain; [done|apply H].
Qed.

Lemma with_signer_typed h k : signed_header_typed h -> len k = 33 -> signed_header_typed (with_signer h k).
Proof. intros (U1 & N & P & _ & U) L. split; [done|]. split; [done|]. split; [done|]. by split. Qed.
Lemma state_reads d what s : reads d (lift_res (state_try_from what (state_byte s))) [] s.
Proof. apply reads_res, state_byte_of. Qed.

#[global] Instance ready_laws : StatusLaws SwapWatchReady.
Proof.
  assert (forall m, ready_typed m -> len (ready_unsigned m) = 215) as Ln.
  { intros m (H & L1 & _ & L2 & _). unfold ready_unsigned. by rewrite !len_app, !len_to_le_bytes, (signed_header_len _ H), L1, L2. }
  constructor; cbn -[len reads took].
  - intros m bs T. unfold ready_encode_unsigned. destruct (ready_validate_fields m) as [[]|]; cbn [mbind result_bind]; [|by split; [|intros (? & _)]]. sized.
    fold (ready_unsigned m). rewrite (Ln m T). split; [by intros (-> & _)|]. by intros (_ & ->).
  - intros m T. rewrite (Ln m T). destruct T as (_ & _ & _ & _ & _ & ->). done.
  - intros m V. by apply ready_chain.
  - intros d m d' W R. unfold ready_read in R. dbind R as h d1 K1. apply header_inv in K1 as (K1 & TH & _); [|done]. minv. dbind R as x2 d2 K2. dbind R as x3 d3 K3.
    dbind R as x4 d4 K4. dbind R as x5 d5 K5. dbind R as x6 d6 K6. apply dec_ret_Ok in R as (<- & ->). minv. split; [done|]. unfold ready_unsigned.
    cbn [wr_header wr_swap_session_id wr_chain wr_lock_commitment wr_minimum_confirmations wr_signature]. rewrite <- !app_assoc. took_chain.
  - intros d m (TH & L1 & U1 & L2 & U2 & L3) (V & N)%ready_chain. unfold ready_read, ready_unsigned. rewrite <- !app_assoc. eapply reads_bind; [by apply signed_header_reads|].
    do 4 mstep. eapply reads_last; [mread|]. destruct m. apply reads_ret.
  - intros m k s (TH & T) Lk Ls. split; [by apply with_signer_typed|]. destruct T as (? & ? & ? & ? & _). by split_and!.
  - by intros m (_ & _ & _ & _ & _ & L).
  - done.
  - done.
  - done.
  - done.
Qed.

#[global] Instance funding_laws : StatusLaws SwapFundingStatus.
Proof.
  assert (forall m, funding_typed m -> len (funding_unsigned m) = 268) as Ln.
  { intros m (H & L1 & _ & L2 & L3 & _). unfold funding_unsigned. by rewrite !len_app, !len_to_le_bytes, (signed_header_len _ H), L1, L2, L3. }
  constructor; cbn -[len reads took].
  - intros m bs T. unfold funding_encode_unsigned. destruct (funding_validate_fields m) as [[]|]; cbn [mbind result_bind]; [|by split; [|intros (? & _)]]. sized.
    fold (funding_unsigned m). rewrite (Ln m T). split; [by intros (-> & _)|]. by intros (_ & ->).
  - intros m T. rewrite (Ln m T). destruct T as (_ & _ & _ & _ & _ & _ & _ & _ & ->). done.
  - intros m V. by apply funding_chain.
  - intros d m d' W R. unfold funding_read in R. dbind R as h d1 K1. apply header_inv in K1 as (K1 & TH & _); [|done]. minv. dbind R as x2 d2 K2. dbind R as x3 d3 K3. dbind R as x4 d4 K4. dbind R as x5 d5 K5. dbind R as x6 d6 K6. dbind R as x7 d7 K7. dbind R as x8 d8 K8. dbind R as b d9 K9. dbind R as st d9s K9s. apply state_of_byte in K9s as ->. dbind R as x10 d10 K10.
    apply dec_ret_Ok in R as (<- & ->). minv. split; [done|]. unfold funding_unsigned.
    cbn [fs_header fs_swap_session_id fs_chain fs_lock_commitment fs_transaction_id fs_output_index fs_amount fs_confirmations fs_state fs_signature]. rewrite <- !app_assoc. took_chain.
  - intros d m (TH & L1 & U1 & L2 & L3 & U2 & U3 & U4 & L4) (V & N)%funding_chain. unfold funding_read, funding_unsigned. rewrite <- !app_assoc. eapply reads_bind; [by apply signed_header_reads|].
    do 8 mstep. eapply reads_nil_bind; [apply state_reads|]. eapply reads_last; [mread|]. destruct m. apply reads_ret.
  - intros m k s (TH & T) Lk Ls. split; [by apply with_signer_typed|]. destruct T as (? & ? & ? & ? & ? & ? & ? & _). by split_and!.
  - by intros m (_ & _ & _ & _ & _ & _ & _ & _ & L).
  - done.
  - done.
  - done.
  - done.
Qed.

#[global] Instance redeem_laws : StatusLaws SwapRedeemStatus.
Proof.
  assert (forall m, redeem_typed m -> len (redeem_unsigned m) = 248) as Ln.
  { intros m (H & L1 & _ & L2 & L3 & _). unfold redeem_unsigned. by rewrite !len_app, !len_to_le_bytes, (signed_header_len _ H), L1, L2, L3. }
  constructor; cbn -[len reads took].
  - intros m bs T. unfold redeem_encode_unsigned. destruct (redeem_validate_fields m) as [[]|]; cbn [mbind result_bind]; [|by split; [|intros (? & _)]]. sized.
    fold (redeem_unsigned m). rewrite (Ln m T). split; [by intros (-> & _)|]. by intros (_ & ->).
  - intros m T. rewrite (Ln m T). destruct T as (_ & _ & _ & _ & _ & _ & ->). done.
  - intros m V. by apply redeem_chain.
  - intros d m d' W R. unfold redeem_read in R. dbind R as h d1 K1. apply header_inv in K1 as (K1 & TH & _); [|done]. minv. dbind R as x2 d2 K2. dbind R as x3 d3 K3. dbind R as x4 d4 K4. dbind R as x5 d5 K5. dbind R as x6 d6 K6. dbind R as b d7 K7. dbind R as st d7s K7s. apply state_of_byte in K7s as ->. dbind R as x8 d8 K8.
    apply dec_ret_Ok in R as (<- & ->). minv. split; [done|]. unfold redeem_unsigned.
    cbn [rd_header rd_swap_session_id rd_chain rd_transaction_id rd_preimage_hash rd_confirmations rd_state rd_signature]. rewrite <- !app_assoc. took_chain.
  - intros d m (TH & L1 & U1 & L2 & L3 & U2 & L4) (V & N)%redeem_chain. unfold redeem_read, redeem_unsigned. rewrite <- !app_assoc. eapply reads_bind; [by apply signed_header_reads|].
    do 6 mstep. eapply reads_nil_bind; [apply state_reads|]. eapply reads_last; [mread|]. destruct m. apply reads_ret.
  - intros m k s (TH & T) Lk Ls. split; [by apply with_signer_typed|]. destruct T as (? & ? & ? & ? & ? & _). by split_and!.
  - by intros m (_ & _ & _ & _ & _ & _ & L).
  - done.
  - done.
  - done.
  - done.
Qed.

#[global] Instance refund_laws : StatusLaws SwapRefundStatus.
Proof.
  assert (forall m, refund_typed m -> len (refund_unsigned m) = 216) as Ln.
  { intros m (H & L1 & _ & L2 & _). unfold refund_unsigned. by rewrite !len_app, !len_to_le_bytes, (signed_header_len _ H), L1, L2. }
  constructor; cbn -[len reads took].
  - intros m bs T. unfold refund_encode_unsigned. destruct (refund_validate_fields m) as [[]|]; cbn [mbind result_bind]; [|by split; [|intros (? & _)]]. sized.
    fold (refund_unsigned m). rewrite (Ln m T). split; [by intros (-> & _)|]. by intros (_ & ->).
  - intros m T. rewrite (Ln m T). destruct T as (_ & _ & _ & _ & _ & ->). done.
  - intros m V. by apply refund_chain.
  - intros d m d' W R. unfold refund_read in R. dbind R as h d1 K1. apply header_inv in K1 as (K1 & TH & _); [|done]. minv. dbind R as x2 d2 K2. dbind R as x3 d3 K3. dbind R as x4 d4 K4. dbind R as x5 d5 K5. dbind R as b d6 K6. dbind R as st d6s K6s. apply state_of_byte in K6s as ->. dbind R as x7 d7 K7.
    apply dec_ret_Ok in R as (<- & ->). minv. split; [done|]. unfold refund_unsigned.
    cbn [rf_header rf_swap_session_id rf_chain rf_transaction_id rf_confirmations rf_state rf_signature]. rewrite <- !app_assoc. took_chain.
  - intros d m (TH & L1 & U1 & L2 & U2 & L4) (V & N)%refund_chain. unfold refund_read, refund_unsigned. rewrite <- !app_assoc. eapply reads_bind; [by apply signed_header_reads|].
    do 5 mstep. eapply reads_nil_bind; [apply state_reads|]. eapply reads_last; [mread|]. destruct m. apply reads_ret.
  - intros m k s (TH & T) Lk Ls. split; [by apply with_signer_typed|]. destruct T as (? & ? & ? & ? & _). by split_and!.
  - by intros m (_ & _ & _ & _ & _ & L).
  - done.
  - done.
  - done.
  - done.
Qed.

Lemma session_hello_codec inp h : hello_decode inp = Ok h <-> hello_typed h /\ hello_encode h = Ok inp.
Proof. rewrite session_hello_decode_Ok. split; [intros (T & V & ->); split; [done|by apply session_hello_encode_Ok]|]. by intros (T & (V & ->)%session_hello_encode_Ok). Qed.
Lemma session_proposal_codec inp p : proposal_decode inp = Ok p <-> hello_typed p /\ proposal_encode p = Ok inp.
Proof. rewrite proposal_decode_Ok. split; [intros (T & V & ->); split; [done|by apply proposal_encode_Ok]|]. by intros (T & (V & ->)%proposal_encode_Ok). Qed.
Lemma ready_codec inp m : ready_decode inp = Ok m <-> ready_typed m /\ ready_encode m = Ok inp.
Proof. exact (status_codec (MS := ready_message) inp m). Qed.
Lemma funding_codec inp m : funding_decode inp = Ok m <-> funding_typed m /\ funding_encode m = Ok inp.
Proof. exact (status_codec (MS := funding_message) inp m). Qed.
Lemma redeem_codec inp m : redeem_decode inp = Ok m <-> redeem_typed m /\ redeem_encode m = Ok inp.
Proof. exact (status_codec (MS := redeem_message) inp m). Qed.
Lemma refund_codec inp m : refund_decode inp = Ok m <-> refund_typed m /\ refund_encode m = Ok inp.
Proof. exact (status_codec (MS := refund_message) inp m). Qed.
End swap_codec.
