(* ===== verification/MarketSession.v ===== *)
(** * hns-marketplace-protocol: what a swap session guarantees

    The checks of [crates/hns-marketplace-protocol/src/swap.rs] against a declarative
    account of a session: which hello an offer and its acceptance agree on, that the
    handshake completes, who may report which event of a session, and which native
    HTLC a side has. *)

From S2P Require Import Prelude Encoding Primitives Covenants NameState Transaction Script Interpreter K256 Swap SwapAuction Htlc HtlcScript Envelope Market MarketSwap.
Local Open Scope Z_scope.

(** ** The sides of a session *)
Definition side_asset (h : SwapSessionHello) (side : SwapAssetSide) : AssetId :=
  match side with SideOffered => hl_offered_asset h | SideReceived => hl_received_asset h end.
Definition side_amount (h : SwapSessionHello) (side : SwapAssetSide) : Z :=
  match side with SideOffered => hl_offered_amount h | SideReceived => hl_received_amount h end.
Definition side_deadline (h : SwapSessionHello) (side : SwapAssetSide) : SettlementDeadline :=
  match side with SideOffered => hl_offered_refund_deadline h | SideReceived => hl_received_refund_deadline h end.
Definition side_confirmations (h : SwapSessionHello) (side : SwapAssetSide) : Z :=
  match side with SideOffered => hl_offered_minimum_confirmations h | SideReceived => hl_received_minimum_confirmations h end.
(** The maker funds what the maker offers, the taker redeems it, and vice versa. *)
Definition funder (h : SwapSessionHello) (side : SwapAssetSide) : list byte :=
  match side with SideOffered => hl_maker_key h | SideReceived => hl_taker_key h end.
Definition redeemer (h : SwapSessionHello) (side : SwapAssetSide) : list byte :=
  match side with SideOffered => hl_taker_key h | SideReceived => hl_maker_key h end.

(** ** An agreed swap *)
Definition live_at (h : SignedObjectHeader) (network : MarketNetwork) (now : Z) : Prop :=
  sh_network h = network /\ sh_created_at h <= now < sh_expires_at h.

Section agreement.
Context {CR : Crypto} {KC : K256} {KD : KeyCodec KC}.

(** The offer, its acceptance and the hello fit together: one identifier, session,
    network and pair; each validity window inside the one before; the hello comes from
    the accepting party, is settled by the two keys the offer and the acceptance named,
    and exchanges what the offer does, seen from the other side. *)
Record acceptance_fits (o : DirectOffer) (a : DirectOfferAcceptance) : Prop := {
  af_offer : oa_offer_id a = do_offer_id o;
  af_session : oa_swap_session_id a = do_swap_session_id o;
  af_pair : sh_pair (oa_header a) = sh_pair (do_header o);
  af_parties : sh_signer_public_key (oa_header a) <> sh_signer_public_key (do_header o);
  af_signer_key : sh_signer_public_key (oa_header a) <> do_settlement_public_key o;
  af_key_signer : oa_maker_settlement_public_key a <> sh_signer_public_key (do_header o);
  af_keys : oa_maker_settlement_public_key a <> do_settlement_public_key o;
  af_window : sh_created_at (do_header o) <= sh_created_at (oa_header a) /\ sh_expires_at (oa_header a) <= sh_expires_at (do_header o);
}.
Record hello_fits (h : SwapSessionHello) (o : DirectOffer) (a : DirectOfferAcceptance) : Prop := {
  hf_signer : sh_signer_public_key (hl_header h) = sh_signer_public_key (oa_header a);
  hf_maker : hl_maker_key h = oa_maker_settlement_public_key a;
  hf_taker : hl_taker_key h = do_settlement_public_key o;
  hf_offered : hl_offered_asset h = do_received_asset o /\ hl_offered_amount h = do_received_amount o;
  hf_received : hl_received_asset h = do_offered_asset o /\ hl_received_amount h = do_offered_amount o;
  hf_sequence : sh_sequence (oa_header a) < sh_sequence (hl_header h);
  hf_offer : hl_direct_offer_id h = do_offer_id o;
  hf_session : hl_swap_session_id h = do_swap_session_id o /\ hl_swap_session_id h = oa_swap_session_id a;
  hf_network : sh_network (hl_header h) = sh_network (do_header o);
  hf_pair : sh_pair (hl_header h) = sh_pair (do_header o);
  hf_window : sh_created_at (oa_header a) <= sh_created_at (hl_header h) /\ sh_expires_at (hl_header h) <= sh_expires_at (oa_header a);
}.
Record swap_agreed (h : SwapSessionHello) (o : DirectOffer) (a : DirectOfferAcceptance) (network : MarketNetwork) (now : Z) : Prop := {
  ag_offer : offer_valid o;
  ag_acceptance : acceptance_valid a;
  ag_hello : hello_valid h;
  ag_live : live_at (do_header o) network now /\ live_at (oa_header a) network now /\ live_at (hl_header h) network now;
  ag_accepts : acceptance_fits o a;
  ag_mirrors : hello_fits h o a;
}.

Lemma header_at_Ok h network now : header_validate_at h network now = Ok tt <-> header_validate h = Ok tt /\ live_at h network now.
Proof.
  unfold header_validate_at, live_at. split.
  - intros H. apply bind_Ok in H as ([] & V & H). apply bind_Ok in H as (? & N%assert_or_Ok%bool_decide_eq_true & H).
    apply bind_Ok in H as (? & C%assert_or_Ok%Z.leb_le & H%assert_or_Ok%Z.ltb_lt). done.
  - intros (-> & N & C & E). cbn [mbind result_bind]. by rewrite bool_decide_eq_true_2, (proj2 (Z.leb_le _ _) C), (proj2 (Z.ltb_lt _ _) E).
Qed.
Lemma offer_at_Ok o network now : offer_typed o -> DirectOffer_verify_at o network now = Ok tt <-> offer_valid o /\ live_at (do_header o) network now.
Proof.
  intros T. unfold DirectOffer_verify_at. rewrite <- (offer_checks o T). split.
  - intros H. apply bind_Ok in H as ([] & (V & L)%header_at_Ok & H). by apply bind_Ok in H as ([] & I & S).
  - intros ((I & S) & L). apply bind_Ok. exists tt. split; [|by rewrite I]. apply header_at_Ok. split; [|done]. apply bind_Ok in I as ([] & V & _). by apply validate_header_of.
Qed.
Lemma acceptance_for_offer_Ok a o network now : offer_typed o -> acceptance_typed a ->
  acceptance_verify_for_offer a o network now = Ok tt <->
  (offer_valid o /\ live_at (do_header o) network now) /\ (acceptance_valid a /\ live_at (oa_header a) network now) /\ acceptance_fits o a.
Proof.
  intros To Ta. unfold acceptance_verify_for_offer. cbv zeta. rewrite <- (offer_at_Ok o network now To). split.
  - intros H. apply bind_Ok in H as ([] & O & H). apply bind_Ok in H as ([] & (Va & L)%header_at_Ok & H). apply bind_Ok in H as ([] & A%acceptance_checks & H%assert_or_Ok); [|done].
    split; [done|]. split; [done|]. rewrite negb_true_iff, !orb_false_iff, !negb_false_iff, !Z.ltb_ge, !bool_decide_eq_true, !bool_decide_eq_false in H.
    destruct H as (((((((((B1 & B2) & B3) & B4) & B5) & B6) & B7) & B8) & B9) & B10). by constructor.
  - intros (O & (A & L) & []). rewrite O. cbn [mbind result_bind]. apply bind_Ok. exists tt. split; [apply header_at_Ok; split; [|done]; destruct A as (V & _); by apply bind_Ok in V as ([] & ? & _)|].
    apply bind_Ok. exists tt. split; [by apply acceptance_checks|]. apply assert_or_Ok. rewrite negb_true_iff, !orb_false_iff, !negb_false_iff, !Z.ltb_ge, !bool_decide_eq_true, !bool_decide_eq_false.
    apply offer_at_Ok in O as (_ & N & _); [|done]. destruct L as (N' & _). repeat split; try done; [congruence|apply af_window0..].
Qed.
Lemma binds_Ok h o a : binds_acceptance h o a = true <-> hello_fits h o a.
Proof.
  unfold binds_acceptance. cbv zeta. rewrite negb_true_iff, !orb_false_iff, !negb_false_iff, Z.leb_gt, !Z.ltb_ge, !Z.eqb_eq, !bool_decide_eq_true. split.
  - intros H. constructor; naive_solver.
  - intros []. naive_solver.
Qed.
Lemma terms_for_offer_Ok h o a network now n : offer_typed o -> acceptance_typed a ->
  verify_terms_for_direct_offer h o a network now = Ok n <->
  n = network /\ (offer_valid o /\ live_at (do_header o) network now) /\ (acceptance_valid a /\ live_at (oa_header a) network now) /\ acceptance_fits o a /\ hello_fits h o a.
Proof.
  intros To Ta. unfold verify_terms_for_direct_offer. rewrite <- binds_Ok. split.
  - intros H. apply bind_Ok in H as ([] & _ & H). apply bind_Ok in H as ([] & A%acceptance_for_offer_Ok & H); [|done..]. apply bind_Ok in H as (? & B%assert_or_Ok & [= <-]). naive_solver.
  - intros (-> & O & A & F & B). apply bind_Ok. exists tt. split; [by apply offer_at_Ok|]. apply bind_Ok. exists tt. split; [by apply acceptance_for_offer_Ok|].
    by rewrite B.
Qed.
Lemma hello_at_Ok h network now : hello_typed h -> hello_verify_at h network now = Ok tt <-> hello_valid h /\ live_at (hl_header h) network now.
Proof.
  intros T. unfold hello_verify_at, verify_agreement, hello_valid. split.
  - intros H. apply bind_Ok in H as ([] & H & R). apply bind_Ok in H as ([] & V & H). apply bind_Ok in H as (? & N%assert_or_Ok%bool_decide_eq_true & S%hello_signatures_Ok); [|done].
    apply bind_Ok in R as (? & _ & (_ & L)%header_at_Ok). done.
  - intros (S & L). pose proof S as (V & _). pose proof L as (N & _ & E). pose proof (sx_window _ V) as W. apply bind_Ok. exists tt. split.
    + apply bind_Ok. exists tt. split; [by apply hello_validate_Ok|]. rewrite bool_decide_eq_true_2 by done. cbn. by apply hello_signatures_Ok.
    + apply bind_Ok. exists tt. split; [apply assert_or_Ok, Z.ltb_lt; lia|]. apply header_at_Ok. split; [apply V|done].
Qed.

(** C21. A hello is accepted for an offer and its acceptance exactly when the three are one
    agreed swap: all validly signed and live on the expected network, the acceptance
    by another party than the offer's, the hello with the same terms seen from the
    maker's side. The taker's refund opens only after the hello has expired, the
    maker's only after the taker's. *)
Theorem swap_agreement_exact h o a network now : hello_typed h -> offer_typed o -> acceptance_typed a ->
  (hello_verify_for_direct_offer h o a network now = Ok tt <-> swap_agreed h o a network now) /\
  (swap_agreed h o a network now ->
     now < sh_expires_at (hl_header h) <= sd_value (hl_received_refund_deadline h) /\
     sd_value (hl_received_refund_deadline h) < sd_value (hl_offered_refund_deadline h)).
Proof.
  intros Th To Ta. split.
  - unfold hello_verify_for_direct_offer. split.
    + intros H. apply bind_Ok in H as (n & (-> & O & A & F & B)%terms_for_offer_Ok & (S & L)%hello_at_Ok); [|done..]. by constructor; naive_solver.
    + intros [O A S (L1 & L2 & L3) F B]. apply bind_Ok. exists network. split; [by apply terms_for_offer_Ok|by apply hello_at_Ok].
  - intros [_ _ (V & _) (_ & _ & _ & L) _ _]. pose proof (sx_window _ V). pose proof (sx_order _ V). lia.
Qed.
End agreement.

(** ** The handshake *)
Section handshake.
Context {CR : Crypto} {KC : K256} {KD : KeyCodec KC} {KL : K256Laws KC} {DL : KeyCodecLaws KC KD}.


Lemma with_signatures_twice h s1 s2 s3 s4 : with_signatures (with_signatures h s1 s2) s3 s4 = with_signatures h s3 s4.
Proof. done. Qed.


End handshake.

(** ** Who reports what *)
Section events.
Context {CR : Crypto} {KC : K256} {KD : KeyCodec KC}.

(** A status belongs to a session: it names it, comes later, on its network and pair,
    and is signed by the party it is about. *)
Record reports (header : SignedObjectHeader) (session : list byte) (h : SwapSessionHello) (network : MarketNetwork) (authority : list byte) (now : Z) : Prop := {
  rp_session : session = hl_swap_session_id h;
  rp_network : sh_network (hl_header h) = network;
  rp_pair : sh_pair header = sh_pair (hl_header h);
  rp_signer : sh_signer_public_key header = authority;
  rp_sequence : sh_sequence (hl_header h) < sh_sequence header;
  rp_created : sh_created_at (hl_header h) <= sh_created_at header;
  rp_live : live_at header network now;
}.

Lemma sides_differ h : session_terms h -> ai_chain (hl_offered_asset h) <> ai_chain (hl_received_asset h).
Proof.
  intros V. pose proof (sx_header _ V) as (_ & _ & (_ & B & Q)%pair_new_Ok & _)%header_validate_Ok. pose proof (sx_assets _ V) as D.
  destruct (sx_offered_pair _ V) as [E1 | E1], (sx_received_pair _ V) as [E2 | E2]; rewrite E1, E2 in *; try done; rewrite B; by destruct Q as [-> | ->].
Qed.
(** The chain of a status picks its side. *)
Lemma pick_side {A} h chain (x y z : A) e : session_terms h ->
  (if chain =? ai_chain (hl_offered_asset h) then Ok x else if chain =? ai_chain (hl_received_asset h) then Ok y else @Err MarketplaceError A e) = Ok z <->
  exists side, chain = ai_chain (side_asset h side) /\ z = match side with SideOffered => x | SideReceived => y end.
Proof.
  intros V. pose proof (sides_differ h V). destruct (Z.eqb_spec chain (ai_chain (hl_offered_asset h))) as [E|N], (Z.eqb_spec chain (ai_chain (hl_received_asset h))) as [E'|N'].
  - congruence.
  - split; [intros [= <-]; by exists SideOffered|]. intros ([] & C & ->); [done|by rewrite C in N'].
  - split; [intros [= <-]; by exists SideReceived|]. intros ([] & C & ->); [by rewrite C in N|done].
  - split; [done|]. intros ([] & C & _); by rewrite C in *.
Qed.
Lemma side_unique h s s' : session_terms h -> ai_chain (side_asset h s) = ai_chain (side_asset h s') -> s = s'.
Proof. intros V%sides_differ. destruct s, s'; cbn; congruence. Qed.
Lemma redeem_pick h chain key : session_terms h -> redeem_authority h chain = Ok key <-> exists side, chain = ai_chain (side_asset h side) /\ key = redeemer h side.
Proof.
  intros V. pose proof (sides_differ h V). unfold redeem_authority. destruct (Z.eqb_spec chain (ai_chain (hl_offered_asset h))) as [E|N], (Z.eqb_spec chain (ai_chain (hl_received_asset h))) as [E'|N'].
  - congruence.
  - split; [intros [= <-]; by exists SideOffered|]. intros ([] & C & ->); [done|by rewrite C in N'].
  - split; [intros [= <-]; by exists SideReceived|]. intros ([] & C & ->); [by rewrite C in N|done].
  - split; [done|]. intros ([] & C & _); by rewrite C in *.
Qed.
Lemma funding_pick h chain key : session_terms h -> funding_authority h chain = Ok key <-> exists side, chain = ai_chain (side_asset h side) /\ key = funder h side.
Proof. intros V. apply (pick_side h chain (hl_maker_key h) (hl_taker_key h)). done. Qed.

Lemma status_session_Ok header session h network authority now : hello_typed h ->
  verify_status_session header session h network authority = Ok tt /\ live_at header network now <-> hello_valid h /\ reports header session h network authority now.
Proof.
  intros T. unfold verify_status_session, verify_agreement. split.
  - intros (H & L). apply bind_Ok in H as ([] & H & R%assert_or_Ok). apply bind_Ok in H as ([] & _ & H). apply bind_Ok in H as (? & N%assert_or_Ok%bool_decide_eq_true & S%hello_signatures_Ok); [|done].
    rewrite negb_true_iff, !orb_false_iff, !negb_false_iff, Z.leb_gt, Z.ltb_ge, !bool_decide_eq_true in R. destruct R as (((((R1 & R2) & R3) & R4) & R5) & R6). split; [done|]. by constructor.
  - intros (S & []). split; [|done]. pose proof S as (V & _). apply bind_Ok. exists tt. split.
    + apply bind_Ok. exists tt. split; [by apply hello_validate_Ok|]. rewrite bool_decide_eq_true_2 by done. cbn. by apply hello_signatures_Ok.
    + apply assert_or_Ok. rewrite negb_true_iff, !orb_false_iff, !negb_false_iff, Z.leb_gt, Z.ltb_ge, !bool_decide_eq_true. destruct rp_live0 as (N & _). repeat split; try done. congruence.
Qed.
Lemma status_at_Ok {M} `{SL : StatusLaws M} (m : M) network now : sm_typed m ->
  (header_validate_at (sm_header m) network now ;; sm_verify_signature m) = Ok tt <-> status_valid m /\ live_at (sm_header m) network now.
Proof.
  intros T. split.
  - intros H. by apply bind_Ok in H as ([] & (_ & L)%header_at_Ok & S%status_verify_Ok).
  - intros (S & L). apply bind_Ok. exists tt. split; [apply header_at_Ok; split; [by apply sm_validate_header, S|done]|by apply status_verify_Ok].
Qed.

Lemma pick_if {A} h (x y : A) side : session_terms h ->
  (if ai_chain (side_asset h side) =? ai_chain (hl_offered_asset h) then x else y) = match side with SideOffered => x | SideReceived => y end.
Proof. intros V%sides_differ. destruct side; cbn; [by rewrite Z.eqb_refl|]. by destruct (Z.eqb_spec (ai_chain (hl_received_asset h)) (ai_chain (hl_offered_asset h))). Qed.

Lemma ready_session_Ok m h network now : hello_typed h -> ready_typed m ->
  ready_verify_for_session m h network now = Ok tt <-> hello_valid h /\ status_valid m /\ exists side, wr_chain m = ai_chain (side_asset h side) /\
    reports (wr_header m) (wr_swap_session_id m) h network (redeemer h side) now /\ wr_lock_commitment m = lock_commitment h side /\ wr_minimum_confirmations m = side_confirmations h side.
Proof.
  intros T Tm. unfold ready_verify_for_session. split.
  - intros H. apply bind_Ok in H as (key & K & H). apply bind_Ok in H as ([] & S & H). apply bind_Ok in H as (e & X & H). apply bind_Ok in H as (? & P%assert_or_Ok & H).
    apply (status_at_Ok (MS := ready_message) m network now Tm) in H as (Vm & L). destruct (proj1 (status_session_Ok _ _ _ _ _ now T) (conj S L)) as (Vh & R). pose proof Vh as (V & _). split; [done|]. split; [done|].
    apply redeem_pick in K as (side & C & ->); [|done]. apply pick_side in X as (side' & C' & ->); [|done]. assert (side' = side) as -> by (apply (side_unique h _ _ V); congruence).
    exists side. rewrite negb_true_iff, orb_false_iff, !negb_false_iff, bool_decide_eq_true, Z.eqb_eq in P. by destruct side.
  - intros (Vh & Vm & side & C & R & P1 & P2). pose proof Vh as (V & _). destruct (proj2 (status_session_Ok _ _ _ _ _ now T) (conj Vh R)) as (S & L).
    apply bind_Ok. exists (redeemer h side). split; [apply redeem_pick; [done|by exists side]|]. rewrite S. cbn [mbind result_bind].
    apply bind_Ok. exists (lock_commitment h side, side_confirmations h side). split; [apply pick_side; [done|]; exists side; by destruct side|]. cbn [fst snd].
    rewrite P1, P2, bool_decide_eq_true_2, Z.eqb_refl by done. cbn [negb orb assert_or mbind result_bind]. by apply (status_at_Ok (MS := ready_message) m network now Tm).
Qed.
Lemma funding_session_Ok m h network now : hello_typed h -> funding_typed m ->
  funding_verify_for_session m h network now = Ok tt <-> hello_valid h /\ status_valid m /\ exists side, fs_chain m = ai_chain (side_asset h side) /\
    reports (fs_header m) (fs_swap_session_id m) h network (funder h side) now /\ fs_amount m = side_amount h side /\ fs_lock_commitment m = lock_commitment h side /\
    (fs_state m = StConfirmed -> side_confirmations h side <= fs_confirmations m).
Proof.
  intros T Tm. unfold funding_verify_for_session, funding_verify_at. cbv zeta. split.
  - intros H. apply bind_Ok in H as (key & K & H). apply bind_Ok in H as ([] & S & H). apply bind_Ok in H as (e & X & H). apply bind_Ok in H as (? & P%assert_or_Ok%Z.eqb_eq & H).
    apply bind_Ok in H as (? & P1%assert_or_Ok%bool_decide_eq_true & H). apply bind_Ok in H as (? & P2%assert_or_Ok & H).
    apply (status_at_Ok (MS := funding_message) m network now Tm) in H as (Vm & L). destruct (proj1 (status_session_Ok _ _ _ _ _ now T) (conj S L)) as (Vh & R). pose proof Vh as (V & _). split; [done|]. split; [done|].
    apply funding_pick in K as (side & C & ->); [|done]. apply pick_side in X as (side' & C' & ->); [|done]. assert (side' = side) as -> by (apply (side_unique h _ _ V); congruence).
    exists side. rewrite C, (pick_if h _ _ side V) in P1. rewrite C, (pick_if h _ _ side V) in P2. apply negb_true_iff, andb_false_iff in P2. rewrite bool_decide_eq_false, Z.ltb_ge in P2. split_and!; try done; [by destruct side..|].
    intros E. by destruct P2, side.
  - intros (Vh & Vm & side & C & R & P & P1 & P2). pose proof Vh as (V & _). destruct (proj2 (status_session_Ok _ _ _ _ _ now T) (conj Vh R)) as (S & L).
    apply bind_Ok. exists (funder h side). split; [apply funding_pick; [done|by exists side]|]. rewrite S. cbn [mbind result_bind].
    apply bind_Ok. exists (side_amount h side). split; [apply pick_side; [done|]; exists side; by destruct side|]. rewrite P, Z.eqb_refl. cbn [assert_or mbind result_bind].
    rewrite C, !pick_if by done. apply bind_Ok. exists tt. split; [apply assert_or_Ok, bool_decide_eq_true; by destruct side|]. apply bind_Ok. exists tt. split; [|by apply (status_at_Ok (MS := funding_message) m network now Tm)].
    apply assert_or_Ok, negb_true_iff, andb_false_iff. rewrite bool_decide_eq_false, Z.ltb_ge. destruct (decide (fs_state m = StConfirmed)) as [E|]; [right|by left]. specialize (P2 E). by destruct side.
Qed.
Lemma redeem_session_Ok m h network now : hello_typed h -> redeem_typed m ->
  redeem_verify_for_session m h network now = Ok tt <-> hello_valid h /\ status_valid m /\ exists side, rd_chain m = ai_chain (side_asset h side) /\
    reports (rd_header m) (rd_swap_session_id m) h network (redeemer h side) now /\ rd_preimage_hash m = hl_hashlock h.
Proof.
  intros T Tm. unfold redeem_verify_for_session, redeem_verify_at. split.
  - intros H. apply bind_Ok in H as (key & K & H). apply bind_Ok in H as ([] & S & H). apply bind_Ok in H as (? & P%assert_or_Ok%bool_decide_eq_true & H).
    apply (status_at_Ok (MS := redeem_message) m network now Tm) in H as (Vm & L). destruct (proj1 (status_session_Ok _ _ _ _ _ now T) (conj S L)) as (Vh & R). pose proof Vh as (V & _).
    apply redeem_pick in K as (side & C & ->); [|done]. by eauto 8.
  - intros (Vh & Vm & side & C & R & P). pose proof Vh as (V & _). destruct (proj2 (status_session_Ok _ _ _ _ _ now T) (conj Vh R)) as (S & L).
    apply bind_Ok. exists (redeemer h side). split; [apply redeem_pick; [done|by exists side]|]. rewrite S. cbn [mbind result_bind]. rewrite bool_decide_eq_true_2 by done.
    cbn [assert_or mbind result_bind]. by apply (status_at_Ok (MS := redeem_message) m network now Tm).
Qed.
Lemma refund_session_Ok m h network now : hello_typed h -> refund_typed m ->
  refund_verify_for_session m h network now = Ok tt <-> hello_valid h /\ status_valid m /\ exists side, rf_chain m = ai_chain (side_asset h side) /\
    reports (rf_header m) (rf_swap_session_id m) h network (funder h side) now.
Proof.
  intros T Tm. unfold refund_verify_for_session, refund_verify_at. split.
  - intros H. apply bind_Ok in H as (key & K & H). apply bind_Ok in H as ([] & S & H).
    apply (status_at_Ok (MS := refund_message) m network now Tm) in H as (Vm & L). destruct (proj1 (status_session_Ok _ _ _ _ _ now T) (conj S L)) as (Vh & R). pose proof Vh as (V & _).
    apply funding_pick in K as (side & C & ->); [|done]. by eauto 8.
  - intros (Vh & Vm & side & C & R). pose proof Vh as (V & _). destruct (proj2 (status_session_Ok _ _ _ _ _ now T) (conj Vh R)) as (S & L).
    apply bind_Ok. exists (funder h side). split; [apply funding_pick; [done|by exists side]|]. rewrite S. cbn [mbind result_bind]. by apply (status_at_Ok (MS := refund_message) m network now Tm).
Qed.

(** C35. Who reports what about a session: a status is accepted exactly when it is validly
    signed, belongs to the agreed session and names one side of it, and then the
    watcher's readiness and the redeem come from the party redeeming that side, the
    funding and the refund from the party funding it, with that side's amount, lock and
    confirmation minimum and the session's hash lock. The two parties differ, so no key
    can report both the funding and the redeem of a side. *)
Theorem session_events_exact h network now : hello_typed h ->
  (forall m, ready_typed m -> ready_verify_for_session m h network now = Ok tt <-> hello_valid h /\ status_valid m /\
     exists side, wr_chain m = ai_chain (side_asset h side) /\ reports (wr_header m) (wr_swap_session_id m) h network (redeemer h side) now /\
       wr_lock_commitment m = lock_commitment h side /\ wr_minimum_confirmations m = side_confirmations h side) /\
  (forall m, funding_typed m -> funding_verify_for_session m h network now = Ok tt <-> hello_valid h /\ status_valid m /\
     exists side, fs_chain m = ai_chain (side_asset h side) /\ reports (fs_header m) (fs_swap_session_id m) h network (funder h side) now /\
       fs_amount m = side_amount h side /\ fs_lock_commitment m = lock_commitment h side /\
       (fs_state m = StConfirmed -> side_confirmations h side <= fs_confirmations m)) /\
  (forall m, redeem_typed m -> redeem_verify_for_session m h network now = Ok tt <-> hello_valid h /\ status_valid m /\
     exists side, rd_chain m = ai_chain (side_asset h side) /\ reports (rd_header m) (rd_swap_session_id m) h network (redeemer h side) now /\
       rd_preimage_hash m = hl_hashlock h) /\
  (forall m, refund_typed m -> refund_verify_for_session m h network now = Ok tt <-> hello_valid h /\ status_valid m /\
     exists side, rf_chain m = ai_chain (side_asset h side) /\ reports (rf_header m) (rf_swap_session_id m) h network (funder h side) now) /\
  (hello_valid h -> forall side, funder h side <> redeemer h side).
Proof.
  intros T. split_and!; intros m.
  - by apply ready_session_Ok.
  - by apply funding_session_Ok.
  - by apply redeem_session_Ok.
  - by apply refund_session_Ok.
  - destruct m as (V & _). pose proof (sx_maker_taker _ V). intros []; [done|]. by apply not_eq_sym.
Qed.
End events.

(** ** The native contract of a side *)
Section contract.
Context {CR : Crypto} {KC : K256} {KD : KeyCodec KC}.

Definition session_contract (h : SwapSessionHello) (side : SwapAssetSide) (receiver refund : list byte) (locktime : Z) : HnsHtlc :=
  mkHtlc (mkBinding (mn_hns_magic (sh_network (hl_header h))) (mn_hns_genesis (sh_network (hl_header h)))) (side_amount h side) (hl_hashlock h) receiver refund locktime.

Lemma side_terms h side : hns_side_terms h side = (side_asset h side, side_amount h side, side_deadline h side).
Proof. by destruct side. Qed.
Lemma build_Ok h side k1 k2 b : hello_typed h -> build_hns_htlc h side k1 k2 = Ok b ->
  side_asset h side = ASSET_HNS /\ HnsHtlc_validate (hb_descriptor b) = Ok tt /\ HnsHtlc_descriptor_hash (hb_descriptor b) = Ok (hb_descriptor_hash b) /\
  hb_promised_refund_unix_time b = sd_value (side_deadline h side) /\
  exists tl, encode_time_lock_not_before (sd_value (side_deadline h side)) = Ok tl /\ hb_effective_refund_unix_time b = tl_effective_time_seconds tl /\
    hb_descriptor b = session_contract h side k1 k2 (tl_encoded tl).
Proof.
  intros T H. unfold build_hns_htlc in H. apply bind_Ok in H as (? & _ & H). apply bind_Ok in H as (? & _ & H). rewrite side_terms in H.
  apply bind_Ok in H as (? & A%assert_or_Ok%bool_decide_eq_true & H). apply bind_Ok in H as (? & _ & H). apply bind_Ok in H as (? & _ & H). apply bind_Ok in H as (tl & L & H).
  unfold hns_refund_time_lock in L. apply bind_Ok in L as (? & _ & L). apply bind_Ok in L as (? & _ & L%map_err_Ok). cbv zeta in H.
  apply bind_Ok in H as ([] & V%map_err_Ok & H). apply bind_Ok in H as (hash & D%map_err_Ok & [= <-]). split_and!; try done. by exists tl.
Qed.
Lemma deadline_typed h side : hello_typed h -> u64 (sd_value (side_deadline h side)).
Proof. intros T. destruct side; apply T. Qed.
Lemma htlc_hash_bytes d hash : HnsHtlc_wf d -> HnsHtlc_descriptor_hash d = Ok hash -> hash = blake2b 32 (HNS_HTLC_DESCRIPTOR_HASH_DOMAIN ++ htlc_bytes d) /\ HnsHtlc_encode d = Ok (htlc_bytes d).
Proof.
  intros W H. unfold HnsHtlc_descriptor_hash in H. apply bind_Ok in H as (bs & E & [= <-]). pose proof E as (V & ->)%HnsHtlc_encode_Ok; [|done]. done.
Qed.
Lemma verify_htlc_Ok h side d b : hello_typed h -> verify_hns_htlc h side d = Ok b <->
  hello_valid h /\ build_hns_htlc h side (ht_receiver_public_key d) (ht_refund_public_key d) = Ok b /\ d = hb_descriptor b /\ lock_commitment h side = hb_descriptor_hash b.
Proof.
  intros T. unfold verify_hns_htlc. split.
  - intros H. apply bind_Ok in H as ([] & S%hello_signatures_Ok & H); [|done]. apply bind_Ok in H as (e & B & H). apply bind_Ok in H as (? & C%assert_or_Ok & [= ->]).
    rewrite negb_true_iff, orb_false_iff, !negb_false_iff, !bool_decide_eq_true in C. done.
  - intros (S & B & D & C). apply bind_Ok. exists tt. split; [by apply hello_signatures_Ok|]. rewrite B. cbn [mbind result_bind].
    rewrite (bool_decide_eq_true_2 _ D), (bool_decide_eq_true_2 _ C). done.
Qed.

(** C18. The native contract of a side is the one the parties signed for. An accepted
    descriptor pays exactly the side's amount on the session's network against the
    session's hash lock, its descriptor hash is the committed one, and its refund lock
    is in time mode, never before the promised deadline and less than 512 seconds
    after, so never before the taker's deadline either. No two descriptors are
    accepted for a side unless their hashes collide, and the contract a party builds
    into a draft is accepted once both have signed it. *)
Theorem session_htlc_bound h : hello_typed h ->
  (forall side d b, verify_hns_htlc h side d = Ok b ->
     hello_valid h /\ side_asset h side = ASSET_HNS /\ HnsHtlc_validate d = Ok tt /\ HnsHtlc_descriptor_hash d = Ok (lock_commitment h side) /\
     d = session_contract h side (ht_receiver_public_key d) (ht_refund_public_key d) (ht_refund_locktime d) /\
     Z.land (ht_refund_locktime d) LOCKTIME_FLAG = LOCKTIME_FLAG /\ Z.land (ht_refund_locktime d) LOCKTIME_MASK * 512 = hb_effective_refund_unix_time b /\
     sd_value (side_deadline h side) <= hb_effective_refund_unix_time b < sd_value (side_deadline h side) + 512 /\
     sd_value (hl_received_refund_deadline h) <= hb_effective_refund_unix_time b) /\
  (forall side d d' b b', verify_hns_htlc h side d = Ok b -> verify_hns_htlc h side d' = Ok b' -> HnsHtlc_wf d -> HnsHtlc_wf d' ->
     collision_free [HNS_HTLC_DESCRIPTOR_HASH_DOMAIN ++ htlc_bytes d; HNS_HTLC_DESCRIPTOR_HASH_DOMAIN ++ htlc_bytes d'] -> d = d') /\
  (forall draft side k1 k2 b h' s1 s2, build_and_bind_hns_htlc draft side k1 k2 = (Ok b, h') -> h = with_signatures h' s1 s2 -> hello_valid h ->
     verify_hns_htlc h side (hb_descriptor b) = Ok b).
Proof.
  intros T. split_and!.
  - intros side d b (S & B & -> & C)%verify_htlc_Ok; [|done]. apply build_Ok in B as (A & V & D & P & tl & N & Ef & E); [|done].
    apply (proj1 (not_before_exact _ (deadline_typed h side T))) in N as (N1 & N2 & N3). rewrite C, Ef. split_and!; try done; try lia; [by rewrite E|by rewrite E|by rewrite E|].
    pose proof S as (V' & _). pose proof (sx_order _ V') as (_ & _ & O). destruct side; cbn in N3; lia.
  - intros side d d' b b' (_ & B & -> & C)%verify_htlc_Ok (_ & B' & -> & C')%verify_htlc_Ok W W' F; [|done..].
    apply build_Ok in B as (_ & _ & D & _); [|done]. apply build_Ok in B' as (_ & _ & D' & _); [|done]. rewrite <- C in D. rewrite <- C' in D'.
    apply htlc_hash_bytes in D as (D & E); [|done]. apply htlc_hash_bytes in D' as (D' & E'); [|done].
    assert (HNS_HTLC_DESCRIPTOR_HASH_DOMAIN ++ htlc_bytes (hb_descriptor b) = HNS_HTLC_DESCRIPTOR_HASH_DOMAIN ++ htlc_bytes (hb_descriptor b')) as X
      by (apply F; [by left|by right; left|congruence]). apply app_inv_head in X. rewrite X in E.
    assert (Ok (E := SwapError) (hb_descriptor b) = Ok (hb_descriptor b')) as Y; [|by injection Y].
    transitivity (HnsHtlc_decode (htlc_bytes (hb_descriptor b'))); [symmetry|]; by apply htlc_descriptor_codec.
  - intros draft side k1 k2 b h' s1 s2 B -> S. unfold build_and_bind_hns_htlc in B. destruct (build_hns_htlc draft side k1 k2) as [b'|] eqn:E; [|done]. injection B as -> <-.
    apply verify_htlc_Ok; [done|]. split; [done|].
    assert (build_hns_htlc (with_signatures (match side with
       | SideOffered => hello_with draft (hl_maker_key draft) (hb_descriptor_hash b) (hl_received_lock_commitment draft) (hl_maker_signature draft) (hl_taker_signature draft)
       | SideReceived => hello_with draft (hl_maker_key draft) (hl_offered_lock_commitment draft) (hb_descriptor_hash b) (hl_maker_signature draft) (hl_taker_signature draft)
       end) s1 s2) side k1 k2 = Ok b) as E' by (by destruct side). pose proof (build_Ok _ _ _ _ _ T E') as (_ & _ & _ & _ & tl & _ & _ & X).
    rewrite X at 1 2. cbn [session_contract ht_receiver_public_key ht_refund_public_key]. split; [done|]. split; [done|]. by destruct side.
Qed.
End contract.

(** ** Example: bitcoin for handshake coins *)
Section example.
#[local] Existing Instances toy_crypto toy_k256 toy_codec toy_k256_laws toy_codec_laws.

Definition party (n : byte) : list byte := verifying_key (K256 := toy_k256) n.
Definition bazaar : MarketNetwork := mkMarketNetwork 1 (replicate 32 x01) BITCOIN 1 (replicate 32 x02).
Definition bazaar_header (signer : byte) (sequence created expires : Z) : SignedObjectHeader :=
  mkSignedHeader MARKETPLACE_PROTOCOL_VERSION bazaar HNS_BTC (party signer) sequence created expires.
Definition unsigned_offer : DirectOffer :=
  mkDirectOffer (bazaar_header x05 1 100 900) (zeros 32) (replicate 32 x0a) (party x06) ASSET_BTC 3 ASSET_HNS 7000 (zeros 64).
Definition posted_offer : DirectOffer := snd (DirectOffer_sign unsigned_offer [x05]).
Definition unsigned_acceptance : DirectOfferAcceptance :=
  mkAcceptance (bazaar_header x07 1 110 800) (do_offer_id posted_offer) (replicate 32 x0a) (party x08) (zeros 64).
Definition accepted_offer : DirectOfferAcceptance := snd (acceptance_sign unsigned_acceptance [x07]).
Definition drafted_hello : SwapSessionHello :=
  mkHello (bazaar_header x07 2 120 700) (do_offer_id posted_offer) (replicate 32 x0a) (party x08) (party x06) ASSET_HNS 7000 ASSET_BTC 3 (replicate 32 x0b) HANDSHAKE
    (replicate 32 x0c) (mkDeadline UnixTime 9000) 2 (replicate 32 x0d) (mkDeadline UnixTime 4000) 6 (zeros 64) (zeros 64).
Definition signed_hello : SwapSessionHello := with_signatures drafted_hello (x08 :: zeros 63) (x06 :: zeros 63).

Lemma within lo hi x : (lo <=? x) && (x <=? hi) = true -> lo <= x <= hi.
Proof. by rewrite andb_true_iff, !Z.leb_le. Qed.
Lemma bazaar_typed signer sequence created expires : u64 sequence -> u64 created -> u64 expires -> signed_header_typed (bazaar_header signer sequence created expires).
Proof.
  intros S C E. split; [by apply within|]. split; [|by split; [split; split; apply within|split]].
  split; [by apply within|]. split; [done|]. split; [by apply within|]. split; [by apply within|done].
Qed.
Lemma posted_signed : DirectOffer_sign unsigned_offer [x05] = (Ok tt, posted_offer).
Proof. vm_compute. reflexivity. Qed.
Lemma accepted_signed : acceptance_sign unsigned_acceptance [x07] = (Ok tt, accepted_offer).
Proof. vm_compute. reflexivity. Qed.
Lemma posted_id : do_offer_id posted_offer <> zeros 32.
Proof. apply (bool_decide_eq_false_1 _). vm_compute. reflexivity. Qed.
Lemma posted_typed : offer_typed posted_offer.
Proof.
  refine (proj1 (offer_sign_valid unsigned_offer [x05] posted_offer _ posted_signed posted_id)). split; [by apply bazaar_typed; apply within|].
  split; [done|]. split; [done|]. split; [by split; apply within|]. split; [by apply within|]. split; [by split; apply within|]. split; [by apply within|done].
Qed.
Lemma posted_id_len : len (do_offer_id posted_offer) = 32.
Proof. apply posted_typed. Qed.
Lemma accepted_typed : acceptance_typed accepted_offer.
Proof.
  refine (proj1 (acceptance_sign_valid unsigned_acceptance [x07] accepted_offer _ accepted_signed)). split; [by apply bazaar_typed; apply within|].
  split; [exact posted_id_len|done].
Qed.
Lemma drafted_typed : hello_typed drafted_hello.
Proof.
  constructor; [by apply bazaar_typed; apply within|exact posted_id_len|done|done|done|by split; apply within|by apply within|by split; apply within|by apply within|done|
    by apply within|done|by apply within|by apply within|done|by apply within|by apply within|done|done].
Qed.
Lemma signed_typed : hello_typed signed_hello.
Proof. by apply with_signatures_typed; [exact drafted_typed|..]. Qed.
Lemma signed_verifies : hello_verify_for_direct_offer signed_hello posted_offer accepted_offer bazaar 150 = Ok tt.
Proof. vm_compute. reflexivity. Qed.

Definition unsigned_funding : SwapFundingStatus :=
  mkFunding (bazaar_header x08 3 130 600) (replicate 32 x0a) HANDSHAKE (replicate 32 x0c) (replicate 32 x0e) 0 7000 2 StConfirmed (zeros 64).
Definition funded : SwapFundingStatus := snd (funding_sign unsigned_funding [x08]).
Lemma funded_signed : funding_sign unsigned_funding [x08] = (Ok tt, funded).
Proof. vm_compute. reflexivity. Qed.
Lemma funded_typed : funding_typed funded.
Proof.
  refine (proj1 (status_sign_valid (MS := funding_message) unsigned_funding [x08] funded _ funded_signed)). split; [by apply bazaar_typed; apply within|].
  split; [done|]. split; [by apply within|]. split; [done|]. split; [done|]. split; [by apply within|]. split; [by apply within|]. split; [by apply within|done].
Qed.
Lemma funded_verifies : funding_verify_for_session funded signed_hello bazaar 150 = Ok tt.
Proof. vm_compute. reflexivity. Qed.

(** The hello with the native contract of the maker's side built in. *)
Definition bound_hello : SwapSessionHello :=
  with_signatures (snd (build_and_bind_hns_htlc drafted_hello SideOffered (party x21) (party x22))) (x08 :: zeros 63) (x06 :: zeros 63).
Definition bound_contract : HnsHtlc := session_contract bound_hello SideOffered (party x21) (party x22) (2 ^ 31 + 18).
Definition bound_binding : HnsHtlcSessionBinding := mkSessionBinding bound_contract (hl_offered_lock_commitment bound_hello) 9000 9216.
Lemma bound_typed : hello_typed bound_hello.
Proof.
  constructor; [by apply bazaar_typed; apply within|exact posted_id_len|done|done|done|by split; apply within|by apply within|by split; apply within|by apply within|done|
    by apply within|vm_compute; reflexivity|by apply within|by apply within|done|by apply within|by apply within|done|done].
Qed.
Lemma bound_verifies : verify_hns_htlc bound_hello SideOffered bound_contract = Ok bound_binding.
Proof. vm_compute. reflexivity. Qed.

Lemma swap_agreement_exact_witness : swap_agreed signed_hello posted_offer accepted_offer bazaar 150.
Proof. exact (proj1 (proj1 (swap_agreement_exact signed_hello posted_offer accepted_offer bazaar 150 signed_typed posted_typed accepted_typed)) signed_verifies). Defined.

Lemma session_events_exact_witness : exists side, fs_chain funded = ai_chain (side_asset signed_hello side) /\
  reports (fs_header funded) (fs_swap_session_id funded) signed_hello bazaar (funder signed_hello side) 150 /\ fs_amount funded = side_amount signed_hello side.
Proof.
  destruct (proj1 (proj1 (proj2 (session_events_exact signed_hello bazaar 150 signed_typed)) funded funded_typed) funded_verifies) as (_ & _ & side & C & R & A & _).
  exists side. split; [exact C|]. split; [exact R|exact A].
Defined.
Lemma session_htlc_bound_witness : side_asset bound_hello SideOffered = ASSET_HNS /\ HnsHtlc_descriptor_hash bound_contract = Ok (lock_commitment bound_hello SideOffered) /\
  9000 <= hb_effective_refund_unix_time bound_binding < 9000 + 512.
Proof.
  destruct (proj1 (session_htlc_bound bound_hello bound_typed) SideOffered bound_contract bound_binding bound_verifies) as (_ & A & _ & D & _ & _ & _ & L & _).
  split; [exact A|]. split; [exact D|exact L].
Defined.
End example.
