(* ===== verification/MarketWire.v ===== *)
(** * hns-marketplace-protocol: messages in Shakescape envelopes

    Models [crates/hns-marketplace-protocol/src/shakescape.rs]: the messages of the name
    market and of the cross-chain market, their payloads, the inventories and listing
    batches, and the extension envelopes around them. *)

From Stdlib Require Import Sorting.Sorted.
From S2P Require Import Prelude Encoding Primitives BTree Covenants NameState Transaction Script Interpreter K256 Swap SwapAuction Htlc SwapOffer SwapCodec Listing Experimental Negotiation Envelope Market MarketSwap MarketSession.
Local Open Scope Z_scope.

Definition NAME_MARKET_PROTOCOL_VERSION : Z := ATOMIC_MARKET_PROTOCOL_VERSION.
Definition CROSS_CHAIN_MARKET_MAX_PAYLOAD : Z := 512 * 1024.
Definition MAX_SHAKESCAPE_MARKET_PAYLOAD : Z := CROSS_CHAIN_MARKET_MAX_PAYLOAD.
Definition MAX_INVENTORY_ENTRIES : Z := 4096.
Definition MAX_NAME_OFFERS_PER_MESSAGE : Z := 64.

(** The one registry version there is. *)
Inductive ShakescapeRegistryVersion := RegistryV1.
Definition registry_version_u16 (v : ShakescapeRegistryVersion) : Z := match v with RegistryV1 => SHAKESCAPE_V1_REGISTRY_VERSION end.
Definition RegistryVersion_try_from (value : Z) : result MarketplaceError ShakescapeRegistryVersion :=
  if value =? SHAKESCAPE_V1_REGISTRY_VERSION then Ok RegistryV1 else Err (MkInvalid "unsupported Shakescape registry version").

(** ** Payload parts *)
Record NameMarketHello := mkNameHello {
  nh_hns_magic : Z;
  nh_hns_genesis : list byte;
  nh_maximum_payload : Z;
  nh_feature_flags : Z;
}.
Definition NameMarketHello_validate (h : NameMarketHello) : result MarketplaceError unit :=
  assert_or (negb ((nh_hns_magic h =? 0) || bool_decide (nh_hns_genesis h = zeros 32) || (nh_maximum_payload h =? 0) ||
                   (MAX_SHAKESCAPE_MARKET_PAYLOAD <? nh_maximum_payload h)))
    (MkInvalid "invalid name-market network binding or receive limit").
Definition NameMarketHello_encode (h : NameMarketHello) : result MarketplaceError (list byte) :=
  NameMarketHello_validate h ;;
  let e := with_capacity 48 in
  let e := put_u32_le e (nh_hns_magic h) in
  let e := put_bytes e (nh_hns_genesis h) in
  let e := put_u32_le e (nh_maximum_payload h) in
  Ok (into_bytes (put_u64_le e (nh_feature_flags h))).
Definition NameMarketHello_read : decM MarketplaceError NameMarketHello :=
  hns_magic ← lift_err MkDecode read_u32_le;
  hns_genesis ← lift_err MkDecode (read_array 32);
  maximum_payload ← lift_err MkDecode read_u32_le;
  feature_flags ← lift_err MkDecode read_u64_le;
  mret (mkNameHello hns_magic hns_genesis maximum_payload feature_flags).
Definition NameMarketHello_decode (inp : list byte) : result MarketplaceError NameMarketHello :=
  hello ← run_all MkDecode NameMarketHello_read inp;
  NameMarketHello_validate hello ;;
  Ok hello.

(** [windows(2).any(|w| p w[0] w[1])] *)
Fixpoint windows_any {A} (p : A -> A -> bool) (items : list A) : bool :=
  match items with
  | a :: ((b :: _) as rest) => p a b || windows_any p rest
  | _ => false
  end.
(** [a >= b] on byte arrays *)
Definition bytes_ge (a b : list byte) : bool := bytes_le b a.

Definition encode_hashes (hashes : list (list byte)) (permit_empty : bool) : result MarketplaceError (list byte) :=
  assert_or (negb ((negb permit_empty && (len hashes =? 0)) || (MAX_INVENTORY_ENTRIES <? len hashes))) (MkInvalid "invalid inventory length") ;;
  assert_or (negb (bool_decide (zeros 32 ∈ hashes) || windows_any bytes_ge hashes)) (MkInvalid "inventory identifiers must be nonzero, sorted, and unique") ;;
  let e := put_compact_size (with_capacity (9 + len hashes * 32)) (len hashes) in
  ensure_size (into_bytes (foldl put_bytes e hashes)) MAX_SHAKESCAPE_MARKET_PAYLOAD.
Definition hashes_read (permit_empty : bool) : decM MarketplaceError (list (list byte)) :=
  count ← lift_err MkDecode (read_compact_usize MAX_INVENTORY_ENTRIES "market inventory");
  lift_res (assert_or (negb ((count =? 0) && negb permit_empty)) (MkInvalid "empty inventory")) ;;
  read_n (Z.to_nat count) (lift_err MkDecode (read_array 32)).
Definition decode_hashes (inp : list byte) (permit_empty : bool) : result MarketplaceError (list (list byte)) :=
  hashes ← run_all MkDecode (hashes_read permit_empty) inp;
  encode_hashes hashes permit_empty ;;
  Ok hashes.

Definition encode_nonzero_hash (hash : list byte) : result MarketplaceError (list byte) :=
  if bool_decide (hash = zeros 32) then Err (MkInvalid "zero object identifier") else Ok hash.
Definition decode_exact_hash (inp : list byte) : result MarketplaceError (list byte) := run_all MkDecode (lift_err MkDecode (read_array 32)) inp.
Definition decode_nonzero_hash (inp : list byte) : result MarketplaceError (list byte) :=
  hash ← decode_exact_hash inp;
  encode_nonzero_hash hash ;;
  Ok hash.
Definition require_empty (inp : list byte) : result MarketplaceError unit := assert_or (len inp =? 0) (MkInvalid "expected empty Shakescape payload").

Section wire.
Context {CR : Crypto} {KC : K256} {KD : KeyCodec KC}.

(** Each listing with its hash. *)
Fixpoint key_listings (listings : list FixedPriceListing) : result MarketplaceError (list (list byte * list byte)) :=
  match listings with
  | [] => Ok []
  | listing :: rest =>
    hash ← map_err MkSwap (FixedPriceListing_listing_hash listing);
    encoded ← map_err MkSwap (FixedPriceListing_encode listing);
    keyed ← key_listings rest;
    Ok ((hash, encoded) :: keyed)
  end.
Definition encode_listings (listings : list FixedPriceListing) : result MarketplaceError (list byte) :=
  assert_or (negb ((len listings =? 0) || (MAX_NAME_OFFERS_PER_MESSAGE <? len listings))) (MkInvalid "invalid listing batch length") ;;
  keyed ← key_listings listings;
  assert_or (negb (windows_any (fun a b => bytes_ge a.1 b.1) keyed)) (MkInvalid "listing batch must be sorted by unique offer identifier") ;;
  let e := put_compact_size Encoder_new (len keyed) in
  ensure_size (into_bytes (foldl put_varbytes e (snd <$> keyed))) MAX_SHAKESCAPE_MARKET_PAYLOAD.
Definition listing_item : decM MarketplaceError FixedPriceListing :=
  encoded ← lift_err MkDecode (read_varbytes MAX_FIXED_PRICE_LISTING_SIZE "fixed-price listing");
  lift_res (map_err MkSwap (FixedPriceListing_decode encoded)).
Definition listings_read : decM MarketplaceError (list FixedPriceListing) :=
  count ← lift_err MkDecode (read_compact_usize MAX_NAME_OFFERS_PER_MESSAGE "name offers");
  lift_res (assert_or (negb (count =? 0)) (MkInvalid "empty listing batch")) ;;
  read_n (Z.to_nat count) listing_item.
Definition decode_listings (inp : list byte) : result MarketplaceError (list FixedPriceListing) :=
  listings ← run_all MkDecode listings_read inp;
  encode_listings listings ;;
  Ok listings.

(** ** The name market *)
Inductive NameMarketMessage :=
| NmHello (hello : NameMarketHello)
| NmGetOfferInventory
| NmOfferInventory (hashes : list (list byte))
| NmGetOffers (hashes : list (list byte))
| NmOffers (listings : list FixedPriceListing)
| NmGetOffer (hash : list byte)
| NmOffer (listing : FixedPriceListing)
| NmCancel (cancellation : ListingCancellation).

Definition name_message (m : NameMarketMessage) : Z * result MarketplaceError (list byte) :=
  match m with
  | NmHello hello => (1, NameMarketHello_encode hello)
  | NmGetOfferInventory => (2, Ok [])
  | NmOfferInventory hashes => (3, encode_hashes hashes true)
  | NmGetOffers hashes => (4, encode_hashes hashes false)
  | NmOffers listings => (5, encode_listings listings)
  | NmGetOffer hash => (6, encode_nonzero_hash hash)
  | NmOffer listing => (7, map_err MkSwap (FixedPriceListing_encode listing))
  | NmCancel cancellation => (8, map_err MkSwap (ListingCancellation_encode cancellation))
  end.
Definition name_encode_payload (m : NameMarketMessage) : result MarketplaceError (Z * list byte) :=
  let '(message_type, encoded) := name_message m in
  payload ← encoded;
  payload ← ensure_size payload MAX_SHAKESCAPE_MARKET_PAYLOAD;
  Ok (message_type, payload).
Definition name_decode_payload (message_type : Z) (payload : list byte) : result MarketplaceError NameMarketMessage :=
  assert_or (len payload <=? MAX_SHAKESCAPE_MARKET_PAYLOAD) (MkTooLarge (len payload) MAX_SHAKESCAPE_MARKET_PAYLOAD) ;;
  if message_type =? 1 then hello ← NameMarketHello_decode payload; Ok (NmHello hello)
  else if message_type =? 2 then require_empty payload ;; Ok NmGetOfferInventory
  else if message_type =? 3 then hashes ← decode_hashes payload true; Ok (NmOfferInventory hashes)
  else if message_type =? 4 then hashes ← decode_hashes payload false; Ok (NmGetOffers hashes)
  else if message_type =? 5 then listings ← decode_listings payload; Ok (NmOffers listings)
  else if message_type =? 6 then hash ← decode_nonzero_hash payload; Ok (NmGetOffer hash)
  else if message_type =? 7 then listing ← map_err MkSwap (FixedPriceListing_decode payload); Ok (NmOffer listing)
  else if message_type =? 8 then cancellation ← map_err MkSwap (ListingCancellation_decode payload); Ok (NmCancel cancellation)
  else Err (MkUnknownMessage ATOMIC_MARKET_PROTOCOL_ID message_type).
Definition name_encode_envelope (m : NameMarketMessage) (registry : ShakescapeRegistryVersion) (request_id : Z) : result MarketplaceError (list byte) :=
  '(message_type, payload) ← name_encode_payload m;
  map_err MkEnvelope (Envelope_encode
    (mkEnvelope (registry_version_u16 registry) ATOMIC_MARKET_PROTOCOL_ID NAME_MARKET_PROTOCOL_VERSION message_type 0 request_id payload) MAX_SHAKESCAPE_MARKET_PAYLOAD).
Definition name_decode_envelope (inp : list byte) : result MarketplaceError (ShakescapeRegistryVersion * Z * NameMarketMessage) :=
  envelope ← map_err MkEnvelope (Envelope_decode inp MAX_SHAKESCAPE_MARKET_PAYLOAD);
  registry ← RegistryVersion_try_from (ev_registry_version envelope);
  assert_or (negb (negb (ev_protocol_id envelope =? ATOMIC_MARKET_PROTOCOL_ID) || negb (ev_protocol_version envelope =? NAME_MARKET_PROTOCOL_VERSION) ||
                   negb (ev_flags envelope =? 0) || (MAX_SHAKESCAPE_MARKET_PAYLOAD <? len (ev_payload envelope))))
    (MkInvalid "invalid name-market envelope") ;;
  message ← name_decode_payload (ev_message_type envelope) (ev_payload envelope);
  Ok (registry, ev_request_id envelope, message).

(** ** The cross-chain market *)
Inductive CrossChainMessage :=
| CcDirectOfferInventory (hashes : list (list byte))
| CcGetDirectOffer (hash : list byte)
| CcDirectOffer (offer : DirectOffer)
| CcCancelDirectOffer (cancellation : DirectOfferCancellation)
| CcAcceptDirectOffer (acceptance : DirectOfferAcceptance)
| CcSwapSessionHello (hello : SwapSessionHello)
| CcSwapFundingStatus (status : SwapFundingStatus)
| CcSwapRedeemStatus (status : SwapRedeemStatus)
| CcSwapRefundStatus (status : SwapRefundStatus)
| CcSwapSessionProposal (proposal : SwapSessionHello)
| CcSwapWatchReady (ready : SwapWatchReady).

Definition cross_chain_message (m : CrossChainMessage) : Z * result MarketplaceError (list byte) :=
  match m with
  | CcDirectOfferInventory hashes => (1, encode_hashes hashes true)
  | CcGetDirectOffer hash => (2, encode_nonzero_hash hash)
  | CcDirectOffer offer => (3, DirectOffer_encode offer)
  | CcCancelDirectOffer cancellation => (4, cancellation_encode cancellation)
  | CcAcceptDirectOffer acceptance => (5, acceptance_encode acceptance)
  | CcSwapSessionProposal proposal => (6, proposal_encode proposal)
  | CcSwapSessionHello hello => (7, hello_encode hello)
  | CcSwapFundingStatus status => (8, funding_encode status)
  | CcSwapRedeemStatus status => (9, redeem_encode status)
  | CcSwapRefundStatus status => (10, refund_encode status)
  | CcSwapWatchReady ready => (11, ready_encode ready)
  end.
Definition cross_chain_encode_payload (m : CrossChainMessage) : result MarketplaceError (Z * list byte) :=
  let '(message_type, encoded) := cross_chain_message m in
  payload ← encoded;
  payload ← ensure_size payload MAX_SHAKESCAPE_MARKET_PAYLOAD;
  Ok (message_type, payload).
Definition cross_chain_decode_payload (message_type : Z) (payload : list byte) : result MarketplaceError CrossChainMessage :=
  assert_or (len payload <=? MAX_SHAKESCAPE_MARKET_PAYLOAD) (MkTooLarge (len payload) MAX_SHAKESCAPE_MARKET_PAYLOAD) ;;
  if message_type =? 1 then hashes ← decode_hashes payload true; Ok (CcDirectOfferInventory hashes)
  else if message_type =? 2 then hash ← decode_nonzero_hash payload; Ok (CcGetDirectOffer hash)
  else if message_type =? 3 then offer ← DirectOffer_decode payload; Ok (CcDirectOffer offer)
  else if message_type =? 4 then cancellation ← cancellation_decode payload; Ok (CcCancelDirectOffer cancellation)
  else if message_type =? 5 then acceptance ← acceptance_decode payload; Ok (CcAcceptDirectOffer acceptance)
  else if message_type =? 7 then hello ← hello_decode payload; Ok (CcSwapSessionHello hello)
  else if message_type =? 8 then status ← funding_decode payload; Ok (CcSwapFundingStatus status)
  else if message_type =? 9 then status ← redeem_decode payload; Ok (CcSwapRedeemStatus status)
  else if message_type =? 10 then status ← refund_decode payload; Ok (CcSwapRefundStatus status)
  else if message_type =? 6 then proposal ← proposal_decode payload; Ok (CcSwapSessionProposal proposal)
  else if message_type =? 11 then ready ← ready_decode payload; Ok (CcSwapWatchReady ready)
  else Err (MkUnknownMessage CROSS_CHAIN_MARKET_PROTOCOL_ID message_type).
Definition cross_chain_encode_envelope (m : CrossChainMessage) (request_id : Z) : result MarketplaceError (list byte) :=
  '(message_type, payload) ← cross_chain_encode_payload m;
  map_err MkEnvelope (Envelope_encode
    (mkEnvelope SHAKESCAPE_V1_REGISTRY_VERSION CROSS_CHAIN_MARKET_PROTOCOL_ID CROSS_CHAIN_MARKET_PROTOCOL_VERSION message_type 0 request_id payload) MAX_SHAKESCAPE_MARKET_PAYLOAD).
Definition cross_chain_decode_envelope (inp : list byte) : result MarketplaceError (Z * CrossChainMessage) :=
  envelope ← map_err MkEnvelope (Envelope_decode inp MAX_SHAKESCAPE_MARKET_PAYLOAD);
  assert_or (negb (negb (ev_registry_version envelope =? SHAKESCAPE_V1_REGISTRY_VERSION) || negb (ev_protocol_id envelope =? CROSS_CHAIN_MARKET_PROTOCOL_ID) ||
                   negb (ev_protocol_version envelope =? CROSS_CHAIN_MARKET_PROTOCOL_VERSION) || negb (ev_flags envelope =? 0) ||
                   (MAX_SHAKESCAPE_MARKET_PAYLOAD <? len (ev_payload envelope))))
    (MkInvalid "invalid cross-chain marketplace envelope") ;;
  message ← cross_chain_decode_payload (ev_message_type envelope) (ev_payload envelope);
  Ok (ev_request_id envelope, message).
End wire.

(** ** Listing cancellations on the wire *)
Definition withdrawn_bytes (c : ListingCancellation) : list byte :=
  to_le_bytes 2 LISTING_CANCELLATION_VERSION ++ to_le_bytes 4 (nb_magic (lc_network c)) ++ nb_genesis (lc_network c) ++ lc_listing_hash c ++ lc_seller_public_key c ++
  to_le_bytes 8 (lc_created_at c) ++ to_le_bytes 8 (lc_expires_at c) ++ to_le_bytes 8 (lc_sequence c) ++ optional_bytes id (lc_signature c).
Record ListingCancellation_wf (c : ListingCancellation) : Prop := {
  lcw_magic : u32 (nb_magic (lc_network c));
  lcw_genesis : len (nb_genesis (lc_network c)) = 32;
  lcw_hash : len (lc_listing_hash c) = 32;
  lcw_key : len (lc_seller_public_key c) = 33;
  lcw_created : u64 (lc_created_at c);
  lcw_expires : u64 (lc_expires_at c);
  lcw_sequence : u64 (lc_sequence c);
  lcw_signature : match lc_signature c with Some s => len s = 64 | None => True end;
}.

Section withdrawal.
Context {CR : Crypto} {KC : K256}.

Lemma withdrawn_unhashed_Ok c bs : ListingCancellation_encoding_without_hash c = Ok bs <-> ListingCancellation_validate c = Ok tt /\ bs = withdrawn_bytes c.
Proof.
  unfold ListingCancellation_encoding_without_hash, ListingCancellation_signing_bytes. destruct (ListingCancellation_validate c) as [[]|]; cbn [mbind result_bind]; [|by split; [|intros (? & _)]].
  rewrite put_presence_bytes. unfold into_bytes, withdrawn_bytes. autorewrite with enc. rewrite <- !app_assoc. split; [by intros [= <-]|by intros (_ & ->)].
Qed.
Lemma withdrawn_validates c : ListingCancellation_verify c = Ok tt -> ListingCancellation_validate c = Ok tt.
Proof. intros H. by apply bind_Ok in H as ([] & ? & _). Qed.
Lemma withdrawn_encode_Ok c bs : ListingCancellation_encode c = Ok bs <->
  ListingCancellation_verify c = Ok tt /\ bs = withdrawn_bytes c ++ domain_hash CANCELLATION_HASH_DOMAIN (withdrawn_bytes c) /\ len bs <= MAX_LISTING_CANCELLATION_SIZE.
Proof.
  unfold ListingCancellation_encode. split.
  - intros H. apply bind_Ok in H as ([] & V & H). apply bind_Ok in H as (e & (_ & ->)%withdrawn_unhashed_Ok & H). cbv zeta in H. by apply bind_Ok in H as (? & L%assert_or_Ok%Z.leb_le & [= <-]).
  - intros (V & -> & L). rewrite V. cbn [mbind result_bind]. apply bind_Ok. exists (withdrawn_bytes c). split; [apply withdrawn_unhashed_Ok; split; [by apply withdrawn_validates|done]|].
    cbv zeta. by rewrite (proj2 (Z.leb_le _ _) L).
Qed.
Lemma withdrawn_read_inv d c h d' : dec_wf d -> ListingCancellation_read d = (Ok (c, h), d') -> took d (withdrawn_bytes c ++ h) d' /\ ListingCancellation_wf c /\ len h = 32.
Proof.
  intros W H. unfold ListingCancellation_read, decode_marketplace_signature in H. dbind H as v d0 H0. dbind H as u d0' Hv. apply assert_or_Ok, Z.eqb_eq in Hv as ->.
  dbind H as x1 d1 H1. dbind H as x2 d2 H2. dbind H as x3 d3 H3. dbind H as x4 d4 H4. dbind H as x5 d5 H5. dbind H as x6 d6 H6. dbind H as x7 d7 H7. dbind H as x8 d8 H8. dbind H as x9 d9 H9.
  apply dec_ret_Ok in H as ([= <- <-] & ->). took_all. apply (read_presence_inv _ _ id (fun s => len s = 64)) in H8 as (H8 & S8); [|intros x a x' Wx Hx|done].
  2: { apply lift_err_Ok in Hx. by apply read_array_inv in Hx. }
  took_all. split; [|by split; [split|]]. unfold withdrawn_bytes. cbn [lc_network nb_magic nb_genesis lc_listing_hash lc_seller_public_key lc_created_at lc_expires_at lc_sequence lc_signature].
  rewrite <- !app_assoc. took_chain.
Qed.
Lemma withdrawn_reads d c h : ListingCancellation_wf c -> len h = 32 -> reads d ListingCancellation_read (withdrawn_bytes c ++ h) (c, h).
Proof.
  intros [] L. unfold ListingCancellation_read, withdrawn_bytes, decode_marketplace_signature. rewrite <- !app_assoc. eapply reads_bind; [by apply reads_err, read_u16_reads|].
  eapply reads_nil_bind; [by apply reads_assert|]. do 7 mstep.
  eapply reads_bind; [apply (read_presence_reads _ _ _ (fun s => len s = 64)); [intros x a La; by apply reads_err, read_array_reads|done]|].
  eapply reads_last; [by apply reads_err, read_array_reads|]. destruct c as [[] ? ? ? ? ? ?]. apply reads_ret.
Qed.
Lemma withdrawn_decode_Ok inp c : ListingCancellation_decode inp = Ok c <-> ListingCancellation_wf c /\ ListingCancellation_encode c = Ok inp.
Proof.
  rewrite withdrawn_encode_Ok. unfold ListingCancellation_decode. split.
  - intros H. apply bind_Ok in H as (? & L%assert_or_Ok%Z.leb_le & H). apply bind_Ok in H as ([q h] & R & H). apply bind_Ok in H as (? & _ & H). apply bind_Ok in H as (bs & (_ & ->)%withdrawn_unhashed_Ok & H).
    apply bind_Ok in H as (? & E%assert_or_Ok%bool_decide_eq_true & H). apply bind_Ok in H as ([] & V & [= <-]). apply run_all_Ok in R as (d & R & F).
    apply withdrawn_read_inv in R as (T & W & _); [|apply wf_new; unfold MAX_LISTING_CANCELLATION_SIZE in L; unfold isize_max; lia]. apply took_finish in T; [|done]. subst h. done.
  - intros (W & V & -> & L). rewrite (proj2 (Z.leb_le _ _) L). cbn [assert_or mbind result_bind]. pose proof (withdrawn_validates c V) as Vc.
    apply bind_Ok. exists (c, domain_hash CANCELLATION_HASH_DOMAIN (withdrawn_bytes c)). split.
    + apply run_all_reads; [unfold MAX_LISTING_CANCELLATION_SIZE in L; unfold isize_max; lia|]. apply withdrawn_reads; [done|]. apply (len_length _ 32), blake2b_length.
    + rewrite Vc. cbn [mbind result_bind]. apply bind_Ok. exists (withdrawn_bytes c). split; [by apply withdrawn_unhashed_Ok|]. rewrite bool_decide_eqb_refl. cbn [assert_or mbind result_bind]. by rewrite V.
Qed.
End withdrawal.

(** ** The parts *)
Definition hashes_typed (hashes : list (list byte)) : Prop := Forall (fun h => len h = 32) hashes.
Definition hashes_bytes (hashes : list (list byte)) : list byte := compact_bytes (len hashes) ++ mjoin hashes.
(** What an inventory may hold: at most 4096 identifiers, none zero, in ascending
    order, and at least one where the message asks for some. *)
Definition inventory_ok (hashes : list (list byte)) (permit_empty : bool) : Prop :=
  (permit_empty = false -> hashes <> []) /\ len hashes <= MAX_INVENTORY_ENTRIES /\ zeros 32 ∉ hashes /\ ssorted hashes.

Lemma windows_ge_Ok hashes : windows_any bytes_ge hashes = false <-> ssorted hashes.
Proof.
  unfold ssorted. split.
  - intros H. apply Sorted_StronglySorted; [intros a b c; apply bytes_lt_trans|]. induction hashes as [|a [|b rest] IH]; [constructor|by constructor; constructor|].
    cbn [windows_any] in H. apply orb_false_iff in H as (G & H). constructor; [by apply IH|]. constructor. unfold bytes_ge in G. split; [by apply bytes_le_total|].
    intros ->. by rewrite bytes_le_refl in G.
  - intros H%StronglySorted_Sorted. induction hashes as [|a [|b rest] IH]; [done|done|]. inversion H as [|? ? S L]. inversion L as [|? ? (Le & Ne)]. cbn [windows_any]. apply orb_false_iff.
    split; [|by apply IH]. unfold bytes_ge. destruct (bytes_le b a) eqn:G; [|done]. by destruct (Ne (bytes_le_antisym _ _ Le G)).
Qed.
Lemma len_zero_nil {A} (l : list A) : (len l =? 0) = true <-> l = [].
Proof. rewrite Z.eqb_eq. destruct l; [done|]. rewrite len_cons. pose proof (len_nonneg l). split; [lia|done]. Qed.
Lemma encode_hashes_Ok hashes permit_empty bs : encode_hashes hashes permit_empty = Ok bs <->
  inventory_ok hashes permit_empty /\ bs = hashes_bytes hashes /\ len bs <= MAX_SHAKESCAPE_MARKET_PAYLOAD.
Proof.
  unfold encode_hashes, inventory_ok. cbv zeta. rewrite <- windows_ge_Ok.
  assert (into_bytes (foldl put_bytes (put_compact_size (with_capacity (9 + len hashes * 32)) (len hashes)) hashes) = hashes_bytes hashes) as ->.
  { unfold into_bytes, hashes_bytes. rewrite (bytes_foldl put_bytes id) by apply bytes_put_bytes. rewrite bytes_put_compact, bytes_with_capacity, list_fmap_id. done. }
  assert ((negb permit_empty && (len hashes =? 0) = false) <-> (permit_empty = false -> hashes <> [])) as E.
  { rewrite andb_false_iff, negb_false_iff, <- not_true_iff_false, len_zero_nil. destruct permit_empty; naive_solver. }
  split.
  - intros H. apply bind_Ok in H as (? & A%assert_or_Ok & H). apply bind_Ok in H as (? & B%assert_or_Ok & (-> & L)%ensure_size_Ok).
    rewrite negb_true_iff, orb_false_iff, E, Z.ltb_ge in A. rewrite negb_true_iff, orb_false_iff, bool_decide_eq_false in B. naive_solver.
  - intros ((A1 & A2 & B1 & B2) & -> & L). apply bind_Ok. exists tt. split; [apply assert_or_Ok; rewrite negb_true_iff, orb_false_iff, E, Z.ltb_ge; done|].
    apply bind_Ok. exists tt. split; [apply assert_or_Ok; rewrite negb_true_iff, orb_false_iff, bool_decide_eq_false; done|]. by apply ensure_size_Ok.
Qed.
Lemma decode_hashes_Ok inp permit_empty hashes : len inp <= MAX_SHAKESCAPE_MARKET_PAYLOAD ->
  decode_hashes inp permit_empty = Ok hashes <-> hashes_typed hashes /\ encode_hashes hashes permit_empty = Ok inp.
Proof.
  intros L. assert (len inp <= isize_max) as Li by (unfold MAX_SHAKESCAPE_MARKET_PAYLOAD, CROSS_CHAIN_MARKET_MAX_PAYLOAD in L; unfold isize_max; lia). unfold decode_hashes. split.
  - intros H. apply bind_Ok in H as (hs & R & H). apply bind_Ok in H as (bs & E & [= ->]). apply run_all_Ok in R as (d & R & F). unfold hashes_read in R. dbind R as n d1 K1. dbind R as u d2 K2.
    pose proof (wf_new inp Li) as W0. apply read_compact_usize_inv in K1 as (K1 & Rn & _); [|done]. took_all. apply (read_n_inv _ id (fun h => len h = 32)) in R as (T & Fa & Ln); [|intros x v x' W Hx|done].
    2: { apply lift_err_Ok in Hx. by apply read_array_inv in Hx. }
    split; [done|]. rewrite list_fmap_id in T. pose proof (took_trans _ _ _ _ _ K1 T) as Tt. apply took_finish in Tt; [|done].
    assert (n = len hashes) as -> by (unfold len; lia). fold (hashes_bytes hashes) in Tt. rewrite <- Tt. apply encode_hashes_Ok in E as (I & -> & Lb). by apply encode_hashes_Ok.
  - intros (T & E). pose proof E as (I & -> & Lb)%encode_hashes_Ok. apply bind_Ok. exists hashes. split; [|by rewrite E]. apply run_all_reads; [done|]. unfold hashes_read, hashes_bytes.
    destruct I as (Ne & Ln & _). pose proof (len_nonneg hashes). eapply reads_bind; [apply reads_err, read_compact_usize_reads; [lia|unfold MAX_INVENTORY_ENTRIES in Ln; ulia]|].
    eapply reads_nil_bind.
    { apply reads_assert. rewrite negb_true_iff, andb_false_iff. destruct permit_empty; [by right|]. left. apply not_true_iff_false. rewrite len_zero_nil. by apply Ne. }
    replace (Z.to_nat (len hashes)) with (length hashes) by (unfold len; lia). replace (mjoin hashes) with (mjoin (id <$> hashes)) by (by rewrite list_fmap_id). apply reads_n. intros d' x Hx. apply reads_err, read_array_reads. unfold hashes_typed in T. rewrite Forall_forall in T. by apply T.
Qed.

Lemma nonzero_hash_Ok inp hash : len inp <= MAX_SHAKESCAPE_MARKET_PAYLOAD -> decode_nonzero_hash inp = Ok hash <-> len hash = 32 /\ encode_nonzero_hash hash = Ok inp.
Proof.
  intros L. assert (len inp <= isize_max) as Li by (unfold MAX_SHAKESCAPE_MARKET_PAYLOAD, CROSS_CHAIN_MARKET_MAX_PAYLOAD in L; unfold isize_max; lia).
  unfold decode_nonzero_hash, decode_exact_hash, encode_nonzero_hash. split.
  - intros H. apply bind_Ok in H as (h & R & H). apply bind_Ok in H as (x & E & [= ->]). case_bool_decide as Z0; [done|]. apply run_all_Ok in R as (d & R & F).
    apply lift_err_Ok, read_array_inv in R as (T & Lh); [|lia|by apply wf_new]. apply took_finish in T; [|done]. by subst.
  - intros (Lh & H). case_bool_decide as Z0; [done|]. injection H as <-. apply bind_Ok. exists hash. split; [apply run_all_reads; [done|by apply reads_err, read_array_reads]|].
    by rewrite bool_decide_eq_false_2.
Qed.

Definition name_hello_typed (h : NameMarketHello) : Prop := u32 (nh_hns_magic h) /\ len (nh_hns_genesis h) = 32 /\ u32 (nh_maximum_payload h) /\ u64 (nh_feature_flags h).
Lemma name_hello_Ok inp h : len inp <= MAX_SHAKESCAPE_MARKET_PAYLOAD -> NameMarketHello_decode inp = Ok h <-> name_hello_typed h /\ NameMarketHello_encode h = Ok inp.
Proof.
  intros L. assert (len inp <= isize_max) as Li by (unfold MAX_SHAKESCAPE_MARKET_PAYLOAD, CROSS_CHAIN_MARKET_MAX_PAYLOAD in L; unfold isize_max; lia).
  unfold NameMarketHello_decode, NameMarketHello_encode. cbv zeta. unfold into_bytes. autorewrite with enc. rewrite <- !app_assoc. split.
  - intros H. apply bind_Ok in H as (h0 & R & H). apply bind_Ok in H as ([] & V & [= ->]). apply run_all_Ok in R as (d & R & F). unfold NameMarketHello_read in R. pose proof (wf_new inp Li) as W0.
    dbind R as x1 d1 K1. dbind R as x2 d2 K2. dbind R as x3 d3 K3. dbind R as x4 d4 K4. apply dec_ret_Ok in R as (<- & ->). minv. split; [done|]. rewrite V. cbn [mbind result_bind]. f_equal.
    cbn [nh_hns_magic nh_hns_genesis nh_maximum_payload nh_feature_flags]. apply (took_finish inp _ d4); [|done]. took_chain.
  - intros ((U1 & L1 & U2 & U3) & H). apply bind_Ok in H as ([] & V & H). apply Ok_inj in H as <-. apply bind_Ok. exists h. split; [|by rewrite V]. apply run_all_reads; [done|]. unfold NameMarketHello_read.
    do 3 mstep. eapply reads_last; [mread|]. destruct h. apply reads_ret.
Qed.

(** ** Listing batches *)
Section batches.
Context {CR : Crypto} {KC : K256} {KD : KeyCodec KC}.

Definition listing_wire (l : FixedPriceListing) : list byte := match FixedPriceListing_encode l with Ok e => e | Err _ => [] end.
Definition listings_bytes (ls : list FixedPriceListing) : list byte := compact_bytes (len ls) ++ mjoin ((fun l => var_bytes (listing_wire l)) <$> ls).

Lemma key_listings_Ok ls keyed : key_listings ls = Ok keyed ->
  Forall (fun l => FixedPriceListing_encode l = Ok (listing_wire l)) ls /\ snd <$> keyed = listing_wire <$> ls /\ len keyed = len ls.
Proof.
  revert keyed. induction ls as [|l ls IH]; intros keyed H; cbn [key_listings] in H; [by injection H as <-|].
  apply bind_Ok in H as (hash & _ & H). apply bind_Ok in H as (e & E%map_err_Ok & H). apply bind_Ok in H as (k & K & [= <-]). apply IH in K as (F & M & Ln).
  assert (listing_wire l = e) as W by (unfold listing_wire; by rewrite E). split; [by constructor; [rewrite W|]|]. rewrite !len_cons, Ln. split; [|done]. rewrite !fmap_cons. by rewrite W, M.
Qed.
Lemma encode_listings_Ok ls bs : encode_listings ls = Ok bs ->
  Forall (fun l => FixedPriceListing_encode l = Ok (listing_wire l)) ls /\ bs = listings_bytes ls /\ ls <> [] /\ len ls <= MAX_NAME_OFFERS_PER_MESSAGE.
Proof.
  unfold encode_listings. intros H. apply bind_Ok in H as (? & A%assert_or_Ok & H). apply bind_Ok in H as (keyed & (F & M & Ln)%key_listings_Ok & H). apply bind_Ok in H as (? & _ & H).
  cbv zeta in H. apply ensure_size_Ok in H as (-> & _). rewrite negb_true_iff, orb_false_iff, <- not_true_iff_false, len_zero_nil, Z.ltb_ge in A. split; [done|]. split; [|done].
  unfold into_bytes, listings_bytes. rewrite bytes_put_items, bytes_put_compact, Ln, M, <- list_fmap_compose. done.
Qed.
Lemma listing_item_inv d l d' : dec_wf d -> listing_item d = (Ok l, d') -> took d (var_bytes (listing_wire l)) d' /\ FixedPriceListing_wf l.
Proof.
  intros W H. unfold listing_item in H. dbind H as e d1 K1. apply read_varbytes_inv in K1 as (K1 & Le); [|done]. apply lift_res_Ok in H as (H%map_err_Ok & ->).
  apply listing_decode_Ok in H as (Wl & E). unfold listing_wire. by rewrite E.
Qed.
Lemma decode_listings_Ok inp ls : len inp <= MAX_SHAKESCAPE_MARKET_PAYLOAD -> decode_listings inp = Ok ls <-> Forall FixedPriceListing_wf ls /\ encode_listings ls = Ok inp.
Proof.
  intros L. assert (len inp <= isize_max) as Li by (unfold MAX_SHAKESCAPE_MARKET_PAYLOAD, CROSS_CHAIN_MARKET_MAX_PAYLOAD in L; unfold isize_max; lia). unfold decode_listings. split.
  - intros H. apply bind_Ok in H as (l0 & R & H). apply bind_Ok in H as (bs & E & [= ->]). apply run_all_Ok in R as (d & R & F). unfold listings_read in R. dbind R as n d1 K1. dbind R as u d2 K2.
    pose proof (wf_new inp Li) as W0. apply read_compact_usize_inv in K1 as (K1 & Rn & _); [|done]. took_all.
    apply (read_n_inv _ (fun l => var_bytes (listing_wire l)) FixedPriceListing_wf) in R as (T & Fa & Ln); [|exact listing_item_inv|done].
    split; [done|]. pose proof (took_trans _ _ _ _ _ K1 T) as Tt. apply took_finish in Tt; [|done]. assert (n = len ls) as -> by (unfold len; lia).
    fold (listings_bytes ls) in Tt. apply encode_listings_Ok in E as E'. destruct E' as (_ & -> & _). by rewrite <- Tt.
  - intros (W & E). pose proof (encode_listings_Ok _ _ E) as (Fe & Eb & Ne & Ln). apply bind_Ok. exists ls. split; [|by rewrite E]. rewrite Eb in *. apply run_all_reads; [done|].
    unfold listings_read, listings_bytes. pose proof (len_nonneg ls). eapply reads_bind; [apply reads_err, read_compact_usize_reads; [lia|unfold MAX_NAME_OFFERS_PER_MESSAGE in Ln; ulia]|].
    eapply reads_nil_bind; [apply reads_assert; rewrite negb_true_iff, <- not_true_iff_false, len_zero_nil; done|].
    replace (Z.to_nat (len ls)) with (length ls) by (unfold len; lia). apply reads_n. intros d' x Hx. rewrite Forall_forall in Fe, W. specialize (Fe x Hx). specialize (W x Hx).
    pose proof Fe as (_ & _ & Lx)%listing_encode_Ok. unfold listing_item. rewrite <- (app_nil_r (var_bytes _)).
    eapply reads_bind; [apply reads_err, read_varbytes_reads; [done|unfold MAX_FIXED_PRICE_LISTING_SIZE in Lx; ulia]|]. apply reads_res, map_err_Ok, listing_decode_Ok. done.
Qed.
End batches.

(** ** Messages *)
Section messages.
Context {CR : Crypto} {KC : K256} {KD : KeyCodec KC}.

Definition name_typed (m : NameMarketMessage) : Prop :=
  match m with
  | NmHello hello => name_hello_typed hello
  | NmGetOfferInventory => True
  | NmOfferInventory hashes | NmGetOffers hashes => hashes_typed hashes
  | NmOffers listings => Forall FixedPriceListing_wf listings
  | NmGetOffer hash => len hash = 32
  | NmOffer listing => FixedPriceListing_wf listing
  | NmCancel cancellation => ListingCancellation_wf cancellation
  end.
Definition cross_chain_typed (m : CrossChainMessage) : Prop :=
  match m with
  | CcDirectOfferInventory hashes => hashes_typed hashes
  | CcGetDirectOffer hash => len hash = 32
  | CcDirectOffer offer => offer_typed offer
  | CcCancelDirectOffer cancellation => cancellation_typed cancellation
  | CcAcceptDirectOffer acceptance => acceptance_typed acceptance
  | CcSwapSessionHello hello | CcSwapSessionProposal hello => hello_typed hello
  | CcSwapFundingStatus status => funding_typed status
  | CcSwapRedeemStatus status => redeem_typed status
  | CcSwapRefundStatus status => refund_typed status
  | CcSwapWatchReady ready => ready_typed ready
  end.

(** An encoder that numbers its message, checks the size and keeps the payload. *)
Lemma numbered_Ok (t : Z) (r : result MarketplaceError (list byte)) n p :
  (payload ← r; payload ← ensure_size payload MAX_SHAKESCAPE_MARKET_PAYLOAD; Ok (t, payload)) = Ok (n, p) <-> n = t /\ r = Ok p /\ len p <= MAX_SHAKESCAPE_MARKET_PAYLOAD.
Proof.
  split.
  - intros H. apply bind_Ok in H as (q & -> & H). by apply bind_Ok in H as (q' & (-> & L)%ensure_size_Ok & [= <- <-]).
  - intros (-> & -> & L). cbn [mbind result_bind]. apply bind_Ok. exists p. split; [by apply ensure_size_Ok|done].
Qed.
(** One arm of a decoder: the constructor of what the codec reads. *)
Lemma arm_Ok {A M} (dec : result MarketplaceError A) (enc : A -> result MarketplaceError (list byte)) (typed : A -> Prop) (make : A -> M) p m :
  (forall a, dec = Ok a <-> typed a /\ enc a = Ok p) -> (a ← dec; Ok (make a)) = Ok m <-> exists a, m = make a /\ typed a /\ enc a = Ok p.
Proof.
  intros D. split.
  - intros H. apply bind_Ok in H as (a & E%D & [= <-]). by exists a.
  - intros (a & -> & E%D). by rewrite E.
Qed.
Lemma swap_codec_Ok {A} (dec : result SwapError A) (enc : A -> result SwapError (list byte)) (typed : A -> Prop) p :
  (forall a, dec = Ok a <-> typed a /\ enc a = Ok p) -> forall a, map_err MkSwap dec = Ok a <-> typed a /\ map_err MkSwap (enc a) = Ok p.
Proof. intros D a. by rewrite !map_err_Ok. Qed.

Lemma name_payload_codec t p m : name_decode_payload t p = Ok m <-> name_typed m /\ name_encode_payload m = Ok (t, p).
Proof.
  unfold name_encode_payload. destruct (name_message m) as [t' r] eqn:E. rewrite numbered_Ok. unfold name_decode_payload.
  destruct (Z.leb_spec (len p) MAX_SHAKESCAPE_MARKET_PAYLOAD) as [L|L]; [|split; [done|intros (_ & _ & _ & ?); lia]]. cbn [assert_or mbind result_bind].
  destruct (Z.eqb_spec t 1) as [->|N1]; [rewrite (arm_Ok _ _ _ _ _ _ (fun a => name_hello_Ok p a L)); destruct m; naive_solver|].
  destruct (Z.eqb_spec t 2) as [->|N2].
  { unfold require_empty. split; [intros H; apply bind_Ok in H as (? & K%assert_or_Ok%len_zero_nil & [= <-]); naive_solver|]. destruct m; naive_solver. }
  destruct (Z.eqb_spec t 3) as [->|N3]; [rewrite (arm_Ok _ _ _ _ _ _ (fun a => decode_hashes_Ok p true a L)); destruct m; naive_solver|].
  destruct (Z.eqb_spec t 4) as [->|N4]; [rewrite (arm_Ok _ _ _ _ _ _ (fun a => decode_hashes_Ok p false a L)); destruct m; naive_solver|].
  destruct (Z.eqb_spec t 5) as [->|N5]; [rewrite (arm_Ok _ _ _ _ _ _ (fun a => decode_listings_Ok p a L)); destruct m; naive_solver|].
  destruct (Z.eqb_spec t 6) as [->|N6]; [rewrite (arm_Ok _ _ _ _ _ _ (fun a => nonzero_hash_Ok p a L)); destruct m; naive_solver|].
  destruct (Z.eqb_spec t 7) as [->|N7]; [rewrite (arm_Ok _ _ _ _ _ _ (swap_codec_Ok _ _ _ _ (listing_decode_Ok p))); destruct m; naive_solver|].
  destruct (Z.eqb_spec t 8) as [->|N8]; [rewrite (arm_Ok _ _ _ _ _ _ (swap_codec_Ok _ _ _ _ (withdrawn_decode_Ok p))); destruct m; naive_solver|].
  destruct m; naive_solver.
Qed.
Lemma cross_chain_payload_codec t p m : cross_chain_decode_payload t p = Ok m <-> cross_chain_typed m /\ cross_chain_encode_payload m = Ok (t, p).
Proof.
  unfold cross_chain_encode_payload. destruct (cross_chain_message m) as [t' r] eqn:E. rewrite numbered_Ok. unfold cross_chain_decode_payload.
  destruct (Z.leb_spec (len p) MAX_SHAKESCAPE_MARKET_PAYLOAD) as [L|L]; [|split; [done|intros (_ & _ & _ & ?); lia]]. cbn [assert_or mbind result_bind].
  destruct (Z.eqb_spec t 1) as [->|N1]; [rewrite (arm_Ok _ _ _ _ _ _ (fun a => decode_hashes_Ok p true a L)); destruct m; naive_solver|].
  destruct (Z.eqb_spec t 2) as [->|N2]; [rewrite (arm_Ok _ _ _ _ _ _ (fun a => nonzero_hash_Ok p a L)); destruct m; naive_solver|].
  destruct (Z.eqb_spec t 3) as [->|N3]; [rewrite (arm_Ok _ _ _ _ _ _ (offer_codec p)); destruct m; naive_solver|].
  destruct (Z.eqb_spec t 4) as [->|N4]; [rewrite (arm_Ok _ _ _ _ _ _ (offer_cancellation_codec p)); destruct m; naive_solver|].
  destruct (Z.eqb_spec t 5) as [->|N5]; [rewrite (arm_Ok _ _ _ _ _ _ (offer_acceptance_codec p)); destruct m; naive_solver|].
  destruct (Z.eqb_spec t 7) as [->|N7]; [rewrite (arm_Ok _ _ _ _ _ _ (session_hello_codec p)); destruct m; naive_solver|].
  destruct (Z.eqb_spec t 8) as [->|N8]; [rewrite (arm_Ok _ _ _ _ _ _ (funding_codec p)); destruct m; naive_solver|].
  destruct (Z.eqb_spec t 9) as [->|N9]; [rewrite (arm_Ok _ _ _ _ _ _ (redeem_codec p)); destruct m; naive_solver|].
  destruct (Z.eqb_spec t 10) as [->|N10]; [rewrite (arm_Ok _ _ _ _ _ _ (refund_codec p)); destruct m; naive_solver|].
  destruct (Z.eqb_spec t 6) as [->|N6]; [rewrite (arm_Ok _ _ _ _ _ _ (session_proposal_codec p)); destruct m; naive_solver|].
  destruct (Z.eqb_spec t 11) as [->|N11]; [rewrite (arm_Ok _ _ _ _ _ _ (ready_codec p)); destruct m; naive_solver|].
  destruct m; naive_solver.
Qed.

Lemma name_type_small m t p : name_encode_payload m = Ok (t, p) -> u16 t.
Proof. unfold name_encode_payload. destruct (name_message m) as [t' r] eqn:E. intros (-> & _)%numbered_Ok. destruct m; injection E as <- _; split; (lia || done). Qed.
Lemma cross_chain_type_small m t p : cross_chain_encode_payload m = Ok (t, p) -> u16 t.
Proof. unfold cross_chain_encode_payload. destruct (cross_chain_message m) as [t' r] eqn:E. intros (-> & _)%numbered_Ok. destruct m; injection E as <- _; split; (lia || done). Qed.
Lemma payload_small e maximum bs : Envelope_encode e maximum = Ok bs -> len (ev_payload e) <= maximum.
Proof. by intros (L & _)%envelope_encode_Ok. Qed.

(** C40. Market messages have one spelling: a packet is read as a message of the name market
    or of the cross-chain market exactly when it is the encoding, in an envelope of the
    registry's protocol and version, of that well-typed message under that request
    identifier. Signed messages, listings and inventories are therefore checked on both
    ends alike, and every message that encodes is read back. *)
Theorem market_envelope_codec inp request_id : len inp <= isize_max ->
  (forall v m, name_decode_envelope inp = Ok (v, request_id, m) <-> u64 request_id /\ name_typed m /\ name_encode_envelope m v request_id = Ok inp) /\
  (forall m, cross_chain_decode_envelope inp = Ok (request_id, m) <-> u64 request_id /\ cross_chain_typed m /\ cross_chain_encode_envelope m request_id = Ok inp).
Proof.
  intros L. split.
  - intros [] m. unfold name_decode_envelope, name_encode_envelope. split.
    + intros H. apply bind_Ok in H as (e & D & H). apply map_err_Ok, envelope_decode_Ok in D as (W & E); [|done]. unfold RegistryVersion_try_from in H. destruct (Z.eqb_spec (ev_registry_version e) SHAKESCAPE_V1_REGISTRY_VERSION) as [Rv|]; [|done].
      cbn [mbind result_bind] in H. apply bind_Ok in H as (? & C%assert_or_Ok & H). apply bind_Ok in H as (m' & (T & P)%name_payload_codec & [= <- <-]).
      rewrite negb_true_iff, !orb_false_iff, !negb_false_iff, !Z.eqb_eq in C. destruct C as (((C1 & C2) & C3) & _). split; [apply W|]. split; [done|]. rewrite P. cbn [mbind result_bind]. apply map_err_Ok.
      destruct e. cbn in *. by subst.
    + intros (U & T & H). apply bind_Ok in H as ([t p] & P & E%map_err_Ok). pose proof (payload_small _ _ _ E) as Lp. cbn in Lp. apply bind_Ok. eexists. split; [apply map_err_Ok, envelope_decode_Ok; [done|]; split; [|exact E]|].
      { pose proof (name_type_small _ _ _ P). split; cbn; try done; split; (lia || done). }
      cbn [ev_registry_version ev_protocol_id ev_protocol_version ev_message_type ev_flags ev_request_id ev_payload registry_version_u16 RegistryVersion_try_from mbind result_bind Z.eqb Pos.eqb].
      cbn. rewrite (proj2 (Z.ltb_ge _ _) Lp). cbn. apply bind_Ok. exists m. split; [by apply name_payload_codec|done].
  - intros m. unfold cross_chain_decode_envelope, cross_chain_encode_envelope. split.
    + intros H. apply bind_Ok in H as (e & D & H). apply map_err_Ok, envelope_decode_Ok in D as (W & E); [|done]. apply bind_Ok in H as (? & C%assert_or_Ok & H). apply bind_Ok in H as (m' & (T & P)%cross_chain_payload_codec & [= <- <-]).
      rewrite negb_true_iff, !orb_false_iff, !negb_false_iff, !Z.eqb_eq in C. destruct C as ((((C0 & C1) & C2) & C3) & _). split; [apply W|]. split; [done|]. rewrite P. cbn [mbind result_bind]. apply map_err_Ok.
      destruct e. cbn in *. by subst.
    + intros (U & T & H). apply bind_Ok in H as ([t p] & P & E%map_err_Ok). pose proof (payload_small _ _ _ E) as Lp. cbn in Lp. apply bind_Ok. eexists. split; [apply map_err_Ok, envelope_decode_Ok; [done|]; split; [|exact E]|].
      { pose proof (cross_chain_type_small _ _ _ P). split; cbn; try done; split; (lia || done). }
      cbn. rewrite (proj2 (Z.ltb_ge _ _) Lp). cbn. apply bind_Ok. exists m. split; [by apply cross_chain_payload_codec|done].
Qed.
End messages.

(** ** Example: the session hello in an envelope *)
Section example.
#[local] Existing Instances toy_crypto toy_k256 toy_codec.

Definition hello_packet : list byte := match cross_chain_encode_envelope (CcSwapSessionHello signed_hello) 9 with Ok packet => packet | Err _ => [] end.
Lemma hello_packet_encodes : cross_chain_encode_envelope (CcSwapSessionHello signed_hello) 9 = Ok hello_packet.
Proof. vm_compute. reflexivity. Qed.
Lemma hello_packet_len : len hello_packet <= isize_max.
Proof. vm_compute. discriminate. Qed.
Lemma market_envelope_codec_witness : cross_chain_decode_envelope hello_packet = Ok (9, CcSwapSessionHello signed_hello).
Proof.
  apply (proj2 (market_envelope_codec hello_packet 9 hello_packet_len) (CcSwapSessionHello signed_hello)).
  split; [apply (within 0 u64_max); reflexivity|]. split; [exact signed_typed|exact hello_packet_encodes].
Defined.
End example.
