(* ===== verification/MarketReceipt.v ===== *)
(** * hns-marketplace-protocol: relay acceptance receipts

    Models [crates/hns-marketplace-protocol/src/relay_acceptance.rs]: the policy of a
    named relay endpoint with its fingerprint, the receipt the endpoint signs for one
    handoff, and its canonical parsing and verification. The module's own cursor has the
    fields of the shared [Decoder] and its own error. *)

From S2P Require Import Prelude Text Encoding Primitives Covenants NameState Transaction Script Interpreter K256 Swap Envelope Market.
Local Open Scope Z_scope.


(** ** Policies *)
Record ShakescapeHrmRootBinding := mkRootBinding {
  rb_subject : list byte;
  rb_sequence : Z;
  rb_envelope_hash : list byte;
  rb_chain_height : Z;
  rb_chain_work_be : list byte;
  rb_chain_anchor : list byte;
}.
#[global] Instance ShakescapeHrmRootBinding_eq_dec : EqDecision ShakescapeHrmRootBinding.
Proof. solve_decision. Defined.
Record ShakescapeHnsaEndpointBinding := mkEndpointBinding {
  eb_canonical_service_name : list byte;
  eb_application_profile_id : Z;
  eb_service_resource_id : list byte;
  eb_service_delegation_id : list byte;
  eb_service_generation : Z;
  eb_endpoint_delegation_id : list byte;
  eb_endpoint_sequence : Z;
  eb_endpoint_public_key : list byte;
  eb_effective_not_before_unix : Z;
  eb_effective_expires_at_unix : Z;
}.
#[global] Instance ShakescapeHnsaEndpointBinding_eq_dec : EqDecision ShakescapeHnsaEndpointBinding.
Proof. solve_decision. Defined.
Record AcceptancePolicy := mkAcceptancePolicy {
  pl_network_magic : Z;
  pl_network_genesis : list byte;
  pl_hrm : ShakescapeHrmRootBinding;
  pl_hnsa : ShakescapeHnsaEndpointBinding;
  pl_maximum_receipt_lifetime_seconds : Z;
  pl_fingerprint : list byte;
}.
#[global] Instance AcceptancePolicy_eq_dec : EqDecision AcceptancePolicy.
Proof. solve_decision. Defined.

Definition policy_network (p : AcceptancePolicy) : NetworkBinding := mkBinding (pl_network_magic p) (pl_network_genesis p).


(** ** Handoffs and receipts *)
Inductive PublicationMessageKind := KindOffer | KindCancellation.
#[global] Instance PublicationMessageKind_eq_dec : EqDecision PublicationMessageKind.
Proof. solve_decision. Defined.

Record AcceptanceExpectation := mkExpectation {
  ex_network_magic : Z;
  ex_network_genesis : list byte;
  ex_attempt_id : list byte;
  ex_record_sequence : Z;
  ex_prepared_at_unix : Z;
  ex_envelope_id : list byte;
  ex_envelope_digest : list byte;
  ex_content_id : list byte;
  ex_message_kind : PublicationMessageKind;
  ex_request_id : Z;
}.
#[global] Instance AcceptanceExpectation_eq_dec : EqDecision AcceptanceExpectation.
Proof. solve_decision. Defined.




Section receipts.
Context {DG : ScriptDigests} {KC : K256} {KD : KeyCodec KC}.






End receipts.







Section receipt_codec.
Context {DG : ScriptDigests} {KC : K256} {KD : KeyCodec KC}.






End receipt_codec.

(** ** Receipts *)
Section receipt_theorems.
Context {DG : ScriptDigests} {KC : K256} {KD : KeyCodec KC}.


Context {KL : K256Laws KC} {DL : KeyCodecLaws KC KD}.


End receipt_theorems.

(** ** Example: a relay accepts an offer *)
Section example.
#[local] Existing Instances toy_digests toy_k256 toy_codec toy_k256_laws toy_codec_laws.

End example.
