(* ===== verification/Hnsr.v ===== *)
(** * hns-hnsr-protocol: packets and signed records

    Models [crates/hns-hnsr-protocol/src/lib.rs], [envelope.rs], [record.rs] and the
    rendezvous contacts of [routing.rs]: the packet envelope, reservation requests,
    relay tickets, endpoint delegations and unnamed route records with their
    signatures, the rule on relay addresses and the withdrawal statement. BLAKE2b,
    secp256k1 and DER are the classes of the other components. *)

From S2P Require Import Prelude Encoding Primitives Covenants Transaction Script Interpreter K256 Chat.
Local Open Scope Z_scope.

Definition HNSR_RENDEZVOUS_SERVICE : Z := 0x04000000.
Definition HNSR_RELAY_SERVICE : Z := 0x08000000.
Definition HNSR_PACKET_TYPE : Z := 0xf3.
Definition HNSR_VERSION : Z := 1.
Definition HNS_NODE_V1 : Z := 1.
Definition HNS_WEB_V1 : Z := 2.
Definition HNS_CHAT_V1 : Z := 3.
Definition HNS_SHAKESCAPE_SWAP_V1 : Z := 4.

Definition HNSR_MAX_PACKET_SIZE : Z := 65535.
Definition MAX_RECORD_SIZE : Z := 8192.
Definition MAX_RECORDS_PER_KEY : Z := 16.
Definition MAX_STORED_RECORDS : Z := 50000.
Definition MAX_CONTACTS : Z := 16.
Definition MAX_DATA_SIZE : Z := 16384.
Definition MAX_CIRCUIT_QUEUE : Z := 65536.
Definition MIN_WINDOW : Z := 16384.
Definition DEFAULT_WINDOW : Z := 65536.
Definition MAX_WINDOW : Z := 1048576.
Definition MAX_TICKET_LIFETIME : Z := 7200.
Definition MAX_ROUTE_LIFETIME : Z := 7200.
Definition MAX_DELEGATION_LIFETIME : Z := 604800.
Definition MAX_CIRCUITS : Z := 32.
Definition MAX_SIGNATURE_SIZE : Z := 80.

Inductive HnsrProtocolError :=
| HpDecode (e : DecodeError)
| HpInvalid (what : string)
| HpTooLarge (actual maximum : Z)
| HpCryptography
| HpOwnerBinding (e : ChatProtocolError)
| HpCapacity
| HpVerificationRateLimited
| HpStaleSequence
| HpConflictingSequence
| HpCorruptLedgerSnapshot
| HpIncompatibleLedgerSnapshot
| HpLedgerRevisionExhausted
| HpCorruptRequesterSnapshot
| HpIncompatibleRequesterSnapshot
| HpRequesterRevisionExhausted
| HpClockRollback.

(** [is_zero] of a slice of any length. *)
Definition all_zero (value : list byte) : bool := forallb (fun b => bool_decide (b = x00)) value.

(** ** The packet envelope *)
Definition HNSR_HEADER_SIZE : Z := 12.

Inductive HnsrOpcode :=
| OpFindNode | OpNodes | OpPutRoute | OpPutResult | OpGetRoute | OpRoutes | OpSampleRoutes | OpReserve | OpOffer | OpConfirm | OpConfirmed
| OpRenew | OpWithdraw | OpOpen | OpIncoming | OpAccept | OpOpened | OpData | OpWindow | OpClose | OpError.
#[global] Instance HnsrOpcode_eq_dec : EqDecision HnsrOpcode.
Proof. solve_decision. Defined.

Definition opcode_u8 (o : HnsrOpcode) : byte :=
  match o with
  | OpFindNode => x00 | OpNodes => x01 | OpPutRoute => x02 | OpPutResult => x03 | OpGetRoute => x04 | OpRoutes => x05 | OpSampleRoutes => x06
  | OpReserve => x07 | OpOffer => x08 | OpConfirm => x09 | OpConfirmed => x0a | OpRenew => x0b | OpWithdraw => x0c | OpOpen => x0d
  | OpIncoming => x0e | OpAccept => x0f | OpOpened => x10 | OpData => x11 | OpWindow => x12 | OpClose => x13 | OpError => x14
  end.
Definition HnsrOpcode_try_from (value : byte) : result HnsrProtocolError HnsrOpcode :=
  match value with
  | x00 => Ok OpFindNode | x01 => Ok OpNodes | x02 => Ok OpPutRoute | x03 => Ok OpPutResult | x04 => Ok OpGetRoute | x05 => Ok OpRoutes
  | x06 => Ok OpSampleRoutes | x07 => Ok OpReserve | x08 => Ok OpOffer | x09 => Ok OpConfirm | x0a => Ok OpConfirmed | x0b => Ok OpRenew
  | x0c => Ok OpWithdraw | x0d => Ok OpOpen | x0e => Ok OpIncoming | x0f => Ok OpAccept | x10 => Ok OpOpened | x11 => Ok OpData
  | x12 => Ok OpWindow | x13 => Ok OpClose | x14 => Ok OpError
  | _ => Err (HpInvalid "unknown HNSR opcode")
  end.

Record HnsrPacket := mkHnsrPacket {
  pk_opcode : HnsrOpcode;
  pk_context_id : list byte;
  pk_body : list byte;
}.
#[global] Instance HnsrPacket_eq_dec : EqDecision HnsrPacket.
Proof. solve_decision. Defined.

Definition HnsrPacket_validate (p : HnsrPacket) : result HnsrProtocolError unit :=
  let total := saturating_add usize_max HNSR_HEADER_SIZE (len (pk_body p)) in
  assert_or (total <=? HNSR_MAX_PACKET_SIZE) (HpTooLarge total HNSR_MAX_PACKET_SIZE) ;;
  assert_or (negb (all_zero (pk_context_id p) && negb (bool_decide (pk_opcode p = OpSampleRoutes)))) (HpInvalid "HNSR context ID is zero").
Definition HnsrPacket_new (opcode : HnsrOpcode) (context_id body : list byte) : result HnsrProtocolError HnsrPacket :=
  let packet := mkHnsrPacket opcode context_id body in
  HnsrPacket_validate packet ;;
  Ok packet.
Definition HnsrPacket_encode (p : HnsrPacket) : result HnsrProtocolError (list byte) :=
  HnsrPacket_validate p ;;
  let encoder := with_capacity (HNSR_HEADER_SIZE + len (pk_body p)) in
  let encoder := put_u8 encoder (z2b HNSR_VERSION) in
  let encoder := put_u8 encoder (opcode_u8 (pk_opcode p)) in
  let encoder := put_u16_le encoder 0 in
  let encoder := put_bytes encoder (pk_context_id p) in
  let encoder := put_bytes encoder (pk_body p) in
  Ok (into_bytes encoder).

Definition rd {A} (m : decM DecodeError A) : decM HnsrProtocolError A := lift_err HpDecode m.
Definition read_packet : decM HnsrProtocolError HnsrPacket :=
  version ← rd read_u8;
  lift_res (assert_or (b2z version =? HNSR_VERSION) (HpInvalid "unknown HNSR version")) ;;
  code ← rd read_u8;
  opcode ← lift_res (HnsrOpcode_try_from code);
  flags ← rd read_u16_le;
  lift_res (assert_or (flags =? 0) (HpInvalid "reserved HNSR flags are set")) ;;
  context_id ← rd (read_array 8);
  decoder ← dec_get;
  body ← rd (read_bounded_vec (remaining decoder) (HNSR_MAX_PACKET_SIZE - HNSR_HEADER_SIZE));
  mret (mkHnsrPacket opcode context_id body).
Definition HnsrPacket_decode (input : list byte) : result HnsrProtocolError HnsrPacket :=
  assert_or (len input <=? HNSR_MAX_PACKET_SIZE) (HpTooLarge (len input) HNSR_MAX_PACKET_SIZE) ;;
  p ← run_all HpDecode read_packet input;
  HnsrPacket_new (pk_opcode p) (pk_context_id p) (pk_body p).

(** ** Signatures *)
Definition RESERVE_DOMAIN : list byte := bstr "HNSR-RESERVE-V1" ++ [x00].
Definition RENEW_DOMAIN : list byte := bstr "HNSR-RENEW-V1" ++ [x00].
Definition TICKET_RELAY_DOMAIN : list byte := bstr "HNSR-RELAY-TICKET-V1" ++ [x00].
Definition TICKET_ENDPOINT_DOMAIN : list byte := bstr "HNSR-RELAY-CONFIRM-V1" ++ [x00].
Definition DELEGATION_DOMAIN : list byte := bstr "HNSR-ENDPOINT-DELEGATION-V1" ++ [x00].
Definition ROUTE_DOMAIN : list byte := bstr "HNSR-ROUTE-RECORD-V1" ++ [x00].
Definition WITHDRAW_DOMAIN : list byte := bstr "HNSR-WITHDRAW-V1" ++ [x00].
Definition PEER_ROUTE_DOMAIN : list byte := bstr "HNSR-PEER-ROUTE-V1" ++ [x00].
Definition RENDEZVOUS_NODE_DOMAIN : list byte := bstr "HNSR-RENDEZVOUS-NODE-V1" ++ [x00].
Definition RELAY_TICKET_UNSIGNED_SIZE : Z := 145.
Definition ENDPOINT_DELEGATION_UNSIGNED_SIZE : Z := 102.
Definition RESERVE_UNSIGNED_SIZE : Z := 65.

Definition encode_signature (encoder : Encoder) (signature : list byte) (allow_empty : bool) : result HnsrProtocolError Encoder :=
  assert_or (negb ((negb allow_empty && (len signature =? 0)) || (MAX_SIGNATURE_SIZE <? len signature))) (HpInvalid "invalid HNSR signature length") ;;
  Ok (put_bytes (put_u8 encoder (z2b (len signature))) signature).
Definition decode_signature (allow_empty : bool) : decM HnsrProtocolError (list byte) :=
  length ← rd read_u8;
  lift_res (assert_or (negb ((negb allow_empty && (b2z length =? 0)) || (MAX_SIGNATURE_SIZE <? b2z length))) (HpInvalid "invalid HNSR signature length")) ;;
  rd (read_bounded_vec (b2z length) MAX_SIGNATURE_SIZE).

(** ** Relay addresses *)
Inductive IpAddr := V4 (octets : list Z) | V6 (octets : list byte).
Definition oct (l : list Z) (i : nat) : Z := default 0 (l !! i).
Definition ipv4_is_private (a : list Z) : bool :=
  (oct a 0 =? 10) || ((oct a 0 =? 172) && (16 <=? oct a 1) && (oct a 1 <=? 31)) || ((oct a 0 =? 192) && (oct a 1 =? 168)).
Definition ipv4_is_documentation (a : list Z) : bool :=
  ((oct a 0 =? 192) && (oct a 1 =? 0) && (oct a 2 =? 2)) || ((oct a 0 =? 198) && (oct a 1 =? 51) && (oct a 2 =? 100)) ||
  ((oct a 0 =? 203) && (oct a 1 =? 0) && (oct a 2 =? 113)).
Definition ipv4_publicly_routable (a : list Z) : bool :=
  negb (ipv4_is_private a || (oct a 0 =? 127) || ((oct a 0 =? 169) && (oct a 1 =? 254)) || bool_decide (a = [255; 255; 255; 255]) ||
        ipv4_is_documentation a || ((224 <=? oct a 0) && (oct a 0 <=? 239)) || bool_decide (a = [0; 0; 0; 0]) ||
        (oct a 0 =? 0) || ((oct a 0 =? 100) && ((64 <=? oct a 1) && (oct a 1 <=? 127))) ||
        ((oct a 0 =? 198) && ((oct a 1 =? 18) || (oct a 1 =? 19))) || (240 <=? oct a 0)).
Definition to_ipv4_mapped (host : list byte) : option (list Z) :=
  if bool_decide (take 12 host = zeros 10 ++ [xff; xff]) then Some (b2z <$> drop 12 host) else None.
Definition segment (host : list byte) (i : nat) : Z := from_be_bytes (take 2 (drop (2 * i) host)).
Definition is_publicly_routable (address : IpAddr) : bool :=
  match address with
  | V4 a => ipv4_publicly_routable a
  | V6 host =>
    match to_ipv4_mapped host with
    | Some mapped => ipv4_publicly_routable mapped
    | None =>
      negb (bool_decide (host = zeros 15 ++ [x01]) || bool_decide (head host = Some xff) || bool_decide (host = zeros 16) ||
            (Z.land (segment host 0) 0xfe00 =? 0xfc00) || (Z.land (segment host 0) 0xffc0 =? 0xfe80) ||
            ((segment host 0 =? 0x2001) && (segment host 1 =? 0x0db8)))
    end
  end.

Definition validate_host (host_type : byte) (host : list byte) (port : Z) (allow_private : bool) : result HnsrProtocolError unit :=
  assert_or (negb ((port =? 0) || negb (bool_decide (host_type = x01) || bool_decide (host_type = x02)))) (HpInvalid "invalid HNSR relay address") ;;
  if allow_private then Ok tt
  else
    address ← (if bool_decide (host_type = x01) && bool_decide (take 10 host = zeros 10) && bool_decide (take 2 (drop 10 host) = [xff; xff])
               then Ok (V4 (b2z <$> drop 12 host))
               else if bool_decide (host_type = x02) then Ok (V6 host)
               else Err (HpInvalid "noncanonical HNSR host encoding"));
    assert_or (is_publicly_routable address) (HpInvalid "HNSR address is not publicly routable").

(** ** Records *)
Record ReserveRequest := mkReserve {
  rr_endpoint_key : list byte;
  rr_profile : Z;
  rr_lifetime : Z;
  rr_max_circuits : Z;
  rr_max_bytes : Z;
  rr_nonce : list byte;
  rr_signature : list byte;
}.
#[global] Instance ReserveRequest_eq_dec : EqDecision ReserveRequest.
Proof. solve_decision. Defined.
Definition with_request_signature (r : ReserveRequest) (signature : list byte) : ReserveRequest :=
  mkReserve (rr_endpoint_key r) (rr_profile r) (rr_lifetime r) (rr_max_circuits r) (rr_max_bytes r) (rr_nonce r) signature.

Record RelayTicket := mkTicket {
  tk_network_magic : Z;
  tk_profile : Z;
  tk_transport : byte;
  tk_host_type : byte;
  tk_host : list byte;
  tk_port : Z;
  tk_relay_key : list byte;
  tk_endpoint_key : list byte;
  tk_reservation_id : list byte;
  tk_issued_at : Z;
  tk_expires_at : Z;
  tk_max_active_circuits : Z;
  tk_max_bytes_per_circuit : Z;
  tk_max_total_bytes : Z;
  tk_flags : Z;
  tk_relay_signature : list byte;
  tk_endpoint_signature : list byte;
}.
#[global] Instance RelayTicket_eq_dec : EqDecision RelayTicket.
Proof. solve_decision. Defined.
Definition with_ticket_signatures (t : RelayTicket) (relay endpoint : list byte) : RelayTicket :=
  mkTicket (tk_network_magic t) (tk_profile t) (tk_transport t) (tk_host_type t) (tk_host t) (tk_port t) (tk_relay_key t) (tk_endpoint_key t)
    (tk_reservation_id t) (tk_issued_at t) (tk_expires_at t) (tk_max_active_circuits t) (tk_max_bytes_per_circuit t) (tk_max_total_bytes t)
    (tk_flags t) relay endpoint.

Record EndpointDelegation := mkDelegation {
  dl_authorization_id : list byte;
  dl_endpoint_key : list byte;
  dl_sequence : Z;
  dl_issued_at : Z;
  dl_expires_at : Z;
  dl_max_active_circuits : Z;
  dl_max_bytes_per_circuit : Z;
  dl_flags : Z;
  dl_signature : list byte;
}.
#[global] Instance EndpointDelegation_eq_dec : EqDecision EndpointDelegation.
Proof. solve_decision. Defined.
Definition with_delegation_signature (d : EndpointDelegation) (signature : list byte) : EndpointDelegation :=
  mkDelegation (dl_authorization_id d) (dl_endpoint_key d) (dl_sequence d) (dl_issued_at d) (dl_expires_at d) (dl_max_active_circuits d)
    (dl_max_bytes_per_circuit d) (dl_flags d) signature.

Record RouteRecord := mkRoute {
  rt_route_key : list byte;
  rt_profile : Z;
  rt_sequence : Z;
  rt_issued_at : Z;
  rt_expires_at : Z;
  rt_authorization : list byte;
  rt_delegation : EndpointDelegation;
  rt_tickets : list RelayTicket;
  rt_endpoint_signature : list byte;
}.
#[global] Instance RouteRecord_eq_dec : EqDecision RouteRecord.
Proof. solve_decision. Defined.
Definition with_route_signature (r : RouteRecord) (signature : list byte) : RouteRecord :=
  mkRoute (rt_route_key r) (rt_profile r) (rt_sequence r) (rt_issued_at r) (rt_expires_at r) (rt_authorization r) (rt_delegation r) (rt_tickets r) signature.

Record RendezvousContact := mkContact {
  ct_node_id : list byte;
  ct_host_type : byte;
  ct_host : list byte;
  ct_port : Z;
  ct_services : Z;
  ct_peer_key : list byte;
  ct_observed_at : Z;
}.

Definition validate_limits_for_profile (r : ReserveRequest) (expected_profile : Z) : result HnsrProtocolError unit :=
  assert_or (negb ((expected_profile =? 0) || negb (rr_profile r =? expected_profile) ||
                   negb ((300 <=? rr_lifetime r) && (rr_lifetime r <=? MAX_TICKET_LIFETIME)) ||
                   negb ((1 <=? rr_max_circuits r) && (rr_max_circuits r <=? MAX_CIRCUITS)) || (rr_max_bytes r =? 0)))
    (HpInvalid "HNSR reservation exceeds protocol limits").
Definition validate_limits (r : ReserveRequest) : result HnsrProtocolError unit := validate_limits_for_profile r HNS_NODE_V1.

(** The fields a decoder reads, in order. *)
Definition read_reserve : decM HnsrProtocolError ReserveRequest :=
  endpoint_key ← rd (read_array 33);
  profile ← rd read_u16_le;
  lifetime ← rd read_u32_le;
  max_circuits ← rd read_u16_le;
  max_bytes ← rd read_u64_le;
  nonce ← rd (read_array 16);
  signature ← decode_signature false;
  mret (mkReserve endpoint_key profile lifetime max_circuits max_bytes nonce signature).
Definition read_ticket_fields : decM HnsrProtocolError RelayTicket :=
  version ← rd read_u8;
  lift_res (assert_or (b2z version =? 1) (HpInvalid "unsupported HNSR ticket version")) ;;
  network_magic ← rd read_u32_le;
  profile ← rd read_u16_le;
  transport ← rd read_u8;
  host_type ← rd read_u8;
  host ← rd (read_array 16);
  port ← rd read_u16_le;
  relay_key ← rd (read_array 33);
  endpoint_key ← rd (read_array 33);
  reservation_id ← rd (read_array 16);
  issued_at ← rd read_u64_le;
  expires_at ← rd read_u64_le;
  max_active_circuits ← rd read_u16_le;
  max_bytes_per_circuit ← rd read_u64_le;
  max_total_bytes ← rd read_u64_le;
  flags ← rd read_u16_le;
  relay_signature ← decode_signature false;
  endpoint_signature ← decode_signature true;
  mret (mkTicket network_magic profile transport host_type host port relay_key endpoint_key reservation_id issued_at expires_at
    max_active_circuits max_bytes_per_circuit max_total_bytes flags relay_signature endpoint_signature).
Definition read_delegation : decM HnsrProtocolError EndpointDelegation :=
  version ← rd read_u8;
  lift_res (assert_or (b2z version =? 1) (HpInvalid "unsupported HNSR delegation version")) ;;
  authorization_id ← rd (read_array 32);
  endpoint_key ← rd (read_array 33);
  sequence ← rd read_u64_le;
  issued_at ← rd read_u64_le;
  expires_at ← rd read_u64_le;
  max_active_circuits ← rd read_u16_le;
  max_bytes_per_circuit ← rd read_u64_le;
  flags ← rd read_u16_le;
  signature ← decode_signature false;
  mret (mkDelegation authorization_id endpoint_key sequence issued_at expires_at max_active_circuits max_bytes_per_circuit flags signature).
Definition read_contact_fields : decM HnsrProtocolError RendezvousContact :=
  node_id ← rd (read_array 32);
  host_type ← rd read_u8;
  host ← rd (read_array 16);
  port ← rd read_u16_le;
  services ← rd read_u64_le;
  peer_key ← rd (read_array 33);
  observed_at ← rd read_u64_le;
  mret (mkContact node_id host_type host port services peer_key observed_at).

Section records.
Context {CR : Crypto} {KC : K256} {KD : KeyCodec KC}.

Definition validate_public_key (key : list byte) : result HnsrProtocolError unit :=
  assert_or (sec1_key_ok key) (HpInvalid "invalid HNSR peer key").
Definition blake2b_256 (parts : list (list byte)) : list byte := blake2b 32 (mjoin parts).
Definition signing_key (private_key : list byte) : result HnsrProtocolError SigningKey :=
  ok_or (signing_key_from_bytes private_key) HpCryptography.
Definition public_key (private_key : list byte) : result HnsrProtocolError (list byte) :=
  key ← signing_key private_key;
  assert_or (len (verifying_key key) =? 33) HpCryptography ;;
  Ok (verifying_key key).
Definition sign (domain : list byte) (parts : list (list byte)) (private_key : list byte) : result HnsrProtocolError (list byte) :=
  key ← signing_key private_key;
  let digest := blake2b_256 (domain :: parts) in
  signature ← ok_or (sign_prehash key digest) HpCryptography;
  Ok (to_der (low_s signature)).
Definition verify (domain : list byte) (parts : list (list byte)) (signature public_key : list byte) : result HnsrProtocolError unit :=
  validate_public_key public_key ;;
  assert_or (negb ((len signature =? 0) || (MAX_SIGNATURE_SIZE <? len signature))) (HpInvalid "invalid HNSR signature length") ;;
  signature ← ok_or (from_der signature) HpCryptography;
  assert_or (negb (is_high signature)) HpCryptography ;;
  let digest := blake2b_256 (domain :: parts) in
  assert_or (sec1_key_ok public_key) HpCryptography ;;
  assert_or (verify_prehash public_key digest signature) HpCryptography.

(** ** Reservation requests *)
Definition reserve_encode_unsigned (r : ReserveRequest) : result HnsrProtocolError (list byte) :=
  validate_public_key (rr_endpoint_key r) ;;
  assert_or (negb (all_zero (rr_nonce r))) (HpInvalid "HNSR reservation nonce is zero") ;;
  let encoder := with_capacity RESERVE_UNSIGNED_SIZE in
  let encoder := put_bytes encoder (rr_endpoint_key r) in
  let encoder := put_u16_le encoder (rr_profile r) in
  let encoder := put_u32_le encoder (rr_lifetime r) in
  let encoder := put_u16_le encoder (rr_max_circuits r) in
  let encoder := put_u64_le encoder (rr_max_bytes r) in
  let encoder := put_bytes encoder (rr_nonce r) in
  Ok (into_bytes encoder).
Definition reserve_signature_data (r : ReserveRequest) (network_magic : Z) (relay_key context_id : list byte) : result HnsrProtocolError (list byte) :=
  validate_public_key relay_key ;;
  assert_or (negb (all_zero context_id)) (HpInvalid "HNSR context ID is zero") ;;
  unsigned ← reserve_encode_unsigned r;
  Ok (to_le_bytes 4 network_magic ++ relay_key ++ context_id ++ unsigned).
Definition reserve_renewal_data (r : ReserveRequest) (network_magic : Z) (relay_key context_id reservation_id : list byte) : result HnsrProtocolError (list byte) :=
  assert_or (negb (all_zero reservation_id)) (HpInvalid "HNSR reservation ID is zero") ;;
  base ← reserve_signature_data r network_magic relay_key context_id;
  let unsigned_offset := 4 + 33 + 8 in
  Ok (slice base 0 unsigned_offset ++ reservation_id ++ slice base unsigned_offset (len base)).
Definition reserve_sign (r : ReserveRequest) (network_magic : Z) (relay_key context_id private_key : list byte) : result HnsrProtocolError ReserveRequest :=
  data ← reserve_signature_data r network_magic relay_key context_id;
  signature ← sign RESERVE_DOMAIN [data] private_key;
  Ok (with_request_signature r signature).
Definition reserve_verify (r : ReserveRequest) (network_magic : Z) (relay_key context_id : list byte) : result HnsrProtocolError unit :=
  data ← reserve_signature_data r network_magic relay_key context_id;
  verify RESERVE_DOMAIN [data] (rr_signature r) (rr_endpoint_key r).
Definition sign_renewal (r : ReserveRequest) (network_magic : Z) (relay_key context_id reservation_id private_key : list byte) : result HnsrProtocolError ReserveRequest :=
  data ← reserve_renewal_data r network_magic relay_key context_id reservation_id;
  signature ← sign RENEW_DOMAIN [data] private_key;
  Ok (with_request_signature r signature).
Definition verify_renewal (r : ReserveRequest) (network_magic : Z) (relay_key context_id reservation_id : list byte) : result HnsrProtocolError unit :=
  data ← reserve_renewal_data r network_magic relay_key context_id reservation_id;
  verify RENEW_DOMAIN [data] (rr_signature r) (rr_endpoint_key r).
Definition reserve_encode (r : ReserveRequest) : result HnsrProtocolError (list byte) :=
  unsigned ← reserve_encode_unsigned r;
  let encoder := with_capacity (len unsigned + 1 + len (rr_signature r)) in
  let encoder := put_bytes encoder unsigned in
  encoder ← encode_signature encoder (rr_signature r) false;
  Ok (into_bytes encoder).
Definition reserve_decode (input : list byte) : result HnsrProtocolError ReserveRequest :=
  request ← run_all HpDecode read_reserve input;
  reserve_encode_unsigned request ;;
  Ok request.

(** ** Relay tickets *)
Definition ticket_encode_unsigned (t : RelayTicket) : result HnsrProtocolError (list byte) :=
  validate_public_key (tk_relay_key t) ;;
  validate_public_key (tk_endpoint_key t) ;;
  assert_or (negb (all_zero (tk_reservation_id t))) (HpInvalid "HNSR reservation ID is zero") ;;
  let encoder := with_capacity RELAY_TICKET_UNSIGNED_SIZE in
  let encoder := put_u8 encoder x01 in
  let encoder := put_u32_le encoder (tk_network_magic t) in
  let encoder := put_u16_le encoder (tk_profile t) in
  let encoder := put_u8 encoder (tk_transport t) in
  let encoder := put_u8 encoder (tk_host_type t) in
  let encoder := put_bytes encoder (tk_host t) in
  let encoder := put_u16_le encoder (tk_port t) in
  let encoder := put_bytes encoder (tk_relay_key t) in
  let encoder := put_bytes encoder (tk_endpoint_key t) in
  let encoder := put_bytes encoder (tk_reservation_id t) in
  let encoder := put_u64_le encoder (tk_issued_at t) in
  let encoder := put_u64_le encoder (tk_expires_at t) in
  let encoder := put_u16_le encoder (tk_max_active_circuits t) in
  let encoder := put_u64_le encoder (tk_max_bytes_per_circuit t) in
  let encoder := put_u64_le encoder (tk_max_total_bytes t) in
  let encoder := put_u16_le encoder (tk_flags t) in
  Ok (into_bytes encoder).
Definition sign_relay (t : RelayTicket) (private_key : list byte) : result HnsrProtocolError RelayTicket :=
  unsigned ← ticket_encode_unsigned t;
  signature ← sign TICKET_RELAY_DOMAIN [unsigned] private_key;
  Ok (with_ticket_signatures t signature (tk_endpoint_signature t)).
Definition verify_relay (t : RelayTicket) : result HnsrProtocolError unit :=
  unsigned ← ticket_encode_unsigned t;
  verify TICKET_RELAY_DOMAIN [unsigned] (tk_relay_signature t) (tk_relay_key t).
Definition sign_endpoint (t : RelayTicket) (private_key : list byte) : result HnsrProtocolError RelayTicket :=
  verify_relay t ;;
  unsigned ← ticket_encode_unsigned t;
  signature ← sign TICKET_ENDPOINT_DOMAIN [unsigned; tk_relay_signature t] private_key;
  Ok (with_ticket_signatures t (tk_relay_signature t) signature).
Definition verify_endpoint (t : RelayTicket) : result HnsrProtocolError unit :=
  unsigned ← ticket_encode_unsigned t;
  verify TICKET_ENDPOINT_DOMAIN [unsigned; tk_relay_signature t] (tk_endpoint_signature t) (tk_endpoint_key t).

(** The conditions on a ticket's fields. *)
Definition ticket_fields_ok (t : RelayTicket) (expected_network_magic expected_profile now : Z) : bool :=
  negb (negb (tk_network_magic t =? expected_network_magic) || (expected_profile =? 0) || negb (tk_profile t =? expected_profile) ||
        negb (bool_decide (tk_transport t = x00)) || negb (tk_flags t =? 0) || bool_decide (tk_relay_key t = tk_endpoint_key t) ||
        negb ((1 <=? tk_max_active_circuits t) && (tk_max_active_circuits t <=? MAX_CIRCUITS)) || (tk_max_bytes_per_circuit t =? 0) ||
        (tk_max_total_bytes t <? tk_max_bytes_per_circuit t) || (tk_expires_at t <=? tk_issued_at t) ||
        (MAX_TICKET_LIFETIME <? saturating_sub (tk_expires_at t) (tk_issued_at t)) || (now <? tk_issued_at t) || (tk_expires_at t <=? now)).
Definition verify_for_profile (t : RelayTicket) (expected_network_magic expected_profile now : Z) (allow_private : bool) : result HnsrProtocolError unit :=
  assert_or (ticket_fields_ok t expected_network_magic expected_profile now) (HpInvalid "invalid HNSR relay ticket") ;;
  validate_host (tk_host_type t) (tk_host t) (tk_port t) allow_private ;;
  verify_relay t ;;
  verify_endpoint t.
Definition ticket_verify (t : RelayTicket) (expected_network_magic now : Z) (allow_private : bool) : result HnsrProtocolError unit :=
  verify_for_profile t expected_network_magic HNS_NODE_V1 now allow_private.
Definition ticket_encode (t : RelayTicket) : result HnsrProtocolError (list byte) :=
  unsigned ← ticket_encode_unsigned t;
  let encoder := with_capacity (len unsigned + 2 + len (tk_relay_signature t) + len (tk_endpoint_signature t)) in
  let encoder := put_bytes encoder unsigned in
  encoder ← encode_signature encoder (tk_relay_signature t) false;
  encoder ← encode_signature encoder (tk_endpoint_signature t) true;
  Ok (into_bytes encoder).
Definition ticket_id (t : RelayTicket) : result HnsrProtocolError (list byte) :=
  encoded ← ticket_encode t;
  Ok (blake2b_256 [encoded]).
Definition read_ticket : decM HnsrProtocolError RelayTicket :=
  ticket ← read_ticket_fields;
  lift_res (ticket_encode_unsigned ticket) ;;
  mret ticket.
Definition ticket_decode (input : list byte) : result HnsrProtocolError RelayTicket := run_all HpDecode read_ticket input.

(** ** Endpoint delegations *)
Definition delegation_encode_unsigned (d : EndpointDelegation) : result HnsrProtocolError (list byte) :=
  validate_public_key (dl_endpoint_key d) ;;
  let encoder := with_capacity ENDPOINT_DELEGATION_UNSIGNED_SIZE in
  let encoder := put_u8 encoder x01 in
  let encoder := put_bytes encoder (dl_authorization_id d) in
  let encoder := put_bytes encoder (dl_endpoint_key d) in
  let encoder := put_u64_le encoder (dl_sequence d) in
  let encoder := put_u64_le encoder (dl_issued_at d) in
  let encoder := put_u64_le encoder (dl_expires_at d) in
  let encoder := put_u16_le encoder (dl_max_active_circuits d) in
  let encoder := put_u64_le encoder (dl_max_bytes_per_circuit d) in
  let encoder := put_u16_le encoder (dl_flags d) in
  Ok (into_bytes encoder).
Definition delegation_sign (d : EndpointDelegation) (network_magic : Z) (private_key : list byte) : result HnsrProtocolError EndpointDelegation :=
  unsigned ← delegation_encode_unsigned d;
  signature ← sign DELEGATION_DOMAIN [to_le_bytes 4 network_magic; unsigned] private_key;
  Ok (with_delegation_signature d signature).
Definition delegation_fields_ok (d : EndpointDelegation) (now : Z) : bool :=
  negb (negb (all_zero (dl_authorization_id d)) || (dl_sequence d =? 0) || (dl_expires_at d <=? dl_issued_at d) ||
        (MAX_DELEGATION_LIFETIME <? saturating_sub (dl_expires_at d) (dl_issued_at d)) || (now <? dl_issued_at d) || (dl_expires_at d <=? now) ||
        negb ((1 <=? dl_max_active_circuits d) && (dl_max_active_circuits d <=? MAX_CIRCUITS)) || (dl_max_bytes_per_circuit d =? 0) || negb (dl_flags d =? 0)).
Definition delegation_verify (d : EndpointDelegation) (network_magic now : Z) : result HnsrProtocolError unit :=
  assert_or (delegation_fields_ok d now) (HpInvalid "invalid HNSR endpoint delegation") ;;
  unsigned ← delegation_encode_unsigned d;
  verify DELEGATION_DOMAIN [to_le_bytes 4 network_magic; unsigned] (dl_signature d) (dl_endpoint_key d).
Definition delegation_encode (d : EndpointDelegation) : result HnsrProtocolError (list byte) :=
  unsigned ← delegation_encode_unsigned d;
  let encoder := with_capacity (len unsigned + 1 + len (dl_signature d)) in
  let encoder := put_bytes encoder unsigned in
  encoder ← encode_signature encoder (dl_signature d) false;
  Ok (into_bytes encoder).
Definition delegation_decode (input : list byte) : result HnsrProtocolError EndpointDelegation :=
  delegation ← run_all HpDecode read_delegation input;
  delegation_encode_unsigned delegation ;;
  Ok delegation.

(** ** Rendezvous keys and contacts *)
Definition route_key (network_magic : Z) (endpoint_key : list byte) : result HnsrProtocolError (list byte) :=
  validate_public_key endpoint_key ;;
  Ok (blake2b_256 [PEER_ROUTE_DOMAIN; to_le_bytes 4 network_magic; endpoint_key]).
Definition rendezvous_node_id (network_magic : Z) (peer_key : list byte) : result HnsrProtocolError (list byte) :=
  validate_public_key peer_key ;;
  Ok (blake2b_256 [RENDEZVOUS_NODE_DOMAIN; to_le_bytes 4 network_magic; peer_key]).
Definition contact_verify (c : RendezvousContact) (network_magic now : Z) (allow_private : bool) : result HnsrProtocolError unit :=
  assert_or (negb ((Z.land (ct_services c) HNSR_RENDEZVOUS_SERVICE =? 0) || (saturating_add u64_max now 600 <? ct_observed_at c) ||
                   (86400 <? saturating_sub now (ct_observed_at c)))) (HpInvalid "invalid HNSR rendezvous contact") ;;
  node_id ← rendezvous_node_id network_magic (ct_peer_key c);
  assert_or (bool_decide (ct_node_id c = node_id)) (HpInvalid "invalid HNSR rendezvous contact") ;;
  validate_host (ct_host_type c) (ct_host c) (ct_port c) allow_private.
Definition contact_encode (c : RendezvousContact) : result HnsrProtocolError (list byte) :=
  validate_public_key (ct_peer_key c) ;;
  assert_or (negb (negb (bool_decide (ct_host_type c = x01) || bool_decide (ct_host_type c = x02)) || (ct_port c =? 0)))
    (HpInvalid "invalid HNSR rendezvous address") ;;
  let encoder := with_capacity 100 in
  let encoder := put_bytes encoder (ct_node_id c) in
  let encoder := put_u8 encoder (ct_host_type c) in
  let encoder := put_bytes encoder (ct_host c) in
  let encoder := put_u16_le encoder (ct_port c) in
  let encoder := put_u64_le encoder (ct_services c) in
  let encoder := put_bytes encoder (ct_peer_key c) in
  let encoder := put_u64_le encoder (ct_observed_at c) in
  Ok (into_bytes encoder).
Definition read_contact : decM HnsrProtocolError RendezvousContact :=
  contact ← read_contact_fields;
  lift_res (contact_encode contact) ;;
  mret contact.
Definition contact_decode (input : list byte) : result HnsrProtocolError RendezvousContact := run_all HpDecode read_contact input.

(** ** Route records *)
(** The encoded tickets and the size they add up to. *)
Definition encode_ticket_into (acc : Z * list (list byte)) (t : RelayTicket) : result HnsrProtocolError (Z * list (list byte)) :=
  encoded ← ticket_encode t;
  Ok (saturating_add usize_max (fst acc) (len encoded), snd acc ++ [encoded]).
Definition route_encode_unsigned (r : RouteRecord) : result HnsrProtocolError (list byte) :=
  assert_or (negb (negb (rt_profile r =? HNS_NODE_V1) || (u16_max <? len (rt_authorization r)) || (len (rt_tickets r) =? 0) || (8 <? len (rt_tickets r))))
    (HpInvalid "invalid HNSR route record fields") ;;
  delegation ← delegation_encode (rt_delegation r);
  assert_or (len delegation <=? u16_max) (HpTooLarge (len delegation) u16_max) ;;
  '(size, encoded_tickets) ← try_fold encode_ticket_into (65 + len (rt_authorization r) + len delegation, []) (rt_tickets r);
  assert_or (size <=? MAX_RECORD_SIZE) (HpTooLarge size MAX_RECORD_SIZE) ;;
  let encoder := with_capacity size in
  let encoder := put_u8 encoder x01 in
  let encoder := put_u8 encoder x00 in
  let encoder := put_bytes encoder (rt_route_key r) in
  let encoder := put_u16_le encoder (rt_profile r) in
  let encoder := put_u64_le encoder (rt_sequence r) in
  let encoder := put_u64_le encoder (rt_issued_at r) in
  let encoder := put_u64_le encoder (rt_expires_at r) in
  let encoder := put_u16_le encoder (wrap 16 (len (rt_authorization r))) in
  let encoder := put_bytes encoder (rt_authorization r) in
  let encoder := put_u16_le encoder (wrap 16 (len delegation)) in
  let encoder := put_bytes encoder delegation in
  let encoder := put_u8 encoder (z2b (len encoded_tickets)) in
  let encoder := foldl put_bytes encoder encoded_tickets in
  Ok (into_bytes encoder).
Definition route_sign (r : RouteRecord) (private_key : list byte) : result HnsrProtocolError RouteRecord :=
  unsigned ← route_encode_unsigned r;
  signature ← sign ROUTE_DOMAIN [unsigned] private_key;
  Ok (with_route_signature r signature).
Definition check_route_ticket (r : RouteRecord) (network_magic now : Z) (allow_private : bool) (t : RelayTicket) : result HnsrProtocolError unit :=
  assert_or (negb (negb (bool_decide (tk_endpoint_key t = dl_endpoint_key (rt_delegation r))) || negb (tk_profile t =? rt_profile r) ||
                   (tk_expires_at t <? rt_expires_at r))) (HpInvalid "HNSR route ticket binding mismatch") ;;
  ticket_verify t network_magic now allow_private.
Definition route_verify (r : RouteRecord) (network_magic now : Z) (allow_private : bool) : result HnsrProtocolError unit :=
  assert_or (negb (negb (rt_profile r =? HNS_NODE_V1) || (rt_sequence r =? 0) || (rt_expires_at r <=? rt_issued_at r) ||
                   (MAX_ROUTE_LIFETIME <? saturating_sub (rt_expires_at r) (rt_issued_at r)) || (now <? rt_issued_at r) || (rt_expires_at r <=? now) ||
                   (len (rt_tickets r) =? 0) || (8 <? len (rt_tickets r)))) (HpInvalid "invalid HNSR route record") ;;
  key ← route_key network_magic (dl_endpoint_key (rt_delegation r));
  assert_or (bool_decide (rt_route_key r = key)) (HpInvalid "invalid HNSR route record") ;;
  delegation_verify (rt_delegation r) network_magic now ;;
  assert_or (rt_expires_at r <=? dl_expires_at (rt_delegation r)) (HpInvalid "HNSR delegation expires before route") ;;
  try_each (check_route_ticket r network_magic now allow_private) (rt_tickets r) ;;
  unsigned ← route_encode_unsigned r;
  verify ROUTE_DOMAIN [unsigned] (rt_endpoint_signature r) (dl_endpoint_key (rt_delegation r)).
Definition route_encode (r : RouteRecord) : result HnsrProtocolError (list byte) :=
  unsigned ← route_encode_unsigned r;
  let encoder := with_capacity (len unsigned + 1 + len (rt_endpoint_signature r)) in
  let encoder := put_bytes encoder unsigned in
  encoder ← encode_signature encoder (rt_endpoint_signature r) false;
  let output := into_bytes encoder in
  assert_or (len output <=? MAX_RECORD_SIZE) (HpTooLarge (len output) MAX_RECORD_SIZE) ;;
  Ok output.
Definition read_route : decM HnsrProtocolError RouteRecord :=
  version ← rd read_u8;
  lift_res (assert_or (b2z version =? 1) (HpInvalid "unsupported HNSR route version")) ;;
  authority ← rd read_u8;
  lift_res (assert_or (b2z authority =? 0) (HpInvalid "unsupported HNSR route authority")) ;;
  route_key ← rd (read_array 32);
  profile ← rd read_u16_le;
  sequence ← rd read_u64_le;
  issued_at ← rd read_u64_le;
  expires_at ← rd read_u64_le;
  authorization_length ← rd read_u16_le;
  authorization ← rd (read_bounded_vec authorization_length MAX_RECORD_SIZE);
  delegation_length ← rd read_u16_le;
  lift_res (assert_or (negb ((delegation_length =? 0) || (MAX_RECORD_SIZE <? delegation_length))) (HpInvalid "invalid HNSR delegation length")) ;;
  delegation_bytes ← rd (read_slice delegation_length);
  delegation ← lift_res (delegation_decode delegation_bytes);
  ticket_count ← rd read_u8;
  lift_res (assert_or ((1 <=? b2z ticket_count) && (b2z ticket_count <=? 8)) (HpInvalid "invalid HNSR route ticket count")) ;;
  tickets ← read_n (Z.to_nat (b2z ticket_count)) read_ticket;
  endpoint_signature ← decode_signature false;
  mret (mkRoute route_key profile sequence issued_at expires_at authorization delegation tickets endpoint_signature).
Definition route_decode (input : list byte) : result HnsrProtocolError RouteRecord :=
  assert_or (negb ((len input =? 0) || (MAX_RECORD_SIZE <? len input))) (HpTooLarge (len input) MAX_RECORD_SIZE) ;;
  record ← run_all HpDecode read_route input;
  route_encode_unsigned record ;;
  Ok record.

(** ** Withdrawals *)
Definition withdrawal_data (network_magic : Z) (relay_key context_id reservation_id ticket_id : list byte) : result HnsrProtocolError (list byte) :=
  validate_public_key relay_key ;;
  assert_or (negb (all_zero context_id || all_zero reservation_id || all_zero ticket_id)) (HpInvalid "zero HNSR withdrawal identifier") ;;
  Ok (to_le_bytes 4 network_magic ++ relay_key ++ context_id ++ reservation_id ++ ticket_id).
Definition sign_withdrawal (network_magic : Z) (relay_key context_id reservation_id ticket_id private_key : list byte) : result HnsrProtocolError (list byte) :=
  data ← withdrawal_data network_magic relay_key context_id reservation_id ticket_id;
  sign WITHDRAW_DOMAIN [data] private_key.
Definition verify_withdrawal (network_magic : Z) (relay_key context_id reservation_id ticket_id signature endpoint_key : list byte) : result HnsrProtocolError unit :=
  data ← withdrawal_data network_magic relay_key context_id reservation_id ticket_id;
  verify WITHDRAW_DOMAIN [data] signature endpoint_key.
End records.
